(* ===== verification/_CoqProject ===== *)
-Q . S2P
Prelude.v
Mem.v
Core.v
Endian.v
Format.v
FieldFixed.v
FieldEscaped.v
FieldPacked.v
FieldVariable.v
FieldVariableLaws.v
WireFormat.v
Compose.v
ComposeLaws.v
Formats.v
PackedFormat.v
Diagnostic.v
Reader.v
TreeReader.v
TreeLaws.v
TreeNodes.v
TreePlaces.v
Visitor.v
QueryPath.v
QueryPathLaws.v
Writer.v
Asn1.v
Asn1Laws.v
Ber.v
BerLaws.v
BerWrite.v
Dol.v
TreeWriter.v
TreeMeasure.v
TreeWriterLaws.v
TreeMeasureLaws.v
Utf8.v
Asn1Values.v
DerValidation.v
DerLaws.v
Codec.v
QueryProgram.v
QueryParser.v
QueryAnalyze.v
QueryCompile.v
QueryParserLaws.v
QueryAnalyzeLaws.v
QueryCompileLaws.v
Values.v
ValuesLaws.v
Number.v
Text.v
Digits.v
Schema.v
SchemaLaws.v
SchemaStructure.v
SchemaReport.v
SchemaScope.v
SchemaValidate.v
CodecStructure.v
SchemaTally.v
SchemaNumber.v
SchemaReportLaws.v
Document.v
DocumentReader.v
DocumentEdit.v
DocumentTree.v
DocumentFree.v
DocumentInv.v
DocumentErase.v
DocumentBuild.v
DocumentConsume.v
DocumentParse.v
DocumentForest.v
DocumentLaws.v
DocumentWriter.v
DocumentEncode.v
DocumentWriterLaws.v
