(* ===== verification/Prelude.v ===== *)
(** * OpenTLV: verification of the core library

    A Rocq model of the C library under [src/tlv/src] and [src/tlv/include/tlv], with the theorems
    that make it correct.  This file is the root: the paragraphs below describe the whole development.
    Source paths are relative to [src/tlv/src] unless they name a header.

    ** The program

    A format decodes, measures and encodes one element, a tag with a value, and is a record of
    callbacks; the library supplies formats composed of field codecs (fixed, escaped, variable and packed
    fields) and BER and DER.  A Reader walks a sequence of elements in a window of octets, a tree Reader
    walks nested elements, a Writer and a tree Writer produce them, value codecs turn values into C
    objects, schemas constrain elements and sequences, and a document is a mutable tree that is parsed
    with a tree Reader and encoded with a tree Writer.  A path query is matched while a tree Reader is visited; an
    expression of the query language is compiled to a program, an image that can be stored and is checked
    before it is used.  A layer reaches the one below it only through
    function pointers and the functions of its header.

    ** How the code is represented

    - A pointer to octets is a [Mem.ptr], NULL or an offset in a block, and octets live in an explicit
      [Mem.mem]; what writes memory returns it.  An out-parameter or a pointer to a struct that the code
      tests for NULL is an [option], and the function returns its new contents.  Arrays of the
      caller's structs are lists or components of the object that keeps the pointer; arrays local to a
      function are lists or a memory of their own.
    - [size_t], [uint64_t] and [uint8_t] are [Z] with the wrap-around written out ([usize], [u64],
      [u32], [u8]) where the code does not exclude it.  [Platform] gives the width of [size_t], from 16 to 64
      bits; theorems hold for all of them.
    - Enumerations are inductive types; a constructor [.._OTHER n] stands for a number that is no
      enumerator, since the code tests for those.
    - A callback is a function closed over its context.  A callback that changes its context returns it.
      Theorems on the layers that take callbacks hold for every callback, or for every callback that
      meets an interface below.
    - Documents live on a heap: [Document.store] has the nodes and documents by address, the memory, and
      what the allocator has handed out.  Operations are in a state monad that is undefined at a
      dereference of an object that is not live and at a release of what is not allocated; the
      allocator is an arbitrary function.  Tables of a structural schema are a function of their address,
      so that tables may refer to each other in cycles.

    ** Files and sources

    - [Prelude], [Mem]: integers, octets, automation; memory, pointers and what a write changes.
    - [Core] (tag.c, size.c, value.c, copy.c, definition.c, tlv/result.h), [Endian] (endian.c),
      [Diagnostic] (diagnostic.c).
    - [Format] (format.c): the checks around the callbacks.  [WireFormat]: the interfaces [DecodeLaws] and
      [CodecLaws].  [FieldFixed] has the interfaces [TagField] and [LengthField]; it, [FieldEscaped],
      [FieldPacked], [FieldVariable] with [FieldVariableLaws] (field/*.c) discharge them;
      [Compose] with [ComposeLaws] (formats/compose.c) makes a lawful format of lawful fields; [Formats]
      (formats/fixed.c, escaped.c, variable.c) and [PackedFormat] (formats/packed.c) are the formats.
    - [Reader] (reader/reader.c), [TreeReader] with [TreeLaws], [TreeNodes] and [TreePlaces]
      (reader/tree.c), [Visitor] (reader/visitor.c).
    - [QueryPath] with [QueryPathLaws] (query/query.c): paths, their text, and visits of the elements they address.
      [QueryProgram] (query/program_internal.h, query/plan.c): images, instructions and the check of them;
      [QueryParser] (query/compiler.c: lex, parse), [QueryAnalyze] (options_check, analyze) and [QueryCompile]
      (tlv_query_compile, and loading, preparing and formatting; query/plan.c): the compiler, its passes in this
      order.  [QueryParserLaws], [QueryAnalyzeLaws] and [QueryCompileLaws] follow its state through them.
    - [Writer] (writer/writer.c), [TreeWriter], [TreeMeasure] with [TreeWriterLaws] and [TreeMeasureLaws]
      (writer/tree.c).
    - [Asn1] with [Asn1Laws] (builtins/asn1/identifier.c, ber_internal.c, asn1_internal.c, der.c): the fields
      of BER and DER, which are variable fields with restrictions, the format of DER and the arithmetic of tags; [Ber]
      with [BerLaws] and [BerWrite] (builtins/asn1/ber.c): definite and indefinite lengths;
      [Asn1Values] (builtins/asn1/asn1_values_internal.c): the contents of the universal types;
      [DerValidation] with [DerLaws] (builtins/asn1/der_validation.c): traversal, reading and writing of nested elements;
      [Dol] (builtins/emv/dol.c): the data object lists of EMV, read through a visitor and written through a resolver.
    - [Utf8] (utf8_internal.c); [Codec] (codec/codec.c) with the interface [ValueCodec]; [Values] with
      [ValuesLaws] (codec/values.c), [Number] (codec/number.c), [Text] (codec/text.c,
      codec/ipv4.c), [Digits] (codec/digits.c), [CodecStructure] (codec/structure.c).
    - [Schema] with [SchemaLaws] (schema/schema.c, schema/constraint.c); [SchemaStructure] (schema/structure.c) and
      [SchemaReport] (schema/report.c), against the conformance of [SchemaScope], with
      [SchemaValidate], [SchemaTally] and [SchemaReportLaws]; [SchemaNumber] (schema/number.c).
    - [Document] and [DocumentEdit] (document/document.c), [DocumentReader] (document/reader.c),
      [DocumentWriter] (document/writer.c).  [DocumentTree] to [DocumentInv] have the representation of a
      forest by linked nodes and the invariant; [DocumentErase], [DocumentBuild] to [DocumentLaws],
      [DocumentEncode] and [DocumentWriterLaws] show that the operations keep it and what they achieve.

    A definition has the name of the function it models.  What the source writes as one function is
    split into the definitions of its loops and branches where they are reasoned about separately, and
    is composed of them in the same order.

    ** What the theorems show

    - Formats: decoding through [tlv_format_decode] is safe for any callback; every format the library
      supplies meets [CodecLaws], so that an element is encoded as its wire octets, these decode to it
      whatever follows, and each of their prefixes is truncated.
    - Readers and Writers, against an abstract forest of elements and its encoding: the events of the tree
      Reader over the encoding are the preorder of the forest, the tree Writer produces the encoding from
      them, a failed operation leaves the output as it was, reading in pieces is reading at once,
      and measuring and visiting are their specifications.  Any input and format give at most two events per
      element.
    - BER: the scan of contents of indefinite length decides a grammar of nested elements, BER decodes exactly
      the elements of either form, and what is written in the indefinite form reads back.  BER and DER meet
      the interfaces, so that what is shown of every lawful format holds of them.  The traversal of DER decides
      nested elements within the limits, what is written as DER reads back, and the validator of object identifiers
      is exact.  What a data object list asks for is written value by value, padded or cut, within the room there is.
    - Value codecs: round trips, and exactness: which octets are accepted and which object they are.
    - Schemas: the check of a schema terminates on cyclic tables and decides well-formedness; validation
      decides conformance; a report counts every violation.
    - Documents: with any format and any allocator, parsing, erasing, encoding and destroying never touch
      dead memory, and release exactly what they own; with a lawful format a parsed document holds the
      forest it was parsed from and is encoded as it.
    - Path queries: the parser accepts exactly the texts of the grammar within the limits, what is formatted reads back,
      and a visit calls the visitor for the elements whose tags from the top are the path, and for no others.
    - The query compiler: the parser is a machine whose stacks and instructions are bounded by the tokens read; the
      instructions are in postfix order, and analysis leaves each of them valid, with constants that the scratch
      space has room for.  So no image is written or loaded that is not a valid program; compiling ends, and says what
      storage it needs; and the variables of a valid program are found by their slots.

    ** Fuel

    Loops whose bound is not structural run on fuel, and a theorem shows that the fuel is enough.  The
    tree Reader drains at most as many ends as scopes are open and skips END events by depth.  Each
    round of the builder uses one of the elements left, or closes a scope: twice the elements left, the depth
    and three ([consume_loop]).  Walks of a document visit a live node at most twice ([walk_fuel]).  A visitor takes a
    round per element and one more.  Measuring takes two rounds per element allowed and one more.  The
    encoder doubles its workspace until it fits: [rounds] is two to the width of [size_t].  The check of a schema has room for a
    fixed number of tables, so it has as many rounds.  A scan of one scope reads at least an octet of
    the input per element ([scan_fuel]), and the main loop can be at each in every one of the nested scopes
    ([item_fuel]).  The search for the shortest permitted width ends at the limit.  A scan of BER
    contents reads an octet or ends a scope in each round: twice the size and two.  Reading tokens takes an octet in
    each round ([lex_total]), the parser a token; the argument lists that are walked have at most three links.
    A traversal of DER has as many rounds; a validator of
    contents advances over an octet in each round, so that it has the length.

    ** Not modelled

    - [document_edit_targets] (document/document.c) and document/query.c: what edits by Query expression do with
      the nodes it selects.
    - The executor of query programs (query/execute.c, evaluation.c, document_backend.c, adapters.c), schema/query.c and
      generator.c.  Of the compiler, what is in the information after a failure and padding; where objects
      of the caller's meet is a boolean argument of the operations on images, but not of the compiler, which
      has their addresses.
    - diagnostic_strings.c and result.c map codes to messages.  Under builtins, the dictionaries
      (emv/dictionary.c, bluetooth, lldp, dhcp) are tables of constants, and the protocol codecs compose the
      codecs above; of ASN.1, CER, the value codecs and der_schema.c are left out.
    - The C++ wrapper, the bindings to other languages, the command line and the tests.
    - Concurrency: the library keeps no state of its own.

    ** Bounds of the statements

    Theorems that encode assume that source and destination do not overlap, as the
    documentation of the functions requires, and that a pointer that is not NULL has the octets its size
    says: a read outside of them is not detected by the model.  The theorems on documents
    assume that addresses are never handed out twice.  Where the code and its documentation differ the theorems
    keep to what both say: reports are of elements with at most TLV_DIAGNOSTIC_PATH_MAX tags on their paths, and the
    visitors of trees give only results that have a name. *)

From Stdlib Require Export ZArith Lia Bool.
From stdpp Require Export base list list_numbers numbers.
#[export] Set Default Goal Selector "!".
Open Scope Z_scope.

(** ** Arithmetic automation

    [zlia] turns boolean comparisons into propositions before it calls [lia]. *)
Ltac bool_to_prop :=
  repeat (progress (rewrite ?andb_true_iff, ?andb_false_iff, ?orb_true_iff, ?orb_false_iff,
    ?negb_true_iff, ?negb_false_iff, ?Z.ltb_lt, ?Z.ltb_ge, ?Z.leb_le, ?Z.leb_gt, ?Z.eqb_eq,
    ?Z.eqb_neq, ?Nat.ltb_lt, ?Nat.ltb_ge, ?Nat.leb_le, ?Nat.leb_gt, ?Nat.eqb_eq, ?Nat.eqb_neq
    in *)).
Ltac zlia :=
  first [lia | try match goal with |- true = _ => symmetry | |- false = _ => symmetry end;
               bool_to_prop; lia].

(** ** Machine integers

    A value of a C unsigned type is a [Z] in the type's range.  Where an operation of the source
    can leave the range the wrap-around is written with one of these. *)
Abbreviation UINT8_MAX := 255.
Abbreviation UINT16_MAX := 65535.
Abbreviation UINT32_MAX := 4294967295.
Abbreviation UINT64_MAX := 18446744073709551615.
Abbreviation INT64_MAX := 9223372036854775807.

Definition u8 (x : Z) : Z := x mod 256.
Definition u16 (x : Z) : Z := x mod 65536.
Definition u32 (x : Z) : Z := x mod 4294967296.
Definition u64 (x : Z) : Z := x mod 18446744073709551616.

(** The platform: the width of [size_t].  [tlv_size_t] is always 64 bits wide, so the checks of
    the source for a narrower [size_t] are live branches of the model. *)
Class Platform := {
  size_bits : Z;
  size_bits_range : 16 <= size_bits <= 64
}.

Definition SIZE_MAX `{Platform} : Z := 2 ^ size_bits - 1.
Definition usize `{Platform} (x : Z) : Z := x mod (SIZE_MAX + 1).

Definition LP64 : Platform := {| size_bits := 64; size_bits_range := ltac:(lia) |}.
Definition ILP32 : Platform := {| size_bits := 32; size_bits_range := ltac:(lia) |}.

Lemma SIZE_MAX_bounds `{Platform} : 65535 <= SIZE_MAX <= UINT64_MAX.
Proof.
  unfold SIZE_MAX. pose proof size_bits_range as Hb.
  assert (2 ^ 16 <= 2 ^ size_bits) by (apply Z.pow_le_mono_r; lia).
  assert (2 ^ size_bits <= 2 ^ 64) by (apply Z.pow_le_mono_r; lia).
  lia.
Qed.

Lemma u8_range x : 0 <= u8 x < 256.
Proof. unfold u8. apply Z.mod_pos_bound. lia. Qed.

Lemma u8_small x : 0 <= x < 256 -> u8 x = x.
Proof. apply Z.mod_small. Qed.

Lemma u8_u8 x : u8 (u8 x) = u8 x.
Proof. unfold u8. now rewrite Z.mod_mod. Qed.

Lemma u64_range x : 0 <= u64 x <= UINT64_MAX.
Proof. unfold u64. pose proof (Z.mod_pos_bound x 18446744073709551616). lia. Qed.

Lemma u64_small x : 0 <= x <= UINT64_MAX -> u64 x = x.
Proof. intros. unfold u64. apply Z.mod_small. lia. Qed.

Lemma usize_small `{Platform} x : 0 <= x <= SIZE_MAX -> usize x = x.
Proof. intros. unfold usize. apply Z.mod_small. lia. Qed.
Lemma usize_range `{Platform} x : 0 <= usize x <= SIZE_MAX.
Proof. unfold usize. pose proof SIZE_MAX_bounds. pose proof (Z.mod_pos_bound x (SIZE_MAX + 1)). lia. Qed.

(** ** Lists of bytes *)

(** [nth i l 0] with a [Z] index: the byte at offset [i] of a byte string. *)
Definition byte_at (l : list Z) (i : Z) : Z := nth (Z.to_nat i) l 0.

(** [zlen l] is the length of a byte string as an integer. *)
Abbreviation zlen l := (Z.of_nat (length l)).

Definition is_byte (x : Z) : Prop := 0 <= x < 256.
Definition bytes (l : list Z) : Prop := Forall is_byte l.

Lemma bytes_app l1 l2 : bytes (l1 ++ l2) <-> bytes l1 /\ bytes l2.
Proof. apply Forall_app. Qed.

(** Lexicographic comparison of byte strings, the order of [memcmp] followed by the lengths. *)
Fixpoint lex (a b : list Z) : Z :=
  match a, b with
  | [], [] => 0
  | [], _ :: _ => -1
  | _ :: _, [] => 1
  | x :: a', y :: b' => if x <? y then -1 else if y <? x then 1 else lex a' b'
  end.

Lemma lex_eq a b : lex a b = 0 <-> a = b.
Proof.
  revert b. induction a as [|x a IH]; intros [|y b]; simpl; try (split; (congruence || lia)).
  destruct (x <? y) eqn:?; [split; [lia|]; intros [= -> ->]; lia|].
  destruct (y <? x) eqn:?; [split; [lia|]; intros [= -> ->]; lia|].
  rewrite IH. split; [intros ->; f_equal; lia|congruence].
Qed.

Lemma lex_antisym a b : lex b a = - lex a b.
Proof.
  revert b. induction a as [|x a IH]; intros [|y b]; simpl; try lia.
  destruct (x <? y) eqn:?, (y <? x) eqn:?; try lia. apply IH.
Qed.

Lemma lex_trans a b c : lex a b < 0 -> lex b c < 0 -> lex a c < 0.
Proof.
  revert b c. induction a as [|x a IH]; intros [|y b] [|z c]; simpl; try lia.
  destruct (x <? y) eqn:?, (y <? x) eqn:?, (y <? z) eqn:?, (z <? y) eqn:?,
    (x <? z) eqn:?, (z <? x) eqn:?; try lia.
  apply IH.
Qed.

Lemma lex_sign a b : lex a b = -1 \/ lex a b = 0 \/ lex a b = 1.
Proof.
  revert b. induction a as [|x a IH]; intros [|y b]; simpl; auto.
  destruct (x <? y); [auto|]. destruct (y <? x); auto.
Qed.

(** ** Big-endian integers as byte strings: the reference for every integer field *)

Definition be_value (l : list Z) : Z := fold_left (fun acc b => acc * 256 + b) l 0.

Fixpoint le_bytes (n : nat) (v : Z) : list Z :=
  match n with
  | O => []
  | S n => u8 v :: le_bytes n (v / 256)
  end.

Definition be_bytes (n : nat) (v : Z) : list Z := rev (le_bytes n v).

Lemma be_value_snoc l b : be_value (l ++ [b]) = be_value l * 256 + b.
Proof. unfold be_value. now rewrite fold_left_app. Qed.

Lemma be_value_nil : be_value [] = 0.
Proof. reflexivity. Qed.

Lemma length_le_bytes n v : length (le_bytes n v) = n.
Proof. revert v. induction n; intros; simpl; auto. Qed.

Lemma length_be_bytes n v : length (be_bytes n v) = n.
Proof. unfold be_bytes. now rewrite length_rev, length_le_bytes. Qed.

Lemma le_bytes_bytes n v : bytes (le_bytes n v).
Proof.
  revert v. induction n; intros; simpl; constructor; [apply u8_range|apply IHn].
Qed.

Lemma be_bytes_bytes n v : bytes (be_bytes n v).
Proof. apply Forall_rev, le_bytes_bytes. Qed.

Lemma pow256_pos n : 0 < 256 ^ Z.of_nat n.
Proof. apply Z.pow_pos_nonneg; lia. Qed.

Lemma pow256_S n : 256 ^ Z.of_nat (S n) = 256 * 256 ^ Z.of_nat n.
Proof. rewrite Nat2Z.inj_succ, Z.pow_succ_r by lia. reflexivity. Qed.

Lemma be_value_be_bytes n v : be_value (be_bytes n v) = v mod 256 ^ Z.of_nat n.
Proof.
  revert v. induction n as [|n IH]; intros v.
  - simpl. now rewrite Z.mod_1_r.
  - unfold be_bytes in *. simpl rev. rewrite be_value_snoc, IH.
    rewrite pow256_S, Z.rem_mul_r by (pose proof (pow256_pos n); lia).
    unfold u8. lia.
Qed.

Lemma be_value_range l : bytes l -> 0 <= be_value l < 256 ^ zlen l.
Proof.
  induction l as [|b l IH] using rev_ind; intros Hb.
  - change (0 <= 0 < 1). lia.
  - apply bytes_app in Hb as [Hl Hb]. inversion Hb as [|? ? Hx _]; subst.
    specialize (IH Hl). unfold is_byte in Hx.
    rewrite be_value_snoc, length_app. simpl length.
    rewrite Nat.add_1_r, pow256_S. lia.
Qed.

Lemma be_bytes_be_value l : bytes l -> be_bytes (length l) (be_value l) = l.
Proof.
  induction l as [|b l IH] using rev_ind; intros Hb; [reflexivity|].
  apply bytes_app in Hb as [Hl Hb]. inversion Hb as [|? ? Hx _]; subst. unfold is_byte in Hx.
  rewrite be_value_snoc, length_app. simpl length. rewrite Nat.add_1_r.
  unfold be_bytes in *. simpl.
  replace ((be_value l * 256 + b) / 256) with (be_value l).
  2: { rewrite Z.add_comm, Z.div_add, Z.div_small by lia. lia. }
  rewrite IH by done. f_equal. f_equal. unfold u8.
  rewrite Z.add_comm, Z_mod_plus_full. apply Z.mod_small. lia.
Qed.

Lemma be_bytes_inj l1 l2 : bytes l1 -> bytes l2 -> length l1 = length l2 ->
  be_value l1 = be_value l2 -> l1 = l2.
Proof.
  intros H1 H2 Hl Hv. rewrite <- (be_bytes_be_value l1), <- (be_bytes_be_value l2) by done.
  now rewrite Hl, Hv.
Qed.

(** ** A fold that may stop *)

Fixpoint fold_until {A B R} (step : B -> A -> B + R) (b : B) (l : list A) : B + R :=
  match l with
  | [] => inl b
  | x :: l => match step b x with inl b => fold_until step b l | inr r => inr r end
  end.

Lemma fold_until_app {A B R} (step : B -> A -> B + R) l1 l2 : forall b,
  fold_until step b (l1 ++ l2) = match fold_until step b l1 with inl b => fold_until step b l2 | inr r => inr r end.
Proof. induction l1 as [|x l1 IH]; intros b; cbn [app fold_until]; [done|]. destruct (step b x); [apply IH|done]. Qed.

(** ** Bits *)

Lemma land_ones_mod x n : 0 <= n -> Z.land x (2 ^ n - 1) = x mod 2 ^ n.
Proof. intros. rewrite <- Z.land_ones by lia. now rewrite Z.ones_equiv. Qed.

(** A disjoint [lor] is a sum. *)
Lemma land_shift_low a b n : 0 <= n -> 0 <= b < 2 ^ n -> Z.land (a * 2 ^ n) b = 0.
Proof.
  intros Hn Hb. rewrite <- (Z.mod_small b (2 ^ n)) by lia.
  apply Z.bits_inj'. intros i Hi. rewrite Z.land_spec, Z.bits_0.
  destruct (Z.lt_ge_cases i n).
  - now rewrite Z.mul_pow2_bits_low by lia.
  - rewrite Z.mod_pow2_bits_high by lia. apply andb_false_r.
Qed.

Lemma lor_shift_add a b n : 0 <= n -> 0 <= b < 2 ^ n -> Z.lor (a * 2 ^ n) b = a * 2 ^ n + b.
Proof. intros. pose proof (Z.add_lor_land (a * 2 ^ n) b). rewrite land_shift_low in * by lia. lia. Qed.

Lemma lor_byte a b : 0 <= b < 256 -> Z.lor (Z.shiftl a 8) b = a * 256 + b.
Proof.
  intros. rewrite Z.shiftl_mul_pow2 by lia. apply (lor_shift_add a b 8); lia.
Qed.

(** ** Deciding a predicate on octets by enumeration *)

Definition all_octets : list Z := seqZ 0 256.

Lemma octets_decide (P : Z -> bool) :
  forallb P all_octets = true -> forall a, 0 <= a < 256 -> P a = true.
Proof.
  intros H a Ha. rewrite forallb_forall in H. apply H. apply list_elem_of_In, elem_of_seqZ. lia.
Qed.

Lemma octets_decide2 (P : Z -> Z -> bool) a b :
  forallb (fun m => forallb (P m) all_octets) all_octets = true -> 0 <= a < 256 -> 0 <= b < 256 ->
  P a b = true.
Proof. intros H Ha Hb. apply octets_decide; [|done]. apply (octets_decide (fun m => forallb (P m) all_octets)); done. Qed.
