(* ===== verification/Mem.v ===== *)
(** * The C memory the library works on

    A pointer to bytes is [NULL] or an offset into a numbered block, so that pointer equality,
    pointer arithmetic and NULL tests are those of the source.  A memory gives every cell a byte;
    [memcpy], [memmove], [memset] and stores are one range update.  A callback of the source
    that reads through a [const uint8_t*] takes the memory; one that writes returns the memory
    it leaves. *)

From S2P Require Import Prelude.

(** ** Pointers *)

Inductive ptr : Type :=
| NULL
| Ptr (block offset : Z).

#[export] Instance ptr_eq_dec : EqDecision ptr.
Proof. solve_decision. Defined.

Definition is_null (p : ptr) : bool := match p with NULL => true | _ => false end.

(** C's [p + n]. *)
Definition padd (p : ptr) (n : Z) : ptr :=
  match p with NULL => NULL | Ptr b o => Ptr b (o + n) end.

Definition ptr_eqb (p q : ptr) : bool := bool_decide (p = q).

Declare Scope ptr_scope.
Delimit Scope ptr_scope with ptr.
Infix "+p" := padd (at level 50, left associativity) : ptr_scope.
Open Scope ptr_scope.

Lemma padd_0 p : p +p 0 = p.
Proof. destruct p; simpl; [done|]. f_equal. lia. Qed.

Lemma padd_padd p a b : p +p a +p b = p +p (a + b).
Proof. destruct p; simpl; [done|]. f_equal. lia. Qed.

Lemma is_null_padd p n : is_null (p +p n) = is_null p.
Proof. now destruct p. Qed.

Lemma ptr_eqb_refl p : ptr_eqb p p = true.
Proof. unfold ptr_eqb. now apply bool_decide_eq_true_2. Qed.

Lemma ptr_eqb_true p q : ptr_eqb p q = true <-> p = q.
Proof. apply bool_decide_eq_true. Qed.

(** ** Memory *)

Definition mem : Type := Z -> Z -> Z.

(** [p[i]]: a cell is read as a [uint8_t]. *)
Definition ld (m : mem) (p : ptr) (i : Z) : Z :=
  match p with NULL => 0 | Ptr b o => u8 (m b (o + i)) end.

(** Whether cell [(b, o)] is one of the [n] bytes at [p]. *)
Definition inside (p : ptr) (n b o : Z) : bool :=
  match p with NULL => false | Ptr pb po => (pb =? b) && (po <=? o) && (o <? po + n) end.

(** The memory after bytes [0 <= i < n] at [p] have been set to [f i]. *)
Definition set_range (m : mem) (p : ptr) (n : Z) (f : Z -> Z) : mem :=
  match p with
  | NULL => m
  | Ptr pb po => fun b o => if inside (Ptr pb po) n b o then f (o - po) else m b o
  end.

Definition st (m : mem) (p : ptr) (i v : Z) : mem := set_range m (p +p i) 1 (fun _ => u8 v).
Definition memmove (m : mem) (dst src : ptr) (n : Z) : mem := set_range m dst n (ld m src).
Definition memset (m : mem) (dst : ptr) (v n : Z) : mem := set_range m dst n (fun _ => u8 v).

(** [memcpy]: its operands never overlap in a defined program, where it is [memmove]. *)
Definition memcpy : mem -> ptr -> ptr -> Z -> mem := memmove.

(** The [n] bytes at [p]. *)
Definition bytes_of (m : mem) (p : ptr) (n : Z) : list Z :=
  map (fun i => ld m p (Z.of_nat i)) (seq 0 (Z.to_nat n)).

Definition memcmp (m : mem) (a b : ptr) (n : Z) : Z := lex (bytes_of m a n) (bytes_of m b n).

(** A memory holding byte string [l] from the start of block [b], zero elsewhere. *)
Definition mem_of (b : Z) (l : list Z) : mem :=
  fun b' o => if (b' =? b) && (0 <=? o) then byte_at l o else 0.

(** [l] stored at offset 0 of block [b] of [m]. *)
Definition put_bytes (m : mem) (b : Z) (l : list Z) : mem :=
  set_range m (Ptr b 0) (zlen l) (byte_at l).

(** ** Agreement of memories and separation of ranges *)

(** Two memories give the same bytes in the [n] cells at [p]. *)
Definition same_bytes (m1 m2 : mem) (p : ptr) (n : Z) : Prop :=
  forall i, 0 <= i < n -> ld m1 p i = ld m2 p i.

(** The [n] cells at [p] and the [k] cells at [q] are disjoint. *)
Definition disjoint_range (p : ptr) (n : Z) (q : ptr) (k : Z) : Prop :=
  match p, q with
  | Ptr b o, Ptr b' o' => b <> b' \/ o + n <= o' \/ o' + k <= o
  | _, _ => True
  end.

(** [m'] differs from [m] at most in the [n] bytes at [p]. *)
Definition only_changes (m m' : mem) (p : ptr) (n : Z) : Prop :=
  forall b o, inside p n b o = false -> m' b o = m b o.

Lemma ld_range m p i : 0 <= ld m p i < 256.
Proof. destruct p; simpl; [lia|]. apply u8_range. Qed.

Lemma ld_padd m p n i : ld m (p +p n) i = ld m p (n + i).
Proof. destruct p; simpl; [done|]. now rewrite Z.add_assoc. Qed.

Lemma ld_set_range_in m b o n f i : 0 <= i < n -> ld (set_range m (Ptr b o) n f) (Ptr b o) i = u8 (f i).
Proof.
  intros. simpl. replace ((b =? b) && (o <=? o + i) && (o + i <? o + n)) with true by lia.
  do 2 f_equal. lia.
Qed.

Lemma set_range_only m p n f : only_changes m (set_range m p n f) p n.
Proof. intros b o Hi. destruct p; simpl in *; [done|]. now rewrite Hi. Qed.

Lemma only_refl m p n : only_changes m m p n.
Proof. done. Qed.

Lemma only_trans m1 m2 m3 p n :
  only_changes m1 m2 p n -> only_changes m2 m3 p n -> only_changes m1 m3 p n.
Proof. intros H1 H2 b o Hi. rewrite H2, H1 by done. done. Qed.

Lemma only_sub m m' p n k j :
  0 <= k -> k + j <= n -> only_changes m m' (p +p k) j -> only_changes m m' p n.
Proof.
  intros Hk Hj Ho b o Hi. apply Ho. destruct p; simpl in *; [done|]. lia.
Qed.

Lemma only_prefix m m' p n j : j <= n -> only_changes m m' p j -> only_changes m m' p n.
Proof. intros Hj Ho b o Hi. apply Ho. destruct p; simpl in *; [done|]. lia. Qed.

Lemma only_ld m m' p n q i :
  only_changes m m' p n -> disjoint_range p n q (i + 1) -> 0 <= i -> ld m' q i = ld m q i.
Proof.
  intros Ho Hd Hi. destruct q; simpl; [done|]. f_equal. apply Ho.
  destruct p; simpl in *; [done|]. lia.
Qed.

Lemma only_same m m' p n q k :
  only_changes m m' p n -> disjoint_range p n q k -> same_bytes m' m q k.
Proof.
  intros Ho Hd i Hi. destruct q; simpl; [done|]. f_equal. apply Ho.
  destruct p; simpl in *; [done|]. lia.
Qed.

Lemma length_bytes_of m p n : length (bytes_of m p n) = Z.to_nat n.
Proof. unfold bytes_of. now rewrite length_map, length_seq. Qed.

Lemma bytes_of_bytes m p n : bytes (bytes_of m p n).
Proof.
  unfold bytes_of, bytes. apply List.Forall_forall. intros x Hx.
  apply in_map_iff in Hx as (i & <- & _). apply ld_range.
Qed.

Lemma same_bytes_of m1 m2 p n : same_bytes m1 m2 p n -> bytes_of m1 p n = bytes_of m2 p n.
Proof.
  intros H. unfold bytes_of. apply map_ext_in. intros i Hi. apply in_seq in Hi.
  apply H. lia.
Qed.

Lemma bytes_of_ext m1 m2 p q n :
  (forall i, 0 <= i < n -> ld m1 p i = ld m2 q i) -> bytes_of m1 p n = bytes_of m2 q n.
Proof.
  intros H. unfold bytes_of. apply map_ext_in. intros i Hi. apply in_seq in Hi.
  apply H. lia.
Qed.

Lemma bytes_of_0 m p n : n <= 0 -> bytes_of m p n = [].
Proof. intros. unfold bytes_of. now replace (Z.to_nat n) with 0%nat by lia. Qed.

Lemma bytes_of_app m p a b :
  0 <= a -> 0 <= b -> bytes_of m p (a + b) = bytes_of m p a ++ bytes_of m (p +p a) b.
Proof.
  intros Ha Hb. unfold bytes_of. rewrite Z2Nat.inj_add, seq_app, map_app by lia. f_equal.
  assert (forall k s, map (fun i => ld m p (Z.of_nat i)) (seq (Z.to_nat a + s) k) =
                      map (fun i => ld m (p +p a) (Z.of_nat i)) (seq s k)) as Hm.
  { intros k. induction k as [|k IH]; intros s; [done|]. cbn [seq map].
    rewrite <- IH, ld_padd. f_equal; [f_equal; lia|do 2 f_equal; lia]. }
  rewrite <- Hm. do 2 f_equal. lia.
Qed.

Lemma bytes_of_cons m p n : 0 <= n -> bytes_of m p (1 + n) = ld m p 0 :: bytes_of m (p +p 1) n.
Proof. intros. rewrite bytes_of_app by lia. unfold bytes_of at 1. simpl. done. Qed.

Lemma bytes_of_1 m p : bytes_of m p 1 = [ld m p 0].
Proof. done. Qed.

Lemma octets_from m v n i : 0 <= i < n ->
  bytes_of m (v +p i) (n - i) = ld m v i :: bytes_of m (v +p (i + 1)) (n - (i + 1)).
Proof.
  intros Hi. replace (n - i) with (1 + (n - (i + 1))) by lia.
  rewrite bytes_of_cons, padd_padd, ld_padd, Z.add_0_r by lia. done.
Qed.

Lemma bytes_of_snoc m p n : 0 <= n -> bytes_of m p (n + 1) = bytes_of m p n ++ [ld m p n].
Proof.
  intros. rewrite bytes_of_app by lia. f_equal. unfold bytes_of. change (Z.to_nat 1) with 1%nat. cbn [seq map].
  rewrite ld_padd. now rewrite Z.add_0_r.
Qed.

Lemma same_bytes_refl m p n : same_bytes m m p n.
Proof. done. Qed.

Lemma same_bytes_sub m1 m2 p n k j :
  same_bytes m1 m2 p n -> 0 <= k -> k + j <= n -> same_bytes m1 m2 (p +p k) j.
Proof. intros H Hk Hj i Hi. rewrite !ld_padd. apply H. lia. Qed.

Lemma same_bytes_ld m1 m2 p n i : same_bytes m1 m2 p n -> 0 <= i < n -> ld m1 p i = ld m2 p i.
Proof. intros H Hi. now apply H. Qed.

(** What [memmove] leaves in its destination. *)
Lemma bytes_of_memmove m dst src n :
  is_null dst = false -> bytes_of (memmove m dst src n) dst n = bytes_of m src n.
Proof.
  intros Hd. destruct dst as [|b o]; [done|]. apply bytes_of_ext. intros i Hi.
  unfold memmove. rewrite ld_set_range_in by done. apply u8_small, ld_range.
Qed.

Lemma memmove_only m dst src n : only_changes m (memmove m dst src n) dst n.
Proof. apply set_range_only. Qed.

Lemma st_only m p i v n : 0 <= i < n -> only_changes m (st m p i v) p n.
Proof.
  intros Hi. apply (only_sub _ _ _ _ i 1); [lia|lia|]. apply set_range_only.
Qed.

Lemma ld_st_same m p i v : is_null p = false -> ld (st m p i v) p i = u8 v.
Proof.
  destruct p as [|b o]; [done|]. intros _. unfold st. simpl.
  replace ((b =? b) && (o + i <=? o + i) && (o + i <? o + i + 1)) with true by lia.
  now rewrite u8_u8.
Qed.

Lemma ld_st_other m p i v j : i <> j -> ld (st m p i v) p j = ld m p j.
Proof.
  intros. destruct p as [|b o]; [done|]. unfold st. simpl.
  now replace ((b =? b) && (o + i <=? o + j) && (o + j <? o + i + 1)) with false by lia.
Qed.

Lemma bytes_of_put m b l : bytes l -> bytes_of (put_bytes m b l) (Ptr b 0) (zlen l) = l.
Proof.
  intros Hl. apply (nth_ext _ _ 0 0).
  - rewrite length_bytes_of. lia.
  - intros i Hi. rewrite length_bytes_of in Hi. unfold bytes_of.
    rewrite (nth_indep _ 0 (ld (put_bytes m b l) (Ptr b 0) (Z.of_nat 0)))
      by (rewrite length_map, length_seq; lia).
    rewrite (map_nth (fun i => ld (put_bytes m b l) (Ptr b 0) (Z.of_nat i))), seq_nth by lia.
    unfold put_bytes. rewrite ld_set_range_in by lia. unfold byte_at.
    replace (Z.to_nat (Z.of_nat (0 + i))) with i by lia.
    apply u8_small. unfold bytes, is_byte in Hl. rewrite Forall_nth in Hl. apply Hl. lia.
Qed.

(** A local array [l] copied to [p]. *)
Definition put_at (m : mem) (p : ptr) (l : list Z) : mem := set_range m p (zlen l) (byte_at l).

Lemma bytes_of_put_at m p l : p <> NULL -> bytes l -> bytes_of (put_at m p l) p (zlen l) = l.
Proof.
  intros Hp Hl. destruct p as [|b o]; [done|]. rewrite <- (bytes_of_put m b l Hl) at 3.
  apply bytes_of_ext. intros i Hi. unfold put_at, put_bytes. now rewrite !ld_set_range_in by lia.
Qed.

Lemma put_at_only m p l : only_changes m (put_at m p l) p (zlen l).
Proof. apply set_range_only. Qed.

Lemma byte_at_bytes_of m p n i : 0 <= i < n -> byte_at (bytes_of m p n) i = ld m p i.
Proof.
  intros Hi. unfold byte_at, bytes_of.
  rewrite (nth_indep _ 0 (ld m p (Z.of_nat 0))) by (rewrite length_map, length_seq; lia).
  rewrite (map_nth (fun j => ld m p (Z.of_nat j))), seq_nth by lia. f_equal. lia.
Qed.

Lemma ld_mem_of b l i : 0 <= i -> ld (mem_of b l) (Ptr b 0) i = u8 (byte_at l i).
Proof.
  intros Hi. unfold ld, mem_of. now rewrite Z.eqb_refl, Z.add_0_l, (proj2 (Z.leb_le 0 i)).
Qed.

(** Bytes moved to a memory of their own. *)
Lemma ld_mem_of_bytes_of b m p n i : 0 <= i < n -> ld (mem_of b (bytes_of m p n)) (Ptr b 0) i = ld m p i.
Proof. intros Hi. rewrite ld_mem_of, byte_at_bytes_of by lia. apply u8_small, ld_range. Qed.

Create HintDb mem.
#[export] Hint Resolve ld_range bytes_of_bytes same_bytes_refl only_refl memmove_only : mem.
Create Rewrite HintDb mem.
#[export] Hint Rewrite padd_0 padd_padd is_null_padd ld_padd ptr_eqb_refl : mem.

#[global] Arguments set_range : simpl never.
#[global] Arguments memmove : simpl never.
#[global] Arguments st : simpl never.
#[global] Arguments ld : simpl never.
#[global] Arguments bytes_of : simpl never.

(** [m'] is [m] with the octets [l] at [data]. *)
Definition laid (m m' : mem) (data : ptr) (l : list Z) : Prop := only_changes m m' data (zlen l) /\ bytes_of m' data (zlen l) = l.

Lemma laid_nil m data : laid m m data [].
Proof. split; [apply only_refl|now apply bytes_of_0]. Qed.

(** Octets are written behind those that are. *)
Lemma laid_app m m' m'' data l k l' : zlen l' = k -> laid m m' data l -> only_changes m' m'' (data +p zlen l) k -> bytes_of m'' (data +p zlen l) k = l' ->
  laid m m'' data (l ++ l').
Proof.
  intros <- [Ho Hb] Ho' Hb'. unfold laid. rewrite length_app, Nat2Z.inj_add. split.
  - eapply only_trans; [apply (only_prefix _ _ _ _ (zlen l)); [lia|exact Ho]|]. apply (only_sub _ _ _ _ (zlen l) (zlen l')); [lia|lia|exact Ho'].
  - rewrite bytes_of_app, Hb' by lia. f_equal. rewrite <- Hb at 2. apply same_bytes_of, (only_same _ _ _ _ _ _ Ho'). destruct data; simpl; lia.
Qed.

Lemma laid_copy m m' data l src k : 0 <= k -> data <> NULL -> laid m m' data l -> disjoint_range data (zlen l) src k ->
  laid m (memcpy m' (data +p zlen l) src k) data (l ++ bytes_of m src k).
Proof.
  intros Hk Hd Hm Hap. apply (laid_app m m' _ data l k); [rewrite length_bytes_of; lia|done|apply memmove_only|].
  unfold memcpy. rewrite bytes_of_memmove by (rewrite is_null_padd; now destruct data). apply same_bytes_of, (only_same _ _ _ _ _ _ (proj1 Hm)). done.
Qed.

Lemma laid_octet m m' data l i x : 0 <= x < 256 -> i = zlen l -> data <> NULL -> laid m m' data l -> laid m (st m' data i x) data (l ++ [x]).
Proof.
  intros Hx -> Hd Hm. apply (laid_app m m' _ data l 1); [done|done| |].
  - unfold st. apply set_range_only.
  - rewrite bytes_of_1, ld_padd, Z.add_0_r, ld_st_same by now destruct data. now rewrite u8_small by lia.
Qed.
