(* ===== verification/Core.v ===== *)
(** * Core values: result codes, sizes, tags, values, elements, copying, definitions

    tlv/result.h, src/callback_internal.h, src/size.c, src/tag.c, src/value.c, src/copy.c (byte
    copies) and src/definition.c.

    Every function takes and returns what the C function takes and returns: a data pointer is a
    [ptr]; an out-parameter is an [option] cell, [None] when the caller passes NULL and
    [Some old] otherwise, returned as the cell's content after the call; a function that writes
    bytes takes the memory and returns the memory it leaves. *)

From S2P Require Import Prelude Mem.

(** ** Result codes (result.h).  [TLV_RESULT_OTHER n] is an [int] that names no enumerator, which a
    provider's callback can return. *)
Inductive tlv_result_t : Type :=
| TLV_OK | TLV_END | TLV_NEED_MORE_DATA | TLV_ERR_TRUNCATED | TLV_ERR_INVALID_TAG
| TLV_ERR_INVALID_TAG_SIZE | TLV_ERR_INVALID_LENGTH | TLV_ERR_INVALID_VALUE | TLV_ERR_SYNTAX
| TLV_ERR_SCHEMA | TLV_ERR_NULL_ARG | TLV_ERR_INVALID_ARG | TLV_ERR_INVALID_STATE
| TLV_ERR_INVALID_SCHEMA | TLV_ERR_BUFFER_TOO_SHORT | TLV_ERR_LIMIT | TLV_ERR_OVERFLOW
| TLV_ERR_NATIVE_SIZE | TLV_ERR_OUT_OF_MEMORY | TLV_ERR_UNSUPPORTED | TLV_ERR_VISITOR
| TLV_ERR_CALLBACK | TLV_RESULT_OTHER (n : Z).

#[export] Instance tlv_result_eq_dec : EqDecision tlv_result_t.
Proof. solve_decision. Defined.

(** C's [a == b] on result codes. *)
Definition rc_eqb (a b : tlv_result_t) : bool := bool_decide (a = b).
Definition is_ok (rc : tlv_result_t) : bool := rc_eqb rc TLV_OK.

Lemma rc_eqb_true a b : rc_eqb a b = true <-> a = b.
Proof. apply bool_decide_eq_true. Qed.

Lemma rc_eqb_false a b : rc_eqb a b = false <-> a <> b.
Proof. apply bool_decide_eq_false. Qed.

Lemma rc_eqb_refl a : rc_eqb a a = true.
Proof. now apply rc_eqb_true. Qed.

Lemma is_ok_true rc : is_ok rc = true <-> rc = TLV_OK.
Proof. apply rc_eqb_true. Qed.

Lemma is_ok_false rc : is_ok rc = false <-> rc <> TLV_OK.
Proof. apply rc_eqb_false. Qed.

(** What a callback's result becomes: control statuses and unknown codes are a violated contract. *)
Definition tlv_callback_result (result : tlv_result_t) (allow_end : bool) : tlv_result_t :=
  match result with
  | TLV_END => if allow_end then result else TLV_ERR_CALLBACK
  | TLV_OK | TLV_ERR_BUFFER_TOO_SHORT | TLV_ERR_INVALID_LENGTH | TLV_ERR_NULL_ARG
  | TLV_ERR_OUT_OF_MEMORY | TLV_ERR_INVALID_TAG | TLV_ERR_VISITOR | TLV_ERR_LIMIT
  | TLV_ERR_SCHEMA | TLV_ERR_INVALID_ARG | TLV_ERR_INVALID_TAG_SIZE | TLV_ERR_SYNTAX
  | TLV_ERR_TRUNCATED | TLV_ERR_OVERFLOW | TLV_ERR_INVALID_VALUE | TLV_ERR_UNSUPPORTED
  | TLV_ERR_INVALID_SCHEMA | TLV_ERR_NATIVE_SIZE | TLV_ERR_INVALID_STATE
  | TLV_ERR_CALLBACK => result
  | TLV_NEED_MORE_DATA => TLV_ERR_CALLBACK
  | TLV_RESULT_OTHER _ => TLV_ERR_CALLBACK
  end.

Lemma callback_result_ok rc e : tlv_callback_result rc e = TLV_OK <-> rc = TLV_OK.
Proof. destruct rc, e; simpl; split; congruence. Qed.

Lemma callback_result_control rc :
  tlv_callback_result rc false <> TLV_END /\ tlv_callback_result rc false <> TLV_NEED_MORE_DATA.
Proof. destruct rc; simpl; split; congruence. Qed.

(** [*p] of an out-parameter known not to be NULL at the call. *)
Definition cell {A} (d : A) (o : option A) : A := match o with Some x => x | None => d end.

(** ** Sizes (size.c) *)

Definition tlv_size_from_native (size : Z) (logical_size : option Z) : tlv_result_t * option Z :=
  match logical_size with
  | None => (TLV_ERR_NULL_ARG, None)
  | Some _ => (TLV_OK, Some (u64 size))
  end.

Definition tlv_size_to_native `{Platform} (logical_size : Z) (size : option Z)
  : tlv_result_t * option Z :=
  match size with
  | None => (TLV_ERR_NULL_ARG, None)
  | Some _ =>
      if SIZE_MAX <? logical_size then (TLV_ERR_NATIVE_SIZE, size)
      else (TLV_OK, Some (usize logical_size))
  end.

Definition tlv_size_validate_native `{Platform} (logical_size : Z) : tlv_result_t :=
  if SIZE_MAX <? logical_size then TLV_ERR_NATIVE_SIZE else TLV_OK.

Definition tlv_size_add (a b : Z) (sum : option Z) : tlv_result_t * option Z :=
  match sum with
  | None => (TLV_ERR_NULL_ARG, None)
  | Some _ =>
      if UINT64_MAX - a <? b then (TLV_ERR_OVERFLOW, sum) else (TLV_OK, Some (u64 (a + b)))
  end.

(** ** Tags (tag.h, tag.c) *)

Record tlv_tag_t := mk_tag { t_data : ptr; t_size : Z }.

Definition tlv_tag (data : ptr) (size : Z) : tlv_tag_t := mk_tag data size.
Definition empty_tag : tlv_tag_t := mk_tag NULL 0.

#[export] Instance tlv_tag_eq_dec : EqDecision tlv_tag_t.
Proof. solve_decision. Defined.

Definition tlv_tag_equal (m : mem) (lhs rhs : tlv_tag_t) : bool :=
  if negb (lhs.(t_size) =? rhs.(t_size)) then false
  else if lhs.(t_size) =? 0 then true
  else memcmp m lhs.(t_data) rhs.(t_data) lhs.(t_size) =? 0.

Definition tlv_tag_compare (m : mem) (lhs rhs : tlv_tag_t) : Z :=
  let common := if lhs.(t_size) <? rhs.(t_size) then lhs.(t_size) else rhs.(t_size) in
  let order := if common =? 0 then 0 else memcmp m lhs.(t_data) rhs.(t_data) common in
  if negb (order =? 0) then (if order <? 0 then -1 else 1)
  else if lhs.(t_size) =? rhs.(t_size) then 0
  else if lhs.(t_size) <? rhs.(t_size) then -1 else 1.

Definition tlv_tag_is_empty (tag : tlv_tag_t) : bool := tag.(t_size) =? 0.

(** FNV-1a over the identifier bytes. *)
Definition tlv_tag_hash `{Platform} (m : mem) (tag : tlv_tag_t) : Z :=
  usize (fold_left (fun hash b => u64 (Z.lxor hash b * 1099511628211))
           (bytes_of m tag.(t_data) tag.(t_size)) 14695981039346656037).

Definition tlv_tag_copy (m : mem) (tag : tlv_tag_t) (data : ptr) (capacity : Z)
  (written : option Z) : tlv_result_t * mem * option Z :=
  match written with
  | None => (TLV_ERR_NULL_ARG, m, written)
  | Some _ =>
      if is_null data && negb (capacity =? 0) then (TLV_ERR_NULL_ARG, m, written)
      else if is_null tag.(t_data) && negb (tag.(t_size) =? 0) then (TLV_ERR_NULL_ARG, m, written)
      else if is_null data then (TLV_OK, m, Some tag.(t_size))
      else if capacity <? tag.(t_size) then (TLV_ERR_BUFFER_TOO_SHORT, m, written)
      else (TLV_OK,
            (if negb (tag.(t_size) =? 0) then memmove m data tag.(t_data) tag.(t_size) else m),
            Some tag.(t_size))
  end.

(** ** Values (value.h, value.c) *)

Record tlv_value_t := mk_value { v_data : ptr; v_size : Z }.

Definition tlv_value_init `{Platform} (data : ptr) (length : Z) (value : option tlv_value_t)
  : tlv_result_t * option tlv_value_t :=
  match value with
  | None => (TLV_ERR_NULL_ARG, value)
  | Some _ =>
      if is_null data && negb (length =? 0) then (TLV_ERR_NULL_ARG, value)
      else
        let rc := tlv_size_validate_native length in
        if negb (is_ok rc) then (rc, value) else (TLV_OK, Some (mk_value data length))
  end.

Definition tlv_value_validate `{Platform} (value : option tlv_value_t) : tlv_result_t :=
  match value with
  | None => TLV_ERR_NULL_ARG
  | Some v =>
      if is_null v.(v_data) && negb (v.(v_size) =? 0) then TLV_ERR_NULL_ARG
      else tlv_size_validate_native v.(v_size)
  end.

Definition tlv_value_equal (m : mem) (lhs rhs : tlv_value_t) : bool :=
  if negb (lhs.(v_size) =? rhs.(v_size)) then false
  else if lhs.(v_size) =? 0 then true
  else memcmp m lhs.(v_data) rhs.(v_data) lhs.(v_size) =? 0.

Definition tlv_value_compare (m : mem) (lhs rhs : tlv_value_t) : Z :=
  let common := if lhs.(v_size) <? rhs.(v_size) then lhs.(v_size) else rhs.(v_size) in
  let order := if common =? 0 then 0 else memcmp m lhs.(v_data) rhs.(v_data) common in
  if negb (order =? 0) then (if order <? 0 then -1 else 1)
  else if lhs.(v_size) =? rhs.(v_size) then 0
  else if lhs.(v_size) <? rhs.(v_size) then -1 else 1.

Definition tlv_value_is_empty (value : tlv_value_t) : bool := value.(v_size) =? 0.

Definition tlv_value_slice `{Platform} (value : tlv_value_t) (offset length : Z)
  (out : option tlv_value_t) : tlv_result_t * option tlv_value_t :=
  match out with
  | None => (TLV_ERR_NULL_ARG, out)
  | Some _ =>
      let rc := tlv_value_validate (Some value) in
      if negb (is_ok rc) then (rc, out) else
      let '(rc, end_) := tlv_size_add offset length (Some 0) in
      if negb (is_ok rc) then (rc, out)
      else if value.(v_size) <? cell 0 end_ then (TLV_ERR_INVALID_LENGTH, out)
      else (TLV_OK,
            Some (mk_value (if length =? 0 then NULL else value.(v_data) +p usize offset) length))
  end.

Definition tlv_value_copy `{Platform} (m : mem) (value : tlv_value_t) (data : ptr) (capacity : Z)
  (written : option Z) : tlv_result_t * mem * option Z :=
  match written with
  | None => (TLV_ERR_NULL_ARG, m, written)
  | Some _ =>
      let '(rc, native) := tlv_size_to_native value.(v_size) (Some 0) in
      if negb (is_ok rc) then (rc, m, written) else
      let length := cell 0 native in
      if is_null data && negb (capacity =? 0) then (TLV_ERR_NULL_ARG, m, written)
      else if is_null value.(v_data) && negb (length =? 0) then (TLV_ERR_NULL_ARG, m, written)
      else if is_null data then (TLV_OK, m, Some length)
      else if capacity <? length then (TLV_ERR_BUFFER_TOO_SHORT, m, written)
      else (TLV_OK, (if negb (length =? 0) then memmove m data value.(v_data) length else m),
            Some length)
  end.

(** ** Elements (element.h) *)

Record tlv_element_t := mk_element { e_tag : tlv_tag_t; e_value : tlv_value_t }.

Definition empty_value : tlv_value_t := mk_value NULL 0.
Definition empty_element : tlv_element_t := mk_element empty_tag empty_value.

(** ** Copies of encoded bytes and values (copy.c) *)

Definition tlv_copy_encoded (m : mem) (encoded_data : ptr) (encoded_length : Z) (data : ptr)
  (capacity : Z) (written : option Z) : tlv_result_t * mem * option Z :=
  match written with
  | None => (TLV_ERR_NULL_ARG, m, written)
  | Some _ =>
      if (is_null data && negb (capacity =? 0)) ||
         (is_null encoded_data && negb (encoded_length =? 0)) then (TLV_ERR_NULL_ARG, m, written)
      else if is_null data then (TLV_OK, m, Some encoded_length)
      else if capacity <? encoded_length then (TLV_ERR_BUFFER_TOO_SHORT, m, written)
      else (TLV_OK,
            (if negb (encoded_length =? 0) then memmove m data encoded_data encoded_length else m),
            Some encoded_length)
  end.

Definition tlv_copy_value `{Platform} (m : mem) (element : option tlv_element_t) (data : ptr)
  (capacity : Z) (written : option Z) : tlv_result_t * mem * option Z :=
  match element with
  | None => (TLV_ERR_NULL_ARG, m, written)
  | Some e => tlv_value_copy m e.(e_value) data capacity written
  end.

(** ** Definitions (definition.c).  [entries = None] is a NULL table; the result is the entry's
    index, [None] for NULL. *)

Record tlv_definition_registry_t := mk_registry {
  reg_entries : option (list tlv_tag_t); reg_count : nat }.

Fixpoint definition_scan (m : mem) (entries : list tlv_tag_t) (tag : tlv_tag_t) (i : nat)
  : option nat :=
  match entries with
  | [] => None
  | entry :: rest =>
      if negb (entry.(t_size) =? 0) && is_null entry.(t_data) then definition_scan m rest tag (S i)
      else if tlv_tag_equal m entry tag then Some i
      else definition_scan m rest tag (S i)
  end.

Definition tlv_definition_find (m : mem) (registry : option tlv_definition_registry_t)
  (tag : option tlv_tag_t) : option nat :=
  match registry, tag with
  | Some r, Some t =>
      match r.(reg_entries) with
      | None => None
      | Some entries =>
          if negb (t.(t_size) =? 0) && is_null t.(t_data) then None
          else definition_scan m (take r.(reg_count) entries) t 0
      end
  | _, _ => None
  end.

(** ** Automation: case analysis on the guards of a translated function *)

(** Split every conditional and every destructuring of a call in a hypothesis, closing the branches
    that do not end in the result the hypothesis states. *)
Ltac guards_in H :=
  repeat match type of H with
    | context [if ?b then _ else _] => destruct b eqn:?; try discriminate H
    | context [match ?o with Some _ => _ | None => _ end] =>
        destruct o eqn:?; try discriminate H
    | context [let '(_, _) := ?x in _] => destruct x eqn:?; try discriminate H
    end.

(** The same in the goal. *)
Ltac guards :=
  repeat match goal with
    | |- context [if ?b then _ else _] => destruct b eqn:?
    | |- context [match ?o with Some _ => _ | None => _ end] => destruct o eqn:?
    | |- context [let '(_, _) := ?x in _] => destruct x eqn:?
    end.

(** Turn boolean result tests into equations. *)
Ltac rc_simpl :=
  repeat match goal with
    | H : negb (is_ok _) = false |- _ => apply negb_false_iff in H
    | H : negb (is_ok _) = true |- _ => apply negb_true_iff in H
    | H : is_ok _ = true |- _ => apply is_ok_true in H
    | H : is_ok _ = false |- _ => apply is_ok_false in H
    | H : rc_eqb _ _ = true |- _ => apply rc_eqb_true in H
    | H : rc_eqb _ _ = false |- _ => apply rc_eqb_false in H
    end; subst; try congruence.

(** The bytes of a tag and of a value. *)
Definition tag_bytes (m : mem) (t : tlv_tag_t) : list Z := bytes_of m t.(t_data) t.(t_size).
Definition value_bytes (m : mem) (v : tlv_value_t) : list Z := bytes_of m v.(v_data) v.(v_size).

(** A tag or value as every producer of the library makes it: a size in its type's range, and NULL
    only with size zero. *)
Definition tag_ok `{Platform} (t : tlv_tag_t) : Prop :=
  0 <= t.(t_size) <= SIZE_MAX /\ (t.(t_data) = NULL -> t.(t_size) = 0).
Definition value_ok (v : tlv_value_t) : Prop :=
  0 <= v.(v_size) <= UINT64_MAX /\ (v.(v_data) = NULL -> v.(v_size) = 0).

(** ** Sizes *)

Lemma size_to_native_ok `{Platform} n s0 s :
  0 <= n -> tlv_size_to_native n (Some s0) = (TLV_OK, s) -> n <= SIZE_MAX /\ s = Some n.
Proof.
  unfold tlv_size_to_native. intros Hn H'. guards_in H'. injection H' as <-.
  split; [lia|]. f_equal. apply usize_small. lia.
Qed.

Lemma size_to_native_small `{Platform} n s0 :
  0 <= n <= SIZE_MAX -> tlv_size_to_native n (Some s0) = (TLV_OK, Some n).
Proof.
  intros. unfold tlv_size_to_native. rewrite (proj2 (Z.ltb_ge _ _)) by lia.
  now rewrite usize_small.
Qed.

Lemma size_add_small a b s0 :
  0 <= a -> 0 <= b -> a + b <= UINT64_MAX -> tlv_size_add a b (Some s0) = (TLV_OK, Some (a + b)).
Proof.
  intros. unfold tlv_size_add. rewrite (proj2 (Z.ltb_ge _ _)) by lia.
  now rewrite u64_small by lia.
Qed.

Lemma size_add_big a b s0 :
  UINT64_MAX < a + b -> tlv_size_add a b (Some s0) = (TLV_ERR_OVERFLOW, Some s0).
Proof. intros. unfold tlv_size_add. now rewrite (proj2 (Z.ltb_lt _ _)) by lia. Qed.

Lemma size_add_ok a b s0 s :
  0 <= a -> 0 <= b -> tlv_size_add a b (Some s0) = (TLV_OK, s) ->
  a + b <= UINT64_MAX /\ s = Some (a + b).
Proof.
  intros Ha Hb H. unfold tlv_size_add in H. guards_in H. injection H as <-.
  split; [lia|]. f_equal. apply u64_small. lia.
Qed.

(** ** Comparison *)

(** [lex] compares the common prefix, then the lengths. *)
Lemma lex_prefix a b :
  let k := Nat.min (length a) (length b) in
  lex a b = if negb (lex (take k a) (take k b) =? 0) then lex (take k a) (take k b)
            else if (length a =? length b)%nat then 0
            else if (length a <? length b)%nat then -1 else 1.
Proof.
  cbn zeta. revert b. induction a as [|x a IH]; intros [|y b]; try done.
  cbn [length Nat.min take lex]. destruct (x <? y); [done|]. destruct (y <? x); [done|].
  rewrite IH. done.
Qed.

Lemma take_bytes_of m p n k :
  0 <= k <= n -> take (Z.to_nat k) (bytes_of m p n) = bytes_of m p k.
Proof.
  intros. replace n with (k + (n - k)) by lia. rewrite bytes_of_app by lia.
  rewrite take_app_length' by (rewrite length_bytes_of; lia). done.
Qed.

(** The comparison both [tlv_tag_compare] and [tlv_value_compare] make. *)
Lemma compare_lex m p n q k :
  0 <= n -> 0 <= k ->
  (let common := if n <? k then n else k in
   let order := if common =? 0 then 0 else memcmp m p q common in
   if negb (order =? 0) then (if order <? 0 then -1 else 1)
   else if n =? k then 0 else if n <? k then -1 else 1) = lex (bytes_of m p n) (bytes_of m q k).
Proof.
  intros Hn Hk. cbn zeta.
  assert (Nat.min (length (bytes_of m p n)) (length (bytes_of m q k)) =
          Z.to_nat (if n <? k then n else k)) as Hc.
  { rewrite !length_bytes_of. destruct (n <? k) eqn:?; lia. }
  rewrite (lex_prefix (bytes_of m p n)), Hc, !length_bytes_of.
  set (c := if n <? k then n else k) in *.
  assert (0 <= c /\ c <= n /\ c <= k) as Hcc by (unfold c; destruct (n <? k) eqn:?; lia).
  rewrite !take_bytes_of by lia. unfold memcmp.
  replace (if c =? 0 then 0 else lex (bytes_of m p c) (bytes_of m q c))
    with (lex (bytes_of m p c) (bytes_of m q c))
    by (destruct (c =? 0) eqn:?; [rewrite !bytes_of_0 by lia|]; done).
  destruct (lex_sign (bytes_of m p c) (bytes_of m q c)) as [-> | [-> | ->]]; simpl; try done.
  destruct (Nat.eqb_spec (Z.to_nat n) (Z.to_nat k)), (Nat.ltb_spec (Z.to_nat n) (Z.to_nat k)),
    (Z.eqb_spec n k), (Z.ltb_spec n k); try done; lia.
Qed.

Lemma equal_lex m p n q k :
  0 <= n -> 0 <= k ->
  (if negb (n =? k) then false else if n =? 0 then true else memcmp m p q n =? 0) = true <->
  bytes_of m p n = bytes_of m q k.
Proof.
  intros Hn Hk. destruct (n =? k) eqn:E; simpl.
  - apply Z.eqb_eq in E as ->. destruct (k =? 0) eqn:?.
    + rewrite !bytes_of_0 by lia. done.
    + unfold memcmp. rewrite Z.eqb_eq. apply lex_eq.
  - split; [done|]. intros He. apply (f_equal length) in He. rewrite !length_bytes_of in He. lia.
Qed.

Lemma tag_equal_bytes m a b :
  0 <= a.(t_size) -> 0 <= b.(t_size) ->
  tlv_tag_equal m a b = true <-> tag_bytes m a = tag_bytes m b.
Proof. apply equal_lex. Qed.

(** ** Properties *)

(** Tag ordering is the lexicographic order of the identifier bytes, and tag equality is equality of
    the bytes: two tags compare equal exactly when [tlv_tag_equal] holds, whatever the storage. *)
Theorem tag_compare_lex (m : mem) (a b : tlv_tag_t) (Ha : 0 <= a.(t_size)) (Hb : 0 <= b.(t_size)) :
  tlv_tag_compare m a b = lex (tag_bytes m a) (tag_bytes m b) /\
  (tlv_tag_compare m a b = 0 <-> tlv_tag_equal m a b = true) /\
  tlv_tag_compare m b a = - tlv_tag_compare m a b.
Proof.
  pose proof (compare_lex m (t_data a) _ (t_data b) _ Ha Hb) as H1.
  pose proof (compare_lex m (t_data b) _ (t_data a) _ Hb Ha) as H2. cbn zeta in H1, H2.
  unfold tlv_tag_compare. rewrite H1, H2. split; [done|]. split.
  - rewrite lex_eq, tag_equal_bytes by done. done.
  - apply lex_antisym.
Qed.

Lemma tag_compare_lex_witness :
  let m := put_bytes (mem_of 1 [95; 42]) 2 [95; 45; 1] in
  tlv_tag_compare m (tlv_tag (Ptr 1 0) 2) (tlv_tag (Ptr 2 0) 3) = -1 /\
  (tlv_tag_compare m (tlv_tag (Ptr 1 0) 2) (tlv_tag (Ptr 2 0) 3) =
     lex (tag_bytes m (tlv_tag (Ptr 1 0) 2)) (tag_bytes m (tlv_tag (Ptr 2 0) 3))).
Proof.
  split; [reflexivity|].
  apply (tag_compare_lex (put_bytes (mem_of 1 [95; 42]) 2 [95; 45; 1])
           (tlv_tag (Ptr 1 0) 2) (tlv_tag (Ptr 2 0) 3)); simpl; lia.
Defined.

(** A slice succeeds exactly for a subrange of the value: the sum of offset and length may not
    overflow nor pass the end, and the slice shows the bytes of that subrange. *)
Theorem value_slice_spec `{Platform} (m : mem) (v out0 : tlv_value_t) (offset length : Z)
  (Hv : value_ok v) (Hn : v.(v_size) <= SIZE_MAX) (Ho : 0 <= offset <= UINT64_MAX)
  (Hl : 0 <= length <= UINT64_MAX) :
  let '(rc, out) := tlv_value_slice v offset length (Some out0) in
  if offset + length <=? v.(v_size) then
    rc = TLV_OK /\ exists s, out = Some s /\ s.(v_size) = length /\
      value_bytes m s = take (Z.to_nat length) (drop (Z.to_nat offset) (value_bytes m v))
  else
    rc = (if UINT64_MAX <? offset + length then TLV_ERR_OVERFLOW else TLV_ERR_INVALID_LENGTH) /\
    out = Some out0.
Proof.
  destruct Hv as [Hr Hnull]. unfold tlv_value_slice, tlv_value_validate, tlv_size_validate_native.
  rewrite (proj2 (Z.ltb_ge SIZE_MAX _)) by lia.
  replace (is_null (v_data v) && negb (v_size v =? 0)) with false
    by (destruct (v_data v); simpl in *; [rewrite Hnull by done|]; done).
  destruct (UINT64_MAX <? offset + length) eqn:Hov.
  - rewrite size_add_big by lia. simpl. rewrite (proj2 (Z.leb_gt _ _)) by lia. done.
  - rewrite size_add_small by lia. simpl. destruct (offset + length <=? v_size v) eqn:Hle.
    + rewrite (proj2 (Z.ltb_ge _ _)) by lia. split; [done|]. eexists. split; [done|]. split; [done|].
      unfold value_bytes. simpl. destruct (length =? 0) eqn:?.
      * replace length with 0 by lia. rewrite bytes_of_0 by lia. done.
      * rewrite usize_small by lia. replace (v_size v) with (offset + (v_size v - offset)) by lia.
        rewrite bytes_of_app, drop_app_length', take_bytes_of by (rewrite ?length_bytes_of; lia). done.
    + rewrite (proj2 (Z.ltb_lt _ _)) by lia. done.
Qed.

Lemma value_slice_spec_witness :
  let m := mem_of 1 [1; 2; 3; 4] in
  let '(rc, out) := @tlv_value_slice LP64 (mk_value (Ptr 1 0) 4) 1 2 (Some empty_value) in
  rc = TLV_OK /\ exists s, out = Some s /\ s.(v_size) = 2 /\ value_bytes m s = [2; 3].
Proof.
  assert (value_ok (mk_value (Ptr 1 0) 4)) as Hv by (split; simpl; [lia|congruence]).
  exact (value_slice_spec (H := LP64) (mem_of 1 [1; 2; 3; 4]) (mk_value (Ptr 1 0) 4) empty_value
           1 2 Hv ltac:(vm_compute; congruence) ltac:(lia) ltac:(lia)).
Defined.

(** Copying encoded bytes either leaves every byte of memory as it was, or puts exactly the source's
    bytes in the destination and changes nothing else. *)
Theorem copy_encoded_spec (m : mem) (src dst : ptr) (n capacity w0 : Z) (Hn : 0 <= n)
  (Hsrc : src <> NULL) (Hdst : dst <> NULL) :
  let '(rc, m', written) := tlv_copy_encoded m src n dst capacity (Some w0) in
  if n <=? capacity then
    rc = TLV_OK /\ written = Some n /\ bytes_of m' dst n = bytes_of m src n /\
    only_changes m m' dst n
  else rc = TLV_ERR_BUFFER_TOO_SHORT /\ m' = m /\ written = Some w0.
Proof.
  destruct src as [|sb so]; [done|]. destruct dst as [|db dof]; [done|].
  unfold tlv_copy_encoded. simpl. destruct (n <=? capacity) eqn:Hle.
  - rewrite (proj2 (Z.ltb_ge _ _)) by lia. split; [done|]. split; [done|].
    destruct (n =? 0) eqn:?; simpl.
    + rewrite !bytes_of_0 by lia. split; [done|apply only_refl].
    + split; [now apply bytes_of_memmove|apply memmove_only].
  - rewrite (proj2 (Z.ltb_lt _ _)) by lia. done.
Qed.

Lemma copy_encoded_spec_witness :
  let '(rc, m', written) := tlv_copy_encoded (mem_of 1 [7; 8]) (Ptr 1 0) 2 (Ptr 2 0) 4 (Some 0) in
  rc = TLV_OK /\ written = Some 2 /\ bytes_of m' (Ptr 2 0) 2 = [7; 8] /\
  only_changes (mem_of 1 [7; 8]) m' (Ptr 2 0) 2.
Proof.
  exact (copy_encoded_spec (mem_of 1 [7; 8]) (Ptr 1 0) (Ptr 2 0) 2 4 0 ltac:(lia)
           ltac:(congruence) ltac:(congruence)).
Defined.

#[global] Arguments tlv_size_to_native : simpl never.
#[global] Arguments tlv_size_add : simpl never.
#[global] Arguments tlv_tag_equal : simpl never.

(** [is_ok] of a known code, for [rewrite]. *)
Lemma is_ok_OK : is_ok TLV_OK = true.
Proof. reflexivity. Qed.
