(* ===== verification/Endian.v ===== *)
(** * Byte order and integer fields (tlv/endian.h, src/endian.c)

    The loops of [tlv_read_uint] and [tlv_write_uint] run over [width] octets; the reference they
    are compared with is the big-endian value of a byte string ([be_value], [be_bytes]). *)

From S2P Require Import Prelude Mem Core.

Inductive tlv_byte_order_t : Type :=
| TLV_BYTE_ORDER_UNKNOWN
| TLV_BYTE_ORDER_LITTLE_ENDIAN
| TLV_BYTE_ORDER_BIG_ENDIAN
| TLV_BYTE_ORDER_OTHER (n : Z).

#[export] Instance byte_order_eq_dec : EqDecision tlv_byte_order_t.
Proof. solve_decision. Defined.

Definition order_is (a b : tlv_byte_order_t) : bool := bool_decide (a = b).

(** [order != BIG && order != LITTLE]. *)
Definition order_bad (o : tlv_byte_order_t) : bool :=
  negb (order_is o TLV_BYTE_ORDER_BIG_ENDIAN) && negb (order_is o TLV_BYTE_ORDER_LITTLE_ENDIAN).

(** The bytes of [0x01020304] in memory decide the native order. *)
Definition tlv_endian_native (b0 b1 b2 b3 : Z) : tlv_byte_order_t :=
  if (b0 =? 1) && (b1 =? 2) && (b2 =? 3) && (b3 =? 4) then TLV_BYTE_ORDER_BIG_ENDIAN
  else if (b0 =? 4) && (b1 =? 3) && (b2 =? 2) && (b3 =? 1) then TLV_BYTE_ORDER_LITTLE_ENDIAN
  else TLV_BYTE_ORDER_UNKNOWN.

Definition tlv_read_u16_be (m : mem) (data : ptr) : Z :=
  u16 (Z.lor (Z.shiftl (ld m data 0) 8) (Z.shiftl (ld m data 1) 0)).
Definition tlv_read_u16_le (m : mem) (data : ptr) : Z :=
  u16 (Z.lor (Z.shiftl (ld m data 0) 0) (Z.shiftl (ld m data 1) 8)).
Definition tlv_read_u32_be (m : mem) (data : ptr) : Z :=
  Z.lor (Z.lor (Z.lor (u32 (Z.shiftl (ld m data 0) 24)) (u32 (Z.shiftl (ld m data 1) 16)))
           (u32 (Z.shiftl (ld m data 2) 8))) (Z.shiftl (ld m data 3) 0).
Definition tlv_read_u32_le (m : mem) (data : ptr) : Z :=
  Z.lor (Z.lor (Z.lor (Z.shiftl (ld m data 0) 0) (u32 (Z.shiftl (ld m data 1) 8)))
           (u32 (Z.shiftl (ld m data 2) 16))) (u32 (Z.shiftl (ld m data 3) 24)).

Definition tlv_write_u16_be (m : mem) (data : ptr) (value : Z) : mem :=
  let m := st m data 0 (u8 (Z.shiftr value 8)) in
  st m data 1 (u8 (Z.shiftr value 0)).
Definition tlv_write_u16_le (m : mem) (data : ptr) (value : Z) : mem :=
  let m := st m data 0 (u8 (Z.shiftr value 0)) in
  st m data 1 (u8 (Z.shiftr value 8)).
Definition tlv_write_u32_be (m : mem) (data : ptr) (value : Z) : mem :=
  let m := st m data 0 (u8 (Z.shiftr value 24)) in
  let m := st m data 1 (u8 (Z.shiftr value 16)) in
  let m := st m data 2 (u8 (Z.shiftr value 8)) in
  st m data 3 (u8 (Z.shiftr value 0)).
Definition tlv_write_u32_le (m : mem) (data : ptr) (value : Z) : mem :=
  let m := st m data 0 (u8 (Z.shiftr value 0)) in
  let m := st m data 1 (u8 (Z.shiftr value 8)) in
  let m := st m data 2 (u8 (Z.shiftr value 16)) in
  st m data 3 (u8 (Z.shiftr value 24)).

(** Iterations [i .. i + n - 1] of the loop of [tlv_read_uint]. *)
Fixpoint read_uint_loop (m : mem) (data : ptr) (width : Z) (big : bool) (n : nat) (i result : Z)
  : Z :=
  match n with
  | O => result
  | S n =>
      let index := if big then i else width - 1 - i in
      read_uint_loop m data width big n (i + 1)
        (u64 (Z.lor (Z.shiftl result 8) (ld m data index)))
  end.

Definition tlv_read_uint (m : mem) (data : ptr) (width : Z) (order : tlv_byte_order_t)
  (value : option Z) : tlv_result_t * option Z :=
  match value with
  | None => (TLV_ERR_NULL_ARG, value)
  | Some _ =>
      if is_null data then (TLV_ERR_NULL_ARG, value)
      else if (width =? 0) || (8 <? width) then (TLV_ERR_INVALID_LENGTH, value)
      else if order_bad order then (TLV_ERR_INVALID_ARG, value)
      else (TLV_OK, Some (read_uint_loop m data width (order_is order TLV_BYTE_ORDER_BIG_ENDIAN)
                            (Z.to_nat width) 0 0))
  end.

Fixpoint write_uint_loop (m : mem) (data : ptr) (width : Z) (little : bool) (n : nat)
  (i value : Z) : mem :=
  match n with
  | O => m
  | S n =>
      let index := if little then i else width - 1 - i in
      write_uint_loop (st m data index (u8 value)) data width little n (i + 1) (Z.shiftr value 8)
  end.

Definition tlv_write_uint (m : mem) (data : ptr) (width : Z) (order : tlv_byte_order_t)
  (value : Z) : tlv_result_t * mem :=
  if is_null data then (TLV_ERR_NULL_ARG, m)
  else if (width =? 0) || (8 <? width) then (TLV_ERR_INVALID_LENGTH, m)
  else if order_bad order then (TLV_ERR_INVALID_ARG, m)
  else if (width <? 8) && negb (Z.shiftr value (width * 8) =? 0) then (TLV_ERR_OVERFLOW, m)
  else (TLV_OK, write_uint_loop m data width (order_is order TLV_BYTE_ORDER_LITTLE_ENDIAN)
                  (Z.to_nat width) 0 value).

Definition tlv_read_u64_be (m : mem) (data : ptr) : Z :=
  cell 0 (snd (tlv_read_uint m data 8 TLV_BYTE_ORDER_BIG_ENDIAN (Some 0))).
Definition tlv_read_u64_le (m : mem) (data : ptr) : Z :=
  cell 0 (snd (tlv_read_uint m data 8 TLV_BYTE_ORDER_LITTLE_ENDIAN (Some 0))).
Definition tlv_write_u64_be (m : mem) (data : ptr) (value : Z) : mem :=
  snd (tlv_write_uint m data 8 TLV_BYTE_ORDER_BIG_ENDIAN value).
Definition tlv_write_u64_le (m : mem) (data : ptr) (value : Z) : mem :=
  snd (tlv_write_uint m data 8 TLV_BYTE_ORDER_LITTLE_ENDIAN value).

(** ** The loops against the reference *)

(** Octet [j] of a [width]-octet field, most significant first. *)
Definition octet_index (width : Z) (big : bool) (j : Z) : Z := if big then j else width - 1 - j.

(** The field's octets, most significant first. *)
Definition field_octets (m : mem) (data : ptr) (width : Z) (big : bool) : list Z :=
  map (fun j => ld m data (octet_index width big (Z.of_nat j))) (seq 0 (Z.to_nat width)).

Lemma field_octets_big m data width : field_octets m data width true = bytes_of m data width.
Proof. done. Qed.

Lemma length_field_octets m data width big : length (field_octets m data width big) = Z.to_nat width.
Proof. unfold field_octets. now rewrite length_map, length_seq. Qed.

Lemma field_octets_little m data width :
  0 <= width -> field_octets m data width false = rev (bytes_of m data width).
Proof.
  intros Hw. apply (nth_ext _ _ 0 0).
  - now rewrite length_field_octets, length_rev, length_bytes_of.
  - intros j Hj. rewrite length_field_octets in Hj.
    rewrite rev_nth by (rewrite length_bytes_of; lia). rewrite length_bytes_of.
    unfold field_octets, bytes_of.
    set (f := fun j0 : nat => ld m data (octet_index width false (Z.of_nat j0))).
    set (g := fun j0 : nat => ld m data (Z.of_nat j0)).
    rewrite (nth_indep _ 0 (f O)) by (rewrite length_map, length_seq; lia).
    rewrite (nth_indep (map g _) 0 (g O)) by (rewrite length_map, length_seq; lia).
    rewrite !map_nth, !seq_nth by lia. unfold f, g, octet_index. f_equal. lia.
Qed.

Lemma field_octets_bytes m data width big : bytes (field_octets m data width big).
Proof.
  unfold field_octets, bytes. apply List.Forall_forall. intros x Hx.
  apply in_map_iff in Hx as (j & <- & _). apply ld_range.
Qed.

Lemma same_field_octets m1 m2 data width big :
  same_bytes m1 m2 data width -> field_octets m1 data width big = field_octets m2 data width big.
Proof.
  intros H. unfold field_octets. apply map_ext_in. intros j Hj. apply in_seq in Hj.
  apply H. unfold octet_index. destruct big; lia.
Qed.

Lemma be_fold l r : fold_left (fun acc b => acc * 256 + b) l r = r * 256 ^ zlen l + be_value l.
Proof.
  revert r. induction l as [|b l IH] using rev_ind; intros r.
  - change (r = r * 1 + 0). lia.
  - rewrite fold_left_app. simpl. rewrite IH, be_value_snoc, length_app. simpl length.
    rewrite Nat.add_1_r, pow256_S. lia.
Qed.

Lemma read_uint_loop_fold m data width big n i k r :
  0 <= r < 256 ^ Z.of_nat k -> (k + n <= 8)%nat ->
  read_uint_loop m data width big n (Z.of_nat i) r =
  fold_left (fun acc b => acc * 256 + b)
    (map (fun j => ld m data (octet_index width big (Z.of_nat j))) (seq i n)) r.
Proof.
  revert i k r. induction n as [|n IH]; intros i k r Hr Hk; [done|].
  cbn [seq map fold_left read_uint_loop].
  pose proof (ld_range m data (octet_index width big (Z.of_nat i))) as Hb.
  assert (256 * 256 ^ Z.of_nat k <= 256 ^ 8)
    by (rewrite <- pow256_S; apply Z.pow_le_mono_r; lia).
  change (if big then Z.of_nat i else width - 1 - Z.of_nat i)
    with (octet_index width big (Z.of_nat i)).
  rewrite lor_byte, u64_small by lia.
  replace (Z.of_nat i + 1) with (Z.of_nat (S i)) by lia.
  apply (IH (S i) (S k)); [rewrite pow256_S; lia|lia].
Qed.

Lemma read_uint_value m data width order v0 :
  data <> NULL -> 1 <= width <= 8 -> order_bad order = false ->
  tlv_read_uint m data width order (Some v0) =
  (TLV_OK, Some (be_value (field_octets m data width (order_is order TLV_BYTE_ORDER_BIG_ENDIAN)))).
Proof.
  intros Hd Hw Ho. unfold tlv_read_uint. destruct data; [done|]. simpl is_null. cbn match.
  replace ((width =? 0) || (8 <? width)) with false by lia. rewrite Ho.
  do 2 f_equal. apply (read_uint_loop_fold _ _ _ _ _ 0 0 0); lia.
Qed.

(** Octet [k] of the field, least significant first, is where iteration [k] of the write stores. *)
Lemma write_uint_loop_ld m data width big n i v k :
  data <> NULL -> 0 <= i ->
  ld (write_uint_loop m data width (negb big) n i v) data (octet_index width big (width - 1 - k)) =
  if (i <=? k) && (k <? i + Z.of_nat n) then u8 (v / 256 ^ (k - i))
  else ld m data (octet_index width big (width - 1 - k)).
Proof.
  intros Hd. revert m i v. induction n as [|n IH]; intros m i v Hi; cbn [write_uint_loop].
  - replace ((i <=? k) && (k <? i + Z.of_nat 0)) with false; [done|].
    change (Z.of_nat 0) with 0. lia.
  - rewrite IH, Nat2Z.inj_succ by lia. rewrite Z.shiftr_div_pow2 by lia.
    assert ((if negb big then i else width - 1 - i) = octet_index width big (width - 1 - i)) as ->
      by (unfold octet_index; destruct big; simpl; lia).
    destruct (Z.eq_dec k i) as [->|Hne].
    + replace ((i + 1 <=? i) && (i <? i + 1 + Z.of_nat n)) with false by lia.
      replace ((i <=? i) && (i <? i + Z.succ (Z.of_nat n))) with true by zlia.
      rewrite Z.sub_diag, Z.div_1_r, ld_st_same, u8_u8 by (destruct data; done). done.
    + rewrite ld_st_other by (unfold octet_index; destruct big; lia).
      destruct ((i + 1 <=? k) && (k <? i + 1 + Z.of_nat n)) eqn:E1;
        destruct ((i <=? k) && (k <? i + Z.succ (Z.of_nat n))) eqn:E2; try zlia; try done.
      f_equal. change (2 ^ 8) with (256 ^ 1). rewrite Z.div_div, <- Z.pow_add_r by lia.
      do 2 f_equal. lia.
Qed.

Lemma write_uint_loop_only m data width little n i v :
  0 <= i -> i + Z.of_nat n <= width ->
  only_changes m (write_uint_loop m data width little n i v) data width.
Proof.
  revert m i v. induction n as [|n IH]; intros m i v Hi Hn; cbn [write_uint_loop]; [done|].
  eapply only_trans; [|apply IH; lia]. apply st_only. destruct little; lia.
Qed.

Lemma nth_le_bytes n v k : (k < n)%nat -> nth k (le_bytes n v) 0 = u8 (v / 256 ^ Z.of_nat k).
Proof.
  revert v k. induction n as [|n IH]; intros v [|k] Hk; try lia; simpl nth.
  - change (256 ^ Z.of_nat 0) with 1. now rewrite Z.div_1_r.
  - rewrite IH by lia. rewrite pow256_S, Z.div_div by (pose proof (pow256_pos k); lia). done.
Qed.

Lemma nth_be_bytes n v k : (k < n)%nat -> nth k (be_bytes n v) 0 = u8 (v / 256 ^ (Z.of_nat n - 1 - Z.of_nat k)).
Proof.
  intros Hk. unfold be_bytes. rewrite rev_nth by (rewrite length_le_bytes; lia).
  rewrite length_le_bytes, nth_le_bytes by lia. do 3 f_equal. lia.
Qed.

Lemma write_uint_octets m data width big v :
  data <> NULL -> 0 <= width ->
  field_octets (write_uint_loop m data width (negb big) (Z.to_nat width) 0 v) data width big =
  be_bytes (Z.to_nat width) v.
Proof.
  intros Hd Hw. apply (nth_ext _ _ 0 0).
  - now rewrite length_field_octets, length_be_bytes.
  - intros j Hj. rewrite length_field_octets in Hj. rewrite nth_be_bytes by lia.
    unfold field_octets.
    set (f := fun j0 : nat => ld _ data (octet_index width big (Z.of_nat j0))).
    rewrite (nth_indep _ 0 (f O)) by (rewrite length_map, length_seq; lia).
    rewrite (map_nth f), seq_nth by lia. unfold f. rewrite Nat.add_0_l.
    replace (octet_index width big (Z.of_nat j))
      with (octet_index width big (width - 1 - (width - 1 - Z.of_nat j))) by (f_equal; lia).
    rewrite write_uint_loop_ld by (done || lia).
    rewrite (proj2 (andb_true_iff _ _)) by zlia. do 3 f_equal. lia.
Qed.

Lemma shiftr_zero_small v w : 0 <= v -> 0 <= w -> (Z.shiftr v (w * 8) =? 0) = (v <? 256 ^ w).
Proof.
  intros Hv Hw. rewrite Z.shiftr_div_pow2 by lia.
  replace (2 ^ (w * 8)) with (256 ^ w) by (rewrite Z.mul_comm, Z.pow_mul_r by lia; done).
  assert (0 < 256 ^ w) by (apply Z.pow_pos_nonneg; lia).
  destruct (Z.ltb_spec v (256 ^ w)).
  - rewrite Z.div_small by lia. done.
  - apply Z.eqb_neq. intros E. apply Z.div_small_iff in E; lia.
Qed.

(** Everything [tlv_write_uint] does on a valid field: the value fits and the field then holds its
    octets, or it does not and no byte changes. *)
Lemma write_uint_cases m data width order v :
  data <> NULL -> 1 <= width <= 8 -> order_bad order = false -> 0 <= v <= UINT64_MAX ->
  if v <? 256 ^ width then
    exists m', tlv_write_uint m data width order v = (TLV_OK, m') /\
      only_changes m m' data width /\
      field_octets m' data width (order_is order TLV_BYTE_ORDER_BIG_ENDIAN) =
        be_bytes (Z.to_nat width) v
  else tlv_write_uint m data width order v = (TLV_ERR_OVERFLOW, m).
Proof.
  intros Hd Hw Ho Hv. unfold tlv_write_uint.
  replace (is_null data) with false by (destruct data; done).
  replace ((width =? 0) || (8 <? width)) with false by lia. rewrite Ho.
  rewrite shiftr_zero_small by lia.
  assert (order_is order TLV_BYTE_ORDER_LITTLE_ENDIAN =
          negb (order_is order TLV_BYTE_ORDER_BIG_ENDIAN)) as ->.
  { unfold order_bad, order_is in *. destruct order; done. }
  destruct (v <? 256 ^ width) eqn:E.
  - rewrite andb_false_r. eexists. split; [reflexivity|]. split.
    + apply write_uint_loop_only; lia.
    + apply write_uint_octets; [done|lia].
  - destruct (Z.eq_dec width 8) as [->|]; [lia|].
    replace (width <? 8) with true by lia. done.
Qed.

Lemma be_value_octets_range m data width big :
  0 <= width -> 0 <= be_value (field_octets m data width big) < 256 ^ width.
Proof.
  intros. pose proof (be_value_range _ (field_octets_bytes m data width big)) as Hr.
  now rewrite length_field_octets, Z2Nat.id in Hr by lia.
Qed.

(** ** Properties *)

(** A value that fits a [width]-octet field is written as its base-256 digits in the field's byte
    order, touches only those octets and reads back unchanged; one that does not fit is refused with
    [TLV_ERR_OVERFLOW] before any byte is written. *)
Theorem uint_roundtrip (m : mem) (data : ptr) (width : Z) (order : tlv_byte_order_t) (v : Z)
  (Hd : data <> NULL) (Hw : 1 <= width <= 8) (Ho : order_bad order = false)
  (Hv : 0 <= v <= UINT64_MAX) :
  let '(rc, m') := tlv_write_uint m data width order v in
  (rc = TLV_OK <-> v < 256 ^ width) /\
  (rc = TLV_OK -> only_changes m m' data width /\
                  forall v0, tlv_read_uint m' data width order (Some v0) = (TLV_OK, Some v)) /\
  (rc <> TLV_OK -> rc = TLV_ERR_OVERFLOW /\ m' = m).
Proof.
  pose proof (write_uint_cases m data width order v Hd Hw Ho Hv) as H.
  destruct (v <? 256 ^ width) eqn:E.
  - destruct H as (m' & -> & Honly & Hoct). split; [split; [lia|done]|]. split; [|done].
    intros _. split; [done|]. intros v0. rewrite read_uint_value by done.
    rewrite Hoct, be_value_be_bytes, Z2Nat.id, Z.mod_small by lia. done.
  - rewrite H. split; [split; [done|lia]|]. split; [done|]. done.
Qed.

Lemma uint_roundtrip_witness :
  exists m', tlv_write_uint (mem_of 1 []) (Ptr 1 4) 3 TLV_BYTE_ORDER_LITTLE_ENDIAN 66051 = (TLV_OK, m') /\
  bytes_of m' (Ptr 1 4) 3 = [3; 2; 1] /\
  tlv_read_uint m' (Ptr 1 4) 3 TLV_BYTE_ORDER_LITTLE_ENDIAN (Some 0) = (TLV_OK, Some 66051).
Proof.
  eexists. split; [reflexivity|]. split; [reflexivity|].
  exact (proj2 (proj1 (proj2 (uint_roundtrip (mem_of 1 []) (Ptr 1 4) 3 TLV_BYTE_ORDER_LITTLE_ENDIAN
    66051 ltac:(congruence) ltac:(lia) eq_refl ltac:(lia))) eq_refl) 0).
Defined.

Lemma fixed_width_generic (m : mem) (data : ptr) : data <> NULL ->
  let generic w o := cell 0 (snd (tlv_read_uint m data w o (Some 0))) in
  tlv_read_u16_be m data = generic 2 TLV_BYTE_ORDER_BIG_ENDIAN /\
  tlv_read_u16_le m data = generic 2 TLV_BYTE_ORDER_LITTLE_ENDIAN /\
  tlv_read_u32_be m data = generic 4 TLV_BYTE_ORDER_BIG_ENDIAN /\
  tlv_read_u32_le m data = generic 4 TLV_BYTE_ORDER_LITTLE_ENDIAN.
Proof.
  intros Hd.
  cbv beta zeta. rewrite !read_uint_value by (done || lia).
  pose proof (ld_range m data 0). pose proof (ld_range m data 1).
  pose proof (ld_range m data 2). pose proof (ld_range m data 3).
  unfold tlv_read_u16_be, tlv_read_u16_le, tlv_read_u32_be, tlv_read_u32_le, field_octets,
    octet_index, be_value, u16, u32.
  change (order_is TLV_BYTE_ORDER_BIG_ENDIAN TLV_BYTE_ORDER_BIG_ENDIAN) with true.
  change (order_is TLV_BYTE_ORDER_LITTLE_ENDIAN TLV_BYTE_ORDER_BIG_ENDIAN) with false.
  rewrite !Z.shiftl_0_r, !Z.shiftl_mul_pow2 by lia. change (2 ^ 8) with 256.
  change (2 ^ 16) with 65536. change (2 ^ 24) with 16777216.
  rewrite !(Z.mod_small (_ * _)) by lia. change (Z.to_nat 2) with 2%nat.
  change (Z.to_nat 4) with 4%nat. cbn [seq map fold_left cell snd].
  repeat match goal with
    | |- context [ld m data ?i] => let v := eval vm_compute in i in progress change i with v
    end.
  pose proof (fun a b => lor_shift_add a b 8 ltac:(lia)) as L8. change (2 ^ 8) with 256 in L8.
  pose proof (fun a b => lor_shift_add a b 16 ltac:(lia)) as L16. change (2 ^ 16) with 65536 in L16.
  pose proof (fun a b => lor_shift_add a b 24 ltac:(lia)) as L24.
  change (2 ^ 24) with 16777216 in L24.
  split; [|split; [|split]].
  - rewrite L8 by lia. apply Z.mod_small. lia.
  - rewrite Z.lor_comm, L8 by lia. apply Z.mod_small. lia.
  - rewrite <- !Z.lor_assoc, L8, L16, L24 by lia. lia.
  - rewrite (Z.lor_comm (ld m data 0)), L8 by lia.
    rewrite (Z.lor_comm _ (ld m data 2 * 65536)), L16, Z.lor_comm, L24 by lia. lia.
Qed.

(** The unrolled 16- and 32-bit readers and the 64-bit readers return what the generic
    [tlv_read_uint] returns for the same field. *)
Theorem fixed_width_readers (m : mem) (data : ptr) (Hd : data <> NULL) :
  let generic w o := cell 0 (snd (tlv_read_uint m data w o (Some 0))) in
  tlv_read_u16_be m data = generic 2 TLV_BYTE_ORDER_BIG_ENDIAN /\
  tlv_read_u16_le m data = generic 2 TLV_BYTE_ORDER_LITTLE_ENDIAN /\
  tlv_read_u32_be m data = generic 4 TLV_BYTE_ORDER_BIG_ENDIAN /\
  tlv_read_u32_le m data = generic 4 TLV_BYTE_ORDER_LITTLE_ENDIAN.
Proof. exact (fixed_width_generic m data Hd). Qed.

Lemma fixed_width_readers_witness :
  tlv_read_u16_be (mem_of 1 [1; 2; 3; 4]) (Ptr 1 0) =
  cell 0 (snd (tlv_read_uint (mem_of 1 [1; 2; 3; 4]) (Ptr 1 0) 2 TLV_BYTE_ORDER_BIG_ENDIAN (Some 0))).
Proof. apply (fixed_width_readers (mem_of 1 [1; 2; 3; 4]) (Ptr 1 0)). congruence. Defined.

#[global] Arguments tlv_read_uint : simpl never.
#[global] Arguments tlv_write_uint : simpl never.
#[global] Arguments order_bad : simpl never.
