(* ===== verification/Format.v ===== *)
(** * The format contract (tlv/format.h, src/format.c)

    A format descriptor is a record of callbacks, each closed over the [context] the C descriptor
    carries beside it; [f_self] is the descriptor's address, which a decoded source keeps.  Callbacks
    are arbitrary functions: [tlv_format_decode], [tlv_format_measure] and [tlv_format_encode] check
    what they return, and the theorems of this file hold for every callback. *)

From S2P Require Import Prelude Mem Core.

Record tlv_constructed_bit_t := mk_bit { cb_byte_index : Z; cb_mask : Z; cb_value : Z }.

Record tlv_range_t := mk_range { r_offset : Z; r_size : Z; r_present : bool }.
Definition no_range : tlv_range_t := mk_range 0 0 false.

Inductive tlv_region_t : Type :=
| TLV_REGION_HEADER | TLV_REGION_TAG | TLV_REGION_LENGTH | TLV_REGION_VALUE | TLV_REGION_TRAILER.

#[export] Instance region_eq_dec : EqDecision tlv_region_t.
Proof. solve_decision. Defined.
Definition region_is (a b : tlv_region_t) : bool := bool_decide (a = b).

Record tlv_format_error_t := mk_ferr {
  fe_region : tlv_region_t; fe_offset : Z; fe_has_offset : bool;
  fe_required : Z; fe_has_required : bool;
  fe_tag : tlv_range_t; fe_length : tlv_range_t; fe_value : tlv_range_t }.
Definition no_error : tlv_format_error_t :=
  mk_ferr TLV_REGION_HEADER 0 false 0 false no_range no_range no_range.

Record tlv_encoding_t := mk_encoding { en_header : Z; en_value : Z; en_trailer : Z; en_total : Z }.
Definition no_encoding : tlv_encoding_t := mk_encoding 0 0 0 0.

Inductive tlv_tag_binding_t : Type :=
| TLV_TAG_BINDING_SOURCE | TLV_TAG_BINDING_FORMAT | TLV_TAG_BINDING_OTHER (n : Z).

Record tlv_source_t := mk_source {
  s_data : ptr; s_size : Z;
  s_header : tlv_range_t; s_tag : tlv_range_t; s_length : tlv_range_t;
  s_value : tlv_range_t; s_trailer : tlv_range_t;
  s_element : tlv_element_t; s_format : ptr; s_tag_binding : tlv_tag_binding_t }.
Definition no_source : tlv_source_t :=
  mk_source NULL 0 no_range no_range no_range no_range no_range empty_element NULL
    TLV_TAG_BINDING_SOURCE.

Record tlv_decoded_t := mk_decoded { d_element : tlv_element_t; d_source : tlv_source_t }.
Definition no_decoded : tlv_decoded_t := mk_decoded empty_element no_source.

(** Callbacks: the memory, the C arguments, and the current content of the out-parameters; they
    return the result code and the out-parameters' content, and an encoder the memory it leaves. *)
Definition tlv_decode_fn : Type :=
  mem -> ptr -> Z -> tlv_decoded_t -> tlv_format_error_t ->
  tlv_result_t * tlv_decoded_t * tlv_format_error_t.
Definition tlv_measure_fn : Type :=
  mem -> tlv_element_t -> tlv_encoding_t -> tlv_format_error_t ->
  tlv_result_t * tlv_encoding_t * tlv_format_error_t.
Definition tlv_encode_fn : Type :=
  mem -> tlv_element_t -> ptr -> Z -> Z -> tlv_format_error_t ->
  tlv_result_t * mem * Z * tlv_format_error_t.
Definition tlv_is_constructed_fn : Type := mem -> tlv_tag_t -> bool.

Record tlv_format_t := mk_format {
  f_self : ptr;
  f_decode : option tlv_decode_fn;
  f_measure : option tlv_measure_fn;
  f_encode : option tlv_encode_fn;
  f_is_constructed : option tlv_is_constructed_fn }.

Definition is_some {A} (o : option A) : bool := match o with Some _ => true | None => false end.

Definition tlv_constructed_bit_predicate (m : mem) (context : option tlv_constructed_bit_t)
  (tag : option tlv_tag_t) : bool :=
  match context, tag with
  | Some bit, Some t =>
      negb (bit.(cb_mask) =? 0) &&
      (Z.land bit.(cb_value) (Z.lnot bit.(cb_mask)) =? 0) &&
      negb (is_null t.(t_data)) && (bit.(cb_byte_index) <? t.(t_size)) &&
      (Z.land (ld m t.(t_data) bit.(cb_byte_index)) bit.(cb_mask) =? bit.(cb_value))
  | _, _ => false
  end.

Definition tlv_format_init (format : option tlv_format_t) (self : ptr)
  (decode : option tlv_decode_fn) (measure : option tlv_measure_fn)
  (encode : option tlv_encode_fn) : tlv_result_t * option tlv_format_t :=
  match format with
  | None => (TLV_ERR_INVALID_ARG, format)
  | Some _ =>
      if negb (eqb (is_some measure) (is_some encode)) ||
         (negb (is_some decode) && negb (is_some encode)) then (TLV_ERR_INVALID_ARG, format)
      else (TLV_OK, Some (mk_format self decode measure encode None))
  end.

Definition tlv_format_can_read (format : option tlv_format_t) : bool :=
  match format with Some f => is_some f.(f_decode) | None => false end.

Definition tlv_format_can_write (format : option tlv_format_t) : bool :=
  match format with
  | Some f => is_some f.(f_measure) && is_some f.(f_encode)
  | None => false
  end.

Definition range_valid (r : tlv_range_t) (size : Z) : bool :=
  negb r.(r_present) || ((r.(r_offset) <=? size) && (r.(r_size) <=? size - r.(r_offset))).

Definition bytes_equal (m : mem) (a b : ptr) (size : Z) : bool :=
  (size =? 0) || (negb (is_null a) && negb (is_null b) && (memcmp m a b size =? 0)).

Definition tag_binding_valid (result : tlv_decoded_t) (data : ptr) : bool :=
  let source := result.(d_source) in
  let tag := result.(d_element).(e_tag) in
  match source.(s_tag_binding) with
  | TLV_TAG_BINDING_SOURCE =>
      if source.(s_tag).(r_present) then
        (tag.(t_size) =? source.(s_tag).(r_size)) &&
        ptr_eqb tag.(t_data) (data +p source.(s_tag).(r_offset))
      else (tag.(t_size) =? 0) && is_null tag.(t_data)
  | TLV_TAG_BINDING_FORMAT => negb (is_null tag.(t_data))
  | TLV_TAG_BINDING_OTHER _ => false
  end.

(** The conjunction of the checks a successful decode callback must pass, negated in the source;
    [usize] is the wrap-around of [value.offset + value.size] in [size_t]. *)
Definition decoded_valid `{Platform} (result : tlv_decoded_t) (data : ptr) (size : Z) : bool :=
  let s := result.(d_source) in
  s.(s_header).(r_present) && s.(s_value).(r_present) && s.(s_trailer).(r_present) &&
  negb (s.(s_size) =? 0) && negb (size <? s.(s_size)) &&
  (s.(s_header).(r_offset) =? 0) && range_valid s.(s_header) s.(s_size) &&
  range_valid s.(s_value) s.(s_size) && range_valid s.(s_trailer) s.(s_size) &&
  range_valid s.(s_tag) s.(s_size) && range_valid s.(s_length) s.(s_size) &&
  (s.(s_value).(r_offset) =? s.(s_header).(r_size)) &&
  (s.(s_trailer).(r_offset) =? usize (s.(s_value).(r_offset) + s.(s_value).(r_size))) &&
  (s.(s_trailer).(r_size) =? usize (s.(s_size) - s.(s_trailer).(r_offset))) &&
  (result.(d_element).(e_value).(v_size) =? s.(s_value).(r_size)) &&
  ptr_eqb result.(d_element).(e_value).(v_data) (data +p s.(s_value).(r_offset)) &&
  tag_binding_valid result data.

#[global] Arguments decoded_valid : simpl never.

(** [detail.tag.present = 0] unless the range lies in the buffer. *)
Definition clip_range (r : tlv_range_t) (size : Z) : tlv_range_t :=
  if range_valid r size then r else mk_range r.(r_offset) r.(r_size) false.

Definition clip_error (e : tlv_format_error_t) (size : Z) : tlv_format_error_t :=
  mk_ferr e.(fe_region) e.(fe_offset) e.(fe_has_offset) e.(fe_required) e.(fe_has_required)
    (clip_range e.(fe_tag) size) (clip_range e.(fe_length) size) (clip_range e.(fe_value) size).

(** [if (error) *error = detail]. *)
Definition put_error (error : option tlv_format_error_t) (detail : tlv_format_error_t)
  : option tlv_format_error_t := match error with Some _ => Some detail | None => None end.

Definition tlv_format_decode `{Platform} (format : option tlv_format_t) (m : mem) (data : ptr)
  (size : Z) (decoded : option tlv_decoded_t) (error : option tlv_format_error_t)
  : tlv_result_t * option tlv_decoded_t * option tlv_format_error_t :=
  match format, decoded with
  | Some f, Some _ =>
      match f.(f_decode) with
      | Some decode =>
          if is_null data && negb (size =? 0) then
            (TLV_ERR_NULL_ARG, decoded, put_error error no_error)
          else if size =? 0 then
            (TLV_END, decoded,
             put_error error (mk_ferr TLV_REGION_HEADER 0 true 0 false no_range no_range no_range))
          else
            let '(rc, result, detail) := decode m data size no_decoded no_error in
            let rc := tlv_callback_result rc false in
            let rc := if rc_eqb rc TLV_ERR_BUFFER_TOO_SHORT then TLV_ERR_CALLBACK else rc in
            let rc := if is_ok rc && negb (decoded_valid result data size) then TLV_ERR_CALLBACK
                      else rc in
            if negb (is_ok rc) then (rc, decoded, put_error error (clip_error detail size))
            else
              let s := result.(d_source) in
              (TLV_OK,
               Some (mk_decoded result.(d_element)
                 (mk_source data s.(s_size) s.(s_header) s.(s_tag) s.(s_length) s.(s_value)
                    s.(s_trailer) result.(d_element) f.(f_self) s.(s_tag_binding))),
               error)
      | None => (TLV_ERR_NULL_ARG, decoded, put_error error no_error)
      end
  | _, _ => (TLV_ERR_NULL_ARG, decoded, put_error error no_error)
  end.

Definition tlv_format_measure (format : option tlv_format_t) (m : mem)
  (element : option tlv_element_t) (encoding : option tlv_encoding_t)
  (error : option tlv_format_error_t)
  : tlv_result_t * option tlv_encoding_t * option tlv_format_error_t :=
  match format, element, encoding with
  | Some f, Some e, Some _ =>
      match f.(f_measure), f.(f_encode) with
      | Some measure, Some _ =>
          if negb (e.(e_tag).(t_size) =? 0) && is_null e.(e_tag).(t_data) then
            (TLV_ERR_NULL_ARG, encoding, error)
          else
            let '(rc, result, detail) := measure m e no_encoding no_error in
            let rc := tlv_callback_result rc false in
            let rc :=
              if is_ok rc then
                let '(rc1, total1) := tlv_size_add result.(en_header) result.(en_value) (Some 0) in
                let '(rc2, total2) :=
                  if is_ok rc1 then tlv_size_add (cell 0 total1) result.(en_trailer) total1
                  else (rc1, total1) in
                if negb (is_ok rc2) || (cell 0 total2 =? 0) ||
                   negb (result.(en_value) =? e.(e_value).(v_size)) ||
                   negb (result.(en_total) =? cell 0 total2) then TLV_ERR_CALLBACK else TLV_OK
              else rc in
            if negb (is_ok rc) then (rc, encoding, put_error error detail)
            else (TLV_OK, Some result, error)
      | _, _ => (TLV_ERR_NULL_ARG, encoding, error)
      end
  | _, _, _ => (TLV_ERR_NULL_ARG, encoding, error)
  end.

Definition tlv_format_encode `{Platform} (format : option tlv_format_t) (m : mem)
  (element : option tlv_element_t) (data : ptr) (capacity : Z) (written : option Z)
  (error : option tlv_format_error_t)
  : tlv_result_t * mem * option Z * option tlv_format_error_t :=
  match element, written with
  | Some e, Some _ =>
      if (is_null data && negb (capacity =? 0)) ||
         (is_null e.(e_value).(v_data) && negb (e.(e_value).(v_size) =? 0)) then
        (TLV_ERR_NULL_ARG, m, written, error)
      else
        let '(rc, sizes, error) := tlv_format_measure format m element (Some no_encoding) error in
        if negb (is_ok rc) then (rc, m, written, error) else
        let sizes := cell no_encoding sizes in
        let '(rc, total) := tlv_size_to_native sizes.(en_total) (Some 0) in
        if negb (is_ok rc) then (rc, m, written, error) else
        let total := cell 0 total in
        if capacity <? total then
          (TLV_ERR_BUFFER_TOO_SHORT, m, Some total,
           put_error error (mk_ferr TLV_REGION_VALUE 0 true sizes.(en_total) true
                              no_range no_range no_range))
        else
          match format with
          | Some {| f_encode := Some encode |} =>
              let '(rc, m, used, detail) := encode m e data capacity 0 no_error in
              let rc := tlv_callback_result rc false in
              let rc := if is_ok rc && negb (used =? total) then TLV_ERR_CALLBACK else rc in
              if negb (is_ok rc) then (rc, m, written, put_error error detail)
              else (TLV_OK, m, Some used, error)
          | _ => (TLV_ERR_NULL_ARG, m, written, error)
          end
  | _, _ => (TLV_ERR_NULL_ARG, m, written, error)
  end.

Definition tlv_source_preserve `{Platform} (m : mem) (source : option tlv_source_t)
  (element : option tlv_element_t) (data : ptr) (capacity : Z) (written : option Z)
  : tlv_result_t * mem * option Z :=
  match source, element, written with
  | Some s, Some e, Some _ =>
      if (is_null data && negb (capacity =? 0)) || is_null s.(s_format) || is_null s.(s_data) then
        (TLV_ERR_NULL_ARG, m, written)
      else if ((e.(e_tag).(t_size) =? 0) &&
               negb (eqb (is_null e.(e_tag).(t_data)) (is_null s.(s_element).(e_tag).(t_data)))) ||
              negb (e.(e_tag).(t_size) =? s.(s_element).(e_tag).(t_size)) ||
              negb (e.(e_value).(v_size) =? s.(s_element).(e_value).(v_size)) then
        (TLV_ERR_INVALID_ARG, m, written)
      else
        let '(rc, size) := tlv_size_to_native e.(e_value).(v_size) (Some 0) in
        if negb (is_ok rc) then (rc, m, written)
        else if negb (bytes_equal m e.(e_tag).(t_data) s.(s_element).(e_tag).(t_data)
                        e.(e_tag).(t_size)) ||
                negb (bytes_equal m e.(e_value).(v_data) s.(s_element).(e_value).(v_data)
                        (cell 0 size)) then (TLV_ERR_INVALID_ARG, m, written)
        else if negb (is_null data) && (capacity <? s.(s_size)) then
          (TLV_ERR_BUFFER_TOO_SHORT, m, Some s.(s_size))
        else (TLV_OK,
              (if negb (is_null data) then memmove m data s.(s_data) s.(s_size) else m),
              Some s.(s_size))
  | _, _, _ => (TLV_ERR_NULL_ARG, m, written)
  end.

(** ** Values of C types

    The out-parameters a callback publishes are C objects: every [size_t] in them is in range. *)
Definition range_typed `{Platform} (r : tlv_range_t) : Prop :=
  0 <= r.(r_offset) <= SIZE_MAX /\ 0 <= r.(r_size) <= SIZE_MAX.

Definition decoded_typed `{Platform} (d : tlv_decoded_t) : Prop :=
  let s := d.(d_source) in
  0 <= s.(s_size) <= SIZE_MAX /\ range_typed s.(s_header) /\ range_typed s.(s_tag) /\
  range_typed s.(s_length) /\ range_typed s.(s_value) /\ range_typed s.(s_trailer) /\
  tag_ok d.(d_element).(e_tag).

Definition decode_typed `{Platform} (decode : tlv_decode_fn) : Prop :=
  forall m data size d e, data <> NULL -> 1 <= size <= SIZE_MAX ->
    decode m data size no_decoded no_error = (TLV_OK, d, e) -> decoded_typed d.

Definition encoding_typed (en : tlv_encoding_t) : Prop :=
  0 <= en.(en_header) <= UINT64_MAX /\ 0 <= en.(en_value) <= UINT64_MAX /\
  0 <= en.(en_trailer) <= UINT64_MAX /\ 0 <= en.(en_total) <= UINT64_MAX.

Definition measure_typed (measure : tlv_measure_fn) : Prop :=
  forall m el en e, measure m el no_encoding no_error = (TLV_OK, en, e) -> encoding_typed en.

(** ** What a decoded element is *)

(** The decoded element occupies a nonempty prefix of the input: header, value and trailer are
    adjacent and fill it, the value points at its range, and the tag is bound as declared. *)
Record decoded_ok (data : ptr) (size : Z) (d : tlv_decoded_t) : Prop := {
  ok_size : 1 <= d.(d_source).(s_size) <= size;
  ok_data : d.(d_source).(s_data) = data;
  ok_element : d.(d_source).(s_element) = d.(d_element);
  ok_header : d.(d_source).(s_header).(r_offset) = 0 /\ 0 <= d.(d_source).(s_header).(r_size);
  ok_value : d.(d_source).(s_value).(r_offset) = d.(d_source).(s_header).(r_size) /\
             0 <= d.(d_source).(s_value).(r_size);
  ok_trailer : d.(d_source).(s_trailer).(r_offset) =
                 d.(d_source).(s_header).(r_size) + d.(d_source).(s_value).(r_size) /\
               0 <= d.(d_source).(s_trailer).(r_size);
  ok_sum : d.(d_source).(s_header).(r_size) + d.(d_source).(s_value).(r_size) +
             d.(d_source).(s_trailer).(r_size) = d.(d_source).(s_size);
  ok_value_view : d.(d_element).(e_value) =
    mk_value (data +p d.(d_source).(s_header).(r_size)) d.(d_source).(s_value).(r_size);
  ok_tag : tag_binding_valid d data = true;
  ok_tag_size : 0 <= d.(d_element).(e_tag).(t_size) }.

(** A range of a diagnostic that is published lies in the buffer. *)
Definition error_in_buffer (e : tlv_format_error_t) (size : Z) : Prop :=
  range_valid e.(fe_tag) size = true /\ range_valid e.(fe_length) size = true /\
  range_valid e.(fe_value) size = true.

Lemma clip_range_valid r size : range_valid (clip_range r size) size = true.
Proof. unfold clip_range. destruct (range_valid r size) eqn:E; [done|]. done. Qed.

Lemma clip_error_in_buffer e size : error_in_buffer (clip_error e size) size.
Proof. split; [|split]; apply clip_range_valid. Qed.

Lemma no_error_in_buffer size : error_in_buffer no_error size.
Proof. done. Qed.

Lemma range_valid_present r size :
  range_valid r size = true -> r.(r_present) = true ->
  r.(r_offset) <= size /\ r.(r_size) <= size - r.(r_offset).
Proof. unfold range_valid. intros Hv Hp. rewrite Hp in Hv. simpl in Hv. zlia. Qed.

(** The checks of [tlv_format_decode] establish the shape. *)
Lemma decoded_valid_ok `{Platform} d data size self :
  decoded_typed d -> 0 <= size <= SIZE_MAX -> decoded_valid d data size = true ->
  let s := d.(d_source) in
  decoded_ok data size
    (mk_decoded d.(d_element)
       (mk_source data s.(s_size) s.(s_header) s.(s_tag) s.(s_length) s.(s_value) s.(s_trailer)
          d.(d_element) self s.(s_tag_binding))).
Proof.
  intros (Hs & Hh & Ht & Hl & Hv & Htr & [[Htn _] _]) Hsize Hd. cbn zeta.
  unfold decoded_valid in Hd. rewrite !andb_true_iff, !negb_true_iff in Hd.
  destruct Hd as ((((((((((((((((Hhp & Hvp) & Htp) & Hnz) & Hle) & Hho) & Hrh) & Hrv) & Hrt) & _) & _)
    & Hvo) & Hto) & Hts) & Hvs) & Hvd) & Htag).
  apply range_valid_present in Hrh, Hrv, Hrt; try done.
  apply ptr_eqb_true in Hvd. pose proof SIZE_MAX_bounds as HM.
  unfold range_typed in *. rewrite Z.eqb_eq in *. rewrite Z.eqb_neq, Z.ltb_ge in *.
  rewrite usize_small in Hto by lia. rewrite usize_small in Hts by lia.
  split; simpl; try done; try lia.
  destruct d as [[et ev] s]; simpl in *. destruct ev; simpl in *. subst. f_equal. now rewrite Hvo.
Qed.

Lemma format_decode_cases `{Platform} f m data size d0 e0 :
  0 <= size <= SIZE_MAX ->
  (forall decode, f.(f_decode) = Some decode -> decode_typed decode) ->
  let '(rc, decoded, error) := tlv_format_decode (Some f) m data size (Some d0) e0 in
  (rc = TLV_OK /\ 1 <= size /\ error = e0 /\ exists d, decoded = Some d /\ decoded_ok data size d /\
     d.(d_source).(s_format) = f.(f_self) /\ tag_ok d.(d_element).(e_tag)) \/
  (rc <> TLV_OK /\ decoded = Some d0 /\
   (rc = TLV_END -> size = 0) /\ rc <> TLV_NEED_MORE_DATA /\ rc <> TLV_ERR_BUFFER_TOO_SHORT /\
   exists e, error = put_error e0 e /\ error_in_buffer e size).
Proof.
  intros Hsize Htyped. unfold tlv_format_decode.
  destruct (f_decode f) as [decode|] eqn:Ef.
  2: { right. repeat split; try done. exists no_error. done. }
  destruct (is_null data && negb (size =? 0)) eqn:Enull.
  { right. repeat split; try done. exists no_error. done. }
  destruct (size =? 0) eqn:E0.
  { right. repeat split; try done; [lia|]. eexists. split; [done|]. done. }
  destruct (decode m data size no_decoded no_error) as [[rc d] detail] eqn:Ed.
  assert (data <> NULL) as Hdata by (destruct data; [simpl in Enull; lia|done]).
  assert (1 <= size <= SIZE_MAX) as Hsz by lia.
  assert (rc = TLV_OK -> decoded_typed d) as Hty
    by (intros ->; exact (Htyped decode eq_refl _ _ _ _ _ Hdata Hsz Ed)).
  clear Htyped. cbv zeta. set (rc1 := tlv_callback_result rc false).
  set (rc2 := if rc_eqb rc1 TLV_ERR_BUFFER_TOO_SHORT then TLV_ERR_CALLBACK else rc1).
  assert (rc2 <> TLV_END /\ rc2 <> TLV_NEED_MORE_DATA /\ rc2 <> TLV_ERR_BUFFER_TOO_SHORT) as Hrc2.
  { unfold rc2. destruct (callback_result_control rc) as [Hc1 Hc2]. fold rc1 in Hc1, Hc2.
    destruct (rc_eqb rc1 TLV_ERR_BUFFER_TOO_SHORT) eqn:Eb; rc_simpl; done. }
  assert (is_ok rc2 = true -> rc = TLV_OK) as Hrc.
  { unfold rc2, rc1. intros E. destruct (rc_eqb _ _) in E; [done|].
    apply (callback_result_ok rc false). now apply is_ok_true. }
  clearbody rc2. destruct (is_ok rc2) eqn:Eok; cbn [andb].
  - specialize (Hty (Hrc eq_refl)). destruct (decoded_valid d data size) eqn:Ev; simpl.
    + rewrite Eok. simpl. left. split; [done|]. split; [lia|]. split; [done|].
      eexists. split; [done|].
      split; [now apply decoded_valid_ok|]. split; [done|]. apply Hty.
    + right. repeat split; try done. eexists. split; [done|]. apply clip_error_in_buffer.
  - rewrite Eok. simpl. right. apply is_ok_false in Eok. repeat split; try easy.
    eexists. split; [done|]. apply clip_error_in_buffer.
Qed.

(** ** Properties *)

(** C14. Decoding is safe for an arbitrary format callback.  On success the element is a nonempty prefix
    of the input that header, value and trailer partition, with the value viewing exactly its
    range of the input; on failure nothing is published, END means empty input, no capacity or
    incremental status is returned, and every range of the published error lies in the buffer. *)
Theorem format_decode_sound `{Platform} (f : tlv_format_t) (m : mem) (data : ptr) (size : Z)
  (d0 : tlv_decoded_t) (e0 : tlv_format_error_t) (Hsize : 0 <= size <= SIZE_MAX)
  (Htyped : forall decode, f.(f_decode) = Some decode -> decode_typed decode) :
  let '(rc, decoded, error) := tlv_format_decode (Some f) m data size (Some d0) (Some e0) in
  (rc = TLV_OK /\ error = Some e0 /\ exists d, decoded = Some d /\ decoded_ok data size d) \/
  (rc <> TLV_OK /\ decoded = Some d0 /\ (rc = TLV_END -> size = 0) /\
   rc <> TLV_NEED_MORE_DATA /\ rc <> TLV_ERR_BUFFER_TOO_SHORT /\
   exists e, error = Some e /\ error_in_buffer e size).
Proof.
  pose proof (format_decode_cases f m data size d0 (Some e0) Hsize Htyped) as Hc.
  destruct (tlv_format_decode (Some f) m data size (Some d0) (Some e0)) as [[rc decoded] error].
  destruct Hc as [(? & _ & ? & d & ? & ? & _)|(? & ? & ? & ? & ? & e & He & ?)]; [left|right]; eauto 10.
Qed.

(** A concrete callback: one tag octet, no length, the rest of the input is the value. *)
Definition rest_decode (m : mem) (data : ptr) (size : Z) (d : tlv_decoded_t)
  (e : tlv_format_error_t) : tlv_result_t * tlv_decoded_t * tlv_format_error_t :=
  if (1 <=? size) && (size <=? 65535) then
    let el := mk_element (tlv_tag data 1) (mk_value (data +p 1) (size - 1)) in
    (TLV_OK,
     mk_decoded el (mk_source NULL size (mk_range 0 1 true) (mk_range 0 1 true) no_range
       (mk_range 1 (size - 1) true) (mk_range size 0 true) empty_element NULL
       TLV_TAG_BINDING_SOURCE), e)
  else (TLV_ERR_TRUNCATED, d, e).

Definition rest_format : tlv_format_t := mk_format (Ptr 100 0) (Some rest_decode) None None None.

Lemma rest_typed (decode : tlv_decode_fn) :
  rest_format.(f_decode) = Some decode -> @decode_typed LP64 decode.
Proof.
  intros [= <-] m data size d e Hd Hs. unfold rest_decode.
  assert (@SIZE_MAX LP64 = 18446744073709551615) as HM by reflexivity.
  destruct ((1 <=? size) && (size <=? 65535)) eqn:E; intros [= <- <-].
  unfold decoded_typed, range_typed, tag_ok; simpl; rewrite HM.
  rewrite andb_true_iff, !Z.leb_le in E. repeat split; try lia; intros; congruence.
Qed.

Lemma format_decode_sound_witness :
  exists d, @tlv_format_decode LP64 (Some rest_format) (mem_of 1 [90; 1; 2]) (Ptr 1 0) 3
              (Some no_decoded) (Some no_error) = (TLV_OK, Some d, Some no_error) /\
  decoded_ok (Ptr 1 0) 3 d.
Proof.
  eexists. split; [reflexivity|].
  destruct (format_decode_sound (H := LP64) rest_format (mem_of 1 [90; 1; 2]) (Ptr 1 0) 3 no_decoded
    no_error ltac:(vm_compute; intuition congruence) rest_typed)
    as [(_ & _ & d & E & Hok)|(Hrc & _)].
  - injection E as <-. exact Hok.
  - destruct (Hrc eq_refl).
Defined.

(** A successful measurement is exact: the callback's header, value and trailer sum without overflow
    to the total, the value is the element's, and the total is positive. *)
Lemma format_measure_ok f m e en0 e0 en err :
  (forall measure, f.(f_measure) = Some measure -> measure_typed measure) ->
  tlv_format_measure (Some f) m (Some e) (Some en0) e0 = (TLV_OK, en, err) ->
  err = e0 /\ exists x, en = Some x /\ encoding_typed x /\ x.(en_value) = e.(e_value).(v_size) /\
    x.(en_total) = x.(en_header) + x.(en_value) + x.(en_trailer) /\ 1 <= x.(en_total) <= UINT64_MAX.
Proof.
  intros Htyped H. unfold tlv_format_measure in H.
  destruct (f_measure f) as [measure|] eqn:Em; [|discriminate].
  destruct (f_encode f); [|discriminate].
  destruct (negb (t_size (e_tag e) =? 0) && is_null (t_data (e_tag e))); [discriminate|].
  destruct (measure m e no_encoding no_error) as [[rc x] detail] eqn:Ex.
  cbv zeta in H. destruct (is_ok (tlv_callback_result rc false)) eqn:Eok.
  2: { simpl in H. rewrite Eok in H. apply is_ok_false in Eok. simpl in H. congruence. }
  apply is_ok_true, (callback_result_ok rc false) in Eok as ->.
  specialize (Htyped measure eq_refl _ _ _ _ Ex). destruct Htyped as (Hh & Hv & Ht & Htot).
  destruct (tlv_size_add (en_header x) (en_value x) (Some 0)) as [rc1 t1] eqn:E1.
  destruct (is_ok rc1) eqn:Ok1; simpl in H; [|rewrite ?Ok1 in H; discriminate H].
  apply is_ok_true in Ok1 as ->.
  apply size_add_ok in E1 as [Hs1 ->]; [|lia|lia].
  destruct (tlv_size_add (cell 0 (Some (en_header x + en_value x))) (en_trailer x)
              (Some (en_header x + en_value x))) as [rc2 t2] eqn:E2. simpl in E2.
  destruct (negb (is_ok rc2) || (cell 0 t2 =? 0) || negb (en_value x =? v_size (e_value e)) ||
            negb (en_total x =? cell 0 t2)) eqn:E3; simpl in H; [discriminate|].
  injection H as <- <-. rewrite !orb_false_iff, !negb_false_iff in E3.
  destruct E3 as (((Ok2 & Hz) & Hval) & Htt). rc_simpl.
  apply size_add_ok in E2 as [Hs2 ->]; [|lia|lia]. simpl in *.
  split; [done|]. exists x. repeat split; try done; lia.
Qed.

Lemma format_encode_cases `{Platform} (f : tlv_format_t) (m : mem) (e : tlv_element_t)
  (data : ptr) (capacity w0 : Z) (e0 : option tlv_format_error_t) :
  0 <= capacity <= SIZE_MAX ->
  (forall measure, f.(f_measure) = Some measure -> measure_typed measure) ->
  let '(rc, m', written, error) := tlv_format_encode (Some f) m (Some e) data capacity (Some w0) e0 in
  (rc = TLV_OK -> exists en,
     tlv_format_measure (Some f) m (Some e) (Some no_encoding) e0 = (TLV_OK, Some en, error) /\
     written = Some en.(en_total) /\
     en.(en_total) = en.(en_header) + e.(e_value).(v_size) + en.(en_trailer) /\
     1 <= en.(en_total) <= capacity) /\
  (forall en err, tlv_format_measure (Some f) m (Some e) (Some no_encoding) e0 = (TLV_OK, Some en, err) ->
     is_null data && negb (capacity =? 0) = false ->
     is_null e.(e_value).(v_data) && negb (e.(e_value).(v_size) =? 0) = false ->
     capacity < en.(en_total) <= SIZE_MAX ->
     rc = TLV_ERR_BUFFER_TOO_SHORT /\ m' = m /\ written = Some en.(en_total)).
Proof.
  intros Hcap Htyped.
  unfold tlv_format_encode.
  destruct ((is_null data && negb (capacity =? 0)) ||
            (is_null (v_data (e_value e)) && negb (v_size (e_value e) =? 0))) eqn:Eg.
  { split; [done|]. intros en err _ Ha Hb. rewrite Ha, Hb in Eg. done. }
  destruct (tlv_format_measure (Some f) m (Some e) (Some no_encoding) e0) as [[rc0 sz] err0] eqn:Em.
  destruct (is_ok rc0) eqn:Ok0; simpl.
  2: { apply is_ok_false in Ok0. split; [done|]. intros en err [= -> _ _]. done. }
  apply is_ok_true in Ok0 as ->.
  destruct (format_measure_ok _ _ _ _ _ _ _ Htyped Em) as (-> & x & -> & Hty & Hxv & Hxt & Hx1).
  simpl. destruct (Z.le_gt_cases (en_total x) SIZE_MAX) as [Hfit|Hbig].
  2: { unfold tlv_size_to_native. rewrite (proj2 (Z.ltb_lt _ _)) by lia. simpl. split; [done|].
       intros en err [= <- <-]. lia. }
  rewrite size_to_native_small by lia. simpl.
  destruct (capacity <? en_total x) eqn:Ecap.
  { split; [done|]. intros en err [= <- <-] _ _ _. done. }
  assert (forall en err, (TLV_OK, Some x, e0) = (TLV_OK, Some en, err) ->
            is_null data && negb (capacity =? 0) = false ->
            is_null (v_data (e_value e)) && negb (v_size (e_value e) =? 0) = false ->
            capacity < en_total en <= SIZE_MAX -> False) as Hno by (intros en err [= <- <-]; lia).
  destruct f as [self dec me en ic]; simpl in *. destruct en as [encode|].
  2: { split; [done|]. intros; exfalso; eauto. }
  destruct (encode m e data capacity 0 no_error) as [[[rc m'] used] detail].
  destruct (is_ok (tlv_callback_result rc false)) eqn:Eok; simpl.
  - destruct (used =? en_total x) eqn:Eu; simpl; rewrite ?Eok; simpl.
    + split; [|intros; exfalso; eauto]. intros _. exists x. split; [done|].
      split; [f_equal; lia|]. split; [lia|]. lia.
    + split; [done|]. intros; exfalso; eauto.
  - rewrite Eok. simpl. apply is_ok_false in Eok. split; [done|]. intros; exfalso; eauto.
Qed.

(** C34. A successful encode wrote exactly the measured total, which fits the destination; when the
    destination is too small nothing is written and the required total is reported. *)
Theorem format_encode_exact `{Platform} (f : tlv_format_t) (m : mem) (e : tlv_element_t)
  (data : ptr) (capacity w0 : Z) (e0 : option tlv_format_error_t) (Hcap : 0 <= capacity <= SIZE_MAX)
  (Htyped : forall measure, f.(f_measure) = Some measure -> measure_typed measure) :
  let '(rc, m', written, error) := tlv_format_encode (Some f) m (Some e) data capacity (Some w0) e0 in
  (rc = TLV_OK -> exists en,
     tlv_format_measure (Some f) m (Some e) (Some no_encoding) e0 = (TLV_OK, Some en, error) /\
     written = Some en.(en_total) /\
     en.(en_total) = en.(en_header) + e.(e_value).(v_size) + en.(en_trailer) /\
     1 <= en.(en_total) <= capacity) /\
  (forall en err, tlv_format_measure (Some f) m (Some e) (Some no_encoding) e0 = (TLV_OK, Some en, err) ->
     is_null data && negb (capacity =? 0) = false ->
     is_null e.(e_value).(v_data) && negb (e.(e_value).(v_size) =? 0) = false ->
     capacity < en.(en_total) <= SIZE_MAX ->
     rc = TLV_ERR_BUFFER_TOO_SHORT /\ m' = m /\ written = Some en.(en_total)).
Proof. exact (format_encode_cases f m e data capacity w0 e0 Hcap Htyped). Qed.

(** The matching encoder of [rest_format]. *)
Definition rest_measure (m : mem) (e : tlv_element_t) (en : tlv_encoding_t)
  (err : tlv_format_error_t) : tlv_result_t * tlv_encoding_t * tlv_format_error_t :=
  if (0 <=? e.(e_value).(v_size)) && (e.(e_value).(v_size) <=? 65534) then
    (TLV_OK, mk_encoding 1 e.(e_value).(v_size) 0 (1 + e.(e_value).(v_size)), err)
  else (TLV_ERR_INVALID_LENGTH, en, err).

Definition rest_encode (m : mem) (e : tlv_element_t) (data : ptr) (capacity written : Z)
  (err : tlv_format_error_t) : tlv_result_t * mem * Z * tlv_format_error_t :=
  (TLV_OK, memcpy (st m data 0 (ld m e.(e_tag).(t_data) 0)) (data +p 1) e.(e_value).(v_data)
             e.(e_value).(v_size), 1 + e.(e_value).(v_size), err).

Definition rest_codec : tlv_format_t :=
  mk_format (Ptr 100 0) (Some rest_decode) (Some rest_measure) (Some rest_encode) None.

Lemma rest_measure_typed (measure : tlv_measure_fn) :
  rest_codec.(f_measure) = Some measure -> measure_typed measure.
Proof.
  intros [= <-] m el en e. unfold rest_measure.
  destruct ((0 <=? v_size (e_value el)) && (v_size (e_value el) <=? 65534)) eqn:E;
    intros [= <- <-]; unfold encoding_typed; simpl; zlia.
Qed.

Lemma format_encode_exact_witness :
  let m := mem_of 1 [90; 1; 2] in
  let e := mk_element (tlv_tag (Ptr 1 0) 1) (mk_value (Ptr 1 1) 2) in
  exists m', @tlv_format_encode LP64 (Some rest_codec) m (Some e) (Ptr 2 0) 3 (Some 0) None =
               (TLV_OK, m', Some 3, None) /\
  bytes_of m' (Ptr 2 0) 3 = [90; 1; 2] /\
  exists en, Some 3 = Some en.(en_total) /\ 1 <= en.(en_total) <= 3.
Proof.
  eexists. split; [reflexivity|]. split; [reflexivity|].
  destruct (proj1 (format_encode_exact (H := LP64) rest_codec (mem_of 1 [90; 1; 2])
    (mk_element (tlv_tag (Ptr 1 0) 1) (mk_value (Ptr 1 1) 2)) (Ptr 2 0) 3 0 None
    ltac:(vm_compute; intuition congruence) rest_measure_typed) eq_refl) as (en & _ & Hw & _ & Ht).
  exists en. split; [exact Hw|exact Ht].
Defined.

Lemma bytes_equal_refl m p n : 0 <= n -> (p = NULL -> n = 0) -> bytes_equal m p p n = true.
Proof.
  intros Hn Hp. unfold bytes_equal. destruct p; simpl.
  - rewrite Hp by done. done.
  - unfold memcmp. rewrite (proj2 (lex_eq _ _) eq_refl). apply orb_true_r.
Qed.


(** Whatever format decoded it, an unmodified element is preserved bit for bit: copying through its
    source reproduces the encoded bytes the decoder consumed and changes nothing else. *)
Theorem decode_preserve `{Platform} (f : tlv_format_t) (m : mem) (data out : ptr) (size capacity w0 : Z)
  (d0 d : tlv_decoded_t) (e0 e1 : option tlv_format_error_t) (Hself : f.(f_self) <> NULL)
  (Hdata : data <> NULL) (Hout : out <> NULL) (Hsize : 0 <= size <= SIZE_MAX)
  (Hcap : d.(d_source).(s_size) <= capacity)
  (Htyped : forall decode, f.(f_decode) = Some decode -> decode_typed decode)
  (Hdec : tlv_format_decode (Some f) m data size (Some d0) e0 = (TLV_OK, Some d, e1)) :
  let '(rc, m', written) :=
    tlv_source_preserve m (Some d.(d_source)) (Some d.(d_element)) out capacity (Some w0) in
  rc = TLV_OK /\ written = Some d.(d_source).(s_size) /\
  bytes_of m' out d.(d_source).(s_size) = bytes_of m data d.(d_source).(s_size) /\
  only_changes m m' out d.(d_source).(s_size).
Proof.
  pose proof (format_decode_cases f m data size d0 e0 Hsize Htyped) as Hc. rewrite Hdec in Hc.
  destruct Hc as [(_ & _ & _ & d' & [= <-] & Hok & Hfmt & Htag)|(? & _)]; [|done].
  destruct Hok. unfold tlv_source_preserve. rewrite Hfmt, ok_data0.
  replace (is_null out) with false by (destruct out; done).
  replace (is_null (f_self f)) with false by (destruct (f_self f); done).
  replace (is_null data) with false by (destruct data; done). simpl.
  rewrite ok_element0, eqb_reflx, !Z.eqb_refl, andb_false_r. simpl.
  rewrite ok_value_view0. simpl. rewrite size_to_native_small by lia. simpl.
  destruct Htag as [Ht1 Ht2].
  rewrite bytes_equal_refl by (done || lia).
  rewrite bytes_equal_refl by (try lia; destruct data; done). simpl.
  rewrite (proj2 (Z.ltb_ge _ _)) by lia. repeat split; try done.
  - apply bytes_of_memmove. destruct out; done.
  - apply memmove_only.
Qed.

(** The element [rest_format] decodes from the octets 90, 1, 2. *)
Definition rest_example : tlv_decoded_t :=
  cell no_decoded (snd (fst (@tlv_format_decode LP64 (Some rest_format) (mem_of 1 [90; 1; 2])
    (Ptr 1 0) 3 (Some no_decoded) None))).

Lemma decode_preserve_witness :
  exists m', @tlv_source_preserve LP64 (mem_of 1 [90; 1; 2]) (Some rest_example.(d_source))
               (Some rest_example.(d_element)) (Ptr 2 0) 8 (Some 0) = (TLV_OK, m', Some 3) /\
  bytes_of m' (Ptr 2 0) 3 = [90; 1; 2].
Proof.
  eexists. split; [reflexivity|].
  exact (proj1 (proj2 (proj2 (decode_preserve (H := LP64) rest_format (mem_of 1 [90; 1; 2]) (Ptr 1 0)
    (Ptr 2 0) 3 8 0 no_decoded rest_example None None ltac:(simpl; congruence) ltac:(congruence)
    ltac:(congruence) ltac:(vm_compute; intuition congruence) ltac:(vm_compute; congruence)
    rest_typed eq_refl)))).
Defined.
