(* ===== verification/FieldFixed.v ===== *)
(** * Field encodings: the contract of a field codec, and fixed-width fields (tlv/field/encoding.h, field/fixed.h,
    src/field/fixed.c, src/field/fixed_internal.h)

    [TagField] and [LengthField] state what a pair of a reader and a writer promises the element
    composition: sizing and writing agree, a written field reads back, a read is decided by the bytes
    of the field alone and stays inside the supplied input, and every proper prefix of a field is
    reported as truncated.  The field components prove instances; the theorems on composed formats use only the
    classes. *)

From S2P Require Import Prelude Mem Core Endian.

Definition tlv_read_tag_fn : Type :=
  mem -> ptr -> Z -> tlv_tag_t -> Z -> tlv_result_t * tlv_tag_t * Z.
Definition tlv_read_length_fn : Type :=
  mem -> ptr -> Z -> Z -> Z -> tlv_result_t * Z * Z.
Definition tlv_write_tag_fn : Type :=
  mem -> tlv_tag_t -> ptr -> Z -> Z -> tlv_result_t * mem * Z.
Definition tlv_write_length_fn : Type :=
  mem -> Z -> ptr -> Z -> Z -> tlv_result_t * mem * Z.

(** What a writer leaves that moves the octets of an identifier. *)
Lemma tag_moved m data t : data <> NULL ->
  exists m', (TLV_OK, memmove m data t.(t_data) t.(t_size), t.(t_size)) = (TLV_OK, m', t.(t_size)) /\
    only_changes m m' data t.(t_size) /\ bytes_of m' data t.(t_size) = tag_bytes m t.
Proof.
  intros Hd. eexists. split; [reflexivity|]. split; [apply memmove_only|]. apply bytes_of_memmove. now destruct data.
Qed.

(** An identifier codec whose encoding is the identifier itself.  [tag_adm] are the byte strings it
    accepts. *)
Class TagField `{Platform} (read : tlv_read_tag_fn) (write : tlv_write_tag_fn) := {
  tag_adm : list Z -> bool;
  tag_adm_length : forall l, tag_adm l = true -> 1 <= zlen l <= SIZE_MAX;
  tag_size_ok : forall m t w0, tag_ok t -> tag_adm (tag_bytes m t) = true ->
    write m t NULL 0 w0 = (TLV_OK, m, t.(t_size));
  tag_write_ok : forall m t data capacity w0, tag_ok t -> tag_adm (tag_bytes m t) = true ->
    data <> NULL -> t.(t_size) <= capacity -> disjoint_range data t.(t_size) t.(t_data) t.(t_size) ->
    exists m', write m t data capacity w0 = (TLV_OK, m', t.(t_size)) /\
      only_changes m m' data t.(t_size) /\ bytes_of m' data t.(t_size) = tag_bytes m t;
  tag_read_back : forall m data size n t0 c0, data <> NULL -> 0 <= n <= size -> size <= SIZE_MAX ->
    tag_adm (bytes_of m data n) = true -> read m data size t0 c0 = (TLV_OK, tlv_tag data n, n);
  tag_read_sound : forall m data size t0 c0 t c, data <> NULL -> 0 <= size <= SIZE_MAX ->
    read m data size t0 c0 = (TLV_OK, t, c) ->
    1 <= c <= size /\ t = tlv_tag data c /\ tag_adm (bytes_of m data c) = true;
  tag_read_truncated : forall m data size size' t0 c0 t0' c0' t c, data <> NULL ->
    0 <= size <= SIZE_MAX -> read m data size t0 c0 = (TLV_OK, t, c) -> 0 <= size' < c ->
    fst (fst (read m data size' t0' c0')) = TLV_ERR_TRUNCATED
}.

(** A length codec: [len_enc n] are the octets of length [n], when the codec can encode it. *)
Class LengthField `{Platform} (read : tlv_read_length_fn) (write : tlv_write_length_fn) := {
  len_enc : Z -> option (list Z);
  len_enc_bytes : forall n l, len_enc n = Some l -> bytes l /\ 1 <= zlen l <= 256;
  len_size_ok : forall m n l w0, 0 <= n <= UINT64_MAX -> len_enc n = Some l ->
    write m n NULL 0 w0 = (TLV_OK, m, zlen l);
  len_write_ok : forall m n l data capacity w0, 0 <= n <= UINT64_MAX -> len_enc n = Some l ->
    data <> NULL -> zlen l <= capacity ->
    exists m', write m n data capacity w0 = (TLV_OK, m', zlen l) /\
      only_changes m m' data (zlen l) /\ bytes_of m' data (zlen l) = l;
  len_read_back : forall m data size n l n0 c0, 0 <= n <= UINT64_MAX -> len_enc n = Some l ->
    data <> NULL -> zlen l <= size -> size <= SIZE_MAX -> bytes_of m data (zlen l) = l ->
    read m data size n0 c0 = (TLV_OK, n, zlen l);
  len_read_sound : forall m data size n0 c0 n c, data <> NULL -> 0 <= size <= SIZE_MAX ->
    read m data size n0 c0 = (TLV_OK, n, c) -> 1 <= c <= size /\ 0 <= n <= UINT64_MAX;
  len_read_local : forall m1 m2 data size size' n0 c0 n0' c0' n c, data <> NULL ->
    0 <= size <= SIZE_MAX -> 0 <= size' <= SIZE_MAX ->
    read m1 data size n0 c0 = (TLV_OK, n, c) -> c <= size' -> same_bytes m1 m2 data c ->
    read m2 data size' n0' c0' = (TLV_OK, n, c);
  len_read_truncated : forall m data size size' n0 c0 n0' c0' n c, data <> NULL ->
    0 <= size <= SIZE_MAX -> read m data size n0 c0 = (TLV_OK, n, c) -> 0 <= size' < c ->
    fst (fst (read m data size' n0' c0')) = TLV_ERR_TRUNCATED
}.

(** What an identifier reader decides, it decides from the identifier's bytes: the same bytes in
    another memory and another window read the same. *)
Lemma tag_read_local `{Platform} (read : tlv_read_tag_fn) (write : tlv_write_tag_fn)
  `{!TagField read write} m1 m2 data size size' t0 c0 t0' c0' t c :
  data <> NULL -> 0 <= size <= SIZE_MAX -> 0 <= size' <= SIZE_MAX ->
  read m1 data size t0 c0 = (TLV_OK, t, c) -> c <= size' -> same_bytes m1 m2 data c ->
  read m2 data size' t0' c0' = (TLV_OK, t, c).
Proof.
  intros Hd Hs Hs' Hr Hc Hsame. apply tag_read_sound in Hr as (Hcs & -> & Hadm); try done.
  apply tag_read_back; try done; try lia. now rewrite <- (same_bytes_of _ _ _ _ Hsame).
Qed.

(** * Fixed-width identifier and length fields (field/fixed.h, src/field/fixed.c,
      src/field/fixed_internal.h) *)

Record tlv_fixed_identifier_t := mk_fixed_identifier { fi_size : Z }.
Record tlv_fixed_length_t := mk_fixed_length { fl_size : Z; fl_byte_order : tlv_byte_order_t }.

Definition fixed_identifier_validate (config : tlv_fixed_identifier_t) : tlv_result_t :=
  if negb (config.(fi_size) =? 0) then TLV_OK else TLV_ERR_INVALID_ARG.

Definition fixed_length_validate (config : tlv_fixed_length_t) : tlv_result_t :=
  if (config.(fl_size) =? 0) || (8 <? config.(fl_size)) then TLV_ERR_INVALID_ARG
  else if order_bad config.(fl_byte_order) then TLV_ERR_INVALID_ARG
  else TLV_OK.

Definition tlv_fixed_identifier_read (config : option tlv_fixed_identifier_t) (m : mem) (data : ptr)
  (size : Z) (tag : option tlv_tag_t) (consumed : option Z)
  : tlv_result_t * option tlv_tag_t * option Z :=
  match config, tag, consumed with
  | Some c, Some _, Some _ =>
      if is_null data && negb (size =? 0) then (TLV_ERR_NULL_ARG, tag, consumed)
      else
        let rc := fixed_identifier_validate c in
        if negb (is_ok rc) then (rc, tag, consumed) else
        let consumed := Some (if size <? c.(fi_size) then size else c.(fi_size)) in
        if size <? c.(fi_size) then (TLV_ERR_TRUNCATED, tag, consumed)
        else (TLV_OK, Some (tlv_tag data c.(fi_size)), Some c.(fi_size))
  | _, _, _ => (TLV_ERR_NULL_ARG, tag, consumed)
  end.

Definition tlv_fixed_identifier_write (config : option tlv_fixed_identifier_t) (m : mem)
  (tag : option tlv_tag_t) (data : ptr) (capacity : Z) (written : option Z)
  : tlv_result_t * mem * option Z :=
  match config, tag, written with
  | Some c, Some t, Some _ =>
      if (is_null t.(t_data) && negb (t.(t_size) =? 0)) || (is_null data && negb (capacity =? 0))
      then (TLV_ERR_NULL_ARG, m, written)
      else
        let rc := fixed_identifier_validate c in
        if negb (is_ok rc) then (rc, m, written)
        else if negb (t.(t_size) =? c.(fi_size)) then (TLV_ERR_INVALID_TAG_SIZE, m, written)
        else if negb (is_null data) && (capacity <? c.(fi_size)) then
          (TLV_ERR_BUFFER_TOO_SHORT, m, written)
        else (TLV_OK, (if negb (is_null data) then memcpy m data t.(t_data) c.(fi_size) else m),
              Some c.(fi_size))
  | _, _, _ => (TLV_ERR_NULL_ARG, m, written)
  end.

Definition tlv_fixed_length_read (config : option tlv_fixed_length_t) (m : mem) (data : ptr)
  (size : Z) (length : option Z) (consumed : option Z) : tlv_result_t * option Z * option Z :=
  match config, length, consumed with
  | Some c, Some _, Some _ =>
      if is_null data && negb (size =? 0) then (TLV_ERR_NULL_ARG, length, consumed)
      else
        let rc := fixed_length_validate c in
        if negb (is_ok rc) then (rc, length, consumed) else
        let consumed := Some (if size <? c.(fl_size) then size else c.(fl_size)) in
        if size <? c.(fl_size) then (TLV_ERR_TRUNCATED, length, consumed)
        else
          let '(rc, length) := tlv_read_uint m data c.(fl_size) c.(fl_byte_order) length in
          (rc, length, consumed)
  | _, _, _ => (TLV_ERR_NULL_ARG, length, consumed)
  end.

Definition tlv_fixed_length_write (config : option tlv_fixed_length_t) (m : mem) (length : Z)
  (data : ptr) (capacity : Z) (written : option Z) : tlv_result_t * mem * option Z :=
  match config, written with
  | Some c, Some _ =>
      if is_null data && negb (capacity =? 0) then (TLV_ERR_NULL_ARG, m, written)
      else
        let rc := fixed_length_validate c in
        if negb (is_ok rc) then (rc, m, written)
        else if (c.(fl_size) <? 8) && (Z.shiftl 1 (8 * c.(fl_size)) <=? length) then
          (TLV_ERR_INVALID_LENGTH, m, written)
        else if negb (is_null data) then
          if capacity <? c.(fl_size) then (TLV_ERR_BUFFER_TOO_SHORT, m, written)
          else
            let '(rc, m) := tlv_write_uint m data c.(fl_size) c.(fl_byte_order) length in
            if negb (is_ok rc) then (rc, m, written) else (TLV_OK, m, Some c.(fl_size))
        else (TLV_OK, m, Some c.(fl_size))
  | _, _ => (TLV_ERR_NULL_ARG, m, written)
  end.

(** The callbacks a composition makes of a configuration: every out-parameter is present. *)
Definition fixed_tag_reader (c : tlv_fixed_identifier_t) : tlv_read_tag_fn :=
  fun m data size tag used =>
    let '(rc, tag', used') := tlv_fixed_identifier_read (Some c) m data size (Some tag) (Some used) in
    (rc, cell tag tag', cell used used').
Definition fixed_tag_writer (c : tlv_fixed_identifier_t) : tlv_write_tag_fn :=
  fun m tag data capacity used =>
    let '(rc, m, used') := tlv_fixed_identifier_write (Some c) m (Some tag) data capacity (Some used) in
    (rc, m, cell used used').
Definition fixed_length_reader (c : tlv_fixed_length_t) : tlv_read_length_fn :=
  fun m data size length used =>
    let '(rc, length', used') := tlv_fixed_length_read (Some c) m data size (Some length) (Some used) in
    (rc, cell length length', cell used used').
Definition fixed_length_writer (c : tlv_fixed_length_t) : tlv_write_length_fn :=
  fun m length data capacity used =>
    let '(rc, m, used') := tlv_fixed_length_write (Some c) m length data capacity (Some used) in
    (rc, m, cell used used').

(** ** The field laws *)

Lemma fixed_identifier_validate_ok c :
  fixed_identifier_validate c = TLV_OK <-> c.(fi_size) <> 0.
Proof. unfold fixed_identifier_validate. destruct (fi_size c =? 0) eqn:?; simpl; split; (lia || done). Qed.

Lemma fixed_length_validate_ok c :
  0 <= c.(fl_size) -> fixed_length_validate c = TLV_OK <->
  1 <= c.(fl_size) <= 8 /\ order_bad c.(fl_byte_order) = false.
Proof.
  unfold fixed_length_validate. intros.
  destruct ((fl_size c =? 0) || (8 <? fl_size c)) eqn:?; [split; [done|lia]|].
  destruct (order_bad (fl_byte_order c)); [split; [done|intuition congruence]|]. split; [lia|done].
Qed.

#[export] Instance fixed_tag_field `{Platform} (c : tlv_fixed_identifier_t)
  (Hc : 1 <= c.(fi_size) <= SIZE_MAX) : TagField (fixed_tag_reader c) (fixed_tag_writer c).
Proof.
  assert (fixed_identifier_validate c = TLV_OK) as Hv by (apply fixed_identifier_validate_ok; lia).
  refine {| tag_adm l := zlen l =? c.(fi_size) |}.
  - intros. lia.
  - intros m t w0 [Ht Hn] Ha. unfold tag_bytes in Ha. rewrite length_bytes_of in Ha.
    unfold fixed_tag_writer, tlv_fixed_identifier_write. rewrite Hv.
    replace (is_null (t_data t) && negb (t_size t =? 0)) with false
      by (destruct (t_data t); simpl; [rewrite Hn by done|]; done).
    replace (t_size t =? fi_size c) with true by zlia. simpl. repeat f_equal. zlia.
  - intros m t data cap w0 [Ht Hn] Ha Hd Hcap _. pose proof (tag_moved m data t Hd) as Hmove. unfold tag_bytes in Ha. rewrite length_bytes_of in Ha.
    unfold fixed_tag_writer, tlv_fixed_identifier_write. rewrite Hv.
    replace (is_null (t_data t) && negb (t_size t =? 0)) with false
      by (destruct (t_data t); simpl; [rewrite Hn by done|]; done).
    replace (is_null data) with false by (destruct data; done).
    replace (t_size t =? fi_size c) with true by zlia. cbn [negb andb orb].
    replace (cap <? fi_size c) with false by zlia. replace (fi_size c) with (t_size t) by zlia. exact Hmove.
  - intros m data size n t0 c0 Hd Hn Hs Ha. rewrite length_bytes_of in Ha.
    unfold fixed_tag_reader, tlv_fixed_identifier_read. rewrite Hv.
    replace (is_null data) with false by (destruct data; done). simpl.
    rewrite (proj2 (Z.ltb_ge _ _)) by zlia. simpl. replace n with (fi_size c) by zlia. done.
  - intros m data size t0 c0 t k Hd Hs. unfold fixed_tag_reader, tlv_fixed_identifier_read. rewrite Hv.
    replace (is_null data) with false by (destruct data; done). simpl.
    destruct (size <? fi_size c) eqn:?; [done|]. intros [= <- <-].
    split; [lia|]. split; [done|]. rewrite length_bytes_of. zlia.
  - intros m data size size' t0 c0 t0' c0' t k Hd Hs. unfold fixed_tag_reader, tlv_fixed_identifier_read.
    rewrite Hv. replace (is_null data) with false by (destruct data; done). simpl.
    destruct (size <? fi_size c) eqn:?; [done|]. intros [= <- <-] Hlt.
    rewrite (proj2 (Z.ltb_lt size' _)) by lia. done.
Defined.

(** The octets of length [n] in a fixed field. *)
Definition fixed_length_octets (c : tlv_fixed_length_t) (n : Z) : list Z :=
  let l := be_bytes (Z.to_nat c.(fl_size)) n in
  if order_is c.(fl_byte_order) TLV_BYTE_ORDER_BIG_ENDIAN then l else rev l.

(** Octets of a field, as the codec writes them, from the field's digits and back. *)
Lemma octets_of_bytes m data width big l :
  0 <= width -> bytes_of m data width = (if (big : bool) then l else rev l) ->
  field_octets m data width big = l.
Proof.
  intros Hw E. destruct big; [done|]. now rewrite field_octets_little, E, rev_involutive.
Qed.

Lemma bytes_of_octets m data width (big : bool) l :
  0 <= width -> field_octets m data width big = l ->
  bytes_of m data width = (if big then l else rev l).
Proof.
  intros Hw <-. destruct big; [done|]. now rewrite field_octets_little, rev_involutive.
Qed.

Lemma length_fixed_octets c n : 0 <= c.(fl_size) -> zlen (fixed_length_octets c n) = c.(fl_size).
Proof.
  intros. unfold fixed_length_octets. destruct (order_is _ _); rewrite ?length_rev, length_be_bytes; lia.
Qed.

Lemma fixed_octets_bytes c n : bytes (fixed_length_octets c n).
Proof.
  unfold fixed_length_octets. destruct (order_is _ _); [|apply Forall_rev]; apply be_bytes_bytes.
Qed.

Lemma shiftl_1_pow w : 0 <= w -> Z.shiftl 1 (8 * w) = 256 ^ w.
Proof. intros. rewrite Z.shiftl_1_l, Z.pow_mul_r by lia. done. Qed.

Lemma pow256_8 w : 8 <= w -> UINT64_MAX < 256 ^ w.
Proof. intros. assert (256 ^ 8 <= 256 ^ w) by (apply Z.pow_le_mono_r; lia). lia. Qed.

Section FixedLength.
Context (c : tlv_fixed_length_t) (Hsize : 1 <= c.(fl_size) <= 8)
    (Horder : order_bad c.(fl_byte_order) = false).

Lemma fixed_length_valid : fixed_length_validate c = TLV_OK.
Proof using Hsize Horder. apply fixed_length_validate_ok; [lia|]. done. Qed.

(** The range test of the writer, at every width. *)
Lemma fixed_length_fits n :
    0 <= n <= UINT64_MAX ->
    (c.(fl_size) <? 8) && (Z.shiftl 1 (8 * c.(fl_size)) <=? n) = negb (n <? 256 ^ c.(fl_size)).
Proof using Hsize.
    intros. rewrite shiftl_1_pow by lia. destruct (fl_size c <? 8) eqn:?; simpl.
    - destruct (256 ^ fl_size c <=? n) eqn:?, (n <? 256 ^ fl_size c) eqn:?; lia || done.
    - pose proof (pow256_8 (fl_size c) ltac:(lia)).
      destruct (n <? 256 ^ fl_size c) eqn:?; [done|lia].
Qed.

Lemma fixed_length_write_data m n data cap w0 :
    0 <= n <= UINT64_MAX -> data <> NULL -> c.(fl_size) <= cap -> n < 256 ^ c.(fl_size) ->
    exists m', fixed_length_writer c m n data cap w0 = (TLV_OK, m', c.(fl_size)) /\
      only_changes m m' data c.(fl_size) /\ bytes_of m' data c.(fl_size) = fixed_length_octets c n.
Proof using Hsize Horder.
    intros Hn Hd Hcap Hfit. unfold fixed_length_writer, tlv_fixed_length_write.
    rewrite fixed_length_valid, fixed_length_fits by done.
    replace (is_null data) with false by (destruct data; done). simpl.
    rewrite (proj2 (Z.ltb_lt n _)) by lia. simpl. rewrite (proj2 (Z.ltb_ge _ _)) by lia.
    pose proof (write_uint_cases m data (fl_size c) (fl_byte_order c) n Hd Hsize Horder Hn) as Hw.
    rewrite (proj2 (Z.ltb_lt n _)) in Hw by lia. destruct Hw as (m' & -> & Honly & Hoct). simpl.
    exists m'. split; [done|]. split; [done|]. now apply bytes_of_octets in Hoct; [|lia].
Qed.

Lemma fixed_length_read_value m data size n0 c0 :
    data <> NULL -> c.(fl_size) <= size ->
    fixed_length_reader c m data size n0 c0 =
    (TLV_OK, be_value (field_octets m data c.(fl_size)
               (order_is c.(fl_byte_order) TLV_BYTE_ORDER_BIG_ENDIAN)), c.(fl_size)).
Proof using Hsize Horder.
    intros Hd Hs. unfold fixed_length_reader, tlv_fixed_length_read. rewrite fixed_length_valid.
    replace (is_null data) with false by (destruct data; done). simpl.
    rewrite (proj2 (Z.ltb_ge _ _)) by lia. rewrite read_uint_value by done. done.
Qed.

Lemma fixed_length_read_inv m data size n0 c0 n k :
    data <> NULL -> fixed_length_reader c m data size n0 c0 = (TLV_OK, n, k) ->
    c.(fl_size) <= size /\ k = c.(fl_size) /\
    n = be_value (field_octets m data c.(fl_size)
          (order_is c.(fl_byte_order) TLV_BYTE_ORDER_BIG_ENDIAN)).
Proof using Hsize Horder.
    intros Hd Hr. destruct (Z.le_gt_cases (fl_size c) size) as [Hle|Hgt].
    - rewrite fixed_length_read_value in Hr by done. injection Hr as <- <-. done.
    - exfalso. unfold fixed_length_reader, tlv_fixed_length_read in Hr.
      rewrite fixed_length_valid in Hr. replace (is_null data) with false in Hr by (destruct data; done).
      simpl in Hr. rewrite (proj2 (Z.ltb_lt size _)) in Hr by lia. done.
Qed.
End FixedLength.

#[export] Instance fixed_length_field `{Platform} (c : tlv_fixed_length_t)
  (Hs : 1 <= c.(fl_size) <= 8) (Ho : order_bad c.(fl_byte_order) = false)
  : LengthField (fixed_length_reader c) (fixed_length_writer c).
Proof.
  refine {| len_enc n := if n <? 256 ^ c.(fl_size) then Some (fixed_length_octets c n) else None |}.
  - intros n l E. destruct (n <? _); [|done]. injection E as <-.
    split; [apply fixed_octets_bytes|]. rewrite length_fixed_octets; lia.
  - intros m n l w0 Hn E. destruct (n <? 256 ^ fl_size c) eqn:Ef; [|done]. injection E as <-.
    rewrite length_fixed_octets by lia. unfold fixed_length_writer, tlv_fixed_length_write. simpl.
    rewrite fixed_length_valid, fixed_length_fits, Ef by done. done.
  - intros m n l data cap w0 Hn E Hd Hcap. destruct (n <? 256 ^ fl_size c) eqn:Ef; [|done].
    injection E as <-. rewrite length_fixed_octets in * by lia. apply fixed_length_write_data; try done; lia.
  - intros m data size n l n0 c0 Hn E Hd Hsz _ Hb. destruct (n <? 256 ^ fl_size c) eqn:Ef; [|done].
    injection E as <-. rewrite length_fixed_octets in * by lia.
    rewrite fixed_length_read_value by done. unfold fixed_length_octets in Hb.
    apply octets_of_bytes in Hb; [|lia]. rewrite Hb, be_value_be_bytes, Z2Nat.id by lia.
    rewrite Z.mod_small by lia. done.
  - intros m data size n0 c0 n k Hd Hsz Hr. apply fixed_length_read_inv in Hr as (? & -> & ->); try done.
    pose proof (be_value_octets_range m data (fl_size c)
      (order_is (fl_byte_order c) TLV_BYTE_ORDER_BIG_ENDIAN) ltac:(lia)).
    assert (256 ^ fl_size c <= 256 ^ 8) by (apply Z.pow_le_mono_r; lia). lia.
  - intros m1 m2 data size size' n0 c0 n0' c0' n k Hd Hsz Hsz' Hr Hk Hsame.
    apply fixed_length_read_inv in Hr as (? & -> & ->); try done.
    rewrite fixed_length_read_value by done. now rewrite (same_field_octets _ _ _ _ _ Hsame).
  - intros m data size size' n0 c0 n0' c0' n k Hd Hsz Hr Hlt.
    apply fixed_length_read_inv in Hr as (? & -> & ->); try done.
    unfold fixed_length_reader, tlv_fixed_length_read. rewrite fixed_length_valid by done.
    replace (is_null data) with false by (destruct data; done). simpl.
    rewrite (proj2 (Z.ltb_lt size' _)) by lia. done.
Defined.
