(* ===== verification/FieldEscaped.v ===== *)
(** * Escaped length field (field/escaped.h, src/field/escaped.c, src/field/escaped_internal.h)

    One octet below the escape value, or the escape octet followed by a fixed-width count. *)

From S2P Require Import Prelude Mem Core Endian FieldFixed.

Record tlv_escaped_length_t := mk_escaped_length {
  el_escape : Z; el_extended_size : Z; el_byte_order : tlv_byte_order_t;
  el_min_extended : Z; el_max_length : Z }.

Definition validate_length (f : tlv_escaped_length_t) : tlv_result_t :=
  if (f.(el_escape) =? 0) || (f.(el_extended_size) =? 0) || (8 <? f.(el_extended_size)) ||
     (f.(el_escape) <? f.(el_min_extended)) || (f.(el_max_length) <? f.(el_escape)) ||
     ((f.(el_extended_size) <? 8) && (Z.shiftl 1 (8 * f.(el_extended_size)) <=? f.(el_max_length)))
  then TLV_ERR_INVALID_ARG
  else if order_bad f.(el_byte_order) then TLV_ERR_INVALID_ARG
  else TLV_OK.

Definition tlv_escaped_length_read (config : option tlv_escaped_length_t) (m : mem) (data : ptr)
  (size : Z) (length : option Z) (consumed : option Z) : tlv_result_t * option Z * option Z :=
  match config, length, consumed with
  | Some f, Some _, Some _ =>
      if is_null data && negb (size =? 0) then (TLV_ERR_NULL_ARG, length, consumed)
      else
        let rc := validate_length f in
        if negb (is_ok rc) then (rc, length, consumed)
        else if size =? 0 then (TLV_ERR_TRUNCATED, length, Some 0)
        else if f.(el_escape) <? ld m data 0 then (TLV_ERR_INVALID_LENGTH, length, Some 1)
        else if ld m data 0 <? f.(el_escape) then (TLV_OK, Some (ld m data 0), Some 1)
        else
          let width := 1 + f.(el_extended_size) in
          let consumed := Some (if size <? width then size else width) in
          if size <? width then (TLV_ERR_TRUNCATED, length, consumed)
          else
            let '(rc, value) :=
              tlv_read_uint m (data +p 1) f.(el_extended_size) f.(el_byte_order) (Some 0) in
            if negb (is_ok rc) then (rc, length, consumed)
            else if (cell 0 value <? f.(el_min_extended)) || (f.(el_max_length) <? cell 0 value) then
              (TLV_ERR_INVALID_LENGTH, length, consumed)
            else (TLV_OK, value, consumed)
  | _, _, _ => (TLV_ERR_NULL_ARG, length, consumed)
  end.

Definition tlv_escaped_length_write (config : option tlv_escaped_length_t) (m : mem) (length : Z)
  (data : ptr) (capacity : Z) (written : option Z) : tlv_result_t * mem * option Z :=
  match config, written with
  | Some f, Some _ =>
      if is_null data && negb (capacity =? 0) then (TLV_ERR_NULL_ARG, m, written)
      else
        let rc := validate_length f in
        if negb (is_ok rc) then (rc, m, written)
        else if f.(el_max_length) <? length then (TLV_ERR_INVALID_LENGTH, m, written)
        else
          let width := if length <? f.(el_escape) then 1 else 1 + f.(el_extended_size) in
          if negb (is_null data) then
            if capacity <? width then (TLV_ERR_BUFFER_TOO_SHORT, m, written)
            else
              let '(rc, m) :=
                if 1 <? width then
                  tlv_write_uint m (data +p 1) f.(el_extended_size) f.(el_byte_order) length
                else (TLV_OK, m) in
              if negb (is_ok rc) then (rc, m, written)
              else (TLV_OK, st m data 0 (if width =? 1 then u8 length else f.(el_escape)), Some width)
          else (TLV_OK, m, Some width)
  | _, _ => (TLV_ERR_NULL_ARG, m, written)
  end.

Definition escaped_length_reader (c : tlv_escaped_length_t) : tlv_read_length_fn :=
  fun m data size length used =>
    let '(rc, length', used') := tlv_escaped_length_read (Some c) m data size (Some length) (Some used) in
    (rc, cell length length', cell used used').
Definition escaped_length_writer (c : tlv_escaped_length_t) : tlv_write_length_fn :=
  fun m length data capacity used =>
    let '(rc, m, used') := tlv_escaped_length_write (Some c) m length data capacity (Some used) in
    (rc, m, cell used used').

(** ** The field laws *)

(** A configuration whose members are in their C types' ranges and that validates. *)
Record escaped_ok (f : tlv_escaped_length_t) : Prop := {
  eo_escape : 1 <= f.(el_escape) < 256;
  eo_size : 1 <= f.(el_extended_size) <= 8;
  eo_min : 0 <= f.(el_min_extended) <= f.(el_escape);
  eo_max : f.(el_escape) <= f.(el_max_length) < 256 ^ f.(el_extended_size);
  eo_order : order_bad f.(el_byte_order) = false }.

Lemma escaped_ok_valid f : escaped_ok f -> validate_length f = TLV_OK.
Proof.
  intros []. unfold validate_length. rewrite shiftl_1_pow by lia. rewrite eo_order0.
  replace (_ || _) with false; [done|]. symmetry. rewrite !orb_false_iff, andb_false_iff. zlia.
Qed.

Lemma valid_escaped_ok f :
  0 <= f.(el_escape) < 256 -> 0 <= f.(el_extended_size) < 256 -> 0 <= f.(el_min_extended) ->
  0 <= f.(el_max_length) <= UINT64_MAX -> validate_length f = TLV_OK -> escaped_ok f.
Proof.
  intros He Hs Hm Hx Hv. unfold validate_length in Hv.
  destruct (_ || _) eqn:E in Hv; [done|]. destruct (order_bad (el_byte_order f)) eqn:Eo; [done|].
  rewrite !orb_false_iff in E. destruct E as (((((E1 & E2) & E3) & E4) & E5) & E6).
  rewrite shiftl_1_pow, andb_false_iff in E6 by lia.
  split; try done; try lia. destruct E6 as [E6|E6]; [|zlia].
  pose proof (pow256_8 (el_extended_size f) ltac:(lia)). lia.
Qed.

Definition extended (f : tlv_escaped_length_t) : tlv_fixed_length_t :=
  mk_fixed_length f.(el_extended_size) f.(el_byte_order).

(** The octets of length [n]. *)
Definition escaped_octets (f : tlv_escaped_length_t) (n : Z) : list Z :=
  if n <? f.(el_escape) then [n] else f.(el_escape) :: fixed_length_octets (extended f) n.

Section EscapedLength.
Context (f : tlv_escaped_length_t) (Hf : escaped_ok f).

Lemma length_escaped_octets n :
    zlen (escaped_octets f n) = if n <? f.(el_escape) then 1 else 1 + f.(el_extended_size).
Proof using Hf.
    destruct Hf. unfold escaped_octets. destruct (n <? el_escape f); [done|].
    pose proof (length_fixed_octets (extended f) n ltac:(simpl; lia)) as E. simpl in *. lia.
Qed.

Lemma escaped_octets_bytes n : 0 <= n -> bytes (escaped_octets f n).
Proof using Hf.
    intros. destruct Hf. unfold escaped_octets. destruct (n <? el_escape f) eqn:?.
    - constructor; [|constructor]. unfold is_byte. lia.
    - constructor; [unfold is_byte; lia|]. apply fixed_octets_bytes.
Qed.

(** Writing below the escape, and with the escape. *)
Lemma escaped_write_data m n data cap w0 :
    0 <= n <= f.(el_max_length) -> data <> NULL -> zlen (escaped_octets f n) <= cap ->
    exists m', escaped_length_writer f m n data cap w0 = (TLV_OK, m', zlen (escaped_octets f n)) /\
      only_changes m m' data (zlen (escaped_octets f n)) /\
      bytes_of m' data (zlen (escaped_octets f n)) = escaped_octets f n.
Proof using Hf.
    intros Hn Hd Hcap. rewrite length_escaped_octets in *.
    unfold escaped_length_writer, tlv_escaped_length_write. rewrite (escaped_ok_valid f Hf).
    destruct Hf as [He Hs Hm Hx Ho].
    assert (is_null data = false) as Hnull by (destruct data; done). rewrite Hnull. cbn [andb negb].
    rewrite is_ok_OK. cbn [negb]. rewrite (proj2 (Z.ltb_ge _ n)) by lia.
    rewrite (proj2 (Z.ltb_ge cap _)) by lia. unfold escaped_octets.
    destruct (n <? el_escape f) eqn:E.
    - cbn [Z.ltb]. simpl. eexists. split; [done|]. split; [apply st_only; lia|].
      rewrite bytes_of_1, ld_st_same, u8_u8, u8_small by (done || lia). done.
    - rewrite (proj2 (Z.ltb_lt 1 _)), (proj2 (Z.eqb_neq (1 + _) 1)) by lia.
      assert (256 ^ el_extended_size f <= 256 ^ 8) as Hp by (apply Z.pow_le_mono_r; lia).
      pose proof (write_uint_cases m (data +p 1) (el_extended_size f) (el_byte_order f) n
        ltac:(destruct data; done) Hs Ho ltac:(lia)) as Hw.
      rewrite (proj2 (Z.ltb_lt n _)) in Hw by lia. destruct Hw as (m1 & -> & Honly & Hoct).
      cbn [is_ok rc_eqb negb]. rewrite is_ok_OK. simpl. eexists. split; [done|]. split.
      + eapply only_trans; [|apply st_only; lia]. apply (only_sub _ _ _ _ 1 (el_extended_size f)); try lia.
        done.
      + rewrite bytes_of_cons by lia. f_equal.
        * rewrite ld_st_same by done. apply u8_small. lia.
        * unfold fixed_length_octets. simpl.
          rewrite (same_bytes_of _ m1); [now apply bytes_of_octets; [lia|]|].
          intros i Hi. rewrite !ld_padd, ld_st_other by lia. done.
Qed.

Lemma escaped_read_short m data size n0 c0 :
    data <> NULL -> 1 <= size -> ld m data 0 < f.(el_escape) ->
    escaped_length_reader f m data size n0 c0 = (TLV_OK, ld m data 0, 1).
Proof using Hf.
    intros Hd Hs Hb. unfold escaped_length_reader, tlv_escaped_length_read.
    rewrite (escaped_ok_valid f Hf). replace (is_null data) with false by (destruct data; done). simpl.
    replace (size =? 0) with false by lia. rewrite (proj2 (Z.ltb_ge (el_escape f) _)) by lia.
    now rewrite (proj2 (Z.ltb_lt _ (el_escape f))) by lia.
Qed.

Lemma escaped_read_long m data size n0 c0 :
    let v := be_value (field_octets m (data +p 1) f.(el_extended_size)
               (order_is f.(el_byte_order) TLV_BYTE_ORDER_BIG_ENDIAN)) in
    data <> NULL -> 1 + f.(el_extended_size) <= size -> ld m data 0 = f.(el_escape) ->
    escaped_length_reader f m data size n0 c0 =
    (if (v <? f.(el_min_extended)) || (f.(el_max_length) <? v)
     then (TLV_ERR_INVALID_LENGTH, n0, 1 + f.(el_extended_size))
     else (TLV_OK, v, 1 + f.(el_extended_size))).
Proof using Hf.
    intros v Hd Hs Hb. unfold escaped_length_reader, tlv_escaped_length_read.
    rewrite (escaped_ok_valid f Hf). replace (is_null data) with false by (destruct data; done). simpl.
    destruct Hf. replace (size =? 0) with false by lia. rewrite Hb, Z.ltb_irrefl.
    rewrite (proj2 (Z.ltb_ge size _)) by lia.
    rewrite read_uint_value by (done || destruct data; done). simpl. fold v.
    destruct (_ || _); done.
Qed.

(** A successful read is one of the two. *)
Lemma escaped_read_inv m data size n0 c0 n k :
    data <> NULL -> 0 <= size -> escaped_length_reader f m data size n0 c0 = (TLV_OK, n, k) ->
    (1 <= size /\ k = 1 /\ n = ld m data 0 /\ ld m data 0 < f.(el_escape)) \/
    (1 + f.(el_extended_size) <= size /\ k = 1 + f.(el_extended_size) /\ ld m data 0 = f.(el_escape) /\
     n = be_value (field_octets m (data +p 1) f.(el_extended_size)
           (order_is f.(el_byte_order) TLV_BYTE_ORDER_BIG_ENDIAN)) /\
     f.(el_min_extended) <= n <= f.(el_max_length)).
Proof using Hf.
    intros Hd Hsz Hr. destruct (Z.lt_trichotomy (ld m data 0) (el_escape f)) as [Hlt|[Heq|Hgt]].
    - destruct (Z.eq_dec size 0) as [->|].
      + exfalso. unfold escaped_length_reader, tlv_escaped_length_read in Hr.
        rewrite (escaped_ok_valid f Hf) in Hr. destruct data; done.
      + rewrite escaped_read_short in Hr by (done || lia). injection Hr as <- <-. left. lia.
    - right. destruct (Z.le_gt_cases (1 + el_extended_size f) size) as [Hle|Hgt].
      + rewrite escaped_read_long in Hr by done. destruct (_ || _) eqn:E in Hr; [done|].
        injection Hr as <- <-. zlia.
      + exfalso. unfold escaped_length_reader, tlv_escaped_length_read in Hr.
        rewrite (escaped_ok_valid f Hf) in Hr.
        replace (is_null data) with false in Hr by (destruct data; done). simpl in Hr.
        rewrite Heq, Z.ltb_irrefl, (proj2 (Z.ltb_lt size _)) in Hr by lia. guards_in Hr.
    - exfalso. unfold escaped_length_reader, tlv_escaped_length_read in Hr.
      rewrite (escaped_ok_valid f Hf) in Hr.
      replace (is_null data) with false in Hr by (destruct data; done). simpl in Hr.
      rewrite (proj2 (Z.ltb_lt (el_escape f) _)) in Hr by lia. guards_in Hr.
Qed.
End EscapedLength.

#[export] Instance escaped_length_field `{Platform} (f : tlv_escaped_length_t) (Hf : escaped_ok f)
  : LengthField (escaped_length_reader f) (escaped_length_writer f).
Proof.
  pose proof (escaped_ok_valid f Hf) as Hv. pose proof (length_escaped_octets f Hf) as Hlen.
  refine {| len_enc n := if (0 <=? n) && (n <=? f.(el_max_length)) then Some (escaped_octets f n)
                         else None |}.
  - intros n l E. destruct ((0 <=? n) && (n <=? el_max_length f)) eqn:E1; [|done]. injection E as <-.
    split; [apply escaped_octets_bytes; [done|zlia]|]. rewrite Hlen. destruct Hf.
    destruct (n <? el_escape f); lia.
  - intros m n l w0 Hn E. destruct ((0 <=? n) && (n <=? el_max_length f)) eqn:E1; [|done].
    injection E as <-. unfold escaped_length_writer, tlv_escaped_length_write. rewrite Hv. simpl.
    rewrite (proj2 (Z.ltb_ge _ n)), Hlen by zlia. done.
  - intros m n l data cap w0 Hn E Hd Hcap. destruct ((0 <=? n) && (n <=? el_max_length f)) eqn:E1; [|done].
    injection E as <-. apply escaped_write_data; (done || zlia).
  - intros m data size n l n0 c0 Hn E Hd Hsz _ Hb.
    destruct ((0 <=? n) && (n <=? el_max_length f)) eqn:E1; [|done]. injection E as <-.
    rewrite Hlen in *. unfold escaped_octets in Hb. pose proof Hf as [He Hs Hm Hx Ho].
    destruct (n <? el_escape f) eqn:En.
    + rewrite bytes_of_1 in Hb. injection Hb as Hb. rewrite escaped_read_short by (done || lia).
      now rewrite Hb.
    + rewrite bytes_of_cons in Hb by lia. injection Hb as Hb0 Hb.
      apply octets_of_bytes in Hb; [|simpl; lia]. simpl in Hb.
      rewrite escaped_read_long by done.
      rewrite Hb, be_value_be_bytes, Z2Nat.id, Z.mod_small by zlia.
      replace (_ || _) with false by zlia. done.
  - intros m data size n0 c0 n k Hd Hsz Hr. apply escaped_read_inv in Hr; try done; [|lia].
    destruct Hf. assert (256 ^ el_extended_size f <= 256 ^ 8) by (apply Z.pow_le_mono_r; lia).
    pose proof (ld_range m data 0). destruct Hr as [(? & -> & -> & _)|(? & -> & _ & _ & ?)]; lia.
  - intros m1 m2 data size size' n0 c0 n0' c0' n k Hd Hsz Hsz' Hr Hk Hsame.
    apply escaped_read_inv in Hr; try done; [|lia]. pose proof Hf as [He Hs Hm Hx Ho].
    destruct Hr as [(? & -> & -> & Hlt)|(? & -> & Heq & -> & Hr)].
    + rewrite (same_bytes_ld _ _ _ _ 0 Hsame) in * by lia. apply escaped_read_short; done || lia.
    + rewrite escaped_read_long; try done.
      2: { rewrite <- (same_bytes_ld _ _ _ _ 0 Hsame) by lia. done. }
      rewrite <- (same_field_octets m1 m2) by (apply (same_bytes_sub _ _ _ _ _ _ Hsame); lia).
      replace (_ || _) with false by zlia. done.
  - intros m data size size' n0 c0 n0' c0' n k Hd Hsz Hr Hlt.
    apply escaped_read_inv in Hr; try done; [|lia]. pose proof Hf as [He Hs Hm Hx Ho].
    unfold escaped_length_reader, tlv_escaped_length_read. rewrite Hv.
    replace (is_null data) with false by (destruct data; done). cbn [andb]. rewrite is_ok_OK. cbn [negb].
    destruct (size' =? 0) eqn:E0; [done|].
    destruct Hr as [(? & -> & _)|(? & -> & Heq & _)]; [lia|].
    rewrite Heq, Z.ltb_irrefl, (proj2 (Z.ltb_lt size' _)) by lia. done.
Defined.
