(* ===== verification/FieldPacked.v ===== *)
(** * Packed bit fields (field/packed.h, src/field/packed.c)

    A field of [bit_width] bits at [bit_offset] of an integer of [storage_size] octets. *)

From S2P Require Import Prelude Mem Core Endian.

Record tlv_packed_field_t := mk_packed_field {
  pf_storage_size : Z; pf_byte_order : tlv_byte_order_t; pf_bit_offset : Z; pf_bit_width : Z }.

Definition packed_validate (f : tlv_packed_field_t) : tlv_result_t :=
  if (f.(pf_storage_size) =? 0) || (8 <? f.(pf_storage_size)) || (f.(pf_bit_width) =? 0) ||
     (64 <? f.(pf_bit_width)) || (f.(pf_storage_size) * 8 <=? f.(pf_bit_offset)) ||
     (f.(pf_storage_size) * 8 - f.(pf_bit_offset) <? f.(pf_bit_width))
  then TLV_ERR_INVALID_ARG
  else if order_bad f.(pf_byte_order) then TLV_ERR_INVALID_ARG
  else TLV_OK.

Definition packed_mask (width : Z) : Z :=
  if width =? 64 then UINT64_MAX else u64 (u64 (Z.shiftl 1 width) - 1).

Definition tlv_packed_field_read (field : option tlv_packed_field_t) (m : mem) (data : ptr)
  (size : Z) (value : option Z) : tlv_result_t * option Z :=
  match field, value with
  | Some f, Some _ =>
      if is_null data then (TLV_ERR_NULL_ARG, value)
      else
        let rc := packed_validate f in
        if negb (is_ok rc) then (rc, value)
        else if size <? f.(pf_storage_size) then (TLV_ERR_TRUNCATED, value)
        else
          let '(rc, storage) := tlv_read_uint m data f.(pf_storage_size) f.(pf_byte_order) (Some 0) in
          if negb (is_ok rc) then (rc, value)
          else (TLV_OK, Some (Z.land (Z.shiftr (cell 0 storage) f.(pf_bit_offset))
                               (packed_mask f.(pf_bit_width))))
  | _, _ => (TLV_ERR_NULL_ARG, value)
  end.

Definition tlv_packed_field_write (field : option tlv_packed_field_t) (m : mem) (data : ptr)
  (capacity value : Z) : tlv_result_t * mem :=
  match field with
  | Some f =>
      if is_null data then (TLV_ERR_NULL_ARG, m)
      else
        let rc := packed_validate f in
        if negb (is_ok rc) then (rc, m)
        else if capacity <? f.(pf_storage_size) then (TLV_ERR_BUFFER_TOO_SHORT, m)
        else
          let mask := packed_mask f.(pf_bit_width) in
          if mask <? value then (TLV_ERR_OVERFLOW, m)
          else
            let '(rc, storage) := tlv_read_uint m data f.(pf_storage_size) f.(pf_byte_order) (Some 0) in
            if negb (is_ok rc) then (rc, m)
            else
              let storage :=
                Z.lor (Z.land (cell 0 storage)
                         (u64 (Z.lnot (u64 (Z.shiftl mask f.(pf_bit_offset))))))
                  (u64 (Z.shiftl value f.(pf_bit_offset))) in
              tlv_write_uint m data f.(pf_storage_size) f.(pf_byte_order) storage
  | None => (TLV_ERR_NULL_ARG, m)
  end.

(** ** Bits of a field *)

Record packed_ok (f : tlv_packed_field_t) : Prop := {
  po_storage : 1 <= f.(pf_storage_size) <= 8;
  po_width : 1 <= f.(pf_bit_width);
  po_offset : 0 <= f.(pf_bit_offset);
  po_fits : f.(pf_bit_offset) + f.(pf_bit_width) <= f.(pf_storage_size) * 8;
  po_order : order_bad f.(pf_byte_order) = false }.

Lemma packed_ok_valid f : packed_ok f -> packed_validate f = TLV_OK.
Proof.
  intros []. unfold packed_validate. rewrite po_order0.
  replace (_ || _) with false by zlia. done.
Qed.

Lemma valid_packed_ok f :
  0 <= f.(pf_storage_size) -> 0 <= f.(pf_bit_offset) -> 0 <= f.(pf_bit_width) ->
  packed_validate f = TLV_OK -> packed_ok f.
Proof.
  intros Hs Ho Hw Hv. unfold packed_validate in Hv.
  destruct (_ || _) eqn:E in Hv; [done|]. destruct (order_bad (pf_byte_order f)) eqn:Eo; [done|].
  split; try done; zlia.
Qed.

Lemma packed_mask_ones w : 1 <= w <= 64 -> packed_mask w = 2 ^ w - 1.
Proof.
  intros Hw. unfold packed_mask. destruct (w =? 64) eqn:E.
  - replace w with 64 by lia. reflexivity.
  - assert (2 ^ w <= 2 ^ 63) by (apply Z.pow_le_mono_r; lia).
    assert (0 < 2 ^ w) by (apply Z.pow_pos_nonneg; lia).
    rewrite Z.shiftl_1_l, !u64_small by (rewrite ?u64_small; lia). done.
Qed.

(** [field of value v at offset o and width w written into x]. *)
Definition insert_bits (x o w v : Z) : Z :=
  Z.lor (Z.land x (u64 (Z.lnot (u64 (Z.shiftl (packed_mask w) o))))) (u64 (Z.shiftl v o)).

Lemma testbit_u64 x i : 0 <= i -> Z.testbit (u64 x) i = (i <? 64) && Z.testbit x i.
Proof.
  intros Hi. unfold u64. change 18446744073709551616 with (2 ^ 64).
  destruct (i <? 64) eqn:E; [apply Z.mod_pow2_bits_low|apply Z.mod_pow2_bits_high]; lia.
Qed.

Lemma testbit_mask w i : 1 <= w <= 64 -> 0 <= i -> Z.testbit (packed_mask w) i = (i <? w).
Proof.
  intros Hw Hi. rewrite packed_mask_ones by done. replace (2 ^ w - 1) with (Z.ones w)
    by (rewrite Z.ones_equiv; lia).
  destruct (i <? w) eqn:E; [apply Z.ones_spec_low|apply Z.ones_spec_high]; lia.
Qed.

Lemma testbit_small x n i : 0 <= x < 2 ^ n -> 0 <= n <= i -> Z.testbit x i = false.
Proof. intros. rewrite <- (Z.mod_small x (2 ^ n)) by lia. apply Z.mod_pow2_bits_high. lia. Qed.

Lemma insert_bits_spec x o w v i :
  0 <= x <= UINT64_MAX -> 0 <= o -> 1 <= w -> o + w <= 64 -> 0 <= v < 2 ^ w -> 0 <= i ->
  Z.testbit (insert_bits x o w v) i =
  if (o <=? i) && (i <? o + w) then Z.testbit v (i - o) else Z.testbit x i.
Proof.
  intros Hx Ho Hw How Hv Hi. unfold insert_bits.
  rewrite Z.lor_spec, Z.land_spec, !testbit_u64, Z.lnot_spec, testbit_u64, !Z.shiftl_spec by lia.
  destruct (Z.lt_ge_cases i 64) as [Hlt|Hge].
  - replace (i <? 64) with true by lia. cbn [andb].
    destruct (Z.lt_ge_cases i o) as [Hio|Hio].
    + rewrite !(Z.testbit_neg_r _ (i - o)) by lia. replace (o <=? i) with false by lia. simpl.
      now rewrite andb_true_r, orb_false_r.
    + rewrite testbit_mask by lia. replace (o <=? i) with true by lia. cbn [andb].
      destruct (i <? o + w) eqn:E.
      * replace (i - o <? w) with true by lia. simpl. now rewrite andb_false_r.
      * replace (i - o <? w) with false by lia. rewrite (testbit_small v w) by lia. simpl.
        now rewrite andb_true_r, orb_false_r.
  - replace (i <? 64) with false by lia. rewrite (testbit_small x 64) by lia. simpl.
    now replace (i <? o + w) with false by lia; rewrite andb_false_r.
Qed.

Lemma bits_bound x n : 0 <= n -> (forall i, n <= i -> Z.testbit x i = false) -> 0 <= x < 2 ^ n.
Proof.
  intros Hn Hb. assert (x = x mod 2 ^ n) as ->.
  { apply Z.bits_inj'. intros i Hi. destruct (Z.lt_ge_cases i n).
    - now rewrite Z.mod_pow2_bits_low.
    - rewrite Z.mod_pow2_bits_high by lia. now apply Hb. }
  apply Z.mod_pos_bound. apply Z.pow_pos_nonneg; lia.
Qed.

Lemma insert_bits_bound x o w v n :
  0 <= x < 2 ^ n -> n <= 64 -> 0 <= o -> 1 <= w -> o + w <= n -> 0 <= v < 2 ^ w ->
  0 <= insert_bits x o w v < 2 ^ n.
Proof.
  intros Hx Hn Ho Hw How Hv. assert (2 ^ n <= 2 ^ 64) by (apply Z.pow_le_mono_r; lia).
  apply bits_bound; [lia|]. intros i Hi. rewrite insert_bits_spec by lia.
  replace (i <? o + w) with false by lia. rewrite andb_false_r. apply (testbit_small x n); lia.
Qed.

(** The bits [o .. o + w - 1] of [x]. *)
Definition extract_bits (x o w : Z) : Z := Z.land (Z.shiftr x o) (packed_mask w).

Lemma extract_insert_same x o w v :
  0 <= x <= UINT64_MAX -> 0 <= o -> 1 <= w -> o + w <= 64 -> 0 <= v < 2 ^ w ->
  extract_bits (insert_bits x o w v) o w = v.
Proof.
  intros. apply Z.bits_inj'. intros i Hi. unfold extract_bits.
  rewrite Z.land_spec, Z.shiftr_spec, testbit_mask, insert_bits_spec by lia.
  destruct (i <? w) eqn:E.
  - replace ((o <=? i + o) && (i + o <? o + w)) with true by lia.
    rewrite andb_true_r. f_equal. lia.
  - rewrite andb_false_r. symmetry. apply (testbit_small v w); lia.
Qed.

Lemma extract_insert_other x o w v o' w' :
  0 <= x <= UINT64_MAX -> 0 <= o -> 1 <= w -> o + w <= 64 -> 0 <= v < 2 ^ w ->
  0 <= o' -> 1 <= w' <= 64 -> (o + w <= o' \/ o' + w' <= o) ->
  extract_bits (insert_bits x o w v) o' w' = extract_bits x o' w'.
Proof.
  intros Hx Ho Hw How Hv Ho' Hw' Hd. apply Z.bits_inj'. intros i Hi. unfold extract_bits.
  rewrite !Z.land_spec, !Z.shiftr_spec, testbit_mask, insert_bits_spec by lia.
  destruct (i <? w') eqn:E; [|now rewrite !andb_false_r].
  replace ((o <=? i + o') && (i + o' <? o + w)) with false; [done|]. symmetry.
  rewrite andb_false_iff. zlia.
Qed.

(** The integer that holds a field. *)
Definition packed_storage (m : mem) (data : ptr) (f : tlv_packed_field_t) : Z :=
  be_value (field_octets m data f.(pf_storage_size)
    (order_is f.(pf_byte_order) TLV_BYTE_ORDER_BIG_ENDIAN)).

Lemma pow256_bits s : 0 <= s -> 256 ^ s = 2 ^ (s * 8).
Proof. intros. rewrite Z.mul_comm, Z.pow_mul_r by lia. done. Qed.

Lemma packed_storage_range m data f :
  1 <= f.(pf_storage_size) <= 8 ->
  0 <= packed_storage m data f < 2 ^ (f.(pf_storage_size) * 8) /\
  2 ^ (f.(pf_storage_size) * 8) <= 18446744073709551616.
Proof.
  intros. split.
  - rewrite <- pow256_bits by lia. apply be_value_octets_range. lia.
  - change 18446744073709551616 with (2 ^ 64). apply Z.pow_le_mono_r; lia.
Qed.

Lemma packed_read_value m data size f v0 :
  packed_ok f -> data <> NULL -> f.(pf_storage_size) <= size ->
  tlv_packed_field_read (Some f) m data size (Some v0) =
  (TLV_OK, Some (extract_bits (packed_storage m data f) f.(pf_bit_offset) f.(pf_bit_width))).
Proof.
  intros Hf Hd Hs. unfold tlv_packed_field_read. rewrite (packed_ok_valid f Hf).
  replace (is_null data) with false by (destruct data; done). simpl.
  rewrite (proj2 (Z.ltb_ge _ _)) by lia. destruct Hf. rewrite read_uint_value by done. done.
Qed.

Lemma packed_write_cases m data capacity f v :
  packed_ok f -> data <> NULL -> f.(pf_storage_size) <= capacity -> 0 <= v <= UINT64_MAX ->
  if v <? 2 ^ f.(pf_bit_width) then
    exists m', tlv_packed_field_write (Some f) m data capacity v = (TLV_OK, m') /\
      only_changes m m' data f.(pf_storage_size) /\
      packed_storage m' data f =
        insert_bits (packed_storage m data f) f.(pf_bit_offset) f.(pf_bit_width) v
  else tlv_packed_field_write (Some f) m data capacity v = (TLV_ERR_OVERFLOW, m).
Proof.
  intros Hf Hd Hs Hv. unfold tlv_packed_field_write. rewrite (packed_ok_valid f Hf).
  replace (is_null data) with false by (destruct data; done). cbn [is_ok negb].
  rewrite is_ok_OK. cbn [negb]. rewrite (proj2 (Z.ltb_ge capacity _)) by lia.
  destruct Hf as [Ps Pw Po Pf Por]. cbv zeta.
  pose proof (packed_mask_ones (pf_bit_width f) ltac:(lia)) as Hm.
  destruct (v <? 2 ^ pf_bit_width f) eqn:E; [|rewrite (proj2 (Z.ltb_lt _ v)) by lia; done].
  rewrite (proj2 (Z.ltb_ge (packed_mask _) v)) by lia. rewrite read_uint_value by done. rewrite is_ok_OK. cbn [negb cell].
  fold (packed_storage m data f). fold (insert_bits (packed_storage m data f) (pf_bit_offset f) (pf_bit_width f) v).
  destruct (packed_storage_range m data f Ps) as [Hr H64].
  pose proof (insert_bits_bound (packed_storage m data f) (pf_bit_offset f) (pf_bit_width f) v
    (pf_storage_size f * 8) Hr ltac:(lia) Po Pw Pf ltac:(lia)) as Hib.
  pose proof (write_uint_cases m data (pf_storage_size f) (pf_byte_order f)
    (insert_bits (packed_storage m data f) (pf_bit_offset f) (pf_bit_width f) v) Hd Ps Por ltac:(lia)) as Hw.
  rewrite pow256_bits, (proj2 (Z.ltb_lt _ _)) in Hw by lia.
  destruct Hw as (m' & -> & Honly & Hoct). exists m'. split; [done|]. split; [done|].
  unfold packed_storage at 1.
  rewrite Hoct, be_value_be_bytes, Z2Nat.id, pow256_bits, Z.mod_small by lia. done.
Qed.

(** ** Properties *)

(** Writing a packed field stores exactly its value and leaves every other bit of the storage: the
    field reads back, any field of the same storage that shares no bit with it reads as before, and
    no byte outside the storage changes.  A value wider than the field changes nothing. *)
Theorem packed_field_update (m : mem) (data : ptr) (capacity v v0 : Z) (f g : tlv_packed_field_t)
  (Hf : packed_ok f) (Hg : packed_ok g) (Hd : data <> NULL) (Hcap : f.(pf_storage_size) <= capacity)
  (Hv : 0 <= v <= UINT64_MAX) (Hss : g.(pf_storage_size) = f.(pf_storage_size))
  (Hso : g.(pf_byte_order) = f.(pf_byte_order))
  (Hdis : f.(pf_bit_offset) + f.(pf_bit_width) <= g.(pf_bit_offset) \/
          g.(pf_bit_offset) + g.(pf_bit_width) <= f.(pf_bit_offset)) :
  let '(rc, m') := tlv_packed_field_write (Some f) m data capacity v in
  if v <? 2 ^ f.(pf_bit_width) then
    rc = TLV_OK /\ only_changes m m' data f.(pf_storage_size) /\
    tlv_packed_field_read (Some f) m' data capacity (Some v0) = (TLV_OK, Some v) /\
    tlv_packed_field_read (Some g) m' data capacity (Some v0) =
      tlv_packed_field_read (Some g) m data capacity (Some v0)
  else rc = TLV_ERR_OVERFLOW /\ m' = m.
Proof.
  pose proof (packed_write_cases m data capacity f v Hf Hd Hcap Hv) as Hw.
  destruct (v <? 2 ^ pf_bit_width f) eqn:E; [|rewrite Hw; done].
  destruct Hw as (m' & -> & Honly & Hst). split; [done|]. split; [done|].
  destruct (packed_storage_range m data f (po_storage f Hf)) as [Hr H64].
  pose proof Hf as [Ps Pw Po Pf Por]. pose proof Hg as [Gs Gw Go Gf Gor].
  rewrite !packed_read_value by (done || lia). rewrite Hst. split.
  - rewrite extract_insert_same by lia. done.
  - assert (forall m0, packed_storage m0 data g = packed_storage m0 data f) as Hgs
      by (intros m0; unfold packed_storage; now rewrite Hss, Hso).
    rewrite !Hgs, Hst, extract_insert_other by lia. done.
Qed.

Lemma packed_field_update_witness :
  let f := mk_packed_field 2 TLV_BYTE_ORDER_BIG_ENDIAN 9 7 in
  let g := mk_packed_field 2 TLV_BYTE_ORDER_BIG_ENDIAN 0 9 in
  exists m', tlv_packed_field_write (Some f) (mem_of 1 [3; 44]) (Ptr 1 0) 2 5 = (TLV_OK, m') /\
  tlv_packed_field_read (Some f) m' (Ptr 1 0) 2 (Some 0) = (TLV_OK, Some 5) /\
  tlv_packed_field_read (Some g) m' (Ptr 1 0) 2 (Some 0) =
    tlv_packed_field_read (Some g) (mem_of 1 [3; 44]) (Ptr 1 0) 2 (Some 0).
Proof.
  assert (packed_ok (mk_packed_field 2 TLV_BYTE_ORDER_BIG_ENDIAN 9 7)) as Hf by (split; simpl; try lia; done).
  assert (packed_ok (mk_packed_field 2 TLV_BYTE_ORDER_BIG_ENDIAN 0 9)) as Hg by (split; simpl; try lia; done).
  eexists. split; [reflexivity|].
  exact (proj2 (proj2 (packed_field_update (mem_of 1 [3; 44]) (Ptr 1 0) 2 5 0 _ _ Hf Hg
    ltac:(congruence) ltac:(simpl; lia) ltac:(lia) eq_refl eq_refl ltac:(simpl; lia)))).
Defined.

#[global] Arguments tlv_packed_field_read : simpl never.
#[global] Arguments tlv_packed_field_write : simpl never.
