(* ===== verification/FieldVariable.v ===== *)
(** * Variable-width identifiers and lengths (field/variable.h, src/field/variable.c,
      src/field/variable_internal.h)

    An identifier is one octet, or an escape octet followed by octets chained by a continuation bit;
    a length is one octet, or an octet counting the octets of an integer that follows.  Both carry an
    optional policy ([None] is the NULL policy). *)

From S2P Require Import Prelude Mem Core Endian FieldFixed.

(** The table of forbidden octets is constant data the policy borrows; [None] is its NULL pointer. *)
Record tlv_identifier_policy_t := mk_identifier_policy {
  ip_forbidden_leading : option (list Z); ip_forbidden_leading_count : Z;
  ip_reject_zero_first_payload : Z; ip_require_minimal : Z }.

Record tlv_length_policy_t := mk_length_policy {
  lp_allow_short : Z; lp_allow_long : Z; lp_require_minimal : Z;
  lp_max_long_octets : Z; lp_max_value : Z }.

Record tlv_variable_identifier_t := mk_variable_identifier {
  vi_inline_mask : Z; vi_escape : Z; vi_continuation_bit : Z; vi_payload_mask : Z; vi_max_size : Z;
  vi_policy : option tlv_identifier_policy_t }.

Record tlv_variable_length_t := mk_variable_length {
  vl_long_form_bit : Z; vl_payload_mask : Z; vl_byte_order : tlv_byte_order_t;
  vl_policy : option tlv_length_policy_t }.

(** C's truth value of an integer, and [x & ~y] tested for nonzero. *)
Definition nz (x : Z) : bool := negb (x =? 0).
Definition has_bits (x mask : Z) : bool := nz (Z.land x mask).
Definition outside (x mask : Z) : bool := nz (Z.land x (Z.lnot mask)).

Definition is_table (table : option (list Z)) : bool :=
  match table with Some _ => true | None => false end.

Definition single_bit (bit : Z) : bool := nz bit && negb (has_bits bit (bit - 1)).

Definition identifier_validate (c : tlv_variable_identifier_t) : tlv_result_t :=
  if negb (nz c.(vi_inline_mask)) || outside c.(vi_escape) c.(vi_inline_mask) ||
     negb (single_bit c.(vi_continuation_bit)) || negb (nz c.(vi_payload_mask)) ||
     has_bits c.(vi_continuation_bit) c.(vi_payload_mask) || negb (nz c.(vi_max_size))
  then TLV_ERR_INVALID_ARG
  else
    match c.(vi_policy) with
    | Some p =>
        if (negb (is_table p.(ip_forbidden_leading)) && nz p.(ip_forbidden_leading_count)) ||
           (1 <? p.(ip_reject_zero_first_payload)) || (1 <? p.(ip_require_minimal))
        then TLV_ERR_INVALID_ARG else TLV_OK
    | None => TLV_OK
    end.

Definition length_validate (c : tlv_variable_length_t) : tlv_result_t :=
  if negb (single_bit c.(vl_long_form_bit)) || negb (nz c.(vl_payload_mask)) ||
     has_bits c.(vl_long_form_bit) c.(vl_payload_mask) then TLV_ERR_INVALID_ARG
  else if order_bad c.(vl_byte_order) then TLV_ERR_INVALID_ARG
  else
    match c.(vl_policy) with
    | Some p =>
        if (1 <? p.(lp_allow_short)) || (1 <? p.(lp_allow_long)) || (1 <? p.(lp_require_minimal)) ||
           (negb (nz p.(lp_allow_short)) && negb (nz p.(lp_allow_long))) ||
           (nz p.(lp_allow_long) && negb (nz p.(lp_max_long_octets)))
        then TLV_ERR_INVALID_ARG else TLV_OK
    | None => TLV_OK
    end.

(** The bits [1, 2, .. 0x80] the two loops run over. *)
Definition octet_bits : list Z := [1; 2; 4; 8; 16; 32; 64; 128].

(** [unpack]: the payload bits of [byte], in order, as an integer. *)
Definition unpack (byte mask : Z) : Z :=
  fst (fold_left (fun '(result, digit) bit =>
         if has_bits mask bit then
           (if has_bits byte bit then Z.lor result digit else result, u32 (Z.shiftl digit 1))
         else (result, digit)) octet_bits (0, 1)).

Definition pack (value mask : Z) : Z :=
  u8 (fst (fold_left (fun '(result, value) bit =>
         if has_bits mask bit then
           (if has_bits value 1 then Z.lor result bit else result, Z.shiftr value 1)
         else (result, value)) octet_bits (0, value))).

(** ** Identifiers *)

(** [data[0]] is one of the forbidden leading octets. *)
Definition forbidden (p : tlv_identifier_policy_t) (octet : Z) : bool :=
  existsb (fun x => octet =? x)
    (firstn (Z.to_nat p.(ip_forbidden_leading_count)) (cell [] p.(ip_forbidden_leading))).

Definition identifier_prefix (c : tlv_variable_identifier_t) (m : mem) (data : ptr) (size : Z)
  : tlv_result_t :=
  match c.(vi_policy) with
  | None => TLV_OK
  | Some p =>
      if size =? 0 then TLV_OK
      else if forbidden p (ld m data 0) then TLV_ERR_INVALID_TAG
      else if nz p.(ip_reject_zero_first_payload) && (1 <? size) &&
              (Z.land (ld m data 0) c.(vi_inline_mask) =? c.(vi_escape)) &&
              negb (has_bits (ld m data 1) c.(vi_payload_mask)) then TLV_ERR_INVALID_TAG
      else TLV_OK
  end.

(** [for (i = i; i < count && value <= maximum; ++i)], [n = count - i] iterations at most. *)
Fixpoint identifier_value (m : mem) (data : ptr) (payload_mask radix maximum : Z) (n : nat)
  (i value : Z) : Z :=
  match n with
  | O => value
  | S n =>
      if value <=? maximum then
        identifier_value m data payload_mask radix maximum n (i + 1)
          (u32 (value * radix + unpack (ld m data i) payload_mask))
      else value
  end.

Definition identifier_minimal (c : tlv_variable_identifier_t) (m : mem) (data : ptr) (count : Z)
  : bool :=
  match c.(vi_policy) with
  | None => true
  | Some p =>
      if negb (nz p.(ip_require_minimal)) || (count =? 1) then true
      else
        let radix := unpack c.(vi_payload_mask) c.(vi_payload_mask) + 1 in
        let maximum := unpack c.(vi_inline_mask) c.(vi_inline_mask) in
        if (2 <? count) && negb (has_bits (ld m data 1) c.(vi_payload_mask)) then false
        else
          let value := identifier_value m data c.(vi_payload_mask) radix maximum
                         (Z.to_nat (count - 1)) 1 0 in
          (maximum <? value) || (value =? unpack c.(vi_escape) c.(vi_inline_mask))
  end.

(** The loop over continuation octets; [rest] octets of the input remain, so [rest = 0] is
    [count == size]. *)
Fixpoint identifier_scan (c : tlv_variable_identifier_t) (m : mem) (data : ptr) (rest : nat)
  (count : Z) : tlv_result_t * Z :=
  if count =? c.(vi_max_size) then (TLV_ERR_INVALID_TAG_SIZE, count)
  else
    match rest with
    | O => (TLV_ERR_TRUNCATED, count)
    | S rest =>
        let octet := ld m data count in
        let count := count + 1 in
        if outside octet (Z.lor c.(vi_continuation_bit) c.(vi_payload_mask)) then
          (TLV_ERR_INVALID_TAG, count)
        else if negb (has_bits octet c.(vi_continuation_bit)) then (TLV_OK, count)
        else identifier_scan c m data rest count
    end.

Definition tlv_variable_identifier_read (config : option tlv_variable_identifier_t) (m : mem)
  (data : ptr) (size : Z) (tag : option tlv_tag_t) (consumed : option Z)
  : tlv_result_t * option tlv_tag_t * option Z :=
  match config, tag, consumed with
  | Some c, Some _, Some _ =>
      if is_null data && nz size then (TLV_ERR_NULL_ARG, tag, consumed)
      else
        let rc := identifier_validate c in
        if negb (is_ok rc) then (rc, tag, consumed) else
        let rc := identifier_prefix c m data size in
        if negb (is_ok rc) then (rc, tag, consumed)
        else if size =? 0 then (TLV_ERR_TRUNCATED, tag, Some 0)
        else
          let '(rc, count) :=
            if Z.land (ld m data 0) c.(vi_inline_mask) =? c.(vi_escape) then
              identifier_scan c m data (Z.to_nat (size - 1)) 1
            else (TLV_OK, 1) in
          if rc_eqb rc TLV_ERR_TRUNCATED then (rc, tag, Some size)
          else if negb (is_ok rc) then (rc, tag, consumed)
          else if negb (identifier_minimal c m data count) then (TLV_ERR_INVALID_TAG, tag, consumed)
          else (TLV_OK, Some (tlv_tag data count), Some count)
  | _, _, _ => (TLV_ERR_NULL_ARG, tag, consumed)
  end.

Definition tlv_variable_identifier_write (config : option tlv_variable_identifier_t) (m : mem)
  (tag : option tlv_tag_t) (data : ptr) (capacity : Z) (written : option Z)
  : tlv_result_t * mem * option Z :=
  match config, tag, written with
  | Some c, Some t, Some _ =>
      if (is_null t.(t_data) && nz t.(t_size)) || (is_null data && nz capacity) then
        (TLV_ERR_NULL_ARG, m, written)
      else
        let rc := identifier_validate c in
        if negb (is_ok rc) then (rc, m, written)
        else if (t.(t_size) =? 0) || (c.(vi_max_size) <? t.(t_size)) then
          (TLV_ERR_INVALID_TAG_SIZE, m, written)
        else
          let '(rc, _, count) :=
            tlv_variable_identifier_read config m t.(t_data) t.(t_size) (Some empty_tag) (Some 0) in
          if rc_eqb rc TLV_ERR_INVALID_TAG_SIZE then (rc, m, written)
          else if negb (is_ok rc) || negb (cell 0 count =? t.(t_size)) then
            (TLV_ERR_INVALID_TAG, m, written)
          else if negb (is_null data) && (capacity <? cell 0 count) then
            (TLV_ERR_BUFFER_TOO_SHORT, m, written)
          else (TLV_OK,
                (if negb (is_null data) then memmove m data t.(t_data) (cell 0 count) else m), count)
  | _, _, _ => (TLV_ERR_NULL_ARG, m, written)
  end.

(** ** Lengths *)

(** The fold over the count octets, most significant first; [None] is the overflow test failing. *)
Fixpoint length_fold (m : mem) (data : ptr) (big : bool) (count : Z) (n : nat) (i value : Z)
  : option Z :=
  match n with
  | O => Some value
  | S n =>
      let index := if big then i + 1 else count - i in
      if Z.shiftr UINT64_MAX 8 <? value then None
      else length_fold m data big count n (i + 1)
             (u64 (Z.lor (u64 (Z.shiftl value 8)) (ld m data index)))
  end.

Definition tlv_variable_length_read (config : option tlv_variable_length_t) (m : mem) (data : ptr)
  (size : Z) (length : option Z) (consumed : option Z) : tlv_result_t * option Z * option Z :=
  match config, length, consumed with
  | Some c, Some _, Some _ =>
      if is_null data && nz size then (TLV_ERR_NULL_ARG, length, consumed)
      else
        let rc := length_validate c in
        if negb (is_ok rc) then (rc, length, consumed) else
        let consumed := Some (if nz size then 1 else 0) in
        if size =? 0 then (TLV_ERR_TRUNCATED, length, consumed)
        else if outside (ld m data 0) (Z.lor c.(vl_long_form_bit) c.(vl_payload_mask)) then
          (TLV_ERR_INVALID_LENGTH, length, consumed)
        else
          let count := unpack (ld m data 0) c.(vl_payload_mask) in
          if negb (has_bits (ld m data 0) c.(vl_long_form_bit)) then
            match c.(vl_policy) with
            | Some p =>
                if negb (nz p.(lp_allow_short)) || (p.(lp_max_value) <? count) then
                  (TLV_ERR_INVALID_LENGTH, length, consumed)
                else (TLV_OK, Some count, consumed)
            | None => (TLV_OK, Some count, consumed)
            end
          else if count =? 0 then (TLV_ERR_INVALID_LENGTH, length, consumed)
          else if match c.(vl_policy) with
                  | Some p => negb (nz p.(lp_allow_long)) || (p.(lp_max_long_octets) <? count)
                  | None => false
                  end then (TLV_ERR_INVALID_LENGTH, length, consumed)
          else
            let consumed := Some (if count <? size then count + 1 else size) in
            if size <=? count then (TLV_ERR_TRUNCATED, length, consumed)
            else
              let big := order_is c.(vl_byte_order) TLV_BYTE_ORDER_BIG_ENDIAN in
              match length_fold m data big count (Z.to_nat count) 0 0 with
              | None => (match c.(vl_policy) with
                         | Some _ => TLV_ERR_INVALID_LENGTH | None => TLV_ERR_OVERFLOW end,
                         length, consumed)
              | Some value =>
                  match c.(vl_policy) with
                  | Some p =>
                      let most_significant := if big then 1 else count in
                      if (p.(lp_max_value) <? value) ||
                         (nz p.(lp_require_minimal) &&
                          ((nz p.(lp_allow_short) &&
                            (value <=? unpack c.(vl_payload_mask) c.(vl_payload_mask))) ||
                           ((1 <? count) && (ld m data most_significant =? 0)))) then
                        (TLV_ERR_INVALID_LENGTH, length, consumed)
                      else (TLV_OK, Some value, consumed)
                  | None => (TLV_OK, Some value, consumed)
                  end
              end
  | _, _, _ => (TLV_ERR_NULL_ARG, length, consumed)
  end.

(** [do { ++count; remaining >>= 8; } while (remaining)]: at most eight iterations for 64 bits. *)
Fixpoint count_octets (fuel : nat) (remaining : Z) : Z :=
  match fuel with
  | O => 0
  | S fuel =>
      let remaining := Z.shiftr remaining 8 in
      if nz remaining then 1 + count_octets fuel remaining else 1
  end.

Definition tlv_variable_length_write (config : option tlv_variable_length_t) (m : mem) (length : Z)
  (data : ptr) (capacity : Z) (written : option Z) : tlv_result_t * mem * option Z :=
  match config, written with
  | Some c, Some _ =>
      if is_null data && nz capacity then (TLV_ERR_NULL_ARG, m, written)
      else
        let rc := length_validate c in
        if negb (is_ok rc) then (rc, m, written)
        else if match c.(vl_policy) with Some p => p.(lp_max_value) <? length | None => false end then
          (TLV_ERR_INVALID_LENGTH, m, written)
        else
          let maximum := unpack c.(vl_payload_mask) c.(vl_payload_mask) in
          let long := (maximum <? length) ||
                      match c.(vl_policy) with Some p => negb (nz p.(lp_allow_short)) | None => false end in
          let count := if long then count_octets 8 length else 0 in
          if long && (maximum <? count) then (TLV_ERR_INVALID_LENGTH, m, written)
          else if long && match c.(vl_policy) with
                          | Some p => negb (nz p.(lp_allow_long)) || (p.(lp_max_long_octets) <? count)
                          | None => false
                          end then (TLV_ERR_INVALID_LENGTH, m, written)
          else
            let width := count + 1 in
            if negb (is_null data) then
              if capacity <? width then (TLV_ERR_BUFFER_TOO_SHORT, m, written)
              else
                let m :=
                  if count =? 0 then st m data 0 (pack (u32 length) c.(vl_payload_mask))
                  else
                    let m := st m data 0 (u8 (Z.lor c.(vl_long_form_bit)
                                                (pack (u32 count) c.(vl_payload_mask)))) in
                    snd (tlv_write_uint m (data +p 1) count c.(vl_byte_order) length) in
                (TLV_OK, m, Some width)
            else (TLV_OK, m, Some width)
  | _, _ => (TLV_ERR_NULL_ARG, m, written)
  end.

Definition variable_tag_reader (c : tlv_variable_identifier_t) : tlv_read_tag_fn :=
  fun m data size tag used =>
    let '(rc, tag', used') := tlv_variable_identifier_read (Some c) m data size (Some tag) (Some used) in
    (rc, cell tag tag', cell used used').
Definition variable_tag_writer (c : tlv_variable_identifier_t) : tlv_write_tag_fn :=
  fun m tag data capacity used =>
    let '(rc, m, used') := tlv_variable_identifier_write (Some c) m (Some tag) data capacity (Some used) in
    (rc, m, cell used used').
Definition variable_length_reader (c : tlv_variable_length_t) : tlv_read_length_fn :=
  fun m data size length used =>
    let '(rc, length', used') := tlv_variable_length_read (Some c) m data size (Some length) (Some used) in
    (rc, cell length length', cell used used').
Definition variable_length_writer (c : tlv_variable_length_t) : tlv_write_length_fn :=
  fun m length data capacity used =>
    let '(rc, m, used') := tlv_variable_length_write (Some c) m length data capacity (Some used) in
    (rc, m, cell used used').

(** ** Payload bits *)

Definition unpack_pack_at (mask v : Z) : bool :=
  if v <=? unpack mask mask then
    (unpack (pack v mask) mask =? v) && (Z.land (pack v mask) mask =? pack v mask)
  else true.

Definition unpack_at (mask x : Z) : bool :=
  (unpack x mask =? unpack (Z.land x mask) mask) && (0 <=? unpack x mask) &&
  (unpack x mask <=? unpack mask mask) && (unpack mask mask <=? 255).

Lemma unpack_pack_check : forallb (fun m => forallb (unpack_pack_at m) all_octets) all_octets = true.
Proof. vm_compute. reflexivity. Qed.

Lemma unpack_check : forallb (fun m => forallb (unpack_at m) all_octets) all_octets = true.
Proof. vm_compute. reflexivity. Qed.

Lemma unpack_range x mask : 0 <= mask < 256 -> 0 <= x < 256 ->
  0 <= unpack x mask <= unpack mask mask /\ unpack mask mask <= 255.
Proof.
  intros Hm Hx. pose proof (octets_decide2 _ _ _ unpack_check Hm Hx) as H. unfold unpack_at in H.
  rewrite !andb_true_iff in H. lia.
Qed.

Lemma unpack_land x mask : 0 <= mask < 256 -> 0 <= x < 256 -> unpack x mask = unpack (Z.land x mask) mask.
Proof.
  intros Hm Hx. pose proof (octets_decide2 _ _ _ unpack_check Hm Hx) as H. unfold unpack_at in H.
  rewrite !andb_true_iff in H. lia.
Qed.

Lemma pack_range v mask : 0 <= pack v mask < 256.
Proof. apply u8_range. Qed.

Lemma unpack_pack v mask : 0 <= mask < 256 -> 0 <= v <= unpack mask mask ->
  unpack (pack v mask) mask = v /\ Z.land (pack v mask) mask = pack v mask.
Proof.
  intros Hm Hv. pose proof (unpack_range mask mask Hm Hm) as Hr.
  pose proof (octets_decide2 _ mask v unpack_pack_check Hm ltac:(lia)) as H. unfold unpack_pack_at in H.
  rewrite (proj2 (Z.leb_le _ _)) in H by lia. rewrite andb_true_iff in H. lia.
Qed.

(** The first octet of a long length: the flag beside the packed count. *)
Lemma long_octet bit mask v :
  0 <= mask < 256 -> 0 <= bit < 256 -> Z.land bit mask = 0 -> 0 <= v <= unpack mask mask ->
  let x := Z.lor bit (pack v mask) in
  0 <= x < 256 /\ Z.land x bit = bit /\ outside x (Z.lor bit mask) = false /\ unpack x mask = v.
Proof.
  intros Hm Hb Hd Hv x. destruct (unpack_pack v mask Hm Hv) as [Hu Hp].
  pose proof (pack_range v mask) as Hr.
  assert (0 <= x < 256) as Hx.
  { unfold x. split; [apply Z.lor_nonneg; lia|].
    destruct (Z.eq_dec (Z.lor bit (pack v mask)) 0); [lia|].
    apply (Z.log2_lt_pow2 _ 8); [pose proof (proj2 (Z.lor_nonneg bit (pack v mask)) ltac:(lia)); lia|].
    rewrite Z.log2_lor by lia. apply Z.max_lub_lt.
    - destruct (Z.eq_dec bit 0) as [->|]; [simpl; lia|]. apply Z.log2_lt_pow2; lia.
    - destruct (Z.eq_dec (pack v mask) 0) as [->|]; [simpl; lia|]. apply Z.log2_lt_pow2; lia. }
  split; [done|]. split; [|split].
  - unfold x. apply Z.bits_inj'. intros i Hi. rewrite Z.land_spec, Z.lor_spec.
    destruct (Z.testbit bit i); [done|]. apply andb_false_r.
  - unfold outside, nz, x. apply negb_false_iff, Z.eqb_eq, Z.bits_inj'. intros i Hi.
    apply (f_equal (fun z => Z.testbit z i)) in Hp. rewrite Z.land_spec in Hp.
    rewrite Z.land_spec, Z.lnot_spec, !Z.lor_spec, Z.bits_0 by lia.
    destruct (Z.testbit bit i), (Z.testbit (pack v mask) i), (Z.testbit mask i); simpl in *; done.
  - rewrite unpack_land by done. etransitivity; [|exact Hu]. f_equal. unfold x.
    rewrite Z.land_lor_distr_l, Hd, Z.lor_0_l. done.
Qed.

Lemma short_octet bit mask v :
  0 <= mask < 256 -> Z.land bit mask = 0 -> 0 <= v <= unpack mask mask ->
  let x := pack v mask in
  Z.land x bit = 0 /\ outside x (Z.lor bit mask) = false /\ unpack x mask = v.
Proof.
  intros Hm Hd Hv x. destruct (unpack_pack v mask Hm Hv) as [Hu Hp]. fold x in Hu, Hp.
  split; [|split]; [| |done].
  - rewrite <- Hp, <- Z.land_assoc, (Z.land_comm mask), Hd. apply Z.land_0_r.
  - unfold outside, nz. apply negb_false_iff, Z.eqb_eq, Z.bits_inj'. intros i Hi.
    apply (f_equal (fun z => Z.testbit z i)) in Hp. rewrite Z.land_spec in Hp.
    rewrite Z.land_spec, Z.lnot_spec, !Z.lor_spec, Z.bits_0 by lia.
    destruct (Z.testbit bit i), (Z.testbit x i), (Z.testbit mask i); simpl in *; done.
Qed.
