(* ===== verification/FieldVariableLaws.v ===== *)
(** * Laws of the variable-width fields: instances of [TagField] and [LengthField] *)

From S2P Require Import Prelude Mem Core Endian FieldFixed FieldEscaped FieldVariable.

(** ** The length field laws *)

Record variable_length_ok (c : tlv_variable_length_t) : Prop := {
  vlo_bit : 0 <= c.(vl_long_form_bit) < 256;
  vlo_mask : 0 <= c.(vl_payload_mask) < 256;
  vlo_max_value : forall p, c.(vl_policy) = Some p -> p.(lp_max_value) <= UINT64_MAX;
  vlo_valid : length_validate c = TLV_OK }.

Lemma variable_length_valid c : variable_length_ok c ->
  c.(vl_long_form_bit) <> 0 /\ Z.land c.(vl_long_form_bit) c.(vl_payload_mask) = 0 /\
  order_bad c.(vl_byte_order) = false.
Proof.
  intros [_ _ _ Hv]. unfold length_validate in Hv.
  destruct (_ || _) eqn:E in Hv; [done|]. destruct (order_bad _); [done|].
  unfold single_bit, has_bits, nz in E. rewrite !orb_false_iff, !negb_false_iff, andb_true_iff in E. zlia.
Qed.

(** The number of octets of an integer: the least positive width that holds it. *)
Lemma count_octets_S fuel n :
  count_octets (S fuel) n = if n / 256 =? 0 then 1 else 1 + count_octets fuel (n / 256).
Proof.
  cbn [count_octets]. rewrite Z.shiftr_div_pow2 by lia. change (2 ^ 8) with 256. unfold nz.
  destruct (n / 256 =? 0); done.
Qed.

Lemma count_octets_spec n fuel :
  0 <= n -> n < 256 ^ Z.of_nat (S fuel) ->
  let k := count_octets (S fuel) n in
  1 <= k <= Z.of_nat (S fuel) /\ n < 256 ^ k /\ (1 < k -> 256 ^ (k - 1) <= n).
Proof.
  revert n. induction fuel as [|fuel IH]; intros n Hn Hlt k; unfold k; rewrite count_octets_S.
  - change (256 ^ Z.of_nat 1) with 256 in Hlt. rewrite Z.div_small by lia.
    cbn [Z.eqb]. change (256 ^ 1) with 256. lia.
  - assert (n / 256 < 256 ^ Z.of_nat (S fuel)) as Hd.
    { apply Z.div_lt_upper_bound; [lia|]. rewrite (pow256_S (S fuel)) in Hlt. lia. }
    pose proof (Z.div_mod n 256 ltac:(lia)) as Hdm. pose proof (Z.mod_pos_bound n 256 ltac:(lia)) as Hmb.
    destruct (Z.eqb_spec (n / 256) 0) as [E0|E0].
    + change (256 ^ 1) with 256. lia.
    + pose proof (Z.div_pos n 256 Hn ltac:(lia)) as Hp. specialize (IH (n / 256) Hp Hd). cbv zeta in IH.
      destruct IH as (Hk & Hu & Hl). set (j := count_octets (S fuel) (n / 256)) in *. clearbody j.
      rewrite (Z.add_1_l j), Z.pow_succ_r by lia. replace (Z.succ j - 1) with j by lia.
      split; [lia|]. split; [lia|].
      intros _. destruct (Z.eq_dec j 1) as [->|Hj]; [change (256 ^ 1) with 256; lia|].
      specialize (Hl ltac:(lia)). replace (256 ^ j) with (256 * 256 ^ (j - 1)); [lia|].
      rewrite <- Z.pow_succ_r by lia. f_equal. lia.
Qed.

(** The octets of a count field, most significant first. *)
Definition count_field (m : mem) (data : ptr) (count : Z) (big : bool) : list Z :=
  field_octets m (data +p 1) count big.

(** The fold is exact: it fails when, and only when, the integer does not fit 64 bits. *)
Lemma length_fold_from m data big count n i r :
  0 <= r <= UINT64_MAX ->
  length_fold m data big count n (Z.of_nat i) r =
  let v := fold_left (fun acc b => acc * 256 + b)
             (map (fun j => ld m (data +p 1) (octet_index count big (Z.of_nat j))) (seq i n)) r in
  if v <=? UINT64_MAX then Some v else None.
Proof.
  revert i r. induction n as [|n IH]; intros i r Hr.
  - cbn [seq map fold_left length_fold]. now rewrite (proj2 (Z.leb_le _ _)) by lia.
  - cbn [seq map fold_left length_fold].
    assert ((if big then Z.of_nat i + 1 else count - Z.of_nat i) =
            1 + octet_index count big (Z.of_nat i)) as -> by (unfold octet_index; destruct big; lia).
    rewrite ld_padd. set (b := ld m data (1 + octet_index count big (Z.of_nat i))).
    assert (0 <= b < 256) as Hb by apply ld_range.
    change (Z.shiftr UINT64_MAX 8) with 72057594037927935.
    destruct (72057594037927935 <? r) eqn:E.
    + rewrite be_fold. set (l := map _ _). clear IH.
      assert (bytes l) as Hl.
      { unfold l, bytes. apply List.Forall_forall. intros x Hx. apply in_map_iff in Hx as (j & <- & _).
        apply ld_range. }
      pose proof (be_value_range l Hl). pose proof (pow256_pos (length l)).
      cbv zeta. rewrite (proj2 (Z.leb_gt _ _)); [done|]. nia.
    + rewrite (u64_small (Z.shiftl r 8)) by (rewrite Z.shiftl_mul_pow2 by lia; lia).
      rewrite lor_byte, u64_small by lia.
      replace (Z.of_nat i + 1) with (Z.of_nat (S i)) by lia. apply IH. lia.
Qed.

Lemma length_fold_value m data big count :
  length_fold m data big count (Z.to_nat count) 0 0 =
  let v := be_value (count_field m data count big) in if v <=? UINT64_MAX then Some v else None.
Proof. apply (length_fold_from m data big count (Z.to_nat count) 0 0). lia. Qed.

Section VariableLength.
Context (c : tlv_variable_length_t) (Hc : variable_length_ok c).

Definition vl_big : bool := order_is c.(vl_byte_order) TLV_BYTE_ORDER_BIG_ENDIAN.
Definition vl_maximum : Z := unpack c.(vl_payload_mask) c.(vl_payload_mask).

(** What the policy accepts of a short length, and of a [count]-octet integer [v] whose most
    significant octet is [top]. *)
Definition short_accepted (n : Z) : bool :=
  match c.(vl_policy) with
  | Some p => nz p.(lp_allow_short) && (n <=? p.(lp_max_value))
  | None => true
  end.
Definition long_accepted (count v top : Z) : bool :=
  match c.(vl_policy) with
  | Some p =>
      nz p.(lp_allow_long) && (count <=? p.(lp_max_long_octets)) && (v <=? p.(lp_max_value)) &&
      negb (nz p.(lp_require_minimal) &&
            ((nz p.(lp_allow_short) && (v <=? vl_maximum)) || ((1 <? count) && (top =? 0))))
  | None => true
  end.

Definition variable_accepts (m : mem) (data : ptr) (size n k : Z) : Prop :=
  let b := ld m data 0 in
  let count := unpack b c.(vl_payload_mask) in
  1 <= size /\ outside b (Z.lor c.(vl_long_form_bit) c.(vl_payload_mask)) = false /\
  if has_bits b c.(vl_long_form_bit) then
    count <> 0 /\ k = count + 1 /\ k <= size /\ n = be_value (count_field m data count vl_big) /\
    n <= UINT64_MAX /\ long_accepted count n (ld m data (if vl_big then 1 else count)) = true
  else n = count /\ k = 1 /\ short_accepted count = true.

Lemma variable_read_iff m data size n0 c0 n k :
  data <> NULL -> 0 <= size ->
  variable_length_reader c m data size n0 c0 = (TLV_OK, n, k) <-> variable_accepts m data size n k.
Proof using Hc.
  intros Hd Hs. unfold variable_length_reader, tlv_variable_length_read, variable_accepts.
  rewrite (vlo_valid c Hc). replace (is_null data) with false by (destruct data; done).
  cbn [andb]. rewrite is_ok_OK. cbn [negb]. cbv zeta.
  destruct (size =? 0) eqn:E0; [split; [done|lia]|].
  destruct (outside _ _) eqn:Eo; [split; [done|intros (_ & ? & _); done]|].
  set (count := unpack (ld m data 0) (vl_payload_mask c)). fold vl_big.
  assert (nz size = true) as -> by (unfold nz; rewrite E0; done).
  destruct (has_bits (ld m data 0) (vl_long_form_bit c)) eqn:Eb; cbn [negb].
  - destruct (count =? 0) eqn:Ec; [split; [done|lia]|].
    assert (long_accepted count n (ld m data (if vl_big then 1 else count)) = true ->
            match vl_policy c with
            | Some p => negb (nz (lp_allow_long p)) || (lp_max_long_octets p <? count)
            | None => false end = false) as Hla.
    { unfold long_accepted. destruct (vl_policy c); [|done]. rewrite !andb_true_iff.
      intros (((Ha & ?) & _) & _). rewrite Ha. cbn [negb orb]. lia. }
    destruct (match vl_policy c with Some p => _ | None => false end) eqn:Ep.
    { split; [done|]. intros (_ & _ & _ & _ & _ & _ & _ & Ha). specialize (Hla Ha). done. }
    destruct (size <=? count) eqn:Esz; [split; [done|lia]|].
    rewrite length_fold_value. cbv zeta. set (v := be_value _).
    destruct (v <=? UINT64_MAX) eqn:Ev.
    2: { split; [destruct (vl_policy c); done|lia]. }
    rewrite (proj2 (Z.ltb_lt count size)) by lia. unfold long_accepted, vl_maximum in *.
    destruct (vl_policy c) as [p|]; cbn [cell fst snd].
    + match goal with |- context [if ?b then _ else _] => destruct b eqn:Er end.
      * split; [done|]. intros (_ & _ & _ & _ & _ & -> & _ & Ha).
        rewrite !andb_true_iff, negb_true_iff in Ha. destruct Ha as ((_ & ?) & Hn).
        rewrite Hn, orb_false_r in Er. lia.
      * rewrite orb_false_iff in Er, Ep. destruct Er as [Er1 Er2], Ep as [Ep1 Ep2].
        rewrite negb_false_iff in Ep1. split; [|intros (_ & _ & _ & -> & _ & -> & _); done].
        intros [= <- <-]. rewrite Er2, Ep1. repeat split; zlia.
    + split; [intros [= <- <-]; repeat split; zlia|]. intros (_ & _ & _ & -> & _ & -> & _). done.
  - unfold short_accepted. destruct (vl_policy c) as [p|]; cbn [cell].
    + match goal with |- context [if ?b then _ else _] => destruct b eqn:Er end.
      * split; [done|]. intros (_ & _ & _ & _ & Ha). destruct (nz (lp_allow_short p)); simpl in *; [lia|done].
      * rewrite orb_false_iff, negb_false_iff in Er. destruct Er as [Er1 Er2]. rewrite Er1.
        split; [intros [= <- <-]; repeat split; zlia|]. intros (_ & _ & -> & -> & _). done.
    + split; [intros [= <- <-]; repeat split; zlia|]. intros (_ & _ & -> & -> & _). done.
Qed.

(** The writer's choice of form, and the octets it writes. *)
Definition vl_long (n : Z) : bool :=
  (vl_maximum <? n) ||
  match c.(vl_policy) with Some p => negb (nz p.(lp_allow_short)) | None => false end.
Definition vl_count (n : Z) : Z := if vl_long n then count_octets 8 n else 0.
Definition vl_encodable (n : Z) : bool :=
  match c.(vl_policy) with Some p => n <=? p.(lp_max_value) | None => true end &&
  (negb (vl_long n) ||
   ((vl_count n <=? vl_maximum) &&
    match c.(vl_policy) with
    | Some p => nz p.(lp_allow_long) && (vl_count n <=? p.(lp_max_long_octets))
    | None => true
    end)).
Definition variable_octets (n : Z) : list Z :=
  if vl_long n then
    Z.lor c.(vl_long_form_bit) (pack (vl_count n) c.(vl_payload_mask)) ::
    fixed_length_octets (mk_fixed_length (vl_count n) c.(vl_byte_order)) n
  else [pack n c.(vl_payload_mask)].

Lemma vl_count_long n : 0 <= n <= UINT64_MAX -> vl_long n = true ->
  1 <= vl_count n <= 8 /\ n < 256 ^ vl_count n /\ (1 < vl_count n -> 256 ^ (vl_count n - 1) <= n).
Proof using.
  intros Hn Hl. unfold vl_count. rewrite Hl.
  apply (count_octets_spec n 7); [lia|]. change (Z.of_nat 8) with 8. lia.
Qed.

Lemma length_variable_octets n : 0 <= n <= UINT64_MAX -> zlen (variable_octets n) = vl_count n + 1.
Proof using.
  intros Hn. unfold variable_octets. destruct (vl_long n) eqn:El.
  - pose proof (vl_count_long n Hn El). cbn [length]. rewrite Nat2Z.inj_succ.
    rewrite length_fixed_octets by (simpl; lia). simpl. lia.
  - unfold vl_count. rewrite El. done.
Qed.

(** Every guard of the writer, on an encodable length. *)
Lemma variable_write_guards m n data cap w0 :
  0 <= n <= UINT64_MAX -> vl_encodable n = true -> is_null data && nz cap = false ->
  variable_length_writer c m n data cap w0 =
  if negb (is_null data) && (cap <? vl_count n + 1) then (TLV_ERR_BUFFER_TOO_SHORT, m, w0)
  else (TLV_OK,
        (if negb (is_null data) then
           if vl_count n =? 0 then st m data 0 (pack (u32 n) c.(vl_payload_mask))
           else snd (tlv_write_uint
                  (st m data 0 (u8 (Z.lor c.(vl_long_form_bit)
                                      (pack (u32 (vl_count n)) c.(vl_payload_mask)))))
                  (data +p 1) (vl_count n) c.(vl_byte_order) n)
         else m), vl_count n + 1).
Proof using Hc.
  intros Hn He Hnull. unfold variable_length_writer, tlv_variable_length_write.
  rewrite Hnull, (vlo_valid c Hc), is_ok_OK. cbn [negb]. cbv zeta.
  fold vl_maximum. unfold vl_encodable in He. rewrite andb_true_iff in He. destruct He as [Hm He].
  assert (match vl_policy c with Some p => lp_max_value p <? n | None => false end = false) as ->
    by (destruct (vl_policy c); [lia|done]).
  fold (vl_long n). fold (vl_count n).
  destruct (vl_long n); cbn [andb negb orb] in *.
  - rewrite andb_true_iff in He. destruct He as [H1 H2].
    rewrite (proj2 (Z.ltb_ge vl_maximum _)) by lia.
    assert (match vl_policy c with
            | Some p => negb (nz (lp_allow_long p)) || (lp_max_long_octets p <? vl_count n)
            | None => false end = false) as ->.
    { destruct (vl_policy c) as [p|]; [|done]. rewrite andb_true_iff in H2. destruct H2 as [-> H2].
      simpl. lia. }
    destruct (is_null data); cbn [negb andb]; [done|]. destruct (cap <? _); done.
  - destruct (is_null data); cbn [negb andb]; [done|]. destruct (cap <? _); done.
Qed.

Lemma vl_maximum_range : 0 <= vl_maximum <= 255.
Proof using Hc. pose proof (unpack_range _ _ (vlo_mask c Hc) (vlo_mask c Hc)) as H. unfold vl_maximum. lia. Qed.

Lemma vl_count_bound n : vl_encodable n = true -> 0 <= n <= UINT64_MAX -> vl_long n = true ->
  1 <= vl_count n <= vl_maximum.
Proof using.
  intros He Hn Hl. pose proof (vl_count_long n Hn Hl). unfold vl_encodable in He. rewrite Hl in He.
  rewrite !andb_true_iff in He. cbn [negb orb] in He. rewrite andb_true_iff in He. lia.
Qed.

Lemma variable_write_data m n data cap w0 :
  0 <= n <= UINT64_MAX -> vl_encodable n = true -> data <> NULL -> vl_count n + 1 <= cap ->
  exists m', variable_length_writer c m n data cap w0 = (TLV_OK, m', vl_count n + 1) /\
    only_changes m m' data (vl_count n + 1) /\ bytes_of m' data (vl_count n + 1) = variable_octets n.
Proof using Hc.
  intros Hn He Hd Hcap. pose proof vl_maximum_range as HM.
  assert (is_null data = false) as Hnull by (destruct data; done).
  rewrite variable_write_guards, Hnull by (done || rewrite Hnull; done). cbn [negb andb].
  rewrite (proj2 (Z.ltb_ge _ _)) by lia. unfold variable_octets. destruct (vl_long n) eqn:El.
  - pose proof (vl_count_bound n He Hn El). pose proof (vl_count_long n Hn El) as (Hk & Hlt & _).
    destruct (variable_length_valid c Hc) as (_ & Hdisj & Ho).
    destruct (long_octet _ _ (vl_count n) (vlo_mask c Hc) (vlo_bit c Hc) Hdisj ltac:(unfold vl_maximum in *; lia))
      as (Hx & _).
    rewrite (proj2 (Z.eqb_neq _ _)) by lia. unfold u32 at 1. rewrite (Z.mod_small (vl_count n)) by lia.
    rewrite (u8_small (Z.lor _ _)) by done. set (x := Z.lor _ _) in *.
    pose proof (write_uint_cases (st m data 0 x) (data +p 1) (vl_count n) (vl_byte_order c) n
      ltac:(destruct data; done) Hk Ho Hn) as Hw.
    rewrite (proj2 (Z.ltb_lt n _)) in Hw by lia. destruct Hw as (m1 & -> & Honly & Hoct). cbn [snd].
    exists m1. split; [done|]. split.
    + eapply only_trans; [apply (st_only m data 0 x); lia|].
      apply (only_sub _ _ _ _ 1 (vl_count n)); try lia. done.
    + rewrite (Z.add_comm _ 1), bytes_of_cons by lia. f_equal.
      * rewrite (only_ld _ _ _ _ data 0 Honly); [|destruct data; simpl; lia|lia].
        rewrite ld_st_same by done. now apply u8_small.
      * unfold fixed_length_octets. simpl. now apply bytes_of_octets; [lia|].
  - assert (n <= vl_maximum) as Hmax by (unfold vl_long in El; rewrite orb_false_iff in El; lia).
    assert (vl_count n = 0) as -> by (unfold vl_count; rewrite El; done).
    unfold u32. rewrite Z.mod_small by lia. cbn [Z.eqb]. eexists. split; [done|].
    split; [apply st_only; lia|]. change (0 + 1) with 1.
    rewrite bytes_of_1, ld_st_same by done. rewrite u8_small by apply pack_range. done.
Qed.

(** What the writer writes, the reader accepts. *)
Lemma variable_octets_accepted m data size n :
  0 <= n <= UINT64_MAX -> vl_encodable n = true -> vl_count n + 1 <= size ->
  bytes_of m data (vl_count n + 1) = variable_octets n -> variable_accepts m data size n (vl_count n + 1).
Proof using Hc.
  intros Hn He Hs Hb. pose proof vl_maximum_range as HM.
  destruct (variable_length_valid c Hc) as (Hbit & Hdisj & Ho). unfold variable_accepts, variable_octets in *.
  destruct (vl_long n) eqn:El.
  - pose proof (vl_count_bound n He Hn El) as Hcm. pose proof (vl_count_long n Hn El) as (Hk & Hlt & Hge).
    destruct (long_octet _ _ (vl_count n) (vlo_mask c Hc) (vlo_bit c Hc) Hdisj ltac:(unfold vl_maximum in *; lia)) as (Hx & Hflag & Hout & Hu).
    rewrite (Z.add_comm _ 1), bytes_of_cons in Hb by lia. injection Hb as Hb0 Hb. rewrite Hb0, Hu, Hout.
    unfold has_bits. rewrite Hflag. unfold nz. rewrite (proj2 (Z.eqb_neq _ 0)) by done. cbn [negb].
    unfold fixed_length_octets in Hb. apply octets_of_bytes in Hb; [|simpl; lia]. simpl in Hb.
    fold vl_big in Hb. unfold count_field. rewrite Hb, be_value_be_bytes, Z2Nat.id, Z.mod_small by lia.
    repeat (split; [done || lia|]).
    assert (ld m data (if vl_big then 1 else vl_count n) = u8 (n / 256 ^ (vl_count n - 1))) as ->.
    { apply (f_equal (fun l => nth 0 l 0)) in Hb. rewrite nth_be_bytes in Hb by lia.
      rewrite Z2Nat.id, Z.sub_0_r in Hb by lia. rewrite <- Hb. unfold field_octets.
      replace (Z.to_nat (vl_count n)) with (S (Z.to_nat (vl_count n - 1))) by lia. cbn [seq map nth].
      rewrite ld_padd. f_equal. unfold octet_index. destruct vl_big; lia. }
    unfold long_accepted, vl_encodable in *. rewrite El in He. destruct (vl_policy c) as [p|] eqn:Ep; [|done].
    rewrite !andb_true_iff in He. destruct He as [Hmax [_ [Hl Hml]%andb_true_iff]%andb_true_iff].
    rewrite Hl, Hml, Hmax. cbn [andb]. rewrite negb_true_iff, andb_false_iff. right.
    rewrite orb_false_iff. split.
    + unfold vl_long in El. rewrite Ep in El. apply orb_true_iff in El as [El|El].
      * rewrite (proj2 (Z.leb_gt _ _)) by lia. apply andb_false_r.
      * rewrite negb_true_iff in El. rewrite El. done.
    + destruct (1 <? vl_count n) eqn:E1; [|done]. cbn [andb]. specialize (Hge ltac:(lia)).
      apply Z.eqb_neq. assert (0 < 256 ^ (vl_count n - 1)) by (apply Z.pow_pos_nonneg; lia).
      replace (vl_count n) with (Z.succ (vl_count n - 1)) in Hlt by lia.
      rewrite Z.pow_succ_r in Hlt by lia.
      rewrite u8_small; [|split; [apply Z.div_pos|apply Z.div_lt_upper_bound]; lia].
      pose proof (Z.div_le_lower_bound n (256 ^ (vl_count n - 1)) 1 ltac:(lia) ltac:(lia)). lia.
  - assert (n <= vl_maximum) as Hmax by (unfold vl_long in El; rewrite orb_false_iff in El; lia).
    assert (vl_count n = 0) as Hc0 by (unfold vl_count; rewrite El; done). rewrite Hc0 in *.
    change (0 + 1) with 1 in *. rewrite bytes_of_1 in Hb. injection Hb as Hb0. rewrite Hb0.
    destruct (short_octet _ _ n (vlo_mask c Hc) Hdisj ltac:(unfold vl_maximum in *; lia)) as (Hf & Hout & Hu).
    unfold has_bits. rewrite Hf, Hout, Hu. cbn [nz Z.eqb negb]. repeat (split; [done || lia|]).
    unfold short_accepted, vl_encodable, vl_long in *. destruct (vl_policy c) as [p|]; [|done].
    rewrite orb_false_iff, negb_false_iff in El. destruct El as [_ ->]. rewrite andb_true_iff in He. cbn [andb]. lia.
Qed.
End VariableLength.

(** What is accepted is decided by the octets of the length alone, wherever they are. *)
Lemma variable_accepts_range c m data size n k : variable_length_ok c -> variable_accepts c m data size n k ->
  1 <= k <= size /\ k <= 256 /\ 0 <= n <= UINT64_MAX.
Proof.
  intros Hc (Hs & _ & Hr). pose proof (unpack_range (ld m data 0) _ (vlo_mask c Hc) (ld_range m data 0)) as Hu.
  destruct (has_bits _ _).
  - destruct Hr as (Hnz & -> & Hle & -> & Hmax & _).
    pose proof (be_value_octets_range m (data +p 1) (unpack (ld m data 0) (vl_payload_mask c)) (vl_big c) ltac:(lia)) as Hv.
    unfold count_field in *. lia.
  - destruct Hr as (-> & -> & _). lia.
Qed.

Lemma variable_accepts_local c m m' data data' size size' n k : variable_length_ok c -> variable_accepts c m data size n k -> k <= size' ->
  (forall i, 0 <= i < k -> ld m data i = ld m' data' i) -> variable_accepts c m' data' size' n k.
Proof.
  intros Hc Ha Hk Hl. pose proof (variable_accepts_range c m data size n k Hc Ha) as Hr. destruct Ha as (Hs & Hout & Ha).
  unfold variable_accepts. rewrite <- (Hl 0) by lia. split; [lia|]. split; [done|].
  pose proof (unpack_range (ld m data 0) _ (vlo_mask c Hc) (ld_range m data 0)) as Hu.
  destruct (has_bits _ _); [|done]. destruct Ha as (Hnz & -> & Hle & -> & Hmax & Hacc).
  assert (count_field m data (unpack (ld m data 0) (vl_payload_mask c)) (vl_big c) =
          count_field m' data' (unpack (ld m data 0) (vl_payload_mask c)) (vl_big c)) as <-.
  { unfold count_field, field_octets. apply map_ext_in. intros j Hj. apply in_seq in Hj. rewrite !ld_padd. apply Hl. unfold octet_index. destruct (vl_big c); lia. }
  rewrite <- (Hl (if vl_big c then 1 else _)) by (destruct (vl_big c); lia). done.
Qed.

(** Cut short, an accepted length is reported as truncated. *)
Lemma variable_length_truncated c m data size size' n k n0 c0 :
  variable_length_ok c -> data <> NULL -> variable_accepts c m data size n k -> 0 <= size' < k ->
  fst (fst (variable_length_reader c m data size' n0 c0)) = TLV_ERR_TRUNCATED.
Proof.
  intros Hc Hd (Hs & Hout & Hr) Hlt. unfold variable_length_reader, tlv_variable_length_read.
  rewrite (vlo_valid c Hc). replace (is_null data) with false by (destruct data; done).
  cbn [andb]. rewrite is_ok_OK. cbn [negb]. cbv zeta.
  destruct (size' =? 0) eqn:E0; [done|]. rewrite Hout. destruct (has_bits _ _); [|lia]. cbn [negb].
  destruct Hr as (Hnz & -> & Hle & _ & _ & Ha).
  rewrite (proj2 (Z.eqb_neq _ 0)), (proj2 (Z.leb_le size' _)) by lia.
  unfold long_accepted in Ha. destruct (vl_policy c) as [p|]; [|done].
  rewrite !andb_true_iff in Ha. destruct Ha as (((-> & Hm) & _) & _). cbn [negb orb].
  rewrite (proj2 (Z.ltb_ge _ _)) by lia. done.
Qed.

#[export] Instance variable_length_field `{Platform} (c : tlv_variable_length_t)
  (Hc : variable_length_ok c) : LengthField (variable_length_reader c) (variable_length_writer c).
Proof.
  pose proof (length_variable_octets c) as Hlen.
  refine {| len_enc n := if (0 <=? n) && (n <=? UINT64_MAX) && vl_encodable c n
                         then Some (variable_octets c n) else None |}.
  - intros n l E. destruct (_ && _) eqn:E1 in E; [|done]. injection E as <-.
    rewrite !andb_true_iff in E1. destruct E1 as [[? ?] He]. rewrite Hlen by lia.
    unfold variable_octets. destruct (vl_long c n) eqn:El.
    + pose proof (vl_count_bound c n He ltac:(lia) El). pose proof (vl_maximum_range c Hc).
      split; [|lia]. constructor; [|apply fixed_octets_bytes].
      destruct (variable_length_valid c Hc) as (_ & Hdisj & _).
      apply (long_octet _ _ (vl_count c n) (vlo_mask c Hc) (vlo_bit c Hc) Hdisj ltac:(unfold vl_maximum in *; lia)).
    + split; [constructor; [apply pack_range|constructor]|]. unfold vl_count. rewrite El. lia.
  - intros m n l w0 Hn E. destruct (_ && _) eqn:E1 in E; [|done]. injection E as <-.
    rewrite !andb_true_iff in E1. destruct E1 as [_ He]. now rewrite variable_write_guards, Hlen by done.
  - intros m n l data cap w0 Hn E Hd Hcap. destruct (_ && _) eqn:E1 in E; [|done]. injection E as <-.
    rewrite !andb_true_iff in E1. destruct E1 as [_ He]. rewrite Hlen in * by lia.
    now apply variable_write_data.
  - intros m data size n l n0 c0 Hn E Hd Hsz _ Hb. destruct (_ && _) eqn:E1 in E; [|done].
    injection E as <-. rewrite !andb_true_iff in E1. destruct E1 as [_ He]. rewrite Hlen in * by lia.
    pose proof (Zle_0_nat (length (variable_octets c n))) as H0. rewrite Hlen in H0 by lia.
    apply variable_read_iff; try done; [lia|]. now apply variable_octets_accepted.
  - intros m data size n0 c0 n k Hd Hsz Hr. apply variable_read_iff in Hr; try done; [|lia].
    apply (variable_accepts_range c) in Hr; [lia|done].
  - intros m1 m2 data size size' n0 c0 n0' c0' n k Hd Hsz Hsz' Hr Hk Hsame.
    apply variable_read_iff in Hr; try done; [|lia]. apply variable_read_iff; try done; [lia|].
    apply (variable_accepts_local c m1 m2 data data size size' n k); done.
  - intros m data size size' n0 c0 n0' c0' n k Hd Hsz Hr Hlt.
    apply variable_read_iff in Hr; try done; [|lia]. now apply variable_length_truncated with size n k.
Defined.

(** ** The identifier field laws *)

Record variable_identifier_ok (c : tlv_variable_identifier_t) : Prop := {
  vio_max : 0 <= c.(vi_max_size);
  vio_valid : identifier_validate c = TLV_OK }.

Lemma variable_identifier_max c : variable_identifier_ok c -> 1 <= c.(vi_max_size).
Proof.
  intros [Hm Hv]. unfold identifier_validate in Hv. destruct (_ || _) eqn:E in Hv; [done|].
  unfold nz in E. rewrite !orb_false_iff, !negb_false_iff in E. zlia.
Qed.

Lemma identifier_scan_ok c m data rest count k :
  identifier_scan c m data rest count = (TLV_OK, k) -> count <= c.(vi_max_size) ->
  count + 1 <= k <= count + Z.of_nat rest /\ k <= c.(vi_max_size) /\
  forall m' data' rest', k <= count + Z.of_nat rest' ->
    (forall i, count <= i < k -> ld m data i = ld m' data' i) ->
    identifier_scan c m' data' rest' count = (TLV_OK, k).
Proof.
  revert count. induction rest as [|rest IH]; intros count H Hmax; cbn [identifier_scan] in H.
  { destruct (count =? vi_max_size c); done. }
  destruct (count =? vi_max_size c) eqn:Em; [done|].
  assert (forall rest', count + 1 <= k <= count + Z.of_nat rest' -> exists r, rest' = S r) as Hrest.
  { intros rest' Hr. exists (pred rest'). lia. }
  destruct (outside _ _) eqn:Eo; [done|]. destruct (negb (has_bits _ _)) eqn:Ec.
  - injection H as <-. split; [lia|]. split; [lia|]. intros m' data' rest' Hr Hsame.
    destruct (Hrest rest' ltac:(lia)) as (r & ->). cbn [identifier_scan].
    rewrite Em, <- Hsame, Eo, Ec by lia. done.
  - apply IH in H as (Hk & Hkm & Hloc); [|lia]. split; [lia|]. split; [lia|].
    intros m' data' rest' Hr Hsame. destruct (Hrest rest' ltac:(lia)) as (r & ->). cbn [identifier_scan].
    rewrite Em, <- Hsame, Eo, Ec by lia. apply Hloc; [lia|]. intros. apply Hsame. lia.
Qed.

Lemma identifier_value_local m m' data data' mask radix maximum n i v :
  0 <= i -> (forall j, i <= j < i + Z.of_nat n -> ld m data j = ld m' data' j) ->
  identifier_value m data mask radix maximum n i v = identifier_value m' data' mask radix maximum n i v.
Proof.
  revert i v. induction n as [|n IH]; intros i v Hi H; cbn [identifier_value]; [done|].
  destruct (v <=? maximum); [|done]. rewrite H by lia. apply IH; [lia|]. intros. apply H. lia.
Qed.

Lemma identifier_minimal_local c m m' data data' k :
  1 <= k -> (forall i, 0 <= i < k -> ld m data i = ld m' data' i) ->
  identifier_minimal c m data k = identifier_minimal c m' data' k.
Proof.
  intros Hk H. unfold identifier_minimal. destruct (vi_policy c) as [p|]; [|done].
  destruct (_ || (k =? 1)) eqn:E; [done|]. cbv zeta. rewrite orb_false_iff in E.
  rewrite (H 1) by lia. rewrite (identifier_value_local m m' data data'); [done|lia|].
  intros. apply H. lia.
Qed.

(** The prefix policy looks at the second octet only behind an escape. *)
Lemma identifier_prefix_local c m m' data data' size size' k :
  1 <= k -> k <= size -> k <= size' -> (forall i, 0 <= i < k -> ld m data i = ld m' data' i) ->
  ((Z.land (ld m data 0) c.(vi_inline_mask) =? c.(vi_escape)) = true -> 2 <= k) ->
  identifier_prefix c m' data' size' = identifier_prefix c m data size.
Proof.
  intros Hk Hs Hs' H Hesc. unfold identifier_prefix. destruct (vi_policy c) as [p|]; [|done].
  rewrite !(proj2 (Z.eqb_neq _ 0)) by lia. rewrite <- (H 0) by lia. destruct (forbidden _ _); [done|].
  destruct (_ =? vi_escape c) eqn:Ee.
  - specialize (Hesc eq_refl). rewrite <- (H 1) by lia. now rewrite !(proj2 (Z.ltb_lt 1 _)) by lia.
  - now rewrite !andb_false_r.
Qed.

Section VariableIdentifier.
Context (c : tlv_variable_identifier_t) (Hc : variable_identifier_ok c).

(** A successful read stays in the input and the size limit, and reads the same wherever its octets
    are found. *)
Lemma variable_tag_read_inv m data size t0 c0 t k :
  data <> NULL -> 0 <= size -> variable_tag_reader c m data size t0 c0 = (TLV_OK, t, k) ->
  1 <= k <= size /\ k <= c.(vi_max_size) /\ t = tlv_tag data k /\
  forall m' data' size' t0' c0', data' <> NULL -> k <= size' ->
    (forall i, 0 <= i < k -> ld m data i = ld m' data' i) ->
    variable_tag_reader c m' data' size' t0' c0' = (TLV_OK, tlv_tag data' k, k).
Proof using Hc.
  intros Hd Hs H. pose proof (variable_identifier_max c Hc) as Hmax.
  unfold variable_tag_reader, tlv_variable_identifier_read in *. rewrite (vio_valid c Hc) in *.
  replace (is_null data) with false in H by (destruct data; done). cbn [andb] in H.
  rewrite is_ok_OK in *. cbn [negb] in *.
  destruct (is_ok (identifier_prefix c m data size)) eqn:Ep; cbn [negb] in H;
    [|simpl in H; injection H as H _ _; rewrite H in Ep; done].
  destruct (size =? 0) eqn:E0; [done|].
  set (scan := fun m data size => if Z.land (ld m data 0) (vi_inline_mask c) =? vi_escape c
                        then identifier_scan c m data (Z.to_nat (size - 1)) 1 else (TLV_OK, 1)) in *.
  change (if Z.land (ld m data 0) (vi_inline_mask c) =? vi_escape c
          then identifier_scan c m data (Z.to_nat (size - 1)) 1 else (TLV_OK, 1)) with (scan m data size) in H.
  assert ((Z.land (ld m data 0) (vi_inline_mask c) =? vi_escape c) = true ->
          scan m data size = identifier_scan c m data (Z.to_nat (size - 1)) 1) as Hscan
    by (intros E; unfold scan; now rewrite E).
  assert (forall j, scan m data size = (TLV_OK, j) ->
    1 <= j <= size /\ j <= vi_max_size c /\
    forall m' data' size', j <= size' -> (forall i, 0 <= i < j -> ld m data i = ld m' data' i) ->
      scan m' data' size' = (TLV_OK, j)) as Hok.
  { intros j. unfold scan. destruct (Z.land (ld m data 0) (vi_inline_mask c) =? vi_escape c) eqn:Ee.
    - intros Hj. apply identifier_scan_ok in Hj as (Hj & Hjm & Hloc); [|lia].
      split; [lia|]. split; [lia|]. intros m' data' size' Hs' Hsame. rewrite <- Hsame, Ee by lia.
      apply Hloc; [lia|]. intros. apply Hsame. lia.
    - intros [= <-]. split; [lia|]. split; [lia|]. intros m' data' size' Hs' Hsame.
      rewrite <- Hsame, Ee by lia. done. }
  destruct (scan m data size) as [rc j] eqn:Es.
  destruct (rc_eqb rc TLV_ERR_TRUNCATED) eqn:Et; [rc_simpl; done|].
  destruct (is_ok rc) eqn:Er; cbn [negb] in H; [|simpl in H; injection H as -> _ _; done].
  apply is_ok_true in Er as ->. destruct (identifier_minimal c m data j) eqn:Em; [|done].
  simpl in H. injection H as <- <-. destruct (Hok j eq_refl) as (Hj & Hjm & Hloc).
  repeat (split; [done|]). intros m' data' size' t0' c0' Hd' Hs' Hsame.
  replace (is_null data') with false by (destruct data'; done). cbn [andb].
  rewrite (identifier_prefix_local c m m' data data' size size' j), Ep; try done; try lia.
  2: { intros E. specialize (Hscan E). symmetry in Hscan.
       apply identifier_scan_ok in Hscan; lia. }
  cbn [negb]. rewrite (proj2 (Z.eqb_neq size' 0)) by lia. fold (scan m' data' size').
  rewrite Hloc by (done || lia). cbn. rewrite <- (identifier_minimal_local c m m' data data'), Em by (lia || done).
  done.
Qed.
End VariableIdentifier.

(** Cut short, an accepted identifier is reported as truncated. *)
Lemma identifier_scan_truncated c m data rest rest' count k :
  identifier_scan c m data rest count = (TLV_OK, k) -> count + Z.of_nat rest' < k ->
  fst (identifier_scan c m data rest' count) = TLV_ERR_TRUNCATED.
Proof.
  revert rest' count. induction rest as [|rest IH]; intros rest' count H Hlt; cbn [identifier_scan] in H.
  { destruct (count =? vi_max_size c); done. }
  destruct rest' as [|rest']; cbn [identifier_scan]; destruct (count =? vi_max_size c); try done.
  destruct (outside _ _); [done|]. destruct (negb (has_bits _ _)).
  - injection H as <-. lia.
  - apply IH; [done|lia].
Qed.

Lemma identifier_prefix_shorter c m data size size' :
  0 <= size' <= size -> identifier_prefix c m data size = TLV_OK ->
  identifier_prefix c m data size' = TLV_OK.
Proof.
  intros Hs. unfold identifier_prefix. destruct (vi_policy c) as [p|]; [|done].
  destruct (size' =? 0) eqn:E0; [done|]. rewrite (proj2 (Z.eqb_neq size 0)) by lia.
  destruct (forbidden _ _); [done|]. destruct (1 <? size') eqn:E1.
  - now rewrite (proj2 (Z.ltb_lt 1 size)) by lia.
  - now rewrite andb_false_r.
Qed.

Lemma variable_tag_truncated c m data size size' t0 c0 t k t0' c0' :
  variable_identifier_ok c -> data <> NULL -> 0 <= size ->
  variable_tag_reader c m data size t0 c0 = (TLV_OK, t, k) -> 0 <= size' < k ->
  fst (fst (variable_tag_reader c m data size' t0' c0')) = TLV_ERR_TRUNCATED.
Proof.
  intros Hc Hd Hs H Hlt. pose proof (variable_tag_read_inv c Hc _ _ _ _ _ _ _ Hd Hs H) as (Hk & _).
  unfold variable_tag_reader, tlv_variable_identifier_read in *.
  rewrite (vio_valid c Hc) in *. replace (is_null data) with false in * by (destruct data; done).
  cbn [andb] in *. rewrite is_ok_OK in *. cbn [negb] in *.
  destruct (is_ok (identifier_prefix c m data size)) eqn:Ep; cbn [negb] in H;
    [|simpl in H; injection H as H _ _; rewrite H in Ep; done].
  rewrite (identifier_prefix_shorter c m data size size') by (now apply is_ok_true || lia).
  rewrite is_ok_OK. cbn [negb]. destruct (size' =? 0) eqn:E0'; [done|].
  rewrite (proj2 (Z.eqb_neq size 0)) in H by lia.
  set (esc := Z.land (ld m data 0) (vi_inline_mask c) =? vi_escape c) in *. destruct esc.
  - destruct (identifier_scan c m data (Z.to_nat (size - 1)) 1) as [rc j] eqn:Es.
    assert (rc = TLV_OK /\ j = k) as [-> ->].
    { destruct (rc_eqb rc TLV_ERR_TRUNCATED) eqn:Et; [rc_simpl; done|].
      destruct (is_ok rc) eqn:Er; cbn [negb] in H; [|simpl in H; injection H as -> _ _; done].
      destruct (identifier_minimal c m data j); simpl in H; [|done].
      apply is_ok_true in Er. injection H as _ <-. done. }
    pose proof (identifier_scan_truncated c m data _ (Z.to_nat (size' - 1)) _ _ Es ltac:(lia)) as Ht.
    destruct (identifier_scan c m data (Z.to_nat (size' - 1)) 1) as [rc' j']. simpl in Ht. now subst rc'.
  - exfalso. cbn in H. destruct (identifier_minimal c m data 1); simpl in H; [|done].
    injection H as _ <-. lia.
Qed.

(** The identifiers a configuration accepts: the byte strings its reader consumes whole. *)
Definition identifier_admits (c : tlv_variable_identifier_t) (l : list Z) : bool :=
  let '(rc, _, k) := variable_tag_reader c (mem_of 1 l) (Ptr 1 0) (zlen l) empty_tag 0 in
  is_ok rc && (k =? zlen l).

Section VariableIdentifierAdmits.
Context (c : tlv_variable_identifier_t) (Hc : variable_identifier_ok c).

Lemma identifier_admits_read l : identifier_admits c l = true ->
  exists t, variable_tag_reader c (mem_of 1 l) (Ptr 1 0) (zlen l) empty_tag 0 = (TLV_OK, t, zlen l).
Proof using.
  unfold identifier_admits. destruct (variable_tag_reader _ _ _ _ _ _) as [[rc t] k].
  rewrite andb_true_iff, is_ok_true. intros [-> Hk]. exists t. do 2 f_equal. lia.
Qed.

Lemma identifier_admits_length l :
  identifier_admits c l = true -> 1 <= zlen l <= c.(vi_max_size).
Proof using Hc.
  intros Ha. destruct (identifier_admits_read l Ha) as (t & Hr).
  apply variable_tag_read_inv in Hr; try done; lia.
Qed.

Lemma identifier_admits_reads m data n size t0 c0 :
  0 <= n <= size -> data <> NULL -> identifier_admits c (bytes_of m data n) = true ->
  variable_tag_reader c m data size t0 c0 = (TLV_OK, tlv_tag data n, n).
Proof using Hc.
  intros Hn Hd Ha. destruct (identifier_admits_read _ Ha) as (t & Hr).
  rewrite length_bytes_of, Z2Nat.id in Hr by lia.
  apply variable_tag_read_inv in Hr as (_ & _ & _ & Hloc); try done; [|lia].
  apply Hloc; [done|lia|]. intros. now apply ld_mem_of_bytes_of.
Qed.

Lemma variable_tag_write_admitted m t data cap w0 :
  0 <= t.(t_size) -> (t.(t_data) = NULL -> t.(t_size) = 0) ->
  identifier_admits c (tag_bytes m t) = true -> is_null data && nz cap = false ->
  (is_null data = false -> t.(t_size) <= cap) ->
  variable_tag_writer c m t data cap w0 =
  (TLV_OK, if is_null data then m else memmove m data t.(t_data) t.(t_size), t.(t_size)).
Proof using Hc.
  intros Ht Hnull Ha Hd Hcap. pose proof (identifier_admits_length _ Ha) as Hlen.
  unfold tag_bytes in *. rewrite length_bytes_of, Z2Nat.id in Hlen by lia.
  assert (t_data t <> NULL) as Htd by (intros E; specialize (Hnull E); lia).
  pose proof (identifier_admits_reads m (t_data t) (t_size t) (t_size t) empty_tag 0 ltac:(lia) Htd Ha) as Hr.
  unfold variable_tag_writer, tlv_variable_identifier_write, variable_tag_reader in *.
  rewrite Hd. replace (is_null (t_data t)) with false by (destruct (t_data t); done). cbn [andb orb].
  rewrite (vio_valid c Hc), is_ok_OK. cbn [negb].
  replace ((t_size t =? 0) || (vi_max_size c <? t_size t)) with false by lia.
  destruct (tlv_variable_identifier_read _ _ _ _ _ _) as [[rc t'] k]. injection Hr as -> _ Hk.
  change (rc_eqb TLV_OK TLV_ERR_INVALID_TAG_SIZE) with false. rewrite is_ok_OK, Hk, Z.eqb_refl. cbn [negb orb].
  destruct k as [k|]; [|simpl in Hk; lia]. simpl in Hk. subst k.
  destruct (is_null data) eqn:En; cbn [negb andb]; [done|].
  rewrite (proj2 (Z.ltb_ge cap _)) by (specialize (Hcap eq_refl); lia). done.
Qed.
End VariableIdentifierAdmits.

#[export] Instance variable_tag_field `{Platform} (c : tlv_variable_identifier_t)
  (Hc : variable_identifier_ok c) (Hmax : c.(vi_max_size) <= SIZE_MAX)
  : TagField (variable_tag_reader c) (variable_tag_writer c).
Proof.
  refine {| tag_adm := identifier_admits c |}.
  - intros l Ha. apply identifier_admits_length in Ha; [lia|done].
  - intros m t w0 [Ht Hn] Ha. now rewrite variable_tag_write_admitted by (done || lia).
  - intros m t data cap w0 [Ht Hn] Ha Hd Hcap _. pose proof (tag_moved m data t Hd) as Hmove. destruct data; [done|].
    now rewrite variable_tag_write_admitted by (done || lia).
  - intros. now apply identifier_admits_reads.
  - intros m data size t0 c0 t k Hd Hs Hr. apply variable_tag_read_inv in Hr as (Hk & Hkm & -> & Hloc); try done; [|lia].
    split; [done|]. split; [done|]. unfold identifier_admits.
    rewrite length_bytes_of, Z2Nat.id by lia.
    rewrite Hloc; [|done|lia|intros; symmetry; now apply ld_mem_of_bytes_of].
    rewrite is_ok_OK. cbn [andb]. lia.
  - intros. now apply variable_tag_truncated with size t0 c0 t c1.
Defined.

(** ** Properties *)

(** A length the variable encoding can represent under its policy is written in the shortest form the
    policy allows, into exactly the octets reported, and read back unchanged from those octets; the
    reader and writer agree on the policy, the 64-bit overflow test and the minimal form. *)
Theorem variable_length_roundtrip (c : tlv_variable_length_t) (m : mem) (data : ptr)
  (n capacity size w0 n0 c0 : Z) (Hc : variable_length_ok c) (Hn : 0 <= n <= UINT64_MAX)
  (He : vl_encodable c n = true) (Hd : data <> NULL) (Hcap : vl_count c n + 1 <= capacity)
  (Hsize : vl_count c n + 1 <= size) :
  exists m', variable_length_writer c m n data capacity w0 = (TLV_OK, m', vl_count c n + 1) /\
    only_changes m m' data (vl_count c n + 1) /\
    bytes_of m' data (vl_count c n + 1) = variable_octets c n /\
    variable_length_reader c m' data size n0 c0 = (TLV_OK, n, vl_count c n + 1) /\
    (vl_long c n = true -> n < 256 ^ vl_count c n /\ (1 < vl_count c n -> 256 ^ (vl_count c n - 1) <= n)).
Proof.
  destruct (variable_write_data c Hc m n data capacity w0 Hn He Hd Hcap) as (m' & Hw & Ho & Hb).
  exists m'. repeat (split; [done|]). split.
  - pose proof (Zle_0_nat (length (variable_octets c n))) as H0.
    rewrite length_variable_octets in H0 by lia.
    apply variable_read_iff; try done; [lia|]. now apply variable_octets_accepted.
  - intros Hl. destruct (vl_count_long c n Hn Hl) as (_ & ? & ?). done.
Qed.

(** The DER-like configuration: short and long forms, minimal lengths required. *)
Definition example_variable_length : tlv_variable_length_t :=
  mk_variable_length 128 127 TLV_BYTE_ORDER_BIG_ENDIAN
    (Some (mk_length_policy 1 1 1 8 UINT64_MAX)).

Lemma example_variable_length_ok : variable_length_ok example_variable_length.
Proof. split; simpl; try lia; [intros p [= <-]; simpl; lia|reflexivity]. Qed.

Lemma variable_length_roundtrip_witness :
  exists m', variable_length_writer example_variable_length (mem_of 1 []) 300 (Ptr 1 0) 16 0 =
               (TLV_OK, m', 3) /\
  bytes_of m' (Ptr 1 0) 3 = [130; 1; 44] /\
  variable_length_reader example_variable_length m' (Ptr 1 0) 9 0 0 = (TLV_OK, 300, 3).
Proof.
  destruct (variable_length_roundtrip example_variable_length (mem_of 1 []) (Ptr 1 0) 300 16 9 0 0 0
    example_variable_length_ok ltac:(lia) eq_refl ltac:(congruence) ltac:(vm_compute; congruence)
    ltac:(vm_compute; congruence)) as (m' & Hw & _ & Hb & Hr & _).
  exists m'. split; [exact Hw|]. split; [exact Hb|exact Hr].
Defined.

(** An identifier read from any input is a nonempty prefix of it no longer than the configured
    maximum; the reading is decided by those octets alone, so that it survives any other tail or
    memory, and the writer sizes and copies exactly the octets the reader accepts. *)
Theorem variable_identifier_stable (c : tlv_variable_identifier_t) (m : mem) (data out : ptr)
  (size capacity : Z) (t0 t : tlv_tag_t) (c0 k w0 : Z) (Hc : variable_identifier_ok c)
  (Hd : data <> NULL) (Ho : out <> NULL) (Hs : 0 <= size)
  (Hread : variable_tag_reader c m data size t0 c0 = (TLV_OK, t, k)) (Hcap : k <= capacity) :
  1 <= k <= size /\ k <= c.(vi_max_size) /\ t = tlv_tag data k /\
  variable_tag_writer c m t NULL 0 w0 = (TLV_OK, m, k) /\
  exists m', variable_tag_writer c m t out capacity w0 = (TLV_OK, m', k) /\
    bytes_of m' out k = bytes_of m data k /\ only_changes m m' out k /\
    forall size', k <= size' -> variable_tag_reader c m' out size' t0 c0 = (TLV_OK, tlv_tag out k, k).
Proof.
  apply variable_tag_read_inv in Hread as (Hk & Hkm & -> & Hloc); try done.
  repeat (split; [done|]).
  assert (identifier_admits c (bytes_of m data k) = true) as Ha.
  { unfold identifier_admits. rewrite length_bytes_of, Z2Nat.id by lia.
    rewrite Hloc; [|done|lia|intros; symmetry; now apply ld_mem_of_bytes_of].
    rewrite is_ok_OK. cbn [andb]. lia. }
  assert (is_null out = false) as Hnull by (destruct out; done).
  split.
  - now rewrite variable_tag_write_admitted by (done || simpl; lia).
  - eexists. rewrite variable_tag_write_admitted, Hnull by (done || (simpl; lia) || rewrite Hnull; done).
    split; [done|]. simpl. pose proof (bytes_of_memmove m out data k Hnull) as Hb.
    split; [done|]. split; [apply memmove_only|].
    intros size' Hs'. apply identifier_admits_reads; try done; [lia|]. now rewrite Hb.
Qed.

(** A BER-like identifier: five inline bits, continuation octets behind the escape 31. *)
Definition example_variable_identifier : tlv_variable_identifier_t :=
  mk_variable_identifier 31 31 128 127 4 (Some (mk_identifier_policy None 0 1 1)).

Lemma example_variable_identifier_ok : variable_identifier_ok example_variable_identifier.
Proof. split; [simpl; lia|reflexivity]. Qed.

Lemma variable_identifier_stable_witness :
  exists m', variable_tag_writer example_variable_identifier (mem_of 1 [95; 129; 5; 7]) (tlv_tag (Ptr 1 0) 3)
               (Ptr 2 0) 3 0 = (TLV_OK, m', 3) /\
  bytes_of m' (Ptr 2 0) 3 = [95; 129; 5].
Proof.
  destruct (variable_identifier_stable example_variable_identifier (mem_of 1 [95; 129; 5; 7]) (Ptr 1 0)
    (Ptr 2 0) 4 3 empty_tag (tlv_tag (Ptr 1 0) 3) 0 3 0 example_variable_identifier_ok ltac:(congruence)
    ltac:(congruence) ltac:(lia) eq_refl ltac:(lia)) as (_ & _ & _ & _ & m' & Hw & Hb & _).
  exists m'. split; [exact Hw|exact Hb].
Defined.
