(* ===== verification/WireFormat.v ===== *)
(** * Interfaces of a wire format

    [DecodeLaws] is what a decode callback promises the format layer and, through it, the Reader: its
    results pass the format checks, are decided by the octets of the element alone, and every proper
    prefix of an element is truncated.  [CodecLaws] relates an encoder to its decoder through the wire
    octets of an element.  The format components prove instances; the Reader and Writer theorems use
    only the classes. *)

From S2P Require Import Prelude Mem Core Format.

Class DecodeLaws `{Platform} (decode : tlv_decode_fn) := {
  dl_typed : decode_typed decode;
  dl_valid : forall m data size d e, data <> NULL -> 1 <= size <= SIZE_MAX ->
    decode m data size no_decoded no_error = (TLV_OK, d, e) -> decoded_valid d data size = true;
  dl_local : forall m m' data size size' d e, data <> NULL -> 1 <= size <= SIZE_MAX ->
    1 <= size' <= SIZE_MAX -> decode m data size no_decoded no_error = (TLV_OK, d, e) ->
    d.(d_source).(s_size) <= size' -> same_bytes m m' data d.(d_source).(s_size) ->
    decode m' data size' no_decoded no_error = (TLV_OK, d, e);
  dl_truncated : forall m data size size' d e, data <> NULL -> 1 <= size <= SIZE_MAX ->
    decode m data size no_decoded no_error = (TLV_OK, d, e) -> 1 <= size' < d.(d_source).(s_size) ->
    fst (fst (decode m data size' no_decoded no_error)) = TLV_ERR_TRUNCATED
}.

(** The published form of a decoded element. *)
Definition publish (f : tlv_format_t) (data : ptr) (d : tlv_decoded_t) : tlv_decoded_t :=
  let s := d.(d_source) in
  mk_decoded d.(d_element)
    (mk_source data s.(s_size) s.(s_header) s.(s_tag) s.(s_length) s.(s_value) s.(s_trailer)
       d.(d_element) f.(f_self) s.(s_tag_binding)).

Section Decoding.
Context `{Platform} (f : tlv_format_t) (decode : tlv_decode_fn) (Hf : f.(f_decode) = Some decode)
  `{!DecodeLaws decode}.

Lemma format_decode_unfold m data size d0 e0 :
  data <> NULL -> 1 <= size <= SIZE_MAX ->
  tlv_format_decode (Some f) m data size (Some d0) e0 =
  let '(rc, d, detail) := decode m data size no_decoded no_error in
  let rc := tlv_callback_result rc false in
  let rc := if rc_eqb rc TLV_ERR_BUFFER_TOO_SHORT then TLV_ERR_CALLBACK else rc in
  if is_ok rc then (TLV_OK, Some (publish f data d), e0)
  else (rc, Some d0, put_error e0 (clip_error detail size)).
Proof using Hf DecodeLaws0.
  intros Hd Hs. unfold tlv_format_decode. rewrite Hf.
  replace (is_null data) with false by (destruct data; done). cbn [andb].
  rewrite (proj2 (Z.eqb_neq size 0)) by lia.
  destruct (decode m data size no_decoded no_error) as [[rc d] detail] eqn:E. cbv zeta.
  set (rc2 := if rc_eqb (tlv_callback_result rc false) TLV_ERR_BUFFER_TOO_SHORT then _ else _).
  destruct (is_ok rc2) eqn:Eok; cbn [andb].
  - assert (rc = TLV_OK) as ->.
    { unfold rc2 in Eok. destruct (rc_eqb _ _) in Eok; [done|].
      apply (callback_result_ok rc false). now apply is_ok_true. }
    rewrite (dl_valid m data size d detail) by done. cbn [negb]. rewrite Eok. done.
  - rewrite Eok. done.
Qed.

Lemma format_decode_ok m data size d0 e0 d e :
  data <> NULL -> 1 <= size <= SIZE_MAX ->
  tlv_format_decode (Some f) m data size (Some d0) e0 = (TLV_OK, Some d, e) ->
  e = e0 /\ exists c ce, decode m data size no_decoded no_error = (TLV_OK, c, ce) /\ d = publish f data c.
Proof using Hf DecodeLaws0.
  intros Hd Hs E. rewrite format_decode_unfold in E by done.
  destruct (decode m data size no_decoded no_error) as [[rc c] detail] eqn:Ed. cbv zeta in E.
  set (rc2 := if rc_eqb (tlv_callback_result rc false) TLV_ERR_BUFFER_TOO_SHORT then _ else _) in E.
  destruct (is_ok rc2) eqn:Eok; [|injection E as E _ _; rewrite E in Eok; done].
  injection E as <- <-. split; [done|]. exists c, detail. split; [|done]. do 2 f_equal.
  unfold rc2 in Eok. destruct (rc_eqb _ _) in Eok; [done|].
  apply (callback_result_ok rc false). now apply is_ok_true.
Qed.

(** An element is decided by its own octets. *)
Lemma format_decode_local m m' data size size' d0 e0 d e d0' e0' :
  data <> NULL -> 1 <= size <= SIZE_MAX -> 1 <= size' <= SIZE_MAX ->
  tlv_format_decode (Some f) m data size (Some d0) e0 = (TLV_OK, Some d, e) ->
  d.(d_source).(s_size) <= size' -> same_bytes m m' data d.(d_source).(s_size) ->
  tlv_format_decode (Some f) m' data size' (Some d0') e0' = (TLV_OK, Some d, e0').
Proof using Hf DecodeLaws0.
  intros Hd Hs Hs' E Hle Hsame. apply format_decode_ok in E as (_ & c & ce & E & ->); try done.
  rewrite format_decode_unfold by done.
  now rewrite (dl_local m m' data size size' c ce Hd Hs Hs' E Hle Hsame).
Qed.

(** A proper prefix of an element is truncated. *)
Lemma format_decode_truncated m data size size' d0 e0 d e d0' e0' :
  data <> NULL -> 1 <= size <= SIZE_MAX ->
  tlv_format_decode (Some f) m data size (Some d0) e0 = (TLV_OK, Some d, e) ->
  1 <= size' < d.(d_source).(s_size) -> size' <= SIZE_MAX ->
  exists e1, tlv_format_decode (Some f) m data size' (Some d0') e0' = (TLV_ERR_TRUNCATED, Some d0', put_error e0' e1).
Proof using Hf DecodeLaws0.
  intros Hd Hs E Hlt Hs'. apply format_decode_ok in E as (_ & c & ce & E & ->); try done.
  rewrite format_decode_unfold by (done || lia).
  pose proof (dl_truncated m data size size' c ce Hd Hs E Hlt) as Ht.
  destruct (decode m data size' no_decoded no_error) as [[rc c'] detail]. simpl in Ht. subst rc.
  eexists. reflexivity.
Qed.
End Decoding.

(** The octets of an element: its tag and value octets, and the octets that encode them. *)
Definition element_ok `{Platform} (e : tlv_element_t) : Prop := tag_ok e.(e_tag) /\ value_ok e.(e_value).

(** The element's storage is disjoint from [n] octets at [data]. *)
Definition element_apart (e : tlv_element_t) (data : ptr) (n : Z) : Prop :=
  disjoint_range data n e.(e_tag).(t_data) e.(e_tag).(t_size) /\
  disjoint_range data n e.(e_value).(v_data) e.(e_value).(v_size).

Class CodecLaws `{Platform} (f : tlv_format_t) := {
  cl_wire : list Z -> list Z -> option (list Z);
  cl_wire_length : forall tag value w, cl_wire tag value = Some w -> 1 <= zlen w;
  cl_encode : forall m e data capacity w0 e0 w, element_ok e -> data <> NULL -> capacity <= SIZE_MAX ->
    cl_wire (tag_bytes m e.(e_tag)) (value_bytes m e.(e_value)) = Some w -> zlen w <= capacity ->
    element_apart e data (zlen w) ->
    exists m', tlv_format_encode (Some f) m (Some e) data capacity (Some w0) e0 =
                 (TLV_OK, m', Some (zlen w), e0) /\
      only_changes m m' data (zlen w) /\ bytes_of m' data (zlen w) = w;
  cl_decode : forall m data size d0 e0 tag value w, data <> NULL -> size <= SIZE_MAX ->
    cl_wire tag value = Some w -> zlen w <= size -> bytes_of m data (zlen w) = w ->
    exists d, tlv_format_decode (Some f) m data size (Some d0) e0 = (TLV_OK, Some d, e0) /\
      d.(d_source).(s_size) = zlen w /\
      tag_bytes m d.(d_element).(e_tag) = tag /\ value_bytes m d.(d_element).(e_value) = value
}.

(** Encoding then decoding, with any bytes behind the element. *)
Lemma codec_roundtrip `{Platform} (f : tlv_format_t) `{!CodecLaws f} m e data capacity size w0 e0 d0 e1 w :
  element_ok e -> data <> NULL -> capacity <= SIZE_MAX -> size <= SIZE_MAX ->
  cl_wire (tag_bytes m e.(e_tag)) (value_bytes m e.(e_value)) = Some w ->
  zlen w <= capacity -> zlen w <= size -> element_apart e data (zlen w) ->
  exists m' d, tlv_format_encode (Some f) m (Some e) data capacity (Some w0) e0 =
                 (TLV_OK, m', Some (zlen w), e0) /\
    only_changes m m' data (zlen w) /\ bytes_of m' data (zlen w) = w /\
    tlv_format_decode (Some f) m' data size (Some d0) e1 = (TLV_OK, Some d, e1) /\
    d.(d_source).(s_size) = zlen w /\
    tag_bytes m' d.(d_element).(e_tag) = tag_bytes m e.(e_tag) /\
    value_bytes m' d.(d_element).(e_value) = value_bytes m e.(e_value).
Proof.
  intros He Hd Hc Hs Hw Hcap Hsz Hap.
  destruct (cl_encode m e data capacity w0 e0 w He Hd Hc Hw Hcap Hap) as (m' & Henc & Ho & Hb).
  destruct (cl_decode m' data size d0 e1 _ _ w Hd Hs Hw Hsz Hb) as (d & Hdec & ?).
  exists m', d. done.
Qed.
