(* ===== verification/Compose.v ===== *)
(** * Composition of field codecs into a format (formats/compose.h, src/formats/compose.c)

    A composition is a record of field codecs, each closed over its context; [None] is a NULL
    callback.  The format's callbacks walk the two header fields in the configured order, normalize a
    count that includes the identifier, and bound the value and the trailer by the input. *)

From S2P Require Import Prelude Mem Core Endian Format FieldFixed.

Inductive tlv_element_order_t : Type :=
| TLV_ELEMENT_ORDER_TLV | TLV_ELEMENT_ORDER_LTV | TLV_ELEMENT_ORDER_OTHER (n : Z).
Inductive tlv_length_scope_t : Type :=
| TLV_LENGTH_SCOPE_VALUE | TLV_LENGTH_SCOPE_TAG_AND_VALUE | TLV_LENGTH_SCOPE_OTHER (n : Z).

Definition is_tlv (o : tlv_element_order_t) : bool :=
  match o with TLV_ELEMENT_ORDER_TLV => true | _ => false end.
Definition is_ltv (o : tlv_element_order_t) : bool :=
  match o with TLV_ELEMENT_ORDER_LTV => true | _ => false end.
Definition is_value_scope (s : tlv_length_scope_t) : bool :=
  match s with TLV_LENGTH_SCOPE_VALUE => true | _ => false end.
Definition is_tag_scope (s : tlv_length_scope_t) : bool :=
  match s with TLV_LENGTH_SCOPE_TAG_AND_VALUE => true | _ => false end.

(** Out-parameters: length extent, value size, trailer size, error. *)
Definition tlv_resolve_bounds_fn : Type :=
  mem -> tlv_tag_t -> ptr -> Z -> Z -> Z -> Z -> tlv_format_error_t ->
  tlv_result_t * Z * Z * Z * tlv_format_error_t.

Record tlv_field_composition_t := mk_fields {
  fc_read_tag : option tlv_read_tag_fn;
  fc_read_length : option tlv_read_length_fn;
  fc_resolve : option tlv_resolve_bounds_fn;
  fc_write_tag : option tlv_write_tag_fn;
  fc_write_length : option tlv_write_length_fn;
  fc_element_order : tlv_element_order_t;
  fc_length_scope : tlv_length_scope_t }.

(** Calls through the callback members.  The C code never calls a NULL member of a composition its
    initializer accepted; the value given to that case is arbitrary. *)
Definition call_read_tag (f : tlv_field_composition_t) : tlv_read_tag_fn :=
  match f.(fc_read_tag) with Some g => g | None => fun _ _ _ t u => (TLV_ERR_CALLBACK, t, u) end.
Definition call_read_length (f : tlv_field_composition_t) : tlv_read_length_fn :=
  match f.(fc_read_length) with Some g => g | None => fun _ _ _ n u => (TLV_ERR_CALLBACK, n, u) end.
Definition call_write_tag (f : tlv_field_composition_t) : tlv_write_tag_fn :=
  match f.(fc_write_tag) with Some g => g | None => fun m _ _ _ w => (TLV_ERR_CALLBACK, m, w) end.
Definition call_write_length (f : tlv_field_composition_t) : tlv_write_length_fn :=
  match f.(fc_write_length) with Some g => g | None => fun m _ _ _ w => (TLV_ERR_CALLBACK, m, w) end.

Definition range (offset size : Z) : tlv_range_t := mk_range offset size true.

Definition available (offset used size : Z) : tlv_range_t :=
  range offset (if used <=? size - offset then used else size - offset).

(** [failure]: the detail it leaves in the error. *)
Definition failure (e : tlv_format_error_t) (region : tlv_region_t) (offset : Z) : tlv_format_error_t :=
  mk_ferr region offset true e.(fe_required) e.(fe_has_required) e.(fe_tag) e.(fe_length) e.(fe_value).

Definition fields_failure (e : tlv_format_error_t) (result : tlv_decoded_t) (region : tlv_region_t)
  (offset : Z) : tlv_format_error_t :=
  failure (mk_ferr e.(fe_region) e.(fe_offset) e.(fe_has_offset) e.(fe_required) e.(fe_has_required)
             result.(d_source).(s_tag) result.(d_source).(s_length) e.(fe_value)) region offset.

Definition read_result (rc : tlv_result_t) : tlv_result_t :=
  let rc := tlv_callback_result rc false in
  if rc_eqb rc TLV_ERR_BUFFER_TOO_SHORT then TLV_ERR_CALLBACK else rc.

(** Assignments to members of the decoded result. *)
Definition set_source_tag (r : tlv_range_t) (d : tlv_decoded_t) : tlv_decoded_t :=
  let s := d.(d_source) in
  mk_decoded d.(d_element) (mk_source s.(s_data) s.(s_size) s.(s_header) r s.(s_length) s.(s_value)
    s.(s_trailer) s.(s_element) s.(s_format) s.(s_tag_binding)).
Definition set_source_length (r : tlv_range_t) (d : tlv_decoded_t) : tlv_decoded_t :=
  let s := d.(d_source) in
  mk_decoded d.(d_element) (mk_source s.(s_data) s.(s_size) s.(s_header) s.(s_tag) r s.(s_value)
    s.(s_trailer) s.(s_element) s.(s_format) s.(s_tag_binding)).
Definition set_layout (e : tlv_element_t) (size : Z) (header tag length value trailer : tlv_range_t)
  (d : tlv_decoded_t) : tlv_decoded_t :=
  let s := d.(d_source) in
  mk_decoded e (mk_source s.(s_data) size header tag length value trailer s.(s_element) s.(s_format)
    s.(s_tag_binding)).

(** The error's [required] member. *)
Definition set_required (n : Z) (e : tlv_format_error_t) : tlv_format_error_t :=
  mk_ferr e.(fe_region) e.(fe_offset) e.(fe_has_offset) n true e.(fe_tag) e.(fe_length) e.(fe_value).
Definition set_error_value (r : tlv_range_t) (e : tlv_format_error_t) : tlv_format_error_t :=
  mk_ferr e.(fe_region) e.(fe_offset) e.(fe_has_offset) e.(fe_required) e.(fe_has_required) e.(fe_tag)
    e.(fe_length) r.

(** ** Decoding *)

(** The local variables of [tlv_fields_decode] between the two steps of its loop. *)
Record fields_state := mk_fs {
  fs_tag : tlv_tag_t; fs_length : Z; fs_pos : Z; fs_tag_size : Z; fs_length_size : Z;
  fs_trailer : Z; fs_result : tlv_decoded_t }.

(** A step returns from the function, or goes on with the next state. *)
Definition decode_return : Type := tlv_result_t * tlv_decoded_t * tlv_format_error_t.

Definition decode_identifier (f : tlv_field_composition_t) (m : mem) (data : ptr) (size : Z)
  (error : tlv_format_error_t) (s : fields_state) : decode_return + fields_state :=
  let pos := s.(fs_pos) in
  let '(rc, tag, tag_size) :=
    call_read_tag f m (data +p pos) (size - pos) s.(fs_tag) s.(fs_tag_size) in
  let rc := read_result rc in
  let rc := if is_ok rc && ((tag_size =? 0) || (size - pos <? tag_size) ||
                            (negb (tag.(t_size) =? 0) && is_null tag.(t_data)))
            then TLV_ERR_CALLBACK else rc in
  if negb (is_ok rc) then
    inl (rc, s.(fs_result), fields_failure error s.(fs_result) TLV_REGION_TAG pos)
  else
    inr (mk_fs tag s.(fs_length) (pos + tag_size) tag_size s.(fs_length_size) s.(fs_trailer)
           (set_source_tag (range pos tag_size) s.(fs_result))).

Definition decode_length (f : tlv_field_composition_t) `{Platform} (m : mem) (data : ptr) (size : Z)
  (error : tlv_format_error_t) (s : fields_state) : decode_return + fields_state :=
  let pos := s.(fs_pos) in
  let finish rc length length_size trailer :=
    let result := set_source_length (available pos length_size size) s.(fs_result) in
    let rc := if is_ok rc && (size - pos <? length_size) then TLV_ERR_CALLBACK else rc in
    let rc := if is_ok rc && is_tag_scope f.(fc_length_scope) && (length =? 0)
              then TLV_ERR_INVALID_LENGTH else rc in
    if negb (is_ok rc) then (inl (rc, result, fields_failure error result TLV_REGION_LENGTH pos))
    else inr (mk_fs s.(fs_tag) length (pos + length_size) s.(fs_tag_size) length_size trailer result) in
  match f.(fc_resolve) with
  | Some resolve =>
      let '(rc, length_size, length, trailer, resolved) :=
        resolve m s.(fs_tag) (data +p pos) (size - pos) s.(fs_length_size) s.(fs_length)
          s.(fs_trailer) no_error in
      let rc := read_result rc in
      if negb (is_ok rc) then
        let result := set_source_length (available pos length_size size) s.(fs_result) in
        let error := fields_failure error result TLV_REGION_LENGTH pos in
        let error :=
          if resolved.(fe_has_offset) then
            mk_ferr resolved.(fe_region) (usize (pos + resolved.(fe_offset))) error.(fe_has_offset)
              resolved.(fe_required) resolved.(fe_has_required) error.(fe_tag) error.(fe_length)
              error.(fe_value)
          else error in
        inl (rc, result, error)
      else finish rc length length_size trailer
  | None =>
      let '(rc, length, length_size) :=
        call_read_length f m (data +p pos) (size - pos) s.(fs_length) s.(fs_length_size) in
      finish (read_result rc) length length_size s.(fs_trailer)
  end.

(** Sequencing of the steps. *)
Definition bind_step {A} (r : decode_return + A) (k : A -> decode_return) : decode_return :=
  match r with inl x => x | inr a => k a end.

(** After the loop: the count without the identifier, then the bounds of value and trailer. *)
Definition decode_value (f : tlv_field_composition_t) `{Platform} (data : ptr) (size : Z)
  (error : tlv_format_error_t) (s : fields_state) : decode_return :=
  let pos := s.(fs_pos) in
  let result := s.(fs_result) in
  if is_tag_scope f.(fc_length_scope) && (s.(fs_length) <? s.(fs_tag_size)) then
    (TLV_ERR_INVALID_LENGTH, result,
     fields_failure error result TLV_REGION_LENGTH result.(d_source).(s_length).(r_offset))
  else
    let length := if is_tag_scope f.(fc_length_scope) then s.(fs_length) - s.(fs_tag_size)
                  else s.(fs_length) in
    if size - pos <? length then
      (TLV_ERR_TRUNCATED, result,
       fields_failure (set_required length error) result TLV_REGION_VALUE pos)
    else
      let native := usize length in
      if size - pos - native <? s.(fs_trailer) then
        (TLV_ERR_TRUNCATED, result,
         fields_failure (set_error_value (range pos native) (set_required s.(fs_trailer) error)) result
           TLV_REGION_TRAILER (pos + native))
      else
        (TLV_OK,
         set_layout (mk_element s.(fs_tag) (mk_value (data +p pos) length))
           (pos + native + s.(fs_trailer)) (range 0 pos) result.(d_source).(s_tag)
           result.(d_source).(s_length) (range pos native) (range (pos + native) s.(fs_trailer)) result,
         error).

Definition tlv_fields_decode `{Platform} (f : tlv_field_composition_t) : tlv_decode_fn :=
  fun m data size result error =>
    let s := mk_fs empty_tag 0 0 0 0 0 result in
    if is_tlv f.(fc_element_order) then
      bind_step (decode_identifier f m data size error s) (fun s =>
      bind_step (decode_length f m data size error s) (fun s =>
      decode_value f data size error s))
    else
      bind_step (decode_length f m data size error s) (fun s =>
      bind_step (decode_identifier f m data size error s) (fun s =>
      decode_value f data size error s)).

(** ** Measuring and encoding *)

Definition length_offset (f : tlv_field_composition_t) (tag_size : Z) : Z :=
  if is_tlv f.(fc_element_order) then tag_size else 0.

(** The out-parameters [tag_size], [length_size] and [count], with the memory the sizing calls
    leave. *)
Definition field_sizes (f : tlv_field_composition_t) (m : mem) (element : tlv_element_t)
  (error : tlv_format_error_t)
  : tlv_result_t * mem * (Z * Z * Z) * tlv_format_error_t :=
  let '(rc, m, tag_size) := call_write_tag f m element.(e_tag) NULL 0 0 in
  let rc := tlv_callback_result rc false in
  let rc := if is_ok rc && (tag_size =? 0) then TLV_ERR_CALLBACK else rc in
  if negb (is_ok rc) then (rc, m, (tag_size, 0, 0), failure error TLV_REGION_TAG 0)
  else
    let count := element.(e_value).(v_size) in
    let '(rc, count) :=
      if is_tag_scope f.(fc_length_scope) then
        let '(rc, sum) := tlv_size_add count tag_size (Some count) in (rc, cell count sum)
      else (TLV_OK, count) in
    let '(rc, m, length_size) :=
      if is_ok rc then
        let '(rc, m, length_size) := call_write_length f m count NULL 0 0 in
        (tlv_callback_result rc false, m, length_size)
      else (rc, m, 0) in
    if is_ok rc then (TLV_OK, m, (tag_size, length_size, count), error)
    else (rc, m, (tag_size, length_size, count),
          failure error TLV_REGION_LENGTH (length_offset f tag_size)).

Definition tlv_fields_measure (f : tlv_field_composition_t) : tlv_measure_fn :=
  fun m element encoding error =>
    let '(rc, _, (t, l, count), error) := field_sizes f m element error in
    if negb (is_ok rc) then (rc, encoding, error)
    else
      let '(rc, header) := tlv_size_add t l (Some encoding.(en_header)) in
      let encoding := mk_encoding (cell 0 header) encoding.(en_value) encoding.(en_trailer)
                        encoding.(en_total) in
      let '(rc, encoding) :=
        if is_ok rc then
          let v := element.(e_value).(v_size) in
          let '(rc, total) := tlv_size_add encoding.(en_header) v (Some encoding.(en_total)) in
          (rc, mk_encoding encoding.(en_header) v 0 (cell 0 total))
        else (rc, encoding) in
      if is_ok rc then (TLV_OK, encoding, error)
      else (rc, encoding, failure error TLV_REGION_LENGTH (length_offset f t)).

Definition tlv_fields_encode `{Platform} (f : tlv_field_composition_t) : tlv_encode_fn :=
  fun m element data capacity written error =>
    let '(rc, m, (t, l, count), error) := field_sizes f m element error in
    if negb (is_ok rc) then (rc, m, written, error) else
    let to := if is_tlv f.(fc_element_order) then 0 else l in
    let lo := length_offset f t in
    let '(rc, v) := tlv_size_to_native element.(e_value).(v_size) (Some 0) in
    let v := cell 0 v in
    let rc := if is_ok rc && ((capacity <? t) || (capacity - t <? l) || (capacity - t - l <? v))
              then TLV_ERR_BUFFER_TOO_SHORT else rc in
    if negb (is_ok rc) then (rc, m, written, failure error TLV_REGION_LENGTH lo) else
    let '(rc, m, used) := call_write_tag f m element.(e_tag) (data +p to) t 0 in
    let rc := tlv_callback_result rc false in
    let rc := if is_ok rc && negb (used =? t) then TLV_ERR_CALLBACK else rc in
    if negb (is_ok rc) then (rc, m, written, failure error TLV_REGION_TAG to) else
    let '(rc, m, used) := call_write_length f m count (data +p lo) l used in
    let rc := tlv_callback_result rc false in
    let rc := if is_ok rc && negb (used =? l) then TLV_ERR_CALLBACK else rc in
    if negb (is_ok rc) then (rc, m, written, failure error TLV_REGION_LENGTH lo) else
    let m := if negb (v =? 0) then memcpy m (data +p (t + l)) element.(e_value).(v_data) v else m in
    (TLV_OK, m, t + l + v, error).

Definition tlv_fields_format_init `{Platform} (format : option tlv_format_t) (self : ptr)
  (composition : option tlv_field_composition_t) : tlv_result_t * option tlv_format_t :=
  match composition with
  | None => (TLV_ERR_INVALID_ARG, format)
  | Some f =>
      if (negb (is_tlv f.(fc_element_order)) && negb (is_ltv f.(fc_element_order))) ||
         (negb (is_value_scope f.(fc_length_scope)) && negb (is_tag_scope f.(fc_length_scope))) ||
         (is_some f.(fc_resolve) &&
          (negb (is_tlv f.(fc_element_order)) || negb (is_value_scope f.(fc_length_scope))))
      then (TLV_ERR_INVALID_ARG, format)
      else
        let read := is_some f.(fc_read_tag) || is_some f.(fc_read_length) || is_some f.(fc_resolve) in
        let write := is_some f.(fc_write_tag) || is_some f.(fc_write_length) in
        if (read && negb (is_some f.(fc_read_tag) && is_some f.(fc_read_length))) ||
           (write && negb (is_some f.(fc_write_tag) && is_some f.(fc_write_length)))
        then (TLV_ERR_INVALID_ARG, format)
        else
          tlv_format_init format self (if read then Some (tlv_fields_decode f) else None)
            (if write then Some (tlv_fields_measure f) else None)
            (if write then Some (tlv_fields_encode f) else None)
  end.

(** ** Fixed-width binary fields *)

Record tlv_binary_composition_t := mk_binary {
  bc_identifier : tlv_fixed_identifier_t; bc_length : tlv_fixed_length_t;
  bc_element_order : tlv_element_order_t; bc_length_scope : tlv_length_scope_t }.

Definition binary_tag_read (f : tlv_binary_composition_t) : tlv_read_tag_fn :=
  fixed_tag_reader f.(bc_identifier).
Definition binary_tag_write (f : tlv_binary_composition_t) : tlv_write_tag_fn :=
  fixed_tag_writer f.(bc_identifier).
Definition binary_length_read (f : tlv_binary_composition_t) : tlv_read_length_fn :=
  fixed_length_reader f.(bc_length).
Definition binary_length_write (f : tlv_binary_composition_t) : tlv_write_length_fn :=
  fixed_length_writer f.(bc_length).

Definition binary_fields (f : tlv_binary_composition_t) : tlv_field_composition_t :=
  mk_fields (Some (binary_tag_read f)) (Some (binary_length_read f)) None
    (Some (binary_tag_write f)) (Some (binary_length_write f)) f.(bc_element_order)
    f.(bc_length_scope).

(** [error->required] of a truncated header field: the field's fixed width. *)
Definition binary_required (f : tlv_binary_composition_t) (rc : tlv_result_t)
  (error : tlv_format_error_t) : tlv_format_error_t :=
  if rc_eqb rc TLV_ERR_TRUNCATED &&
     (region_is error.(fe_region) TLV_REGION_TAG || region_is error.(fe_region) TLV_REGION_LENGTH) then
    set_required (if region_is error.(fe_region) TLV_REGION_TAG then f.(bc_identifier).(fi_size)
                  else f.(bc_length).(fl_size)) error
  else error.

Definition tlv_binary_decode `{Platform} (f : tlv_binary_composition_t) : tlv_decode_fn :=
  fun m data size result error =>
    let '(rc, result, error) := tlv_fields_decode (binary_fields f) m data size result error in
    (rc, result, binary_required f rc error).
Definition tlv_binary_measure (f : tlv_binary_composition_t) : tlv_measure_fn :=
  tlv_fields_measure (binary_fields f).
Definition tlv_binary_encode `{Platform} (f : tlv_binary_composition_t) : tlv_encode_fn :=
  tlv_fields_encode (binary_fields f).

(** ** Identifier-selected framing: listed tags carry neither length nor value *)

Record tlv_tagged_fields_composition_t := mk_tagged {
  tf_fields : tlv_field_composition_t; tf_tag_only : option (list tlv_tag_t); tf_count : Z }.

Definition tag_table (tag_only : option (list tlv_tag_t)) (count : Z) : list tlv_tag_t :=
  firstn (Z.to_nat count) (cell [] tag_only).

Definition tagged_fields_tag_only (m : mem) (f : tlv_tagged_fields_composition_t) (tag : tlv_tag_t)
  : bool := existsb (tlv_tag_equal m tag) (tag_table f.(tf_tag_only) f.(tf_count)).

Definition tlv_tagged_fields_decode `{Platform} (f : tlv_tagged_fields_composition_t)
  : tlv_decode_fn :=
  fun m data size result error =>
    let '(rc, tag, width) := call_read_tag f.(tf_fields) m data size empty_tag 0 in
    let rc := read_result rc in
    let rc := if is_ok rc && ((width =? 0) || (size <? width) ||
                              (negb (tag.(t_size) =? 0) && is_null tag.(t_data)))
              then TLV_ERR_CALLBACK else rc in
    if negb (is_ok rc) then (rc, result, failure error TLV_REGION_TAG 0)
    else if negb (tagged_fields_tag_only m f tag) then
      tlv_fields_decode f.(tf_fields) m data size result error
    else
      (TLV_OK,
       set_layout (mk_element tag (mk_value (data +p width) 0)) width (range 0 width) (range 0 width)
         no_range (range width 0) (range width 0) result, error).

Definition tlv_tagged_fields_measure (f : tlv_tagged_fields_composition_t) : tlv_measure_fn :=
  fun m element encoding error =>
    let '(rc, _, width) := call_write_tag f.(tf_fields) m element.(e_tag) NULL 0 0 in
    let rc := tlv_callback_result rc false in
    let rc := if is_ok rc && (width =? 0) then TLV_ERR_CALLBACK else rc in
    if negb (is_ok rc) then (rc, encoding, failure error TLV_REGION_TAG 0)
    else if negb (tagged_fields_tag_only m f element.(e_tag)) then
      tlv_fields_measure f.(tf_fields) m element encoding error
    else if negb (element.(e_value).(v_size) =? 0) then
      (TLV_ERR_INVALID_LENGTH, encoding, failure (set_required 0 error) TLV_REGION_VALUE width)
    else (TLV_OK, mk_encoding width 0 0 width, error).

Definition tlv_tagged_fields_encode `{Platform} (f : tlv_tagged_fields_composition_t)
  : tlv_encode_fn :=
  fun m element data capacity written error =>
    let '(rc, encoding, error) := tlv_tagged_fields_measure f m element no_encoding error in
    if negb (is_ok rc) then (rc, m, written, error)
    else if negb (tagged_fields_tag_only m f element.(e_tag)) then
      tlv_fields_encode f.(tf_fields) m element data capacity written error
    else
      let '(rc, m, written) :=
        if capacity <? encoding.(en_total) then (TLV_ERR_BUFFER_TOO_SHORT, m, written)
        else call_write_tag f.(tf_fields) m element.(e_tag) data capacity written in
      if is_ok rc then (TLV_OK, m, written, error)
      else (rc, m, written, failure error TLV_REGION_TAG 0).

(** The table entries are encodable: the first failure, or [TLV_OK]. *)
Fixpoint check_tag_table (f : tlv_field_composition_t) (m : mem) (table : list tlv_tag_t)
  : tlv_result_t :=
  match table with
  | [] => TLV_OK
  | tag :: table =>
      if (tag.(t_size) =? 0) || is_null tag.(t_data) then TLV_ERR_INVALID_ARG
      else
        let '(rc, m, width) := call_write_tag f m tag NULL 0 0 in
        let rc := tlv_callback_result rc false in
        if negb (is_ok rc) then rc
        else if width =? 0 then TLV_ERR_CALLBACK
        else check_tag_table f m table
  end.

Definition tlv_tagged_fields_format_init `{Platform} (m : mem) (format : option tlv_format_t)
  (self : ptr) (composition : option tlv_tagged_fields_composition_t)
  : tlv_result_t * option tlv_format_t :=
  match format, composition with
  | Some _, Some f =>
      let g := f.(tf_fields) in
      if negb (is_some g.(fc_read_tag)) || negb (is_some g.(fc_read_length)) ||
         negb (is_some g.(fc_write_tag)) || negb (is_some g.(fc_write_length)) ||
         is_some g.(fc_resolve) || negb (is_tlv g.(fc_element_order)) ||
         negb (is_value_scope g.(fc_length_scope)) ||
         (negb (f.(tf_count) =? 0) && negb (is_some f.(tf_tag_only)))
      then (TLV_ERR_INVALID_ARG, format)
      else
        let rc := check_tag_table g m (tag_table f.(tf_tag_only) f.(tf_count)) in
        if negb (is_ok rc) then (rc, format)
        else tlv_format_init format self (Some (tlv_tagged_fields_decode f))
               (Some (tlv_tagged_fields_measure f)) (Some (tlv_tagged_fields_encode f))
  | _, _ => (TLV_ERR_NULL_ARG, format)
  end.

Record tlv_tagged_binary_composition_t := mk_tagged_binary {
  tb_fields : tlv_binary_composition_t; tb_tag_only : option (list tlv_tag_t); tb_count : Z }.

Definition tagged_binary_fields (f : tlv_tagged_binary_composition_t)
  : tlv_tagged_fields_composition_t :=
  mk_tagged (binary_fields f.(tb_fields)) f.(tb_tag_only) f.(tb_count).

Definition tlv_tagged_binary_decode `{Platform} (f : tlv_tagged_binary_composition_t)
  : tlv_decode_fn :=
  fun m data size result error =>
    let '(rc, result, error) :=
      tlv_tagged_fields_decode (tagged_binary_fields f) m data size result error in
    (rc, result, binary_required f.(tb_fields) rc error).
Definition tlv_tagged_binary_measure (f : tlv_tagged_binary_composition_t) : tlv_measure_fn :=
  tlv_tagged_fields_measure (tagged_binary_fields f).
Definition tlv_tagged_binary_encode `{Platform} (f : tlv_tagged_binary_composition_t)
  : tlv_encode_fn := tlv_tagged_fields_encode (tagged_binary_fields f).

Definition tlv_tagged_binary_format_init `{Platform} (format : option tlv_format_t) (self : ptr)
  (composition : option tlv_tagged_binary_composition_t) : tlv_result_t * option tlv_format_t :=
  match format, composition with
  | Some _, Some f =>
      let g := f.(tb_fields) in
      let rc := fixed_identifier_validate g.(bc_identifier) in
      if negb (is_ok rc) then (rc, format) else
      let rc := fixed_length_validate g.(bc_length) in
      if negb (is_ok rc) then (rc, format)
      else if negb (is_tlv g.(bc_element_order)) || negb (is_value_scope g.(bc_length_scope)) ||
              (negb (f.(tb_count) =? 0) && negb (is_some f.(tb_tag_only)))
      then (TLV_ERR_INVALID_ARG, format)
      else if existsb (fun t => is_null t.(t_data) || negb (t.(t_size) =? g.(bc_identifier).(fi_size)))
                (tag_table f.(tb_tag_only) f.(tb_count)) then (TLV_ERR_INVALID_ARG, format)
      else tlv_format_init format self (Some (tlv_tagged_binary_decode f))
             (Some (tlv_tagged_binary_measure f)) (Some (tlv_tagged_binary_encode f))
  | _, _ => (TLV_ERR_NULL_ARG, format)
  end.
