(* ===== verification/ComposeLaws.v ===== *)
(** * Laws of composed formats

    A composition of lawful field codecs without a resolver is a lawful decoder and, with its
    encoder, a lawful codec, in both field orders and both count scopes. *)

From S2P Require Import Prelude Mem Core Format FieldFixed WireFormat Compose.

Section Fields.
Context `{Platform} (f : tlv_field_composition_t)
  (rt : tlv_read_tag_fn) (wt : tlv_write_tag_fn) (rl : tlv_read_length_fn) (wl : tlv_write_length_fn)
  `{!TagField rt wt} `{!LengthField rl wl}
  (Hrt : f.(fc_read_tag) = Some rt) (Hrl : f.(fc_read_length) = Some rl)
  (Hres : f.(fc_resolve) = None).

(** Where the two fields of a header lie, for a tag of [k] and a count of [lk] octets. *)
Definition tag_at (lk : Z) : Z := if is_tlv f.(fc_element_order) then 0 else lk.
Definition length_at (k : Z) : Z := if is_tlv f.(fc_element_order) then k else 0.
Definition value_size (n k : Z) : Z := if is_tag_scope f.(fc_length_scope) then n - k else n.

(** A complete element: a tag of [k] octets and a count [n] of [lk] octets lead it. *)
Record fields_at (m : mem) (data : ptr) (size k lk n : Z) : Prop := {
  fa_tag : forall t0 c0, rt m (data +p tag_at lk) (size - tag_at lk) t0 c0 =
                         (TLV_OK, tlv_tag (data +p tag_at lk) k, k);
  fa_length : forall n0 c0, rl m (data +p length_at k) (size - length_at k) n0 c0 = (TLV_OK, n, lk);
  fa_k : 1 <= k;
  fa_lk : 1 <= lk;
  fa_n : 0 <= n <= UINT64_MAX;
  fa_scope : is_tag_scope f.(fc_length_scope) = true -> n <> 0 /\ k <= n;
  fa_fits : k + lk + value_size n k <= size }.

Definition fields_result (data : ptr) (k lk n : Z) : tlv_decoded_t :=
  let v := value_size n k in
  mk_decoded (mk_element (tlv_tag (data +p tag_at lk) k) (mk_value (data +p (k + lk)) v))
    (mk_source NULL (k + lk + v) (range 0 (k + lk)) (range (tag_at lk) k) (range (length_at k) lk)
       (range (k + lk) v) (range (k + lk + v) 0) empty_element NULL TLV_TAG_BINDING_SOURCE).

Lemma fields_value_nonneg m data size k lk n : fields_at m data size k lk n -> 0 <= value_size n k.
Proof using.
  intros [_ _ Hk Hlk Hn Hs _]. unfold value_size. destruct (is_tag_scope _); [|lia].
  destruct (Hs eq_refl). lia.
Qed.

(** *** The two steps *)

Lemma decode_identifier_inv m data size e s s' :
  data <> NULL -> 0 <= s.(fs_pos) <= size -> size <= SIZE_MAX ->
  decode_identifier f m data size e s = inr s' ->
  exists k, 1 <= k <= size - s.(fs_pos) /\
    (forall t0 c0, rt m (data +p s.(fs_pos)) (size - s.(fs_pos)) t0 c0 =
                   (TLV_OK, tlv_tag (data +p s.(fs_pos)) k, k)) /\
    s' = mk_fs (tlv_tag (data +p s.(fs_pos)) k) s.(fs_length) (s.(fs_pos) + k) k s.(fs_length_size)
           s.(fs_trailer) (set_source_tag (range s.(fs_pos) k) s.(fs_result)).
Proof using Hrt TagField0.
  intros Hd Hp Hs E. unfold decode_identifier, call_read_tag in E. rewrite Hrt in E.
  destruct (rt m (data +p fs_pos s) (size - fs_pos s) (fs_tag s) (fs_tag_size s)) as [[rc t] k] eqn:Er.
  cbv zeta in E.
  destruct (is_ok (read_result rc)) eqn:Eok; cbn [andb] in E;
    [|repeat (rewrite Eok in E; cbn [andb negb] in E); done].
  assert (rc = TLV_OK) as ->.
  { unfold read_result in Eok. destruct (rc_eqb _ _) in Eok; [done|].
    apply (callback_result_ok rc false). now apply is_ok_true. }
  assert (data +p fs_pos s <> NULL) as Hd' by (destruct data; done).
  assert (0 <= size - fs_pos s <= SIZE_MAX) as Hw by lia.
  pose proof (tag_read_sound m _ (size - fs_pos s) _ _ t k Hd' Hw Er) as (Hk & -> & Hadm).
  destruct (_ || _) in E; [done|]. cbn in E. injection E as <-.
  exists k. split; [lia|]. split; [|done].
  intros t0 c0. apply tag_read_back; try done; lia.
Qed.

Lemma decode_identifier_ok m data size e s k :
  0 <= s.(fs_pos) -> 1 <= k <= size - s.(fs_pos) -> data <> NULL ->
  (forall t0 c0, rt m (data +p s.(fs_pos)) (size - s.(fs_pos)) t0 c0 =
                 (TLV_OK, tlv_tag (data +p s.(fs_pos)) k, k)) ->
  decode_identifier f m data size e s =
  inr (mk_fs (tlv_tag (data +p s.(fs_pos)) k) s.(fs_length) (s.(fs_pos) + k) k s.(fs_length_size)
         s.(fs_trailer) (set_source_tag (range s.(fs_pos) k) s.(fs_result))).
Proof using Hrt.
  intros Hp Hk Hd Hr. unfold decode_identifier, call_read_tag. rewrite Hrt, Hr. simpl.
  rewrite is_null_padd. replace (is_null data) with false by (destruct data; done).
  rewrite andb_false_r, orb_false_r, (proj2 (Z.eqb_neq k 0)), (proj2 (Z.ltb_ge _ k)) by lia. done.
Qed.

Lemma decode_length_inv m data size e s s' :
  data <> NULL -> 0 <= s.(fs_pos) <= size -> size <= SIZE_MAX ->
  decode_length f m data size e s = inr s' ->
  exists n lk, 1 <= lk <= size - s.(fs_pos) /\ 0 <= n <= UINT64_MAX /\
    (forall n0 c0, rl m (data +p s.(fs_pos)) (size - s.(fs_pos)) n0 c0 = (TLV_OK, n, lk)) /\
    (is_tag_scope f.(fc_length_scope) = true -> n <> 0) /\
    s' = mk_fs s.(fs_tag) n (s.(fs_pos) + lk) s.(fs_tag_size) lk s.(fs_trailer)
           (set_source_length (range s.(fs_pos) lk) s.(fs_result)).
Proof using Hrl Hres LengthField0.
  intros Hd Hp Hs E. unfold decode_length, call_read_length in E. rewrite Hrl, Hres in E.
  destruct (rl m (data +p fs_pos s) (size - fs_pos s) (fs_length s) (fs_length_size s)) as [[rc n] lk] eqn:Er.
  cbv zeta in E.
  destruct (is_ok (read_result rc)) eqn:Eok; cbn [andb] in E;
    [|repeat (rewrite Eok in E; cbn [andb negb] in E); done].
  assert (rc = TLV_OK) as ->.
  { unfold read_result in Eok. destruct (rc_eqb _ _) in Eok; [done|].
    apply (callback_result_ok rc false). now apply is_ok_true. }
  assert (data +p fs_pos s <> NULL) as Hd' by (destruct data; done).
  assert (0 <= size - fs_pos s <= SIZE_MAX) as Hw by lia.
  pose proof (len_read_sound m _ (size - fs_pos s) _ _ n lk Hd' Hw Er) as (Hlk & Hn).
  rewrite (proj2 (Z.ltb_ge _ lk)) in E by lia. change (is_ok (read_result TLV_OK)) with true in E.
  cbn [andb] in E. exists n, lk. split; [lia|]. split; [done|].
  assert (forall n0 c0, rl m (data +p fs_pos s) (size - fs_pos s) n0 c0 = (TLV_OK, n, lk)) as Hloc.
  { intros n0 c0. apply (len_read_local m m _ (size - fs_pos s) _ (fs_length s) (fs_length_size s));
      (done || lia). }
  split; [done|]. unfold available in E. rewrite (proj2 (Z.leb_le lk _)) in E by lia.
  destruct (is_tag_scope (fc_length_scope f)); cbn [andb] in E.
  - destruct (n =? 0) eqn:En; [done|]. cbn in E. injection E as <-. split; [lia|done].
  - cbn in E. injection E as <-. done.
Qed.

Lemma decode_length_ok m data size e s n lk :
  1 <= lk <= size - s.(fs_pos) ->
  (forall n0 c0, rl m (data +p s.(fs_pos)) (size - s.(fs_pos)) n0 c0 = (TLV_OK, n, lk)) ->
  (is_tag_scope f.(fc_length_scope) = true -> n <> 0) ->
  decode_length f m data size e s =
  inr (mk_fs s.(fs_tag) n (s.(fs_pos) + lk) s.(fs_tag_size) lk s.(fs_trailer)
         (set_source_length (range s.(fs_pos) lk) s.(fs_result))).
Proof using Hrl Hres.
  intros Hlk Hr Hsc. unfold decode_length, call_read_length. rewrite Hrl, Hres, Hr. cbv zeta.
  change (is_ok (read_result TLV_OK)) with true. cbn [andb].
  rewrite (proj2 (Z.ltb_ge _ lk)) by lia. change (is_ok (read_result TLV_OK)) with true. cbn [andb].
  unfold available. rewrite (proj2 (Z.leb_le lk _)) by lia.
  destruct (is_tag_scope (fc_length_scope f)); cbn [andb]; [|done].
  rewrite (proj2 (Z.eqb_neq n 0)) by (now apply Hsc). done.
Qed.

(** A step that returns has failed. *)
Lemma decode_identifier_inl m data size e s rc d e' :
  decode_identifier f m data size e s = inl (rc, d, e') -> rc <> TLV_OK.
Proof using.
  unfold decode_identifier. destruct (call_read_tag f _ _ _ _ _) as [[rc0 t] k]. cbv zeta.
  match goal with |- context [is_ok ?x] => destruct (is_ok x) eqn:Eok; [done|] end.
  intros [= <- _ _]. now apply is_ok_false.
Qed.

Lemma decode_length_inl m data size e s rc d e' :
  decode_length f m data size e s = inl (rc, d, e') -> rc <> TLV_OK.
Proof using Hres.
  unfold decode_length. rewrite Hres. destruct (call_read_length f _ _ _ _ _) as [[rc0 n] lk]. cbv zeta.
  set (rc1 := if is_ok (read_result rc0) && _ then _ else read_result rc0).
  set (rc2 := if is_ok rc1 && _ && _ then _ else rc1).
  destruct (is_ok rc2) eqn:Eok; [done|]. intros [= <- _ _]. now apply is_ok_false.
Qed.

(** *** Decoding *)

Lemma decode_value_inv m data size k lk n s d e :
  0 <= size <= SIZE_MAX -> 1 <= k -> 1 <= lk -> 0 <= n <= UINT64_MAX -> k + lk <= size ->
  (is_tag_scope f.(fc_length_scope) = true -> n <> 0) ->
  s.(fs_pos) = k + lk -> s.(fs_tag_size) = k -> s.(fs_length) = n -> s.(fs_trailer) = 0 ->
  decode_value f data size m s = (TLV_OK, d, e) ->
  (is_tag_scope f.(fc_length_scope) = true -> n <> 0 /\ k <= n) /\ k + lk + value_size n k <= size /\
  e = m /\
  d = set_layout (mk_element s.(fs_tag) (mk_value (data +p (k + lk)) (value_size n k)))
        (k + lk + value_size n k) (range 0 (k + lk)) s.(fs_result).(d_source).(s_tag)
        s.(fs_result).(d_source).(s_length) (range (k + lk) (value_size n k))
        (range (k + lk + value_size n k) 0) s.(fs_result).
Proof using.
  intros Hs Hk Hlk Hn Hsum Hsc Ep Et El Etr Ev. unfold decode_value in Ev.
  rewrite Ep, Et, El, Etr in Ev. fold (value_size n k) in Ev.
  destruct (is_tag_scope (fc_length_scope f) && (n <? k)) eqn:Esc; [done|].
  assert (0 <= value_size n k) as Hv0.
  { unfold value_size. destruct (is_tag_scope _); simpl in Esc; lia. }
  destruct (size - (k + lk) <? value_size n k) eqn:Efit; [done|].
  rewrite usize_small in Ev by lia.
  rewrite (proj2 (Z.ltb_ge _ 0)), Z.add_0_r in Ev by lia. injection Ev as <- <-.
  split; [|split; [lia|done]]. intros Et'. rewrite Et' in Esc. simpl in Esc. split; [now apply Hsc|lia].
Qed.

(** Decoding succeeds exactly on a complete element, and then the result is its layout. *)
Lemma fields_decode_inv m data size d e :
  data <> NULL -> 1 <= size <= SIZE_MAX ->
  tlv_fields_decode f m data size no_decoded no_error = (TLV_OK, d, e) ->
  exists k lk n, fields_at m data size k lk n /\ d = fields_result data k lk n /\ e = no_error.
Proof using Hrt Hrl Hres TagField0 LengthField0.
  intros Hd Hs E. unfold tlv_fields_decode in E.
  set (s0 := mk_fs empty_tag 0 0 0 0 0 no_decoded) in E.
  destruct (is_tlv (fc_element_order f)) eqn:Eo.
  - destruct (decode_identifier f m data size no_error s0) as [[[? ?] ?]|s1] eqn:E1; simpl in E;
      [apply decode_identifier_inl in E1; congruence|].
    apply decode_identifier_inv in E1 as (k & Hk & Hr & ->); simpl in *; try done; try lia.
    destruct (decode_length f m data size no_error _) as [[[? ?] ?]|s2] eqn:E2 in E; simpl in E;
      [apply decode_length_inl in E2; congruence|].
    apply decode_length_inv in E2 as (n & lk & Hlk & Hn & Hrd & Hsc & ->); simpl in *; try done; try lia.
    apply (decode_value_inv _ _ _ k lk n) in E as (Hscope & Hfit & -> & ->); simpl; try done; try lia.
    exists k, lk, n. split; [|split; [|done]].
    + split; unfold tag_at, length_at; rewrite ?Eo, ?Z.sub_0_r; try done; try lia.
      intros. specialize (Hr t0 c0). rewrite Z.sub_0_r in Hr. done.
    + unfold fields_result, tag_at, length_at. rewrite Eo. done.
  - destruct (decode_length f m data size no_error s0) as [[[? ?] ?]|s1] eqn:E1; simpl in E;
      [apply decode_length_inl in E1; congruence|].
    apply decode_length_inv in E1 as (n & lk & Hlk & Hn & Hrd & Hsc & ->); simpl in *; try done; try lia.
    destruct (decode_identifier f m data size no_error _) as [[[? ?] ?]|s2] eqn:E2 in E; simpl in E;
      [apply decode_identifier_inl in E2; congruence|].
    apply decode_identifier_inv in E2 as (k & Hk & Hr & ->); simpl in *; try done; try lia.
    rewrite Z.sub_0_r in *.
    apply (decode_value_inv _ _ _ k lk n) in E as (Hscope & Hfit & -> & ->); simpl; try done; try lia.
    exists k, lk, n. split; [|split; [|done]].
    + split; unfold tag_at, length_at; rewrite ?Eo, ?Z.sub_0_r; try done; lia.
    + unfold fields_result, tag_at, length_at. rewrite Eo. done.
Qed.

Lemma decode_value_ok m data size k lk n s :
  size <= SIZE_MAX -> 1 <= k -> 1 <= lk -> k + lk + value_size n k <= size -> 0 <= value_size n k ->
  (is_tag_scope f.(fc_length_scope) = true -> n <> 0 /\ k <= n) ->
  s.(fs_pos) = k + lk -> s.(fs_tag_size) = k -> s.(fs_length) = n -> s.(fs_trailer) = 0 ->
  decode_value f data size m s =
  (TLV_OK, set_layout (mk_element s.(fs_tag) (mk_value (data +p (k + lk)) (value_size n k)))
        (k + lk + value_size n k) (range 0 (k + lk)) s.(fs_result).(d_source).(s_tag)
        s.(fs_result).(d_source).(s_length) (range (k + lk) (value_size n k))
        (range (k + lk + value_size n k) 0) s.(fs_result), m).
Proof using.
  intros Hs Hk Hlk Hfit Hv Hsc Ep Et El Etr. unfold decode_value. rewrite Ep, Et, El, Etr.
  fold (value_size n k). replace (is_tag_scope (fc_length_scope f) && (n <? k)) with false.
  2: { destruct (is_tag_scope _); [|done]. destruct (Hsc eq_refl). simpl. symmetry. lia. }
  rewrite (proj2 (Z.ltb_ge _ (value_size n k))) by lia. rewrite usize_small by lia.
  rewrite (proj2 (Z.ltb_ge _ 0)), Z.add_0_r by lia. done.
Qed.

Lemma fields_decode_at m data size k lk n :
  data <> NULL -> size <= SIZE_MAX -> fields_at m data size k lk n ->
  tlv_fields_decode f m data size no_decoded no_error = (TLV_OK, fields_result data k lk n, no_error).
Proof using Hrt Hrl Hres.
  intros Hd Hs Hat. pose proof (fields_value_nonneg _ _ _ _ _ _ Hat) as Hv.
  destruct Hat as [Hr Hrd Hk Hlk Hn Hsc Hfit]. unfold tlv_fields_decode, fields_result, tag_at, length_at in *.
  destruct (is_tlv (fc_element_order f)).
  - rewrite Z.sub_0_r in Hr.
    rewrite (decode_identifier_ok _ _ _ _ _ k); simpl; try done; rewrite ?Z.sub_0_r; try done; try lia.
    rewrite (decode_length_ok _ _ _ _ _ n lk); simpl; try done; try lia; [|intros; now apply Hsc].
    rewrite (decode_value_ok _ _ _ k lk n) by (simpl; done || lia). done.
  - rewrite Z.sub_0_r in Hrd.
    rewrite (decode_length_ok _ _ _ _ _ n lk); simpl; rewrite ?Z.sub_0_r; try done; try lia;
      [|intros; now apply Hsc].
    rewrite (decode_identifier_ok _ _ _ _ _ k); simpl; try done; try lia.
    rewrite (decode_value_ok _ _ _ k lk n) by (simpl; done || lia). done.
Qed.

Lemma fields_at_local m m' data size size' k lk n :
  data <> NULL -> 0 <= size <= SIZE_MAX -> 0 <= size' <= SIZE_MAX -> fields_at m data size k lk n ->
  k + lk + value_size n k <= size' -> same_bytes m m' data (k + lk) -> fields_at m' data size' k lk n.
Proof using TagField0 LengthField0.
  intros Hd Hs Hs' Hat Hfit Hsame. pose proof (fields_value_nonneg _ _ _ _ _ _ Hat) as Hv.
  destruct Hat as [Hr Hrd Hk Hlk Hn Hsc Hfit0].
  assert (0 <= tag_at lk /\ tag_at lk + k <= k + lk /\ 0 <= length_at k /\ length_at k + lk <= k + lk) as Hpos
    by (unfold tag_at, length_at; destruct (is_tlv _); lia).
  split; try done; try lia.
  - intros t0 c0. apply (tag_read_local rt wt m m' _ (size - tag_at lk) _ t0 c0); try done; try lia.
    + destruct data; done.
    + apply (same_bytes_sub _ _ _ _ _ _ Hsame); lia.
  - intros n0 c0. apply (len_read_local m m' _ (size - length_at k) _ n0 c0); try done; try lia.
    + destruct data; done.
    + apply (same_bytes_sub _ _ _ _ _ _ Hsame); lia.
Qed.

(** *** Truncation *)

Lemma decode_identifier_truncated m data size e s :
  fst (fst (rt m (data +p s.(fs_pos)) (size - s.(fs_pos)) s.(fs_tag) s.(fs_tag_size))) = TLV_ERR_TRUNCATED ->
  exists d e', decode_identifier f m data size e s = inl (TLV_ERR_TRUNCATED, d, e').
Proof using Hrt.
  intros Hr. unfold decode_identifier, call_read_tag. rewrite Hrt.
  destruct (rt _ _ _ _ _) as [[rc t] k]. simpl in Hr. subst rc. eexists. eexists. reflexivity.
Qed.

Lemma decode_length_truncated m data size e s :
  fst (fst (rl m (data +p s.(fs_pos)) (size - s.(fs_pos)) s.(fs_length) s.(fs_length_size))) = TLV_ERR_TRUNCATED ->
  exists d e', decode_length f m data size e s = inl (TLV_ERR_TRUNCATED, d, e').
Proof using Hrl Hres.
  intros Hr. unfold decode_length, call_read_length. rewrite Hrl, Hres.
  destruct (rl _ _ _ _ _) as [[rc n] lk]. simpl in Hr. subst rc. eexists. eexists. reflexivity.
Qed.

Lemma decode_value_truncated m data size k n s :
  (is_tag_scope f.(fc_length_scope) = true -> n <> 0 /\ k <= n) ->
  s.(fs_tag_size) = k -> s.(fs_length) = n -> size - s.(fs_pos) < value_size n k ->
  fst (fst (decode_value f data size m s)) = TLV_ERR_TRUNCATED.
Proof using.
  intros Hsc Et El Hlt. unfold decode_value. rewrite Et, El. fold (value_size n k).
  replace (is_tag_scope (fc_length_scope f) && (n <? k)) with false.
  2: { destruct (is_tag_scope _); [|done]. destruct (Hsc eq_refl). simpl. symmetry. lia. }
  rewrite (proj2 (Z.ltb_lt _ (value_size n k))) by lia. done.
Qed.

Lemma fields_decode_truncated m data size size' k lk n :
  data <> NULL -> 0 <= size <= SIZE_MAX -> fields_at m data size k lk n ->
  1 <= size' < k + lk + value_size n k ->
  fst (fst (tlv_fields_decode f m data size' no_decoded no_error)) = TLV_ERR_TRUNCATED.
Proof using Hrt Hrl Hres TagField0 LengthField0.
  intros Hd Hs Hat Hlt. pose proof (fields_value_nonneg _ _ _ _ _ _ Hat) as Hv.
  destruct Hat as [Hr Hrd Hk Hlk Hn Hsc Hfit]. unfold tlv_fields_decode, tag_at, length_at in *.
  set (s0 := mk_fs empty_tag 0 0 0 0 0 no_decoded).
  assert (forall i, data +p i <> NULL) as Hdi by (intros; destruct data; done).
  assert (0 <= size - 0 <= SIZE_MAX /\ 0 <= size - k <= SIZE_MAX /\ 0 <= size - lk <= SIZE_MAX)
    as (Hw0 & Hwk & Hwl) by lia.
  destruct (is_tlv (fc_element_order f)).
  - destruct (Z.lt_ge_cases size' k) as [Hsk|Hsk].
    { destruct (decode_identifier_truncated m data size' no_error s0) as (? & ? & ->); [|done]. simpl.
      apply (tag_read_truncated m _ (size - 0) _ empty_tag 0 _ _ _ k (Hdi 0) Hw0 (Hr _ _)). lia. }
    rewrite (decode_identifier_ok _ _ _ _ _ k); simpl; try done; try lia.
    2: { intros. apply (tag_read_local rt wt m m _ (size - 0) _ empty_tag 0); try done; lia. }
    destruct (Z.lt_ge_cases (size' - k) lk) as [Hsl|Hsl].
    { match goal with |- context [decode_length f m data size' no_error ?s] =>
        destruct (decode_length_truncated m data size' no_error s) as (? & ? & ->) end; [|done]. simpl.
      apply (len_read_truncated m _ (size - k) _ 0 0 _ _ n lk (Hdi k) Hwk (Hrd _ _)). lia. }
    rewrite (decode_length_ok _ _ _ _ _ n lk); simpl; try lia; [|intros|intros; now apply Hsc].
    2: { apply (len_read_local m m _ (size - k) _ 0 0); try done; lia. }
    apply (decode_value_truncated _ _ _ k n); simpl; try done; lia.
  - destruct (Z.lt_ge_cases size' lk) as [Hsl|Hsl].
    { destruct (decode_length_truncated m data size' no_error s0) as (? & ? & ->); [|done]. simpl.
      apply (len_read_truncated m _ (size - 0) _ 0 0 _ _ n lk (Hdi 0) Hw0 (Hrd _ _)). lia. }
    rewrite (decode_length_ok _ _ _ _ _ n lk); simpl; try lia; [|intros|intros; now apply Hsc].
    2: { apply (len_read_local m m _ (size - 0) _ 0 0); try done; lia. }
    destruct (Z.lt_ge_cases (size' - lk) k) as [Hsk|Hsk].
    { match goal with |- context [decode_identifier f m data size' no_error ?s] =>
        destruct (decode_identifier_truncated m data size' no_error s) as (? & ? & ->) end; [|done]. simpl.
      apply (tag_read_truncated m _ (size - lk) _ empty_tag 0 _ _ _ k (Hdi lk) Hwl (Hr _ _)). lia. }
    rewrite (decode_identifier_ok _ _ _ _ _ k); simpl; try done; try lia.
    2: { intros. apply (tag_read_local rt wt m m _ (size - lk) _ empty_tag 0); try done; lia. }
    apply (decode_value_truncated _ _ _ k n); simpl; try done; lia.
Qed.

(** *** The decoder's laws *)

Lemma fields_result_valid m data size k lk n :
  data <> NULL -> size <= SIZE_MAX -> fields_at m data size k lk n ->
  decoded_typed (fields_result data k lk n) /\ decoded_valid (fields_result data k lk n) data size = true.
Proof using.
  intros Hd Hs Hat. pose proof (fields_value_nonneg _ _ _ _ _ _ Hat) as Hv.
  destruct Hat as [_ _ Hk Hlk Hn Hsc Hfit].
  assert (0 <= tag_at lk /\ tag_at lk + k <= k + lk /\ 0 <= length_at k /\ length_at k + lk <= k + lk) as Hpos
    by (unfold tag_at, length_at; destruct (is_tlv _); lia).
  split.
  - unfold decoded_typed, range_typed, tag_ok. simpl. repeat split; try lia. by destruct data.
  - unfold decoded_valid, tag_binding_valid, range_valid. simpl.
    rewrite !ptr_eqb_refl, !usize_small, !Z.eqb_refl by lia. rewrite !andb_true_iff.
    repeat split; try zlia. now rewrite Z.sub_diag.
Qed.

(** Composed formats meet the decoder's interface. *)
Lemma fields_decode_laws : DecodeLaws (tlv_fields_decode f).
Proof using Hrt Hrl Hres TagField0 LengthField0.
  split.
  - intros m data size d e Hd Hs E. apply fields_decode_inv in E as (k & lk & n & Hat & -> & _); try done.
    apply (fields_result_valid m data size); try done; lia.
  - intros m data size d e Hd Hs E. apply fields_decode_inv in E as (k & lk & n & Hat & -> & _); try done.
    apply (fields_result_valid m data size); try done; lia.
  - intros m m' data size size' d e Hd Hs Hs' E Hle Hsame.
    apply fields_decode_inv in E as (k & lk & n & Hat & -> & ->); try done. simpl in *.
    pose proof (fields_value_nonneg _ _ _ _ _ _ Hat).
    apply fields_decode_at; [done|lia|]. apply (fields_at_local m m' data size size'); try done; try lia.
    intros i Hi. apply Hsame. lia.
  - intros m data size size' d e Hd Hs E Hlt.
    apply fields_decode_inv in E as (k & lk & n & Hat & -> & ->); try done. simpl in *.
    apply (fields_decode_truncated m data size size' k lk n); try done; lia.
Qed.

(** *** The codec *)

Context (Hwt : f.(fc_write_tag) = Some wt) (Hwl : f.(fc_write_length) = Some wl).

(** The count of an element and its wire octets. *)
Definition fields_count (k v : Z) : Z := if is_tag_scope f.(fc_length_scope) then v + k else v.
Definition fields_wire (tag value : list Z) : option (list Z) :=
  if tag_adm tag && (fields_count (zlen tag) (zlen value) <=? UINT64_MAX) then
    match len_enc (fields_count (zlen tag) (zlen value)) with
    | Some l => Some ((if is_tlv f.(fc_element_order) then tag ++ l else l ++ tag) ++ value)
    | None => None
    end
  else None.

Lemma fields_wire_inv tag value w : fields_wire tag value = Some w ->
  exists l, tag_adm tag = true /\ fields_count (zlen tag) (zlen value) <= UINT64_MAX /\
    len_enc (fields_count (zlen tag) (zlen value)) = Some l /\
    w = (if is_tlv f.(fc_element_order) then tag ++ l else l ++ tag) ++ value /\
    zlen w = zlen tag + zlen l + zlen value /\ 1 <= zlen tag <= SIZE_MAX /\ 1 <= zlen l <= 256 /\
    0 <= fields_count (zlen tag) (zlen value).
Proof using.
  unfold fields_wire. destruct (tag_adm tag && _) eqn:E; [|done]. rewrite andb_true_iff in E.
  destruct E as [Ha Hc]. destruct (len_enc _) as [l|] eqn:El; [|done]. intros [= <-]. exists l.
  pose proof (tag_adm_length tag Ha). destruct (len_enc_bytes _ l El).
  repeat (split; [done || lia|]). split; [destruct (is_tlv _); rewrite !length_app; lia|].
  repeat (split; [done|]). unfold fields_count. destruct (is_tag_scope _); lia.
Qed.

Lemma field_sizes_ok m e err l :
  tag_ok e.(e_tag) -> 0 <= e.(e_value).(v_size) -> tag_adm (tag_bytes m e.(e_tag)) = true ->
  0 <= fields_count e.(e_tag).(t_size) e.(e_value).(v_size) <= UINT64_MAX ->
  len_enc (fields_count e.(e_tag).(t_size) e.(e_value).(v_size)) = Some l ->
  field_sizes f m e err =
  (TLV_OK, m, (e.(e_tag).(t_size), zlen l, fields_count e.(e_tag).(t_size) e.(e_value).(v_size)), err).
Proof using Hwt Hwl.
  intros Ht Hv Ha Hc El. unfold field_sizes, call_write_tag, call_write_length. rewrite Hwt, Hwl.
  rewrite tag_size_ok by done. pose proof (tag_adm_length _ Ha) as Hlen. destruct Ht as [Ht Hn].
  unfold tag_bytes in Hlen. rewrite length_bytes_of in Hlen.
  change (tlv_callback_result TLV_OK false) with TLV_OK. rewrite is_ok_OK. cbn [andb].
  rewrite (proj2 (Z.eqb_neq _ 0)) by lia. rewrite is_ok_OK. cbn [negb]. cbv zeta.
  unfold fields_count in *. destruct (is_tag_scope _).
  - rewrite size_add_small by lia. rewrite is_ok_OK. cbn [cell].
    rewrite (len_size_ok _ _ l) by done. done.
  - rewrite is_ok_OK. rewrite (len_size_ok _ _ l) by done. done.
Qed.

Lemma fields_measure_ok m e en err l :
  tag_ok e.(e_tag) -> 0 <= e.(e_value).(v_size) -> tag_adm (tag_bytes m e.(e_tag)) = true ->
  0 <= fields_count e.(e_tag).(t_size) e.(e_value).(v_size) <= UINT64_MAX ->
  len_enc (fields_count e.(e_tag).(t_size) e.(e_value).(v_size)) = Some l ->
  e.(e_tag).(t_size) + zlen l + e.(e_value).(v_size) <= UINT64_MAX ->
  tlv_fields_measure f m e en err =
  (TLV_OK, mk_encoding (e.(e_tag).(t_size) + zlen l) e.(e_value).(v_size) 0
             (e.(e_tag).(t_size) + zlen l + e.(e_value).(v_size)), err).
Proof using Hwt Hwl.
  intros Ht Hv Ha Hc El Hsum. unfold tlv_fields_measure. rewrite (field_sizes_ok _ _ _ l) by done.
  rewrite is_ok_OK. cbn [negb]. destruct Ht as [Ht _].
  rewrite size_add_small by lia. rewrite is_ok_OK. cbn [cell en_header].
  rewrite size_add_small by lia. rewrite is_ok_OK. done.
Qed.

(** The two header fields and the value, written one after another, leave the wire octets. *)
Lemma fields_encode_ok m e data capacity w0 err l :
  element_ok e -> tag_adm (tag_bytes m e.(e_tag)) = true ->
  0 <= fields_count e.(e_tag).(t_size) e.(e_value).(v_size) <= UINT64_MAX ->
  len_enc (fields_count e.(e_tag).(t_size) e.(e_value).(v_size)) = Some l ->
  let total := e.(e_tag).(t_size) + zlen l + e.(e_value).(v_size) in
  data <> NULL -> capacity <= SIZE_MAX -> total <= capacity -> element_apart e data total ->
  exists m', tlv_fields_encode f m e data capacity w0 err = (TLV_OK, m', total, err) /\
    only_changes m m' data total /\
    bytes_of m' data total =
      (if is_tlv f.(fc_element_order) then tag_bytes m e.(e_tag) ++ l else l ++ tag_bytes m e.(e_tag)) ++
      value_bytes m e.(e_value).
Proof using Hwt Hwl.
  intros [Ht [Hv Hvn]] Ha Hc El total Hd Hcs Hcap [Hat Hav]. pose proof Ht as [Hts _].
  pose proof (tag_adm_length _ Ha) as Hlen. unfold tag_bytes in Hlen. rewrite length_bytes_of in Hlen.
  destruct (len_enc_bytes _ l El) as [_ Hll].
  pose proof (field_sizes_ok m e err l Ht ltac:(lia) Ha Hc El) as Hsizes.
  set (k := t_size (e_tag e)) in *. set (v := v_size (e_value e)) in *. set (n := fields_count k v) in *.
  set (to := tag_at (zlen l)). set (lo := length_at k).
  assert (0 <= to /\ to + k <= k + zlen l /\ 0 <= lo /\ lo + zlen l <= k + zlen l /\
          (to + k <= lo \/ lo + zlen l <= to)) as Hpos
    by (unfold to, lo, tag_at, length_at; destruct (is_tlv _); lia).
  assert (forall i, data +p i <> NULL) as Hdi by (intros; destruct data; done).
  unfold tlv_fields_encode. rewrite Hsizes, is_ok_OK. cbn [negb].
  fold v. fold (tag_at (zlen l)) to. fold (length_at k).
  change (length_offset f k) with lo.
  rewrite size_to_native_small by lia. cbn [cell]. rewrite is_ok_OK. cbn [andb].
  replace ((capacity <? k) || (capacity - k <? zlen l) || (capacity - k - zlen l <? v)) with false by lia.
  rewrite is_ok_OK. cbn [negb]. unfold call_write_tag, call_write_length. rewrite Hwt, Hwl.
  destruct (tag_write_ok m (e_tag e) (data +p to) k 0 Ht Ha (Hdi to) ltac:(lia)
    ltac:(subst total; clear -Hat Hpos Hts Hv Hll; destruct data, (t_data (e_tag e)); cbn [disjoint_range padd] in *; lia)) as (m1 & -> & Hot & Hbt). fold k in Hot, Hbt |- *.
  change (tlv_callback_result TLV_OK false) with TLV_OK. rewrite is_ok_OK, Z.eqb_refl. cbn [negb andb].
  rewrite is_ok_OK. cbn [negb].
  destruct (len_write_ok m1 n l (data +p lo) (zlen l) k Hc El (Hdi lo) ltac:(lia)) as (m2 & -> & Hol & Hbl).
  change (tlv_callback_result TLV_OK false) with TLV_OK. rewrite is_ok_OK, Z.eqb_refl. cbn [negb andb].
  rewrite is_ok_OK. cbn [negb].
  assert (only_changes m m2 data total) as Hm2.
  { eapply only_trans; [apply (only_sub _ _ _ _ to k); [lia|lia|exact Hot]|].
    apply (only_sub _ _ _ _ lo (zlen l)); try lia. done. }
  assert (value_bytes m2 (e_value e) = value_bytes m (e_value e)) as Hval
    by (apply same_bytes_of, (only_same _ _ _ _ _ _ Hm2); done).
  set (m3 := if negb (v =? 0) then memcpy m2 (data +p (k + zlen l)) (v_data (e_value e)) v else m2).
  assert (only_changes m2 m3 (data +p (k + zlen l)) v) as Hm3.
  { unfold m3. destruct (negb _); [apply memmove_only|done]. }
  assert (bytes_of m3 (data +p (k + zlen l)) v = value_bytes m (e_value e)) as Hb3.
  { rewrite <- Hval. unfold m3, value_bytes. fold v. destruct (v =? 0) eqn:E0; cbn [negb].
    - replace v with 0 by lia. now rewrite !bytes_of_0 by lia.
    - apply bytes_of_memmove. rewrite is_null_padd. by destruct data. }
  assert (forall a b, 0 <= a -> a + b <= k + zlen l -> 0 <= b -> bytes_of m3 (data +p a) b = bytes_of m2 (data +p a) b) as Hkeep.
  { intros a b Ha' Hb Hb0. apply same_bytes_of, (only_same _ _ _ _ _ _ Hm3). destruct data; simpl; lia. }
  assert (bytes_of m3 (data +p to) k = tag_bytes m (e_tag e)) as Htag.
  { rewrite Hkeep by lia. rewrite (same_bytes_of m2 m1).
    - exact Hbt.
    - apply (only_same _ _ _ _ _ _ Hol). destruct data; simpl; lia. }
  assert (bytes_of m3 (data +p lo) (zlen l) = l) as Hlb by (rewrite Hkeep by lia; done).
  exists m3. split; [done|]. split.
  - eapply only_trans; [exact Hm2|]. apply (only_sub _ _ _ _ (k + zlen l) v); try done; lia.
  - unfold total. rewrite bytes_of_app, Hb3 by lia. f_equal. unfold to, lo, tag_at, length_at in *.
    destruct (is_tlv (fc_element_order f)).
    + rewrite padd_0 in Htag. now rewrite bytes_of_app, Htag, Hlb by lia.
    + rewrite padd_0 in Hlb. now rewrite Z.add_comm, bytes_of_app, Htag, Hlb by lia.
Qed.

(** The wire octets of an element, wherever they stand, are a complete element. *)
Lemma fields_wire_at m data size tag value w :
  fields_wire tag value = Some w -> data <> NULL -> zlen w <= size -> size <= SIZE_MAX ->
  bytes_of m data (zlen w) = w ->
  exists lk n, fields_at m data size (zlen tag) lk n /\ zlen w = zlen tag + lk + value_size n (zlen tag) /\
    bytes_of m (data +p tag_at lk) (zlen tag) = tag /\
    value_size n (zlen tag) = zlen value /\ bytes_of m (data +p (zlen tag + lk)) (zlen value) = value.
Proof using.
  intros Hw Hd Hs Hsm Hb. apply fields_wire_inv in Hw as (l & Ha & Hc & El & Ew & Hlw & Htag & Hll & Hc0).
  set (n := fields_count (zlen tag) (zlen value)) in *. rewrite Hlw in *.
  assert (value_size n (zlen tag) = zlen value) as Hvs.
  { unfold value_size, n, fields_count. destruct (is_tag_scope _); lia. }
  rewrite bytes_of_app in Hb by lia. rewrite Ew in Hb.
  apply app_inj_1 in Hb as [Hb1 Hbv].
  2: { rewrite length_bytes_of. destruct (is_tlv _); rewrite length_app; lia. }
  assert (bytes_of m (data +p tag_at (zlen l)) (zlen tag) = tag /\
          bytes_of m (data +p length_at (zlen tag)) (zlen l) = l) as [Hbt Hbl].
  { unfold tag_at, length_at. destruct (is_tlv _).
    - rewrite padd_0. rewrite bytes_of_app in Hb1 by lia. apply app_inj_1 in Hb1; [done|].
      rewrite length_bytes_of. lia.
    - rewrite padd_0. rewrite Z.add_comm, bytes_of_app in Hb1 by lia.
      apply app_inj_1 in Hb1 as [? ?]; [done|]. rewrite length_bytes_of. lia. }
  exists (zlen l), n. split; [|split; [lia|done]].
  assert (0 <= tag_at (zlen l) /\ tag_at (zlen l) + zlen tag <= zlen tag + zlen l /\
          0 <= length_at (zlen tag) /\ length_at (zlen tag) + zlen l <= zlen tag + zlen l) as Hpos
    by (unfold tag_at, length_at; destruct (is_tlv _); lia).
  split; try done; try lia.
  - intros t0 c0. apply tag_read_back; try lia; [by destruct data|]. now rewrite Hbt.
  - intros n0 c0. apply len_read_back; try done; try lia. by destruct data.
  - intros Esc. unfold n, fields_count. rewrite Esc. lia.
Qed.

(** A format made of the composition's three callbacks is a codec.  [decode] may refine the errors of
    the composition's decoder. *)
Lemma fields_codec_laws F decode :
  F.(f_decode) = Some decode -> DecodeLaws decode ->
  (forall m data size d e, data <> NULL -> 1 <= size <= SIZE_MAX ->
     tlv_fields_decode f m data size no_decoded no_error = (TLV_OK, d, e) ->
     decode m data size no_decoded no_error = (TLV_OK, d, e)) ->
  F.(f_measure) = Some (tlv_fields_measure f) -> F.(f_encode) = Some (tlv_fields_encode f) ->
  CodecLaws F.
Proof using Hrt Hrl Hres Hwt Hwl TagField0 LengthField0.
  intros HFd HDL Hsame HFm HFe.
  refine {| cl_wire := fields_wire |}.
  - intros tag value w Hw. apply fields_wire_inv in Hw as (l & _ & _ & _ & _ & ? & ? & ? & _). lia.
  - intros m e data capacity w0 e0 w Hok Hd Hcs Hw Hcap Hap. pose proof Hok as [Ht [Hv Hvn]].
    apply fields_wire_inv in Hw as (l & Ha & Hc & El & Ew & Hlw & Htag & Hll & Hc0).
    pose proof Ht as [Hts Htn]. unfold tag_bytes, value_bytes in *.
    rewrite !length_bytes_of, !Z2Nat.id in * by lia.
    unfold tlv_format_encode, tlv_format_measure. rewrite HFm, HFe.
    replace (is_null data) with false by (by destruct data). cbn [andb orb].
    replace (is_null (v_data (e_value e)) && negb (v_size (e_value e) =? 0)) with false.
    2: { destruct (v_data (e_value e)); [|done]. rewrite Hvn by done. done. }
    replace (negb (t_size (e_tag e) =? 0) && is_null (t_data (e_tag e))) with false.
    2: { destruct (t_data (e_tag e)); [|by rewrite andb_false_r]. rewrite Htn by done. done. }
    pose proof SIZE_MAX_bounds. rewrite (fields_measure_ok _ _ _ _ l) by (done || lia).
    change (tlv_callback_result TLV_OK false) with TLV_OK. rewrite is_ok_OK. cbn [en_header en_value en_trailer en_total].
    rewrite size_add_small by lia. rewrite is_ok_OK. cbn [cell]. rewrite size_add_small by lia.
    rewrite is_ok_OK. cbn [cell negb orb]. rewrite Z.add_0_r, !Z.eqb_refl, (proj2 (Z.eqb_neq _ 0)) by lia.
    cbn [negb orb]. rewrite is_ok_OK. cbn [negb cell en_total].
    rewrite size_to_native_small by lia. rewrite is_ok_OK. cbn [negb cell].
    rewrite (proj2 (Z.ltb_ge capacity _)) by lia.
    rewrite Hlw in Hap, Hcap.
    destruct (fields_encode_ok m e data capacity 0 no_error l Hok Ha (conj Hc0 Hc) El Hd Hcs Hcap Hap)
      as (m' & He & Ho & Hb).
    destruct F as [self fd fm fe fi]; simpl in *. subst fe. rewrite He.
    change (tlv_callback_result TLV_OK false) with TLV_OK. rewrite is_ok_OK, Z.eqb_refl. cbn [negb andb].
    rewrite is_ok_OK. cbn [negb]. rewrite Hlw. exists m'. split; [done|]. split; [done|].
    rewrite Ew. exact Hb.
  - intros m data size d0 e0 tag value w Hd Hs Hw Hle Hb.
    destruct (fields_wire_at m data size tag value w Hw Hd Hle Hs Hb) as (lk & n & Hat & Hlw & Hbt & Hvs & Hbv).
    pose proof (fa_fits _ _ _ _ _ _ Hat) as Hfit. pose proof (fa_k _ _ _ _ _ _ Hat).
    pose proof (fa_lk _ _ _ _ _ _ Hat).
    exists (publish F data (fields_result data (zlen tag) lk n)).
    pose proof (fields_value_nonneg _ _ _ _ _ _ Hat).
    rewrite (format_decode_unfold F decode HFd) by (done || lia).
    rewrite (Hsame m data size _ _ Hd ltac:(lia) (fields_decode_at m data size _ _ _ Hd Hs Hat)).
    split; [reflexivity|]. split; [cbn; lia|]. unfold tag_bytes, value_bytes. simpl. rewrite Hvs. done.
Defined.
End Fields.
