(* ===== verification/Formats.v ===== *)
(** * The provided field formats (formats/fixed.h, escaped.h, variable.h and their sources)

    Each format is a configuration, the composition of field codecs it denotes, its three callbacks
    and its initializer.  The instances at the end discharge the interfaces of [WireFormat] for every
    configuration the initializer accepts. *)

From S2P Require Import Prelude Mem Core Endian Format FieldFixed FieldEscaped FieldVariable FieldVariableLaws WireFormat Compose ComposeLaws.

(** The order and scope tests the initializers share. *)
Definition order_invalid (o : tlv_element_order_t) : bool := negb (is_tlv o) && negb (is_ltv o).
Definition scope_invalid (s : tlv_length_scope_t) : bool :=
  negb (is_value_scope s) && negb (is_tag_scope s).

(** ** Fixed-width fields *)

Definition tlv_fixed_format_t : Type := tlv_binary_composition_t.

Definition tlv_fixed_format_init `{Platform} (format : option tlv_format_t) (self : ptr)
  (config : option tlv_fixed_format_t) : tlv_result_t * option tlv_format_t :=
  match format, config with
  | Some _, Some c =>
      let rc := fixed_identifier_validate c.(bc_identifier) in
      if negb (is_ok rc) then (rc, format) else
      let rc := fixed_length_validate c.(bc_length) in
      if negb (is_ok rc) then (rc, format)
      else if order_invalid c.(bc_element_order) || scope_invalid c.(bc_length_scope) then
        (TLV_ERR_INVALID_ARG, format)
      else tlv_format_init format self (Some (tlv_binary_decode c)) (Some (tlv_binary_measure c))
             (Some (tlv_binary_encode c))
  | _, _ => (TLV_ERR_NULL_ARG, format)
  end.

(** ** Fixed identifiers, escaped lengths *)

Record tlv_escaped_format_t := mk_escaped_format {
  ef_identifier : tlv_fixed_identifier_t; ef_length : tlv_escaped_length_t;
  ef_element_order : tlv_element_order_t; ef_length_scope : tlv_length_scope_t;
  ef_tag_only : option (list tlv_tag_t); ef_count : Z }.

Definition escaped_read_tag (f : tlv_escaped_format_t) : tlv_read_tag_fn :=
  fixed_tag_reader f.(ef_identifier).
Definition escaped_write_tag (f : tlv_escaped_format_t) : tlv_write_tag_fn :=
  fixed_tag_writer f.(ef_identifier).
Definition escaped_read_length (f : tlv_escaped_format_t) : tlv_read_length_fn :=
  escaped_length_reader f.(ef_length).
Definition escaped_write_length (f : tlv_escaped_format_t) : tlv_write_length_fn :=
  escaped_length_writer f.(ef_length).

Definition escaped_fields (f : tlv_escaped_format_t) : tlv_tagged_fields_composition_t :=
  mk_tagged
    (mk_fields (Some (escaped_read_tag f)) (Some (escaped_read_length f)) None
       (Some (escaped_write_tag f)) (Some (escaped_write_length f)) f.(ef_element_order)
       f.(ef_length_scope))
    f.(ef_tag_only) f.(ef_count).

Definition tlv_escaped_decode `{Platform} (f : tlv_escaped_format_t) : tlv_decode_fn :=
  if negb (f.(ef_count) =? 0) then tlv_tagged_fields_decode (escaped_fields f)
  else tlv_fields_decode (escaped_fields f).(tf_fields).
Definition tlv_escaped_measure (f : tlv_escaped_format_t) : tlv_measure_fn :=
  if negb (f.(ef_count) =? 0) then tlv_tagged_fields_measure (escaped_fields f)
  else tlv_fields_measure (escaped_fields f).(tf_fields).
Definition tlv_escaped_encode `{Platform} (f : tlv_escaped_format_t) : tlv_encode_fn :=
  if negb (f.(ef_count) =? 0) then tlv_tagged_fields_encode (escaped_fields f)
  else tlv_fields_encode (escaped_fields f).(tf_fields).

Definition tlv_escaped_format_init `{Platform} (format : option tlv_format_t) (self : ptr)
  (config : option tlv_escaped_format_t) : tlv_result_t * option tlv_format_t :=
  match format, config with
  | Some _, Some f =>
      let rc := fixed_identifier_validate f.(ef_identifier) in
      if negb (is_ok rc) then (rc, format) else
      let rc := validate_length f.(ef_length) in
      if negb (is_ok rc) then (rc, format)
      else if order_invalid f.(ef_element_order) || scope_invalid f.(ef_length_scope) ||
              (negb (f.(ef_count) =? 0) &&
               (negb (is_some f.(ef_tag_only)) || negb (is_tlv f.(ef_element_order)) ||
                negb (is_value_scope f.(ef_length_scope)))) then (TLV_ERR_INVALID_ARG, format)
      else if existsb (fun t => is_null t.(t_data) || negb (t.(t_size) =? f.(ef_identifier).(fi_size)))
                (tag_table f.(ef_tag_only) f.(ef_count)) then (TLV_ERR_INVALID_ARG, format)
      else tlv_format_init format self (Some (tlv_escaped_decode f)) (Some (tlv_escaped_measure f))
             (Some (tlv_escaped_encode f))
  | _, _ => (TLV_ERR_NULL_ARG, format)
  end.

(** ** Variable-width fields *)

Record tlv_variable_format_t := mk_variable_format {
  vf_identifier : tlv_variable_identifier_t; vf_length : tlv_variable_length_t;
  vf_element_order : tlv_element_order_t; vf_length_scope : tlv_length_scope_t;
  vf_constructed : option tlv_constructed_bit_t }.

Definition variable_read_tag (c : tlv_variable_format_t) : tlv_read_tag_fn :=
  variable_tag_reader c.(vf_identifier).
Definition variable_write_tag (c : tlv_variable_format_t) : tlv_write_tag_fn :=
  variable_tag_writer c.(vf_identifier).
Definition variable_read_length (c : tlv_variable_format_t) : tlv_read_length_fn :=
  variable_length_reader c.(vf_length).
Definition variable_write_length (c : tlv_variable_format_t) : tlv_write_length_fn :=
  variable_length_writer c.(vf_length).

Definition variable_fields (config : tlv_variable_format_t) : tlv_field_composition_t :=
  mk_fields (Some (variable_read_tag config)) (Some (variable_read_length config)) None
    (Some (variable_write_tag config)) (Some (variable_write_length config))
    config.(vf_element_order) config.(vf_length_scope).

Definition tlv_variable_fields_init (fields : option tlv_field_composition_t)
  (config : option tlv_variable_format_t) : tlv_result_t * option tlv_field_composition_t :=
  match fields, config with
  | Some _, Some c =>
      let rc := identifier_validate c.(vf_identifier) in
      if negb (is_ok rc) then (rc, fields) else
      let rc := length_validate c.(vf_length) in
      if negb (is_ok rc) then (rc, fields)
      else if order_invalid c.(vf_element_order) || scope_invalid c.(vf_length_scope) then
        (TLV_ERR_INVALID_ARG, fields)
      else if match c.(vf_constructed) with
              | Some bit => negb (nz bit.(cb_mask)) || outside bit.(cb_value) bit.(cb_mask)
              | None => false
              end then (TLV_ERR_INVALID_ARG, fields)
      else (TLV_OK, Some (variable_fields c))
  | _, _ => (TLV_ERR_NULL_ARG, fields)
  end.

Definition tlv_variable_decode `{Platform} (c : tlv_variable_format_t) : tlv_decode_fn :=
  tlv_fields_decode (variable_fields c).
Definition tlv_variable_measure (c : tlv_variable_format_t) : tlv_measure_fn :=
  tlv_fields_measure (variable_fields c).
Definition tlv_variable_encode `{Platform} (c : tlv_variable_format_t) : tlv_encode_fn :=
  tlv_fields_encode (variable_fields c).

Definition tlv_variable_is_constructed (config : option tlv_variable_format_t) (m : mem)
  (tag : option tlv_tag_t) : bool :=
  match config with
  | Some c => tlv_constructed_bit_predicate m c.(vf_constructed) tag
  | None => false
  end.

(** [fields] is a local variable of the C function: its initial content is not read. *)
Definition tlv_variable_format_init `{Platform} (format : option tlv_format_t) (self : ptr)
  (config : option tlv_variable_format_t) : tlv_result_t * option tlv_format_t :=
  match format with
  | None => (TLV_ERR_NULL_ARG, format)
  | Some _ =>
      let '(rc, _) :=
        tlv_variable_fields_init
          (Some (mk_fields None None None None None TLV_ELEMENT_ORDER_TLV TLV_LENGTH_SCOPE_VALUE))
          config in
      if negb (is_ok rc) then (rc, format)
      else
        match config with
        | None => (rc, format)
        | Some c =>
            let '(rc, format) :=
              tlv_format_init format self (Some (tlv_variable_decode c))
                (Some (tlv_variable_measure c)) (Some (tlv_variable_encode c)) in
            match format with
            | Some f =>
                if is_ok rc && is_some c.(vf_constructed) then
                  (rc, Some (mk_format f.(f_self) f.(f_decode) f.(f_measure) f.(f_encode)
                               (Some (fun m tag => tlv_variable_is_constructed (Some c) m (Some tag)))))
                else (rc, format)
            | None => (rc, format)
            end
        end
  end.

(** ** The interfaces hold *)

Section Binary.
Context `{Platform} (c : tlv_binary_composition_t)
  (Htag : 1 <= c.(bc_identifier).(fi_size) <= SIZE_MAX) (Hlen : 1 <= c.(bc_length).(fl_size) <= 8)
  (Horder : order_bad c.(bc_length).(fl_byte_order) = false).

Local Instance binary_tag_field : TagField (binary_tag_read c) (binary_tag_write c) :=
  fixed_tag_field c.(bc_identifier) Htag.
Local Instance binary_length_field : LengthField (binary_length_read c) (binary_length_write c) :=
  fixed_length_field c.(bc_length) Hlen Horder.

(** [tlv_binary_decode] differs from the composition only in the error of a truncated header. *)
Lemma binary_decode_ok m data size d e :
  tlv_fields_decode (binary_fields c) m data size no_decoded no_error = (TLV_OK, d, e) <->
  tlv_binary_decode c m data size no_decoded no_error = (TLV_OK, d, e).
Proof using.
  unfold tlv_binary_decode. destruct (tlv_fields_decode _ _ _ _ _ _) as [[rc d'] e'].
  split; intros [= -> -> E]; do 2 f_equal; unfold binary_required in *; rewrite ?E; done.
Qed.

Lemma binary_decode_laws : DecodeLaws (tlv_binary_decode c).
Proof using Htag Hlen Horder.
  pose proof (fields_decode_laws (binary_fields c) _ _ _ _ eq_refl eq_refl eq_refl) as L.
  split.
  - intros m data size d e Hd Hs E%binary_decode_ok. now apply (dl_typed m data size d e).
  - intros m data size d e Hd Hs E%binary_decode_ok. now apply (dl_valid m data size d e).
  - intros m m' data size size' d e Hd Hs Hs' E%binary_decode_ok Hle Hsame. apply binary_decode_ok.
    now apply (dl_local m m' data size size').
  - intros m data size size' d e Hd Hs E%binary_decode_ok Hlt.
    pose proof (dl_truncated m data size size' d e Hd Hs E Hlt) as Ht. unfold tlv_binary_decode.
    destruct (tlv_fields_decode (binary_fields c) m data size' no_decoded no_error) as [[rc d'] e'].
    exact Ht.
Qed.

Lemma binary_codec_laws F :
  F.(f_decode) = Some (tlv_binary_decode c) -> F.(f_measure) = Some (tlv_binary_measure c) ->
  F.(f_encode) = Some (tlv_binary_encode c) -> CodecLaws F.
Proof using Htag Hlen Horder.
  intros Hd Hm He.
  apply (fields_codec_laws (binary_fields c) _ _ _ _ eq_refl eq_refl eq_refl eq_refl eq_refl F
    (tlv_binary_decode c)); try done.
  - apply binary_decode_laws.
  - intros. now apply binary_decode_ok.
Defined.
End Binary.

(** The initializers accept exactly lawful configurations. *)
Lemma fixed_format_init_ok `{Platform} c f0 self f :
  0 <= c.(bc_identifier).(fi_size) <= SIZE_MAX -> 0 <= c.(bc_length).(fl_size) ->
  tlv_fixed_format_init (Some f0) self (Some c) = (TLV_OK, Some f) ->
  1 <= c.(bc_identifier).(fi_size) <= SIZE_MAX /\ 1 <= c.(bc_length).(fl_size) <= 8 /\
  order_bad c.(bc_length).(fl_byte_order) = false /\
  f = mk_format self (Some (tlv_binary_decode c)) (Some (tlv_binary_measure c))
        (Some (tlv_binary_encode c)) None.
Proof.
  intros Hi Hl E. unfold tlv_fixed_format_init in E.
  destruct (is_ok (fixed_identifier_validate _)) eqn:E1; cbn [negb] in E;
    [|simpl in E; injection E as E _; rewrite E in E1; done].
  destruct (is_ok (fixed_length_validate _)) eqn:E2; cbn [negb] in E;
    [|simpl in E; injection E as E _; rewrite E in E2; done].
  apply is_ok_true in E1, E2. apply fixed_identifier_validate_ok in E1.
  apply fixed_length_validate_ok in E2 as [E2 E3]; [|done].
  destruct (_ || _); [done|]. injection E as <-. repeat (split; [done || lia|]). done.
Qed.

Section EscapedFormat.
Context `{Platform} (c : tlv_escaped_format_t)
  (Htag : 1 <= c.(ef_identifier).(fi_size) <= SIZE_MAX) (Hlen : escaped_ok c.(ef_length))
  (Hcount : c.(ef_count) = 0).

Local Instance escaped_tag_field : TagField (escaped_read_tag c) (escaped_write_tag c) :=
  fixed_tag_field c.(ef_identifier) Htag.
Local Instance escaped_format_length : LengthField (escaped_read_length c) (escaped_write_length c) :=
  escaped_length_field c.(ef_length) Hlen.

Lemma escaped_decode_laws : DecodeLaws (tlv_escaped_decode c).
Proof using Htag Hlen Hcount.
  unfold tlv_escaped_decode. rewrite Hcount.
  exact (fields_decode_laws (tf_fields (escaped_fields c)) _ _ _ _ eq_refl eq_refl eq_refl).
Qed.

Lemma escaped_codec_laws F :
  F.(f_decode) = Some (tlv_escaped_decode c) -> F.(f_measure) = Some (tlv_escaped_measure c) ->
  F.(f_encode) = Some (tlv_escaped_encode c) -> CodecLaws F.
Proof using Htag Hlen Hcount.
  unfold tlv_escaped_measure, tlv_escaped_encode. rewrite Hcount. intros Hd Hm He.
  apply (fields_codec_laws (tf_fields (escaped_fields c)) _ _ _ _ eq_refl eq_refl eq_refl eq_refl eq_refl F
    (tlv_escaped_decode c)); try done.
  - apply escaped_decode_laws.
  - unfold tlv_escaped_decode. rewrite Hcount. done.
Defined.
End EscapedFormat.

Section VariableFormat.
Context `{Platform} (c : tlv_variable_format_t)
  (Htag : variable_identifier_ok c.(vf_identifier)) (Hmax : c.(vf_identifier).(vi_max_size) <= SIZE_MAX)
  (Hlen : variable_length_ok c.(vf_length)).

Local Instance variable_format_tag : TagField (variable_read_tag c) (variable_write_tag c) :=
  variable_tag_field c.(vf_identifier) Htag Hmax.
Local Instance variable_format_length : LengthField (variable_read_length c) (variable_write_length c) :=
  variable_length_field c.(vf_length) Hlen.

Lemma variable_decode_laws : DecodeLaws (tlv_variable_decode c).
Proof using Htag Hmax Hlen.
  exact (fields_decode_laws (variable_fields c) _ _ _ _ eq_refl eq_refl eq_refl).
Qed.

Lemma variable_codec_laws F :
  F.(f_decode) = Some (tlv_variable_decode c) -> F.(f_measure) = Some (tlv_variable_measure c) ->
  F.(f_encode) = Some (tlv_variable_encode c) -> CodecLaws F.
Proof using Htag Hmax Hlen.
  intros Hd Hm He.
  apply (fields_codec_laws (variable_fields c) _ _ _ _ eq_refl eq_refl eq_refl eq_refl eq_refl F
    (tlv_variable_decode c)); try done.
  apply variable_decode_laws.
Defined.
End VariableFormat.

(** The members of a variable configuration are values of their C types. *)
Record variable_typed `{Platform} (c : tlv_variable_format_t) : Prop := {
  vt_max_size : 0 <= c.(vf_identifier).(vi_max_size) <= SIZE_MAX;
  vt_bit : 0 <= c.(vf_length).(vl_long_form_bit) < 256;
  vt_mask : 0 <= c.(vf_length).(vl_payload_mask) < 256;
  vt_max_value : forall p, c.(vf_length).(vl_policy) = Some p -> p.(lp_max_value) <= UINT64_MAX }.

Lemma variable_format_init_ok `{Platform} c f0 self f :
  variable_typed c -> tlv_variable_format_init (Some f0) self (Some c) = (TLV_OK, Some f) ->
  variable_identifier_ok c.(vf_identifier) /\ variable_length_ok c.(vf_length) /\
  f.(f_decode) = Some (tlv_variable_decode c) /\ f.(f_measure) = Some (tlv_variable_measure c) /\
  f.(f_encode) = Some (tlv_variable_encode c) /\ f.(f_self) = self.
Proof.
  intros [Hm Hb Hk Hv] E. unfold tlv_variable_format_init, tlv_variable_fields_init in E.
  destruct (is_ok (identifier_validate _)) eqn:E1; cbn [negb] in E.
  2: { rewrite E1 in E. cbn [negb] in E. injection E as E. rewrite E in E1. done. }
  destruct (is_ok (length_validate _)) eqn:E2; cbn [negb] in E.
  2: { rewrite E2 in E. cbn [negb] in E. injection E as E. rewrite E in E2. done. }
  apply is_ok_true in E1, E2. destruct (order_invalid _ || _); [done|].
  destruct (match vf_constructed c with Some _ => _ | None => _ end) in E; [done|].
  split; [split; [lia|done]|]. split; [split; done|].
  rewrite is_ok_OK in E. cbn in E. destruct (is_some (vf_constructed c)); injection E as <-; done.
Qed.

(** ** The wire octets of an element *)

(** The count the header carries. *)
Definition wire_count (scope : tlv_length_scope_t) (tag value : list Z) : Z :=
  if is_tag_scope scope then zlen value + zlen tag else zlen value.
Definition wire_octets (order : tlv_element_order_t) (tag count value : list Z) : list Z :=
  (if is_tlv order then tag ++ count else count ++ tag) ++ value.

Definition fixed_wire (c : tlv_fixed_format_t) (tag value : list Z) : option (list Z) :=
  let n := wire_count c.(bc_length_scope) tag value in
  if (zlen tag =? c.(bc_identifier).(fi_size)) && (n <=? UINT64_MAX) && (n <? 256 ^ c.(bc_length).(fl_size))
  then Some (wire_octets c.(bc_element_order) tag (fixed_length_octets c.(bc_length) n) value)
  else None.

Definition variable_wire (c : tlv_variable_format_t) (tag value : list Z) : option (list Z) :=
  let n := wire_count c.(vf_length_scope) tag value in
  if identifier_admits c.(vf_identifier) tag && (n <=? UINT64_MAX) && vl_encodable c.(vf_length) n
  then Some (wire_octets c.(vf_element_order) tag (variable_octets c.(vf_length) n) value)
  else None.

Lemma wire_count_nonneg scope tag value : 0 <= wire_count scope tag value.
Proof. unfold wire_count. destruct (is_tag_scope _); lia. Qed.

(** ** Properties *)

(** A format the fixed-width initializer accepts, in either field order, byte order and count scope,
    encodes every element it can represent into its wire octets and nothing else, and decoding those
    octets, with any bytes behind them, gives the same tag and value back. *)
Theorem fixed_format_roundtrip `{Platform} (c : tlv_fixed_format_t) (f0 f : tlv_format_t) (self : ptr)
  (m : mem) (e : tlv_element_t) (data : ptr) (capacity size w0 : Z) (d0 : tlv_decoded_t)
  (w : list Z) (Hi : 0 <= c.(bc_identifier).(fi_size) <= SIZE_MAX) (Hl : 0 <= c.(bc_length).(fl_size))
  (Hinit : tlv_fixed_format_init (Some f0) self (Some c) = (TLV_OK, Some f)) (He : element_ok e)
  (Hw : fixed_wire c (tag_bytes m e.(e_tag)) (value_bytes m e.(e_value)) = Some w)
  (Hd : data <> NULL) (Hcap : zlen w <= capacity <= SIZE_MAX) (Hsize : zlen w <= size <= SIZE_MAX)
  (Hap : element_apart e data (zlen w)) :
  exists m' d, tlv_format_encode (Some f) m (Some e) data capacity (Some w0) None =
                 (TLV_OK, m', Some (zlen w), None) /\
    only_changes m m' data (zlen w) /\ bytes_of m' data (zlen w) = w /\
    tlv_format_decode (Some f) m' data size (Some d0) None = (TLV_OK, Some d, None) /\
    d.(d_source).(s_size) = zlen w /\
    tag_bytes m' d.(d_element).(e_tag) = tag_bytes m e.(e_tag) /\
    value_bytes m' d.(d_element).(e_value) = value_bytes m e.(e_value).
Proof.
  apply fixed_format_init_ok in Hinit as (H1 & H2 & H3 & ->); try done.
  set (F := mk_format _ _ _ _ _). set (L := binary_codec_laws c H1 H2 H3 F eq_refl eq_refl eq_refl).
  apply (codec_roundtrip F (CodecLaws0 := L)); try done; try lia.
  pose proof (wire_count_nonneg (bc_length_scope c) (tag_bytes m (e_tag e)) (value_bytes m (e_value e))).
  unfold fixed_wire in Hw. set (n := wire_count _ _ _) in *.
  destruct (_ && _) eqn:E in Hw; [|done]. rewrite !andb_true_iff in E. destruct E as [[E1 E2] E3].
  cbn [cl_wire L binary_codec_laws fields_codec_laws]. unfold fields_wire.
  change (fields_count (binary_fields c) _ _) with n.
  cbn [tag_adm len_enc binary_tag_field fixed_tag_field binary_length_field fixed_length_field].
  now rewrite E1, E2, E3.
Qed.

(** A two-octet tag and a little-endian two-octet count of tag and value, count first. *)
Definition fixed_example : tlv_fixed_format_t :=
  mk_binary (mk_fixed_identifier 2) (mk_fixed_length 2 TLV_BYTE_ORDER_LITTLE_ENDIAN)
    TLV_ELEMENT_ORDER_LTV TLV_LENGTH_SCOPE_TAG_AND_VALUE.
Definition fixed_example_format : tlv_format_t :=
  mk_format (Ptr 100 0) (Some (tlv_binary_decode (H := LP64) fixed_example))
    (Some (tlv_binary_measure fixed_example)) (Some (tlv_binary_encode (H := LP64) fixed_example)) None.
Definition example_element : tlv_element_t :=
  mk_element (tlv_tag (Ptr 1 0) 2) (mk_value (Ptr 1 2) 3).

Lemma fixed_format_roundtrip_witness :
  exists m' d, @tlv_format_encode LP64 (Some fixed_example_format) (mem_of 1 [10; 20; 1; 2; 3])
                 (Some example_element) (Ptr 2 0) 9 (Some 0) None = (TLV_OK, m', Some 7, None) /\
    bytes_of m' (Ptr 2 0) 7 = [5; 0; 10; 20; 1; 2; 3] /\
    value_bytes m' d.(d_element).(e_value) = [1; 2; 3].
Proof.
  destruct (fixed_format_roundtrip (H := LP64) fixed_example fixed_example_format fixed_example_format
    (Ptr 100 0) (mem_of 1 [10; 20; 1; 2; 3]) example_element (Ptr 2 0) 9 20 0 no_decoded
    [5; 0; 10; 20; 1; 2; 3] ltac:(vm_compute; intuition congruence) ltac:(vm_compute; congruence) eq_refl
    ltac:(split; split; vm_compute; intuition congruence) eq_refl ltac:(congruence)
    ltac:(vm_compute; intuition congruence) ltac:(vm_compute; intuition congruence)
    ltac:(split; left; congruence)) as (m' & d & He & _ & Hb & _ & _ & _ & Hv).
  exists m', d. split; [exact He|]. split; [exact Hb|exact Hv].
Defined.

(** C17. The formats of variable-width identifiers and lengths lose nothing: every element whose tag the configuration's
    reader accepts and whose length its policy can represent survives encoding and decoding. *)
Theorem variable_format_roundtrip `{Platform} (c : tlv_variable_format_t) (f0 f : tlv_format_t)
  (self : ptr) (m : mem) (e : tlv_element_t) (data : ptr) (capacity size w0 : Z)
  (d0 : tlv_decoded_t) (w : list Z) (Hc : variable_typed c)
  (Hinit : tlv_variable_format_init (Some f0) self (Some c) = (TLV_OK, Some f)) (He : element_ok e)
  (Hw : variable_wire c (tag_bytes m e.(e_tag)) (value_bytes m e.(e_value)) = Some w)
  (Hd : data <> NULL) (Hcap : zlen w <= capacity <= SIZE_MAX) (Hsize : zlen w <= size <= SIZE_MAX)
  (Hap : element_apart e data (zlen w)) :
  exists m' d, tlv_format_encode (Some f) m (Some e) data capacity (Some w0) None =
                 (TLV_OK, m', Some (zlen w), None) /\
    only_changes m m' data (zlen w) /\ bytes_of m' data (zlen w) = w /\
    tlv_format_decode (Some f) m' data size (Some d0) None = (TLV_OK, Some d, None) /\
    d.(d_source).(s_size) = zlen w /\
    tag_bytes m' d.(d_element).(e_tag) = tag_bytes m e.(e_tag) /\
    value_bytes m' d.(d_element).(e_value) = value_bytes m e.(e_value).
Proof.
  apply variable_format_init_ok in Hinit as (H1 & H3 & Hfd & Hfm & Hfe & _); [|done].
  pose proof (proj2 (vt_max_size c Hc)) as H2.
  set (L := variable_codec_laws c H1 H2 H3 f Hfd Hfm Hfe).
  apply (codec_roundtrip f (CodecLaws0 := L)); try done; try lia.
  pose proof (wire_count_nonneg (vf_length_scope c) (tag_bytes m (e_tag e)) (value_bytes m (e_value e))).
  unfold variable_wire in Hw. set (n := wire_count _ _ _) in *.
  destruct (_ && _) eqn:E in Hw; [|done]. rewrite !andb_true_iff in E. destruct E as [[E1 E2] E3].
  cbn [cl_wire L variable_codec_laws fields_codec_laws]. unfold fields_wire.
  change (fields_count (variable_fields c) _ _) with n.
  cbn [tag_adm len_enc variable_format_tag variable_tag_field variable_format_length variable_length_field].
  rewrite E1, E2, E3. rewrite (proj2 (Z.leb_le 0 n)) by lia. exact Hw.
Qed.

(** BER-like tags and lengths. *)
Definition variable_example : tlv_variable_format_t :=
  mk_variable_format example_variable_identifier example_variable_length TLV_ELEMENT_ORDER_TLV
    TLV_LENGTH_SCOPE_VALUE None.
Definition variable_example_format : tlv_format_t :=
  mk_format (Ptr 100 0) (Some (tlv_variable_decode (H := LP64) variable_example))
    (Some (tlv_variable_measure variable_example)) (Some (tlv_variable_encode (H := LP64) variable_example)) None.

Lemma variable_example_typed : variable_typed (H := LP64) variable_example.
Proof.
  split; [vm_compute; intuition congruence|simpl; lia|simpl; lia|]. intros p [= <-]. simpl. lia.
Qed.

Lemma variable_example_init :
  @tlv_variable_format_init LP64 (Some variable_example_format) (Ptr 100 0) (Some variable_example) =
  (TLV_OK, Some variable_example_format).
Proof. reflexivity. Qed.

Lemma variable_format_roundtrip_witness :
  exists m' d, @tlv_format_encode LP64 (Some variable_example_format) (mem_of 1 [159; 66; 1; 2; 3])
                 (Some example_element) (Ptr 2 0) 9 (Some 0) None = (TLV_OK, m', Some 6, None) /\
    bytes_of m' (Ptr 2 0) 6 = [159; 66; 3; 1; 2; 3] /\
    value_bytes m' d.(d_element).(e_value) = [1; 2; 3].
Proof.
  destruct (variable_format_roundtrip (H := LP64) variable_example variable_example_format
    variable_example_format (Ptr 100 0) (mem_of 1 [159; 66; 1; 2; 3]) example_element (Ptr 2 0) 9 20 0
    no_decoded [159; 66; 3; 1; 2; 3]
    variable_example_typed variable_example_init
    ltac:(split; split; vm_compute; intuition congruence) eq_refl ltac:(congruence)
    ltac:(vm_compute; intuition congruence) ltac:(vm_compute; intuition congruence)
    ltac:(split; left; congruence)) as (m' & d & He & _ & Hb & _ & _ & _ & Hv).
  exists m', d. split; [exact He|]. split; [exact Hb|exact Hv].
Defined.
