(* ===== verification/PackedFormat.v ===== *)
(** * The packed format (formats/packed.h, src/formats/packed.c)

    Tag and count are bit fields of one header integer; the canonical tag of type [t] is entry [t] of
    a caller-supplied table of big-endian identifiers. *)

From S2P Require Import Prelude Mem Core Endian Format FieldFixed FieldPacked WireFormat Compose.

Record tlv_packed_layout_t := mk_packed_layout {
  pl_header_size : Z; pl_tag : tlv_packed_field_t; pl_length : tlv_packed_field_t;
  pl_length_scope : tlv_length_scope_t;
  pl_tag_storage : ptr; pl_tag_size : Z; pl_tag_storage_size : Z }.

Definition envelope (field : tlv_packed_field_t) : tlv_range_t :=
  let first := field.(pf_bit_offset) / 8 in
  let last := (field.(pf_bit_offset) + field.(pf_bit_width) - 1) / 8 in
  let offset := if order_is field.(pf_byte_order) TLV_BYTE_ORDER_LITTLE_ENDIAN then first
                else field.(pf_storage_size) - last - 1 in
  mk_range offset (last - first + 1) true.

(** The field reads of the C function are from eight zero octets: they fail exactly when the field's
    configuration is invalid. *)
Definition tlv_packed_layout_validate `{Platform} (layout : option tlv_packed_layout_t)
  : tlv_result_t :=
  match layout with
  | None => TLV_ERR_NULL_ARG
  | Some f =>
      if is_null f.(pl_tag_storage) then TLV_ERR_NULL_ARG
      else if (f.(pl_header_size) =? 0) || (8 <? f.(pl_header_size)) ||
              negb (f.(pl_tag).(pf_storage_size) =? f.(pl_header_size)) ||
              negb (f.(pl_length).(pf_storage_size) =? f.(pl_header_size)) then TLV_ERR_INVALID_ARG
      else
        let zero := fun _ _ : Z => 0 in
        let '(rc, _) := tlv_packed_field_read (Some f.(pl_tag)) zero (Ptr 0 0) 8 (Some 0) in
        if negb (is_ok rc) then rc else
        let '(rc, _) := tlv_packed_field_read (Some f.(pl_length)) zero (Ptr 0 0) 8 (Some 0) in
        if negb (is_ok rc) then rc
        else if negb (order_is f.(pl_tag).(pf_byte_order) f.(pl_length).(pf_byte_order)) ||
                ((f.(pl_tag).(pf_bit_offset) <?
                    f.(pl_length).(pf_bit_offset) + f.(pl_length).(pf_bit_width)) &&
                 (f.(pl_length).(pf_bit_offset) <?
                    f.(pl_tag).(pf_bit_offset) + f.(pl_tag).(pf_bit_width))) ||
                (negb (is_value_scope f.(pl_length_scope)) && negb (is_tag_scope f.(pl_length_scope))) ||
                (f.(pl_tag_size) <? (f.(pl_tag).(pf_bit_width) + 7) / 8) || (8 <? f.(pl_tag_size))
        then TLV_ERR_INVALID_ARG
        else if size_bits <=? f.(pl_tag).(pf_bit_width) then TLV_ERR_OVERFLOW
        else
          let entries := usize (Z.shiftl 1 f.(pl_tag).(pf_bit_width)) in
          if SIZE_MAX / f.(pl_tag_size) <? entries then TLV_ERR_OVERFLOW
          else if f.(pl_tag_storage_size) <? usize (entries * f.(pl_tag_size)) then TLV_ERR_INVALID_ARG
          else TLV_OK
  end.

(** [packed_failure] and [field_failure]: the detail they leave in the error. *)
Definition packed_failure (region : tlv_region_t) (offset required : Z)
  (tag length value : tlv_range_t) : tlv_format_error_t :=
  mk_ferr region offset true required true tag length value.

Definition field_failure (error : tlv_format_error_t) (region : tlv_region_t)
  (field : tlv_packed_field_t) : tlv_format_error_t :=
  failure error region (envelope field).(r_offset).

(** The value of a read whose result the code ignores. *)
Definition ignored (r : tlv_result_t * option Z) : Z := cell 0 (snd r).

(** Out-parameters and the element are passed by the format layer, never as NULL: those tests of the
    three callbacks have no counterpart. *)
Definition tlv_packed_decode `{Platform} (layout : option tlv_packed_layout_t) : tlv_decode_fn :=
  fun m data size result error =>
    if is_null data && negb (size =? 0) then (TLV_ERR_NULL_ARG, result, error) else
    let rc := tlv_packed_layout_validate layout in
    match layout with
    | None => (rc, result, error)
    | Some f =>
        if negb (is_ok rc) then (rc, result, error)
        else if size <? f.(pl_header_size) then
          (TLV_ERR_TRUNCATED, result,
           packed_failure TLV_REGION_HEADER 0 f.(pl_header_size) no_range no_range no_range)
        else
          let tag := envelope f.(pl_tag) in
          let count_field := envelope f.(pl_length) in
          let type := ignored (tlv_packed_field_read (Some f.(pl_tag)) m data size (Some 0)) in
          let count := ignored (tlv_packed_field_read (Some f.(pl_length)) m data size (Some 0)) in
          if is_tag_scope f.(pl_length_scope) && (count <? tag.(r_size)) then
            (TLV_ERR_INVALID_LENGTH, result,
             packed_failure TLV_REGION_LENGTH count_field.(r_offset) f.(pl_header_size) tag count_field
               no_range)
          else
            let count := if is_tag_scope f.(pl_length_scope) then count - tag.(r_size) else count in
            if size - f.(pl_header_size) <? count then
              (TLV_ERR_TRUNCATED, result,
               packed_failure TLV_REGION_VALUE f.(pl_header_size) count tag count_field
                 (mk_range f.(pl_header_size) (size - f.(pl_header_size)) true))
            else
              let length := usize count in
              let canonical_tag :=
                tlv_tag (f.(pl_tag_storage) +p (usize type * f.(pl_tag_size))) f.(pl_tag_size) in
              let canonical :=
                ignored (tlv_read_uint m canonical_tag.(t_data) f.(pl_tag_size)
                           TLV_BYTE_ORDER_BIG_ENDIAN (Some 0)) in
              if negb (canonical =? type) then
                (TLV_ERR_INVALID_TAG, result,
                 packed_failure TLV_REGION_TAG tag.(r_offset) count tag count_field
                   (mk_range f.(pl_header_size) length true))
              else
                (TLV_OK,
                 mk_decoded
                   (mk_element canonical_tag (mk_value (data +p f.(pl_header_size)) length))
                   (mk_source NULL (f.(pl_header_size) + length) (mk_range 0 f.(pl_header_size) true) tag
                      count_field (mk_range f.(pl_header_size) length true)
                      (mk_range (f.(pl_header_size) + length) 0 true) empty_element NULL
                      TLV_TAG_BINDING_FORMAT),
                 error)
    end.

Definition tlv_packed_measure `{Platform} (layout : option tlv_packed_layout_t) : tlv_measure_fn :=
  fun m element result error =>
    let rc := tlv_packed_layout_validate layout in
    match layout with
    | None => (rc, result, error)
    | Some f =>
        if negb (is_ok rc) then (rc, result, error) else
        let tag := element.(e_tag) in
        let rc :=
          if is_null tag.(t_data) && negb (tag.(t_size) =? 0) then TLV_ERR_NULL_ARG
          else if negb (tag.(t_size) =? f.(pl_tag_size)) then TLV_ERR_INVALID_TAG_SIZE
          else
            let type := ignored (tlv_read_uint m tag.(t_data) f.(pl_tag_size)
                                   TLV_BYTE_ORDER_BIG_ENDIAN (Some 0)) in
            if packed_mask f.(pl_tag).(pf_bit_width) <? type then TLV_ERR_INVALID_TAG else TLV_OK in
        if negb (is_ok rc) then (rc, result, field_failure error TLV_REGION_TAG f.(pl_tag)) else
        let overhead := if is_tag_scope f.(pl_length_scope) then (envelope f.(pl_tag)).(r_size) else 0 in
        let maximum := packed_mask f.(pl_length).(pf_bit_width) in
        let v := element.(e_value).(v_size) in
        if (maximum <? overhead) || (maximum - overhead <? v) || (UINT64_MAX - f.(pl_header_size) <? v)
        then (TLV_ERR_INVALID_LENGTH, result, field_failure error TLV_REGION_LENGTH f.(pl_length))
        else (TLV_OK, mk_encoding f.(pl_header_size) v 0 (f.(pl_header_size) + v), error)
    end.

Definition tlv_packed_encode `{Platform} (layout : option tlv_packed_layout_t) : tlv_encode_fn :=
  fun m element data capacity written error =>
    if is_null data then (TLV_ERR_NULL_ARG, m, written, error) else
    let '(rc, sizes, error) := tlv_packed_measure layout m element no_encoding error in
    match layout with
    | None => (rc, m, written, error)
    | Some f =>
        if negb (is_ok rc) then (rc, m, written, error) else
        let rc :=
          if negb (element.(e_value).(v_size) =? 0) && is_null element.(e_value).(v_data) then
            TLV_ERR_NULL_ARG
          else if capacity <? sizes.(en_total) then TLV_ERR_BUFFER_TOO_SHORT
          else TLV_OK in
        if negb (is_ok rc) then
          (rc, m, written, field_failure error TLV_REGION_LENGTH f.(pl_length))
        else
          let type := ignored (tlv_read_uint m element.(e_tag).(t_data) f.(pl_tag_size)
                                 TLV_BYTE_ORDER_BIG_ENDIAN (Some 0)) in
          let count := element.(e_value).(v_size) in
          let count := if is_tag_scope f.(pl_length_scope)
                       then u64 (count + (envelope f.(pl_tag)).(r_size)) else count in
          let m := memset m data 0 f.(pl_header_size) in
          let m := snd (tlv_packed_field_write (Some f.(pl_tag)) m data capacity type) in
          let m := snd (tlv_packed_field_write (Some f.(pl_length)) m data capacity count) in
          let m := if negb (element.(e_value).(v_size) =? 0) then
                     memcpy m (data +p f.(pl_header_size)) element.(e_value).(v_data)
                       (usize element.(e_value).(v_size))
                   else m in
          (TLV_OK, m, usize sizes.(en_total), error)
    end.

(** ** What a valid layout is *)

(** The members are values of their unsigned C types. *)
Definition layout_typed `{Platform} (f : tlv_packed_layout_t) : Prop :=
  0 <= f.(pl_tag).(pf_bit_offset) /\ 0 <= f.(pl_tag).(pf_bit_width) /\
  0 <= f.(pl_length).(pf_bit_offset) /\ 0 <= f.(pl_length).(pf_bit_width) /\
  0 <= f.(pl_header_size) /\ 0 <= f.(pl_tag_storage_size) <= SIZE_MAX.

Record layout_ok `{Platform} (f : tlv_packed_layout_t) : Prop := {
  lo_table : f.(pl_tag_storage) <> NULL;
  lo_header : 1 <= f.(pl_header_size) <= 8;
  lo_tag_size : f.(pl_tag).(pf_storage_size) = f.(pl_header_size);
  lo_length_size : f.(pl_length).(pf_storage_size) = f.(pl_header_size);
  lo_tag : packed_ok f.(pl_tag);
  lo_length : packed_ok f.(pl_length);
  lo_order : f.(pl_tag).(pf_byte_order) = f.(pl_length).(pf_byte_order);
  lo_disjoint : f.(pl_tag).(pf_bit_offset) + f.(pl_tag).(pf_bit_width) <= f.(pl_length).(pf_bit_offset) \/
                f.(pl_length).(pf_bit_offset) + f.(pl_length).(pf_bit_width) <= f.(pl_tag).(pf_bit_offset);
  lo_width : f.(pl_tag).(pf_bit_width) < size_bits;
  lo_entry : (f.(pl_tag).(pf_bit_width) + 7) / 8 <= f.(pl_tag_size) <= 8 /\ 1 <= f.(pl_tag_size);
  lo_entries : 2 ^ f.(pl_tag).(pf_bit_width) * f.(pl_tag_size) <= f.(pl_tag_storage_size) }.

Lemma zero_read_ok f :
  is_ok (fst (tlv_packed_field_read (Some f) (fun _ _ => 0) (Ptr 0 0) 8 (Some 0))) = true ->
  packed_validate f = TLV_OK.
Proof.
  unfold tlv_packed_field_read. cbn [is_null]. cbv zeta. destruct (is_ok (packed_validate f)) eqn:E; cbn [negb].
  - intros _. now apply is_ok_true.
  - intros H. cbn in H. congruence.
Qed.

Lemma layout_validate_ok `{Platform} f :
  layout_typed f -> tlv_packed_layout_validate (Some f) = TLV_OK -> layout_ok f.
Proof.
  intros (Ht1 & Ht2 & Hl1 & Hl2 & Hh & Hst) E. unfold tlv_packed_layout_validate in E.
  destruct (is_null (pl_tag_storage f)) eqn:En; [done|].
  destruct ((pl_header_size f =? 0) || _ || _ || _) eqn:E1; [done|]. cbv zeta in E.
  destruct (tlv_packed_field_read (Some (pl_tag f)) _ _ _ _) as [rc1 x1] eqn:R1.
  destruct (is_ok rc1) eqn:O1; cbn [negb] in E; [|subst; done].
  destruct (tlv_packed_field_read (Some (pl_length f)) _ _ _ _) as [rc2 x2] eqn:R2.
  destruct (is_ok rc2) eqn:O2; cbn [negb] in E; [|subst; done].
  assert (packed_validate (pl_tag f) = TLV_OK) as V1 by (apply zero_read_ok; now rewrite R1).
  assert (packed_validate (pl_length f) = TLV_OK) as V2 by (apply zero_read_ok; now rewrite R2).
  destruct (negb (order_is _ _) || _ || _ || _ || _) eqn:E2; [done|].
  destruct (size_bits <=? _) eqn:E3; [done|].
  destruct (SIZE_MAX / _ <? _) eqn:E4; [done|]. destruct (pl_tag_storage_size f <? _) eqn:E5; [done|].
  rewrite !orb_false_iff, !negb_false_iff in E1. rewrite !orb_false_iff, andb_false_iff, negb_false_iff in E2.
  destruct E1 as (((H1 & H2) & H3) & H4). destruct E2 as ((((O & D) & _) & S1) & S2).
  apply valid_packed_ok in V1; [|lia|done|done]. apply valid_packed_ok in V2; [|lia|done|done].
  unfold order_is in O. apply bool_decide_eq_true in O.
  pose proof (po_width _ V1). assert (1 <= pl_tag_size f).
  { assert (1 <= (pf_bit_width (pl_tag f) + 7) / 8) by (apply Z.div_le_lower_bound; lia). lia. }
  assert (0 < 2 ^ pf_bit_width (pl_tag f) <= SIZE_MAX) as Hp.
  { unfold SIZE_MAX. split; [apply Z.pow_pos_nonneg; lia|].
    assert (2 ^ pf_bit_width (pl_tag f) < 2 ^ size_bits) by (apply Z.pow_lt_mono_r; lia). lia. }
  rewrite Z.shiftl_1_l in E4, E5. rewrite (usize_small (2 ^ pf_bit_width (pl_tag f))) in E4, E5 by lia.
  assert (2 ^ pf_bit_width (pl_tag f) * pl_tag_size f <= SIZE_MAX) as Hm.
  { apply Z.ltb_ge in E4. pose proof (Z.mul_div_le SIZE_MAX (pl_tag_size f)). nia. }
  rewrite usize_small in E5 by nia.
  split; try done; try zlia. by destruct (pl_tag_storage f).
Qed.

(** ** Encoding and decoding *)

Section Layout.
Context `{Platform} (f : tlv_packed_layout_t) (Hf : layout_ok f)
  (Hvalid : tlv_packed_layout_validate (Some f) = TLV_OK).

(** The two integers of a header, and the canonical tag of a type. *)
Definition header_type (m : mem) (data : ptr) : Z :=
  extract_bits (packed_storage m data f.(pl_tag)) f.(pl_tag).(pf_bit_offset) f.(pl_tag).(pf_bit_width).
Definition header_count (m : mem) (data : ptr) : Z :=
  extract_bits (packed_storage m data f.(pl_length)) f.(pl_length).(pf_bit_offset)
    f.(pl_length).(pf_bit_width).
Definition overhead : Z := if is_tag_scope f.(pl_length_scope) then (envelope f.(pl_tag)).(r_size) else 0.
Definition table_entry (type : Z) : ptr := f.(pl_tag_storage) +p (type * f.(pl_tag_size)).

Lemma envelope_range g : packed_ok g -> g.(pf_storage_size) = f.(pl_header_size) ->
  1 <= (envelope g).(r_size) <= 8 /\ 0 <= (envelope g).(r_offset) /\
  (envelope g).(r_offset) + (envelope g).(r_size) <= f.(pl_header_size).
Proof using.
  intros [Ps Pw Po Pf Por] Hs. unfold envelope. cbn [r_size r_offset].
  set (first := pf_bit_offset g / 8). set (last := (pf_bit_offset g + pf_bit_width g - 1) / 8).
  assert (0 <= first /\ first <= last /\ last < pl_header_size f).
  { unfold first, last. split; [apply Z.div_pos; lia|]. split; [apply Z.div_le_mono; lia|].
    apply Z.div_lt_upper_bound; lia. }
  destruct (order_is _ _); lia.
Qed.

Lemma read_type m data size : data <> NULL -> f.(pl_header_size) <= size ->
  ignored (tlv_packed_field_read (Some f.(pl_tag)) m data size (Some 0)) = header_type m data.
Proof using Hf. intros. destruct Hf. rewrite packed_read_value by (done || lia). done. Qed.

Lemma read_count m data size : data <> NULL -> f.(pl_header_size) <= size ->
  ignored (tlv_packed_field_read (Some f.(pl_length)) m data size (Some 0)) = header_count m data.
Proof using Hf. intros. destruct Hf. rewrite packed_read_value by (done || lia). done. Qed.

Lemma read_canonical m p : p <> NULL ->
  ignored (tlv_read_uint m p f.(pl_tag_size) TLV_BYTE_ORDER_BIG_ENDIAN (Some 0)) =
  be_value (bytes_of m p f.(pl_tag_size)).
Proof using Hf. intros. destruct Hf. rewrite read_uint_value by (done || lia). done. Qed.

(** The result of decoding a header of type [type] before [v] value octets. *)
Definition packed_result (data : ptr) (type v : Z) : tlv_decoded_t :=
  mk_decoded
    (mk_element (tlv_tag (table_entry type) f.(pl_tag_size)) (mk_value (data +p f.(pl_header_size)) v))
    (mk_source NULL (f.(pl_header_size) + v) (mk_range 0 f.(pl_header_size) true) (envelope f.(pl_tag))
       (envelope f.(pl_length)) (mk_range f.(pl_header_size) v true)
       (mk_range (f.(pl_header_size) + v) 0 true) empty_element NULL TLV_TAG_BINDING_FORMAT).

Lemma packed_result_valid data size type v :
  data <> NULL -> size <= SIZE_MAX -> 0 <= v -> f.(pl_header_size) + v <= size ->
  decoded_valid (packed_result data type v) data size = true.
Proof using Hf.
  intros Hd Hs Hv Hfit. pose proof (lo_header f Hf) as Hh.
  pose proof (envelope_range _ (lo_tag f Hf) (lo_tag_size f Hf)).
  pose proof (envelope_range _ (lo_length f Hf) (lo_length_size f Hf)).
  assert (is_null (table_entry type) = false) as Ht.
  { pose proof (lo_table f Hf). unfold table_entry. rewrite is_null_padd. by destruct (pl_tag_storage f). }
  assert (r_present (envelope (pl_tag f)) = true /\ r_present (envelope (pl_length f)) = true) as [Hp1 Hp2] by done.
  unfold decoded_valid, tag_binding_valid, range_valid, packed_result.
  set (et := envelope (pl_tag f)) in *. set (el := envelope (pl_length f)) in *. clearbody et el. simpl.
  rewrite ptr_eqb_refl, !usize_small, !Z.eqb_refl, Ht, Hp1, Hp2, Z.sub_diag by lia. rewrite !andb_true_iff.
  repeat split; zlia.
Qed.

(** A complete header and value whose type the table maps to itself. *)
Lemma packed_decode_ok m data size type v :
  data <> NULL -> size <= SIZE_MAX -> 0 <= v -> f.(pl_header_size) + v <= size ->
  header_type m data = type -> header_count m data = v + overhead -> 0 <= type <= SIZE_MAX ->
  be_value (bytes_of m (table_entry type) f.(pl_tag_size)) = type ->
  tlv_packed_decode (Some f) m data size no_decoded no_error = (TLV_OK, packed_result data type v, no_error).
Proof using Hf Hvalid.
  intros Hd Hs Hv Hfit Ht Hc Hty Hcan. unfold tlv_packed_decode.
  replace (is_null data) with false by (by destruct data). cbn [andb]. rewrite Hvalid, is_ok_OK. cbn [negb].
  pose proof (lo_header f Hf) as Hh.
  pose proof (envelope_range _ (lo_tag f Hf) (lo_tag_size f Hf)) as (He & _).
  assert (table_entry type <> NULL) as Htx
    by (pose proof (lo_table f Hf); unfold table_entry; by destruct (pl_tag_storage f)).
  rewrite (proj2 (Z.ltb_ge size _)) by lia. rewrite read_type, read_count, Ht, Hc by (done || lia). cbv zeta.
  assert (is_tag_scope (pl_length_scope f) && (v + overhead <? r_size (envelope (pl_tag f))) = false) as ->.
  { unfold overhead. destruct (is_tag_scope _); [|done]. cbn [andb]. lia. }
  assert ((if is_tag_scope (pl_length_scope f) then v + overhead - r_size (envelope (pl_tag f))
           else v + overhead) = v) as -> by (unfold overhead; destruct (is_tag_scope _); lia).
  rewrite (proj2 (Z.ltb_ge _ v)), !usize_small by lia. cbn [t_data tlv_tag].
  fold (table_entry type). now rewrite read_canonical, Hcan, Z.eqb_refl by done.
Qed.

(** The guards of [tlv_packed_measure] on an element the layout represents. *)
Definition packed_encodable (m : mem) (e : tlv_element_t) : Prop :=
  e.(e_tag).(t_size) = f.(pl_tag_size) /\ e.(e_tag).(t_data) <> NULL /\
  be_value (tag_bytes m e.(e_tag)) < 2 ^ f.(pl_tag).(pf_bit_width) /\
  0 <= e.(e_value).(v_size) /\ (e.(e_value).(v_data) = NULL -> e.(e_value).(v_size) = 0) /\
  e.(e_value).(v_size) + overhead < 2 ^ f.(pl_length).(pf_bit_width) /\
  e.(e_value).(v_size) + f.(pl_header_size) <= UINT64_MAX.

Lemma packed_measure_ok m e en err : packed_encodable m e ->
  tlv_packed_measure (Some f) m e en err =
  (TLV_OK, mk_encoding f.(pl_header_size) e.(e_value).(v_size) 0
             (f.(pl_header_size) + e.(e_value).(v_size)), err).
Proof using Hf Hvalid.
  intros (Hts & Htd & Hty & Hv & _ & Hc & Hsum). unfold tlv_packed_measure. rewrite Hvalid, is_ok_OK.
  cbn [negb]. replace (is_null (t_data (e_tag e))) with false by (by destruct (t_data (e_tag e))). cbn [andb].
  rewrite Hts, Z.eqb_refl. cbn [negb]. rewrite read_canonical by done. unfold tag_bytes in Hty. rewrite Hts in Hty.
  pose proof (lo_tag f Hf) as [Ps Pw Po Pf Por]. pose proof (lo_length f Hf) as [Ls Lw Lo Lf Lor].
  rewrite !packed_mask_ones by lia. rewrite (proj2 (Z.ltb_ge _ (be_value _))) by lia.
  rewrite is_ok_OK. cbn [negb]. fold overhead.
  replace (_ || _ || _) with false by lia. done.
Qed.

(** What encoding leaves in the output. *)
Lemma packed_encode_ok m e data capacity w0 err :
  packed_encodable m e -> 0 <= be_value (tag_bytes m e.(e_tag)) ->
  data <> NULL -> capacity <= SIZE_MAX ->
  let total := f.(pl_header_size) + e.(e_value).(v_size) in
  total <= capacity -> disjoint_range data total e.(e_value).(v_data) e.(e_value).(v_size) ->
  exists m', tlv_packed_encode (Some f) m e data capacity w0 err = (TLV_OK, m', total, err) /\
    only_changes m m' data total /\ header_type m' data = be_value (tag_bytes m e.(e_tag)) /\
    header_count m' data = e.(e_value).(v_size) + overhead /\
    bytes_of m' (data +p f.(pl_header_size)) e.(e_value).(v_size) = value_bytes m e.(e_value).
Proof using Hf Hvalid.
  intros Henc Hty0 Hd Hcs total Hcap Hap. pose proof Henc as (Hts & Htd & Hty & Hv & Hvn & Hc & Hsum).
  pose proof Hf as [_ Hh Hst Hsl Hpt Hpl Hord Hdis _ Hent _].
  pose proof Hpt as [Ps Pw Po Pf Por]. pose proof Hpl as [Ls Lw Lo Lf Lor].
  assert (0 <= overhead <= 8) as Hov.
  { pose proof (envelope_range _ Hpt Hst) as (He & _). unfold overhead. destruct (is_tag_scope _); lia. }
  assert (2 ^ pf_bit_width (pl_length f) <= 2 ^ 64 /\ 2 ^ pf_bit_width (pl_tag f) <= 2 ^ 64) as [H64l H64t]
    by (split; apply Z.pow_le_mono_r; lia).
  unfold tlv_packed_encode. replace (is_null data) with false by (by destruct data).
  rewrite packed_measure_ok by done. rewrite is_ok_OK. cbn [negb en_total].
  replace (negb (v_size (e_value e) =? 0) && is_null (v_data (e_value e))) with false.
  2: { destruct (v_data (e_value e)); [|by rewrite andb_false_r]. rewrite Hvn by done. done. }
  rewrite (proj2 (Z.ltb_ge capacity _)) by (unfold total in *; lia). rewrite is_ok_OK. cbn [negb].
  rewrite read_canonical by done. cbv zeta.
  assert ((if is_tag_scope (pl_length_scope f) then u64 (v_size (e_value e) + r_size (envelope (pl_tag f)))
           else v_size (e_value e)) = v_size (e_value e) + overhead) as ->.
  { unfold overhead in *. destruct (is_tag_scope _); [rewrite u64_small|]; lia. }
  unfold tag_bytes in *. rewrite Hts in *. set (type := be_value _) in *. set (v := v_size (e_value e)) in *.
  set (m1 := memset m data 0 (pl_header_size f)).
  pose proof (packed_write_cases m1 data capacity (pl_tag f) type Hpt Hd ltac:(unfold total in *; lia) ltac:(lia)) as Hw1.
  rewrite (proj2 (Z.ltb_lt type _)) in Hw1 by lia. destruct Hw1 as (m2 & -> & Ho2 & Hs2). cbn [snd].
  pose proof (packed_write_cases m2 data capacity (pl_length f) (v + overhead) Hpl Hd
    ltac:(unfold total in *; lia) ltac:(lia)) as Hw2.
  rewrite (proj2 (Z.ltb_lt (v + overhead) _)) in Hw2 by lia. destruct Hw2 as (m3 & -> & Ho3 & Hs3). cbn [snd].
  rewrite Hst in Ho2. rewrite Hsl in Ho3.
  rewrite !usize_small by (unfold total in *; lia). fold total.
  assert (only_changes m m3 data (pl_header_size f)) as Hm3.
  { eapply only_trans; [apply set_range_only|]. eapply only_trans; [exact Ho2|exact Ho3]. }
  set (m4 := if negb (v =? 0) then memcpy m3 (data +p pl_header_size f) (v_data (e_value e)) v else m3).
  assert (only_changes m3 m4 (data +p pl_header_size f) v) as Hm4
    by (unfold m4; destruct (negb _); [apply memmove_only|done]).
  assert (same_bytes m4 m3 data (pl_header_size f)) as Hhd.
  { apply (only_same _ _ _ _ _ _ Hm4). destruct data; simpl; lia. }
  assert (forall g, pf_storage_size g = pl_header_size f -> packed_storage m4 data g = packed_storage m3 data g) as Hsto.
  { intros g Hg. unfold packed_storage. rewrite Hg. now rewrite (same_field_octets _ _ _ _ _ Hhd). }
  assert (forall m0, packed_storage m0 data (pl_length f) = packed_storage m0 data (pl_tag f)) as Hsame
    by (intros m0; unfold packed_storage; now rewrite Hst, Hsl, Hord).
  pose proof (packed_storage_range m1 data (pl_tag f) Ps) as [Hr1 Hr1'].
  pose proof (packed_storage_range m2 data (pl_length f) Ls) as [Hr2 Hr2'].
  exists m4. split; [done|]. split; [|split; [|split]].
  - eapply only_trans; [apply (only_prefix _ _ _ total (pl_header_size f)); [unfold total; lia|exact Hm3]|].
    apply (only_sub _ _ _ _ (pl_header_size f) v); try done; unfold total; lia.
  - unfold header_type. rewrite Hsto, <- Hsame, Hs3, extract_insert_other, Hsame, Hs2 by lia.
    apply extract_insert_same; lia.
  - unfold header_count. rewrite Hsto, Hs3 by done. apply extract_insert_same; lia.
  - assert (value_bytes m3 (e_value e) = value_bytes m (e_value e)) as <-.
    { apply same_bytes_of, (only_same _ _ _ _ _ _ Hm3). unfold total in Hap.
      destruct data, (v_data (e_value e)); simpl in *; try done. fold v in Hap. lia. }
    unfold m4, value_bytes. fold v. destruct (v =? 0) eqn:E0; cbn [negb].
    + replace v with 0 by lia. now rewrite !bytes_of_0 by lia.
    + apply bytes_of_memmove. rewrite is_null_padd. by destruct data.
Qed.
End Layout.

(** ** Properties *)

(** C18. Under every layout [tlv_packed_layout_validate] accepts, encoding an element whose tag names a
    table entry writes header and value octets only, and decoding them gives the canonical tag with
    the element's tag octets and the same value, past the checks of the format layer. *)
Theorem packed_format_roundtrip `{Platform} (f : tlv_packed_layout_t) (m : mem) (e : tlv_element_t)
  (data : ptr) (capacity size w0 : Z) (Htyped : layout_typed f)
  (Hvalid : tlv_packed_layout_validate (Some f) = TLV_OK) (He : packed_encodable f m e)
  (Hd : data <> NULL)
  (Hcap : f.(pl_header_size) + e.(e_value).(v_size) <= capacity <= SIZE_MAX)
  (Hsize : f.(pl_header_size) + e.(e_value).(v_size) <= size <= SIZE_MAX)
  (Hapart : disjoint_range data (f.(pl_header_size) + e.(e_value).(v_size)) e.(e_value).(v_data)
              e.(e_value).(v_size))
  (Htable : disjoint_range data (f.(pl_header_size) + e.(e_value).(v_size))
              (table_entry f (be_value (tag_bytes m e.(e_tag)))) f.(pl_tag_size))
  (Hentry : bytes_of m (table_entry f (be_value (tag_bytes m e.(e_tag)))) f.(pl_tag_size) =
            tag_bytes m e.(e_tag)) :
  let total := f.(pl_header_size) + e.(e_value).(v_size) in
  exists m' d, tlv_packed_encode (Some f) m e data capacity w0 no_error = (TLV_OK, m', total, no_error) /\
    only_changes m m' data total /\
    tlv_packed_decode (Some f) m' data size no_decoded no_error = (TLV_OK, d, no_error) /\
    decoded_valid d data size = true /\ d.(d_source).(s_size) = total /\
    tag_bytes m' d.(d_element).(e_tag) = tag_bytes m e.(e_tag) /\
    value_bytes m' d.(d_element).(e_value) = value_bytes m e.(e_value).
Proof.
  cbv zeta. pose proof (layout_validate_ok f Htyped Hvalid) as Hok.
  pose proof He as (Hts & _ & Hty & Hv & _). set (type := be_value (tag_bytes m (e_tag e))) in *.
  assert (0 <= type) as Hty0 by (apply be_value_range, bytes_of_bytes).
  destruct (packed_encode_ok f Hok Hvalid m e data capacity w0 no_error He Hty0 Hd ltac:(lia) ltac:(lia) Hapart)
    as (m' & Henc & Ho & Ht & Hc & Hb).
  assert (bytes_of m' (table_entry f type) (pl_tag_size f) = tag_bytes m (e_tag e)) as Hent
    by (rewrite <- Hentry; apply same_bytes_of, (only_same _ _ _ _ _ _ Ho); done).
  assert (type <= SIZE_MAX) as Htm.
  { pose proof (lo_width f Hok). pose proof (po_width _ (lo_tag f Hok)). unfold SIZE_MAX.
    assert (2 ^ pf_bit_width (pl_tag f) < 2 ^ size_bits) by (apply Z.pow_lt_mono_r; lia). lia. }
  exists m', (packed_result f data type (v_size (e_value e))). split; [done|]. split; [done|].
  split; [apply packed_decode_ok; try done; try lia; now rewrite Hent|].
  split; [apply packed_result_valid; done || lia|]. split; [done|].
  split; [exact Hent|]. unfold value_bytes at 1. simpl. exact Hb.
Qed.

(** A two-octet header, a 7-bit type above a 9-bit count, as in LLDP. *)
Definition packed_example : tlv_packed_layout_t :=
  mk_packed_layout 2 (mk_packed_field 2 TLV_BYTE_ORDER_BIG_ENDIAN 9 7)
    (mk_packed_field 2 TLV_BYTE_ORDER_BIG_ENDIAN 0 9) TLV_LENGTH_SCOPE_VALUE (Ptr 3 0) 1 128.
Definition packed_example_mem : mem :=
  put_bytes (mem_of 3 (map Z.of_nat (seq 0 128))) 1 [5; 1; 2; 3].
Definition packed_example_element : tlv_element_t :=
  mk_element (tlv_tag (Ptr 1 0) 1) (mk_value (Ptr 1 1) 3).

Lemma packed_format_roundtrip_witness :
  exists m' d, @tlv_packed_encode LP64 (Some packed_example) packed_example_mem packed_example_element
                 (Ptr 2 0) 9 0 no_error = (TLV_OK, m', 5, no_error) /\
    bytes_of m' (Ptr 2 0) 5 = [10; 3; 1; 2; 3] /\
    @tlv_packed_decode LP64 (Some packed_example) m' (Ptr 2 0) 5 no_decoded no_error =
      (TLV_OK, d, no_error).
Proof.
  destruct (packed_format_roundtrip (H := LP64) packed_example packed_example_mem packed_example_element
    (Ptr 2 0) 9 5 0 ltac:(repeat split; vm_compute; congruence) ltac:(vm_compute; reflexivity)
    ltac:(repeat split; vm_compute; congruence) ltac:(congruence)
    ltac:(split; vm_compute; congruence) ltac:(split; vm_compute; congruence)
    ltac:(left; congruence) ltac:(left; congruence) ltac:(vm_compute; reflexivity))
    as (m' & d & He & _ & Hdec & _).
  exists m', d. split; [exact He|]. split; [|exact Hdec].
  assert (m' = snd (fst (fst (@tlv_packed_encode LP64 (Some packed_example) packed_example_mem
    packed_example_element (Ptr 2 0) 9 0 no_error)))) as -> by (rewrite He; reflexivity).
  vm_compute. reflexivity.
Defined.
