(* ===== verification/Diagnostic.v ===== *)
(** * Diagnostics: locations, the tag path and its text (tlv/diagnostic.h, src/diagnostic.c)

    A diagnostic is a value; NULL-checked pointers to one are [option]s.  A context node's [next]
    pointer is the chain it points to; [no_context] is the NULL pointer. *)

From Stdlib Require Import String Ascii.
From S2P Require Import Prelude Mem Core.
Open Scope Z_scope.

Inductive tlv_diagnostic_severity_t : Type :=
| TLV_DIAGNOSTIC_SEVERITY_ERROR | TLV_DIAGNOSTIC_SEVERITY_WARNING | TLV_DIAGNOSTIC_SEVERITY_INFO
| TLV_DIAGNOSTIC_SEVERITY_OTHER (n : Z).

Inductive tlv_location_domain_t : Type :=
| TLV_LOCATION_DOMAIN_UNKNOWN | TLV_LOCATION_INPUT | TLV_LOCATION_OUTPUT | TLV_LOCATION_EXPRESSION
| TLV_LOCATION_DEFINITION | TLV_LOCATION_VALUE | TLV_LOCATION_DOMAIN_OTHER (n : Z).

Inductive tlv_location_kind_t : Type :=
| TLV_LOCATION_UNKNOWN | TLV_LOCATION_POINT | TLV_LOCATION_SPAN | TLV_LOCATION_SCOPE_END
| TLV_LOCATION_INSERTION | TLV_LOCATION_KIND_OTHER (n : Z).

Record tlv_location_t := mk_location {
  l_domain : tlv_location_domain_t; l_kind : tlv_location_kind_t; l_begin : Z; l_end : Z }.
Definition no_location : tlv_location_t :=
  mk_location TLV_LOCATION_DOMAIN_UNKNOWN TLV_LOCATION_UNKNOWN 0 0.

Inductive tlv_diagnostic_context_t : Type :=
| no_context
| mk_context (layer key value : option string) (next : tlv_diagnostic_context_t).

Definition TLV_DIAGNOSTIC_PATH_MAX : Z := 32.

Record tlv_diagnostic_path_t := mk_path { p_tags : list tlv_tag_t; p_length : Z; p_omitted : Z }.
Definition no_path : tlv_diagnostic_path_t := mk_path (replicate 32 empty_tag) 0 0.

Record tlv_diagnostic_t := mk_diagnostic {
  dg_code : tlv_result_t; dg_severity : tlv_diagnostic_severity_t; dg_location : tlv_location_t;
  dg_expected : option string; dg_actual : option string;
  dg_contexts : tlv_diagnostic_context_t; dg_has_path : bool; dg_path : tlv_diagnostic_path_t }.

Definition tlv_diagnostic_init (diagnostic : option tlv_diagnostic_t) (code : tlv_result_t)
  (severity : tlv_diagnostic_severity_t) : option tlv_diagnostic_t :=
  match diagnostic with
  | None => None
  | Some _ => Some (mk_diagnostic code severity no_location None None no_context false no_path)
  end.

(** [domain] is one of the named spaces, [kind] one of the named anchors. *)
Definition known_domain (domain : tlv_location_domain_t) : bool :=
  match domain with TLV_LOCATION_DOMAIN_UNKNOWN | TLV_LOCATION_DOMAIN_OTHER _ => false | _ => true end.
Definition known_kind (kind : tlv_location_kind_t) : bool :=
  match kind with TLV_LOCATION_UNKNOWN | TLV_LOCATION_KIND_OTHER _ => false | _ => true end.
Definition is_span (kind : tlv_location_kind_t) : bool :=
  match kind with TLV_LOCATION_SPAN => true | _ => false end.

Definition tlv_location_set (location : option tlv_location_t) (domain : tlv_location_domain_t)
  (kind : tlv_location_kind_t) (b e : Z) : option tlv_location_t :=
  match location with
  | None => None
  | Some _ =>
      if negb (known_domain domain) || negb (known_kind kind) || (e <? b) ||
         (negb (is_span kind) && negb (b =? e)) then Some no_location
      else Some (mk_location domain kind b e)
  end.

Definition tlv_location_translate `{Platform} (location : option tlv_location_t) (origin : Z)
  : option tlv_location_t :=
  match location with
  | None => None
  | Some l =>
      match l.(l_kind) with
      | TLV_LOCATION_UNKNOWN => Some l
      | kind =>
          if negb (known_domain l.(l_domain)) || negb (known_kind kind) || (l.(l_end) <? l.(l_begin)) ||
             (SIZE_MAX - origin <? l.(l_end)) ||
             (negb (is_span kind) && negb (l.(l_begin) =? l.(l_end))) then Some no_location
          else Some (mk_location l.(l_domain) kind (l.(l_begin) + origin) (l.(l_end) + origin))
      end
  end.

Definition with_location (l : tlv_location_t) (d : tlv_diagnostic_t) : tlv_diagnostic_t :=
  mk_diagnostic d.(dg_code) d.(dg_severity) l d.(dg_expected) d.(dg_actual) d.(dg_contexts)
    d.(dg_has_path) d.(dg_path).

Definition tlv_diagnostic_set_location (diagnostic : option tlv_diagnostic_t)
  (domain : tlv_location_domain_t) (kind : tlv_location_kind_t) (b e : Z) : option tlv_diagnostic_t :=
  match diagnostic with
  | None => None
  | Some d => Some (with_location (cell no_location (tlv_location_set (Some d.(dg_location)) domain kind b e)) d)
  end.

(** Returns the diagnostic and the node, which becomes the innermost context. *)
Definition tlv_diagnostic_add_context (diagnostic : option tlv_diagnostic_t)
  (context : tlv_diagnostic_context_t) (layer key value : option string)
  : option tlv_diagnostic_t * tlv_diagnostic_context_t :=
  match diagnostic, context with
  | Some d, mk_context _ _ _ _ =>
      let node := mk_context layer key value d.(dg_contexts) in
      (Some (mk_diagnostic d.(dg_code) d.(dg_severity) d.(dg_location) d.(dg_expected) d.(dg_actual)
               node d.(dg_has_path) d.(dg_path)), node)
  | _, _ => (diagnostic, context)
  end.

Definition tlv_diagnostic_set_path (diagnostic : option tlv_diagnostic_t)
  (path : option tlv_diagnostic_path_t) : option tlv_diagnostic_t :=
  match diagnostic with
  | None => None
  | Some d =>
      Some (mk_diagnostic d.(dg_code) d.(dg_severity) d.(dg_location) d.(dg_expected) d.(dg_actual)
              d.(dg_contexts) (match path with Some _ => true | None => false end) (cell no_path path))
  end.

Definition tlv_location_domain_string (domain : tlv_location_domain_t) : string :=
  match domain with
  | TLV_LOCATION_DOMAIN_UNKNOWN => "unknown"
  | TLV_LOCATION_INPUT => "input"
  | TLV_LOCATION_OUTPUT => "output"
  | TLV_LOCATION_EXPRESSION => "expression"
  | TLV_LOCATION_DEFINITION => "definition"
  | TLV_LOCATION_VALUE => "value"
  | TLV_LOCATION_DOMAIN_OTHER _ => "unknown"
  end.

Definition tlv_location_kind_string (kind : tlv_location_kind_t) : string :=
  match kind with
  | TLV_LOCATION_UNKNOWN => "unknown"
  | TLV_LOCATION_POINT => "point"
  | TLV_LOCATION_SPAN => "span"
  | TLV_LOCATION_SCOPE_END => "scope_end"
  | TLV_LOCATION_INSERTION => "insertion"
  | TLV_LOCATION_KIND_OTHER _ => "unknown"
  end.

Definition tlv_diagnostic_severity_string (severity : tlv_diagnostic_severity_t) : string :=
  match severity with
  | TLV_DIAGNOSTIC_SEVERITY_ERROR => "error"
  | TLV_DIAGNOSTIC_SEVERITY_WARNING => "warning"
  | TLV_DIAGNOSTIC_SEVERITY_INFO => "info"
  | TLV_DIAGNOSTIC_SEVERITY_OTHER _ => "unknown"
  end.

(** ** The path *)

Definition tlv_diagnostic_path_init (path : option tlv_diagnostic_path_t)
  : option tlv_diagnostic_path_t :=
  match path with None => None | Some p => Some (mk_path p.(p_tags) 0 0) end.

Definition tlv_diagnostic_path_push `{Platform} (path : option tlv_diagnostic_path_t) (tag : tlv_tag_t)
  : tlv_result_t * option tlv_diagnostic_path_t :=
  match path with
  | None => (TLV_ERR_NULL_ARG, path)
  | Some p =>
      if TLV_DIAGNOSTIC_PATH_MAX <? p.(p_length) then (TLV_ERR_INVALID_ARG, path)
      else if (p.(p_length) =? TLV_DIAGNOSTIC_PATH_MAX) || negb (p.(p_omitted) =? 0) then
        (TLV_ERR_BUFFER_TOO_SHORT,
         Some (mk_path p.(p_tags) p.(p_length)
                 (if negb (p.(p_omitted) =? SIZE_MAX) then p.(p_omitted) + 1 else p.(p_omitted))))
      else (TLV_OK, Some (mk_path (<[Z.to_nat p.(p_length) := tag]> p.(p_tags)) (p.(p_length) + 1)
                            p.(p_omitted)))
  end.

Definition tlv_diagnostic_path_pop (path : option tlv_diagnostic_path_t)
  : option tlv_diagnostic_path_t :=
  match path with
  | None => None
  | Some p =>
      if negb (p.(p_omitted) =? 0) then Some (mk_path p.(p_tags) p.(p_length) (p.(p_omitted) - 1))
      else if negb (p.(p_length) =? 0) then Some (mk_path p.(p_tags) (p.(p_length) - 1) p.(p_omitted))
      else Some p
  end.

(** ** The path's text *)

(** The codes of a C string's characters. *)
Definition text (s : string) : list Z := map (fun c => Z.of_nat (nat_of_ascii c)) (list_ascii_of_string s).

Definition hex_digits : list Z := text "0123456789ABCDEF".
Definition hex (n : Z) : Z := byte_at hex_digits n.

(** The inner loop: [n] octets of a tag remain, from octet [j]. *)
Fixpoint path_hex `{Platform} (m : mem) (out : ptr) (capacity : Z) (data : ptr) (n : nat) (j needed : Z)
  : mem * Z :=
  match n with
  | O => (m, needed)
  | S n =>
      let m :=
        if usize (needed + 2) <? capacity then
          let m := st m out needed (hex (Z.shiftr (ld m data j) 4)) in
          st m out (needed + 1) (hex (Z.land (ld m data j) 15))
        else m in
      path_hex m out capacity data n (j + 1) (usize (needed + 2))
  end.

(** Characters stored one at a time while they fit below the terminator. *)
Fixpoint path_text `{Platform} (m : mem) (out : ptr) (capacity : Z) (chars : list Z) (needed : Z)
  : mem * Z :=
  match chars with
  | [] => (m, needed)
  | c :: chars =>
      let m := if usize (needed + 1) <? capacity then st m out needed c else m in
      path_text m out capacity chars (usize (needed + 1))
  end.

(** The outer loop over the stored tags. *)
Fixpoint path_tags `{Platform} (m : mem) (out : ptr) (capacity : Z) (tags : list tlv_tag_t) (needed : Z)
  : tlv_result_t * mem * Z :=
  match tags with
  | [] => (TLV_OK, m, needed)
  | tag :: rest =>
      if (tag.(t_size) =? 0) || is_null tag.(t_data) then (TLV_ERR_INVALID_ARG, m, needed)
      else
        let '(m, needed) := path_hex m out capacity tag.(t_data) (Z.to_nat tag.(t_size)) 0 needed in
        let '(m, needed) :=
          match rest with [] => (m, needed) | _ => path_text m out capacity (text " > ") needed end in
        path_tags m out capacity rest needed
  end.

(** Returns the result, the memory and [*length]. *)
Definition tlv_diagnostic_path_string `{Platform} (path : option tlv_diagnostic_path_t) (m : mem)
  (out : ptr) (capacity : Z) (length : option Z) : tlv_result_t * mem * option Z :=
  match path with
  | None => (TLV_ERR_NULL_ARG, m, length)
  | Some p =>
      if is_null out && negb (capacity =? 0) then (TLV_ERR_NULL_ARG, m, length)
      else if TLV_DIAGNOSTIC_PATH_MAX <? p.(p_length) then (TLV_ERR_INVALID_ARG, m, length)
      else
        let '(rc, m, needed) :=
          path_tags m out capacity (firstn (Z.to_nat p.(p_length)) p.(p_tags)) 0 in
        if negb (is_ok rc) then (rc, m, length) else
        let '(m, needed) :=
          if negb (p.(p_omitted) =? 0) then
            path_text m out capacity
              (text (if negb (p.(p_length) =? 0) then " > ..." else "...")) needed
          else (m, needed) in
        let length := match length with Some _ => Some needed | None => None end in
        if capacity <? usize (needed + 1) then
          (TLV_ERR_BUFFER_TOO_SHORT, if negb (capacity =? 0) then st m out 0 0 else m, length)
        else (TLV_OK, st m out needed 0, length)
  end.

(** ** The text that is written *)

(** Two upper-case hexadecimal digits an octet, tags joined by an arrow, an ellipsis for omissions. *)
Definition hex_text (l : list Z) : list Z :=
  flat_map (fun b => [hex (Z.shiftr b 4); hex (Z.land b 15)]) l.
Fixpoint tags_text (m : mem) (tags : list tlv_tag_t) : list Z :=
  match tags with
  | [] => []
  | tag :: rest =>
      hex_text (tag_bytes m tag) ++ match rest with [] => [] | _ => text " > " ++ tags_text m rest end
  end.
Definition path_tags_list (p : tlv_diagnostic_path_t) : list tlv_tag_t :=
  firstn (Z.to_nat p.(p_length)) p.(p_tags).
Definition path_render (m : mem) (p : tlv_diagnostic_path_t) : list Z :=
  tags_text m (path_tags_list p) ++
  (if negb (p.(p_omitted) =? 0) then
     text (if negb (p.(p_length) =? 0) then " > ..." else "...") else []).

(** From [(m, n)] a step of the writer emits [s]: nothing outside the buffer changes, and when the
    characters fit below the terminator they are appended. *)
Definition emits (out : ptr) (capacity : Z) (s : list Z) (m : mem) (n : Z) (r : mem * Z) : Prop :=
  only_changes m (fst r) out capacity /\ snd r = n + zlen s /\
  (n + zlen s < capacity -> bytes_of (fst r) out (n + zlen s) = bytes_of m out n ++ s).

Section Emit.
Context `{Platform} (out : ptr) (capacity : Z) (Hcap : 0 <= capacity <= SIZE_MAX)
  (Hout : is_null out && negb (capacity =? 0) = false).

Lemma emits_nil m n : 0 <= n -> emits out capacity [] m n (m, n).
Proof using.
  intros Hn. split; [done|]. simpl. rewrite Z.add_0_r. split; [done|]. now rewrite app_nil_r.
Qed.

Lemma emits_app s1 s2 m n r1 r2 :
  0 <= n -> emits out capacity s1 m n r1 -> emits out capacity s2 (fst r1) (snd r1) r2 ->
  emits out capacity (s1 ++ s2) m n r2.
Proof using.
  intros Hn (Ho1 & E1 & B1) (Ho2 & E2 & B2). unfold emits. rewrite length_app, Nat2Z.inj_add.
  split; [eapply only_trans; done|]. rewrite E1 in *. split; [lia|]. intros Hfit.
  rewrite Z.add_assoc, B2, B1, app_assoc by lia. done.
Qed.

Lemma out_nonnull : capacity <> 0 -> is_null out = false.
Proof using Hcap Hout. intros. destruct (is_null out); [simpl in Hout; lia|done]. Qed.

Lemma emit_char m n c : 0 <= n -> n + 1 <= SIZE_MAX -> 0 <= c < 256 ->
  emits out capacity [c] m n ((if usize (n + 1) <? capacity then st m out n c else m), usize (n + 1)).
Proof using Hcap Hout.
  intros Hn Hs Hc. rewrite usize_small by lia. unfold emits. cbn [fst snd length]. change (Z.of_nat 1) with 1.
  destruct (n + 1 <? capacity) eqn:E.
  - split; [apply st_only; lia|]. split; [done|]. intros _. rewrite bytes_of_snoc by done.
    rewrite ld_st_same, u8_small by (done || apply out_nonnull; lia). f_equal.
    apply same_bytes_of. intros i Hi. apply ld_st_other. lia.
  - split; [done|]. split; [done|]. lia.
Qed.

Lemma emit_text chars m n :
  0 <= n -> n + zlen chars <= SIZE_MAX -> bytes chars ->
  emits out capacity chars m n (path_text m out capacity chars n).
Proof using Hcap Hout.
  revert m n. induction chars as [|c chars IH]; intros m n Hn Hs Hb; cbn [path_text].
  - now apply emits_nil.
  - cbn [length] in Hs. inversion Hb; subst. change (c :: chars) with ([c] ++ chars).
    pose proof (emit_char m n c Hn ltac:(lia) ltac:(done)) as He. rewrite usize_small in * by lia.
    eapply emits_app; [done|exact He|]. apply IH; [simpl; lia|simpl; lia|done].
Qed.

Lemma hex_byte n : 0 <= n < 16 -> 0 <= hex n < 256.
Proof using.
  intros Hn. assert (forallb (fun i => (0 <=? hex i) && (hex i <? 256)) (seqZ 0 16) = true) as Hall by reflexivity.
  rewrite forallb_forall in Hall. specialize (Hall n). rewrite andb_true_iff in Hall.
  assert (In n (seqZ 0 16)) as Hin by (apply list_elem_of_In, elem_of_seqZ; lia). specialize (Hall Hin). lia.
Qed.

Lemma nibbles b : 0 <= b < 256 -> 0 <= Z.shiftr b 4 < 16 /\ 0 <= Z.land b 15 < 16.
Proof using.
  intros Hb. rewrite Z.shiftr_div_pow2 by lia. change 15 with (Z.ones 4). rewrite Z.land_ones by lia.
  change (2 ^ 4) with 16. pose proof (Z.mod_pos_bound b 16).
  split; [split; [apply Z.div_pos|apply Z.div_lt_upper_bound]; lia|lia].
Qed.

Lemma emit_octet m n b : 0 <= n -> n + 2 <= SIZE_MAX -> 0 <= b < 256 ->
  emits out capacity [hex (Z.shiftr b 4); hex (Z.land b 15)] m n
    ((if usize (n + 2) <? capacity
      then st (st m out n (hex (Z.shiftr b 4))) out (n + 1) (hex (Z.land b 15)) else m), usize (n + 2)).
Proof using Hcap Hout.
  intros Hn Hs Hb. destruct (nibbles b Hb) as [H1 H2]. apply hex_byte in H1, H2.
  rewrite usize_small by lia. destruct (n + 2 <? capacity) eqn:E.
  - pose proof (emit_char m n _ Hn ltac:(lia) H1) as E1.
    pose proof (emit_char (st m out n (hex (Z.shiftr b 4))) (n + 1) _ ltac:(lia) ltac:(lia) H2) as E2.
    rewrite !usize_small in E1, E2 by lia. replace (n + 1 + 1) with (n + 2) in E2 by lia.
    rewrite E in E2. rewrite (proj2 (Z.ltb_lt (n + 1) _)) in E1 by lia.
    exact (emits_app [_] [_] _ _ _ _ Hn E1 E2).
  - split; [done|]. cbn [fst snd length]. change (Z.of_nat 2) with 2. split; [done|]. lia.
Qed.

Lemma zlen_hex_text l : zlen (hex_text l) = 2 * zlen l.
Proof using. induction l as [|b l IH]; [done|]. cbn [hex_text flat_map app length] in *. fold (hex_text l). lia. Qed.

(** A tag's octets lie outside the output. *)
Definition tag_apart (tag : tlv_tag_t) : Prop :=
  tag.(t_data) <> NULL /\ 1 <= tag.(t_size) /\ disjoint_range out capacity tag.(t_data) tag.(t_size).

Lemma emit_hex data n m needed j :
  0 <= j -> 0 <= needed -> needed + 2 * Z.of_nat n <= SIZE_MAX ->
  disjoint_range out capacity data (j + Z.of_nat n) ->
  emits out capacity (hex_text (bytes_of m (data +p j) (Z.of_nat n))) m needed
    (path_hex m out capacity data n j needed).
Proof using Hcap Hout.
  revert m needed j. induction n as [|n IH]; intros m needed j Hj Hn Hs Hd; cbn [path_hex].
  - now apply emits_nil.
  - rewrite Nat2Z.inj_succ, <- Z.add_1_l, bytes_of_app by lia.
    change (bytes_of m (data +p j) 1) with [ld m (data +p j) 0].
    rewrite ld_padd, Z.add_0_r, padd_padd. cbn [app hex_text flat_map]. fold (hex_text (bytes_of m (data +p (j + 1)) (Z.of_nat n))).
    pose proof (emit_octet m needed (ld m data j) Hn ltac:(lia) (ld_range _ _ _)) as He.
    rewrite !usize_small in He by lia. rewrite !usize_small by lia.
    match type of He with emits _ _ _ _ _ ?r => set (r1 := r) in He end.
    assert (bytes_of m (data +p (j + 1)) (Z.of_nat n) = bytes_of (fst r1) (data +p (j + 1)) (Z.of_nat n)) as ->.
    { symmetry. apply same_bytes_of, (only_same _ _ _ _ _ _ (proj1 He)). destruct out, data; simpl in *; lia || done. }
    match goal with |- emits _ _ _ _ _ (path_hex ?x _ _ _ _ _ ?y) =>
      replace x with (fst r1); [change y with (snd r1)|] end.
    2: { unfold r1. cbn [fst]. destruct (needed + 2 <? capacity) eqn:E; [|done]. do 3 f_equal.
         symmetry. apply (only_ld m _ out capacity); [apply st_only; lia| |lia].
         destruct out, data; simpl in *; lia || done. }
    apply (emits_app [_; _] _ _ _ r1 _ Hn He). apply IH; simpl; try lia.
    destruct out, data; simpl in *; lia || done.
Qed.

Lemma emit_tags tags m needed :
  Forall tag_apart tags -> 0 <= needed -> needed + zlen (tags_text m tags) <= SIZE_MAX ->
  exists r, path_tags m out capacity tags needed = (TLV_OK, fst r, snd r) /\
    emits out capacity (tags_text m tags) m needed r.
Proof using Hcap Hout.
  revert m needed. induction tags as [|tag rest IH]; intros m needed Hok Hn Hs; cbn [path_tags tags_text].
  { exists (m, needed). split; [done|]. now apply emits_nil. }
  inversion Hok as [|? ? (Hnull & Hsz & Hap) Hrest]; subst.
  rewrite (proj2 (Z.eqb_neq _ 0)) by lia. replace (is_null (t_data tag)) with false by (by destruct (t_data tag)).
  cbn [orb]. cbn [tags_text] in Hs. rewrite length_app, Nat2Z.inj_add, zlen_hex_text in Hs.
  unfold tag_bytes in *. rewrite length_bytes_of, Z2Nat.id in Hs by lia.
  pose proof (emit_hex (t_data tag) (Z.to_nat (t_size tag)) m needed 0 ltac:(lia) Hn ltac:(lia)
    ltac:(rewrite Z2Nat.id by lia; exact Hap)) as He.
  rewrite padd_0, Z2Nat.id in He by lia.
  destruct (path_hex _ _ _ _ _ _ _) as [m1 n1] eqn:E1.
  assert (forall m', only_changes m m' out capacity -> tags_text m' rest = tags_text m rest) as Hkeep.
  { clear -Hrest. induction rest as [|x rest IH]; intros m' Ho; [done|]. inversion Hrest as [|? ? (_ & _ & Hd) Hr]; subst.
    cbn [tags_text]. unfold tag_bytes. rewrite (same_bytes_of m' m) by (eapply only_same; done). f_equal.
    destruct rest; [done|]. f_equal. now apply IH. }
  destruct rest as [|next rest'] eqn:Er.
  { exists (m1, n1). split; [done|]. now rewrite app_nil_r. }
  rewrite <- Er in *. clear Er. rewrite length_app, Nat2Z.inj_add in Hs.
  change (zlen (text " > ")) with 3 in Hs.
  pose proof (emit_text (text " > ") m1 n1) as Ht. pose proof He as (_ & En1 & _). simpl in En1.
  rewrite zlen_hex_text, length_bytes_of, Z2Nat.id in En1 by lia.
  assert (bytes (text " > ")) as Hb by (repeat constructor; lia).
  specialize (Ht ltac:(lia) ltac:(change (zlen (text " > ")) with 3; lia) Hb).
  destruct (path_text m1 out capacity (text " > ") n1) as [m2 n2] eqn:E2.
  assert (only_changes m m2 out capacity) as Hm2 by (eapply only_trans; [exact (proj1 He)|exact (proj1 Ht)]).
  pose proof Ht as (_ & En2 & _). simpl in En2.
  destruct (IH m2 n2 Hrest) as (r & Hr & Hemit); [lia|rewrite Hkeep by done; lia|].
  exists r. split; [exact Hr|]. rewrite Hkeep in Hemit by done.
  eapply (emits_app _ _ _ _ (m1, n1)); [done|done|].
  eapply (emits_app _ _ _ _ (m2, n2)); [simpl; lia|done|done].
Qed.
End Emit.

(** ** Properties *)

(** Rendering a path follows the two-call protocol for every buffer size: the exact text length is
    always reported; a buffer with room for the text and its terminator receives exactly that text,
    and a smaller one an empty string, with nothing written outside it. *)
Theorem path_string_spec `{Platform} (p : tlv_diagnostic_path_t) (m : mem) (out : ptr)
  (capacity n0 : Z) (Hcap : 0 <= capacity <= SIZE_MAX)
  (Hout : is_null out && negb (capacity =? 0) = false) (Hlen : 0 <= p.(p_length) <= TLV_DIAGNOSTIC_PATH_MAX)
  (Htags : Forall (tag_apart out capacity) (path_tags_list p))
  (Htext : zlen (path_render m p) + 1 <= SIZE_MAX) :
  let n := zlen (path_render m p) in
  let '(rc, m', length) := tlv_diagnostic_path_string (Some p) m out capacity (Some n0) in
  length = Some n /\ only_changes m m' out capacity /\
  (n < capacity -> rc = TLV_OK /\ bytes_of m' out (n + 1) = path_render m p ++ [0]) /\
  (capacity <= n -> rc = TLV_ERR_BUFFER_TOO_SHORT /\ (0 < capacity -> ld m' out 0 = 0)).
Proof.
  cbv zeta. unfold tlv_diagnostic_path_string. rewrite Hout, (proj2 (Z.ltb_ge _ (p_length p))) by lia.
  fold (path_tags_list p). unfold path_render in *. rewrite length_app, Nat2Z.inj_add in *.
  set (suffix := if negb (p_omitted p =? 0) then _ else []) in *.
  destruct (emit_tags out capacity Hcap Hout (path_tags_list p) m 0 Htags ltac:(lia) ltac:(lia)) as (r & -> & He).
  rewrite is_ok_OK. cbn [negb]. pose proof He as (Ho & En & _). rewrite Z.add_0_l in En.
  assert (bytes suffix) as Hsb
    by (unfold suffix; destruct (negb (p_omitted p =? 0)), (negb (p_length p =? 0)); repeat constructor; lia).
  assert (emits out capacity suffix (fst r) (snd r)
            (if negb (p_omitted p =? 0)
             then path_text (fst r) out capacity (text (if negb (p_length p =? 0) then " > ..." else "...")) (snd r)
             else (fst r, snd r))) as Hs.
  { unfold suffix in *. destruct (negb (p_omitted p =? 0)); [|apply emits_nil; lia].
    apply emit_text; try done; lia. }
  destruct (if negb (p_omitted p =? 0) then _ else (fst r, snd r)) as [m2 n2].
  pose proof (emits_app out capacity _ _ m 0 r _ (Z.le_refl 0) He Hs) as (Hall & Hn2 & Hb).
  rewrite length_app, Nat2Z.inj_add in Hn2, Hb. cbn [fst snd] in *. rewrite Z.add_0_l in Hn2, Hb. subst n2.
  set (n := zlen (tags_text m (path_tags_list p)) + zlen suffix) in *.
  rewrite usize_small by lia. destruct (capacity <? n + 1) eqn:E.
  - split; [done|]. split; [|split; [lia|]].
    + destruct (negb (capacity =? 0)) eqn:E0; [|done]. eapply only_trans; [exact Hall|]. apply st_only. lia.
    + intros _. split; [done|]. intros H0. rewrite (proj2 (Z.eqb_neq capacity 0)) by lia. cbn [negb].
      now rewrite ld_st_same by (apply (out_nonnull out capacity); done || lia).
  - split; [done|]. split; [|split; [|lia]].
    + eapply only_trans; [exact Hall|]. apply st_only. lia.
    + intros _. split; [done|]. rewrite bytes_of_snoc by lia. rewrite ld_st_same by (apply (out_nonnull out capacity); done || lia).
      f_equal. specialize (Hb ltac:(lia)). rewrite (bytes_of_0 m) in Hb by lia. cbn [app] in Hb. rewrite <- Hb.
      apply same_bytes_of. intros i Hi. apply ld_st_other. lia.
Qed.

Definition path_example : tlv_diagnostic_path_t :=
  mk_path (mk_tag (Ptr 1 0) 2 :: mk_tag (Ptr 1 2) 1 :: replicate 30 empty_tag) 2 4.

Lemma path_string_spec_witness :
  exists m', @tlv_diagnostic_path_string LP64 (Some path_example) (mem_of 1 [111; 28; 160]) (Ptr 2 0) 20 (Some 0)
               = (TLV_OK, m', Some 15) /\
  bytes_of m' (Ptr 2 0) 16 = text "6F1C > A0 > ..." ++ [0].
Proof.
  pose proof (path_string_spec (H := LP64) path_example (mem_of 1 [111; 28; 160]) (Ptr 2 0) 20 0
    ltac:(vm_compute; intuition congruence) eq_refl ltac:(vm_compute; intuition congruence)
    ltac:(repeat constructor; simpl; (lia || congruence || (left; congruence)))
    ltac:(vm_compute; congruence)) as Hs.
  destruct (tlv_diagnostic_path_string _ _ _ _ _) as [[rc m'] n] in Hs |- *.
  destruct Hs as (-> & _ & Hok & _). destruct Hok as [-> Hb]; [vm_compute; reflexivity|].
  exists m'. split; [reflexivity|exact Hb].
Defined.
