(* ===== verification/Reader.v ===== *)
(** * The flat Reader (reader/reader.h, src/reader/reader.c)

    A Reader is a window of a logical input: [rd_data] holds [rd_size] octets, [rd_pos] of them are
    consumed, and [rd_base] octets precede the window.  [rd_final] is 0 while more input may come. *)

From S2P Require Import Prelude Mem Core Endian FieldFixed Format Diagnostic WireFormat Compose Formats.

Inductive tlv_reader_operation_t : Type :=
| TLV_READER_OP_TAG | TLV_READER_OP_LENGTH | TLV_READER_OP_VALUE | TLV_READER_OP_TRAILER
| TLV_READER_OP_HEADER.

(** An optional member is a flag and a value in C; the value is kept when the flag is clear. *)
Record tlv_reader_detail_t := mk_detail {
  dt_operation : tlv_reader_operation_t;
  dt_has_tag : bool; dt_tag : tlv_tag_t;
  dt_has_tag_offset : bool; dt_tag_offset : Z;
  dt_has_length_offset : bool; dt_length_offset : Z;
  dt_has_value_offset : bool; dt_value_offset : Z;
  dt_has_declared_length : bool; dt_declared_length : Z;
  dt_has_raw_length : bool; dt_raw_length : ptr * Z;
  dt_has_available : bool; dt_available : Z;
  dt_has_enclosing_end : bool; dt_enclosing_end : Z;
  dt_has_required : bool; dt_required : Z }.

Record tlv_reader_diagnostic_t := mk_reader_diagnostic {
  rdg_diagnostic : tlv_diagnostic_t; rdg_detail : tlv_reader_detail_t }.

(** Every member zero; [TLV_READER_OP_TAG] is the enumerator 0. *)
Definition zero_detail (operation : tlv_reader_operation_t) : tlv_reader_detail_t :=
  mk_detail operation false empty_tag false 0 false 0 false 0 false 0 false (NULL, 0) false 0 false 0
    false 0.
Definition zero_diagnostic : tlv_diagnostic_t :=
  mk_diagnostic TLV_OK TLV_DIAGNOSTIC_SEVERITY_ERROR no_location None None no_context false no_path.

Definition tlv_reader_diagnostic_init (diagnostic : option tlv_reader_diagnostic_t)
  : option tlv_reader_diagnostic_t :=
  match diagnostic with
  | None => None
  | Some _ => Some (mk_reader_diagnostic zero_diagnostic (zero_detail TLV_READER_OP_TAG))
  end.

Definition diag_start (code : tlv_result_t) (operation : tlv_reader_operation_t) (offset : Z)
  : tlv_reader_diagnostic_t :=
  let severity := if rc_eqb code TLV_NEED_MORE_DATA || rc_eqb code TLV_END
                  then TLV_DIAGNOSTIC_SEVERITY_INFO else TLV_DIAGNOSTIC_SEVERITY_ERROR in
  let d := cell zero_diagnostic (tlv_diagnostic_init (Some zero_diagnostic) code severity) in
  let d := cell d (tlv_diagnostic_set_location (Some d) TLV_LOCATION_INPUT TLV_LOCATION_POINT offset offset) in
  mk_reader_diagnostic d (zero_detail operation).

Definition region_operation (region : tlv_region_t) : tlv_reader_operation_t :=
  match region with
  | TLV_REGION_HEADER => TLV_READER_OP_HEADER
  | TLV_REGION_TAG => TLV_READER_OP_TAG
  | TLV_REGION_LENGTH => TLV_READER_OP_LENGTH
  | TLV_REGION_VALUE => TLV_READER_OP_VALUE
  | TLV_REGION_TRAILER => TLV_READER_OP_TRAILER
  end.

(** The diagnostic [tlv_read_impl] publishes for the error detail of a failed decode. *)
Definition read_diagnostic (rc : tlv_result_t) (error : tlv_format_error_t) (data : ptr) (size : Z)
  : tlv_reader_diagnostic_t :=
  let start := diag_start rc (region_operation error.(fe_region)) error.(fe_offset) in
  let d := if negb error.(fe_has_offset) || (size <? error.(fe_offset))
           then with_location no_location start.(rdg_diagnostic) else start.(rdg_diagnostic) in
  let tag := error.(fe_tag) in
  let length := error.(fe_length) in
  let value := error.(fe_value) in
  let has_raw := length.(r_present) && negb (length.(r_size) =? 0) in
  let is_value := region_is error.(fe_region) TLV_REGION_VALUE in
  let has_available := error.(fe_has_offset) && (error.(fe_offset) <=? size) in
  mk_reader_diagnostic d
    (mk_detail start.(rdg_detail).(dt_operation)
       tag.(r_present)
       (if tag.(r_present) then tlv_tag (data +p tag.(r_offset)) tag.(r_size) else empty_tag)
       tag.(r_present) tag.(r_offset)
       length.(r_present) length.(r_offset)
       (value.(r_present) || is_value)
       (if value.(r_present) then value.(r_offset) else error.(fe_offset))
       (error.(fe_has_required) && is_value) error.(fe_required)
       has_raw (if has_raw then (data +p length.(r_offset), length.(r_size)) else (NULL, 0))
       has_available (if has_available then size - error.(fe_offset) else 0)
       true size
       error.(fe_has_required) error.(fe_required)).

(** The out-parameters of a read. *)
Record read_out := mk_read_out {
  ro_element : option tlv_element_t; ro_consumed : option Z; ro_source : option tlv_source_t;
  ro_diagnostic : option tlv_reader_diagnostic_t }.

(** [error] is uninitialized storage before the call: the decoder writes it on every failure. *)
Definition tlv_read_impl `{Platform} (m : mem) (data : ptr) (size : Z) (format : option tlv_format_t)
  (out : read_out) : tlv_result_t * read_out :=
  match out.(ro_element), out.(ro_consumed) with
  | Some _, Some _ =>
      let '(rc, decoded, error) :=
        tlv_format_decode format m data size (Some no_decoded)
          (match out.(ro_diagnostic) with Some _ => Some no_error | None => None end) in
      let decoded := cell no_decoded decoded in
      if is_ok rc then
        (TLV_OK,
         mk_read_out (Some decoded.(d_element)) (Some decoded.(d_source).(s_size))
           (match out.(ro_source) with Some _ => Some decoded.(d_source) | None => None end)
           out.(ro_diagnostic))
      else
        (rc,
         mk_read_out out.(ro_element) out.(ro_consumed) out.(ro_source)
           (match out.(ro_diagnostic) with
            | Some _ => Some (read_diagnostic rc (cell no_error error) data size)
            | None => None
            end))
  | _, _ => (TLV_ERR_NULL_ARG, out)
  end.

Record tlv_reader_t := mk_reader {
  rd_format : option tlv_format_t; rd_data : ptr; rd_size : Z; rd_pos : Z; rd_base : Z; rd_final : Z }.

Definition tlv_reader_init (reader : option tlv_reader_t) (data : ptr) (size : Z)
  (format : option tlv_format_t) : tlv_result_t * option tlv_reader_t :=
  match reader with
  | Some _ =>
      if (is_null data && negb (size =? 0)) || negb (tlv_format_can_read format) then
        (TLV_ERR_NULL_ARG, reader)
      else (TLV_OK, Some (mk_reader format data size 0 0 1))
  | None => (TLV_ERR_NULL_ARG, reader)
  end.

Definition with_final (final : Z) (r : tlv_reader_t) : tlv_reader_t :=
  mk_reader r.(rd_format) r.(rd_data) r.(rd_size) r.(rd_pos) r.(rd_base) final.

Definition tlv_reader_init_incremental (reader : option tlv_reader_t) (data : ptr) (size : Z)
  (format : option tlv_format_t) : tlv_result_t * option tlv_reader_t :=
  let '(rc, reader) := tlv_reader_init reader data size format in
  match reader with
  | Some r => (rc, Some (if is_ok rc then with_final 0 r else r))
  | None => (rc, None)
  end.

Definition reader_valid `{Platform} (reader : option tlv_reader_t) : tlv_result_t :=
  match reader with
  | None => TLV_ERR_NULL_ARG
  | Some r =>
      if (is_null r.(rd_data) && negb (r.(rd_size) =? 0)) || negb (tlv_format_can_read r.(rd_format))
      then TLV_ERR_NULL_ARG
      else if (r.(rd_size) <? r.(rd_pos)) || (negb (r.(rd_final) =? 0) && negb (r.(rd_final) =? 1))
      then TLV_ERR_INVALID_ARG
      else if SIZE_MAX - r.(rd_base) <? r.(rd_size) then TLV_ERR_OVERFLOW
      else TLV_OK
  end.

Definition tlv_reader_set_input `{Platform} (reader : option tlv_reader_t) (data : ptr)
  (size discard final_input : Z) : tlv_result_t * option tlv_reader_t :=
  let rc := reader_valid reader in
  match reader with
  | None => (rc, reader)
  | Some r =>
      if negb (is_ok rc) then (rc, reader)
      else if is_null data && negb (size =? 0) then (TLV_ERR_NULL_ARG, reader)
      else if (r.(rd_pos) <? discard) || (negb (final_input =? 0) && negb (final_input =? 1)) then
        (TLV_ERR_INVALID_ARG, reader)
      else
        let retained := r.(rd_size) - discard in
        if size <? retained then (TLV_ERR_INVALID_ARG, reader)
        else if negb (r.(rd_final) =? 0) && ((final_input =? 0) || negb (size =? retained)) then
          (TLV_ERR_INVALID_STATE, reader)
        else
          let base := r.(rd_base) + discard in
          if SIZE_MAX - base <? size then (TLV_ERR_OVERFLOW, reader)
          else (TLV_OK, Some (mk_reader r.(rd_format) data size (r.(rd_pos) - discard) base final_input))
  end.

Definition tlv_reader_consumed (reader : option tlv_reader_t) : Z :=
  match reader with Some r => r.(rd_pos) | None => 0 end.
Definition tlv_reader_offset `{Platform} (reader : option tlv_reader_t) : Z :=
  match reader with Some r => usize (r.(rd_base) + r.(rd_pos)) | None => 0 end.
Definition tlv_reader_at_end (reader : option tlv_reader_t) : bool :=
  match reader with
  | Some r => negb (r.(rd_final) =? 0) && (r.(rd_pos) =? r.(rd_size))
  | None => false
  end.

Definition tlv_read `{Platform} (m : mem) (data : ptr) (size : Z) (format : option tlv_format_t)
  (out_element : option tlv_element_t) (consumed : option Z)
  : tlv_result_t * option tlv_element_t * option Z :=
  let '(rc, o) := tlv_read_impl m data size format (mk_read_out out_element consumed None None) in
  (rc, o.(ro_element), o.(ro_consumed)).

Definition tlv_read_diag `{Platform} (m : mem) (data : ptr) (size : Z) (format : option tlv_format_t)
  (out_element : option tlv_element_t) (consumed : option Z)
  (out_diagnostic : option tlv_reader_diagnostic_t) : tlv_result_t * read_out :=
  tlv_read_impl m data size format (mk_read_out out_element consumed None out_diagnostic).

Definition tlv_read_source_diag `{Platform} (m : mem) (data : ptr) (size : Z)
  (format : option tlv_format_t) (out : read_out) : tlv_result_t * read_out :=
  match out.(ro_source) with
  | None => (TLV_ERR_NULL_ARG, out)
  | Some _ => tlv_read_impl m data size format out
  end.

(** The absolute offsets of a diagnostic: the block after a failed read in [reader_next]. *)
Definition locate_diagnostic `{Platform} (rc : tlv_result_t) (remaining offset : Z)
  (dg : tlv_reader_diagnostic_t) : tlv_reader_diagnostic_t :=
  let d := dg.(rdg_diagnostic) in
  let t := dg.(rdg_detail) in
  let l := d.(dg_location) in
  let l := if remaining <? l.(l_begin)
           then mk_location l.(l_domain) TLV_LOCATION_UNKNOWN l.(l_begin) l.(l_end) else l in
  let has_value_offset := t.(dt_has_value_offset) && negb (remaining <? t.(dt_value_offset)) in
  let l := cell no_location (tlv_location_translate (Some l) offset) in
  let shift (has : bool) (x : Z) := if has then usize (x + offset) else x in
  mk_reader_diagnostic
    (mk_diagnostic rc
       (if rc_eqb rc TLV_NEED_MORE_DATA then TLV_DIAGNOSTIC_SEVERITY_INFO else d.(dg_severity))
       l d.(dg_expected) d.(dg_actual) d.(dg_contexts) d.(dg_has_path) d.(dg_path))
    (mk_detail t.(dt_operation) t.(dt_has_tag) t.(dt_tag)
       t.(dt_has_tag_offset) (shift t.(dt_has_tag_offset) t.(dt_tag_offset))
       t.(dt_has_length_offset) (shift t.(dt_has_length_offset) t.(dt_length_offset))
       has_value_offset (shift has_value_offset t.(dt_value_offset))
       t.(dt_has_declared_length) t.(dt_declared_length)
       t.(dt_has_raw_length) t.(dt_raw_length)
       t.(dt_has_available) t.(dt_available)
       t.(dt_has_enclosing_end) (shift t.(dt_has_enclosing_end) t.(dt_enclosing_end))
       t.(dt_has_required) t.(dt_required)).

(** The diagnostic at the end of the window. *)
Definition end_diagnostic (rc : tlv_result_t) (offset : Z) : tlv_reader_diagnostic_t :=
  let s := diag_start rc TLV_READER_OP_HEADER offset in
  mk_reader_diagnostic s.(rdg_diagnostic)
    (mk_detail TLV_READER_OP_HEADER false empty_tag false 0 false 0 false 0 false 0 false (NULL, 0)
       true 0 true offset false 0).

(** A rejected call: the diagnostic has no location. *)
Definition call_diagnostic (rc : tlv_result_t) (pos : Z) : tlv_reader_diagnostic_t :=
  let s := diag_start rc TLV_READER_OP_HEADER pos in
  mk_reader_diagnostic (with_location no_location s.(rdg_diagnostic)) s.(rdg_detail).

Definition put_diagnostic (out : option tlv_reader_diagnostic_t) (d : tlv_reader_diagnostic_t)
  : option tlv_reader_diagnostic_t := match out with Some _ => Some d | None => None end.

(** Out-parameters: the reader, the element, the source and the diagnostic. *)
Definition reader_next `{Platform} (m : mem) (reader : option tlv_reader_t)
  (out_element : option tlv_element_t) (source : option tlv_source_t)
  (out_diagnostic : option tlv_reader_diagnostic_t)
  : tlv_result_t * option tlv_reader_t * option tlv_element_t * option tlv_source_t *
    option tlv_reader_diagnostic_t :=
  let rc := reader_valid reader in
  let rc := if is_ok rc && match out_element with None => true | Some _ => false end
            then TLV_ERR_NULL_ARG else rc in
  match reader with
  | None => (rc, reader, out_element, source, put_diagnostic out_diagnostic (call_diagnostic rc 0))
  | Some r =>
      if negb (is_ok rc) then
        (rc, reader, out_element, source, put_diagnostic out_diagnostic (call_diagnostic rc r.(rd_pos)))
      else
        let offset := tlv_reader_offset reader in
        if r.(rd_pos) =? r.(rd_size) then
          let rc := if negb (r.(rd_final) =? 0) then TLV_END else TLV_NEED_MORE_DATA in
          (rc, reader, out_element, source, put_diagnostic out_diagnostic (end_diagnostic rc offset))
        else
          let remaining := r.(rd_size) - r.(rd_pos) in
          let '(rc, o) :=
            tlv_read_impl m (r.(rd_data) +p r.(rd_pos)) remaining r.(rd_format)
              (mk_read_out out_element (Some 0) source out_diagnostic) in
          let rc := if rc_eqb rc TLV_ERR_TRUNCATED && (r.(rd_final) =? 0) then TLV_NEED_MORE_DATA else rc in
          if is_ok rc then
            (rc,
             Some (mk_reader r.(rd_format) r.(rd_data) r.(rd_size)
                     (r.(rd_pos) + cell 0 o.(ro_consumed)) r.(rd_base) r.(rd_final)),
             o.(ro_element), o.(ro_source), o.(ro_diagnostic))
          else
            (rc, reader, o.(ro_element), o.(ro_source),
             match o.(ro_diagnostic) with
             | Some dg => Some (locate_diagnostic rc remaining offset dg)
             | None => None
             end)
  end.

Definition tlv_reader_next_diag `{Platform} (m : mem) (reader : option tlv_reader_t)
  (out_element : option tlv_element_t) (out_diagnostic : option tlv_reader_diagnostic_t)
  : tlv_result_t * option tlv_reader_t * option tlv_element_t * option tlv_reader_diagnostic_t :=
  let '(rc, reader, element, _, diagnostic) := reader_next m reader out_element None out_diagnostic in
  (rc, reader, element, diagnostic).

Definition tlv_reader_next `{Platform} (m : mem) (reader : option tlv_reader_t)
  (out_element : option tlv_element_t) : tlv_result_t * option tlv_reader_t * option tlv_element_t :=
  let '(rc, reader, element, _) := tlv_reader_next_diag m reader out_element None in
  (rc, reader, element).

Definition tlv_reader_next_source_diag `{Platform} (m : mem) (reader : option tlv_reader_t)
  (out_element : option tlv_element_t) (source : option tlv_source_t)
  (out_diagnostic : option tlv_reader_diagnostic_t)
  : tlv_result_t * option tlv_reader_t * option tlv_element_t * option tlv_source_t *
    option tlv_reader_diagnostic_t :=
  match source with
  | None =>
      (TLV_ERR_NULL_ARG, reader, out_element, source,
       put_diagnostic out_diagnostic (diag_start TLV_ERR_NULL_ARG TLV_READER_OP_HEADER 0))
  | Some _ => reader_next m reader out_element source out_diagnostic
  end.

(** ** The window invariant *)

(** A reader over values of the C types that [reader_valid] accepts. *)
Record reader_ok `{Platform} (r : tlv_reader_t) : Prop := {
  rk_pos : 0 <= r.(rd_pos) <= r.(rd_size);
  rk_base : 0 <= r.(rd_base);
  rk_end : r.(rd_base) + r.(rd_size) <= SIZE_MAX;
  rk_final : r.(rd_final) = 0 \/ r.(rd_final) = 1;
  rk_data : r.(rd_data) = NULL -> r.(rd_size) = 0;
  rk_format : tlv_format_can_read r.(rd_format) = true }.

Lemma reader_ok_valid `{Platform} r : reader_ok r -> reader_valid (Some r) = TLV_OK.
Proof.
  intros [Hp Hb He Hf Hd Hc]. unfold reader_valid. rewrite Hc.
  replace (is_null (rd_data r) && negb (rd_size r =? 0)) with false
    by (destruct (rd_data r); [rewrite Hd by done|]; done).
  cbn [orb negb]. rewrite (proj2 (Z.ltb_ge _ (rd_pos r))), (proj2 (Z.ltb_ge _ (rd_size r))) by lia.
  destruct Hf as [-> | ->]; done.
Qed.

Lemma valid_reader_ok `{Platform} r :
  0 <= r.(rd_pos) -> 0 <= r.(rd_base) -> reader_valid (Some r) = TLV_OK -> reader_ok r.
Proof.
  intros Hp Hb. unfold reader_valid. destruct (_ || _) eqn:E1; [done|].
  destruct ((rd_size r <? rd_pos r) || _) eqn:E2; [done|]. destruct (_ <? rd_size r) eqn:E3; [done|]. intros _.
  rewrite orb_false_iff, negb_false_iff in E1. destruct E1 as [E1 Hc].
  rewrite orb_false_iff, andb_false_iff, !negb_false_iff in E2.
  split; try done; try lia. intros Hd. rewrite Hd in E1. simpl in E1. lia.
Qed.

Lemma reader_offset_ok `{Platform} r : reader_ok r ->
  tlv_reader_offset (Some r) = r.(rd_base) + r.(rd_pos).
Proof. intros []. unfold tlv_reader_offset. apply usize_small. lia. Qed.

(** The data of a nonempty window is readable from the position. *)
Lemma reader_data_ok `{Platform} r : reader_ok r -> r.(rd_pos) < r.(rd_size) ->
  r.(rd_data) +p r.(rd_pos) <> NULL.
Proof. intros [] Hlt. destruct (rd_data r) eqn:E; [|done]. specialize (rk_data0 eq_refl). lia. Qed.

(** What the offsets of a diagnostic may say. *)
Definition offset_within (has : bool) (x lo hi : Z) : Prop := has = true -> lo <= x <= hi.
Record diagnostic_within (d : tlv_reader_diagnostic_t) (lo hi : Z) : Prop := {
  dw_location : d.(rdg_diagnostic).(dg_location).(l_kind) <> TLV_LOCATION_UNKNOWN ->
    lo <= d.(rdg_diagnostic).(dg_location).(l_begin) <= hi;
  dw_tag : offset_within d.(rdg_detail).(dt_has_tag_offset) d.(rdg_detail).(dt_tag_offset) lo hi;
  dw_length : offset_within d.(rdg_detail).(dt_has_length_offset) d.(rdg_detail).(dt_length_offset) lo hi;
  dw_value : offset_within d.(rdg_detail).(dt_has_value_offset) d.(rdg_detail).(dt_value_offset) lo hi;
  dw_end : offset_within d.(rdg_detail).(dt_has_enclosing_end) d.(rdg_detail).(dt_enclosing_end) lo hi }.

(** The sizes in an error detail are values of [size_t]. *)
Definition error_typed (e : tlv_format_error_t) : Prop :=
  0 <= e.(fe_offset) /\ 0 <= e.(fe_tag).(r_offset) /\ 0 <= e.(fe_tag).(r_size) /\
  0 <= e.(fe_length).(r_offset) /\ 0 <= e.(fe_length).(r_size) /\
  0 <= e.(fe_value).(r_offset) /\ 0 <= e.(fe_value).(r_size).

Lemma locate_within `{Platform} rc rc' e data remaining offset :
  error_typed e -> error_in_buffer e remaining -> 0 <= remaining -> 0 <= offset ->
  offset + remaining <= SIZE_MAX ->
  diagnostic_within (locate_diagnostic rc' remaining offset (read_diagnostic rc e data remaining)) offset
    (offset + remaining).
Proof.
  intros (H0 & H1 & H2 & H3 & H4 & H5 & H6) (Et & El & Ev) Hr Ho Hm.
  assert (forall x, x <= remaining -> 0 <= x -> usize (x + offset) = x + offset) as Hu
    by (intros; apply usize_small; lia).
  assert (forall r, range_valid r remaining = true -> r_present r = true -> 0 <= r_size r -> r_offset r <= remaining) as Hrv.
  { intros r Hv Hp. apply range_valid_present in Hv; [lia|done]. }
  split; unfold offset_within; cbn.
  - destruct (negb (fe_has_offset e) || (remaining <? fe_offset e)) eqn:E; cbn.
    + rewrite (proj2 (Z.ltb_ge remaining 0)) by lia. cbn. congruence.
    + rewrite Z.ltb_irrefl, Z.eqb_refl. cbn. rewrite orb_false_iff in E.
      rewrite (proj2 (Z.ltb_ge remaining (fe_offset e))) by lia. cbn. rewrite Z.ltb_irrefl, Z.eqb_refl. cbn.
      rewrite (proj2 (Z.ltb_ge (SIZE_MAX - offset) _)) by lia. cbn. lia.
  - intros Hp. rewrite Hp. specialize (Hrv _ Et Hp H2). rewrite Hu by done. lia.
  - intros Hp. rewrite Hp. specialize (Hrv _ El Hp H4). rewrite Hu by done. lia.
  - intros Hp. rewrite Hp. apply andb_true_iff in Hp as [_ Hp]. apply negb_true_iff in Hp.
    destruct (r_present (fe_value e)); rewrite Hu by lia; lia.
  - intros _. rewrite Hu by lia. lia.
Qed.

(** The error detail a decode callback leaves holds values of the C types. *)
Definition decode_error_typed (decode : tlv_decode_fn) : Prop :=
  forall m data size rc d e, decode m data size no_decoded no_error = (rc, d, e) -> error_typed e.

Lemma clip_error_typed e size : error_typed e -> error_typed (clip_error e size).
Proof.
  unfold error_typed, clip_error, clip_range. cbn. intros (? & ? & ? & ? & ? & ? & ?).
  destruct (range_valid (fe_tag e) size), (range_valid (fe_length e) size), (range_valid (fe_value e) size); done.
Qed.

(** The callback's out-parameters are C objects; those of a failure matter when a diagnostic is asked
    for. *)
Definition format_typed `{Platform} (f : tlv_format_t) (dg : option tlv_reader_diagnostic_t) : Prop :=
  forall decode, f.(f_decode) = Some decode ->
    decode_typed decode /\ (dg <> None -> decode_error_typed decode).

Lemma format_decode_error_typed `{Platform} f m data size d0 rc d e :
  (forall decode, f.(f_decode) = Some decode -> decode_error_typed decode) ->
  tlv_format_decode (Some f) m data size (Some d0) (Some no_error) = (rc, d, Some e) -> error_typed e.
Proof.
  intros Hty E. assert (error_typed no_error) as H0 by (unfold error_typed; cbn; lia).
  unfold tlv_format_decode in E. destruct (f_decode f) as [decode|]; [|injection E as _ _ <-; done].
  destruct (is_null data && _); [injection E as _ _ <-; done|].
  destruct (size =? 0); [injection E as _ _ <-; unfold error_typed; cbn; lia|].
  destruct (decode m data size no_decoded no_error) as [[rc0 d1] detail] eqn:Ed. cbv zeta in E.
  apply (Hty decode eq_refl) in Ed.
  match type of E with (if ?b then _ else _) = _ => destruct b end; injection E as _ _ <-;
    [now apply clip_error_typed|done].
Qed.

(** Everything one read does. *)
Lemma read_impl_cases `{Platform} f m data size el c src dg :
  0 <= size <= SIZE_MAX ->
  format_typed f dg ->
  let '(rc, o) := tlv_read_impl m data size (Some f) (mk_read_out (Some el) (Some c) src dg) in
  (rc = TLV_OK /\ exists d, decoded_ok data size d /\ o.(ro_element) = Some d.(d_element) /\
     o.(ro_consumed) = Some d.(d_source).(s_size) /\ 1 <= d.(d_source).(s_size) <= size /\
     o.(ro_source) = (match src with Some _ => Some d.(d_source) | None => None end) /\
     o.(ro_diagnostic) = dg) \/
  (rc <> TLV_OK /\ rc <> TLV_NEED_MORE_DATA /\ (rc = TLV_END -> size = 0) /\
   o.(ro_element) = Some el /\ o.(ro_source) = src /\
   match o.(ro_diagnostic) with
   | Some d => dg <> None /\ exists e, error_typed e /\ error_in_buffer e size /\ d = read_diagnostic rc e data size
   | None => dg = None
   end).
Proof.
  intros Hs Hty. unfold tlv_read_impl. cbn [ro_element ro_consumed ro_source ro_diagnostic].
  set (e0 := match dg with Some _ => Some no_error | None => None end).
  pose proof (format_decode_cases f m data size no_decoded e0 Hs (fun d E => proj1 (Hty d E))) as Hc.
  destruct (tlv_format_decode (Some f) m data size (Some no_decoded) e0) as [[rc dec] err] eqn:Edec.
  destruct Hc as [(-> & _ & _ & d & -> & Hok & _)|(Hrc & -> & Hend & Hmore & _ & e & Herr & Hbuf)].
  - cbn. left. split; [done|]. exists d. pose proof (ok_size _ _ _ Hok). done.
  - rewrite (proj2 (is_ok_false rc) Hrc). cbn. right. repeat (split; [done|]).
    destruct dg as [dg|]; [|done]. split; [done|]. exists e. cbn in Herr. subst err.
    split; [|done].
    apply (format_decode_error_typed f m data size no_decoded rc (Some no_decoded) e (fun d E => proj2 (Hty d E) ltac:(done)) Edec).
Qed.

(** The outcome of a step of a valid reader, from its results. *)
Definition step_outcome `{Platform} (r : tlv_reader_t) (el : tlv_element_t) (src : option tlv_source_t)
  (dg : option tlv_reader_diagnostic_t) (rc : tlv_result_t) (reader : option tlv_reader_t)
  (element : option tlv_element_t) (source : option tlv_source_t)
  (diagnostic : option tlv_reader_diagnostic_t) : Prop :=
  exists r', reader = Some r' /\ reader_ok r' /\
  ((rc = TLV_OK /\ diagnostic = dg /\
    exists d, decoded_ok (r.(rd_data) +p r.(rd_pos)) (r.(rd_size) - r.(rd_pos)) d /\
      element = Some d.(d_element) /\
      source = (match src with Some _ => Some d.(d_source) | None => None end) /\
      r' = mk_reader r.(rd_format) r.(rd_data) r.(rd_size) (r.(rd_pos) + d.(d_source).(s_size))
             r.(rd_base) r.(rd_final)) \/
   (rc <> TLV_OK /\ r' = r /\ element = Some el /\ source = src /\
    (rc = TLV_END -> r.(rd_final) = 1 /\ r.(rd_pos) = r.(rd_size)) /\
    (rc = TLV_NEED_MORE_DATA -> r.(rd_final) = 0) /\
    (dg <> None -> exists d, diagnostic = Some d /\
       diagnostic_within d (r.(rd_base) + r.(rd_pos)) (r.(rd_base) + r.(rd_size))))).

Lemma reader_next_step `{Platform} m r f el src dg :
  reader_ok r -> r.(rd_format) = Some f ->
  format_typed f dg ->
  let '(rc, reader, element, source, diagnostic) := reader_next m (Some r) (Some el) src dg in
  step_outcome r el src dg rc reader element source diagnostic.
Proof.
  intros Hr Hf Hty. unfold reader_next, step_outcome. rewrite (reader_ok_valid r Hr), is_ok_OK. cbn [andb]. rewrite is_ok_OK. cbn [negb].
  rewrite (reader_offset_ok r Hr). pose proof Hr as [Hp Hb He Hfin Hd Hcan].
  destruct (rd_pos r =? rd_size r) eqn:Epos.
  - exists r. split; [done|]. split; [done|]. right.
    assert (forall rc, dg <> None -> exists d, put_diagnostic dg (end_diagnostic rc (rd_base r + rd_pos r)) = Some d /\
      diagnostic_within d (rd_base r + rd_pos r) (rd_base r + rd_size r)) as Hdg.
    { intros rc Hdg. destruct dg as [dg|]; [|done]. eexists. split; [done|].
      unfold end_diagnostic, diag_start. cbn. rewrite Z.ltb_irrefl, Z.eqb_refl. cbn.
      split; unfold offset_within; cbn; try done; lia. }
    destruct Hfin as [-> | ->]; cbn; repeat (split; [done || (intros; done || lia)|]); apply Hdg.
  - rewrite Hf.
    assert (0 <= rd_size r - rd_pos r <= SIZE_MAX) as Hrem by lia.
    pose proof (read_impl_cases f m (rd_data r +p rd_pos r) (rd_size r - rd_pos r) el 0 src dg Hrem Hty) as Hc.
    destruct (tlv_read_impl _ _ _ _ _) as [rc o].
    destruct Hc as [(-> & d & Hok & Eel & Ec & Hsz & Es & Edg)|(Hrc & Hmore & Hend & Eel & Es & Edg)].
    + change (rc_eqb TLV_OK TLV_ERR_TRUNCATED) with false. cbn [andb]. rewrite is_ok_OK, Ec. cbn [cell].
      eexists. split; [done|]. rewrite Hf in Hcan.
      split; [split; cbn; try done; lia|]. left. split; [done|]. split; [done|]. exists d. done.
    + set (rc' := if rc_eqb rc TLV_ERR_TRUNCATED && (rd_final r =? 0) then TLV_NEED_MORE_DATA else rc).
      assert (rc' <> TLV_OK /\ (rc' = TLV_END -> False) /\ (rc' = TLV_NEED_MORE_DATA -> rd_final r = 0)) as (H1 & H2 & H3).
      { unfold rc'. destruct (rc_eqb rc TLV_ERR_TRUNCATED && (rd_final r =? 0)) eqn:E; [split; [done|]|].
        - split; [done|]. intros _. rewrite andb_true_iff in E. lia.
        - split; [done|]. split; [|done]. intros Ee. specialize (Hend Ee). lia. }
      rewrite (proj2 (is_ok_false rc') H1). exists r. split; [done|]. split; [done|]. right.
      repeat (split; [done || (intros; exfalso; auto; done)|]). intros Hdg.
      destruct (ro_diagnostic o) as [d|]; [|congruence]. destruct Edg as (_ & e & Het & Heb & ->).
      eexists. split; [done|]. replace (rd_base r + rd_size r) with (rd_base r + rd_pos r + (rd_size r - rd_pos r)) by lia.
      apply locate_within; try done; lia.
Qed.

(** ** Properties *)

(** One step of a valid reader over any format.  Success publishes an element that lies at the
    position, and advances over exactly its octets, at least one; END is reported only on a finished
    window and NEED_MORE_DATA only on an open one; every other outcome, these included, changes
    neither the reader nor the outputs, and every offset of its diagnostic is absolute and lies
    between the position and the end of the window.  The reader stays valid. *)
Theorem reader_next_sound `{Platform} (m : mem) (r : tlv_reader_t) (f : tlv_format_t)
  (el : tlv_element_t) (src : option tlv_source_t) (dg : option tlv_reader_diagnostic_t)
  (Hr : reader_ok r) (Hf : r.(rd_format) = Some f)
  (Hty : format_typed f dg) :
  let '(rc, reader, element, source, diagnostic) := reader_next m (Some r) (Some el) src dg in
  exists r', reader = Some r' /\ reader_ok r' /\
  ((rc = TLV_OK /\ diagnostic = dg /\
    exists d, decoded_ok (r.(rd_data) +p r.(rd_pos)) (r.(rd_size) - r.(rd_pos)) d /\
      element = Some d.(d_element) /\
      source = (match src with Some _ => Some d.(d_source) | None => None end) /\
      r' = mk_reader r.(rd_format) r.(rd_data) r.(rd_size) (r.(rd_pos) + d.(d_source).(s_size))
             r.(rd_base) r.(rd_final)) \/
   (rc <> TLV_OK /\ r' = r /\ element = Some el /\ source = src /\
    (rc = TLV_END -> r.(rd_final) = 1 /\ r.(rd_pos) = r.(rd_size)) /\
    (rc = TLV_NEED_MORE_DATA -> r.(rd_final) = 0) /\
    (dg <> None -> exists d, diagnostic = Some d /\
       diagnostic_within d (r.(rd_base) + r.(rd_pos)) (r.(rd_base) + r.(rd_size))))).
Proof. exact (reader_next_step m r f el src dg Hr Hf Hty). Qed.

Lemma rest_error_typed dg : @format_typed LP64 rest_format dg.
Proof.
  intros decode E. split; [now apply rest_typed|intros _]. injection E as <-. intros m data size rc d e.
  unfold rest_decode. destruct (_ && _); intros [= <- <- <-]; unfold error_typed; cbn; lia.
Qed.

Lemma reader_next_sound_witness :
  let r := mk_reader (Some rest_format) (Ptr 1 0) 3 0 7 1 in
  exists r' d, @reader_next LP64 (mem_of 1 [90; 1; 2]) (Some r) (Some empty_element) None None =
                 (TLV_OK, Some r', Some d.(d_element), None, None) /\
    decoded_ok (Ptr 1 0) 3 d /\ r'.(rd_pos) = 3.
Proof.
  intros r.
  assert (reader_ok (H := LP64) r) as Hr by (split; cbn; try lia; (right; reflexivity) || congruence || (vm_compute; congruence)).
  pose proof (reader_next_sound (H := LP64) (mem_of 1 [90; 1; 2]) r rest_format empty_element None None Hr
    eq_refl (rest_error_typed None)) as Hs.
  destruct Hs as (r' & Er & _ & [(_ & _ & d & Hok & Eel & _ & Er')|(Hrc & _)]); [|destruct (Hrc eq_refl)].
  exists r', d. split; [|split; [exact Hok|]].
  - rewrite <- Eel, <- Er. reflexivity.
  - injection Er as <-. reflexivity.
Defined.

(** ** Incremental reading *)

Section Incremental.
Context `{Platform} (f : tlv_format_t) (decode : tlv_decode_fn) (Hf : f.(f_decode) = Some decode)
  `{!DecodeLaws decode}.

(** What reading does when the whole element is in the window, and when only a part of it is. *)
Lemma reader_next_element m r el src dg d e :
  reader_ok r -> r.(rd_format) = Some f -> r.(rd_pos) < r.(rd_size) ->
  tlv_format_decode (Some f) m (r.(rd_data) +p r.(rd_pos)) (r.(rd_size) - r.(rd_pos)) (Some no_decoded)
    (match dg with Some _ => Some no_error | None => None end) = (TLV_OK, Some d, e) ->
  reader_next m (Some r) (Some el) src dg =
  (TLV_OK,
   Some (mk_reader (Some f) r.(rd_data) r.(rd_size) (r.(rd_pos) + d.(d_source).(s_size)) r.(rd_base) r.(rd_final)),
   Some d.(d_element), (match src with Some _ => Some d.(d_source) | None => None end), dg).
Proof using.
  intros Hr Hrf Hlt E. unfold reader_next. rewrite (reader_ok_valid r Hr), is_ok_OK. cbn [andb].
  rewrite is_ok_OK. cbn [negb]. rewrite (proj2 (Z.eqb_neq _ _)) by lia. rewrite Hrf.
  unfold tlv_read_impl. cbn [ro_element ro_consumed ro_source ro_diagnostic]. rewrite E. rewrite is_ok_OK.
  reflexivity.
Qed.

Lemma reader_next_truncated m r el src dg e :
  reader_ok r -> r.(rd_format) = Some f -> r.(rd_pos) < r.(rd_size) -> r.(rd_final) = 0 ->
  tlv_format_decode (Some f) m (r.(rd_data) +p r.(rd_pos)) (r.(rd_size) - r.(rd_pos)) (Some no_decoded)
    (match dg with Some _ => Some no_error | None => None end) = (TLV_ERR_TRUNCATED, Some no_decoded, e) ->
  exists dg', reader_next m (Some r) (Some el) src dg =
    (TLV_NEED_MORE_DATA, Some r, Some el, src, dg').
Proof using.
  intros Hr Hrf Hlt Hfin E. unfold reader_next. rewrite (reader_ok_valid r Hr), is_ok_OK. cbn [andb].
  rewrite is_ok_OK. cbn [negb]. rewrite (proj2 (Z.eqb_neq _ _)) by lia. rewrite Hrf.
  unfold tlv_read_impl. cbn [ro_element ro_consumed ro_source ro_diagnostic]. rewrite E.
  change (is_ok TLV_ERR_TRUNCATED) with false. rewrite Hfin. eexists. reflexivity.
Qed.

(** A decode at a position of the whole input, seen through a window that ends earlier. *)
Lemma decode_through_window m m' data total n d e e0 d0 :
  data <> NULL -> 1 <= n <= total -> total <= SIZE_MAX ->
  tlv_format_decode (Some f) m data total (Some d0) e0 = (TLV_OK, Some d, e) ->
  same_bytes m m' data n ->
  (d.(d_source).(s_size) <= n ->
   forall d1 e1, tlv_format_decode (Some f) m' data n (Some d1) e1 = (TLV_OK, Some d, e1)) /\
  (n < d.(d_source).(s_size) ->
   forall d1 e1, exists e2, tlv_format_decode (Some f) m data n (Some d1) e1 = (TLV_ERR_TRUNCATED, Some d1, e2)).
Proof using Hf DecodeLaws0.
  intros Hd Hn Ht E Hsame. split.
  - intros Hle d1 e1. apply (format_decode_local f decode Hf m m' data total n d0 e0 d e); try done; try lia.
    intros i Hi. apply Hsame. lia.
  - intros Hlt d1 e1.
    destruct (format_decode_truncated f decode Hf m data total n d0 e0 d e d1 e1) as (e2 & E2); try done; try lia.
    eexists. exact E2.
Qed.

(** An element is decoded at an address, and from some octets of those there are. *)
Lemma format_decode_nonempty m data size d0 d e0 e : 0 <= size <= SIZE_MAX ->
  tlv_format_decode (Some f) m data size (Some d0) e0 = (TLV_OK, Some d, e) -> data <> NULL /\ 1 <= d.(d_source).(s_size) <= size.
Proof using Hf DecodeLaws0.
  intros Hs E. assert (Htyped : forall dec, f.(f_decode) = Some dec -> decode_typed dec) by (intros ? Ed; rewrite Hf in Ed; injection Ed as <-; apply dl_typed).
  pose proof (format_decode_cases f m data size d0 e0 Hs Htyped) as Hc. rewrite E in Hc.
  destruct Hc as [(_ & H1 & _ & d' & [= <-] & Hok & _)|(Hbad & _)]; [|done].
  split; [|exact (ok_size _ _ _ Hok)]. intros ->. unfold tlv_format_decode in E. rewrite Hf in E. cbn [is_null andb] in E.
  destruct (Z.eqb_spec size 0); [lia|discriminate E].
Qed.

(** An open window that is read to its end. *)
Lemma reader_next_exhausted m r el src dg : reader_ok r -> r.(rd_pos) = r.(rd_size) -> r.(rd_final) = 0 ->
  exists dg', reader_next m (Some r) (Some el) src dg = (TLV_NEED_MORE_DATA, Some r, Some el, src, dg').
Proof using.
  intros Hr Hp Hfin. unfold reader_next. rewrite (reader_ok_valid r Hr), is_ok_OK. cbn [andb].
  rewrite is_ok_OK. cbn [negb]. rewrite (proj2 (Z.eqb_eq _ _) Hp), Hfin. eexists. reflexivity.
Qed.
End Incremental.

(** C15. Reading through an incomplete window never misreads, for any format whose decoder looks at the octets
    of an element alone and takes part of one for a truncated one: if reading the whole input at a position
    would give an element, then a reader whose open window over the same storage ends earlier, at that very
    position too, either already gives that same element, when its octets are all there, or asks for more
    data and changes nothing; and after the window is extended to the whole input with
    [tlv_reader_set_input] it gives that element. *)
Theorem reader_incremental `{Platform} (f : tlv_format_t) (decode : tlv_decode_fn)
  (Hf : f.(f_decode) = Some decode) (Hlaws : DecodeLaws decode) (m : mem) (r : tlv_reader_t)
  (total : Z) (el : tlv_element_t) (d : tlv_decoded_t) (e : option tlv_format_error_t)
  (Hr : reader_ok r) (Hrf : r.(rd_format) = Some f) (Hopen : r.(rd_final) = 0)
  (Htotal : r.(rd_size) <= total) (Hmax : r.(rd_base) + total <= SIZE_MAX)
  (Hwhole : tlv_format_decode (Some f) m (r.(rd_data) +p r.(rd_pos)) (total - r.(rd_pos))
              (Some no_decoded) None = (TLV_OK, Some d, e)) :
  let complete := d.(d_source).(s_size) <=? r.(rd_size) - r.(rd_pos) in
  let after := mk_reader (Some f) r.(rd_data) r.(rd_size) (r.(rd_pos) + d.(d_source).(s_size))
                 r.(rd_base) 0 in
  tlv_reader_next m (Some r) (Some el) =
    (if complete then (TLV_OK, Some after, Some d.(d_element)) else (TLV_NEED_MORE_DATA, Some r, Some el)) /\
  exists r1, tlv_reader_set_input (Some r) r.(rd_data) total 0 1 = (TLV_OK, Some r1) /\
    tlv_reader_next m (Some r1) (Some el) =
    (TLV_OK, Some (mk_reader (Some f) r.(rd_data) total (r.(rd_pos) + d.(d_source).(s_size)) r.(rd_base) 1),
     Some d.(d_element)).
Proof.
  pose proof Hr as [Hp Hb He _ Hnull Hcan]. cbv zeta. assert (0 <= total - rd_pos r <= SIZE_MAX) as Hm by lia.
  destruct (format_decode_nonempty f decode Hf m _ _ no_decoded d None e Hm Hwhole) as [Hd Hlen].
  split.
  - destruct (Z.eq_dec (rd_pos r) (rd_size r)) as [Heq|Hne].
    { rewrite (proj2 (Z.leb_gt _ _)) by lia. unfold tlv_reader_next, tlv_reader_next_diag.
      destruct (reader_next_exhausted m r el None None Hr Heq Hopen) as (dg & ->). done. }
    assert (Hwin : rd_pos r < rd_size r) by lia. assert (Hn : 1 <= rd_size r - rd_pos r <= total - rd_pos r) by lia.
    destruct (decode_through_window f decode Hf m m _ (total - rd_pos r) (rd_size r - rd_pos r) d e None
      no_decoded Hd Hn (proj2 Hm) Hwhole (same_bytes_refl _ _ _)) as [Hin Hout].
    unfold tlv_reader_next, tlv_reader_next_diag. destruct (_ <=? _) eqn:E.
    + rewrite (reader_next_element f m r el None None d None Hr Hrf Hwin) by (apply Hin; lia).
      now rewrite Hopen.
    + destruct (Hout ltac:(lia) no_decoded None) as (e2 & E2).
      destruct (reader_next_truncated f m r el None None e2 Hr Hrf Hwin Hopen E2) as (dg & ->). done.
  - unfold tlv_reader_set_input. rewrite (reader_ok_valid r Hr), is_ok_OK. cbn [negb].
    replace (is_null (rd_data r) && negb (total =? 0)) with false
      by (destruct (rd_data r); done).
    rewrite (proj2 (Z.ltb_ge (rd_pos r) 0)) by lia. cbn [orb andb Z.eqb negb].
    rewrite !Z.sub_0_r, Z.add_0_r, (proj2 (Z.ltb_ge total _)), Hopen by lia. cbn [Z.eqb negb andb].
    rewrite (proj2 (Z.ltb_ge _ total)) by lia. eexists. split; [done|].
    unfold tlv_reader_next, tlv_reader_next_diag. set (r1 := mk_reader _ _ _ _ _ _).
    assert (reader_ok r1) as Hr1 by (split; cbn; try lia; try done; intros Hz; now rewrite Hz in Hd).
    rewrite (reader_next_element f m r1 el None None d e Hr1 Hrf ltac:(cbn; lia) Hwhole). done.
Qed.

Lemma fixed_example_laws : @DecodeLaws LP64 (@tlv_binary_decode LP64 fixed_example).
Proof. apply (binary_decode_laws (H := LP64) fixed_example); vm_compute; intuition congruence. Qed.

Lemma reader_incremental_witness :
  let m := mem_of 1 [4; 0; 10; 20; 1; 2] in
  let r := mk_reader (Some fixed_example_format) (Ptr 1 0) 5 0 0 0 in
  @tlv_reader_next LP64 m (Some r) (Some empty_element) = (TLV_NEED_MORE_DATA, Some r, Some empty_element) /\
  (let r0 := mk_reader (Some fixed_example_format) (Ptr 1 0) 0 0 0 0 in
   @tlv_reader_next LP64 m (Some r0) (Some empty_element) = (TLV_NEED_MORE_DATA, Some r0, Some empty_element)) /\
  exists r1, @tlv_reader_set_input LP64 (Some r) (Ptr 1 0) 6 0 1 = (TLV_OK, Some r1) /\
    exists r2 el, @tlv_reader_next LP64 m (Some r1) (Some empty_element) = (TLV_OK, Some r2, Some el) /\
    value_bytes m el.(e_value) = [1; 2].
Proof.
  intros m r.
  assert (reader_ok (H := LP64) r) as Hr
    by (split; cbn; try lia; (left; reflexivity) || congruence || (vm_compute; congruence)).
  set (d := cell no_decoded (snd (fst (@tlv_format_decode LP64 (Some fixed_example_format) m (Ptr 1 0) 6
              (Some no_decoded) None)))).
  destruct (reader_incremental (H := LP64) fixed_example_format _ eq_refl fixed_example_laws m r 6
    empty_element d None Hr eq_refl eq_refl ltac:(cbn; lia) ltac:(vm_compute; congruence)
    ltac:(vm_compute; reflexivity)) as (H1 & r1 & H2 & H3).
  split; [exact H1|]. split.
  { intros r0. assert (reader_ok (H := LP64) r0) as Hr0 by (split; cbn; try lia; (left; reflexivity) || congruence || (vm_compute; congruence)).
    exact (proj1 (reader_incremental (H := LP64) fixed_example_format _ eq_refl fixed_example_laws m r0 6
      empty_element d None Hr0 eq_refl eq_refl ltac:(cbn; lia) ltac:(vm_compute; congruence) ltac:(vm_compute; reflexivity))). }
  exists r1. split; [exact H2|]. eexists. eexists. split; [exact H3|].
  vm_compute. reflexivity.
Defined.

(** ** Reading a whole input *)

(** The reading loop of a client: elements until the first result that is not [TLV_OK]. *)
Fixpoint reader_drain `{Platform} (fuel : nat) (m : mem) (r : tlv_reader_t)
  : option (tlv_result_t * list tlv_element_t * tlv_reader_t) :=
  match fuel with
  | O => None
  | S fuel =>
      let '(rc, r', el) := tlv_reader_next m (Some r) (Some empty_element) in
      if is_ok rc then
        match reader_drain fuel m (cell r r') with
        | Some (rc, els, r') => Some (rc, cell empty_element el :: els, r')
        | None => None
        end
      else Some (rc, [], cell r r')
  end.

(** The loop ends: every step consumes at least one octet of the window. *)
Lemma reader_drain_total `{Platform} fuel m r f :
  reader_ok r -> r.(rd_format) = Some f ->
  format_typed f None ->
  r.(rd_size) - r.(rd_pos) < Z.of_nat fuel -> exists res, reader_drain fuel m r = Some res.
Proof.
  intros Hr Hf Hty. revert r Hr Hf. induction fuel as [|fuel IH]; intros r Hr Hf Hlt.
  { destruct Hr. lia. }
  cbn [reader_drain]. unfold tlv_reader_next, tlv_reader_next_diag.
  pose proof (reader_next_step m r f empty_element None None Hr Hf Hty) as Hs.
  destruct (reader_next m (Some r) (Some empty_element) None None) as [[[[rc r'] el] src] dg].
  destruct Hs as (r1 & -> & Hr1 & [(-> & _ & d & Hok & -> & _ & ->)|(Hrc & _)]).
  - rewrite is_ok_OK. cbn [cell]. pose proof (ok_size _ _ _ Hok) as Hsz.
    destruct (IH _ Hr1 Hf ltac:(cbn; lia)) as ([[rc els] r'] & ->). eexists. reflexivity.
  - rewrite (proj2 (is_ok_false rc) Hrc). eexists. reflexivity.
Qed.

Lemma decode_data `{Platform} f m data size d0 e0 d e :
  1 <= size -> tlv_format_decode (Some f) m data size (Some d0) e0 = (TLV_OK, Some d, e) -> data <> NULL.
Proof.
  intros Hs E ->. unfold tlv_format_decode in E. destruct (f_decode f); [|done].
  rewrite (proj2 (Z.eqb_neq size 0)) in E by lia. done.
Qed.

(** The elements [(tag, value)] and their wire octets. *)
Definition wire_of `{Platform} (f : tlv_format_t) `{!CodecLaws f} (x : list Z * list Z) (w : list Z) : Prop :=
  cl_wire (fst x) (snd x) = Some w.

Lemma reader_drain_wire `{Platform} f `{!CodecLaws f} m xs ws r fuel :
  reader_ok r -> r.(rd_format) = Some f -> r.(rd_final) = 1 -> Forall2 (wire_of f) xs ws ->
  bytes_of m (r.(rd_data) +p r.(rd_pos)) (r.(rd_size) - r.(rd_pos)) = concat ws ->
  (length xs < fuel)%nat ->
  exists els, reader_drain fuel m r =
    Some (TLV_END, els, mk_reader (Some f) r.(rd_data) r.(rd_size) r.(rd_size) r.(rd_base) 1) /\
  map (fun e => (tag_bytes m e.(e_tag), value_bytes m e.(e_value))) els = xs.
Proof.
  intros Hr Hf Hfin HF. revert r fuel Hr Hf Hfin.
  induction HF as [|x w xs ws Hw HF IH]; intros r fuel Hr Hf Hfin Hb Hfuel;
    (destruct fuel as [|fuel]; [simpl in Hfuel; lia|]); cbn [reader_drain]; pose proof Hr as [Hp Hbase He _ Hnull Hcan].
  - apply (f_equal length) in Hb. rewrite length_bytes_of in Hb. cbn in Hb.
    unfold tlv_reader_next, tlv_reader_next_diag, reader_next.
    rewrite (reader_ok_valid r Hr), is_ok_OK. cbn [andb]. rewrite is_ok_OK. cbn [negb].
    rewrite (proj2 (Z.eqb_eq _ _)), Hfin by lia. change (negb (1 =? 0)) with true. cbn match. exists [].
    change (is_ok TLV_END) with false. cbn match. assert (rd_pos r = rd_size r) as Hps by lia.
    split; [|done]. destruct r; cbn in *. by subst.
  - pose proof (cl_wire_length _ _ _ Hw) as Hlen. cbn [concat] in Hb.
    assert (rd_size r - rd_pos r = zlen w + zlen (concat ws)) as Hsz.
    { apply (f_equal length) in Hb. rewrite length_bytes_of, length_app in Hb. lia. }
    pose proof (reader_data_ok r Hr ltac:(lia)) as Hd. rewrite Hsz, bytes_of_app in Hb by lia.
    apply app_inj_1 in Hb as [Hb1 Hb2]; [|rewrite length_bytes_of; lia].
    assert (rd_size r - rd_pos r <= SIZE_MAX) as Hm by lia.
    assert (zlen w <= rd_size r - rd_pos r) as Hwl by lia.
    destruct (cl_decode m _ (rd_size r - rd_pos r) no_decoded None _ _ w Hd Hm Hw Hwl Hb1) as (d & Hdec & Hs & Ht & Hv).
    unfold tlv_reader_next, tlv_reader_next_diag.
    rewrite (reader_next_element f m r empty_element None None d None Hr Hf ltac:(lia) Hdec), is_ok_OK. cbn [cell].
    set (r' := mk_reader _ _ _ _ _ _).
    rewrite Hf in Hcan. assert (reader_ok r') as Hr' by (split; cbn; try done; lia).
    destruct (IH r' fuel Hr' eq_refl Hfin) as (els & -> & Hmap).
    + cbn. rewrite <- padd_padd, Hs. rewrite <- Hb2. f_equal. lia.
    + simpl in Hfuel. lia.
    + eexists. split; [reflexivity|]. cbn [map]. rewrite Hmap, Ht, Hv. by destruct x.
Qed.

(** A reader over the concatenated wire octets of any sequence of elements yields exactly those
    elements, in order and with the tags and values that were encoded, and then reports END at the
    end of the input; one step per element and one for the end are enough. *)
Theorem reader_reads_wire `{Platform} (f : tlv_format_t) (Hlaws : CodecLaws f) (m : mem) (data : ptr)
  (xs : list (list Z * list Z)) (ws : list (list Z)) (r0 : tlv_reader_t)
  (Hf : tlv_format_can_read (Some f) = true) (Hd : data <> NULL)
  (Hxs : Forall2 (wire_of f) xs ws) (Hsize : zlen (concat ws) <= SIZE_MAX)
  (Hb : bytes_of m data (zlen (concat ws)) = concat ws) :
  exists r els, tlv_reader_init (Some r0) data (zlen (concat ws)) (Some f) = (TLV_OK, Some r) /\
    reader_drain (S (length xs)) m r =
      Some (TLV_END, els, mk_reader (Some f) data (zlen (concat ws)) (zlen (concat ws)) 0 1) /\
    map (fun e => (tag_bytes m e.(e_tag), value_bytes m e.(e_value))) els = xs.
Proof.
  unfold tlv_reader_init. rewrite Hf. replace (is_null data) with false by (by destruct data). cbn [andb orb negb].
  set (r := mk_reader _ _ _ _ _ _).
  assert (reader_ok r) as Hr by (split; cbn; try done; try lia; by right).
  destruct (reader_drain_wire f m xs ws r (S (length xs)) Hr eq_refl eq_refl Hxs) as (els & Hdr & Hmap).
  - cbn. rewrite padd_0, Z.sub_0_r. exact Hb.
  - lia.
  - exists r, els. split; [done|]. split; [exact Hdr|exact Hmap].
Qed.

Lemma fixed_example_codec : @CodecLaws LP64 fixed_example_format.
Proof.
  assert (1 <= 2 <= @SIZE_MAX LP64) as H1 by (vm_compute; intuition congruence).
  assert (1 <= 2 <= 8) as H2 by lia.
  exact (binary_codec_laws (H := LP64) fixed_example H1 H2 eq_refl fixed_example_format eq_refl eq_refl eq_refl).
Defined.

Lemma reader_reads_wire_witness :
  let m := mem_of 1 [3; 0; 10; 20; 1; 2; 0; 9; 9] in
  exists r els, tlv_reader_init (Some (mk_reader None NULL 0 0 0 0)) (Ptr 1 0) 9 (Some fixed_example_format) = (TLV_OK, Some r) /\
    @reader_drain LP64 3 m r = Some (TLV_END, els, mk_reader (Some fixed_example_format) (Ptr 1 0) 9 9 0 1) /\
    map (fun e => (tag_bytes m e.(e_tag), value_bytes m e.(e_value))) els = [([10; 20], [1]); ([9; 9], [])].
Proof.
  exact (reader_reads_wire (H := LP64) fixed_example_format fixed_example_codec
    (mem_of 1 [3; 0; 10; 20; 1; 2; 0; 9; 9]) (Ptr 1 0) [([10; 20], [1]); ([9; 9], [])]
    [[3; 0; 10; 20; 1]; [2; 0; 9; 9]] (mk_reader None NULL 0 0 0 0) eq_refl ltac:(congruence)
    ltac:(repeat constructor) ltac:(vm_compute; congruence) ltac:(vm_compute; reflexivity)).
Defined.

Lemma reader_set_input_cases `{Platform} (r : tlv_reader_t) (data : ptr) (size discard final_input : Z)
  :
  reader_ok r -> 0 <= size -> 0 <= discard ->
  let '(rc, reader) := tlv_reader_set_input (Some r) data size discard final_input in
  (rc = TLV_OK <->
     (data = NULL -> size = 0) /\ discard <= r.(rd_pos) /\ (final_input = 0 \/ final_input = 1) /\
     r.(rd_size) - discard <= size /\ r.(rd_base) + discard + size <= SIZE_MAX /\
     (r.(rd_final) = 1 -> final_input = 1 /\ size = r.(rd_size) - discard)) /\
  (rc = TLV_OK -> exists r', reader = Some r' /\ reader_ok r' /\
     tlv_reader_offset (Some r') = tlv_reader_offset (Some r) /\
     r'.(rd_data) = data /\ r'.(rd_size) = size /\ r'.(rd_pos) = r.(rd_pos) - discard /\
     r'.(rd_final) = final_input /\ r'.(rd_format) = r.(rd_format)) /\
  (rc <> TLV_OK -> reader = Some r).
Proof.
  intros Hr Hsize Hdiscard. pose proof Hr as [Hp Hb He Hfin Hnull Hcan]. unfold tlv_reader_set_input.
  rewrite (reader_ok_valid r Hr), is_ok_OK. cbn [negb].
  destruct (is_null data && negb (size =? 0)) eqn:E1.
  { split; [|done]. split; [done|]. intros (Hd & _). destruct data; [|done]. by rewrite (Hd eq_refl) in E1. }
  assert (data = NULL -> size = 0) as Hd by (intros ->; simpl in E1; lia).
  destruct ((rd_pos r <? discard) || _) eqn:E2.
  { split; [|done]. split; [done|]. intros (_ & ? & Hfi & _). destruct Hfi as [-> | ->]; simpl in E2; lia. }
  rewrite orb_false_iff, andb_false_iff, !negb_false_iff in E2. cbv zeta.
  destruct (size <? rd_size r - discard) eqn:E3; [split; [|done]; split; [done|]; lia|].
  destruct (negb (rd_final r =? 0) && _) eqn:E4.
  { split; [|done]. split; [done|]. intros (_ & _ & _ & _ & _ & Hc). rewrite andb_true_iff, orb_true_iff, !negb_true_iff in E4.
    destruct Hfin as [Hz|Ho]; [lia|]. specialize (Hc Ho). lia. }
  destruct (SIZE_MAX - (rd_base r + discard) <? size) eqn:E5; [split; [|done]; split; [done|]; lia|].
  split; [split; [|done]; intros _|split; [|done]; intros _].
  - do 5 (split; [done || lia|]). intros Ho. rewrite Ho in E4. change (negb (1 =? 0)) with true in E4. lia.
  - eexists. split; [done|]. assert (reader_ok (mk_reader (rd_format r) data size (rd_pos r - discard) (rd_base r + discard) final_input)) as Hr'
      by (split; cbn; try done; lia).
    split; [exact Hr'|]. rewrite !reader_offset_ok by done. cbn. repeat (split; [done || lia|]). done.
Qed.

(** Sliding the window is transparent: accepted input keeps the absolute position and the unread
    retained octets, extends or closes the input but never reopens or truncates it, and leaves a
    valid reader; anything else is refused and changes nothing. *)
Theorem reader_set_input_spec `{Platform} (r : tlv_reader_t) (data : ptr) (size discard final_input : Z)
  (Hr : reader_ok r) (Hsize : 0 <= size) (Hdiscard : 0 <= discard) :
  let '(rc, reader) := tlv_reader_set_input (Some r) data size discard final_input in
  (rc = TLV_OK <->
     (data = NULL -> size = 0) /\ discard <= r.(rd_pos) /\ (final_input = 0 \/ final_input = 1) /\
     r.(rd_size) - discard <= size /\ r.(rd_base) + discard + size <= SIZE_MAX /\
     (r.(rd_final) = 1 -> final_input = 1 /\ size = r.(rd_size) - discard)) /\
  (rc = TLV_OK -> exists r', reader = Some r' /\ reader_ok r' /\
     tlv_reader_offset (Some r') = tlv_reader_offset (Some r) /\
     r'.(rd_data) = data /\ r'.(rd_size) = size /\ r'.(rd_pos) = r.(rd_pos) - discard /\
     r'.(rd_final) = final_input /\ r'.(rd_format) = r.(rd_format)) /\
  (rc <> TLV_OK -> reader = Some r).
Proof. exact (reader_set_input_cases r data size discard final_input Hr Hsize Hdiscard). Qed.

Lemma reader_set_input_spec_witness :
  let r := mk_reader (Some fixed_example_format) (Ptr 1 0) 6 4 10 0 in
  exists r', @tlv_reader_set_input LP64 (Some r) (Ptr 2 0) 8 3 1 = (TLV_OK, Some r') /\
    reader_ok (H := LP64) r' /\ @tlv_reader_offset LP64 (Some r') = 14.
Proof.
  intros r.
  assert (reader_ok (H := LP64) r) as Hr
    by (split; cbn; try lia; (left; reflexivity) || congruence || (vm_compute; congruence)).
  destruct (proj1 (proj2 (reader_set_input_spec (H := LP64) r (Ptr 2 0) 8 3 1 Hr ltac:(lia) ltac:(lia))) eq_refl)
    as (r' & Hr' & Hok & Hoff & _).
  exists r'. split; [exact (f_equal (pair TLV_OK) Hr')|]. split; [exact Hok|exact Hoff].
Defined.
