(* ===== verification/TreeReader.v ===== *)
(** * The tree Reader (reader/tree.h, tree.h, src/reader/tree.c)

    A preorder cursor over nested elements that keeps no recursion and no borrowed element: an entered
    constructed value is a frame of two absolute offsets, in an array the caller owns.  The array is
    reached only through the cursor, so it is a component of the cursor here ([None] is a null
    pointer).  Loops of the source run on fuel computed from the cursor; the theorems show that it
    never runs out. *)

From S2P Require Import Prelude Mem Core Format Diagnostic WireFormat Reader.

Inductive tlv_visit_result_t : Type :=
| TLV_VISIT_CONTINUE | TLV_VISIT_STOP | TLV_VISIT_ERROR | TLV_VISIT_OTHER (n : Z).

Inductive tlv_tree_event_kind_t : Type :=
| TLV_TREE_BEGIN | TLV_TREE_ELEMENT | TLV_TREE_END | TLV_TREE_OTHER (n : Z).

#[export] Instance event_kind_eq_dec : EqDecision tlv_tree_event_kind_t.
Proof. solve_decision. Defined.

Record tlv_tree_event_t := mk_event {
  ev_kind : tlv_tree_event_kind_t; ev_element : tlv_element_t; ev_source : tlv_source_t;
  ev_depth : Z; ev_offset : Z; ev_skipped : bool }.
Definition no_event : tlv_tree_event_t := mk_event TLV_TREE_BEGIN empty_element no_source 0 0 false.

Record tlv_tree_frame_t := mk_frame { fr_end : Z; fr_resume : Z }.
Definition no_frame : tlv_tree_frame_t := mk_frame 0 0.

Record tlv_tree_item_t := mk_item {
  it_element : tlv_element_t; it_source : tlv_source_t; it_depth : Z; it_offset : Z;
  it_constructed : bool }.

Record tlv_tree_reader_t := mk_tree {
  tr_input : tlv_reader_t; tr_frames : option (list tlv_tree_frame_t); tr_capacity : Z;
  tr_max_depth : Z; tr_max_elements : Z; tr_count : Z; tr_depth : Z;
  tr_pending : tlv_tree_frame_t; tr_descend : bool; tr_end : bool; tr_skipped : bool;
  tr_projection : bool }.

(** [frames[i]] and [frames[i] = x]. *)
Definition frame_at (frames : option (list tlv_tree_frame_t)) (i : Z) : tlv_tree_frame_t :=
  match frames with Some l => nth (Z.to_nat i) l no_frame | None => no_frame end.
Definition set_frame (frames : option (list tlv_tree_frame_t)) (i : Z) (x : tlv_tree_frame_t)
  : option (list tlv_tree_frame_t) :=
  match frames with Some l => Some (<[Z.to_nat i := x]> l) | None => None end.

Definition with_pos (pos : Z) (r : tlv_reader_t) : tlv_reader_t :=
  mk_reader r.(rd_format) r.(rd_data) r.(rd_size) pos r.(rd_base) r.(rd_final).

(** The input narrowed to an enclosing value that ends at the absolute offset [stop]. *)
Definition narrowed `{Platform} (stop : Z) (r : tlv_reader_t) : tlv_reader_t :=
  mk_reader r.(rd_format) r.(rd_data) (usize (stop - r.(rd_base))) r.(rd_pos) r.(rd_base) 1.

Definition with_projection (b : bool) (t : tlv_tree_reader_t) : tlv_tree_reader_t :=
  mk_tree t.(tr_input) t.(tr_frames) t.(tr_capacity) t.(tr_max_depth) t.(tr_max_elements) t.(tr_count)
    t.(tr_depth) t.(tr_pending) t.(tr_descend) t.(tr_end) t.(tr_skipped) b.

(** A closed scope: the result is the returned flag, the cursor and the event. *)
Definition close_event `{Platform} (t : tlv_tree_reader_t) (event : tlv_tree_event_t)
  : bool * tlv_tree_reader_t * tlv_tree_event_t :=
  let resumed (frame : tlv_tree_frame_t) :=
    with_pos (usize (frame.(fr_resume) - t.(tr_input).(rd_base))) t.(tr_input) in
  if t.(tr_end) then
    let frame := t.(tr_pending) in
    (true,
     mk_tree (resumed frame) t.(tr_frames) t.(tr_capacity) t.(tr_max_depth) t.(tr_max_elements)
       t.(tr_count) t.(tr_depth) t.(tr_pending) t.(tr_descend) false false t.(tr_projection),
     mk_event TLV_TREE_END event.(ev_element) event.(ev_source) t.(tr_depth) frame.(fr_end)
       t.(tr_skipped))
  else if negb t.(tr_descend) && negb (t.(tr_depth) =? 0) &&
          (tlv_reader_offset (Some t.(tr_input)) =? (frame_at t.(tr_frames) (t.(tr_depth) - 1)).(fr_end))
  then
    let frame := frame_at t.(tr_frames) (t.(tr_depth) - 1) in
    (true,
     mk_tree (resumed frame) t.(tr_frames) t.(tr_capacity) t.(tr_max_depth) t.(tr_max_elements)
       t.(tr_count) (t.(tr_depth) - 1) t.(tr_pending) t.(tr_descend) t.(tr_end) t.(tr_skipped)
       t.(tr_projection),
     mk_event TLV_TREE_END event.(ev_element) event.(ev_source) (t.(tr_depth) - 1) frame.(fr_end)
       event.(ev_skipped))
  else (false, t, event).

Fixpoint drain_loop `{Platform} (fuel : nat) (t : tlv_tree_reader_t) (event : tlv_tree_event_t)
  : option tlv_tree_reader_t :=
  match fuel with
  | O => None
  | S fuel =>
      let '(closed, t, event) := close_event t event in
      if closed then drain_loop fuel t event else Some t
  end.

(** Every round closes the pending scope or a frame. *)
Definition drain_ends `{Platform} (t : tlv_tree_reader_t) : option tlv_tree_reader_t :=
  drain_loop (Z.to_nat t.(tr_depth) + 2) t no_event.

Definition tlv_tree_reader_init (reader : option tlv_tree_reader_t) (data : ptr) (size : Z)
  (format : option tlv_format_t) (frames : option (list tlv_tree_frame_t))
  (capacity max_depth max_elements : Z) : tlv_result_t * option tlv_tree_reader_t :=
  match reader with
  | None => (TLV_ERR_NULL_ARG, reader)
  | Some _ =>
      if negb (is_some frames) && negb (capacity =? 0) then (TLV_ERR_NULL_ARG, reader)
      else
        let '(rc, input) := tlv_reader_init (Some (mk_reader None NULL 0 0 0 0)) data size format in
        if negb (is_ok rc) then (rc, reader)
        else (TLV_OK,
              Some (mk_tree (cell (mk_reader None NULL 0 0 0 0) input) frames capacity max_depth max_elements
                      0 0 no_frame false false false false))
  end.

Definition with_input (input : tlv_reader_t) (t : tlv_tree_reader_t) : tlv_tree_reader_t :=
  mk_tree input t.(tr_frames) t.(tr_capacity) t.(tr_max_depth) t.(tr_max_elements) t.(tr_count)
    t.(tr_depth) t.(tr_pending) t.(tr_descend) t.(tr_end) t.(tr_skipped) t.(tr_projection).

Definition tlv_tree_reader_init_incremental (reader : option tlv_tree_reader_t) (data : ptr) (size : Z)
  (format : option tlv_format_t) (frames : option (list tlv_tree_frame_t))
  (capacity max_depth max_elements : Z) : tlv_result_t * option tlv_tree_reader_t :=
  let '(rc, reader) :=
    tlv_tree_reader_init reader data size format frames capacity max_depth max_elements in
  match reader with
  | Some t => (rc, Some (if is_ok rc then with_input (with_final 0 t.(tr_input)) t else t))
  | None => (rc, None)
  end.

Definition tlv_tree_reader_set_input `{Platform} (reader : option tlv_tree_reader_t) (data : ptr)
  (size discard final_input : Z) : tlv_result_t * option tlv_tree_reader_t :=
  match reader with
  | None => (TLV_ERR_NULL_ARG, reader)
  | Some t =>
      let '(rc, input) := tlv_reader_set_input (Some t.(tr_input)) data size discard final_input in
      (rc, Some (with_input (cell t.(tr_input) input) t))
  end.

Definition tlv_tree_reader_consumed (reader : option tlv_tree_reader_t) : Z :=
  match reader with Some t => tlv_reader_consumed (Some t.(tr_input)) | None => 0 end.

Definition tlv_tree_reader_offset `{Platform} (reader : option tlv_tree_reader_t) : Z :=
  match reader with Some t => tlv_reader_offset (Some t.(tr_input)) | None => 0 end.

Definition tlv_tree_reader_at_end (reader : option tlv_tree_reader_t) : bool :=
  match reader with
  | Some t => negb t.(tr_descend) && negb t.(tr_end) && (t.(tr_depth) =? 0) &&
              tlv_reader_at_end (Some t.(tr_input))
  | None => false
  end.

(** The event and the cursor after a successful decode of the element at [offset]: the assignments
    at the end of [tlv_tree_reader_next_event_diag]; [input] is the reader behind the element. *)
Definition publish_event `{Platform} (m : mem) (t : tlv_tree_reader_t) (input : tlv_reader_t)
  (element : tlv_element_t) (source : tlv_source_t) (depth offset : Z)
  : tlv_tree_reader_t * tlv_tree_event_t :=
  let constructed :=
    match input.(rd_format) with
    | Some {| f_is_constructed := Some is_constructed |} => is_constructed m element.(e_tag)
    | _ => false
    end in
  let frames := if t.(tr_descend) then set_frame t.(tr_frames) t.(tr_depth) t.(tr_pending)
                else t.(tr_frames) in
  let filled := negb (element.(e_value).(v_size) =? 0) in
  let start := usize (offset + source.(s_value).(r_offset)) in
  (mk_tree
     (with_pos (if constructed then usize (start - input.(rd_base)) else input.(rd_pos)) t.(tr_input))
     frames t.(tr_capacity) t.(tr_max_depth) t.(tr_max_elements) (usize (t.(tr_count) + 1)) depth
     (if constructed
      then mk_frame (usize (start + source.(s_value).(r_size))) (tlv_reader_offset (Some input))
      else t.(tr_pending))
     (constructed && filled) (constructed && negb filled) t.(tr_skipped) false,
   mk_event (if constructed then TLV_TREE_BEGIN else TLV_TREE_ELEMENT) element source depth offset
     false).

(** Out-parameters: the cursor, the event and the diagnostic. *)
Definition tlv_tree_reader_next_event_diag `{Platform} (m : mem) (reader : option tlv_tree_reader_t)
  (item : option tlv_tree_event_t) (diagnostic : option tlv_reader_diagnostic_t)
  : tlv_result_t * option tlv_tree_reader_t * option tlv_tree_event_t * option tlv_reader_diagnostic_t :=
  match reader, item with
  | Some t, Some _ =>
      let '(closed, t1, next) := close_event t no_event in
      if closed then (TLV_OK, Some (with_projection false t1), Some next, diagnostic)
      else
        let depth := t.(tr_depth) in
        if t.(tr_descend) && (depth =? t.(tr_max_depth)) then (TLV_ERR_LIMIT, reader, item, diagnostic)
        else if t.(tr_descend) && (depth =? t.(tr_capacity)) then
          (TLV_ERR_BUFFER_TOO_SHORT, reader, item, diagnostic)
        else
          let '(input, depth) :=
            if t.(tr_descend) then (narrowed t.(tr_pending).(fr_end) t.(tr_input), usize (depth + 1))
            else if negb (depth =? 0) then
              (narrowed (frame_at t.(tr_frames) (depth - 1)).(fr_end) t.(tr_input), depth)
            else (t.(tr_input), depth) in
          if (input.(rd_pos) <? input.(rd_size)) && (t.(tr_count) =? t.(tr_max_elements)) then
            (TLV_ERR_LIMIT, reader, item, diagnostic)
          else
            let offset := tlv_reader_offset (Some input) in
            let '(rc, input, element, source, diagnostic) :=
              tlv_reader_next_source_diag m (Some input) (Some empty_element) (Some no_source) diagnostic in
            if negb (is_ok rc) then (rc, reader, item, diagnostic)
            else
              let '(t, next) := publish_event m t (cell t.(tr_input) input) (cell empty_element element)
                                  (cell no_source source) depth offset in
              (TLV_OK, Some t, Some next, diagnostic)
  | _, _ => (TLV_ERR_NULL_ARG, reader, item, diagnostic)
  end.

Definition tlv_tree_reader_next_event `{Platform} (m : mem) (reader : option tlv_tree_reader_t)
  (event : option tlv_tree_event_t)
  : tlv_result_t * option tlv_tree_reader_t * option tlv_tree_event_t :=
  let '(rc, reader, event, _) := tlv_tree_reader_next_event_diag m reader event None in
  (rc, reader, event).

(** The [do .. while (event.kind == TLV_TREE_END)] loop. *)
Fixpoint next_node `{Platform} (fuel : nat) (m : mem) (t : tlv_tree_reader_t)
  (diagnostic : option tlv_reader_diagnostic_t)
  : option (tlv_result_t * tlv_tree_reader_t * tlv_tree_event_t * option tlv_reader_diagnostic_t) :=
  match fuel with
  | O => None
  | S fuel =>
      let '(rc, reader, event, diagnostic) :=
        tlv_tree_reader_next_event_diag m (Some t) (Some no_event) diagnostic in
      let t := cell t reader in
      let event := cell no_event event in
      if negb (is_ok rc) then Some (rc, t, event, diagnostic)
      else if bool_decide (event.(ev_kind) = TLV_TREE_END) then next_node fuel m t diagnostic
      else Some (rc, t, event, diagnostic)
  end.

Definition tlv_tree_reader_next_diag `{Platform} (m : mem) (reader : option tlv_tree_reader_t)
  (item : option tlv_tree_item_t) (diagnostic : option tlv_reader_diagnostic_t)
  : option (tlv_result_t * option tlv_tree_reader_t * option tlv_tree_item_t * option tlv_reader_diagnostic_t) :=
  match reader, item with
  | Some t, Some _ =>
      match next_node (Z.to_nat t.(tr_depth) + 3) m t diagnostic with
      | None => None
      | Some (rc, t, event, diagnostic) =>
          if negb (is_ok rc) then Some (rc, Some t, item, diagnostic)
          else
            match drain_ends (with_projection true t) with
            | None => None
            | Some t =>
                Some (TLV_OK, Some t,
                  Some (mk_item event.(ev_element) event.(ev_source) event.(ev_depth) event.(ev_offset)
                          (bool_decide (event.(ev_kind) = TLV_TREE_BEGIN))), diagnostic)
            end
      end
  | _, _ => Some (TLV_ERR_NULL_ARG, reader, item, diagnostic)
  end.

Definition tlv_tree_reader_next `{Platform} (m : mem) (reader : option tlv_tree_reader_t)
  (item : option tlv_tree_item_t)
  : option (tlv_result_t * option tlv_tree_reader_t * option tlv_tree_item_t) :=
  match tlv_tree_reader_next_diag m reader item None with
  | Some (rc, reader, item, _) => Some (rc, reader, item)
  | None => None
  end.

Definition tlv_tree_reader_skip_subtree `{Platform} (reader : option tlv_tree_reader_t)
  : option (tlv_result_t * option tlv_tree_reader_t) :=
  match reader with
  | None => Some (TLV_ERR_NULL_ARG, reader)
  | Some t =>
      if negb t.(tr_descend) then Some (TLV_ERR_INVALID_STATE, reader)
      else
        let t := mk_tree
          (with_pos (usize (t.(tr_pending).(fr_resume) - t.(tr_input).(rd_base))) t.(tr_input))
          t.(tr_frames) t.(tr_capacity) t.(tr_max_depth) t.(tr_max_elements) t.(tr_count) t.(tr_depth)
          t.(tr_pending) false true true t.(tr_projection) in
        if t.(tr_projection) then
          match drain_ends t with Some t => Some (TLV_OK, Some t) | None => None end
        else Some (TLV_OK, Some t)
  end.

(** ** The invariant of a cursor *)

Definition here (t : tlv_tree_reader_t) : Z := t.(tr_input).(rd_base) + t.(tr_input).(rd_pos).

(** The active frames, innermost first. *)
Definition active (t : tlv_tree_reader_t) : list tlv_tree_frame_t :=
  rev (take (Z.to_nat t.(tr_depth)) (default [] t.(tr_frames))).

(** From [lo] outwards, every frame's value ends before its element, inside the enclosing value. *)
Fixpoint nested (lo hi : Z) (frames : list tlv_tree_frame_t) : Prop :=
  match frames with
  | [] => lo <= hi
  | f :: frames => lo <= f.(fr_end) <= f.(fr_resume) /\ nested f.(fr_resume) hi frames
  end.

Definition window_end (t : tlv_tree_reader_t) : Z := t.(tr_input).(rd_base) + t.(tr_input).(rd_size).

Definition pending (t : tlv_tree_reader_t) : bool := t.(tr_descend) || t.(tr_end).

Record tree_ok `{Platform} (t : tlv_tree_reader_t) : Prop := {
  tk_input : reader_ok t.(tr_input);
  tk_frames : zlen (default [] t.(tr_frames)) = t.(tr_capacity);
  tk_depth : 0 <= t.(tr_depth) <= t.(tr_capacity) /\ t.(tr_depth) <= t.(tr_max_depth) <= SIZE_MAX;
  tk_count : 0 <= t.(tr_count) <= t.(tr_max_elements) /\ t.(tr_max_elements) <= SIZE_MAX;
  tk_nested : nested (if pending t then t.(tr_pending).(fr_resume) else here t) (window_end t) (active t);
  tk_pending : pending t = true ->
    here t <= t.(tr_pending).(fr_resume) /\ t.(tr_pending).(fr_end) <= t.(tr_pending).(fr_resume);
  tk_descend : t.(tr_descend) = true ->
    t.(tr_end) = false /\ here t < t.(tr_pending).(fr_end) <= t.(tr_pending).(fr_resume);
  tk_skipped : t.(tr_skipped) = true -> t.(tr_end) = true }.

(** Where the sequence that is being read ends. *)
Definition limit (t : tlv_tree_reader_t) : Z :=
  if t.(tr_descend) then t.(tr_pending).(fr_end)
  else match active t with f :: _ => f.(fr_end) | [] => window_end t end.

(** The scopes that are open: the active frames and a begun element that is not yet entered. *)
Definition open (t : tlv_tree_reader_t) : Z := t.(tr_depth) + (if pending t then 1 else 0).

(** The depth discipline of a balanced stream, from a number of open scopes to the next. *)
Definition nest (n : Z) (e : tlv_tree_event_t) : option Z :=
  match e.(ev_kind) with
  | TLV_TREE_BEGIN => if e.(ev_depth) =? n then Some (n + 1) else None
  | TLV_TREE_ELEMENT => if e.(ev_depth) =? n then Some n else None
  | TLV_TREE_END => if (1 <=? n) && (e.(ev_depth) =? n - 1) then Some (n - 1) else None
  | TLV_TREE_OTHER _ => None
  end.

(** Every event decreases it. *)
Definition remaining_events (t : tlv_tree_reader_t) : Z :=
  2 * (t.(tr_max_elements) - t.(tr_count)) + open t.

Lemma nested_le fs : forall lo hi, nested lo hi fs -> lo <= hi.
Proof. induction fs as [|f fs IH]; intros lo hi Hn; [exact Hn|]. destruct Hn as [Hf Hn]. apply IH in Hn. lia. Qed.

Lemma nested_weaken fs lo hi hi' : nested lo hi fs -> hi <= hi' -> nested lo hi' fs.
Proof. revert lo. induction fs as [|f fs IH]; intros lo; simpl; [lia|]. intros [? Hn] ?. split; [done|]. now apply IH. Qed.

Lemma nested_lower fs lo lo' hi : nested lo hi fs -> lo' <= lo -> nested lo' hi fs.
Proof. destruct fs as [|f fs]; simpl; [lia|]. intros [? ?] ?. split; [lia|done]. Qed.

Lemma active_top t :
  0 <= t.(tr_depth) <= zlen (default [] t.(tr_frames)) -> t.(tr_depth) <> 0 ->
  active t = frame_at t.(tr_frames) (t.(tr_depth) - 1) ::
             rev (take (Z.to_nat (t.(tr_depth) - 1)) (default [] t.(tr_frames))).
Proof.
  intros Hd Hz. unfold active, frame_at. destruct (tr_frames t) as [l|] eqn:Ef; cbn in *; [|simpl in Hd; lia].
  replace (Z.to_nat (tr_depth t)) with (S (Z.to_nat (tr_depth t - 1))) by lia.
  destruct (nth_lookup_or_length l (Z.to_nat (tr_depth t - 1)) no_frame) as [E|E]; [|lia].
  now rewrite (take_S_r _ _ _ E), rev_unit.
Qed.

Lemma active_zero t : t.(tr_depth) = 0 -> active t = [].
Proof. intros E. unfold active. now rewrite E. Qed.

Lemma active_set_frame frames n x :
  0 <= n < zlen (default [] frames) ->
  rev (take (Z.to_nat (n + 1)) (default [] (set_frame frames n x))) =
  x :: rev (take (Z.to_nat n) (default [] frames)).
Proof.
  intros Hn. destruct frames as [l|]; cbn in *; [|simpl in Hn; lia].
  replace (Z.to_nat (n + 1)) with (S (Z.to_nat n)) by lia.
  rewrite (take_S_r _ _ x), take_insert_ge by (done || apply list_lookup_insert_eq; lia).
  now rewrite rev_unit.
Qed.

Lemma zlen_set_frame frames n x : zlen (default [] (set_frame frames n x)) = zlen (default [] frames).
Proof. destruct frames; [|done]. cbn. now rewrite length_insert. Qed.

Lemma tree_here_bound `{Platform} t : tree_ok t -> 0 <= here t <= window_end t /\ window_end t <= SIZE_MAX.
Proof. intros [[Hp Hb He _ _ _] _ _ _ _ _ _ _]. unfold here, window_end. lia. Qed.

(** Resuming the window at an absolute offset of it. *)
Lemma reader_ok_with_pos `{Platform} r at_ :
  reader_ok r -> r.(rd_base) + r.(rd_pos) <= at_ <= r.(rd_base) + r.(rd_size) ->
  usize (at_ - r.(rd_base)) = at_ - r.(rd_base) /\
  reader_ok (with_pos (usize (at_ - r.(rd_base))) r).
Proof.
  intros [Hp Hb He Hf Hd Hc] Ha. rewrite usize_small by lia. split; [done|]. split; cbn; try done; lia.
Qed.

(** The cursor at the absolute offset [at_] with [d] active frames and no pending scope. *)
Definition flat_at `{Platform} (t : tlv_tree_reader_t) (at_ d : Z) : tlv_tree_reader_t :=
  mk_tree (with_pos (usize (at_ - t.(tr_input).(rd_base))) t.(tr_input)) t.(tr_frames) t.(tr_capacity)
    t.(tr_max_depth) t.(tr_max_elements) t.(tr_count) d t.(tr_pending) false false false t.(tr_projection).

Lemma flat_at_ok `{Platform} t at_ d :
  tree_ok t -> 0 <= d <= t.(tr_depth) -> here t <= at_ ->
  nested at_ (window_end t) (rev (take (Z.to_nat d) (default [] t.(tr_frames)))) ->
  tree_ok (flat_at t at_ d) /\ here (flat_at t at_ d) = at_.
Proof.
  intros Ht Hd Hat Hn. pose proof Ht as [Hin Hfr [Hd1 Hd2] Hc _ _ _ _]. pose proof (nested_le _ _ _ Hn) as Hle.
  destruct (reader_ok_with_pos (tr_input t) at_ Hin) as [Eu Hin']; [unfold here, window_end in *; lia|].
  assert (here (flat_at t at_ d) = at_) as Eh by (unfold here; cbn; rewrite Eu; lia).
  split; [|done]. split; try done; [cbn; lia|]. unfold pending. cbn [tr_descend tr_end flat_at orb].
  rewrite Eh. exact Hn.
Qed.

Lemma close_event_spec `{Platform} t ev :
  tree_ok t ->
  let '(closed, t', e) := close_event t ev in
  if closed then
    exists at_ d, t' = flat_at t at_ d /\ tree_ok t' /\ here t' = at_ /\ 0 <= d <= t.(tr_depth) /\
      here t <= at_ /\ open t = d + 1 /\
      e = mk_event TLV_TREE_END ev.(ev_element) ev.(ev_source) d e.(ev_offset) e.(ev_skipped) /\
      e.(ev_offset) <= at_
  else t' = t /\ e = ev /\ t.(tr_end) = false /\ t.(tr_skipped) = false /\ here t <= limit t /\
       (here t = limit t -> t.(tr_depth) = 0 /\ t.(tr_descend) = false).
Proof.
  intros Ht. pose proof Ht as [Hin Hfr [Hd1 Hd2] Hc Hn Hp Hde Hs]. pose proof (tree_here_bound t Ht) as Hb.
  pose proof (nested_le _ _ _ Hn) as Hle. unfold close_event, open, limit, pending in *.
  destruct (tr_end t) eqn:Eend.
  - destruct (tr_descend t) eqn:Ede; [destruct (Hde eq_refl); done|]. cbn [orb] in *.
    destruct (Hp eq_refl) as [Hp1 Hp2].
    destruct (flat_at_ok t (fr_resume (tr_pending t)) (tr_depth t) Ht ltac:(lia) Hp1 Hn) as [Hok Eh].
    exists (fr_resume (tr_pending t)), (tr_depth t). unfold flat_at in *. now repeat (split; [done || lia|]).
  - assert (tr_skipped t = false) as Esk by (destruct (tr_skipped t); [discriminate (Hs eq_refl)|done]).
    rewrite (reader_offset_ok _ Hin). fold (here t). destruct (tr_descend t) eqn:Ede.
    { cbn. destruct (Hde eq_refl) as [_ Hl]. repeat (split; [done || lia|]). lia. }
    cbn [orb negb andb] in *. destruct (tr_depth t =? 0) eqn:Ez.
    { rewrite active_zero in * by lia. cbn in *. repeat (split; [done || lia|]). done. }
    rewrite (active_top t) in * by lia. destruct Hn as [Hn1 Hn2]. cbn [negb andb].
    destruct (here t =? _) eqn:E.
    + destruct (flat_at_ok t (fr_resume (frame_at (tr_frames t) (tr_depth t - 1))) (tr_depth t - 1) Ht ltac:(lia) ltac:(lia) Hn2) as [Hok Eh].
      eexists _, (tr_depth t - 1). unfold flat_at in *. rewrite Esk. now repeat (split; [done || lia|]).
    + repeat (split; [done || lia|]). lia.
Qed.

(** ** One event *)

(** The scopes around the element that is read next. *)
Definition enclosing (t : tlv_tree_reader_t) : list tlv_tree_frame_t :=
  if t.(tr_descend) then t.(tr_pending) :: active t else active t.

Lemma enclosing_nested `{Platform} t lo :
  tree_ok t -> t.(tr_end) = false -> lo <= limit t -> nested lo (window_end t) (enclosing t).
Proof.
  intros [_ _ _ _ Hn _ Hde _] He Hlo. unfold limit, enclosing, pending in *. rewrite He in *.
  destruct (tr_descend t); cbn [orb] in Hn.
  - destruct (Hde eq_refl) as [_ ?]. split; [lia|exact Hn].
  - destruct (active t) as [|fr fs]; [exact Hlo|]. destruct Hn as [? Hn]. split; [lia|exact Hn].
Qed.

Lemma limit_window `{Platform} t : tree_ok t -> t.(tr_end) = false -> limit t <= window_end t.
Proof.
  intros Ht He. pose proof (enclosing_nested t (limit t) Ht He (Z.le_refl _)) as Hn.
  now apply nested_le in Hn.
Qed.

(** The reader that [tlv_tree_reader_next_event_diag] decodes the next element with. *)
Definition scope_input `{Platform} (t : tlv_tree_reader_t) : tlv_reader_t :=
  if t.(tr_descend) then narrowed t.(tr_pending).(fr_end) t.(tr_input)
  else if negb (t.(tr_depth) =? 0) then
    narrowed (frame_at t.(tr_frames) (t.(tr_depth) - 1)).(fr_end) t.(tr_input)
  else t.(tr_input).

Definition scope_depth (t : tlv_tree_reader_t) : Z :=
  t.(tr_depth) + (if t.(tr_descend) then 1 else 0).

Lemma narrowed_ok `{Platform} r stop :
  reader_ok r -> r.(rd_base) + r.(rd_pos) <= stop <= r.(rd_base) + r.(rd_size) ->
  reader_ok (narrowed stop r) /\ (narrowed stop r).(rd_size) = stop - r.(rd_base).
Proof.
  intros [Hp Hb He Hf Hd Hc] Hs. unfold narrowed. rewrite usize_small by lia. split; [|done].
  split; cbn; try done; try lia. intros Hz. specialize (Hd Hz). lia.
Qed.

Lemma scope_input_ok `{Platform} t :
  tree_ok t -> t.(tr_end) = false -> here t <= limit t ->
  let r := scope_input t in
  reader_ok r /\ r.(rd_base) + r.(rd_size) = limit t /\ r.(rd_pos) = t.(tr_input).(rd_pos) /\
  r.(rd_base) = t.(tr_input).(rd_base) /\ r.(rd_data) = t.(tr_input).(rd_data) /\
  r.(rd_format) = t.(tr_input).(rd_format) /\
  (scope_depth t <> 0 -> r.(rd_final) = 1) /\ (scope_depth t = 0 -> r = t.(tr_input)).
Proof.
  intros Ht He Hl. pose proof Ht as [Hin Hfr [Hd1 Hd2] _ _ _ Hde _].
  pose proof (limit_window t Ht He) as Hw. unfold scope_input, scope_depth, limit, here, window_end in *.
  destruct (tr_descend t).
  - destruct (narrowed_ok _ (fr_end (tr_pending t)) Hin) as [Hok Esz]; [lia|].
    cbn zeta. rewrite Esz. repeat (split; [done || (cbn; lia)|]). lia.
  - destruct (tr_depth t =? 0) eqn:Ez; cbn [negb].
    + rewrite active_zero in * by lia. repeat (split; [done || (cbn; lia)|]). done.
    + rewrite (active_top t) in * by lia.
      destruct (narrowed_ok _ (fr_end (frame_at (tr_frames t) (tr_depth t - 1))) Hin) as [Hok Esz]; [lia|].
      cbn zeta. rewrite Esz. repeat (split; [done || (cbn; lia)|]). lia.
Qed.

(** What publishing an element decoded in the scope leaves, without the wrap-around of the source. *)
Definition scope_frames (t : tlv_tree_reader_t) : option (list tlv_tree_frame_t) :=
  if t.(tr_descend) then set_frame t.(tr_frames) t.(tr_depth) t.(tr_pending) else t.(tr_frames).

Definition published (t : tlv_tree_reader_t) (s : tlv_source_t) (constructed : bool)
  : tlv_tree_reader_t :=
  let filled := negb (s.(s_value).(r_size) =? 0) in
  mk_tree
    (with_pos (t.(tr_input).(rd_pos) + (if constructed then s.(s_header).(r_size) else s.(s_size))) t.(tr_input))
    (scope_frames t) t.(tr_capacity) t.(tr_max_depth) t.(tr_max_elements) (t.(tr_count) + 1)
    (scope_depth t)
    (if constructed
     then mk_frame (here t + s.(s_header).(r_size) + s.(s_value).(r_size)) (here t + s.(s_size))
     else t.(tr_pending))
    (constructed && filled) (constructed && negb filled) false false.

Definition is_constructed (f : option tlv_format_t) (m : mem) (tag : tlv_tag_t) : bool :=
  match f with
  | Some {| f_is_constructed := Some is_constructed |} => is_constructed m tag
  | _ => false
  end.

Section Publishing.
Context `{Platform} (m : mem) (t : tlv_tree_reader_t) (d : tlv_decoded_t) (Ht : tree_ok t)
  (He : t.(tr_end) = false) (Hsk : t.(tr_skipped) = false) (Hl : here t <= limit t)
  (Hmd : scope_depth t <= t.(tr_max_depth)) (Hcap : scope_depth t <= t.(tr_capacity))
  (Hcnt : t.(tr_count) < t.(tr_max_elements))
  (Hok : decoded_ok (t.(tr_input).(rd_data) +p t.(tr_input).(rd_pos)) (limit t - here t) d).

Lemma scope_frames_active :
  rev (take (Z.to_nat (scope_depth t)) (default [] (scope_frames t))) = enclosing t /\
  zlen (default [] (scope_frames t)) = t.(tr_capacity) /\ 0 <= scope_depth t.
Proof using Ht Hcap Hmd.
  destruct Ht as [_ Hfr [Hd _] _ _ _ _ _].
  unfold scope_frames, scope_depth, enclosing, active in *. destruct (tr_descend t).
  - rewrite zlen_set_frame. split; [apply active_set_frame; lia|]. split; [done|lia].
  - rewrite Z.add_0_r. split; [done|]. split; [done|lia].
Qed.

Lemma publish_event_eq :
  let r := scope_input t in
  let constructed := is_constructed t.(tr_input).(rd_format) m d.(d_element).(e_tag) in
  publish_event m t
    (mk_reader r.(rd_format) r.(rd_data) r.(rd_size) (r.(rd_pos) + d.(d_source).(s_size)) r.(rd_base) r.(rd_final))
    d.(d_element) d.(d_source) (scope_depth t) (here t) =
  (published t d.(d_source) constructed,
   mk_event (if constructed then TLV_TREE_BEGIN else TLV_TREE_ELEMENT) d.(d_element) d.(d_source)
     (scope_depth t) (here t) false).
Proof using Ht He Hsk Hl Hcnt Hok.
  cbv zeta. destruct (scope_input_ok t Ht He Hl) as (Hr & Hrs & Hrp & Hrb & _ & Hrf & _).
  pose proof (tree_here_bound t Ht) as Hb. pose proof (limit_window t Ht He) as Hlw.
  destruct Ht as [Hin _ _ [Hc1 Hc2] _ _ _ _]. destruct Hin as [Hip Hib _ _ _ _].
  destruct Hok as [Hsz _ _ [Hh1 Hh2] [Hv1 Hv2] [Htr1 Htr2] Hsum Hview _].
  unfold publish_event, published, tlv_reader_offset, scope_frames. cbn [rd_format rd_pos rd_base].
  rewrite Hview, Hrf, Hrb, Hrp, Hv1, Hsk. cbn [v_size]. unfold here in *.
  rewrite (usize_small (rd_base (tr_input t) + rd_pos (tr_input t) + r_size (s_header (d_source d)))) by lia.
  rewrite !usize_small by lia. fold (is_constructed (rd_format (tr_input t)) m (e_tag (d_element d))).
  replace (rd_base (tr_input t) + rd_pos (tr_input t) + r_size (s_header (d_source d)) - rd_base (tr_input t))
    with (rd_pos (tr_input t) + r_size (s_header (d_source d))) by lia.
  rewrite Z.add_assoc. now destruct (is_constructed _ _ _).
Qed.

Lemma published_ok constructed :
  let t' := published t d.(d_source) constructed in
  tree_ok t' /\ window_end t' = window_end t /\ active t' = enclosing t /\
  open t' = open t + (if constructed then 1 else 0) /\ open t = scope_depth t /\
  here t' = here t + (if constructed then d.(d_source).(s_header).(r_size) else d.(d_source).(s_size)).
Proof using Ht He Hsk Hl Hmd Hcap Hcnt Hok.
  cbv zeta. pose proof (tree_here_bound t Ht) as Hb. pose proof (limit_window t Ht He) as Hlw.
  destruct scope_frames_active as (Eact & Elen & Hsd).
  destruct Hok as [Hsz _ _ [Hh1 Hh2] [Hv1 Hv2] [Htr1 Htr2] Hsum _ _].
  pose proof (enclosing_nested t (here t + s_size (d_source d)) Ht He ltac:(lia)) as Hnest.
  destruct Ht as [Hin Hfr [Hd1 Hd2] [Hc1 Hc2] _ _ Hde _]. pose proof Hin as [Hip Hib Hie Hif Hid Hic].
  set (t' := published _ _ _).
  assert (here t' = here t + (if constructed then r_size (s_header (d_source d)) else s_size (d_source d))) as Eh
    by (unfold here; cbn; lia).
  assert (open t = scope_depth t) as Eo by (unfold open, pending, scope_depth; now rewrite He, orb_false_r).
  assert (pending t' = constructed) as Ep
    by (unfold pending; cbn; destruct constructed, (_ =? 0); reflexivity).
  split; [|unfold open at 1; rewrite Ep, Eh, Eo; done]. split.
  - split; cbn; try done; unfold here, window_end in *; destruct constructed; lia.
  - exact Elen.
  - cbn. lia.
  - cbn. lia.
  - change (active t') with (rev (take (Z.to_nat (scope_depth t)) (default [] (scope_frames t)))).
    rewrite Ep, Eh, Eact. change (window_end t') with (window_end t). cbn.
    destruct constructed; exact Hnest.
  - rewrite Ep, Eh. intros ->. cbn. lia.
  - rewrite Eh. cbn. destruct constructed; [|done]. cbn. rewrite negb_true_iff, Z.eqb_neq. intros Hz.
    rewrite (proj2 (Z.eqb_neq _ _) Hz). split; [done|lia].
  - done.
Qed.
End Publishing.

(** ** A pull of the cursor *)

(** The possible outcomes of a pull that finds no scope to close. *)
Lemma next_event_open `{Platform} m t ev0 dg :
  tree_ok t -> t.(tr_end) = false -> here t <= limit t ->
  (here t = limit t -> t.(tr_depth) = 0 /\ t.(tr_descend) = false) ->
  close_event t no_event = (false, t, no_event) ->
  tlv_tree_reader_next_event_diag m (Some t) (Some ev0) dg =
    if t.(tr_descend) && (t.(tr_depth) =? t.(tr_max_depth)) then (TLV_ERR_LIMIT, Some t, Some ev0, dg)
    else if t.(tr_descend) && (t.(tr_depth) =? t.(tr_capacity)) then
      (TLV_ERR_BUFFER_TOO_SHORT, Some t, Some ev0, dg)
    else if (here t <? limit t) && (t.(tr_count) =? t.(tr_max_elements)) then
      (TLV_ERR_LIMIT, Some t, Some ev0, dg)
    else
      let '(rc, input, element, source, dg') :=
        reader_next m (Some (scope_input t)) (Some empty_element) (Some no_source) dg in
      if negb (is_ok rc) then (rc, Some t, Some ev0, dg')
      else
        let '(t', e) := publish_event m t (cell t.(tr_input) input) (cell empty_element element)
                          (cell no_source source) (scope_depth t) (here t) in
        (TLV_OK, Some t', Some e, dg').
Proof.
  intros Ht He Hl Hroot Hclose. unfold tlv_tree_reader_next_event_diag. rewrite Hclose.
  destruct (scope_input_ok t Ht He Hl) as (Hr & Hrs & Hrp & Hrb & _).
  destruct Ht as [Hin _ [Hd1 Hd2] _ _ _ _ _].
  destruct (tr_descend t && (tr_depth t =? tr_max_depth t)) eqn:E1; [done|].
  destruct (tr_descend t && (tr_depth t =? tr_capacity t)) eqn:E2; [done|].
  replace (if tr_descend t then (narrowed (fr_end (tr_pending t)) (tr_input t), usize (tr_depth t + 1))
    else if negb (tr_depth t =? 0)
    then (narrowed (fr_end (frame_at (tr_frames t) (tr_depth t - 1))) (tr_input t), tr_depth t)
    else (tr_input t, tr_depth t)) with (scope_input t, scope_depth t).
  2: { unfold scope_input, scope_depth. destruct (tr_descend t); cbn [andb] in *.
       - rewrite usize_small by lia. done.
       - rewrite Z.add_0_r. now destruct (negb _). }
  replace (rd_pos (scope_input t) <? rd_size (scope_input t)) with (here t <? limit t)
    by (unfold here in *; lia).
  destruct (_ && _); [done|]. unfold tlv_reader_next_source_diag. cbn [is_some].
  rewrite (reader_offset_ok _ Hr), Hrp, Hrb. fold (here t).
  destruct (reader_next _ _ _ _ _) as [[[[rc input] el] src] dg'].
  destruct (negb (is_ok rc)); done.
Qed.

Lemma next_event_close `{Platform} m t ev0 dg t' e :
  close_event t no_event = (true, t', e) ->
  tlv_tree_reader_next_event_diag m (Some t) (Some ev0) dg =
  (TLV_OK, Some (with_projection false t'), Some e, dg).
Proof. intros E. unfold tlv_tree_reader_next_event_diag. now rewrite E. Qed.

Lemma with_projection_ok `{Platform} b t : tree_ok t -> tree_ok (with_projection b t).
Proof. intros []. now split. Qed.

(** A published element starts at the frontier, in the innermost scope. *)
Definition event_node (m : mem) (t : tlv_tree_reader_t) (e : tlv_tree_event_t) : Prop :=
  exists d, decoded_ok (t.(tr_input).(rd_data) +p t.(tr_input).(rd_pos)) (limit t - here t) d /\
    e = mk_event (if is_constructed t.(tr_input).(rd_format) m d.(d_element).(e_tag)
                  then TLV_TREE_BEGIN else TLV_TREE_ELEMENT)
          d.(d_element) d.(d_source) (open t) (here t) false.

Definition event_outcome `{Platform} (m : mem) (t : tlv_tree_reader_t) (ev0 : tlv_tree_event_t)
  (rc : tlv_result_t) (t' : tlv_tree_reader_t) (item : option tlv_tree_event_t) : Prop :=
  tree_ok t' /\ t'.(tr_input).(rd_format) = t.(tr_input).(rd_format) /\ window_end t' = window_end t /\
  ((rc = TLV_OK /\ here t <= here t' /\
    exists e, item = Some e /\ nest (open t) e = Some (open t') /\ remaining_events t' < remaining_events t /\
      ((e.(ev_kind) = TLV_TREE_END /\ e.(ev_offset) <= here t' /\ t'.(tr_count) = t.(tr_count)) \/
       (event_node m t e /\ t'.(tr_count) = t.(tr_count) + 1))) \/
   (rc <> TLV_OK /\ t' = t /\ item = Some ev0 /\
    (rc = TLV_END -> tlv_tree_reader_at_end (Some t) = true) /\
    (rc = TLV_NEED_MORE_DATA -> open t = 0 /\ t.(tr_input).(rd_final) = 0))).

Lemma event_outcome_fail `{Platform} m t ev0 rc :
  tree_ok t -> rc <> TLV_OK ->
  (rc = TLV_END -> tlv_tree_reader_at_end (Some t) = true) ->
  (rc = TLV_NEED_MORE_DATA -> open t = 0 /\ t.(tr_input).(rd_final) = 0) ->
  event_outcome m t ev0 rc t (Some ev0).
Proof. intros. unfold event_outcome. split; [done|]. split; [done|]. split; [done|]. right. done. Qed.

Lemma next_event_step `{Platform} m t f ev0 dg :
  tree_ok t -> t.(tr_input).(rd_format) = Some f ->
  format_typed f dg ->
  let '(rc, reader, item, diagnostic) := tlv_tree_reader_next_event_diag m (Some t) (Some ev0) dg in
  exists t', reader = Some t' /\ event_outcome m t ev0 rc t' item.
Proof.
  intros Ht Hf Hty. pose proof (close_event_spec t no_event Ht) as Hclose.
  destruct (close_event t no_event) as [[closed t1] e1] eqn:Ec. destruct closed.
  - rewrite (next_event_close m t ev0 dg t1 e1 Ec).
    destruct Hclose as (at_ & d & -> & Hok & Hh & Hd & Hat & Ho & Ee & Hoff).
    eexists. split; [done|]. unfold event_outcome. split; [now apply with_projection_ok|].
    split; [done|]. split; [done|]. left. split; [done|]. split; [etransitivity; [exact Hat|]; unfold here in *; cbn in *; lia|].
    exists e1. split; [done|]. unfold nest. rewrite Ee. cbn [ev_kind ev_depth].
    rewrite Ho, (proj2 (Z.leb_le 1 _)), (proj2 (Z.eqb_eq d _)) by lia. cbn [andb].
    unfold remaining_events. rewrite Ho. unfold open. cbn. split; [f_equal; lia|]. split; [lia|].
    left. split; [done|]. unfold here in *. cbn in *. lia.
  - destruct Hclose as (-> & -> & He & Hsk & Hl & Hroot).
    rewrite (next_event_open m t ev0 dg Ht He Hl Hroot Ec).
    assert (forall rc, rc <> TLV_OK -> rc <> TLV_END -> rc <> TLV_NEED_MORE_DATA ->
      event_outcome m t ev0 rc t (Some ev0)) as Hfail by (intros; apply event_outcome_fail; done).
    pose proof Ht as [_ _ [Hd1 Hd2] [Hc1 Hc2] _ _ _ _].
    destruct (tr_descend t && (tr_depth t =? tr_max_depth t)) eqn:E1; [eexists; split; [done|]; now apply Hfail|].
    destruct (tr_descend t && (tr_depth t =? tr_capacity t)) eqn:E2; [eexists; split; [done|]; now apply Hfail|].
    destruct ((here t <? limit t) && _) eqn:E3; [eexists; split; [done|]; now apply Hfail|].
    destruct (scope_input_ok t Ht He Hl) as (Hr & Hrs & Hrp & Hrb & Hrd & Hrf & Hnestd & Hflat).
    rewrite Hf in Hrf.
    pose proof (reader_next_step m (scope_input t) f empty_element (Some no_source) dg Hr Hrf Hty) as Hs.
    destruct (reader_next m (Some (scope_input t)) (Some empty_element) (Some no_source) dg)
      as [[[[rc input] el] src] dg'].
    assert (open t = scope_depth t) as Eo by (unfold open, pending, scope_depth; now rewrite He, orb_false_r).
    destruct Hs as (r' & -> & Hr' & [(-> & -> & d & Hok & -> & -> & ->)|(Hrc & -> & -> & -> & Hend & Hmore & _)]).
    + rewrite is_ok_OK. cbn [negb cell]. rewrite Hrd, Hrp in Hok.
      replace (rd_size (scope_input t) - rd_pos (tr_input t)) with (limit t - here t) in Hok
        by (unfold here; lia).
      pose proof (ok_size _ _ _ Hok) as Hsz. pose proof (ok_header _ _ _ Hok) as [_ Hh].
      assert (scope_depth t <= tr_max_depth t /\ scope_depth t <= tr_capacity t) as [Hmd Hcap]
        by (unfold scope_depth; destruct (tr_descend t); cbn [andb] in *; lia).
      assert (tr_count t < tr_max_elements t) as Hcnt by lia.
      rewrite (publish_event_eq m t d Ht He Hsk Hl Hcnt Hok). set (c := is_constructed _ _ _).
      destruct (published_ok t d Ht He Hsk Hl Hmd Hcap Hcnt Hok c) as (Hok' & Hw & _ & Ho & _ & Hhere).
      eexists. split; [done|]. unfold event_outcome. split; [done|]. split; [done|]. split; [done|].
      left. split; [done|]. split; [rewrite Hhere; destruct c; lia|]. eexists. split; [done|].
      rewrite Ho, Eo. split; [|split].
      * unfold nest. destruct c; cbn [ev_kind ev_depth]; rewrite Z.eqb_refl; f_equal; lia.
      * unfold remaining_events. rewrite Ho. cbn. destruct c; lia.
      * right. split; [|done]. exists d. rewrite Eo. done.
    + rewrite (proj2 (is_ok_false rc) Hrc). cbn [negb]. eexists. split; [done|].
      apply event_outcome_fail; [done|done| |].
      * intros ->. destruct (Hend eq_refl) as [Hfin Hpos].
        destruct Hroot as [Hz Hdz]; [unfold here; lia|].
        assert (scope_depth t = 0) as Esd by (unfold scope_depth; rewrite Hdz; lia).
        rewrite (Hflat Esd) in *. cbn. rewrite Hdz, He, Hz, Hfin, Hpos, !Z.eqb_refl. done.
      * intros ->. specialize (Hmore eq_refl).
        assert (scope_depth t = 0) as Esd by (destruct (Z.eq_dec (scope_depth t) 0); [done|]; rewrite Hnestd in Hmore; done).
        rewrite Eo, <- (Hflat Esd). done.
Qed.

(** ** Whole traversals *)

(** The client's loop: events until the first result that is not [TLV_OK]. *)
Fixpoint tree_events `{Platform} (fuel : nat) (m : mem) (t : tlv_tree_reader_t)
  : option (tlv_result_t * list tlv_tree_event_t * tlv_tree_reader_t) :=
  match fuel with
  | O => None
  | S fuel =>
      let '(rc, reader, event) := tlv_tree_reader_next_event m (Some t) (Some no_event) in
      if is_ok rc then
        match tree_events fuel m (cell t reader) with
        | Some (rc, events, t') => Some (rc, cell no_event event :: events, t')
        | None => None
        end
      else Some (rc, [], cell t reader)
  end.

Fixpoint nest_all (n : Z) (events : list tlv_tree_event_t) : option Z :=
  match events with
  | [] => Some n
  | e :: events => match nest n e with Some n' => nest_all n' events | None => None end
  end.

Lemma open_nonneg `{Platform} t : tree_ok t -> 0 <= open t.
Proof. intros [_ _ [Hd _] _ _ _ _ _]. unfold open. destruct (pending t); lia. Qed.

Lemma at_end_open t : tlv_tree_reader_at_end (Some t) = true -> open t = 0.
Proof.
  cbn. unfold open, pending. intros E. rewrite !andb_true_iff, !negb_true_iff in E.
  destruct E as [[[-> ->] E] _]. cbn. lia.
Qed.

Lemma tree_events_run `{Platform} f m fuel : forall t,
  tree_ok t -> t.(tr_input).(rd_format) = Some f ->
  format_typed f None ->
  remaining_events t < Z.of_nat fuel ->
  exists rc events t', tree_events fuel m t = Some (rc, events, t') /\ tree_ok t' /\
    nest_all (open t) events = Some (open t') /\ zlen events <= remaining_events t /\ rc <> TLV_OK /\
    (rc = TLV_END -> tlv_tree_reader_at_end (Some t') = true).
Proof.
  induction fuel as [|fuel IH]; intros t Ht Hf Hty Hfuel.
  { pose proof (open_nonneg t Ht). destruct Ht as [_ _ _ [? ?] _ _ _ _]. unfold remaining_events in *. lia. }
  cbn [tree_events]. unfold tlv_tree_reader_next_event.
  pose proof (next_event_step m t f no_event None Ht Hf Hty) as Hs.
  destruct (tlv_tree_reader_next_event_diag m (Some t) (Some no_event) None) as [[[rc reader] item] dg].
  destruct Hs as (t1 & -> & Ht1 & Hf1 & _ & [(-> & _ & e & -> & Hn & Hrem & _)|(Hrc & -> & -> & Hend & _)]).
  - rewrite is_ok_OK. cbn [cell]. rewrite Hf in Hf1.
    destruct (IH t1 Ht1 Hf1 Hty ltac:(lia)) as (rc & evs & t' & -> & Ht' & Hna & Hlen & Hrc & Hend).
    eexists _, _, _. split; [reflexivity|]. split; [done|]. cbn [nest_all]. rewrite Hn. cbn [length].
    repeat (split; [done || lia|]). done.
  - rewrite (proj2 (is_ok_false rc) Hrc). eexists _, _, _. split; [reflexivity|].
    pose proof (open_nonneg t Ht). destruct Ht as [? ? ? [? ?] ? ? ? ?].
    split; [now split|]. split; [done|]. split; [unfold remaining_events; cbn; lia|]. done.
Qed.

Lemma tree_init_ok `{Platform} t0 data size f frames capacity max_depth max_elements :
  (data = NULL -> size = 0) -> 0 <= size <= SIZE_MAX -> tlv_format_can_read (Some f) = true ->
  zlen (default [] frames) = capacity -> 0 <= max_depth <= SIZE_MAX -> 0 <= max_elements <= SIZE_MAX ->
  (frames = None -> capacity = 0) ->
  exists t, tlv_tree_reader_init (Some t0) data size (Some f) frames capacity max_depth max_elements =
    (TLV_OK, Some t) /\ tree_ok t /\ open t = 0 /\ here t = 0 /\ window_end t = size /\
    t = mk_tree (mk_reader (Some f) data size 0 0 1) frames capacity max_depth max_elements 0 0 no_frame
          false false false false.
Proof.
  intros Hd Hs Hcan Hl Hmd Hme Hfr. unfold tlv_tree_reader_init, tlv_reader_init. rewrite Hcan.
  replace (negb (is_some frames) && negb (capacity =? 0)) with false
    by (destruct frames; [done|]; rewrite (Hfr eq_refl); done).
  replace (is_null data && negb (size =? 0)) with false by (destruct data; [rewrite Hd by done|]; done).
  cbn [orb negb]. rewrite is_ok_OK. cbn [negb cell]. eexists. split; [done|].
  split; [|done]. split; cbn; try done; try lia; [split; cbn; try done; lia|]. rewrite active_zero by done. unfold here, window_end. cbn. lia.
Qed.

(** C13. One pull of a cursor over any format.  An event is accepted by the depth discipline of the open
    scopes; BEGIN and ELEMENT carry an element decoded at the frontier, inside the innermost scope,
    END closes a scope at or before the new frontier; the frontier never goes back, and every event
    decreases a bound, so a traversal ends.  A result other than [TLV_OK] changes neither cursor nor
    event; END is reported only when the input and every scope are exhausted, and NEED_MORE_DATA only
    between root elements of open input: an incomplete element inside a scope is an error.  The
    invariant is kept. *)
Theorem tree_next_event_sound `{Platform} (m : mem) (t : tlv_tree_reader_t) (f : tlv_format_t)
  (ev0 : tlv_tree_event_t) (dg : option tlv_reader_diagnostic_t)
  (Ht : tree_ok t) (Hf : t.(tr_input).(rd_format) = Some f)
  (Hty : format_typed f dg) :
  let '(rc, reader, item, diagnostic) := tlv_tree_reader_next_event_diag m (Some t) (Some ev0) dg in
  exists t', reader = Some t' /\
  tree_ok t' /\ t'.(tr_input).(rd_format) = t.(tr_input).(rd_format) /\ window_end t' = window_end t /\
  ((rc = TLV_OK /\ here t <= here t' /\
    exists e, item = Some e /\ nest (open t) e = Some (open t') /\ remaining_events t' < remaining_events t /\
      ((e.(ev_kind) = TLV_TREE_END /\ e.(ev_offset) <= here t' /\ t'.(tr_count) = t.(tr_count)) \/
       (event_node m t e /\ t'.(tr_count) = t.(tr_count) + 1))) \/
   (rc <> TLV_OK /\ t' = t /\ item = Some ev0 /\
    (rc = TLV_END -> tlv_tree_reader_at_end (Some t) = true) /\
    (rc = TLV_NEED_MORE_DATA -> open t = 0 /\ t.(tr_input).(rd_final) = 0))).
Proof. exact (next_event_step m t f ev0 dg Ht Hf Hty). Qed.

(** The traversal of any input with any format ends after at most two events per admitted element,
    and its events are balanced: every BEGIN has the depth of its open scopes, every END closes the
    innermost one, and when the traversal ends with END no scope is open. *)
Theorem tree_events_balanced `{Platform} (m : mem) (data : ptr) (size : Z) (f : tlv_format_t)
  (frames : list tlv_tree_frame_t) (max_depth max_elements : Z) (t0 : tlv_tree_reader_t)
  (Hd : data = NULL -> size = 0) (Hs : 0 <= size <= SIZE_MAX) (Hcan : tlv_format_can_read (Some f) = true)
  (Hmd : 0 <= max_depth <= SIZE_MAX) (Hme : 0 <= max_elements <= SIZE_MAX)
  (Hty : format_typed f None) :
  exists t, tlv_tree_reader_init (Some t0) data size (Some f) (Some frames) (zlen frames) max_depth
              max_elements = (TLV_OK, Some t) /\
  exists rc events t', tree_events (S (Z.to_nat (2 * max_elements))) m t = Some (rc, events, t') /\
    rc <> TLV_OK /\ zlen events <= 2 * max_elements /\ nest_all 0 events = Some (open t') /\
    (rc = TLV_END -> open t' = 0 /\ tlv_tree_reader_at_end (Some t') = true).
Proof.
  destruct (tree_init_ok t0 data size f (Some frames) (zlen frames) max_depth max_elements)
    as (t & Hinit & Ht & Ho & _ & _ & Et); try done.
  exists t. split; [exact Hinit|].
  assert (remaining_events t = 2 * max_elements) as Er by (unfold remaining_events; rewrite Ho, Et; cbn; lia).
  destruct (tree_events_run f m (S (Z.to_nat (2 * max_elements))) t Ht ltac:(now rewrite Et) Hty ltac:(lia))
    as (rc & evs & t' & Hrun & _ & Hn & Hlen & Hrc & Hend).
  exists rc, evs, t'. rewrite Ho in Hn. rewrite Er in Hlen. repeat (split; [done|]).
  intros E. specialize (Hend E). split; [now apply at_end_open|exact Hend].
Qed.

(** A format whose elements are a one-octet tag and the rest of their scope, all constructed. *)
Definition nested_rest_format : tlv_format_t :=
  mk_format (Ptr 100 0) (Some rest_decode) None None (Some (fun _ _ => true)).

Definition nested_rest_tree : tlv_tree_reader_t :=
  mk_tree (mk_reader (Some nested_rest_format) (Ptr 1 0) 3 0 0 1) (Some [no_frame; no_frame]) 2 2 5 0 0
    no_frame false false false false.

Lemma nested_rest_tree_ok : tree_ok (H := LP64) nested_rest_tree.
Proof.
  split; cbn; try done; try lia.
  split; cbn; (done || lia || (vm_compute; done) || (right; reflexivity)).
Qed.

Lemma tree_next_event_sound_witness :
  exists t' e, @tlv_tree_reader_next_event_diag LP64 (mem_of 1 [90; 1; 2]) (Some nested_rest_tree)
                 (Some no_event) None = (TLV_OK, Some t', Some e, None) /\
    tree_ok (H := LP64) t' /\ nest 0 e = Some 1 /\ e.(ev_kind) = TLV_TREE_BEGIN /\ here t' = 1.
Proof.
  destruct (tree_next_event_sound (H := LP64) (mem_of 1 [90; 1; 2]) nested_rest_tree nested_rest_format
    no_event None nested_rest_tree_ok eq_refl (rest_error_typed None))
    as (t' & Er & Ht' & _ & _ & [(_ & _ & e & Ee & Hn & _)|(Hrc & _)]); [|destruct (Hrc eq_refl)].
  exists t', e. injection Er as <-. injection Ee as <-.
  split; [vm_compute; reflexivity|]. split; [exact Ht'|]. split; [exact Hn|]. split; reflexivity.
Defined.

Lemma tree_events_balanced_witness :
  exists t, tlv_tree_reader_init (Some nested_rest_tree) (Ptr 1 0) 3 (Some nested_rest_format)
              (Some [no_frame; no_frame]) 2 2 5 = (TLV_OK, Some t) /\
  exists events t', @tree_events LP64 11 (mem_of 1 [90; 1; 2]) t = Some (TLV_END, events, t') /\
    map ev_depth events = [0; 1; 2; 2; 1; 0] /\ nest_all 0 events = Some 0 /\ open t' = 0.
Proof.
  destruct (tree_events_balanced (H := LP64) (mem_of 1 [90; 1; 2]) (Ptr 1 0) 3 nested_rest_format
    [no_frame; no_frame] 2 5 nested_rest_tree ltac:(discriminate) ltac:(split; vm_compute; congruence)
    eq_refl ltac:(split; vm_compute; congruence) ltac:(split; vm_compute; congruence) (rest_error_typed None))
    as (t & Hinit & rc & events & t' & Hrun & _ & _ & Hn & Hend).
  exists t. split; [exact Hinit|]. injection Hinit as <-. exists events, t'.
  assert (option_map (fun r => (fst (fst r), map ev_depth (snd (fst r))))
            (@tree_events LP64 11 (mem_of 1 [90; 1; 2]) nested_rest_tree) =
          Some (TLV_END, [0; 1; 2; 2; 1; 0])) as Hdepths by (vm_compute; reflexivity).
  change (@tree_events LP64 11 (mem_of 1 [90; 1; 2]) nested_rest_tree = Some (rc, events, t')) in Hrun.
  rewrite Hrun in Hdepths. injection Hdepths as -> Hdepths. destruct (Hend eq_refl) as [Ho _].
  rewrite Ho in Hn. exact (conj Hrun (conj Hdepths (conj Hn Ho))).
Defined.
