(* ===== verification/TreeLaws.v ===== *)
(** * Reading encoded trees

    The tree Reader against a reference semantics: for any wire format ([CodecLaws]) with any
    classification of its tags, the cursor over the encoding of a forest emits exactly the preorder
    events of that forest.  A forest is written in first-child, next-sibling form. *)

From S2P Require Import Prelude Mem Core Endian Format WireFormat FieldFixed Compose Formats Reader TreeReader.

Inductive forest : Type :=
| FNil
| FElement (tag value : list Z) (rest : forest)
| FNode (tag : list Z) (children rest : forest).

Fixpoint forest_size (fo : forest) : Z :=
  match fo with
  | FNil => 0
  | FElement _ _ rest => 1 + forest_size rest
  | FNode _ children rest => 1 + forest_size children + forest_size rest
  end.

(** The number of scopes that must be entered at once: an empty node is not entered. *)
Fixpoint forest_height (fo : forest) : Z :=
  match fo with
  | FNil => 0
  | FElement _ _ rest => forest_height rest
  | FNode _ FNil rest => forest_height rest
  | FNode _ children rest => Z.max (1 + forest_height children) (forest_height rest)
  end.

(** The octets of a forest: the value of a node is the encoding of its children. *)
Fixpoint forest_wire `{Platform} (f : tlv_format_t) `{!CodecLaws f} (fo : forest) : option (list Z) :=
  match fo with
  | FNil => Some []
  | FElement tag value rest =>
      match cl_wire tag value, forest_wire f rest with
      | Some w, Some ws => Some (w ++ ws)
      | _, _ => None
      end
  | FNode tag children rest =>
      match forest_wire f children with
      | Some value =>
          match cl_wire tag value, forest_wire f rest with
          | Some w, Some ws => Some (w ++ ws)
          | _, _ => None
          end
      | None => None
      end
  end.

(** What a client sees of an event: its kind, its depth, and the octets of tag and value. *)
Definition event_view : Type := tlv_tree_event_kind_t * Z * list Z * list Z.

Definition view (m : mem) (e : tlv_tree_event_t) : event_view :=
  (e.(ev_kind), e.(ev_depth), tag_bytes m e.(ev_element).(e_tag), value_bytes m e.(ev_element).(e_value)).

Fixpoint forest_events `{Platform} (f : tlv_format_t) `{!CodecLaws f} (depth : Z) (fo : forest)
  : list event_view :=
  match fo with
  | FNil => []
  | FElement tag value rest =>
      (TLV_TREE_ELEMENT, depth, tag, value) :: forest_events f depth rest
  | FNode tag children rest =>
      (TLV_TREE_BEGIN, depth, tag, default [] (forest_wire f children)) ::
      forest_events f (depth + 1) children ++
      (TLV_TREE_END, depth, [], []) :: forest_events f depth rest
  end.

(** The classification of tags that a forest must agree with. *)
Fixpoint classified (p : list Z -> bool) (fo : forest) : bool :=
  match fo with
  | FNil => true
  | FElement tag _ rest => negb (p tag) && classified p rest
  | FNode tag children rest => p tag && classified p children && classified p rest
  end.

(** ** Runs of the cursor *)

Definition pull `{Platform} (m : mem) (t : tlv_tree_reader_t) (e : tlv_tree_event_t)
  (t' : tlv_tree_reader_t) : Prop :=
  tlv_tree_reader_next_event m (Some t) (Some no_event) = (TLV_OK, Some t', Some e).

Inductive tree_run `{Platform} (m : mem) : tlv_tree_reader_t -> list tlv_tree_event_t -> tlv_tree_reader_t -> Prop :=
| run_nil t : tree_run m t [] t
| run_cons t e t1 events t' : pull m t e t1 -> tree_run m t1 events t' -> tree_run m t (e :: events) t'.

Lemma run_app `{Platform} m t1 es1 t2 es2 t3 :
  tree_run m t1 es1 t2 -> tree_run m t2 es2 t3 -> tree_run m t1 (es1 ++ es2) t3.
Proof. induction 1; [done|]. intros. cbn. eapply run_cons; eauto. Qed.

Lemma run_one `{Platform} m t e t' : pull m t e t' -> tree_run m t [e] t'.
Proof. intros. eapply run_cons; [done|]. constructor. Qed.

(** A run is what the client's loop sees. *)
Lemma tree_events_of_run `{Platform} m t es t' rc :
  tree_run m t es t' -> rc <> TLV_OK ->
  tlv_tree_reader_next_event m (Some t') (Some no_event) = (rc, Some t', Some no_event) ->
  forall fuel, (length es < fuel)%nat -> tree_events fuel m t = Some (rc, es, t').
Proof.
  intros Hr Hrc Hend. induction Hr as [t|t e t1 es t' Hp Hr IH]; intros [|fuel] Hf; cbn [length] in Hf;
    try lia; cbn [tree_events].
  - rewrite Hend, (proj2 (is_ok_false rc) Hrc). done.
  - unfold pull in Hp. rewrite Hp, is_ok_OK. cbn [cell]. rewrite IH by (done || lia). done.
Qed.

Section Reading.
Context `{Platform} (f : tlv_format_t) (decode : tlv_decode_fn) (Hdec : f.(f_decode) = Some decode)
  `{!DecodeLaws decode} `{!CodecLaws f} (p : list Z -> bool) (m : mem)
  (Hclass : forall tag, tag_ok tag -> is_constructed (Some f) m tag = p (tag_bytes m tag)).

Lemma pull_open t :
  tree_ok t -> pending t = false -> here t < limit t -> close_event t no_event = (false, t, no_event).
Proof using.
  intros Ht Hp Hl. pose proof (close_event_spec t no_event Ht) as Hc. revert Hc.
  pose proof Ht as [Hin Hfr [Hd1 _] _ _ _ _ _].
  unfold close_event, limit, pending in *. apply orb_false_iff in Hp as [Hde He].
  rewrite Hde, He in *. cbn [negb andb].
  rewrite (reader_offset_ok _ Hin). fold (here t). destruct (tr_depth t =? 0) eqn:Ez; [done|].
  cbn [negb andb]. rewrite (active_top t) in Hl by lia. cbn match in Hl.
  rewrite (proj2 (Z.eqb_neq (here t) _)) by lia. done.
Qed.

(** One element at the frontier of a cursor with no pending scope. *)
Lemma pull_element t tag value w :
  tree_ok t -> pending t = false -> t.(tr_input).(rd_format) = Some f ->
  t.(tr_count) < t.(tr_max_elements) -> cl_wire tag value = Some w -> here t + zlen w <= limit t ->
  bytes_of m (t.(tr_input).(rd_data) +p t.(tr_input).(rd_pos)) (zlen w) = w ->
  exists d, decoded_ok (t.(tr_input).(rd_data) +p t.(tr_input).(rd_pos)) (limit t - here t) d /\
    d.(d_source).(s_size) = zlen w /\ tag_bytes m d.(d_element).(e_tag) = tag /\
    value_bytes m d.(d_element).(e_value) = value /\ scope_depth t = t.(tr_depth) /\
    enclosing t = active t /\ t.(tr_end) = false /\ t.(tr_skipped) = false /\ tag_ok d.(d_element).(e_tag) /\
    pull m t (mk_event (if p tag then TLV_TREE_BEGIN else TLV_TREE_ELEMENT) d.(d_element) d.(d_source)
                t.(tr_depth) (here t) false) (published t d.(d_source) (p tag)).
Proof using Hdec DecodeLaws0 Hclass.
  intros Ht Hp Hf Hcnt Hw Hl Hb. pose proof (cl_wire_length _ _ _ Hw) as Hlen.
  pose proof (pull_open t Ht Hp ltac:(lia)) as Hclose.
  assert (t.(tr_descend) = false /\ t.(tr_end) = false) as [Hde He] by (unfold pending in Hp; now apply orb_false_iff in Hp).
  destruct (tree_here_bound t Ht) as [Hh Hmax]. pose proof (limit_window t Ht He) as Hlw.
  pose proof Ht as [Hin _ [Hd1 [Hd2 _]] _ _ _ _ Hsk0].
  assert (t.(tr_skipped) = false) as Hsk by (destruct (tr_skipped t); [rewrite Hsk0 in He|]; done).
  assert (scope_depth t = tr_depth t) as Esd by (unfold scope_depth; rewrite Hde; lia).
  destruct (scope_input_ok t Ht He ltac:(lia)) as (Hr & Hrs & Hrp & Hrb & Hrd & Hrf & _).
  assert (rd_size (scope_input t) - rd_pos (scope_input t) = limit t - here t) as Esz by (unfold here; lia).
  assert (rd_data (tr_input t) +p rd_pos (tr_input t) <> NULL) as Hnn.
  { rewrite <- Hrd, <- Hrp. apply (reader_data_ok _ Hr). unfold here in *. lia. }
  assert (0 <= limit t - here t <= SIZE_MAX) as Hroom by lia.
  assert (zlen w <= limit t - here t) as Hfit by lia.
  assert (forall dd, f_decode f = Some dd -> decode_typed dd) as Htyped
    by (intros dd E; rewrite Hdec in E; injection E as <-; apply dl_typed).
  destruct (cl_decode m _ (limit t - here t) no_decoded None tag value w Hnn (proj2 Hroom) Hw Hfit Hb)
    as (d & Hd & Hs & Ht1 & Hv).
  pose proof (format_decode_cases f m (rd_data (tr_input t) +p rd_pos (tr_input t)) (limit t - here t)
    no_decoded None Hroom Htyped) as Hc.
  rewrite Hd in Hc. destruct Hc as [(_ & _ & _ & d' & E & Hok & _ & Htag)|(Hrc & _)]; [|done].
  injection E as <-. exists d. unfold enclosing. rewrite Hde. repeat (split; [done|]).
  unfold pull, tlv_tree_reader_next_event.
  rewrite (next_event_open m t no_event None Ht He ltac:(lia) ltac:(intros; exfalso; lia) Hclose), Hde. cbn [andb].
  rewrite (proj2 (Z.eqb_neq _ _)), andb_false_r by lia.
  rewrite (reader_next_element f m (scope_input t) empty_element (Some no_source) None d None Hr)
    by (congruence || (unfold here in *; lia) || (rewrite Hrd, Hrp, <- Hrp, Esz; exact Hd)).
  cbn [cell]. rewrite is_ok_OK. cbn [negb].
  pose proof (publish_event_eq m t d Ht He Hsk ltac:(lia) Hcnt Hok) as Hpub. cbv zeta in Hpub.
  rewrite Hrf, Hf in Hpub. rewrite Hpub, Hclass, Ht1, Esd by done. done.
Qed.

(** The cursor after it has entered its pending scope. *)
Definition entered (t : tlv_tree_reader_t) : tlv_tree_reader_t :=
  mk_tree t.(tr_input) (set_frame t.(tr_frames) t.(tr_depth) t.(tr_pending)) t.(tr_capacity)
    t.(tr_max_depth) t.(tr_max_elements) t.(tr_count) (t.(tr_depth) + 1) t.(tr_pending) false false false
    t.(tr_projection).

Lemma entered_ok t :
  tree_ok t -> t.(tr_descend) = true -> t.(tr_depth) < t.(tr_max_depth) -> t.(tr_depth) < t.(tr_capacity) ->
  tree_ok (entered t) /\ active (entered t) = t.(tr_pending) :: active t /\ limit (entered t) = limit t /\
  here (entered t) = here t /\ scope_input (entered t) = scope_input t.
Proof using.
  intros [Hin Hfr [Hd1 Hd2] Hc Hn Hp Hde Hs] E Hmd Hcap. destruct (Hde E) as [He [Hl1 Hl2]].
  assert (active (entered t) = t.(tr_pending) :: active t) as Ea.
  { unfold active. cbn. apply active_set_frame. lia. }
  split.
  - split; try done; cbn.
    + now rewrite zlen_set_frame.
    + lia.
    + rewrite Ea. change (here (entered t)) with (here t). change (window_end (entered t)) with (window_end t).
      split; [lia|]. unfold pending in Hn. rewrite E in Hn. exact Hn.
  - split; [exact Ea|]. unfold limit at 1 2. rewrite Ea, E. cbn [tr_descend entered].
    split; [done|]. split; [done|]. unfold scope_input. rewrite E. cbn [tr_descend tr_depth tr_input tr_frames entered].
    rewrite (proj2 (Z.eqb_neq (tr_depth t + 1) 0)), Z.add_simpl_r by lia. cbn [negb].
    destruct (tr_frames t) as [l|]; cbn in *; [|lia]. rewrite nth_lookup, list_lookup_insert_eq by lia. done.
Qed.

(** The first pull in a pending scope is the pull of the entered cursor. *)
Lemma pull_entered t e t' :
  tree_ok t -> t.(tr_descend) = true -> t.(tr_depth) < t.(tr_max_depth) -> t.(tr_depth) < t.(tr_capacity) ->
  pull m (entered t) e t' -> pull m t e t'.
Proof using.
  intros Ht E Hmd Hcap. destruct (entered_ok t Ht E Hmd Hcap) as (Ht1 & Ha & Hl & Hh & Hs).
  pose proof Ht as [_ _ [Hd _] _ _ _ Hde Hsk0]. destruct (Hde E) as [He [Hl1 _]].
  assert (t.(tr_skipped) = false) as Hsk by (destruct (tr_skipped t); [rewrite Hsk0 in He|]; done).
  assert (limit t = fr_end (tr_pending t)) as El by (unfold limit; now rewrite E).
  unfold pull, tlv_tree_reader_next_event.
  rewrite (next_event_open m (entered t) no_event None Ht1 eq_refl ltac:(lia) ltac:(intros; exfalso; lia))
    by (apply pull_open; [done|done|lia]).
  rewrite (next_event_open m t no_event None Ht He ltac:(lia) ltac:(intros; exfalso; lia)).
  2: { unfold close_event. now rewrite He, E. }
  rewrite Hl, Hh, Hs. cbn [tr_descend entered andb tr_count tr_max_elements].
  rewrite E, (proj2 (Z.eqb_neq (tr_depth t) (tr_max_depth t))), (proj2 (Z.eqb_neq (tr_depth t) (tr_capacity t))) by lia. cbn [andb].
  destruct (_ && _); [done|]. destruct (reader_next _ _ _ _ _) as [[[[rc r'] el] src] dg].
  destruct (negb (is_ok rc)) eqn:Erc; [intros Eq; injection Eq as -> _ _; discriminate|].
  assert (scope_depth (entered t) = scope_depth t) as Esd
    by (unfold scope_depth; cbn; rewrite E; lia).
  rewrite Esd. unfold publish_event. cbn [tr_descend entered]. rewrite E.
  cbn [tr_input tr_frames tr_capacity tr_max_depth tr_max_elements tr_count tr_pending entered].
  rewrite Hsk. done.
Qed.

Lemma end_view depth offset skipped :
  view m (mk_event TLV_TREE_END empty_element no_source depth offset skipped) = (TLV_TREE_END, depth, [], []).
Proof using. reflexivity. Qed.

(** Leaving a scope whose value is read, and closing an empty or skipped node. *)
Lemma pull_scope_end t fr fs :
  tree_ok t -> pending t = false -> t.(tr_depth) <> 0 -> active t = fr :: fs -> here t = fr.(fr_end) ->
  exists e, pull m t e (with_projection false (flat_at t fr.(fr_resume) (t.(tr_depth) - 1))) /\
    view m e = (TLV_TREE_END, t.(tr_depth) - 1, [], []) /\
    tree_ok (flat_at t fr.(fr_resume) (t.(tr_depth) - 1)) /\
    active (flat_at t fr.(fr_resume) (t.(tr_depth) - 1)) = fs /\ e.(ev_skipped) = false.
Proof using.
  intros Ht Hp Hz Ha Hh. pose proof Ht as [Hin Hfr [Hd1 Hd2] _ Hn _ _ Hsk].
  unfold pending in Hp. apply orb_false_iff in Hp as [Hde He].
  assert (t.(tr_skipped) = false) as Hs by (destruct (tr_skipped t); [rewrite Hsk in He|]; done).
  rewrite (active_top t) in Ha by lia. injection Ha as Ea Efs. unfold pending in Hn.
  rewrite (active_top t), Ea, Efs, Hde, He in Hn by lia. destruct Hn as [Hn1 Hn2]. cbn [orb] in *.
  assert (rev (take (Z.to_nat (tr_depth t - 1)) (default [] (tr_frames t))) = fs) as Etl by done.
  destruct (flat_at_ok t (fr_resume fr) (tr_depth t - 1) Ht ltac:(lia) ltac:(lia)) as [Hok _];
    [now rewrite Etl|].
  eexists (mk_event TLV_TREE_END empty_element no_source (tr_depth t - 1) _ false).
  split; [|split; [apply end_view|split; [exact Hok|split; [exact Etl|done]]]].
  unfold pull, tlv_tree_reader_next_event, tlv_tree_reader_next_event_diag, close_event.
  rewrite He, Hde, (reader_offset_ok _ Hin). fold (here t).
  rewrite (proj2 (Z.eqb_neq (tr_depth t) 0)), Ea, Hh, Z.eqb_refl by lia. cbn [negb andb].
  unfold flat_at, with_projection. cbn. rewrite Hs. reflexivity.
Qed.

Lemma pull_pending_end t :
  tree_ok t -> t.(tr_end) = true ->
  exists e, pull m t e (with_projection false (flat_at t t.(tr_pending).(fr_resume) t.(tr_depth))) /\
    view m e = (TLV_TREE_END, t.(tr_depth), [], []) /\ e.(ev_skipped) = t.(tr_skipped) /\
    tree_ok (flat_at t t.(tr_pending).(fr_resume) t.(tr_depth)) /\
    here (flat_at t t.(tr_pending).(fr_resume) t.(tr_depth)) = t.(tr_pending).(fr_resume).
Proof using.
  intros Ht He. pose proof Ht as [Hin Hfr [Hd1 Hd2] _ Hn Hp Hde _].
  assert (tr_descend t = false) as Ed by (destruct (tr_descend t); [destruct (Hde eq_refl); congruence|done]).
  unfold pending in *. rewrite He, Ed in *. cbn [orb] in *.
  destruct (flat_at_ok t (fr_resume (tr_pending t)) (tr_depth t) Ht ltac:(lia) (proj1 (Hp eq_refl)) Hn) as [Hok Hh].
  eexists (mk_event TLV_TREE_END empty_element no_source (tr_depth t) _ (tr_skipped t)).
  split; [|split; [apply end_view|split; [done|split; [exact Hok|exact Hh]]]].
  unfold pull, tlv_tree_reader_next_event, tlv_tree_reader_next_event_diag, close_event.
  rewrite He. unfold flat_at, with_projection. cbn. rewrite Ed. reflexivity.
Qed.

(** The cursor has read [n] octets and [k] elements in its scope and is between elements again. *)
Record moved (t t' : tlv_tree_reader_t) (n k : Z) : Prop := {
  mv_ok : tree_ok t';
  mv_pending : pending t' = false;
  mv_input : t'.(tr_input) = with_pos (t.(tr_input).(rd_pos) + n) t.(tr_input);
  mv_active : active t' = active t;
  mv_depth : t'.(tr_depth) = t.(tr_depth);
  mv_limits : t'.(tr_capacity) = t.(tr_capacity) /\ t'.(tr_max_depth) = t.(tr_max_depth) /\
              t'.(tr_max_elements) = t.(tr_max_elements);
  mv_count : t'.(tr_count) = t.(tr_count) + k }.

Lemma moved_place t t' n k :
  pending t = false -> moved t t' n k -> here t' = here t + n /\ limit t' = limit t.
Proof using.
  intros Hp [_ Hp' Hi Ha _ _ _]. unfold here, limit, window_end, pending in *. rewrite Hi, Ha.
  apply orb_false_iff in Hp as [-> _]. apply orb_false_iff in Hp' as [-> _]. cbn. split; [lia|done].
Qed.

Lemma moved_trans t t1 t2 n1 k1 n2 k2 :
  moved t t1 n1 k1 -> moved t1 t2 n2 k2 -> moved t t2 (n1 + n2) (k1 + k2).
Proof using.
  intros [Ho1 Hp1 Hi1 Ha1 Hd1 [? [? ?]] Hc1] [Ho2 Hp2 Hi2 Ha2 Hd2 [? [? ?]] Hc2].
  split; try congruence; try lia.
  rewrite Hi2, Hi1. unfold with_pos. cbn. f_equal. lia.
Qed.

Lemma published_leaf t d n :
  tree_ok t -> pending t = false -> here t <= limit t -> t.(tr_count) < t.(tr_max_elements) ->
  decoded_ok (t.(tr_input).(rd_data) +p t.(tr_input).(rd_pos)) (limit t - here t) d ->
  d.(d_source).(s_size) = n -> moved t (published t d.(d_source) false) n 1.
Proof using.
  intros Ht Hp Hl Hcnt Hok <-. pose proof Ht as [_ _ [Hd1 [Hd2 _]] _ _ _ _ Hsk0].
  pose proof Hp as Hp0. unfold pending in Hp0. apply orb_false_iff in Hp0 as [Hde He].
  assert (t.(tr_skipped) = false) as Hsk by (destruct (tr_skipped t); [rewrite Hsk0 in He|]; done).
  assert (scope_depth t = tr_depth t) as Esd by (unfold scope_depth; rewrite Hde; lia).
  destruct (published_ok t d Ht He Hsk Hl ltac:(lia) ltac:(lia) Hcnt Hok false) as (Hok' & _ & Ha & _).
  split; try done. rewrite Ha. unfold enclosing. now rewrite Hde.
Qed.

(** The state after the BEGIN of a node whose element is [d]: its scope is still pending. *)
Lemma published_node t d :
  tree_ok t -> pending t = false -> here t <= limit t -> t.(tr_count) < t.(tr_max_elements) ->
  decoded_ok (t.(tr_input).(rd_data) +p t.(tr_input).(rd_pos)) (limit t - here t) d ->
  let t1 := published t d.(d_source) true in
  let header := d.(d_source).(s_header).(r_size) in
  let value := d.(d_source).(s_value).(r_size) in
  tree_ok t1 /\ active t1 = active t /\ t1.(tr_depth) = t.(tr_depth) /\ here t1 = here t + header /\
  t1.(tr_pending) = mk_frame (here t + header + value) (here t + d.(d_source).(s_size)) /\
  t1.(tr_descend) = negb (value =? 0) /\ t1.(tr_end) = (value =? 0).
Proof using.
  intros Ht Hp Hl Hcnt Hok. pose proof Ht as [_ _ [Hd1 [Hd2 _]] _ _ _ _ Hsk0].
  pose proof Hp as Hp0. unfold pending in Hp0. apply orb_false_iff in Hp0 as [Hde He].
  assert (t.(tr_skipped) = false) as Hsk by (destruct (tr_skipped t); [rewrite Hsk0 in He|]; done).
  assert (scope_depth t = tr_depth t) as Esd by (unfold scope_depth; rewrite Hde; lia).
  destruct (published_ok t d Ht He Hsk Hl ltac:(lia) ltac:(lia) Hcnt Hok true) as (Hok' & _ & Ha & _ & _ & Hh).
  cbv zeta. split; [done|]. split; [rewrite Ha; unfold enclosing; now rewrite Hde|]. split; [done|].
  split; [done|]. split; [done|]. split; [done|]. cbn. apply negb_involutive.
Qed.

(** Returning to the scope of [t] at the end of a node's element. *)
Lemma moved_back t t2 n k at_ :
  pending t = false -> tree_ok (flat_at t2 at_ t.(tr_depth)) ->
  t2.(tr_input) = with_pos (t2.(tr_input).(rd_pos)) t.(tr_input) ->
  active (flat_at t2 at_ t.(tr_depth)) = active t ->
  t2.(tr_capacity) = t.(tr_capacity) -> t2.(tr_max_depth) = t.(tr_max_depth) ->
  t2.(tr_max_elements) = t.(tr_max_elements) -> t2.(tr_count) = t.(tr_count) + k ->
  at_ = here t + n -> 0 <= n -> tree_ok t -> at_ <= window_end t ->
  moved t (with_projection false (flat_at t2 at_ t.(tr_depth))) n k.
Proof using.
  intros Hp Hok Hi Ha Hc Hmd Hme Hk Hat Hn Ht Hw. split; try done.
  - now apply with_projection_ok.
  - destruct (tree_here_bound t Ht) as [Hh Hm]. destruct Ht as [[Hpos Hb _ _ _ _] _ _ _ _ _ _ _].
    cbn. rewrite Hi. unfold with_pos. cbn. f_equal. unfold here, window_end in *.
    rewrite usize_small by lia. lia.
Qed.

Record readable (t : tlv_tree_reader_t) (w : list Z) (height size : Z) : Prop := {
  rb_ok : tree_ok t;
  rb_pending : pending t = false;
  rb_format : t.(tr_input).(rd_format) = Some f;
  rb_octets : bytes_of m (t.(tr_input).(rd_data) +p t.(tr_input).(rd_pos)) (zlen w) = w;
  rb_room : here t + zlen w <= limit t;
  rb_depth : t.(tr_depth) + height <= t.(tr_max_depth) /\ t.(tr_depth) + height <= t.(tr_capacity);
  rb_count : t.(tr_count) + size <= t.(tr_max_elements) }.

Definition reads_forest (fo : forest) : Prop :=
  forall t w, forest_wire f fo = Some w -> classified p fo = true ->
    readable t w (forest_height fo) (forest_size fo) ->
    exists es t', tree_run m t es t' /\ moved t t' (zlen w) (forest_size fo) /\
      map (view m) es = forest_events f t.(tr_depth) fo.

Lemma forest_size_nonneg fo : 0 <= forest_size fo.
Proof using. induction fo; cbn; lia. Qed.

Lemma forest_height_nonneg fo : 0 <= forest_height fo.
Proof using. induction fo as [| |tag children IHc rest IHr]; cbn; [lia|done|]. destruct children; lia. Qed.

(** After a prefix of the octets, the rest is readable. *)
Lemma readable_moved t t' w1 w2 k h s h' s' :
  readable t (w1 ++ w2) h s -> moved t t' (zlen w1) k -> h' <= h -> k + s' <= s ->
  readable t' w2 h' s'.
Proof using.
  intros [Ht Hp Hf Hb Hl [Hd1 Hd2] Hc] Hm Hh Hs. destruct (moved_place t t' _ _ Hp Hm) as [Eh El].
  destruct Hm as [Hok Hp' Hi Ha Hd [Hca [Hmd Hme]] Hk]. rewrite length_app in *.
  split; try done; try lia.
  - rewrite Hi. exact Hf.
  - rewrite Hi. cbn. rewrite Nat2Z.inj_add, bytes_of_app in Hb by lia.
    apply app_inj_2 in Hb as [_ Hb]; [|rewrite length_bytes_of; lia]. now rewrite padd_padd in Hb.
Qed.

(** The children of a begun node, whose value is not empty. *)
Lemma run_children t children value :
  reads_forest children -> tree_ok t -> t.(tr_descend) = true -> t.(tr_input).(rd_format) = Some f ->
  forest_wire f children = Some value -> value <> [] -> classified p children = true ->
  bytes_of m (t.(tr_input).(rd_data) +p t.(tr_input).(rd_pos)) (zlen value) = value ->
  here t + zlen value = t.(tr_pending).(fr_end) ->
  t.(tr_depth) + 1 + forest_height children <= t.(tr_max_depth) ->
  t.(tr_depth) + 1 + forest_height children <= t.(tr_capacity) ->
  t.(tr_count) + forest_size children <= t.(tr_max_elements) ->
  exists es t', tree_run m t es (with_projection false (flat_at t' t.(tr_pending).(fr_resume) t.(tr_depth))) /\
    moved (entered t) t' (zlen value) (forest_size children) /\
    tree_ok (flat_at t' t.(tr_pending).(fr_resume) t.(tr_depth)) /\
    active (flat_at t' t.(tr_pending).(fr_resume) t.(tr_depth)) = active t /\
    map (view m) es = forest_events f (t.(tr_depth) + 1) children ++ [(TLV_TREE_END, t.(tr_depth), [], [])].
Proof using.
  intros IH Ht Hde Hf Hw Hne Hcl Hb Hend Hmd Hcap Hcnt. pose proof (forest_height_nonneg children) as Hh.
  destruct (entered_ok t Ht Hde ltac:(lia) ltac:(lia)) as (Hte & Hae & Hle & Hhe & _).
  assert (limit t = fr_end (tr_pending t)) as El by (unfold limit; now rewrite Hde).
  destruct (IH (entered t) value Hw Hcl) as (es & t' & Hrun & Hm & Hv).
  { split; try done; try lia. }
  destruct (moved_place (entered t) t' _ _ eq_refl Hm) as [Eh' _].
  pose proof Hm as [Hok' Hp' Hi' Ha' Hd' _ _]. rewrite Hae in Ha'. rewrite Hhe in Eh'.
  assert (tr_depth t' = tr_depth t + 1) as Ed by (rewrite Hd'; done).
  pose proof Ht as [_ _ [Hd1 _] _ _ _ _ _].
  destruct (pull_scope_end t' (tr_pending t) (active t) Hok' Hp' ltac:(lia) Ha' ltac:(lia))
    as (e & Hpull & Hview & Hok2 & Ha2 & _).
  replace (tr_depth t' - 1) with (tr_depth t) in * by lia.
  exists (es ++ [e]), t'. split; [|split; [done|split; [done|split; [done|]]]].
  - apply (run_app m t es t' [e]); [|now apply run_one].
    destruct es as [|e1 es].
    + destruct children; [|done|done]. cbn in Hw. congruence.
    + inversion Hrun as [|? ? t1 ? ? Hp1 Hr1]; subst. apply (run_cons m t e1 t1); [|done].
      apply pull_entered; try done; lia.
  - rewrite map_app, Hv. cbn [map tr_depth entered]. now rewrite Hview.
Qed.

Lemma forest_wire_nil fo : forest_wire f fo = Some [] -> fo = FNil.
Proof using.
  destruct fo as [|tag value rest|tag children rest]; [done| |]; cbn.
  - destruct (cl_wire tag value) as [w|] eqn:E; [|done]. apply cl_wire_length in E.
    destruct (forest_wire f rest); [|done]. intros [= Ew]. apply (f_equal length) in Ew.
    rewrite length_app in Ew. cbn in Ew. lia.
  - destruct (forest_wire f children) as [value|]; [|done].
    destruct (cl_wire tag value) as [w|] eqn:E; [|done]. apply cl_wire_length in E.
    destruct (forest_wire f rest); [|done]. intros [= Ew]. apply (f_equal length) in Ew.
    rewrite length_app in Ew. cbn in Ew. lia.
Qed.

Lemma run_node t tag children value w :
  reads_forest children -> forest_wire f children = Some value -> cl_wire tag value = Some w ->
  p tag = true -> classified p children = true ->
  readable t w (forest_height (FNode tag children FNil)) (1 + forest_size children) ->
  exists es t', tree_run m t es t' /\ moved t t' (zlen w) (1 + forest_size children) /\
    map (view m) es = (TLV_TREE_BEGIN, t.(tr_depth), tag, value) ::
      forest_events f (t.(tr_depth) + 1) children ++ [(TLV_TREE_END, t.(tr_depth), [], [])].
Proof using Hdec DecodeLaws0 Hclass.
  intros IH Hwc Hw Hpt Hcl Hrd. pose proof Hrd as [Ht Hp Hf Hb Hl [Hd1 Hd2] Hc].
  pose proof (forest_size_nonneg children) as Hsz. pose proof (forest_height_nonneg children) as Hhc.
  destruct (pull_element t tag value w Ht Hp Hf ltac:(lia) Hw Hl Hb)
    as (d & Hok & Hs & Htag & Hval & _ & _ & He0 & _ & _ & Hpull).
  rewrite Hpt in Hpull. pose proof (cl_wire_length _ _ _ Hw) as Hlen.
  destruct (published_node t d Ht Hp ltac:(lia) ltac:(lia) Hok) as (Hok1 & Ha1 & Hdep1 & Hh1 & Hpe1 & Hde1 & He1).
  set (t1 := published t (d_source d) true) in *. set (hd := r_size (s_header (d_source d))) in *.
  destruct Hok as [Hsize _ _ [_ Hhd] [_ Hv] [_ Htr] Hsum Hview _]. fold hd in Hhd, Hsum, Hview.
  assert (view m (mk_event TLV_TREE_BEGIN (d_element d) (d_source d) (tr_depth t) (here t) false) =
    (TLV_TREE_BEGIN, tr_depth t, tag, value)) as Ev by (unfold view; cbn; now rewrite Htag, Hval).
  unfold value_bytes in Hval. rewrite Hview in Hval. cbn [v_data v_size] in Hval.
  assert (zlen value = r_size (s_value (d_source d))) as Elen by (rewrite <- Hval, length_bytes_of; lia).
  assert (here t + zlen w <= window_end t) as Hwin by (pose proof (limit_window t Ht He0); lia).
  destruct (decide (value = [])) as [->|Hne].
  - rewrite (forest_wire_nil children Hwc) in *. cbn [length] in Elen.
    rewrite (proj2 (Z.eqb_eq _ _)) in He1 by lia.
    destruct (pull_pending_end t1 Hok1 He1) as (e & Hpe & Hve & _ & Hoke & _).
    rewrite Hpe1, Hdep1 in *. cbn [fr_resume] in *.
    eexists _, _. split; [eapply run_cons; [exact Hpull|apply run_one; exact Hpe]|].
    split; [|cbn [map forest_events app]; now rewrite Hve, Ev].
    apply moved_back; try done; try lia.
    rewrite <- Ha1. unfold active. cbn [tr_depth tr_frames flat_at]. now rewrite Hdep1.
  - assert (zlen value <> 0) as Hnz by (destruct value; [done|cbn; lia]).
    rewrite (proj2 (Z.eqb_neq _ _)) in Hde1 by lia.
    assert (forest_height (FNode tag children FNil) = 1 + forest_height children) as Eh.
    { destruct children as [|tag0 value0 r|tag0 c r]; [cbn in Hwc; congruence| |].
      - change (Z.max (1 + forest_height (FElement tag0 value0 r)) 0 = 1 + forest_height (FElement tag0 value0 r)). lia.
      - change (Z.max (1 + forest_height (FNode tag0 c r)) 0 = 1 + forest_height (FNode tag0 c r)). lia. }
    destruct (run_children t1 children value IH Hok1 Hde1 Hf Hwc Hne Hcl) as (es & t' & Hrun & Hm & Hok2 & Ha2 & Hev);
      rewrite ?Hdep1, ?Hpe1; cbn [fr_end fr_resume];
      change (tr_capacity t1) with (tr_capacity t); change (tr_max_depth t1) with (tr_max_depth t);
      change (tr_max_elements t1) with (tr_max_elements t); change (tr_count t1) with (tr_count t + 1); try lia.
    { cbn [published tr_input with_pos rd_data rd_pos t1]. rewrite padd_padd in Hval. now rewrite Elen. }
    rewrite Hdep1, Hpe1 in *. cbn [fr_resume] in *.
    eexists _, _. split; [eapply run_cons; [exact Hpull|exact Hrun]|].
    split; [|cbn [map]; now rewrite Hev, Ev].
    destruct Hm as [_ _ Hi _ _ [? [? ?]] Hk]. apply moved_back; try done; try lia; try congruence.
    + rewrite Hi. done.
    + rewrite Hk. cbn. lia.
Qed.

Lemma readable_prefix t w1 w2 h s h' s' :
  readable t (w1 ++ w2) h s -> h' <= h -> s' <= s -> readable t w1 h' s'.
Proof using.
  intros [Ht Hp Hf Hb Hl [Hd1 Hd2] Hc] Hh Hs. rewrite length_app in *. split; try done; try lia.
  rewrite Nat2Z.inj_add, bytes_of_app in Hb by lia.
  apply app_inj_1 in Hb as [Hb _]; [done|]. rewrite length_bytes_of. lia.
Qed.

Lemma forest_height_node tag children rest :
  forest_height (FNode tag children FNil) <= forest_height (FNode tag children rest) /\
  forest_height rest <= forest_height (FNode tag children rest).
Proof using.
  pose proof (forest_height_nonneg rest) as Hr. cbn -[Z.max] in *. destruct children; lia.
Qed.

Lemma run_forest fo : reads_forest fo.
Proof using Hdec DecodeLaws0 Hclass.
  induction fo as [|tag value rest IH|tag children IHc rest IH]; intros t w Hw Hcl Hrd; cbn in Hw, Hcl.
  - injection Hw as <-. exists [], t. split; [constructor|]. split; [|done].
    destruct Hrd. split; try done; cbn; try lia. rewrite Z.add_0_r. now destruct (tr_input t).
  - destruct (cl_wire tag value) as [w1|] eqn:E1; [|done]. destruct (forest_wire f rest) as [w2|] eqn:E2; [|done].
    injection Hw as <-. apply andb_true_iff in Hcl as [Hpt Hcl]. apply negb_true_iff in Hpt.
    pose proof (forest_size_nonneg rest) as Hsz. pose proof Hrd as [Ht Hp Hf Hb Hl [Hd1 Hd2] Hc].
    cbn [forest_size forest_height] in *. rewrite length_app in *.
    rewrite Nat2Z.inj_add, bytes_of_app in Hb by lia.
    apply app_inj_1 in Hb as [Hb1 _]; [|rewrite length_bytes_of; lia].
    destruct (pull_element t tag value w1 Ht Hp Hf ltac:(lia) E1 ltac:(lia) Hb1)
      as (d & Hok & Hs & Htag & Hval & _ & _ & _ & _ & _ & Hpull).
    rewrite Hpt in Hpull.
    pose proof (published_leaf t d (zlen w1) Ht Hp ltac:(lia) ltac:(lia) Hok Hs) as Hm1.
    destruct (IH _ w2 E2 Hcl (readable_moved t _ w1 w2 1 _ _ _ _ Hrd Hm1 (Z.le_refl _) (Z.le_refl _)))
      as (es & t' & Hrun & Hm2 & Hv).
    eexists _, t'. split; [eapply run_cons; [exact Hpull|exact Hrun]|].
    split; [rewrite Nat2Z.inj_add; eapply moved_trans; [exact Hm1|exact Hm2]|].
    cbn [map forest_events]. rewrite Hv, (mv_depth _ _ _ _ Hm1). unfold view. cbn.
    now rewrite Htag, Hval.
  - destruct (forest_wire f children) as [value|] eqn:E0; [|done].
    destruct (cl_wire tag value) as [w1|] eqn:E1; [|done]. destruct (forest_wire f rest) as [w2|] eqn:E2; [|done].
    injection Hw as <-. rewrite !andb_true_iff in Hcl. destruct Hcl as [[Hpt Hcl1] Hcl2].
    pose proof (forest_size_nonneg rest) as Hsz. destruct (forest_height_node tag children rest) as [Hh1 Hh2].
    assert (1 + forest_size children + forest_size rest <= forest_size (FNode tag children rest)) as Hsn by done.
    destruct (run_node t tag children value w1 IHc E0 E1 Hpt Hcl1) as (es1 & t1 & Hrun1 & Hm1 & Hv1);
      [eapply readable_prefix; [exact Hrd|lia|lia]|].
    destruct (IH t1 w2 E2 Hcl2 (readable_moved t t1 w1 w2 _ _ _ _ _ Hrd Hm1 Hh2 Hsn))
      as (es2 & t2 & Hrun2 & Hm2 & Hv2).
    exists (es1 ++ es2), t2. split; [eapply run_app; eassumption|].
    split; [rewrite length_app, Nat2Z.inj_add; eapply moved_trans; eassumption|].
    rewrite map_app, Hv1, Hv2, (mv_depth _ _ _ _ Hm1). cbn [forest_events]. rewrite E0. cbn [default app].
    now rewrite <- app_assoc.
Qed.
End Reading.

Lemma forest_events_length `{Platform} f `{!CodecLaws f} fo : forall depth,
  zlen (forest_events f depth fo) <= 2 * forest_size fo.
Proof.
  induction fo as [|tag value rest IH|tag children IHc rest IH]; intros depth; cbn [forest_events forest_size length].
  - lia.
  - specialize (IH depth). lia.
  - rewrite length_app. cbn [length]. specialize (IHc (depth + 1)). specialize (IH depth). lia.
Qed.

(** At the end of the input a pull reports END and changes nothing. *)
Lemma pull_at_end `{Platform} m t :
  tree_ok t -> tlv_tree_reader_at_end (Some t) = true ->
  tlv_tree_reader_next_event m (Some t) (Some no_event) = (TLV_END, Some t, Some no_event).
Proof.
  intros Ht E. cbn in E. rewrite !andb_true_iff, !negb_true_iff in E. destruct E as [[[Hde He] Hz] [Hfin Hpos]].
  assert (limit t = window_end t) as El by (unfold limit; rewrite Hde, active_zero by lia; done).
  assert (here t = window_end t) as Eh by (unfold here, window_end; lia).
  unfold tlv_tree_reader_next_event.
  rewrite (next_event_open m t no_event None Ht He ltac:(lia) ltac:(split; [lia|done])).
  2: { unfold close_event. now rewrite He, Hde, Hz. }
  rewrite Hde, El, Eh, Z.ltb_irrefl. cbn [andb].
  assert (scope_input t = tr_input t) as -> by (unfold scope_input; now rewrite Hde, Hz).
  unfold reader_next. destruct Ht as [Hin _ _ _ _ _ _ _]. rewrite (reader_ok_valid _ Hin), is_ok_OK. cbn [andb].
  rewrite is_ok_OK. cbn [negb]. rewrite Hpos, Hfin. reflexivity.
Qed.

Lemma run_whole `{Platform} (f : tlv_format_t) (decode : tlv_decode_fn) (Hdec : f.(f_decode) = Some decode)
  (Hlaws : DecodeLaws decode) (Hcodec : CodecLaws f) (p : list Z -> bool) (m : mem)
  (Hclass : forall tag, tag_ok tag -> is_constructed (Some f) m tag = p (tag_bytes m tag))
  (fo : forest) (w : list Z) (data : ptr) (t0 : tlv_tree_reader_t) (frames : list tlv_tree_frame_t)
  (max_depth max_elements : Z) :
  forest_wire f fo = Some w -> classified p fo = true -> data <> NULL -> zlen w <= SIZE_MAX ->
  bytes_of m data (zlen w) = w -> forest_height fo <= zlen frames ->
  forest_height fo <= max_depth <= SIZE_MAX -> forest_size fo <= max_elements <= SIZE_MAX ->
  exists t es t', tlv_tree_reader_init (Some t0) data (zlen w) (Some f) (Some frames) (zlen frames)
      max_depth max_elements = (TLV_OK, Some t) /\ tree_ok t /\ open t = 0 /\ tree_run m t es t' /\ tree_ok t' /\
    tlv_tree_reader_at_end (Some t') = true /\ map (view m) es = forest_events f 0 fo /\
    t.(tr_input).(rd_format) = Some f.
Proof.
  intros Hw Hcl Hd Hs Hb Hfr Hmd Hme. pose proof (forest_height_nonneg fo). pose proof (forest_size_nonneg fo).
  assert (tlv_format_can_read (Some f) = true) as Hcan by (cbn; now rewrite Hdec).
  destruct (tree_init_ok t0 data (zlen w) f (Some frames) (zlen frames) max_depth max_elements)
    as (t & Hinit & Ht & Ho & Hh & Hwin & Et); try done; try lia.
  destruct (run_forest f decode Hdec p m Hclass fo t w Hw Hcl) as (es & t' & Hrun & Hm & Hv).
  { split; try done; rewrite ?Et; try done; try (cbn; lia).
    cbn [tr_input rd_data rd_pos]. now rewrite padd_0. }
  exists t, es, t'. split; [done|]. split; [done|]. split; [done|]. split; [done|].
  destruct Hm as [Hok Hp Hi _ Hdp _ _]. split; [done|].
  unfold pending in Hp. apply orb_false_iff in Hp as [Hde He].
  split; [|split; [rewrite Hv, Et; done|rewrite Et; done]].
  cbn. rewrite Hde, He, Hdp, Hi, Et. cbn. rewrite Z.eqb_refl. done.
Qed.

(** C1. For every wire format with any classification of its tags, and every forest that agrees with the
    classification: the events pulled from the encoding of the forest are exactly the preorder of the
    forest, with the encoded tags and values and the depth of every node, and the cursor then reports
    END at the end of the input.  A frame and a unit of depth per nested non-empty node, and a unit of
    the element limit per node, are enough. *)
Theorem tree_reads_forest `{Platform} (f : tlv_format_t) (decode : tlv_decode_fn)
  (Hdec : f.(f_decode) = Some decode) (Hlaws : DecodeLaws decode) (Hcodec : CodecLaws f)
  (p : list Z -> bool) (m : mem)
  (Hclass : forall tag, tag_ok tag -> is_constructed (Some f) m tag = p (tag_bytes m tag))
  (fo : forest) (w : list Z) (data : ptr) (t0 : tlv_tree_reader_t) (frames : list tlv_tree_frame_t)
  (max_depth max_elements : Z)
  (Hw : forest_wire f fo = Some w) (Hcl : classified p fo = true) (Hd : data <> NULL)
  (Hs : zlen w <= SIZE_MAX) (Hb : bytes_of m data (zlen w) = w) (Hfr : forest_height fo <= zlen frames)
  (Hmd : forest_height fo <= max_depth <= SIZE_MAX) (Hme : forest_size fo <= max_elements <= SIZE_MAX) :
  exists t es t', tlv_tree_reader_init (Some t0) data (zlen w) (Some f) (Some frames) (zlen frames)
      max_depth max_elements = (TLV_OK, Some t) /\
    tree_events (S (Z.to_nat (2 * forest_size fo))) m t = Some (TLV_END, es, t') /\
    map (view m) es = forest_events f 0 fo /\ tlv_tree_reader_at_end (Some t') = true.
Proof.
  destruct (run_whole f decode Hdec Hlaws Hcodec p m Hclass fo w data t0 frames max_depth max_elements
    Hw Hcl Hd Hs Hb Hfr Hmd Hme) as (t & es & t' & Hinit & _ & _ & Hrun & Hok & Hend & Hv & _).
  exists t, es, t'. split; [done|]. split; [|done].
  apply tree_events_of_run; [done|done|now apply pull_at_end|].
  pose proof (forest_events_length f fo 0) as Hlen. rewrite <- Hv, length_map in Hlen. lia.
Qed.

(** ** A concrete format: one-octet tags and counts, nodes marked by the bit 32 of their tag *)

Definition tree_example : tlv_binary_composition_t :=
  mk_binary (mk_fixed_identifier 1) (mk_fixed_length 1 TLV_BYTE_ORDER_BIG_ENDIAN) TLV_ELEMENT_ORDER_TLV
    TLV_LENGTH_SCOPE_VALUE.
Definition tree_example_format : tlv_format_t :=
  mk_format (Ptr 100 0) (Some (tlv_binary_decode (H := LP64) tree_example))
    (Some (tlv_binary_measure tree_example)) (Some (tlv_binary_encode (H := LP64) tree_example))
    (Some (fun m tag => tlv_constructed_bit_predicate m (Some (mk_bit 0 32 32)) (Some tag))).
Definition tree_example_class (tag : list Z) : bool :=
  match tag with x :: _ => Z.land x 32 =? 32 | [] => false end.
Definition tree_example_forest : forest :=
  FNode [33] (FElement [1] [7] (FNode [34] FNil FNil)) (FElement [2] [] FNil).

Lemma tree_example_laws : @DecodeLaws LP64 (@tlv_binary_decode LP64 tree_example).
Proof. apply (binary_decode_laws (H := LP64) tree_example); vm_compute; intuition congruence. Qed.

Lemma tree_example_codec : @CodecLaws LP64 tree_example_format.
Proof.
  assert (1 <= 1 <= @SIZE_MAX LP64) as H1 by (vm_compute; intuition congruence).
  assert (1 <= 1 <= 8) as H2 by lia.
  exact (binary_codec_laws (H := LP64) tree_example H1 H2 eq_refl tree_example_format eq_refl eq_refl eq_refl).
Defined.

Lemma tree_example_classes m tag : tag_ok (H := LP64) tag ->
  is_constructed (Some tree_example_format) m tag = tree_example_class (tag_bytes m tag).
Proof.
  intros [Hs Hn]. cbn. unfold tag_bytes, bytes_of. destruct (t_data tag) as [|b o] eqn:Ed.
  - rewrite (Hn eq_refl). done.
  - cbn [is_null negb andb]. destruct (Z.ltb_spec 0 (t_size tag)) as [Hlt|Hge].
    + replace (Z.to_nat (t_size tag)) with (S (Z.to_nat (t_size tag - 1))) by lia. cbn [seq map]. done.
    + replace (t_size tag) with 0 by lia. done.
Qed.

Lemma tree_reads_forest_witness :
  let m := mem_of 1 [33; 5; 1; 1; 7; 34; 0; 2; 0] in
  exists t es t', tlv_tree_reader_init (Some nested_rest_tree) (Ptr 1 0) 9 (Some tree_example_format)
      (Some [no_frame]) 1 3 4 = (TLV_OK, Some t) /\
    @tree_events LP64 9 m t = Some (TLV_END, es, t') /\
    map (view m) es = [(TLV_TREE_BEGIN, 0, [33], [1; 1; 7; 34; 0]); (TLV_TREE_ELEMENT, 1, [1], [7]);
      (TLV_TREE_BEGIN, 1, [34], []); (TLV_TREE_END, 1, [], []); (TLV_TREE_END, 0, [], []);
      (TLV_TREE_ELEMENT, 0, [2], [])].
Proof.
  intros m.
  destruct (tree_reads_forest (H := LP64) tree_example_format _ eq_refl tree_example_laws tree_example_codec
    tree_example_class m (tree_example_classes m) tree_example_forest [33; 5; 1; 1; 7; 34; 0; 2; 0] (Ptr 1 0)
    nested_rest_tree [no_frame] 3 4 eq_refl eq_refl ltac:(discriminate) ltac:(vm_compute; congruence)
    ltac:(vm_compute; reflexivity) ltac:(vm_compute; congruence) ltac:(split; vm_compute; congruence)
    ltac:(split; vm_compute; congruence)) as (t & es & t' & Hinit & Hrun & Hv & _).
  exists t, es, t'. split; [exact Hinit|]. split; [exact Hrun|exact Hv].
Defined.
