(* ===== verification/TreeNodes.v ===== *)
(** * The node projection of the tree Reader, skipping and input replacement

    [tlv_tree_reader_next] hides the END events of the canonical stream.  The lemmas here relate it to
    runs of the event stream: over the same input both see the same nodes. *)

From S2P Require Import Prelude Mem Core Format WireFormat Reader TreeReader TreeLaws.

Fixpoint drop_ends (es : list tlv_tree_event_t) : list tlv_tree_event_t :=
  match es with
  | e :: rest => if bool_decide (e.(ev_kind) = TLV_TREE_END) then drop_ends rest else es
  | [] => []
  end.

(** The events that open a node. *)
Definition nodes (es : list tlv_tree_event_t) : list tlv_tree_event_t :=
  filter (fun e => e.(ev_kind) <> TLV_TREE_END) es.

Lemma nodes_drop es :
  nodes es = match drop_ends es with e :: rest => e :: nodes rest | [] => [] end.
Proof.
  induction es as [|e es IH]; [done|]. cbn [drop_ends]. unfold nodes in *. rewrite filter_cons.
  case_bool_decide as E; [rewrite decide_False by (intros Hn; done); exact IH|now rewrite decide_True].
Qed.

Lemma drop_ends_length es : (length (drop_ends es) <= length es)%nat.
Proof. induction es as [|e es IH]; cbn; [lia|]. case_bool_decide; cbn; lia. Qed.

Lemma drop_ends_idemp es : drop_ends (drop_ends es) = drop_ends es.
Proof.
  induction es as [|e es IH]; [done|]. cbn. case_bool_decide as E; [done|]. cbn. now rewrite bool_decide_false.
Qed.

Lemma nodes_drop_ends es : nodes (drop_ends es) = nodes es.
Proof. rewrite (nodes_drop es), (nodes_drop (drop_ends es)). now rewrite drop_ends_idemp. Qed.

Lemma close_event_cases `{Platform} t ev :
  let '(closed, t1, e) := close_event t ev in
  if closed then e.(ev_kind) = TLV_TREE_END else t1 = t /\ e = ev.
Proof. unfold close_event. destruct (tr_end t); [done|]. now destruct (_ && _). Qed.

Lemma close_event_projection `{Platform} b t ev :
  close_event (with_projection b t) ev =
  let '(closed, t1, e) := close_event t ev in (closed, with_projection b t1, e).
Proof. unfold close_event. cbn. destruct (tr_end t); [done|]. now destruct (_ && _). Qed.

(** The event out-parameter does not decide anything. *)
Lemma close_event_any `{Platform} t ev ev' : fst (close_event t ev) = fst (close_event t ev').
Proof. unfold close_event. destruct (tr_end t); [done|]. now destruct (_ && _). Qed.

Lemma publish_event_projection `{Platform} b m t input el src depth offset :
  publish_event m (with_projection b t) input el src depth offset = publish_event m t input el src depth offset.
Proof. reflexivity. Qed.

Lemma pull_projection `{Platform} b m t e t' : pull m t e t' -> pull m (with_projection b t) e t'.
Proof.
  unfold pull, tlv_tree_reader_next_event, tlv_tree_reader_next_event_diag.
  rewrite (close_event_projection b t no_event).
  pose proof (close_event_cases t no_event) as Hc. destruct (close_event t no_event) as [[c t1] e1].
  destruct c; [done|]. destruct Hc as [-> ->]. cbn zeta.
  cbn [with_projection tr_descend tr_depth tr_max_depth tr_capacity tr_input tr_frames tr_pending tr_count tr_max_elements].
  destruct (tr_descend t && (tr_depth t =? tr_max_depth t)); [done|].
  destruct (tr_descend t && (tr_depth t =? tr_capacity t)); [done|].
  destruct (if tr_descend t then _ else _) as [input depth].
  destruct (_ && (tr_count t =? _)); [done|].
  destruct (tlv_reader_next_source_diag _ _ _ _ _) as [[[[rc r'] el] src] dg].
  destruct (is_ok rc) eqn:E; cbn [negb]; [|intros [= -> _ _]; discriminate].
  now rewrite publish_event_projection.
Qed.

Lemma pull_cases `{Platform} m t e t' :
  pull m t e t' ->
  (exists t1, close_event t no_event = (true, t1, e) /\ t' = with_projection false t1 /\ e.(ev_kind) = TLV_TREE_END) \/
  (close_event t no_event = (false, t, no_event) /\ e.(ev_kind) <> TLV_TREE_END).
Proof.
  unfold pull, tlv_tree_reader_next_event, tlv_tree_reader_next_event_diag.
  pose proof (close_event_cases t no_event) as Hc. destruct (close_event t no_event) as [[c t1] e1].
  destruct c; [intros [= <- <-]; left; exists t1; done|]. destruct Hc as [-> ->]. intros Hp. right. split; [done|].
  destruct (tr_descend t && (tr_depth t =? tr_max_depth t)); [done|].
  destruct (tr_descend t && (tr_depth t =? tr_capacity t)); [done|].
  destruct (if tr_descend t then _ else _) as [input depth]. destruct (_ && (tr_count t =? _)); [done|].
  destruct (tlv_reader_next_source_diag _ _ _ _ _) as [[[[rc r'] el] src] dg].
  destruct (is_ok rc) eqn:E; cbn [negb] in Hp; [|injection Hp as -> _ _; discriminate].
  unfold publish_event in Hp. injection Hp as _ <-. cbn.
  destruct (match rd_format _ with Some _ => _ | None => _ end); done.
Qed.

Lemma reader_next_no_diag `{Platform} m r el src : snd (reader_next m r el src None) = None.
Proof.
  unfold reader_next. destruct r as [r|]; [|done]. destruct (negb _); [done|]. destruct (_ =? _); [done|].
  unfold tlv_read_impl. destruct el as [el|]; cbn [ro_element ro_consumed ro_diagnostic].
  - destruct (tlv_format_decode _ _ _ _ _ _) as [[rc d] err]. destruct (is_ok rc) eqn:E.
    + cbv zeta. now match goal with |- context [is_ok ?x] => destruct (is_ok x) end.
    + cbv zeta. now match goal with |- context [is_ok ?x] => destruct (is_ok x) end.
  - cbv zeta. now match goal with |- context [is_ok ?x] => destruct (is_ok x) end.
Qed.

Lemma next_event_no_diag `{Platform} m t ev : snd (tlv_tree_reader_next_event_diag m t ev None) = None.
Proof.
  unfold tlv_tree_reader_next_event_diag. destruct t as [t|]; [|done]. destruct ev as [ev|]; [|done].
  destruct (close_event t no_event) as [[c t1] e1]. destruct c; [done|].
  destruct (tr_descend t && (tr_depth t =? tr_max_depth t)); [done|].
  destruct (tr_descend t && (tr_depth t =? tr_capacity t)); [done|].
  destruct (if tr_descend t then _ else _) as [input depth]. destruct (_ && (tr_count t =? _)); [done|].
  unfold tlv_reader_next_source_diag.
  pose proof (reader_next_no_diag m (Some input) (Some empty_element) (Some no_source)) as Hd.
  destruct (reader_next _ _ _ _ _) as [[[[rc r'] el] src] dg]. cbn in Hd. subst dg.
  destruct (negb (is_ok rc)); [done|]. now destruct (publish_event _ _ _ _ _ _ _).
Qed.

(** ** Pulls with a diagnostic *)

Lemma format_decode_diag `{Platform} f m data size d0 e0 e0' d e :
  tlv_format_decode f m data size d0 e0 = (TLV_OK, d, e) -> exists e', tlv_format_decode f m data size d0 e0' = (TLV_OK, d, e').
Proof.
  unfold tlv_format_decode. destruct f as [f|]; [|done]. destruct d0 as [d0|]; [|done]. destruct (f_decode f) as [decode|]; [|done].
  destruct (is_null data && _); [done|]. destruct (size =? 0); [done|].
  destruct (decode m data size no_decoded no_error) as [[rc r] detail]. cbv zeta. destruct (negb (is_ok _)) eqn:E.
  - intros [= Erc _ _]. rewrite Erc in E. done.
  - intros [= <- _]. eauto.
Qed.

Lemma reader_next_diag `{Platform} m r el src dg r' el' src' dg0 :
  reader_next m (Some r) (Some el) (Some src) None = (TLV_OK, r', el', src', dg0) ->
  reader_next m (Some r) (Some el) (Some src) dg = (TLV_OK, r', el', src', dg).
Proof.
  unfold reader_next. cbv zeta. generalize (if is_ok (reader_valid (Some r)) && false then TLV_ERR_NULL_ARG else reader_valid (Some r)).
  intros rc0. destruct (is_ok rc0) eqn:E0; cbn [negb]; [|intros [= E _ _ _ _]; rewrite E in E0; done].
  destruct (rd_pos r =? rd_size r); [intros [= E _ _ _ _]; now destruct (negb (rd_final r =? 0))|]. unfold tlv_read_impl. cbn [ro_element ro_consumed ro_source ro_diagnostic].
  destruct (tlv_format_decode _ _ _ _ (Some no_decoded) None) as [[rc d] e] eqn:Ed. destruct (is_ok rc) eqn:Erc.
  - apply is_ok_true in Erc as ->.
    destruct (format_decode_diag _ _ _ _ _ _ (match dg with Some _ => Some no_error | None => None end) _ _ Ed) as [e' ->]. rewrite is_ok_OK.
    change (rc_eqb TLV_OK TLV_ERR_TRUNCATED) with false. cbn [andb ro_element ro_consumed ro_source ro_diagnostic]. rewrite is_ok_OK.
    now intros [= <- <- <- _].
  - cbv zeta. destruct (rc_eqb rc TLV_ERR_TRUNCATED && _); [done|]. rewrite Erc. intros [= E _ _ _ _]. rewrite E in Erc. done.
Qed.

Lemma pull_diag `{Platform} m t e t' dg : pull m t e t' ->
  tlv_tree_reader_next_event_diag m (Some t) (Some no_event) dg = (TLV_OK, Some t', Some e, dg).
Proof.
  unfold pull, tlv_tree_reader_next_event, tlv_tree_reader_next_event_diag. destruct (close_event t no_event) as [[c t1] e1].
  destruct c; [now intros [= <- <-]|]. destruct (tr_descend t && (tr_depth t =? tr_max_depth t)); [done|].
  destruct (tr_descend t && (tr_depth t =? tr_capacity t)); [done|].
  destruct (if tr_descend t then _ else _) as [input depth]. destruct (_ && (tr_count t =? _)); [done|]. unfold tlv_reader_next_source_diag.
  destruct (reader_next m (Some input) _ _ None) as [[[[rc r'] el] src] dg0] eqn:E. destruct (is_ok rc) eqn:Erc; cbn [negb].
  - apply is_ok_true in Erc as ->. rewrite (reader_next_diag _ _ _ _ dg _ _ _ _ E), is_ok_OK. cbn [negb].
    destruct (publish_event _ _ _ _ _ _ _). now intros [= <- <-].
  - intros [= Erc' _ _]. rewrite Erc' in Erc. done.
Qed.

Section Projection.
Context `{Platform} (m : mem) (f : tlv_format_t) (Hty : format_typed f None).

Definition cursor_ok (t : tlv_tree_reader_t) : Prop := tree_ok t /\ t.(tr_input).(rd_format) = Some f.

Lemma pull_ok t e t' : cursor_ok t -> pull m t e t' -> cursor_ok t' /\ nest (open t) e = Some (open t').
Proof using Hty.
  intros [Ht Hf] Hp. pose proof (next_event_step m t f no_event None Ht Hf Hty) as Hs.
  unfold pull, tlv_tree_reader_next_event in Hp.
  destruct (tlv_tree_reader_next_event_diag m (Some t) (Some no_event) None) as [[[rc r] it] dg].
  injection Hp as -> -> ->.
  destruct Hs as (t1 & E & Hok & Hf1 & _ & [(_ & _ & e1 & E1 & Hn & _)|(Hrc & _)]); [|done].
  injection E as <-. injection E1 as <-. split; [split; [done|congruence]|done].
Qed.

Lemma close_event_ok t ev t1 e :
  cursor_ok t -> close_event t ev = (true, t1, e) ->
  cursor_ok t1 /\ open t = open t1 + 1 /\ t1.(tr_projection) = t.(tr_projection).
Proof using.
  intros [Ht Hf] E. pose proof (close_event_spec t ev Ht) as Hc. rewrite E in Hc.
  destruct Hc as (at_ & d & -> & Hok & _ & _ & _ & Ho & _). split; [split; done|]. rewrite Ho. unfold open. cbn. split; [lia|done].
Qed.

Lemma cursor_projection b t : cursor_ok t -> cursor_ok (with_projection b t).
Proof using. intros [Ht Hf]. split; [now apply with_projection_ok|done]. Qed.

(** Nothing is closed at the end of the input. *)
Lemma close_at_end t ev : tlv_tree_reader_at_end (Some t) = true -> close_event t ev = (false, t, ev).
Proof using.
  cbn. rewrite !andb_true_iff, !negb_true_iff. intros [[[Hd He] Hz] _]. unfold close_event.
  now rewrite He, Hd, Hz.
Qed.

(** Draining follows the run over its END events. *)
Lemma drain_run es : forall t t' fuel ev,
  cursor_ok t -> tree_run m (with_projection false t) es t' -> tlv_tree_reader_at_end (Some t') = true ->
  open t < Z.of_nat fuel ->
  exists t2, drain_loop fuel t ev = Some t2 /\ cursor_ok t2 /\
    tree_run m (with_projection false t2) (drop_ends es) t'.
Proof using Hty.
  induction es as [|e es IH]; intros t t' fuel ev Ht Hrun Hend Hfuel;
    pose proof (open_nonneg t (proj1 Ht)) as Ho; (destruct fuel as [|fuel]; [lia|]); cbn [drain_loop].
  - inversion Hrun; subst. assert (tlv_tree_reader_at_end (Some t) = true) as Hend' by exact Hend.
    rewrite (close_at_end t ev Hend'). exists t. split; [done|]. split; [done|]. exact Hrun.
  - inversion Hrun as [|? ? t1 ? ? Hp Hr]; subst. cbn [drop_ends].
    destruct (pull_cases m _ _ _ Hp) as [(t1' & Hc & Et1 & Hk)|[Hc Hk]]; rewrite (close_event_projection false t no_event) in Hc.
    + pose proof (close_event_any t ev no_event) as Hany.
      destruct (close_event t no_event) as [[c0 t0] e0]. injection Hc as -> <- ->.
      destruct (close_event t ev) as [[c2 t2] e2] eqn:Ec. cbn in Hany. injection Hany as -> ->.
      destruct (close_event_ok t ev t0 e2 Ht Ec) as (Hok0 & Ho0 & Hp0).
      rewrite bool_decide_true by done. apply (IH t0 t' fuel e2); try done; [|lia].
      rewrite Et1 in Hr. exact Hr.
    + pose proof (close_event_any t ev no_event) as Hany.
      pose proof (close_event_cases t ev) as Hcs.
      destruct (close_event t no_event) as [[c0 t0] e0]. injection Hc as -> _ _.
      destruct (close_event t ev) as [[c2 t2] e2] eqn:Ec. cbn in Hany. injection Hany as -> _.
      destruct Hcs as [-> ->]. rewrite bool_decide_false by done. exists t. done.
Qed.

(** The node loop stops at the first event that is not an END. *)
Lemma next_node_run es : forall t t' fuel,
  cursor_ok t -> tree_run m t es t' -> tlv_tree_reader_at_end (Some t') = true -> open t < Z.of_nat fuel ->
  match drop_ends es with
  | e :: rest => exists t1, next_node fuel m t None = Some (TLV_OK, t1, e, None) /\ cursor_ok t1 /\
      tree_run m t1 rest t' /\ e.(ev_kind) <> TLV_TREE_END
  | [] => exists t1, next_node fuel m t None = Some (TLV_END, t1, no_event, None) /\
      tlv_tree_reader_at_end (Some t1) = true
  end.
Proof using Hty.
  induction es as [|e es IH]; intros t t' fuel Ht Hrun Hend Hfuel;
    pose proof (open_nonneg t (proj1 Ht)) as Ho; (destruct fuel as [|fuel]; [lia|]); cbn [next_node drop_ends].
  - inversion Hrun; subst. pose proof (pull_at_end m t' (proj1 Ht) Hend) as Hp.
    unfold tlv_tree_reader_next_event in Hp.
    destruct (tlv_tree_reader_next_event_diag m (Some t') (Some no_event) None) as [[[rc r] it] dg] eqn:E.
    injection Hp as -> -> ->.
    pose proof (next_event_no_diag m (Some t') (Some no_event)) as Hdg. rewrite E in Hdg. cbn in Hdg. subst dg.
    exists t'. done.
  - inversion Hrun as [|? ? t1 ? ? Hp Hr]; subst. destruct (pull_ok t e t1 Ht Hp) as [Ht1 Hn].
    unfold pull, tlv_tree_reader_next_event in Hp.
    destruct (tlv_tree_reader_next_event_diag m (Some t) (Some no_event) None) as [[[rc r] it] dg] eqn:E.
    injection Hp as -> -> ->.
    pose proof (next_event_no_diag m (Some t) (Some no_event)) as Hdg. rewrite E in Hdg. cbn in Hdg. subst dg.
    rewrite is_ok_OK. cbn [negb cell]. case_bool_decide as Hk.
    + apply (IH t1 t' fuel); try done. unfold nest in Hn. rewrite Hk in Hn. destruct (_ && _); [|done].
      injection Hn as Hn. lia.
    + exists t1. done.
Qed.

Lemma run_projection t es t' :
  tree_run m (with_projection false t) es t' ->
  exists t'', tree_run m t es t'' /\ tlv_tree_reader_at_end (Some t'') = tlv_tree_reader_at_end (Some t').
Proof using.
  intros Hr. inversion Hr as [|? e t1 ? ? Hp Hr1]; subst.
  - exists t. split; [constructor|done].
  - exists t'. split; [|done]. eapply run_cons; [|exact Hr1].
    apply (pull_projection (tr_projection t)) in Hp. now destruct t.
Qed.

Definition item_of (e : tlv_tree_event_t) : tlv_tree_item_t :=
  mk_item e.(ev_element) e.(ev_source) e.(ev_depth) e.(ev_offset)
    (bool_decide (e.(ev_kind) = TLV_TREE_BEGIN)).

Lemma open_depth t : cursor_ok t -> open t <= t.(tr_depth) + 1 /\ 0 <= t.(tr_depth).
Proof using. intros [[_ _ [[? _] _] _ _ _ _ _] _]. unfold open. destruct (pending t); lia. Qed.

Lemma next_run t es t' it0 :
  cursor_ok t -> tree_run m t es t' -> tlv_tree_reader_at_end (Some t') = true ->
  match drop_ends es with
  | e :: rest => exists t2 t'', tlv_tree_reader_next_diag m (Some t) (Some it0) None =
        Some (TLV_OK, Some t2, Some (item_of e), None) /\
      cursor_ok t2 /\ tree_run m t2 (drop_ends rest) t'' /\ tlv_tree_reader_at_end (Some t'') = true
  | [] => exists t1, tlv_tree_reader_next_diag m (Some t) (Some it0) None =
        Some (TLV_END, Some t1, Some it0, None) /\ tlv_tree_reader_at_end (Some t1) = true
  end.
Proof using Hty.
  intros Ht Hrun Hend. destruct (open_depth t Ht) as [Ho Hd].
  pose proof (next_node_run es t t' (Z.to_nat (tr_depth t) + 3) Ht Hrun Hend ltac:(lia)) as Hn.
  unfold tlv_tree_reader_next_diag. destruct (drop_ends es) as [|e rest].
  - destruct Hn as (t1 & -> & Hend1). exists t1. done.
  - destruct Hn as (t1 & -> & Ht1 & Hr1 & _). rewrite is_ok_OK. cbn [negb].
    destruct (open_depth t1 Ht1) as [Ho1 Hd1]. unfold drain_ends.
    assert (exists t'', tree_run m (with_projection false (with_projection true t1)) rest t'' /\
      tlv_tree_reader_at_end (Some t'') = true) as (t3 & Hr3 & Hend3).
    { destruct rest as [|e1 rest]; inversion Hr1; subst.
      - exists (with_projection false t'). split; [constructor|done].
      - exists t'. split; [|done]. eapply run_cons; [|eassumption]. now do 2 apply pull_projection. }
    destruct (drain_run rest (with_projection true t1) t3 (Z.to_nat (tr_depth (with_projection true t1)) + 2) no_event
      (cursor_projection true t1 Ht1) Hr3 Hend3) as (t2 & -> & Ht2 & Hr2).
    { change (open (with_projection true t1)) with (open t1). cbn [tr_depth with_projection]. lia. }
    destruct (run_projection t2 _ _ Hr2) as (t4 & Hr4 & Hend4). rewrite Hend3 in Hend4.
    exists t2, t4. done.
Qed.
End Projection.

(** ** Skipping and replacing the input *)

(** Two cursors at the same place of a traversal, over possibly different windows. *)
Definition same_place (t t' : tlv_tree_reader_t) : Prop :=
  here t' = here t /\ active t' = active t /\ open t' = open t /\ t'.(tr_pending) = t.(tr_pending) /\
  t'.(tr_count) = t.(tr_count).

Lemma tree_set_input_ok `{Platform} t data size discard final_input :
  tree_ok t -> 0 <= size -> 0 <= discard ->
  let '(rc, reader) := tlv_tree_reader_set_input (Some t) data size discard final_input in
  exists t', reader = Some t' /\ tree_ok t' /\ same_place t t' /\ window_end t <= window_end t' /\ (rc <> TLV_OK -> t' = t) /\
    (rc = TLV_OK -> t'.(tr_input).(rd_data) = data /\ t'.(tr_input).(rd_size) = size /\
                    t'.(tr_input).(rd_final) = final_input).
Proof.
  intros Ht Hs Hd. pose proof Ht as [Hin Hfr Hdp Hc Hn Hp Hde Hsk]. unfold tlv_tree_reader_set_input.
  pose proof (reader_set_input_cases (tr_input t) data size discard final_input Hin Hs Hd) as Hset.
  destruct (tlv_reader_set_input (Some (tr_input t)) data size discard final_input) as [rc input].
  destruct Hset as (Hiff & Hok & Hfail). eexists. split; [done|]. destruct (decide (rc = TLV_OK)) as [->|Hrc].
  - destruct (Hok eq_refl) as (r' & -> & Hr' & Hoff & Hd' & Hs' & Hp' & Hf' & _).
    destruct (proj1 Hiff eq_refl) as (_ & Hdis & _ & Hret & _).
    rewrite (reader_offset_ok _ Hin), (reader_offset_ok _ Hr') in Hoff. cbn [cell].
    set (t' := with_input r' t).
    assert (here t' = here t) as Eh by exact Hoff.
    assert (window_end t <= window_end t') as Ew by (unfold window_end; cbn; lia).
    assert (tree_ok t') as Hok'.
    { split; try done; rewrite ?Eh; try done. apply (nested_weaken _ _ _ (window_end t') Hn Ew). }
    split; [done|]. split; [repeat split; done|]. do 2 (split; [done|]). done.
  - rewrite (Hfail Hrc). cbn [cell]. replace (with_input (tr_input t) t) with t by now destruct t.
    split; [done|]. split; [repeat split; done|]. split; [lia|done].
Qed.

(** Replacing the window under a traversal keeps the invariant, the absolute frontier, every open
    scope and the count, whatever is discarded or appended; a refused replacement changes nothing. *)
Theorem tree_set_input_spec `{Platform} (t : tlv_tree_reader_t) (data : ptr) (size discard final_input : Z)
  (Ht : tree_ok t) (Hs : 0 <= size) (Hd : 0 <= discard) :
  let '(rc, reader) := tlv_tree_reader_set_input (Some t) data size discard final_input in
  exists t', reader = Some t' /\ tree_ok t' /\ same_place t t' /\ window_end t <= window_end t' /\ (rc <> TLV_OK -> t' = t) /\
    (rc = TLV_OK -> t'.(tr_input).(rd_data) = data /\ t'.(tr_input).(rd_size) = size /\
                    t'.(tr_input).(rd_final) = final_input).
Proof. exact (tree_set_input_ok t data size discard final_input Ht Hs Hd). Qed.

Lemma tree_set_input_spec_witness :
  exists t', @tlv_tree_reader_set_input LP64 (Some nested_rest_tree) (Ptr 2 0) 3 0 1 = (TLV_OK, Some t') /\
    tree_ok (H := LP64) t' /\ here t' = 0 /\ t'.(tr_input).(rd_data) = Ptr 2 0.
Proof.
  destruct (tree_set_input_spec (H := LP64) nested_rest_tree (Ptr 2 0) 3 0 1 nested_rest_tree_ok ltac:(lia)
    ltac:(lia)) as (t' & E & Hok & [Hh _] & _ & _ & Hset).
  exists t'. injection E as <-. split; [vm_compute; reflexivity|]. split; [exact Hok|]. split; [exact Hh|].
  exact (proj1 (Hset eq_refl)).
Defined.

(** The END of the scope a cursor is about to enter, when it is skipped. *)
Definition skipped_end (t : tlv_tree_reader_t) : tlv_tree_event_t :=
  mk_event TLV_TREE_END empty_element no_source t.(tr_depth) t.(tr_pending).(fr_end) true.

(** Skipping is possible exactly while the last element's non-empty scope is pending.  In a stream of
    events it moves the frontier behind the element without decoding anything inside it, and the next
    pull is an END of that element, marked as skipped; skipping anything else changes nothing. *)
Theorem tree_skip_spec `{Platform} (m : mem) (t : tlv_tree_reader_t)
  (Ht : tree_ok t) (Hev : t.(tr_projection) = false) :
  (t.(tr_descend) = false -> tlv_tree_reader_skip_subtree (Some t) = Some (TLV_ERR_INVALID_STATE, Some t)) /\
  (t.(tr_descend) = true ->
   exists t' e t'', tlv_tree_reader_skip_subtree (Some t) = Some (TLV_OK, Some t') /\ tree_ok t' /\
     here t' = t.(tr_pending).(fr_resume) /\ open t' = open t /\ t'.(tr_count) = t.(tr_count) /\
     tlv_tree_reader_next_event m (Some t') (Some no_event) = (TLV_OK, Some t'', Some e) /\
     e = skipped_end t /\
     tree_ok t'' /\ here t'' = t.(tr_pending).(fr_resume) /\ open t'' = t.(tr_depth) /\ active t'' = active t).
Proof.
  unfold tlv_tree_reader_skip_subtree. rewrite Hev. split; intros Hde0; rewrite Hde0; [done|]. cbn [negb].
  pose proof Ht as [Hin Hfr [Hd1 Hd2] Hc Hn Hp Hde Hsk]. destruct (Hde Hde0) as [He [Hl1 Hl2]].
  assert (pending t = true) as Hpe by (unfold pending; now rewrite Hde0). rewrite Hpe in *.
  pose proof (nested_le _ _ _ Hn) as Hle. destruct (Hp eq_refl) as [Hp1 Hp2].
  destruct (reader_ok_with_pos (tr_input t) (fr_resume (tr_pending t)) Hin) as [Eu Hin'];
    [unfold here, window_end in *; lia|].
  set (t' := mk_tree _ _ _ _ _ _ _ _ _ _ _ _).
  assert (here t' = fr_resume (tr_pending t)) as Eh by (unfold here; cbn; rewrite Eu; lia).
  assert (tree_ok t') as Hok.
  { split; try done. rewrite Eh. intros _. change (tr_pending t') with (tr_pending t). lia. }
  assert (open t' = open t) as Eo by (unfold open, pending; rewrite Hde0; done).
  destruct (flat_at_ok t' (fr_resume (tr_pending t)) (tr_depth t') Hok ltac:(cbn; lia) ltac:(lia) Hn) as [Hok2 Eh2].
  assert (fr_resume (tr_pending t) - rd_base (tr_input t') = fr_resume (tr_pending t) - rd_base (tr_input t)) as Eb by done.
  eexists t', _, (with_projection false (flat_at t' (fr_resume (tr_pending t)) (tr_depth t'))).
  split; [done|]. split; [done|]. split; [done|]. split; [done|]. split; [done|].
  split; [reflexivity|]. split; [done|]. split; [now apply with_projection_ok|]. split; [exact Eh2|].
  split; [unfold open, pending; cbn; lia|done].
Qed.

(** The cursor after the first BEGIN of [nested_rest_tree]. *)
Definition nested_rest_begun : tlv_tree_reader_t :=
  mk_tree (mk_reader (Some nested_rest_format) (Ptr 1 0) 3 1 0 1) (Some [no_frame; no_frame]) 2 2 5 1 0
    (mk_frame 3 3) true false false false.

Lemma nested_rest_begun_ok : tree_ok (H := LP64) nested_rest_begun.
Proof.
  split; cbn; try done; try lia.
  split; cbn; (done || lia || (vm_compute; done) || (right; reflexivity)).
Qed.

Lemma tree_skip_spec_witness :
  exists t' e t'', @tlv_tree_reader_skip_subtree LP64 (Some nested_rest_begun) = Some (TLV_OK, Some t') /\
    here t' = 3 /\
    @tlv_tree_reader_next_event LP64 (mem_of 1 [90; 1; 2]) (Some t') (Some no_event) = (TLV_OK, Some t'', Some e) /\
    e.(ev_skipped) = true /\ open t'' = 0.
Proof.
  destruct (proj2 (tree_skip_spec (H := LP64) (mem_of 1 [90; 1; 2]) nested_rest_begun nested_rest_begun_ok eq_refl)
    eq_refl) as (t' & e & t'' & H1 & _ & H2 & _ & _ & H3 & He & _ & _ & H4 & _).
  exists t', e, t''. split; [exact H1|]. split; [exact H2|]. split; [exact H3|].
  split; [exact (f_equal ev_skipped He)|exact H4].
Defined.
