(* ===== verification/TreePlaces.v ===== *)
(** * Places of the node projection in a forest

    A cursor of the node projection over the encoding of a forest stands at a place of that forest: in
    front of the elements that are left in its scope, with the rests of the enclosing scopes behind
    them, or at a node that is begun and not entered.  The lemmas say which place the next item leads to,
    and that skipping leads behind the node; the client's loop is an induction on places. *)

From S2P Require Import Prelude Mem Core Format WireFormat Reader TreeReader TreeLaws TreeNodes.

(** When the elements of a scope are read, the enclosing scope is left too, if nothing is left in it. *)
Fixpoint settle (fo : forest) (D : list forest) : forest * list forest :=
  match fo, D with
  | FNil, rest :: D => settle rest D
  | _, _ => (fo, D)
  end.

Lemma settle_stuck fo D : fo <> FNil -> settle fo D = (fo, D).
Proof. now destruct fo, D. Qed.

Lemma settle_nil fo D : fst (settle fo D) = FNil -> snd (settle fo D) = [].
Proof. revert fo. induction D as [|r D IH]; intros fo; destruct fo; cbn; try done; apply IH. Qed.

#[local] Instance forest_nil_dec (fo : forest) : Decision (fo = FNil).
Proof. destruct fo; [now left|now right|now right]. Defined.

Fixpoint stack_size (D : list forest) : Z :=
  match D with [] => 0 | rest :: D => forest_size rest + stack_size D end.

(** Every scope has room for what is left in it. *)
Fixpoint fits (room : Z) (fo : forest) (D : list forest) : Prop :=
  zlen D + forest_height fo <= room /\ match D with [] => True | rest :: D => fits room rest D end.

Section Places.
Context `{Platform} (f : tlv_format_t) (decode : tlv_decode_fn) (Hdec : f.(f_decode) = Some decode)
  `{!DecodeLaws decode} `{!CodecLaws f} (p : list Z -> bool) (m : mem)
  (Hclass : forall tag, tag_ok tag -> is_constructed (Some f) m tag = p (tag_bytes m tag)).

(** The octets at an absolute offset. *)
Definition octets (r : tlv_reader_t) (at_ : Z) (w : list Z) : Prop :=
  bytes_of m (r.(rd_data) +p (at_ - r.(rd_base))) (zlen w) = w.

(** A forest lies between two offsets. *)
Definition lies (r : tlv_reader_t) (fo : forest) (from to : Z) : Prop :=
  exists w, forest_wire f fo = Some w /\ octets r from w /\ from + zlen w = to /\ classified p fo = true.

Fixpoint stacked (r : tlv_reader_t) (frames : list tlv_tree_frame_t) (D : list forest) : Prop :=
  match frames, D with
  | [], [] => True
  | fr :: fs, rest :: D =>
      lies r rest fr.(fr_resume) (match fs with fr2 :: _ => fr2.(fr_end) | [] => r.(rd_base) + r.(rd_size) end) /\ stacked r fs D
  | _, _ => False
  end.

Definition depth_room (t : tlv_tree_reader_t) : Z := Z.min t.(tr_max_depth) t.(tr_capacity).

Record at_place (t : tlv_tree_reader_t) (fo : forest) (D : list forest) : Prop := {
  ap_ok : tree_ok t;
  ap_pending : pending t = false;
  ap_format : t.(tr_input).(rd_format) = Some f;
  ap_final : t.(tr_input).(rd_final) <> 0;
  ap_left : lies t.(tr_input) fo (here t) (limit t);
  ap_stack : stacked t.(tr_input) (active t) D;
  ap_fits : fits (depth_room t) fo D;
  ap_count : t.(tr_count) + forest_size fo + stack_size D <= t.(tr_max_elements) }.

(** At a node whose children, if it has any, are about to be entered. *)
Record begun (t : tlv_tree_reader_t) (kids rest : forest) (D : list forest) : Prop := {
  bg_ok : tree_ok t;
  bg_descend : t.(tr_descend) = true;
  bg_format : t.(tr_input).(rd_format) = Some f;
  bg_final : t.(tr_input).(rd_final) <> 0;
  bg_kids : lies t.(tr_input) kids (here t) t.(tr_pending).(fr_end);
  bg_nonempty : kids <> FNil;
  bg_stack : stacked t.(tr_input) (t.(tr_pending) :: active t) (rest :: D);
  bg_fits : fits (depth_room t) kids (rest :: D);
  bg_count : t.(tr_count) + forest_size kids + stack_size (rest :: D) <= t.(tr_max_elements) }.

Lemma at_place_projection t fo D b : at_place t fo D -> at_place (with_projection b t) fo D.
Proof using. intros []. split; try done. now apply with_projection_ok. Qed.

Lemma at_place_any t fo D b : at_place (with_projection b t) fo D -> at_place t fo D.
Proof using.
  intros Hp. apply (at_place_projection _ _ _ (tr_projection t)) in Hp. now destruct t.
Qed.

Lemma stacked_length r frames D : stacked r frames D -> length frames = length D.
Proof using.
  revert D. induction frames as [|fr fs IH]; intros [|rest D]; cbn; try done. intros [_ Hs]. now rewrite (IH D Hs).
Qed.

Lemma active_length t : tree_ok t -> zlen (active t) = t.(tr_depth).
Proof using. intros [_ Hf [Hd _] _ _ _ _ _]. unfold active. rewrite length_rev, length_take. lia. Qed.

Lemma at_place_depth t fo D : at_place t fo D -> t.(tr_depth) = zlen D.
Proof using. intros [Hok _ _ _ _ Hs _ _]. rewrite <- (active_length t Hok), (stacked_length _ _ _ Hs). done. Qed.

Lemma begun_depth t kids rest D : begun t kids rest D -> t.(tr_depth) = zlen D.
Proof using.
  intros [Hok _ _ _ _ _ Hs _ _]. apply stacked_length in Hs. cbn in Hs. rewrite <- (active_length t Hok). congruence.
Qed.

(** What is left does not depend on where in the window the cursor is. *)
Lemma lies_with_pos r pos fo a b : lies (with_pos pos r) fo a b <-> lies r fo a b.
Proof using. done. Qed.

Lemma stacked_with_pos r pos frames D : stacked (with_pos pos r) frames D <-> stacked r frames D.
Proof using. revert D. induction frames as [|fr fs IH]; intros [|rest D]; cbn; try done. now rewrite IH. Qed.

Lemma lies_element r tag value rest a b : lies r (FElement tag value rest) a b ->
  exists w, cl_wire tag value = Some w /\ octets r a w /\ p tag = false /\ lies r rest (a + zlen w) b.
Proof using.
  intros (ws & Hw & Ho & Hb & Hc). cbn in Hw, Hc. destruct (cl_wire tag value) as [w|]; [|done]. destruct (forest_wire f rest) as [w2|] eqn:E; [|done].
  injection Hw as <-. apply andb_true_iff in Hc as [Hp Hc]. apply negb_true_iff in Hp. unfold octets in *.
  rewrite length_app, Nat2Z.inj_add, bytes_of_app in Ho by lia. apply app_inj_1 in Ho as [Ho1 Ho2]; [|rewrite length_bytes_of; lia].
  exists w. split; [done|]. split; [done|]. split; [done|]. exists w2. split; [done|]. rewrite length_app in Hb. split; [|split; [lia|done]].
  unfold octets. rewrite <- Ho2 at 2. rewrite padd_padd. do 2 f_equal. lia.
Qed.

Lemma lies_node r tag kids rest a b : lies r (FNode tag kids rest) a b ->
  exists value w, forest_wire f kids = Some value /\ cl_wire tag value = Some w /\ octets r a w /\ p tag = true /\
    classified p kids = true /\ lies r rest (a + zlen w) b.
Proof using.
  intros (ws & Hw & Ho & Hb & Hc). cbn in Hw, Hc. destruct (forest_wire f kids) as [value|]; [|done].
  destruct (cl_wire tag value) as [w|] eqn:Ew; [|done]. destruct (forest_wire f rest) as [w2|] eqn:E; [|done].
  injection Hw as <-. rewrite !andb_true_iff in Hc. destruct Hc as [[Hp Hck] Hc]. unfold octets in *.
  rewrite length_app, Nat2Z.inj_add, bytes_of_app in Ho by lia. apply app_inj_1 in Ho as [Ho1 Ho2]; [|rewrite length_bytes_of; lia].
  exists value, w. split; [done|]. split; [done|]. split; [done|]. split; [done|]. split; [done|]. exists w2. split; [done|].
  rewrite length_app in Hb. split; [|split; [lia|done]].
  unfold octets. rewrite <- Ho2 at 2. rewrite padd_padd. do 2 f_equal. lia.
Qed.

Lemma fits_rest room fo rest D : fits room fo D -> forest_height rest <= forest_height fo -> fits room rest D.
Proof using. destruct D; cbn; intros [? ?] ?; (split; [lia|done]). Qed.

(** The cursor has moved over the first elements of its scope. *)
Lemma at_place_moved t t' n k fo rest D : at_place t fo D -> moved t t' n k ->
  forest_size rest + k <= forest_size fo -> forest_height rest <= forest_height fo ->
  lies t.(tr_input) rest (here t + n) (limit t) -> at_place t' rest D.
Proof using.
  intros [Hok Hp Hf Hfin _ Hs Hfit Hc] Hm Hk Hh Hl. destruct (moved_place t t' n k Hp Hm) as [Eh El].
  destruct Hm as [Hok' Hp' Hi Ha Hd [Hca [Hmd Hme]] Hc']. split; try done.
  - now rewrite Hi.
  - now rewrite Hi.
  - rewrite Hi, Eh, El. exact Hl.
  - rewrite Hi, Ha. now apply stacked_with_pos.
  - unfold depth_room. rewrite Hca, Hmd. exact (fits_rest _ _ _ _ Hfit Hh).
  - lia.
Qed.

(** What an event, and the item made of it, says. *)
Record shows (t : tlv_tree_reader_t) (e : tlv_tree_event_t) (tag value : list Z) (constructed : bool) : Prop := {
  sw_kind : e.(ev_kind) = (if constructed then TLV_TREE_BEGIN else TLV_TREE_ELEMENT);
  sw_depth : e.(ev_depth) = t.(tr_depth);
  sw_offset : e.(ev_offset) = here t;
  sw_tag_ok : tag_ok e.(ev_element).(e_tag);
  sw_tag : tag_bytes m e.(ev_element).(e_tag) = tag;
  sw_value : value_bytes m e.(ev_element).(e_value) = value;
  sw_start : 0 <= e.(ev_source).(s_value).(r_offset);
  sw_end : here t + e.(ev_source).(s_value).(r_offset) + zlen value <= limit t;
  sw_view : e.(ev_element).(e_value) =
    mk_value (t.(tr_input).(rd_data) +p (here t + e.(ev_source).(s_value).(r_offset) - t.(tr_input).(rd_base))) (zlen value) }.

Lemma shown t d tag value (c : bool) : decoded_ok (t.(tr_input).(rd_data) +p t.(tr_input).(rd_pos)) (limit t - here t) d ->
  tag_bytes m d.(d_element).(e_tag) = tag -> value_bytes m d.(d_element).(e_value) = value -> tag_ok d.(d_element).(e_tag) ->
  shows t (mk_event (if c then TLV_TREE_BEGIN else TLV_TREE_ELEMENT) d.(d_element) d.(d_source) t.(tr_depth) (here t) false) tag value c /\
  d.(d_source).(s_value).(r_size) = zlen value.
Proof using.
  intros [Hsize _ _ [_ Hh] [Hvo Hv] [_ Ht] Hsum Hview _] Htag Hval Hok.
  assert (r_size (s_value (d_source d)) = zlen value) as Elen.
  { rewrite <- Hval. unfold value_bytes. rewrite Hview. cbn. rewrite length_bytes_of. lia. }
  split; [|done]. split; cbn; try done; try lia.
  rewrite Hview, Elen, Hvo. f_equal. rewrite padd_padd. f_equal. unfold here. lia.
Qed.

(** Two cursors over one window. *)
Definition same_window (t t' : tlv_tree_reader_t) : Prop := t'.(tr_input) = with_pos t'.(tr_input).(rd_pos) t.(tr_input).

Lemma same_window_refl t : same_window t t.
Proof using. unfold same_window. now destruct (tr_input t). Qed.

Lemma same_window_trans t t1 t2 : same_window t t1 -> same_window t1 t2 -> same_window t t2.
Proof using. unfold same_window. intros H1' H2'. rewrite H2', H1'. done. Qed.

Lemma moved_window t t' n k : moved t t' n k -> same_window t t'.
Proof using. intros [_ _ Hi _ _ _ _]. unfold same_window. now rewrite Hi. Qed.

Lemma leaf_step t tag value rest D : at_place t (FElement tag value rest) D ->
  exists e t1, pull m t e t1 /\ shows t e tag value false /\ same_window t t1 /\ at_place t1 rest D.
Proof using Hdec DecodeLaws0 Hclass.
  intros Hp. pose proof Hp as [Ht Hpe Hf Hfin Hl Hs Hfit Hc]. destruct (lies_element _ _ _ _ _ _ Hl) as (w & Hw & Ho & Hpt & Hr).
  pose proof (forest_size_nonneg rest) as Hsz. assert (0 <= stack_size D) as Hss.
  { clear. induction D as [|x D IH]; cbn; [lia|]. pose proof (forest_size_nonneg x). lia. }
  assert (here t + zlen w <= limit t) as Hroom by (destruct Hr as (w2 & _ & _ & <- & _); lia).
  cbn [forest_size] in Hc.
  destruct (pull_element f decode Hdec p m Hclass t tag value w Ht Hpe Hf ltac:(lia) Hw Hroom) as (d & Hok & Hsz' & Htag & Hval & _ & _ & _ & _ & Htok & Hpull).
  { unfold octets in Ho. replace (here t - rd_base (tr_input t)) with (rd_pos (tr_input t)) in Ho by (unfold here; lia). exact Ho. }
  rewrite Hpt in Hpull. destruct (shown t d tag value false Hok Htag Hval Htok) as [Hsh _].
  eexists _, _. split; [exact Hpull|]. split; [exact Hsh|]. split; [done|].
  apply (at_place_moved t _ (zlen w) 1 (FElement tag value rest) rest D); [done| |cbn; lia|cbn; lia|done].
  pose proof (cl_wire_length _ _ _ Hw). apply published_leaf; try done; lia.
Qed.

Lemma stack_size_nonneg D : 0 <= stack_size D.
Proof using. induction D as [|x D IH]; cbn; [lia|]. pose proof (forest_size_nonneg x). lia. Qed.

(** Closing the pending END or the innermost scope. *)
Definition closes (t t2 : tlv_tree_reader_t) : Prop :=
  t2.(tr_projection) = t.(tr_projection) /\ same_window t t2 /\ forall ev, exists e, close_event t ev = (true, t2, e).

Lemma pull_closes t e at_ d : pull m t e (with_projection false (flat_at t at_ d)) -> e.(ev_kind) = TLV_TREE_END ->
  closes t (flat_at t at_ d).
Proof using.
  intros Hp Hk. split; [done|]. split; [done|].
  intros ev. destruct (pull_cases m _ _ _ Hp) as [(t1 & Hc & Et & _)|[_ Hk']]; [|done].
  pose proof (close_event_any t ev no_event) as Hany. rewrite Hc in Hany. destruct (close_event t ev) as [[c t2] e2] eqn:E.
  cbn in Hany. injection Hany as -> ->. exists e2. do 2 f_equal.
  assert (tr_projection t1 = tr_projection t) as Hpr.
  { unfold close_event in Hc. destruct (tr_end t); [injection Hc as <- _; done|]. destruct (_ && _); [injection Hc as <- _; done|done]. }
  assert (t1 = with_projection (tr_projection t1) (with_projection false t1)) as -> by now destruct t1.
  rewrite <- Et, Hpr. reflexivity.
Qed.

(** A node without children is behind its BEGIN. *)
Definition ended (t : tlv_tree_reader_t) (rest : forest) (D : list forest) : Prop :=
  t.(tr_depth) = zlen D /\ exists t2, closes t t2 /\ at_place t2 rest D.

Lemma scope_closes t rest D : at_place t FNil (rest :: D) -> exists t2, closes t t2 /\ at_place t2 rest D.
Proof using.
  intros Hp. pose proof (at_place_depth _ _ _ Hp) as Hdep. cbn [length] in Hdep.
  pose proof Hp as [Ht Hpe Hf Hfin (w & Hw & _ & Hend & _) Hs [Hfit1 Hfit] Hc].
  injection Hw as <-. cbn [length] in Hend. destruct (active t) as [|fr fs] eqn:Ea; [done|]. destruct Hs as [Hr Hs].
  assert (here t = fr_end fr) as Eh.
  { unfold limit in Hend. unfold pending in Hpe. apply orb_false_iff in Hpe as [Hde _]. rewrite Hde, Ea in Hend. lia. }
  destruct (pull_scope_end m t fr fs Ht Hpe ltac:(lia) Ea Eh) as (e & Hpull & Hv & Hok & Ha2 & _).
  exists (flat_at t (fr_resume fr) (tr_depth t - 1)). split.
  - apply (pull_closes t e); [done|]. unfold view in Hv. congruence.
  - assert (here (flat_at t (fr_resume fr) (tr_depth t - 1)) = fr_resume fr) as Eh2.
    { pose proof (tk_nested t Ht) as Hn. rewrite Hpe, Ea in Hn. destruct Hn as [Hn1 Hn].
      apply (flat_at_ok t (fr_resume fr) (tr_depth t - 1) Ht); [pose proof (tk_depth t Ht); lia|lia|].
      assert (rev (take (Z.to_nat (tr_depth t - 1)) (default [] (tr_frames t))) = fs) as -> by exact Ha2. exact Hn. }
    split; try done.
    + rewrite Eh2. unfold limit. rewrite Ha2. destruct fs; exact Hr.
    + rewrite Ha2. cbn [flat_at tr_input]. apply stacked_with_pos, Hs.
    + cbn in *. lia.
Qed.

Lemma forest_wire_pos fo w : forest_wire f fo = Some w -> fo <> FNil -> 1 <= zlen w.
Proof using.
  intros Hw Hne. destruct w as [|x w]; [|cbn; lia]. destruct Hne. now apply (forest_wire_nil f).
Qed.

(** In front of an element nothing is closed. *)
Lemma place_stays t fo D ev : at_place t fo D -> fo <> FNil -> close_event t ev = (false, t, ev) /\ here t < limit t.
Proof using.
  intros [Ht Hpe _ _ (w & Hw & _ & Hend & _) _ _ _] Hne. pose proof (forest_wire_pos fo w Hw Hne) as Hlen.
  assert (here t < limit t) as Hl by lia. split; [|done]. pose proof (pull_open t Ht Hpe Hl) as Hc.
  pose proof (close_event_any t ev no_event) as Hany. pose proof (close_event_cases t ev) as Hcs. rewrite Hc in Hany.
  destruct (close_event t ev) as [[c t2] e2]. cbn in Hany. injection Hany as -> ->. now destruct Hcs as [_ ->].
Qed.

Lemma drain_place D : forall t fo fuel ev, at_place t fo D -> zlen D < Z.of_nat fuel ->
  exists t2, drain_loop fuel t ev = Some t2 /\ at_place t2 (fst (settle fo D)) (snd (settle fo D)) /\
    t2.(tr_projection) = t.(tr_projection) /\ same_window t t2.
Proof using.
  induction D as [|rest D IH]; intros t fo fuel ev Hp Hfuel; (destruct fuel as [|fuel]; [lia|]); cbn [drain_loop].
  - assert (close_event t ev = (false, t, ev)) as ->; [|exists t; split; [done|]; split; [now destruct fo|split; [done|apply same_window_refl]]].
    pose proof (at_place_depth _ _ _ Hp) as Hd. cbn in Hd. destruct Hp as [_ Hpe _ _ _ _ _ _]. unfold pending in Hpe.
    apply orb_false_iff in Hpe as [Hde He]. unfold close_event. now rewrite He, Hde, Hd.
  - destruct (decide (fo = FNil)) as [->|Hne].
    + cbn [length] in Hfuel. destruct (scope_closes t rest D Hp) as (t1 & (Hpr & Hwin & Hclose) & Hp1). destruct (Hclose ev) as [e1 ->].
      destruct (IH t1 rest fuel e1 Hp1 ltac:(lia)) as (t2 & E & Hp2 & Hpr2 & Hwin2).
      exists t2. split; [exact E|]. split; [exact Hp2|]. split; [congruence|]. eapply same_window_trans; eassumption.
    + rewrite (settle_stuck _ _ Hne). destruct (place_stays t fo (rest :: D) ev Hp Hne) as [-> _].
      exists t. split; [done|]. split; [done|]. split; [done|apply same_window_refl].
Qed.

(** The BEGIN of a node: it is pending, or about to be closed. *)
Lemma node_step t tag kids rest D : at_place t (FNode tag kids rest) D ->
  exists value e t1, forest_wire f kids = Some value /\ pull m t e t1 /\ shows t e tag value true /\ same_window t t1 /\
    lies t.(tr_input) kids (here t + e.(ev_source).(s_value).(r_offset)) (here t + e.(ev_source).(s_value).(r_offset) + zlen value) /\
    ((kids = FNil /\ ended t1 rest D) \/ (kids <> FNil /\ begun t1 kids rest D)).
Proof using Hdec DecodeLaws0 Hclass.
  intros Hp. pose proof (at_place_depth _ _ _ Hp) as Hdep. pose proof Hp as [Ht Hpe Hf Hfin Hl Hs Hfit Hc].
  destruct (lies_node _ _ _ _ _ _ Hl) as (value & w & Hk & Hw & Ho & Hpt & Hck & Hr).
  pose proof (forest_size_nonneg rest) as Hsz. pose proof (forest_size_nonneg kids) as Hsk. pose proof (stack_size_nonneg D) as Hss.
  assert (here t + zlen w <= limit t) as Hroom by (destruct Hr as (w2 & _ & _ & <- & _); lia).
  cbn [forest_size] in Hc. pose proof (cl_wire_length _ _ _ Hw) as Hlen.
  destruct (pull_element f decode Hdec p m Hclass t tag value w Ht Hpe Hf ltac:(lia) Hw Hroom) as (d & Hok & Hsz' & Htag & Hval & _ & _ & _ & _ & Htok & Hpull).
  { unfold octets in Ho. replace (here t - rd_base (tr_input t)) with (rd_pos (tr_input t)) in Ho by (unfold here; lia). exact Ho. }
  rewrite Hpt in Hpull. destruct (shown t d tag value true Hok Htag Hval Htok) as [Hsh Hvs].
  destruct (published_node t d Ht Hpe ltac:(lia) ltac:(lia) Hok) as (Hok1 & Ha1 & Hdep1 & Hh1 & Hpe1 & Hde1 & He1).
  set (t1 := published t (d_source d) true) in *. destruct Hok as [_ _ _ [_ Hhd] [Hvo _] [_ Htr] Hsum _ _ _].
  assert (lies t.(tr_input) kids (here t + r_offset (s_value (d_source d))) (here t + r_offset (s_value (d_source d)) + zlen value)) as Hlk.
  { exists value. split; [done|]. split; [|split; [lia|done]]. pose proof (sw_view _ _ _ _ _ Hsh) as Hv. cbn in Hv.
    unfold value_bytes in Hval. rewrite Hv in Hval. exact Hval. }
  eexists value, _, t1. split; [done|]. split; [exact Hpull|]. split; [exact Hsh|]. split; [done|]. split; [exact Hlk|].
  assert (tr_count t1 = tr_count t + 1) as Ec by done.
  destruct (decide (kids = FNil)) as [->|Hne]; [left|right]; (split; [done|]).
  - injection Hk as <-. cbn [length] in *. rewrite (proj2 (Z.eqb_eq _ _)) in He1 by lia. split; [lia|].
    destruct (pull_pending_end m t1 Hok1 He1) as (e & Hpulle & Hve & _ & Hoke & Hhe). rewrite Hpe1, Hdep1 in *. cbn [fr_resume] in *.
    exists (flat_at t1 (here t + s_size (d_source d)) (tr_depth t)). split.
    + apply (pull_closes t1 e); [done|]. unfold view in Hve. congruence.
    + apply (at_place_any _ _ _ false).
      apply (at_place_moved t _ (zlen w) 1 (FNode tag FNil rest) rest D); [done| |cbn; lia|cbn; lia|done].
      pose proof (limit_window t Ht) as Hlw. unfold pending in Hpe. apply orb_false_iff in Hpe as [Hde He]. specialize (Hlw He).
      apply moved_back; try done; try lia.
      * unfold pending. now rewrite Hde, He.
      * rewrite <- Ha1. unfold active. cbn [tr_depth tr_frames flat_at]. now rewrite Hdep1.
  - assert (zlen value <> 0) as Hnz by (pose proof (forest_wire_pos kids value Hk Hne); lia).
    rewrite (proj2 (Z.eqb_neq _ _)) in Hde1 by lia. destruct (forest_height_node tag kids rest) as [Hh Hh'].
    assert (1 + forest_height kids <= forest_height (FNode tag kids FNil)) as Hh2 by (cbn -[Z.max]; destruct kids; [done| |]; lia).
    split; try done.
    + rewrite Hpe1. cbn [fr_end]. apply lies_with_pos. rewrite Hh1, <- Hvo, Hvs. exact Hlk.
    + rewrite Hpe1, Ha1. split; [|now apply stacked_with_pos]. cbn [fr_resume]. rewrite Hsz'. unfold limit in Hr.
      unfold pending in Hpe. apply orb_false_iff in Hpe as [Hde _]. rewrite Hde in Hr. destruct (active t); exact Hr.
    + split; [|exact (fits_rest _ _ _ _ Hfit Hh')]. pose proof Hfit as Hfit'. destruct D; cbn [fits length] in *; destruct Hfit' as [Hfit' _]; change (depth_room t1) with (depth_room t); lia.
    + cbn [stack_size]. rewrite Ec. change (tr_max_elements t1) with (tr_max_elements t). lia.
Qed.

(** Entering the children. *)
Lemma begun_entered t kids rest D : begun t kids rest D ->
  at_place (entered t) kids (rest :: D) /\ same_window t (entered t) /\ here (entered t) = here t /\
  t.(tr_depth) < t.(tr_max_depth) /\ t.(tr_depth) < t.(tr_capacity).
Proof using.
  intros Hb. pose proof (begun_depth _ _ _ _ Hb) as Hdep. destruct Hb as [Hok Hde Hf Hfin Hk Hne Hs Hfit Hc].
  pose proof (forest_height_nonneg kids). assert (zlen D + 1 <= depth_room t) as Hroom by (cbn in Hfit; lia). unfold depth_room in Hroom.
  destruct (entered_ok t Hok Hde ltac:(lia) ltac:(lia)) as (Hok' & Ha & Hl & Hh & _).
  split; [|split; [exact (same_window_refl t)|split; [done|lia]]]. split; try done.
  - rewrite Hh, Hl. unfold limit. rewrite Hde. exact Hk.
  - rewrite Ha. exact Hs.
Qed.

(** Skipping them: the END of the node is pending. *)
Lemma begun_skip t kids rest D : begun t kids rest D -> t.(tr_projection) = true ->
  exists t2, tlv_tree_reader_skip_subtree (Some t) = Some (TLV_OK, Some t2) /\ at_place t2 (fst (settle rest D)) (snd (settle rest D)) /\
    t2.(tr_projection) = true /\ same_window t t2.
Proof using.
  intros Hb Hpr. pose proof (begun_depth _ _ _ _ Hb) as Hdep. pose proof Hb as [Hok Hde Hf Hfin Hk Hne [Hr Hs] [_ Hfit] Hc].
  pose proof Hok as [Hin Hfr [Hd1 Hd2] Hcn Hn Hp Hdes Hsk]. destruct (Hdes Hde) as [He [Hl1 Hl2]].
  assert (pending t = true) as Hpe by (unfold pending; now rewrite Hde). rewrite Hpe in Hn. pose proof (nested_le _ _ _ Hn) as Hle. cbn in Hc. cbn [fst snd] in *.
  destruct (flat_at_ok t (fr_resume (tr_pending t)) (tr_depth t) Hok ltac:(lia) ltac:(lia) Hn) as [Hok2 Hh2].
  unfold tlv_tree_reader_skip_subtree. rewrite Hde. cbn [negb]. cbv zeta. cbn [tr_projection]. rewrite Hpr. unfold drain_ends. cbn [tr_depth].
  replace (Z.to_nat (tr_depth t) + 2)%nat with (S (Z.to_nat (tr_depth t) + 1)) by lia. cbn [drain_loop].
  unfold close_event at 1. cbn [tr_end tr_pending tr_input tr_frames tr_capacity tr_max_depth tr_max_elements tr_count tr_depth tr_descend tr_skipped tr_projection fr_resume with_pos rd_base].
  set (t1 := mk_tree _ _ _ _ _ _ _ _ _ _ _ _). assert (t1 = with_projection true (flat_at t (fr_resume (tr_pending t)) (tr_depth t))) as Et by done.
  pose proof (forest_size_nonneg kids).
  assert (at_place t1 rest D) as Hp1.
  { rewrite Et. apply at_place_projection. split; try done.
    - rewrite Hh2. unfold limit. cbn [flat_at tr_descend active tr_depth tr_frames]. fold (active t).
      change (active (flat_at t (fr_resume (tr_pending t)) (tr_depth t))) with (active t). destruct (active t); exact Hr.
    - cbn [flat_at tr_input]. apply stacked_with_pos. exact Hs.
    - cbn. lia. }
  destruct (drain_place D t1 rest (Z.to_nat (tr_depth t) + 1) (mk_event TLV_TREE_END (ev_element no_event) (ev_source no_event) (tr_depth t) (fr_end (tr_pending t)) true) Hp1 ltac:(lia))
    as (t2 & -> & Hp2 & Hpr2 & Hw2).
  exists t2. split; [done|]. split; [done|]. split; [now rewrite Hpr2, Et|]. eapply same_window_trans; [|exact Hw2]. done.
Qed.

(** ** Items *)

Inductive place : Type :=
| InScope (fo : forest) (D : list forest)
| AtNode (kids rest : forest) (D : list forest).

Definition stands (t : tlv_tree_reader_t) (P : place) : Prop :=
  match P with InScope fo D => at_place t fo D | AtNode kids rest D => begun t kids rest D end.

(** The elements that the next item is the first of, and the scopes around them. *)
Definition front (P : place) : forest * list forest :=
  match P with InScope fo D => (fo, D) | AtNode kids rest D => (kids, rest :: D) end.

(** Every scope that is done has been left. *)
Definition settled (P : place) : Prop := match P with InScope FNil (_ :: _) => False | _ => True end.

(** Behind a complete element, and behind the first item of a front. *)
Definition behind_element (rest : forest) (D : list forest) : place := InScope (fst (settle rest D)) (snd (settle rest D)).
Definition after_item (fo : forest) (D : list forest) : place :=
  match fo with
  | FNil => InScope FNil D
  | FElement _ _ rest => behind_element rest D
  | FNode _ FNil rest => behind_element rest D
  | FNode _ kids rest => AtNode kids rest D
  end.

Lemma behind_settled rest D : settled (behind_element rest D).
Proof using.
  unfold behind_element. pose proof (settle_nil rest D) as Hs. destruct (settle rest D) as [fo D2]. cbn in *.
  destruct fo; [now rewrite Hs|done|done].
Qed.

(** An item that a cursor over the window of [t] returns at the nesting [D]. *)
Record item_shows (t : tlv_tree_reader_t) (D : list forest) (it : tlv_tree_item_t) (tag value : list Z) (constructed : bool) : Prop := {
  is_depth : it.(it_depth) = zlen D;
  is_form : it.(it_constructed) = constructed;
  is_tag_ok : tag_ok it.(it_element).(e_tag);
  is_tag : tag_bytes m it.(it_element).(e_tag) = tag;
  is_value : value_bytes m it.(it_element).(e_value) = value;
  is_offset : t.(tr_input).(rd_base) <= it.(it_offset) /\ 0 <= it.(it_source).(s_value).(r_offset);
  is_end : it.(it_offset) + it.(it_source).(s_value).(r_offset) + zlen value <= window_end t;
  is_view : it.(it_element).(e_value) =
    mk_value (t.(tr_input).(rd_data) +p (it.(it_offset) + it.(it_source).(s_value).(r_offset) - t.(tr_input).(rd_base))) (zlen value) }.

Lemma next_from t e t1 t2 dg it0 : tree_ok t -> pull m t e t1 -> e.(ev_kind) <> TLV_TREE_END ->
  drain_ends (with_projection true t1) = Some t2 ->
  tlv_tree_reader_next_diag m (Some t) (Some it0) dg = Some (TLV_OK, Some t2, Some (item_of e), dg).
Proof using.
  intros Ht Hp Hk Hd. unfold tlv_tree_reader_next_diag. rewrite Nat.add_comm. cbn [Nat.add next_node].
  rewrite (pull_diag m t e t1 dg Hp). cbn [cell]. rewrite is_ok_OK. cbn [negb]. rewrite (bool_decide_eq_false_2 _ Hk), is_ok_OK. cbn [negb].
  now rewrite Hd.
Qed.

Lemma drain_after t fo D : at_place t fo D -> exists t2, drain_ends (with_projection true t) = Some t2 /\
  stands t2 (behind_element fo D) /\ t2.(tr_projection) = true /\ same_window t t2.
Proof using.
  intros Hp. pose proof (at_place_depth _ _ _ Hp) as Hd. unfold drain_ends. cbn [with_projection tr_depth].
  destruct (drain_place D (with_projection true t) fo (Z.to_nat (tr_depth t) + 2) no_event) as (t2 & E & Hp2 & Hpr & Hw); [now apply at_place_projection|lia|].
  exists t2. done.
Qed.

Lemma drain_ended t rest D : ended t rest D -> exists t2, drain_ends (with_projection true t) = Some t2 /\
  stands t2 (behind_element rest D) /\ t2.(tr_projection) = true /\ same_window t t2.
Proof using.
  intros (Hd & t1 & (Hpr & Hw & Hc) & Hp). unfold drain_ends. cbn [with_projection tr_depth].
  replace (Z.to_nat (tr_depth t) + 2)%nat with (S (Z.to_nat (tr_depth t) + 1)) by lia. cbn [drain_loop].
  rewrite close_event_projection. destruct (Hc no_event) as [e ->].
  destruct (drain_place D (with_projection true t1) rest (Z.to_nat (tr_depth t) + 1) e) as (t2 & E & Hp2 & Hpr2 & Hw2);
    [now apply at_place_projection|lia|].
  exists t2. split; [exact E|]. split; [exact Hp2|]. split; [exact Hpr2|]. eapply same_window_trans; [exact Hw|exact Hw2].
Qed.

Lemma drain_begun t kids rest D : begun t kids rest D -> exists t2, drain_ends (with_projection true t) = Some t2 /\
  stands t2 (AtNode kids rest D) /\ t2.(tr_projection) = true /\ same_window t t2.
Proof using.
  intros Hb. pose proof Hb as [Hok Hde _ _ _ _ _ _ _]. pose proof (tk_descend t Hok Hde) as [He _].
  exists (with_projection true t). unfold drain_ends. rewrite Nat.add_comm. cbn [Nat.add drain_loop].
  unfold close_event. cbn [with_projection tr_end tr_descend]. rewrite He, Hde. cbn [negb andb].
  split; [done|]. split; [|split; [done|exact (same_window_refl t)]].
  destruct Hb. split; try done. now apply with_projection_ok.
Qed.

(** The next item is pulled from the place, or from the scope that is entered first. *)
Lemma front_of t P : stands t P -> exists t0, at_place t0 (fst (front P)) (snd (front P)) /\ same_window t t0 /\
  forall e t1, pull m t0 e t1 -> pull m t e t1.
Proof using.
  destruct P as [fo D|kids rest D]; cbn; intros Hs.
  - exists t. split; [done|]. split; [apply same_window_refl|done].
  - destruct (begun_entered t kids rest D Hs) as (Hp & Hw & _ & Hd1 & Hd2). exists (entered t). split; [done|]. split; [done|].
    intros e t1. apply pull_entered; [apply Hs|apply Hs|done|done].
Qed.

Lemma window_places t t0 : same_window t t0 -> window_end t0 = window_end t /\
  t0.(tr_input).(rd_data) = t.(tr_input).(rd_data) /\ t0.(tr_input).(rd_base) = t.(tr_input).(rd_base).
Proof using. unfold same_window, window_end. intros ->. done. Qed.

Lemma stands_ok t P : stands t P -> tree_ok t.
Proof using. destruct P; now intros []. Qed.

Lemma item_of_shows t t0 e fo D tag value c : at_place t0 fo D -> same_window t t0 -> shows t0 e tag value c ->
  item_shows t D (item_of e) tag value c.
Proof using.
  intros Hp Hw [Hk Hd Ho Htok Htag Hval Hs He Hv]. destruct (window_places _ _ Hw) as (Ew & Eda & Eb).
  pose proof (at_place_depth _ _ _ Hp) as Hdep. pose proof Hp as [Ht Hpe _ _ _ _ _ _]. unfold pending in Hpe. apply orb_false_iff in Hpe as [_ Hend].
  pose proof (limit_window t0 Ht Hend) as Hl. pose proof (tree_here_bound t0 Ht) as [Hh _].
  split; cbn; try done.
  - congruence.
  - rewrite Hk. destruct c; [now apply bool_decide_eq_true_2|now apply bool_decide_eq_false_2].
  - rewrite Ho, <- Eb. unfold here. destruct Ht as [[? ? _ _ _ _] _ _ _ _ _ _ _]. lia.
  - rewrite Ho, <- Ew. lia.
  - rewrite Ho, <- Eda, <- Eb. exact Hv.
Qed.

Lemma next_element t P tag value rest D dg it0 : stands t P -> front P = (FElement tag value rest, D) ->
  exists it t2, tlv_tree_reader_next_diag m (Some t) (Some it0) dg = Some (TLV_OK, Some t2, Some it, dg) /\
    item_shows t D it tag value false /\ stands t2 (after_item (FElement tag value rest) D) /\ t2.(tr_projection) = true /\ same_window t t2.
Proof using Hdec DecodeLaws0 Hclass.
  intros Hs Hf. destruct (front_of t P Hs) as (t0 & Hp & Hw & Hpull). rewrite Hf in Hp. cbn in Hp.
  destruct (leaf_step t0 tag value rest D Hp) as (e & t1 & Hpe & Hsh & Hw1 & Hp1).
  destruct (drain_after t1 rest D Hp1) as (t2 & Hd & Hs2 & Hpr & Hw2).
  exists (item_of e), t2. split; [apply (next_from t e t1); try done; [now apply (stands_ok _ P)|now apply Hpull|now rewrite (sw_kind _ _ _ _ _ Hsh)]|].
  split; [exact (item_of_shows t t0 e _ D tag value _ Hp Hw Hsh)|]. split; [done|]. split; [done|].
  apply (same_window_trans _ t0); [done|]. now apply (same_window_trans _ t1).
Qed.

Lemma next_node_item t P tag kids rest D dg it0 : stands t P -> front P = (FNode tag kids rest, D) ->
  exists value it t2, forest_wire f kids = Some value /\
    tlv_tree_reader_next_diag m (Some t) (Some it0) dg = Some (TLV_OK, Some t2, Some it, dg) /\
    item_shows t D it tag value true /\ stands t2 (after_item (FNode tag kids rest) D) /\ t2.(tr_projection) = true /\ same_window t t2 /\
    lies t.(tr_input) kids (it.(it_offset) + it.(it_source).(s_value).(r_offset)) (it.(it_offset) + it.(it_source).(s_value).(r_offset) + zlen value).
Proof using Hdec DecodeLaws0 Hclass.
  intros Hs Hf. destruct (front_of t P Hs) as (t0 & Hp & Hw & Hpull). rewrite Hf in Hp. cbn in Hp.
  destruct (node_step t0 tag kids rest D Hp) as (value & e & t1 & Hk & Hpe & Hsh & Hw1 & Hlies & Hnext).
  assert (exists t2, drain_ends (with_projection true t1) = Some t2 /\ stands t2 (after_item (FNode tag kids rest) D) /\
    t2.(tr_projection) = true /\ same_window t1 t2) as (t2 & Hd & Hs2 & Hpr & Hw2).
  { destruct Hnext as [[-> He]|[Hne Hb]]; [exact (drain_ended _ _ _ He)|]. cbn [after_item]. destruct kids; [done|exact (drain_begun _ _ _ _ Hb)..]. }
  exists value, (item_of e), t2. split; [done|].
  split; [apply (next_from t e t1); try done; [now apply (stands_ok _ P)|now apply Hpull|now rewrite (sw_kind _ _ _ _ _ Hsh)]|].
  split; [exact (item_of_shows t t0 e _ D tag value _ Hp Hw Hsh)|]. split; [done|]. split; [done|]. split.
  - apply (same_window_trans _ t0); [done|]. now apply (same_window_trans _ t1).
  - cbn. rewrite (sw_offset _ _ _ _ _ Hsh). unfold same_window in Hw. rewrite Hw in Hlies. exact Hlies.
Qed.

(** The end of the traversal. *)
Lemma place_at_end t P : stands t P -> settled P ->
  tlv_tree_reader_at_end (Some t) = match P with InScope FNil _ => true | _ => false end.
Proof using.
  destruct P as [fo D|kids rest D]; cbn [stands settled]; intros Hs Hset.
  - pose proof (at_place_depth _ _ _ Hs) as Hd. pose proof Hs as [Ht Hpe Hf Hfin Hl Hst _ _].
    unfold tlv_tree_reader_at_end. unfold pending in Hpe. apply orb_false_iff in Hpe as [Hde He]. rewrite Hde, He, Hd. cbn [negb andb].
    destruct (decide (fo = FNil)) as [->|Hne].
    + destruct D; [|done]. destruct Hl as (w & [= <-] & _ & Hend & _). cbn in Hend. cbn [length Z.of_nat Z.eqb andb]. unfold tlv_reader_at_end.
      rewrite (proj2 (Z.eqb_neq _ _) Hfin). cbn [negb andb]. unfold limit in Hend. rewrite Hde, active_zero in Hend by (cbn in Hd; lia).
      unfold here, window_end in Hend. apply Z.eqb_eq. lia.
    + replace (match fo with FNil => true | _ => false end) with false by now destruct fo.
      destruct (place_stays t fo D no_event Hs Hne) as [_ Hlt]. destruct (Z.eqb_spec (zlen D) 0) as [Ez|]; [|done]. cbn [andb].
      unfold limit in Hlt. rewrite Hde, active_zero in Hlt by lia. unfold tlv_reader_at_end. unfold here, window_end in Hlt.
      rewrite (proj2 (Z.eqb_neq (rd_pos _) _)) by lia. apply andb_false_r.
  - destruct Hs as [_ Hde _ _ _ _ _ _ _]. cbn. now rewrite Hde.
Qed.

(** Skipping the children of the item. *)
Lemma skip_node t kids rest D : stands t (AtNode kids rest D) -> t.(tr_projection) = true ->
  exists t2, tlv_tree_reader_skip_subtree (Some t) = Some (TLV_OK, Some t2) /\ stands t2 (behind_element rest D) /\
    t2.(tr_projection) = true /\ same_window t t2.
Proof using. intros Hs Hpr. exact (begun_skip t kids rest D Hs Hpr). Qed.

(** ** Places to go *)

Definition place_size (P : place) : Z :=
  forest_size (fst (front P)) + stack_size (snd (front P)).

Lemma settle_size fo D : forest_size (fst (settle fo D)) + stack_size (snd (settle fo D)) = forest_size fo + stack_size D.
Proof using. revert fo. induction D as [|r D IH]; intros fo; destruct fo; cbn; try done; apply IH. Qed.

Lemma place_size_nonneg P : 0 <= place_size P.
Proof using. unfold place_size. pose proof (forest_size_nonneg (fst (front P))). pose proof (stack_size_nonneg (snd (front P))). lia. Qed.

Lemma after_size fo D : fo <> FNil -> place_size (after_item fo D) = forest_size fo + stack_size D - 1.
Proof using.
  unfold place_size. destruct fo as [|tag value rest|tag kids rest]; [done|intros _..].
  - cbn [after_item behind_element front fst snd]. rewrite settle_size. cbn [forest_size]. lia.
  - destruct kids; cbn [after_item behind_element front fst snd]; rewrite ?settle_size; cbn [forest_size stack_size]; lia.
Qed.

(** A cursor at the start of an encoded forest. *)
Lemma init_place fo w data t0 frames max_depth max_elements :
  forest_wire f fo = Some w -> classified p fo = true -> (data = NULL -> w = []) -> zlen w <= SIZE_MAX ->
  bytes_of m data (zlen w) = w -> forest_height fo <= zlen frames ->
  forest_height fo <= max_depth <= SIZE_MAX -> forest_size fo <= max_elements <= SIZE_MAX ->
  exists t, tlv_tree_reader_init (Some t0) data (zlen w) (Some f) (Some frames) (zlen frames) max_depth max_elements = (TLV_OK, Some t) /\
    stands t (InScope fo []) /\ t.(tr_input) = mk_reader (Some f) data (zlen w) 0 0 1.
Proof using Hdec.
  intros Hw Hcl Hd Hs Hb Hfr Hmd Hme. pose proof (forest_height_nonneg fo). pose proof (forest_size_nonneg fo).
  assert (tlv_format_can_read (Some f) = true) as Hcan by (cbn; now rewrite Hdec).
  destruct (tree_init_ok t0 data (zlen w) f (Some frames) (zlen frames) max_depth max_elements)
    as (t & Hinit & Ht & Ho & Hh & Hwin & Et); try done; try lia.
  { intros Hn. now rewrite (Hd Hn). }
  subst t. eexists. split; [exact Hinit|]. split; [|done]. split; try done.
  - exists w. split; [done|]. split; [|split; [change (0 + 0 + zlen w = 0 + zlen w); lia|done]]. unfold octets. cbn. now rewrite padd_0.
  - unfold depth_room. cbn. split; [lia|done].
  - cbn. lia.
Qed.
End Places.
