(* ===== verification/Visitor.v ===== *)
(** * Visitors over the Reader and the tree Reader (reader/visitor.h, src/reader/visitor.c)

    A visitor is a function of its context, a state it returns anew; the loops of the source run on
    fuel, and the theorems show that one unit per remaining element and one more is enough. *)

From S2P Require Import Prelude Mem Core Endian Format Diagnostic FieldFixed WireFormat Compose Formats Reader TreeReader TreeLaws TreeNodes.

Definition tlv_visitor_t (S : Type) : Type := S -> tlv_element_t -> tlv_visit_result_t * S.
Definition tlv_tree_visitor_t (S : Type) : Type :=
  S -> tlv_element_t -> Z -> Z -> tlv_visit_result_t * S.

(** The result is [rc] itself; this is the diagnostic it leaves. *)
Definition visitor_error (diagnostic : option tlv_reader_diagnostic_t) (rc : tlv_result_t)
  (has_offset : bool) (offset : Z) : option tlv_reader_diagnostic_t :=
  match diagnostic with
  | None => None
  | Some _ =>
      let d := cell zero_diagnostic
                 (tlv_diagnostic_init (Some zero_diagnostic) rc TLV_DIAGNOSTIC_SEVERITY_ERROR) in
      let d := if has_offset
               then cell d (tlv_diagnostic_set_location (Some d) TLV_LOCATION_INPUT TLV_LOCATION_POINT
                              offset offset)
               else d in
      Some (mk_reader_diagnostic d (zero_detail TLV_READER_OP_TAG))
  end.

Definition no_item : tlv_tree_item_t := mk_item empty_element no_source 0 0 false.

Section Visit.
Context `{Platform} {S : Type} (m : mem).

Fixpoint tree_visit_loop (fuel : nat) (visitor : option (tlv_tree_visitor_t S))
  (t : tlv_tree_reader_t) (context : S) (diagnostic : option tlv_reader_diagnostic_t)
  : option (tlv_result_t * tlv_tree_reader_t * S * option tlv_reader_diagnostic_t) :=
  match fuel with
  | O => None
  | Datatypes.S fuel =>
      if tlv_tree_reader_at_end (Some t) then Some (TLV_OK, t, context, diagnostic)
      else
        match tlv_tree_reader_next_diag m (Some t) (Some no_item) diagnostic with
        | None => None
        | Some (rc, reader, item, diagnostic) =>
            let t := cell t reader in
            let item := cell no_item item in
            if negb (is_ok rc) then
              Some (rc, t, context,
                    match diagnostic with
                    | Some d => if negb (rc_eqb d.(rdg_diagnostic).(dg_code) rc)
                                then visitor_error diagnostic rc false 0 else diagnostic
                    | None => None
                    end)
            else
              match visitor with
              | None => tree_visit_loop fuel visitor t context diagnostic
              | Some visit =>
                  let '(result, context) :=
                    visit context item.(it_element) item.(it_depth) item.(it_offset) in
                  match result with
                  | TLV_VISIT_STOP => Some (TLV_OK, t, context, diagnostic)
                  | TLV_VISIT_CONTINUE => tree_visit_loop fuel visitor t context diagnostic
                  | TLV_VISIT_ERROR =>
                      Some (TLV_ERR_VISITOR, t, context,
                            visitor_error diagnostic TLV_ERR_VISITOR true item.(it_offset))
                  | TLV_VISIT_OTHER _ =>
                      Some (TLV_ERR_CALLBACK, t, context,
                            visitor_error diagnostic TLV_ERR_CALLBACK true item.(it_offset))
                  end
              end
        end
  end.

Definition tlv_tree_reader_visit (fuel : nat) (reader : option tlv_tree_reader_t)
  (visitor : option (tlv_tree_visitor_t S)) (context : S) (diagnostic : option tlv_reader_diagnostic_t)
  : option (tlv_result_t * option tlv_tree_reader_t * S * option tlv_reader_diagnostic_t) :=
  let diagnostic := tlv_reader_diagnostic_init diagnostic in
  match reader with
  | None => Some (TLV_ERR_NULL_ARG, reader, context, visitor_error diagnostic TLV_ERR_NULL_ARG false 0)
  | Some t =>
      match tree_visit_loop fuel visitor t context diagnostic with
      | Some (rc, t, context, diagnostic) => Some (rc, Some t, context, diagnostic)
      | None => None
      end
  end.

Fixpoint reader_visit_loop (fuel : nat) (visit : tlv_visitor_t S) (r : tlv_reader_t) (context : S)
  (diagnostic : option tlv_reader_diagnostic_t)
  : option (tlv_result_t * tlv_reader_t * S * option tlv_reader_diagnostic_t) :=
  match fuel with
  | O => None
  | Datatypes.S fuel =>
      if tlv_reader_at_end (Some r) then Some (TLV_OK, r, context, diagnostic)
      else
        let offset := match diagnostic with Some _ => tlv_reader_offset (Some r) | None => 0 end in
        let '(rc, reader, element, diagnostic) :=
          tlv_reader_next_diag m (Some r) (Some empty_element) diagnostic in
        let r := cell r reader in
        if negb (is_ok rc) then Some (rc, r, context, diagnostic)
        else
          let '(result, context) := visit context (cell empty_element element) in
          match result with
          | TLV_VISIT_CONTINUE => reader_visit_loop fuel visit r context diagnostic
          | TLV_VISIT_STOP => Some (TLV_OK, r, context, diagnostic)
          | TLV_VISIT_ERROR =>
              Some (TLV_ERR_VISITOR, r, context, visitor_error diagnostic TLV_ERR_VISITOR true offset)
          | TLV_VISIT_OTHER _ =>
              Some (TLV_ERR_CALLBACK, r, context, visitor_error diagnostic TLV_ERR_CALLBACK true offset)
          end
  end.

Definition tlv_reader_visit_diag (fuel : nat) (reader : option tlv_reader_t)
  (visitor : option (tlv_visitor_t S)) (context : S) (diagnostic : option tlv_reader_diagnostic_t)
  : option (tlv_result_t * option tlv_reader_t * S * option tlv_reader_diagnostic_t) :=
  let diagnostic := tlv_reader_diagnostic_init diagnostic in
  match reader, visitor with
  | Some r, Some visit =>
      match reader_visit_loop fuel visit r context diagnostic with
      | Some (rc, r, context, diagnostic) => Some (rc, Some r, context, diagnostic)
      | None => None
      end
  | _, _ => Some (TLV_ERR_NULL_ARG, reader, context, visitor_error diagnostic TLV_ERR_NULL_ARG false 0)
  end.

Definition tlv_reader_visit (fuel : nat) (reader : option tlv_reader_t)
  (visitor : option (tlv_visitor_t S)) (context : S)
  : option (tlv_result_t * option tlv_reader_t * S) :=
  match tlv_reader_visit_diag fuel reader visitor context None with
  | Some (rc, reader, context, _) => Some (rc, reader, context)
  | None => None
  end.
End Visit.

(** ** Visiting an encoded forest *)

(** The nodes of a forest in preorder: depth, tag and value. *)
Fixpoint forest_nodes `{Platform} (f : tlv_format_t) `{!CodecLaws f} (depth : Z) (fo : forest)
  : list (Z * list Z * list Z) :=
  match fo with
  | FNil => []
  | FElement tag value rest => (depth, tag, value) :: forest_nodes f depth rest
  | FNode tag children rest =>
      (depth, tag, default [] (forest_wire f children)) ::
      forest_nodes f (depth + 1) children ++ forest_nodes f depth rest
  end.

(** What a visitor sees of a node, and a left fold that stops as the visitor says. *)
Definition node_visitor (S : Type) : Type := S -> Z -> list Z -> list Z -> tlv_visit_result_t * S.

Fixpoint fold_nodes {S} (step : node_visitor S) (s : S) (ns : list (Z * list Z * list Z))
  : tlv_result_t * S :=
  match ns with
  | [] => (TLV_OK, s)
  | (depth, tag, value) :: ns =>
      match step s depth tag value with
      | (TLV_VISIT_CONTINUE, s) => fold_nodes step s ns
      | (TLV_VISIT_STOP, s) => (TLV_OK, s)
      | (TLV_VISIT_ERROR, s) => (TLV_ERR_VISITOR, s)
      | (TLV_VISIT_OTHER _, s) => (TLV_ERR_CALLBACK, s)
      end
  end.

Definition node_view (m : mem) (e : tlv_tree_event_t) : Z * list Z * list Z :=
  (e.(ev_depth), tag_bytes m e.(ev_element).(e_tag), value_bytes m e.(ev_element).(e_value)).

Definition bytes_visitor {S} (m : mem) (step : node_visitor S) : tlv_tree_visitor_t S :=
  fun s el depth _ => step s depth (tag_bytes m el.(e_tag)) (value_bytes m el.(e_value)).

Lemma nodes_of_events `{Platform} f `{!CodecLaws f} m es fo : forall depth,
  map (view m) es = forest_events f depth fo -> map (node_view m) (nodes es) = forest_nodes f depth fo.
Proof.
  assert (forall e, view m e = (e.(ev_kind), e.(ev_depth), tag_bytes m e.(ev_element).(e_tag),
    value_bytes m e.(ev_element).(e_value))) as Hview by done.
  revert es. induction fo as [|tag value rest IH|tag children IHc rest IH]; intros es depth Hv; cbn in Hv.
  - apply map_eq_nil in Hv as ->. done.
  - destruct es as [|e es]; [done|]. cbn in Hv. rewrite Hview in Hv. injection Hv as Hk Hd Ht Hval Hv.
    unfold nodes. rewrite filter_cons, decide_True by (rewrite Hk; done). cbn. unfold node_view at 1.
    rewrite Hd, Ht, Hval. f_equal. now apply IH.
  - destruct es as [|e es]; [done|]. cbn in Hv. rewrite Hview in Hv. injection Hv as Hk Hd Ht Hval Hv.
    apply map_eq_app in Hv as (es1 & es2 & -> & H1 & H2). destruct es2 as [|e2 es2]; [done|].
    cbn in H2. rewrite Hview in H2. injection H2 as Hk2 _ _ _ H2.
    unfold nodes in *. rewrite filter_cons, decide_True by (rewrite Hk; done).
    rewrite list.filter_app, (filter_cons _ e2), decide_False by (rewrite Hk2; auto). cbn. unfold node_view at 1.
    rewrite Hd, Ht, Hval, map_app. f_equal. f_equal; [now apply IHc|now apply IH].
Qed.

(** What a visitor gets: a depth that is one, and a tag that is not NULL unless it is empty. *)
Definition visited (e : tlv_tree_event_t) : Prop :=
  0 <= e.(ev_depth) /\ 0 <= e.(ev_element).(e_tag).(t_size) /\
  negb (e.(ev_element).(e_tag).(t_size) =? 0) && is_null e.(ev_element).(e_tag).(t_data) = false.

(** The sequence that is read ends within the window. *)
Lemma limit_within `{Platform} t : tree_ok t -> limit t <= window_end t.
Proof.
  intros Ht. destruct (tr_end t) eqn:He; [|now apply limit_window]. unfold limit. destruct (tr_descend t) eqn:Hd.
  - pose proof (proj1 (tk_descend _ Ht Hd)). congruence.
  - pose proof (tk_nested _ Ht) as Hn. destruct (active t) as [|fr fs]; [done|]. destruct Hn as [? Hn]. apply nested_le in Hn. lia.
Qed.

Section VisitRun.
Context `{Platform} {S : Type} (m : mem) (f : tlv_format_t) (Hty : format_typed f None)
  (visit : tlv_tree_visitor_t S) (step : node_visitor S) (I : S -> Prop).

Lemma run_visited t es t' : cursor_ok f t -> tree_run m t es t' -> Forall visited (nodes es).
Proof using Hty.
  intros Ht Hr. induction Hr as [|t e t1 es t' Hp Hr IH]; [constructor|].
  pose proof (pull_ok m f Hty t e t1 Ht Hp) as [Ht1 _]. unfold nodes. rewrite filter_cons.
  case_decide as Hk; [|now apply IH]. constructor; [|now apply IH]. destruct Ht as [Htr Hf].
  pose proof (next_event_step m t f no_event None Htr Hf Hty) as Hs. unfold pull, tlv_tree_reader_next_event in Hp.
  destruct (tlv_tree_reader_next_event_diag m (Some t) (Some no_event) None) as [[[rc r] it] dg]. injection Hp as -> -> ->.
  destruct Hs as (t2 & _ & _ & _ & _ & [(_ & _ & e1 & [= <-] & _ & _ & [[? _]|[(d & Hd & ->) _]])|(Hrc & _)]); [done| |done].
  pose proof (open_nonneg t Htr). split; [done|]. cbn [ev_element]. split; [apply (ok_tag_size _ _ _ Hd)|].
  pose proof (ok_size _ _ _ Hd) as Hsize. pose proof (ok_tag _ _ _ Hd) as Htag. unfold tag_binding_valid in Htag.
  destruct (rd_data (tr_input t)) eqn:Edata.
  { exfalso. pose proof (rk_data _ (tk_input _ Htr) Edata) as Hz. pose proof (limit_within t Htr).
    pose proof (rk_pos _ (tk_input _ Htr)). unfold here, window_end in *. lia. }
  destruct (s_tag_binding (d_source d)); [|apply negb_true_iff in Htag; rewrite Htag; apply andb_false_r|done].
  destruct (r_present (s_tag (d_source d))).
  - apply andb_prop in Htag as [_ Htag]. apply ptr_eqb_true in Htag as ->. apply andb_false_r.
  - apply andb_prop in Htag as [Htag _]. now rewrite Htag.
Qed.

(** At the top, the first event is not an end. *)
Lemma run_drop_ends t es t' : cursor_ok f t -> tree_run m t es t' -> open t = 0 -> drop_ends es = es.
Proof using Hty.
  intros Ht Hrun Ho. destruct es as [|e es]; [done|]. cbn. rewrite bool_decide_false; [done|]. intros Hk.
  inversion Hrun as [|? ? t1 ? ? Hp _]; subst. destruct (pull_ok m f Hty t e t1 Ht Hp) as [_ Hnest].
  unfold nest in Hnest. rewrite Hk, Ho in Hnest. done.
Qed.

Hypothesis Hstep : forall e s, visited e -> I s ->
  visit s e.(ev_element) e.(ev_depth) e.(ev_offset) =
    step s e.(ev_depth) (tag_bytes m e.(ev_element).(e_tag)) (value_bytes m e.(ev_element).(e_value)) /\
  I (snd (visit s e.(ev_element) e.(ev_depth) e.(ev_offset))).

(** A visitor that sees only the octets of the elements folds over the nodes. *)
Lemma visit_run n : forall es t t' s fuel,
  (length es <= n)%nat -> cursor_ok f t -> tree_run m t es t' -> tlv_tree_reader_at_end (Some t') = true ->
  drop_ends es = es -> (length (nodes es) < fuel)%nat -> I s -> Forall visited (nodes es) ->
  exists t1, tree_visit_loop m fuel (Some visit) t s None =
    Some (fst (fold_nodes step s (map (node_view m) (nodes es))), t1,
          snd (fold_nodes step s (map (node_view m) (nodes es))), None).
Proof using Hty Hstep.
  induction n as [|n IH]; intros es t t' s fuel Hlen Ht Hrun Hend Hdrop Hfuel HI Hvis;
    (destruct fuel as [|fuel]; [lia|]); cbn [tree_visit_loop].
  - destruct es; [|cbn in Hlen; lia]. inversion Hrun; subst. rewrite Hend. exists t'. done.
  - destruct es as [|e es]; [inversion Hrun; subst; rewrite Hend; exists t'; done|].
    destruct (tlv_tree_reader_at_end (Some t)) eqn:Et.
    { inversion Hrun as [|? ? ? ? ? Hp _]; subst. unfold pull in Hp.
      rewrite (pull_at_end m t (proj1 Ht) Et) in Hp. done. }
    pose proof (next_run m f Hty t (e :: es) t' no_item Ht Hrun Hend) as Hn. rewrite Hdrop in Hn.
    destruct Hn as (t2 & t3 & -> & Ht2 & Hr2 & Hend2). rewrite is_ok_OK. cbn [cell negb].
    rewrite nodes_drop, Hdrop in Hvis, Hfuel |- *. apply list.Forall_cons_1 in Hvis as [He Hvis].
    cbn [map fold_nodes length] in *. unfold node_view at 1 3. cbn [it_element it_depth it_offset item_of].
    destruct (Hstep e s He HI) as [Es HI']. rewrite Es in *.
    destruct (step s _ _ _) as [[| | |k] s'] eqn:Es'; try (eexists; reflexivity).
    rewrite <- (nodes_drop_ends es) in *. apply (IH (drop_ends es) t2 t3 s' fuel); try done.
    + pose proof (drop_ends_length es). cbn in Hlen. lia.
    + apply drop_ends_idemp.
    + lia.
Qed.
End VisitRun.

Lemma forest_nodes_length `{Platform} f `{!CodecLaws f} fo : forall depth,
  zlen (forest_nodes f depth fo) = forest_size fo.
Proof.
  induction fo as [|tag value rest IH|tag children IHc rest IH]; intros depth; cbn [forest_nodes forest_size length].
  - done.
  - specialize (IH depth). lia.
  - rewrite length_app. specialize (IHc (depth + 1)). specialize (IH depth). lia.
Qed.

(** A result that is one of the three that a visitor may give. *)
Definition known_result (result : tlv_visit_result_t) : Prop :=
  match result with TLV_VISIT_OTHER _ => False | _ => True end.

(** C33. Visiting the encoding of a forest with a visitor that gives only the three results there are names for
    is folding the visitor over the nodes of the forest in preorder, until it stops or fails; then the result says which.  A round of the loop per node and
    one more are enough, so the visit returns. *)
Theorem tree_visit_folds `{Platform} {S : Type} (f : tlv_format_t) (decode : tlv_decode_fn)
  (Hdec : f.(f_decode) = Some decode) (Hlaws : DecodeLaws decode) (Hcodec : CodecLaws f)
  (p : list Z -> bool) (m : mem)
  (Hclass : forall tag, tag_ok tag -> is_constructed (Some f) m tag = p (tag_bytes m tag))
  (fo : forest) (w : list Z) (data : ptr) (t0 : tlv_tree_reader_t) (frames : list tlv_tree_frame_t)
  (max_depth max_elements : Z) (step : node_visitor S) (s : S)
  (Hknown : forall s depth tag value, known_result (fst (step s depth tag value)))
  (Hw : forest_wire f fo = Some w) (Hcl : classified p fo = true) (Hd : data <> NULL)
  (Hs : zlen w <= SIZE_MAX) (Hb : bytes_of m data (zlen w) = w) (Hfr : forest_height fo <= zlen frames)
  (Hmd : forest_height fo <= max_depth <= SIZE_MAX) (Hme : forest_size fo <= max_elements <= SIZE_MAX) :
  exists t t', tlv_tree_reader_init (Some t0) data (zlen w) (Some f) (Some frames) (zlen frames)
      max_depth max_elements = (TLV_OK, Some t) /\
    tlv_tree_reader_visit m (Datatypes.S (Z.to_nat (forest_size fo))) (Some t) (Some (bytes_visitor m step)) s None =
    Some (fst (fold_nodes step s (forest_nodes f 0 fo)), Some t', snd (fold_nodes step s (forest_nodes f 0 fo)), None).
Proof.
  destruct (run_whole f decode Hdec Hlaws Hcodec p m Hclass fo w data t0 frames max_depth max_elements
    Hw Hcl Hd Hs Hb Hfr Hmd Hme) as (t & es & t' & Hinit & Ht & Ho & Hrun & Hok & Hend & Hv & Hf).
  assert (format_typed f None) as Hty.
  { intros dd E. rewrite Hdec in E. injection E as <-. split; [apply dl_typed|done]. }
  pose proof (nodes_of_events f m es fo 0 Hv) as Hn.
  pose proof (run_drop_ends m f Hty t es t' (conj Ht Hf) Hrun Ho) as Hdrop.
  destruct (visit_run m f Hty (bytes_visitor m step) step (fun _ => True) ltac:(done) (length es) es t t' s
    (Datatypes.S (Z.to_nat (forest_size fo)))) as (t1 & Hvis); try done.
  { rewrite <- (length_map (node_view m)), Hn. pose proof (forest_nodes_length f fo 0). lia. }
  { now apply (run_visited m f Hty t es t'). }
  exists t, t1. split; [done|]. unfold tlv_tree_reader_visit. cbn [tlv_reader_diagnostic_init].
  rewrite Hvis, Hn. done.
Qed.

(** Sums the depths of the nodes and stops at the tag 34. *)
Definition example_visitor : node_visitor Z := fun s depth tag _ =>
  (if bool_decide (tag = [34]) then TLV_VISIT_STOP else TLV_VISIT_CONTINUE, s + 1 + depth).

Lemma example_visitor_known s depth tag value : known_result (fst (example_visitor s depth tag value)).
Proof. unfold example_visitor. now case_bool_decide. Qed.

Lemma tree_visit_folds_witness :
  let m := mem_of 1 [33; 5; 1; 1; 7; 34; 0; 2; 0] in
  exists t t', tlv_tree_reader_init (Some nested_rest_tree) (Ptr 1 0) 9 (Some tree_example_format)
      (Some [no_frame]) 1 3 4 = (TLV_OK, Some t) /\
    @tlv_tree_reader_visit LP64 Z m 5 (Some t) (Some (bytes_visitor m example_visitor)) 0 None =
      Some (TLV_OK, Some t', 5, None).
Proof.
  intros m.
  exact (tree_visit_folds (H := LP64) tree_example_format _ eq_refl tree_example_laws tree_example_codec
    tree_example_class m (tree_example_classes m) tree_example_forest [33; 5; 1; 1; 7; 34; 0; 2; 0] (Ptr 1 0)
    nested_rest_tree [no_frame] 3 4 example_visitor 0 example_visitor_known eq_refl eq_refl ltac:(discriminate) ltac:(vm_compute; congruence)
    ltac:(vm_compute; reflexivity) ltac:(vm_compute; congruence) ltac:(split; vm_compute; congruence)
    ltac:(split; vm_compute; congruence)).
Defined.
