(* ===== verification/QueryPath.v ===== *)
(** * Path queries (query/query.c, query/match_internal.h, tlv/query/query.h)

    A query is the tags on the way from the top to the elements it addresses.  The opaque octets of a query hold the
    octets of its tags, where each ends and how many there are: a record here.  Text is octets in memory. *)

From S2P Require Import Prelude Mem Core Diagnostic Format Reader TreeReader Visitor.

Definition TLV_QUERY_MAX_STEPS : Z := 65.
Definition TLV_QUERY_MAX_BYTES : Z := 512.

Record tlv_query_t := mk_query { q_bytes : list Z; q_ends : list Z; q_count : Z }.
Definition zero_query : tlv_query_t := mk_query (replicate 512 0) (replicate 65 0) 0.
Definition end_at (data : tlv_query_t) (i : Z) : Z := byte_at data.(q_ends) i.

Record tlv_query_matcher_t := mk_matcher { mt_query : option tlv_query_t; mt_matched : Z }.

(** ** Tags *)

Definition query_hex (c : Z) : Z :=
  if (48 <=? c) && (c <=? 57) then c - 48
  else if (97 <=? c) && (c <=? 102) then c - 97 + 10
  else if (65 <=? c) && (c <=? 70) then c - 65 + 10
  else -1.

Definition hex_digit (c : Z) : Z := query_hex c.

Fixpoint tag_test_loop (n : nat) (m : mem) (tag : tlv_tag_t) (pattern : list Z) (encoded : bool) (i : Z) : bool :=
  match n with
  | O => true
  | S n =>
      let next := tag_test_loop n m tag pattern encoded (i + 1) in
      if encoded then
        let c0 := byte_at pattern (2 * i) in let c1 := byte_at pattern (2 * i + 1) in
        if (c0 =? 63) && (c1 =? 63) then next
        else
          let high := query_hex c0 in let low := query_hex c1 in
          if (high <? 0) || (low <? 0) then false
          else if negb (ld m tag.(t_data) i =? high * 16 + low) then false else next
      else if negb (ld m tag.(t_data) i =? byte_at pattern i) then false else next
  end.

(** [pattern] has the octets at the pointer of the source. *)
Definition query_tag_test (m : mem) (tag : tlv_tag_t) (pattern : list Z) (size : Z) (encoded : bool) : bool :=
  if encoded && (size =? 1) && (byte_at pattern 0 =? 42) then true
  else
    let width := if encoded then size / 2 else size in
    if (encoded && negb (size mod 2 =? 0)) || negb (width =? tag.(t_size)) ||
       (negb (tag.(t_size) =? 0) && is_null tag.(t_data)) then false
    else tag_test_loop (Z.to_nat width) m tag pattern encoded 0.

(** ** Text *)

Definition path_error (diagnostic : option tlv_diagnostic_t) (code : tlv_result_t) (b e : Z)
  : tlv_result_t * option tlv_diagnostic_t :=
  (code, match diagnostic with
         | None => None
         | Some _ =>
             tlv_diagnostic_set_location (tlv_diagnostic_init diagnostic code TLV_DIAGNOSTIC_SEVERITY_ERROR)
               TLV_LOCATION_EXPRESSION TLV_LOCATION_SPAN b e
         end).

(** The end of the digits at [pos], or the character that is none. *)
Fixpoint digits_end (n : nat) (m : mem) (text : ptr) (size pos : Z) : Z + Z :=
  match n with
  | O => inr pos
  | S n =>
      if (pos <? size) && negb (ld m text pos =? 47) then
        if hex_digit (ld m text pos) <? 0 then inl pos else digits_end n m text size (pos + 1)
      else inr pos
  end.

Fixpoint decode_digits (n : nat) (m : mem) (text : ptr) (start used i : Z) (bytes : list Z) : list Z :=
  match n with
  | O => bytes
  | S n =>
      let byte := u8 (Z.lor (Z.shiftl (hex_digit (ld m text (start + 2 * i))) 4) (hex_digit (ld m text (start + 2 * i + 1)))) in
      decode_digits n m text start used (i + 1) (<[Z.to_nat (used + i) := byte]> bytes)
  end.

(** [None] is a lack of fuel; a tag is read in each round. *)
Fixpoint parse_loop (fuel : nat) (m : mem) (text : ptr) (size pos used : Z) (parsed : tlv_query_t)
  (diagnostic : option tlv_diagnostic_t) : option (tlv_query_t + tlv_result_t * option tlv_diagnostic_t) :=
  match fuel with
  | O => None
  | S fuel =>
      let start := pos in
      match digits_end (Z.to_nat (size - pos)) m text size pos with
      | inl pos => Some (inr (path_error diagnostic TLV_ERR_SYNTAX pos (pos + 1)))
      | inr pos =>
          let digits := pos - start in
          if (digits =? 0) || negb (digits mod 2 =? 0) then Some (inr (path_error diagnostic TLV_ERR_SYNTAX start pos))
          else if parsed.(q_count) =? TLV_QUERY_MAX_STEPS then Some (inr (path_error diagnostic TLV_ERR_LIMIT start pos))
          else if TLV_QUERY_MAX_BYTES - used <? digits / 2 then Some (inr (path_error diagnostic TLV_ERR_LIMIT start pos))
          else
            let bytes := decode_digits (Z.to_nat (digits / 2)) m text start used 0 parsed.(q_bytes) in
            let used := used + digits / 2 in
            let parsed := mk_query bytes (<[Z.to_nat parsed.(q_count) := u16 used]> parsed.(q_ends)) (u16 (parsed.(q_count) + 1)) in
            if pos =? size then Some (inl parsed)
            else parse_loop fuel m text size (pos + 1) used parsed diagnostic
      end
  end.

Definition tlv_query_parse_n (m : mem) (text : ptr) (size : Z) (query : option tlv_query_t)
  (diagnostic : option tlv_diagnostic_t) : option (tlv_result_t * option tlv_query_t * option tlv_diagnostic_t) :=
  match query with
  | None => Some (TLV_ERR_NULL_ARG, query, diagnostic)
  | Some _ =>
      if is_null text then Some (TLV_ERR_NULL_ARG, query, diagnostic)
      else
        match parse_loop (S (Z.to_nat size)) m text size 0 0 zero_query diagnostic with
        | None => None
        | Some (inl parsed) => Some (TLV_OK, Some parsed, diagnostic)
        | Some (inr (rc, diagnostic)) => Some (rc, query, diagnostic)
        end
  end.

(** The first octet 0 among [n]; [None] if there is none. *)
Fixpoint strlen (n : nat) (m : mem) (text : ptr) (i : Z) : option Z :=
  match n with
  | O => None
  | S n => if ld m text i =? 0 then Some i else strlen n m text (i + 1)
  end.

(** The text ends within [room] octets. *)
Definition tlv_query_parse (room : nat) (m : mem) (text : ptr) (query : option tlv_query_t)
  (diagnostic : option tlv_diagnostic_t) : option (tlv_result_t * option tlv_query_t * option tlv_diagnostic_t) :=
  match query with
  | None => Some (TLV_ERR_NULL_ARG, query, diagnostic)
  | Some _ =>
      if is_null text then Some (TLV_ERR_NULL_ARG, query, diagnostic)
      else match strlen room m text 0 with
           | Some size => tlv_query_parse_n m text size query diagnostic
           | None => None
           end
  end.

(** ** The tags of a query *)

Fixpoint ends_valid (n : nat) (data : tlv_query_t) (i b : Z) : bool :=
  match n with
  | O => true
  | S n =>
      if (end_at data i <=? b) || (TLV_QUERY_MAX_BYTES <? end_at data i) then false
      else ends_valid n data (i + 1) (end_at data i)
  end.

Definition valid_query (data : tlv_query_t) : bool :=
  if (data.(q_count) =? 0) || (TLV_QUERY_MAX_STEPS <? data.(q_count)) then false
  else ends_valid (Z.to_nat data.(q_count)) data 0 0.

Definition tlv_query_count (query : option tlv_query_t) : Z :=
  match query with
  | None => 0
  | Some data => if valid_query data then data.(q_count) else 0
  end.

(** [opaque] is the address of the query. *)
Definition tlv_query_step (query : option tlv_query_t) (opaque : ptr) (index : Z) : tlv_tag_t :=
  match query with
  | None => tlv_tag NULL 0
  | Some data =>
      if negb (valid_query data) || (data.(q_count) <=? index) then tlv_tag NULL 0
      else
        let b := if index =? 0 then 0 else end_at data (index - 1) in
        tlv_tag (opaque +p b) (end_at data index - b)
  end.

Fixpoint format_tag (n : nat) (m : mem) (output : ptr) (data : tlv_query_t) (i pos : Z) : mem * Z :=
  match n with
  | O => (m, pos)
  | S n =>
      let m := st m output pos (hex (Z.shiftr (byte_at data.(q_bytes) i) 4)) in
      let m := st m output (pos + 1) (hex (Z.land (byte_at data.(q_bytes) i) 15)) in
      format_tag n m output data (i + 1) (pos + 2)
  end.

Fixpoint format_steps (n : nat) (m : mem) (output : ptr) (data : tlv_query_t) (step pos b : Z) : mem * Z :=
  match n with
  | O => (m, pos)
  | S n =>
      let '(m, pos) := if negb (step =? 0) then (st m output pos 47, pos + 1) else (m, pos) in
      let e := end_at data step in
      let '(m, pos) := format_tag (Z.to_nat (e - b)) m output data b pos in
      format_steps n m output data (step + 1) pos e
  end.

Definition tlv_query_format (m : mem) (query : option tlv_query_t) (output : ptr) (capacity : Z) (required : option Z)
  : tlv_result_t * mem * option Z :=
  match query, required with
  | Some data, Some _ =>
      if is_null output && negb (capacity =? 0) then (TLV_ERR_NULL_ARG, m, required)
      else if negb (valid_query data) then (TLV_ERR_INVALID_ARG, m, required)
      else
        let length := 2 * end_at data (data.(q_count) - 1) + data.(q_count) - 1 in
        let required := Some (length + 1) in
        if is_null output then (TLV_OK, m, required)
        else if capacity <=? length then (TLV_ERR_BUFFER_TOO_SHORT, m, required)
        else
          let '(m, pos) := format_steps (Z.to_nat data.(q_count)) m output data 0 0 0 in
          (TLV_OK, st m output pos 0, required)
  | _, _ => (TLV_ERR_NULL_ARG, m, required)
  end.

(** ** Matching *)

Definition tlv_query_matcher_init (matcher : option tlv_query_matcher_t) (query : option tlv_query_t)
  : tlv_result_t * option tlv_query_matcher_t :=
  match matcher, query with
  | Some _, Some data =>
      if (data.(q_count) =? 0) || (TLV_QUERY_MAX_STEPS <? data.(q_count)) then (TLV_ERR_INVALID_ARG, matcher)
      else if negb (valid_query data) then (TLV_ERR_INVALID_TAG_SIZE, matcher)
      else (TLV_OK, Some (mk_matcher query 0))
  | _, _ => (TLV_ERR_NULL_ARG, matcher)
  end.

Definition tlv_query_matcher_rebind (matcher : option tlv_query_matcher_t) (query : option tlv_query_t)
  : tlv_result_t * option tlv_query_matcher_t :=
  match matcher, query with
  | Some state, Some replacement =>
      match state.(mt_query) with
      | None => (TLV_ERR_INVALID_STATE, matcher)
      | Some old =>
          let count := Z.to_nat old.(q_count) in
          if negb (valid_query old) || negb (valid_query replacement) || negb (old.(q_count) =? replacement.(q_count)) ||
             negb (lex (take count old.(q_ends)) (take count replacement.(q_ends)) =? 0) ||
             negb (lex (take (Z.to_nat (end_at old (old.(q_count) - 1))) old.(q_bytes))
                       (take (Z.to_nat (end_at old (old.(q_count) - 1))) replacement.(q_bytes)) =? 0) then
            (TLV_ERR_INVALID_ARG, matcher)
          else (TLV_OK, Some (mk_matcher query state.(mt_matched)))
      end
  | _, _ => (TLV_ERR_NULL_ARG, matcher)
  end.

Definition tlv_query_matcher_visit (m : mem) (matcher : option tlv_query_matcher_t) (tag : option tlv_tag_t) (depth : Z)
  : bool * option tlv_query_matcher_t :=
  match matcher, tag with
  | Some state, Some tag =>
      if negb (tag.(t_size) =? 0) && is_null tag.(t_data) then (false, matcher)
      else
        match state.(mt_query) with
        | None => (false, matcher)
        | Some query =>
            let count := query.(q_count) in
            if (count =? 0) || (TLV_QUERY_MAX_STEPS <? count) || (count <? state.(mt_matched)) ||
               (state.(mt_matched) <? depth) then (false, matcher)
            else if depth <? count then
              let b := if depth =? 0 then 0 else end_at query (depth - 1) in
              let e := end_at query depth in
              if (e <=? b) || (TLV_QUERY_MAX_BYTES <? e) then (false, matcher)
              else if query_tag_test m tag (drop (Z.to_nat b) query.(q_bytes)) (e - b) false then
                (depth + 1 =? count, Some (mk_matcher state.(mt_query) (depth + 1)))
              else (false, Some (mk_matcher state.(mt_query) depth))
            else (false, Some (mk_matcher state.(mt_query) depth))
        end
  | _, _ => (false, matcher)
  end.

Section Visit.
Context `{Platform} {A : Type} (m : mem).

(** The context of the visitor is the matcher and the context of the caller's. *)
Definition on_element (visitor : tlv_tree_visitor_t A) : tlv_tree_visitor_t (tlv_query_matcher_t * A) :=
  fun state element depth offset =>
    let '(matcher, context) := state in
    let '(match_, matcher') := tlv_query_matcher_visit m (Some matcher) (Some element.(e_tag)) depth in
    let matcher := cell matcher matcher' in
    if negb match_ then (TLV_VISIT_CONTINUE, (matcher, context))
    else
      let '(result, context) := visitor context element depth offset in
      (result, (matcher, context)).

Definition tlv_query_visit (fuel : nat) (reader : option tlv_tree_reader_t) (matcher : option tlv_query_matcher_t)
  (visitor : option (tlv_tree_visitor_t A)) (context : A) (diagnostic : option tlv_reader_diagnostic_t)
  : option (tlv_result_t * option tlv_tree_reader_t * option tlv_query_matcher_t * A * option tlv_reader_diagnostic_t) :=
  match reader, matcher, visitor with
  | Some _, Some state, Some visit =>
      match state.(mt_query) with
      | None => Some (TLV_ERR_NULL_ARG, reader, matcher, context, diagnostic)
      | Some _ =>
          match tlv_tree_reader_visit m fuel reader (Some (on_element visit)) (state, context) diagnostic with
          | None => None
          | Some (rc, reader, (matcher, context), diagnostic) => Some (rc, reader, Some matcher, context, diagnostic)
          end
      end
  | _, _, _ => Some (TLV_ERR_NULL_ARG, reader, matcher, context, diagnostic)
  end.

(** [reader], [matcher] and the frames are the locals of the function, not initialized. *)
Definition tlv_query_visit_buffer (fuel : nat) (reader : tlv_tree_reader_t) (matcher : tlv_query_matcher_t)
  (frames : list tlv_tree_frame_t) (data : ptr) (size : Z) (format : option tlv_format_t) (query : option tlv_query_t)
  (max_depth max_elements : Z) (visitor : option (tlv_tree_visitor_t A)) (context : A)
  (diagnostic : option tlv_reader_diagnostic_t) : option (tlv_result_t * A * option tlv_reader_diagnostic_t) :=
  match visitor with
  | None => Some (TLV_ERR_NULL_ARG, context, diagnostic)
  | Some _ =>
      let '(rc, matcher) := tlv_query_matcher_init (Some matcher) query in
      if negb (is_ok rc) then Some (rc, context, diagnostic)
      else
        let '(rc, reader) := tlv_tree_reader_init (Some reader) data size format (Some frames) TLV_QUERY_MAX_STEPS
                               max_depth max_elements in
        if negb (is_ok rc) then
          Some (rc, context,
                match tlv_reader_diagnostic_init diagnostic with
                | Some d => Some (mk_reader_diagnostic (mk_diagnostic rc d.(rdg_diagnostic).(dg_severity)
                    d.(rdg_diagnostic).(dg_location) d.(rdg_diagnostic).(dg_expected) d.(rdg_diagnostic).(dg_actual)
                    d.(rdg_diagnostic).(dg_contexts) d.(rdg_diagnostic).(dg_has_path) d.(rdg_diagnostic).(dg_path)) d.(rdg_detail))
                | None => None
                end)
        else
          match tlv_query_visit fuel reader matcher visitor context diagnostic with
          | None => None
          | Some (rc, _, _, context, diagnostic) => Some (rc, context, diagnostic)
          end
  end.
End Visit.
