(* ===== verification/QueryPathLaws.v ===== *)
(** * Path queries: the text, the elements addressed, and visits

    The parser accepts exactly the texts of the grammar within the limits, the formatter writes one that reads back,
    and a visit calls the visitor for the elements at the path and for no others. *)

From S2P Require Import Prelude Mem Core Format WireFormat Diagnostic Reader TreeReader TreeLaws TreeNodes Visitor QueryPath.

(** ** The grammar *)

Fixpoint tag_of_text (l : list Z) : option (list Z) :=
  match l with
  | [] => Some []
  | h :: lo :: l =>
      if (query_hex h <? 0) || (query_hex lo <? 0) then None
      else match tag_of_text l with Some tag => Some (query_hex h * 16 + query_hex lo :: tag) | None => None end
  | [_] => None
  end.

(** Digits of tags that are not empty, with a slash between two tags. *)
Inductive path_text : list (list Z) -> list Z -> Prop :=
| path_last l tag : tag_of_text l = Some tag -> tag <> [] -> path_text [tag] l
| path_more l tag path rest : tag_of_text l = Some tag -> tag <> [] -> path_text path rest ->
    path_text (tag :: path) (l ++ 47 :: rest).

(** The limits of the storage. *)
Definition path_fits (path : list (list Z)) : bool :=
  (zlen path <=? TLV_QUERY_MAX_STEPS) && (zlen (concat path) <=? TLV_QUERY_MAX_BYTES).

Fixpoint path_ends (b : Z) (path : list (list Z)) : list Z :=
  match path with
  | [] => []
  | tag :: path => b + zlen tag :: path_ends (b + zlen tag) path
  end.

(** [l] with zeros behind it, up to [n]. *)
Definition fill (n : nat) (l : list Z) : list Z := l ++ replicate (n - length l) 0.

Definition query_of (path : list (list Z)) : tlv_query_t :=
  mk_query (fill 512 (concat path)) (fill 65 (path_ends 0 path)) (zlen path).

Lemma query_hex_range c : -1 <= query_hex c < 16.
Proof.
  unfold query_hex.
  destruct (Z.leb_spec 48 c), (Z.leb_spec c 57), (Z.leb_spec 97 c), (Z.leb_spec c 102), (Z.leb_spec 65 c), (Z.leb_spec c 70);
    cbn [andb]; lia.
Qed.

Lemma query_hex_slash : query_hex 47 = -1.
Proof. reflexivity. Qed.

Lemma tag_of_text_hex l : forall tag, tag_of_text l = Some tag -> Forall (fun c => 0 <= query_hex c) l /\ zlen l = 2 * zlen tag /\ bytes tag.
Proof.
  assert (forall n l tag, (length l <= n)%nat -> tag_of_text l = Some tag ->
    Forall (fun c => 0 <= query_hex c) l /\ zlen l = 2 * zlen tag /\ bytes tag) as Hn; [|intros tag; now apply (Hn (length l))].
  clear. induction n as [|n IH]; intros [|h [|lo l]] tag Hl; cbn [length] in Hl; try lia; cbn [tag_of_text]; try done;
    try (intros [= <-]; split; [constructor|split; [done|constructor]]).
  destruct (Z.ltb_spec (query_hex h) 0); [done|]. destruct (Z.ltb_spec (query_hex lo) 0); [done|]. cbn [orb].
  destruct (tag_of_text l) as [tag'|] eqn:E; [|done]. intros [= <-]. apply IH in E as (Hf & Hlen & Hb); [|lia].
  pose proof (query_hex_range h). pose proof (query_hex_range lo).
  split; [repeat constructor; done|]. split; [cbn [length]; lia|]. constructor; [unfold is_byte; lia|done].
Qed.

(** The digits at the start, and what is behind them. *)
Fixpoint span_hex (l : list Z) : list Z * list Z :=
  match l with
  | [] => ([], [])
  | c :: r => if query_hex c <? 0 then ([], l) else let '(a, b) := span_hex r in (c :: a, b)
  end.

Lemma span_hex_app l r : Forall (fun c => 0 <= query_hex c) l -> (forall c r', r = c :: r' -> query_hex c < 0) ->
  span_hex (l ++ r) = (l, r).
Proof.
  intros Hl Hr. induction Hl as [|c l Hc Hl IH]; cbn [app span_hex].
  - destruct r as [|c r]; [done|]. cbn [span_hex]. now rewrite (proj2 (Z.ltb_lt _ _) (Hr c r eq_refl)).
  - now rewrite (proj2 (Z.ltb_ge _ _) Hc), IH.
Qed.

Lemma span_hex_spec l a b : span_hex l = (a, b) -> l = a ++ b /\ Forall (fun c => 0 <= query_hex c) a.
Proof.
  revert a b. induction l as [|c l IH]; intros a b; cbn [span_hex]; [intros [= <- <-]; split; [done|constructor]|].
  destruct (Z.ltb_spec (query_hex c) 0); [intros [= <- <-]; split; [done|constructor]|].
  destruct (span_hex l) as [a' b'] eqn:E. intros [= <- <-]. destruct (IH _ _ eq_refl) as [-> Hf]. split; [done|now constructor].
Qed.

(** A path starts with the digits of its first tag. *)
Lemma path_text_span path l : path_text path l -> exists tag digits r path',
  path = tag :: path' /\ tag <> [] /\ tag_of_text digits = Some tag /\ span_hex l = (digits, r) /\
  ((path' = [] /\ r = []) \/ (exists r', r = 47 :: r' /\ path_text path' r')).
Proof.
  destruct 1 as [l tag Ht Hne|l tag path rest Ht Hne Hp]; pose proof (tag_of_text_hex l tag Ht) as (Hf & _).
  - exists tag, l, [], []. split; [done|]. split; [done|]. split; [done|]. split; [|now left].
    rewrite <- (app_nil_r l) at 1. now apply span_hex_app.
  - exists tag, l, (47 :: rest), path. split; [done|]. split; [done|]. split; [done|]. split; [|eauto].
    apply span_hex_app; [done|]. intros c r' [= <- <-]. rewrite query_hex_slash. lia.
Qed.

Lemma path_text_inj p q l : path_text p l -> path_text q l -> p = q.
Proof.
  intros Hp. revert q. induction Hp as [l tag Ht Hne|l tag path rest Ht Hne Hp IH]; intros q Hq.
  - pose proof (path_text_span _ _ (path_last l tag Ht Hne)) as (t1 & d1 & r1 & p1 & [= <- <-] & _ & H1 & Hs1 & Hc1).
    apply path_text_span in Hq as (t2 & d2 & r2 & p2 & -> & _ & H2 & Hs2 & Hc2). rewrite Hs2 in Hs1. injection Hs1 as -> ->.
    rewrite H1 in H2. injection H2 as <-. destruct Hc1 as [[_ ->]|(r' & _ & Hp)]; [|inversion Hp].
    destruct Hc2 as [[-> _]|(r' & ? & _)]; [done|done].
  - pose proof (path_text_span _ _ (path_more l tag path rest Ht Hne Hp)) as (t1 & d1 & r1 & p1 & [= <- <-] & _ & H1 & Hs1 & Hc1).
    apply path_text_span in Hq as (t2 & d2 & r2 & p2 & -> & _ & H2 & Hs2 & Hc2). rewrite Hs2 in Hs1. injection Hs1 as -> ->.
    pose proof (tag_of_text_hex l tag Ht) as (Hf & _).
    rewrite (span_hex_app l (47 :: rest) Hf) in Hs2 by (intros c r' [= <- <-]; rewrite query_hex_slash; lia).
    injection Hs2 as <- <-. rewrite H1 in H2. injection H2 as <-.
    destruct Hc2 as [[_ ?]|(r' & [= <-] & Hp2)]; [done|]. f_equal. now apply IH.
Qed.

Lemma path_text_nonempty path l : path_text path l -> path <> [] /\ Forall (fun tag => tag <> [] /\ bytes tag) path.
Proof.
  induction 1 as [l tag Ht Hne|l tag path rest Ht Hne Hp [_ IH]]; (split; [done|]).
  - constructor; [|constructor]. pose proof (tag_of_text_hex l tag Ht) as (_ & _ & Hb). done.
  - constructor; [|done]. pose proof (tag_of_text_hex l tag Ht) as (_ & _ & Hb). done.
Qed.

(** ** Parsing *)

Lemma fill_insert n l x : (length l < n)%nat -> <[length l := x]> (fill n l) = fill n (l ++ [x]).
Proof.
  intros Hl. unfold fill. rewrite insert_app_r_alt, Nat.sub_diag, length_app by lia. cbn [length].
  replace (n - length l)%nat with (S (n - (length l + 1))) by lia. cbn [replicate]. now rewrite <- app_assoc.
Qed.

Lemma length_fill n l : (length l <= n)%nat -> length (fill n l) = n.
Proof. intros. unfold fill. rewrite length_app, length_replicate. lia. Qed.

Lemma path_ends_app b p q : path_ends b (p ++ q) = path_ends b p ++ path_ends (b + zlen (concat p)) q.
Proof.
  revert b. induction p as [|t p IH]; intros b; cbn [app path_ends concat length]; [now rewrite Z.add_0_r|].
  rewrite IH, length_app. do 3 f_equal. lia.
Qed.

Lemma length_path_ends b p : length (path_ends b p) = length p.
Proof. revert b. induction p as [|t p IH]; intros b; cbn [path_ends length]; [done|now rewrite IH]. Qed.

Section Parse.
Context (m : mem) (text : ptr) (size : Z) (Hs : 0 <= size).

Definition rest (pos : Z) : list Z := bytes_of m (text +p pos) (size - pos).

Lemma rest_cons pos : 0 <= pos < size -> rest pos = ld m text pos :: rest (pos + 1).
Proof using.
  intros. unfold rest. replace (size - pos) with (1 + (size - (pos + 1))) by lia. rewrite bytes_of_cons by lia.
  now rewrite ld_padd, Z.add_0_r, padd_padd.
Qed.

Lemma rest_end : rest size = [].
Proof using. unfold rest. apply bytes_of_0. lia. Qed.

Lemma rest_app pos l r : 0 <= pos <= size -> rest pos = l ++ r ->
  l = bytes_of m (text +p pos) (zlen l) /\ r = rest (pos + zlen l) /\ pos + zlen l <= size.
Proof using.
  intros Hp E. assert (zlen l + zlen r = size - pos) as Hl.
  { rewrite <- Nat2Z.inj_add, <- length_app, <- E. unfold rest. rewrite length_bytes_of. lia. }
  revert E. unfold rest at 1. replace (size - pos) with (zlen l + (size - pos - zlen l)) by lia. rewrite bytes_of_app by lia.
  intros E. apply app_inj_1 in E as [E1 E2]; [|rewrite length_bytes_of; lia]. rewrite padd_padd in E2.
  split; [done|]. split; [|lia]. unfold rest. rewrite <- E2. f_equal. lia.
Qed.

Lemma digits_end_span n : forall pos, 0 <= pos <= size -> n = Z.to_nat (size - pos) ->
  digits_end n m text size pos =
    let '(a, b) := span_hex (rest pos) in
    match b with
    | [] => inr (pos + zlen a)
    | c :: _ => if c =? 47 then inr (pos + zlen a) else inl (pos + zlen a)
    end.
Proof using.
  induction n as [|n IH]; intros pos Hp Hn; cbn [digits_end].
  - replace pos with size by lia. rewrite rest_end. cbn [span_hex]. f_equal. cbn [length]. lia.
  - rewrite rest_cons by lia. cbn [span_hex]. rewrite (proj2 (Z.ltb_lt pos size)) by lia. cbn [andb]. unfold hex_digit.
    destruct (Z.eqb_spec (ld m text pos) 47) as [->|Hne]; cbn [negb].
    + change (query_hex 47 <? 0) with true. cbn. f_equal. lia.
    + destruct (query_hex (ld m text pos) <? 0).
      * rewrite (proj2 (Z.eqb_neq _ _) Hne). cbn [length]. f_equal. lia.
      * rewrite IH by lia. destruct (span_hex (rest (pos + 1))) as [a b]. cbn [length].
        replace (pos + Z.of_nat (S (length a))) with (pos + 1 + zlen a) by lia. done.
Qed.

Lemma hex_pair a b : 0 <= query_hex a -> 0 <= query_hex b ->
  u8 (Z.lor (Z.shiftl (query_hex a) 4) (query_hex b)) = query_hex a * 16 + query_hex b.
Proof using.
  intros. pose proof (query_hex_range a). pose proof (query_hex_range b). rewrite Z.shiftl_mul_pow2 by lia.
  rewrite (lor_shift_add _ _ 4) by lia. apply u8_small. lia.
Qed.

Lemma decode_digits_spec start used n : forall i l tag,
  used + i = zlen l -> zlen l + Z.of_nat n <= 512 -> 0 <= i ->
  tag_of_text (bytes_of m (text +p (start + 2 * i)) (2 * Z.of_nat n)) = Some tag ->
  decode_digits n m text start used i (fill 512 l) = fill 512 (l ++ tag).
Proof using.
  induction n as [|n IH]; intros i l tag Hi Hn Hi0 Ht; cbn [decode_digits].
  - rewrite bytes_of_0 in Ht by lia. injection Ht as <-. now rewrite app_nil_r.
  - replace (2 * Z.of_nat (S n)) with (1 + (1 + 2 * Z.of_nat n)) in Ht by lia. rewrite !bytes_of_cons in Ht by lia.
    cbn [tag_of_text] in Ht. rewrite !ld_padd, !padd_padd, !Z.add_0_r in Ht. unfold hex_digit.
    destruct (Z.ltb_spec (query_hex (ld m text (start + 2 * i))) 0); [done|].
    destruct (Z.ltb_spec (query_hex (ld m text (start + 2 * i + 1))) 0); [done|]. cbn [orb] in Ht.
    destruct (tag_of_text _) as [tag'|] eqn:E; [|done]. injection Ht as <-. rewrite hex_pair by done.
    replace (Z.to_nat (used + i)) with (length l) by lia. rewrite fill_insert by lia.
    rewrite (IH (i + 1) _ tag'); [now rewrite <- app_assoc|rewrite length_app; cbn [length]; lia|rewrite length_app; cbn [length]; lia|lia|].
    rewrite <- E. do 2 f_equal. f_equal. lia.
Qed.

Lemma path_starts path pos a b : span_hex (rest pos) = (a, b) -> path_text path (rest pos) ->
  exists tag path', path = tag :: path' /\ tag <> [] /\ tag_of_text a = Some tag /\
    ((path' = [] /\ b = []) \/ (exists r', b = 47 :: r' /\ path_text path' r')).
Proof using.
  intros Esp Hpath. apply path_text_span in Hpath as (tag & d & r & path' & -> & Hne & Ht & Hsp & Hc).
  rewrite Esp in Hsp. injection Hsp as -> ->. eauto 10.
Qed.

Lemma tag_of_text_total a : Forall (fun c => 0 <= query_hex c) a -> zlen a mod 2 = 0 -> exists tag, tag_of_text a = Some tag.
Proof using.
  assert (forall n a, (length a <= n)%nat -> Forall (fun c => 0 <= query_hex c) a -> zlen a mod 2 = 0 -> exists tag, tag_of_text a = Some tag) as Hn;
    [|now apply (Hn (length a))].
  clear. induction n as [|n IH]; intros [|h [|lo a]] Hl Hf Hm; cbn [length] in *; try lia; try (eexists; reflexivity); try done.
  inversion Hf as [|? ? Hh Hf1]; subst. inversion Hf1 as [|? ? Hlo Hf2]; subst. cbn [tag_of_text].
  rewrite (proj2 (Z.ltb_ge _ _) Hh), (proj2 (Z.ltb_ge _ _) Hlo). cbn [orb].
  destruct (IH a) as [tag ->]; [lia|done| |eauto].
  replace (Z.of_nat (S (S (length a)))) with (zlen a + 1 * 2) in Hm by lia. now rewrite Z_mod_plus_full in Hm.
Qed.

(** A tag that fits is added. *)
Lemma query_of_snoc prev tag start n : zlen prev < 65 -> zlen (concat prev) + zlen tag <= 512 ->
  n = length tag -> tag_of_text (bytes_of m (text +p start) (2 * zlen tag)) = Some tag ->
  mk_query (decode_digits n m text start (zlen (concat prev)) 0 (query_of prev).(q_bytes))
    (<[Z.to_nat (zlen prev) := u16 (zlen (concat prev) + zlen tag)]> (query_of prev).(q_ends)) (u16 (zlen prev + 1)) = query_of (prev ++ [tag]).
Proof using.
  intros Hc Hb -> Ht. unfold query_of. cbn [q_bytes q_ends q_count]. unfold u16. rewrite !Z.mod_small by lia.
  rewrite (decode_digits_spec start (zlen (concat prev)) (length tag) 0 _ tag); [|lia|lia|lia|now rewrite Z.mul_0_r, Z.add_0_r].
  rewrite Nat2Z.id. replace (length prev) with (length (path_ends 0 prev)) at 1 by apply length_path_ends.
  rewrite fill_insert by (rewrite length_path_ends; lia).
  rewrite concat_app, path_ends_app, length_app. cbn [concat path_ends length]. rewrite app_nil_r, Z.add_0_l. f_equal. lia.
Qed.

(** The parsed query holds the tags in front of [pos]. *)
Definition parsed_as (pos : Z) (prev : list (list Z)) (r : option (tlv_query_t + tlv_result_t * option tlv_diagnostic_t)) : Prop :=
  match r with
  | None => False
  | Some (inl q) => exists path, path_text path (rest pos) /\ path_fits (prev ++ path) = true /\ q = query_of (prev ++ path)
  | Some (inr (rc, _)) => (rc = TLV_ERR_SYNTAX /\ forall path, ~ path_text path (rest pos)) \/
      (rc = TLV_ERR_LIMIT /\ forall path, path_text path (rest pos) -> path_fits (prev ++ path) = false)
  end.

Lemma fits_iff path : path_fits path = true <-> zlen path <= 65 /\ zlen (concat path) <= 512.
Proof using. unfold path_fits, TLV_QUERY_MAX_STEPS, TLV_QUERY_MAX_BYTES. now rewrite andb_true_iff, !Z.leb_le. Qed.

Lemma too_long prev tag path : 65 <= zlen prev \/ 512 < zlen (concat prev) + zlen tag -> path_fits (prev ++ tag :: path) = false.
Proof using.
  intros Hl. destruct (path_fits _) eqn:E; [|done]. apply fits_iff in E as [E1 E2].
  rewrite concat_app in E2. cbn [concat] in E2. rewrite !length_app in *. cbn [length] in *. lia.
Qed.

Lemma snoc_size prev (tag : list Z) : zlen (prev ++ [tag]) = zlen prev + 1 /\ zlen (concat (prev ++ [tag])) = zlen (concat prev) + zlen tag.
Proof using. rewrite concat_app, !length_app. cbn [concat length]. rewrite app_nil_r. lia. Qed.

(** The rest after a tag and a slash decides. *)
Lemma parsed_more pos pos' prev tag a r : span_hex (rest pos) = (a, 47 :: rest pos') -> tag_of_text a = Some tag -> tag <> [] ->
  parsed_as pos' (prev ++ [tag]) r -> parsed_as pos prev r.
Proof using.
  intros Esp Ht Hne. pose proof (span_hex_spec _ _ _ Esp) as [Erest _].
  assert (forall path, path_text path (rest pos) -> exists path', path = tag :: path' /\ path_text path' (rest pos')) as Hnext.
  { intros path Hp. apply (path_starts path pos a _ Esp) in Hp as (tag' & path' & -> & _ & Ht' & [[_ ?]|(r' & [= <-] & Hp)]); [done|].
    rewrite Ht in Ht'. injection Ht' as <-. eauto. }
  unfold parsed_as. destruct r as [[q|[rc dg]]|]; [| |done].
  - intros (path & Hp & Hf & ->). exists (tag :: path). rewrite <- app_assoc in *. split; [rewrite Erest; now constructor|done].
  - intros [[-> Hno]|[-> Hno]]; [left|right]; (split; [done|]); intros path Hp; apply Hnext in Hp as (path' & -> & Hp).
    + now apply (Hno path').
    + apply Hno in Hp. now rewrite <- app_assoc in Hp.
Qed.

Lemma parse_loop_spec diagnostic fuel : forall pos prev, 0 <= pos <= size -> size - pos < Z.of_nat fuel -> path_fits prev = true ->
  parsed_as pos prev (parse_loop fuel m text size pos (zlen (concat prev)) (query_of prev) diagnostic).
Proof using Hs.
  induction fuel as [|fuel IH]; intros pos prev Hp Hf Hfit; [lia|]. cbn [parse_loop].
  rewrite digits_end_span by (done || lia). destruct (span_hex (rest pos)) as [a b] eqn:Esp.
  pose proof (span_hex_spec _ _ _ Esp) as [Erest Hhex]. pose proof (rest_app pos a b Hp Erest) as (Ea & Eb & Hle).
  assert (forall path, path_text path (rest pos) -> _) as Hstart by (intros path; exact (path_starts path pos a b Esp)).
  apply fits_iff in Hfit as [Hf1 Hf2].
  assert ((b = [] \/ exists r, b = 47 :: r) \/ exists c r, b = c :: r /\ c <> 47) as [Hb|(c & r & -> & Hc)].
  { destruct b as [|c r]; [now left; left|]. destruct (Z.eq_dec c 47) as [->|Hne]; [left|]; eauto. }
  2: { rewrite (proj2 (Z.eqb_neq _ _) Hc). left. split; [done|]. intros path Hpath.
       apply Hstart in Hpath as (tag & path' & _ & _ & _ & [[_ ?]|(r' & [= ? _] & _)]); done. }
  assert (match b with [] => inr (pos + zlen a) | c :: _ => if c =? 47 then inr (pos + zlen a) else inl (pos + zlen a) end = inr (pos + zlen a) :> Z + Z) as ->
    by now destruct Hb as [->|[r ->]].
  replace (pos + zlen a - pos) with (zlen a) by lia.
  destruct ((zlen a =? 0) || negb (zlen a mod 2 =? 0)) eqn:Ebad.
  { left. split; [done|]. intros path Hpath. apply Hstart in Hpath as (tag & path' & _ & Hne & Ht & _).
    apply tag_of_text_hex in Ht as (_ & Hl & _). rewrite Hl, (Z.mul_comm 2), Z.mod_mul, Z.eqb_refl, orb_false_r in Ebad by lia.
    apply Z.eqb_eq in Ebad. destruct tag; [done|cbn [length] in Ebad; lia]. }
  apply orb_false_iff in Ebad as [Ez Em]. apply negb_false_iff, Z.eqb_eq in Em. apply Z.eqb_neq in Ez.
  destruct (tag_of_text_total a Hhex Em) as [tag Ht]. pose proof (tag_of_text_hex a tag Ht) as (_ & Hl & _).
  assert (zlen a / 2 = zlen tag) as -> by (rewrite Hl, Z.mul_comm, Z.div_mul; lia).
  assert (tag <> []) as Hne by (intros ->; cbn [length] in Hl; lia).
  assert (forall path, path_text path (rest pos) -> exists path', path = tag :: path') as Hfirst.
  { intros path Hpath. apply Hstart in Hpath as (tag' & path' & -> & _ & Ht' & _). rewrite Ht in Ht'. injection Ht' as <-. eauto. }
  change (q_count (query_of prev)) with (zlen prev). unfold TLV_QUERY_MAX_STEPS, TLV_QUERY_MAX_BYTES.
  destruct (Z.eqb_spec (zlen prev) 65); [right; split; [done|]; intros path Hpath; apply Hfirst in Hpath as [path' ->]; apply too_long; lia|].
  destruct (Z.ltb_spec (512 - zlen (concat prev)) (zlen tag)); [right; split; [done|]; intros path Hpath; apply Hfirst in Hpath as [path' ->]; apply too_long; lia|].
  rewrite (query_of_snoc prev tag pos (Z.to_nat (zlen tag))); [|lia|lia|apply Nat2Z.id|now rewrite <- Hl, <- Ea].
  destruct (Z.eqb_spec (pos + zlen a) size) as [Hend|Hend].
  - assert (b = []) as -> by (rewrite Eb, Hend; apply rest_end). rewrite app_nil_r in Erest.
    exists [tag]. split; [rewrite Erest; now constructor|]. split; [|done]. apply fits_iff. pose proof (snoc_size prev tag). lia.
  - assert (b = 47 :: rest (pos + zlen a + 1)) as ->.
    { rewrite rest_cons in Eb by lia. destruct Hb as [->|[r ->]]; [done|]. now injection Eb as -> ->. }
    apply (parsed_more pos (pos + zlen a + 1) prev tag a); [done|done|done|]. rewrite <- (proj2 (snoc_size prev tag)). apply IH; [lia|lia|].
    apply fits_iff. pose proof (snoc_size prev tag). lia.
Qed.
End Parse.

(** ** Queries and their paths *)

(** [q] holds the tags of [path]; what is behind them does not matter. *)
Record holds_path (q : tlv_query_t) (path : list (list Z)) : Prop := {
  hp_count : q.(q_count) = zlen path;
  hp_bytes : take (length (concat path)) q.(q_bytes) = concat path;
  hp_ends : take (length path) q.(q_ends) = path_ends 0 path }.

Definition path_ok (path : list (list Z)) : Prop :=
  path <> [] /\ Forall (fun tag => tag <> [] /\ bytes tag) path /\ path_fits path = true.

Lemma query_of_holds path : holds_path (query_of path) path.
Proof.
  split; [done| |]; unfold query_of, fill; cbn [q_bytes q_ends]; [apply take_app_length|].
  rewrite <- (length_path_ends 0 path). apply take_app_length.
Qed.

(** Where the first [i] tags end. *)
Definition end_of (path : list (list Z)) (i : nat) : Z := zlen (concat (take i path)).

Lemma path_ends_lookup path : forall b i, (i < length path)%nat -> nth i (path_ends b path) 0 = b + end_of path (S i).
Proof.
  induction path as [|tag path IH]; intros b i Hi; cbn [length] in Hi; [lia|]. unfold end_of. cbn [path_ends take concat].
  rewrite length_app. destruct i as [|i]; cbn [nth]; [rewrite take_0; cbn [concat length]; lia|].
  rewrite IH by lia. unfold end_of. lia.
Qed.

Lemma end_of_S path i tag : path !! i = Some tag -> end_of path (S i) = end_of path i + zlen tag.
Proof. intros Hi. unfold end_of. rewrite (take_S_r _ _ _ Hi), concat_app, length_app. cbn [concat]. rewrite app_nil_r. lia. Qed.

Lemma end_of_le path i : 0 <= end_of path i <= zlen (concat path).
Proof.
  unfold end_of. split; [lia|]. rewrite <- (take_drop i path) at 2. rewrite concat_app, length_app. lia.
Qed.

Lemma end_of_all path : end_of path (length path) = zlen (concat path).
Proof. unfold end_of. now rewrite take_ge. Qed.

Section Held.
Context (q : tlv_query_t) (path : list (list Z)) (Hq : holds_path q path) (Hok : path_ok path).

Lemma held_count : 1 <= q.(q_count) <= 65 /\ q.(q_count) = zlen path.
Proof using Hq Hok.
  destruct Hok as (Hne & _ & Hf). apply fits_iff in Hf. rewrite (hp_count _ _ Hq). destruct path; [done|]. cbn [length] in *. lia.
Qed.

Lemma held_end i : (i < length path)%nat -> end_at q (Z.of_nat i) = end_of path (S i).
Proof using Hq.
  intros Hi. unfold end_at, byte_at. rewrite Nat2Z.id, <- (Z.add_0_l (end_of _ _)), <- path_ends_lookup, <- (hp_ends _ _ Hq) by done.
  rewrite !nth_lookup, lookup_take by done. now destruct (decide (i < length path)%nat).
Qed.

Lemma held_begin i : (i < length path)%nat -> (if Z.of_nat i =? 0 then 0 else end_at q (Z.of_nat i - 1)) = end_of path i.
Proof using Hq.
  intros Hi. destruct (Z.eqb_spec (Z.of_nat i) 0) as [E|E].
  - replace i with 0%nat by lia. done.
  - replace (Z.of_nat i - 1) with (Z.of_nat (i - 1)) by lia. rewrite held_end by lia. f_equal. lia.
Qed.

Lemma held_tag i tag : path !! i = Some tag -> end_of path i < end_of path (S i) <= 512 /\ zlen tag = end_of path (S i) - end_of path i /\
  take (length tag) (drop (Z.to_nat (end_of path i)) q.(q_bytes)) = tag.
Proof using Hq Hok.
  intros Hi. pose proof (end_of_S path i tag Hi) as E. pose proof (end_of_le path (S i)) as Hle. pose proof (end_of_le path i) as Hle0.
  destruct Hok as (_ & Hf & Hfit). apply fits_iff in Hfit. rewrite list.Forall_forall in Hf.
  destruct (Hf tag (list_elem_of_lookup_2 _ _ _ Hi)) as [Hne _].
  assert (0 < zlen tag) by (destruct tag; [done|cbn [length]; lia]). split; [lia|]. split; [lia|].
  rewrite take_drop_commute. replace (Z.to_nat (end_of path i) + length tag)%nat with (Z.to_nat (end_of path (S i))) by lia.
  rewrite <- (Nat.min_l (Z.to_nat (end_of path (S i))) (length (concat path))) by lia.
  rewrite <- take_take, (hp_bytes _ _ Hq). unfold end_of. rewrite !Nat2Z.id.
  rewrite <- (take_drop (S i) path) at 3. rewrite concat_app, take_app_length, (take_S_r _ _ _ Hi), concat_app, drop_app_length.
  cbn [concat]. apply app_nil_r.
Qed.

Lemma held_valid : valid_query q = true.
Proof using Hq Hok.
  pose proof held_count as [Hc Ec]. unfold valid_query, TLV_QUERY_MAX_STEPS.
  rewrite (proj2 (Z.eqb_neq _ _)), (proj2 (Z.ltb_ge _ _)) by lia. cbn [orb]. rewrite Ec, Nat2Z.id.
  assert (forall n i, (i + n = length path)%nat -> ends_valid n q (Z.of_nat i) (end_of path i) = true) as Hn; [|now apply (Hn (length path) 0%nat)].
  induction n as [|n IH]; intros i Hi; cbn [ends_valid]; [done|].
  destruct (lookup_lt_is_Some_2 path i ltac:(lia)) as [tag Htag]. pose proof (held_tag i tag Htag) as (Hlt & _).
  rewrite held_end by lia. unfold TLV_QUERY_MAX_BYTES. rewrite (proj2 (Z.leb_gt _ _)), (proj2 (Z.ltb_ge _ _)) by lia. cbn [orb].
  replace (Z.of_nat i + 1) with (Z.of_nat (S i)) by lia. apply IH. lia.
Qed.
End Held.

(** ** Formatting *)

Fixpoint path_string (path : list (list Z)) : list Z :=
  match path with
  | [] => []
  | [tag] => hex_text tag
  | tag :: path => hex_text tag ++ 47 :: path_string path
  end.

(** What a tag that is not the first adds. *)
Definition more_text (path : list (list Z)) : list Z := flat_map (fun tag => 47 :: hex_text tag) path.

Lemma path_string_more tag path : path_string (tag :: path) = hex_text tag ++ more_text path.
Proof.
  revert tag. induction path as [|tag' path IH]; intros tag; [unfold more_text; cbn; now rewrite app_nil_r|].
  change (path_string (tag :: tag' :: path)) with (hex_text tag ++ 47 :: path_string (tag' :: path)). rewrite IH. done.
Qed.

Lemma length_more_text path : zlen (more_text path) = zlen path + 2 * zlen (concat path).
Proof.
  induction path as [|tag path IH]; [done|]. unfold more_text in *. cbn [flat_map concat]. rewrite !length_app. cbn [length].
  rewrite Nat2Z.inj_add, Nat2Z.inj_succ, zlen_hex_text. lia.
Qed.

Lemma length_path_string path : path <> [] -> zlen (path_string path) = 2 * zlen (concat path) + zlen path - 1.
Proof.
  destruct path as [|tag path]; [done|]. intros _. rewrite path_string_more. cbn [concat length]. rewrite !length_app, !Nat2Z.inj_add, zlen_hex_text, length_more_text. lia.
Qed.

Lemma hex_value d : 0 <= d < 16 -> query_hex (hex d) = d.
Proof.
  intros Hd. assert (forallb (fun d => query_hex (hex d) =? d) (seqZ 0 16) = true) as Hall by reflexivity.
  rewrite forallb_forall in Hall. apply Z.eqb_eq, Hall, list_elem_of_In, elem_of_seqZ. lia.
Qed.

Lemma hex_text_reads tag : bytes tag -> tag_of_text (hex_text tag) = Some tag.
Proof.
  induction 1 as [|b tag Hb Ht IH]; [done|]. unfold is_byte in Hb. pose proof (nibbles b Hb) as [Hh Hl].
  change (hex_text (b :: tag)) with (hex (Z.shiftr b 4) :: hex (Z.land b 15) :: hex_text tag). cbn [tag_of_text].
  rewrite !hex_value by done. rewrite !(proj2 (Z.ltb_ge _ _)) by lia. cbn [orb]. rewrite IH. do 2 f_equal.
  rewrite Z.shiftr_div_pow2 by lia. change 15 with (Z.ones 4). rewrite Z.land_ones by lia. pose proof (Z.div_mod b (2 ^ 4)). lia.
Qed.

Lemma path_string_reads path : path <> [] -> Forall (fun tag => tag <> [] /\ bytes tag) path -> path_text path (path_string path).
Proof.
  intros Hne Hf. induction Hf as [|tag path [Ht Hb] Hf IH]; [done|]. destruct path as [|tag' path].
  - apply path_last; [now apply hex_text_reads|done].
  - apply path_more; [now apply hex_text_reads|done|now apply IH].
Qed.

(** A text has no end in it. *)
Lemma path_text_nonzero path l : path_text path l -> Forall (fun c => c <> 0) l.
Proof.
  induction 1 as [l tag Ht Hne|l tag path rest Ht Hne Hp IH]; pose proof (tag_of_text_hex l tag Ht) as (Hf & _).
  - eapply list.Forall_impl; [exact Hf|]. intros c Hc ->. done.
  - apply Forall_app. split; [eapply list.Forall_impl; [exact Hf|]; intros c Hc ->; done|]. constructor; [done|exact IH].
Qed.

Lemma strlen_text m text : forall room l i, Forall (fun c => c <> 0) l -> (length l < room)%nat -> 0 <= i ->
  bytes_of m (text +p i) (zlen l + 1) = l ++ [0] -> strlen room m text i = Some (i + zlen l).
Proof.
  induction room as [|room IH]; intros [|c l] i Hl Hr Hi Hb; cbn [length strlen] in *; try lia.
  - rewrite bytes_of_1, ld_padd, Z.add_0_r in Hb. injection Hb as ->. rewrite Z.eqb_refl. f_equal. lia.
  - replace (Z.of_nat (S (length l)) + 1) with (1 + (zlen l + 1)) in Hb by lia. rewrite bytes_of_cons, padd_padd, ld_padd, Z.add_0_r in Hb by lia.
    cbn [app] in Hb. injection Hb as -> Hb. inversion Hl; subst. rewrite (proj2 (Z.eqb_neq _ _)) by done.
    rewrite (IH l) by (done || lia). f_equal. lia.
Qed.

Section Formatting.
Context (m : mem) (out : ptr) (Ho : out <> NULL) (q : tlv_query_t) (path : list (list Z)) (Hq : holds_path q path) (Hok : path_ok path).

Lemma format_tag_laid n : forall m' l i tag, laid m m' out l -> bytes tag -> length tag = n -> 0 <= i ->
  take n (drop (Z.to_nat i) q.(q_bytes)) = tag ->
  exists m'', format_tag n m' out q i (zlen l) = (m'', zlen (l ++ hex_text tag)) /\ laid m m'' out (l ++ hex_text tag).
Proof using Ho.
  induction n as [|n IH]; intros m' l i tag Hm Hb Hn Hi Ht; cbn [format_tag].
  - destruct tag; [|done]. cbn [hex_text flat_map]. rewrite app_nil_r. eauto.
  - destruct tag as [|b tag]; [done|]. cbn [length] in Hn. inversion Hb as [|? ? Hb1 Hb2]; subst. unfold is_byte in Hb1.
    destruct (drop (Z.to_nat i) (q_bytes q)) as [|b' r] eqn:Ed; [done|]. cbn [take] in Ht. injection Ht as -> Ht.
    assert (byte_at (q_bytes q) i = b) as ->.
    { unfold byte_at. rewrite nth_lookup. rewrite <- (Nat.add_0_r (Z.to_nat i)), <- lookup_drop, Ed. done. }
    pose proof (nibbles b Hb1) as [Hh Hl]. pose proof (hex_byte _ Hh). pose proof (hex_byte _ Hl).
    apply (laid_octet m m' out l (zlen l) (hex (Z.shiftr b 4))) in Hm; [|done|done|done].
    apply (laid_octet m _ out _ (zlen l + 1) (hex (Z.land b 15))) in Hm; [|done|rewrite length_app; cbn [length]; lia|done].
    rewrite <- app_assoc in Hm. cbn [app] in Hm.
    destruct (IH _ _ (i + 1) tag Hm Hb2 ltac:(lia) ltac:(lia)) as (m'' & E & Hm'').
    { replace (Z.to_nat (i + 1)) with (Z.to_nat i + 1)%nat by lia. rewrite <- drop_drop, Ed. exact Ht. }
    exists m''. rewrite <- app_assoc in E, Hm''. cbn [app] in E, Hm''.
    replace (zlen (l ++ [hex (Z.shiftr b 4); hex (Z.land b 15)])) with (zlen l + 2) in E by (rewrite length_app; cbn [length]; lia).
    rewrite E. done.
Qed.

Lemma format_steps_laid n : forall m' l i, laid m m' out l -> (0 < i)%nat -> (i + n = length path)%nat ->
  exists m'', format_steps n m' out q (Z.of_nat i) (zlen l) (end_of path i) = (m'', zlen (l ++ more_text (drop i path))) /\
    laid m m'' out (l ++ more_text (drop i path)).
Proof using Ho Hq Hok.
  induction n as [|n IH]; intros m' l i Hm Hi Hn; cbn [format_steps].
  - rewrite drop_ge by lia. cbn [more_text flat_map]. rewrite app_nil_r. eauto.
  - destruct (lookup_lt_is_Some_2 path i ltac:(lia)) as [tag Htag]. pose proof (held_tag q path Hq Hok i tag Htag) as (Hlt & Hlen & Hb).
    rewrite (proj2 (Z.eqb_neq (Z.of_nat i) 0)) by lia. cbn [negb]. rewrite (held_end q path Hq) by (done || lia).
    apply (laid_octet m m' out l (zlen l) 47) in Hm; [|lia|done|done].
    replace (Z.to_nat (end_of path (S i) - end_of path i)) with (length tag) by lia.
    pose proof (proj1 (proj2 Hok)) as Hf. rewrite list.Forall_forall in Hf. destruct (Hf tag (list_elem_of_lookup_2 _ _ _ Htag)) as [_ Hbt].
    pose proof (end_of_le path i).
    destruct (format_tag_laid (length tag) _ _ (end_of path i) tag Hm Hbt eq_refl ltac:(lia) Hb) as (m1 & E & Hm1).
    replace (zlen (l ++ [47])) with (zlen l + 1) in E by (rewrite length_app; cbn [length]; lia). rewrite E.
    replace (Z.of_nat i + 1) with (Z.of_nat (S i)) by lia.
    destruct (IH m1 _ (S i) Hm1 ltac:(lia) ltac:(lia)) as (m2 & E2 & Hm2). exists m2. rewrite E2.
    assert (more_text (drop i path) = 47 :: hex_text tag ++ more_text (drop (S i) path)) as -> by now rewrite (drop_S _ _ _ Htag).
    rewrite <- !app_assoc in *. done.
Qed.

Lemma format_laid : exists m', format_steps (Z.to_nat q.(q_count)) m out q 0 0 0 = (m', zlen (path_string path)) /\ laid m m' out (path_string path).
Proof using Ho Hq Hok.
  pose proof (held_count q path Hq Hok) as [Hc Ec]. assert (exists tag rest, path = tag :: rest) as (tag & rest & Ep).
  { destruct path as [|tag rest]; [cbn [length] in Ec; lia|eauto]. }
  assert (path !! 0%nat = Some tag) as Htag by now rewrite Ep. pose proof (held_tag q path Hq Hok 0 tag Htag) as (Hlt & Hlen & Hb).
  rewrite Ec, Nat2Z.id, Ep. cbn [length format_steps]. rewrite Z.eqb_refl. cbn [negb].
  change (end_at q 0) with (end_at q (Z.of_nat 0)). rewrite (held_end q path Hq) by (rewrite Ep; cbn [length]; lia).
  assert (end_of path 0 = 0) as E0 by done. rewrite E0 in *.
  replace (Z.to_nat (end_of path 1 - 0)) with (length tag) by lia. pose proof (proj1 (proj2 Hok)) as Hf. rewrite Ep in Hf.
  apply list.Forall_cons_1 in Hf as [[_ Hbt] _].
  destruct (format_tag_laid (length tag) m [] 0 tag (laid_nil m out) Hbt eq_refl ltac:(lia) Hb) as (m1 & E & Hm1). cbn [length app] in E. change (Z.of_nat 0) with 0 in E. rewrite E.
  destruct (format_steps_laid (length rest) m1 (hex_text tag) 1 Hm1 ltac:(lia) ltac:(rewrite Ep; done)) as (m2 & E2 & Hm2).
  assert (drop 1 path = rest) as Ed by now rewrite Ep. rewrite Ed in E2, Hm2. exists m2. now rewrite path_string_more.
Qed.
End Formatting.

(** ** The theorems *)

(** What the parser reads decides its result. *)
Lemma parse_n_run m text size query diagnostic : text <> NULL -> 0 <= size -> exists r,
  match r with
  | inl q => exists path, path_text path (bytes_of m text size) /\ path_fits path = true /\ q = query_of path
  | inr (rc, _) => (rc = TLV_ERR_SYNTAX /\ forall path, ~ path_text path (bytes_of m text size)) \/
      (rc = TLV_ERR_LIMIT /\ forall path, path_text path (bytes_of m text size) -> path_fits path = false)
  end /\
  tlv_query_parse_n m text size (Some query) diagnostic =
    Some (match r with inl q => (TLV_OK, Some q, diagnostic) | inr (rc, diagnostic) => (rc, Some query, diagnostic) end).
Proof.
  intros Ht Hs. pose proof (parse_loop_spec m text size Hs diagnostic (S (Z.to_nat size)) 0 [] ltac:(lia) ltac:(lia) eq_refl) as Hl.
  unfold tlv_query_parse_n. assert (is_null text = false) as -> by now destruct text.
  change (query_of []) with zero_query in Hl. cbn [concat length] in Hl. change (Z.of_nat 0) with 0 in Hl.
  destruct (parse_loop _ _ _ _ _ _ _ _) as [r|]; [|done]. unfold parsed_as, rest in Hl. rewrite padd_0, Z.sub_0_r in Hl.
  exists r. split; [exact Hl|]. now destruct r as [q|[rc dg]].
Qed.

(** C25. The parser of path queries decides its grammar: it returns on every text, and accepts exactly the texts of
    nonempty tags in hexadecimal digits of either case, with one slash between two, that are within the limits.  Then the
    query holds the tags; a path beyond the limits is reported as such, and on failure the query is unchanged. *)
Theorem query_parse_exact (m : mem) (text : ptr) (size : Z) (query : tlv_query_t) (diagnostic : option tlv_diagnostic_t)
  (Ht : text <> NULL) (Hs : 0 <= size) :
  exists rc q diagnostic', tlv_query_parse_n m text size (Some query) diagnostic = Some (rc, Some q, diagnostic') /\
    (rc = TLV_OK \/ rc = TLV_ERR_SYNTAX \/ rc = TLV_ERR_LIMIT) /\
    (rc = TLV_OK -> diagnostic' = diagnostic /\
      exists path, path_text path (bytes_of m text size) /\ path_fits path = true /\ q = query_of path) /\
    (rc <> TLV_OK -> q = query) /\
    (forall path, path_text path (bytes_of m text size) ->
      if path_fits path then rc = TLV_OK /\ q = query_of path else rc = TLV_ERR_LIMIT).
Proof.
  destruct (parse_n_run m text size query diagnostic Ht Hs) as ([q|[rc dg]] & Hl & ->).
  - destruct Hl as (path & Hp & Hf & ->). exists TLV_OK, (query_of path), diagnostic. split; [done|]. split; [now left|].
    split; [intros _; eauto 10|]. split; [done|]. intros p Hp'. rewrite (path_text_inj p path _ Hp' Hp), Hf. done.
  - exists rc, query, dg. split; [done|]. destruct Hl as [[-> Hno]|[-> Hno]]; (split; [auto|]); (split; [done|]); (split; [done|]); intros p Hp.
    + now apply Hno in Hp.
    + now rewrite (Hno p Hp).
Qed.

(** 6F/A5/50 *)
Definition query_example_text : list Z := [54; 70; 47; 97; 53; 47; 53; 48].
Definition query_example : list (list Z) := [[111]; [165]; [80]].

Lemma query_parse_exact_witness :
  let m := mem_of 1 query_example_text in
  tlv_query_parse_n m (Ptr 1 0) 8 (Some zero_query) None = Some (TLV_OK, Some (query_of query_example), None) /\
  path_text query_example (bytes_of m (Ptr 1 0) 8).
Proof.
  intros m. assert (path_text query_example (bytes_of m (Ptr 1 0) 8)) as Hp.
  { change (path_text query_example ([54; 70] ++ 47 :: [97; 53] ++ 47 :: [53; 48])).
    apply path_more; [reflexivity|done|]. apply path_more; [reflexivity|done|]. apply path_last; [reflexivity|done]. }
  destruct (query_parse_exact m (Ptr 1 0) 8 zero_query None ltac:(done) ltac:(lia)) as (rc & q & dg & E & _ & Hok & _ & Hall).
  apply Hall in Hp as Hq. change (path_fits query_example) with true in Hq. destruct Hq as [-> ->].
  destruct (Hok eq_refl) as [-> _]. split; [exact E|exact Hp].
Defined.

(** C26. Formatting a query that holds a path reports the size of its text, writes nothing but the text and its end,
    and nothing at all where it does not fit; the text parses back to the same path. *)
Theorem query_format_roundtrip (m : mem) (query query0 : tlv_query_t) (path : list (list Z)) (output : ptr) (capacity required : Z)
  (room : nat) (diagnostic : option tlv_diagnostic_t) (Hq : holds_path query path) (Hok : path_ok path) (Ho : output <> NULL)
  (Hr : zlen (path_string path) < Z.of_nat room) :
  let n := zlen (path_string path) in
  tlv_query_format m (Some query) NULL 0 (Some required) = (TLV_OK, m, Some (n + 1)) /\
  if capacity <=? n then tlv_query_format m (Some query) output capacity (Some required) = (TLV_ERR_BUFFER_TOO_SHORT, m, Some (n + 1))
  else exists m', tlv_query_format m (Some query) output capacity (Some required) = (TLV_OK, m', Some (n + 1)) /\
    only_changes m m' output (n + 1) /\ bytes_of m' output (n + 1) = path_string path ++ [0] /\
    tlv_query_parse room m' output (Some query0) diagnostic = Some (TLV_OK, Some (query_of path), diagnostic).
Proof.
  intros n. pose proof (held_count query path Hq Hok) as [Hc Ec]. pose proof Hok as (Hne & Hf & Hfit).
  assert (2 * end_at query (q_count query - 1) + q_count query - 1 = n) as En.
  { unfold n. rewrite length_path_string by done. rewrite Ec. replace (zlen path - 1) with (Z.of_nat (length path - 1)) by lia.
    rewrite (held_end query path Hq), <- end_of_all by lia. replace (S (length path - 1)) with (length path) by lia. lia. }
  unfold tlv_query_format. rewrite (held_valid query path Hq Hok), En. cbn [negb]. split; [done|].
  assert (is_null output = false) as -> by now destruct output. cbn [andb].
  destruct (capacity <=? n); [done|]. destruct (format_laid m output Ho query path Hq Hok) as (m' & -> & Hm').
  apply (laid_octet m m' output _ n 0) in Hm' as [Hch Hb]; [|lia|done|done]. rewrite length_app in Hch, Hb. cbn [length] in Hch, Hb.
  rewrite Nat2Z.inj_add in Hch, Hb. fold n in Hch, Hb. change (Z.of_nat 1) with 1 in Hch, Hb.
  exists (st m' output n 0). split; [done|]. split; [done|]. split; [done|]. set (m2 := st m' output n 0) in *.
  pose proof (path_string_reads path Hne Hf) as Hp. unfold tlv_query_parse. assert (is_null output = false) as -> by now destruct output.
  rewrite (strlen_text m2 output room (path_string path) 0) by (rewrite ?padd_0; (done || lia || now apply (path_text_nonzero path))).
  rewrite Z.add_0_l. fold n. assert (bytes_of m2 output n = path_string path) as Hb'.
  { rewrite bytes_of_snoc in Hb by (unfold n; lia). now apply app_inj_tail in Hb as [Hb _]. }
  rewrite <- Hb' in Hp. destruct (parse_n_run m2 output n query0 diagnostic Ho ltac:(unfold n; lia)) as ([q|[rc dg]] & Hl & ->).
  - destruct Hl as (p & Hp' & _ & ->). now rewrite (path_text_inj p path _ Hp' Hp).
  - destruct Hl as [[_ Hno]|[_ Hno]]; [now apply Hno in Hp|]. rewrite (Hno path Hp) in Hfit. done.
Qed.

Lemma query_format_roundtrip_witness :
  let m := mem_of 1 [] in
  exists m', tlv_query_format m (Some (query_of query_example)) (Ptr 1 0) 9 (Some 0) = (TLV_OK, m', Some 9) /\
    bytes_of m' (Ptr 1 0) 9 = [54; 70; 47; 65; 53; 47; 53; 48; 0] /\
    tlv_query_parse 20 m' (Ptr 1 0) (Some zero_query) None = Some (TLV_OK, Some (query_of query_example), None).
Proof.
  intros m. destruct (query_format_roundtrip m (query_of query_example) zero_query query_example (Ptr 1 0) 9 0 20 None
    (query_of_holds _)) as [_ (m' & Hf & _ & Hb & Hp)]; [|done|vm_compute; reflexivity|exists m'; split; [exact Hf|split; [exact Hb|exact Hp]]].
  split; [done|]. split; [repeat constructor; done|reflexivity].
Defined.

(** * Path queries over a tree

    The matcher keeps how many tags of the path the elements entered match.  Visiting the encoding of a forest calls the
    visitor for the elements whose tags on the way from the top are the path. *)

(** ** The elements at a path *)

Abbreviation node := (Z * list Z * list Z)%type.

Fixpoint addressed `{Platform} (f : tlv_format_t) `{!CodecLaws f} (path : list (list Z)) (depth : Z) (fo : forest) : list node :=
  match fo with
  | FNil => []
  | FElement tag value rest =>
      (if bool_decide (path = [tag]) then [(depth, tag, value)] else []) ++ addressed f path depth rest
  | FNode tag children rest =>
      (if bool_decide (path = [tag]) then [(depth, tag, default [] (forest_wire f children))] else []) ++
      (match path with
       | t :: path => if bool_decide (t = tag) then addressed f path (depth + 1) children else []
       | [] => []
       end) ++ addressed f path depth rest
  end.

(** ** The matcher *)

(** [matched] tags of the path are those of the elements entered. *)
Definition match_step (path : list (list Z)) (matched depth : Z) (tag : list Z) : bool * Z :=
  if (zlen path <? matched) || (matched <? depth) then (false, matched)
  else if (depth <? zlen path) && bool_decide (path !! Z.to_nat depth = Some tag) then (depth + 1 =? zlen path, depth + 1)
  else (false, depth).

Lemma tag_test_exact m tag pattern n : 0 <= n -> n <= zlen pattern ->
  negb (tag.(t_size) =? 0) && is_null tag.(t_data) = false -> 0 <= tag.(t_size) ->
  query_tag_test m tag pattern n false = bool_decide (tag_bytes m tag = take (Z.to_nat n) pattern).
Proof.
  intros Hn Hl Hnull Hts. unfold query_tag_test. cbn [andb]. rewrite Hnull, orb_false_r.
  destruct (Z.eqb_spec n (t_size tag)) as [->|Hne]; cbn [negb].
  2: { rewrite bool_decide_eq_false_2; [done|]. intros E. apply (f_equal length) in E. unfold tag_bytes in E.
       rewrite length_bytes_of, length_take in E. lia. }
  clear Hnull. unfold tag_bytes. destruct tag as [td ts]. cbn [t_data t_size] in *.
  assert (forall k i, 0 <= i -> i + Z.of_nat k <= zlen pattern ->
    tag_test_loop k m (mk_tag td ts) pattern false i = bool_decide (bytes_of m (td +p i) (Z.of_nat k) = take k (drop (Z.to_nat i) pattern))) as Hk.
  2: { rewrite (Hk (Z.to_nat ts) 0) by lia. now rewrite padd_0, drop_0, Z2Nat.id by lia. }
  induction k as [|k IH]; intros i Hi Hb; cbn [tag_test_loop].
  - rewrite bytes_of_0 by lia. now rewrite take_0, bool_decide_eq_true_2.
  - destruct (lookup_lt_is_Some_2 pattern (Z.to_nat i) ltac:(lia)) as [x Hx].
    rewrite (drop_S _ _ _ Hx). cbn [take]. replace (Z.of_nat (S k)) with (1 + Z.of_nat k) by lia.
    rewrite bytes_of_cons, ld_padd, Z.add_0_r, padd_padd by lia. cbn [t_data].
    assert (byte_at pattern i = x) as -> by (unfold byte_at; rewrite nth_lookup, Hx; done).
    destruct (Z.eqb_spec (ld m td i) x) as [->|Hne]; cbn [negb].
    + rewrite IH by lia. replace (Z.to_nat (i + 1)) with (S (Z.to_nat i)) by lia. apply bool_decide_ext. split; [congruence|]. now intros [= E].
    + symmetry. apply bool_decide_eq_false_2. now intros [= E _].
Qed.

Section Matcher.
Context (m : mem) (q : tlv_query_t) (path : list (list Z)) (Hq : holds_path q path) (Hok : path_ok path).

Lemma matcher_visit_step matched tag depth : 0 <= depth -> 0 <= tag.(t_size) ->
  negb (tag.(t_size) =? 0) && is_null tag.(t_data) = false ->
  tlv_query_matcher_visit m (Some (mk_matcher (Some q) matched)) (Some tag) depth =
    let '(match_, matched) := match_step path matched depth (tag_bytes m tag) in (match_, Some (mk_matcher (Some q) matched)).
Proof using Hq Hok.
  intros Hd Hts Hnull. pose proof (held_count q path Hq Hok) as [Hc Ec]. unfold tlv_query_matcher_visit. rewrite Hnull. cbn [mt_query mt_matched].
  unfold TLV_QUERY_MAX_STEPS, match_step. rewrite (proj2 (Z.eqb_neq _ 0)), (proj2 (Z.ltb_ge 65 _)) by lia. cbn [orb]. rewrite <- Ec.
  destruct ((q_count q <? matched) || (matched <? depth)); [done|].
  destruct (Z.ltb_spec depth (q_count q)) as [Hlt|Hge]; [|done]. cbn [andb].
  destruct (lookup_lt_is_Some_2 path (Z.to_nat depth) ltac:(lia)) as [t Ht]. rewrite Ht.
  pose proof (held_tag q path Hq Hok _ t Ht) as (Hr & Hlen & Hb).
  replace (end_at q depth) with (end_of path (S (Z.to_nat depth))) by (rewrite <- (held_end q path Hq), Z2Nat.id by lia; done).
  replace (if depth =? 0 then 0 else end_at q (depth - 1)) with (end_of path (Z.to_nat depth))
    by (rewrite <- (held_begin q path Hq), Z2Nat.id by lia; done).
  unfold TLV_QUERY_MAX_BYTES. rewrite (proj2 (Z.leb_gt _ _)), (proj2 (Z.ltb_ge _ _)) by lia. cbn [orb].
  assert (zlen t <= zlen (drop (Z.to_nat (end_of path (Z.to_nat depth))) (q_bytes q))) as Hroom.
  { rewrite <- Hb at 1. rewrite length_take. lia. }
  rewrite <- Hlen, tag_test_exact by (done || lia). rewrite Nat2Z.id, Hb.
  destruct (decide (tag_bytes m tag = t)) as [E|E].
  - rewrite !bool_decide_eq_true_2 by congruence. done.
  - rewrite !bool_decide_eq_false_2 by congruence. done.
Qed.
End Matcher.

(** ** The visit *)

Section Fold.
Context {A : Type} (step : node_visitor A).

Definition visit_one (s : A) (n : node) : A + tlv_result_t * A :=
  let '(depth, tag, value) := n in
  match step s depth tag value with
  | (TLV_VISIT_CONTINUE, s) => inl s
  | (TLV_VISIT_STOP, s) => inr (TLV_OK, s)
  | (TLV_VISIT_ERROR, s) => inr (TLV_ERR_VISITOR, s)
  | (TLV_VISIT_OTHER _, s) => inr (TLV_ERR_CALLBACK, s)
  end.

Lemma fold_nodes_until ns : forall s,
  fold_nodes step s ns = match fold_until visit_one s ns with inl s => (TLV_OK, s) | inr r => r end.
Proof using.
  induction ns as [|[[depth tag] value] ns IH]; intros s; cbn [fold_nodes fold_until visit_one]; [done|].
  destruct (step s depth tag value) as [[| | |k] s']; (done || apply IH).
Qed.
End Fold.

Section Addressed.
Context `{Platform} {A : Type} (f : tlv_format_t) `{!CodecLaws f} (q : tlv_query_t) (path : list (list Z)) (step : node_visitor A).

(** The visitor of the source, on the octets of an element. *)
Definition path_step : node_visitor (tlv_query_matcher_t * A) := fun state depth tag value =>
  let '(matcher, s) := state in
  let '(match_, matched) := match_step path matcher.(mt_matched) depth tag in
  let matcher := mk_matcher matcher.(mt_query) matched in
  if negb match_ then (TLV_VISIT_CONTINUE, (matcher, s))
  else let '(result, s) := step s depth tag value in (result, (matcher, s)).

Abbreviation at_ k s := (mk_matcher (Some q) k, s).

(** The folds end alike; if they go on, at least [lo] tags are matched. *)
Definition alike (lo : Z) (r : (tlv_query_matcher_t * A) + tlv_result_t * (tlv_query_matcher_t * A)) (r' : A + tlv_result_t * A) : Prop :=
  match r, r' with
  | inl state, inl s => exists k, state = at_ k s /\ lo <= k <= zlen path
  | inr (rc, (_, s)), inr (rc', s') => rc = rc' /\ s = s'
  | _, _ => False
  end.

Lemma alike_then lo lo' ns ns' r r' : lo <= lo' -> alike lo' r r' ->
  (forall k s, lo' <= k <= zlen path -> alike lo (fold_until (visit_one path_step) (at_ k s) ns) (fold_until (visit_one step) s ns')) ->
  alike lo (match r with inl b => fold_until (visit_one path_step) b ns | inr x => inr x end)
    (match r' with inl b => fold_until (visit_one step) b ns' | inr x => inr x end).
Proof using.
  intros Hlo Ha Hn. destruct r as [state|[rc [mt s]]], r' as [s'|[rc' s']]; try done. destruct Ha as (k & -> & Hk). now apply Hn.
Qed.

(** Below an element that does not match, nothing does. *)
Lemma dead_fold fo : forall depth k s, k < depth -> k <= zlen path -> fold_until (visit_one path_step) (at_ k s) (forest_nodes f depth fo) = inl (at_ k s).
Proof using.
  assert (forall depth k s tag value, k < depth -> k <= zlen path -> visit_one path_step (at_ k s) (depth, tag, value) = inl (at_ k s)) as Hone.
  { intros depth k s tag value Hk Hz. unfold visit_one, path_step, match_step. cbn [mt_matched mt_query].
    rewrite (proj2 (Z.ltb_ge _ k)), (proj2 (Z.ltb_lt k _)) by lia. done. }
  induction fo as [|tag value rest IH|tag children IHc rest IH]; intros depth k s Hk Hz; cbn [forest_nodes fold_until]; [done| |].
  - rewrite Hone by lia. now apply IH.
  - rewrite Hone, fold_until_app, IHc by lia. now apply IH.
Qed.

(** The visit of one element whose parents match. *)
Lemma visit_one_live depth k s tag value : 0 <= depth <= k -> k <= zlen path ->
  alike (if bool_decide (path !! Z.to_nat depth = Some tag) then depth + 1 else depth)
    (visit_one path_step (at_ k s) (depth, tag, value))
    (fold_until (visit_one step) s (if bool_decide (drop (Z.to_nat depth) path = [tag]) then [(depth, tag, value)] else [])) /\
  (path !! Z.to_nat depth <> Some tag -> visit_one path_step (at_ k s) (depth, tag, value) = inl (at_ depth s)).
Proof using.
  intros Hd Hk. unfold visit_one at 1 3, path_step, match_step. cbn [mt_matched mt_query].
  rewrite (proj2 (Z.ltb_ge _ k)), (proj2 (Z.ltb_ge k _)) by lia. cbn [orb].
  destruct (decide (path !! Z.to_nat depth = Some tag)) as [E|E].
  - rewrite !(bool_decide_eq_true_2 (path !! _ = _)) by done. pose proof (lookup_lt_Some _ _ _ E). rewrite (proj2 (Z.ltb_lt depth _)) by lia. cbn [andb].
    split; [|done]. rewrite (drop_S _ _ _ E). destruct (Z.eqb_spec (depth + 1) (zlen path)) as [El|El]; cbn [negb].
    + rewrite drop_ge, bool_decide_eq_true_2 by (done || lia). cbn [fold_until visit_one].
      destruct (step s depth tag value) as [[| | |n] s']; cbn [alike]; try done. exists (depth + 1). split; [done|lia].
    + rewrite bool_decide_eq_false_2; [cbn; exists (depth + 1); split; [done|lia]|]. intros [= En]. apply (f_equal length) in En.
      rewrite length_drop in En. cbn [length] in En. lia.
  - rewrite !(bool_decide_eq_false_2 (path !! _ = _)) by done. rewrite andb_false_r. cbn [negb]. split; [|done].
    rewrite bool_decide_eq_false_2; [cbn; exists depth; split; [done|lia]|]. intros En. apply E. now rewrite <- (Nat.add_0_r (Z.to_nat depth)), <- lookup_drop, En.
Qed.

Lemma missed {B} (p : list (list Z)) depth tag (g : list (list Z) -> list B) (l : list B) : p !! Z.to_nat depth <> Some tag ->
  (if bool_decide (drop (Z.to_nat depth) p = [tag]) then l else []) = [] /\
  match drop (Z.to_nat depth) p with t :: p => if bool_decide (t = tag) then g p else [] | [] => [] end = [].
Proof using.
  intros E. destruct (drop (Z.to_nat depth) p) as [|t r] eqn:Ed; [now rewrite bool_decide_eq_false_2|].
  assert (t <> tag) as Hne. { intros ->. apply E. now rewrite <- (Nat.add_0_r (Z.to_nat depth)), <- lookup_drop, Ed. }
  rewrite !bool_decide_eq_false_2 by congruence. done.
Qed.

Lemma addressed_fold fo : forall depth k s, 0 <= depth <= k -> k <= zlen path ->
  alike depth (fold_until (visit_one path_step) (at_ k s) (forest_nodes f depth fo))
    (fold_until (visit_one step) s (addressed f (drop (Z.to_nat depth) path) depth fo)).
Proof using.
  induction fo as [|tag value rest IH|tag children IHc rest IH]; intros depth k s Hd Hk; cbn [forest_nodes addressed].
  - exists k. split; [done|lia].
  - rewrite fold_until_app. pose proof (visit_one_live depth k s tag value Hd Hk) as [Ho _]. cbn [fold_until].
    eapply alike_then; [|exact Ho|]; [destruct (bool_decide _); lia|]. intros k' s' Hk'. apply IH; [destruct (bool_decide _); lia|lia].
  - rewrite fold_until_app. pose proof (visit_one_live depth k s tag (default [] (forest_wire f children)) Hd Hk) as [Ho Hdead]. cbn [fold_until].
    destruct (decide (path !! Z.to_nat depth = Some tag)) as [E|E].
    + rewrite (bool_decide_eq_true_2 (path !! _ = _)) in Ho by done. eapply (alike_then depth (depth + 1)); [lia|exact Ho|]. intros k' s' Hk'.
      rewrite (drop_S _ _ _ E), (bool_decide_eq_true_2 (tag = tag)), !fold_until_app by done.
      replace (S (Z.to_nat depth)) with (Z.to_nat (depth + 1)) by lia.
      eapply (alike_then depth (depth + 1)); [lia|apply IHc; lia|]. intros k2 s2 Hk2. 
      replace (tag :: drop (Z.to_nat (depth + 1)) path) with (drop (Z.to_nat depth) path) by (rewrite (drop_S _ _ _ E); do 2 f_equal; lia). apply IH; lia.
    + rewrite (Hdead E), fold_until_app, dead_fold by lia. 
      destruct (missed path depth tag (fun p => addressed f p (depth + 1) children) [(depth, tag, default [] (forest_wire f children))] E) as [-> ->]. cbn [app fold_until]. apply IH; lia.
Qed.
End Addressed.

(** C24. A path query addresses what it says: visiting the encoding of a forest, in any format that has the laws of a
    codec, with a query that holds a path calls the visitor for exactly the elements whose tags on the way from the top
    are the path, in preorder, until it stops the visit or fails; the result says which.  A round per node
    of the forest and one more are enough, so the visit returns. *)
Theorem query_visit_addressed `{Platform} {A : Type} (f : tlv_format_t) (decode : tlv_decode_fn)
  (Hdec : f.(f_decode) = Some decode) (Hlaws : DecodeLaws decode) (Hcodec : CodecLaws f)
  (p : list Z -> bool) (m : mem)
  (Hclass : forall tag, tag_ok tag -> is_constructed (Some f) m tag = p (tag_bytes m tag))
  (fo : forest) (w : list Z) (data : ptr) (reader : tlv_tree_reader_t) (matcher : tlv_query_matcher_t) (frames : list tlv_tree_frame_t)
  (query : tlv_query_t) (path : list (list Z)) (max_depth max_elements : Z) (step : node_visitor A) (s : A)
  (Hq : holds_path query path) (Hok : path_ok path)
  (Hw : forest_wire f fo = Some w) (Hcl : classified p fo = true) (Hd : data <> NULL)
  (Hs : zlen w <= SIZE_MAX) (Hb : bytes_of m data (zlen w) = w) (Hfr : zlen frames = TLV_QUERY_MAX_STEPS)
  (Hh : forest_height fo <= TLV_QUERY_MAX_STEPS)
  (Hmd : forest_height fo <= max_depth <= SIZE_MAX) (Hme : forest_size fo <= max_elements <= SIZE_MAX) :
  let '(rc, s') := fold_nodes step s (addressed f path 0 fo) in
  tlv_query_visit_buffer m (S (Z.to_nat (forest_size fo))) reader matcher frames data (zlen w) (Some f) (Some query)
    max_depth max_elements (Some (bytes_visitor m step)) s None = Some (rc, s', None).
Proof.
  pose proof (held_count query path Hq Hok) as [Hc Ec].
  destruct (run_whole f decode Hdec Hlaws Hcodec p m Hclass fo w data reader frames max_depth max_elements
    Hw Hcl Hd Hs Hb ltac:(lia) Hmd Hme) as (t & es & t' & Hinit & Ht & Ho & Hrun & Htok & Hend & Hv & Hf).
  assert (format_typed f None) as Hty.
  { intros dd E. rewrite Hdec in E. injection E as <-. split; [apply dl_typed|done]. }
  pose proof (nodes_of_events f m es fo 0 Hv) as Hn. pose proof (run_visited m f Hty t es t' (conj Ht Hf) Hrun) as Hvis.
  destruct (visit_run m f Hty (on_element m (bytes_visitor m step)) (path_step path step) (fun state => (fst state).(mt_query) = Some query))
    with (n := length es) (es := es) (t := t) (t' := t') (s := (mk_matcher (Some query) 0, s)) (fuel := S (Z.to_nat (forest_size fo))) as (t1 & Hrunv); try done.
  { intros e [mt s1] (Hdep & Hts & Hnull) HI. cbn [fst] in HI. destruct mt as [mq matched]. cbn [mt_query] in HI. subst mq.
    unfold on_element, path_step, bytes_visitor. rewrite (matcher_visit_step m query path Hq Hok) by done. cbn [mt_matched mt_query].
    destruct (match_step path matched (ev_depth e) _) as [b k]. cbn [cell]. destruct b; cbn [negb]; [|done].
    destruct (step s1 _ _ _) as [r s2]. done. }
  { apply (run_drop_ends m f Hty t es t' (conj Ht Hf) Hrun Ho). }
  { rewrite <- (length_map (node_view m)), Hn. pose proof (forest_nodes_length f fo 0). lia. }
  pose proof (addressed_fold f query path step fo 0 0 s ltac:(lia) ltac:(lia)) as Ha. rewrite drop_0 in Ha. change (Z.to_nat 0) with 0%nat in Ha.
  unfold tlv_query_visit_buffer, tlv_query_matcher_init, TLV_QUERY_MAX_STEPS in *.
  rewrite (proj2 (Z.eqb_neq _ 0)), (proj2 (Z.ltb_ge 65 _)), (held_valid query path Hq Hok) by lia. cbn [orb negb]. rewrite is_ok_OK. cbn [negb].
  rewrite <- Hfr, Hinit, is_ok_OK. cbn [negb]. unfold tlv_query_visit. cbn [mt_query]. unfold tlv_tree_reader_visit. cbn [tlv_reader_diagnostic_init].
  rewrite Hrunv, Hn, !fold_nodes_until. unfold alike in Ha.
  destruct (fold_until (visit_one (path_step path step)) _ _) as [st1|[rc [mt s1]]], (fold_until (visit_one step) _ _) as [s2|[rc2 s2]]; try done.
  - destruct Ha as (k & -> & _). done.
  - destruct Ha as [-> ->]. done.
Qed.

(** 21/22 *)
Definition visit_example : list (list Z) := [[33]; [34]].
Definition visit_example_step : node_visitor Z := fun s depth tag _ => (TLV_VISIT_CONTINUE, s * 100 + depth * 40 + byte_at tag 0).

Lemma query_visit_addressed_witness :
  let m := mem_of 1 [33; 5; 1; 1; 7; 34; 0; 2; 0] in
  @tlv_query_visit_buffer LP64 Z m 5 nested_rest_tree (mk_matcher None 0) (replicate 65 no_frame) (Ptr 1 0) 9 (Some tree_example_format)
    (Some (query_of visit_example)) 3 4 (Some (bytes_visitor m visit_example_step)) 0 None =
  Some (TLV_OK, 74, None).
Proof.
  intros m.
  exact (query_visit_addressed (H := LP64) tree_example_format _ eq_refl tree_example_laws tree_example_codec
    tree_example_class m (tree_example_classes m) tree_example_forest [33; 5; 1; 1; 7; 34; 0; 2; 0] (Ptr 1 0)
    nested_rest_tree (mk_matcher None 0) (replicate 65 no_frame) (query_of visit_example) visit_example 3 4 visit_example_step 0
    (query_of_holds _) ltac:(split; [done|split; [repeat constructor; done|reflexivity]]) eq_refl eq_refl ltac:(discriminate) ltac:(vm_compute; congruence)
    ltac:(vm_compute; reflexivity) ltac:(vm_compute; reflexivity) ltac:(vm_compute; congruence) ltac:(split; vm_compute; congruence)
    ltac:(split; vm_compute; congruence)).
Defined.
