(* ===== verification/Writer.v ===== *)
(** * The flat Writer (writer/writer.h, src/writer/writer.c)

    A Writer is a cursor over a caller's buffer: [w_pos] octets of [w_capacity] are written.  Every
    operation takes the memory and returns the memory it leaves. *)

From S2P Require Import Prelude Mem Core Format Diagnostic WireFormat Compose Formats Reader.

Inductive tlv_writer_operation_t : Type :=
| TLV_WRITER_OP_TAG | TLV_WRITER_OP_LENGTH | TLV_WRITER_OP_VALUE | TLV_WRITER_OP_HEADER
| TLV_WRITER_OP_TRAILER | TLV_WRITER_OP_COPY | TLV_WRITER_OP_PRESERVE | TLV_WRITER_OP_BEGIN
| TLV_WRITER_OP_END.

(** Optional members are options: the C struct keeps a zero in a member whose flag is clear. *)
Record tlv_writer_diagnostic_t := mk_writer_diagnostic {
  wd_diagnostic : tlv_diagnostic_t; wd_operation : tlv_writer_operation_t;
  wd_tag : option tlv_tag_t; wd_length : option Z; wd_required : option Z; wd_available : option Z }.

Record tlv_writer_t := mk_writer {
  w_format : option tlv_format_t; w_buf : ptr; w_capacity : Z; w_pos : Z }.

Definition tlv_writer_init (writer : option tlv_writer_t) (buf : ptr) (capacity : Z)
  (format : option tlv_format_t) : tlv_result_t * option tlv_writer_t :=
  match writer with
  | None => (TLV_ERR_NULL_ARG, writer)
  | Some _ =>
      if (is_null buf && negb (capacity =? 0)) || negb (tlv_format_can_write format) then
        (TLV_ERR_NULL_ARG, writer)
      else (TLV_OK, Some (mk_writer format buf capacity 0))
  end.

Definition tlv_writer_diagnostic_init (diagnostic : option tlv_writer_diagnostic_t)
  : option tlv_writer_diagnostic_t :=
  match diagnostic with
  | None => None
  | Some _ => Some (mk_writer_diagnostic zero_diagnostic TLV_WRITER_OP_TAG None None None None)
  end.

Definition wdiag `{Platform} (diagnostic : option tlv_writer_diagnostic_t) (code : tlv_result_t)
  (operation : tlv_writer_operation_t) (element : option tlv_element_t) (offset : Z)
  (available required : option Z) : option tlv_writer_diagnostic_t :=
  match diagnostic with
  | None => None
  | Some _ =>
      let d := cell zero_diagnostic
                 (tlv_diagnostic_init (Some zero_diagnostic) code TLV_DIAGNOSTIC_SEVERITY_ERROR) in
      let d := cell d (tlv_diagnostic_set_location (Some d) TLV_LOCATION_OUTPUT TLV_LOCATION_POINT
                         offset offset) in
      Some (mk_writer_diagnostic d operation
        (match element with Some e => Some e.(e_tag) | None => None end)
        (match element with
         | Some e => if e.(e_value).(v_size) <=? SIZE_MAX then Some e.(e_value).(v_size) else None
         | None => None
         end)
        required available)
  end.

Definition writer_region_operation (region : tlv_region_t) : tlv_writer_operation_t :=
  match region with
  | TLV_REGION_HEADER => TLV_WRITER_OP_HEADER
  | TLV_REGION_TAG => TLV_WRITER_OP_TAG
  | TLV_REGION_LENGTH => TLV_WRITER_OP_LENGTH
  | TLV_REGION_VALUE => TLV_WRITER_OP_VALUE
  | TLV_REGION_TRAILER => TLV_WRITER_OP_TRAILER
  end.

Definition with_wd_diagnostic (d : tlv_diagnostic_t) (w : tlv_writer_diagnostic_t)
  : tlv_writer_diagnostic_t :=
  mk_writer_diagnostic d w.(wd_operation) w.(wd_tag) w.(wd_length) w.(wd_required) w.(wd_available).

Definition with_wd_required (required : option Z) (w : tlv_writer_diagnostic_t)
  : tlv_writer_diagnostic_t :=
  mk_writer_diagnostic w.(wd_diagnostic) w.(wd_operation) w.(wd_tag) w.(wd_length) required
    w.(wd_available).

Definition wdiag_format `{Platform} (diagnostic : option tlv_writer_diagnostic_t)
  (code : tlv_result_t) (element : option tlv_element_t) (error : tlv_format_error_t)
  (available : option Z) : option tlv_writer_diagnostic_t :=
  match wdiag diagnostic code (writer_region_operation error.(fe_region)) element
          (if error.(fe_has_offset) then error.(fe_offset) else 0) available None with
  | None => None
  | Some d =>
      let d := if negb error.(fe_has_offset)
               then with_wd_diagnostic (with_location no_location d.(wd_diagnostic)) d else d in
      Some (if error.(fe_has_required) then
              let '(rc, required) := tlv_size_to_native error.(fe_required) (Some 0) in
              if is_ok rc then with_wd_required required d else d
            else d)
  end.

(** Out-parameters: the size and the diagnostic.  [encoding] is local and not read before it is set. *)
Definition tlv_element_encoded_size_diag `{Platform} (m : mem) (element : option tlv_element_t)
  (format : option tlv_format_t) (size : option Z) (diagnostic : option tlv_writer_diagnostic_t)
  : tlv_result_t * option Z * option tlv_writer_diagnostic_t :=
  let '(rc, encoding, error) :=
    match size with
    | Some _ => tlv_format_measure format m element (Some no_encoding) (Some no_error)
    | None => (TLV_ERR_NULL_ARG, Some no_encoding, Some no_error)
    end in
  let '(rc, size) :=
    if is_ok rc then tlv_size_to_native (cell no_encoding encoding).(en_total) size else (rc, size) in
  (rc, size,
   if negb (is_ok rc) then wdiag_format diagnostic rc element (cell no_error error) None
   else diagnostic).

Definition tlv_element_encoded_size `{Platform} (m : mem) (element : option tlv_element_t)
  (format : option tlv_format_t) (size : option Z) : tlv_result_t * option Z :=
  let '(rc, size, _) := tlv_element_encoded_size_diag m element format size None in (rc, size).

Definition tlv_encoded_size `{Platform} (m : mem) (tag : tlv_tag_t) (length : Z)
  (format : option tlv_format_t) (size : option Z) : tlv_result_t * option Z :=
  tlv_element_encoded_size m (Some (mk_element tag (mk_value NULL length))) format size.

Definition tlv_write_element_diag `{Platform} (m : mem) (data : ptr) (capacity : Z)
  (format : option tlv_format_t) (element : option tlv_element_t) (written : option Z)
  (diagnostic : option tlv_writer_diagnostic_t)
  : tlv_result_t * mem * option Z * option tlv_writer_diagnostic_t :=
  let '(rc, m, written, error) :=
    tlv_format_encode format m element data capacity written (Some no_error) in
  (rc, m, written,
   if negb (is_ok rc) then wdiag_format diagnostic rc element (cell no_error error) (Some capacity)
   else diagnostic).

Definition tlv_write_element `{Platform} (m : mem) (data : ptr) (capacity : Z)
  (format : option tlv_format_t) (element : option tlv_element_t) (written : option Z)
  : tlv_result_t * mem * option Z :=
  let '(rc, m, written, _) := tlv_write_element_diag m data capacity format element written None in
  (rc, m, written).

Definition tlv_write_diag `{Platform} (m : mem) (data : ptr) (capacity : Z)
  (format : option tlv_format_t) (tag : tlv_tag_t) (value : ptr) (length : Z) (written : option Z)
  (diagnostic : option tlv_writer_diagnostic_t)
  : tlv_result_t * mem * option Z * option tlv_writer_diagnostic_t :=
  tlv_write_element_diag m data capacity format (Some (mk_element tag (mk_value value length))) written
    diagnostic.

Definition tlv_write `{Platform} (m : mem) (data : ptr) (capacity : Z) (format : option tlv_format_t)
  (tag : tlv_tag_t) (value : ptr) (length : Z) (written : option Z)
  : tlv_result_t * mem * option Z :=
  let '(rc, m, written, _) := tlv_write_diag m data capacity format tag value length written None in
  (rc, m, written).

(** The destination of the next element and its size. *)
Definition writer_destination `{Platform} (writer : option tlv_writer_t)
  (element : option tlv_element_t) (diagnostic : option tlv_writer_diagnostic_t)
  : tlv_result_t * ptr * Z * option tlv_writer_diagnostic_t :=
  let rc := match writer with
            | None => TLV_ERR_NULL_ARG
            | Some w =>
                if w.(w_capacity) <? w.(w_pos) then TLV_ERR_BUFFER_TOO_SHORT
                else if is_null w.(w_buf) && negb (w.(w_capacity) =? 0) then TLV_ERR_NULL_ARG
                else TLV_OK
            end in
  match writer with
  | Some w =>
      if is_ok rc then
        (TLV_OK, if negb (is_null w.(w_buf)) then w.(w_buf) +p w.(w_pos) else NULL,
         w.(w_capacity) - w.(w_pos), diagnostic)
      else
        (rc, NULL, 0,
         match wdiag diagnostic rc TLV_WRITER_OP_VALUE element w.(w_pos) (Some 0) None with
         | Some d => Some (with_wd_diagnostic (with_location no_location d.(wd_diagnostic)) d)
         | None => None
         end)
  | None =>
      (rc, NULL, 0,
       match wdiag diagnostic rc TLV_WRITER_OP_VALUE element 0 (Some 0) None with
       | Some d => Some (with_wd_diagnostic (with_location no_location d.(wd_diagnostic)) d)
       | None => None
       end)
  end.

(** [location.kind] as a condition: the enumerator [TLV_LOCATION_UNKNOWN] is zero. *)
Definition kind_known (kind : tlv_location_kind_t) : bool :=
  match kind with TLV_LOCATION_UNKNOWN => false | _ => true end.

Definition writer_finish `{Platform} (w : tlv_writer_t) (rc : tlv_result_t) (written : Z)
  (diagnostic : option tlv_writer_diagnostic_t)
  : tlv_result_t * tlv_writer_t * option tlv_writer_diagnostic_t :=
  if is_ok rc then
    (rc, mk_writer w.(w_format) w.(w_buf) w.(w_capacity) (usize (w.(w_pos) + written)), diagnostic)
  else
    (rc, w,
     match diagnostic with
     | Some d =>
         if kind_known d.(wd_diagnostic).(dg_location).(l_kind) then
           Some (with_wd_diagnostic
             (with_location
                (cell no_location (tlv_location_translate (Some d.(wd_diagnostic).(dg_location)) w.(w_pos)))
                d.(wd_diagnostic)) d)
         else diagnostic
     | None => None
     end).

(** Out-parameters: the memory, the writer and the diagnostic. *)
Definition writer_result : Type :=
  tlv_result_t * mem * option tlv_writer_t * option tlv_writer_diagnostic_t.

Definition tlv_writer_write_element_diag `{Platform} (m : mem) (writer : option tlv_writer_t)
  (element : option tlv_element_t) (diagnostic : option tlv_writer_diagnostic_t) : writer_result :=
  let '(rc, data, available, diagnostic) := writer_destination writer element diagnostic in
  match writer with
  | Some w =>
      if negb (is_ok rc) then (rc, m, writer, diagnostic)
      else
        let '(rc, m, written, diagnostic) :=
          tlv_write_element_diag m data available w.(w_format) element (Some 0) diagnostic in
        let '(rc, w, diagnostic) := writer_finish w rc (cell 0 written) diagnostic in
        (rc, m, Some w, diagnostic)
  | None => (rc, m, writer, diagnostic)
  end.

Definition tlv_writer_write_element `{Platform} (m : mem) (writer : option tlv_writer_t)
  (element : option tlv_element_t) : tlv_result_t * mem * option tlv_writer_t :=
  let '(rc, m, writer, _) := tlv_writer_write_element_diag m writer element None in (rc, m, writer).

Definition tlv_writer_write_diag `{Platform} (m : mem) (writer : option tlv_writer_t) (tag : tlv_tag_t)
  (value : ptr) (length : Z) (diagnostic : option tlv_writer_diagnostic_t) : writer_result :=
  tlv_writer_write_element_diag m writer (Some (mk_element tag (mk_value value length))) diagnostic.

Definition tlv_writer_write `{Platform} (m : mem) (writer : option tlv_writer_t) (tag : tlv_tag_t)
  (value : ptr) (length : Z) : tlv_result_t * mem * option tlv_writer_t :=
  let '(rc, m, writer, _) := tlv_writer_write_diag m writer tag value length None in (rc, m, writer).

Definition tlv_writer_copy_element `{Platform} (m : mem) (writer : option tlv_writer_t)
  (element : option tlv_element_t) : tlv_result_t * mem * option tlv_writer_t :=
  match writer with
  | None => (TLV_ERR_NULL_ARG, m, writer)
  | Some w =>
      if w.(w_capacity) <? w.(w_pos) then (TLV_ERR_BUFFER_TOO_SHORT, m, writer)
      else
        match element with
        | None => (TLV_ERR_NULL_ARG, m, writer)
        | Some e =>
            if is_null e.(e_value).(v_data) && negb (e.(e_value).(v_size) =? 0) then
              (TLV_ERR_NULL_ARG, m, writer)
            else
              let '(rc, _) := tlv_size_to_native e.(e_value).(v_size) (Some 0) in
              if negb (is_ok rc) then (rc, m, writer) else tlv_writer_write_element m writer element
        end
  end.

Definition tlv_writer_copy_encoded_diag `{Platform} (m : mem) (writer : option tlv_writer_t)
  (encoded_data : ptr) (encoded_length : Z) (diagnostic : option tlv_writer_diagnostic_t)
  : writer_result :=
  let '(rc, data, available, diagnostic) := writer_destination writer None diagnostic in
  match writer with
  | Some w =>
      if negb (is_ok rc) then (rc, m, writer, diagnostic)
      else
        let '(rc, m, written) :=
          if is_null encoded_data && negb (encoded_length =? 0) then (TLV_ERR_NULL_ARG, m, Some 0)
          else if available <? encoded_length then (TLV_ERR_BUFFER_TOO_SHORT, m, Some 0)
          else tlv_copy_encoded m encoded_data encoded_length data available (Some 0) in
        let diagnostic :=
          if negb (is_ok rc) then
            wdiag diagnostic rc TLV_WRITER_OP_COPY None 0 (Some available) (Some encoded_length)
          else diagnostic in
        let '(rc, w, diagnostic) := writer_finish w rc (cell 0 written) diagnostic in
        (rc, m, Some w, diagnostic)
  | None => (rc, m, writer, diagnostic)
  end.

Definition tlv_writer_copy_encoded `{Platform} (m : mem) (writer : option tlv_writer_t)
  (encoded_data : ptr) (encoded_length : Z) : tlv_result_t * mem * option tlv_writer_t :=
  let '(rc, m, writer, _) := tlv_writer_copy_encoded_diag m writer encoded_data encoded_length None in
  (rc, m, writer).

Definition tlv_writer_preserve_diag `{Platform} (m : mem) (writer : option tlv_writer_t)
  (source : option tlv_source_t) (element : option tlv_element_t)
  (diagnostic : option tlv_writer_diagnostic_t) : writer_result :=
  let '(rc, data, available, diagnostic) := writer_destination writer element diagnostic in
  match writer with
  | Some w =>
      if negb (is_ok rc) then (rc, m, writer, diagnostic)
      else
        let '(rc, _, required) := tlv_source_preserve m source element NULL 0 (Some 0) in
        let required := cell 0 required in
        let '(rc, m, written, diagnostic) :=
          if negb (is_ok rc) then
            (rc, m, Some 0, wdiag diagnostic rc TLV_WRITER_OP_PRESERVE element 0 (Some available) None)
          else
            let '(rc, m, written) :=
              if available <? required then (TLV_ERR_BUFFER_TOO_SHORT, m, Some 0)
              else tlv_copy_encoded m (match source with Some s => s.(s_data) | None => NULL end)
                     required data available (Some 0) in
            (rc, m, written,
             if negb (is_ok rc) then
               wdiag diagnostic rc TLV_WRITER_OP_PRESERVE element 0 (Some available) (Some required)
             else diagnostic) in
        let '(rc, w, diagnostic) := writer_finish w rc (cell 0 written) diagnostic in
        (rc, m, Some w, diagnostic)
  | None => (rc, m, writer, diagnostic)
  end.

Definition tlv_writer_preserve `{Platform} (m : mem) (writer : option tlv_writer_t)
  (source : option tlv_source_t) (element : option tlv_element_t)
  : tlv_result_t * mem * option tlv_writer_t :=
  let '(rc, m, writer, _) := tlv_writer_preserve_diag m writer source element None in (rc, m, writer).

Definition tlv_writer_size (writer : option tlv_writer_t) : Z :=
  match writer with Some w => w.(w_pos) | None => 0 end.

Definition tlv_writer_remaining (writer : option tlv_writer_t) : Z :=
  match writer with
  | Some w => if w.(w_pos) <=? w.(w_capacity) then w.(w_capacity) - w.(w_pos) else 0
  | None => 0
  end.

(** ** A step of the Writer *)

Record writer_ok `{Platform} (w : tlv_writer_t) : Prop := {
  wk_pos : 0 <= w.(w_pos) <= w.(w_capacity);
  wk_capacity : w.(w_capacity) <= SIZE_MAX;
  wk_buf : w.(w_buf) = NULL -> w.(w_capacity) = 0;
  wk_format : tlv_format_can_write w.(w_format) = true }.

Definition advance (n : Z) (w : tlv_writer_t) : tlv_writer_t :=
  mk_writer w.(w_format) w.(w_buf) w.(w_capacity) (w.(w_pos) + n).

(** Where the next element goes; a NULL buffer stays NULL. *)
Definition writer_at (w : tlv_writer_t) : ptr := w.(w_buf) +p w.(w_pos).

Lemma writer_destination_ok `{Platform} w e dg :
  writer_ok w -> writer_destination (Some w) e dg = (TLV_OK, writer_at w, w.(w_capacity) - w.(w_pos), dg).
Proof.
  intros [Hp Hc Hb _]. unfold writer_destination, writer_at. rewrite (proj2 (Z.ltb_ge _ _)) by lia.
  replace (is_null (w_buf w) && negb (w_capacity w =? 0)) with false
    by (destruct (w_buf w); [rewrite Hb by done|]; done).
  rewrite is_ok_OK. destruct (w_buf w); done.
Qed.

Lemma writer_finish_ok `{Platform} w n dg :
  writer_ok w -> 0 <= n <= w.(w_capacity) - w.(w_pos) ->
  writer_finish w TLV_OK n dg = (TLV_OK, advance n w, dg) /\ writer_ok (advance n w).
Proof.
  intros [Hp Hc Hb Hf] Hn. unfold writer_finish. rewrite is_ok_OK. rewrite usize_small by lia.
  split; [done|]. split; cbn; done || lia.
Qed.

Lemma writer_finish_fail `{Platform} w rc n dg :
  rc <> TLV_OK -> exists dg', writer_finish w rc n dg = (rc, w, dg').
Proof. intros Hrc. unfold writer_finish. rewrite (proj2 (is_ok_false rc) Hrc). eexists. reflexivity. Qed.

Lemma writer_write_step `{Platform} m w f e dg :
  writer_ok w -> w.(w_format) = Some f ->
  (forall measure, f.(f_measure) = Some measure -> measure_typed measure) ->
  let '(rc, m', writer, dg') := tlv_writer_write_element_diag m (Some w) (Some e) dg in
  (rc = TLV_OK -> dg' = dg /\ exists en err,
     tlv_format_measure (Some f) m (Some e) (Some no_encoding) (Some no_error) = (TLV_OK, Some en, err) /\
     1 <= en.(en_total) <= w.(w_capacity) - w.(w_pos) /\ writer = Some (advance en.(en_total) w) /\
     writer_ok (advance en.(en_total) w)) /\
  (rc <> TLV_OK -> writer = Some w) /\
  (forall en err,
     tlv_format_measure (Some f) m (Some e) (Some no_encoding) (Some no_error) = (TLV_OK, Some en, err) ->
     is_null e.(e_value).(v_data) && negb (e.(e_value).(v_size) =? 0) = false ->
     w.(w_capacity) - w.(w_pos) < en.(en_total) <= SIZE_MAX -> rc = TLV_ERR_BUFFER_TOO_SHORT /\ m' = m).
Proof.
  intros Hw Hf Hty. unfold tlv_writer_write_element_diag. rewrite (writer_destination_ok w _ dg Hw), is_ok_OK.
  cbn [negb]. unfold tlv_write_element_diag. rewrite Hf.
  pose proof Hw as [Hp Hc Hb _]. assert (0 <= w_capacity w - w_pos w <= SIZE_MAX) as Hcap by lia.
  pose proof (format_encode_cases f m e (writer_at w) (w_capacity w - w_pos w) 0 (Some no_error) Hcap Hty) as He.
  destruct (tlv_format_encode (Some f) m (Some e) (writer_at w) (w_capacity w - w_pos w) (Some 0) (Some no_error))
    as [[[rc m'] written] err0]. destruct He as [He1 He2].
  assert (is_null (writer_at w) && negb (w_capacity w - w_pos w =? 0) = false) as Hn.
  { unfold writer_at. rewrite is_null_padd. destruct (w_buf w); [|done]. rewrite Hb in * by done. cbn. lia. }
  destruct (decide (rc = TLV_OK)) as [->|Hrc].
  - destruct (He1 eq_refl) as (en & Hm & -> & _ & Ht). rewrite is_ok_OK. cbn [negb cell].
    destruct (writer_finish_ok w (en_total en) dg Hw ltac:(lia)) as [-> Hok].
    split; [intros _; split; [done|]; exists en, err0; done|]. split; [done|].
    intros en1 err1 Hm1 Hv Hbig. destruct (He2 en1 err1 Hm1 Hn Hv Hbig) as [? _]. discriminate.
  - destruct (writer_finish_fail w rc (cell 0 written)
      (if negb (is_ok rc) then wdiag_format dg rc (Some e) (cell no_error err0) (Some (w_capacity w - w_pos w)) else dg) Hrc)
      as (dg' & ->).
    split; [done|]. split; [done|]. intros en1 err1 Hm1 Hv Hbig.
    destruct (He2 en1 err1 Hm1 Hn Hv Hbig) as (? & ? & _). done.
Qed.

(** One element through any format.  Success advances the position by exactly the measured size, which
    fits the free part of the buffer, and leaves the diagnostic alone; any failure leaves the writer as
    it was; and when the element does not fit, no octet of memory is written. *)
Theorem writer_write_sound `{Platform} (m : mem) (w : tlv_writer_t) (f : tlv_format_t)
  (e : tlv_element_t) (dg : option tlv_writer_diagnostic_t) (Hw : writer_ok w)
  (Hf : w.(w_format) = Some f)
  (Hty : forall measure, f.(f_measure) = Some measure -> measure_typed measure) :
  let '(rc, m', writer, dg') := tlv_writer_write_element_diag m (Some w) (Some e) dg in
  (rc = TLV_OK -> dg' = dg /\ exists en err,
     tlv_format_measure (Some f) m (Some e) (Some no_encoding) (Some no_error) = (TLV_OK, Some en, err) /\
     1 <= en.(en_total) <= w.(w_capacity) - w.(w_pos) /\ writer = Some (advance en.(en_total) w) /\
     writer_ok (advance en.(en_total) w)) /\
  (rc <> TLV_OK -> writer = Some w) /\
  (forall en err,
     tlv_format_measure (Some f) m (Some e) (Some no_encoding) (Some no_error) = (TLV_OK, Some en, err) ->
     is_null e.(e_value).(v_data) && negb (e.(e_value).(v_size) =? 0) = false ->
     w.(w_capacity) - w.(w_pos) < en.(en_total) <= SIZE_MAX -> rc = TLV_ERR_BUFFER_TOO_SHORT /\ m' = m).
Proof. exact (writer_write_step m w f e dg Hw Hf Hty). Qed.

Lemma writer_write_sound_witness :
  let m := mem_of 1 [90; 1; 2] in
  let e := mk_element (tlv_tag (Ptr 1 0) 1) (mk_value (Ptr 1 1) 2) in
  let w := mk_writer (Some rest_codec) (Ptr 2 0) 5 1 in
  exists m' dg, @tlv_writer_write_element_diag LP64 m (Some w) (Some e) None = (TLV_OK, m', Some (advance 3 w), dg) /\
    writer_ok (H := LP64) (advance 3 w).
Proof.
  intros m e w.
  assert (writer_ok (H := LP64) w) as Hw by (split; cbn; (done || lia || (vm_compute; done))).
  pose proof (writer_write_sound (H := LP64) m w rest_codec e None Hw eq_refl rest_measure_typed) as Hs.
  destruct (@tlv_writer_write_element_diag LP64 m (Some w) (Some e) None) as [[[rc m'] wr] dg] eqn:E.
  assert (rc = TLV_OK) as -> by (apply (f_equal (fun x => fst (fst (fst x)))) in E; exact (eq_sym E)).
  destruct (proj1 Hs eq_refl) as (_ & en & err & Hm & _ & -> & Hok).
  assert (en_total en = 3) as Et by (injection Hm as <- _; reflexivity).
  rewrite Et in *. exists m', dg. split; [reflexivity|exact Hok].
Defined.

(** ** Writing a sequence *)

(** A client's loop: elements in order until the first failure. *)
Fixpoint writer_write_all `{Platform} (m : mem) (w : tlv_writer_t) (es : list tlv_element_t)
  : tlv_result_t * mem * tlv_writer_t :=
  match es with
  | [] => (TLV_OK, m, w)
  | e :: es =>
      let '(rc, m, writer) := tlv_writer_write_element m (Some w) (Some e) in
      if is_ok rc then writer_write_all m (cell w writer) es else (rc, m, cell w writer)
  end.

(** The octets an element stands for. *)
Definition element_octets (m : mem) (e : tlv_element_t) : list Z * list Z :=
  (tag_bytes m e.(e_tag), value_bytes m e.(e_value)).

Lemma disjoint_sub p n q k i j :
  0 <= i -> i + j <= n -> disjoint_range p n q k -> disjoint_range (p +p i) j q k.
Proof. destruct p, q; cbn; try done. lia. Qed.

Lemma element_apart_sub e p n i j :
  0 <= i -> i + j <= n -> element_apart e p n -> element_apart e (p +p i) j.
Proof. intros Hi Hj [H1 H2]. split; eapply disjoint_sub; eassumption. Qed.

Lemma element_octets_only m m' p n e :
  element_apart e p n -> only_changes m m' p n -> element_octets m' e = element_octets m e.
Proof.
  intros [H1 H2] Ho. unfold element_octets, tag_bytes, value_bytes.
  f_equal; apply same_bytes_of; eapply only_same; eassumption.
Qed.

Lemma writer_write_codec `{Platform} f `{!CodecLaws f} m w e x :
  writer_ok w -> w.(w_format) = Some f -> w.(w_buf) <> NULL -> element_ok e ->
  wire_of f (element_octets m e) x -> zlen x <= w.(w_capacity) - w.(w_pos) ->
  element_apart e w.(w_buf) w.(w_capacity) ->
  exists m', tlv_writer_write_element m (Some w) (Some e) = (TLV_OK, m', Some (advance (zlen x) w)) /\
    only_changes m m' (writer_at w) (zlen x) /\ bytes_of m' (writer_at w) (zlen x) = x /\
    writer_ok (advance (zlen x) w).
Proof.
  intros Hw Hf Hb He Hx Hfit Hap. pose proof Hw as [Hp Hc _ _].
  unfold tlv_writer_write_element, tlv_writer_write_element_diag.
  rewrite (writer_destination_ok w _ None Hw), is_ok_OK. cbn [negb]. unfold tlv_write_element_diag. rewrite Hf.
  destruct (cl_encode m e (writer_at w) (w_capacity w - w_pos w) 0 (Some no_error) x He) as (m' & -> & Ho & Hbytes);
    try done; try lia.
  - unfold writer_at. destruct (w_buf w); done.
  - apply (element_apart_sub e (w_buf w) (w_capacity w)); [lia|lia|done].
  - rewrite is_ok_OK. cbn [negb cell]. destruct (writer_finish_ok w (zlen x) None Hw ltac:(lia)) as [-> Hok].
    exists m'. done.
Qed.

Lemma advance_advance a b w : advance a (advance b w) = advance (b + a) w.
Proof. unfold advance. cbn. f_equal. lia. Qed.

Lemma writer_write_all_wire `{Platform} f `{!CodecLaws f} es : forall m w ws,
  writer_ok w -> w.(w_format) = Some f -> w.(w_buf) <> NULL -> Forall element_ok es ->
  Forall (fun e => element_apart e w.(w_buf) w.(w_capacity)) es ->
  Forall2 (wire_of f) (map (element_octets m) es) ws -> zlen (concat ws) <= w.(w_capacity) - w.(w_pos) ->
  exists m', writer_write_all m w es = (TLV_OK, m', advance (zlen (concat ws)) w) /\
    only_changes m m' (writer_at w) (zlen (concat ws)) /\
    bytes_of m' (writer_at w) (zlen (concat ws)) = concat ws.
Proof.
  induction es as [|e es IH]; intros m w ws Hw Hf Hb He Hap HF Hfit; cbn [map] in HF;
    inversion HF as [|? x ? ws' Hx HF']; subst; cbn [concat writer_write_all] in *.
  - exists m. split; [|split; [done|done]]. f_equal. unfold advance. destruct w. cbn. f_equal. lia.
  - rewrite length_app in Hfit. inversion_clear He as [|? ? He1 He']. inversion_clear Hap as [|? ? Ha Hap'].
    pose proof Hw as [Hp Hc _ _].
    destruct (writer_write_codec f m w e x Hw Hf Hb He1 Hx ltac:(lia) Ha) as (m1 & -> & Ho1 & Hb1 & Hw1).
    rewrite is_ok_OK. cbn [cell].
    assert (only_changes m m1 (w_buf w) (w_capacity w)) as Hwide by (apply (only_sub m m1 (w_buf w) (w_capacity w) (w_pos w) (zlen x)); [lia|lia|exact Ho1]).
    assert (Forall2 (wire_of f) (map (element_octets m1) es) ws') as HF1.
    { replace (map (element_octets m1) es) with (map (element_octets m) es); [done|].
      apply map_ext_in. intros e1 Hin. symmetry. apply (element_octets_only m m1 (w_buf w) (w_capacity w)); [|done].
      rewrite List.Forall_forall in Hap'. now apply Hap'. }
    destruct (IH m1 (advance (zlen x) w) ws' Hw1 Hf Hb He' Hap' HF1 ltac:(cbn; lia)) as (m2 & -> & Ho2 & Hb2).
    assert (writer_at (advance (zlen x) w) = writer_at w +p zlen x) as Eat
      by (unfold writer_at; cbn; now rewrite padd_padd).
    rewrite Eat in *. exists m2. rewrite length_app, advance_advance, !Nat2Z.inj_add. split; [done|]. split.
    + apply (only_trans m m1 m2); [apply (only_prefix _ _ _ _ (zlen x)); [lia|done]|].
      apply (only_sub _ _ _ _ (zlen x) (zlen (concat ws'))); [lia|lia|done].
    + rewrite bytes_of_app by lia. f_equal; [|exact Hb2]. etransitivity; [|exact Hb1].
      apply same_bytes_of, (only_same m1 m2 _ _ _ _ Ho2). destruct (writer_at w); cbn; [done|lia].
Qed.

(** C16. What a Writer writes, a Reader reads: writing any sequence of encodable elements, held outside the
    buffer, succeeds when their octets fit, fills exactly the octets up to the new position, and a
    Reader over those octets yields the same tags and values in the same order and then END. *)
Theorem writer_reader_roundtrip `{Platform} (f : tlv_format_t) (Hlaws : CodecLaws f) (m : mem) (buf : ptr)
  (capacity : Z) (es : list tlv_element_t) (ws : list (list Z)) (w0 : tlv_writer_t) (r0 : tlv_reader_t)
  (Hread : tlv_format_can_read (Some f) = true) (Hwrite : tlv_format_can_write (Some f) = true)
  (Hbuf : buf <> NULL) (Hcap : capacity <= SIZE_MAX) (He : Forall element_ok es)
  (Hap : Forall (fun e => element_apart e buf capacity) es)
  (Hw : Forall2 (wire_of f) (map (element_octets m) es) ws) (Hfit : zlen (concat ws) <= capacity) :
  exists w m' w' r els, tlv_writer_init (Some w0) buf capacity (Some f) = (TLV_OK, Some w) /\
    writer_write_all m w es = (TLV_OK, m', w') /\ tlv_writer_size (Some w') = zlen (concat ws) /\
    only_changes m m' buf (zlen (concat ws)) /\ bytes_of m' buf (zlen (concat ws)) = concat ws /\
    tlv_reader_init (Some r0) buf (tlv_writer_size (Some w')) (Some f) = (TLV_OK, Some r) /\
    reader_drain (S (length es)) m' r =
      Some (TLV_END, els, mk_reader (Some f) buf (zlen (concat ws)) (zlen (concat ws)) 0 1) /\
    map (element_octets m') els = map (element_octets m) es.
Proof.
  unfold tlv_writer_init. rewrite Hwrite. replace (is_null buf) with false by (by destruct buf). cbn [andb orb negb].
  set (w := mk_writer (Some f) buf capacity 0).
  assert (writer_ok w) as Hok by (split; cbn; try done; lia).
  destruct (writer_write_all_wire f es m w ws Hok eq_refl Hbuf He Hap Hw ltac:(cbn; lia)) as (m' & Hrun & Ho & Hb).
  unfold writer_at in *. cbn [w_buf w_pos w] in *. rewrite padd_0 in *.
  unfold tlv_reader_init. rewrite Hread. replace (is_null buf) with false by (by destruct buf). cbn [andb orb negb].
  set (r := mk_reader (Some f) buf (tlv_writer_size (Some (advance (zlen (concat ws)) w))) 0 0 1).
  assert (reader_ok r) as Hr by (split; cbn; try done; try lia; by right).
  destruct (reader_drain_wire f m' (map (element_octets m) es) ws r (S (length es)) Hr eq_refl eq_refl Hw)
    as (els & Hdr & Hmap).
  - cbn. rewrite padd_0, Z.sub_0_r. exact Hb.
  - rewrite length_map. lia.
  - exists w, m', (advance (zlen (concat ws)) w), r, els. do 6 (split; [done|]). split; [exact Hdr|exact Hmap].
Qed.

Lemma writer_reader_roundtrip_witness :
  let m := mem_of 1 [10; 20; 7; 8; 9] in
  let e1 := mk_element (tlv_tag (Ptr 1 0) 2) (mk_value (Ptr 1 2) 1) in
  let e2 := mk_element (tlv_tag (Ptr 1 3) 2) (mk_value NULL 0) in
  exists w m' w' r els, tlv_writer_init (Some (mk_writer None NULL 0 0)) (Ptr 2 0) 12 (Some fixed_example_format) = (TLV_OK, Some w) /\
    @writer_write_all LP64 m w [e1; e2] = (TLV_OK, m', w') /\ tlv_writer_size (Some w') = 9 /\
    bytes_of m' (Ptr 2 0) 9 = [3; 0; 10; 20; 7; 2; 0; 8; 9] /\
    tlv_reader_init (Some (mk_reader None NULL 0 0 0 0)) (Ptr 2 0) 9 (Some fixed_example_format) = (TLV_OK, Some r) /\
    map (element_octets m') els = [([10; 20], [7]); ([8; 9], [])].
Proof.
  intros m e1 e2.
  assert (Forall (element_ok (H := LP64)) [e1; e2]) as He
    by (repeat constructor; cbn; (done || lia || (vm_compute; done) || (intros; discriminate))).
  assert (Forall (fun e => element_apart e (Ptr 2 0) 12) [e1; e2]) as Ha
    by (repeat constructor; cbn; (done || (left; discriminate))).
  destruct (writer_reader_roundtrip (H := LP64) fixed_example_format fixed_example_codec m (Ptr 2 0) 12 [e1; e2]
    [[3; 0; 10; 20; 7]; [2; 0; 8; 9]] (mk_writer None NULL 0 0) (mk_reader None NULL 0 0 0 0) eq_refl eq_refl
    ltac:(discriminate) ltac:(vm_compute; discriminate) He Ha ltac:(repeat constructor) ltac:(vm_compute; discriminate))
    as (w & m' & w' & r & els & H1 & H2 & H3 & _ & H4 & H5 & _ & H6).
  exists w, m', w', r, els. rewrite H3 in H5. exact (conj H1 (conj H2 (conj H3 (conj H4 (conj H5 H6))))).
Defined.
