(* ===== verification/Asn1.v ===== *)
(** * ASN.1 identifiers and lengths (builtins/asn1/identifier.h, src/builtins/asn1/identifier.c,
    src/builtins/asn1/ber_internal.h, src/builtins/asn1/ber_internal.c, src/builtins/asn1/asn1_internal.c, src/builtins/asn1/der.c)

    Configurations of the variable field codecs, with the restrictions of BER and DER over them, and the
    arithmetic of tags.  A local array is a memory of its own. *)

From S2P Require Import Prelude Mem Core Endian Format FieldFixed FieldVariable Compose.

Definition TLV_ASN1_CLASS_SHIFT : Z := 6.
Definition TLV_ASN1_CONSTRUCTED_BIT : Z := 32.
Definition TLV_ASN1_TAG_NUMBER_MASK : Z := 31.
Definition TLV_ASN1_LOW_TAG_LIMIT : Z := 31.
Definition TLV_ASN1_TAG_MAX_SIZE : Z := 8.
Definition TLV_BER_TAG_DIGIT_MASK : Z := 127.
Definition TLV_BER_TAG_DIGIT_CONTINUATION_BIT : Z := 128.
Definition TLV_BER_TAG_DIGIT_BITS : Z := 7.
Definition TLV_BER_LENGTH_LONG_FORM_BIT : Z := 128.
Definition TLV_BER_LENGTH_COUNT_MASK : Z := 127.
Definition TLV_BER_INDEFINITE_LENGTH_OCTET_SIZE : Z := 1.
Definition TLV_BER_EOC_SIZE : Z := 2.

Inductive tlv_asn1_class_t : Type :=
| TLV_ASN1_UNIVERSAL | TLV_ASN1_APPLICATION | TLV_ASN1_CONTEXT_SPECIFIC | TLV_ASN1_PRIVATE | TLV_ASN1_CLASS_OTHER (n : Z).

(** The enumerator; [None] is above TLV_ASN1_PRIVATE. *)
Definition class_number (c : tlv_asn1_class_t) : option Z :=
  match c with
  | TLV_ASN1_UNIVERSAL => Some 0 | TLV_ASN1_APPLICATION => Some 1 | TLV_ASN1_CONTEXT_SPECIFIC => Some 2
  | TLV_ASN1_PRIVATE => Some 3 | TLV_ASN1_CLASS_OTHER _ => None
  end.

Definition tlv_asn1_is_constructed : tlv_is_constructed_fn := fun m tag =>
  tlv_constructed_bit_predicate m (Some (mk_bit 0 TLV_ASN1_CONSTRUCTED_BIT TLV_ASN1_CONSTRUCTED_BIT)) (Some tag).

(** ** The BER fields *)

Definition ber_identifier_policy : tlv_identifier_policy_t := mk_identifier_policy None 0 1 0.
Definition ber_length_policy : tlv_length_policy_t := mk_length_policy 1 1 0 126 UINT64_MAX.
Definition ber_identifier : tlv_variable_identifier_t :=
  mk_variable_identifier TLV_ASN1_TAG_NUMBER_MASK TLV_ASN1_TAG_NUMBER_MASK TLV_BER_TAG_DIGIT_CONTINUATION_BIT
    TLV_BER_TAG_DIGIT_MASK TLV_ASN1_TAG_MAX_SIZE (Some ber_identifier_policy).
Definition ber_length : tlv_variable_length_t :=
  mk_variable_length TLV_BER_LENGTH_LONG_FORM_BIT TLV_BER_LENGTH_COUNT_MASK TLV_BYTE_ORDER_BIG_ENDIAN (Some ber_length_policy).

Definition ber_wire_read_tag : tlv_read_tag_fn := variable_tag_reader ber_identifier.
Definition ber_wire_write_tag : tlv_write_tag_fn := variable_tag_writer ber_identifier.
Definition ber_wire_read_length : tlv_read_length_fn := variable_length_reader ber_length.

Definition tlv_ber_length_field_size (m : mem) (data : ptr) (size : Z) : Z :=
  let '(_, _, consumed) := tlv_variable_length_read (Some ber_length) m data size (Some 0) (Some 0) in cell 0 consumed.

Definition tlv_ber_length_decode (m : mem) (data : ptr) (data_size : Z) (value consumed : option Z)
  : tlv_result_t * option Z * option Z :=
  match value, consumed with
  | Some _, Some _ =>
      if is_null data && negb (data_size =? 0) then (TLV_ERR_NULL_ARG, value, consumed)
      else
        let '(rc, decoded, used) := tlv_variable_length_read (Some ber_length) m data data_size (Some 0) (Some 0) in
        if negb (is_ok rc) then (rc, value, consumed) else (TLV_OK, decoded, used)
  | _, _ => (TLV_ERR_NULL_ARG, value, consumed)
  end.

Definition tlv_ber_length_encode (m : mem) (value : Z) (out : ptr) (out_capacity : Z) (written : option Z)
  : tlv_result_t * mem * option Z := tlv_variable_length_write (Some ber_length) m value out out_capacity written.

Definition tlv_ber_write_length : tlv_write_length_fn := variable_length_writer ber_length.

Definition tlv_ber_wire : tlv_field_composition_t :=
  mk_fields (Some ber_wire_read_tag) (Some ber_wire_read_length) None (Some ber_wire_write_tag) (Some tlv_ber_write_length)
    TLV_ELEMENT_ORDER_TLV TLV_LENGTH_SCOPE_VALUE.

(** ** The identifiers and lengths that DER and CER share *)

Definition asn1_identifier : tlv_variable_identifier_t :=
  mk_variable_identifier TLV_ASN1_TAG_NUMBER_MASK TLV_ASN1_TAG_NUMBER_MASK TLV_BER_TAG_DIGIT_CONTINUATION_BIT
    TLV_BER_TAG_DIGIT_MASK TLV_ASN1_TAG_MAX_SIZE (Some (mk_identifier_policy None 0 1 1)).
Definition asn1_length : tlv_variable_length_t :=
  mk_variable_length TLV_BER_LENGTH_LONG_FORM_BIT TLV_BER_LENGTH_COUNT_MASK TLV_BYTE_ORDER_BIG_ENDIAN
    (Some (mk_length_policy 1 1 1 126 UINT64_MAX)).

Definition tlv_asn1_number_must_construct (number : Z) : bool :=
  (number =? 8) || (number =? 11) || (number =? 16) || (number =? 17) || (number =? 29).

(** [count == 1 ? (data[0] & MASK) : (count == 2 ? data[1] : 127)] *)
Definition small_number (m : mem) (data : ptr) (count : Z) : Z :=
  if count =? 1 then Z.land (ld m data 0) TLV_ASN1_TAG_NUMBER_MASK else if count =? 2 then ld m data 1 else 127.

Definition tlv_asn1_read_identifier : tlv_read_tag_fn := fun m data size tag consumed =>
  if is_null data && negb (size =? 0) then (TLV_ERR_NULL_ARG, tag, consumed)
  else
    let '(rc, parsed, count) := variable_tag_reader asn1_identifier m data size empty_tag 0 in
    if negb (is_ok rc) then (rc, tag, if rc_eqb rc TLV_ERR_TRUNCATED then count else consumed)
    else
      let number := small_number m data count in
      if (Z.land (ld m data 0) 192 =? 0) &&
         ((number =? 0) || (number =? 15) ||
          (tlv_asn1_number_must_construct number && (Z.land (ld m data 0) TLV_ASN1_CONSTRUCTED_BIT =? 0)))
      then (TLV_ERR_INVALID_TAG, tag, consumed)
      else (TLV_OK, parsed, count).

(** [for (i = 0; i < count; ++i) data[i] = tag->data[i]], from [i] on. *)
Fixpoint copy_loop (n : nat) (m : mem) (data source : ptr) (i : Z) : mem :=
  match n with O => m | S n => copy_loop n (st m data i (ld m source i)) data source (i + 1) end.

Definition tlv_asn1_write_identifier_checked (read_identifier : tlv_read_tag_fn) : tlv_write_tag_fn :=
  fun m tag data capacity written =>
    if (is_null tag.(t_data) && negb (tag.(t_size) =? 0)) || (is_null data && negb (capacity =? 0)) then
      (TLV_ERR_NULL_ARG, m, written)
    else if (tag.(t_size) =? 0) || (TLV_ASN1_TAG_MAX_SIZE <? tag.(t_size)) then (TLV_ERR_INVALID_TAG_SIZE, m, written)
    else
      let '(rc, _, count) := read_identifier m tag.(t_data) tag.(t_size) empty_tag 0 in
      if rc_eqb rc TLV_ERR_INVALID_TAG_SIZE then (rc, m, written)
      else if negb (is_ok rc) || negb (count =? tag.(t_size)) then (TLV_ERR_INVALID_TAG, m, written)
      else if negb (is_null data) && (capacity <? count) then (TLV_ERR_BUFFER_TOO_SHORT, m, written)
      else (TLV_OK, (if negb (is_null data) then copy_loop (Z.to_nat count) m data tag.(t_data) 0 else m), count).

Definition tlv_asn1_read_minimal_length : tlv_read_length_fn := variable_length_reader asn1_length.

Definition tlv_asn1_write_identifier : tlv_write_tag_fn := tlv_asn1_write_identifier_checked tlv_asn1_read_identifier.

(** ** DER *)

Definition der_read_tag : tlv_read_tag_fn := fun m data size tag consumed =>
  if is_null data && negb (size =? 0) then (TLV_ERR_NULL_ARG, tag, consumed)
  else
    let '(rc, parsed, count) := tlv_asn1_read_identifier m data size empty_tag 0 in
    if negb (is_ok rc) then (rc, tag, if rc_eqb rc TLV_ERR_TRUNCATED then count else consumed)
    else
      let number := small_number m data count in
      if (Z.land (ld m data 0) 192 =? 0) && (number <=? 36) && negb (tlv_asn1_number_must_construct number) &&
         negb (Z.land (ld m data 0) TLV_ASN1_CONSTRUCTED_BIT =? 0)
      then (TLV_ERR_INVALID_TAG, tag, consumed)
      else (TLV_OK, parsed, count).

Definition der_write_tag : tlv_write_tag_fn := tlv_asn1_write_identifier_checked der_read_tag.

Definition tlv_der_fields : tlv_field_composition_t :=
  mk_fields (Some der_read_tag) (Some tlv_asn1_read_minimal_length) None (Some der_write_tag) (Some tlv_ber_write_length)
    TLV_ELEMENT_ORDER_TLV TLV_LENGTH_SCOPE_VALUE.

(** [self] is the address of the composition, which is the context of the format. *)
Definition tlv_format_der `{Platform} (self : ptr) : tlv_format_t :=
  mk_format self (Some (tlv_fields_decode tlv_der_fields)) (Some (tlv_fields_measure tlv_der_fields))
    (Some (tlv_fields_encode tlv_der_fields)) (Some tlv_asn1_is_constructed).

(** ** The arithmetic of tags *)

(** [do { .. } while (number)]: the digits of a 64-bit number, the least significant first. *)
Fixpoint tag_digits (fuel : nat) (number : Z) : list Z :=
  match fuel with
  | O => []
  | S fuel =>
      let rest := Z.shiftr number TLV_BER_TAG_DIGIT_BITS in
      Z.land number TLV_BER_TAG_DIGIT_MASK :: if rest =? 0 then [] else tag_digits fuel rest
  end.

(** The octets of digits, the most significant first: all but the last are continued. *)
Fixpoint tag_octets (digits : list Z) : list Z :=
  match digits with
  | [] => []
  | d :: rest => u8 (Z.lor d (match rest with [] => 0 | _ => TLV_BER_TAG_DIGIT_CONTINUATION_BIT end)) :: tag_octets rest
  end.

Definition tlv_asn1_tag_make_checked (validate : tlv_write_tag_fn) (m : mem) (tag_class : tlv_asn1_class_t) (constructed number : Z)
  (storage : ptr) (tag : option tlv_tag_t) : tlv_result_t * mem * option tlv_tag_t :=
  match tag with
  | None => (TLV_ERR_NULL_ARG, m, tag)
  | Some _ =>
      if is_null storage then (TLV_ERR_NULL_ARG, m, tag)
      else
        match class_number tag_class with
        | None => (TLV_ERR_INVALID_TAG, m, tag)
        | Some class =>
            if negb (constructed =? 0) && negb (constructed =? 1) then (TLV_ERR_INVALID_TAG, m, tag)
            else
              let lead := u8 (Z.lor (Z.shiftl class TLV_ASN1_CLASS_SHIFT)
                                (if negb (constructed =? 0) then TLV_ASN1_CONSTRUCTED_BIT else 0)) in
              let digits := tag_digits 10 number in
              if negb (number <? TLV_ASN1_LOW_TAG_LIMIT) && (TLV_ASN1_TAG_MAX_SIZE <? zlen digits + 1) then
                (TLV_ERR_INVALID_TAG_SIZE, m, tag)
              else
                let bytes :=
                  if number <? TLV_ASN1_LOW_TAG_LIMIT then [u8 (Z.lor lead (u8 number))]
                  else u8 (Z.lor lead TLV_ASN1_TAG_NUMBER_MASK) :: tag_octets (rev digits) in
                let '(rc, _, _) := validate (mem_of 0 bytes) (tlv_tag (Ptr 0 0) (zlen bytes)) NULL 0 0 in
                if negb (is_ok rc) then (TLV_ERR_INVALID_TAG, m, tag)
                else (TLV_OK, put_at m storage bytes, Some (tlv_tag storage (zlen bytes)))
        end
  end.

(** The loop over the octets from [i] on; [None] is an invalid tag. *)
Fixpoint tag_number_loop (n : nat) (m : mem) (data : ptr) (i result : Z) : option Z :=
  match n with
  | O => Some result
  | S n =>
      if Z.shiftr UINT64_MAX TLV_BER_TAG_DIGIT_BITS <? result then None
      else tag_number_loop n m data (i + 1)
             (Z.lor (u64 (Z.shiftl result TLV_BER_TAG_DIGIT_BITS)) (Z.land (ld m data i) TLV_BER_TAG_DIGIT_MASK))
  end.

Definition tlv_asn1_tag_number_checked (validate : tlv_write_tag_fn) (m : mem) (tag : option tlv_tag_t) (number : option Z)
  : tlv_result_t * option Z :=
  match tag, number with
  | Some t, Some _ =>
      let '(rc, _, _) := validate m t NULL 0 0 in
      if negb (is_ok rc) then (rc, number)
      else if 1 <? t.(t_size) then
        match tag_number_loop (Z.to_nat (t.(t_size) - 1)) m t.(t_data) 1 0 with
        | Some result => (TLV_OK, Some result)
        | None => (TLV_ERR_INVALID_TAG, number)
        end
      else (TLV_OK, Some (Z.land (ld m t.(t_data) 0) TLV_ASN1_TAG_NUMBER_MASK))
  | _, _ => (TLV_ERR_NULL_ARG, number)
  end.

Definition tlv_der_tag_make := tlv_asn1_tag_make_checked der_write_tag.
Definition tlv_der_tag_number := tlv_asn1_tag_number_checked der_write_tag.
