(* ===== verification/Asn1Laws.v ===== *)
(** * Laws of ASN.1 identifiers and lengths: the fields of BER and DER are lawful

    A restricted identifier reader refuses some of the identifiers that a variable one reads; what it
    refuses is decided by their octets. *)

From S2P Require Import Prelude Mem Core Endian Format FieldFixed FieldVariable FieldVariableLaws WireFormat Compose ComposeLaws Asn1.

Section Restricted.
Context `{Platform} (c : tlv_variable_identifier_t) (Hc : variable_identifier_ok c) (Hmax : c.(vi_max_size) <= SIZE_MAX)
  (bad : mem -> ptr -> Z -> bool)
  (Hbad : forall m m' data data' k, 1 <= k -> (forall i, 0 <= i < k -> ld m data i = ld m' data' i) -> bad m data k = bad m' data' k)
  (read : tlv_read_tag_fn) (write : tlv_write_tag_fn)
  (Hread : forall m data size t0 c0 t k, data <> NULL -> 0 <= size ->
     read m data size t0 c0 = (TLV_OK, t, k) <-> variable_tag_reader c m data size empty_tag 0 = (TLV_OK, t, k) /\ bad m data k = false)
  (Htrunc : forall m data size t0 c0 k, data <> NULL -> 0 <= size < k -> bad m data k = false ->
     (forall t1 c1, fst (fst (variable_tag_reader c m data size t1 c1)) = TLV_ERR_TRUNCATED) -> fst (fst (read m data size t0 c0)) = TLV_ERR_TRUNCATED).

(** The identifiers that are read whole. *)
Definition restricted_admits (l : list Z) : bool := identifier_admits c l && negb (bad (mem_of 1 l) (Ptr 1 0) (zlen l)).

Lemma restricted_bad m data n : 1 <= n -> bad (mem_of 1 (bytes_of m data n)) (Ptr 1 0) (zlen (bytes_of m data n)) = bad m data n.
Proof using Hbad.
  intros Hn. rewrite length_bytes_of, Z2Nat.id by lia. apply Hbad; [done|]. intros i Hi. now apply ld_mem_of_bytes_of.
Qed.

Lemma restricted_reads m data n size t0 c0 : 0 <= n <= size -> data <> NULL -> restricted_admits (bytes_of m data n) = true ->
  read m data size t0 c0 = (TLV_OK, tlv_tag data n, n).
Proof using Hc Hbad Hread.
  intros Hn Hd Ha. apply andb_true_iff in Ha as [Ha Hb]. pose proof (identifier_admits_length c Hc _ Ha) as Hl. rewrite length_bytes_of in Hl.
  apply Hread; [done|lia|]. split; [now apply identifier_admits_reads|]. rewrite restricted_bad in Hb by lia. now apply negb_true_iff.
Qed.

Lemma restricted_sound m data size t0 c0 t k : data <> NULL -> 0 <= size -> read m data size t0 c0 = (TLV_OK, t, k) ->
  1 <= k <= size /\ t = tlv_tag data k /\ restricted_admits (bytes_of m data k) = true.
Proof using Hc Hbad Hread.
  intros Hd Hs Hr. apply Hread in Hr as [Hr Hb]; [|done|done].
  pose proof (variable_tag_read_inv c Hc _ _ _ _ _ _ _ Hd Hs Hr) as (Hk & _ & -> & Hloc). split; [done|]. split; [done|].
  unfold restricted_admits. rewrite restricted_bad, Hb by lia. cbn [negb]. rewrite andb_true_r. unfold identifier_admits. rewrite length_bytes_of, Z2Nat.id by lia.
  rewrite Hloc; [|done|lia|intros; symmetry; now apply ld_mem_of_bytes_of]. rewrite is_ok_OK, Z.eqb_refl. done.
Qed.

Lemma restricted_tag_field
  (Hwrite : forall m t data capacity w0, tag_ok t -> restricted_admits (tag_bytes m t) = true ->
     is_null data && negb (capacity =? 0) = false -> (is_null data = false -> t.(t_size) <= capacity) ->
     (is_null data = false -> disjoint_range data t.(t_size) t.(t_data) t.(t_size)) ->
     exists m', write m t data capacity w0 = (TLV_OK, m', t.(t_size)) /\
       if is_null data then m' = m else only_changes m m' data t.(t_size) /\ bytes_of m' data t.(t_size) = tag_bytes m t) :
  TagField read write.
Proof using Hc Hmax Hbad Hread Htrunc.
  refine {| tag_adm := restricted_admits |}.
  - intros l Ha. apply andb_true_iff in Ha as [Ha _]. apply (identifier_admits_length c Hc) in Ha. lia.
  - intros m t w0 Ht Ha. destruct (Hwrite m t NULL 0 w0 Ht Ha eq_refl ltac:(done) ltac:(done)) as (m' & -> & Hm). cbn in Hm. now subst.
  - intros m t data capacity w0 Ht Ha Hd Hcap Hap. assert (is_null data = false) as En by now destruct data.
    destruct (Hwrite m t data capacity w0 Ht Ha ltac:(now rewrite En) ltac:(done) ltac:(done)) as (m' & -> & Hm). rewrite En in Hm. eauto.
  - intros. now apply restricted_reads.
  - intros m data size t0 c0 t k Hd Hs Hr. assert (0 <= size) as Hs0 by lia. exact (restricted_sound _ _ _ _ _ _ _ Hd Hs0 Hr).
  - intros m data size size' t0 c0 t0' c0' t k Hd Hs Hr Hlt. apply Hread in Hr as [Hr Hb]; [|done|lia].
    eapply Htrunc; [done|exact Hlt|done|]. intros t1 c1. eapply (variable_tag_truncated c m data size); [done|done| |exact Hr|exact Hlt]. lia.
Defined.
End Restricted.

Lemma ber_identifier_ok : variable_identifier_ok ber_identifier.
Proof. split; [vm_compute; congruence|reflexivity]. Qed.
Lemma asn1_identifier_ok : variable_identifier_ok asn1_identifier.
Proof. split; [vm_compute; congruence|reflexivity]. Qed.
Lemma ber_length_ok : variable_length_ok ber_length.
Proof. split; [split; [easy|reflexivity]|split; [easy|reflexivity]|intros p [= <-]; easy|reflexivity]. Qed.
Lemma asn1_length_ok : variable_length_ok asn1_length.
Proof. split; [split; [easy|reflexivity]|split; [easy|reflexivity]|intros p [= <-]; easy|reflexivity]. Qed.

#[export] Instance ber_length_field `{Platform} : LengthField ber_wire_read_length tlv_ber_write_length :=
  variable_length_field ber_length ber_length_ok.

(** The lengths of DER are read under a stricter policy than they are written under; what is written is minimal. *)
#[export] Instance der_length_field `{Platform} : LengthField tlv_asn1_read_minimal_length tlv_ber_write_length :=
  variable_length_field asn1_length asn1_length_ok.

(** ** Writing what a reader accepts *)

Lemma copy_loop_spec n m data source : data <> NULL -> forall m0 i, 0 <= i -> disjoint_range data (i + Z.of_nat n) source (i + Z.of_nat n) ->
  only_changes m m0 data i -> bytes_of m0 data i = bytes_of m source i ->
  only_changes m (copy_loop n m0 data source i) data (i + Z.of_nat n) /\
  bytes_of (copy_loop n m0 data source i) data (i + Z.of_nat n) = bytes_of m source (i + Z.of_nat n).
Proof.
  intros Hd. induction n as [|n IH]; intros m0 i Hi Hap Ho Hb; cbn [copy_loop].
  - rewrite Z.add_0_r. done.
  - replace (i + Z.of_nat (S n)) with (i + 1 + Z.of_nat n) in * by lia. apply IH; try done; try lia.
    + eapply only_trans; [apply (only_prefix _ _ _ _ i); [lia|exact Ho]|]. apply st_only. lia.
    + rewrite !bytes_of_snoc by lia. rewrite ld_st_same by now destruct data. f_equal.
      * rewrite <- Hb. apply bytes_of_ext. intros j Hj. apply ld_st_other. lia.
      * rewrite u8_small by apply ld_range. f_equal. apply (only_ld _ _ _ _ _ _ Ho); [|done]. destruct source, data; cbn [disjoint_range] in *; lia.
Qed.

Lemma write_checked_ok `{Platform} (read : tlv_read_tag_fn) m t data capacity w0 : tag_ok t -> 1 <= t.(t_size) <= TLV_ASN1_TAG_MAX_SIZE ->
  (forall t0 c0, read m t.(t_data) t.(t_size) t0 c0 = (TLV_OK, t, t.(t_size))) ->
  is_null data && negb (capacity =? 0) = false -> (is_null data = false -> t.(t_size) <= capacity) ->
  (is_null data = false -> disjoint_range data t.(t_size) t.(t_data) t.(t_size)) ->
  exists m', tlv_asn1_write_identifier_checked read m t data capacity w0 = (TLV_OK, m', t.(t_size)) /\
    if is_null data then m' = m else only_changes m m' data t.(t_size) /\ bytes_of m' data t.(t_size) = tag_bytes m t.
Proof.
  intros [Hs Hn] Hsz Hread Hg Hcap Hap. unfold tlv_asn1_write_identifier_checked. rewrite Hg, Hread.
  assert (is_null (t_data t) = false) as -> by (destruct (t_data t); [specialize (Hn eq_refl); lia|done]). cbn [andb orb].
  replace ((t_size t =? 0) || (TLV_ASN1_TAG_MAX_SIZE <? t_size t)) with false by zlia.
  change (rc_eqb TLV_OK TLV_ERR_INVALID_TAG_SIZE) with false. rewrite is_ok_OK, Z.eqb_refl. cbn [negb orb].
  destruct (is_null data) eqn:En; cbn [negb andb]; [now exists m|]. specialize (Hcap eq_refl). specialize (Hap eq_refl).
  rewrite (proj2 (Z.ltb_ge _ _)) by lia. eexists. split; [reflexivity|].
  assert (data <> NULL) as Hd by (intros ->; done).
  destruct (copy_loop_spec (Z.to_nat (t_size t)) m data (t_data t) Hd m 0) as [Ho Hb]; try done; rewrite Z.add_0_l, Z2Nat.id in * by lia; done.
Qed.

(** ** DER *)

(** What [tlv_asn1_read_identifier] and [der_read_tag] refuse of the identifiers of minimal form. *)
Definition asn1_refuses (m : mem) (data : ptr) (k : Z) : bool :=
  let number := small_number m data k in
  (Z.land (ld m data 0) 192 =? 0) &&
  ((number =? 0) || (number =? 15) || (tlv_asn1_number_must_construct number && (Z.land (ld m data 0) TLV_ASN1_CONSTRUCTED_BIT =? 0))).
Definition der_refuses (m : mem) (data : ptr) (k : Z) : bool :=
  let number := small_number m data k in
  asn1_refuses m data k ||
  ((Z.land (ld m data 0) 192 =? 0) && (number <=? 36) && negb (tlv_asn1_number_must_construct number) &&
   negb (Z.land (ld m data 0) TLV_ASN1_CONSTRUCTED_BIT =? 0)).

Lemma small_number_local m m' data data' k : 1 <= k -> (forall i, 0 <= i < k -> ld m data i = ld m' data' i) ->
  small_number m data k = small_number m' data' k.
Proof.
  intros Hk Hl. unfold small_number. destruct (Z.eqb_spec k 1); [now rewrite (Hl 0) by lia|]. destruct (Z.eqb_spec k 2); [apply Hl; lia|done].
Qed.

Lemma asn1_refuses_local m m' data data' k : 1 <= k -> (forall i, 0 <= i < k -> ld m data i = ld m' data' i) ->
  asn1_refuses m data k = asn1_refuses m' data' k.
Proof. intros Hk Hl. unfold asn1_refuses. now rewrite (small_number_local m m' data data'), (Hl 0) by (done || lia). Qed.

Lemma der_refuses_local m m' data data' k : 1 <= k -> (forall i, 0 <= i < k -> ld m data i = ld m' data' i) ->
  der_refuses m data k = der_refuses m' data' k.
Proof.
  intros Hk Hl. unfold der_refuses. now rewrite (asn1_refuses_local m m' data data'), (small_number_local m m' data data'), (Hl 0) by (done || lia).
Qed.

Lemma asn1_read_spec m data size t0 c0 : data <> NULL ->
  tlv_asn1_read_identifier m data size t0 c0 =
  let '(rc, t, k) := variable_tag_reader asn1_identifier m data size empty_tag 0 in
  if negb (is_ok rc) then (rc, t0, if rc_eqb rc TLV_ERR_TRUNCATED then k else c0)
  else if asn1_refuses m data k then (TLV_ERR_INVALID_TAG, t0, c0) else (TLV_OK, t, k).
Proof. intros Hd. unfold tlv_asn1_read_identifier. assert (is_null data = false) as -> by now destruct data. reflexivity. Qed.

Lemma der_read_spec m data size t0 c0 : data <> NULL ->
  der_read_tag m data size t0 c0 =
  let '(rc, t, k) := variable_tag_reader asn1_identifier m data size empty_tag 0 in
  if negb (is_ok rc) then (rc, t0, if rc_eqb rc TLV_ERR_TRUNCATED then k else c0)
  else if der_refuses m data k then (TLV_ERR_INVALID_TAG, t0, c0) else (TLV_OK, t, k).
Proof.
  intros Hd. unfold der_read_tag. rewrite asn1_read_spec by done. assert (is_null data = false) as -> by now destruct data. cbn [andb].
  destruct (variable_tag_reader _ _ _ _ _ _) as [[rc t] k]. unfold der_refuses. destruct (is_ok rc) eqn:Eok; cbn [negb].
  - destruct (asn1_refuses m data k); cbn [orb]; [done|]. now rewrite is_ok_OK.
  - rewrite Eok. cbn [negb]. now destruct (rc_eqb rc TLV_ERR_TRUNCATED).
Qed.

#[export] Instance der_tag_field `{Platform} : TagField der_read_tag der_write_tag.
Proof.
  assert (TLV_ASN1_TAG_MAX_SIZE <= SIZE_MAX) as Hmax by (pose proof SIZE_MAX_bounds; unfold TLV_ASN1_TAG_MAX_SIZE; lia).
  assert (forall m data size t0 c0 t k, data <> NULL -> 0 <= size ->
    der_read_tag m data size t0 c0 = (TLV_OK, t, k) <-> variable_tag_reader asn1_identifier m data size empty_tag 0 = (TLV_OK, t, k) /\ der_refuses m data k = false) as Hread.
  { intros m data size t0 c0 t k Hd _. rewrite der_read_spec by done. destruct (variable_tag_reader _ _ _ _ _ _) as [[rc t1] k1].
    destruct (is_ok rc) eqn:Eok; cbn [negb].
    - apply is_ok_true in Eok as ->. destruct (der_refuses m data k1) eqn:Er; split; [done|intros [[= <- <-] Hr]; congruence|intros [= <- <-]; done|intros [[= <- <-] _]; done].
    - apply is_ok_false in Eok. split; [intros [= -> _ _]; done|intros [[= -> _ _] _]; done]. }
  apply (restricted_tag_field asn1_identifier asn1_identifier_ok Hmax der_refuses der_refuses_local der_read_tag der_write_tag Hread).
  - intros m data size t0 c0 k Hd _ _ Ht. specialize (Ht empty_tag 0). rewrite der_read_spec by done. destruct (variable_tag_reader _ _ _ _ _ _) as [[rc t1] k1]. cbn in Ht. now subst.
  - intros m t data capacity w0 Ht Ha Hg Hcap Hap. pose proof Ha as Ha'. apply andb_true_iff in Ha' as [Hl _].
    apply (identifier_admits_length asn1_identifier asn1_identifier_ok) in Hl. unfold tag_bytes in Hl. rewrite length_bytes_of, Z2Nat.id in Hl by apply Ht.
    apply write_checked_ok; try done. intros t1 c1. destruct t as [td ts]; cbn in *.
    apply (restricted_reads asn1_identifier asn1_identifier_ok der_refuses der_refuses_local der_read_tag Hread); try done; [lia|]. destruct Ht as [_ Hn]. cbn in Hn. intros ->. specialize (Hn eq_refl). lia.
Defined.

(** DER is a lawful codec: what the theorems on formats show of a lawful one holds of DER. *)
Lemma der_decode_laws `{Platform} : DecodeLaws (tlv_fields_decode tlv_der_fields).
Proof. exact (fields_decode_laws tlv_der_fields der_read_tag der_write_tag tlv_asn1_read_minimal_length tlv_ber_write_length eq_refl eq_refl eq_refl). Qed.

Lemma der_codec_laws `{Platform} (self : ptr) : CodecLaws (tlv_format_der self).
Proof.
  apply (fields_codec_laws tlv_der_fields der_read_tag der_write_tag tlv_asn1_read_minimal_length tlv_ber_write_length
    eq_refl eq_refl eq_refl eq_refl eq_refl (tlv_format_der self) (tlv_fields_decode tlv_der_fields)); try done.
  apply der_decode_laws.
Defined.
