(* ===== verification/Ber.v ===== *)
(** * BER (builtins/asn1/ber.h, src/builtins/asn1/ber.c)

    Definite and indefinite lengths.  The contents of an indefinite length are scanned for the octets that
    end them by a loop with a stack of scopes; the three arrays of the loop are one list of scopes, the
    innermost first.  An element takes two octets at least and every round reads one, ends a scope or
    fails, so that a scan of [size] octets runs on fuel of twice the size and two more. *)

From S2P Require Import Prelude Mem Core Endian Format FieldFixed FieldVariable Compose Writer Asn1.

Definition TLV_BER_MAX_DEPTH : Z := 64.

(** ** Fields *)

(** Universal tag zero is reserved. *)
Definition reserved_octet (octet : Z) : bool := (octet =? 0) || (octet =? TLV_ASN1_CONSTRUCTED_BIT).

Definition ber_read_tag : tlv_read_tag_fn := fun m data size tag used =>
  if is_null data && negb (size =? 0) then (TLV_ERR_NULL_ARG, tag, used)
  else if negb (size =? 0) && reserved_octet (ld m data 0) then (TLV_ERR_INVALID_TAG, tag, used)
  else ber_wire_read_tag m data size tag used.

Definition ber_write_tag : tlv_write_tag_fn := fun m tag data capacity used =>
  if (is_null tag.(t_data) && negb (tag.(t_size) =? 0)) || (is_null data && negb (capacity =? 0)) then (TLV_ERR_NULL_ARG, m, used)
  else if negb (tag.(t_size) =? 0) && negb (is_null tag.(t_data)) && reserved_octet (ld m tag.(t_data) 0) then
    (TLV_ERR_INVALID_TAG, m, used)
  else ber_wire_write_tag m tag data capacity used.

Definition ber_read_length : tlv_read_length_fn := fun m data size length used =>
  if is_null data && negb (size =? 0) then (TLV_ERR_NULL_ARG, length, used)
  else ber_wire_read_length m data size length used.

Definition tlv_ber_tag_make := tlv_asn1_tag_make_checked ber_write_tag.
Definition tlv_ber_tag_number := tlv_asn1_tag_number_checked ber_write_tag.

(** ** The scan of contents *)

Definition scan_failure (error : option tlv_format_error_t) (code : tlv_result_t) (offset : Z) (region : tlv_region_t) (bounded : bool)
  : tlv_result_t * option tlv_format_error_t :=
  let code := if rc_eqb code TLV_ERR_TRUNCATED && bounded then TLV_ERR_INVALID_LENGTH else code in
  (code,
   match error with
   | None => None
   | Some e =>
       let e := mk_ferr region offset true e.(fe_required) e.(fe_has_required) e.(fe_tag) e.(fe_length) e.(fe_value) in
       Some (if region_is region TLV_REGION_TRAILER && rc_eqb code TLV_ERR_TRUNCATED then set_required TLV_BER_EOC_SIZE e else e)
   end).

(** [ends[i]], [terminated[i]] and [bounded[i]]. *)
Record ber_scope_t := mk_ber_scope { bs_end : Z; bs_terminated : bool; bs_bounded : bool }.

(** How a round of the loop ends: it goes on with scopes and a position, or returns, with the sizes if it succeeds. *)
Definition scan_round : Type :=
  list ber_scope_t * Z + tlv_result_t * option (Z * Z) * option tlv_format_error_t.

Definition scan_fails (r : tlv_result_t * option tlv_format_error_t) : scan_round := inr (fst r, None, snd r).

(** The innermost scope ends, [used] octets behind the value. *)
Definition leave_scope (outer : list ber_scope_t) (pos used : Z) (error : option tlv_format_error_t) : scan_round :=
  match outer with
  | [] => inr (TLV_OK, Some (pos, pos + used), error)
  | _ => inl (outer, pos + used)
  end.

(** Behind a length: the contents are a scope, or are skipped. *)
Definition enter_value (top : ber_scope_t) (outer : list ber_scope_t) (pos length : Z)
  (constructed indefinite : bool) (error : option tlv_format_error_t) : scan_round :=
  if constructed then
    if Z.of_nat (List.length (top :: outer)) =? TLV_BER_MAX_DEPTH then
      scan_fails (scan_failure error TLV_ERR_LIMIT pos (if indefinite then TLV_REGION_LENGTH else TLV_REGION_VALUE) top.(bs_bounded))
    else inl (mk_ber_scope (pos + length) indefinite (top.(bs_bounded) || negb indefinite) :: top :: outer, pos)
  else inl (top :: outer, pos + length).

(** Behind a tag. *)
Definition scan_length `{Platform} (m : mem) (data : ptr) (top : ber_scope_t) (outer : list ber_scope_t) (pos : Z) (constructed : bool)
  (error : option tlv_format_error_t) : scan_round :=
  let limit := top.(bs_end) in
  let bounded := top.(bs_bounded) in
  if pos =? limit then scan_fails (scan_failure error TLV_ERR_TRUNCATED pos TLV_REGION_LENGTH bounded)
  else if ld m data pos =? TLV_BER_LENGTH_LONG_FORM_BIT then
    if negb constructed then scan_fails (scan_failure error TLV_ERR_INVALID_LENGTH pos TLV_REGION_LENGTH bounded)
    else enter_value top outer (pos + 1) (limit - (pos + 1)) constructed true error
  else
    let '(rc, length, len_size) := ber_read_length m (data +p pos) (limit - pos) 0 0 in
    if negb (is_ok rc) then scan_fails (scan_failure error rc pos TLV_REGION_LENGTH bounded)
    else
      let pos := pos + len_size in
      if limit - pos <? length then
        scan_fails (scan_failure (option_map (set_required length) error) TLV_ERR_TRUNCATED pos TLV_REGION_VALUE bounded)
      else enter_value top outer pos (usize length) constructed false error.

Definition scan_step `{Platform} (m : mem) (data : ptr) (top : ber_scope_t) (outer : list ber_scope_t) (pos : Z)
  (error : option tlv_format_error_t) : scan_round :=
  let limit := top.(bs_end) in
  let bounded := top.(bs_bounded) in
  if pos =? limit then
    if top.(bs_terminated) then scan_fails (scan_failure error TLV_ERR_TRUNCATED pos TLV_REGION_TRAILER bounded)
    else leave_scope outer pos 0 error
  else if ld m data pos =? 0 then
    if limit - pos <? TLV_BER_EOC_SIZE then scan_fails (scan_failure error TLV_ERR_TRUNCATED pos TLV_REGION_TRAILER bounded)
    else if negb (ld m data (pos + 1) =? 0) then
      scan_fails (scan_failure error TLV_ERR_INVALID_LENGTH pos TLV_REGION_TRAILER bounded)
    else if negb top.(bs_terminated) then scan_fails (scan_failure error TLV_ERR_INVALID_TAG pos TLV_REGION_TRAILER bounded)
    else leave_scope outer pos TLV_BER_EOC_SIZE error
  else
    let '(rc, tag, tag_size) := ber_read_tag m (data +p pos) (limit - pos) empty_tag 0 in
    if negb (is_ok rc) then scan_fails (scan_failure error rc pos TLV_REGION_TAG bounded)
    else scan_length m data top outer (pos + tag_size) (tlv_asn1_is_constructed m tag) error.

Fixpoint scan_loop `{Platform} (fuel : nat) (m : mem) (data : ptr) (scopes : list ber_scope_t) (pos : Z) (error : option tlv_format_error_t)
  : option (tlv_result_t * option (Z * Z) * option tlv_format_error_t) :=
  match fuel, scopes with
  | S fuel, top :: outer =>
      match scan_step m data top outer pos error with
      | inr result => Some result
      | inl (scopes, pos) => scan_loop fuel m data scopes pos error
      end
  | _, _ => None
  end.

(** The out-parameters are the sizes of the value and of what was consumed. *)
Definition tlv_ber_scan_contents_diag `{Platform} (m : mem) (data : ptr) (size : Z) (indefinite : bool) (value_size consumed : Z)
  (error : option tlv_format_error_t) : option (tlv_result_t * Z * Z * option tlv_format_error_t) :=
  match scan_loop (Z.to_nat (2 * size + 2)) m data [mk_ber_scope size indefinite false] 0 error with
  | Some (rc, Some (value_size, consumed), error) => Some (rc, value_size, consumed, error)
  | Some (rc, None, error) => Some (rc, value_size, consumed, error)
  | None => None
  end.

Definition tlv_ber_scan_contents `{Platform} (m : mem) (data : ptr) (size : Z) (indefinite : bool) (value_size consumed : Z)
  : option (tlv_result_t * Z * Z) :=
  match tlv_ber_scan_contents_diag m data size indefinite value_size consumed None with
  | Some (rc, value_size, consumed, _) => Some (rc, value_size, consumed)
  | None => None
  end.

(** ** The definite and the indefinite format *)

(** The resolver of the value's bounds.  The scan always returns. *)
Definition read_value_bounds `{Platform} : tlv_resolve_bounds_fn := fun m tag data size len_size value_size trailer_size error =>
  if (size =? 0) || negb (ld m data 0 =? TLV_BER_LENGTH_LONG_FORM_BIT) then
    let '(rc, length, len_size) := ber_read_length m data size 0 len_size in
    if negb (is_ok rc) then (rc, len_size, value_size, trailer_size, error) else (TLV_OK, len_size, length, 0, error)
  else
    let len_size := TLV_BER_INDEFINITE_LENGTH_OCTET_SIZE in
    if negb (tlv_asn1_is_constructed m tag) then (TLV_ERR_INVALID_LENGTH, len_size, value_size, trailer_size, error)
    else
      match tlv_ber_scan_contents_diag m (data +p 1) (size - 1) true 0 0 (Some error) with
      | Some (rc, native_length, _, failed) =>
          let error := cell error failed in
          if negb (is_ok rc) then
            (rc, len_size, value_size, trailer_size,
             if error.(fe_has_offset) then
               mk_ferr error.(fe_region) (usize (error.(fe_offset) + 1)) true error.(fe_required) error.(fe_has_required)
                 error.(fe_tag) error.(fe_length) error.(fe_value)
             else error)
          else (TLV_OK, len_size, native_length, TLV_BER_EOC_SIZE, error)
      | None => (TLV_ERR_CALLBACK, len_size, value_size, trailer_size, error)
      end.

Definition tlv_ber_fields `{Platform} : tlv_field_composition_t :=
  mk_fields (Some ber_read_tag) (Some ber_read_length) (Some read_value_bounds) (Some ber_write_tag) (Some tlv_ber_write_length)
    TLV_ELEMENT_ORDER_TLV TLV_LENGTH_SCOPE_VALUE.

(** [self] is the address of the composition, which is the context of both formats. *)
Definition tlv_format_ber `{Platform} (self : ptr) : tlv_format_t :=
  mk_format self (Some (tlv_fields_decode tlv_ber_fields)) (Some (tlv_fields_measure tlv_ber_fields))
    (Some (tlv_fields_encode tlv_ber_fields)) (Some tlv_asn1_is_constructed).

Definition indefinite_failure (error : tlv_format_error_t) (region : tlv_region_t) (offset : Z) : tlv_format_error_t :=
  mk_ferr region offset true error.(fe_required) error.(fe_has_required) error.(fe_tag) error.(fe_length) error.(fe_value).

Definition tlv_asn1_indefinite_measure (fields : tlv_field_composition_t) : tlv_measure_fn := fun m element sizes error =>
  let '(rc, _, tag_size) := call_write_tag fields m element.(e_tag) NULL 0 0 in
  let rc := if is_ok rc && negb (tlv_asn1_is_constructed m element.(e_tag)) then TLV_ERR_INVALID_LENGTH else rc in
  let '(rc, sizes) :=
    if is_ok rc then
      let header := u64 (tag_size + 1) in
      let value := element.(e_value).(v_size) in
      let '(rc, total) := tlv_size_add header value (Some sizes.(en_total)) in
      (rc, mk_encoding header value 2 (cell 0 total))
    else (rc, sizes) in
  let '(rc, sizes) :=
    if is_ok rc then
      let '(rc, total) := tlv_size_add sizes.(en_total) sizes.(en_trailer) (Some sizes.(en_total)) in
      (rc, mk_encoding sizes.(en_header) sizes.(en_value) sizes.(en_trailer) (cell 0 total))
    else (rc, sizes) in
  if is_ok rc then (TLV_OK, sizes, error) else (rc, sizes, indefinite_failure error TLV_REGION_TAG 0).

Definition tlv_asn1_indefinite_encode `{Platform} (fields : tlv_field_composition_t) : tlv_encode_fn :=
  fun m element data capacity written error =>
  let '(rc, sizes, error) := tlv_asn1_indefinite_measure fields m element no_encoding error in
  if negb (is_ok rc) then (rc, m, written, error)
  else
    let '(rc, total) := tlv_size_to_native sizes.(en_total) (Some 0) in
    let total := cell 0 total in
    let rc := if is_ok rc && (capacity <? total) then TLV_ERR_BUFFER_TOO_SHORT else rc in
    if negb (is_ok rc) then (rc, m, written, indefinite_failure error TLV_REGION_TAG 0)
    else
      let n := usize element.(e_value).(v_size) in
      match tlv_ber_scan_contents m element.(e_value).(v_data) n false 0 0 with
      | Some (rc, _, _) =>
          if negb (is_ok rc) then (rc, m, written, indefinite_failure error TLV_REGION_VALUE (usize sizes.(en_header)))
          else
            let tag := element.(e_tag) in
            let m := memcpy m data tag.(t_data) tag.(t_size) in
            let m := st m data tag.(t_size) 128 in
            let m := if negb (n =? 0) then memcpy m (data +p usize sizes.(en_header)) element.(e_value).(v_data) n else m in
            let m := st m data (total - 2) 0 in
            let m := st m data (total - 1) 0 in
            (TLV_OK, m, total, error)
      | None => (TLV_ERR_CALLBACK, m, written, error)
      end.

Definition tlv_format_ber_indefinite `{Platform} (self : ptr) : tlv_format_t :=
  mk_format self (Some (tlv_fields_decode tlv_ber_fields)) (Some (tlv_asn1_indefinite_measure tlv_ber_fields))
    (Some (tlv_asn1_indefinite_encode tlv_ber_fields)) (Some tlv_asn1_is_constructed).

Section Public.
Context `{Platform} (self : ptr).

Definition tlv_ber_indefinite_encoded_size (m : mem) (tag : tlv_tag_t) (length : Z) (size : option Z) : tlv_result_t * option Z :=
  match size with
  | None => (TLV_ERR_NULL_ARG, size)
  | Some _ =>
      let '(rc, encoding, _) := tlv_format_measure (Some (tlv_format_ber_indefinite self)) m (Some (mk_element tag (mk_value NULL length)))
                                  (Some no_encoding) None in
      if is_ok rc then tlv_size_to_native (cell no_encoding encoding).(en_total) size else (rc, size)
  end.

Definition tlv_ber_write_indefinite (m : mem) (data : ptr) (capacity : Z) (tag : tlv_tag_t) (value : ptr) (length : Z) (written : option Z)
  : tlv_result_t * mem * option Z :=
  match written with
  | None => (TLV_ERR_NULL_ARG, m, written)
  | Some _ =>
      let '(rc, m, used, _) := tlv_format_encode (Some (tlv_format_ber_indefinite self)) m (Some (mk_element tag (mk_value value length)))
                                 data capacity (Some 0) None in
      (rc, m, if is_ok rc then used else written)
  end.

(** [ber] is whether the writer's format is the address of [tlv_format_ber]. *)
Definition tlv_ber_writer_write_indefinite (m : mem) (writer : option tlv_writer_t) (ber : bool) (tag : tlv_tag_t) (value : ptr) (length : Z)
  : tlv_result_t * mem * option tlv_writer_t :=
  match writer with
  | None => (TLV_ERR_NULL_ARG, m, writer)
  | Some w =>
      if negb ber then (TLV_ERR_INVALID_ARG, m, writer)
      else if w.(w_capacity) <? w.(w_pos) then (TLV_ERR_BUFFER_TOO_SHORT, m, writer)
      else
        let '(rc, m, written) := tlv_ber_write_indefinite m (if is_null w.(w_buf) then NULL else w.(w_buf) +p w.(w_pos))
                                   (w.(w_capacity) - w.(w_pos)) tag value length (Some 0) in
        (rc, m, Some (if is_ok rc then mk_writer w.(w_format) w.(w_buf) w.(w_capacity) (usize (w.(w_pos) + cell 0 written)) else w))
  end.
End Public.

Definition tlv_ber_read_identifier (m : mem) (data : ptr) (size : Z) (tag : option tlv_tag_t) (consumed : option Z)
  : tlv_result_t * option tlv_tag_t * option Z :=
  match tag, consumed with
  | Some t, Some c =>
      if is_null data && negb (size =? 0) then (TLV_ERR_NULL_ARG, tag, consumed)
      else let '(rc, t, c) := ber_read_tag m data size t c in (rc, Some t, Some c)
  | _, _ => (TLV_ERR_NULL_ARG, tag, consumed)
  end.
