(* ===== verification/BerLaws.v ===== *)
(** * Laws of BER

    The scan of contents against a grammar of nested elements, and BER as a lawful format: what is read
    is decided by the octets of the element alone, in either form of length, and a prefix is truncated. *)

From S2P Require Import Prelude Mem Core Endian Format FieldFixed FieldVariable FieldVariableLaws WireFormat Compose ComposeLaws Writer Asn1 Asn1Laws Ber.

(** ** Fields *)

Definition ber_refuses (m : mem) (data : ptr) (k : Z) : bool := reserved_octet (ld m data 0).

Lemma ber_refuses_local m m' data data' k : 1 <= k -> (forall i, 0 <= i < k -> ld m data i = ld m' data' i) ->
  ber_refuses m data k = ber_refuses m' data' k.
Proof. intros Hk Hl. unfold ber_refuses. now rewrite (Hl 0) by lia. Qed.

Lemma ber_read_some m data size t0 c0 t k : data <> NULL -> 0 <= size ->
  ber_read_tag m data size t0 c0 = (TLV_OK, t, k) <->
  variable_tag_reader ber_identifier m data size empty_tag 0 = (TLV_OK, t, k) /\ ber_refuses m data k = false.
Proof.
  intros Hd Hs. unfold ber_read_tag, ber_wire_read_tag, ber_refuses. assert (is_null data = false) as -> by now destruct data. cbn [andb].
  assert (forall a b a' b', variable_tag_reader ber_identifier m data size a b = (TLV_OK, t, k) ->
    variable_tag_reader ber_identifier m data size a' b' = (TLV_OK, t, k) /\ 1 <= k <= size) as Hany.
  { intros a b a' b' Hr. pose proof (variable_tag_read_inv ber_identifier ber_identifier_ok _ _ _ _ _ _ _ Hd Hs Hr) as (Hk & _ & -> & Hloc).
    split; [now apply Hloc|done]. }
  destruct (negb (size =? 0) && reserved_octet (ld m data 0)) eqn:Er.
  - apply andb_true_iff in Er as [_ Er]. split; [done|]. intros [_ Hb]. congruence.
  - split.
    + intros Hr. destruct (Hany _ _ empty_tag 0 Hr) as [Hr' Hk]. split; [exact Hr'|]. destruct (size =? 0) eqn:E0; [zlia|exact Er].
    + intros [Hr _]. apply (Hany _ _ t0 c0 Hr).
Qed.

#[export] Instance ber_tag_field `{Platform} : TagField ber_read_tag ber_write_tag.
Proof.
  assert (TLV_ASN1_TAG_MAX_SIZE <= SIZE_MAX) as Hmax by (pose proof SIZE_MAX_bounds; unfold TLV_ASN1_TAG_MAX_SIZE; lia).
  apply (restricted_tag_field ber_identifier ber_identifier_ok Hmax ber_refuses ber_refuses_local ber_read_tag ber_write_tag ber_read_some).
  - intros m data size t0 c0 k Hd _ Hb Ht. unfold ber_read_tag, ber_wire_read_tag, ber_refuses in *. rewrite Hb, andb_false_r.
    assert (is_null data = false) as -> by now destruct data. exact (Ht t0 c0).
  - intros m t data capacity w0 Ht Ha Hg Hcap Hap. pose proof Ha as Ha'. apply andb_true_iff in Ha' as [Hadm Hb].
    pose proof (identifier_admits_length ber_identifier ber_identifier_ok _ Hadm) as Hl. unfold tag_bytes in Hl, Hb. rewrite length_bytes_of, Z2Nat.id in Hl by apply Ht.
    rewrite (restricted_bad ber_refuses ber_refuses_local) in Hb by lia. apply negb_true_iff in Hb. unfold ber_refuses in Hb.
    unfold ber_write_tag, ber_wire_write_tag. rewrite Hg, Hb, andb_false_r. destruct Ht as [Hs Hn].
    assert (is_null (t_data t) = false) as -> by (destruct (t_data t); [specialize (Hn eq_refl); lia|done]). cbn [andb orb].
    rewrite (variable_tag_write_admitted ber_identifier ber_identifier_ok); try done; [|apply Hs].
    destruct (is_null data) eqn:En; [now exists m|]. assert (data <> NULL) as Hd by (intros ->; done).
    destruct (tag_moved m data t Hd) as (m' & [= <-] & Ho & Hbt). eauto.
Defined.

Lemma ber_read_length_wire m data size n0 c0 : data <> NULL -> ber_read_length m data size n0 c0 = ber_wire_read_length m data size n0 c0.
Proof. intros Hd. unfold ber_read_length. now destruct data. Qed.

#[export] Instance ber_length_lawful `{Platform} : LengthField ber_read_length tlv_ber_write_length.
Proof.
  refine {| len_enc := @len_enc _ ber_wire_read_length tlv_ber_write_length _ |}.
  - apply len_enc_bytes.
  - apply len_size_ok.
  - apply len_write_ok.
  - intros. rewrite ber_read_length_wire by done. now apply len_read_back.
  - intros m data size n0 c0 n c Hd. rewrite ber_read_length_wire by done. now apply len_read_sound.
  - intros m1 m2 data size size' n0 c0 n0' c0' n c Hd. rewrite !ber_read_length_wire by done. now apply len_read_local.
  - intros m data size size' n0 c0 n0' c0' n c Hd. rewrite !ber_read_length_wire by done. now apply len_read_truncated.
Defined.

(** ** The grammar *)

Definition ber_tag `{Platform} (tag : list Z) : Prop := tag_adm (read := ber_read_tag) (write := ber_write_tag) tag = true.
Definition constructed_tag (tag : list Z) : bool := negb (Z.land (byte_at tag 0) TLV_ASN1_CONSTRUCTED_BIT =? 0).

(** Octets that are a definite length. *)
Definition ber_length_of (len : list Z) (n : Z) : Prop :=
  ber_read_length (mem_of 1 len) (Ptr 1 0) (zlen len) 0 0 = (TLV_OK, n, zlen len).

(** A sequence of complete elements, in which at most [depth] scopes are nested. *)
Inductive ber_contents `{Platform} : nat -> list Z -> Prop :=
| contents_nil depth : ber_contents depth []
| contents_primitive depth tag len value rest : ber_tag tag -> constructed_tag tag = false -> ber_length_of len (zlen value) ->
    ber_contents depth rest -> ber_contents depth (tag ++ len ++ value ++ rest)
| contents_definite depth tag len value rest : ber_tag tag -> constructed_tag tag = true -> ber_length_of len (zlen value) ->
    ber_contents depth value -> ber_contents (S depth) rest -> ber_contents (S depth) (tag ++ len ++ value ++ rest)
| contents_indefinite depth tag value rest : ber_tag tag -> constructed_tag tag = true ->
    ber_contents depth value -> ber_contents (S depth) rest -> ber_contents (S depth) (tag ++ [128] ++ value ++ [0; 0] ++ rest).

(** The octets [l] lie at [pos]. *)
Definition lies_at (m : mem) (data : ptr) (pos : Z) (l : list Z) : Prop := bytes_of m (data +p pos) (zlen l) = l.

Section Lies.
Context (m : mem) (data : ptr).

Lemma lies_nil pos : lies_at m data pos [].
Proof using. unfold lies_at. now rewrite bytes_of_0 by (cbn; lia). Qed.

Lemma lies_app pos a b : lies_at m data pos (a ++ b) <-> lies_at m data pos a /\ lies_at m data (pos + zlen a) b.
Proof using.
  unfold lies_at. rewrite length_app, Nat2Z.inj_add, bytes_of_app, padd_padd by lia. split.
  - intros E. apply app_inj_1 in E as [E1 E2]; [done|]. rewrite length_bytes_of. lia.
  - now intros [-> ->].
Qed.

Lemma lies_self pos n : 0 <= n -> lies_at m data pos (bytes_of m (data +p pos) n).
Proof using. intros Hn. unfold lies_at. now rewrite length_bytes_of, Z2Nat.id by lia. Qed.

Lemma lies_ld pos x l : lies_at m data pos (x :: l) -> ld m data pos = x.
Proof using.
  intros E. unfold lies_at in E. replace (zlen (x :: l)) with (1 + zlen l) in E by (cbn; lia). rewrite bytes_of_cons in E by lia. injection E as E _.
  now rewrite ld_padd, Z.add_0_r in E.
Qed.
End Lies.

Lemma land_constructed x : Z.land x 32 = 0 \/ Z.land x 32 = 32.
Proof.
  change 32 with (2 ^ 5). destruct (Z.testbit x 5) eqn:Eb; [right|left]; apply Z.bits_inj'; intros i Hi;
    rewrite Z.land_spec, Z.pow2_bits_eqb, ?Z.bits_0 by lia; (destruct (Z.eqb_spec 5 i) as [<-|]; [now rewrite Eb|apply andb_false_r]).
Qed.

(** The octet of an indefinite length is no definite one. *)
Lemma read_length_lead m data size n k : data <> NULL -> 0 <= size -> ber_read_length m data size 0 0 = (TLV_OK, n, k) -> ld m data 0 <> 128.
Proof.
  intros Hd Hs Hr E. rewrite ber_read_length_wire in Hr by done. apply variable_read_iff in Hr as (_ & _ & Hr); [|apply ber_length_ok|done|done].
  rewrite E in Hr. change (has_bits 128 (vl_long_form_bit ber_length)) with true in Hr. cbv iota in Hr. destruct Hr as [Hr _].
  apply Hr. vm_compute. reflexivity.
Qed.

Section Elements.
Context `{Platform} (m : mem) (data : ptr) (Hd : data <> NULL).

Lemma tag_length tag : ber_tag tag -> 1 <= zlen tag.
Proof using. intros Ht. pose proof (tag_adm_length tag Ht). lia. Qed.

Lemma tag_lead tag pos : ber_tag tag -> lies_at m data pos tag -> ld m data pos <> 0.
Proof using.
  intros Ht Hl. pose proof (tag_length tag Ht) as Hn. change (restricted_admits ber_identifier ber_refuses tag = true) in Ht. apply andb_true_iff in Ht as [_ Ht]. unfold ber_refuses, reserved_octet in Ht.
  rewrite negb_true_iff, orb_false_iff, !Z.eqb_neq, ld_mem_of in Ht by lia. destruct tag as [|x tag]; [done|].
  rewrite (lies_ld m data pos x tag Hl). intros ->. now destruct Ht.
Qed.

Lemma tag_constructed tag pos : 1 <= zlen tag -> lies_at m data pos tag ->
  tlv_asn1_is_constructed m (tlv_tag (data +p pos) (zlen tag)) = constructed_tag tag.
Proof using Hd.
  intros Hn Hl. unfold tlv_asn1_is_constructed, tlv_constructed_bit_predicate, constructed_tag. cbn [cb_mask cb_value cb_byte_index tlv_tag t_data t_size].
  rewrite is_null_padd. assert (is_null data = false) as -> by now destruct data. rewrite (proj2 (Z.ltb_lt 0 _)) by lia. cbn [negb].
  rewrite ld_padd, Z.add_0_r. destruct tag as [|x tag]; [cbn in Hn; lia|]. rewrite (lies_ld m data pos x tag Hl). change (byte_at (x :: tag) 0) with x.
  change (negb (TLV_ASN1_CONSTRUCTED_BIT =? 0)) with true. change (Z.land TLV_ASN1_CONSTRUCTED_BIT (Z.lnot TLV_ASN1_CONSTRUCTED_BIT) =? 0) with true. cbn [andb].
  unfold TLV_ASN1_CONSTRUCTED_BIT. destruct (land_constructed x) as [-> | ->]; reflexivity.
Qed.

Lemma read_tag_at tag pos limit : ber_tag tag -> lies_at m data pos tag -> pos + zlen tag <= limit -> 0 <= pos -> limit <= SIZE_MAX ->
  ber_read_tag m (data +p pos) (limit - pos) empty_tag 0 = (TLV_OK, tlv_tag (data +p pos) (zlen tag), zlen tag).
Proof using Hd. intros Ht Hl Hle Hp Hs. apply tag_read_back; [now destruct data|lia|lia|]. now rewrite Hl. Qed.

Lemma length_of_accepts len n : ber_length_of len n <-> variable_accepts ber_length (mem_of 1 len) (Ptr 1 0) (zlen len) n (zlen len).
Proof using.
  unfold ber_length_of. rewrite ber_read_length_wire by done. apply variable_read_iff; [apply ber_length_ok|done|lia].
Qed.

Lemma length_of_range len n : ber_length_of len n -> 1 <= zlen len <= 256 /\ 0 <= n <= UINT64_MAX.
Proof using. rewrite length_of_accepts. intros Ha. apply variable_accepts_range in Ha; [lia|apply ber_length_ok]. Qed.

Lemma read_length_at len n pos limit : ber_length_of len n -> lies_at m data pos len -> 0 <= pos -> pos + zlen len <= limit ->
  ber_read_length m (data +p pos) (limit - pos) 0 0 = (TLV_OK, n, zlen len).
Proof using Hd.
  intros Hn Hl Hp Hle. apply length_of_accepts in Hn. assert (data +p pos <> NULL) as Hd' by now destruct data.
  rewrite ber_read_length_wire by done. apply variable_read_iff; [apply ber_length_ok|done|lia|].
  apply (variable_accepts_local _ _ _ _ _ _ _ _ _ ber_length_ok Hn); [lia|]. intros i Hi. rewrite <- Hl. now apply ld_mem_of_bytes_of.
Qed.

Lemma length_lead len n pos : ber_length_of len n -> lies_at m data pos len -> ld m data pos <> 128.
Proof using Hd.
  intros Hn Hl. pose proof (length_of_range len n Hn) as [Hr _]. unfold ber_length_of in Hn. apply read_length_lead in Hn; [|done|lia].
  destruct len as [|x len]; [cbn in Hr; lia|]. rewrite (lies_ld m data pos x len Hl). rewrite ld_mem_of in Hn by lia. intros ->. now apply Hn.
Qed.

(** *** The rounds of the scan *)

Section Rounds.
Context (top : ber_scope_t) (outer : list ber_scope_t) (pos : Z) (e : option tlv_format_error_t)
  (Hpos : 0 <= pos <= top.(bs_end)) (Hend : top.(bs_end) <= SIZE_MAX).

Lemma step_tag tag : ber_tag tag -> lies_at m data pos tag -> pos + zlen tag <= top.(bs_end) ->
  scan_step m data top outer pos e = scan_length m data top outer (pos + zlen tag) (constructed_tag tag) e.
Proof using Hd Hpos Hend.
  intros Ht Hl Hle. pose proof (tag_length tag Ht) as Hn. unfold scan_step. rewrite (proj2 (Z.eqb_neq pos _)) by lia.
  rewrite (proj2 (Z.eqb_neq (ld m data pos) 0)) by now apply (tag_lead tag). rewrite (read_tag_at tag) by (done || lia).
  rewrite is_ok_OK. cbn [negb]. now rewrite tag_constructed.
Qed.

Lemma length_definite len n constructed : ber_length_of len n -> lies_at m data pos len -> pos + zlen len + n <= top.(bs_end) ->
  scan_length m data top outer pos constructed e = enter_value top outer (pos + zlen len) n constructed false e.
Proof using Hd Hpos Hend.
  intros Hn Hl Hle. pose proof (length_of_range len n Hn) as [Hr Hv]. unfold scan_length. rewrite (proj2 (Z.eqb_neq pos _)) by lia.
  unfold TLV_BER_LENGTH_LONG_FORM_BIT. rewrite (proj2 (Z.eqb_neq (ld m data pos) 128)) by now apply (length_lead len n).
  rewrite (read_length_at len n) by (done || lia). rewrite is_ok_OK. cbn [negb]. rewrite (proj2 (Z.ltb_ge _ n)) by lia. now rewrite usize_small by lia.
Qed.

Lemma length_indefinite : pos < top.(bs_end) -> ld m data pos = 128 ->
  scan_length m data top outer pos true e = enter_value top outer (pos + 1) (top.(bs_end) - (pos + 1)) true true e.
Proof using. intros Hlt E. unfold scan_length. rewrite (proj2 (Z.eqb_neq pos _)) by lia. now rewrite E. Qed.

Lemma step_marked : top.(bs_terminated) = true -> lies_at m data pos [0; 0] -> pos + 2 <= top.(bs_end) ->
  scan_step m data top outer pos e = leave_scope outer pos 2 e.
Proof using.
  intros Ht Hl Hle. unfold scan_step, TLV_BER_EOC_SIZE. rewrite (proj2 (Z.eqb_neq pos _)) by lia.
  change [0; 0] with ([0] ++ [0]) in Hl. apply lies_app in Hl as [Hl0 Hl1]. rewrite (lies_ld m data pos 0 [] Hl0), (lies_ld m data (pos + 1) 0 [] Hl1), Ht.
  cbn [Z.eqb negb]. now rewrite (proj2 (Z.ltb_ge _ 2)) by lia.
Qed.
End Rounds.

(** How a round ends. *)
Inductive round_of (top : ber_scope_t) (outer : list ber_scope_t) (pos : Z) (e : option tlv_format_error_t) : scan_round -> Prop :=
| round_fails rc e' : rc <> TLV_OK -> round_of top outer pos e (inr (rc, None, e'))
| round_end : pos = top.(bs_end) -> top.(bs_terminated) = false -> round_of top outer pos e (leave_scope outer pos 0 e)
| round_marked : top.(bs_terminated) = true -> lies_at m data pos [0; 0] -> pos + 2 <= top.(bs_end) ->
    round_of top outer pos e (leave_scope outer pos 2 e)
| round_primitive tag len n : ber_tag tag -> constructed_tag tag = false -> ber_length_of len n -> lies_at m data pos (tag ++ len) ->
    pos + zlen tag + zlen len + n <= top.(bs_end) -> round_of top outer pos e (inl (top :: outer, pos + zlen tag + zlen len + n))
| round_definite tag len n : ber_tag tag -> constructed_tag tag = true -> ber_length_of len n -> lies_at m data pos (tag ++ len) ->
    pos + zlen tag + zlen len + n <= top.(bs_end) -> zlen (top :: outer) <> TLV_BER_MAX_DEPTH ->
    round_of top outer pos e
      (inl (mk_ber_scope (pos + zlen tag + zlen len + n) false true :: top :: outer, pos + zlen tag + zlen len))
| round_indefinite tag : ber_tag tag -> constructed_tag tag = true -> lies_at m data pos (tag ++ [128]) ->
    pos + zlen tag + 1 <= top.(bs_end) -> zlen (top :: outer) <> TLV_BER_MAX_DEPTH ->
    round_of top outer pos e (inl (mk_ber_scope top.(bs_end) true top.(bs_bounded) :: top :: outer, pos + zlen tag + 1)).

Lemma scan_failure_code e code offset region bounded : code <> TLV_OK -> fst (scan_failure e code offset region bounded) <> TLV_OK.
Proof using. unfold scan_failure. cbn. now destruct (_ && _). Qed.

Lemma scan_fails_round top outer pos e e' code offset region bounded : code <> TLV_OK ->
  round_of top outer pos e (scan_fails (scan_failure e' code offset region bounded)).
Proof using. intros Hc. unfold scan_fails. apply round_fails. now apply scan_failure_code. Qed.

Lemma enter_value_cases top outer pos n constructed indefinite e :
  (constructed = true /\ zlen (top :: outer) = TLV_BER_MAX_DEPTH /\ exists r, enter_value top outer pos n constructed indefinite e = scan_fails (scan_failure e TLV_ERR_LIMIT pos r top.(bs_bounded))) \/
  (constructed = true /\ zlen (top :: outer) <> TLV_BER_MAX_DEPTH /\
     enter_value top outer pos n constructed indefinite e = inl (mk_ber_scope (pos + n) indefinite (top.(bs_bounded) || negb indefinite) :: top :: outer, pos)) \/
  (constructed = false /\ enter_value top outer pos n constructed indefinite e = inl (top :: outer, pos + n)).
Proof using. unfold enter_value. destruct constructed; [|auto]. destruct (Z.eqb_spec (zlen (top :: outer)) TLV_BER_MAX_DEPTH); eauto. Qed.

Lemma scan_length_round top outer pos tag e : 0 <= pos -> pos + zlen tag <= top.(bs_end) -> top.(bs_end) <= SIZE_MAX -> ber_tag tag -> lies_at m data pos tag ->
  round_of top outer pos e (scan_length m data top outer (pos + zlen tag) (constructed_tag tag) e).
Proof using Hd.
  intros Hp Hle Hs Ht Hl. pose proof (tag_length tag Ht) as Hn. unfold scan_length.
  destruct (Z.eqb_spec (pos + zlen tag) top.(bs_end)); [now apply scan_fails_round|]. unfold TLV_BER_LENGTH_LONG_FORM_BIT.
  destruct (Z.eqb_spec (ld m data (pos + zlen tag)) 128) as [E|E].
  - destruct (constructed_tag tag) eqn:Ec; [|now apply scan_fails_round]. cbn [negb].
    destruct (enter_value_cases top outer (pos + zlen tag + 1) (top.(bs_end) - (pos + zlen tag + 1)) true true e) as [(_ & _ & r & ->)|[(_ & Hdepth & ->)|[[=] _]]]; [now apply scan_fails_round|].
    replace (pos + zlen tag + 1 + (top.(bs_end) - (pos + zlen tag + 1))) with top.(bs_end) by lia. rewrite orb_false_r.
    apply round_indefinite; try done; [|lia]. apply lies_app. split; [done|]. unfold lies_at. cbn [length]. change (Z.of_nat 1) with 1.
    now rewrite bytes_of_1, ld_padd, Z.add_0_r, E.
  - assert (data +p (pos + zlen tag) <> NULL) as Hd' by now destruct data.
    destruct (ber_read_length m (data +p (pos + zlen tag)) (top.(bs_end) - (pos + zlen tag)) 0 0) as [[rc v] lk] eqn:Er.
    destruct (is_ok rc) eqn:Eok; cbn [negb]; [apply is_ok_true in Eok as ->|apply scan_fails_round; now apply is_ok_false].
    rewrite ber_read_length_wire in Er by done. apply variable_read_iff in Er; [|apply ber_length_ok|done|lia].
    pose proof (variable_accepts_range _ _ _ _ _ _ ber_length_ok Er) as Hr.
    destruct (Z.ltb_spec (top.(bs_end) - (pos + zlen tag + lk)) v); [now apply scan_fails_round|]. rewrite usize_small by lia.
    set (len := bytes_of m (data +p (pos + zlen tag)) lk). assert (zlen len = lk) as Elk by (unfold len; rewrite length_bytes_of; lia).
    assert (ber_length_of len v) as Hlen.
    { apply length_of_accepts. rewrite Elk. apply (variable_accepts_local _ _ _ _ _ _ _ _ _ ber_length_ok Er); [lia|].
      intros i Hi. symmetry. now apply ld_mem_of_bytes_of. }
    assert (lies_at m data pos (tag ++ len)) as Htl by (apply lies_app; split; [done|]; apply lies_self; lia).
    rewrite <- Elk. destruct (enter_value_cases top outer (pos + zlen tag + zlen len) v (constructed_tag tag) false e) as [(_ & _ & r & ->)|[(Ec & Hdepth & ->)|[Ec ->]]];
      [now apply scan_fails_round| |].
    + rewrite orb_true_r. apply round_definite; try done. lia.
    + apply round_primitive; try done. lia.
Qed.

Lemma scan_step_round top outer pos e : 0 <= pos <= top.(bs_end) -> top.(bs_end) <= SIZE_MAX ->
  round_of top outer pos e (scan_step m data top outer pos e).
Proof using Hd.
  intros Hp Hs. unfold scan_step. destruct (Z.eqb_spec pos top.(bs_end)) as [Epos|Epos].
  { destruct (bs_terminated top) eqn:Et; [now apply scan_fails_round|now apply round_end]. }
  destruct (Z.eqb_spec (ld m data pos) 0) as [E0|E0].
  - unfold TLV_BER_EOC_SIZE. destruct (Z.ltb_spec (top.(bs_end) - pos) 2); [now apply scan_fails_round|].
    destruct (Z.eqb_spec (ld m data (pos + 1)) 0) as [E1|E1]; cbn [negb]; [|now apply scan_fails_round].
    destruct (bs_terminated top) eqn:Et; cbn [negb]; [|now apply scan_fails_round]. apply round_marked; [done| |lia].
    unfold lies_at. change (zlen [0; 0]) with (1 + 1). rewrite bytes_of_cons, bytes_of_1, padd_padd, !ld_padd, !Z.add_0_r by lia. now rewrite E0, E1.
  - destruct (ber_read_tag m (data +p pos) (bs_end top - pos) empty_tag 0) as [[rc t] k] eqn:Er.
    destruct (is_ok rc) eqn:Eok; cbn [negb]; [apply is_ok_true in Eok as ->|apply scan_fails_round; now apply is_ok_false].
    apply (tag_read_sound (read := ber_read_tag) (write := ber_write_tag)) in Er as (Hk & -> & Hadm); [|now destruct data|lia].
    set (tag := bytes_of m (data +p pos) k) in *. assert (zlen tag = k) as Ek by (unfold tag; rewrite length_bytes_of; lia). rewrite <- Ek in *.
    assert (lies_at m data pos tag) as Hl by (unfold lies_at, tag; rewrite length_bytes_of, Z2Nat.id by lia; done).
    rewrite tag_constructed by (done || lia). apply scan_length_round; try done; lia.
Qed.

(** *** Termination *)

(** The ends of the scopes enclose each other, and the position is in the innermost. *)
Fixpoint ends_ok (size pos : Z) (scopes : list ber_scope_t) : Prop :=
  match scopes with [] => pos <= size | s :: outer => pos <= s.(bs_end) /\ ends_ok size s.(bs_end) outer end.

Lemma ends_le size scopes : forall pos pos', ends_ok size pos scopes -> pos' <= pos -> ends_ok size pos' scopes.
Proof using. destruct scopes as [|s outer]; cbn; intros; [lia|]. intuition lia. Qed.

Lemma ends_size size scopes : forall pos, ends_ok size pos scopes -> pos <= size.
Proof using. induction scopes as [|s outer IH]; cbn; intros pos Ho; [done|]. destruct Ho as [Hp Ho]. apply IH in Ho. lia. Qed.

Lemma scan_loop_returns size fuel : forall scopes pos e, size <= SIZE_MAX -> 0 <= pos -> scopes <> [] -> ends_ok size pos scopes ->
  2 * (size - pos) + zlen scopes < Z.of_nat fuel -> exists r, scan_loop fuel m data scopes pos e = Some r.
Proof using Hd.
  induction fuel as [|fuel IH]; intros scopes pos e Hs Hp Hne Ho Hf; [pose proof (ends_size _ _ _ Ho); lia|].
  destruct scopes as [|top outer]; [done|]. pose proof Ho as [Hp1 Ho1]. pose proof (ends_size _ _ _ Ho1). cbn [scan_loop].
  pose proof (scan_step_round top outer pos e ltac:(lia) ltac:(lia)) as Hr. destruct Hr as [rc e1 _|Ee _|_ _ Hle|tag len n Ht _ Hn _ Hle|tag len n Ht _ Hn _ Hle _|tag Ht _ _ Hle _].
  - eauto.
  - destruct outer as [|o outer]; cbn [leave_scope]; [eauto|]. refine (IH _ _ _ Hs _ _ _ _); [lia|done|now rewrite Z.add_0_r, Ee|cbn [length] in *; lia].
  - destruct outer as [|o outer]; cbn [leave_scope]; [eauto|]. refine (IH _ _ _ Hs _ _ _ _); [lia|done|now apply (ends_le _ _ top.(bs_end))|cbn [length] in *; lia].
  - pose proof (tag_length tag Ht). pose proof (length_of_range len n Hn). refine (IH _ _ _ Hs _ _ _ _); [lia|done|now split|cbn [length] in *; lia].
  - pose proof (tag_length tag Ht). pose proof (length_of_range len n Hn). refine (IH _ _ _ Hs _ _ _ _); [lia|done|cbn; split; [lia|now split]|cbn [length] in *; lia].
  - pose proof (tag_length tag Ht). refine (IH _ _ _ Hs _ _ _ _); [lia|done|cbn; split; [lia|now split]|cbn [length] in *; lia].
Qed.

(** *** Completeness *)

Lemma contents_run depth w : ber_contents depth w -> forall top outer pos e, lies_at m data pos w -> 0 <= pos ->
  pos + zlen w <= top.(bs_end) -> top.(bs_end) <= SIZE_MAX -> zlen (top :: outer) + Z.of_nat depth <= TLV_BER_MAX_DEPTH ->
  exists k, (k <= length w)%nat /\ forall fuel, scan_loop (k + fuel) m data (top :: outer) pos e = scan_loop fuel m data (top :: outer) (pos + zlen w) e.
Proof using Hd.
  induction 1 as [depth|depth tag len value rest Ht Hc Hn _ IH|depth tag len value rest Ht Hc Hn _ IHv _ IH|depth tag value rest Ht Hc _ IHv _ IH];
    intros top outer pos e Hl Hp Hle Hs Hroom.
  - exists O. split; [done|]. intros fuel. cbn. now rewrite Z.add_0_r.
  - rewrite !length_app, !Nat2Z.inj_add in *. apply lies_app in Hl as [Hlt Hl]. apply lies_app in Hl as [Hll Hl]. apply lies_app in Hl as [Hlv Hlr].
    pose proof (length_of_range len _ Hn). destruct (IH top outer (pos + zlen tag + zlen len + zlen value) e Hlr ltac:(lia) ltac:(lia) Hs Hroom) as (k & Hk & Hrun).
    exists (S k). pose proof (tag_length tag Ht). split; [lia|]. intros fuel. cbn [Nat.add scan_loop].
    rewrite (step_tag top outer pos e ltac:(lia) Hs tag Ht Hlt) by lia. rewrite (length_definite top outer (pos + zlen tag) e ltac:(lia) Hs len _ _ Hn Hll) by lia.
    unfold enter_value. rewrite Hc. cbv iota. rewrite Hrun. f_equal. lia.
  - rewrite !length_app, !Nat2Z.inj_add in *. apply lies_app in Hl as [Hlt Hl]. apply lies_app in Hl as [Hll Hl]. apply lies_app in Hl as [Hlv Hlr].
    pose proof (length_of_range len _ Hn). pose proof (tag_length tag Ht).
    set (inner := mk_ber_scope (pos + zlen tag + zlen len + zlen value) false (bs_bounded top || negb false)).
    destruct (IHv inner (top :: outer) (pos + zlen tag + zlen len) e Hlv ltac:(lia) ltac:(cbn; lia) ltac:(cbn; lia) ltac:(cbn [length] in *; lia)) as (kv & Hkv & Hrunv).
    destruct (IH top outer (pos + zlen tag + zlen len + zlen value) e Hlr ltac:(lia) ltac:(lia) Hs Hroom) as (k & Hk & Hrun).
    exists (S (kv + S k)). split; [lia|]. intros fuel. cbn [Nat.add scan_loop].
    rewrite (step_tag top outer pos e ltac:(lia) Hs tag Ht Hlt) by lia. rewrite (length_definite top outer (pos + zlen tag) e ltac:(lia) Hs len _ _ Hn Hll) by lia.
    unfold enter_value. rewrite Hc. cbv iota. rewrite (proj2 (Z.eqb_neq _ _)) by (cbn [length] in *; lia). fold inner. rewrite <- Nat.add_assoc, Hrunv. cbn [Nat.add scan_loop].
    unfold scan_step. rewrite (proj2 (Z.eqb_eq _ (bs_end inner))) by done. cbn [bs_terminated inner leave_scope]. rewrite Z.add_0_r, Hrun. f_equal. lia.
  - rewrite !length_app, !Nat2Z.inj_add in *. change (zlen [128]) with 1 in *. change (zlen [0; 0]) with 2 in *.
    apply lies_app in Hl as [Hlt Hl]. apply lies_app in Hl as [Hlm Hl]. change (zlen [128]) with 1 in Hl. apply lies_app in Hl as [Hlv Hl]. apply lies_app in Hl as [Hlz Hlr]. change (zlen [0; 0]) with 2 in Hlr.
    pose proof (tag_length tag Ht). set (inner := mk_ber_scope (bs_end top) true (bs_bounded top || negb true)).
    destruct (IHv inner (top :: outer) (pos + zlen tag + 1) e Hlv ltac:(lia) ltac:(cbn; lia) Hs ltac:(cbn [length] in *; lia)) as (kv & Hkv & Hrunv).
    destruct (IH top outer (pos + zlen tag + 1 + zlen value + 2) e Hlr ltac:(lia) ltac:(lia) Hs Hroom) as (k & Hk & Hrun).
    exists (S (kv + S k)). split; [cbn [length] in *; lia|]. intros fuel. cbn [Nat.add scan_loop].
    rewrite (step_tag top outer pos e ltac:(lia) Hs tag Ht Hlt), Hc by lia. rewrite length_indefinite by (lia || exact (lies_ld m data _ 128 [] Hlm)).
    unfold enter_value. rewrite (proj2 (Z.eqb_neq _ _)) by (cbn [length] in *; lia).
    replace (pos + zlen tag + 1 + (bs_end top - (pos + zlen tag + 1))) with (bs_end top) by lia. fold inner. rewrite <- Nat.add_assoc, Hrunv. cbn [Nat.add scan_loop].
    rewrite (step_marked inner (top :: outer) (pos + zlen tag + 1 + zlen value) e) by (done || (cbn; lia)). cbn [leave_scope]. rewrite Hrun. f_equal. lia.
Qed.

(** *** Soundness *)

(** How a scope is left at [pos]: behind the octets that mark its end, or at its end. *)
Definition leaves (top : ber_scope_t) (pos used : Z) : Prop :=
  if top.(bs_terminated) then used = 2 /\ lies_at m data pos [0; 0] /\ pos + 2 <= top.(bs_end) else used = 0 /\ pos = top.(bs_end).

(** A successful run through a scope: contents lie there, behind which the scope is left and the run goes on in the enclosing one. *)
Definition scope_run (fuel : nat) (top : ber_scope_t) (outer : list ber_scope_t) (pos : Z) (e : option tlv_format_error_t)
  (result : option (Z * Z) * option tlv_format_error_t) : Prop :=
  exists w used, ber_contents (Z.to_nat (TLV_BER_MAX_DEPTH - zlen (top :: outer))) w /\ lies_at m data pos w /\ leaves top (pos + zlen w) used /\
    match outer with
    | [] => result = (Some (pos + zlen w, pos + zlen w + used), e)
    | _ => exists fuel', (fuel' < fuel)%nat /\ scan_loop fuel' m data outer (pos + zlen w + used) e = Some (TLV_OK, fst result, snd result)
    end.

Lemma leaves_le top pos used : leaves top pos used -> 0 <= used /\ pos + used <= top.(bs_end).
Proof using. unfold leaves. destruct (bs_terminated top); lia. Qed.

Lemma scope_run_weaken fuel fuel' top outer pos e result : scope_run fuel top outer pos e result -> (fuel <= fuel')%nat -> scope_run fuel' top outer pos e result.
Proof using.
  intros (w & used & Hw & Hl & Hlv & Ho) Hf. exists w, used. repeat split; try done. destruct outer; [done|].
  destruct Ho as (f & Hlt & Hr). exists f. split; [lia|done].
Qed.

(** The octets [l] are read before the run. *)
Lemma scope_run_prefix fuel top outer pos e result l : lies_at m data pos l ->
  (forall w, ber_contents (Z.to_nat (TLV_BER_MAX_DEPTH - zlen (top :: outer))) w -> ber_contents (Z.to_nat (TLV_BER_MAX_DEPTH - zlen (top :: outer))) (l ++ w)) ->
  scope_run fuel top outer (pos + zlen l) e result -> scope_run fuel top outer pos e result.
Proof using.
  intros Hl Hin (w & used & Hw & Hlw & Hlv & Ho). exists (l ++ w), used. rewrite length_app, Nat2Z.inj_add, Z.add_assoc.
  split; [now apply Hin|]. split; [now apply lies_app|done].
Qed.

Lemma scope_run_end fuel used top outer pos e o e' : leaves top pos used ->
  match leave_scope outer pos used e with
  | inr result => Some result
  | inl (scopes, pos) => scan_loop fuel m data scopes pos e
  end = Some (TLV_OK, o, e') -> scope_run (S fuel) top outer pos e (o, e').
Proof using.
  intros Hlv Hrun. exists [], used. rewrite Z.add_0_r. split; [constructor|]. split; [apply lies_nil|]. split; [done|].
  destruct outer as [|s outer]; cbn [leave_scope] in Hrun; [now injection Hrun as <- <-|]. exists fuel. split; [lia|exact Hrun].
Qed.

(** A value of [n] octets behind its tag and its length is read before the run. *)
Lemma scope_run_value fuel fuel' top outer tag len n pos e result : (fuel <= fuel')%nat -> 0 <= n -> lies_at m data pos (tag ++ len) ->
  (forall w, ber_contents (Z.to_nat (TLV_BER_MAX_DEPTH - zlen (top :: outer))) w -> 
     ber_contents (Z.to_nat (TLV_BER_MAX_DEPTH - zlen (top :: outer))) (tag ++ len ++ bytes_of m (data +p (pos + zlen tag + zlen len)) n ++ w)) ->
  scope_run fuel top outer (pos + zlen tag + zlen len + n) e result -> scope_run fuel' top outer pos e result.
Proof using.
  intros Hf Hn Hl Hin Hrun. apply (scope_run_weaken fuel); [|done].
  set (value := bytes_of m (data +p (pos + zlen tag + zlen len)) n) in *. assert (zlen value = n) as Ev by (unfold value; rewrite length_bytes_of; lia).
  assert (zlen ((tag ++ len) ++ value) = zlen tag + zlen len + n) as Elen by (rewrite !length_app, !Nat2Z.inj_add, Ev; lia).
  apply (scope_run_prefix fuel top outer pos e result ((tag ++ len) ++ value)).
  - apply lies_app. split; [done|]. rewrite length_app, Nat2Z.inj_add, Z.add_assoc. now apply lies_self.
  - intros w Hw. rewrite <- !app_assoc. now apply Hin.
  - rewrite Elen, !Z.add_assoc. exact Hrun.
Qed.

Lemma depth_left (top : ber_scope_t) (outer : list ber_scope_t) : zlen (top :: outer) <= TLV_BER_MAX_DEPTH -> zlen (top :: outer) <> TLV_BER_MAX_DEPTH ->
  Z.to_nat (TLV_BER_MAX_DEPTH - zlen (top :: outer)) = S (Z.to_nat (TLV_BER_MAX_DEPTH - zlen (top :: top :: outer))).
Proof using. intros H1 H2. cbn [length] in *. lia. Qed.

Lemma scan_sound size fuel : forall top outer pos e o e', size <= SIZE_MAX -> 0 <= pos -> ends_ok size pos (top :: outer) ->
  zlen (top :: outer) <= TLV_BER_MAX_DEPTH -> scan_loop fuel m data (top :: outer) pos e = Some (TLV_OK, o, e') ->
  scope_run fuel top outer pos e (o, e').
Proof using Hd.
  induction fuel as [fuel IH] using lt_wf_ind. intros top outer pos e o e' Hs Hp Ho Hdepth Hrun.
  destruct fuel as [|fuel]; [done|]. pose proof Ho as [Hp1 Ho1]. pose proof (ends_size _ _ _ Ho1). cbn [scan_loop] in Hrun.
  pose proof (scan_step_round top outer pos e ltac:(lia) ltac:(lia)) as Hr. revert Hrun.
  destruct Hr as [rc e1 Hrc|Ee Et|Et Hz Hle|tag len n Ht Hc Hn Hl Hle|tag len n Ht Hc Hn Hl Hle Hroom|tag Ht Hc Hl Hle Hroom].
  - intros [= -> _ _]. done.
  - intros Hrun. apply (scope_run_end fuel 0); [unfold leaves; now rewrite Et|done].
  - intros Hrun. apply (scope_run_end fuel 2); [unfold leaves; now rewrite Et|done].
  - intros Hrun. pose proof (tag_length tag Ht). pose proof (length_of_range len n Hn) as [Hr Hv].
    apply (IH fuel) in Hrun; [|lia|done|lia|now split|done]. apply (scope_run_value fuel _ top outer tag len n); [lia|lia|exact Hl| |exact Hrun].
    intros w Hw. apply contents_primitive; try done. now rewrite length_bytes_of, Z2Nat.id by lia.
  - intros Hrun. pose proof (tag_length tag Ht). pose proof (length_of_range len n Hn) as [Hr Hv].
    apply (IH fuel) in Hrun as (v & used & Hv' & Hlv & [-> Eend] & fuel' & Hlt & Hrun); [|lia|done|lia|cbn; split; [lia|now split]|cbn [length] in *; lia].
    cbn [bs_end] in Eend. apply (IH fuel') in Hrun; [|lia|done|lia|split; [lia|done]|done].
    assert (zlen v = n) as Ev by lia. rewrite Eend, Z.add_0_r in Hrun.
    apply (scope_run_value fuel' _ top outer tag len n); [lia|lia|exact Hl| |exact Hrun]. rewrite <- Ev. fold (lies_at m data (pos + zlen tag + zlen len) v).
    intros w Hw. rewrite Hlv. revert Hv' Hw. rewrite (depth_left top outer) by (done || lia). intros Hv' Hw. apply contents_definite; try done. now rewrite Ev.
  - intros Hrun. pose proof (tag_length tag Ht).
    apply (IH fuel) in Hrun as (v & used & Hv' & Hlv & (-> & Hz & Hzle) & fuel' & Hlt & Hrun); [|lia|done|lia|cbn; split; [lia|now split]|cbn [length] in *; lia].
    cbn [bs_end] in Hzle. apply (IH fuel') in Hrun; [|lia|done|lia|split; [lia|done]|done].
    apply (scope_run_weaken fuel'); [|lia].
    assert (zlen (((tag ++ [128]) ++ v) ++ [0; 0]) = zlen tag + 1 + zlen v + 2) as Elen by (rewrite !length_app, !Nat2Z.inj_add; cbn; lia).
    apply (scope_run_prefix fuel' top outer pos e _ (((tag ++ [128]) ++ v) ++ [0; 0])).
    + rewrite !lies_app in *. destruct Hl as [Hlt' Hlm]. rewrite !length_app, !Nat2Z.inj_add. change (zlen [128]) with 1. rewrite !Z.add_assoc. done.
    + intros w Hw. revert Hv' Hw. rewrite (depth_left top outer) by (done || lia). intros Hv' Hw. rewrite <- !app_assoc. now apply contents_indefinite.
    + rewrite Elen, !Z.add_assoc. exact Hrun.
Qed.

(** *** Truncation *)

Lemma scan_loop_mono fuel fuel' scopes : forall pos e r, scan_loop fuel m data scopes pos e = Some r -> (fuel <= fuel')%nat ->
  scan_loop fuel' m data scopes pos e = Some r.
Proof using.
  revert fuel' scopes. induction fuel as [|fuel IH]; intros fuel' scopes pos e r Hr Hle; [done|]. destruct fuel' as [|fuel']; [lia|].
  cbn [scan_loop] in *. destruct scopes as [|top outer]; [done|]. destruct (scan_step m data top outer pos e) as [[scopes' pos']|r']; [|done].
  apply IH; [done|lia].
Qed.

(** The run ends for want of octets. *)
Definition runs_out (scopes : list ber_scope_t) (pos : Z) (e : option tlv_format_error_t) : Prop :=
  exists fuel e', scan_loop fuel m data scopes pos e = Some (TLV_ERR_TRUNCATED, None, e').

Lemma runs_out_step top outer pos e scopes pos' : scan_step m data top outer pos e = inl (scopes, pos') -> runs_out scopes pos' e ->
  runs_out (top :: outer) pos e.
Proof using. intros Hs (fuel & e' & Hr). exists (S fuel), e'. cbn [scan_loop]. now rewrite Hs. Qed.

Lemma runs_out_run k top outer pos pos' e : (forall fuel, scan_loop (k + fuel) m data (top :: outer) pos e = scan_loop fuel m data (top :: outer) pos' e) ->
  runs_out (top :: outer) pos' e -> runs_out (top :: outer) pos e.
Proof using. intros Hs (fuel & e' & Hr). exists (k + fuel)%nat, e'. now rewrite Hs. Qed.

Section Unbounded.
Context (top : ber_scope_t) (outer : list ber_scope_t) (pos : Z) (e : option tlv_format_error_t)
  (Hpos : 0 <= pos <= top.(bs_end)) (Hend : top.(bs_end) <= SIZE_MAX) (Hub : top.(bs_bounded) = false) (Hterm : top.(bs_terminated) = true).

Lemma scan_truncated e' offset region : scan_step m data top outer pos e = scan_fails (scan_failure e' TLV_ERR_TRUNCATED offset region top.(bs_bounded)) ->
  runs_out (top :: outer) pos e.
Proof using Hub. intros Hs. exists 1%nat. cbn [scan_loop]. rewrite Hs, Hub. eexists. reflexivity. Qed.

Lemma cut_end : pos = top.(bs_end) -> runs_out (top :: outer) pos e.
Proof using Hub Hterm. intros Hp. eapply scan_truncated. unfold scan_step. rewrite (proj2 (Z.eqb_eq _ _) Hp), Hterm. reflexivity. Qed.

Lemma cut_mark : lies_at m data pos [0; 0] -> top.(bs_end) < pos + 2 -> runs_out (top :: outer) pos e.
Proof using Hub Hterm Hpos.
  intros Hl Hlt. destruct (Z.eq_dec pos top.(bs_end)) as [|Hne]; [now apply cut_end|]. eapply scan_truncated. unfold scan_step.
  rewrite (proj2 (Z.eqb_neq _ _) Hne), (lies_ld m data pos 0 [0] Hl), (proj2 (Z.ltb_lt _ TLV_BER_EOC_SIZE)) by (unfold TLV_BER_EOC_SIZE; lia). reflexivity.
Qed.

Lemma cut_tag tag : ber_tag tag -> lies_at m data pos tag -> top.(bs_end) < pos + zlen tag -> runs_out (top :: outer) pos e.
Proof using Hd Hub Hterm Hpos Hend.
  intros Ht Hl Hlt. destruct (Z.eq_dec pos top.(bs_end)) as [|Hne]; [now apply cut_end|].
  pose proof (tag_adm_length tag Ht) as Hlen. assert (data +p pos <> NULL) as Hd' by now destruct data.
  assert (0 <= zlen tag <= SIZE_MAX) as Hlen' by lia.
  assert (ber_read_tag m (data +p pos) (zlen tag) empty_tag 0 = (TLV_OK, tlv_tag (data +p pos) (zlen tag), zlen tag)) as Hr
    by (apply tag_read_back; [done|lia|lia|now rewrite Hl]).
  assert (fst (fst (ber_read_tag m (data +p pos) (bs_end top - pos) empty_tag 0)) = TLV_ERR_TRUNCATED) as Htr
    by (eapply tag_read_truncated; [exact Hd'|exact Hlen'|exact Hr|lia]).
  destruct (ber_read_tag m (data +p pos) (bs_end top - pos) empty_tag 0) as [[rc t] k] eqn:Er. cbn [fst] in Htr. subst rc.
  eapply scan_truncated. unfold scan_step. rewrite (proj2 (Z.eqb_neq _ _) Hne), (proj2 (Z.eqb_neq (ld m data pos) 0)) by now apply (tag_lead tag).
  rewrite Er. reflexivity.
Qed.

(** A length is cut short, or what follows it is. *)
Lemma cut_length len n constructed start : ber_length_of len n -> lies_at m data start len -> 0 <= start <= top.(bs_end) ->
  scan_step m data top outer pos e = scan_length m data top outer start constructed e -> top.(bs_end) < start + zlen len + n ->
  runs_out (top :: outer) pos e.
Proof using Hd Hub Hend Hpos.
  intros Hn Hl Hs Hstep Hlt. pose proof (length_of_range len n Hn) as [Hr Hv]. unfold scan_length in Hstep.
  destruct (Z.eqb_spec start top.(bs_end)) as [|Hne]; [eapply scan_truncated; exact Hstep|]. revert Hstep. unfold TLV_BER_LENGTH_LONG_FORM_BIT.
  rewrite (proj2 (Z.eqb_neq (ld m data start) 128)) by now apply (length_lead len n).
  assert (data +p start <> NULL) as Hd' by now destruct data.
  destruct (Z.lt_ge_cases (top.(bs_end) - start) (zlen len)) as [Hcut|Hfit].
  - pose proof (read_length_at len n start (start + zlen len) Hn Hl ltac:(lia) ltac:(lia)) as Hrd. rewrite Z.add_simpl_l in Hrd.
    pose proof SIZE_MAX_bounds. assert (0 <= zlen len <= SIZE_MAX) as Hlen by lia.
    assert (fst (fst (ber_read_length m (data +p start) (bs_end top - start) 0 0)) = TLV_ERR_TRUNCATED) as Htr
      by (eapply len_read_truncated; [exact Hd'|exact Hlen|exact Hrd|lia]).
    destruct (ber_read_length m (data +p start) (bs_end top - start) 0 0) as [[rc v] lk]. cbn [fst] in Htr. subst rc. intros Hstep. eapply scan_truncated. exact Hstep.
  - rewrite (read_length_at len n) by (done || lia). rewrite is_ok_OK. cbn [negb]. rewrite (proj2 (Z.ltb_lt _ n)) by lia. intros Hstep. eapply scan_truncated. exact Hstep.
Qed.
End Unbounded.

(** Contents that the limit of an unbounded scope cuts short. *)
Lemma contents_cut depth w : ber_contents depth w -> forall top outer pos e, top.(bs_bounded) = false -> top.(bs_terminated) = true ->
  lies_at m data pos w -> 0 <= pos <= top.(bs_end) -> top.(bs_end) < pos + zlen w -> top.(bs_end) <= SIZE_MAX ->
  zlen (top :: outer) + Z.of_nat depth <= TLV_BER_MAX_DEPTH -> runs_out (top :: outer) pos e.
Proof using Hd.
  induction 1 as [depth|depth tag len value rest Ht Hc Hn _ IH|depth tag len value rest Ht Hc Hn Hv IHv _ IH|depth tag value rest Ht Hc Hv IHv _ IH];
    intros top outer pos e Hub Hterm Hl Hp Hlt Hs Hroom.
  - cbn in Hlt. lia.
  - rewrite !length_app, !Nat2Z.inj_add in *. rewrite !lies_app in Hl. destruct Hl as (Hlt' & Hll & Hlv & Hlr).
    destruct (Z.lt_ge_cases top.(bs_end) (pos + zlen tag)) as [Hc1|Hc1]; [now apply (cut_tag top outer pos e) with tag|].
    pose proof (step_tag top outer pos e Hp Hs tag Ht Hlt' Hc1) as Hstep.
    destruct (Z.lt_ge_cases top.(bs_end) (pos + zlen tag + zlen len + zlen value)) as [Hc2|Hc2].
    { eapply (cut_length top outer pos e); try done. pose proof (tag_length tag Ht). lia. }
    pose proof (length_of_range len _ Hn). pose proof (tag_length tag Ht).
    eapply runs_out_step; [rewrite Hstep, (length_definite top outer (pos + zlen tag) e ltac:(lia) Hs len _ _ Hn Hll Hc2); unfold enter_value; rewrite Hc; reflexivity|].
    apply IH; try done; lia.
  - rewrite !length_app, !Nat2Z.inj_add in *. rewrite !lies_app in Hl. destruct Hl as (Hlt' & Hll & Hlv & Hlr).
    destruct (Z.lt_ge_cases top.(bs_end) (pos + zlen tag)) as [Hc1|Hc1]; [now apply (cut_tag top outer pos e) with tag|].
    pose proof (step_tag top outer pos e Hp Hs tag Ht Hlt' Hc1) as Hstep.
    destruct (Z.lt_ge_cases top.(bs_end) (pos + zlen tag + zlen len + zlen value)) as [Hc2|Hc2].
    { eapply (cut_length top outer pos e); try done. pose proof (tag_length tag Ht). lia. }
    pose proof (length_of_range len _ Hn). pose proof (tag_length tag Ht).
    set (inner := mk_ber_scope (pos + zlen tag + zlen len + zlen value) false (bs_bounded top || negb false)).
    destruct (contents_run depth value Hv inner (top :: outer) (pos + zlen tag + zlen len) e Hlv ltac:(lia) ltac:(cbn; lia) ltac:(cbn; lia) ltac:(cbn [length] in *; lia)) as (k & _ & Hrun).
    eapply runs_out_step.
    { rewrite Hstep, (length_definite top outer (pos + zlen tag) e ltac:(lia) Hs len _ _ Hn Hll Hc2). unfold enter_value. rewrite Hc.
      rewrite (proj2 (Z.eqb_neq _ _)) by (cbn [length] in *; lia). reflexivity. }
    fold inner. eapply (runs_out_run k); [exact Hrun|]. eapply runs_out_step.
    { unfold scan_step. rewrite (proj2 (Z.eqb_eq _ (bs_end inner))) by done. reflexivity. }
    rewrite Z.add_0_r. apply IH; try done; lia.
  - rewrite !length_app, !Nat2Z.inj_add in *. change (zlen [128]) with 1 in *. change (zlen [0; 0]) with 2 in *.
    rewrite !lies_app in Hl. destruct Hl as (Hlt' & Hlm & Hlv & Hlz & Hlr). change (zlen [128]) with 1 in *. change (zlen [0; 0]) with 2 in *.
    destruct (Z.lt_ge_cases top.(bs_end) (pos + zlen tag)) as [Hc1|Hc1]; [now apply (cut_tag top outer pos e) with tag|].
    pose proof (step_tag top outer pos e Hp Hs tag Ht Hlt' Hc1) as Hstep. pose proof (tag_length tag Ht). rewrite Hc in Hstep.
    destruct (Z.eq_dec (pos + zlen tag) top.(bs_end)) as [Ee|Hne].
    { eapply (scan_truncated top outer pos e); [done|]. rewrite Hstep. unfold scan_length. rewrite (proj2 (Z.eqb_eq _ _) Ee). reflexivity. }
    set (inner := mk_ber_scope (bs_end top) true (bs_bounded top || negb true)).
    assert (bs_bounded inner = false) as Hubi by (cbn; now rewrite Hub).
    eapply runs_out_step.
    { rewrite Hstep, length_indefinite by (lia || exact (lies_ld m data _ 128 [] Hlm)). unfold enter_value.
      rewrite (proj2 (Z.eqb_neq _ _)) by (cbn [length] in *; lia). reflexivity. }
    replace (pos + zlen tag + 1 + (bs_end top - (pos + zlen tag + 1))) with (bs_end top) by lia. fold inner.
    destruct (Z.lt_ge_cases top.(bs_end) (pos + zlen tag + 1 + zlen value)) as [Hc2|Hc2].
    { apply IHv; try done; cbn [bs_end inner length] in *; lia. }
    destruct (contents_run depth value Hv inner (top :: outer) (pos + zlen tag + 1) e Hlv ltac:(lia) ltac:(cbn; lia) ltac:(cbn; lia) ltac:(cbn [length] in *; lia)) as (k & _ & Hrun).
    eapply (runs_out_run k); [exact Hrun|].
    destruct (Z.lt_ge_cases top.(bs_end) (pos + zlen tag + 1 + zlen value + 2)) as [Hc3|Hc3].
    { apply cut_mark; try done; cbn; lia. }
    eapply runs_out_step; [rewrite (step_marked inner (top :: outer) (pos + zlen tag + 1 + zlen value) e) by (done || (cbn; lia)); reflexivity|].
    apply IH; try done; lia.
Qed.
End Elements.

(** ** The scan *)

(** The contents [w] lie at the start of [size] octets: before the octets that end them, or alone. *)
Definition framed (m : mem) (data : ptr) (size : Z) (indefinite : bool) (w : list Z) : Prop :=
  lies_at m data 0 w /\ if indefinite then lies_at m data (zlen w) [0; 0] /\ zlen w + TLV_BER_EOC_SIZE <= size else zlen w = size.

Definition trailer_size (indefinite : bool) : Z := if indefinite then TLV_BER_EOC_SIZE else 0.

(** One scope is open at the start. *)
Definition SCAN_DEPTH : nat := 63.

Section Scan.
Context `{Platform} (m : mem) (data : ptr) (Hd : data <> NULL) (size : Z) (Hs : 0 <= size <= SIZE_MAX).

Lemma scan_contents_run indefinite error : exists r,
  scan_loop (Z.to_nat (2 * size + 2)) m data [mk_ber_scope size indefinite false] 0 error = Some r.
Proof using Hd Hs. apply (scan_loop_returns m data Hd size); [lia|lia|done|cbn; lia|cbn [length]; lia]. Qed.

(** What a run on any fuel returns, the scan does. *)
Lemma scan_contents_fuel fuel indefinite v c error r :
  scan_loop fuel m data [mk_ber_scope size indefinite false] 0 error = Some r ->
  tlv_ber_scan_contents_diag m data size indefinite v c error =
  Some (let '(rc, o, e) := r in match o with Some (v, c) => (rc, v, c, e) | None => (rc, v, c, e) end).
Proof using Hd Hs.
  intros Hr. unfold tlv_ber_scan_contents_diag. destruct (scan_contents_run indefinite error) as [r' Hr']. rewrite Hr'.
  assert (r' = r) as ->; [|now destruct r as [[rc [[v' c']|]] e]].
  destruct (Nat.le_ge_cases fuel (Z.to_nat (2 * size + 2))) as [Hle|Hle].
  - apply (scan_loop_mono _ _ _ _ _ _ _ _ Hr) in Hle. congruence.
  - apply (scan_loop_mono _ _ _ _ _ _ _ _ Hr') in Hle. congruence.
Qed.

Lemma scan_contents_returns indefinite v c error : exists r, tlv_ber_scan_contents_diag m data size indefinite v c error = Some r.
Proof using Hd Hs. destruct (scan_contents_run indefinite error) as [r Hr]. eexists. now apply (scan_contents_fuel _ _ _ _ _ _ Hr). Qed.

Lemma scan_contents_complete indefinite w v c error : ber_contents SCAN_DEPTH w -> framed m data size indefinite w ->
  tlv_ber_scan_contents_diag m data size indefinite v c error = Some (TLV_OK, zlen w, zlen w + trailer_size indefinite, error).
Proof using Hd Hs.
  intros Hw [Hl Hf]. set (top := mk_ber_scope size indefinite false).
  assert (zlen w <= size) as Hle by (unfold TLV_BER_EOC_SIZE in Hf; destruct indefinite; lia).
  destruct (contents_run m data Hd SCAN_DEPTH w Hw top [] 0 error Hl ltac:(lia) ltac:(cbn; lia) ltac:(cbn; lia) ltac:(done)) as (k & _ & Hrun).
  rewrite (scan_contents_fuel (k + 1) indefinite v c error (TLV_OK, Some (zlen w, zlen w + trailer_size indefinite), error)); [done|].
  fold top. rewrite Hrun. cbn [scan_loop]. unfold trailer_size. destruct indefinite; cbn [trailer_size].
  - destruct Hf as [Hz Hle2]. rewrite step_marked by (done || (cbn; unfold TLV_BER_EOC_SIZE in *; lia)). reflexivity.
  - unfold scan_step. rewrite (proj2 (Z.eqb_eq _ (bs_end top))) by (cbn; lia). reflexivity.
Qed.

Lemma scan_contents_sound indefinite v c error v' c' error' :
  tlv_ber_scan_contents_diag m data size indefinite v c error = Some (TLV_OK, v', c', error') ->
  exists w, ber_contents SCAN_DEPTH w /\ framed m data size indefinite w /\ v' = zlen w /\ c' = zlen w + trailer_size indefinite /\ error' = error.
Proof using Hd Hs.
  destruct (scan_contents_run indefinite error) as [[[rc o] e] Hr]. rewrite (scan_contents_fuel _ _ _ _ _ _ Hr). intros E.
  assert (rc = TLV_OK) as -> by (destruct o as [[? ?]|]; congruence).
  apply (scan_sound m data Hd size) in Hr as (w & used & Hw & Hl & Hlv & [= -> ->]); [|lia|lia|cbn; lia|done].
  injection E as <- <- <-. exists w. split; [exact Hw|]. unfold leaves in Hlv. cbn [bs_terminated bs_end] in Hlv. unfold framed, trailer_size.
  destruct indefinite; [destruct Hlv as (-> & Hz & Hle)|destruct Hlv as [-> Hle]]; done.
Qed.

Lemma scan_contents_cut w v c error : ber_contents SCAN_DEPTH w -> lies_at m data 0 (w ++ [0; 0]) -> size < zlen w + 2 ->
  exists error', tlv_ber_scan_contents_diag m data size true v c error = Some (TLV_ERR_TRUNCATED, v, c, error').
Proof using Hd Hs.
  intros Hw Hl Hlt. apply lies_app in Hl as [Hl Hz]. set (top := mk_ber_scope size true false).
  assert (runs_out m data [top] 0 error) as (fuel & e' & Hr); [|eexists; now rewrite (scan_contents_fuel fuel true v c error _ Hr)].
  destruct (Z.lt_ge_cases size (zlen w)) as [Hc|Hc]; [apply (contents_cut m data Hd SCAN_DEPTH w Hw top [] 0 error); try done; cbn; lia|].
  destruct (contents_run m data Hd SCAN_DEPTH w Hw top [] 0 error Hl ltac:(lia) ltac:(cbn; lia) ltac:(cbn; lia) ltac:(done)) as (k & _ & Hrun).
  eapply (runs_out_run m data k); [exact Hrun|]. apply cut_mark; try done; cbn; lia.
Qed.
End Scan.
