(* ===== verification/BerWrite.v ===== *)
(** * BER as a format: decoding and writing

    The bounds of a value in either form of length, the elements that are decoded, the interfaces of a
    lawful decoder and of a lawful codec, and what is written read back. *)

From S2P Require Import Prelude Mem Core Endian Format FieldFixed FieldVariable FieldVariableLaws WireFormat Compose ComposeLaws Writer Asn1 Asn1Laws Ber BerLaws.

Lemma lies_shift m data i j l : lies_at m (data +p i) j l <-> lies_at m data (i + j) l.
Proof. unfold lies_at. now rewrite padd_padd. Qed.

Lemma lies_same m m' data n pos l : same_bytes m m' data n -> 0 <= pos -> pos + zlen l <= n -> lies_at m data pos l -> lies_at m' data pos l.
Proof.
  intros Hsame Hp Hle Hl. unfold lies_at in *. rewrite <- Hl at 2. symmetry. apply bytes_of_ext. intros i Hi. rewrite !ld_padd. apply Hsame. lia.
Qed.

Lemma constructed_same m m' data k : ld m data 0 = ld m' data 0 -> tlv_asn1_is_constructed m (tlv_tag data k) = tlv_asn1_is_constructed m' (tlv_tag data k).
Proof. intros E. unfold tlv_asn1_is_constructed, tlv_constructed_bit_predicate. cbn [cb_mask cb_value cb_byte_index tlv_tag t_data t_size]. now rewrite E. Qed.

Section Bounds.
Context `{Platform}.

(** What follows a tag: a length of [lk] octets, a value of [n] and a trailer of [tr]. *)
Inductive bounds_at (m : mem) (data : ptr) (size : Z) (constructed : bool) : Z -> Z -> Z -> Prop :=
| bounds_definite n lk : 1 <= size -> ld m data 0 <> TLV_BER_LENGTH_LONG_FORM_BIT -> ber_read_length m data size 0 0 = (TLV_OK, n, lk) ->
    bounds_at m data size constructed lk n 0
| bounds_indefinite w : constructed = true -> ld m data 0 = TLV_BER_LENGTH_LONG_FORM_BIT -> ber_contents SCAN_DEPTH w ->
    lies_at m data 1 (w ++ [0; 0]) -> zlen w + 3 <= size -> bounds_at m data size constructed 1 (zlen w) TLV_BER_EOC_SIZE.

Context (m : mem) (data : ptr) (Hd : data <> NULL).

Lemma bounds_range size c lk n tr : size <= SIZE_MAX -> bounds_at m data size c lk n tr -> 1 <= lk <= size /\ 0 <= n <= UINT64_MAX /\ 0 <= tr <= 2.
Proof using Hd.
  intros Hs Hb. pose proof SIZE_MAX_bounds. destruct Hb as [n lk Hsz _ Hr|w _ _ _ _ Hle]; [|unfold TLV_BER_EOC_SIZE; lia].
  apply (len_read_sound (read := ber_read_length) (write := tlv_ber_write_length)) in Hr; [lia|done|lia].
Qed.

Lemma framed_tail size w : framed m (data +p 1) (size - 1) true w <-> lies_at m data 1 (w ++ [0; 0]) /\ zlen w + 3 <= size.
Proof using.
  unfold framed, TLV_BER_EOC_SIZE. rewrite lies_app, !lies_shift, Z.add_0_r. split; [intros (? & ? & ?)|intros ((? & ?) & ?)]; repeat split; (done || lia).
Qed.

Lemma resolve_ok size tag c lk n tr ls vs ts e : 0 <= size <= SIZE_MAX -> tlv_asn1_is_constructed m tag = c -> bounds_at m data size c lk n tr ->
  read_value_bounds m tag data size ls vs ts e = (TLV_OK, lk, n, tr, e).
Proof using Hd.
  intros Hs Hc Hb. unfold read_value_bounds. destruct Hb as [n lk Hsz Hne Hr|w Hcw E Hw Hl Hle].
  - rewrite (proj2 (Z.eqb_neq size 0)), (proj2 (Z.eqb_neq _ _) Hne) by lia. cbn [orb negb].
    assert (ber_read_length m data size 0 ls = (TLV_OK, n, lk)) as ->.
    { pose proof (len_read_sound (read := ber_read_length) (write := tlv_ber_write_length) m data size 0 0 n lk Hd Hs Hr) as [Hlk _].
      apply (len_read_local m m data size size 0 0 0 ls n lk Hd Hs Hs Hr); [lia|done]. }
    now rewrite is_ok_OK.
  - rewrite (proj2 (Z.eqb_neq size 0)), E, Z.eqb_refl, Hc, Hcw by lia. cbn [orb negb].
    assert (data +p 1 <> NULL) as Hd' by now destruct data.
    assert (0 <= size - 1 <= SIZE_MAX) as Hs1 by lia.
    rewrite (scan_contents_complete m (data +p 1) Hd' (size - 1) Hs1 true w) by (done || now apply framed_tail). now rewrite is_ok_OK.
Qed.

Lemma resolve_inv size tag ls vs ts e lk n tr e' : 0 <= size <= SIZE_MAX -> read_value_bounds m tag data size ls vs ts e = (TLV_OK, lk, n, tr, e') ->
  bounds_at m data size (tlv_asn1_is_constructed m tag) lk n tr /\ e' = e.
Proof using Hd.
  intros Hs. unfold read_value_bounds. destruct (Z.eqb_spec size 0) as [->|Hne]; cbn [orb].
  { destruct (ber_read_length m data 0 0 ls) as [[rc l] k] eqn:Er. destruct (is_ok rc) eqn:Eok; cbn [negb].
    - apply is_ok_true in Eok as ->. apply (len_read_sound (read := ber_read_length) (write := tlv_ber_write_length)) in Er; [lia|done|done].
    - apply is_ok_false in Eok. congruence. }
  destruct (Z.eqb_spec (ld m data 0) TLV_BER_LENGTH_LONG_FORM_BIT) as [E|E]; cbn [negb].
  - destruct (tlv_asn1_is_constructed m tag) eqn:Ec; [|done]. cbn [negb]. assert (data +p 1 <> NULL) as Hd' by now destruct data.
    assert (0 <= size - 1 <= SIZE_MAX) as Hs1 by lia.
    destruct (scan_contents_returns m (data +p 1) Hd' (size - 1) Hs1 true 0 0 (Some e)) as [[[[rc v] c] f] Hr]. rewrite Hr.
    destruct (is_ok rc) eqn:Eok; cbn [negb]; [|apply is_ok_false in Eok; congruence]. apply is_ok_true in Eok as ->.
    apply scan_contents_sound in Hr as (w & Hw & Hf & -> & _ & ->); [|done|lia]. intros [= <- <- <- <-]. split; [|done].
    apply framed_tail in Hf as [Hl Hle]. now apply bounds_indefinite.
  - destruct (ber_read_length m data size 0 ls) as [[rc l] k] eqn:Er. destruct (is_ok rc) eqn:Eok; cbn [negb]; [|apply is_ok_false in Eok; congruence].
    apply is_ok_true in Eok as ->. intros [= <- <- <- <-]. split; [|done]. apply bounds_definite; [lia|done|].
    pose proof (len_read_sound (read := ber_read_length) (write := tlv_ber_write_length) m data size 0 ls l k Hd Hs Er) as [Hlk _].
    apply (len_read_local m m data size size 0 ls 0 0 l k Hd Hs Hs Er); [lia|done].
Qed.

Lemma bounds_local m' size size' c lk n tr : 0 <= size <= SIZE_MAX -> 0 <= size' <= SIZE_MAX -> bounds_at m data size c lk n tr ->
  lk + n + tr <= size' -> same_bytes m m' data (lk + n + tr) -> bounds_at m' data size' c lk n tr.
Proof using Hd.
  intros Hs Hs' Hb Hle Hsame. pose proof (bounds_range size c lk n tr ltac:(lia) Hb) as (Hlk & Hn & Htr).
  assert (ld m data 0 = ld m' data 0) as E0 by (apply Hsame; lia). destruct Hb as [n lk Hsz Hne Hr|w Hc E Hw Hl Hle'].
  - apply bounds_definite; [lia|congruence|]. apply (len_read_local m m' data size size' 0 0 0 0 n lk Hd Hs Hs' Hr); [lia|].
    intros i Hi. apply Hsame. lia.
  - unfold TLV_BER_EOC_SIZE in *. apply bounds_indefinite; try done; [congruence| |lia]. eapply lies_same; [exact Hsame|lia| |exact Hl]. rewrite length_app, Nat2Z.inj_add. cbn. lia.
Qed.

Lemma bounds_definite_local size size' c lk n : 0 <= size <= SIZE_MAX -> 0 <= size' <= SIZE_MAX -> bounds_at m data size c lk n 0 ->
  lk <= size' -> bounds_at m data size' c lk n 0.
Proof using Hd.
  intros Hs Hs' Hb Hle. pose proof (bounds_range size c lk n 0 ltac:(lia) Hb) as (Hlk & _ & _). inversion Hb as [n' lk' Hsz Hne Hr|]; subst.
  apply bounds_definite; [lia|done|]. apply (len_read_local m m data size size' 0 0 0 0 n lk Hd Hs Hs' Hr); [lia|done].
Qed.

Lemma bounds_truncated size size' tag lk n tr ls vs ts e : 0 <= size <= SIZE_MAX -> 0 <= size' -> bounds_at m data size (tlv_asn1_is_constructed m tag) lk n tr ->
  size' < lk + (if tr =? 0 then 0 else n + tr) -> fst (fst (fst (fst (read_value_bounds m tag data size' ls vs ts e)))) = TLV_ERR_TRUNCATED.
Proof using Hd.
  intros Hs Hs' Hb Hlt. destruct Hb as [n lk Hsz Hne Hr|w Hc E Hw Hl Hle]; unfold read_value_bounds.
  - change (0 =? 0) with true in Hlt. rewrite Z.add_0_r in Hlt. rewrite (proj2 (Z.eqb_neq _ _) Hne), orb_true_r. 
    pose proof (len_read_truncated (read := ber_read_length) (write := tlv_ber_write_length) m data size size' 0 0 0 ls _ _ Hd Hs Hr ltac:(split; [exact Hs'|exact Hlt])) as Ht.
    destruct (ber_read_length m data size' 0 ls) as [[rc l] k]. cbn [fst] in Ht. now subst rc.
  - change (TLV_BER_EOC_SIZE =? 0) with false in Hlt. unfold TLV_BER_EOC_SIZE in Hlt. assert (data +p 1 <> NULL) as Hd' by now destruct data.
    destruct (Z.eqb_spec size' 0) as [->|Hne]; cbn [orb].
    { assert (is_null data = false) as En by now destruct data. unfold ber_read_length, ber_wire_read_length, variable_length_reader, tlv_variable_length_read. rewrite En. reflexivity. }
    rewrite E, Z.eqb_refl, Hc. cbn [negb].
    assert (0 <= size' - 1 <= SIZE_MAX) as Hs1 by lia.
    destruct (scan_contents_cut m (data +p 1) Hd' (size' - 1) Hs1 w 0 0 (Some e) Hw) as [e' ->]; [now rewrite lies_shift|lia|]. reflexivity.
Qed.
End Bounds.

(** ** Decoding *)

Section Decode.
Context `{Platform}.

(** A complete element: a tag of [k] octets, a length of [lk], a value of [n] and a trailer of [tr]. *)
Record ber_at (m : mem) (data : ptr) (size k lk n tr : Z) : Prop := {
  ba_tag : forall t0 c0, ber_read_tag m (data +p 0) (size - 0) t0 c0 = (TLV_OK, tlv_tag (data +p 0) k, k);
  ba_bounds : bounds_at m (data +p k) (size - k) (tlv_asn1_is_constructed m (tlv_tag (data +p 0) k)) lk n tr;
  ba_k : 1 <= k;
  ba_fits : k + lk + n + tr <= size }.

Definition ber_result (data : ptr) (k lk n tr : Z) : tlv_decoded_t :=
  mk_decoded (mk_element (tlv_tag (data +p 0) k) (mk_value (data +p (k + lk)) n))
    (mk_source NULL (k + lk + n + tr) (range 0 (k + lk)) (range 0 k) (range k lk) (range (k + lk) n) (range (k + lk + n) tr)
       empty_element NULL TLV_TAG_BINDING_SOURCE).

Context (m : mem) (data : ptr) (Hd : data <> NULL).

Lemma ber_at_range size k lk n tr : size <= SIZE_MAX -> ber_at m data size k lk n tr -> 1 <= lk /\ 0 <= n <= UINT64_MAX /\ 0 <= tr <= 2.
Proof using Hd. intros Hs [_ Hb Hk _]. apply bounds_range in Hb; [lia|now destruct data|lia]. Qed.

(** The state behind the tag. *)
Definition behind_tag (k : Z) : fields_state := mk_fs (tlv_tag (data +p 0) k) 0 k k 0 0 (set_source_tag (range 0 k) no_decoded).

Lemma behind_tag_step size k : 1 <= k <= size -> (forall t0 c0, ber_read_tag m (data +p 0) (size - 0) t0 c0 = (TLV_OK, tlv_tag (data +p 0) k, k)) ->
  decode_identifier tlv_ber_fields m data size no_error (mk_fs empty_tag 0 0 0 0 0 no_decoded) = inr (behind_tag k).
Proof using Hd. intros Hk Hr. now rewrite (decode_identifier_ok tlv_ber_fields ber_read_tag eq_refl m data size no_error _ k) by (cbn [fs_pos]; done || lia). Qed.

Lemma ber_decode_at size k lk n tr : size <= SIZE_MAX -> ber_at m data size k lk n tr ->
  tlv_fields_decode tlv_ber_fields m data size no_decoded no_error = (TLV_OK, ber_result data k lk n tr, no_error).
Proof using Hd.
  intros Hs Hat. pose proof (ber_at_range size k lk n tr Hs Hat) as (Hlk & Hn & Htr). destruct Hat as [Hr Hb Hk Hfit].
  unfold tlv_fields_decode. cbn [is_tlv fc_element_order tlv_ber_fields].
  rewrite (behind_tag_step size k) by (done || lia). cbn [bind_step].
  unfold decode_length, behind_tag. cbn [fc_resolve tlv_ber_fields fs_tag fs_pos fs_length fs_length_size fs_trailer].
  assert (data +p k <> NULL) as Hd' by now destruct data. assert (0 <= size - k <= SIZE_MAX) as Hsk by lia.
  rewrite (resolve_ok m (data +p k) Hd' (size - k) _ _ lk n tr 0 0 0 no_error Hsk eq_refl Hb).
  change (read_result TLV_OK) with TLV_OK. rewrite is_ok_OK. cbn [negb andb]. rewrite (proj2 (Z.ltb_ge _ lk)) by lia. rewrite is_ok_OK. cbn [negb andb fc_length_scope tlv_ber_fields is_tag_scope].
  rewrite is_ok_OK. cbn [negb bind_step]. unfold decode_value. cbn [fc_length_scope tlv_ber_fields is_tag_scope andb fs_length fs_pos fs_trailer fs_tag fs_result].
  rewrite (proj2 (Z.ltb_ge _ n)) by lia. rewrite usize_small by lia. rewrite (proj2 (Z.ltb_ge _ tr)) by lia.
  unfold available. rewrite (proj2 (Z.leb_le lk _)) by lia. reflexivity.
Qed.

Lemma ber_decode_inv size d e : 1 <= size <= SIZE_MAX -> tlv_fields_decode tlv_ber_fields m data size no_decoded no_error = (TLV_OK, d, e) ->
  exists k lk n tr, ber_at m data size k lk n tr.
Proof using Hd.
  intros Hs E. unfold tlv_fields_decode in E. cbn [is_tlv fc_element_order tlv_ber_fields] in E.
  destruct (decode_identifier tlv_ber_fields m data size no_error _) as [[[? ?] ?]|s1] eqn:E1; cbn [bind_step] in E; [apply decode_identifier_inl in E1; congruence|].
  apply (decode_identifier_inv tlv_ber_fields ber_read_tag ber_write_tag eq_refl) in E1 as (k & Hk & Hr & ->); [|done|cbn; lia|lia].
  cbn [fs_pos fs_length fs_length_size fs_trailer fs_result] in *. rewrite Z.add_0_l, Z.sub_0_r in *.
  unfold decode_length in E. cbn [fc_resolve tlv_ber_fields fs_tag fs_pos fs_length fs_length_size fs_trailer] in E.
  destruct (read_value_bounds m (tlv_tag (data +p 0) k) (data +p k) (size - k) 0 0 0 no_error) as [[[[rc lk] n] tr] re] eqn:Eb.
  assert (rc = TLV_OK) as ->.
  { destruct (is_ok (read_result rc)) eqn:Eok; cbn [negb] in E; [|apply is_ok_false in Eok; cbn [bind_step] in E; congruence].
    unfold read_result in Eok. destruct (rc_eqb _ _) in Eok; [done|]. apply (callback_result_ok rc false). now apply is_ok_true. }
  assert (data +p k <> NULL) as Hd' by now destruct data. assert (0 <= size - k <= SIZE_MAX) as Hsk by lia.
  apply (resolve_inv m (data +p k) Hd') in Eb as [Hb ->]; [|exact Hsk].
  pose proof (bounds_range m (data +p k) Hd' (size - k) _ lk n tr (proj2 Hsk) Hb) as (Hlk & Hn & Htr).
  exists k, lk, n, tr. split; try done; [intros t0 c0; rewrite Z.sub_0_r; apply Hr|lia|].
  change (read_result TLV_OK) with TLV_OK in E. rewrite is_ok_OK in E. cbn [negb andb] in E. rewrite (proj2 (Z.ltb_ge _ lk)) in E by lia.
  rewrite is_ok_OK in E. cbn [negb andb fc_length_scope tlv_ber_fields is_tag_scope] in E. rewrite is_ok_OK in E. cbn [negb bind_step] in E.
  unfold decode_value in E. cbn [fc_length_scope tlv_ber_fields is_tag_scope andb fs_length fs_pos fs_trailer fs_tag fs_result] in E.
  destruct (Z.ltb_spec (size - (k + lk)) n); [done|]. rewrite usize_small in E by lia. destruct (Z.ltb_spec (size - (k + lk) - n) tr); [done|]. lia.
Qed.

Lemma ber_at_local m' size size' k lk n tr : 0 <= size <= SIZE_MAX -> 0 <= size' <= SIZE_MAX -> ber_at m data size k lk n tr ->
  k + lk + n + tr <= size' -> same_bytes m m' data (k + lk + n + tr) -> ber_at m' data size' k lk n tr.
Proof using Hd.
  intros Hs Hs' Hat Hle Hsame. pose proof (ber_at_range size k lk n tr (proj2 Hs) Hat) as (Hlk & Hn & Htr). destruct Hat as [Hr Hb Hk Hfit].
  split; try done.
  - intros t0 c0. rewrite Z.sub_0_r in *. assert (data +p 0 <> NULL) as Hd' by now destruct data.
    apply (tag_read_local ber_read_tag ber_write_tag m m' _ size _ t0 c0); try done; try lia. intros i Hi. rewrite !ld_padd. apply Hsame. lia.
  - assert (data +p k <> NULL) as Hd' by now destruct data. rewrite <- (constructed_same m m') by (rewrite !ld_padd; apply Hsame; lia).
    apply (bounds_local m (data +p k) Hd' m' (size - k)); try done; try lia. intros i Hi. rewrite !ld_padd. apply Hsame. lia.
Qed.

Lemma ber_truncated size size' k lk n tr : 0 <= size <= SIZE_MAX -> ber_at m data size k lk n tr -> 1 <= size' < k + lk + n + tr ->
  fst (fst (tlv_fields_decode tlv_ber_fields m data size' no_decoded no_error)) = TLV_ERR_TRUNCATED.
Proof using Hd.
  intros Hs Hat Hlt. pose proof (ber_at_range size k lk n tr (proj2 Hs) Hat) as (Hlk & Hn & Htr). destruct Hat as [Hr Hb Hk Hfit].
  unfold tlv_fields_decode. cbn [is_tlv fc_element_order tlv_ber_fields]. assert (data +p 0 <> NULL) as Hd0 by now destruct data.
  rewrite Z.sub_0_r in Hr. set (s0 := mk_fs empty_tag 0 0 0 0 0 no_decoded).
  destruct (Z.lt_ge_cases size' k) as [Hsk|Hsk].
  { destruct (decode_identifier_truncated tlv_ber_fields ber_read_tag eq_refl m data size' no_error s0) as (? & ? & ->); [|done].
    cbn [fs_pos s0 fs_tag fs_tag_size]. rewrite Z.sub_0_r. eapply tag_read_truncated; [exact Hd0|exact Hs|apply (Hr empty_tag 0)|lia]. }
  unfold s0. rewrite (behind_tag_step size' k); [|lia|].
  2: { intros. rewrite Z.sub_0_r. apply (tag_read_local ber_read_tag ber_write_tag m m _ size _ empty_tag 0); try done; lia. }
  cbn [bind_step]. unfold decode_length, behind_tag. cbn [fc_resolve tlv_ber_fields fs_tag fs_pos fs_length fs_length_size fs_trailer].
  assert (data +p k <> NULL) as Hd' by now destruct data. assert (0 <= size - k <= SIZE_MAX) as Hsk' by lia.
  destruct (Z.lt_ge_cases (size' - k) (lk + (if tr =? 0 then 0 else n + tr))) as [Hc|Hc].
  - pose proof (bounds_truncated m (data +p k) Hd' (size - k) (size' - k) (tlv_tag (data +p 0) k) lk n tr 0 0 0 no_error Hsk' ltac:(lia) Hb Hc) as Ht.
    destruct (read_value_bounds m _ (data +p k) (size' - k) 0 0 0 no_error) as [[[[rc lk'] n'] tr'] re]. cbn [fst] in Ht. subst rc.
    change (read_result TLV_ERR_TRUNCATED) with TLV_ERR_TRUNCATED. change (is_ok TLV_ERR_TRUNCATED) with false. reflexivity.
  - destruct (Z.eqb_spec tr 0) as [->|Htr0]; [|lia].
    assert (0 <= size' - k <= SIZE_MAX) as Hsk2 by lia.
    assert (bounds_at m (data +p k) (size' - k) (tlv_asn1_is_constructed m (tlv_tag (data +p 0) k)) lk n 0) as Hb'.
    { apply (bounds_definite_local m (data +p k) Hd' (size - k)); try done; lia. }
    rewrite (resolve_ok m (data +p k) Hd' (size' - k) _ _ lk n 0 0 0 0 no_error Hsk2 eq_refl Hb').
    change (read_result TLV_OK) with TLV_OK. rewrite is_ok_OK. cbn [negb andb]. rewrite (proj2 (Z.ltb_ge _ lk)) by lia. rewrite is_ok_OK. cbn [negb andb fc_length_scope tlv_ber_fields is_tag_scope].
    rewrite is_ok_OK. cbn [negb bind_step]. unfold decode_value. cbn [fc_length_scope tlv_ber_fields is_tag_scope andb fs_length fs_pos fs_trailer fs_tag fs_result].
    rewrite (proj2 (Z.ltb_lt _ n)) by lia. reflexivity.
Qed.
End Decode.

(** BER meets the decoder's interface: an element of either form is decided by its own octets, and a prefix of it is truncated. *)
Lemma ber_result_valid `{Platform} m data size k lk n tr : data <> NULL -> size <= SIZE_MAX -> ber_at m data size k lk n tr ->
  decoded_typed (ber_result data k lk n tr) /\ decoded_valid (ber_result data k lk n tr) data size = true.
Proof.
  intros Hd Hs Hat. pose proof (ber_at_range m data Hd size k lk n tr Hs Hat) as (Hlk & Hn & Htr). destruct Hat as [_ _ Hk Hfit]. split.
  - unfold decoded_typed, range_typed, tag_ok. simpl. repeat split; try lia. by destruct data.
  - unfold decoded_valid, tag_binding_valid, range_valid. simpl. rewrite !ptr_eqb_refl, !usize_small, !Z.eqb_refl by lia. rewrite !andb_true_iff. repeat split; zlia.
Qed.

#[export] Instance ber_decode_laws `{Platform} : DecodeLaws (tlv_fields_decode tlv_ber_fields).
Proof.
  assert (forall m data size d e, data <> NULL -> 1 <= size <= SIZE_MAX -> tlv_fields_decode tlv_ber_fields m data size no_decoded no_error = (TLV_OK, d, e) ->
    exists k lk n tr, ber_at m data size k lk n tr /\ d = ber_result data k lk n tr /\ e = no_error) as Hinv.
  { intros m data size d e Hd Hs E. destruct (ber_decode_inv m data Hd size d e Hs E) as (k & lk & n & tr & Hat). exists k, lk, n, tr.
    rewrite (ber_decode_at m data Hd size k lk n tr) in E by (done || lia). split; [done|]. now injection E as <- <-. }
  split.
  - intros m data size d e Hd Hs E. destruct (Hinv _ _ _ _ _ Hd Hs E) as (k & lk & n & tr & Hat & -> & _). apply (ber_result_valid m data size); (done || lia).
  - intros m data size d e Hd Hs E. destruct (Hinv _ _ _ _ _ Hd Hs E) as (k & lk & n & tr & Hat & -> & _). apply (ber_result_valid m data size); (done || lia).
  - intros m m' data size size' d e Hd Hs Hs' E Hle Hsame. destruct (Hinv _ _ _ _ _ Hd Hs E) as (k & lk & n & tr & Hat & -> & ->).
    cbn [ber_result d_source s_size] in *. apply ber_decode_at; [done|lia|]. apply (ber_at_local m data Hd m' size); (done || lia).
  - intros m data size size' d e Hd Hs E Hlt. destruct (Hinv _ _ _ _ _ Hd Hs E) as (k & lk & n & tr & Hat & -> & ->).
    cbn [ber_result d_source s_size] in *. apply (ber_truncated m data Hd size size' k lk n tr); (done || lia).
Qed.

(** The composition without the resolver. *)
Definition ber_definite_fields : tlv_field_composition_t :=
  mk_fields (Some ber_read_tag) (Some ber_read_length) None (Some ber_write_tag) (Some tlv_ber_write_length) TLV_ELEMENT_ORDER_TLV TLV_LENGTH_SCOPE_VALUE.

Lemma ber_definite_decode `{Platform} m data size d e : data <> NULL -> 1 <= size <= SIZE_MAX ->
  tlv_fields_decode ber_definite_fields m data size no_decoded no_error = (TLV_OK, d, e) ->
  tlv_fields_decode tlv_ber_fields m data size no_decoded no_error = (TLV_OK, d, e).
Proof.
  intros Hd Hs E. apply (fields_decode_inv ber_definite_fields ber_read_tag ber_write_tag ber_read_length tlv_ber_write_length eq_refl eq_refl eq_refl) in E as (k & lk & n & Hat & -> & ->); [|done|done].
  pose proof (fields_value_nonneg _ _ _ _ _ _ _ _ _ Hat) as Hv. destruct Hat as [Hr Hrd Hk Hlk Hn _ Hfit]. change (value_size ber_definite_fields n k) with n in *.
  change (tag_at ber_definite_fields lk) with 0 in Hr. change (length_at ber_definite_fields k) with k in Hrd. assert (data +p k <> NULL) as Hd' by now destruct data.
  rewrite (ber_decode_at m data Hd size k lk n 0); [|lia|].
  - unfold ber_result, fields_result. change (value_size ber_definite_fields n k) with n. now rewrite Z.add_0_r.
  - split; try done; [|lia]. apply bounds_definite; [lia| |apply Hrd]. apply (read_length_lead m (data +p k) (size - k) n lk Hd'); [lia|apply Hrd].
Qed.

(** BER is a lawful codec: it encodes definite lengths. *)
#[export] Instance ber_codec_laws `{Platform} (self : ptr) : CodecLaws (tlv_format_ber self).
Proof.
  apply (fields_codec_laws ber_definite_fields ber_read_tag ber_write_tag ber_read_length tlv_ber_write_length
    eq_refl eq_refl eq_refl eq_refl eq_refl (tlv_format_ber self) (tlv_fields_decode tlv_ber_fields)); try done.
  - apply ber_decode_laws.
  - intros m data size d e. apply ber_definite_decode.
Defined.

(** * Writing BER

    Elements of indefinite length are written and read back; the scan of contents decides the grammar.  The
    theorems on BER are here. *)

Section Indefinite.
Context `{Platform} (m : mem) (tag : tlv_tag_t) (value : ptr) (n : Z)
  (Ht : tag_ok tag) (Hv : value_ok (mk_value value n)) (Hadm : ber_tag (tag_bytes m tag)) (Hcons : constructed_tag (tag_bytes m tag) = true).

Definition indefinite_total : Z := tag.(t_size) + 1 + n + 2.
Definition indefinite_octets : list Z := tag_bytes m tag ++ [128] ++ bytes_of m value n ++ [0; 0].

Lemma indefinite_length : zlen indefinite_octets = indefinite_total.
Proof using Ht Hv.
  unfold indefinite_octets, indefinite_total, tag_bytes. rewrite !length_app, !length_bytes_of. destruct Ht as [Hs _], Hv as [Hn _]. cbn [v_size] in *. cbn [length]. lia.
Qed.

Lemma indefinite_tag : t_data tag <> NULL /\ 1 <= t_size tag <= SIZE_MAX /\ tlv_asn1_is_constructed m tag = true.
Proof using Ht Hadm Hcons.
  pose proof (tag_adm_length _ Hadm) as Hl. destruct Ht as [Hs Hn]. unfold tag_bytes in Hl. rewrite length_bytes_of, Z2Nat.id in Hl by lia.
  assert (t_data tag <> NULL) as Hd by (intros E; specialize (Hn E); lia). split; [done|]. split; [done|].
  pose proof (tag_constructed m (t_data tag) Hd (tag_bytes m tag) 0) as E. unfold tag_bytes in E, Hcons. rewrite length_bytes_of, Z2Nat.id in E by lia.
  rewrite padd_0 in E. rewrite Hcons in E. destruct tag as [td ts]. apply E; [lia|]. unfold lies_at. cbn [t_data t_size] in *. now rewrite padd_0, length_bytes_of, Z2Nat.id by lia.
Qed.

Lemma indefinite_measured en err : indefinite_total <= UINT64_MAX -> 
  tlv_asn1_indefinite_measure tlv_ber_fields m (mk_element tag (mk_value value n)) en err =
  (TLV_OK, mk_encoding (t_size tag + 1) n 2 indefinite_total, err).
Proof using Ht Hv Hadm Hcons.
  intros Htot. destruct indefinite_tag as (Hd & Hs & Hc). destruct Hv as [Hn _]. cbn [v_size] in Hn. unfold indefinite_total in *.
  unfold tlv_asn1_indefinite_measure, call_write_tag. cbn [fc_write_tag tlv_ber_fields e_tag e_value v_size].
  rewrite (tag_size_ok (read := ber_read_tag) (write := ber_write_tag)) by done. rewrite is_ok_OK, Hc. cbn [negb andb]. rewrite is_ok_OK.
  rewrite u64_small by lia. rewrite size_add_small by lia. cbn [cell en_total en_trailer en_header en_value]. rewrite is_ok_OK.
  rewrite size_add_small by lia. cbn [cell en_total en_trailer en_header en_value]. now rewrite is_ok_OK.
Qed.

Lemma indefinite_scanned : ber_contents SCAN_DEPTH (bytes_of m value n) -> n <= SIZE_MAX ->
  tlv_ber_scan_contents m value n false 0 0 = Some (TLV_OK, n, n).
Proof using Hv.
  intros Hw Hs. destruct Hv as [Hn Hnull]. cbn [v_size v_data] in *. unfold tlv_ber_scan_contents.
  destruct (is_null value) eqn:En.
  - destruct value; [|done]. rewrite Hnull by done. reflexivity.
  - assert (value <> NULL) as Hd by now intros ->.
    assert (zlen (bytes_of m value n) = n) as El by (rewrite length_bytes_of; lia).
    rewrite (scan_contents_complete m value Hd n (conj (proj1 Hn) Hs) false (bytes_of m value n)); [now rewrite El, Z.add_0_r|exact Hw|].
    split; [|exact El]. unfold lies_at. now rewrite El, padd_0.
Qed.

Lemma indefinite_encoded data capacity w0 err : ber_contents SCAN_DEPTH (bytes_of m value n) -> data <> NULL -> capacity <= SIZE_MAX -> indefinite_total <= capacity ->
  element_apart (mk_element tag (mk_value value n)) data indefinite_total ->
  exists m', tlv_asn1_indefinite_encode tlv_ber_fields m (mk_element tag (mk_value value n)) data capacity w0 err = (TLV_OK, m', indefinite_total, err) /\
    laid m m' data indefinite_octets.
Proof using Ht Hv Hadm Hcons.
  intros Hw Hd Hcs Hcap [Hat Hav]. destruct indefinite_tag as (Htd & Hs & Hc). pose proof SIZE_MAX_bounds. pose proof (proj1 Hv) as Hn. cbn [v_size e_tag e_value v_data] in *.
  unfold tlv_asn1_indefinite_encode. rewrite indefinite_measured by lia. rewrite is_ok_OK. cbn [negb en_total en_header].
  rewrite size_to_native_small by (unfold indefinite_total in *; lia). cbn [cell]. rewrite is_ok_OK, (proj2 (Z.ltb_ge _ _) Hcap). cbn [andb]. rewrite is_ok_OK. cbn [negb e_value v_data v_size e_tag].
  unfold indefinite_total in *. rewrite !usize_small by lia. rewrite indefinite_scanned by (done || lia). rewrite is_ok_OK. cbn [negb]. eexists. split; [reflexivity|].
  set (m1 := memcpy m data (t_data tag) (t_size tag)). set (m2 := st m1 data (t_size tag) 128).
  assert (laid m m1 data (tag_bytes m tag)) as H1.
  { pose proof (laid_copy m m data [] (t_data tag) (t_size tag) ltac:(lia) Hd (laid_nil m data)) as Hc1. cbn [length app] in Hc1. change (Z.of_nat 0) with 0 in Hc1.
    rewrite padd_0 in Hc1. apply Hc1. destruct data, (t_data tag); cbn [disjoint_range] in *; try done; lia. }
  assert (zlen (tag_bytes m tag) = t_size tag) as El by (unfold tag_bytes; rewrite length_bytes_of; lia).
  assert (laid m m2 data (tag_bytes m tag ++ [128])) as Hh2 by (apply laid_octet; try done; lia).
  set (m3 := if negb (n =? 0) then memcpy m2 (data +p (t_size tag + 1)) value n else m2).
  assert (laid m m3 data ((tag_bytes m tag ++ [128]) ++ bytes_of m value n)) as Hh3.
  { unfold m3. destruct (Z.eqb_spec n 0) as [->|Hne]; cbn [negb]; [now rewrite bytes_of_0, app_nil_r by lia|].
    replace (t_size tag + 1) with (zlen (tag_bytes m tag ++ [128])) by (rewrite length_app; cbn; lia). apply laid_copy; try done; [lia|].
    rewrite length_app, Nat2Z.inj_add, El. change (zlen [128]) with 1. destruct data, value; cbn [disjoint_range] in *; try done; lia. }
  assert (zlen ((tag_bytes m tag ++ [128]) ++ bytes_of m value n) = t_size tag + 1 + n) as El3 by (rewrite !length_app, length_bytes_of; cbn [length]; lia).
  unfold indefinite_octets. change [0; 0] with ([0] ++ [0]). rewrite !app_assoc. apply laid_octet; [lia|rewrite length_app; cbn [length]; lia|done|].
  apply laid_octet; try done; lia.
Qed.
End Indefinite.

(** *** Reading back *)

Lemma indefinite_at `{Platform} m tag value data size : data <> NULL -> size <= SIZE_MAX -> ber_tag tag -> constructed_tag tag = true ->
  ber_contents SCAN_DEPTH value -> lies_at m data 0 (tag ++ [128] ++ value ++ [0; 0]) -> zlen tag + 1 + zlen value + 2 <= size ->
  ber_at m data size (zlen tag) 1 (zlen value) 2.
Proof.
  intros Hd Hs Ht Hc Hv Hl Hle. rewrite lies_app in Hl. destruct Hl as [Hlt Hl]. pose proof (tag_length tag Ht) as Hn.
  rewrite Z.add_0_l in Hl. rewrite lies_app in Hl. destruct Hl as [Hlm Hl]. change (zlen [128]) with 1 in Hl. split; [| |lia|lia].
  - intros t0 c0. rewrite Z.sub_0_r. apply tag_read_back; [by destruct data|lia|lia|]. unfold lies_at in Hlt. now rewrite Hlt.
  - rewrite (tag_constructed m data Hd tag 0 Hn Hlt), Hc. apply bounds_indefinite; [done| |done| |lia].
    + rewrite ld_padd, Z.add_0_r. exact (lies_ld m data _ 128 [] Hlm).
    + now apply lies_shift.
Qed.

(** C29. Writing a constructed element in the indefinite form, with complete elements as contents and room for
    it, reports its size, changes no other octets, and leaves its tag, the octet of an indefinite length, the
    contents and the two octets that end them; BER decodes the same tag and the same value from it. *)
Theorem ber_indefinite_roundtrip `{Platform} self m tag value n data capacity written size d0 e0 :
  tag_ok tag -> value_ok (mk_value value n) -> ber_tag (tag_bytes m tag) -> constructed_tag (tag_bytes m tag) = true ->
  ber_contents SCAN_DEPTH (bytes_of m value n) -> data <> NULL -> capacity <= SIZE_MAX -> size <= SIZE_MAX ->
  indefinite_total tag n <= capacity -> indefinite_total tag n <= size ->
  element_apart (mk_element tag (mk_value value n)) data (indefinite_total tag n) ->
  exists m' d, tlv_ber_write_indefinite self m data capacity tag value n (Some written) = (TLV_OK, m', Some (indefinite_total tag n)) /\
    only_changes m m' data (indefinite_total tag n) /\
    bytes_of m' data (indefinite_total tag n) = tag_bytes m tag ++ [128] ++ bytes_of m value n ++ [0; 0] /\
    tlv_format_decode (Some (tlv_format_ber self)) m' data size (Some d0) e0 = (TLV_OK, Some d, e0) /\
    d.(d_source).(s_size) = indefinite_total tag n /\ tag_bytes m' d.(d_element).(e_tag) = tag_bytes m tag /\
    value_bytes m' d.(d_element).(e_value) = bytes_of m value n.
Proof.
  intros Ht Hv Hadm Hc Hw Hd Hcs Hss Hcap Hsz Hap. pose proof SIZE_MAX_bounds. pose proof (indefinite_length m tag value n Ht Hv) as Hlen.
  destruct (indefinite_tag m tag Ht Hadm Hc) as (Htd & Hts & _). pose proof (proj1 Hv) as Hn. cbn [v_size] in Hn.
  destruct (indefinite_encoded m tag value n Ht Hv Hadm Hc data capacity 0 no_error Hw Hd Hcs Hcap Hap) as (m' & Henc & Hm'). pose proof Hm' as [Ho Hb]. rewrite Hlen in Ho, Hb.
  exists m', (publish (tlv_format_ber self) data (ber_result data (t_size tag) 1 n 2)).
  assert (tlv_format_encode (Some (tlv_format_ber_indefinite self)) m (Some (mk_element tag (mk_value value n))) data capacity (Some 0) None =
    (TLV_OK, m', Some (indefinite_total tag n), None)) as Hfe.
  { unfold tlv_format_encode, tlv_format_measure. cbn [f_measure f_encode tlv_format_ber_indefinite e_value e_tag v_data v_size].
    assert (is_null data = false) as -> by now destruct data. assert (is_null (t_data tag) = false) as -> by now destruct (t_data tag).
    assert (is_null value && negb (n =? 0) = false) as -> by (destruct value; [destruct Hv as [_ Hv]; cbn in Hv; now rewrite Hv|done]).
    rewrite andb_false_r. cbn [andb orb]. rewrite (indefinite_measured m tag value n Ht Hv Hadm Hc) by lia. change (tlv_callback_result TLV_OK false) with TLV_OK. rewrite is_ok_OK.
    cbn [en_header en_value en_trailer en_total]. unfold indefinite_total in *. rewrite size_add_small by lia. rewrite is_ok_OK. cbn [cell]. rewrite size_add_small by lia.
    rewrite is_ok_OK, !Z.eqb_refl. cbn [cell negb orb]. rewrite (proj2 (Z.eqb_neq _ 0)) by lia. cbn [negb orb]. rewrite is_ok_OK. cbn [negb cell en_total].
    rewrite size_to_native_small by lia. rewrite is_ok_OK. cbn [negb cell]. rewrite (proj2 (Z.ltb_ge capacity _)) by lia. rewrite Henc.
    change (tlv_callback_result TLV_OK false) with TLV_OK. rewrite is_ok_OK, Z.eqb_refl. cbn [negb andb]. now rewrite is_ok_OK. }
  split; [unfold tlv_ber_write_indefinite; now rewrite Hfe, is_ok_OK|]. split; [done|]. split; [exact Hb|].
  assert (lies_at m' data 0 (indefinite_octets m tag value n)) as Hl by (unfold lies_at; rewrite padd_0, Hlen; exact Hb).
  assert (zlen (tag_bytes m tag) = t_size tag) as El by (unfold tag_bytes; rewrite length_bytes_of; lia).
  assert (zlen (bytes_of m value n) = n) as En by (rewrite length_bytes_of; lia).
  pose proof (indefinite_at m' (tag_bytes m tag) (bytes_of m value n) data size Hd Hss Hadm Hc Hw Hl) as Hat. rewrite El, En in Hat. specialize (Hat Hsz).
  unfold indefinite_total in *. rewrite (format_decode_unfold (tlv_format_ber self) (tlv_fields_decode tlv_ber_fields) eq_refl) by (done || lia).
  rewrite (ber_decode_at m' data Hd size _ _ _ _ Hss Hat). split; [reflexivity|]. split; [reflexivity|].
  unfold indefinite_octets in Hl. rewrite !lies_app, El, En, Z.add_0_l in Hl. destruct Hl as (Hlt & _ & Hlv & _). unfold lies_at in Hlt, Hlv. rewrite El in Hlt. rewrite En in Hlv.
  split; [exact Hlt|exact Hlv].
Qed.

(** ** Elements *)

(** The octets of an element of either form, its tag and its value. *)
Inductive ber_element `{Platform} : list Z -> list Z -> list Z -> Prop :=
| element_definite tag len value : ber_tag tag -> ber_length_of len (zlen value) -> ber_element (tag ++ len ++ value) tag value
| element_indefinite tag value : ber_tag tag -> constructed_tag tag = true -> ber_contents SCAN_DEPTH value ->
    ber_element (tag ++ [128] ++ value ++ [0; 0]) tag value.

Lemma length_of_read `{Platform} m data size n lk : data <> NULL -> 0 <= size -> ber_read_length m data size 0 0 = (TLV_OK, n, lk) ->
  ber_length_of (bytes_of m data lk) n /\ 1 <= lk <= size /\ 0 <= n.
Proof.
  intros Hd Hs Hr. rewrite ber_read_length_wire in Hr by done. apply variable_read_iff in Hr; [|apply ber_length_ok|done|done].
  pose proof (variable_accepts_range _ _ _ _ _ _ ber_length_ok Hr) as Hrange. split; [|lia].
  apply length_of_accepts. assert (zlen (bytes_of m data lk) = lk) as -> by (rewrite length_bytes_of; lia).
  apply (variable_accepts_local _ _ _ _ _ _ _ _ _ ber_length_ok Hr); [lia|]. intros i Hi. symmetry. now apply ld_mem_of_bytes_of.
Qed.

Lemma element_of_at `{Platform} m data size k lk n tr : data <> NULL -> 0 <= size <= SIZE_MAX -> ber_at m data size k lk n tr ->
  ber_element (bytes_of m data (k + lk + n + tr)) (bytes_of m data k) (bytes_of m (data +p (k + lk)) n).
Proof.
  intros Hd Hs Hat. pose proof (ber_at_range m data Hd size k lk n tr (proj2 Hs) Hat) as (Hlk & Hn & Htr). destruct Hat as [Hr Hb Hk Hfit].
  specialize (Hr empty_tag 0). rewrite Z.sub_0_r in Hr. rewrite padd_0 in *. apply (tag_read_sound (read := ber_read_tag) (write := ber_write_tag)) in Hr as (_ & _ & Hadm); [|done|done].
  replace (k + lk + n + tr) with (k + (lk + (n + tr))) by lia. rewrite !bytes_of_app, !padd_padd by lia.
  assert (data +p k <> NULL) as Hd' by now destruct data. destruct Hb as [n lk _ _ Hrl|w Hc E Hw Hl Hle].
  - rewrite (bytes_of_0 _ (data +p (k + lk + n))), app_nil_r by lia. apply element_definite; [exact Hadm|]. rewrite length_bytes_of, Z2Nat.id by lia.
    apply length_of_read in Hrl; [tauto|done|lia].
  - unfold TLV_BER_EOC_SIZE. rewrite bytes_of_1. rewrite E. apply lies_app in Hl as [Hlw Hlz]. unfold lies_at in Hlw, Hlz. rewrite padd_padd in Hlw, Hlz.
    rewrite Hlw. replace (k + 1 + zlen w) with (k + (1 + zlen w)) by lia. change (zlen [0; 0]) with 2 in Hlz. rewrite Hlz. apply element_indefinite; try done.
    pose proof (tag_constructed m data Hd (bytes_of m data k) 0) as Et. rewrite length_bytes_of, Z2Nat.id in Et by lia.
    rewrite padd_0 in Et. rewrite <- Et; [done|lia|]. unfold lies_at. now rewrite length_bytes_of, Z2Nat.id, padd_0 by lia.
Qed.

Lemma element_at `{Platform} m data size w tag value : data <> NULL -> size <= SIZE_MAX -> ber_element w tag value -> lies_at m data 0 w -> zlen w <= size ->
  exists k lk n tr, ber_at m data size k lk n tr /\ zlen w = k + lk + n + tr /\ bytes_of m data k = tag /\ bytes_of m (data +p (k + lk)) n = value.
Proof.
  intros Hd Hs Hw Hl Hle. destruct Hw as [tag len value Ht Hn|tag value Ht Hc Hv].
  - rewrite !length_app in Hle. pose proof (length_of_range len _ Hn) as [Hlen Hvr]. rewrite !lies_app, Z.add_0_l in Hl. destruct Hl as (Hlt & Hll & Hlv).
    exists (zlen tag), (zlen len), (zlen value), 0. rewrite !length_app. unfold lies_at in Hlt, Hlv. rewrite padd_0 in Hlt. split; [|split; [lia|done]].
    assert (data +p zlen tag <> NULL) as Hd' by now destruct data. pose proof (tag_length tag Ht). split; [| |lia|lia].
    + intros t0 c0. rewrite Z.sub_0_r. apply tag_read_back; [by destruct data|lia|lia|]. rewrite padd_0. now rewrite Hlt.
    + pose proof (read_length_at m data Hd len _ (zlen tag) size Hn Hll ltac:(lia) ltac:(lia)) as Hr. apply bounds_definite; [lia| |exact Hr].
      apply (read_length_lead m _ (size - zlen tag) (zlen value) (zlen len)); [done|lia|exact Hr].
  - pose proof Hl as Hl'. rewrite !length_app in Hle. cbn [length] in Hle. exists (zlen tag), 1, (zlen value), 2. rewrite !length_app. cbn [length].
    rewrite !lies_app, Z.add_0_l in Hl. destruct Hl as (Hlt & _ & Hlv & _). unfold lies_at in Hlt, Hlv. rewrite padd_0 in Hlt.
    split; [apply indefinite_at; (done || lia)|]. split; [lia|]. done.
Qed.

(** C28. BER decodes exactly the elements of the two forms: what is decoded is a tag, a length and a value, or a
    constructed tag, the octet of an indefinite length, complete nested elements and the two octets that end them,
    and it lies at the start of the input; such an element that lies there is decoded, as its tag and its value and
    whatever follows, if the input has all of it, and is truncated otherwise. *)
Theorem ber_decode_exact `{Platform} self m data size d0 e0 : data <> NULL -> 1 <= size <= SIZE_MAX ->
  (forall d e, tlv_format_decode (Some (tlv_format_ber self)) m data size (Some d0) e0 = (TLV_OK, Some d, e) ->
     exists w, lies_at m data 0 w /\ zlen w = d.(d_source).(s_size) /\ zlen w <= size /\
       ber_element w (tag_bytes m d.(d_element).(e_tag)) (value_bytes m d.(d_element).(e_value))) /\
  (forall w tag value, ber_element w tag value -> lies_at m data 0 w ->
     if zlen w <=? size then
       exists d, tlv_format_decode (Some (tlv_format_ber self)) m data size (Some d0) e0 = (TLV_OK, Some d, e0) /\
         d.(d_source).(s_size) = zlen w /\ tag_bytes m d.(d_element).(e_tag) = tag /\ value_bytes m d.(d_element).(e_value) = value
     else zlen w <= SIZE_MAX -> exists e1, tlv_format_decode (Some (tlv_format_ber self)) m data size (Some d0) e0 = (TLV_ERR_TRUNCATED, Some d0, put_error e0 e1)).
Proof.
  intros Hd Hs. split.
  - intros d e E. apply (format_decode_ok (tlv_format_ber self) (tlv_fields_decode tlv_ber_fields) eq_refl) in E as (_ & c & ce & E & ->); [|done|done].
    destruct (ber_decode_inv m data Hd size c ce Hs E) as (k & lk & n & tr & Hat). pose proof (ber_at_range m data Hd size k lk n tr (proj2 Hs) Hat) as (Hlk & Hn & Htr).
    rewrite (ber_decode_at m data Hd size k lk n tr) in E by (done || lia). injection E as <- <-. pose proof (ba_fits _ _ _ _ _ _ _ Hat). pose proof (ba_k _ _ _ _ _ _ _ Hat).
    exists (bytes_of m data (k + lk + n + tr)). rewrite length_bytes_of, Z2Nat.id by lia. split; [unfold lies_at; now rewrite padd_0, length_bytes_of, Z2Nat.id by lia|].
    split; [done|]. split; [lia|]. unfold tag_bytes, value_bytes. cbn [publish d_element ber_result e_tag e_value t_data t_size tlv_tag v_data v_size]. rewrite padd_0.
    apply (element_of_at m data size); (done || lia).
  - intros w tag value Hw Hl. destruct (Z.leb_spec (zlen w) size) as [Hle|Hlt].
    + destruct (element_at m data size w tag value Hd (proj2 Hs) Hw Hl Hle) as (k & lk & n & tr & Hat & Ew & Ht & Hv).
      exists (publish (tlv_format_ber self) data (ber_result data k lk n tr)).
      rewrite (format_decode_unfold (tlv_format_ber self) (tlv_fields_decode tlv_ber_fields) eq_refl), (ber_decode_at m data Hd size k lk n tr) by (done || lia).
      split; [reflexivity|]. split; [now rewrite Ew|]. unfold tag_bytes, value_bytes. cbn [publish d_element ber_result e_tag e_value t_data t_size tlv_tag v_data v_size]. now rewrite padd_0.
    + intros Hws. destruct (element_at m data (zlen w) w tag value Hd Hws Hw Hl ltac:(lia)) as (k & lk & n & tr & Hat & Ew & _).
      assert (0 <= zlen w <= SIZE_MAX) as Hws' by lia. pose proof (ber_truncated m data Hd (zlen w) size k lk n tr Hws' Hat ltac:(lia)) as Ht.
      rewrite (format_decode_unfold (tlv_format_ber self) (tlv_fields_decode tlv_ber_fields) eq_refl) by done.
      destruct (tlv_fields_decode tlv_ber_fields m data size no_decoded no_error) as [[rc c] detail]. cbn [fst] in Ht. subst rc. eexists. reflexivity.
Qed.

(** C27. The iterative scan of contents, with its stack of at most 64 open scopes, decides the recursive
    grammar of BER: it returns on every input, and it succeeds exactly if the octets are a sequence of complete
    elements nested within the limit, which fill the input, or are followed by the two octets that end contents of
    indefinite length.  Then it reports the size of the contents, and what is consumed with their end. *)
Theorem ber_scan_exact `{Platform} m data size indefinite v c error : data <> NULL -> 0 <= size <= SIZE_MAX ->
  exists rc v' c' error', tlv_ber_scan_contents_diag m data size indefinite v c error = Some (rc, v', c', error') /\
    (rc = TLV_OK <-> exists w, ber_contents SCAN_DEPTH w /\ framed m data size indefinite w) /\
    (forall w, ber_contents SCAN_DEPTH w -> framed m data size indefinite w -> v' = zlen w /\ c' = zlen w + trailer_size indefinite /\ error' = error).
Proof.
  intros Hd Hs. destruct (scan_contents_returns m data Hd size Hs indefinite v c error) as [[[[rc v'] c'] error'] Hr]. exists rc, v', c', error'. split; [done|]. split; [split|].
  - intros ->. apply scan_contents_sound in Hr as (w & Hw & Hf & _); [|done|done]. eauto.
  - intros (w & Hw & Hf). rewrite (scan_contents_complete m data Hd size Hs indefinite w v c error Hw Hf) in Hr. congruence.
  - intros w Hw Hf. rewrite (scan_contents_complete m data Hd size Hs indefinite w v c error Hw Hf) in Hr. now injection Hr as <- <- <- <-.
Qed.

(** ** Examples *)

(** A constructed element of indefinite length around a number, and the octets that end what encloses it. *)
Definition ber_example : list Z := [48; 128; 2; 1; 7; 0; 0; 0; 0].

Lemma ber_example_value : @ber_contents LP64 SCAN_DEPTH [2; 1; 7].
Proof. apply (contents_primitive SCAN_DEPTH [2] [1] [7] []); [vm_compute; reflexivity|reflexivity|vm_compute; reflexivity|constructor]. Qed.

Lemma ber_scan_exact_witness :
  let m := mem_of 1 ber_example in
  @tlv_ber_scan_contents_diag LP64 m (Ptr 1 0) 9 true 0 0 None = Some (TLV_OK, 7, 9, None) /\
  exists w, @ber_contents LP64 SCAN_DEPTH w /\ framed m (Ptr 1 0) 9 true w /\ zlen w = 7.
Proof.
  intros m. destruct (ber_scan_exact (H := LP64) m (Ptr 1 0) 9 true 0 0 None ltac:(discriminate) ltac:(split; vm_compute; congruence))
    as (rc & v & c & e & E & Hiff & Hw).
  assert (@tlv_ber_scan_contents_diag LP64 m (Ptr 1 0) 9 true 0 0 None = Some (TLV_OK, 7, 9, None)) as E' by (vm_compute; reflexivity).
  rewrite E in E'. injection E' as -> -> -> ->. split; [exact E|]. destruct (proj1 Hiff eq_refl) as (w & Hc & Hf). exists w.
  destruct (Hw w Hc Hf) as (Hv & _). done.
Defined.

Lemma ber_decode_exact_witness :
  let m := mem_of 1 ber_example in
  exists d w, @tlv_format_decode LP64 (Some (@tlv_format_ber LP64 NULL)) m (Ptr 1 0) 9 (Some no_decoded) None = (TLV_OK, Some d, None) /\
    @ber_element LP64 w [48] [2; 1; 7] /\ lies_at m (Ptr 1 0) 0 w /\ zlen w = 7.
Proof.
  intros m. destruct (ber_decode_exact (H := LP64) NULL m (Ptr 1 0) 9 no_decoded None ltac:(discriminate) ltac:(split; vm_compute; congruence)) as [_ Hw].
  pose proof (element_indefinite (H := LP64) [48] [2; 1; 7] ltac:(vm_compute; reflexivity) ltac:(reflexivity) ber_example_value) as He.
  destruct (Hw _ _ _ He ltac:(vm_compute; reflexivity)) as (d & E & _). exists d, [48; 128; 2; 1; 7; 0; 0]. split; [exact E|]. split; [exact He|]. split; vm_compute; reflexivity.
Defined.

Lemma ber_indefinite_roundtrip_witness :
  let m := put_at (mem_of 1 [48]) (Ptr 2 0) [2; 1; 7] in
  let tag := tlv_tag (Ptr 1 0) 1 in
  exists m' d, @tlv_ber_write_indefinite LP64 NULL m (Ptr 3 0) 16 tag (Ptr 2 0) 3 (Some 0) = (TLV_OK, m', Some 7) /\
    bytes_of m' (Ptr 3 0) 7 = [48; 128; 2; 1; 7; 0; 0] /\
    @tlv_format_decode LP64 (Some (@tlv_format_ber LP64 NULL)) m' (Ptr 3 0) 16 (Some no_decoded) None = (TLV_OK, Some d, None) /\
    value_bytes m' d.(d_element).(e_value) = [2; 1; 7].
Proof.
  intros m tag.
  destruct (ber_indefinite_roundtrip (H := LP64) NULL m tag (Ptr 2 0) 3 (Ptr 3 0) 16 0 16 no_decoded None) as (m' & d & E & _ & Hb & Ed & _ & _ & Hv);
    [split; [vm_compute; split; congruence|discriminate]|split; [vm_compute; split; congruence|discriminate]|vm_compute; reflexivity|reflexivity
    |exact ber_example_value|discriminate|vm_compute; congruence|vm_compute; congruence|vm_compute; congruence|vm_compute; congruence
    |split; vm_compute; left; congruence|].
  exists m', d. split; [exact E|]. split; [exact Hb|]. split; [exact Ed|exact Hv].
Defined.
