(* ===== verification/Dol.v ===== *)
(** * Data object lists (builtins/emv/dol.h, src/builtins/emv/dol.c)

    A list of identifiers, each with the number of octets that a command has for it.  A list is read entry by entry, and
    the octets it asks for are written: each segment is the value of its entry, padded or cut to its length. *)

From S2P Require Import Prelude Mem Core Format FieldFixed Compose Diagnostic Asn1 Ber BerLaws.

Record tlv_dol_entry_t := mk_dol_entry { de_tag : tlv_tag_t; de_requested_length : Z }.
Record tlv_dol_limits_t := mk_dol_limits { dl_max_entries : Z; dl_max_value_length : Z }.

Definition TLV_DOL_MAX_VALUE_LENGTH : Z := 255.
Definition tlv_dol_default_limits : tlv_dol_limits_t := mk_dol_limits 1000 TLV_DOL_MAX_VALUE_LENGTH.

Inductive tlv_dol_format_t : Type := TLV_DOL_FORMAT_BINARY | TLV_DOL_FORMAT_NUMERIC | TLV_DOL_FORMAT_OTHER (n : Z).

Definition fail (rc : tlv_result_t) (offset : Z) (d : option tlv_diagnostic_t) : tlv_result_t * option tlv_diagnostic_t :=
  (rc, tlv_diagnostic_set_location (tlv_diagnostic_init d rc TLV_DIAGNOSTIC_SEVERITY_ERROR) TLV_LOCATION_INPUT TLV_LOCATION_POINT offset offset).

Definition unlocated (rc : tlv_result_t) (d : option tlv_diagnostic_t) : tlv_result_t * option tlv_diagnostic_t :=
  (rc, tlv_diagnostic_init d rc TLV_DIAGNOSTIC_SEVERITY_ERROR).

(** The entry at [offset] and how many octets it has. *)
Definition read_entry (m : mem) (data : ptr) (size offset : Z) : tlv_result_t * tlv_dol_entry_t * Z :=
  let '(rc, tag, used) := tlv_ber_read_identifier m (data +p offset) (size - offset) (Some empty_tag) (Some 0) in
  let tag := cell empty_tag tag in
  let used := cell 0 used in
  if negb (is_ok rc) then (rc, mk_dol_entry tag 0, 0)
  else if offset + used =? size then (TLV_ERR_TRUNCATED, mk_dol_entry tag 0, 0)
  else (TLV_OK, mk_dol_entry tag (ld m data (offset + used)), used + 1).

Section Read.
Context {S : Type} (m : mem) (data : ptr) (size : Z).

Definition tlv_dol_visit_fn : Type := tlv_dol_entry_t -> Z -> S -> tlv_result_t * S.

Fixpoint read_loop (fuel : nat) (limits : tlv_dol_limits_t) (visit : tlv_dol_visit_fn) (offset count : Z) (context : S)
  (d : option tlv_diagnostic_t) : option (tlv_result_t * S * option tlv_diagnostic_t) :=
  let fails rc context := let '(rc, d) := fail rc offset d in Some (rc, context, d) in
  if size <=? offset then Some (TLV_OK, context, d)
  else
    match fuel with
    | O => None
    | Datatypes.S fuel =>
        if count =? limits.(dl_max_entries) then fails TLV_ERR_LIMIT context
        else
          let '(rc, entry, used) := read_entry m data size offset in
          if negb (is_ok rc) then fails rc context
          else
            let '(rc, context) := visit entry count context in
            if negb (is_ok rc) then fails rc context
            else read_loop fuel limits visit (offset + used) (count + 1) context d
    end.

Definition tlv_dol_read (limits : option tlv_dol_limits_t) (visit : option tlv_dol_visit_fn) (context : S) (d : option tlv_diagnostic_t)
  : option (tlv_result_t * S * option tlv_diagnostic_t) :=
  let limits := default tlv_dol_default_limits limits in
  match visit with
  | Some visit =>
      if is_null data && negb (size =? 0) then let '(rc, d) := unlocated TLV_ERR_NULL_ARG d in Some (rc, context, d)
      else read_loop (Z.to_nat size) limits visit 0 0 context d
  | None => let '(rc, d) := unlocated TLV_ERR_NULL_ARG d in Some (rc, context, d)
  end.
End Read.

Section Write.
Context `{Platform} {S : Type}.

(** What a resolver is given and leaves of the length, the format and whether there is no value. *)
Record dol_answer := mk_answer { da_available : Z; da_format : tlv_dol_format_t; da_absent : bool }.

(** The entry, its index, the octets to skip, where and how many to write, and the answer so far. *)
Definition tlv_dol_resolve_fn : Type :=
  tlv_dol_entry_t -> Z -> Z -> ptr -> Z -> dol_answer -> mem -> S -> tlv_result_t * mem * dol_answer * S.

Definition produce_entry (m : mem) (entry : tlv_dol_entry_t) (index : Z) (resolve : tlv_dol_resolve_fn) (context : S)
  (limits : tlv_dol_limits_t) (segment : ptr) (dol_offset : Z) (d : option tlv_diagnostic_t)
  : tlv_result_t * mem * S * option tlv_diagnostic_t :=
  let requested := entry.(de_requested_length) in
  let fails rc m context := let '(rc, d) := fail rc dol_offset d in (rc, m, context, d) in
  let ends (r : tlv_result_t * mem * dol_answer * S) :=
    let '(rc, m, _, context) := r in if negb (is_ok rc) then fails rc m context else (TLV_OK, m, context, d) in
  let '(rc, m, answer, context) := resolve entry index 0 NULL 0 (mk_answer 0 TLV_DOL_FORMAT_BINARY false) m context in
  if negb (is_ok rc) then fails rc m context
  else if answer.(da_absent) then (TLV_OK, memset m segment 0 requested, context, d)
  else if limits.(dl_max_value_length) <? answer.(da_available) then fails TLV_ERR_LIMIT m context
  else
    match answer.(da_format) with
    | TLV_DOL_FORMAT_OTHER _ => fails TLV_ERR_INVALID_ARG m context
    | format =>
        let numeric := match format with TLV_DOL_FORMAT_NUMERIC => true | _ => false end in
        if answer.(da_available) <=? requested then
          let pad := requested - answer.(da_available) in
          let prefix := if numeric then pad else 0 in
          let suffix := pad - prefix in
          let m := memset m segment 0 prefix in
          let m := memset m (segment +p (prefix + answer.(da_available))) 0 suffix in
          if answer.(da_available) =? 0 then (TLV_OK, m, context, d)
          else ends (resolve entry index 0 (segment +p prefix) answer.(da_available) answer m context)
        else
          let skip := if numeric then answer.(da_available) - requested else 0 in
          ends (resolve entry index skip segment requested answer m context)
    end.

Fixpoint write_loop (fuel : nat) (m : mem) (dol : ptr) (dol_size : Z) (data : ptr) (capacity : Z) (limits : tlv_dol_limits_t)
  (resolve : option tlv_dol_resolve_fn) (context : S) (offset count total : Z) (d : option tlv_diagnostic_t)
  : option (tlv_result_t * mem * S * option Z * option tlv_diagnostic_t) :=
  let fails rc := let '(rc, d) := fail rc offset d in Some (rc, m, context, None, d) in
  if dol_size <=? offset then Some (TLV_OK, m, context, Some total, d)
  else
    match fuel with
    | O => None
    | Datatypes.S fuel =>
        if count =? limits.(dl_max_entries) then fails TLV_ERR_LIMIT
        else
          let '(rc, entry, used) := read_entry m dol dol_size offset in
          if negb (is_ok rc) then fails rc
          else
            let total' := usize (total + entry.(de_requested_length)) in
            let next m context d := write_loop fuel m dol dol_size data capacity limits resolve context (offset + used) (count + 1) total' d in
            match resolve with
            | Some resolve =>
                if is_null data then next m context d
                else if capacity <? total' then fails TLV_ERR_BUFFER_TOO_SHORT
                else
                  let '(rc, m, context, d) := produce_entry m entry count resolve context limits (data +p total) offset d in
                  if negb (is_ok rc) then Some (rc, m, context, None, d) else next m context d
            | None => next m context d
            end
    end.

(** The size that is written; the output is left alone on a failure.  [written] is whether there is one. *)
Definition tlv_dol_write (m : mem) (dol : ptr) (dol_size : Z) (data : ptr) (capacity : Z) (limits : option tlv_dol_limits_t)
  (resolve : option tlv_dol_resolve_fn) (context : S) (written : bool) (d : option tlv_diagnostic_t)
  : option (tlv_result_t * mem * S * option Z * option tlv_diagnostic_t) :=
  let fails r := let '(rc, d) := r in Some (rc, m, context, None, d) in
  let limits := default tlv_dol_default_limits limits in
  if (is_null dol && negb (dol_size =? 0)) || negb written || (is_null data && negb (capacity =? 0)) ||
     (negb (is_some resolve) && negb (is_null data)) then
    fails (unlocated TLV_ERR_NULL_ARG d)
  else if TLV_DOL_MAX_VALUE_LENGTH <? limits.(dl_max_value_length) then fails (unlocated TLV_ERR_LIMIT d)
  else write_loop (Z.to_nat dol_size) m dol dol_size data capacity limits resolve context 0 0 0 d.
End Write.
Arguments tlv_dol_resolve_fn : clear implicits.
Arguments tlv_dol_visit_fn : clear implicits.

(** ** The grammar *)

(** Entries are the octets of an identifier and a length. *)
Definition entry_wire (e : list Z * Z) : list Z := fst e ++ [snd e].
Definition dol_wire (es : list (list Z * Z)) : list Z := flat_map entry_wire es.
Definition entry_ok `{Platform} (e : list Z * Z) : Prop := ber_tag (fst e) /\ 0 <= snd e < 256.

Section Entry.
Context `{Platform} (m : mem) (data : ptr) (size : Z) (Hdata : data <> NULL) (Hsize : 0 <= size <= SIZE_MAX).

Lemma null_offset offset : is_null (data +p offset) = false.
Proof. rewrite is_null_padd. now destruct data. Qed.

Lemma read_entry_at e rest offset : 0 <= offset <= size -> entry_ok e -> bytes_of m (data +p offset) (size - offset) = entry_wire e ++ rest ->
  read_entry m data size offset = (TLV_OK, mk_dol_entry (tlv_tag (data +p offset) (zlen (fst e))) (snd e), zlen (entry_wire e)) /\
  offset + zlen (entry_wire e) <= size /\ bytes_of m (data +p (offset + zlen (entry_wire e))) (size - (offset + zlen (entry_wire e))) = rest.
Proof.
  intros Ho [Ht Hn] Hb. destruct e as [t n]. unfold entry_wire in *. cbn [fst snd] in *.
  assert (Hl : zlen t + 1 <= size - offset). { apply (f_equal (@length Z)) in Hb. rewrite length_bytes_of, !length_app in Hb. simpl in Hb. lia. }
  rewrite length_app. simpl length. pose proof (tag_length _ Ht) as Htl.
  assert (Hsplit : bytes_of m (data +p offset) (size - offset) = bytes_of m (data +p offset) (zlen t) ++ bytes_of m (data +p (offset + zlen t)) 1 ++ bytes_of m (data +p (offset + zlen t + 1)) (size - (offset + zlen t + 1))).
  { replace (size - offset) with (zlen t + (1 + (size - (offset + zlen t + 1)))) by lia. rewrite !bytes_of_app, !padd_padd by lia. do 4 f_equal; lia. }
  rewrite Hsplit, <- app_assoc in Hb. apply app_inj_1 in Hb as [Htag Hb]; [|rewrite length_bytes_of; lia]. rewrite bytes_of_1, ld_padd, Z.add_0_r in Hb. injection Hb as Hlen Hrest.
  split_and!; [|lia|rewrite <- Hrest; f_equal; [f_equal|]; lia]. unfold read_entry, tlv_ber_read_identifier. rewrite null_offset. cbn [andb].
  rewrite (tag_read_back (read := ber_read_tag) (write := ber_write_tag) m (data +p offset) (size - offset) (zlen t)); try lia; [|intros E; pose proof (null_offset offset); now rewrite E in *|now rewrite Htag].
  rewrite is_ok_OK. cbn [negb cell default]. destruct (Z.eqb_spec (offset + zlen t) size); [lia|]. rewrite Hlen. do 2 f_equal. lia.
Qed.

Lemma read_entry_sound offset entry used : 0 <= offset < size -> read_entry m data size offset = (TLV_OK, entry, used) ->
  exists e, entry_ok e /\ used = zlen (entry_wire e) /\ offset + used <= size /\
    bytes_of m (data +p offset) (size - offset) = entry_wire e ++ bytes_of m (data +p (offset + used)) (size - (offset + used)).
Proof.
  intros Ho. unfold read_entry, tlv_ber_read_identifier. rewrite null_offset. cbn [andb].
  destruct (ber_read_tag _ _ _ _ _) as [[rc t] k] eqn:Er. cbn [cell default]. destruct (is_ok rc) eqn:Erc; cbn [negb]; [|intros [= -> _ _]; now rewrite is_ok_OK in Erc].
  apply is_ok_true in Erc as ->. apply (tag_read_sound (read := ber_read_tag) (write := ber_write_tag)) in Er as (Hk & -> & Hadm); [|intros E; pose proof (null_offset offset); now rewrite E in *|lia].
  destruct (Z.eqb_spec (offset + k) size); [discriminate|]. intros [= <- <-]. exists (bytes_of m (data +p offset) k, ld m data (offset + k)).
  unfold entry_wire. cbn [fst snd]. assert (zlen (bytes_of m (data +p offset) k) = k) as Hl by (rewrite length_bytes_of; lia). split_and!.
  - split; [exact Hadm|apply ld_range].
  - rewrite length_app. simpl. lia.
  - lia.
  - replace (size - offset) with (k + (1 + (size - (offset + (k + 1))))) by lia. rewrite !bytes_of_app, !padd_padd, bytes_of_1, ld_padd, Z.add_0_r, <- app_assoc by lia.
    do 4 f_equal; lia.
Qed.
End Entry.

(** ** Reading *)

Section ReadLaws.
Context `{Platform} {S : Type} (m : mem) (data : ptr) (size : Z) (Hdata : data <> NULL) (Hsize : 0 <= size <= SIZE_MAX).
Context (limits : tlv_dol_limits_t) (visit : tlv_dol_visit_fn S).

(** The calls for entries that are at an offset: the result, the context, and the offset of the entry that ended them. *)
Fixpoint visit_entries (es : list (list Z * Z)) (offset count : Z) (context : S) : tlv_result_t * S * Z :=
  match es with
  | [] => (TLV_OK, context, offset)
  | e :: es =>
      if count =? limits.(dl_max_entries) then (TLV_ERR_LIMIT, context, offset)
      else
        let '(rc, context) := visit (mk_dol_entry (tlv_tag (data +p offset) (zlen (fst e))) (snd e)) count context in
        if is_ok rc then visit_entries es (offset + zlen (entry_wire e)) (count + 1) context else (rc, context, offset)
  end.

Definition read_result (r : tlv_result_t * S * Z) (d : option tlv_diagnostic_t) : tlv_result_t * S * option tlv_diagnostic_t :=
  let '(rc, context, offset) := r in if is_ok rc then (TLV_OK, context, d) else let '(rc, d) := fail rc offset d in (rc, context, d).

Lemma entry_wire_length e : entry_ok e -> 2 <= zlen (entry_wire e).
Proof. intros [Ht _]. unfold entry_wire. rewrite length_app. pose proof (tag_length _ Ht). simpl. lia. Qed.

Lemma read_loop_entries es : forall fuel offset count context d, 0 <= offset <= size -> size - offset <= Z.of_nat fuel ->
  Forall entry_ok es -> bytes_of m (data +p offset) (size - offset) = dol_wire es ->
  read_loop m data size fuel limits visit offset count context d = Some (read_result (visit_entries es offset count context) d).
Proof using Hdata Hsize.
  induction es as [|e es IH]; intros fuel offset count context d Ho Hf Hok Hb.
  - apply (f_equal (@length Z)) in Hb. rewrite length_bytes_of in Hb. simpl in Hb. assert (offset = size) as -> by lia. unfold read_loop. destruct fuel; rewrite Z.leb_refl; done.
  - inversion Hok as [|? ? He Hes]; subst. simpl in Hb. pose proof (entry_wire_length _ He) as Hw.
    destruct (read_entry_at m data size Hdata Hsize e (dol_wire es) offset Ho He Hb) as (Hr & Hle & Hrest). destruct fuel as [|fuel]; [lia|]. cbn [read_loop visit_entries].
    destruct (Z.leb_spec size offset); [lia|]. destruct (count =? _); [done|]. rewrite Hr, is_ok_OK. cbn [negb].
    destruct (visit _ _ _) as [rc c]. destruct (is_ok rc) eqn:Erc; cbn [negb]; [|unfold read_result; now rewrite Erc]. apply IH; [lia|lia|done|exact Hrest].
Qed.

Lemma read_loop_sound fuel : forall offset count context d, 0 <= offset <= size -> size - offset <= Z.of_nat fuel ->
  exists rc context' d', read_loop m data size fuel limits visit offset count context d = Some (rc, context', d') /\
    (rc = TLV_OK -> exists es, Forall entry_ok es /\ bytes_of m (data +p offset) (size - offset) = dol_wire es).
Proof using Hdata Hsize.
  induction fuel as [|fuel IH]; intros offset count context d Ho Hf; cbn [read_loop]; (destruct (Z.leb_spec size offset); [do 3 eexists; split; [reflexivity|]; intros _; exists []; split; [done|apply bytes_of_0; lia]|]).
  - lia.
  - assert (Hfail : forall rc (c : S), rc <> TLV_OK -> exists rc' context' d', (let '(rc, d) := fail rc offset d in Some (rc, c, d)) = Some (rc', context', d') /\
      (rc' = TLV_OK -> exists es, Forall entry_ok es /\ bytes_of m (data +p offset) (size - offset) = dol_wire es)).
    { intros rc c Hrc. unfold fail. do 3 eexists. split; [reflexivity|]. done. }
    destruct (count =? _); [now apply Hfail|]. destruct (read_entry m data size offset) as [[rc entry] used] eqn:Er.
    destruct (is_ok rc) eqn:Erc; cbn [negb]; [|apply Hfail; now apply is_ok_false]. apply is_ok_true in Erc as ->.
    destruct (visit entry count context) as [rc c]. destruct (is_ok rc) eqn:Erc; cbn [negb]; [|apply Hfail; now apply is_ok_false].
    apply (read_entry_sound m data size Hdata Hsize) in Er as (e & He & -> & Hle & Hb); [|lia]. pose proof (entry_wire_length _ He).
    destruct (IH (offset + zlen (entry_wire e)) (count + 1) c d) as (rc' & c' & d' & Hr & Hes); [lia|lia|]. exists rc', c', d'. split; [exact Hr|]. intros Hrc'.
    destruct (Hes Hrc') as (es & Hok & Hw). exists (e :: es). split; [now constructor|]. rewrite Hb, Hw. done.
Qed.
End ReadLaws.

(** Reading a list ends.  On octets that are entries it calls the visitor for each of them in turn, up to the limit and
    as long as the visitor goes on, and what it fails with is located at the entry that it fails at; and octets that
    are read to the end without a failure are entries. *)
Theorem dol_read_exact `{Platform} {S} m data size limits (visit : tlv_dol_visit_fn S) context d : data <> NULL -> 0 <= size <= SIZE_MAX ->
  (forall es, Forall entry_ok es -> bytes_of m data size = dol_wire es ->
    tlv_dol_read m data size limits (Some visit) context d =
      Some (read_result (visit_entries data (default tlv_dol_default_limits limits) visit es 0 0 context) d)) /\
  (exists rc context' d', tlv_dol_read m data size limits (Some visit) context d = Some (rc, context', d') /\
    (rc = TLV_OK -> exists es, Forall entry_ok es /\ bytes_of m data size = dol_wire es)).
Proof.
  intros Hd Hs. assert (is_null data = false) as Hn by now destruct data. unfold tlv_dol_read. rewrite Hn. cbn [andb]. split.
  - intros es Hok Hb. apply read_loop_entries; try done; try lia. now rewrite padd_0, Z.sub_0_r.
  - destruct (read_loop_sound m data size Hd Hs (default tlv_dol_default_limits limits) visit (Z.to_nat size) 0 0 context d) as (rc & c & d' & -> & Hes); [lia|lia|].
    exists rc, c, d'. split; [done|]. now rewrite padd_0, Z.sub_0_r in Hes.
Qed.

(** ** Writing *)

(** A value and whether it is numeric, as long as the entry asks for: numbers on the right, others on the left. *)
Definition fit (n : Z) (value : option (list Z * bool)) : list Z :=
  match value with
  | None => repeat 0 (Z.to_nat n)
  | Some (v, numeric) =>
      let pad := repeat 0 (Z.to_nat (n - zlen v)) in
      if numeric then pad ++ drop (Z.to_nat (zlen v - n)) v else take (Z.to_nat n) v ++ pad
  end.

Fixpoint dol_output (values : Z -> option (list Z * bool)) (es : list (list Z * Z)) (index : Z) : list Z :=
  match es with
  | [] => []
  | e :: es => fit (snd e) (values index) ++ dol_output values es (index + 1)
  end.

(** The octets that a list asks for. *)
Definition dol_total (es : list (list Z * Z)) : Z := fold_right (fun e total => snd e + total) 0 es.

(** What the documentation asks of a resolver: asked without a destination it says what there is, asked with one it
    writes the octets from [skip] on. *)
Record supplies {S} (resolve : tlv_dol_resolve_fn S) (values : Z -> option (list Z * bool)) : Prop := {
  su_asked : forall entry index m c, exists a c', resolve entry index 0 NULL 0 (mk_answer 0 TLV_DOL_FORMAT_BINARY false) m c = (TLV_OK, m, a, c') /\
    match values index with
    | None => a.(da_absent) = true
    | Some (v, numeric) => a.(da_absent) = false /\ a.(da_available) = zlen v /\ a.(da_format) = if numeric then TLV_DOL_FORMAT_NUMERIC else TLV_DOL_FORMAT_BINARY
    end;
  su_written : forall entry index skip data n a m c v numeric, values index = Some (v, numeric) -> data <> NULL -> 0 <= skip -> 0 <= n -> skip + n <= zlen v ->
    exists m' a' c', resolve entry index skip data n a m c = (TLV_OK, m', a', c') /\ only_changes m m' data n /\ bytes_of m' data n = take (Z.to_nat n) (drop (Z.to_nat skip) v) }.

Lemma fit_length n value : 0 <= n -> zlen (fit n value) = n.
Proof.
  intros Hn. unfold fit. destruct value as [[v []]|]; [rewrite length_app, repeat_length, length_drop|rewrite length_app, repeat_length, length_take|rewrite repeat_length]; lia.
Qed.

Lemma output_length values es : Forall (fun e => 0 <= snd e) es -> forall index, zlen (dol_output values es index) = dol_total es.
Proof. induction 1 as [|e es He _ IH]; intros index; simpl; [done|]. rewrite length_app, Nat2Z.inj_add, fit_length, IH by done. done. Qed.

Lemma dol_total_nonneg es : Forall (fun e => 0 <= snd e) es -> 0 <= dol_total es.
Proof. induction 1; simpl; lia. Qed.

Lemma memset_zero m p n : p <> NULL -> 0 <= n -> bytes_of (memset m p 0 n) p n = repeat 0 (Z.to_nat n).
Proof.
  intros Hp Hn. destruct p as [|b o]; [done|]. unfold bytes_of. rewrite (map_ext_in _ (fun _ => 0)), map_const, length_seq; [done|].
  intros i Hi%in_seq. unfold memset. rewrite ld_set_range_in by lia. done.
Qed.

Lemma laid_memset m m' data l k : 0 <= k -> data <> NULL -> laid m m' data l -> laid m (memset m' (data +p zlen l) 0 k) data (l ++ repeat 0 (Z.to_nat k)).
Proof.
  intros Hk Hd Hl. apply (laid_app m m' _ data l k); [rewrite repeat_length; lia|done|apply set_range_only|]. apply memset_zero; [|done]. destruct data; done.
Qed.

(** Zeros, a value between them, and nothing else changed. *)
Lemma framed_value m p a (s : Z) v m1 : p <> NULL -> 0 <= a -> 0 <= s ->
  only_changes (memset (memset m p 0 a) (p +p (a + zlen v)) 0 s) m1 (p +p a) (zlen v) -> bytes_of m1 (p +p a) (zlen v) = v ->
  only_changes m m1 p (a + zlen v + s) /\ bytes_of m1 p (a + zlen v + s) = repeat 0 (Z.to_nat a) ++ v ++ repeat 0 (Z.to_nat s).
Proof.
  intros Hp Ha Hs Ho Hb. set (m0 := memset m p 0 a) in *. set (m2 := memset m0 (p +p (a + zlen v)) 0 s) in *.
  assert (Ho0 : only_changes m m0 p a) by apply set_range_only. assert (Ho2 : only_changes m0 m2 (p +p (a + zlen v)) s) by apply set_range_only.
  assert (Hq : forall k, p +p k <> NULL) by (intros k; now destruct p). split.
  - eapply only_trans; [eapply (only_prefix _ _ _ _ a); [lia|exact Ho0]|]. eapply only_trans; [apply (only_sub _ _ _ _ (a + zlen v) s); [lia|lia|exact Ho2]|].
    apply (only_sub _ _ _ _ a (zlen v)); [lia|lia|exact Ho].
  - replace (a + zlen v + s) with (a + (zlen v + s)) by lia. rewrite !bytes_of_app, padd_padd, Hb by lia. f_equal; [|f_equal].
    + rewrite <- (memset_zero m p a Hp Ha). fold m0. apply same_bytes_of. intros i Hi. transitivity (ld m2 p i).
      * apply (only_ld _ _ _ _ _ _ Ho); [|lia]. destruct p; simpl; lia.
      * apply (only_ld _ _ _ _ _ _ Ho2); [|lia]. destruct p; simpl; lia.
    + rewrite <- (memset_zero m0 (p +p (a + zlen v)) s (Hq _) Hs). fold m2. apply same_bytes_of, (only_same _ _ _ _ _ _ Ho). destruct p; simpl; lia.
Qed.

Section WriteLaws.
Context `{Platform} {S : Type} (resolve : tlv_dol_resolve_fn S) (values : Z -> option (list Z * bool)) (Hsupplies : supplies resolve values).
Context (limits : tlv_dol_limits_t) (Hvalues : forall index v numeric, values index = Some (v, numeric) -> zlen v <= limits.(dl_max_value_length)).

Lemma produce_entry_fits m entry index context segment offset d : segment <> NULL -> 0 <= entry.(de_requested_length) ->
  let n := entry.(de_requested_length) in
  exists m' context', produce_entry m entry index resolve context limits segment offset d = (TLV_OK, m', context', d) /\
    only_changes m m' segment n /\ bytes_of m' segment n = fit n (values index).
Proof.
  intros Hseg Hn. cbv zeta. destruct entry as [tag n]. cbn [de_requested_length] in *. unfold produce_entry. cbn [de_requested_length].
  destruct (su_asked _ _ Hsupplies (mk_dol_entry tag n) index m context) as (a & c & -> & Ha). rewrite is_ok_OK. cbn [negb].
  destruct (values index) as [[v numeric]|] eqn:Ev; [|rewrite Ha; do 2 eexists; split; [reflexivity|]; split; [apply set_range_only|now apply memset_zero]].
  destruct Ha as (-> & Hav & Hf). cbv iota. rewrite Hav. pose proof (Hvalues _ _ _ Ev) as Hmax. destruct (Z.ltb_spec (dl_max_value_length limits) (zlen v)); [lia|].
  assert (Hq : forall k, segment +p k <> NULL) by (intros k; now destruct segment).
  assert (Hgoal : forall num, num = numeric -> exists m' context',
    (if zlen v <=? n then
       let pad := n - zlen v in let prefix := if num : bool then pad else 0 in let suffix := pad - prefix in
       let m := memset m segment 0 prefix in let m := memset m (segment +p (prefix + zlen v)) 0 suffix in
       if zlen v =? 0 then (TLV_OK, m, c, d)
       else let '(rc, m, _, context) := resolve (mk_dol_entry tag n) index 0 (segment +p prefix) (zlen v) a m c in
            if negb (is_ok rc) then let '(rc, d) := fail rc offset d in (rc, m, context, d) else (TLV_OK, m, context, d)
     else let '(rc, m, _, context) := resolve (mk_dol_entry tag n) index (if num then zlen v - n else 0) segment n a m c in
          if negb (is_ok rc) then let '(rc, d) := fail rc offset d in (rc, m, context, d) else (TLV_OK, m, context, d)) = (TLV_OK, m', context', d) /\
    only_changes m m' segment n /\ bytes_of m' segment n = fit n (Some (v, numeric))).
  { intros num ->. destruct (Z.leb_spec (zlen v) n) as [Hle|Hgt]; cbv zeta.
    - set (p := if numeric then n - zlen v else 0). set (s := n - zlen v - p). assert (Hps : 0 <= p /\ 0 <= s /\ n = p + zlen v + s) by (subst p s; destruct numeric; lia). destruct Hps as (Hp & Hs & Hsum).
      assert (Hfit : fit n (Some (v, numeric)) = repeat 0 (Z.to_nat p) ++ v ++ repeat 0 (Z.to_nat s)).
      { unfold fit. subst p s. destruct numeric.
        - replace (Z.to_nat (zlen v - n)) with 0%nat by lia. rewrite drop_0, Z.sub_diag. cbn [repeat Z.to_nat]. now rewrite app_nil_r.
        - rewrite take_ge by lia. rewrite Z.sub_0_r. done. }
      rewrite Hfit. clear Hfit. pose proof (framed_value m segment p s v) as Hframed. rewrite <- Hsum in Hframed. destruct (Z.eqb_spec (zlen v) 0) as [E|E].
      + destruct v; [|simpl in E; lia]. do 2 eexists. split; [reflexivity|]. apply Hframed; try done; now apply bytes_of_0.
      + destruct (su_written _ _ Hsupplies (mk_dol_entry tag n) index 0 (segment +p p) (zlen v) a (memset (memset m segment 0 p) (segment +p (p + zlen v)) 0 s) c v numeric Ev (Hq _)) as (m' & a' & c' & -> & Ho & Hb); [lia|lia|lia|].
        rewrite is_ok_OK. cbn [negb]. do 2 eexists. split; [reflexivity|]. apply Hframed; try done. rewrite Hb, drop_0, take_ge by lia. done.
    - destruct (su_written _ _ Hsupplies (mk_dol_entry tag n) index (if numeric then zlen v - n else 0) segment n a m c v numeric Ev Hseg) as (m' & a' & c' & -> & Ho & Hb); [destruct numeric; lia|lia|destruct numeric; lia|].
      rewrite is_ok_OK. cbn [negb]. do 2 eexists. split; [reflexivity|]. split; [done|]. rewrite Hb. unfold fit. replace (Z.to_nat (n - zlen v)) with 0%nat by lia. cbn [repeat app]. destruct numeric.
      + rewrite take_ge; [done|]. rewrite length_drop. lia.
      + change (Z.to_nat 0) with 0%nat. now rewrite drop_0, app_nil_r. }
  rewrite Hf. destruct numeric; apply (Hgoal _ eq_refl).
Qed.

Context (dol : ptr) (dol_size : Z) (Hdol : dol <> NULL) (Hsize : 0 <= dol_size <= SIZE_MAX) (m : mem).

(** What the loop leaves where there is a destination: all of the output, or nothing past its capacity. *)
Definition written_or_short (data : ptr) (capacity : Z) (out : list Z) (r : tlv_result_t) (m' : mem) (written : option Z) : Prop :=
  if zlen out <=? capacity then r = TLV_OK /\ written = Some (zlen out) /\ laid m m' data out
  else r = TLV_ERR_BUFFER_TOO_SHORT /\ written = None /\ only_changes m m' data capacity.

Lemma entries_nonneg es : Forall entry_ok es -> Forall (fun e => 0 <= snd e) es.
Proof. apply List.Forall_impl. intros e [_ He]. lia. Qed.

Lemma write_loop_written data capacity es : data <> NULL -> forall fuel m' out offset count context d,
  0 <= offset <= dol_size -> dol_size - offset <= Z.of_nat fuel -> 0 <= count -> count + zlen es <= limits.(dl_max_entries) ->
  Forall entry_ok es -> bytes_of m (dol +p offset) (dol_size - offset) = dol_wire es ->
  laid m m' data out -> zlen out <= capacity -> zlen out + dol_total es <= SIZE_MAX -> disjoint_range data (zlen out + dol_total es) dol dol_size ->
  exists rc m'' context' w d', write_loop fuel m' dol dol_size data capacity limits (Some resolve) context offset count (zlen out) d = Some (rc, m'', context', w, d') /\
    written_or_short data capacity (out ++ dol_output values es count) rc m'' w.
Proof using Hdol Hsize Hsupplies Hvalues.
  intros Hd. assert (is_null data = false) as Hdn by now destruct data. induction es as [|e es IH]; intros fuel m' out offset count context d Ho Hf Hc Hce Hok Hb Hl Hcap Htot Hdis.
  - apply (f_equal (@length Z)) in Hb. rewrite length_bytes_of in Hb. simpl in Hb. assert (offset = dol_size) as -> by lia.
    exists TLV_OK, m', context, (Some (zlen out)), d. split; [destruct fuel; cbn [write_loop]; now rewrite Z.leb_refl|].
    cbn [dol_output]. rewrite app_nil_r. unfold written_or_short. destruct (Z.leb_spec (zlen out) capacity); [done|lia].
  - inversion Hok as [|? ? He Hes]; subst. pose proof (entries_nonneg _ Hes) as Hnn. pose proof (dol_total_nonneg _ Hnn) as Hpos. pose proof He as [_ Hen].
    cbn [dol_total fold_right] in Htot, Hdis. fold (dol_total es) in Htot, Hdis. cbn [length] in Hce. pose proof (entry_wire_length _ He) as Hw.
    assert (Hb' : bytes_of m' (dol +p offset) (dol_size - offset) = entry_wire e ++ dol_wire es).
    { etransitivity; [|exact Hb]. apply same_bytes_of, (only_same _ _ _ _ _ _ (proj1 Hl)). destruct data, dol; simpl in *; lia. }
    destruct (read_entry_at m' dol dol_size Hdol Hsize e (dol_wire es) offset Ho He Hb') as (Hr & Hle & _).
    destruct (read_entry_at m dol dol_size Hdol Hsize e (dol_wire es) offset Ho He Hb) as (_ & _ & Hrest).
    destruct fuel as [|fuel]; [lia|]. cbn [write_loop]. destruct (Z.leb_spec dol_size offset); [lia|]. destruct (Z.eqb_spec count (dl_max_entries limits)); [lia|].
    rewrite Hr, is_ok_OK, Hdn. cbn [negb de_requested_length]. assert (0 <= zlen out + snd e <= SIZE_MAX) as Hsum by lia. rewrite usize_small by lia.
    destruct (Z.ltb_spec capacity (zlen out + snd e)) as [Hshort|Hfits].
    + do 5 eexists. split; [reflexivity|]. unfold written_or_short. cbn [dol_output]. rewrite !length_app, !Nat2Z.inj_add, fit_length, output_length by (done || lia).
      destruct (Z.leb_spec (zlen out + (snd e + dol_total es)) capacity); [lia|]. split_and!; [done|done|]. apply (only_prefix _ _ _ _ (zlen out)); [lia|exact (proj1 Hl)].
    + destruct (produce_entry_fits m' (mk_dol_entry (tlv_tag (dol +p offset) (zlen (fst e))) (snd e)) count context (data +p zlen out) offset d) as (m1 & c1 & -> & Ho1 & Hb1); [now destruct data|cbn; lia|].
      rewrite is_ok_OK. cbn [negb de_requested_length] in *. assert (Hl1 : laid m m1 data (out ++ fit (snd e) (values count))).
      { apply (laid_app m m' m1 data out (snd e)); [apply fit_length; lia|done|done|done]. }
      assert (Hlen : zlen (out ++ fit (snd e) (values count)) = zlen out + snd e) by (rewrite length_app, Nat2Z.inj_add, fit_length; lia).
      cbn [dol_output]. rewrite app_assoc, <- Hlen. apply IH; rewrite ?Hlen; try done; try lia. destruct data, dol; simpl in *; lia.
Qed.
End WriteLaws.

(** A query of the size: the resolver, if there is one, is not called. *)
Lemma write_loop_size `{Platform} {S} m dol dol_size limits (resolve : option (tlv_dol_resolve_fn S)) context d es : dol <> NULL -> 0 <= dol_size <= SIZE_MAX ->
  forall fuel offset count total, 0 <= offset <= dol_size -> dol_size - offset <= Z.of_nat fuel -> 0 <= count -> count + zlen es <= limits.(dl_max_entries) ->
  Forall entry_ok es -> bytes_of m (dol +p offset) (dol_size - offset) = dol_wire es -> 0 <= total -> total + dol_total es <= SIZE_MAX ->
  write_loop fuel m dol dol_size NULL 0 limits resolve context offset count total d = Some (TLV_OK, m, context, Some (total + dol_total es), d).
Proof.
  intros Hdol Hsize. induction es as [|e es IH]; intros fuel offset count total Ho Hf Hc Hce Hok Hb Ht Htot.
  - apply (f_equal (@length Z)) in Hb. rewrite length_bytes_of in Hb. simpl in Hb. assert (offset = dol_size) as -> by lia.
    cbn [dol_total fold_right]. rewrite Z.add_0_r. destruct fuel; cbn [write_loop]; now rewrite Z.leb_refl.
  - inversion Hok as [|? ? He Hes]; subst. pose proof (dol_total_nonneg _ (entries_nonneg _ Hes)) as Hpos. pose proof He as [_ Hen].
    cbn [dol_total fold_right] in Htot |- *. fold (dol_total es) in Htot |- *. cbn [length] in Hce. pose proof (entry_wire_length _ He) as Hw.
    destruct (read_entry_at m dol dol_size Hdol Hsize e (dol_wire es) offset Ho He Hb) as (Hr & Hle & Hrest).
    destruct fuel as [|fuel]; [lia|]. cbn [write_loop]. destruct (Z.leb_spec dol_size offset); [lia|]. destruct (Z.eqb_spec count (dl_max_entries limits)); [lia|].
    rewrite Hr, is_ok_OK. cbn [negb de_requested_length is_null]. rewrite usize_small by lia.
    rewrite Z.add_assoc. destruct resolve; apply IH; try done; lia.
Qed.

(** C32. Writing what a list asks for, from a resolver that supplies values within the limit.  Asked for the size it answers
    the sum of the lengths and leaves memory and the context alone, whatever resolver it has, so that it calls none; with room for it it writes, for each entry in turn, the value padded
    or cut to its length and nothing else; without room it fails and writes nothing past the room there is. *)
Theorem dol_write_exact `{Platform} {S} m dol dol_size limits (resolve : tlv_dol_resolve_fn S) values context d es :
  let l := default tlv_dol_default_limits limits in
  dol <> NULL -> 0 <= dol_size <= SIZE_MAX -> Forall entry_ok es -> bytes_of m dol dol_size = dol_wire es ->
  zlen es <= l.(dl_max_entries) -> l.(dl_max_value_length) <= TLV_DOL_MAX_VALUE_LENGTH -> dol_total es <= SIZE_MAX ->
  (forall resolve : option (tlv_dol_resolve_fn S),
     tlv_dol_write m dol dol_size NULL 0 limits resolve context true d = Some (TLV_OK, m, context, Some (dol_total es), d)) /\
  (supplies resolve values -> (forall index v numeric, values index = Some (v, numeric) -> zlen v <= l.(dl_max_value_length)) ->
   forall data capacity, data <> NULL -> 0 <= capacity -> disjoint_range data (dol_total es) dol dol_size ->
   exists rc m' context' w d', tlv_dol_write m dol dol_size data capacity limits (Some resolve) context true d = Some (rc, m', context', w, d') /\
     if dol_total es <=? capacity then rc = TLV_OK /\ w = Some (dol_total es) /\ laid m m' data (dol_output values es 0)
     else rc = TLV_ERR_BUFFER_TOO_SHORT /\ w = None /\ only_changes m m' data capacity).
Proof.
  intros l Hd Hs Hok Hb Hmax Hval Htot. assert (is_null dol = false) as Hn by now destruct dol. assert ((TLV_DOL_MAX_VALUE_LENGTH <? dl_max_value_length l) = false) as Hv by lia.
  assert (Hb' : bytes_of m (dol +p 0) (dol_size - 0) = dol_wire es) by now rewrite padd_0, Z.sub_0_r. split.
  - intros r. unfold tlv_dol_write. fold l. rewrite Hn, Hv. cbn [andb orb negb is_null]. rewrite andb_false_r. apply (write_loop_size m dol dol_size l r context d es Hd Hs); try done; lia.
  - intros Hsup Hvals data capacity Hdata Hcap Hdis. assert (is_null data = false) as Hdn by now destruct data.
    unfold tlv_dol_write. fold l. rewrite Hn, Hv, Hdn. cbn [andb orb negb is_null is_some].
    destruct (write_loop_written resolve values Hsup l Hvals dol dol_size Hd Hs m data capacity es Hdata (Z.to_nat dol_size) m [] 0 0 context d) as (rc & m' & c & w & d' & Hr & Hw);
      try done; try (cbn [length]; lia); try apply laid_nil.
    exists rc, m', c, w, d'. split; [exact Hr|]. unfold written_or_short in Hw. cbn [app] in Hw. rewrite output_length in Hw by now apply entries_nonneg. exact Hw.
Qed.

(** ** Examples *)

Module Example.

(** An amount, a currency, an unpredictable number and a date, with 6, 2, 4 and 3 octets. *)
Definition entries : list (list Z * Z) := [([159; 2], 6); ([95; 42], 2); ([159; 55], 4); ([154], 3)].
Definition pdol : mem := mem_of 1 (dol_wire entries).

(** What a terminal has: a short number, a long number, octets that are too many, and no date. *)
Definition terminal (index : Z) : option (list Z * bool) :=
  if index =? 0 then Some ([18; 52], true)
  else if index =? 1 then Some ([0; 9; 120], true)
  else if index =? 2 then Some ([1; 2; 3; 4; 5], false) else None.

(** A resolver that copies the values that there are. *)
Definition copying (values : Z -> option (list Z * bool)) : tlv_dol_resolve_fn unit := fun _ index skip data n answer m c =>
  match values index with
  | None => (TLV_OK, m, mk_answer 0 TLV_DOL_FORMAT_BINARY true, c)
  | Some (v, numeric) =>
      if is_null data then (TLV_OK, m, mk_answer (zlen v) (if numeric then TLV_DOL_FORMAT_NUMERIC else TLV_DOL_FORMAT_BINARY) false, c)
      else (TLV_OK, put_at m data (take (Z.to_nat n) (drop (Z.to_nat skip) v)), answer, c)
  end.

Lemma copying_supplies values : (forall index v numeric, values index = Some (v, numeric) -> bytes v) -> supplies (copying values) values.
Proof.
  intros Hv. split; unfold copying.
  - intros entry index m c. destruct (values index) as [[v numeric]|]; do 2 eexists; (split; [reflexivity|]); done.
  - intros entry index skip data n a m c v numeric E Hd Hs Hn Hle. rewrite E. assert (is_null data = false) as -> by now destruct data.
    assert (Hlen : zlen (take (Z.to_nat n) (drop (Z.to_nat skip) v)) = n) by (rewrite length_take, length_drop; lia).
    do 3 eexists. split; [reflexivity|]. assert (Hb : bytes (take (Z.to_nat n) (drop (Z.to_nat skip) v))) by (apply Forall_take, Forall_drop; now apply (Hv index v numeric)).
    set (l := take (Z.to_nat n) (drop (Z.to_nat skip) v)) in *. clearbody l. subst n. split; [apply put_at_only|now apply bytes_of_put_at].
Qed.

(** A visitor that adds up the lengths and counts the octets of the identifiers. *)
Definition adding : tlv_dol_visit_fn (Z * Z) := fun entry _ '(octets, total) => (TLV_OK, (octets + entry.(de_tag).(t_size), total + entry.(de_requested_length))).

Lemma entries_ok : Forall (@entry_ok LP64) entries.
Proof. repeat constructor; cbn; lia || (vm_compute; reflexivity). Qed.

Lemma dol_read_exact_witness :
  tlv_dol_read pdol (Ptr 1 0) 11 None (Some adding) (0, 0) None = Some (TLV_OK, (7, 15), None) /\
  tlv_dol_read pdol (Ptr 1 0) 11 (Some (mk_dol_limits 2 0)) (Some adding) (0, 0) None = Some (TLV_ERR_LIMIT, (4, 8), None).
Proof.
  split; rewrite (proj1 (dol_read_exact (H := LP64) pdol (Ptr 1 0) 11 _ adding (0, 0) None ltac:(discriminate) ltac:(split; vm_compute; congruence)) entries entries_ok ltac:(vm_compute; reflexivity));
    vm_compute; reflexivity.
Defined.

Lemma dol_write_exact_witness :
  exists rc m' c w d, @tlv_dol_write LP64 _ pdol (Ptr 1 0) 11 (Ptr 2 0) 15 None (Some (copying terminal)) tt true None = Some (rc, m', c, w, d) /\
    rc = TLV_OK /\ w = Some 15 /\ bytes_of m' (Ptr 2 0) 15 = [0; 0; 0; 0; 18; 52; 9; 120; 1; 2; 3; 4; 0; 0; 0].
Proof.
  destruct (dol_write_exact (H := LP64) pdol (Ptr 1 0) 11 None (copying terminal) terminal tt None entries) as [_ Hw];
    [discriminate|split; vm_compute; congruence|exact entries_ok|vm_compute; reflexivity|vm_compute; congruence|vm_compute; congruence|vm_compute; congruence|].
  destruct (Hw) with (data := Ptr 2 0) (capacity := 15) as (rc & m' & c & w & d & E & Hr);
    [apply copying_supplies| |discriminate|lia|left; discriminate|].
  - intros index v numeric. unfold terminal. do 3 (destruct (_ =? _); [intros [= <- _]; repeat constructor; lia|]). discriminate.
  - intros index v numeric. unfold terminal. do 3 (destruct (_ =? _); [intros [= <- _]; vm_compute; congruence|]). discriminate.
  - exists rc, m', c, w, d. split; [exact E|]. change (dol_total entries <=? 15) with true in Hr. cbv iota in Hr. destruct Hr as (-> & -> & _ & Hb). split_and!; [done|done|exact Hb].
Defined.

End Example.
