(* ===== verification/TreeWriter.v ===== *)
(** * The tree Writer (writer/tree.h, src/writer/tree.c, src/writer/tree_internal.h)

    Elements nest through frames in the caller's array; the value of an open element accumulates in the
    output buffer itself, and closing it moves the value through a scratch buffer into an encoded
    element.  As in the tree Reader the frame array is a component of the writer; buffers, scratch and
    the optional tag storage are in the memory. *)

From S2P Require Import Prelude Mem Core Format Diagnostic WireFormat Reader TreeReader Writer.

Record tlv_tree_writer_frame_t := mk_wframe { wf_tag : tlv_tag_t; wf_start : Z }.
Definition no_wframe : tlv_tree_writer_frame_t := mk_wframe empty_tag 0.

Record tlv_tree_writer_t := mk_tree_writer {
  tw_output : tlv_writer_t; tw_frames : option (list tlv_tree_writer_frame_t); tw_capacity : Z;
  tw_depth : Z; tw_max_depth : Z; tw_max_elements : Z; tw_count : Z;
  tw_scratch : ptr; tw_scratch_capacity : Z;
  tw_tags : ptr; tw_tags_capacity : Z; tw_tags_used : Z }.

Definition wframe_at (frames : option (list tlv_tree_writer_frame_t)) (i : Z) : tlv_tree_writer_frame_t :=
  match frames with Some l => nth (Z.to_nat i) l no_wframe | None => no_wframe end.
Definition set_wframe (frames : option (list tlv_tree_writer_frame_t)) (i : Z)
  (x : tlv_tree_writer_frame_t) : option (list tlv_tree_writer_frame_t) :=
  match frames with Some l => Some (<[Z.to_nat i := x]> l) | None => None end.

(** The result is [rc]; this is the diagnostic it leaves. *)
Definition tree_error (diagnostic : option tlv_writer_diagnostic_t) (rc : tlv_result_t)
  (operation : tlv_writer_operation_t) (offset : Z) (tag : option tlv_tag_t)
  : option tlv_writer_diagnostic_t :=
  match diagnostic with
  | None => None
  | Some _ =>
      let d := cell zero_diagnostic
                 (tlv_diagnostic_init (Some zero_diagnostic) rc TLV_DIAGNOSTIC_SEVERITY_ERROR) in
      let d := cell d (tlv_diagnostic_set_location (Some d) TLV_LOCATION_OUTPUT TLV_LOCATION_POINT
                         offset offset) in
      Some (mk_writer_diagnostic d operation tag None None None)
  end.

Definition tlv_tree_writer_init (writer : option tlv_tree_writer_t) (data : ptr) (size : Z)
  (format : option tlv_format_t) (frames : option (list tlv_tree_writer_frame_t)) (capacity : Z)
  (scratch : ptr) (scratch_capacity max_depth max_elements : Z)
  : tlv_result_t * option tlv_tree_writer_t :=
  match writer with
  | None => (TLV_ERR_NULL_ARG, writer)
  | Some _ =>
      if (negb (is_some frames) && negb (capacity =? 0)) ||
         (is_null scratch && negb (scratch_capacity =? 0)) then (TLV_ERR_NULL_ARG, writer)
      else
        let '(rc, output) := tlv_writer_init (Some (mk_writer None NULL 0 0)) data size format in
        if negb (is_ok rc) then (rc, writer)
        else (TLV_OK,
              Some (mk_tree_writer (cell (mk_writer None NULL 0 0) output) frames capacity 0 max_depth
                      max_elements 0 scratch scratch_capacity NULL 0 0))
  end.

Definition tlv_tree_writer_set_tag_storage (writer : option tlv_tree_writer_t) (data : ptr)
  (capacity : Z) : tlv_result_t * option tlv_tree_writer_t :=
  match writer with
  | None => (TLV_ERR_NULL_ARG, writer)
  | Some t =>
      if is_null data && negb (capacity =? 0) then (TLV_ERR_NULL_ARG, writer)
      else if negb (t.(tw_depth) =? 0) then (TLV_ERR_INVALID_STATE, writer)
      else (TLV_OK,
            Some (mk_tree_writer t.(tw_output) t.(tw_frames) t.(tw_capacity) t.(tw_depth)
                    t.(tw_max_depth) t.(tw_max_elements) t.(tw_count) t.(tw_scratch)
                    t.(tw_scratch_capacity) data capacity 0))
  end.

Definition with_output (w : tlv_writer_t) (t : tlv_tree_writer_t) : tlv_tree_writer_t :=
  mk_tree_writer w t.(tw_frames) t.(tw_capacity) t.(tw_depth) t.(tw_max_depth) t.(tw_max_elements)
    t.(tw_count) t.(tw_scratch) t.(tw_scratch_capacity) t.(tw_tags) t.(tw_tags_capacity) t.(tw_tags_used).

Definition tree_writer_result : Type :=
  tlv_result_t * mem * option tlv_tree_writer_t * option tlv_writer_diagnostic_t.

(** [writer->output.format->is_constructed(context, &tag)], false without the callback. *)
Definition output_constructed (m : mem) (t : tlv_tree_writer_t) (tag : tlv_tag_t) : bool :=
  is_constructed t.(tw_output).(w_format) m tag.

(** Opening a scope: the tag storage, the frame and the counts. *)
Definition push_frame (t : tlv_tree_writer_t) (tag : tlv_tag_t) (tags_used : Z) : tlv_tree_writer_t :=
  mk_tree_writer t.(tw_output)
    (set_wframe t.(tw_frames) t.(tw_depth) (mk_wframe tag t.(tw_output).(w_pos))) t.(tw_capacity)
    (t.(tw_depth) + 1) t.(tw_max_depth) t.(tw_max_elements) (t.(tw_count) + 1) t.(tw_scratch)
    t.(tw_scratch_capacity) t.(tw_tags) t.(tw_tags_capacity) tags_used.

Definition tlv_tree_writer_begin_diag `{Platform} (m : mem) (writer : option tlv_tree_writer_t)
  (tag : tlv_tag_t) (diagnostic : option tlv_writer_diagnostic_t) : tree_writer_result :=
  let rc :=
    match writer with
    | None => TLV_ERR_NULL_ARG
    | Some t =>
        if negb (tag.(t_size) =? 0) && is_null tag.(t_data) then TLV_ERR_NULL_ARG
        else if (t.(tw_max_depth) <? t.(tw_depth)) || (t.(tw_max_elements) <=? t.(tw_count)) then
          TLV_ERR_LIMIT
        else if t.(tw_capacity) <=? t.(tw_depth) then TLV_ERR_BUFFER_TOO_SHORT
        else if negb (output_constructed m t tag) then TLV_ERR_INVALID_TAG
        else TLV_OK
    end in
  match writer with
  | None => (rc, m, writer, tree_error diagnostic rc TLV_WRITER_OP_BEGIN 0 (Some tag))
  | Some t =>
      if negb (is_ok rc) then
        (rc, m, writer, tree_error diagnostic rc TLV_WRITER_OP_BEGIN t.(tw_output).(w_pos) (Some tag))
      else if negb (is_null t.(tw_tags)) && negb (is_null tag.(t_data)) then
        let size := if negb (tag.(t_size) =? 0) then tag.(t_size) else 1 in
        if usize (t.(tw_tags_capacity) - t.(tw_tags_used)) <? size then
          (TLV_ERR_BUFFER_TOO_SHORT, m, writer,
           tree_error diagnostic TLV_ERR_BUFFER_TOO_SHORT TLV_WRITER_OP_BEGIN t.(tw_output).(w_pos) (Some tag))
        else
          let stored := t.(tw_tags) +p t.(tw_tags_used) in
          let m := if negb (tag.(t_size) =? 0) then memcpy m stored tag.(t_data) tag.(t_size) else m in
          (TLV_OK, m, Some (push_frame t (mk_tag stored tag.(t_size)) (t.(tw_tags_used) + size)), diagnostic)
      else (TLV_OK, m, Some (push_frame t tag t.(tw_tags_used)), diagnostic)
  end.

Definition tlv_tree_writer_begin `{Platform} (m : mem) (writer : option tlv_tree_writer_t)
  (tag : tlv_tag_t) : tlv_result_t * mem * option tlv_tree_writer_t :=
  let '(rc, m, writer, _) := tlv_tree_writer_begin_diag m writer tag None in (rc, m, writer).

Definition count_element (t : tlv_tree_writer_t) : tlv_tree_writer_t :=
  mk_tree_writer t.(tw_output) t.(tw_frames) t.(tw_capacity) t.(tw_depth) t.(tw_max_depth)
    t.(tw_max_elements) (t.(tw_count) + 1) t.(tw_scratch) t.(tw_scratch_capacity) t.(tw_tags)
    t.(tw_tags_capacity) t.(tw_tags_used).

Definition tlv_tree_writer_write_element_diag `{Platform} (m : mem) (writer : option tlv_tree_writer_t)
  (element : option tlv_element_t) (diagnostic : option tlv_writer_diagnostic_t) : tree_writer_result :=
  let tag := match element with Some e => Some e.(e_tag) | None => None end in
  match writer, element with
  | Some t, Some e =>
      if (t.(tw_max_depth) <? t.(tw_depth)) || (t.(tw_max_elements) <=? t.(tw_count)) then
        (TLV_ERR_LIMIT, m, writer,
         tree_error diagnostic TLV_ERR_LIMIT TLV_WRITER_OP_VALUE t.(tw_output).(w_pos) tag)
      else
        let '(rc, m, output, diagnostic) :=
          tlv_writer_write_element_diag m (Some t.(tw_output)) element diagnostic in
        let t := with_output (cell t.(tw_output) output) t in
        (rc, m, Some (if is_ok rc then count_element t else t), diagnostic)
  | _, _ =>
      (TLV_ERR_NULL_ARG, m, writer,
       tree_error diagnostic TLV_ERR_NULL_ARG TLV_WRITER_OP_VALUE
         (match writer with Some t => t.(tw_output).(w_pos) | None => 0 end) tag)
  end.

Definition tlv_tree_writer_write_element `{Platform} (m : mem) (writer : option tlv_tree_writer_t)
  (element : option tlv_element_t) : tlv_result_t * mem * option tlv_tree_writer_t :=
  let '(rc, m, writer, _) := tlv_tree_writer_write_element_diag m writer element None in (rc, m, writer).

Definition pop_frame (t : tlv_tree_writer_t) (output : tlv_writer_t) (tags_used : Z) : tlv_tree_writer_t :=
  mk_tree_writer output t.(tw_frames) t.(tw_capacity) (t.(tw_depth) - 1) t.(tw_max_depth)
    t.(tw_max_elements) t.(tw_count) t.(tw_scratch) t.(tw_scratch_capacity) t.(tw_tags)
    t.(tw_tags_capacity) tags_used.

Definition at_position (pos : Z) (w : tlv_writer_t) : tlv_writer_t :=
  mk_writer w.(w_format) w.(w_buf) w.(w_capacity) pos.

Definition tlv_tree_writer_end_diag `{Platform} (m : mem) (writer : option tlv_tree_writer_t)
  (diagnostic : option tlv_writer_diagnostic_t) : tree_writer_result :=
  match writer with
  | None => (TLV_ERR_NULL_ARG, m, writer, tree_error diagnostic TLV_ERR_NULL_ARG TLV_WRITER_OP_END 0 None)
  | Some t =>
      if t.(tw_depth) =? 0 then
        (TLV_ERR_INVALID_STATE, m, writer,
         tree_error diagnostic TLV_ERR_INVALID_STATE TLV_WRITER_OP_END t.(tw_output).(w_pos) None)
      else
        let frame := wframe_at t.(tw_frames) (t.(tw_depth) - 1) in
        let length := usize (t.(tw_output).(w_pos) - frame.(wf_start)) in
        if t.(tw_scratch_capacity) <? length then
          (TLV_ERR_BUFFER_TOO_SHORT, m, writer,
           match tree_error diagnostic TLV_ERR_BUFFER_TOO_SHORT TLV_WRITER_OP_END frame.(wf_start)
                   (Some frame.(wf_tag)) with
           | Some d => Some (mk_writer_diagnostic d.(wd_diagnostic) d.(wd_operation) d.(wd_tag)
                               (Some length) (Some length) (Some t.(tw_scratch_capacity)))
           | None => None
           end)
        else
          let value := t.(tw_output).(w_buf) +p frame.(wf_start) in
          let m := if negb (length =? 0) then memcpy m t.(tw_scratch) value length else m in
          let parent := mk_element frame.(wf_tag) (mk_value t.(tw_scratch) length) in
          let '(rc, m, output, diagnostic) :=
            tlv_writer_write_element_diag m (Some (at_position frame.(wf_start) t.(tw_output)))
              (Some parent) diagnostic in
          if negb (is_ok rc) then
            (rc, (if negb (length =? 0) then memcpy m value t.(tw_scratch) length else m), writer,
             diagnostic)
          else
            let size := if negb (frame.(wf_tag).(t_size) =? 0) then frame.(wf_tag).(t_size) else 1 in
            let used := if negb (is_null t.(tw_tags)) && negb (is_null frame.(wf_tag).(t_data))
                        then usize (t.(tw_tags_used) - size) else t.(tw_tags_used) in
            (TLV_OK, m, Some (pop_frame t (cell t.(tw_output) output) used), diagnostic)
  end.

Definition tlv_tree_writer_end `{Platform} (m : mem) (writer : option tlv_tree_writer_t)
  : tlv_result_t * mem * option tlv_tree_writer_t :=
  let '(rc, m, writer, _) := tlv_tree_writer_end_diag m writer None in (rc, m, writer).

(** The structural check of an event against the open scopes. *)
Definition event_malformed (event : tlv_tree_event_t) (depth : Z) : bool :=
  event.(ev_skipped) ||
  match event.(ev_kind) with
  | TLV_TREE_OTHER _ => true
  | TLV_TREE_END => (depth =? 0) || negb (event.(ev_depth) =? depth - 1)
  | _ => negb (event.(ev_depth) =? depth)
  end.

Definition event_operation (kind : tlv_tree_event_kind_t) : tlv_writer_operation_t :=
  match kind with
  | TLV_TREE_BEGIN => TLV_WRITER_OP_BEGIN
  | TLV_TREE_END => TLV_WRITER_OP_END
  | _ => TLV_WRITER_OP_VALUE
  end.

Definition tlv_tree_writer_write_event_diag `{Platform} (m : mem) (writer : option tlv_tree_writer_t)
  (event : option tlv_tree_event_t) (diagnostic : option tlv_writer_diagnostic_t) : tree_writer_result :=
  match writer, event with
  | Some t, Some ev =>
      let operation := event_operation ev.(ev_kind) in
      let pos := t.(tw_output).(w_pos) in
      let tag := ev.(ev_element).(e_tag) in
      if event_malformed ev t.(tw_depth) then
        (TLV_ERR_INVALID_VALUE, m, writer, tree_error diagnostic TLV_ERR_INVALID_VALUE operation pos None)
      else
        match ev.(ev_kind) with
        | TLV_TREE_BEGIN => tlv_tree_writer_begin_diag m writer tag diagnostic
        | TLV_TREE_END => tlv_tree_writer_end_diag m writer diagnostic
        | _ =>
            if negb (tag.(t_size) =? 0) && is_null tag.(t_data) then
              (TLV_ERR_NULL_ARG, m, writer, tree_error diagnostic TLV_ERR_NULL_ARG operation pos None)
            else if output_constructed m t tag then
              (TLV_ERR_INVALID_TAG, m, writer,
               tree_error diagnostic TLV_ERR_INVALID_TAG operation pos (Some tag))
            else tlv_tree_writer_write_element_diag m writer (Some ev.(ev_element)) diagnostic
        end
  | _, _ =>
      (TLV_ERR_NULL_ARG, m, writer,
       tree_error diagnostic TLV_ERR_NULL_ARG TLV_WRITER_OP_VALUE
         (match writer with Some t => t.(tw_output).(w_pos) | None => 0 end) None)
  end.

Definition tlv_tree_writer_write_event `{Platform} (m : mem) (writer : option tlv_tree_writer_t)
  (event : option tlv_tree_event_t) : tlv_result_t * mem * option tlv_tree_writer_t :=
  let '(rc, m, writer, _) := tlv_tree_writer_write_event_diag m writer event None in (rc, m, writer).

Definition tlv_tree_writer_finish (writer : option tlv_tree_writer_t) : tlv_result_t :=
  match writer with
  | None => TLV_ERR_NULL_ARG
  | Some t => if negb (t.(tw_depth) =? 0) then TLV_ERR_INVALID_STATE else TLV_OK
  end.

Definition tlv_tree_writer_size (writer : option tlv_tree_writer_t) : Z :=
  match writer with
  | None => 0
  | Some t => if negb (t.(tw_depth) =? 0) then (wframe_at t.(tw_frames) 0).(wf_start)
              else t.(tw_output).(w_pos)
  end.
