(* ===== verification/TreeMeasure.v ===== *)
(** * Measuring a tree by staging it (src/writer/tree.c, second half)

    The exact size of a tree is found by writing it into a workspace.  Producers and the charge
    observer are functions of a context they return anew. *)

From S2P Require Import Prelude Mem Core Format Diagnostic WireFormat Reader TreeReader Writer TreeWriter.

Record tlv_tree_writer_workspace_t := mk_workspace {
  ws_frames : option (list tlv_tree_writer_frame_t); ws_frame_capacity : Z;
  ws_data : ptr; ws_data_capacity : Z; ws_scratch : ptr; ws_scratch_capacity : Z;
  ws_required_data : Z; ws_required_scratch : Z }.

Definition with_required (data scratch : Z) (ws : tlv_tree_writer_workspace_t)
  : tlv_tree_writer_workspace_t :=
  mk_workspace ws.(ws_frames) ws.(ws_frame_capacity) ws.(ws_data) ws.(ws_data_capacity) ws.(ws_scratch)
    ws.(ws_scratch_capacity) data scratch.

(** Out-parameters: the workspace and the diagnostic. *)
Definition measure_storage `{Platform} (m : mem) (t : tlv_tree_writer_t) (element : tlv_element_t)
  (start : Z) (closing : bool) (ws : tlv_tree_writer_workspace_t)
  (diagnostic : option tlv_writer_diagnostic_t)
  : tlv_result_t * tlv_tree_writer_workspace_t * option tlv_writer_diagnostic_t :=
  let '(rc, encoded, diagnostic) :=
    tlv_element_encoded_size_diag m (Some element) t.(tw_output).(w_format) (Some 0) diagnostic in
  let encoded := cell 0 encoded in
  if negb (is_ok rc) then
    (rc, ws,
     match diagnostic with
     | Some d =>
         Some (with_wd_diagnostic
           (with_location
              (cell no_location (tlv_location_translate (Some d.(wd_diagnostic).(dg_location)) start))
              d.(wd_diagnostic)) d)
     | None => None
     end)
  else if SIZE_MAX - start <? encoded then
    (TLV_ERR_OVERFLOW, ws,
     tree_error diagnostic TLV_ERR_OVERFLOW TLV_WRITER_OP_VALUE start (Some element.(e_tag)))
  else
    let accumulated := usize (t.(tw_output).(w_pos) - start) in
    let ws := if ws.(ws_data_capacity) <? start + encoded
              then with_required (start + encoded) ws.(ws_required_scratch) ws else ws in
    let ws := if closing && (ws.(ws_scratch_capacity) <? accumulated)
              then with_required ws.(ws_required_data) accumulated ws else ws in
    if (ws.(ws_required_data) =? 0) && (ws.(ws_required_scratch) =? 0) then (TLV_OK, ws, diagnostic)
    else
      let scratch := negb (ws.(ws_required_scratch) =? 0) in
      (TLV_ERR_BUFFER_TOO_SHORT, ws,
       match tree_error diagnostic TLV_ERR_BUFFER_TOO_SHORT
               (if scratch then TLV_WRITER_OP_END else TLV_WRITER_OP_VALUE) start
               (Some element.(e_tag)) with
       | Some d =>
           Some (mk_writer_diagnostic d.(wd_diagnostic) d.(wd_operation) d.(wd_tag) d.(wd_length)
             (Some (if scratch then ws.(ws_required_scratch) else encoded))
             (Some (if scratch then ws.(ws_scratch_capacity) else usize (ws.(ws_data_capacity) - start))))
       | None => None
       end).

(** The staged writer and its workspace. *)
Definition stage : Type := tlv_tree_writer_t * tlv_tree_writer_workspace_t.

Definition measure_close `{Platform} (m : mem) (t : tlv_tree_writer_t)
  (ws : tlv_tree_writer_workspace_t) (diagnostic : option tlv_writer_diagnostic_t)
  : tlv_result_t * mem * stage * option tlv_writer_diagnostic_t :=
  let frame := wframe_at t.(tw_frames) (t.(tw_depth) - 1) in
  let element :=
    mk_element frame.(wf_tag)
      (mk_value (if negb (is_null ws.(ws_data)) then ws.(ws_data) +p frame.(wf_start) else NULL)
                (usize (t.(tw_output).(w_pos) - frame.(wf_start)))) in
  let '(rc, ws, diagnostic) := measure_storage m t element frame.(wf_start) true ws diagnostic in
  if is_ok rc then
    let '(rc, m, writer, diagnostic) := tlv_tree_writer_end_diag m (Some t) diagnostic in
    (rc, m, (cell t writer, ws), diagnostic)
  else (rc, m, (t, ws), diagnostic).

(** ** Event producers *)

(** The callback's context and its out-parameters. *)
Definition tlv_tree_event_next_fn (S : Type) : Type :=
  S -> tlv_tree_event_t -> tlv_result_t * S * tlv_tree_event_t.
Definition tlv_tree_writer_next_fn (S : Type) : Type :=
  S -> tlv_element_t -> Z -> tlv_result_t * S * tlv_element_t * Z * bool.
Definition tree_writer_charge_fn (C : Type) : Type := C -> Z -> tlv_result_t * C.

(** A node-only producer and the closes still to synthesize. *)
Record preorder_source_t (S : Type) := mk_preorder {
  ps_context : S; ps_pending : tlv_tree_event_t; ps_open : Z; ps_available : bool; ps_done : bool }.
Arguments mk_preorder {S}.
Arguments ps_context {S}.
Arguments ps_pending {S}.
Arguments ps_open {S}.
Arguments ps_available {S}.
Arguments ps_done {S}.

(** The first part of [preorder_event]: fetch a node unless one is pending or the source is done. *)
Definition preorder_fetch {S} (next : tlv_tree_writer_next_fn S) (s : preorder_source_t S)
  : tlv_result_t * preorder_source_t S :=
  if negb s.(ps_available) && negb s.(ps_done) then
    let p := s.(ps_pending) in
    let '(rc, context, element, depth, constructed) :=
      next s.(ps_context) p.(ev_element) p.(ev_depth) in
    let rc := tlv_callback_result rc true in
    let read kind := mk_event kind element p.(ev_source) depth p.(ev_offset) p.(ev_skipped) in
    if rc_eqb rc TLV_END then
      (TLV_OK, mk_preorder context (read p.(ev_kind)) s.(ps_open) s.(ps_available) true)
    else if negb (is_ok rc) then
      (rc, mk_preorder context (read p.(ev_kind)) s.(ps_open) s.(ps_available) s.(ps_done))
    else if s.(ps_open) <? depth then
      (TLV_ERR_CALLBACK, mk_preorder context (read p.(ev_kind)) s.(ps_open) s.(ps_available) s.(ps_done))
    else
      (TLV_OK, mk_preorder context (read (if constructed then TLV_TREE_BEGIN else TLV_TREE_ELEMENT))
                 s.(ps_open) true s.(ps_done))
  else (TLV_OK, s).

Definition preorder_event {S} (next : tlv_tree_writer_next_fn S)
  : tlv_tree_event_next_fn (preorder_source_t S) :=
  fun s event =>
    let '(rc, s) := preorder_fetch next s in
    if negb (is_ok rc) then (rc, s, event)
    else if negb (s.(ps_open) =? 0) && (s.(ps_done) || (s.(ps_pending).(ev_depth) <? s.(ps_open))) then
      (TLV_OK,
       mk_preorder s.(ps_context) s.(ps_pending) (s.(ps_open) - 1) s.(ps_available) s.(ps_done),
       mk_event TLV_TREE_END empty_element no_source (s.(ps_open) - 1) 0 false)
    else if s.(ps_done) then (TLV_END, s, event)
    else
      (TLV_OK,
       mk_preorder s.(ps_context) s.(ps_pending)
         (match s.(ps_pending).(ev_kind) with TLV_TREE_BEGIN => s.(ps_open) + 1 | _ => s.(ps_open) end)
         false s.(ps_done),
       s.(ps_pending)).

Section Measure.
Context `{Platform} {S C : Type} (format : tlv_format_t) (next : tlv_tree_event_next_fn S)
  (max_depth max_elements : Z) (charge : option (tree_writer_charge_fn C)).

(** The budget charges of one event: one unit, then the event's value octets three times. *)
Definition charge_event (t : tlv_tree_writer_t) (event : tlv_tree_event_t) (c : C) : tlv_result_t * C :=
  match charge with
  | None => (TLV_OK, c)
  | Some charge =>
      let '(rc, c) := charge c 1 in
      if negb (is_ok rc) then (rc, c)
      else
        let is_element := bool_decide (event.(ev_kind) = TLV_TREE_ELEMENT) in
        if is_element && (SIZE_MAX <? event.(ev_element).(e_value).(v_size)) then (TLV_ERR_NATIVE_SIZE, c)
        else
          let bytes :=
            match event.(ev_kind) with
            | TLV_TREE_END =>
                usize (t.(tw_output).(w_pos) - (wframe_at t.(tw_frames) (t.(tw_depth) - 1)).(wf_start))
            | TLV_TREE_ELEMENT => event.(ev_element).(e_value).(v_size)
            | _ => 0
            end in
          let again (r : tlv_result_t * C) := let '(rc, c) := r in if is_ok rc then charge c bytes else (rc, c) in
          again (again (charge c bytes))
  end.

(** One event of the stream, staged. *)
Definition measure_event (m : mem) (t : tlv_tree_writer_t) (ws : tlv_tree_writer_workspace_t)
  (event : tlv_tree_event_t) (diagnostic : option tlv_writer_diagnostic_t)
  : tlv_result_t * mem * stage * option tlv_writer_diagnostic_t :=
  let pos := t.(tw_output).(w_pos) in
  let tag := event.(ev_element).(e_tag) in
  let write ws diagnostic :=
    let '(rc, m, writer, diagnostic) := tlv_tree_writer_write_event_diag m (Some t) (Some event) diagnostic in
    (rc, m, (cell t writer, ws), diagnostic) in
  match event.(ev_kind) with
  | TLV_TREE_END => measure_close m t ws diagnostic
  | TLV_TREE_ELEMENT =>
      if (max_depth <? t.(tw_depth)) || (max_elements <=? t.(tw_count)) then
        (TLV_ERR_LIMIT, m, (t, ws), tree_error diagnostic TLV_ERR_LIMIT TLV_WRITER_OP_VALUE pos (Some tag))
      else if negb (tag.(t_size) =? 0) && is_null tag.(t_data) then
        (TLV_ERR_NULL_ARG, m, (t, ws), tree_error diagnostic TLV_ERR_NULL_ARG TLV_WRITER_OP_VALUE pos None)
      else if is_constructed (Some format) m tag then
        (TLV_ERR_INVALID_TAG, m, (t, ws),
         tree_error diagnostic TLV_ERR_INVALID_TAG TLV_WRITER_OP_VALUE pos (Some tag))
      else
        let '(rc, ws, diagnostic) := measure_storage m t event.(ev_element) pos false ws diagnostic in
        if negb (is_ok rc) then (rc, m, (t, ws), diagnostic) else write ws diagnostic
  | _ => write ws diagnostic
  end.

(** The [for (;;)] loop, with fuel: the memory, the contexts, the staged writer and its workspace. *)
Fixpoint measure_loop (fuel : nat) (m : mem) (s : S) (c : C) (t : tlv_tree_writer_t)
  (ws : tlv_tree_writer_workspace_t) (diagnostic : option tlv_writer_diagnostic_t)
  : option (tlv_result_t * mem * S * C * stage * option tlv_writer_diagnostic_t) :=
  match fuel with
  | O => None
  | Datatypes.S fuel =>
      let '(rc, s, event) := next s no_event in
      let rc := tlv_callback_result rc true in
      let pos := t.(tw_output).(w_pos) in
      if rc_eqb rc TLV_END then Some (TLV_OK, m, s, c, (t, ws), diagnostic)
      else if negb (is_ok rc) then
        Some (rc, m, s, c, (t, ws), tree_error diagnostic rc TLV_WRITER_OP_VALUE pos None)
      else if event_malformed event t.(tw_depth) then
        Some (TLV_ERR_INVALID_VALUE, m, s, c, (t, ws),
              tree_error diagnostic TLV_ERR_INVALID_VALUE TLV_WRITER_OP_VALUE pos None)
      else
        let '(rc, c) := charge_event t event c in
        if negb (is_ok rc) then Some (rc, m, s, c, (t, ws), diagnostic)
        else
          let '(rc, m, (t, ws), diagnostic) := measure_event m t ws event diagnostic in
          if negb (is_ok rc) then Some (rc, m, s, c, (t, ws), diagnostic)
          else measure_loop fuel m s c t ws diagnostic
  end.
End Measure.

(** The staging writer starts as an uninitialized local. *)
Definition no_tree_writer : tlv_tree_writer_t :=
  mk_tree_writer (mk_writer None NULL 0 0) None 0 0 0 0 0 NULL 0 NULL 0 0.

(** Out-parameters: the memory, both contexts, the workspace, the size and the diagnostic. *)
Definition measure_result (S C : Type) : Type :=
  tlv_result_t * mem * S * C * option tlv_tree_writer_workspace_t * option Z *
  option tlv_writer_diagnostic_t.

Definition tree_writer_measure_events_observed `{Platform} {S C : Type} (fuel : nat) (m : mem)
  (format : option tlv_format_t) (next : option (tlv_tree_event_next_fn S)) (context : S)
  (workspace : option tlv_tree_writer_workspace_t) (max_depth max_elements : Z) (size : option Z)
  (diagnostic : option tlv_writer_diagnostic_t) (charge : option (tree_writer_charge_fn C))
  (charge_context : C) : option (measure_result S C) :=
  let workspace := match workspace with Some ws => Some (with_required 0 0 ws) | None => None end in
  match next, workspace, size with
  | Some next, Some ws, Some _ =>
      let '(rc, writer) :=
        tlv_tree_writer_init (Some no_tree_writer) ws.(ws_data) ws.(ws_data_capacity) format
          ws.(ws_frames) ws.(ws_frame_capacity) ws.(ws_scratch) ws.(ws_scratch_capacity) max_depth
          max_elements in
      match format with
      | Some f =>
          if negb (is_ok rc) then Some (rc, m, context, charge_context, workspace, size, diagnostic)
          else
            match measure_loop f next max_depth max_elements charge fuel m context charge_context
                    (cell no_tree_writer writer) ws diagnostic with
            | None => None
            | Some (rc, m, s, c, (t, ws), diagnostic) =>
                if negb (is_ok rc) then Some (rc, m, s, c, Some ws, size, diagnostic)
                else if negb (t.(tw_depth) =? 0) then
                  Some (TLV_ERR_INVALID_VALUE, m, s, c, Some ws, size,
                        tree_error diagnostic TLV_ERR_INVALID_VALUE TLV_WRITER_OP_END
                          t.(tw_output).(w_pos) None)
                else Some (TLV_OK, m, s, c, Some ws, Some (tlv_tree_writer_size (Some t)), diagnostic)
            end
      | None => Some (rc, m, context, charge_context, workspace, size, diagnostic)
      end
  | _, _, _ =>
      Some (TLV_ERR_NULL_ARG, m, context, charge_context, workspace, size,
            tree_error diagnostic TLV_ERR_NULL_ARG TLV_WRITER_OP_VALUE 0 None)
  end.

Definition tlv_tree_writer_measure_events `{Platform} {S : Type} (fuel : nat) (m : mem)
  (format : option tlv_format_t) (next : option (tlv_tree_event_next_fn S)) (context : S)
  (workspace : option tlv_tree_writer_workspace_t) (max_depth max_elements : Z) (size : option Z)
  (diagnostic : option tlv_writer_diagnostic_t) : option (measure_result S unit) :=
  tree_writer_measure_events_observed fuel m format next context workspace max_depth max_elements size
    diagnostic (None : option (tree_writer_charge_fn unit)) tt.

Definition tlv_tree_writer_measure `{Platform} {S : Type} (fuel : nat) (m : mem)
  (format : option tlv_format_t) (next : option (tlv_tree_writer_next_fn S)) (context : S)
  (workspace : option tlv_tree_writer_workspace_t) (max_depth max_elements : Z) (size : option Z)
  (diagnostic : option tlv_writer_diagnostic_t) : option (measure_result (preorder_source_t S) unit) :=
  tlv_tree_writer_measure_events fuel m format
    (match next with Some next => Some (preorder_event next) | None => None end)
    (mk_preorder context no_event 0 false false) workspace max_depth max_elements size diagnostic.

(** ** Termination *)

(** Every accepted event uses up some of this: an opened element costs one count and gives back a
    depth, which closing takes. *)
Definition stage_budget (t : tlv_tree_writer_t) : Z :=
  2 * (t.(tw_max_elements) - t.(tw_count)) + t.(tw_depth).

Definition stage_bounded (t : tlv_tree_writer_t) : Prop :=
  0 <= t.(tw_depth) /\ t.(tw_count) <= t.(tw_max_elements).

Definition stage_progress (t t' : tlv_tree_writer_t) : Prop :=
  stage_bounded t' /\ stage_budget t' < stage_budget t.

Lemma progress_push t tag used :
  stage_bounded t -> t.(tw_count) < t.(tw_max_elements) -> stage_progress t (push_frame t tag used).
Proof. unfold stage_progress, stage_bounded, stage_budget. cbn. lia. Qed.

Lemma begin_progress `{Platform} m t tag dg rc m' t' dg' :
  stage_bounded t -> tlv_tree_writer_begin_diag m (Some t) tag dg = (rc, m', t', dg') -> is_ok rc = true ->
  stage_progress t (cell t t').
Proof.
  intros Hb E Hok. unfold tlv_tree_writer_begin_diag in E. revert E.
  destruct (negb (t_size tag =? 0) && is_null (t_data tag)); [intros [= <- _ _ _]; done|].
  destruct ((tw_max_depth t <? tw_depth t) || (tw_max_elements t <=? tw_count t)) eqn:El; [intros [= <- _ _ _]; done|].
  apply orb_false_iff in El as [_ El]. apply Z.leb_gt in El.
  destruct (tw_capacity t <=? tw_depth t); [intros [= <- _ _ _]; done|].
  destruct (negb (output_constructed m t tag)); [intros [= <- _ _ _]; done|]. rewrite is_ok_OK. cbn [negb].
  destruct (_ && _).
  - destruct (usize _ <? _); [intros [= <- _ _ _]; done|]. intros [= _ _ <- _]. now apply progress_push.
  - intros [= _ _ <- _]. now apply progress_push.
Qed.

Lemma element_progress `{Platform} m t e dg rc m' t' dg' :
  stage_bounded t -> tlv_tree_writer_write_element_diag m (Some t) (Some e) dg = (rc, m', t', dg') ->
  is_ok rc = true -> stage_progress t (cell t t').
Proof.
  intros Hb E Hok. unfold tlv_tree_writer_write_element_diag in E. revert E.
  destruct (_ || _) eqn:El; [intros [= <- _ _ _]; done|]. apply orb_false_iff in El as [_ El]. apply Z.leb_gt in El.
  destruct (tlv_writer_write_element_diag _ _ _ _) as [[[rc1 m1] out] dg1].
  intros [= -> _ <- _]. rewrite Hok. cbn. unfold stage_progress, stage_bounded, stage_budget in *. cbn. lia.
Qed.

Lemma end_progress `{Platform} m t dg rc m' t' dg' :
  stage_bounded t -> tlv_tree_writer_end_diag m (Some t) dg = (rc, m', t', dg') -> is_ok rc = true ->
  stage_progress t (cell t t').
Proof.
  intros Hb E Hok. unfold tlv_tree_writer_end_diag in E. revert E.
  destruct (Z.eqb_spec (tw_depth t) 0) as [Hz|Hz]; [intros [= <- _ _ _]; done|].
  destruct (_ <? _); [intros [= <- _ _ _]; done|].
  match goal with |- context [tlv_writer_write_element_diag ?x ?y ?z ?u] =>
    destruct (tlv_writer_write_element_diag x y z u) as [[[rc1 m1] out] dg1] end.
  destruct (is_ok rc1) eqn:E1; cbn [negb]; [|intros [= -> _ _ _]; congruence].
  intros [= _ _ <- _]. unfold stage_progress, stage_bounded, stage_budget in *. cbn. lia.
Qed.

Lemma event_progress `{Platform} m t ev dg rc m' t' dg' :
  stage_bounded t -> tlv_tree_writer_write_event_diag m (Some t) (Some ev) dg = (rc, m', t', dg') ->
  is_ok rc = true -> stage_progress t (cell t t').
Proof.
  intros Hb E Hok. unfold tlv_tree_writer_write_event_diag in E. revert E.
  destruct (event_malformed ev (tw_depth t)); [intros [= <- _ _ _]; done|].
  destruct (ev_kind ev); intros E.
  1: exact (begin_progress _ _ _ _ _ _ _ _ Hb E Hok).
  2: exact (end_progress _ _ _ _ _ _ _ Hb E Hok).
  all: revert E; destruct (_ && _); [intros [= <- _ _ _]; done|];
    destruct (output_constructed _ _ _); [intros [= <- _ _ _]; done|]; intros E;
    exact (element_progress _ _ _ _ _ _ _ _ Hb E Hok).
Qed.

Lemma measure_event_progress `{Platform} format max_depth max_elements m t ws ev dg rc m' t' ws' dg' :
  stage_bounded t -> measure_event format max_depth max_elements m t ws ev dg = (rc, m', (t', ws'), dg') ->
  is_ok rc = true -> stage_progress t t'.
Proof.
  intros Hb E Hok. unfold measure_event in E. revert E.
  assert (forall ws0 dg0,
    (let '(rc, m, writer, diagnostic) := tlv_tree_writer_write_event_diag m (Some t) (Some ev) dg0 in
     (rc, m, (cell t writer, ws0), diagnostic)) = (rc, m', (t', ws'), dg') -> stage_progress t t') as Hwrite.
  { intros ws0 dg0. destruct (tlv_tree_writer_write_event_diag _ _ _ _) as [[[rc1 m1] wr] dg1] eqn:Ee.
    intros [= -> _ <- _ _]. exact (event_progress _ _ _ _ _ _ _ _ Hb Ee Hok). }
  destruct (ev_kind ev); cbv zeta; try apply Hwrite.
  - destruct (_ || _); [intros [= <- _ _ _ _]; done|]. destruct (_ && _); [intros [= <- _ _ _ _]; done|].
    destruct (is_constructed _ _ _); [intros [= <- _ _ _ _]; done|].
    destruct (measure_storage _ _ _ _ _ _ _) as [[rc1 ws1] dg1].
    destruct (is_ok rc1) eqn:E1; cbn [negb]; [apply Hwrite|intros [= -> _ _ _ _]; congruence].
  - unfold measure_close. destruct (measure_storage _ _ _ _ _ _ _) as [[rc1 ws1] dg1].
    destruct (is_ok rc1) eqn:E1; [|intros [= -> _ _ _ _]; congruence].
    destruct (tlv_tree_writer_end_diag _ _ _) as [[[rc2 m2] wr] dg2] eqn:Ee.
    intros [= -> _ <- _ _]. exact (end_progress _ _ _ _ _ _ _ Hb Ee Hok).
Qed.

Lemma measure_loop_returns `{Platform} {S C : Type} format (next : tlv_tree_event_next_fn S) max_depth max_elements
  (charge : option (tree_writer_charge_fn C)) fuel : forall m s c t ws dg,
  stage_bounded t -> stage_budget t < Z.of_nat fuel ->
  exists r, measure_loop format next max_depth max_elements charge fuel m s c t ws dg = Some r.
Proof.
  induction fuel as [|fuel IH]; intros m s c t ws dg Hb Hf; cbn [measure_loop].
  { unfold stage_budget, stage_bounded in *. lia. }
  destruct (next s no_event) as [[rc0 s1] ev]. destruct (rc_eqb _ _); [eexists; reflexivity|].
  destruct (negb _); [eexists; reflexivity|]. destruct (event_malformed _ _); [eexists; reflexivity|].
  destruct (charge_event _ _ _ _) as [rc1 c1]. destruct (negb _); [eexists; reflexivity|].
  destruct (measure_event _ _ _ _ _ _ _ _) as [[[rc2 m2] [t2 ws2]] dg2] eqn:E.
  destruct (is_ok rc2) eqn:E2; cbn [negb]; [|eexists; reflexivity].
  destruct (measure_event_progress _ _ _ _ _ _ _ _ _ _ _ _ _ Hb E E2) as [Hb2 Hlt]. apply IH; [done|lia].
Qed.

(** Measuring terminates for every producer, observer, format and workspace: even an endless producer
    is stopped by the element limit.  Two rounds per element of the limit and one more are enough. *)
Theorem measure_terminates `{Platform} {S C : Type} (fuel : nat) (m : mem) (format : option tlv_format_t)
  (next : option (tlv_tree_event_next_fn S)) (context : S) (workspace : option tlv_tree_writer_workspace_t)
  (max_depth max_elements : Z) (size : option Z) (dg : option tlv_writer_diagnostic_t)
  (charge : option (tree_writer_charge_fn C)) (charge_context : C)
  (Hmax : 0 <= max_elements) (Hfuel : 2 * max_elements < Z.of_nat fuel) :
  exists r, tree_writer_measure_events_observed fuel m format next context workspace max_depth max_elements size dg
    charge charge_context = Some r.
Proof.
  unfold tree_writer_measure_events_observed.
  destruct next as [next|]; [|eexists; reflexivity]. destruct workspace as [ws|]; [|eexists; reflexivity].
  destruct size as [size|]; [|eexists; reflexivity].
  destruct (tlv_tree_writer_init _ _ _ _ _ _ _ _ _ _) as [rc t] eqn:Einit.
  destruct format as [f|]; [|eexists; reflexivity]. destruct (is_ok rc) eqn:Erc; cbn [negb]; [|eexists; reflexivity].
  assert (stage_bounded (cell no_tree_writer t) /\ stage_budget (cell no_tree_writer t) = 2 * max_elements) as [Hb Hs].
  { unfold tlv_tree_writer_init in Einit. destruct (_ || _); [injection Einit as <- _; done|].
    destruct (tlv_writer_init _ _ _ _) as [rc1 out]. destruct (negb (is_ok rc1)) eqn:E1; [injection Einit as -> _; now rewrite Erc in E1|].
    injection Einit as _ <-. unfold stage_bounded, stage_budget. cbn. lia. }
  edestruct (measure_loop_returns f next max_depth max_elements charge fuel m context charge_context
    (cell no_tree_writer t)) as [[[[[[rc1 m1] s1] c1] [t1 ws1]] dg1] Hr]; [done|lia|].
  rewrite Hr. destruct (negb (is_ok rc1)); [eexists; reflexivity|]. destruct (negb _); eexists; reflexivity.
Qed.

(** An endless chain of nested nodes, and a format that calls every tag constructed. *)
Definition endless : tlv_tree_event_next_fn Z := fun depth event =>
  (TLV_OK, depth + 1, mk_event TLV_TREE_BEGIN empty_element no_source depth 0 false).
Definition endless_format : tlv_format_t :=
  mk_format (Ptr 100 0) None (Some (fun m element size err => (TLV_OK, size, err)))
    (Some (fun m element data capacity written err => (TLV_OK, m, written, err))) (Some (fun m tag => true)).
Definition endless_workspace : tlv_tree_writer_workspace_t :=
  mk_workspace (Some (repeat no_wframe 8)) 8 NULL 0 NULL 0 0 0.

Lemma measure_terminates_witness :
  exists r, @tree_writer_measure_events_observed LP64 Z unit 7 (mem_of 1 []) (Some endless_format) (Some endless) 0
      (Some endless_workspace) 8 3 (Some 0) None None tt = Some r /\
    fst (fst (fst (fst (fst (fst r))))) = TLV_ERR_LIMIT.
Proof.
  destruct (measure_terminates (H := LP64) 7 (mem_of 1 []) (Some endless_format) (Some endless) 0
    (Some endless_workspace) 8 3 (Some 0) None (None : option (tree_writer_charge_fn unit)) tt
    ltac:(lia) ltac:(lia)) as [r Hr].
  exists r. split; [exact Hr|].
  apply (f_equal (option_map (fun r => fst (fst (fst (fst (fst (fst r)))))))) in Hr. vm_compute in Hr.
  destruct r as [[[[[[rc ?] ?] ?] ?] ?] ?]. cbn. congruence.
Defined.
