(* ===== verification/TreeWriterLaws.v ===== *)
(** * Writing trees

    The tree Writer against the reference semantics of [TreeLaws]: the events of a forest produce the
    forest's octets, failures restore the output, and measuring terminates for every producer. *)

From S2P Require Import Prelude Mem Core Endian Format WireFormat FieldFixed Compose Formats Reader TreeReader TreeLaws Writer TreeWriter TreeMeasure.

(** ** Separation *)

(** Memory differs at most in two ranges: the output and the scratch buffer. *)
Definition only2 (m m' : mem) (p : ptr) (n : Z) (q : ptr) (k : Z) : Prop :=
  forall b o, inside p n b o = false -> inside q k b o = false -> m' b o = m b o.

Lemma only2_refl m p n q k : only2 m m p n q k.
Proof. done. Qed.

Lemma only2_trans m1 m2 m3 p n q k : only2 m1 m2 p n q k -> only2 m2 m3 p n q k -> only2 m1 m3 p n q k.
Proof. intros H1 H2 b o Hp Hq. rewrite H2, H1 by done. done. Qed.

Lemma only2_left m m' p n q k i j :
  0 <= i -> i + j <= n -> only_changes m m' (p +p i) j -> only2 m m' p n q k.
Proof. intros Hi Hj Ho b o Hp _. apply (only_sub m m' p n i j Hi Hj Ho), Hp. Qed.

Lemma only2_right m m' p n q k j : j <= k -> only_changes m m' q j -> only2 m m' p n q k.
Proof. intros Hj Ho b o _ Hq. apply (only_prefix m m' q k j Hj Ho), Hq. Qed.

Lemma only2_sub m m' p n q k i j :
  0 <= i -> i + j <= n -> only2 m m' (p +p i) j q k -> only2 m m' p n q k.
Proof. intros Hi Hj Ho b o Hp Hq. apply Ho; [|done]. destruct p; cbn in *; [done|lia]. Qed.

Lemma only2_same m m' p n q k r j :
  only2 m m' p n q k -> disjoint_range p n r j -> disjoint_range q k r j -> same_bytes m' m r j.
Proof.
  intros Ho H1 H2 i Hi. unfold ld. destruct r as [|b o]; [done|]. f_equal.
  apply Ho; [destruct p|destruct q]; cbn in *; done || lia.
Qed.

Definition apart2 (e : tlv_element_t) (p : ptr) (n : Z) (q : ptr) (k : Z) : Prop :=
  element_apart e p n /\ element_apart e q k.

Lemma element_octets_only2 m m' p n q k e :
  apart2 e p n q k -> only2 m m' p n q k -> element_octets m' e = element_octets m e.
Proof.
  intros [[H1 H2] [H3 H4]] Ho. unfold element_octets, tag_bytes, value_bytes.
  f_equal; apply same_bytes_of; eapply only2_same; eassumption.
Qed.

(** ** The invariant of a tree writer *)

Definition wactive (t : tlv_tree_writer_t) : list tlv_tree_writer_frame_t :=
  rev (take (Z.to_nat t.(tw_depth)) (default [] t.(tw_frames))).

(** The starts of the open scopes, innermost first, are below one another. *)
Fixpoint starts_below (pos : Z) (frames : list tlv_tree_writer_frame_t) : Prop :=
  match frames with
  | [] => True
  | f :: frames => 0 <= f.(wf_start) <= pos /\ starts_below f.(wf_start) frames
  end.

Record tw_ok `{Platform} (t : tlv_tree_writer_t) : Prop := {
  tw_out : writer_ok t.(tw_output);
  tw_stack : zlen (default [] t.(tw_frames)) = t.(tw_capacity);
  tw_deep : 0 <= t.(tw_depth) <= t.(tw_capacity);
  tw_counted : t.(tw_count) <= t.(tw_max_elements);
  tw_scratch_ok : 0 <= t.(tw_scratch_capacity) <= SIZE_MAX /\ (t.(tw_scratch) = NULL -> t.(tw_scratch_capacity) = 0);
  tw_starts : starts_below t.(tw_output).(w_pos) (wactive t) }.

Lemma starts_weaken pos pos' fs : starts_below pos fs -> pos <= pos' -> starts_below pos' fs.
Proof. destruct fs; [done|]. cbn. intros [? ?] ?. split; [lia|done]. Qed.

Lemma wactive_push frames n x :
  0 <= n < zlen (default [] frames) ->
  rev (take (Z.to_nat (n + 1)) (default [] (set_wframe frames n x))) =
  x :: rev (take (Z.to_nat n) (default [] frames)).
Proof.
  intros Hn. destruct frames as [l|]; cbn in *; [|simpl in Hn; lia].
  replace (Z.to_nat (n + 1)) with (S (Z.to_nat n)) by lia.
  rewrite (take_S_r _ _ x), take_insert_ge by (done || apply list_lookup_insert_eq; lia).
  now rewrite rev_unit.
Qed.

Lemma wactive_top t fr fs :
  0 <= t.(tw_depth) <= zlen (default [] t.(tw_frames)) -> t.(tw_depth) <> 0 -> wactive t = fr :: fs ->
  wframe_at t.(tw_frames) (t.(tw_depth) - 1) = fr /\
  rev (take (Z.to_nat (t.(tw_depth) - 1)) (default [] t.(tw_frames))) = fs.
Proof.
  intros Hd Hz. unfold wactive, wframe_at. destruct (tw_frames t) as [l|] eqn:Ef; cbn in *; [|simpl in Hd; lia].
  replace (Z.to_nat (tw_depth t)) with (S (Z.to_nat (tw_depth t - 1))) by lia.
  destruct (nth_lookup_or_length l (Z.to_nat (tw_depth t - 1)) no_wframe) as [E|E]; [|lia].
  rewrite (take_S_r _ _ _ E), rev_unit. now intros [= -> ->].
Qed.

Lemma zlen_set_wframe frames n x : zlen (default [] (set_wframe frames n x)) = zlen (default [] frames).
Proof. destruct frames; [|done]. cbn. now rewrite length_insert. Qed.

(** ** Failure of [end] *)

(** A callback writes only into the destination it is given. *)
Definition encode_confined (encode : tlv_encode_fn) : Prop :=
  forall m e data capacity w0 e0 rc m' w err,
    encode m e data capacity w0 e0 = (rc, m', w, err) -> only_changes m m' data capacity.

Lemma format_encode_confined `{Platform} f m e data capacity w0 e0 rc m' w err :
  (forall encode, f.(f_encode) = Some encode -> encode_confined encode) ->
  tlv_format_encode (Some f) m (Some e) data capacity (Some w0) e0 = (rc, m', w, err) ->
  only_changes m m' data capacity.
Proof.
  intros Hc E. unfold tlv_format_encode in E.
  destruct (_ || _); [injection E as _ <- _ _; apply only_refl|].
  destruct (tlv_format_measure _ _ _ _ _) as [[rc0 sz] er0]. destruct (negb (is_ok rc0)); [injection E as _ <- _ _; apply only_refl|].
  destruct (tlv_size_to_native _ _) as [rc1 tot]. destruct (negb (is_ok rc1)); [injection E as _ <- _ _; apply only_refl|].
  destruct (_ <? _); [injection E as _ <- _ _; apply only_refl|].
  destruct f as [self dec me en ic]. cbn in *. destruct en as [encode|]; [|injection E as _ <- _ _; apply only_refl].
  destruct (encode m e data capacity 0 no_error) as [[[rc2 m2] used] detail] eqn:Ee.
  apply (Hc encode eq_refl) in Ee.
  match type of E with (if ?b then _ else _) = _ => destruct b end; injection E as _ <- _ _; exact Ee.
Qed.

Lemma writer_write_confined `{Platform} m w f e dg rc m' w' dg' :
  writer_ok w -> w.(w_format) = Some f ->
  (forall encode, f.(f_encode) = Some encode -> encode_confined encode) ->
  tlv_writer_write_element_diag m (Some w) (Some e) dg = (rc, m', w', dg') ->
  only_changes m m' (writer_at w) (w.(w_capacity) - w.(w_pos)).
Proof.
  intros Hw Hf Hc E. unfold tlv_writer_write_element_diag in E.
  rewrite (writer_destination_ok w _ dg Hw), is_ok_OK in E. cbn [negb] in E.
  unfold tlv_write_element_diag in E. rewrite Hf in E.
  destruct (tlv_format_encode _ _ _ _ _ _ _) as [[[rc1 m1] wr] err] eqn:Ee.
  apply format_encode_confined in Ee; [|exact Hc].
  destruct (writer_finish _ _ _ _) as [[rc2 w2] dg2]. injection E as _ <- _ _. exact Ee.
Qed.

Lemma at_position_ok `{Platform} pos w : writer_ok w -> 0 <= pos <= w.(w_pos) -> writer_ok (at_position pos w).
Proof. intros [Hp Hc Hb Hf] Hpos. split; cbn; done || lia. Qed.

(** The shape of [end] on an open scope whose value fits the scratch buffer. *)
Lemma end_unfold `{Platform} m t fr fs dg :
  tw_ok t -> wactive t = fr :: fs -> t.(tw_depth) <> 0 ->
  let length := t.(tw_output).(w_pos) - fr.(wf_start) in
  let value := t.(tw_output).(w_buf) +p fr.(wf_start) in
  length <= t.(tw_scratch_capacity) ->
  tlv_tree_writer_end_diag m (Some t) dg =
    let m1 := if negb (length =? 0) then memcpy m t.(tw_scratch) value length else m in
    let '(rc, m2, output, dg) :=
      tlv_writer_write_element_diag m1 (Some (at_position fr.(wf_start) t.(tw_output)))
        (Some (mk_element fr.(wf_tag) (mk_value t.(tw_scratch) length))) dg in
    if negb (is_ok rc) then
      (rc, (if negb (length =? 0) then memcpy m2 value t.(tw_scratch) length else m2), Some t, dg)
    else
      (TLV_OK, m2,
       Some (pop_frame t (cell t.(tw_output) output)
         (if negb (is_null t.(tw_tags)) && negb (is_null fr.(wf_tag).(t_data))
          then usize (t.(tw_tags_used) - (if negb (fr.(wf_tag).(t_size) =? 0) then fr.(wf_tag).(t_size) else 1))
          else t.(tw_tags_used))), dg).
Proof.
  intros [Hout Hst Hd _ [Hsc _] Hs] Ha Hz length value Hfit. unfold tlv_tree_writer_end_diag.
  destruct (wactive_top t fr fs ltac:(lia) Hz Ha) as [Efr _]. rewrite Ha in Hs. destruct Hs as [Hs _].
  destruct Hout as [Hp Hc _ _]. rewrite (proj2 (Z.eqb_neq (tw_depth t) 0)) by lia. rewrite Efr.
  rewrite usize_small by lia. fold length value. rewrite (proj2 (Z.ltb_ge _ _)) by lia. done.
Qed.

Lemma disjoint_prefix p n q k i j :
  0 <= i -> i + j <= n -> disjoint_range p n q k -> disjoint_range q k (p +p i) j.
Proof. destruct p, q; cbn; try done. lia. Qed.

(** Saving a value, losing it, and restoring it. *)
Lemma restored_bytes m m2 buf start len cap scratch :
  let value := buf +p start in
  let m1 := if negb (len =? 0) then memcpy m scratch value len else m in
  let m3 := if negb (len =? 0) then memcpy m2 value scratch len else m2 in
  0 <= start -> 0 <= len -> start + len <= cap -> (buf = NULL -> cap = 0) -> (scratch = NULL -> len = 0) ->
  disjoint_range buf cap scratch len -> only_changes m1 m2 value (cap - start) ->
  bytes_of m3 buf (start + len) = bytes_of m buf (start + len) /\ only2 m m3 buf cap scratch len.
Proof.
  intros value m1 m3 Hst Hlen Hcap Hbuf Hsn Hsep Ew.
  assert (only_changes m m1 scratch len) as Ho1 by (unfold m1; destruct (negb _); [apply memmove_only|apply only_refl]).
  assert (only_changes m2 m3 value len) as Ho3 by (unfold m3; destruct (negb _); [apply memmove_only|apply only_refl]).
  assert (only_changes m2 m3 value (cap - start)) as Ho3' by (apply (only_prefix _ _ _ _ len); [lia|done]).
  pose proof (only_trans _ _ _ _ _ Ew Ho3') as Ho13. split.
  2: { apply (only2_trans m m1 m3); [apply (only2_right _ _ _ _ _ _ len); [lia|done]|].
       apply (only2_left _ _ _ _ _ _ start (cap - start)); [lia|lia|exact Ho13]. }
  rewrite !bytes_of_app by lia. f_equal.
  - apply same_bytes_of. intros i Hi. transitivity (ld m1 buf i).
    + apply (only_same m1 m3 value (cap - start) buf start Ho13); [|lia].
      unfold value. destruct buf; cbn; [done|lia].
    + apply (only_same m m1 scratch len buf start Ho1); [|lia]. destruct buf, scratch; cbn in *; done || lia.
  - fold value. unfold m3. destruct (negb (len =? 0)) eqn:El; [|rewrite !bytes_of_0 by lia; done].
    assert (is_null value = false) as Hv by (unfold value; rewrite is_null_padd; destruct buf; [rewrite Hbuf in * by done; lia|done]).
    assert (is_null scratch = false) as Hn by (destruct scratch; [rewrite Hsn in * by done; lia|done]).
    unfold memcpy. rewrite bytes_of_memmove by done.
    transitivity (bytes_of m1 scratch len); [|unfold m1, memcpy; now rewrite bytes_of_memmove].
    apply same_bytes_of, (only_same m1 m2 _ _ _ _ Ew). unfold value.
    destruct buf, scratch; cbn in *; done || lia.
Qed.

(** C19. A failed [end] changes nothing: the writer is the same, so are all octets written so far, although
    a failing encoder may have overwritten the value it was given the place of; memory changes at most
    in the output and scratch buffers. *)
Theorem tree_end_failure `{Platform} (m : mem) (t : tlv_tree_writer_t) (f : tlv_format_t)
  (dg : option tlv_writer_diagnostic_t) (Ht : tw_ok t) (Hf : t.(tw_output).(w_format) = Some f)
  (Hconf : forall encode, f.(f_encode) = Some encode -> encode_confined encode)
  (Hsep : disjoint_range t.(tw_output).(w_buf) t.(tw_output).(w_capacity) t.(tw_scratch) t.(tw_scratch_capacity)) :
  let '(rc, m', writer, dg') := tlv_tree_writer_end_diag m (Some t) dg in
  let buf := t.(tw_output).(w_buf) in
  rc <> TLV_OK -> writer = Some t /\
    bytes_of m' buf t.(tw_output).(w_pos) = bytes_of m buf t.(tw_output).(w_pos) /\
    only2 m m' buf t.(tw_output).(w_capacity) t.(tw_scratch) t.(tw_scratch_capacity).
Proof.
  destruct (Z.eq_dec t.(tw_depth) 0) as [Hz|Hz].
  { unfold tlv_tree_writer_end_diag. rewrite (proj2 (Z.eqb_eq _ _) Hz). cbv beta iota zeta. intros _. split; [done|]. split; [done|]. apply only2_refl. }
  pose proof Ht as [Hout Hst Hd _ [Hsc Hscn] Hs]. pose proof Hout as [Hp Hc Hbuf _].
  destruct (wactive t) as [|fr fs] eqn:Ha.
  { apply (f_equal length) in Ha. unfold wactive in Ha. rewrite length_rev, length_take in Ha. cbn in Ha. lia. }
  destruct (wactive_top t fr fs ltac:(lia) Hz Ha) as [Efr _]. destruct Hs as [Hs _].
  set (len := w_pos (tw_output t) - wf_start fr).
  destruct (Z.lt_ge_cases (tw_scratch_capacity t) len) as [Hbig|Hfit].
  { unfold tlv_tree_writer_end_diag. rewrite (proj2 (Z.eqb_neq (tw_depth t) 0)), Efr by lia.
    rewrite usize_small by lia. fold len. rewrite (proj2 (Z.ltb_lt _ _)) by lia.
    cbv beta iota zeta. intros _. split; [done|]. split; [done|]. apply only2_refl. }
  rewrite (end_unfold m t fr fs dg Ht Ha Hz Hfit). cbv zeta. fold len.
  set (buf := w_buf (tw_output t)) in *. set (value := buf +p wf_start fr).
  set (m1 := if negb (len =? 0) then memcpy m (tw_scratch t) value len else m).
  match goal with |- context [tlv_writer_write_element_diag m1 ?w ?e dg] =>
    destruct (tlv_writer_write_element_diag m1 w e dg) as [[[rc m2] out] dg2] eqn:Ew end.
  apply (writer_write_confined m1 _ f) in Ew; [|apply at_position_ok; [done|lia]|exact Hf|exact Hconf].
  unfold writer_at in Ew. cbn [at_position w_buf w_pos w_capacity] in Ew. fold buf value in Ew.
  destruct (negb (is_ok rc)) eqn:Erc; [intros _|intros Hrc; destruct (Hrc eq_refl)]. split; [done|].
  replace (w_pos (tw_output t)) with (wf_start fr + len) by lia.
  destruct (restored_bytes m m2 buf (wf_start fr) len (w_capacity (tw_output t)) (tw_scratch t)) as [Hb Ho];
    try done; try lia.
  - intros Hn. specialize (Hscn Hn). lia.
  - destruct buf, (tw_scratch t); cbn in *; done || lia.
  - split; [exact Hb|]. intros b o H1 H2. apply Ho; [exact H1|].
    destruct (tw_scratch t); cbn in *; [done|lia].
Qed.

(** An encoder that overwrites its whole destination and then fails. *)
Definition clobber_encode : tlv_encode_fn := fun m e data capacity written err =>
  (TLV_ERR_INVALID_VALUE, memset m data 255 capacity, written, err).
Definition clobber_format : tlv_format_t :=
  mk_format (Ptr 100 0) None (Some rest_measure) (Some clobber_encode) (Some (fun _ _ => true)).
Definition clobber_writer : tlv_tree_writer_t :=
  mk_tree_writer (mk_writer (Some clobber_format) (Ptr 2 0) 8 3) (Some [mk_wframe (tlv_tag (Ptr 1 0) 1) 1])
    1 1 1 5 1 (Ptr 3 0) 4 NULL 0 0.

Lemma tree_end_failure_witness :
  let m := put_bytes (mem_of 1 [90]) 2 [7; 8; 9] in
  let '(rc, m', writer, _) := @tlv_tree_writer_end_diag LP64 m (Some clobber_writer) None in
  rc = TLV_ERR_INVALID_VALUE /\ writer = Some clobber_writer /\ bytes_of m' (Ptr 2 0) 3 = [7; 8; 9].
Proof.
  intros m.
  assert (tw_ok (H := LP64) clobber_writer) as Ht by (split; cbn; try done; lia).
  assert (forall encode, f_encode clobber_format = Some encode -> encode_confined encode) as Hc.
  { intros encode [= <-] m0 e data capacity w0 e0 rc m' w err [= _ <- _ _]. apply set_range_only. }
  pose proof (tree_end_failure (H := LP64) m clobber_writer clobber_format None Ht eq_refl Hc
    ltac:(left; discriminate)) as Hend.
  destruct (@tlv_tree_writer_end_diag LP64 m (Some clobber_writer) None) as [[[rc m'] writer] dg] eqn:E.
  assert (rc = TLV_ERR_INVALID_VALUE) as -> by (apply (f_equal (fun x => fst (fst (fst x)))) in E; exact (eq_sym E)).
  destruct (Hend ltac:(discriminate)) as (-> & Hb & _). split; [reflexivity|]. split; [reflexivity|].
  etransitivity; [exact Hb|]. vm_compute. reflexivity.
Defined.

(** ** Writing the events of a forest *)

(** A client's loop: events in order until the first failure. *)
Fixpoint tree_write_all `{Platform} (m : mem) (t : tlv_tree_writer_t) (es : list tlv_tree_event_t)
  : tlv_result_t * mem * tlv_tree_writer_t :=
  match es with
  | [] => (TLV_OK, m, t)
  | e :: es =>
      let '(rc, m, writer) := tlv_tree_writer_write_event m (Some t) (Some e) in
      if is_ok rc then tree_write_all m (cell t writer) es else (rc, m, cell t writer)
  end.

(** What the writer uses of an event: not the value of a BEGIN. *)
Definition outline (v : event_view) : event_view :=
  let '(kind, depth, tag, value) := v in
  (kind, depth, tag, match kind with TLV_TREE_BEGIN => [] | _ => value end).

Definition outlines (m : mem) (es : list tlv_tree_event_t) : list event_view :=
  map (fun e => outline (view m e)) es.

(** The levels of nested nodes: each needs a frame, an empty node too. *)
Fixpoint forest_levels (fo : forest) : Z :=
  match fo with
  | FNil => 0
  | FElement _ _ rest => Z.max 1 (forest_levels rest)
  | FNode _ children rest => Z.max (1 + forest_levels children) (forest_levels rest)
  end.

(** The largest value of a node: what the scratch buffer must hold. *)
Fixpoint forest_scratch `{Platform} (f : tlv_format_t) `{!CodecLaws f} (fo : forest) : Z :=
  match fo with
  | FNil => 0
  | FElement _ _ rest => forest_scratch f rest
  | FNode _ children rest =>
      Z.max (zlen (default [] (forest_wire f children)))
        (Z.max (forest_scratch f children) (forest_scratch f rest))
  end.

(** The output octets in use while the forest is written: a node's value is there before its element. *)
Fixpoint forest_room `{Platform} (f : tlv_format_t) `{!CodecLaws f} (fo : forest) : Z :=
  match fo with
  | FNil => 0
  | FElement tag value rest => zlen (default [] (cl_wire tag value)) + forest_room f rest
  | FNode tag children rest =>
      Z.max (forest_room f children)
        (zlen (default [] (cl_wire tag (default [] (forest_wire f children)))) + forest_room f rest)
  end.

Section Writing.
Context `{Platform} (f : tlv_format_t) `{!CodecLaws f} (p : list Z -> bool)
  (Hclass : forall m tag, tag_ok tag -> is_constructed (Some f) m tag = p (tag_bytes m tag))
  (buf : ptr) (capacity : Z) (scratch : ptr) (scratch_capacity : Z) (Hbuf : buf <> NULL)
  (Hsep : disjoint_range buf capacity scratch scratch_capacity).

(** An event the writer may borrow from: outside its buffers. *)
Definition event_ok (e : tlv_tree_event_t) : Prop :=
  e.(ev_skipped) = false /\ element_ok e.(ev_element) /\
  apart2 e.(ev_element) buf capacity scratch scratch_capacity.

(** The writer works on these buffers, without tag storage. *)
Record uses (t : tlv_tree_writer_t) : Prop := {
  us_ok : tw_ok t;
  us_format : t.(tw_output).(w_format) = Some f;
  us_buf : t.(tw_output).(w_buf) = buf;
  us_capacity : t.(tw_output).(w_capacity) = capacity;
  us_scratch : t.(tw_scratch) = scratch;
  us_scratch_capacity : t.(tw_scratch_capacity) = scratch_capacity;
  us_tags : t.(tw_tags) = NULL }.

(** The writer has added [n] octets and [k] elements to the innermost open scope. *)
Record wrote (t t' : tlv_tree_writer_t) (n k : Z) : Prop := {
  wr_uses : uses t';
  wr_pos : t'.(tw_output).(w_pos) = t.(tw_output).(w_pos) + n;
  wr_active : wactive t' = wactive t;
  wr_depth : t'.(tw_depth) = t.(tw_depth);
  wr_limits : t'.(tw_capacity) = t.(tw_capacity) /\ t'.(tw_max_depth) = t.(tw_max_depth) /\
              t'.(tw_max_elements) = t.(tw_max_elements);
  wr_count : t'.(tw_count) = t.(tw_count) + k }.

Lemma wrote_trans t t1 t2 n1 k1 n2 k2 : wrote t t1 n1 k1 -> wrote t1 t2 n2 k2 -> wrote t t2 (n1 + n2) (k1 + k2).
Proof using.
  intros [Hu1 Hp1 Ha1 Hd1 [? [? ?]] Hc1] [Hu2 Hp2 Ha2 Hd2 [? [? ?]] Hc2].
  split; try congruence; try lia; try done. 
Qed.

(** The memory after it. *)
Definition wrote_mem (m m' : mem) (t : tlv_tree_writer_t) (w : list Z) : Prop :=
  let pos := t.(tw_output).(w_pos) in
  only2 m m' (buf +p pos) (capacity - pos) scratch scratch_capacity /\
  bytes_of m' (buf +p pos) (zlen w) = w.

(** A primitive element. *)
Lemma write_leaf m t e value w :
  uses t -> event_ok e -> e.(ev_kind) = TLV_TREE_ELEMENT -> e.(ev_depth) = t.(tw_depth) ->
  value_bytes m e.(ev_element).(e_value) = value ->
  p (tag_bytes m e.(ev_element).(e_tag)) = false -> cl_wire (tag_bytes m e.(ev_element).(e_tag)) value = Some w ->
  t.(tw_output).(w_pos) + zlen w <= capacity -> t.(tw_depth) <= t.(tw_max_depth) ->
  t.(tw_count) < t.(tw_max_elements) ->
  exists m' t', tlv_tree_writer_write_event m (Some t) (Some e) = (TLV_OK, m', Some t') /\
    wrote t t' (zlen w) 1 /\ wrote_mem m m' t w.
Proof using Hclass Hbuf.
  intros Hu (Hsk & Hel & Hap1 & Hap2) Hk Hdp Hval Hp Hw Hfit Hmd Hcnt.
  destruct Hu as [Ht Hf Hb Hcap Hsc Hscc Htg]. pose proof Ht as [Hout Hst Hd Hcn Hscr Hs].
  unfold tlv_tree_writer_write_event, tlv_tree_writer_write_event_diag, event_malformed.
  rewrite Hsk, Hk, Hdp, Z.eqb_refl. cbn [orb negb]. destruct Hel as [Htag Hvalue].
  replace (negb (t_size (e_tag (ev_element e)) =? 0) && is_null (t_data (e_tag (ev_element e)))) with false
    by (destruct (t_data (e_tag (ev_element e))) eqn:E; [rewrite (proj2 Htag) by done; done|now rewrite andb_false_r]).
  unfold output_constructed. rewrite Hf, (Hclass m _ Htag), Hp.
  unfold tlv_tree_writer_write_element_diag. rewrite (proj2 (Z.ltb_ge _ _)), (proj2 (Z.leb_gt _ _)) by lia. cbn [orb].
  assert (w_buf (tw_output t) <> NULL) as Hbn by (now rewrite Hb).
  assert (wire_of f (element_octets m (ev_element e)) w) as Hwire by (unfold wire_of; cbn; now rewrite Hval).
  destruct (writer_write_codec f m (tw_output t) (ev_element e) w Hout Hf Hbn (conj Htag Hvalue) Hwire
    ltac:(lia) ltac:(now rewrite Hb, Hcap)) as (m' & Hwr & Ho & Hbs & Hok').
  unfold tlv_writer_write_element in Hwr.
  destruct (tlv_writer_write_element_diag m (Some (tw_output t)) (Some (ev_element e)) None) as [[[rc m1] out] dg].
  injection Hwr as -> -> ->. rewrite is_ok_OK. cbn [cell].
  eexists m', _. split; [reflexivity|]. unfold writer_at in *. rewrite Hb in *. pose proof Hout as [? ? _ _].
  split.
  - split; try done. split; try done. split; try done; cbn [tw_count tw_max_elements tw_output with_output count_element].
    + lia.
    + apply (starts_weaken _ _ _ Hs). cbn. lia.
  - split; [|exact Hbs]. apply (only2_left _ _ _ _ _ _ 0 (zlen w)); [lia|lia|now rewrite padd_0].
Qed.

(** Opening a node. *)
Lemma write_begin m t e :
  uses t -> event_ok e -> e.(ev_kind) = TLV_TREE_BEGIN -> e.(ev_depth) = t.(tw_depth) ->
  p (tag_bytes m e.(ev_element).(e_tag)) = true -> t.(tw_depth) <= t.(tw_max_depth) ->
  t.(tw_count) < t.(tw_max_elements) -> t.(tw_depth) < t.(tw_capacity) ->
  let t' := push_frame t e.(ev_element).(e_tag) t.(tw_tags_used) in
  tlv_tree_writer_write_event m (Some t) (Some e) = (TLV_OK, m, Some t') /\ uses t' /\
  wactive t' = mk_wframe e.(ev_element).(e_tag) t.(tw_output).(w_pos) :: wactive t.
Proof using Hclass.
  intros Hu (Hsk & [Htag _] & _) Hk Hdp Hp Hmd Hcnt Hcap. cbv zeta.
  destruct Hu as [Ht Hf Hb Hc Hsc Hscc Htg]. pose proof Ht as [Hout Hst Hd Hcn Hscr Hs].
  unfold tlv_tree_writer_write_event, tlv_tree_writer_write_event_diag, event_malformed.
  rewrite Hsk, Hk, Hdp, Z.eqb_refl. cbn [orb negb]. unfold tlv_tree_writer_begin_diag, output_constructed.
  replace (negb (t_size (e_tag (ev_element e)) =? 0) && is_null (t_data (e_tag (ev_element e)))) with false
    by (destruct (t_data (e_tag (ev_element e))) eqn:E; [rewrite (proj2 Htag) by done; done|now rewrite andb_false_r]).
  rewrite Hf, (Hclass m _ Htag), Hp, (proj2 (Z.ltb_ge (tw_max_depth t) _)), (proj2 (Z.leb_gt (tw_max_elements t) _)),
    (proj2 (Z.leb_gt (tw_capacity t) _)) by lia.
  cbn [orb negb]. rewrite is_ok_OK. cbn [negb]. rewrite Htg. cbn [is_null negb andb]. split; [done|].
  set (t' := push_frame _ _ _).
  assert (wactive t' = mk_wframe (e_tag (ev_element e)) (w_pos (tw_output t)) :: wactive t) as Ha
    by (apply wactive_push; lia).
  split; [|exact Ha]. split; try done. pose proof Hout as [Hpos _ _ _].
  split; try done; cbn; rewrite ?zlen_set_wframe; try lia; try done.
  rewrite Ha. split; [cbn; lia|exact Hs].
Qed.

(** Closing a node whose value has been written. *)
Lemma write_end m t e fr fs value w :
  uses t -> e.(ev_kind) = TLV_TREE_END -> e.(ev_skipped) = false -> e.(ev_depth) = t.(tw_depth) - 1 ->
  t.(tw_depth) <> 0 -> wactive t = fr :: fs ->
  tag_ok fr.(wf_tag) -> disjoint_range buf capacity fr.(wf_tag).(t_data) fr.(wf_tag).(t_size) ->
  disjoint_range scratch scratch_capacity fr.(wf_tag).(t_data) fr.(wf_tag).(t_size) ->
  t.(tw_output).(w_pos) = fr.(wf_start) + zlen value -> bytes_of m (buf +p fr.(wf_start)) (zlen value) = value ->
  cl_wire (tag_bytes m fr.(wf_tag)) value = Some w -> fr.(wf_start) + zlen w <= capacity ->
  zlen value <= scratch_capacity ->
  exists m' t', tlv_tree_writer_write_event m (Some t) (Some e) = (TLV_OK, m', Some t') /\ uses t' /\
    t'.(tw_output).(w_pos) = fr.(wf_start) + zlen w /\ wactive t' = fs /\ t'.(tw_depth) = t.(tw_depth) - 1 /\
    (t'.(tw_capacity) = t.(tw_capacity) /\ t'.(tw_max_depth) = t.(tw_max_depth) /\
     t'.(tw_max_elements) = t.(tw_max_elements) /\ t'.(tw_count) = t.(tw_count)) /\
    only2 m m' (buf +p fr.(wf_start)) (capacity - fr.(wf_start)) scratch scratch_capacity /\
    bytes_of m' (buf +p fr.(wf_start)) (zlen w) = w.
Proof using Hbuf Hsep.
  intros Hu Hk Hsk Hdp Hz Ha Htag Hap1 Hap2 Hpos Hval Hw Hfit Hsize.
  pose proof Hu as [Ht Hf Hb Hc Hsc Hscc Htg]. pose proof Ht as [Hout Hst Hd Hcn [Hscr Hscn] Hs].
  rewrite Ha in Hs. destruct Hs as [Hs Hs']. destruct (wactive_top t fr fs ltac:(lia) Hz Ha) as [_ Efs].
  pose proof Hout as [Hp Hcm _ _]. pose proof (cl_wire_length _ _ _ Hw) as Hwl.
  unfold tlv_tree_writer_write_event, tlv_tree_writer_write_event_diag, event_malformed.
  rewrite Hsk, Hk, Hdp, Z.eqb_refl, (proj2 (Z.eqb_neq (tw_depth t) 0)) by lia. cbn [orb negb].
  assert (w_pos (tw_output t) - wf_start fr <= tw_scratch_capacity t) as Hfit2 by lia.
  rewrite (end_unfold m t fr fs None Ht Ha Hz Hfit2). cbv zeta.
  replace (w_pos (tw_output t) - wf_start fr) with (zlen value) in * by lia. rewrite Hb, Hsc.
  set (m1 := if negb (zlen value =? 0) then memcpy m scratch (buf +p wf_start fr) (zlen value) else m).
  assert (only_changes m m1 scratch (zlen value)) as Ho1
    by (unfold m1; destruct (negb _); [apply memmove_only|apply only_refl]).
  assert (bytes_of m1 scratch (zlen value) = value) as Hval1.
  { unfold m1. destruct (negb (zlen value =? 0)) eqn:E; [|destruct value; [done|cbn [length] in E; zlia]].
    unfold memcpy. rewrite bytes_of_memmove; [exact Hval|]. destruct scratch; [|done].
    rewrite Hsc in Hscn. specialize (Hscn eq_refl). lia. }
  assert (tag_bytes m1 (wf_tag fr) = tag_bytes m (wf_tag fr)) as Htb.
  { apply same_bytes_of, (only_same m m1 scratch (zlen value) _ _ Ho1).
    destruct scratch, (t_data (wf_tag fr)); cbn in *; done || lia. }
  set (parent := mk_element (wf_tag fr) (mk_value scratch (zlen value))).
  assert (writer_ok (at_position (wf_start fr) (tw_output t))) as Hout1 by (apply at_position_ok; [done|lia]).
  assert (wire_of f (element_octets m1 parent) w) as Hwire.
  { unfold wire_of, element_octets, value_bytes. cbn. now rewrite Htb, Hval1. }
  assert (element_ok parent) as Hpok.
  { split; [done|]. split; cbn; [pose proof SIZE_MAX_bounds; lia|]. intros Hn. rewrite Hn in *. specialize (Hscn Hsc). lia. }
  assert (element_apart parent buf capacity) as Hpap.
  { split; cbn; [done|]. destruct buf, scratch; cbn in *; done || lia. }
  destruct (writer_write_codec f m1 (at_position (wf_start fr) (tw_output t)) parent w Hout1 Hf) as (m' & Hwr & Ho & Hbs & Hok');
    cbn [at_position w_buf w_capacity w_pos]; rewrite ?Hb, ?Hc; try done; try lia.
  unfold tlv_writer_write_element in Hwr.
  destruct (tlv_writer_write_element_diag m1 _ (Some parent) None) as [[[rc m2] out] dg].
  injection Hwr as -> -> ->. rewrite is_ok_OK. cbn [negb cell]. rewrite Htg. cbn [is_null negb andb].
  unfold writer_at in *. cbn [at_position w_buf w_pos advance] in *. rewrite Hb in *.
  eexists m', _. split; [reflexivity|].
  assert (only2 m m' (buf +p wf_start fr) (capacity - wf_start fr) scratch scratch_capacity) as Hmem.
  { apply (only2_trans m m1 m'); [apply (only2_right _ _ _ _ _ _ (zlen value)); [lia|done]|].
    apply (only2_left _ _ _ _ _ _ 0 (zlen w)); [lia|lia|now rewrite padd_0]. }
  split; [|do 4 (split; [done|]); split; [exact Hmem|exact Hbs]].
  split; try done. split; try done; cbn; try lia.
  change (wactive _) with (rev (take (Z.to_nat (tw_depth t - 1)) (default [] (tw_frames t)))). rewrite Efs.
  apply (starts_weaken _ _ _ Hs'). lia.
Qed.

Lemma forest_room_wire fo : forall w, forest_wire f fo = Some w -> zlen w <= forest_room f fo.
Proof using.
  induction fo as [|tag value rest IH|tag children _ rest IH]; intros w Hw; cbn in Hw |- *.
  - now injection Hw as <-.
  - destruct (cl_wire tag value) as [w1|]; [|done]. destruct (forest_wire f rest) as [w2|]; [|done].
    injection Hw as <-. rewrite length_app. specialize (IH w2 eq_refl). cbn. lia.
  - destruct (forest_wire f children) as [v|]; [|done]. cbn. destruct (cl_wire tag v) as [w1|]; [|done].
    destruct (forest_wire f rest) as [w2|]; [|done]. injection Hw as <-. rewrite length_app.
    specialize (IH w2 eq_refl). cbn. lia.
Qed.

Lemma forest_levels_nonneg fo : 0 <= forest_levels fo.
Proof using. induction fo; cbn -[Z.max]; lia. Qed.

(** The room, budgets and sources that writing [fo] at [t] needs. *)
Record writable (m : mem) (t : tlv_tree_writer_t) (es : list tlv_tree_event_t) (fo : forest) : Prop := {
  wb_uses : uses t;
  wb_events : Forall event_ok es;
  wb_view : outlines m es = map outline (forest_events f t.(tw_depth) fo);
  wb_class : classified p fo = true;
  wb_room : t.(tw_output).(w_pos) + forest_room f fo <= capacity;
  wb_scratch : forest_scratch f fo <= scratch_capacity;
  wb_depth : t.(tw_depth) + forest_levels fo <= t.(tw_max_depth) + 1 /\
             t.(tw_depth) + forest_levels fo <= t.(tw_capacity);
  wb_count : t.(tw_count) + forest_size fo <= t.(tw_max_elements) }.

Definition writes_forest (fo : forest) : Prop :=
  forall m t es w, forest_wire f fo = Some w -> writable m t es fo ->
    exists m' t', tree_write_all m t es = (TLV_OK, m', t') /\ wrote t t' (zlen w) (forest_size fo) /\
      wrote_mem m m' t w.

Lemma write_all_app m t es1 es2 m1 t1 :
  tree_write_all m t es1 = (TLV_OK, m1, t1) -> tree_write_all m t (es1 ++ es2) = tree_write_all m1 t1 es2.
Proof using.
  revert m t. induction es1 as [|e es1 IH]; intros m t E; cbn in *; [now injection E as <- <-|].
  destruct (tlv_tree_writer_write_event m (Some t) (Some e)) as [[rc m2] wr]. destruct (is_ok rc) eqn:Erc; [now apply IH|].
  injection E as -> <- <-. done.
Qed.

Lemma write_all_one m t e m1 t1 es :
  tlv_tree_writer_write_event m (Some t) (Some e) = (TLV_OK, m1, Some t1) ->
  tree_write_all m t (e :: es) = tree_write_all m1 t1 es.
Proof using. intros E. cbn. now rewrite E, is_ok_OK. Qed.

(** Events outside the buffers look the same after writing. *)
Lemma outlines_only2 m m' es :
  Forall event_ok es -> only2 m m' buf capacity scratch scratch_capacity -> outlines m' es = outlines m es.
Proof using.
  intros He Ho. unfold outlines. apply map_ext_in. intros e Hin.
  rewrite List.Forall_forall in He. destruct (He e Hin) as (_ & _ & Hap). unfold view.
  pose proof (element_octets_only2 _ _ _ _ _ _ (ev_element e) Hap Ho) as Eo. unfold element_octets in Eo.
  injection Eo as -> ->. done.
Qed.

Lemma wrote_mem_only2 m m' t w :
  0 <= t.(tw_output).(w_pos) <= capacity -> wrote_mem m m' t w -> only2 m m' buf capacity scratch scratch_capacity.
Proof using. intros Hp [Ho _]. eapply only2_sub; [| |exact Ho]; lia. Qed.

(** Two consecutive pieces. *)
Lemma wrote_mem_app m m1 m2 t t1 w1 w2 k :
  0 <= t.(tw_output).(w_pos) -> t.(tw_output).(w_pos) + zlen w1 <= capacity ->
  wrote t t1 (zlen w1) k -> wrote_mem m m1 t w1 -> wrote_mem m1 m2 t1 w2 -> wrote_mem m m2 t (w1 ++ w2).
Proof using Hbuf Hsep.
  intros Hp Hcap [_ Hpos _ _ _ _] [Ho1 Hb1] [Ho2 Hb2]. unfold wrote_mem. rewrite Hpos, <- padd_padd in *.
  set (q := buf +p w_pos (tw_output t)) in *. rewrite length_app, Nat2Z.inj_add, bytes_of_app by lia. split.
  - apply (only2_trans m m1 m2); [exact Ho1|]. eapply only2_sub; [| |exact Ho2]; lia.
  - f_equal; [|exact Hb2]. etransitivity; [|exact Hb1]. apply same_bytes_of.
    apply (only2_same m1 m2 _ _ _ _ _ _ Ho2); unfold q; destruct buf, scratch; cbn in *; done || lia.
Qed.

Lemma outlines_cons m es v vs :
  outlines m es = v :: vs -> exists e es', es = e :: es' /\ outline (view m e) = v /\ outlines m es' = vs.
Proof using.
  intros E. destruct es as [|e es]; [done|]. injection E as E1 E2. now exists e, es.
Qed.

(** A node, when its children are written by the callback [IH]. *)
Lemma write_node m t eb es ee children tag v w :
  writes_forest children -> uses t -> Forall event_ok (eb :: es ++ [ee]) ->
  outlines m (eb :: es ++ [ee]) =
    (TLV_TREE_BEGIN, t.(tw_depth), tag, []) ::
    map outline (forest_events f (t.(tw_depth) + 1) children) ++ [(TLV_TREE_END, t.(tw_depth), [], [])] ->
  classified p children = true -> p tag = true -> forest_wire f children = Some v -> cl_wire tag v = Some w ->
  t.(tw_output).(w_pos) + Z.max (forest_room f children) (zlen w) <= capacity ->
  Z.max (zlen v) (forest_scratch f children) <= scratch_capacity ->
  t.(tw_depth) + 1 + forest_levels children <= t.(tw_max_depth) + 1 /\
  t.(tw_depth) + 1 + forest_levels children <= t.(tw_capacity) ->
  t.(tw_count) + 1 + forest_size children <= t.(tw_max_elements) -> 0 <= forest_size children ->
  exists m' t', tree_write_all m t (eb :: es ++ [ee]) = (TLV_OK, m', t') /\
    wrote t t' (zlen w) (1 + forest_size children) /\ wrote_mem m m' t w.
Proof using Hbuf Hclass Hsep.
  intros IH Hu Hev Hout Hcl Hp Hv Hw Hroom Hscr Hdep Hcnt Hsz.
  pose proof (forest_levels_nonneg children) as Hlev.
  apply outlines_cons in Hout as (? & ? & [= <- <-] & Hb & Hout). unfold outlines in Hout. rewrite map_app in Hout.
  apply app_inj_2 in Hout as [Hch He]; [|done]. injection He as Hek Hed _ _.
  inversion_clear Hev as [|? ? Heb Hev']. apply Forall_app in Hev' as [Hes Hee].
  inversion_clear Hee as [|? ? Hee' _].
  unfold outline, view in Hb. cbn in Hb. injection Hb as Hbk Hbd Hbt _.
  assert (t.(tw_depth) < t.(tw_capacity)) as Hroomd by lia.
  destruct (write_begin m t eb Hu Heb Hbk Hbd ltac:(now rewrite Hbt) ltac:(lia) ltac:(lia) Hroomd) as (Hwb & Hu1 & Ha1).
  set (t1 := push_frame t (e_tag (ev_element eb)) (tw_tags_used t)) in *. rewrite (write_all_one _ _ _ _ _ _ Hwb).
  assert (tw_depth t1 = tw_depth t + 1 /\ tw_output t1 = tw_output t /\ tw_count t1 = tw_count t + 1 /\
    tw_capacity t1 = tw_capacity t /\ tw_max_depth t1 = tw_max_depth t /\ tw_max_elements t1 = tw_max_elements t)
    as (E1 & E2 & E3 & E4 & E5 & E6) by done.
  pose proof (us_ok _ Hu) as [[Hpos _ _ _] _ Hdeep _ _ _].
  destruct (IH m t1 es v Hv) as (m2 & t2 & Hrun & Hwr2 & Hmem2).
  { split; try done; try lia; rewrite ?E2; lia. }
  pose proof Hwr2 as [Hu2 Hpos2 Ha2 Hd2 [Hl1 [Hl2 Hl3]] Hc2]. rewrite E1 in Hd2. rewrite E2 in Hpos2.
  rewrite (write_all_app _ _ _ _ _ _ Hrun).
  pose proof (forest_room_wire children v Hv) as Hvl.
  assert (only2 m m2 buf capacity scratch scratch_capacity) as Hm2
    by (apply (wrote_mem_only2 m m2 t1 v); [rewrite E2; lia|exact Hmem2]).
  assert (tag_bytes m2 (e_tag (ev_element eb)) = tag) as Htb2.
  { pose proof (element_octets_only2 _ _ _ _ _ _ _ (proj2 (proj2 Heb)) Hm2) as Eo. now injection Eo as ->. }
  destruct Heb as (_ & [Htag _] & [Hap1 _] & [Hap2 _]). destruct Hmem2 as [Ho2 Hb2]. rewrite E2 in Ho2, Hb2.
  destruct (write_end m2 t2 ee (mk_wframe (e_tag (ev_element eb)) (w_pos (tw_output t))) (wactive t) v w)
    as (m3 & t3 & Hwe & Hu3 & Hpos3 & Ha3 & Hd3 & (Hl1' & Hl2' & Hl3' & Hc3) & Ho3 & Hb3);
    cbn [wf_tag wf_start]; try done; try lia; try congruence.
  { apply Hee'. }
  exists m3, t3. rewrite (write_all_one _ _ _ _ _ _ Hwe). split; [done|]. cbn [wf_start] in *. split.
  - split; try done; lia.
  - split; [|exact Hb3]. exact (only2_trans _ _ _ _ _ _ _ Ho2 Ho3).
Qed.

(** What follows an element or a node that has been written. *)
Lemma writable_rest m m1 t t1 es rest w k :
  wrote t t1 (zlen w) k -> wrote_mem m m1 t w -> 0 <= t.(tw_output).(w_pos) <= capacity ->
  Forall event_ok es -> outlines m es = map outline (forest_events f t.(tw_depth) rest) ->
  classified p rest = true -> t.(tw_output).(w_pos) + zlen w + forest_room f rest <= capacity ->
  forest_scratch f rest <= scratch_capacity ->
  t.(tw_depth) + forest_levels rest <= t.(tw_max_depth) + 1 /\ t.(tw_depth) + forest_levels rest <= t.(tw_capacity) ->
  t.(tw_count) + k + forest_size rest <= t.(tw_max_elements) ->
  writable m1 t1 es rest.
Proof using.
  intros Hwr Hmem Hp Hes Hview Hcl Hroom Hscr Hdep Hcnt.
  pose proof (wrote_mem_only2 _ _ _ _ Hp Hmem) as Ho.
  destruct Hwr as [Hu1 Hp1 _ Hd1 (Hl1 & Hl2 & Hl3) Hc1].
  split; try done; rewrite ?Hl1, ?Hl2, ?Hl3, ?Hd1; try lia.
  now rewrite (outlines_only2 m m1).
Qed.

Lemma write_forest fo : writes_forest fo.
Proof using Hbuf Hclass Hsep.
  induction fo as [|tag value rest IH|tag children IHc rest IH]; intros m t es w Hw [Hu Hev Hview Hcl Hroom Hscr Hdep Hcnt];
    cbn in Hw, Hview, Hcl, Hroom, Hdep, Hcnt, Hscr; pose proof (us_ok _ Hu) as [[Hpos _ _ _] _ _ _ _ _];
    rewrite (us_capacity _ Hu) in Hpos.
  - injection Hw as <-. apply map_eq_nil in Hview as ->. exists m, t. split; [done|]. split.
    + split; try done; cbn; lia.
    + split; [apply only2_refl|]. cbn. now rewrite bytes_of_0.
  - destruct (cl_wire tag value) as [w1|] eqn:Ew1; [|done]. destruct (forest_wire f rest) as [w2|] eqn:Ew2; [|done].
    injection Hw as <-. cbn in Hroom. apply andb_true_iff in Hcl as [Hp Hcl]. apply negb_true_iff in Hp.
    pose proof (forest_size_nonneg rest) as Hsz. pose proof (forest_levels_nonneg rest).
    pose proof (forest_room_wire rest w2 Ew2).
    apply outlines_cons in Hview as (e & es' & -> & Hv & Hview). inversion_clear Hev as [|? ? He Hes].
    unfold outline, view in Hv. injection Hv as Hk Hd Htag Hval. rewrite Hk in Hval.
    destruct (write_leaf m t e value w1) as (m1 & t1 & Hrun & Hwr & Hmem); rewrite ?Htag; try done; try lia.
    rewrite (write_all_one _ _ _ _ _ _ Hrun).
    destruct (IH m1 t1 es' w2 Ew2) as (m2 & t2 & Hrun2 & Hwr2 & Hmem2).
    { apply (writable_rest m m1 t t1 es' rest w1 1); try done; lia. }
    exists m2, t2. split; [done|]. rewrite length_app, Nat2Z.inj_add. split; [now apply (wrote_trans t t1 t2)|].
    apply (wrote_mem_app m m1 m2 t t1 w1 w2 1); done || lia.
  - destruct (forest_wire f children) as [v|] eqn:Ev; [|done]. cbn in Hroom, Hscr.
    destruct (cl_wire tag v) as [w1|] eqn:Ew1; [|done]. destruct (forest_wire f rest) as [w2|] eqn:Ew2; [|done].
    injection Hw as <-. cbn in Hroom. apply andb_true_iff in Hcl as [Hcl Hclr]. apply andb_true_iff in Hcl as [Hp Hcl].
    pose proof (forest_size_nonneg rest) as Hsz. pose proof (forest_size_nonneg children) as Hszc.
    pose proof (forest_levels_nonneg rest). pose proof (forest_room_wire rest w2 Ew2).
    apply outlines_cons in Hview as (eb & es' & -> & Hb & Hview).
    rewrite map_app in Hview. unfold outlines in Hview. apply map_eq_app in Hview as (ec & es2 & -> & Hc & Hview).
    cbn [map] in Hview. apply map_eq_cons in Hview as (ee & er & -> & He & Hview).
    replace (eb :: ec ++ ee :: er) with ((eb :: ec ++ [ee]) ++ er) in * by (cbn; now rewrite <- app_assoc).
    apply Forall_app in Hev as [Hev Her].
    destruct (write_node m t eb ec ee children tag v w1) as (m1 & t1 & Hrun & Hwr & Hmem); try done; try lia.
    { unfold outlines. cbn [map]. rewrite Hb, map_app, Hc. cbn [map]. now rewrite He. }
    rewrite (write_all_app _ _ _ _ _ _ Hrun).
    destruct (IH m1 t1 er w2 Ew2) as (m2 & t2 & Hrun2 & Hwr2 & Hmem2).
    { apply (writable_rest m m1 t t1 er rest w1 (1 + forest_size children)); try done; lia. }
    exists m2, t2. split; [done|]. rewrite length_app, Nat2Z.inj_add. split; [now apply (wrote_trans t t1 t2)|].
    apply (wrote_mem_app m m1 m2 t t1 w1 w2 (1 + forest_size children)); done || lia.
Qed.
End Writing.

Lemma wrote_whole `{Platform} (f : tlv_format_t) (Hcodec : CodecLaws f) (p : list Z -> bool)
  (Hclass : forall m tag, tag_ok tag -> is_constructed (Some f) m tag = p (tag_bytes m tag))
  (Hwrite : tlv_format_can_write (Some f) = true)
  (m : mem) (fo : forest) (w : list Z) (es : list tlv_tree_event_t) (t0 : tlv_tree_writer_t)
  (buf : ptr) (capacity : Z) (frames : list tlv_tree_writer_frame_t) (scratch : ptr)
  (scratch_capacity max_depth max_elements : Z) :
  buf <> NULL -> 0 <= capacity <= SIZE_MAX -> 0 <= scratch_capacity <= SIZE_MAX ->
  (scratch = NULL -> scratch_capacity = 0) -> disjoint_range buf capacity scratch scratch_capacity ->
  forest_wire f fo = Some w -> classified p fo = true ->
  Forall (event_ok buf capacity scratch scratch_capacity) es ->
  outlines m es = map outline (forest_events f 0 fo) ->
  forest_room f fo <= capacity -> forest_scratch f fo <= scratch_capacity ->
  forest_levels fo <= max_depth + 1 -> forest_levels fo <= zlen frames -> forest_size fo <= max_elements ->
  exists t m' t', tlv_tree_writer_init (Some t0) buf capacity (Some f) (Some frames) (zlen frames) scratch
      scratch_capacity max_depth max_elements = (TLV_OK, Some t) /\
    tree_write_all m t es = (TLV_OK, m', t') /\ tlv_tree_writer_finish (Some t') = TLV_OK /\
    tlv_tree_writer_size (Some t') = zlen w /\ bytes_of m' buf (zlen w) = w /\
    only2 m m' buf capacity scratch scratch_capacity.
Proof.
  intros Hbuf Hcap Hsc Hscn Hsep Hw Hcl Hev Hout Hroom Hscr Hmd Hfr Hme.
  pose proof (forest_size_nonneg fo) as Hsz.
  set (t := mk_tree_writer (mk_writer (Some f) buf capacity 0) (Some frames) (zlen frames) 0 max_depth max_elements 0
              scratch scratch_capacity NULL 0 0).
  assert (uses f buf capacity scratch scratch_capacity t) as Hu.
  { split; try done. split; cbn; [split; cbn; done || lia|done|lia|lia|done|done]. }
  destruct (write_forest f p Hclass buf capacity scratch scratch_capacity Hbuf Hsep fo m t es w Hw)
    as (m' & t' & Hrun & [Hu' Hp Ha Hd _ _] & Hmem).
  { split; try done; cbn; rewrite ?Z.add_0_l; done || lia. }
  exists t, m', t'. split.
  { unfold tlv_tree_writer_init, tlv_writer_init. rewrite Hwrite.
    replace (is_null scratch && negb (scratch_capacity =? 0)) with false
      by (destruct scratch; [rewrite Hscn by done|]; done).
    destruct buf; done. }
  split; [done|]. cbn in Hd, Hp. unfold tlv_tree_writer_finish, tlv_tree_writer_size. rewrite Hd. cbn. split; [done|].
  split; [done|]. split; [|apply (wrote_mem_only2 buf capacity scratch scratch_capacity m m' t w); [cbn; lia|done]].
  destruct Hmem as [_ Hb]. cbn in Hb. now rewrite padd_0 in Hb.
Qed.

(** C2. The tree Writer implements the encoding of forests: from a fresh writer, the preorder events of a
    forest that agrees with the format's classification (the values of BEGIN events are not looked at)
    are all accepted, the tree is finished, and the output starts with exactly the forest's octets,
    as many as the writer reports; nothing outside the output and scratch buffers changes.  Enough are:
    output for the larger of what a node's children and its encoding need, scratch for the largest
    node value, a frame and a unit of depth per nesting level, and a unit of the element limit per
    node. *)
Theorem tree_writer_writes_forest `{Platform} (f : tlv_format_t) (Hcodec : CodecLaws f) (p : list Z -> bool)
  (Hclass : forall m tag, tag_ok tag -> is_constructed (Some f) m tag = p (tag_bytes m tag))
  (Hwrite : tlv_format_can_write (Some f) = true)
  (m : mem) (fo : forest) (w : list Z) (es : list tlv_tree_event_t) (t0 : tlv_tree_writer_t)
  (buf : ptr) (capacity : Z) (frames : list tlv_tree_writer_frame_t) (scratch : ptr)
  (scratch_capacity max_depth max_elements : Z)
  (Hbuf : buf <> NULL) (Hcap : 0 <= capacity <= SIZE_MAX) (Hsc : 0 <= scratch_capacity <= SIZE_MAX)
  (Hscn : scratch = NULL -> scratch_capacity = 0) (Hsep : disjoint_range buf capacity scratch scratch_capacity)
  (Hw : forest_wire f fo = Some w) (Hcl : classified p fo = true)
  (Hev : Forall (event_ok buf capacity scratch scratch_capacity) es)
  (Hout : outlines m es = map outline (forest_events f 0 fo))
  (Hroom : forest_room f fo <= capacity) (Hscr : forest_scratch f fo <= scratch_capacity)
  (Hmd : forest_levels fo <= max_depth + 1) (Hfr : forest_levels fo <= zlen frames)
  (Hme : forest_size fo <= max_elements) :
  exists t m' t', tlv_tree_writer_init (Some t0) buf capacity (Some f) (Some frames) (zlen frames) scratch
      scratch_capacity max_depth max_elements = (TLV_OK, Some t) /\
    tree_write_all m t es = (TLV_OK, m', t') /\ tlv_tree_writer_finish (Some t') = TLV_OK /\
    tlv_tree_writer_size (Some t') = zlen w /\ bytes_of m' buf (zlen w) = w /\
    only2 m m' buf capacity scratch scratch_capacity.
Proof.
  exact (wrote_whole f Hcodec p Hclass Hwrite m fo w es t0 buf capacity frames scratch scratch_capacity max_depth
    max_elements Hbuf Hcap Hsc Hscn Hsep Hw Hcl Hev Hout Hroom Hscr Hmd Hfr Hme).
Qed.

(** The events of [tree_example_forest], borrowing tags and values from block 1. *)
Definition tree_example_memory : mem := mem_of 1 [33; 1; 7; 34; 2].
Definition tree_example_event (kind : tlv_tree_event_kind_t) (depth tag tag_size value value_size : Z)
  : tlv_tree_event_t :=
  mk_event kind (mk_element (mk_tag (Ptr 1 tag) tag_size) (mk_value (Ptr 1 value) value_size)) no_source depth 0 false.
Definition tree_example_events : list tlv_tree_event_t :=
  [tree_example_event TLV_TREE_BEGIN 0 0 1 0 0; tree_example_event TLV_TREE_ELEMENT 1 1 1 2 1;
   tree_example_event TLV_TREE_BEGIN 1 3 1 0 0; tree_example_event TLV_TREE_END 1 0 0 0 0;
   tree_example_event TLV_TREE_END 0 0 0 0 0; tree_example_event TLV_TREE_ELEMENT 0 4 1 0 0].

Lemma tree_example_events_ok : Forall (event_ok (H := LP64) (Ptr 2 0) 16 (Ptr 3 0) 8) tree_example_events.
Proof.
  repeat constructor; cbn; try done; vm_compute; intuition congruence.
Qed.

Lemma tree_writer_writes_forest_witness :
  exists t m' t',
    @tlv_tree_writer_init (Some no_tree_writer) (Ptr 2 0) 16 (Some tree_example_format)
      (Some [no_wframe; no_wframe]) 2 (Ptr 3 0) 8 1 4 = (TLV_OK, Some t) /\
    @tree_write_all LP64 tree_example_memory t tree_example_events = (TLV_OK, m', t') /\
    tlv_tree_writer_finish (Some t') = TLV_OK /\ bytes_of m' (Ptr 2 0) 9 = [33; 5; 1; 1; 7; 34; 0; 2; 0].
Proof.
  destruct (tree_writer_writes_forest (H := LP64) tree_example_format tree_example_codec tree_example_class
    tree_example_classes eq_refl tree_example_memory tree_example_forest [33; 5; 1; 1; 7; 34; 0; 2; 0]
    tree_example_events no_tree_writer (Ptr 2 0) 16 [no_wframe; no_wframe] (Ptr 3 0) 8 1 4
    ltac:(discriminate) ltac:(split; vm_compute; congruence) ltac:(split; vm_compute; congruence)
    ltac:(discriminate) ltac:(left; discriminate) eq_refl eq_refl tree_example_events_ok
    ltac:(vm_compute; reflexivity) ltac:(vm_compute; congruence) ltac:(vm_compute; congruence)
    ltac:(vm_compute; congruence) ltac:(vm_compute; congruence) ltac:(vm_compute; congruence))
    as (t & m' & t' & Hinit & Hrun & Hfin & _ & Hb & _).
  exists t, m', t'. split; [exact Hinit|]. split; [exact Hrun|]. split; [exact Hfin|exact Hb].
Defined.

Lemma forest_height_levels fo : forest_height fo <= forest_levels fo.
Proof.
  induction fo as [|? ? rest IH|? children IHc rest IH]; [done|cbn; lia|].
  pose proof (forest_levels_nonneg children). destruct children; cbn -[Z.max] in *; lia.
Qed.

(** C3. A tree survives the trip through the tree Writer and the tree Reader: the Reader over the written
    octets emits the events of the forest, with the kinds, depths, tags and values of those that were written
    and, as the value of a BEGIN, the octets of the node's children; and then END. *)
Theorem tree_roundtrip `{Platform} (f : tlv_format_t) (decode : tlv_decode_fn)
  (Hdec : f.(f_decode) = Some decode) (Hlaws : DecodeLaws decode) (Hcodec : CodecLaws f) (p : list Z -> bool)
  (Hclass : forall m tag, tag_ok tag -> is_constructed (Some f) m tag = p (tag_bytes m tag))
  (Hwrite : tlv_format_can_write (Some f) = true)
  (m : mem) (fo : forest) (w : list Z) (es : list tlv_tree_event_t) (t0 : tlv_tree_writer_t) (r0 : tlv_tree_reader_t)
  (buf : ptr) (capacity : Z) (frames : list tlv_tree_writer_frame_t) (rframes : list tlv_tree_frame_t)
  (scratch : ptr) (scratch_capacity max_depth max_elements : Z)
  (Hbuf : buf <> NULL) (Hcap : 0 <= capacity <= SIZE_MAX) (Hsc : 0 <= scratch_capacity <= SIZE_MAX)
  (Hscn : scratch = NULL -> scratch_capacity = 0) (Hsep : disjoint_range buf capacity scratch scratch_capacity)
  (Hw : forest_wire f fo = Some w) (Hcl : classified p fo = true)
  (Hev : Forall (event_ok buf capacity scratch scratch_capacity) es)
  (Hout : outlines m es = map outline (forest_events f 0 fo))
  (Hroom : forest_room f fo <= capacity) (Hscr : forest_scratch f fo <= scratch_capacity)
  (Hmd : forest_levels fo <= max_depth <= SIZE_MAX) (Hfr : forest_levels fo <= zlen frames)
  (Hrfr : forest_levels fo <= zlen rframes) (Hme : forest_size fo <= max_elements <= SIZE_MAX) :
  exists t m' t' r es' r', tlv_tree_writer_init (Some t0) buf capacity (Some f) (Some frames) (zlen frames) scratch
      scratch_capacity max_depth max_elements = (TLV_OK, Some t) /\
    tree_write_all m t es = (TLV_OK, m', t') /\
    tlv_tree_reader_init (Some r0) buf (tlv_tree_writer_size (Some t')) (Some f) (Some rframes) (zlen rframes)
      max_depth max_elements = (TLV_OK, Some r) /\
    tree_events (S (Z.to_nat (2 * forest_size fo))) m' r = Some (TLV_END, es', r') /\
    map (view m') es' = forest_events f 0 fo /\ outlines m' es' = outlines m es /\ tlv_tree_reader_at_end (Some r') = true.
Proof.
  pose proof (forest_height_levels fo) as Hh. pose proof (forest_room_wire f fo w Hw) as Hwl.
  destruct (wrote_whole f Hcodec p Hclass Hwrite m fo w es t0 buf capacity frames scratch scratch_capacity max_depth
    max_elements) as (t & m' & t' & Hinit & Hrun & _ & Hsize & Hb & _); try done; try lia.
  destruct (run_whole f decode Hdec Hlaws Hcodec p m' (Hclass m') fo w buf r0 rframes max_depth max_elements)
    as (r & es' & r' & Hrinit & _ & _ & Hrrun & Hok & Hend & Hv & _); try done; try lia.
  exists t, m', t', r, es', r'. split; [done|]. split; [done|]. rewrite Hsize. split; [done|]. split.
  - apply tree_events_of_run; [done|done|now apply pull_at_end|].
    pose proof (forest_events_length f fo 0) as Hlen. rewrite <- Hv, length_map in Hlen. lia.
  - split; [exact Hv|]. split; [|done]. rewrite Hout, <- Hv. unfold outlines. now rewrite map_map.
Qed.

Lemma tree_roundtrip_witness :
  exists t m' t' r es' r',
    @tlv_tree_writer_init (Some no_tree_writer) (Ptr 2 0) 16 (Some tree_example_format)
      (Some [no_wframe; no_wframe]) 2 (Ptr 3 0) 8 2 4 = (TLV_OK, Some t) /\
    @tree_write_all LP64 tree_example_memory t tree_example_events = (TLV_OK, m', t') /\
    tlv_tree_reader_init (Some nested_rest_tree) (Ptr 2 0) (tlv_tree_writer_size (Some t')) (Some tree_example_format)
      (Some [no_frame; no_frame]) 2 2 4 = (TLV_OK, Some r) /\
    @tree_events LP64 9 m' r = Some (TLV_END, es', r') /\
    map (view m') es' = [(TLV_TREE_BEGIN, 0, [33], [1; 1; 7; 34; 0]); (TLV_TREE_ELEMENT, 1, [1], [7]);
      (TLV_TREE_BEGIN, 1, [34], []); (TLV_TREE_END, 1, [], []); (TLV_TREE_END, 0, [], []); (TLV_TREE_ELEMENT, 0, [2], [])].
Proof.
  destruct (tree_roundtrip (H := LP64) tree_example_format _ eq_refl tree_example_laws tree_example_codec
    tree_example_class tree_example_classes eq_refl tree_example_memory tree_example_forest
    [33; 5; 1; 1; 7; 34; 0; 2; 0] tree_example_events no_tree_writer nested_rest_tree (Ptr 2 0) 16
    [no_wframe; no_wframe] [no_frame; no_frame] (Ptr 3 0) 8 2 4
    ltac:(discriminate) ltac:(split; vm_compute; congruence) ltac:(split; vm_compute; congruence)
    ltac:(discriminate) ltac:(left; discriminate) eq_refl eq_refl tree_example_events_ok
    ltac:(vm_compute; reflexivity) ltac:(vm_compute; congruence) ltac:(vm_compute; congruence)
    ltac:(split; vm_compute; congruence) ltac:(vm_compute; congruence) ltac:(vm_compute; congruence)
    ltac:(split; vm_compute; congruence))
    as (t & m' & t' & r & es' & r' & Hinit & Hrun & Hrinit & Hread & Hv & _).
  exists t, m', t', r, es', r'. split; [exact Hinit|]. split; [exact Hrun|]. split; [exact Hrinit|].
  split; [exact Hread|exact Hv].
Defined.
