(* ===== verification/TreeMeasureLaws.v ===== *)
(** * Laws of measuring

    Measuring the events of a forest either stages the whole encoding or names the storage that is
    missing: never more than the forest needs, and always more than there is. *)

From S2P Require Import Prelude Mem Core Format Diagnostic WireFormat Reader TreeReader TreeLaws Writer TreeWriter TreeMeasure TreeWriterLaws.

(** A producer hands out these events, one a call. *)
Fixpoint yields {S : Type} (next : tlv_tree_event_next_fn S) (s : S) (es : list tlv_tree_event_t) (s' : S) : Prop :=
  match es with
  | [] => s' = s
  | e :: es => exists s1, next s no_event = (TLV_OK, s1, e) /\ yields next s1 es s'
  end.

Lemma yields_app {S : Type} (next : tlv_tree_event_next_fn S) es1 : forall s es2 s',
  yields next s (es1 ++ es2) s' <-> exists s1, yields next s es1 s1 /\ yields next s1 es2 s'.
Proof.
  induction es1 as [|e es1 IH]; intros s es2 s'; cbn [app yields].
  - split; [eauto|]. now intros (s1 & -> & Hy).
  - split.
    + intros (s1 & E & Hy). apply IH in Hy as (s2 & Hy & Hz). eauto 6.
    + intros (s2 & (s1 & E & Hy) & Hz). exists s1. split; [done|]. apply IH. eauto.
Qed.

(** A context that has been reached on the way. *)
Definition reached {S : Type} (next : tlv_tree_event_next_fn S) (s : S) (es : list tlv_tree_event_t) (s' : S) : Prop :=
  exists es1 es2, es = es1 ++ es2 /\ yields next s es1 s'.

Lemma reached_app {S : Type} (next : tlv_tree_event_next_fn S) s es1 s1 es2 s' :
  yields next s es1 s1 -> reached next s1 es2 s' -> reached next s (es1 ++ es2) s'.
Proof.
  intros Hy (a & b & -> & Hz). exists (es1 ++ a), b. rewrite app_assoc. split; [done|]. apply yields_app. eauto.
Qed.

Lemma reached_prefix {S : Type} (next : tlv_tree_event_next_fn S) s es1 es2 s' :
  reached next s es1 s' -> reached next s (es1 ++ es2) s'.
Proof. intros (a & b & -> & Hz). exists a, (b ++ es2). now rewrite app_assoc. Qed.

Section Measuring.
Context `{Platform} (f : tlv_format_t) `{!CodecLaws f}.

(** What is missing: more than there is, and no more than is needed. *)
Definition short (data scratch : Z) (ws ws' : tlv_tree_writer_workspace_t) : Prop :=
  exists rd rs, ws' = with_required rd rs ws /\ (rd <> 0 \/ rs <> 0) /\
    (rd = 0 \/ ws.(ws_data_capacity) < rd <= data) /\ (rs = 0 \/ ws.(ws_scratch_capacity) < rs <= scratch).

Lemma short_more data scratch data' scratch' ws ws' :
  short data scratch ws ws' -> data <= data' -> scratch <= scratch' -> short data' scratch' ws ws'.
Proof using. intros (rd & rs & -> & Hr & Hd & Hs) H1 H2. exists rd, rs. split; [done|]. split; [done|]. lia. Qed.

(** Some octets apart from an element. *)
Lemma apart_somewhere e n : exists b, element_apart e (Ptr b 0) n.
Proof using.
  exists (1 + Z.max (match e.(e_tag).(t_data) with Ptr b _ => b | NULL => 0 end)
            (match e.(e_value).(v_data) with Ptr b _ => b | NULL => 0 end)).
  split; [destruct (t_data (e_tag e))|destruct (v_data (e_value e))]; cbn; try done; left; lia.
Qed.

(** The size of an element is the length of its encoding. *)
Lemma measure_codec m e w : element_ok e -> cl_wire (tag_bytes m e.(e_tag)) (value_bytes m e.(e_value)) = Some w ->
  zlen w <= SIZE_MAX ->
  exists en, tlv_format_measure (Some f) m (Some e) (Some no_encoding) (Some no_error) = (TLV_OK, Some en, Some no_error) /\
    tlv_size_to_native en.(en_total) (Some 0) = (TLV_OK, Some (zlen w)).
Proof using.
  intros He Hw Hs. destruct (apart_somewhere e (zlen w)) as [b Hb].
  destruct (cl_encode m e (Ptr b 0) (zlen w) 0 (Some no_error) w He ltac:(discriminate) Hs Hw ltac:(lia) Hb) as (m' & E & _ & _).
  unfold tlv_format_encode in E. destruct (_ || _); [discriminate|].
  destruct (tlv_format_measure _ _ _ _ _) as [[rc en] er] eqn:Em. destruct (is_ok rc) eqn:Erc; cbn [negb] in E; [|injection E as -> _ _ _; discriminate].
  apply is_ok_true in Erc as ->.
  destruct (tlv_size_to_native _ _) as [rc1 tot] eqn:En. destruct (is_ok rc1) eqn:Erc1; cbn [negb] in E; [|injection E as -> _ _ _; discriminate].
  apply is_ok_true in Erc1 as ->. destruct (_ <? _); [discriminate|].
  assert (exists en0, en = Some en0) as [en0 ->].
  { unfold tlv_format_measure in Em. destruct (f_measure f); [|discriminate]. destruct (f_encode f); [|discriminate].
    destruct (_ && _); [discriminate|]. destruct (_ m e no_encoding no_error) as [[r1 r2] r3].
    match type of Em with (if ?b then _ else _) = _ => destruct b end; inversion Em; eauto. }
  destruct f as [self dec me en ic] eqn:Ef. destruct en as [encode|]; [|discriminate].
  destruct (encode _ _ _ _ _ _) as [[[rc2 m2] used] detail]. cbn [cell] in *.
  destruct (is_ok (tlv_callback_result rc2 false) && negb (used =? cell 0 tot)) eqn:Eu; [discriminate|].
  destruct (is_ok (tlv_callback_result rc2 false)) eqn:Erc2; cbn [negb] in E; [|injection E as E _ _ _; rewrite E in Erc2; discriminate].
  cbn [andb] in Eu. injection E as _ -> ->. apply negb_false_iff, Z.eqb_eq in Eu. exists en0. split; [done|].
  unfold tlv_size_to_native in *. repeat case_match; simplify_eq; cbn in *; congruence.
Qed.

Lemma encoded_size_codec m e w dg : element_ok e -> cl_wire (tag_bytes m e.(e_tag)) (value_bytes m e.(e_value)) = Some w ->
  zlen w <= SIZE_MAX -> tlv_element_encoded_size_diag m (Some e) (Some f) (Some 0) dg = (TLV_OK, Some (zlen w), dg).
Proof using.
  intros He Hw Hs. destruct (measure_codec m e w He Hw Hs) as (en & E1 & E2).
  unfold tlv_element_encoded_size_diag. rewrite E1, is_ok_OK. cbn [cell]. now rewrite E2.
Qed.

(** The storage of one element. *)
Lemma measure_storage_run m t e w start closing ws :
  t.(tw_output).(w_format) = Some f -> element_ok e -> cl_wire (tag_bytes m e.(e_tag)) (value_bytes m e.(e_value)) = Some w ->
  0 <= start -> start + zlen w <= SIZE_MAX -> start <= t.(tw_output).(w_pos) <= SIZE_MAX ->
  0 <= ws.(ws_data_capacity) -> 0 <= ws.(ws_scratch_capacity) -> ws.(ws_required_data) = 0 -> ws.(ws_required_scratch) = 0 ->
  let accumulated := t.(tw_output).(w_pos) - start in
  (measure_storage m t e start closing ws None = (TLV_OK, ws, None) /\ start + zlen w <= ws.(ws_data_capacity) /\
   (closing = true -> accumulated <= ws.(ws_scratch_capacity))) \/
  (exists ws', measure_storage m t e start closing ws None = (TLV_ERR_BUFFER_TOO_SHORT, ws', None) /\
     short (start + zlen w) (if closing then accumulated else 0) ws ws').
Proof using.
  intros Hf He Hw Hst Hmax Hpos Hcd Hcs Hrd Hrs accumulated. pose proof (cl_wire_length _ _ _ Hw).
  unfold measure_storage. rewrite Hf, (encoded_size_codec m e w) by (done || lia). rewrite is_ok_OK. cbn [negb cell].
  rewrite (proj2 (Z.ltb_ge _ _)) by lia. rewrite usize_small by lia. fold accumulated.
  destruct (Z.ltb_spec (ws_data_capacity ws) (start + zlen w)) as [Hd|Hd];
    destruct (closing && (ws_scratch_capacity ws <? accumulated)) eqn:Ec;
    cbn [with_required ws_data_capacity ws_scratch_capacity ws_required_data ws_required_scratch]; rewrite ?Ec;
    cbn [with_required ws_data_capacity ws_scratch_capacity ws_required_data ws_required_scratch]; rewrite ?Hrd, ?Hrs.
  all: try (apply andb_true_iff in Ec as [-> Ec]; apply Z.ltb_lt in Ec).
  - right. rewrite (proj2 (Z.eqb_neq (start + zlen w) 0)) by lia. cbn [andb]. eexists. split; [reflexivity|].
    exists (start + zlen w), accumulated. split; [done|]. lia.
  - right. rewrite (proj2 (Z.eqb_neq (start + zlen w) 0)) by lia. cbn [andb]. eexists. split; [reflexivity|].
    exists (start + zlen w), 0. split; [done|]. lia.
  - right. rewrite (proj2 (Z.eqb_neq accumulated 0)) by lia. cbn [andb]. eexists. split; [reflexivity|].
    exists 0, accumulated. split; [done|]. lia.
  - left. rewrite Z.eqb_refl. cbn [andb]. split; [done|]. split; [lia|]. intros ->. cbn [andb] in Ec. lia.
Qed.
End Measuring.

(** Without a diagnostic none comes back. *)
Lemma writer_write_quiet `{Platform} m w e rc m' w' dg : tlv_writer_write_element_diag m w e None = (rc, m', w', dg) -> dg = None.
Proof.
  unfold tlv_writer_write_element_diag.
  assert (snd (writer_destination w e None) = None) as Hd.
  { unfold writer_destination. destruct w as [w|]; cbn; [|done]. destruct (w_capacity w <? w_pos w); [done|]. now destruct (_ && _). }
  destruct (writer_destination w e None) as [[[rc0 data] avail] dg0]. cbn in Hd. subst dg0.
  destruct w as [w|]; [|now intros [= _ _ _ <-]]. destruct (negb (is_ok rc0)); [now intros [= _ _ _ <-]|].
  unfold tlv_write_element_diag. destruct (tlv_format_encode _ _ _ _ _ _ _) as [[[rc1 m1] wr] err]. cbn [wdiag_format wdiag].
  replace (if negb (is_ok rc1) then None else None) with (@None tlv_writer_diagnostic_t) by (now destruct (negb _)).
  unfold writer_finish. destruct (is_ok rc1); now intros [= _ _ _ <-].
Qed.

Lemma begin_quiet `{Platform} m t tag rc m' t' dg : tlv_tree_writer_begin_diag m t tag None = (rc, m', t', dg) -> dg = None.
Proof.
  unfold tlv_tree_writer_begin_diag. destruct t as [t|]; [|now intros [= _ _ _ <-]].
  destruct (negb (is_ok _)); [now intros [= _ _ _ <-]|]. destruct (_ && _); [|now intros [= _ _ _ <-]].
  destruct (_ <? _); now intros [= _ _ _ <-].
Qed.

Lemma end_quiet `{Platform} m t rc m' t' dg : tlv_tree_writer_end_diag m t None = (rc, m', t', dg) -> dg = None.
Proof.
  unfold tlv_tree_writer_end_diag. destruct t as [t|]; [|now intros [= _ _ _ <-]].
  destruct (_ =? 0); [now intros [= _ _ _ <-]|]. destruct (_ <? _); [now intros [= _ _ _ <-]|].
  destruct (tlv_writer_write_element_diag _ _ _ None) as [[[rc1 m1] out] dg1] eqn:E. apply writer_write_quiet in E as ->.
  destruct (negb _); now intros [= _ _ _ <-].
Qed.

Lemma write_event_quiet `{Platform} m t ev rc m' t' dg : tlv_tree_writer_write_event_diag m t ev None = (rc, m', t', dg) -> dg = None.
Proof.
  unfold tlv_tree_writer_write_event_diag. destruct t as [t|], ev as [ev|]; try now intros [= _ _ _ <-].
  destruct (event_malformed _ _); [now intros [= _ _ _ <-]|]. destruct (ev_kind ev); [apply begin_quiet| |apply end_quiet|].
  all: destruct (_ && _); [now intros [= _ _ _ <-]|]; destruct (output_constructed _ _ _); [now intros [= _ _ _ <-]|];
    unfold tlv_tree_writer_write_element_diag; destruct (_ || _); [now intros [= _ _ _ <-]|];
    destruct (tlv_writer_write_element_diag _ _ _ None) as [[[rc1 m1] out] dg1] eqn:E; apply writer_write_quiet in E as ->; now intros [= _ _ _ <-].
Qed.

(** The frames: only nodes open scopes. *)
Fixpoint forest_frames (fo : forest) : Z :=
  match fo with
  | FNil => 0
  | FElement _ _ rest => forest_frames rest
  | FNode _ children rest => Z.max (1 + forest_frames children) (forest_frames rest)
  end.

Lemma forest_frames_nonneg fo : 0 <= forest_frames fo.
Proof. induction fo; cbn -[Z.max]; lia. Qed.

Lemma forest_scratch_nonneg `{Platform} f `{!CodecLaws f} fo : 0 <= forest_scratch f fo.
Proof. induction fo; cbn -[Z.max]; lia. Qed.

Lemma forest_scratch_room `{Platform} f `{!CodecLaws f} fo : forest_scratch f fo <= forest_room f fo.
Proof.
  induction fo as [|tag value rest IH|tag children IHc rest IH]; cbn [forest_scratch forest_room]; [done|lia|].
  assert (zlen (default [] (forest_wire f children)) <= forest_room f children); [|lia].
  destruct (forest_wire f children) as [v|] eqn:E; [now apply forest_room_wire|]. pose proof (forest_scratch_nonneg f children). cbn. lia.
Qed.

Section Staging.
Context `{Platform} {S C : Type} (f : tlv_format_t) `{!CodecLaws f} (p : list Z -> bool)
  (Hclass : forall m tag, tag_ok tag -> is_constructed (Some f) m tag = p (tag_bytes m tag))
  (next : tlv_tree_event_next_fn S) (buf : ptr) (capacity : Z) (scratch : ptr) (scratch_capacity : Z)
  (Hcap : 0 <= capacity) (Hnull : buf = NULL -> capacity = 0) (Hsep : disjoint_range buf capacity scratch scratch_capacity)
  (ws : tlv_tree_writer_workspace_t) (Hws : ws.(ws_data_capacity) = capacity /\ ws.(ws_scratch_capacity) = scratch_capacity /\
    ws.(ws_data) = buf /\ ws.(ws_required_data) = 0 /\ ws.(ws_required_scratch) = 0)
  (max_depth max_elements : Z).

Abbreviation loop := (measure_loop f next max_depth max_elements (None : option (tree_writer_charge_fn C))).

(** A staged writer over the workspace, under the limits. *)
Definition staged (t : tlv_tree_writer_t) : Prop :=
  uses f buf capacity scratch scratch_capacity t /\ t.(tw_max_depth) = max_depth /\ t.(tw_max_elements) = max_elements.

(** An event that is staged, and one that is not. *)
Lemma loop_step fuel m s c t e s1 rc m' t' ws' :
  next s no_event = (TLV_OK, s1, e) -> event_malformed e t.(tw_depth) = false ->
  measure_event f max_depth max_elements m t ws e None = (rc, m', (t', ws'), None) ->
  loop (Datatypes.S fuel) m s c t ws None =
  if is_ok rc then loop fuel m' s1 c t' ws' None else Some (rc, m', s1, c, (t', ws'), None).
Proof using.
  intros Hn Hm He. cbn [measure_loop]. rewrite Hn. change (tlv_callback_result TLV_OK true) with TLV_OK. cbn [rc_eqb].
  rewrite is_ok_OK. cbn [negb]. rewrite Hm. unfold charge_event. rewrite is_ok_OK. cbn [negb]. rewrite He. now destruct (is_ok rc).
Qed.

(** What the remaining events of a list come to: they are staged, or storage is missing. *)
Definition stages (m : mem) (s : S) (c : C) (t : tlv_tree_writer_t) (es : list tlv_tree_event_t) (s' : S)
  (Q : mem -> tlv_tree_writer_t -> Prop) (data need : Z) : Prop :=
  (exists m' t', (forall fuel, loop (length es + fuel) m s c t ws None = loop fuel m' s' c t' ws None) /\ Q m' t' /\ staged t' /\
     only2 m m' buf capacity scratch scratch_capacity) \/
  (exists m' t' ws' s1, (forall fuel, loop (length es + fuel) m s c t ws None = Some (TLV_ERR_BUFFER_TOO_SHORT, m', s1, c, (t', ws'), None)) /\
     short data need ws ws' /\ reached next s es s1 /\ only2 m m' buf capacity scratch scratch_capacity).

Lemma stages_weaken m s c t es s' Q Q' data data' need need' :
  stages m s c t es s' Q data need -> (forall m' t', staged t' -> Q m' t' -> Q' m' t') -> data <= data' -> need <= need' ->
  stages m s c t es s' Q' data' need'.
Proof using.
  intros [(m' & t' & E & HQ & Hst & Ho)|(m' & t' & ws' & s1 & E & Hs & Ho)] Hi Hd Hn.
  - left. exists m', t'. auto.
  - right. exists m', t', ws', s1. split; [exact E|]. split; [|done]. exact (short_more _ _ _ _ _ _ Hs Hd Hn).
Qed.

(** Two lists in a row. *)
Lemma stages_app m s c t es1 s1 es2 s' Q1 Q2 data need : yields next s es1 s1 -> yields next s1 es2 s' ->
  stages m s c t es1 s1 Q1 data need ->
  (forall m1 t1, Q1 m1 t1 -> staged t1 -> only2 m m1 buf capacity scratch scratch_capacity ->
     stages m1 s1 c t1 es2 s' Q2 data need) ->
  stages m s c t (es1 ++ es2) s' Q2 data need.
Proof using.
  intros Hy1 Hy2 [(m1 & t1 & E1 & HQ & Hst & Ho1)|(m' & t' & ws' & s2 & E & Hs & Hr & Ho)] Hk.
  - destruct (Hk m1 t1 HQ Hst Ho1) as [(m2 & t2 & E2 & HQ2 & Hst2 & Ho2)|(m' & t' & ws' & s2 & E & Hs & Hr & Ho)].
    + left. exists m2, t2. split; [|split; [done|split; [done|exact (only2_trans _ _ _ _ _ _ _ Ho1 Ho2)]]].
      intros fuel. rewrite length_app, <- Nat.add_assoc, E1. apply E2.
    + right. exists m', t', ws', s2. split; [intros fuel; rewrite length_app, <- Nat.add_assoc, E1; apply E|].
      split; [done|]. split; [exact (reached_app _ _ _ _ _ _ Hy1 Hr)|exact (only2_trans _ _ _ _ _ _ _ Ho1 Ho)].
  - right. exists m', t', ws', s2. split; [intros fuel; rewrite length_app, <- Nat.add_assoc; apply E|].
    split; [done|]. split; [now apply reached_prefix|done].
Qed.

(** A step that writes. *)
Lemma stage_written m s c t e s' m' t' (Q : mem -> tlv_tree_writer_t -> Prop) data need :
  next s no_event = (TLV_OK, s', e) -> event_malformed e t.(tw_depth) = false ->
  measure_event f max_depth max_elements m t ws e None =
    (let '(rc, m, writer, diagnostic) := tlv_tree_writer_write_event_diag m (Some t) (Some e) None in
     (rc, m, (cell t writer, ws), diagnostic)) ->
  tlv_tree_writer_write_event m (Some t) (Some e) = (TLV_OK, m', Some t') -> Q m' t' -> staged t' ->
  only2 m m' buf capacity scratch scratch_capacity ->
  stages m s c t [e] s' Q data need.
Proof using.
  intros Hn Hmal Eev Ewr HQ Hst Ho. left. unfold tlv_tree_writer_write_event in Ewr.
  destruct (tlv_tree_writer_write_event_diag m (Some t) (Some e) None) as [[[rc m1] wr] dg] eqn:Ed. injection Ewr as -> -> ->.
  apply write_event_quiet in Ed as Eq; subst dg. exists m', t'. split; [|done].
  intros fuel. cbn [length Nat.add]. now rewrite (loop_step fuel m s c t e s' _ _ _ _ Hn Hmal Eev), is_ok_OK.
Qed.

(** A step that misses storage. *)
Lemma stage_short m s c t e s' ws' Q data need :
  next s no_event = (TLV_OK, s', e) -> event_malformed e t.(tw_depth) = false ->
  measure_event f max_depth max_elements m t ws e None = (TLV_ERR_BUFFER_TOO_SHORT, m, (t, ws'), None) ->
  short data need ws ws' -> stages m s c t [e] s' Q data need.
Proof using.
  intros Hn Hmal Eev Hs. right. exists m, t, ws', s'. split.
  - intros fuel. cbn [length Nat.add]. now rewrite (loop_step fuel m s c t e s' _ _ _ _ Hn Hmal Eev).
  - split; [exact Hs|]. split; [|apply only2_refl]. exists [e], []. split; [done|]. cbn. eauto.
Qed.

(** A primitive element. *)
Lemma stage_leaf m s c t e s' value w :
  next s no_event = (TLV_OK, s', e) -> staged t -> event_ok buf capacity scratch scratch_capacity e ->
  e.(ev_kind) = TLV_TREE_ELEMENT -> e.(ev_depth) = t.(tw_depth) ->
  value_bytes m e.(ev_element).(e_value) = value -> p (tag_bytes m e.(ev_element).(e_tag)) = false ->
  cl_wire (tag_bytes m e.(ev_element).(e_tag)) value = Some w ->
  t.(tw_output).(w_pos) + zlen w <= SIZE_MAX -> t.(tw_depth) <= max_depth -> t.(tw_count) < max_elements ->
  stages m s c t [e] s' (fun m' t' => wrote f buf capacity scratch scratch_capacity t t' (zlen w) 1 /\
    wrote_mem buf capacity scratch scratch_capacity m m' t w) (t.(tw_output).(w_pos) + zlen w) 0.
Proof using Hcap Hclass Hnull Hws.
  intros Hn [Hu [Hmd Hme]] Hev Hk Hdp Hval Hp Hw Hfit Hd Hc. pose proof Hev as (Hsk & [Htag Hvalue] & Hap).
  pose proof Hu as [Ht Hf Hb Hcp Hsc Hscc Htg]. pose proof Ht as [[Hpos Hpc _ _] _ _ _ _ _].
  assert (event_malformed e t.(tw_depth) = false) as Hmal
    by (unfold event_malformed; now rewrite Hsk, Hk, Hdp, Z.eqb_refl).
  destruct Hws as (Hcd & Hcs & _ & Hrd & Hrs).
  assert (measure_event f max_depth max_elements m t ws e None =
    let '(rc, ws1, diagnostic) := measure_storage m t e.(ev_element) t.(tw_output).(w_pos) false ws None in
    if negb (is_ok rc) then (rc, m, (t, ws1), diagnostic)
    else let '(rc, m, writer, diagnostic) := tlv_tree_writer_write_event_diag m (Some t) (Some e) diagnostic in
         (rc, m, (cell t writer, ws1), diagnostic)) as Eev.
  { unfold measure_event. rewrite Hk, (proj2 (Z.ltb_ge max_depth _)), (proj2 (Z.leb_gt max_elements _)) by lia. cbn [orb].
    replace (negb (t_size (e_tag (ev_element e)) =? 0) && is_null (t_data (e_tag (ev_element e)))) with false
      by (destruct (t_data (e_tag (ev_element e))) eqn:E; [rewrite (proj2 Htag) by done; done|now rewrite andb_false_r]).
    now rewrite (Hclass m _ Htag), Hp. }
  assert (0 <= scratch_capacity) as Hsc0 by (pose proof (tw_scratch_ok _ Ht); lia).
  assert (cl_wire (tag_bytes m (e_tag (ev_element e))) (value_bytes m (e_value (ev_element e))) = Some w) as Hw' by now rewrite Hval.
  destruct (measure_storage_run f m t e.(ev_element) w t.(tw_output).(w_pos) false ws Hf (conj Htag Hvalue) Hw'
    ltac:(lia) Hfit ltac:(lia) ltac:(lia) ltac:(lia) Hrd Hrs) as [(Es & Hfits & _)|(ws' & Es & Hs)]; rewrite Es in Eev.
  - rewrite is_ok_OK in Eev. cbn [negb] in Eev. pose proof (cl_wire_length _ _ _ Hw).
    assert (buf <> NULL) as Hbn by (intros E; specialize (Hnull E); lia).
    destruct (write_leaf f p Hclass buf capacity scratch scratch_capacity Hbn m t e value w Hu Hev Hk Hdp Hval Hp Hw ltac:(lia)
      ltac:(lia) ltac:(lia)) as (m' & t' & Ewr & Hwr & Hmem).
    eapply (stage_written m s c t e s' m' t' _ _ _ Hn Hmal Eev Ewr); [done| |eapply wrote_mem_only2; [|exact Hmem]; lia].
    split; [apply Hwr|]. destruct (wr_limits _ _ _ _ _ _ _ _ _ Hwr) as (_ & E1 & E2). rewrite E1, E2. done.
  - eapply (stage_short m s c t e s' ws'); done.
Qed.

(** Opening a node. *)
Lemma stage_begin m s c t e s' :
  next s no_event = (TLV_OK, s', e) -> staged t -> event_ok buf capacity scratch scratch_capacity e ->
  e.(ev_kind) = TLV_TREE_BEGIN -> e.(ev_depth) = t.(tw_depth) -> p (tag_bytes m e.(ev_element).(e_tag)) = true ->
  t.(tw_depth) <= max_depth -> t.(tw_count) < max_elements -> t.(tw_depth) < t.(tw_capacity) ->
  stages m s c t [e] s' (fun m' t' => m' = m /\ t' = push_frame t e.(ev_element).(e_tag) t.(tw_tags_used) /\ wactive t' = mk_wframe e.(ev_element).(e_tag) t.(tw_output).(w_pos) :: wactive t) 0 0.
Proof using Hclass.
  intros Hn [Hu [Hmd Hme]] Hev Hk Hdp Hp Hd Hc Hcd. pose proof Hev as (Hsk & _ & _).
  destruct (write_begin f p Hclass buf capacity scratch scratch_capacity m t e Hu Hev Hk Hdp Hp ltac:(lia) ltac:(lia) Hcd) as (Ewr & Hu' & Ha).
  eapply (stage_written m s c t e s' m); [exact Hn| | |exact Ewr|done|done|apply only2_refl].
  - unfold event_malformed. now rewrite Hsk, Hk, Hdp, Z.eqb_refl.
  - unfold measure_event. now rewrite Hk.
Qed.

(** Closing a node whose value has been staged. *)
Lemma stage_end m s c t e s' fr fs value w :
  next s no_event = (TLV_OK, s', e) -> staged t -> e.(ev_kind) = TLV_TREE_END -> e.(ev_skipped) = false ->
  e.(ev_depth) = t.(tw_depth) - 1 -> t.(tw_depth) <> 0 -> wactive t = fr :: fs -> tag_ok fr.(wf_tag) ->
  disjoint_range buf capacity fr.(wf_tag).(t_data) fr.(wf_tag).(t_size) ->
  disjoint_range scratch scratch_capacity fr.(wf_tag).(t_data) fr.(wf_tag).(t_size) ->
  t.(tw_output).(w_pos) = fr.(wf_start) + zlen value -> bytes_of m (buf +p fr.(wf_start)) (zlen value) = value ->
  cl_wire (tag_bytes m fr.(wf_tag)) value = Some w -> fr.(wf_start) + zlen w <= SIZE_MAX ->
  stages m s c t [e] s' (fun m' t' =>
    t'.(tw_output).(w_pos) = fr.(wf_start) + zlen w /\ wactive t' = fs /\ t'.(tw_depth) = t.(tw_depth) - 1 /\
    (t'.(tw_capacity) = t.(tw_capacity) /\ t'.(tw_max_depth) = t.(tw_max_depth) /\
    t'.(tw_max_elements) = t.(tw_max_elements) /\ t'.(tw_count) = t.(tw_count)) /\
    only2 m m' (buf +p fr.(wf_start)) (capacity - fr.(wf_start)) scratch scratch_capacity /\
    bytes_of m' (buf +p fr.(wf_start)) (zlen w) = w) (fr.(wf_start) + zlen w) (zlen value).
Proof using Hcap Hnull Hsep Hws.
  intros Hn [Hu [Hmd Hme]] Hk Hsk Hdp Hz Ha Htag Hap1 Hap2 Hpos Hval Hw Hfit.
  pose proof Hu as [Ht Hf Hb Hcp Hsc Hscc Htg]. pose proof Ht as [[Hp Hpc _ _] Hst Hdeep _ [Hscr _] Hs].
  rewrite Ha in Hs. destruct Hs as [Hs _]. destruct (wactive_top t fr fs ltac:(lia) Hz Ha) as [Efr _].
  assert (event_malformed e t.(tw_depth) = false) as Hmal
    by (unfold event_malformed; rewrite Hsk, Hk, Hdp, Z.eqb_refl, (proj2 (Z.eqb_neq _ _) Hz); done).
  destruct Hws as (Hcd & Hcs & Hwd & Hrd & Hrs).
  set (e1 := mk_element fr.(wf_tag) (mk_value (if negb (is_null buf) then buf +p fr.(wf_start) else NULL) (zlen value))).
  assert (element_ok e1 /\ value_bytes m e1.(e_value) = value) as [Hok Hvb].
  { unfold e1. destruct buf as [|b o] eqn:Eb; cbn [is_null negb].
    - specialize (Hnull eq_refl). split.
      + split; [done|]. split; cbn; [pose proof SIZE_MAX_bounds|]; lia.
      + unfold value_bytes. cbn. destruct value; [done|]. cbn [length] in Hpos. lia.
    - split; [split; [done|split; cbn; [pose proof SIZE_MAX_bounds; lia|done]]|exact Hval]. }
  assert (measure_event f max_depth max_elements m t ws e None =
    let '(rc, ws1, diagnostic) := measure_storage m t e1 fr.(wf_start) true ws None in
    if is_ok rc then let '(rc, m, writer, diagnostic) := tlv_tree_writer_end_diag m (Some t) diagnostic in
         (rc, m, (cell t writer, ws1), diagnostic) else (rc, m, (t, ws1), diagnostic)) as Eev.
  { unfold measure_event. rewrite Hk. unfold measure_close. rewrite Efr, Hwd, usize_small by lia.
    replace (w_pos (tw_output t) - wf_start fr) with (zlen value) by lia. done. }
  assert (cl_wire (tag_bytes m e1.(e_tag)) (value_bytes m e1.(e_value)) = Some w) as Hw' by now rewrite Hvb.
  destruct (measure_storage_run f m t e1 w fr.(wf_start) true ws Hf Hok Hw' ltac:(lia) Hfit ltac:(lia) ltac:(lia) ltac:(lia) Hrd Hrs)
    as [(Es & Hfits & Hacc)|(ws' & Es & Hsh)]; rewrite Es in Eev.
  - pose proof (cl_wire_length _ _ _ Hw). assert (buf <> NULL) as Hbn by (intros E; specialize (Hnull E); lia).
    specialize (Hacc eq_refl).
    destruct (write_end f buf capacity scratch scratch_capacity Hbn Hsep m t e fr fs value w Hu Hk Hsk Hdp Hz Ha Htag Hap1 Hap2
      Hpos Hval Hw ltac:(lia) ltac:(lia)) as (m' & t' & Ewr & Hu' & H1 & H2 & H3 & H4 & H5 & H6).
    eapply (stage_written m s c t e s' m' t'); [exact Hn|exact Hmal| |exact Ewr|done| |eapply only2_sub; [| |exact H5]; lia].
    + rewrite Eev, is_ok_OK. unfold tlv_tree_writer_write_event_diag. now rewrite Hmal, Hk.
    + split; [done|]. destruct H4 as (_ & -> & -> & _). done.
  - eapply stage_short; [exact Hn|exact Hmal|exact Eev|]. eapply short_more; [exact Hsh|lia|lia].
Qed.

(** The sources and budgets that staging [fo] at [t] needs; the room it needs is what is measured. *)
Record stageable (m : mem) (t : tlv_tree_writer_t) (es : list tlv_tree_event_t) (fo : forest) : Prop := {
  sg_staged : staged t;
  sg_events : Forall (event_ok buf capacity scratch scratch_capacity) es;
  sg_view : outlines m es = map outline (forest_events f t.(tw_depth) fo);
  sg_class : classified p fo = true;
  sg_room : t.(tw_output).(w_pos) + forest_room f fo <= SIZE_MAX;
  sg_depth : t.(tw_depth) + forest_levels fo <= max_depth + 1 /\ t.(tw_depth) + forest_frames fo <= t.(tw_capacity);
  sg_count : t.(tw_count) + forest_size fo <= max_elements }.

(** The forest is staged behind what was there. *)
Definition grown (m : mem) (t : tlv_tree_writer_t) (w : list Z) (k : Z) (m' : mem) (t' : tlv_tree_writer_t) : Prop :=
  wrote f buf capacity scratch scratch_capacity t t' (zlen w) k /\ wrote_mem buf capacity scratch scratch_capacity m m' t w.

Definition stages_forest (fo : forest) : Prop :=
  forall m s c t es s' w, forest_wire f fo = Some w -> stageable m t es fo -> yields next s es s' ->
    stages m s c t es s' (grown m t w (forest_size fo)) (t.(tw_output).(w_pos) + forest_room f fo) (forest_scratch f fo).

Lemma staged_grown m t w k m' t' : staged t -> grown m t w k m' t' -> staged t'.
Proof using.
  intros (_ & Hmd & Hme) [Hwr _]. split; [apply Hwr|]. destruct (wr_limits _ _ _ _ _ _ _ _ _ Hwr) as (_ & -> & ->). done.
Qed.

(** A node, when its children are staged by the callback [IH]. *)
Lemma stage_node m s c t eb es ee s' children tag v w :
  stages_forest children -> staged t -> Forall (event_ok buf capacity scratch scratch_capacity) (eb :: es ++ [ee]) ->
  outlines m (eb :: es ++ [ee]) =
    (TLV_TREE_BEGIN, t.(tw_depth), tag, []) ::
    map outline (forest_events f (t.(tw_depth) + 1) children) ++ [(TLV_TREE_END, t.(tw_depth), [], [])] ->
  classified p children = true -> p tag = true -> forest_wire f children = Some v -> cl_wire tag v = Some w ->
  t.(tw_output).(w_pos) + Z.max (forest_room f children) (zlen w) <= SIZE_MAX ->
  t.(tw_depth) + 1 + forest_levels children <= max_depth + 1 /\
  t.(tw_depth) + 1 + forest_frames children <= t.(tw_capacity) ->
  t.(tw_count) + 1 + forest_size children <= max_elements -> yields next s (eb :: es ++ [ee]) s' ->
  stages m s c t (eb :: es ++ [ee]) s' (grown m t w (1 + forest_size children))
    (t.(tw_output).(w_pos) + Z.max (forest_room f children) (zlen w)) (Z.max (zlen v) (forest_scratch f children)).
Proof using Hcap Hclass Hnull Hsep Hws.
  intros IH Hst Hev Hout Hcl Hp Hv Hw Hroom Hdep Hcnt Hy.
  pose proof (forest_levels_nonneg children) as Hlev. pose proof (forest_frames_nonneg children) as Hfrm. pose proof (forest_size_nonneg children) as Hsz.
  pose proof (forest_room_wire f children v Hv) as Hvl.
  apply outlines_cons in Hout as (? & ? & [= <- <-] & Hb & Hout). unfold outlines in Hout. rewrite map_app in Hout.
  apply app_inj_2 in Hout as [Hch He]; [|done]. injection He as Hek Hed _ _.
  inversion_clear Hev as [|? ? Heb Hev']. apply Forall_app in Hev' as [Hes Hee]. inversion_clear Hee as [|? ? Hee' _].
  unfold outline, view in Hb. cbn in Hb. injection Hb as Hbk Hbd Hbt _.
  pose proof Hst as [Hu _]. pose proof (us_ok _ _ _ _ _ _ Hu) as [[Hpos _ _ _] _ Hdeep _ [Hsc0 _] _].
  rewrite (us_capacity _ _ _ _ _ _ Hu) in Hpos. rewrite (us_scratch_capacity _ _ _ _ _ _ Hu) in Hsc0.
  destruct Hy as (s1 & Hn & Hy). apply yields_app in Hy as (s2 & Hy1 & Hy2).
  change (eb :: es ++ [ee]) with ([eb] ++ (es ++ [ee])).
  assert (t.(tw_depth) < t.(tw_capacity)) as Hroomd by lia.
  eapply (stages_app m s c t [eb] s1 (es ++ [ee]) s'); [cbn; eauto|apply yields_app; eauto| |].
  { eapply stages_weaken; [apply (stage_begin m s c t eb s1 Hn Hst Heb Hbk Hbd); [now rewrite Hbt|lia|lia|lia]|intros m' t' _ Hq; exact Hq|lia|lia]. }
  intros m0 t1 (-> & -> & Ha1) Hst1 _. set (t1 := push_frame t (e_tag (ev_element eb)) (tw_tags_used t)) in *.
  assert (tw_depth t1 = tw_depth t + 1 /\ tw_output t1 = tw_output t /\ tw_count t1 = tw_count t + 1 /\ tw_capacity t1 = tw_capacity t)
    as (E1 & E2 & E3 & E4) by done.
  apply (stages_app m s1 c t1 es s2 [ee] s' (grown m t1 v (forest_size children)) _ _ _ Hy1 Hy2).
  { eapply stages_weaken; [apply (IH m s1 c t1 es s2 v Hv); [|exact Hy1]|intros m' t' _ Hq; exact Hq|rewrite E2; lia|lia].
    split; rewrite ?E1, ?E2, ?E3, ?E4; done || lia. }
  intros m2 t2 [Hwr2 Hmem2] Hst2 Hm2. pose proof Hwr2 as [_ Hpos2 Ha2 Hd2 [Hl1 _] Hc2]. rewrite E1 in Hd2. rewrite E2 in Hpos2.
  assert (tag_bytes m2 (e_tag (ev_element eb)) = tag) as Htb2.
  { pose proof (element_octets_only2 _ _ _ _ _ _ _ (proj2 (proj2 Heb)) Hm2) as Eo. now injection Eo as ->. }
  destruct Heb as (_ & [Htag _] & [Hap1 _] & [Hap2 _]). destruct Hmem2 as [Ho2 Hb2]. rewrite E2 in Ho2, Hb2.
  destruct Hy2 as (s3 & Hn2 & Hy2). cbn [yields] in Hy2. subst s3.
  eapply stages_weaken; [apply (stage_end m2 s2 c t2 ee s' (mk_wframe (e_tag (ev_element eb)) (w_pos (tw_output t))) (wactive t) v w)| | |];
    cbn [wf_tag wf_start]; try done; try lia; try congruence; [apply Hee'|].
  intros m3 t3 Hst3 (Hpos3 & Ha3 & Hd3 & (Hl1' & Hl2' & Hl3' & Hc3) & Ho3 & Hb3). split.
  - split; try done; try lia; [apply Hst3|]. destruct Hst3 as (_ & -> & ->), Hst as (_ & -> & ->). split; [lia|done].
  - split; [|exact Hb3]. exact (only2_trans _ _ _ _ _ _ _ Ho2 Ho3).
Qed.

(** What follows an element or a node that has been staged. *)
Lemma stageable_rest m m1 t t1 es rest w k :
  grown m t w k m1 t1 -> staged t -> 0 <= t.(tw_output).(w_pos) <= capacity ->
  Forall (event_ok buf capacity scratch scratch_capacity) es ->
  outlines m es = map outline (forest_events f t.(tw_depth) rest) ->
  classified p rest = true -> t.(tw_output).(w_pos) + zlen w + forest_room f rest <= SIZE_MAX ->
  t.(tw_depth) + forest_levels rest <= max_depth + 1 /\ t.(tw_depth) + forest_frames rest <= t.(tw_capacity) ->
  t.(tw_count) + k + forest_size rest <= max_elements -> stageable m1 t1 es rest.
Proof using.
  intros Hg Hst Hp Hes Hview Hcl Hroom Hdep Hcnt. pose proof (staged_grown _ _ _ _ _ _ Hst Hg) as Hst1. destruct Hg as [Hwr Hmem].
  pose proof (wrote_mem_only2 _ _ _ _ _ _ _ _ Hp Hmem) as Ho. destruct Hwr as [Hu1 Hp1 _ Hd1 (Hl1 & Hl2 & Hl3) Hc1].
  split; try done; rewrite ?Hl1, ?Hl2, ?Hl3, ?Hd1; try lia.
  rewrite <- Hview. eapply outlines_only2; eassumption.
Qed.

Lemma grown_app m t w1 k1 m1 t1 w2 k2 m2 t2 : staged t -> 0 <= t.(tw_output).(w_pos) -> t1.(tw_output).(w_pos) <= capacity ->
  (w1 <> [] -> buf <> NULL) -> grown m t w1 k1 m1 t1 -> grown m1 t1 w2 k2 m2 t2 -> grown m t (w1 ++ w2) (k1 + k2) m2 t2.
Proof using Hnull Hsep Hws.
  intros Hst H0 H1 Hb [Hw1 Hm1] [Hw2 Hm2]. unfold grown. rewrite length_app, Nat2Z.inj_add.
  pose proof (wr_pos _ _ _ _ _ _ _ _ _ Hw1) as Hp. split; [exact (wrote_trans _ _ _ _ _ _ _ _ _ _ _ _ Hw1 Hw2)|].
  destruct buf as [|b o] eqn:Eb.
  - destruct w1 as [|x w1]; [|destruct (Hb ltac:(done) eq_refl)]. cbn [length] in Hp. rewrite Z.add_0_r in Hp.
    destruct Hm1 as [Ho1 _], Hm2 as [Ho2 Hb2]. unfold wrote_mem. cbn [app]. rewrite Hp in *.
    split; [exact (only2_trans _ _ _ _ _ _ _ Ho1 Ho2)|exact Hb2].
  - eapply (wrote_mem_app f (Ptr b o) capacity scratch scratch_capacity ltac:(discriminate) Hsep m m1 m2 t t1 w1 w2 k1); try done. lia.
Qed.

Lemma stage_forest fo : stages_forest fo.
Proof using Hcap Hclass Hnull Hsep Hws.
  induction fo as [|tag value rest IH|tag children IHc rest IH]; intros m s c t es s' w Hw [Hst Hev Hview Hcl Hroom Hdep Hcnt] Hy;
    cbn in Hw, Hview, Hcl, Hroom, Hdep, Hcnt |- *; pose proof Hst as [Hu _]; pose proof (us_ok _ _ _ _ _ _ Hu) as [[Hpos _ _ _] _ _ _ _ _];
    rewrite (us_capacity _ _ _ _ _ _ Hu) in Hpos.
  - injection Hw as <-. apply map_eq_nil in Hview as ->. cbn [yields] in Hy. subst s'. left. exists m, t.
    split; [done|]. split; [|split; [done|apply only2_refl]].
    split; [split; try done; cbn; lia|]. split; [apply only2_refl|]. cbn. now rewrite bytes_of_0.
  - destruct (cl_wire tag value) as [w1|] eqn:Ew1; [|done]. destruct (forest_wire f rest) as [w2|] eqn:Ew2; [|done].
    injection Hw as <-. cbn in Hroom |- *. apply andb_true_iff in Hcl as [Hp Hcl]. apply negb_true_iff in Hp.
    pose proof (forest_size_nonneg rest) as Hsz. pose proof (forest_levels_nonneg rest). pose proof (forest_frames_nonneg rest). pose proof (forest_room_wire f rest w2 Ew2) as Hrw.
    pose proof (cl_wire_length _ _ _ Ew1) as Hwl. pose proof (forest_scratch_nonneg f rest) as Hs0.
    apply outlines_cons in Hview as (e & es' & -> & Hv & Hview). inversion_clear Hev as [|? ? He Hes].
    unfold outline, view in Hv. injection Hv as Hk Hd Htag Hval. rewrite Hk in Hval.
    destruct Hy as (s1 & Hn & Hy). change (e :: es') with ([e] ++ es').
    eapply (stages_app m s c t [e] s1 es' s'); [cbn; eauto|done| |].
    { eapply stages_weaken; [apply (stage_leaf m s c t e s1 value w1); rewrite ?Htag; try done; lia|intros ? ? _ Hq; exact Hq|lia|lia]. }
    intros m1 t1 Hg Hst1 _. pose proof (wr_pos _ _ _ _ _ _ _ _ _ (proj1 Hg)) as Hp1.
    pose proof (us_ok _ _ _ _ _ _ (proj1 Hst1)) as [[Hpos1 _ _ _] _ _ _ _ _]. rewrite (us_capacity _ _ _ _ _ _ (proj1 Hst1)) in Hpos1.
    eapply stages_weaken; [apply (IH m1 s1 c t1 es' s' w2 Ew2); [|exact Hy]| | |].
    + apply (stageable_rest m m1 t t1 es' rest w1 1); try done; lia.
    + intros m2 t2 _ Hg2. apply (grown_app m t w1 1 m1 t1); try done; try lia. intros _ Hb. specialize (Hnull Hb). lia.
    + lia.
    + lia.
  - destruct (forest_wire f children) as [v|] eqn:Ev; [|done]. cbn in Hroom |- *.
    destruct (cl_wire tag v) as [w1|] eqn:Ew1; [|done]. destruct (forest_wire f rest) as [w2|] eqn:Ew2; [|done].
    injection Hw as <-. cbn in Hroom |- *. apply andb_true_iff in Hcl as [Hcl Hclr]. apply andb_true_iff in Hcl as [Hp Hcl].
    pose proof (forest_size_nonneg rest) as Hsz. pose proof (forest_size_nonneg children) as Hszc. pose proof (cl_wire_length _ _ _ Ew1) as Hwl.
    pose proof (forest_levels_nonneg rest). pose proof (forest_frames_nonneg rest). pose proof (forest_room_wire f rest w2 Ew2).
    apply outlines_cons in Hview as (eb & es' & -> & Hb & Hview).
    rewrite map_app in Hview. unfold outlines in Hview. apply map_eq_app in Hview as (ec & es2 & -> & Hc & Hview).
    cbn [map] in Hview. apply map_eq_cons in Hview as (ee & er & -> & He & Hview).
    replace (eb :: ec ++ ee :: er) with ((eb :: ec ++ [ee]) ++ er) in * by (cbn; now rewrite <- app_assoc).
    apply Forall_app in Hev as [Hev Her]. apply yields_app in Hy as (s1 & Hy1 & Hy2).
    eapply (stages_app m s c t (eb :: ec ++ [ee]) s1 er s'); [done|done| |].
    { eapply stages_weaken; [apply (stage_node m s c t eb ec ee s1 children tag v w1); try done; try lia|intros ? ? _ Hq; exact Hq|lia|lia].
      unfold outlines. cbn [map]. rewrite Hb, map_app, Hc. cbn [map]. now rewrite He. }
    intros m1 t1 Hg Hst1 _. pose proof (wr_pos _ _ _ _ _ _ _ _ _ (proj1 Hg)) as Hp1.
    pose proof (us_ok _ _ _ _ _ _ (proj1 Hst1)) as [[Hpos1 _ _ _] _ _ _ _ _]. rewrite (us_capacity _ _ _ _ _ _ (proj1 Hst1)) in Hpos1.
    eapply stages_weaken; [apply (IH m1 s1 c t1 er s' w2 Ew2); [|exact Hy2]| | |].
    + apply (stageable_rest m m1 t t1 er rest w1 (1 + forest_size children)); try done; lia.
    + intros m2 t2 _ Hg2. apply (grown_app m t w1 (1 + forest_size children) m1 t1); try done; try lia. intros _ Hbn. specialize (Hnull Hbn). lia.
    + lia.
    + lia.
Qed.
End Staging.

Section Measured.
Context `{Platform} {S : Type} (f : tlv_format_t) `{!CodecLaws f} (p : list Z -> bool)
  (Hclass : forall m tag, tag_ok tag -> is_constructed (Some f) m tag = p (tag_bytes m tag))
  (Hwrite : tlv_format_can_write (Some f) = true).

(** A workspace: its frames are an array, its buffers are apart. *)
Record workspace_ok (ws : tlv_tree_writer_workspace_t) : Prop := {
  wo_frames : zlen (default [] ws.(ws_frames)) = ws.(ws_frame_capacity);
  wo_data : 0 <= ws.(ws_data_capacity) <= SIZE_MAX /\ (ws.(ws_data) = NULL -> ws.(ws_data_capacity) = 0);
  wo_scratch : 0 <= ws.(ws_scratch_capacity) <= SIZE_MAX /\ (ws.(ws_scratch) = NULL -> ws.(ws_scratch_capacity) = 0);
  wo_apart : disjoint_range ws.(ws_data) ws.(ws_data_capacity) ws.(ws_scratch) ws.(ws_scratch_capacity) }.

(** A producer of a forest within the limits. *)
Record produces (m : mem) (ws : tlv_tree_writer_workspace_t) (next : tlv_tree_event_next_fn S) (s : S)
  (es : list tlv_tree_event_t) (s' : S) (fo : forest) (max_depth max_elements : Z) : Prop := {
  pr_yields : yields next s es s';
  pr_end : next s' no_event = (TLV_END, s', no_event);
  pr_events : Forall (event_ok ws.(ws_data) ws.(ws_data_capacity) ws.(ws_scratch) ws.(ws_scratch_capacity)) es;
  pr_view : outlines m es = map outline (forest_events f 0 fo);
  pr_class : classified p fo = true;
  pr_room : forest_room f fo <= SIZE_MAX;
  pr_depth : forest_levels fo <= max_depth + 1 /\ forest_frames fo <= ws.(ws_frame_capacity);
  pr_count : forest_size fo <= max_elements }.

Lemma measured_forest m ws next s es s' fo w max_depth max_elements fuel x :
  workspace_ok ws -> forest_wire f fo = Some w -> produces m ws next s es s' fo max_depth max_elements -> (length es < fuel)%nat ->
  exists m', only2 m m' ws.(ws_data) ws.(ws_data_capacity) ws.(ws_scratch) ws.(ws_scratch_capacity) /\
    ((tlv_tree_writer_measure_events fuel m (Some f) (Some next) s (Some ws) max_depth max_elements (Some x) None =
        Some (TLV_OK, m', s', tt, Some (with_required 0 0 ws), Some (zlen w), None) /\
      bytes_of m' ws.(ws_data) (zlen w) = w /\ zlen w <= ws.(ws_data_capacity)) \/
     (exists s1 ws', tlv_tree_writer_measure_events fuel m (Some f) (Some next) s (Some ws) max_depth max_elements (Some x) None =
        Some (TLV_ERR_BUFFER_TOO_SHORT, m', s1, tt, Some ws', Some x, None) /\
      short (forest_room f fo) (forest_scratch f fo) ws ws' /\ reached next s es s1)).
Proof using Hclass Hwrite.
  intros [Hfr [Hdc Hdn] [Hsc Hsn] Hsep] Hw [Hy Hend Hev Hview Hcl Hroom Hdep Hcnt] Hfuel.
  set (ws0 := with_required 0 0 ws).
  set (t := mk_tree_writer (mk_writer (Some f) ws.(ws_data) ws.(ws_data_capacity) 0) ws.(ws_frames) ws.(ws_frame_capacity) 0 max_depth
              max_elements 0 ws.(ws_scratch) ws.(ws_scratch_capacity) NULL 0 0).
  pose proof (forest_size_nonneg fo) as Hsz.
  assert (uses f ws.(ws_data) ws.(ws_data_capacity) ws.(ws_scratch) ws.(ws_scratch_capacity) t) as Hu
    by (split; try done; split; cbn; [split; cbn; done || lia|done|lia|lia|done|done]).
  assert (tlv_tree_writer_init (Some no_tree_writer) ws.(ws_data) ws.(ws_data_capacity) (Some f) ws.(ws_frames) ws.(ws_frame_capacity)
    ws.(ws_scratch) ws.(ws_scratch_capacity) max_depth max_elements = (TLV_OK, Some t)) as Hinit.
  { unfold tlv_tree_writer_init, tlv_writer_init. rewrite Hwrite.
    replace (negb (is_some (ws_frames ws)) && negb (ws_frame_capacity ws =? 0)) with false
      by (destruct (ws_frames ws); [done|]; cbn in Hfr; now rewrite <- Hfr).
    replace (is_null (ws_scratch ws) && negb (ws_scratch_capacity ws =? 0)) with false by (destruct (ws_scratch ws); [rewrite Hsn by done|]; done).
    replace (is_null (ws_data ws) && negb (ws_data_capacity ws =? 0)) with false by (destruct (ws_data ws); [rewrite Hdn by done|]; done).
    done. }
  unfold tlv_tree_writer_measure_events, tree_writer_measure_events_observed. cbn [with_required ws_data ws_data_capacity ws_frames ws_frame_capacity ws_scratch ws_scratch_capacity].
  rewrite Hinit, is_ok_OK. cbn [negb cell]. fold ws0.
  replace fuel with (length es + (fuel - length es))%nat by lia.
  pose proof (stage_forest (C := unit) f p Hclass next ws.(ws_data) ws.(ws_data_capacity) ws.(ws_scratch) ws.(ws_scratch_capacity)
    (proj1 Hdc) Hdn Hsep ws0 ltac:(done) max_depth max_elements fo m s tt t es s' w Hw) as Hstage.
  destruct Hstage as [(m' & t' & E & [Hwr Hmem] & [Hu' _] & Ho)|(m' & t' & ws' & s1 & E & Hsh & Hr & Ho)].
  - split; try done; cbn; lia.
  - done.
  - exists m'. split; [done|]. left. rewrite E. pose proof (us_ok _ _ _ _ _ _ Hu') as [[Hpos' _ _ _] _ _ _ _ _].
    pose proof (wr_pos _ _ _ _ _ _ _ _ _ Hwr) as Hp. pose proof (wr_depth _ _ _ _ _ _ _ _ _ Hwr) as Hd. cbn in Hp, Hd.
    rewrite (us_capacity _ _ _ _ _ _ Hu') in Hpos'.
    destruct (fuel - length es)%nat as [|n] eqn:En; [lia|]. cbn [measure_loop]. rewrite Hend. 
    change (rc_eqb (tlv_callback_result TLV_END true) TLV_END) with true. cbv beta iota zeta. rewrite is_ok_OK. cbn [negb].
    unfold tlv_tree_writer_size. rewrite Hd, Hp. cbn [Z.eqb negb]. split; [done|].
    destruct Hmem as [_ Hb]. cbn [t tw_output w_pos] in Hb. rewrite padd_0 in Hb. split; [done|lia].
  - exists m'. split; [done|]. right. exists s1, ws'. rewrite E. change (is_ok TLV_ERR_BUFFER_TOO_SHORT) with false. cbn [negb].
    split; [done|]. split; [|done].
    destruct Hsh as (rd & rs & -> & Hr1 & Hr2 & Hr3). exists rd, rs. split; [done|]. split; [done|]. cbn in Hr2, Hr3. lia.
Qed.

(** Measuring the events of a forest, with any format that has the laws of a codec, either stages the
    whole encoding and returns exactly its size, or returns BUFFER_TOO_SHORT and names storage that is
    more than the workspace has and no more than the forest needs; it succeeds when the workspace is
    enough.  Nothing outside the workspace changes. *)
Theorem measure_events_exact (m : mem) (ws : tlv_tree_writer_workspace_t) (next : tlv_tree_event_next_fn S) (s s' : S)
  (es : list tlv_tree_event_t) (fo : forest) (w : list Z) (max_depth max_elements : Z) (fuel : nat) (x : Z)
  (Hws : workspace_ok ws) (Hw : forest_wire f fo = Some w) (Hpr : produces m ws next s es s' fo max_depth max_elements)
  (Hfuel : (length es < fuel)%nat) :
  exists rc m' s1 ws' size,
    tlv_tree_writer_measure_events fuel m (Some f) (Some next) s (Some ws) max_depth max_elements (Some x) None =
      Some (rc, m', s1, tt, Some ws', Some size, None) /\
    only2 m m' ws.(ws_data) ws.(ws_data_capacity) ws.(ws_scratch) ws.(ws_scratch_capacity) /\
    ((rc = TLV_OK /\ size = zlen w /\ bytes_of m' ws.(ws_data) (zlen w) = w) \/
     (rc = TLV_ERR_BUFFER_TOO_SHORT /\ short (forest_room f fo) (forest_scratch f fo) ws ws')) /\
    (forest_room f fo <= ws.(ws_data_capacity) -> forest_scratch f fo <= ws.(ws_scratch_capacity) -> rc = TLV_OK).
Proof.
  destruct (measured_forest m ws next s es s' fo w max_depth max_elements fuel x Hws Hw Hpr Hfuel)
    as (m' & Ho & [(E & Hb & _)|(s1 & ws' & E & Hs & _)]).
  - exists TLV_OK, m', s', (with_required 0 0 ws), (zlen w). auto 10.
  - exists TLV_ERR_BUFFER_TOO_SHORT, m', s1, ws', x. split; [exact E|]. split; [exact Ho|]. split; [auto|].
    intros H1 H2. destruct Hs as (rd & rs & _ & Hr & Hd & Hsc). lia.
Qed.
End Measured.

(** ** Any format

    Whatever the format does, measuring a list of events returns, and asks only for storage that the
    workspace does not have. *)

Section Anything.
Context `{Platform}.

(** The workspace with a request, or with none. *)
Definition asks (ws ws' : tlv_tree_writer_workspace_t) (rd rs : Z) : Prop :=
  ws' = with_required rd rs ws /\ (rd = 0 \/ ws.(ws_data_capacity) < rd <= SIZE_MAX) /\
  (rs = 0 \/ ws.(ws_scratch_capacity) < rs <= SIZE_MAX).

Lemma asks_nothing ws : ws.(ws_required_data) = 0 -> ws.(ws_required_scratch) = 0 -> asks ws ws 0 0.
Proof using. intros H1 H2. split; [|auto]. destruct ws. cbn in *. now subst. Qed.

Lemma short_asks data scratch ws ws' : data <= SIZE_MAX -> scratch <= SIZE_MAX -> short data scratch ws ws' ->
  exists rd rs, asks ws ws' rd rs /\ (rd <> 0 \/ rs <> 0).
Proof using. intros Hd Hs (rd & rs & -> & Hr & H1 & H2). exists rd, rs. unfold asks. split; [|done]. split; [done|]. lia. Qed.

Lemma encoded_size_range m e f size dg rc n dg' : tlv_element_encoded_size_diag m e f (Some size) dg = (rc, n, dg') -> is_ok rc = true ->
  exists x, n = Some x /\ x <= SIZE_MAX.
Proof using.
  unfold tlv_element_encoded_size_diag. destruct (tlv_format_measure _ _ _ _ _) as [[rc0 en] er].
  destruct (is_ok rc0) eqn:E0; [|intros [= <- _ _]; congruence].
  unfold tlv_size_to_native. destruct (Z.ltb_spec SIZE_MAX (en_total (cell no_encoding en))); intros [= <- <- _]; [done|].
  intros _. eexists. split; [reflexivity|]. pose proof (usize_range (en_total (cell no_encoding en))). lia.
Qed.

Lemma measure_storage_asks m t e start closing ws dg rc ws' dg' :
  ws.(ws_required_data) = 0 -> ws.(ws_required_scratch) = 0 ->
  measure_storage m t e start closing ws dg = (rc, ws', dg') ->
  exists rd rs, asks ws ws' rd rs /\ (rd <> 0 \/ rs <> 0 -> rc = TLV_ERR_BUFFER_TOO_SHORT).
Proof using.
  intros Hrd Hrs. unfold measure_storage. destruct (tlv_element_encoded_size_diag _ _ _ _ _) as [[rc0 n] dg0] eqn:E.
  destruct (is_ok rc0) eqn:E0; cbn [negb].
  2: { intros [= <- <- _]. exists 0, 0. split; [now apply asks_nothing|]. lia. }
  destruct (encoded_size_range _ _ _ _ _ _ _ _ E E0) as (x & -> & Hx). cbn [cell].
  destruct (Z.ltb_spec (SIZE_MAX - start) x) as [Ho|Ho].
  { intros [= <- <- _]. exists 0, 0. split; [now apply asks_nothing|]. lia. }
  set (acc := usize _). assert (acc <= SIZE_MAX) as Hacc by apply usize_range.
  destruct (Z.ltb_spec ws.(ws_data_capacity) (start + x)) as [Hd|Hd]; cbn [with_required ws_scratch_capacity ws_required_data ws_required_scratch];
    (destruct (closing && (ws.(ws_scratch_capacity) <? acc)) eqn:Ec; [apply andb_true_iff in Ec as [_ Ec]; apply Z.ltb_lt in Ec|]);
    cbn [with_required ws_scratch_capacity ws_required_data ws_required_scratch]; rewrite ?Hrd, ?Hrs.
  - destruct ((_ =? 0) && (_ =? 0)) eqn:Ez; intros [= <- <- _]; exists (start + x), acc; (split; [split; [done|lia]|]); [|done].
    apply andb_true_iff in Ez as [Ez1 Ez2]. apply Z.eqb_eq in Ez1, Ez2. lia.
  - destruct ((_ =? 0) && (_ =? 0)) eqn:Ez; intros [= <- <- _]; exists (start + x), 0; (split; [split; [done|lia]|]); [|done].
    apply andb_true_iff in Ez as [Ez1 _]. apply Z.eqb_eq in Ez1. lia.
  - destruct ((_ =? 0) && (_ =? 0)) eqn:Ez; intros [= <- <- _]; exists 0, acc; (split; [split; [done|lia]|]); [|done].
    apply andb_true_iff in Ez as [_ Ez2]. apply Z.eqb_eq in Ez2. lia.
  - cbn. intros [= <- <- _]. exists 0, 0. split; [now apply asks_nothing|]. lia.
Qed.

Lemma measure_event_asks f max_depth max_elements m t ws ev dg rc m' t' ws' dg' :
  ws.(ws_required_data) = 0 -> ws.(ws_required_scratch) = 0 ->
  measure_event f max_depth max_elements m t ws ev dg = (rc, m', (t', ws'), dg') ->
  exists rd rs, asks ws ws' rd rs /\ (rd <> 0 \/ rs <> 0 -> rc = TLV_ERR_BUFFER_TOO_SHORT).
Proof using.
  intros Hrd Hrs. unfold measure_event. pose proof (asks_nothing ws Hrd Hrs) as Hno.
  assert (exists rd rs, asks ws ws rd rs /\ (rd <> 0 \/ rs <> 0 -> rc = TLV_ERR_BUFFER_TOO_SHORT)) as Hsame
    by (exists 0, 0; split; [done|lia]).
  assert (forall ws1 dg1, (let '(rc, m, writer, diagnostic) := tlv_tree_writer_write_event_diag m (Some t) (Some ev) dg1 in
     (rc, m, (cell t writer, ws1), diagnostic)) = (rc, m', (t', ws'), dg') -> ws' = ws1) as Hwrite.
  { intros ws1 dg1. destruct (tlv_tree_writer_write_event_diag _ _ _ _) as [[[rc1 m1] wr] dg2]. congruence. }
  destruct (ev_kind ev).
  1, 4: intros E; now rewrite (Hwrite _ _ E).
  - destruct (_ || _); [intros [= _ _ _ <- _]; exact Hsame|]. destruct (_ && _); [intros [= _ _ _ <- _]; exact Hsame|].
    destruct (is_constructed _ _ _); [intros [= _ _ _ <- _]; exact Hsame|].
    destruct (measure_storage _ _ _ _ _ _ _) as [[rc1 ws1] dg1] eqn:Es.
    destruct (measure_storage_asks _ _ _ _ _ _ _ _ _ _ Hrd Hrs Es) as (rd & rs & Ha & Hr).
    destruct (is_ok rc1) eqn:E1; cbn [negb]; [|intros [= <- _ _ <- _]; eauto].
    intros E. rewrite (Hwrite _ _ E). exists rd, rs. split; [done|]. intros Hx. specialize (Hr Hx). subst rc1. done.
  - unfold measure_close. destruct (measure_storage _ _ _ _ _ _ _) as [[rc1 ws1] dg1] eqn:Es.
    destruct (measure_storage_asks _ _ _ _ _ _ _ _ _ _ Hrd Hrs Es) as (rd & rs & Ha & Hr).
    destruct (is_ok rc1) eqn:E1; [|intros [= <- _ _ <- _]; eauto].
    destruct (tlv_tree_writer_end_diag _ _ _) as [[[rc2 m2] wr] dg2]. intros [= _ _ _ <- _]. exists rd, rs. split; [done|].
    intros Hx. specialize (Hr Hx). subst rc1. done.
Qed.

Lemma measure_loop_asks {S : Type} f (next : tlv_tree_event_next_fn S) max_depth max_elements s' (c : unit) ws :
  next s' no_event = (TLV_END, s', no_event) -> ws.(ws_required_data) = 0 -> ws.(ws_required_scratch) = 0 ->
  forall es fuel m s t dg, yields next s es s' -> (length es < fuel)%nat ->
  exists rc m' s1 t' ws' dg' rd rs, measure_loop f next max_depth max_elements None fuel m s c t ws dg = Some (rc, m', s1, c, (t', ws'), dg') /\
    reached next s es s1 /\ asks ws ws' rd rs /\ (rd <> 0 \/ rs <> 0 -> rc = TLV_ERR_BUFFER_TOO_SHORT).
Proof using.
  intros Hend Hrd Hrs. pose proof (asks_nothing ws Hrd Hrs) as Hno. induction es as [|e es IH]; intros fuel m s t dg Hy Hf; (destruct fuel as [|fuel]; [cbn in Hf; lia|]); cbn [measure_loop].
  - cbn [yields] in Hy. subst s'. rewrite Hend. change (rc_eqb (tlv_callback_result TLV_END true) TLV_END) with true.
    eexists _, _, _, _, _, _, 0, 0. split; [reflexivity|]. split; [exists [], []; done|]. split; [done|lia].
  - destruct Hy as (s1 & Hn & Hy). rewrite Hn. change (tlv_callback_result TLV_OK true) with TLV_OK. cbn [rc_eqb]. rewrite is_ok_OK. cbn [negb].
    assert (reached next s (e :: es) s1) as Hr1 by (exists [e], es; cbn; eauto).
    destruct (event_malformed e (tw_depth t)).
    { eexists _, _, _, _, _, _, 0, 0. split; [reflexivity|]. split; [done|]. split; [done|lia]. }
    unfold charge_event. rewrite is_ok_OK. cbn [negb].
    destruct (measure_event f max_depth max_elements m t ws e dg) as [[[rc2 m2] [t2 ws2]] dg2] eqn:E.
    destruct (measure_event_asks _ _ _ _ _ _ _ _ _ _ _ _ _ Hrd Hrs E) as (rd & rs & Ha & Hr).
    destruct (is_ok rc2) eqn:E2; cbn [negb].
    2: { eexists _, _, _, _, _, _, rd, rs. split; [reflexivity|]. done. }
    assert (rd = 0 /\ rs = 0) as [-> ->].
    { destruct (Z.eq_dec rd 0), (Z.eq_dec rs 0); try done; rewrite Hr in E2 by auto; done. }
    assert (ws2 = ws) as -> by (destruct Ha as [-> _], Hno as [Hno _]; congruence).
    destruct (IH fuel m2 s1 t2 dg2 Hy ltac:(cbn in Hf; lia)) as (rc & m' & s2 & t' & ws' & dg' & rd & rs & El & Hr2 & Ha2 & Hrc).
    eexists rc, m', s2, t', ws', dg', rd, rs. split; [exact El|]. split; [|done].
    exact (reached_app next s [e] s1 es s2 ltac:(cbn; eauto) Hr2).
Qed.

Lemma measured_any {S : Type} f (next : tlv_tree_event_next_fn S) max_depth max_elements s es s' ws m fuel x :
  next s' no_event = (TLV_END, s', no_event) -> yields next s es s' -> (length es < fuel)%nat -> tlv_format_can_write f = true ->
  exists rc m' s1 ws' size dg' rd rs,
    tlv_tree_writer_measure_events fuel m f (Some next) s (Some ws) max_depth max_elements (Some x) None =
      Some (rc, m', s1, tt, Some ws', Some size, dg') /\
    reached next s es s1 /\ asks ws ws' rd rs /\ (rd <> 0 \/ rs <> 0 -> rc = TLV_ERR_BUFFER_TOO_SHORT).
Proof using.
  intros Hend Hy Hf Hw. unfold tlv_tree_writer_measure_events, tree_writer_measure_events_observed.
  destruct f as [f|]; [|done]. set (ws0 := with_required 0 0 ws).
  assert (asks ws ws0 0 0) as Hno by (split; [done|auto]).
  assert (reached next s es s) as Hr0 by (exists [], es; done).
  destruct (tlv_tree_writer_init _ _ _ _ _ _ _ _ _ _) as [rc t]. destruct (is_ok rc) eqn:Erc; cbn [negb].
  2: { eexists rc, _, _, _, _, _, 0, 0. split; [reflexivity|]. split; [done|]. split; [done|lia]. }
  destruct (measure_loop_asks f next max_depth max_elements s' tt ws0 Hend eq_refl eq_refl es fuel m s (cell no_tree_writer t) None Hy Hf)
    as (rc1 & m1 & s1 & t1 & ws1 & dg1 & rd & rs & E & Hr & (-> & Ha1 & Ha2) & Hrc).
  rewrite E.
  assert (asks ws (with_required rd rs ws0) rd rs) as Ha by (split; [done|]; cbn in Ha1, Ha2; auto).
  destruct (is_ok rc1) eqn:E1; cbn [negb].
  2: { eexists _, _, _, _, _, _, rd, rs. split; [reflexivity|]. done. }
  destruct (negb (tw_depth t1 =? 0)).
  all: eexists _, _, _, _, _, _, rd, rs; split; [reflexivity|]; split; [done|]; split; [done|].
  all: intros Hx; specialize (Hrc Hx); subst rc1; done.
Qed.
End Anything.

(** A producer that hands out a list. *)
Definition list_producer : tlv_tree_event_next_fn (list tlv_tree_event_t) := fun es event =>
  match es with [] => (TLV_END, [], event) | e :: es => (TLV_OK, es, e) end.
Definition example_workspace (capacity : Z) : tlv_tree_writer_workspace_t :=
  mk_workspace (Some [no_wframe; no_wframe]) 2 (Ptr 2 0) capacity (Ptr 3 0) 8 7 7.

Lemma measure_events_exact_witness :
  exists rc m' s1 ws' size,
    @tlv_tree_writer_measure_events LP64 _ 8 tree_example_memory (Some tree_example_format) (Some list_producer) tree_example_events
      (Some (example_workspace 16)) 64 100 (Some 0) None = Some (rc, m', s1, tt, Some ws', Some size, None) /\
    rc = TLV_OK /\ size = 9 /\ bytes_of m' (Ptr 2 0) 9 = [33; 5; 1; 1; 7; 34; 0; 2; 0].
Proof.
  destruct (measure_events_exact (H := LP64) (CodecLaws0 := tree_example_codec) tree_example_format tree_example_class tree_example_classes eq_refl tree_example_memory
    (example_workspace 16) list_producer tree_example_events [] tree_example_events tree_example_forest
    [33; 5; 1; 1; 7; 34; 0; 2; 0] 64 100 8 0
    ltac:(split; cbn; try (split; [vm_compute; intuition congruence|discriminate]); [reflexivity|left; discriminate]) eq_refl
    ltac:(split; [cbn; eauto 20|reflexivity|exact tree_example_events_ok|vm_compute; reflexivity|reflexivity|vm_compute; congruence|
            split; vm_compute; congruence|vm_compute; congruence])
    ltac:(cbn; lia)) as (rc & m' & s1 & ws' & size & E & _ & Hout & Hok).
  specialize (Hok ltac:(vm_compute; congruence) ltac:(vm_compute; congruence)).
  exists rc, m', s1, ws', size. split; [exact E|]. split; [exact Hok|].
  destruct Hout as [(_ & -> & Hb)|(Hx & _)]; [exact (conj eq_refl Hb)|rewrite Hok in Hx; discriminate].
Defined.
