(* ===== verification/Utf8.v ===== *)
(** * UTF-8 validation (src/utf8_internal.h, src/utf8_internal.c)

    The streaming validator against the encoding of Unicode scalar values: a byte string is accepted
    exactly when it is the UTF-8 encoding of a sequence of scalar values, however it is cut into
    pieces. *)

From S2P Require Import Prelude Mem Core.

(** ** The validator *)

(** [us_pending] is the array of four octets. *)
Record tlv_utf8_stream_t := mk_utf8 { us_pending : list Z; us_len : Z; us_need : Z }.

Definition tlv_utf8_stream_init (state : tlv_utf8_stream_t) : tlv_utf8_stream_t :=
  mk_utf8 state.(us_pending) 0 0.

Definition pending_at (state : tlv_utf8_stream_t) (k : Z) : Z := byte_at state.(us_pending) k.

(** [for (k = 1; k < need; ++k) cp = (cp << 6) | (pending[k] & 0x3F)] *)
Fixpoint code_point_loop (n : nat) (k : Z) (state : tlv_utf8_stream_t) (cp : Z) : Z :=
  match n with
  | O => cp
  | S n => code_point_loop n (k + 1) state
             (Z.lor (u32 (Z.shiftl cp 6)) (Z.land (pending_at state k) 63))
  end.

Definition utf8_stream_finish_codepoint (state : tlv_utf8_stream_t) : tlv_result_t :=
  let b0 := pending_at state 0 in
  let '(cp, min_cp) :=
    if Z.land b0 224 =? 192 then (Z.land b0 31, 128)
    else if Z.land b0 240 =? 224 then (Z.land b0 15, 2048)
    else (Z.land b0 7, 65536) in
  let cp := code_point_loop (Z.to_nat (state.(us_need) - 1)) 1 state cp in
  if (cp <? min_cp) || (1114111 <? cp) || ((55296 <=? cp) && (cp <=? 57343)) then TLV_ERR_INVALID_VALUE
  else TLV_OK.

Definition set_pending (state : tlv_utf8_stream_t) (i b len need : Z) : tlv_utf8_stream_t :=
  mk_utf8 (<[Z.to_nat i := b]> state.(us_pending)) len need.

(** The octets that follow a leading octet; [None] is the [else return]. *)
Definition lead_extra (b0 : Z) : option Z :=
  if Z.land b0 224 =? 192 then Some 1
  else if Z.land b0 240 =? 224 then Some 2
  else if Z.land b0 248 =? 240 then Some 3
  else None.

(** The inner [while]: [k] counts the octets still missing, [pending_need - pending_len]. *)
Fixpoint collect (k : nat) (m : mem) (value : ptr) (length i : Z) (state : tlv_utf8_stream_t)
  : tlv_result_t * Z * tlv_utf8_stream_t :=
  match k with
  | O => (TLV_OK, i, state)
  | S k =>
      if i <? length then
        let b := ld m value i in
        if negb (Z.land b 192 =? 128) then (TLV_ERR_INVALID_VALUE, i, state)
        else collect k m value length (i + 1)
               (set_pending state state.(us_len) b (state.(us_len) + 1) state.(us_need))
      else (TLV_OK, i, state)
  end.

(** The outer [while], with fuel. *)
Fixpoint update_loop (fuel : nat) (m : mem) (value : ptr) (length i : Z) (state : tlv_utf8_stream_t)
  : option (tlv_result_t * tlv_utf8_stream_t) :=
  if i <? length then
    match fuel with
    | O => None
    | S fuel =>
        if state.(us_need) =? 0 then
          let b0 := ld m value i in
          if b0 <? 128 then update_loop fuel m value length (i + 1) state
          else
            match lead_extra b0 with
            | None => Some (TLV_ERR_INVALID_VALUE, state)
            | Some extra => update_loop fuel m value length (i + 1) (set_pending state 0 b0 1 (1 + extra))
            end
        else
          let '(rc, i, state) :=
            collect (Z.to_nat (state.(us_need) - state.(us_len))) m value length i state in
          if negb (is_ok rc) then Some (rc, state)
          else if state.(us_len) =? state.(us_need) then
            let rc := utf8_stream_finish_codepoint state in
            if negb (is_ok rc) then Some (rc, state)
            else update_loop fuel m value length i (mk_utf8 state.(us_pending) 0 0)
          else update_loop fuel m value length i state
    end
  else Some (TLV_OK, state).

Definition tlv_utf8_stream_update (m : mem) (state : tlv_utf8_stream_t) (value : ptr) (length : Z)
  : option (tlv_result_t * tlv_utf8_stream_t) :=
  update_loop (Z.to_nat length) m value length 0 state.

Definition tlv_utf8_stream_finish (state : tlv_utf8_stream_t) : tlv_result_t :=
  if state.(us_need) =? 0 then TLV_OK else TLV_ERR_INVALID_VALUE.

(** [pending] starts as an uninitialized local array. *)
Definition tlv_utf8_validate (m : mem) (pending : list Z) (value : ptr) (length : Z)
  : option tlv_result_t :=
  match tlv_utf8_stream_update m (tlv_utf8_stream_init (mk_utf8 pending 0 0)) value length with
  | None => None
  | Some (rc, state) =>
      if negb (is_ok rc) then Some rc else Some (tlv_utf8_stream_finish state)
  end.

(** ** The reference: one octet at a time *)

(** Between updates: either between code points, or inside one of at most four octets. *)
Definition stream_ok (state : tlv_utf8_stream_t) : Prop :=
  length state.(us_pending) = 4%nat /\
  (state.(us_need) = 0 \/ 1 <= state.(us_len) < state.(us_need) /\ state.(us_need) <= 4).

Definition step (state : tlv_utf8_stream_t) (b : Z) : tlv_result_t * tlv_utf8_stream_t :=
  if state.(us_need) =? 0 then
    if b <? 128 then (TLV_OK, state)
    else match lead_extra b with
         | None => (TLV_ERR_INVALID_VALUE, state)
         | Some extra => (TLV_OK, set_pending state 0 b 1 (1 + extra))
         end
  else if negb (Z.land b 192 =? 128) then (TLV_ERR_INVALID_VALUE, state)
  else
    let state := set_pending state state.(us_len) b (state.(us_len) + 1) state.(us_need) in
    if state.(us_len) =? state.(us_need) then
      let rc := utf8_stream_finish_codepoint state in
      (rc, if is_ok rc then mk_utf8 state.(us_pending) 0 0 else state)
    else (TLV_OK, state).

Fixpoint feed (state : tlv_utf8_stream_t) (l : list Z) : tlv_result_t * tlv_utf8_stream_t :=
  match l with
  | [] => (TLV_OK, state)
  | b :: l => let '(rc, state) := step state b in if is_ok rc then feed state l else (rc, state)
  end.

(** ** The loops are the reference *)

Lemma set_pending_ok st i b len need :
  stream_ok st -> 1 <= len < need -> need <= 4 -> stream_ok (set_pending st i b len need).
Proof. intros [Hl _] Hlen Hn. split; cbn; [now rewrite length_insert|lia]. Qed.

Lemma reset_ok pending : length pending = 4%nat -> stream_ok (mk_utf8 pending 0 0).
Proof. intros Hl. split; [done|now left]. Qed.

Lemma step_ok st b rc st' : stream_ok st -> step st b = (rc, st') -> is_ok rc = true -> stream_ok st'.
Proof.
  intros Hst. pose proof Hst as [Hl Hn]. unfold step. destruct (Z.eqb_spec (us_need st) 0) as [Hz|Hz].
  - destruct (b <? 128); [now intros [= <- <-]|]. unfold lead_extra.
    repeat (destruct (_ =? _); [intros [= <- <-] _; apply set_pending_ok; lia || done|]). now intros [= <- <-].
  - destruct (negb _); [now intros [= <- <-]|]. cbn [us_len us_need set_pending].
    destruct (Z.eqb_spec (us_len st + 1) (us_need st)) as [He|He].
    + intros [= <- <-] Hok. rewrite Hok. apply reset_ok. cbn. now rewrite length_insert.
    + intros [= <- <-] _. apply set_pending_ok; done || lia.
Qed.

(** The inner loop stops at an error, at the end of the input, or with a complete code point, which
    [finish] completes as a step does. *)
Lemma collect_feed k : forall m v n i st rc i' st',
  length st.(us_pending) = 4%nat -> 1 <= st.(us_len) -> st.(us_len) + Z.of_nat k = st.(us_need) -> st.(us_need) <= 4 ->
  (0 < k)%nat -> 0 <= i < n -> collect k m v n i st = (rc, i', st') ->
  if is_ok rc then
    i < i' <= n /\ length st'.(us_pending) = 4%nat /\ st'.(us_need) = st.(us_need) /\
    feed st (bytes_of m (v +p i) (n - i)) =
      (if st'.(us_len) =? st'.(us_need) then
         let rc := utf8_stream_finish_codepoint st' in
         if is_ok rc then feed (mk_utf8 st'.(us_pending) 0 0) (bytes_of m (v +p i') (n - i')) else (rc, st')
       else (TLV_OK, st')) /\
    (st'.(us_len) <> st'.(us_need) -> i' = n)
  else feed st (bytes_of m (v +p i) (n - i)) = (rc, st').
Proof.
  induction k as [|k IH]; intros m v n i st rc i' st' Hl H1 Hk H4 Hpos Hi E; [lia|]. cbn [collect] in E.
  rewrite octets_from by done. cbn [feed]. unfold step. rewrite (proj2 (Z.eqb_neq (us_need st) 0)) by lia.
  rewrite (proj2 (Z.ltb_lt i n)) in E by lia. destruct (negb _) eqn:Ec.
  { injection E as <- <- <-. change (is_ok TLV_ERR_INVALID_VALUE) with false. done. }
  set (st1 := set_pending st (us_len st) (ld m v i) (us_len st + 1) (us_need st)) in *.
  assert (length (us_pending st1) = 4%nat) as Hl1 by (cbn; now rewrite length_insert).
  destruct k as [|k].
  - cbn [collect] in E. injection E as <- <- <-. rewrite is_ok_OK. split; [lia|]. split; [done|]. split; [done|].
    replace (us_len st1 =? us_need st1) with true by (symmetry; apply Z.eqb_eq; cbn; lia). split; [|cbn; lia].
    cbv zeta. destruct (is_ok (utf8_stream_finish_codepoint st1)) eqn:Ef; done.
  - replace (us_len st1 =? us_need st1) with false by (symmetry; apply Z.eqb_neq; cbn; lia). rewrite is_ok_OK.
    destruct (Z.lt_ge_cases (i + 1) n) as [Hlt|Hge].
    + specialize (IH m v n (i + 1) st1 rc i' st' Hl1 ltac:(cbn; lia) ltac:(cbn; lia) ltac:(cbn; lia) ltac:(lia) ltac:(lia) E).
      destruct (is_ok rc); [|done]. destruct IH as (? & ? & ? & ? & ?). split; [lia|done].
    + cbn [collect] in E. rewrite (proj2 (Z.ltb_ge _ _)) in E by lia. injection E as <- <- <-. rewrite is_ok_OK.
      split; [lia|]. split; [done|]. split; [done|]. rewrite bytes_of_0 by lia. cbn [feed].
      replace (us_len st1 =? us_need st1) with false by (symmetry; apply Z.eqb_neq; cbn; lia). split; [done|lia].
Qed.

Lemma update_loop_feed fuel : forall m v n i st,
  stream_ok st -> 0 <= i <= n -> n - i <= Z.of_nat fuel ->
  update_loop fuel m v n i st = Some (feed st (bytes_of m (v +p i) (n - i))).
Proof.
  induction fuel as [|fuel IH]; intros m v n i st Hst Hi Hf; cbn [update_loop].
  { rewrite (proj2 (Z.ltb_ge i n)), bytes_of_0 by lia. done. }
  destruct (Z.ltb_spec i n) as [Hlt|Hge]; [|rewrite bytes_of_0 by lia; done].
  pose proof Hst as [Hl Hn]. destruct (Z.eqb_spec (us_need st) 0) as [Hz|Hz].
  - rewrite octets_from by lia. cbn [feed]. destruct (step st (ld m v i)) as [rc st1] eqn:Es.
    pose proof (step_ok st _ rc st1 Hst Es) as Hok. unfold step in Es. rewrite (proj2 (Z.eqb_eq _ _) Hz) in Es.
    destruct (_ <? 128); [injection Es as <- <-; rewrite is_ok_OK; apply IH; done || lia|].
    destruct (lead_extra _); injection Es as <- <-; [|done]. rewrite is_ok_OK in *. apply IH; [now apply Hok|lia|lia].
  - destruct Hn as [Hn|Hn]; [done|]. destruct (collect _ m v n i st) as [[rc i'] st'] eqn:Ec.
    apply collect_feed in Ec; try done; try lia. destruct (is_ok rc) eqn:Erc; cbn [negb]; [|now rewrite Ec].
    destruct Ec as (Hi' & Hl' & Hnd & -> & Hend). destruct (Z.eqb_spec (us_len st') (us_need st')) as [He|He].
    + cbv zeta. destruct (is_ok (utf8_stream_finish_codepoint st')); [|done]. apply IH; [now apply reset_ok|lia|lia].
    + rewrite (Hend He). destruct fuel; cbn [update_loop]; rewrite (proj2 (Z.ltb_ge n n)) by lia; done.
Qed.

Lemma update_feed m v n st : stream_ok st -> 0 <= n ->
  tlv_utf8_stream_update m st v n = Some (feed st (bytes_of m v n)).
Proof.
  intros Hst Hn. unfold tlv_utf8_stream_update. rewrite update_loop_feed by (done || lia).
  now rewrite padd_0, Z.sub_0_r.
Qed.

(** ** UTF-8 as the encoding of scalar values *)

(** From here on [lia] knows division and remainder. *)
#[local] Ltac Zify.zify_post_hook ::= Z.to_euclidean_division_equations.

Definition scalar (cp : Z) : bool :=
  (0 <=? cp) && (cp <=? 1114111) && negb ((55296 <=? cp) && (cp <=? 57343)).

Definition utf8_encode (cp : Z) : list Z :=
  if cp <? 128 then [cp]
  else if cp <? 2048 then [192 + cp / 64; 128 + cp mod 64]
  else if cp <? 65536 then [224 + cp / 4096; 128 + (cp / 64) mod 64; 128 + cp mod 64]
  else [240 + cp / 262144; 128 + (cp / 4096) mod 64; 128 + (cp / 64) mod 64; 128 + cp mod 64].

(** What the leading and following octets look like. *)
Definition lead_at (b : Z) : bool :=
  bool_decide (lead_extra b = if b <? 192 then None else if b <? 224 then Some 1 else if b <? 240 then Some 2
                              else if b <? 248 then Some 3 else None).
Definition follows (b : Z) : bool := (128 <=? b) && (b <? 192).
Definition lead_masks (b : Z) : bool :=
  Bool.eqb (Z.land b 192 =? 128) (follows b) && Bool.eqb (Z.land b 224 =? 192) ((192 <=? b) && (b <? 224)) &&
  Bool.eqb (Z.land b 240 =? 224) ((224 <=? b) && (b <? 240)).

Lemma lead_check : forallb lead_at all_octets = true.
Proof. vm_compute. reflexivity. Qed.
Lemma lead_masks_check : forallb lead_masks all_octets = true.
Proof. vm_compute. reflexivity. Qed.

Lemma lead_extra_octet b : 0 <= b < 256 ->
  lead_extra b = if b <? 192 then None else if b <? 224 then Some 1 else if b <? 240 then Some 2
                 else if b <? 248 then Some 3 else None.
Proof. intros Hb. pose proof (octets_decide _ lead_check b Hb) as H. now apply bool_decide_eq_true in H. Qed.

Lemma masks_octet b : 0 <= b < 256 ->
  (Z.land b 192 =? 128) = follows b /\ (Z.land b 224 =? 192) = ((192 <=? b) && (b <? 224)) /\
  (Z.land b 240 =? 224) = ((224 <=? b) && (b <? 240)).
Proof.
  intros Hb. pose proof (octets_decide _ lead_masks_check b Hb) as H. unfold lead_masks in H.
  rewrite !andb_true_iff, !eqb_true_iff in H. tauto.
Qed.

Lemma next_bits cp b : 0 <= cp < 67108864 -> Z.lor (u32 (Z.shiftl cp 6)) (Z.land b 63) = cp * 64 + b mod 64.
Proof.
  intros Hc. rewrite Z.shiftl_mul_pow2 by lia. change (2 ^ 6) with 64. unfold u32. rewrite Z.mod_small by lia.
  change 63 with (2 ^ 6 - 1). rewrite land_ones_mod by lia. change (2 ^ 6) with 64.
  apply (lor_shift_add cp (b mod 64) 6); [lia|]. change (2 ^ 6) with 64. lia.
Qed.

Lemma low_bits b n : 0 <= n -> Z.land b (2 ^ n - 1) = b mod 2 ^ n.
Proof. apply land_ones_mod. Qed.

(** The code point of a complete sequence, and its verdict. *)
Definition verdict (cp min_cp : Z) : tlv_result_t :=
  if (cp <? min_cp) || (1114111 <? cp) || ((55296 <=? cp) && (cp <=? 57343)) then TLV_ERR_INVALID_VALUE else TLV_OK.

Lemma finish2 b0 b1 r n : 192 <= b0 < 224 -> 128 <= b1 < 192 ->
  utf8_stream_finish_codepoint (mk_utf8 (b0 :: b1 :: r) n 2) = verdict ((b0 - 192) * 64 + (b1 - 128)) 128.
Proof.
  intros H0 H1. unfold utf8_stream_finish_codepoint. change (pending_at _ 0) with b0.
  destruct (masks_octet b0 ltac:(lia)) as (_ & -> & _). rewrite (proj2 (Z.leb_le _ _)), (proj2 (Z.ltb_lt _ _)) by lia.
  change 31 with (2 ^ 5 - 1). rewrite (low_bits b0 5) by lia. change (2 ^ 5) with 32.
  change (verdict (Z.lor (u32 (Z.shiftl (b0 mod 32) 6)) (Z.land b1 63)) 128 = verdict ((b0 - 192) * 64 + (b1 - 128)) 128).
  rewrite next_bits by lia. f_equal. lia.
Qed.

Lemma finish3 b0 b1 b2 r n : 224 <= b0 < 240 -> 128 <= b1 < 192 -> 128 <= b2 < 192 ->
  utf8_stream_finish_codepoint (mk_utf8 (b0 :: b1 :: b2 :: r) n 3) =
  verdict ((b0 - 224) * 4096 + (b1 - 128) * 64 + (b2 - 128)) 2048.
Proof.
  intros H0 H1 H2. unfold utf8_stream_finish_codepoint. change (pending_at _ 0) with b0.
  destruct (masks_octet b0 ltac:(lia)) as (_ & -> & ->). rewrite (proj2 (Z.ltb_ge b0 224)), (proj2 (Z.leb_le 224 b0)), (proj2 (Z.ltb_lt b0 240)) by lia.
  rewrite andb_false_r. cbv iota.
  change 15 with (2 ^ 4 - 1). rewrite (low_bits b0 4) by lia. change (2 ^ 4) with 16.
  change (verdict (Z.lor (u32 (Z.shiftl (Z.lor (u32 (Z.shiftl (b0 mod 16) 6)) (Z.land b1 63)) 6)) (Z.land b2 63)) 2048 =
    verdict ((b0 - 224) * 4096 + (b1 - 128) * 64 + (b2 - 128)) 2048).
  rewrite !next_bits by (rewrite ?next_bits; lia). f_equal. lia.
Qed.

Lemma finish4 b0 b1 b2 b3 n : 240 <= b0 < 248 -> 128 <= b1 < 192 -> 128 <= b2 < 192 -> 128 <= b3 < 192 ->
  utf8_stream_finish_codepoint (mk_utf8 [b0; b1; b2; b3] n 4) =
  verdict ((b0 - 240) * 262144 + (b1 - 128) * 4096 + (b2 - 128) * 64 + (b3 - 128)) 65536.
Proof.
  intros H0 H1 H2 H3. unfold utf8_stream_finish_codepoint. change (pending_at _ 0) with b0.
  destruct (masks_octet b0 ltac:(lia)) as (_ & -> & ->). rewrite (proj2 (Z.ltb_ge b0 224)), (proj2 (Z.ltb_ge b0 240)) by lia.
  rewrite !andb_false_r. cbv iota.
  change 7 with (2 ^ 3 - 1). rewrite (low_bits b0 3) by lia. change (2 ^ 3) with 8.
  change (verdict (Z.lor (u32 (Z.shiftl (Z.lor (u32 (Z.shiftl (Z.lor (u32 (Z.shiftl (b0 mod 8) 6))
    (Z.land b1 63)) 6)) (Z.land b2 63)) 6)) (Z.land b3 63)) 65536 =
    verdict ((b0 - 240) * 262144 + (b1 - 128) * 4096 + (b2 - 128) * 64 + (b3 - 128)) 65536).
  rewrite (next_bits (b0 mod 8)), (next_bits (b0 mod 8 * 64 + b1 mod 64)), next_bits by lia. f_equal. lia.
Qed.

(** *** Whole sequences *)

Lemma step_lead p n b extra : length p = 4%nat -> 0 <= b < 256 -> 128 <= b -> lead_extra b = Some extra ->
  step (mk_utf8 p n 0) b = (TLV_OK, mk_utf8 (<[0%nat := b]> p) 1 (1 + extra)).
Proof. intros Hl Hb H1 He. unfold step. cbn [us_need]. rewrite (proj2 (Z.ltb_ge b 128)), He by lia. done. Qed.

Lemma step_more p len need b : 0 <= b < 256 -> need <> 0 ->
  step (mk_utf8 p len need) b =
    if follows b then
      let st := mk_utf8 (<[Z.to_nat len := b]> p) (len + 1) need in
      if len + 1 =? need then
        let rc := utf8_stream_finish_codepoint st in (rc, if is_ok rc then mk_utf8 (us_pending st) 0 0 else st)
      else (TLV_OK, st)
    else (TLV_ERR_INVALID_VALUE, mk_utf8 p len need).
Proof.
  intros Hb Hn. unfold step. cbn [us_need us_len]. rewrite (proj2 (Z.eqb_neq need 0)) by done.
  destruct (masks_octet b Hb) as (-> & _ & _). destruct (follows b); done.
Qed.

Lemma follows_range b : follows b = true <-> 128 <= b < 192.
Proof. unfold follows. zlia. Qed.

(** Computes the array and the counts of a partial sequence. *)
Ltac simpl_pending H :=
  cbv zeta in H; change (1 + 1) with 2 in H; change (1 + 2) with 3 in H; change (1 + 3) with 4 in H;
  change (2 + 1) with 3 in H; change (3 + 1) with 4 in H;
  change (Z.to_nat 1) with 1%nat in H; change (Z.to_nat 2) with 2%nat in H; change (Z.to_nat 3) with 3%nat in H;
  change (2 =? 2) with true in H; change (2 =? 3) with false in H; change (2 =? 4) with false in H;
  change (3 =? 3) with true in H; change (3 =? 4) with false in H; change (4 =? 4) with true in H;
  cbn -[utf8_stream_finish_codepoint verdict feed step] in H.

(** The next octet of an accepted partial sequence is there and follows. *)
Ltac next_octet E l Hl b :=
  destruct l as [|b l]; [injection E as <-; done|];
  let Hb := fresh "Hb" in let F := fresh "F" in
  inversion_clear Hl as [|? ? Hb Hl']; rename Hl' into Hl; unfold is_byte in Hb;
  cbn [feed] in E; rewrite step_more in E by (done || lia);
  destruct (follows b) eqn:F; [|done]; apply follows_range in F; simpl_pending E.

(** After a leading octet the sequence is complete and fine, or it is not accepted. *)
Lemma feed_lead p n b0 l extra : length p = 4%nat -> 128 <= b0 < 256 -> lead_extra b0 = Some extra ->
  feed (mk_utf8 p n 0) (b0 :: l) = feed (mk_utf8 (<[0%nat := b0]> p) 1 (1 + extra)) l.
Proof. intros Hp Hb He. cbn [feed]. rewrite (step_lead p n b0 extra) by (done || lia). done. Qed.

Lemma feed2 p n b0 l st' : length p = 4%nat -> 192 <= b0 < 224 -> bytes l ->
  feed (mk_utf8 p n 0) (b0 :: l) = (TLV_OK, st') -> st'.(us_need) = 0 ->
  exists b1 l' p', l = b1 :: l' /\ 128 <= b1 < 192 /\ length p' = 4%nat /\ bytes l' /\
    verdict ((b0 - 192) * 64 + (b1 - 128)) 128 = TLV_OK /\ feed (mk_utf8 p' 0 0) l' = (TLV_OK, st').
Proof.
  intros Hp H0 Hl E Hz. rewrite (feed_lead p n b0 l 1) in E; try done; try lia.
  2: { rewrite lead_extra_octet by lia. rewrite (proj2 (Z.ltb_ge b0 192)), (proj2 (Z.ltb_lt b0 224)) by lia. done. }
  do 4 (destruct p as [|? p]; [done|]). destruct p; [|done]. simpl_pending E.
  next_octet E l Hl b1. rewrite finish2 in E by lia.
  destruct (is_ok (verdict _ _)) eqn:Ev; [|injection E as E _; now rewrite E in Ev].
  apply is_ok_true in Ev. eexists b1, l, _. split; [done|]. split; [done|]. split; [|split; [done|split; [done|exact E]]]. done.
Qed.

Lemma feed3 p n b0 l st' : length p = 4%nat -> 224 <= b0 < 240 -> bytes l ->
  feed (mk_utf8 p n 0) (b0 :: l) = (TLV_OK, st') -> st'.(us_need) = 0 ->
  exists b1 b2 l' p', l = b1 :: b2 :: l' /\ 128 <= b1 < 192 /\ 128 <= b2 < 192 /\ length p' = 4%nat /\ bytes l' /\
    verdict ((b0 - 224) * 4096 + (b1 - 128) * 64 + (b2 - 128)) 2048 = TLV_OK /\
    feed (mk_utf8 p' 0 0) l' = (TLV_OK, st').
Proof.
  intros Hp H0 Hl E Hz. rewrite (feed_lead p n b0 l 2) in E; try done; try lia.
  2: { rewrite lead_extra_octet by lia.
       rewrite (proj2 (Z.ltb_ge b0 192)), (proj2 (Z.ltb_ge b0 224)), (proj2 (Z.ltb_lt b0 240)) by lia. done. }
  do 4 (destruct p as [|? p]; [done|]). destruct p; [|done]. simpl_pending E.
  next_octet E l Hl b1. next_octet E l Hl b2. rewrite finish3 in E by lia.
  destruct (is_ok (verdict _ _)) eqn:Ev; [|injection E as E _; now rewrite E in Ev].
  apply is_ok_true in Ev. eexists b1, b2, l, _. do 3 (split; [done|]). split; [|split; [done|split; [done|exact E]]]. done.
Qed.

Lemma feed4 p n b0 l st' : length p = 4%nat -> 240 <= b0 < 248 -> bytes l ->
  feed (mk_utf8 p n 0) (b0 :: l) = (TLV_OK, st') -> st'.(us_need) = 0 ->
  exists b1 b2 b3 l' p', l = b1 :: b2 :: b3 :: l' /\ 128 <= b1 < 192 /\ 128 <= b2 < 192 /\ 128 <= b3 < 192 /\
    length p' = 4%nat /\ bytes l' /\
    verdict ((b0 - 240) * 262144 + (b1 - 128) * 4096 + (b2 - 128) * 64 + (b3 - 128)) 65536 = TLV_OK /\
    feed (mk_utf8 p' 0 0) l' = (TLV_OK, st').
Proof.
  intros Hp H0 Hl E Hz. rewrite (feed_lead p n b0 l 3) in E; try done; try lia.
  2: { rewrite lead_extra_octet by lia. rewrite (proj2 (Z.ltb_ge b0 192)), (proj2 (Z.ltb_ge b0 224)),
         (proj2 (Z.ltb_ge b0 240)), (proj2 (Z.ltb_lt b0 248)) by lia. done. }
  do 4 (destruct p as [|? p]; [done|]). destruct p; [|done]. simpl_pending E.
  next_octet E l Hl b1. next_octet E l Hl b2. next_octet E l Hl b3. rewrite finish4 in E by lia.
  destruct (is_ok (verdict _ _)) eqn:Ev; [|injection E as E _; now rewrite E in Ev].
  apply is_ok_true in Ev. eexists b1, b2, b3, l, _. do 4 (split; [done|]). split; [|split; [done|split; [done|exact E]]]. done.
Qed.

(** The encoding of a scalar value is consumed and leaves the stream between code points. *)
Ltac follow E b :=
  cbn [feed] in E; rewrite step_more in E by (done || lia); rewrite (proj2 (follows_range b)) in E by lia; simpl_pending E.

Lemma scalar_verdict cp min_cp : scalar cp = true -> min_cp <= cp -> verdict cp min_cp = TLV_OK.
Proof.
  intros Hs Hm. unfold verdict. replace (_ || _) with false; [done|].
  unfold scalar in Hs. rewrite !andb_true_iff, negb_true_iff in Hs. destruct Hs as [[H0 H1] H2].
  rewrite H2, orb_false_r. zlia.
Qed.

Lemma verdict_scalar cp min_cp : 0 <= cp -> verdict cp min_cp = TLV_OK -> scalar cp = true /\ min_cp <= cp.
Proof.
  intros H0 Hv. unfold verdict in Hv. destruct (_ || _) eqn:E; [done|]. apply orb_false_iff in E as [E E2].
  unfold scalar. rewrite E2. split; zlia.
Qed.

Lemma feed_encode p n cp l : length p = 4%nat -> scalar cp = true ->
  exists p' n', length p' = 4%nat /\ feed (mk_utf8 p n 0) (utf8_encode cp ++ l) = feed (mk_utf8 p' n' 0) l.
Proof.
  intros Hp Hs. pose proof Hs as Hr. unfold scalar in Hr. rewrite !andb_true_iff in Hr. destruct Hr as [[Hr0 Hr1] _].
  unfold utf8_encode. destruct (Z.ltb_spec cp 128) as [H1|H1].
  { exists p, n. split; [done|]. cbn [app feed]. unfold step. cbn [us_need]. rewrite (proj2 (Z.ltb_lt cp 128)) by lia. done. }
  do 4 (destruct p as [|? p]; [done|]). destruct p; [|done]. clear Hp.
  destruct (feed _ (_ ++ l)) as [rc st'] eqn:E.
  destruct (Z.ltb_spec cp 2048) as [H2|H2]; [|destruct (Z.ltb_spec cp 65536) as [H3|H3]]; cbn [app] in E.
  - rewrite (feed_lead _ _ _ _ 1) in E; try done; try lia.
    2: { rewrite lead_extra_octet by lia. rewrite (proj2 (Z.ltb_ge _ 192)), (proj2 (Z.ltb_lt _ 224)) by lia. done. }
    simpl_pending E. follow E (128 + cp mod 64). rewrite finish2 in E by lia.
    rewrite scalar_verdict in E by (replace (_ + _) with cp by lia; done || lia). rewrite is_ok_OK in E.
    eexists _, 0. split; [|symmetry; exact E]. done.
  - rewrite (feed_lead _ _ _ _ 2) in E; try done; try lia.
    2: { rewrite lead_extra_octet by lia.
         rewrite (proj2 (Z.ltb_ge _ 192)), (proj2 (Z.ltb_ge _ 224)), (proj2 (Z.ltb_lt _ 240)) by lia. done. }
    simpl_pending E. follow E (128 + (cp / 64) mod 64). follow E (128 + cp mod 64). rewrite finish3 in E by lia.
    rewrite scalar_verdict in E by (replace (_ + _ + _) with cp by lia; done || lia). rewrite is_ok_OK in E.
    eexists _, 0. split; [|symmetry; exact E]. done.
  - rewrite (feed_lead _ _ _ _ 3) in E; try done; try lia.
    2: { rewrite lead_extra_octet by lia. rewrite (proj2 (Z.ltb_ge _ 192)), (proj2 (Z.ltb_ge _ 224)),
           (proj2 (Z.ltb_ge _ 240)), (proj2 (Z.ltb_lt _ 248)) by lia. done. }
    simpl_pending E. follow E (128 + (cp / 4096) mod 64). follow E (128 + (cp / 64) mod 64). follow E (128 + cp mod 64).
    rewrite finish4 in E by lia.
    rewrite scalar_verdict in E by (replace (_ + _ + _ + _) with cp by lia; done || lia). rewrite is_ok_OK in E.
    eexists _, 0. split; [|symmetry; exact E]. done.
Qed.

Lemma feed_encoded cps : forall p n, length p = 4%nat -> forallb scalar cps = true ->
  exists st', feed (mk_utf8 p n 0) (flat_map utf8_encode cps) = (TLV_OK, st') /\ st'.(us_need) = 0.
Proof.
  induction cps as [|cp cps IH]; intros p n Hp Hs; cbn in Hs |- *; [now eexists|].
  apply andb_true_iff in Hs as [Hs Hcps].
  destruct (feed_encode p n cp (flat_map utf8_encode cps) Hp Hs) as (p' & n' & Hp' & ->). now apply IH.
Qed.

(** An accepted string is the encoding of scalar values. *)
Lemma feed_accepts k : forall p n l st', (length l <= k)%nat -> length p = 4%nat -> bytes l ->
  feed (mk_utf8 p n 0) l = (TLV_OK, st') -> st'.(us_need) = 0 ->
  exists cps, forallb scalar cps = true /\ l = flat_map utf8_encode cps.
Proof.
  induction k as [|k IH]; intros p n l st' Hk Hp Hl E Hz; (destruct l as [|b0 l]; [exists []; done|]); [cbn in Hk; lia|].
  cbn [length] in Hk. inversion_clear Hl as [|? ? Hb Hl']. unfold is_byte in Hb.
  destruct (Z.lt_ge_cases b0 128) as [H1|H1].
  { cbn [feed] in E. unfold step in E. cbn [us_need] in E. rewrite (proj2 (Z.ltb_lt b0 128)) in E by lia.
    destruct (IH p n l st' ltac:(lia) Hp Hl' E Hz) as (cps & Hs & ->). exists (b0 :: cps). split.
    - cbn. rewrite Hs, andb_true_r. unfold scalar. zlia.
    - cbn. unfold utf8_encode at 2. rewrite (proj2 (Z.ltb_lt b0 128)) by lia. done. }
  assert (192 <= b0 < 248) as Hlead.
  { cbn [feed] in E. unfold step in E. cbn [us_need] in E. rewrite (proj2 (Z.ltb_ge b0 128)) in E by lia.
    rewrite lead_extra_octet in E by lia.
    destruct (Z.ltb_spec b0 192), (Z.ltb_spec b0 224), (Z.ltb_spec b0 240), (Z.ltb_spec b0 248); try done; lia. }
  destruct (Z.lt_ge_cases b0 224) as [H2|H2]; [|destruct (Z.lt_ge_cases b0 240) as [H3|H3]].
  - destruct (feed2 p n b0 l st' Hp ltac:(lia) Hl' E Hz) as (b1 & l1 & p' & -> & F1 & Hp' & Hl1 & Hv & E').
    apply verdict_scalar in Hv as [Hs Hm]; [|lia]. cbn [length] in Hk.
    destruct (IH p' 0 l1 st' ltac:(lia) Hp' Hl1 E' Hz) as (cps & Hcps & ->).
    eexists (_ :: cps). cbn [forallb flat_map]. rewrite Hs, Hcps. split; [done|].
    unfold utf8_encode at 2. rewrite (proj2 (Z.ltb_ge _ 128)), (proj2 (Z.ltb_lt _ 2048)) by lia. cbn [app].
    do 2 (apply (f_equal2 cons); [lia|]). done.
  - destruct (feed3 p n b0 l st' Hp ltac:(lia) Hl' E Hz) as (b1 & b2 & l1 & p' & -> & F1 & F2 & Hp' & Hl1 & Hv & E').
    apply verdict_scalar in Hv as [Hs Hm]; [|lia]. cbn [length] in Hk.
    destruct (IH p' 0 l1 st' ltac:(lia) Hp' Hl1 E' Hz) as (cps & Hcps & ->).
    eexists (_ :: cps). cbn [forallb flat_map]. rewrite Hs, Hcps. split; [done|].
    unfold utf8_encode at 2. rewrite (proj2 (Z.ltb_ge _ 128)), (proj2 (Z.ltb_ge _ 2048)), (proj2 (Z.ltb_lt _ 65536)) by lia.
    cbn [app]. do 3 (apply (f_equal2 cons); [lia|]). done.
  - destruct (feed4 p n b0 l st' Hp ltac:(lia) Hl' E Hz) as (b1 & b2 & b3 & l1 & p' & -> & F1 & F2 & F3 & Hp' & Hl1 & Hv & E').
    apply verdict_scalar in Hv as [Hs Hm]; [|lia]. cbn [length] in Hk.
    destruct (IH p' 0 l1 st' ltac:(lia) Hp' Hl1 E' Hz) as (cps & Hcps & ->).
    eexists (_ :: cps). cbn [forallb flat_map]. rewrite Hs, Hcps. split; [done|].
    unfold utf8_encode at 2. rewrite (proj2 (Z.ltb_ge _ 128)), (proj2 (Z.ltb_ge _ 2048)), (proj2 (Z.ltb_ge _ 65536)) by lia.
    cbn [app]. do 4 (apply (f_equal2 cons); [lia|]). done.
Qed.

Lemma step_errors st b rc st' : step st b = (rc, st') -> rc <> TLV_OK -> rc = TLV_ERR_INVALID_VALUE.
Proof.
  unfold step, utf8_stream_finish_codepoint. destruct (_ =? _).
  - destruct (_ <? _); [now intros [= <- <-]|]. destruct (lead_extra b); now intros [= <- <-].
  - destruct (negb _); [now intros [= <- <-]|]. destruct (_ =? _); [|now intros [= <- <-]].
    match goal with |- context [let '(cp, min_cp) := ?x in _] => destruct x as [cp min_cp] end.
    destruct (_ || _); now intros [= <- <-].
Qed.

Lemma feed_errors l : forall st rc st', feed st l = (rc, st') -> rc <> TLV_OK -> rc = TLV_ERR_INVALID_VALUE.
Proof.
  induction l as [|b l IH]; intros st rc st' E Hrc; cbn [feed] in E; [now injection E as <- _|].
  destruct (step st b) as [rc1 st1] eqn:Es. destruct (is_ok rc1) eqn:E1; [now apply (IH st1 rc st')|].
  injection E as -> _. now apply (step_errors st b rc st1).
Qed.

Lemma feed_app l1 l2 st : feed st (l1 ++ l2) = let '(rc, st1) := feed st l1 in if is_ok rc then feed st1 l2 else (rc, st1).
Proof.
  revert st. induction l1 as [|b l1 IH]; intros st; cbn [app feed]; [now rewrite is_ok_OK|].
  destruct (step st b) as [rc1 st1]. destruct (is_ok rc1) eqn:E1; [apply IH|]. now rewrite E1.
Qed.

Lemma feed_ok l : forall st rc st', stream_ok st -> feed st l = (rc, st') -> is_ok rc = true -> stream_ok st'.
Proof.
  induction l as [|b l IH]; intros st rc st' Hst E Hok; cbn [feed] in E; [now injection E as _ <-|].
  destruct (step st b) as [rc1 st1] eqn:Es. destruct (is_ok rc1) eqn:E1; [|injection E as <- _; congruence].
  apply (IH st1 rc st'); [|done|done]. now apply (step_ok st b rc1).
Qed.

(** ** Theorems *)

(** C36. The validator decides UTF-8: for every buffer it returns, whatever its uninitialized scratch array
    holds, [TLV_OK] exactly when the octets are the encoding of a sequence of Unicode scalar values
    (so neither overlong forms, nor surrogates, nor code points above U+10FFFF, nor a cut or stray
    sequence pass), and [TLV_ERR_INVALID_VALUE] otherwise. *)
Theorem utf8_validate_decides (m : mem) (pending : list Z) (value : ptr) (n : Z)
  (Hp : length pending = 4%nat) (Hn : 0 <= n) :
  exists rc, tlv_utf8_validate m pending value n = Some rc /\ (rc = TLV_OK \/ rc = TLV_ERR_INVALID_VALUE) /\
    (rc = TLV_OK <->
     exists cps, forallb scalar cps = true /\ bytes_of m value n = flat_map utf8_encode cps).
Proof.
  unfold tlv_utf8_validate, tlv_utf8_stream_init. cbn [us_pending].
  rewrite update_feed by (done || now apply reset_ok).
  destruct (feed _ (bytes_of m value n)) as [rc st'] eqn:E. unfold tlv_utf8_stream_finish.
  destruct (is_ok rc) eqn:Erc; cbn [negb]; eexists; (split; [done|]).
  - apply is_ok_true in Erc as ->. destruct (Z.eqb_spec (us_need st') 0) as [Hz|Hz].
    + split; [now left|]. split; [intros _|done].
      apply (feed_accepts _ pending 0 _ st' (le_n _) Hp (bytes_of_bytes m value n) E Hz).
    + split; [now right|]. split; [done|]. intros (cps & Hs & Hb). rewrite Hb in E.
      destruct (feed_encoded cps pending 0 Hp Hs) as (st2 & E2 & Hz2). congruence.
  - split.
    + right. rewrite feed_errors with (1 := E); [done|]. now apply is_ok_false.
    + split; [intros ->; done|]. intros (cps & Hs & Hb). rewrite Hb in E.
      destruct (feed_encoded cps pending 0 Hp Hs) as (st2 & E2 & _). rewrite E2 in E. injection E as <- _. done.
Qed.

(** U+00E9 and U+20AC are accepted. *)
Lemma utf8_validate_decides_witness :
  tlv_utf8_validate (mem_of 1 [195; 169; 226; 130; 172]) [0; 0; 0; 0] (Ptr 1 0) 5 = Some TLV_OK /\
  exists cps, forallb scalar cps = true /\ [195; 169; 226; 130; 172] = flat_map utf8_encode cps.
Proof.
  destruct (utf8_validate_decides (mem_of 1 [195; 169; 226; 130; 172]) [0; 0; 0; 0] (Ptr 1 0) 5 eq_refl ltac:(lia))
    as (rc & E & _ & Hiff).
  assert (rc = TLV_OK) as -> by (vm_compute in E; congruence). split; [exact E|]. exact (proj1 Hiff eq_refl).
Defined.

(** Cutting the input anywhere, inside a code point too, does not change the outcome: updating with
    two pieces is updating with the whole, and between updates the state stays well formed. *)
Theorem utf8_stream_pieces (m : mem) (st : tlv_utf8_stream_t) (value : ptr) (n1 n2 : Z)
  (Hst : stream_ok st) (H1 : 0 <= n1) (H2 : 0 <= n2) :
  exists rc st1, tlv_utf8_stream_update m st value n1 = Some (rc, st1) /\ (rc = TLV_OK -> stream_ok st1) /\
    tlv_utf8_stream_update m st value (n1 + n2) =
      if is_ok rc then tlv_utf8_stream_update m st1 (value +p n1) n2 else Some (rc, st1).
Proof.
  rewrite !(update_feed m value) by (done || lia). destruct (feed st (bytes_of m value n1)) as [rc st1] eqn:E.
  assert (rc = TLV_OK -> stream_ok st1) as Hok by (intros ->; apply (feed_ok _ st TLV_OK st1 Hst E eq_refl)).
  exists rc, st1. split; [done|]. split; [done|]. rewrite bytes_of_app, feed_app, E by lia.
  destruct (is_ok rc) eqn:Erc; [|done]. apply is_ok_true in Erc. now rewrite (update_feed m (value +p n1)) by auto.
Qed.

Lemma utf8_stream_pieces_witness :
  let m := mem_of 1 [226; 130; 172] in
  exists st1, tlv_utf8_stream_update m (mk_utf8 [0; 0; 0; 0] 0 0) (Ptr 1 0) 1 = Some (TLV_OK, st1) /\
    tlv_utf8_stream_finish st1 = TLV_ERR_INVALID_VALUE /\
    tlv_utf8_stream_update m st1 (Ptr 1 1) 2 = Some (TLV_OK, mk_utf8 [226; 130; 172; 0] 0 0).
Proof.
  intros m.
  destruct (utf8_stream_pieces m (mk_utf8 [0; 0; 0; 0] 0 0) (Ptr 1 0) 1 2 ltac:(split; [done|now left]) ltac:(lia)
    ltac:(lia)) as (rc & st1 & E & _ & Hwhole).
  assert (rc = TLV_OK /\ st1 = mk_utf8 [226; 0; 0; 0] 1 3) as [-> ->] by (vm_compute in E; injection E as <- <-; done).
  exists (mk_utf8 [226; 0; 0; 0] 1 3). split; [exact E|]. split; [reflexivity|].
  etransitivity; [symmetry; exact Hwhole|]. vm_compute. reflexivity.
Defined.
