(* ===== verification/Asn1Values.v ===== *)
(** * Contents of primitive ASN.1 elements, and their laws (src/builtins/asn1/asn1_values_internal.h, asn1_values_internal.c)

    The validators of the canonical contents of one element each, and their dispatch over the numbers of
    universal tags.  [scratch] is what the uninitialized array of the UTF-8 validator holds.  A validator with
    a loop that is not over the octets one by one runs on fuel of the length, and returns [None] without it.
    Object identifiers are decided: the contents are a sequence of subidentifiers of least width. *)

From S2P Require Import Prelude Mem Core Utf8.

Definition valid (b : bool) : tlv_result_t := if b then TLV_OK else TLV_ERR_INVALID_VALUE.

(** [for (i = i; i < i + n; ++i) if (!ok(value[i])) return TLV_ERR_INVALID_VALUE]: whether it runs to its end. *)
Fixpoint each_octet (ok : Z -> bool) (m : mem) (value : ptr) (n : nat) (i : Z) : bool :=
  match n with O => true | S n => if negb (ok (ld m value i)) then false else each_octet ok m value n (i + 1) end.

(** [for (i = 0; i < length; i += step) if (!ok(i)) ..], [n] steps from [i] on. *)
Fixpoint each_step (ok : Z -> bool) (step : Z) (n : nat) (i : Z) : bool :=
  match n with O => true | S n => if negb (ok i) then false else each_step ok step n (i + step) end.

Definition between (low c high : Z) : bool := (low <=? c) && (c <=? high).

Section Validators.
Context (m : mem).

Definition tlv_asn1_validate_boolean (value : ptr) (length : Z) : tlv_result_t :=
  if negb (length =? 1) then TLV_ERR_INVALID_VALUE
  else valid ((ld m value 0 =? 0) || (ld m value 0 =? 255)).

Definition tlv_asn1_validate_integer (value : ptr) (length : Z) : tlv_result_t :=
  if length <? 1 then TLV_ERR_INVALID_VALUE
  else if (1 <? length) &&
          (((ld m value 0 =? 0) && (Z.land (ld m value 1) 128 =? 0)) ||
           ((ld m value 0 =? 255) && negb (Z.land (ld m value 1) 128 =? 0))) then TLV_ERR_INVALID_VALUE
  else TLV_OK.

Definition tlv_asn1_validate_null (value : ptr) (length : Z) : tlv_result_t := valid (length =? 0).

Definition tlv_asn1_validate_bit_string (value : ptr) (length : Z) : tlv_result_t :=
  if length <? 1 then TLV_ERR_INVALID_VALUE
  else
    let unused := ld m value 0 in
    if 7 <? unused then TLV_ERR_INVALID_VALUE
    else if length =? 1 then valid (unused =? 0)
    else valid (Z.land (ld m value (length - 1)) (u8 (Z.shiftl 1 unused - 1)) =? 0).

Definition tlv_asn1_validate_octet_string (value : ptr) (length : Z) : tlv_result_t := TLV_OK.

(** [while (i < length && (value[i] & 0x80)) ++i] *)
Fixpoint skip_continued (n : nat) (value : ptr) (length i : Z) : Z :=
  match n with
  | O => i
  | S n => if (i <? length) && negb (Z.land (ld m value i) 128 =? 0) then skip_continued n value length (i + 1) else i
  end.

Fixpoint oid_loop (fuel : nat) (value : ptr) (length i : Z) : option tlv_result_t :=
  if i <? length then
    match fuel with
    | O => None
    | S fuel =>
        if ld m value i =? 128 then Some TLV_ERR_INVALID_VALUE
        else
          let i := skip_continued (Z.to_nat (length - i)) value length i in
          if i =? length then Some TLV_ERR_INVALID_VALUE else oid_loop fuel value length (i + 1)
    end
  else Some TLV_OK.

Definition tlv_asn1_validate_oid (value : ptr) (length : Z) : option tlv_result_t :=
  if length <? 1 then Some TLV_ERR_INVALID_VALUE else oid_loop (Z.to_nat length) value length 0.

Definition tlv_asn1_validate_real (value : ptr) (length : Z) : tlv_result_t :=
  if length =? 0 then TLV_OK
  else
    let first := ld m value 0 in
    if Z.land first 128 =? 0 then
      if negb (Z.land first 64 =? 0) then
        valid ((length =? 1) && ((first =? 64) || (first =? 65) || (first =? 66) || (first =? 67)))
      else TLV_ERR_INVALID_VALUE
    else if negb (Z.land first 48 =? 0) then TLV_ERR_INVALID_VALUE
    else if negb (Z.land first 12 =? 0) then TLV_ERR_INVALID_VALUE
    else if Z.land first 3 =? 3 then TLV_ERR_INVALID_VALUE
    else
      let exp_octets := Z.land first 3 + 1 in
      if length <? 1 + exp_octets + 1 then TLV_ERR_INVALID_VALUE
      else if negb (is_ok (tlv_asn1_validate_integer (value +p 1) exp_octets)) then TLV_ERR_INVALID_VALUE
      else
        let mantissa_start := 1 + exp_octets in
        if (1 <? length - mantissa_start) && (ld m value mantissa_start =? 0) then TLV_ERR_INVALID_VALUE
        else valid (negb (Z.land (ld m value (length - 1)) 1 =? 0)).

Definition is_digit (c : Z) : bool := between 48 c 57.
Definition is_printable (c : Z) : bool :=
  between 65 c 90 || between 97 c 122 || between 48 c 57 || (c =? 32) || (c =? 39) || (c =? 40) || (c =? 41) || (c =? 43) ||
  (c =? 44) || (c =? 45) || (c =? 46) || (c =? 47) || (c =? 58) || (c =? 61) || (c =? 63).

Definition tlv_asn1_validate_numeric_string (value : ptr) (length : Z) : tlv_result_t :=
  valid (each_octet (fun c => is_digit c || (c =? 32)) m value (Z.to_nat length) 0).
Definition tlv_asn1_validate_printable_string (value : ptr) (length : Z) : tlv_result_t :=
  valid (each_octet is_printable m value (Z.to_nat length) 0).
Definition tlv_asn1_validate_ia5_string (value : ptr) (length : Z) : tlv_result_t :=
  valid (each_octet (fun c => c <=? 127) m value (Z.to_nat length) 0).
Definition tlv_asn1_validate_visible_string (value : ptr) (length : Z) : tlv_result_t :=
  valid (each_octet (fun c => between 32 c 126) m value (Z.to_nat length) 0).

Definition tlv_asn1_validate_utf8 (scratch : list Z) (value : ptr) (length : Z) : option tlv_result_t :=
  tlv_utf8_validate m scratch value length.

Definition tlv_asn1_validate_universal_string (value : ptr) (length : Z) : tlv_result_t :=
  if negb (length mod 4 =? 0) then TLV_ERR_INVALID_VALUE
  else valid (each_step (fun i =>
    let cp := Z.lor (Z.lor (Z.lor (u32 (Z.shiftl (ld m value i) 24)) (u32 (Z.shiftl (ld m value (i + 1)) 16)))
                       (u32 (Z.shiftl (ld m value (i + 2)) 8))) (ld m value (i + 3)) in
    negb ((1114111 <? cp) || between 55296 cp 57343)) 4 (Z.to_nat (length / 4)) 0).

Definition tlv_asn1_validate_bmp_string (value : ptr) (length : Z) : tlv_result_t :=
  if negb (length mod 2 =? 0) then TLV_ERR_INVALID_VALUE
  else valid (each_step (fun i =>
    let cp := Z.lor (u32 (Z.shiftl (ld m value i) 8)) (ld m value (i + 1)) in
    negb (between 55296 cp 57343)) 2 (Z.to_nat (length / 2)) 0).

(** ** Times *)

Definition digit_pair (p : ptr) : Z := (ld m p 0 - 48) * 10 + (ld m p 1 - 48).

(** [mm < 1 || mm > 12 || dd < 1 || dd > 31], negated, and the same of [hh > 23 || mi > 59 || ss > 59]. *)
Definition date_in_range (mm dd : Z) : bool := negb ((mm <? 1) || (12 <? mm) || (dd <? 1) || (31 <? dd)).
Definition time_in_range (hh mi ss : Z) : bool := negb ((23 <? hh) || (59 <? mi) || (59 <? ss)).

Definition tlv_asn1_validate_utc_time (value : ptr) (length : Z) : tlv_result_t :=
  if negb (length =? 13) then TLV_ERR_INVALID_VALUE
  else if negb (each_octet is_digit m value 12 0) then TLV_ERR_INVALID_VALUE
  else if negb (ld m value 12 =? 90) then TLV_ERR_INVALID_VALUE
  else valid (date_in_range (digit_pair (value +p 2)) (digit_pair (value +p 4)) &&
              time_in_range (digit_pair (value +p 6)) (digit_pair (value +p 8)) (digit_pair (value +p 10))).

(** [while (i < length && is_digit(value[i])) ++i] *)
Fixpoint skip_digits (n : nat) (value : ptr) (length i : Z) : Z :=
  match n with
  | O => i
  | S n => if (i <? length) && is_digit (ld m value i) then skip_digits n value length (i + 1) else i
  end.

Definition tlv_asn1_validate_generalized_time (value : ptr) (length : Z) : tlv_result_t :=
  if length <? 15 then TLV_ERR_INVALID_VALUE
  else if negb (each_octet is_digit m value 14 0) then TLV_ERR_INVALID_VALUE
  else if negb (date_in_range (digit_pair (value +p 4)) (digit_pair (value +p 6)) &&
                time_in_range (digit_pair (value +p 8)) (digit_pair (value +p 10)) (digit_pair (value +p 12)))
  then TLV_ERR_INVALID_VALUE
  else if (14 <? length) && (ld m value 14 =? 46) then
    let frac_start := 15 in
    let i := skip_digits (Z.to_nat (length - frac_start)) value length frac_start in
    if i =? frac_start then TLV_ERR_INVALID_VALUE
    else if ld m value (i - 1) =? 48 then TLV_ERR_INVALID_VALUE
    else valid ((i =? length - 1) && (ld m value i =? 90))
  else valid ((14 =? length - 1) && (ld m value 14 =? 90)).

Definition tlv_asn1_validate_time (value : ptr) (length : Z) : tlv_result_t :=
  if length =? 0 then TLV_ERR_INVALID_VALUE else tlv_asn1_validate_visible_string value length.

Definition tlv_asn1_validate_date (value : ptr) (length : Z) : tlv_result_t :=
  if negb (length =? 8) then TLV_ERR_INVALID_VALUE
  else if negb (each_octet is_digit m value 8 0) then TLV_ERR_INVALID_VALUE
  else valid (date_in_range (digit_pair (value +p 4)) (digit_pair (value +p 6))).

Definition tlv_asn1_validate_time_of_day (value : ptr) (length : Z) : tlv_result_t :=
  if negb (length =? 6) then TLV_ERR_INVALID_VALUE
  else if negb (each_octet is_digit m value 6 0) then TLV_ERR_INVALID_VALUE
  else valid (time_in_range (digit_pair value) (digit_pair (value +p 2)) (digit_pair (value +p 4))).

Definition tlv_asn1_validate_date_time (value : ptr) (length : Z) : tlv_result_t :=
  if negb (length =? 14) then TLV_ERR_INVALID_VALUE
  else if negb (is_ok (tlv_asn1_validate_date value 8)) then TLV_ERR_INVALID_VALUE
  else tlv_asn1_validate_time_of_day (value +p 8) 6.

(** ** Durations *)

(** Whether there is a digit, and the position behind the digits. *)
Definition duration_consume_digits (value : ptr) (length pos : Z) : bool * Z :=
  let start := pos in
  let pos := skip_digits (Z.to_nat (length - pos)) value length pos in
  (start <? pos, pos).

(** The locals of the loop. *)
Record duration_t := mk_duration {
  du_have_component : bool; du_in_time_part : bool; du_date_rank : Z; du_time_rank : Z }.

(** The ranks of the designators Y, M, D and H, M, S; [None] for others. *)
Definition date_rank (designator : Z) : option Z :=
  if designator =? 89 then Some 1 else if designator =? 77 then Some 2 else if designator =? 68 then Some 3 else None.
Definition time_rank (designator : Z) : option Z :=
  if designator =? 72 then Some 1 else if designator =? 77 then Some 2 else if designator =? 83 then Some 3 else None.

(** What a component's designator does to the locals; [None] is an invalid value. *)
Definition duration_designator (s : duration_t) (has_fraction : bool) (designator : Z) : option duration_t :=
  if negb s.(du_in_time_part) then
    match date_rank designator with
    | Some rank =>
        if rank <=? s.(du_date_rank) then None else Some (mk_duration true s.(du_in_time_part) rank s.(du_time_rank))
    | None => None
    end
  else
    match time_rank designator with
    | Some rank =>
        if rank <=? s.(du_time_rank) then None
        else if has_fraction && negb (designator =? 83) then None
        else Some (mk_duration true s.(du_in_time_part) s.(du_date_rank) rank)
    | None => None
    end.

(** One component from [pos] on: the locals and the position behind it, or [None] for an invalid value. *)
Definition duration_component (value : ptr) (length pos : Z) (s : duration_t) : option (duration_t * Z) :=
  let '(digits, pos) := duration_consume_digits value length pos in
  if negb digits then None
  else
    let '(fraction_ok, has_fraction, pos) :=
      if (pos <? length) && (ld m value pos =? 46) then
        let '(digits, pos) := duration_consume_digits value length (pos + 1) in (digits, true, pos)
      else (true, false, pos) in
    if negb fraction_ok then None
    else if length <=? pos then None
    else
      match duration_designator s has_fraction (ld m value pos) with
      | Some s => Some (s, pos + 1)
      | None => None
      end.

Fixpoint duration_loop (fuel : nat) (value : ptr) (length pos : Z) (s : duration_t) : option tlv_result_t :=
  if pos <? length then
    match fuel with
    | O => None
    | S fuel =>
        if negb s.(du_in_time_part) && (ld m value pos =? 84) then
          duration_loop fuel value length (pos + 1) (mk_duration s.(du_have_component) true s.(du_date_rank) s.(du_time_rank))
        else
          match duration_component value length pos s with
          | Some (s, pos) => duration_loop fuel value length pos s
          | None => Some TLV_ERR_INVALID_VALUE
          end
    end
  else if s.(du_in_time_part) && (s.(du_time_rank) =? 0) then Some TLV_ERR_INVALID_VALUE
  else Some (valid s.(du_have_component)).

Definition tlv_asn1_validate_duration (value : ptr) (length : Z) : option tlv_result_t :=
  if length =? 0 then Some TLV_ERR_INVALID_VALUE
  else duration_loop (Z.to_nat length) value length 0 (mk_duration false false 0 0).

(** ** Identifiers of resources *)

Definition validate_iri_arcs (scratch : list Z) (value : ptr) (length : Z) (absolute : bool) : option tlv_result_t :=
  if length =? 0 then Some TLV_ERR_INVALID_VALUE
  else
    match tlv_asn1_validate_utf8 scratch value length with
    | None => None
    | Some rc =>
        if negb (is_ok rc) then Some TLV_ERR_INVALID_VALUE
        else if (if absolute then negb (ld m value 0 =? 47) else ld m value 0 =? 47) then Some TLV_ERR_INVALID_VALUE
        else if ld m value (length - 1) =? 47 then Some TLV_ERR_INVALID_VALUE
        else Some (valid (each_step (fun i => negb ((ld m value i =? 47) && (ld m value (i + 1) =? 47))) 1 (Z.to_nat (length - 1)) 0))
    end.

Definition tlv_asn1_validate_oid_iri (scratch : list Z) (value : ptr) (length : Z) : option tlv_result_t :=
  validate_iri_arcs scratch value length true.
Definition tlv_asn1_validate_relative_oid_iri (scratch : list Z) (value : ptr) (length : Z) : option tlv_result_t :=
  validate_iri_arcs scratch value length false.

(** ** Dispatch *)

Definition tlv_asn1_validate_universal_value (scratch : list Z) (number : Z) (value : ptr) (length : Z) : option tlv_result_t :=
  match number with
  | 1 => Some (tlv_asn1_validate_boolean value length)
  | 2 | 10 => Some (tlv_asn1_validate_integer value length)
  | 3 => Some (tlv_asn1_validate_bit_string value length)
  | 4 | 7 | 20 | 21 | 25 | 27 => Some (tlv_asn1_validate_octet_string value length)
  | 5 => Some (tlv_asn1_validate_null value length)
  | 6 | 13 => tlv_asn1_validate_oid value length
  | 9 => Some (tlv_asn1_validate_real value length)
  | 12 => tlv_asn1_validate_utf8 scratch value length
  | 14 => Some (tlv_asn1_validate_time value length)
  | 18 => Some (tlv_asn1_validate_numeric_string value length)
  | 19 => Some (tlv_asn1_validate_printable_string value length)
  | 22 => Some (tlv_asn1_validate_ia5_string value length)
  | 23 => Some (tlv_asn1_validate_utc_time value length)
  | 24 => Some (tlv_asn1_validate_generalized_time value length)
  | 26 => Some (tlv_asn1_validate_visible_string value length)
  | 28 => Some (tlv_asn1_validate_universal_string value length)
  | 30 => Some (tlv_asn1_validate_bmp_string value length)
  | 31 => Some (tlv_asn1_validate_date value length)
  | 32 => Some (tlv_asn1_validate_time_of_day value length)
  | 33 => Some (tlv_asn1_validate_date_time value length)
  | 34 => tlv_asn1_validate_duration value length
  | 35 => tlv_asn1_validate_oid_iri scratch value length
  | 36 => tlv_asn1_validate_relative_oid_iri scratch value length
  | _ => Some TLV_ERR_UNSUPPORTED
  end.
End Validators.

(** * Contents of primitive ASN.1 elements: the laws

    Object identifiers are decided: the contents are a sequence of subidentifiers of least width. *)

(** The octets of a subidentifier: all but the last are continued, and the first does not pad. *)
Definition subidentifier (s : list Z) : Prop :=
  exists c b, s = c ++ [b] /\ Forall (fun x => 128 <= x < 256) c /\ 0 <= b < 128 /\ byte_at s 0 <> 128.

Section Oid.
Context (m : mem) (value : ptr) (n : Z).

Lemma continued_octet i : negb (Z.land (ld m value i) 128 =? 0) = (128 <=? ld m value i).
Proof using.
  assert (forallb (fun x => eqb (negb (Z.land x 128 =? 0)) (128 <=? x)) all_octets = true) as Hall by (vm_compute; reflexivity).
  pose proof (octets_decide _ Hall (ld m value i) (ld_range m value i)) as E. now apply eqb_prop in E.
Qed.

(** The octets that are skipped are continued, and the one behind them is not. *)
Lemma skip_continued_spec k i : 0 <= i <= n -> n - i <= Z.of_nat k ->
  let j := skip_continued m k value n i in
  i <= j <= n /\ Forall (fun x => 128 <= x < 256) (bytes_of m (value +p i) (j - i)) /\ (j < n -> ld m value j < 128).
Proof using.
  revert i. induction k as [|k IH]; intros i Hi Hk; cbn [skip_continued].
  - rewrite Z.sub_diag, bytes_of_0 by lia. split; [lia|]. split; [constructor|lia].
  - destruct (Z.ltb_spec i n); cbn [andb]; [|rewrite Z.sub_diag, bytes_of_0 by lia; split; [lia|]; split; [constructor|lia]].
    rewrite continued_octet. destruct (Z.leb_spec 128 (ld m value i)).
    + destruct (IH (i + 1) ltac:(lia) ltac:(lia)) as (Hj & Hf & Hl). set (j := skip_continued _ _ _ _ _) in *. split; [lia|]. split; [|done].
      replace (j - i) with (1 + (j - (i + 1))) by lia. rewrite bytes_of_cons, padd_padd, ld_padd, Z.add_0_r by lia.
      constructor; [|done]. pose proof (ld_range m value i). lia.
    + rewrite Z.sub_diag, bytes_of_0 by lia. split; [lia|]. split; [constructor|done].
Qed.

(** Skipping the octets of a subidentifier in front of others. *)
Lemma skip_subidentifier c b rest i k : Forall (fun x => 128 <= x < 256) c -> 0 <= b < 128 -> 0 <= i ->
  bytes_of m (value +p i) (n - i) = c ++ b :: rest -> n - i <= Z.of_nat k -> skip_continued m k value n i = i + zlen c.
Proof using.
  revert i k. induction c as [|x c IH]; intros i k Hc Hb Hi E Hk.
  - assert (i < n) as Hlt by (apply (f_equal length) in E; rewrite length_bytes_of in E; cbn in E; lia). destruct k as [|k]; [lia|]. cbn [skip_continued].
    replace (n - i) with (1 + (n - i - 1)) in E by lia. rewrite bytes_of_cons, ld_padd, Z.add_0_r in E by lia. injection E as E _.
    rewrite (proj2 (Z.ltb_lt i n)), continued_octet, E, (proj2 (Z.leb_gt 128 b)) by lia. cbn [andb length]. lia.
  - assert (i < n) as Hlt by (apply (f_equal length) in E; rewrite length_bytes_of in E; cbn in E; lia). destruct k as [|k]; [lia|]. cbn [skip_continued].
    apply list.Forall_cons_1 in Hc as [Hx Hc]. replace (n - i) with (1 + (n - (i + 1))) in E by lia. rewrite bytes_of_cons, ld_padd, Z.add_0_r, padd_padd in E by lia. injection E as E1 E2.
    rewrite (proj2 (Z.ltb_lt i n)), continued_octet, E1, (proj2 (Z.leb_le 128 x)) by lia. cbn [andb]. rewrite (IH (i + 1) k Hc Hb ltac:(lia) E2 ltac:(lia)). cbn [length]. lia.
Qed.

Lemma oid_loop_sound fuel i : 0 <= i <= n -> oid_loop m fuel value n i = Some TLV_OK ->
  exists subs, Forall subidentifier subs /\ bytes_of m (value +p i) (n - i) = concat subs.
Proof using.
  revert i. induction fuel as [|fuel IH]; intros i Hi; cbn [oid_loop]; destruct (Z.ltb_spec i n); try done.
  - intros _. exists []. split; [constructor|]. now rewrite bytes_of_0 by lia.
  - destruct (Z.eqb_spec (ld m value i) 128) as [|Hpad]; [done|]. destruct (skip_continued_spec (Z.to_nat (n - i)) i Hi ltac:(lia)) as (Hj & Hf & Hl).
    set (j := skip_continued m (Z.to_nat (n - i)) value n i) in *. destruct (Z.eqb_spec j n); [done|]. intros Hrun.
    destruct (IH (j + 1) ltac:(lia) Hrun) as (subs & Hs & E). exists ((bytes_of m (value +p i) (j - i) ++ [ld m value j]) :: subs). split.
    + constructor; [|done]. exists (bytes_of m (value +p i) (j - i)), (ld m value j). split; [done|]. split; [done|]. split; [pose proof (ld_range m value j); lia|].
      destruct (Z.eq_dec j i) as [Eij|Hne]; [rewrite Eij, Z.sub_diag, bytes_of_0 by lia; exact Hpad|].
      replace (j - i) with (1 + (j - i - 1)) by lia. rewrite bytes_of_cons, ld_padd, Z.add_0_r by lia. exact Hpad.
    + cbn [concat]. rewrite <- E. replace (n - i) with ((j - i + 1) + (n - (j + 1))) by lia. rewrite bytes_of_app, bytes_of_snoc, padd_padd, ld_padd by lia.
      replace (i + (j - i)) with j by lia. now replace (i + (j - i + 1)) with (j + 1) by lia.
  - intros _. exists []. split; [constructor|]. now rewrite bytes_of_0 by lia.
Qed.

Lemma oid_loop_complete subs : Forall subidentifier subs -> forall fuel i, 0 <= i <= n -> n - i <= Z.of_nat fuel ->
  bytes_of m (value +p i) (n - i) = concat subs -> oid_loop m fuel value n i = Some TLV_OK.
Proof using.
  induction 1 as [|s subs (c & b & -> & Hc & Hb & Hpad) Hs IH]; intros fuel i Hi Hf E.
  - apply (f_equal length) in E. rewrite length_bytes_of in E. cbn in E. destruct fuel; cbn [oid_loop]; now rewrite (proj2 (Z.ltb_ge i n)) by lia.
  - cbn [concat] in E. rewrite <- app_assoc in E. cbn [app] in E.
    assert (zlen c + 1 <= n - i) as Hlen by (apply (f_equal length) in E; rewrite length_bytes_of, length_app in E; cbn [length] in E; lia).
    destruct fuel as [|fuel]; [lia|]. cbn [oid_loop]. rewrite (proj2 (Z.ltb_lt i n)) by lia.
    assert (ld m value i = byte_at (c ++ [b]) 0) as Ei.
    { rewrite <- (Z.add_0_r i), <- ld_padd, <- (byte_at_bytes_of m (value +p i) (n - i)), E by lia. destruct c; reflexivity. }
    rewrite Ei, (proj2 (Z.eqb_neq _ _) Hpad), (skip_subidentifier c b (concat subs) i) by (done || lia). rewrite (proj2 (Z.eqb_neq _ n)) by lia.
    apply IH; [lia|lia|]. replace (n - i) with ((zlen c + 1) + (n - (i + zlen c + 1))) in E by lia. rewrite bytes_of_app, padd_padd in E by lia.
    replace (c ++ b :: concat subs) with ((c ++ [b]) ++ concat subs) in E by now rewrite <- app_assoc.
    apply app_inj_1 in E as [_ E]; [|rewrite length_bytes_of, length_app; cbn [length]; lia]. now replace (i + (zlen c + 1)) with (i + zlen c + 1) in E by lia.
Qed.
End Oid.

(** C37. The validator of object identifiers returns on every value, and accepts exactly the nonempty
    concatenations of subidentifiers: octets of which all but the last have the eighth bit, and that do not start
    with 128, the padding. *)
Theorem oid_validate_decides m value n (Hn : 0 <= n) :
  exists rc, tlv_asn1_validate_oid m value n = Some rc /\ (rc = TLV_OK \/ rc = TLV_ERR_INVALID_VALUE) /\
    (rc = TLV_OK <-> exists subs, subs <> [] /\ Forall subidentifier subs /\ bytes_of m value n = concat subs).
Proof.
  unfold tlv_asn1_validate_oid. destruct (Z.ltb_spec n 1).
  { exists TLV_ERR_INVALID_VALUE. split; [done|]. split; [now right|]. split; [done|]. intros (subs & Hne & Hs & E).
    rewrite bytes_of_0 in E by lia. destruct subs as [|s subs]; [done|]. apply list.Forall_cons_1 in Hs as [(c & b & -> & _) _]. cbn in E. destruct c; done. }
  assert (forall fuel i rc, oid_loop m fuel value n i = Some rc -> rc = TLV_OK \/ rc = TLV_ERR_INVALID_VALUE) as Hcodes.
  { induction fuel as [|fuel IH]; intros i rc; cbn [oid_loop]; destruct (i <? n); try done; try (intros [= <-]; auto).
    destruct (_ =? 128); [intros [= <-]; auto|]. destruct (_ =? n); [intros [= <-]; auto|]. apply IH. }
  destruct (oid_loop m (Z.to_nat n) value n 0) as [rc|] eqn:E.
  - exists rc. split; [done|]. split; [now apply Hcodes in E|]. split.
    + intros ->. apply oid_loop_sound in E as (subs & Hs & E); [|lia]. rewrite padd_0, Z.sub_0_r in E. exists subs. split; [|done].
      intros ->. apply (f_equal length) in E. rewrite length_bytes_of in E. cbn in E. lia.
    + intros (subs & _ & Hs & Eb). rewrite (oid_loop_complete m value n subs Hs) in E; [congruence|lia|lia|]. now rewrite padd_0, Z.sub_0_r.
  - exfalso. revert E. assert (forall fuel i, 0 <= i -> n - i <= Z.of_nat fuel -> oid_loop m fuel value n i <> None) as Hret; [|apply Hret; lia].
    induction fuel as [|fuel IH]; intros i Hi Hf; cbn [oid_loop]; destruct (Z.ltb_spec i n); try done; [lia|].
    destruct (_ =? 128); [done|]. destruct (skip_continued_spec m value n (Z.to_nat (n - i)) i ltac:(lia) ltac:(lia)) as (Hj & _). destruct (_ =? n); [done|]. apply IH; lia.
Qed.

(** 1.2.840 *)
Lemma oid_validate_decides_witness :
  let m := mem_of 1 [42; 134; 72] in
  tlv_asn1_validate_oid m (Ptr 1 0) 3 = Some TLV_OK /\
  exists subs, subs <> [] /\ Forall subidentifier subs /\ bytes_of m (Ptr 1 0) 3 = concat subs.
Proof.
  intros m. destruct (oid_validate_decides m (Ptr 1 0) 3 ltac:(lia)) as (rc & E & _ & Hiff). assert (rc = TLV_OK) as -> by (vm_compute in E; congruence).
  split; [exact E|now apply Hiff].
Defined.

(** A fraction passes in the date part of a duration: 1.5Y. *)
Lemma duration_fraction_of_years : tlv_asn1_validate_duration (mem_of 1 [49; 46; 53; 89]) (Ptr 1 0) 4 = Some TLV_OK.
Proof. reflexivity. Qed.
