(* ===== verification/DerValidation.v ===== *)
(** * DER: traversal and validation (builtins/asn1/der_validation.h, src/builtins/asn1/der_validation.c)

    A depth-first traversal with a stack of the ends of the enclosing values, one list here, the innermost
    first.  A visitor is a function of its context, which it returns anew; [scratch] is what the
    uninitialized array of the UTF-8 validator holds.  A round reads an element, of two octets at least,
    or ends a value, so that [size] octets are traversed on fuel of twice the size and two more. *)

From S2P Require Import Prelude Mem Core Format Diagnostic FieldFixed FieldVariable Compose TreeReader Writer Asn1 Asn1Values.

Definition TLV_DER_MAX_DEPTH : Z := 64.

Record tlv_der_limits_t := mk_der_limits {
  dl_max_depth : Z; dl_max_input_size : Z; dl_max_value_size : Z; dl_max_elements : Z }.

Definition tlv_der_default_limits : tlv_der_limits_t := mk_der_limits 32 (16 * 1024 * 1024) (16 * 1024 * 1024) 100000.

Definition tlv_asn1_tag_class (m : mem) (tag : tlv_tag_t) : tlv_asn1_class_t :=
  match Z.shiftr (ld m tag.(t_data) 0) TLV_ASN1_CLASS_SHIFT with
  | 0 => TLV_ASN1_UNIVERSAL | 1 => TLV_ASN1_APPLICATION | 2 => TLV_ASN1_CONTEXT_SPECIFIC | 3 => TLV_ASN1_PRIVATE
  | n => TLV_ASN1_CLASS_OTHER n
  end.
Definition is_universal (c : tlv_asn1_class_t) : bool := match c with TLV_ASN1_UNIVERSAL => true | _ => false end.
Definition tlv_asn1_tag_is_constructed (m : mem) (tag : tlv_tag_t) : bool :=
  negb (Z.land (ld m tag.(t_data) 0) TLV_ASN1_CONSTRUCTED_BIT =? 0).

(** Element, depth and offset. *)
Definition tlv_der_visitor_t (S : Type) : Type := S -> tlv_element_t -> Z -> Z -> tlv_visit_result_t * S.

Definition fail (rc : tlv_result_t) (offset : Z) (diagnostic : option tlv_diagnostic_t) : tlv_result_t * option tlv_diagnostic_t :=
  (rc, tlv_diagnostic_set_location
         (tlv_diagnostic_init diagnostic rc
            (if rc_eqb rc TLV_END then TLV_DIAGNOSTIC_SEVERITY_INFO else TLV_DIAGNOSTIC_SEVERITY_ERROR))
         TLV_LOCATION_INPUT TLV_LOCATION_POINT offset offset).

Definition unlocated (rc : tlv_result_t) (diagnostic : option tlv_diagnostic_t) : tlv_result_t * option tlv_diagnostic_t :=
  (rc, tlv_diagnostic_init diagnostic rc TLV_DIAGNOSTIC_SEVERITY_ERROR).

Definition tlv_der_read_element (m : mem) (data : ptr) (size base : Z) (limits : tlv_der_limits_t)
  (element : tlv_element_t) (consumed : Z) (diagnostic : option tlv_diagnostic_t)
  : tlv_result_t * tlv_element_t * Z * option tlv_diagnostic_t :=
  let '(rc, tag, tag_size) := der_read_tag m data size element.(e_tag) 0 in
  let element := mk_element tag element.(e_value) in
  let failed r := let '(rc, diagnostic) := r in (rc, element, consumed, diagnostic) in
  if negb (is_ok rc) then failed (fail rc base diagnostic)
  else
    let '(rc, value_length, length_size) := tlv_asn1_read_minimal_length m (data +p tag_size) (size - tag_size) 0 0 in
    if negb (is_ok rc) then failed (fail rc (base + tag_size) diagnostic)
    else if limits.(dl_max_value_size) <? value_length then failed (fail TLV_ERR_LIMIT (base + tag_size) diagnostic)
    else if size - tag_size - length_size <? value_length then
      failed (fail TLV_ERR_TRUNCATED (base + tag_size + length_size) diagnostic)
    else (TLV_OK, mk_element tag (mk_value (data +p (tag_size + length_size)) value_length),
          tag_size + length_size + value_length, diagnostic).

(** [ends[0] = end] *)
Definition set_bottom (ends : list Z) (e : Z) : list Z := removelast ends ++ [e].

Section Traverse.
Context `{Platform} {S : Type} (m : mem) (scratch : list Z).

(** What a strict traversal asks of a primitive element of a universal type. *)
Definition strict_check (strict : bool) (element : tlv_element_t) (value_length : Z) : option tlv_result_t :=
  if strict && is_universal (tlv_asn1_tag_class m element.(e_tag)) && negb (tlv_asn1_tag_is_constructed m element.(e_tag)) then
    let '(rc, number) := tlv_der_tag_number m (Some element.(e_tag)) (Some 0) in
    if is_ok rc then tlv_asn1_validate_universal_value m scratch (cell 0 number) element.(e_value).(v_data) value_length
    else Some rc
  else Some TLV_OK.

(** The locals that change: the context of the visitor, and the first element with its size. *)
Record traversal_t := mk_traversal { tv_context : S; tv_first : tlv_element_t; tv_first_size : Z }.

Definition traversal_result : Type := tlv_result_t * traversal_t * option tlv_diagnostic_t.

(** A round returns, or goes on with the ends, the position, the number of elements and the locals.  [None] is a
    validator without fuel. *)
Definition traverse_step (data : ptr) (base initial_depth : Z) (limits : tlv_der_limits_t) (visitor : option (tlv_der_visitor_t S))
  (one strict : bool) (ends : list Z) (limit pos count : Z) (t : traversal_t) (diagnostic : option tlv_diagnostic_t)
  : option (traversal_result + list Z * Z * Z * traversal_t) :=
  let level := Z.of_nat (length ends) - 1 in
  let failed t r := let '(rc, diagnostic) := r in Some (inl (rc, t, diagnostic)) in
  if (limits.(dl_max_depth) <? initial_depth + level) || (count =? limits.(dl_max_elements)) then
    failed t (fail TLV_ERR_LIMIT (base + pos) diagnostic)
  else
    let '(rc, element, used, diagnostic) :=
      tlv_der_read_element m (data +p pos) (limit - pos) (base + pos) limits empty_element 0 diagnostic in
    if negb (is_ok rc) then Some (inl (rc, t, diagnostic))
    else
      let count := usize (count + 1) in
      let e := pos + used in
      let '(rc, value_length) := tlv_size_to_native element.(e_value).(v_size) (Some 0) in
      let value_length := cell 0 value_length in
      if negb (is_ok rc) then failed t (fail rc (base + pos) diagnostic)
      else
        match strict_check strict element value_length with
        | None => None
        | Some rc =>
            if negb (is_ok rc) then failed t (fail rc (base + e - value_length) diagnostic)
            else
              let '(ends, t) :=
                if one && (pos =? 0) then (set_bottom ends e, mk_traversal t.(tv_context) element used) else (ends, t) in
              let '(visit, t) :=
                match visitor with
                | Some visitor =>
                    let '(visit, context) := visitor t.(tv_context) element (initial_depth + level) (base + pos) in
                    (visit, mk_traversal context t.(tv_first) t.(tv_first_size))
                | None => (TLV_VISIT_CONTINUE, t)
                end in
              match visit with
              | TLV_VISIT_STOP => Some (inl (TLV_OK, t, diagnostic))
              | TLV_VISIT_CONTINUE =>
                  if tlv_asn1_tag_is_constructed m element.(e_tag) && negb (element.(e_value).(v_size) =? 0) then
                    let pos := e - value_length in
                    if initial_depth + level =? limits.(dl_max_depth) then failed t (fail TLV_ERR_LIMIT (base + pos) diagnostic)
                    else Some (inr (e :: ends, pos, count, t))
                  else Some (inr (ends, e, count, t))
              | TLV_VISIT_ERROR => failed t (fail TLV_ERR_VISITOR (base + pos) diagnostic)
              | _ => failed t (fail TLV_ERR_CALLBACK (base + pos) diagnostic)
              end
        end.

Fixpoint traverse_loop (fuel : nat) (data : ptr) (base initial_depth : Z) (limits : tlv_der_limits_t)
  (visitor : option (tlv_der_visitor_t S)) (one strict : bool) (ends : list Z) (pos count : Z) (t : traversal_t)
  (diagnostic : option tlv_diagnostic_t) : option traversal_result :=
  match fuel, ends with
  | Datatypes.S fuel, limit :: outer =>
      if (pos <? limit) || negb (match outer with [] => true | _ => false end) then
        if pos =? limit then traverse_loop fuel data base initial_depth limits visitor one strict outer pos count t diagnostic
        else
          match traverse_step data base initial_depth limits visitor one strict ends limit pos count t diagnostic with
          | None => None
          | Some (inl result) => Some result
          | Some (inr (ends, pos, count, t)) =>
              traverse_loop fuel data base initial_depth limits visitor one strict ends pos count t
                diagnostic
          end
      else Some (TLV_OK, t, diagnostic)
  | _, _ => None
  end.

Definition traverse (data : ptr) (size base initial_depth initial_count : Z) (limits : tlv_der_limits_t)
  (visitor : option (tlv_der_visitor_t S)) (one strict : bool) (t : traversal_t) (diagnostic : option tlv_diagnostic_t)
  : option traversal_result :=
  traverse_loop (Z.to_nat (2 * size + 2)) data base initial_depth limits visitor one strict [size] 0 initial_count t diagnostic.

(** The limits that apply: the defaults when they are NULL. *)
Definition der_limits (limits : option tlv_der_limits_t) : tlv_der_limits_t := cell tlv_der_default_limits limits.

Definition visit_impl (data : ptr) (size : Z) (limits : option tlv_der_limits_t) (visitor : option (tlv_der_visitor_t S)) (context : S)
  (strict : bool) (diagnostic : option tlv_diagnostic_t) : option (tlv_result_t * S * option tlv_diagnostic_t) :=
  let limits := der_limits limits in
  let failed r := let '(rc, diagnostic) := r in Some (rc, context, diagnostic) in
  if is_null data && negb (size =? 0) then failed (unlocated TLV_ERR_NULL_ARG diagnostic)
  else if TLV_DER_MAX_DEPTH <? limits.(dl_max_depth) then failed (unlocated TLV_ERR_UNSUPPORTED diagnostic)
  else if limits.(dl_max_input_size) <? size then failed (unlocated TLV_ERR_LIMIT diagnostic)
  else
    match traverse data size 0 0 0 limits visitor false strict (mk_traversal context empty_element 0) diagnostic with
    | Some (rc, t, diagnostic) => Some (rc, t.(tv_context), diagnostic)
    | None => None
    end.

Definition tlv_der_visit (data : ptr) (size : Z) (limits : option tlv_der_limits_t) (visitor : option (tlv_der_visitor_t S)) (context : S)
  (diagnostic : option tlv_diagnostic_t) := visit_impl data size limits visitor context false diagnostic.
Definition tlv_der_visit_strict (data : ptr) (size : Z) (limits : option tlv_der_limits_t) (visitor : option (tlv_der_visitor_t S)) (context : S)
  (diagnostic : option tlv_diagnostic_t) := visit_impl data size limits visitor context true diagnostic.
End Traverse.
Arguments mk_traversal {S}.

Section Public.
Context `{Platform} (m : mem) (scratch : list Z).

(** The traversals without a visitor: their context is NULL. *)
Definition no_traversal : @traversal_t unit := mk_traversal tt empty_element 0.

Definition read_impl (data : ptr) (size : Z) (limits : option tlv_der_limits_t) (element : option tlv_element_t) (consumed : option Z)
  (strict : bool) (diagnostic : option tlv_diagnostic_t)
  : option (tlv_result_t * option tlv_element_t * option Z * option tlv_diagnostic_t) :=
  let limits := der_limits limits in
  let failed r := let '(rc, diagnostic) := r in Some (rc, element, consumed, diagnostic) in
  match element, consumed with
  | Some _, Some _ =>
      if is_null data && negb (size =? 0) then failed (unlocated TLV_ERR_NULL_ARG diagnostic)
      else if TLV_DER_MAX_DEPTH <? limits.(dl_max_depth) then failed (unlocated TLV_ERR_UNSUPPORTED diagnostic)
      else if limits.(dl_max_input_size) <? size then failed (unlocated TLV_ERR_LIMIT diagnostic)
      else if size =? 0 then failed (fail TLV_END 0 diagnostic)
      else
        match traverse m scratch data size 0 0 0 limits None true strict no_traversal diagnostic with
        | Some (rc, t, diagnostic) =>
            if is_ok rc then Some (rc, Some t.(tv_first), Some t.(tv_first_size), diagnostic)
            else Some (rc, element, consumed, diagnostic)
        | None => None
        end
  | _, _ => failed (unlocated TLV_ERR_NULL_ARG diagnostic)
  end.

Definition tlv_der_read (data : ptr) (size : Z) (limits : option tlv_der_limits_t) (element : option tlv_element_t) (consumed : option Z)
  (diagnostic : option tlv_diagnostic_t) := read_impl data size limits element consumed false diagnostic.
Definition tlv_der_read_strict (data : ptr) (size : Z) (limits : option tlv_der_limits_t) (element : option tlv_element_t)
  (consumed : option Z) (diagnostic : option tlv_diagnostic_t) := read_impl data size limits element consumed true diagnostic.

(** [self] is the address of the composition of DER. *)
Definition write_impl (self : ptr) (data : ptr) (capacity : Z) (tag : tlv_tag_t) (value : ptr) (length : Z)
  (limits : option tlv_der_limits_t) (strict : bool) (written : option Z) (diagnostic : option tlv_diagnostic_t)
  : option (tlv_result_t * mem * option Z * option tlv_diagnostic_t) :=
  let limits := der_limits limits in
  let failed r := let '(rc, diagnostic) := r in Some (rc, m, written, diagnostic) in
  if (is_null data && negb (capacity =? 0)) || (is_null value && negb (length =? 0)) || negb (is_some written) then
    failed (unlocated TLV_ERR_NULL_ARG diagnostic)
  else
    let '(rc, total) := tlv_encoded_size m tag length (Some (tlv_format_der self)) (Some 0) in
    let total := cell 0 total in
    if negb (is_ok rc) then failed (fail rc (if rc_eqb rc TLV_ERR_INVALID_LENGTH then tag.(t_size) else 0) diagnostic)
    else if TLV_DER_MAX_DEPTH <? limits.(dl_max_depth) then failed (unlocated TLV_ERR_UNSUPPORTED diagnostic)
    else if (limits.(dl_max_input_size) <? total) || (limits.(dl_max_elements) =? 0) then failed (unlocated TLV_ERR_LIMIT diagnostic)
    else if limits.(dl_max_value_size) <? length then failed (fail TLV_ERR_LIMIT tag.(t_size) diagnostic)
    else
      match strict_check m scratch strict (mk_element tag (mk_value value length)) length with
      | None => None
      | Some rc =>
          if negb (is_ok rc) then failed (fail rc (total - length) diagnostic)
          else
            match
              if tlv_asn1_tag_is_constructed m tag then
                traverse m scratch value length (total - length) 1 1 limits None false strict no_traversal diagnostic
              else Some (TLV_OK, no_traversal, diagnostic)
            with
            | None => None
            | Some (rc, _, diagnostic) =>
                if negb (is_ok rc) then Some (rc, m, written, diagnostic)
                else if is_null data then Some (TLV_OK, m, Some total, diagnostic)
                else
                  let '(rc, m, written) := tlv_write m data capacity (Some (tlv_format_der self)) tag value length written in
                  if negb (is_ok rc) then
                    let '(rc, diagnostic) := unlocated rc diagnostic in Some (rc, m, written, diagnostic)
                  else Some (TLV_OK, m, written, diagnostic)
            end
      end.

(** The location of a failed write is in the output. *)
Definition output_located (rc : tlv_result_t) (diagnostic : option tlv_diagnostic_t) : option tlv_diagnostic_t :=
  match diagnostic with
  | Some d =>
      let l := d.(dg_location) in
      if negb (is_ok rc) && negb (match l.(l_kind) with TLV_LOCATION_UNKNOWN => true | _ => false end) then
        Some (with_location (mk_location TLV_LOCATION_OUTPUT l.(l_kind) l.(l_begin) l.(l_end)) d)
      else diagnostic
  | None => diagnostic
  end.

Definition tlv_der_write (self data : ptr) (capacity : Z) (tag : tlv_tag_t) (value : ptr) (length : Z) (limits : option tlv_der_limits_t)
  (written : option Z) (diagnostic : option tlv_diagnostic_t) : option (tlv_result_t * mem * option Z * option tlv_diagnostic_t) :=
  match write_impl self data capacity tag value length limits false written diagnostic with
  | Some (rc, m, written, diagnostic) => Some (rc, m, written, output_located rc diagnostic)
  | None => None
  end.
Definition tlv_der_write_strict (self data : ptr) (capacity : Z) (tag : tlv_tag_t) (value : ptr) (length : Z) (limits : option tlv_der_limits_t)
  (written : option Z) (diagnostic : option tlv_diagnostic_t) : option (tlv_result_t * mem * option Z * option tlv_diagnostic_t) :=
  match write_impl self data capacity tag value length limits true written diagnostic with
  | Some (rc, m, written, diagnostic) => Some (rc, m, written, output_located rc diagnostic)
  | None => None
  end.
End Public.
