(* ===== verification/DerLaws.v ===== *)
(** * DER: the laws of the traversal

    The traversal accepts exactly the octets that are nested elements within the limits, and always
    returns; what is written is accepted when it is read. *)

From S2P Require Import Prelude Mem Core Endian Format Diagnostic FieldFixed FieldVariable FieldVariableLaws WireFormat Compose ComposeLaws TreeReader Writer Utf8 Asn1 Asn1Laws Asn1Values DerValidation.

(** ** The validators return *)

Section Validators.
Context (m : mem) (value : ptr).

Lemma skip_continued_range n length i : i <= length -> i <= skip_continued m n value length i <= length.
Proof using.
  revert i. induction n as [|n IH]; intros i Hi; cbn [skip_continued]; [lia|]. destruct (Z.ltb_spec i length); cbn [andb]; [|lia].
  destruct (negb _); [|lia]. specialize (IH (i + 1) ltac:(lia)). lia.
Qed.

Lemma skip_digits_range n length i : i <= length -> i <= skip_digits m n value length i <= length.
Proof using.
  revert i. induction n as [|n IH]; intros i Hi; cbn [skip_digits]; [lia|]. destruct (Z.ltb_spec i length); cbn [andb]; [|lia].
  destruct (is_digit _); [|lia]. specialize (IH (i + 1) ltac:(lia)). lia.
Qed.

Lemma oid_loop_returns fuel length i : 0 <= i -> length - i <= Z.of_nat fuel -> is_Some (oid_loop m fuel value length i).
Proof using.
  revert i. induction fuel as [|fuel IH]; intros i Hi Hf; cbn [oid_loop]; destruct (Z.ltb_spec i length); try (eexists; reflexivity); [lia|].
  destruct (_ =? 128); [eexists; reflexivity|]. destruct (_ =? length); [eexists; reflexivity|].
  pose proof (skip_continued_range (Z.to_nat (length - i)) length i ltac:(lia)). apply IH; lia.
Qed.

Lemma duration_component_progress length pos s s' pos' : pos <= length -> duration_component m value length pos s = Some (s', pos') -> pos < pos' <= length.
Proof using.
  intros Hp. unfold duration_component, duration_consume_digits.
  pose proof (skip_digits_range (Z.to_nat (length - pos)) length pos Hp) as Hr. set (p := skip_digits _ _ _ _ _) in *.
  destruct (pos <? p); [|done]. cbn [negb].
  destruct ((p <? length) && (ld m value p =? 46)) eqn:E.
  - pose proof (skip_digits_range (Z.to_nat (length - (p + 1))) length (p + 1) ltac:(zlia)) as Hr2. set (q := skip_digits _ _ _ length (p + 1)) in *.
    destruct (p + 1 <? q); [|done]. cbn [negb]. destruct (Z.leb_spec length q); [done|]. destruct (duration_designator _ _ _); [|done]. intros [= _ <-]. zlia.
  - cbn [negb]. destruct (Z.leb_spec length p); [done|]. destruct (duration_designator _ _ _); [|done]. intros [= _ <-]. lia.
Qed.

Lemma duration_loop_returns fuel length pos s : 0 <= pos -> length - pos <= Z.of_nat fuel -> is_Some (duration_loop m fuel value length pos s).
Proof using.
  revert pos s. induction fuel as [|fuel IH]; intros pos s Hp Hf; cbn [duration_loop]; destruct (Z.ltb_spec pos length).
  - lia.
  - destruct (_ && _); eexists; reflexivity.
  - destruct (_ && _); [apply IH; lia|]. destruct (duration_component m value length pos s) as [[s' pos']|] eqn:E; [|eexists; reflexivity].
    apply duration_component_progress in E; [|lia]. apply IH; lia.
  - destruct (_ && _); eexists; reflexivity.
Qed.

Lemma utf8_returns scratch n : length scratch = 4%nat -> 0 <= n -> is_Some (tlv_asn1_validate_utf8 m scratch value n).
Proof using.
  intros Hs Hn. unfold tlv_asn1_validate_utf8, tlv_utf8_validate, tlv_utf8_stream_init. cbn [us_pending].
  rewrite update_feed by (done || now apply reset_ok). destruct (feed _ _) as [rc st']. destruct (negb (is_ok rc)); eexists; reflexivity.
Qed.

Lemma iri_returns scratch n absolute : length scratch = 4%nat -> 0 <= n -> is_Some (validate_iri_arcs m scratch value n absolute).
Proof using.
  intros Hs Hl. unfold validate_iri_arcs. destruct (n =? 0); [eexists; reflexivity|]. destruct (utf8_returns scratch n Hs Hl) as [rc ->].
  destruct (negb (is_ok rc)); [eexists; reflexivity|]. destruct (if absolute then _ else _); [eexists; reflexivity|]. destruct (_ =? 47); eexists; reflexivity.
Qed.

Lemma universal_value_returns scratch number n : length scratch = 4%nat -> 0 <= n -> is_Some (tlv_asn1_validate_universal_value m scratch number value n).
Proof using.
  intros Hs Hl. pose proof (utf8_returns scratch n Hs Hl). pose proof (iri_returns scratch n true Hs Hl). pose proof (iri_returns scratch n false Hs Hl).
  assert (is_Some (tlv_asn1_validate_oid m value n)) by (unfold tlv_asn1_validate_oid; destruct (n <? 1); [eexists; reflexivity|apply oid_loop_returns; lia]).
  assert (is_Some (tlv_asn1_validate_duration m value n)) by (unfold tlv_asn1_validate_duration; destruct (n =? 0); [eexists; reflexivity|apply duration_loop_returns; lia]).
  unfold tlv_asn1_validate_universal_value, tlv_asn1_validate_oid_iri, tlv_asn1_validate_relative_oid_iri.
  repeat match goal with |- is_Some (match ?k with _ => _ end) => destruct k; try done; try (eexists; reflexivity) end.
Qed.
End Validators.

(** ** Elements and their nesting *)

Section Elements.
Context `{Platform} (m : mem) (data : ptr) (Hd : data <> NULL) (scratch : list Z) (Hscratch : length scratch = 4%nat)
  (limits : tlv_der_limits_t) (strict : bool).

(** A header of [k] octets of tag and [lk] of length at [pos], and the element it heads. *)
Definition der_header (pos k lk n : Z) : Prop :=
  der_read_tag m (data +p pos) k empty_tag 0 = (TLV_OK, tlv_tag (data +p pos) k, k) /\ 1 <= k <= SIZE_MAX /\
  tlv_asn1_read_minimal_length m (data +p (pos + k)) lk 0 0 = (TLV_OK, n, lk) /\ 1 <= lk <= SIZE_MAX /\ 0 <= n <= UINT64_MAX.

Definition element_at (pos k lk n : Z) : tlv_element_t := mk_element (tlv_tag (data +p pos) k) (mk_value (data +p pos +p (k + lk)) n).

Definition der_element (pos k lk n : Z) : Prop :=
  der_header pos k lk n /\ n <= limits.(dl_max_value_size) /\ strict_check m scratch strict (element_at pos k lk n) n = Some TLV_OK.

Definition constructed_at (pos k : Z) : bool := tlv_asn1_tag_is_constructed m (tlv_tag (data +p pos) k).

(** [c] elements fill the octets from [pos] to [e]; values are nested at most [d] deep. *)
Inductive der_forest : nat -> Z -> Z -> Z -> Prop :=
| der_nil d pos : der_forest d pos pos 0
| der_leaf d pos k lk n e c : der_element pos k lk n -> constructed_at pos k && negb (n =? 0) = false ->
    der_forest d (pos + (k + lk + n)) e c -> der_forest d pos e (1 + c)
| der_node d pos k lk n e c c' : der_element pos k lk n -> constructed_at pos k && negb (n =? 0) = true ->
    der_forest d (pos + (k + lk)) (pos + (k + lk + n)) c -> der_forest (S d) (pos + (k + lk + n)) e c' ->
    der_forest (S d) pos e (1 + c + c').

Lemma der_forest_le d pos e c : der_forest d pos e c -> pos <= e /\ 0 <= c.
Proof using. clear Hscratch.
  induction 1 as [|d pos k lk n e c [(_ & Hk & _ & Hlk & Hn) _] _ _ IH|d pos k lk n e c c' [(_ & Hk & _ & Hlk & Hn) _] _ _ IH1 _ IH2]; lia.
Qed.

Lemma read_element_at pos k lk n limit base diagnostic : der_header pos k lk n -> n <= limits.(dl_max_value_size) ->
  pos + (k + lk + n) <= limit -> 0 <= pos -> limit <= SIZE_MAX ->
  tlv_der_read_element m (data +p pos) (limit - pos) base limits empty_element 0 diagnostic = (TLV_OK, element_at pos k lk n, k + lk + n, diagnostic).
Proof using Hd. clear Hscratch.
  intros (Ht & Hk & Hl & Hlk & Hn) Hmax Hfit Hp Hs. unfold tlv_der_read_element. assert (data +p pos <> NULL) as Hd1 by now destruct data.
  assert (data +p (pos + k) <> NULL) as Hd2 by now destruct data. assert (0 <= k <= SIZE_MAX) as Hk' by lia. assert (0 <= lk <= SIZE_MAX) as Hlk' by lia.
  assert (der_read_tag m (data +p pos) (limit - pos) (e_tag empty_element) 0 = (TLV_OK, tlv_tag (data +p pos) k, k)) as ->.
  { eapply (tag_read_local der_read_tag der_write_tag m m); [exact Hd1|exact Hk'|lia|exact Ht|lia|done]. }
  rewrite is_ok_OK. cbn [negb]. rewrite padd_padd.
  assert (tlv_asn1_read_minimal_length m (data +p (pos + k)) (limit - pos - k) 0 0 = (TLV_OK, n, lk)) as ->.
  { eapply (len_read_local m m); [exact Hd2|exact Hlk'| |exact Hl|lia|done]. lia. }
  rewrite is_ok_OK. cbn [negb]. rewrite (proj2 (Z.ltb_ge _ n)) by lia. rewrite (proj2 (Z.ltb_ge _ n)) by lia. reflexivity.
Qed.

Lemma read_element_inv pos limit base diagnostic rc el used dg : 0 <= pos < limit -> limit <= SIZE_MAX ->
  tlv_der_read_element m (data +p pos) (limit - pos) base limits empty_element 0 diagnostic = (rc, el, used, dg) -> rc = TLV_OK ->
  exists k lk n, der_header pos k lk n /\ n <= limits.(dl_max_value_size) /\ pos + (k + lk + n) <= limit /\
    el = element_at pos k lk n /\ used = k + lk + n /\ dg = diagnostic.
Proof using Hd. clear Hscratch.
  intros Hp Hs E ->. unfold tlv_der_read_element in E. assert (data +p pos <> NULL) as Hd1 by now destruct data.
  assert (0 <= limit - pos <= SIZE_MAX) as Hw by lia.
  destruct (der_read_tag m (data +p pos) (limit - pos) (e_tag empty_element) 0) as [[rc t] k] eqn:Et.
  destruct (is_ok rc) eqn:Eok; cbn [negb] in E; [|injection E as -> _ _ _; done]. apply is_ok_true in Eok as ->.
  pose proof (tag_read_sound (read := der_read_tag) (write := der_write_tag) m (data +p pos) (limit - pos) _ _ t k Hd1 Hw Et) as (Hk & -> & _).
  rewrite padd_padd in E. assert (data +p (pos + k) <> NULL) as Hd2 by now destruct data. assert (0 <= limit - pos - k <= SIZE_MAX) as Hw2 by lia.
  destruct (tlv_asn1_read_minimal_length m (data +p (pos + k)) (limit - pos - k) 0 0) as [[rc n] lk] eqn:El.
  destruct (is_ok rc) eqn:Eok; cbn [negb] in E; [|injection E as -> _ _ _; done]. apply is_ok_true in Eok as ->.
  pose proof (len_read_sound (read := tlv_asn1_read_minimal_length) (write := tlv_ber_write_length) m (data +p (pos + k)) (limit - pos - k) _ _ n lk Hd2 Hw2 El) as (Hlk & Hn).
  destruct (Z.ltb_spec (dl_max_value_size limits) n); [done|]. destruct (Z.ltb_spec (limit - pos - k - lk) n); [done|].
  injection E as <- <- <-. exists k, lk, n. split; [|split; [lia|split; [lia|done]]].
  split; [|split; [lia|split; [|split; [lia|done]]]].
  - eapply (tag_read_local der_read_tag der_write_tag m m); [exact Hd1|exact Hw|lia|exact Et|lia|done].
  - eapply (len_read_local m m); [exact Hd2|exact Hw2|lia|exact El|lia|done].
Qed.

(** *** The steps of the traversal *)

Context {S : Type} (base initial_depth : Z).

Abbreviation step := (@traverse_step _ S m scratch data base initial_depth limits None).
Abbreviation loop := (fun fuel => @traverse_loop _ S m scratch fuel data base initial_depth limits None).

Lemma strict_check_returns pos k lk n : 0 <= n -> is_Some (strict_check m scratch strict (element_at pos k lk n) n).
Proof using Hscratch.
  intros Hn. unfold strict_check. destruct (_ && _); [|eexists; reflexivity]. destruct (tlv_der_tag_number _ _ _) as [rc number].
  destruct (is_ok rc); [|eexists; reflexivity]. now apply universal_value_returns.
Qed.

(** How a step ends. *)
Inductive step_of (one : bool) (ends : list Z) (limit pos count : Z) (t : @traversal_t S) (dg : option tlv_diagnostic_t) :
  @traversal_result S + list Z * Z * Z * @traversal_t S -> Prop :=
| step_fails rc t' dg' : rc <> TLV_OK -> step_of one ends limit pos count t dg (inl (rc, t', dg'))
| step_leaf k lk n : der_element pos k lk n -> constructed_at pos k && negb (n =? 0) = false -> pos + (k + lk + n) <= limit ->
    initial_depth + zlen ends - 1 <= limits.(dl_max_depth) -> count <> limits.(dl_max_elements) ->
    step_of one ends limit pos count t dg
      (inr (if one && (pos =? 0) then set_bottom ends (pos + (k + lk + n)) else ends, pos + (k + lk + n), usize (count + 1),
            if one && (pos =? 0) then mk_traversal t.(tv_context) (element_at pos k lk n) (k + lk + n) else t))
| step_node k lk n : der_element pos k lk n -> constructed_at pos k && negb (n =? 0) = true -> pos + (k + lk + n) <= limit ->
    initial_depth + zlen ends - 1 < limits.(dl_max_depth) -> count <> limits.(dl_max_elements) ->
    step_of one ends limit pos count t dg
      (inr (pos + (k + lk + n) :: (if one && (pos =? 0) then set_bottom ends (pos + (k + lk + n)) else ends), pos + (k + lk), usize (count + 1),
            if one && (pos =? 0) then mk_traversal t.(tv_context) (element_at pos k lk n) (k + lk + n) else t)).

Lemma traverse_step_of one ends limit pos count t dg : 0 <= pos < limit -> limit <= SIZE_MAX ->
  exists r, step one strict ends limit pos count t dg = Some r /\ step_of one ends limit pos count t dg r.
Proof using Hd Hscratch.
  intros Hp Hs. unfold traverse_step. destruct ((dl_max_depth limits <? initial_depth + (zlen ends - 1)) || (count =? dl_max_elements limits)) eqn:Elim.
  { eexists. split; [reflexivity|]. now apply step_fails. }
  destruct (tlv_der_read_element m (data +p pos) (limit - pos) (base + pos) limits empty_element 0 dg) as [[[rc el] used] dg'] eqn:Er.
  destruct (is_ok rc) eqn:Eok; cbn [negb]; [|eexists; split; [reflexivity|]; apply step_fails; now apply is_ok_false].
  apply is_ok_true in Eok. destruct (read_element_inv pos limit (base + pos) dg rc el used dg' Hp Hs Er Eok) as (k & lk & n & Hh & Hmax & Hfit & -> & -> & ->).
  pose proof Hh as (_ & Hk & _ & Hlk & Hn). cbn [e_value v_size element_at]. rewrite size_to_native_small by lia. cbn [cell]. rewrite is_ok_OK. cbn [negb].
  destruct (strict_check_returns pos k lk n ltac:(lia)) as [rc' Esc]. change (mk_element _ _) with (element_at pos k lk n). rewrite Esc.
  destruct (is_ok rc') eqn:Eok'; cbn [negb]; [|eexists; split; [reflexivity|]; apply step_fails; now apply is_ok_false]. apply is_ok_true in Eok' as ->.
  assert (der_element pos k lk n) as Hel by done. cbn [e_tag element_at]. change (tlv_asn1_tag_is_constructed m (tlv_tag (data +p pos) k)) with (constructed_at pos k).
  replace (pos + (k + lk + n) - n) with (pos + (k + lk)) by lia.
  destruct (constructed_at pos k && negb (n =? 0)) eqn:Ec.
  - destruct (Z.eqb_spec (initial_depth + (zlen ends - 1)) (dl_max_depth limits)) as [E|E].
    + destruct (one && (pos =? 0)); (eexists; split; [reflexivity|]; now apply step_fails).
    + destruct (one && (pos =? 0)) eqn:Eone; (eexists; split; [reflexivity|]).
      * pose proof (step_node one ends limit pos count t dg k lk n Hel Ec Hfit ltac:(zlia) ltac:(zlia)) as Hn'. rewrite Eone in Hn'. exact Hn'.
      * pose proof (step_node one ends limit pos count t dg k lk n Hel Ec Hfit ltac:(zlia) ltac:(zlia)) as Hn'. rewrite Eone in Hn'. exact Hn'.
  - destruct (one && (pos =? 0)) eqn:Eone; (eexists; split; [reflexivity|]).
    + pose proof (step_leaf one ends limit pos count t dg k lk n Hel Ec Hfit ltac:(zlia) ltac:(zlia)) as Hn'. rewrite Eone in Hn'. exact Hn'.
    + pose proof (step_leaf one ends limit pos count t dg k lk n Hel Ec Hfit ltac:(zlia) ltac:(zlia)) as Hn'. rewrite Eone in Hn'. exact Hn'.
Qed.

(** *** Termination *)

(** The ends enclose each other, and the position is in the innermost value. *)
Fixpoint within (size pos : Z) (ends : list Z) : Prop :=
  match ends with [] => pos <= size | e :: outer => pos <= e /\ within size e outer end.

Lemma within_le size ends pos : within size pos ends -> pos <= size.
Proof using. clear Hscratch. revert pos. induction ends as [|e outer IH]; cbn; intros pos Hw; [done|]. destruct Hw as [Hp Hw]. apply IH in Hw. lia. Qed.

Lemma header_size pos k lk n : der_element pos k lk n -> 1 <= k /\ 1 <= lk /\ 0 <= n.
Proof using. clear Hscratch. intros [(_ & Hk & _ & Hlk & Hn) _]. lia. Qed.

(** At the start one value is open. *)
Definition starting (pos : Z) (ends : list Z) : Prop := pos = 0 -> exists limit, ends = [limit].

Lemma bottom_start one pos ends e : starting pos ends -> one && (pos =? 0) = true -> set_bottom ends e = [e].
Proof using. clear Hscratch. intros Hs E. destruct Hs as [limit ->]; [zlia|done]. Qed.

Lemma traverse_loop_returns one fuel size : forall ends pos count t dg, size <= SIZE_MAX -> 0 <= pos -> starting pos ends -> ends <> [] -> within size pos ends ->
  2 * (size - pos) + zlen ends < Z.of_nat fuel -> is_Some (loop fuel one strict ends pos count t dg).
Proof using Hd Hscratch.
  induction fuel as [|fuel IH]; intros ends pos count t dg Hs Hp Hst Hne Hw Hf; [pose proof (within_le _ _ _ Hw); lia|].
  destruct ends as [|limit outer]; [done|]. pose proof Hw as [Hp1 Hw1]. pose proof (within_le _ _ _ Hw1) as Hls. cbn [traverse_loop].
  destruct (_ || _) eqn:Ego; [|eexists; reflexivity]. destruct (Z.eqb_spec pos limit) as [->|Hnel].
  - destruct outer as [|e outer]; [zlia|]. apply IH; try done; [|cbn [length] in *; lia]. intros Hz. destruct (Hst Hz). done.
  - destruct (traverse_step_of one (limit :: outer) limit pos count t dg ltac:(lia) ltac:(lia)) as (r & -> & Hr).
    destruct Hr as [rc t' dg' _|k lk n Hel _ Hfit _ _|k lk n Hel _ Hfit _ _]; [eexists; reflexivity| |]; pose proof (header_size _ _ _ _ Hel).
    + destruct (one && (pos =? 0)) eqn:Eone.
      * rewrite (bottom_start one pos) by done. apply IH; [done|lia|intros ?; lia|done|split; [lia|cbn [within]; lia]|cbn [length] in *; lia].
      * apply IH; [done|lia|intros ?; lia|done|now split|cbn [length] in *; lia].
    + destruct (one && (pos =? 0)) eqn:Eone.
      * rewrite (bottom_start one pos) by done. apply IH; [done|lia|intros ?; lia|done|cbn; lia|cbn [length] in *; lia].
      * apply IH; [done|lia|intros ?; lia|done|split; [lia|now split]|cbn [length] in *; lia].
Qed.

(** *** Completeness *)

Lemma traverse_step_at one ends limit pos count t dg k lk n : der_element pos k lk n -> 0 <= pos -> pos + (k + lk + n) <= limit -> limit <= SIZE_MAX ->
  initial_depth + zlen ends - 1 <= limits.(dl_max_depth) -> count <> limits.(dl_max_elements) ->
  (constructed_at pos k && negb (n =? 0) = true -> initial_depth + zlen ends - 1 <> limits.(dl_max_depth)) ->
  let e := pos + (k + lk + n) in
  let ends' := if one && (pos =? 0) then set_bottom ends e else ends in
  let t' := if one && (pos =? 0) then mk_traversal t.(tv_context) (element_at pos k lk n) (k + lk + n) else t in
  step one strict ends limit pos count t dg =
  Some (inr (if constructed_at pos k && negb (n =? 0) then (e :: ends', pos + (k + lk), usize (count + 1), t') else (ends', e, usize (count + 1), t'))).
Proof using Hd Hscratch.
  intros Hel Hp Hfit Hs Hdepth Hcount Hc e ends' t'. pose proof Hel as ((_ & Hk & _ & Hlk & Hn) & Hmax & Hsc). unfold traverse_step.
  replace ((dl_max_depth limits <? initial_depth + (zlen ends - 1)) || (count =? dl_max_elements limits)) with false by zlia.
  rewrite (read_element_at pos k lk n limit (base + pos) dg) by (done || lia || apply Hel). rewrite is_ok_OK. cbn [negb e_value v_size element_at].
  rewrite size_to_native_small by lia. cbn [cell]. rewrite is_ok_OK. cbn [negb]. change (mk_element _ _) with (element_at pos k lk n). rewrite Hsc, is_ok_OK. cbn [negb].
  change (tlv_asn1_tag_is_constructed m (e_tag (element_at pos k lk n))) with (constructed_at pos k). fold e. unfold ends', t'.
  replace (e - n) with (pos + (k + lk)) by (unfold e; lia).
  destruct (one && (pos =? 0)); (destruct (constructed_at pos k && negb (n =? 0)) eqn:Ec; [|reflexivity]);
    (specialize (Hc eq_refl); rewrite (proj2 (Z.eqb_neq (initial_depth + (zlen ends - 1)) _)) by lia; reflexivity).
Qed.

(** The run through the elements in [limit], from which others may follow. *)
Lemma forest_run d a b c : der_forest d a b c -> forall one limit outer count t dg, 0 <= a -> (one = true -> 0 < a) -> b <= limit -> limit <= SIZE_MAX ->
  initial_depth + zlen outer + Z.of_nat d <= limits.(dl_max_depth) -> 0 <= count -> count + c <= limits.(dl_max_elements) <= SIZE_MAX ->
  exists k, forall fuel, loop (k + fuel)%nat one strict (limit :: outer) a count t dg = loop fuel one strict (limit :: outer) b (count + c) t dg.
Proof using Hd Hscratch.
  induction 1 as [d pos|d pos k lk n e c Hel Hc Hf IH|d pos k lk n e c c' Hel Hc Hf1 IH1 Hf2 IH2]; intros one limit outer count t dg Ha Hone Hb Hs Hdepth Hcount Hmax.
  - exists O. intros fuel. cbn. now rewrite Z.add_0_r.
  - pose proof (header_size _ _ _ _ Hel). pose proof (der_forest_le _ _ _ _ Hf).
    destruct (IH one limit outer (count + 1) t dg ltac:(lia) ltac:(lia) Hb Hs Hdepth ltac:(lia) ltac:(lia)) as [j Hj].
    exists (Datatypes.S j). intros fuel. cbn [Nat.add traverse_loop]. rewrite (proj2 (Z.ltb_lt pos limit)), (proj2 (Z.eqb_neq pos limit)) by lia. cbn [orb].
    rewrite (traverse_step_at one (limit :: outer) limit pos count t dg k lk n) by (done || (cbn [length]; lia) || (rewrite Hc; done)). rewrite Hc.
    replace (one && (pos =? 0)) with false by (destruct one; [specialize (Hone eq_refl)|]; zlia). rewrite usize_small by lia. rewrite Hj. f_equal. lia.
  - pose proof (header_size _ _ _ _ Hel). pose proof (der_forest_le _ _ _ _ Hf1). pose proof (der_forest_le _ _ _ _ Hf2).
    destruct (IH1 one (pos + (k + lk + n)) (limit :: outer) (count + 1) t dg ltac:(lia) ltac:(lia) ltac:(lia) ltac:(lia) ltac:(cbn [length]; lia) ltac:(lia) ltac:(lia)) as [j1 Hj1].
    destruct (IH2 one limit outer (count + 1 + c) t dg ltac:(lia) ltac:(lia) Hb Hs Hdepth ltac:(lia) ltac:(lia)) as [j2 Hj2].
    exists (Datatypes.S (j1 + Datatypes.S j2)). intros fuel. cbn [Nat.add traverse_loop]. rewrite (proj2 (Z.ltb_lt pos limit)), (proj2 (Z.eqb_neq pos limit)) by lia. cbn [orb].
    rewrite (traverse_step_at one (limit :: outer) limit pos count t dg k lk n) by (done || (cbn [length]; lia) || (intros _; cbn [length]; lia)). rewrite Hc.
    replace (one && (pos =? 0)) with false by (destruct one; [specialize (Hone eq_refl)|]; zlia). rewrite usize_small by lia.
    rewrite <- Nat.add_assoc, Hj1. cbn [Nat.add traverse_loop negb]. rewrite orb_true_r, Z.eqb_refl, Hj2. f_equal. lia.
Qed.

(** *** Soundness *)

Lemma forest_sound one size fuel : forall limit outer pos count t dg t' dg', size <= SIZE_MAX -> 0 <= pos -> (one = true -> 0 < pos) -> within size pos (limit :: outer) ->
  0 <= count <= limits.(dl_max_elements) -> limits.(dl_max_elements) <= SIZE_MAX ->
  loop fuel one strict (limit :: outer) pos count t dg = Some (TLV_OK, t', dg') ->
  exists c, der_forest (Z.to_nat (limits.(dl_max_depth) - (initial_depth + zlen outer))) pos limit c /\ count + c <= limits.(dl_max_elements) /\
    match outer with
    | [] => t' = t /\ dg' = dg
    | _ => exists fuel', (fuel' < fuel)%nat /\ loop fuel' one strict outer limit (count + c) t dg = Some (TLV_OK, t', dg')
    end.
Proof using Hd Hscratch.
  induction fuel as [fuel IH] using lt_wf_ind. intros limit outer pos count t dg t' dg' Hs Hp Hone Hw Hcount Hmax Hrun.
  destruct fuel as [|fuel]; [done|]. pose proof Hw as [Hp1 Hw1]. pose proof (within_le _ _ _ Hw1) as Hls. cbn [traverse_loop] in Hrun.
  destruct (Z.eqb_spec pos limit) as [->|Hne].
  { exists 0. split; [constructor|]. split; [lia|]. rewrite Z.ltb_irrefl in Hrun. cbn [orb] in Hrun. destruct outer as [|e outer]; cbn [negb] in Hrun.
    - now injection Hrun as <- <-.
    - exists fuel. rewrite Z.add_0_r. split; [lia|exact Hrun]. }
  rewrite (proj2 (Z.ltb_lt pos limit)) in Hrun by lia. cbn [orb] in Hrun.
  destruct (traverse_step_of one (limit :: outer) limit pos count t dg ltac:(lia) ltac:(lia)) as (r & Er & Hr). rewrite Er in Hrun. revert Hrun. clear Er.
  assert (one && (pos =? 0) = false) as Eone by (destruct one; [specialize (Hone eq_refl)|]; zlia).
  destruct Hr as [rc t1 dg1 Hrc|k lk n Hel Hc Hfit Hdepth Hcnt|k lk n Hel Hc Hfit Hdepth Hcnt]; [now intros [= -> _ _]| |]; rewrite Eone, usize_small by lia;
    intros Hrun; pose proof (header_size _ _ _ _ Hel).
  - apply (IH fuel) in Hrun as (c & Hf & Hc' & Ho); [|lia|done|lia|lia|split; [lia|done]|lia|done].
    exists (1 + c). split; [now apply der_leaf with k lk n|]. split; [lia|]. destruct outer; [done|]. destruct Ho as (f & Hlt & Hr). exists f. rewrite Z.add_assoc. split; [lia|done].
  - cbn [length] in Hdepth. apply (IH fuel) in Hrun as (c & Hf & Hc' & f & Hlt & Hrun); [|lia|done|lia|lia|split; [lia|split; [lia|done]]|lia|done].
    pose proof (der_forest_le _ _ _ _ Hf). apply (IH f) in Hrun as (c' & Hf' & Hc'' & Ho); [|lia|done|lia|lia|split; [lia|done]|lia|done].
    exists (1 + c + c'). split; [|split; [lia|]].
    + revert Hf Hf'. replace (Z.to_nat (dl_max_depth limits - (initial_depth + zlen outer))) with
        (Datatypes.S (Z.to_nat (dl_max_depth limits - (initial_depth + zlen (limit :: outer))))) by (cbn [length]; lia).
      intros Hf Hf'. now apply der_node with k lk n.
    + destruct outer; [done|]. destruct Ho as (f2 & Hlt2 & Hr). exists f2. rewrite !Z.add_assoc. split; [lia|done].
Qed.

Lemma traverse_loop_mono one fuel : forall fuel' ends pos count t dg r, (fuel <= fuel')%nat ->
  loop fuel one strict ends pos count t dg = Some r -> loop fuel' one strict ends pos count t dg = Some r.
Proof using Hscratch.
  induction fuel as [|fuel IH]; intros fuel' ends pos count t dg r Hle Hr; [done|]. destruct fuel' as [|fuel']; [lia|]. cbn [traverse_loop] in *.
  destruct ends as [|limit outer]; [done|]. destruct (_ || _); [|done]. destruct (pos =? limit); [apply IH; [lia|done]|].
  destruct (step one strict (limit :: outer) limit pos count t dg) as [[r'|[[[ends' pos'] count'] t']]|]; [done| |done]. apply IH; [lia|done].
Qed.

(** What a run on any fuel returns, the traversal does. *)
Lemma traverse_fuel one fuel size count t dg r : 0 <= size <= SIZE_MAX -> loop fuel one strict [size] 0 count t dg = Some r ->
  @traverse _ S m scratch data size base initial_depth count limits None one strict t dg = Some r.
Proof using Hd Hscratch.
  intros Hs Hr. unfold traverse. assert (is_Some (loop (Z.to_nat (2 * size + 2)) one strict [size] 0 count t dg)) as [r' Hr'].
  { apply (traverse_loop_returns one _ size); [lia|lia|intros _; now exists size|done|cbn; lia|cbn [length]; lia]. }
  rewrite Hr'. destruct (Nat.le_ge_cases fuel (Z.to_nat (2 * size + 2))) as [Hle|Hle].
  - apply (traverse_loop_mono _ _ _ _ _ _ _ _ _ Hle) in Hr. congruence.
  - apply (traverse_loop_mono _ _ _ _ _ _ _ _ _ Hle) in Hr'. congruence.
Qed.

(** The traversal of [size] octets. *)
Lemma traverse_decides size count t dg : 0 <= size <= SIZE_MAX -> initial_depth <= limits.(dl_max_depth) -> 0 <= count <= limits.(dl_max_elements) ->
  limits.(dl_max_elements) <= SIZE_MAX ->
  exists rc t' dg', @traverse _ S m scratch data size base initial_depth count limits None false strict t dg = Some (rc, t', dg') /\
    (rc = TLV_OK -> t' = t /\ dg' = dg) /\
    (rc = TLV_OK <-> exists c, der_forest (Z.to_nat (limits.(dl_max_depth) - initial_depth)) 0 size c /\ count + c <= limits.(dl_max_elements)).
Proof using Hd Hscratch.
  intros Hs Hdepth Hcount Hmax.
  assert (is_Some (@traverse _ S m scratch data size base initial_depth count limits None false strict t dg)) as [[[rc t'] dg'] Hr].
  { unfold traverse. apply (traverse_loop_returns false _ size); [lia|lia|intros _; now exists size|done|cbn; lia|cbn [length]; lia]. }
  assert (forall r, rc = TLV_OK -> r = (t', dg') -> exists c, der_forest (Z.to_nat (limits.(dl_max_depth) - initial_depth)) 0 size c /\
    count + c <= limits.(dl_max_elements) /\ t' = t /\ dg' = dg) as Hsound.
  { intros r -> _. unfold traverse in Hr. apply (forest_sound false size) in Hr as (c & Hf & Hc & Ht); [|lia|lia|done|cbn; lia|done|done].
    cbn [length] in Hf. rewrite Z.add_0_r in Hf. eauto. }
  exists rc, t', dg'. split; [done|]. split; [|split].
  - intros Hok. now destruct (Hsound _ Hok eq_refl) as (c & _ & _ & Ht).
  - intros Hok. destruct (Hsound _ Hok eq_refl) as (c & Hf & Hc & _). eauto.
  - intros (c & Hf & Hc). destruct (forest_run _ 0 size c Hf false size [] count t dg) as [k Hk]; try done; try lia; [cbn [length]; lia|].
    specialize (Hk 1%nat). cbn [traverse_loop] in Hk. rewrite Z.ltb_irrefl in Hk. cbn [orb negb] in Hk.
    apply traverse_fuel in Hk; [congruence|done].
Qed.
End Elements.

(** C30. A traversal of DER, by the codec or strict, returns on every input, and without a visitor it succeeds
    exactly if the input is a sequence of elements of DER, each with a value within the limit of its size, that
    the values of the constructed ones are again, nested and counted within the limits; a strict traversal demands
    further that the contents of each are those of its universal type. *)
Theorem der_visit_exact `{Platform} {S : Type} m data size limits (context : S) (strict : bool) scratch diagnostic :
  let l := der_limits limits in
  data <> NULL -> length scratch = 4%nat -> 0 <= size <= SIZE_MAX -> 0 <= l.(dl_max_depth) <= TLV_DER_MAX_DEPTH -> size <= l.(dl_max_input_size) ->
  0 <= l.(dl_max_elements) <= SIZE_MAX ->
  exists rc context' diagnostic',
    (if strict then tlv_der_visit_strict m scratch data size limits None context diagnostic
     else tlv_der_visit m scratch data size limits None context diagnostic) = Some (rc, context', diagnostic') /\
    (rc = TLV_OK <-> exists c, der_forest m data scratch l strict (Z.to_nat l.(dl_max_depth)) 0 size c /\ c <= l.(dl_max_elements)).
Proof.
  intros l Hd Hscratch Hs Hdepth Hin Hmax.
  destruct (traverse_decides m data Hd scratch Hscratch l strict 0 0 size 0 (mk_traversal context empty_element 0) diagnostic Hs ltac:(lia) ltac:(lia) ltac:(lia))
    as (rc & t' & dg' & Hr & Ht & Hiff). rewrite Z.sub_0_r in Hiff. exists rc, t'.(tv_context), dg'. split; [|exact Hiff].
  assert (visit_impl m scratch data size limits None context strict diagnostic = Some (rc, t'.(tv_context), dg')) as E; [|destruct strict; exact E].
  unfold visit_impl. fold l. assert (is_null data = false) as -> by now destruct data. cbn [andb].
  now rewrite (proj2 (Z.ltb_ge _ _) (proj2 Hdepth)), (proj2 (Z.ltb_ge _ _) Hin), Hr.
Qed.

(** ** Writing and reading back *)

(** The elements of [m] at [data] from [a] to [b] are those of [m'] at [data'], shifted by [o]. *)
Section Moved.
Context `{Platform} (m m' : mem) (data data' : ptr) (Hd : data <> NULL) (Hd' : data' <> NULL) (scratch : list Z) (limits : tlv_der_limits_t) (o : Z).

Definition moved (a b : Z) : Prop := forall i, a <= i < b -> ld m data i = ld m' data' (o + i).

Lemma header_moved pos k lk n : der_header m data pos k lk n -> moved pos (pos + (k + lk)) -> der_header m' data' (o + pos) k lk n.
Proof using Hd Hd'.
  intros (Ht & Hk & Hl & Hlk & Hn) Hm. split; [|split; [done|split; [|done]]].
  - assert (data +p pos <> NULL) as Hp by now destruct data. assert (0 <= k <= SIZE_MAX) as Hk' by lia.
    apply (tag_read_sound (read := der_read_tag) (write := der_write_tag)) in Ht as (_ & _ & Hadm); [|exact Hp|exact Hk'].
    apply tag_read_back; [now destruct data'|lia|lia|]. rewrite <- Hadm. f_equal. symmetry. apply bytes_of_ext. intros i Hi. rewrite !ld_padd, <- Z.add_assoc. apply Hm. lia.
  - assert (data +p (pos + k) <> NULL) as Hp by now destruct data. apply variable_read_iff in Hl; [|apply asn1_length_ok|exact Hp|lia].
    apply variable_read_iff; [apply asn1_length_ok|now destruct data'|lia|].
    apply (variable_accepts_local _ _ _ _ _ _ _ _ _ asn1_length_ok Hl); [lia|]. intros i Hi. rewrite !ld_padd. replace (o + pos + k + i) with (o + (pos + k + i)) by lia. apply Hm. lia.
Qed.

Lemma constructed_moved pos k : ld m data pos = ld m' data' (o + pos) -> constructed_at m data pos k = constructed_at m' data' (o + pos) k.
Proof using. intros E. unfold constructed_at, tlv_asn1_tag_is_constructed. cbn [t_data tlv_tag]. now rewrite !ld_padd, !Z.add_0_r, E. Qed.

Lemma element_moved pos k lk n : der_element m data scratch limits false pos k lk n -> moved pos (pos + (k + lk)) -> der_element m' data' scratch limits false (o + pos) k lk n.
Proof using Hd Hd'. intros (Hh & Hmax & _) Hm. split; [now apply header_moved|done]. Qed.

Lemma forest_moved d a b c : der_forest m data scratch limits false d a b c -> moved a b -> der_forest m' data' scratch limits false d (o + a) (o + b) c.
Proof using Hd Hd'.
  induction 1 as [d pos|d pos k lk n e c Hel Hc Hf IH|d pos k lk n e c c' Hel Hc Hf1 IH1 Hf2 IH2]; intros Hm.
  - constructor.
  - pose proof (header_size m data scratch limits false _ _ _ _ Hel). pose proof (der_forest_le _ _ _ _ _ _ _ _ _ Hf).
    apply der_leaf with k lk n; [apply element_moved; [done|intros i Hi; apply Hm; lia]|rewrite <- constructed_moved; [done|apply Hm; lia]|].
    rewrite <- Z.add_assoc. apply IH. intros i Hi. apply Hm. lia.
  - pose proof (header_size m data scratch limits false _ _ _ _ Hel). pose proof (der_forest_le _ _ _ _ _ _ _ _ _ Hf1). pose proof (der_forest_le _ _ _ _ _ _ _ _ _ Hf2).
    apply der_node with k lk n; [apply element_moved; [done|intros i Hi; apply Hm; lia]|rewrite <- constructed_moved; [done|apply Hm; lia]| |].
    + rewrite <- !(Z.add_assoc o). apply IH1. intros i Hi. apply Hm. lia.
    + rewrite <- (Z.add_assoc o). apply IH2. intros i Hi. apply Hm. lia.
Qed.
End Moved.



Section Roundtrip.
Context `{Platform} (self : ptr) (m : mem) (tag : tlv_tag_t) (value : ptr) (n : Z) (w : list Z)
  (Ht : tag_ok tag) (Hv : value_ok (mk_value value n)) (Hw : fields_wire tlv_der_fields der_read_tag der_write_tag tlv_asn1_read_minimal_length tlv_ber_write_length (tag_bytes m tag) (bytes_of m value n) = Some w).

Lemma der_size : zlen (tag_bytes m tag) = t_size tag /\ zlen (bytes_of m value n) = n /\ 1 <= t_size tag /\ t_data tag <> NULL.
Proof using Ht Hv Hw.
  destruct Ht as [Hs Hn], Hv as [Hvs _]. cbn [v_size] in Hvs. apply fields_wire_inv in Hw as (l & _ & _ & _ & _ & _ & Htag & _).
  unfold tag_bytes in *. rewrite !length_bytes_of, !Z2Nat.id in * by lia. split; [done|]. split; [done|]. split; [lia|]. intros E. specialize (Hn E). lia.
Qed.

Lemma der_measured : zlen w <= SIZE_MAX -> tlv_encoded_size m tag n (Some (tlv_format_der self)) (Some 0) = (TLV_OK, Some (zlen w)).
Proof using Ht Hv Hw.
  intros Hws. destruct der_size as (Et & En & Hts & Htd). pose proof (proj1 Hv) as Hn. cbn [v_size] in Hn. pose proof SIZE_MAX_bounds.
  pose proof Hw as Hw'. apply fields_wire_inv in Hw' as (l & Ha & Hc & El & _ & Hlen & _ & Hll & Hc0). rewrite Et, En in *. change (fields_count tlv_der_fields (t_size tag) n) with n in *.
  unfold tlv_encoded_size, tlv_element_encoded_size, tlv_element_encoded_size_diag, tlv_format_measure. cbn [f_measure f_encode tlv_format_der e_tag e_value v_size].
  assert (is_null (t_data tag) = false) as -> by now destruct (t_data tag). rewrite andb_false_r.
  rewrite (fields_measure_ok tlv_der_fields der_read_tag der_write_tag tlv_asn1_read_minimal_length tlv_ber_write_length eq_refl eq_refl m (mk_element tag (mk_value NULL n)) no_encoding no_error l);
    cbn [e_tag e_value v_size]; change (fields_count tlv_der_fields (t_size tag) n) with n; [|done|lia|done|lia|done|lia].
  change (tlv_callback_result TLV_OK false) with TLV_OK. rewrite is_ok_OK. cbn [en_header en_value en_trailer en_total].
  rewrite size_add_small by lia. rewrite is_ok_OK. cbn [cell]. rewrite size_add_small by lia. rewrite is_ok_OK. cbn [cell negb orb].
  rewrite Z.add_0_r, !Z.eqb_refl, (proj2 (Z.eqb_neq _ 0)) by lia. cbn [negb orb]. rewrite is_ok_OK. cbn [negb cell en_total].
  rewrite is_ok_OK, size_to_native_small by lia. now rewrite Hlen.
Qed.

Lemma der_written data capacity w0 : data <> NULL -> capacity <= SIZE_MAX -> zlen w <= capacity -> element_apart (mk_element tag (mk_value value n)) data (zlen w) ->
  exists m', tlv_write m data capacity (Some (tlv_format_der self)) tag value n (Some w0) = (TLV_OK, m', Some (zlen w)) /\
    only_changes m m' data (zlen w) /\ bytes_of m' data (zlen w) = w.
Proof using Ht Hv Hw.
  intros Hd Hcs Hcap Hap. destruct (cl_encode (CodecLaws := der_codec_laws self) m (mk_element tag (mk_value value n)) data capacity w0 (Some no_error) w (conj Ht Hv) Hd Hcs Hw Hcap Hap)
    as (m' & He & Hm). exists m'. split; [|done]. unfold tlv_write, tlv_write_diag, tlv_write_element_diag. now rewrite He.
Qed.

(** The wire octets are an element, wherever they lie. *)
Lemma der_wire_header m' data : data <> NULL -> bytes_of m' data (zlen w) = w -> zlen w <= SIZE_MAX ->
  exists lk, der_header m' data 0 (t_size tag) lk n /\ zlen w = t_size tag + lk + n /\
    bytes_of m' data (t_size tag) = tag_bytes m tag /\ bytes_of m' (data +p (t_size tag + lk)) n = bytes_of m value n.
Proof using Ht Hv Hw.
  intros Hd Hb Hs. destruct der_size as (Et & En & Hts & Htd).
  destruct (fields_wire_at tlv_der_fields der_read_tag der_write_tag tlv_asn1_read_minimal_length tlv_ber_write_length m' data (zlen w) _ _ w Hw Hd ltac:(lia) Hs Hb)
    as (lk & c & Hat & Hlen & Hbt & Hc & Hbv). change (value_size tlv_der_fields c (zlen (tag_bytes m tag))) with c in *. rewrite Et, En in *. subst c.
  destruct Hat as [Hr Hrl Hk Hlk Hn _ Hfit]. change (tag_at tlv_der_fields lk) with 0 in *. change (length_at tlv_der_fields (t_size tag)) with (t_size tag) in *.
  change (value_size tlv_der_fields n (t_size tag)) with n in *. rewrite padd_0 in Hbt. exists lk. split; [|done]. rewrite Z.sub_0_r in *.
  assert (data +p 0 <> NULL) as Hd0 by now destruct data. assert (data +p t_size tag <> NULL) as Hd1 by now destruct data.
  assert (0 <= zlen w <= SIZE_MAX) as Hws by lia. assert (0 <= zlen w - t_size tag <= SIZE_MAX) as Hws1 by lia.
  split; [|split; [lia|split; [|split; [lia|done]]]].
  - eapply (tag_read_local der_read_tag der_write_tag m' m'); [exact Hd0|exact Hws|lia|apply (Hr empty_tag 0)|lia|done].
  - eapply (len_read_local m' m'); [exact Hd1|exact Hws1|lia|apply (Hrl 0 0)|lia|done].
Qed.
End Roundtrip.

(** Reading one element: behind it anything may follow. *)
Lemma der_read_one `{Platform} m data scratch limits size k lk n c dg : data <> NULL -> length scratch = 4%nat -> der_header m data 0 k lk n ->
  n <= limits.(dl_max_value_size) -> k + lk + n <= size -> 0 <= size <= SIZE_MAX -> 0 <= limits.(dl_max_depth) -> limits.(dl_max_elements) <= SIZE_MAX ->
  0 <= c -> 1 + c <= limits.(dl_max_elements) ->
  (constructed_at m data 0 k && negb (n =? 0) = true -> 1 <= limits.(dl_max_depth) /\
    der_forest m data scratch limits false (Z.to_nat (limits.(dl_max_depth) - 1)) (k + lk) (k + lk + n) c) ->
  traverse m scratch data size 0 0 0 limits None true false no_traversal dg = Some (TLV_OK, mk_traversal tt (element_at data 0 k lk n) (k + lk + n), dg).
Proof.
  intros Hd Hscratch Hh Hmax Hfit Hs Hdepth Hel Hc0 Hc Hnest. pose proof Hh as (_ & Hk & _ & Hlk & Hn).
  assert (der_element m data scratch limits false 0 k lk n) as He by done. set (e := k + lk + n).
  pose proof (traverse_step_at m data Hd scratch Hscratch limits false (S := unit) 0 0 true [size] size 0 0 no_traversal dg k lk n He ltac:(lia) ltac:(lia) (proj2 Hs) ltac:(cbn; lia) ltac:(lia)) as Hstep.
  cbv zeta in Hstep. cbn [andb Z.eqb] in Hstep. rewrite !Z.add_0_l in Hstep. change (set_bottom [size] (k + lk + n)) with [e] in Hstep. fold e in Hstep. rewrite usize_small in Hstep by (pose proof SIZE_MAX_bounds; lia).
  set (t1 := mk_traversal (tv_context no_traversal) (element_at data 0 k lk n) e) in *.
  destruct (constructed_at m data 0 k && negb (n =? 0)) eqn:Ec.
  - destruct (Hnest eq_refl) as [Hd1 Hf]. specialize (Hstep ltac:(intros _; cbn; lia)).
    destruct (forest_run m data Hd scratch Hscratch limits false (S := unit) 0 0 _ _ _ _ Hf true e [e] 1 t1 dg) as [j Hj]; try lia; [cbn [length]; lia|].
    apply (traverse_fuel m data Hd scratch Hscratch limits false 0 0 true (1 + (j + 2))); [done|]. cbn [Nat.add traverse_loop].
    rewrite (proj2 (Z.ltb_lt 0 size)), (proj2 (Z.eqb_neq 0 size)) by lia. cbn [orb]. rewrite Hstep, Hj. cbn [traverse_loop negb].
    rewrite Z.ltb_irrefl, Z.eqb_refl. cbn [orb]. reflexivity.
  - specialize (Hstep ltac:(done)). apply (traverse_fuel m data Hd scratch Hscratch limits false 0 0 true 2); [done|]. cbn [traverse_loop].
    rewrite (proj2 (Z.ltb_lt 0 size)), (proj2 (Z.eqb_neq 0 size)) by lia. cbn [orb]. rewrite Hstep. now rewrite Z.ltb_irrefl.
Qed.

(** C31. An element [tlv_der_write] is given, with nested elements in its value if it is constructed, all within
    the limits, is written as the wire octets of DER and nothing else is changed, and [tlv_der_read] reads the same
    tag and the same value back, from an input of any size that holds it. *)
Theorem der_roundtrip `{Platform} self m tag value n w data capacity written size limits scratch c diagnostic element consumed diagnostic1 :
  let l := der_limits limits in
  tag_ok tag -> value_ok (mk_value value n) -> cl_wire (CodecLaws := der_codec_laws self) (tag_bytes m tag) (bytes_of m value n) = Some w ->
  data <> NULL -> capacity <= SIZE_MAX -> size <= SIZE_MAX -> zlen w <= capacity -> zlen w <= size ->
  element_apart (mk_element tag (mk_value value n)) data (zlen w) -> length scratch = 4%nat ->
  0 <= l.(dl_max_depth) <= TLV_DER_MAX_DEPTH -> size <= l.(dl_max_input_size) -> n <= l.(dl_max_value_size) ->
  0 <= c -> 1 + c <= l.(dl_max_elements) <= SIZE_MAX ->
  (tlv_asn1_tag_is_constructed m tag = true -> 1 <= l.(dl_max_depth) /\ value <> NULL /\
     der_forest m value scratch l false (Z.to_nat (l.(dl_max_depth) - 1)) 0 n c) ->
  exists m' el, tlv_der_write m scratch self data capacity tag value n limits (Some written) diagnostic = Some (TLV_OK, m', Some (zlen w), diagnostic) /\
    only_changes m m' data (zlen w) /\ bytes_of m' data (zlen w) = w /\
    tlv_der_read m' scratch data size limits (Some element) (Some consumed) diagnostic1 = Some (TLV_OK, Some el, Some (zlen w), diagnostic1) /\
    tag_bytes m' el.(e_tag) = tag_bytes m tag /\ value_bytes m' el.(e_value) = bytes_of m value n.
Proof.
  intros l Ht Hv Hw Hd Hcs Hss Hcap Hsz Hap Hscratch Hdepth Hin Hmax Hc0 Hc Hnest.
  destruct (der_size m tag value n w Ht Hv Hw) as (Et & En & Hts & Htd). pose proof (proj1 Hv) as Hn. cbn [v_size] in Hn.
  destruct (der_written self m tag value n w Ht Hv Hw data capacity written Hd Hcs Hcap Hap) as (m' & Hwr & Ho & Hb).
  destruct (der_wire_header m tag value n w Ht Hv Hw m' data Hd Hb ltac:(lia)) as (lk & Hh & Hlen & Hbt & Hbv). pose proof Hh as (_ & Hk & _ & Hlk & _).
  assert (tlv_asn1_tag_is_constructed m tag = constructed_at m' data 0 (t_size tag)) as Econs.
  { unfold constructed_at, tlv_asn1_tag_is_constructed. cbn [t_data tlv_tag]. rewrite ld_padd, Z.add_0_r. do 3 f_equal.
    rewrite <- (byte_at_bytes_of m (t_data tag) (t_size tag)), <- (byte_at_bytes_of m' data (t_size tag)) by lia. unfold tag_bytes in Hbt. now rewrite Hbt. }
  exists m', (element_at data 0 (t_size tag) lk n).
  split; [|split; [done|split; [done|split; [|unfold element_at, tag_bytes, value_bytes; cbn [e_tag e_value t_data t_size tlv_tag v_data v_size]; now rewrite padd_0]]]].
  - assert (write_impl m scratch self data capacity tag value n limits false (Some written) diagnostic = Some (TLV_OK, m', Some (zlen w), diagnostic)) as E;
      [|unfold tlv_der_write; rewrite E; now destruct diagnostic].
    unfold write_impl. fold l. assert (is_null data = false) as Edn by now destruct data. rewrite Edn.
    assert (is_null value && negb (n =? 0) = false) as -> by (destruct value; [destruct Hv as [_ Hv]; cbn in Hv; now rewrite Hv|done]). cbn [andb orb is_some negb].
    rewrite (der_measured self m tag value n w Ht Hv Hw) by lia. cbn [cell]. rewrite is_ok_OK. cbn [negb].
    rewrite (proj2 (Z.ltb_ge _ _) (proj2 Hdepth)), (proj2 (Z.ltb_ge (dl_max_input_size l) _)), (proj2 (Z.eqb_neq (dl_max_elements l) 0)), (proj2 (Z.ltb_ge (dl_max_value_size l) n)) by lia.
    cbn [orb strict_check andb]. rewrite is_ok_OK. cbn [negb].
    destruct (tlv_asn1_tag_is_constructed m tag) eqn:Ec.
    + destruct (Hnest eq_refl) as (Hd1 & Hvn & Hf).
      destruct (traverse_decides m value Hvn scratch Hscratch l false (S := unit) (zlen w - n) 1 n 1 no_traversal diagnostic) as (rc & t' & dg' & Hr & Hok & Hiff); try lia.
      assert (rc = TLV_OK) as -> by (apply Hiff; exists c; split; [done|lia]). destruct (Hok eq_refl) as [-> ->]. rewrite Hr, is_ok_OK. cbn [negb]. now rewrite Hwr, is_ok_OK.
    + rewrite is_ok_OK. cbn [negb]. now rewrite Hwr, is_ok_OK.
  - unfold tlv_der_read, read_impl. fold l. assert (is_null data = false) as -> by now destruct data. cbn [andb].
    rewrite (proj2 (Z.ltb_ge _ _) (proj2 Hdepth)), (proj2 (Z.ltb_ge _ _) Hin), (proj2 (Z.eqb_neq size 0)) by lia.
    rewrite (der_read_one m' data scratch l size (t_size tag) lk n c diagnostic1 Hd Hscratch Hh Hmax); try lia.
    + rewrite is_ok_OK. cbn [tv_first tv_first_size]. now rewrite Hlen.
    + intros Hcn. rewrite <- Econs in Hcn. apply andb_true_iff in Hcn as [Hcn _]. destruct (Hnest Hcn) as (Hd1 & Hvn & Hf). split; [done|].
      replace (t_size tag + lk) with (t_size tag + lk + 0) by lia. replace (t_size tag + lk + 0 + n) with (t_size tag + lk + n) by lia.
      apply (forest_moved m m' value data Hvn Hd scratch l (t_size tag + lk) _ 0 n c Hf). intros i Hi.
      rewrite <- (byte_at_bytes_of m value n), <- Hbv, byte_at_bytes_of, ld_padd by lia. reflexivity.
Qed.

(** ** Examples: a number in a sequence *)

Lemma der_visit_exact_witness :
  let m := mem_of 1 [48; 3; 2; 1; 7] in
  (exists context diagnostic, @tlv_der_visit_strict LP64 unit m [0; 0; 0; 0] (Ptr 1 0) 5 None None tt None = Some (TLV_OK, context, diagnostic)) /\
  exists c, @der_forest LP64 m (Ptr 1 0) [0; 0; 0; 0] tlv_der_default_limits true 32 0 5 c /\ c <= 100000.
Proof.
  intros m. destruct (der_visit_exact (H := LP64) m (Ptr 1 0) 5 None tt true [0; 0; 0; 0] None ltac:(discriminate) eq_refl ltac:(split; vm_compute; congruence)
    ltac:(split; vm_compute; congruence) ltac:(vm_compute; congruence) ltac:(split; vm_compute; congruence)) as (rc & context & diagnostic & E & Hiff).
  assert (rc = TLV_OK) as -> by (vm_compute in E; congruence). split; [eauto|]. exact (proj1 Hiff eq_refl).
Defined.

Lemma der_example_nested : @der_forest LP64 (put_at (mem_of 1 [48]) (Ptr 2 0) [2; 1; 7]) (Ptr 2 0) [0; 0; 0; 0] tlv_der_default_limits false 31 0 3 1.
Proof.
  apply (der_leaf _ _ _ _ _ 31 0 1 1 1 3 0); [|vm_compute; reflexivity|apply der_nil].
  split; [|split; [vm_compute; congruence|reflexivity]].
  split; [vm_compute; reflexivity|]. split; [split; vm_compute; congruence|]. split; [vm_compute; reflexivity|]. split; split; vm_compute; congruence.
Qed.

Lemma der_roundtrip_witness :
  let m := put_at (mem_of 1 [48]) (Ptr 2 0) [2; 1; 7] in
  let tag := tlv_tag (Ptr 1 0) 1 in
  exists m' el, @tlv_der_write LP64 m [0; 0; 0; 0] NULL (Ptr 3 0) 16 tag (Ptr 2 0) 3 None (Some 0) None = Some (TLV_OK, m', Some 5, None) /\
    bytes_of m' (Ptr 3 0) 5 = [48; 3; 2; 1; 7] /\
    @tlv_der_read LP64 m' [0; 0; 0; 0] (Ptr 3 0) 16 None (Some empty_element) (Some 0) None = Some (TLV_OK, Some el, Some 5, None) /\
    value_bytes m' el.(e_value) = [2; 1; 7].
Proof.
  intros m tag.
  destruct (der_roundtrip (H := LP64) NULL m tag (Ptr 2 0) 3 [48; 3; 2; 1; 7] (Ptr 3 0) 16 0 16 None [0; 0; 0; 0] 1 None empty_element 0 None)
    as (m' & el & E & _ & Hb & Er & _ & Hv);
    [split; [vm_compute; split; congruence|discriminate]|split; [vm_compute; split; congruence|discriminate]|vm_compute; reflexivity|discriminate
    |vm_compute; congruence|vm_compute; congruence|vm_compute; congruence|vm_compute; congruence|split; vm_compute; left; congruence|reflexivity
    |vm_compute; split; congruence|vm_compute; congruence|vm_compute; congruence|lia|vm_compute; split; congruence
    |intros _; split; [vm_compute; congruence|split; [discriminate|exact der_example_nested]]|].
  exists m', el. split; [exact E|]. split; [exact Hb|]. split; [exact Er|exact Hv].
Defined.
