(* ===== verification/Codec.v ===== *)
(** * Value codecs: descriptors, dispatch and diagnostics

    tlv/codec/codec.h, tlv/codec/diagnostic.h, src/codec/codec.c, src/codec/result_internal.h and the
    codec part of src/diagnostic.c.

    The [void*] value of a codec is an object of a type [V]: [None] is a NULL pointer, [Some v] an
    object whose content is [v].  A codec whose representation is a character array takes a [ptr]. *)

From S2P Require Import Prelude Mem Core Diagnostic Reader.
From Stdlib Require Import String.

(** ** Diagnostics *)

Inductive tlv_codec_operation_t : Type :=
| TLV_CODEC_OP_DECODE | TLV_CODEC_OP_ENCODE | TLV_CODEC_OP_MEASURE | TLV_CODEC_OP_OTHER (n : Z).

#[export] Instance codec_operation_eq_dec : EqDecision tlv_codec_operation_t.
Proof. solve_decision. Defined.

Inductive tlv_codec_violation_t : Type :=
| TLV_CODEC_VIOLATION_NONE | TLV_CODEC_VIOLATION_RESULT | TLV_CODEC_VIOLATION_SIZE
| TLV_CODEC_VIOLATION_TYPE | TLV_CODEC_VIOLATION_UTF8 | TLV_CODEC_VIOLATION_OTHER (n : Z).

#[export] Instance codec_violation_eq_dec : EqDecision tlv_codec_violation_t.
Proof. solve_decision. Defined.

(** Schema vocabulary of the diagnostics (schema/schema.h). *)
Inductive tlv_schema_issue_kind_t : Type :=
| TLV_SCHEMA_ISSUE_NONE | TLV_SCHEMA_ISSUE_MISSING | TLV_SCHEMA_ISSUE_DUPLICATE
| TLV_SCHEMA_ISSUE_UNEXPECTED | TLV_SCHEMA_ISSUE_KIND | TLV_SCHEMA_ISSUE_LENGTH
| TLV_SCHEMA_ISSUE_ORDER | TLV_SCHEMA_ISSUE_ASSERTION | TLV_SCHEMA_ISSUE_VALUE
| TLV_SCHEMA_ISSUE_DEFINITION | TLV_SCHEMA_ISSUE_OTHER (n : Z).

Inductive tlv_schema_definition_kind_t : Type :=
| TLV_SCHEMA_DEFINITION_UNKNOWN | TLV_SCHEMA_DEFINITION_TABLE | TLV_SCHEMA_DEFINITION_RULE
| TLV_SCHEMA_DEFINITION_GROUP | TLV_SCHEMA_DEFINITION_TYPE | TLV_SCHEMA_DEFINITION_COMPONENT
| TLV_SCHEMA_DEFINITION_OTHER (n : Z).

Inductive tlv_schema_kind_t : Type :=
| TLV_SCHEMA_ANY | TLV_SCHEMA_PRIMITIVE | TLV_SCHEMA_CONSTRUCTED | TLV_SCHEMA_KIND_OTHER (n : Z).

Record tlv_schema_definition_location_t := mk_definition_location {
  dl_kind : tlv_schema_definition_kind_t; dl_owner : ptr; dl_index : Z }.

Record tlv_codec_schema_detail_t := mk_schema_detail {
  sd_kind : tlv_schema_issue_kind_t; sd_tag : tlv_tag_t; sd_definition : tlv_schema_definition_location_t;
  sd_field : option string; sd_is_group : Z;
  sd_has_occurs : Z; sd_min_occurs : Z; sd_max_occurs : Z; sd_occurs : Z;
  sd_has_length : Z; sd_min_length : Z; sd_max_length : Z; sd_actual_length : Z;
  sd_has_form : Z; sd_expected_form : tlv_schema_kind_t; sd_actual_constructed : Z;
  sd_length_multiple : Z; sd_length_flags : Z }.

(** The cause and the active member of the union: [TLV_CODEC_CAUSE_NONE], [_READER] and [_SCHEMA]. *)
Inductive tlv_codec_cause_t : Type :=
| TLV_CODEC_CAUSE_NONE
| TLV_CODEC_CAUSE_READER (reader : tlv_reader_detail_t)
| TLV_CODEC_CAUSE_SCHEMA (schema : tlv_codec_schema_detail_t).

Record tlv_codec_detail_t := mk_codec_detail {
  cd_operation : tlv_codec_operation_t; cd_reported : tlv_result_t; cd_violation : tlv_codec_violation_t;
  cd_representation : option string; cd_cause : tlv_codec_cause_t }.

Record tlv_codec_diagnostic_t := mk_codec_diagnostic {
  cdg_diagnostic : tlv_diagnostic_t; cdg_codec : tlv_codec_detail_t }.

(** [memset] to zero is [TLV_OK], no location, no context, no cause. *)
Definition tlv_codec_diagnostic_init (diagnostic : option tlv_codec_diagnostic_t)
  (operation : tlv_codec_operation_t) : option tlv_codec_diagnostic_t :=
  match diagnostic with
  | None => None
  | Some _ =>
      Some (mk_codec_diagnostic
              (mk_diagnostic TLV_OK TLV_DIAGNOSTIC_SEVERITY_INFO no_location None None no_context false no_path)
              (mk_codec_detail operation TLV_OK TLV_CODEC_VIOLATION_NONE None TLV_CODEC_CAUSE_NONE))
  end.

Definition with_violation (violation : tlv_codec_violation_t) (d : tlv_codec_diagnostic_t)
  : tlv_codec_diagnostic_t :=
  mk_codec_diagnostic d.(cdg_diagnostic)
    (mk_codec_detail d.(cdg_codec).(cd_operation) d.(cdg_codec).(cd_reported) violation
       d.(cdg_codec).(cd_representation) d.(cdg_codec).(cd_cause)).

Definition with_reported (reported : tlv_result_t) (d : tlv_codec_diagnostic_t) : tlv_codec_diagnostic_t :=
  if bool_decide (d.(cdg_codec).(cd_violation) = TLV_CODEC_VIOLATION_NONE) then
    mk_codec_diagnostic d.(cdg_diagnostic)
      (mk_codec_detail d.(cdg_codec).(cd_operation) reported d.(cdg_codec).(cd_violation)
         d.(cdg_codec).(cd_representation) d.(cdg_codec).(cd_cause))
  else d.

(** The result is [result] itself; this is the diagnostic it leaves. *)
Definition tlv_codec_diagnostic_result (diagnostic : option tlv_codec_diagnostic_t) (result : tlv_result_t)
  : option tlv_codec_diagnostic_t :=
  match diagnostic with
  | None => None
  | Some d =>
      let d := with_reported result d in
      let g := d.(cdg_diagnostic) in
      Some (mk_codec_diagnostic
              (mk_diagnostic result
                 (match result with
                  | TLV_OK | TLV_NEED_MORE_DATA => TLV_DIAGNOSTIC_SEVERITY_INFO
                  | _ => TLV_DIAGNOSTIC_SEVERITY_ERROR
                  end)
                 g.(dg_location) g.(dg_expected) g.(dg_actual) g.(dg_contexts) g.(dg_has_path) g.(dg_path))
              d.(cdg_codec))
  end.

Definition tlv_codec_result (result : tlv_result_t) (operation : tlv_codec_operation_t) : tlv_result_t :=
  if rc_eqb result TLV_NEED_MORE_DATA && bool_decide (operation = TLV_CODEC_OP_DECODE) then result
  else tlv_callback_result result false.

Definition tlv_codec_callback_result (diagnostic : option tlv_codec_diagnostic_t) (reported : tlv_result_t)
  (operation : tlv_codec_operation_t) : tlv_result_t * option tlv_codec_diagnostic_t :=
  let result := tlv_codec_result reported operation in
  let diagnostic :=
    match diagnostic with
    | None => None
    | Some d =>
        let d := with_reported reported d in
        let c := d.(cdg_codec) in
        let d := mk_codec_diagnostic d.(cdg_diagnostic)
                   (mk_codec_detail operation c.(cd_reported) c.(cd_violation) c.(cd_representation) c.(cd_cause)) in
        Some (if rc_eqb result reported then d else with_violation TLV_CODEC_VIOLATION_RESULT d)
    end in
  (result, tlv_codec_diagnostic_result diagnostic result).

(** ** Descriptors and dispatch *)

(** Callbacks are closed over their context.  Out-parameters: the memory, the value or the count, and
    the diagnostic. *)
Definition codec_decode_fn (V : Type) : Type :=
  mem -> ptr -> Z -> option V -> Z -> option tlv_codec_diagnostic_t ->
  tlv_result_t * mem * option V * option tlv_codec_diagnostic_t.
Definition codec_encode_fn (V : Type) : Type :=
  mem -> option V -> Z -> ptr -> Z -> option Z -> option tlv_codec_diagnostic_t ->
  tlv_result_t * mem * option Z * option tlv_codec_diagnostic_t.

Record tlv_codec_t (V : Type) := mk_codec {
  cc_decode : option (codec_decode_fn V); cc_encode : option (codec_encode_fn V) }.
Arguments mk_codec {V}.
Arguments cc_decode {V}.
Arguments cc_encode {V}.

Definition codec_operation (data : ptr) : tlv_codec_operation_t :=
  if is_null data then TLV_CODEC_OP_MEASURE else TLV_CODEC_OP_ENCODE.

(** [return tlv_codec_diagnostic_result(diagnostic, rc)] of a decoder and of an encoder. *)
Definition decoded {V} (m : mem) (value : option V) (diagnostic : option tlv_codec_diagnostic_t) (rc : tlv_result_t)
  : tlv_result_t * mem * option V * option tlv_codec_diagnostic_t :=
  (rc, m, value, tlv_codec_diagnostic_result diagnostic rc).
Definition encoded (m : mem) (written : option Z) (diagnostic : option tlv_codec_diagnostic_t) (rc : tlv_result_t)
  : tlv_result_t * mem * option Z * option tlv_codec_diagnostic_t :=
  (rc, m, written, tlv_codec_diagnostic_result diagnostic rc).

Definition tlv_codec_decode {V} (codec : option (tlv_codec_t V)) : codec_decode_fn V :=
  fun m data size value capacity diagnostic =>
    let diagnostic := tlv_codec_diagnostic_init diagnostic TLV_CODEC_OP_DECODE in
    match codec, value with
    | Some c, Some _ =>
        if is_null data && negb (size =? 0) then decoded m value diagnostic TLV_ERR_NULL_ARG
        else
          match c.(cc_decode) with
          | None => decoded m value diagnostic TLV_ERR_UNSUPPORTED
          | Some decode =>
              let '(rc, m, value, diagnostic) := decode m data size value capacity diagnostic in
              let '(rc, diagnostic) := tlv_codec_callback_result diagnostic rc TLV_CODEC_OP_DECODE in
              (rc, m, value, diagnostic)
          end
    | _, _ => decoded m value diagnostic TLV_ERR_NULL_ARG
    end.

Definition tlv_codec_encode {V} (codec : option (tlv_codec_t V)) : codec_encode_fn V :=
  fun m value size data capacity written diagnostic =>
    let operation := codec_operation data in
    let diagnostic := tlv_codec_diagnostic_init diagnostic operation in
    match written with
    | None => encoded m written diagnostic TLV_ERR_NULL_ARG
    | Some _ =>
        let written := Some 0 in
        match codec, value with
        | Some c, Some _ =>
            if is_null data && negb (capacity =? 0) then encoded m written diagnostic TLV_ERR_NULL_ARG
            else
              match c.(cc_encode) with
              | None => encoded m written diagnostic TLV_ERR_UNSUPPORTED
              | Some encode =>
                  let '(rc, m, count, diagnostic) := encode m value size data capacity (Some 0) diagnostic in
                  let count := cell 0 count in
                  let '(rc, diagnostic) := tlv_codec_callback_result diagnostic rc operation in
                  if negb (is_ok rc) then (rc, m, written, diagnostic)
                  else if negb (is_null data) && (capacity <? count) then
                    encoded m written
                      (match diagnostic with Some d => Some (with_violation TLV_CODEC_VIOLATION_SIZE d) | None => None end)
                      TLV_ERR_CALLBACK
                  else (TLV_OK, m, Some count, diagnostic)
              end
        | _, _ => encoded m written diagnostic TLV_ERR_NULL_ARG
        end
    end.

(** ** What a lawful codec promises

    An object [x] has a content, which may lie in memory; the content determines the octets. *)
Class ValueCodec {V : Type} (c : tlv_codec_t V) (C : Type) := {
  vc_size : Z;
  vc_content : mem -> V -> C;
  vc_wire : C -> option (list Z);
  vc_ok : V -> Prop;
  vc_apart : V -> ptr -> Z -> Prop;
  vc_encode_fn : codec_encode_fn V;
  vc_decode_fn : codec_decode_fn V;
  vc_encodes : c.(cc_encode) = Some vc_encode_fn;
  vc_decodes : c.(cc_decode) = Some vc_decode_fn;
  vc_measure : forall m x w w0 dg, vc_ok x -> vc_wire (vc_content m x) = Some w ->
    exists dg', vc_encode_fn m (Some x) vc_size NULL 0 (Some w0) dg = (TLV_OK, m, Some (zlen w), dg');
  vc_encode : forall m x w data capacity w0 dg, vc_ok x -> vc_wire (vc_content m x) = Some w -> data <> NULL ->
    zlen w <= capacity -> vc_apart x data (zlen w) ->
    exists m' dg', vc_encode_fn m (Some x) vc_size data capacity (Some w0) dg = (TLV_OK, m', Some (zlen w), dg') /\
      only_changes m m' data (zlen w) /\ bytes_of m' data (zlen w) = w;
  vc_decode : forall m y w data v0 capacity dg, vc_wire y = Some w -> data <> NULL -> bytes_of m data (zlen w) = w ->
    vc_size <= capacity ->
    exists v dg', vc_decode_fn m data (zlen w) (Some v0) capacity dg = (TLV_OK, m, Some v, dg') /\ vc_content m v = y
}.
Arguments vc_size {V} c {C} {_}.
Arguments vc_content {V} c {C} {_}.
Arguments vc_wire {V} c {C} {_}.
Arguments vc_ok {V} c {C} {_}.
Arguments vc_apart {V} c {C} {_}.

Lemma codec_result_OK dg operation : exists dg', tlv_codec_callback_result dg TLV_OK operation = (TLV_OK, dg').
Proof.
  unfold tlv_codec_callback_result. replace (tlv_codec_result TLV_OK operation) with TLV_OK by done. now eexists.
Qed.

Section Lawful.
Context {V C : Type} (c : tlv_codec_t V) `{!ValueCodec c C}.

Lemma dispatch_measure m x w w0 dg : vc_ok c x -> vc_wire c (vc_content c m x) = Some w ->
  exists dg', tlv_codec_encode (Some c) m (Some x) (vc_size c) NULL 0 (Some w0) dg = (TLV_OK, m, Some (zlen w), dg').
Proof using.
  intros Hx Hw. unfold tlv_codec_encode. cbn [is_null negb Z.eqb andb]. rewrite vc_encodes.
  destruct (vc_measure m x w 0 (tlv_codec_diagnostic_init dg (codec_operation NULL)) Hx Hw) as [dg1 ->].
  destruct (codec_result_OK dg1 (codec_operation NULL)) as [dg2 ->]. rewrite is_ok_OK. now eexists.
Qed.

Lemma dispatch_encode m x w data capacity w0 dg : vc_ok c x -> vc_wire c (vc_content c m x) = Some w ->
  data <> NULL -> zlen w <= capacity -> vc_apart c x data (zlen w) ->
  exists m' dg', tlv_codec_encode (Some c) m (Some x) (vc_size c) data capacity (Some w0) dg =
      (TLV_OK, m', Some (zlen w), dg') /\ only_changes m m' data (zlen w) /\ bytes_of m' data (zlen w) = w.
Proof using.
  intros Hx Hw Hd Hc Hap. unfold tlv_codec_encode. destruct data as [|b o]; [done|]. cbn [is_null negb andb].
  rewrite vc_encodes.
  destruct (vc_encode m x w (Ptr b o) capacity 0 (tlv_codec_diagnostic_init dg (codec_operation (Ptr b o))) Hx Hw Hd Hc Hap)
    as (m' & dg1 & -> & Ho & Hb).
  destruct (codec_result_OK dg1 (codec_operation (Ptr b o))) as [dg2 ->]. rewrite is_ok_OK. cbn [negb cell].
  rewrite (proj2 (Z.ltb_ge _ _)) by lia. eexists _, _. split; [done|]. now split.
Qed.

Lemma dispatch_decode m y w data v0 capacity dg : vc_wire c y = Some w -> data <> NULL ->
  bytes_of m data (zlen w) = w -> vc_size c <= capacity ->
  exists v dg', tlv_codec_decode (Some c) m data (zlen w) (Some v0) capacity dg = (TLV_OK, m, Some v, dg') /\
    vc_content c m v = y.
Proof using.
  intros Hw Hd Hb Hc. unfold tlv_codec_decode. destruct data as [|b o]; [done|]. cbn [is_null negb andb].
  rewrite vc_decodes.
  destruct (vc_decode m y w (Ptr b o) v0 capacity (tlv_codec_diagnostic_init dg TLV_CODEC_OP_DECODE) Hw Hd Hb Hc)
    as (v & dg1 & -> & Hv).
  destruct (codec_result_OK dg1 TLV_CODEC_OP_DECODE) as [dg2 ->]. now eexists _, _.
Qed.
End Lawful.

(** Every lawful codec round-trips through the dispatch functions: measuring reports the exact size,
    encoding fills exactly that many octets, and decoding them gives an object of the same content. *)
Theorem value_codec_roundtrip {V C : Type} (c : tlv_codec_t V) (Hc : ValueCodec c C) (m : mem) (x v0 : V)
  (w : list Z) (data : ptr) (capacity vcapacity w0 : Z) (dg1 dg2 dg3 : option tlv_codec_diagnostic_t)
  (Hx : vc_ok c x) (Hw : vc_wire c (vc_content c m x) = Some w) (Hd : data <> NULL) (Hcap : zlen w <= capacity)
  (Hv : vc_size c <= vcapacity) (Hap : vc_apart c x data (zlen w)) :
  (exists dg, tlv_codec_encode (Some c) m (Some x) (vc_size c) NULL 0 (Some w0) dg1 = (TLV_OK, m, Some (zlen w), dg)) /\
  exists m' dg v dg', tlv_codec_encode (Some c) m (Some x) (vc_size c) data capacity (Some w0) dg2 =
      (TLV_OK, m', Some (zlen w), dg) /\
    only_changes m m' data (zlen w) /\ bytes_of m' data (zlen w) = w /\
    tlv_codec_decode (Some c) m' data (zlen w) (Some v0) vcapacity dg3 = (TLV_OK, m', Some v, dg') /\
    vc_content c m' v = vc_content c m x.
Proof.
  split; [exact (dispatch_measure c m x w w0 dg1 Hx Hw)|].
  destruct (dispatch_encode c m x w data capacity w0 dg2 Hx Hw Hd Hcap Hap) as (m' & dg & He & Ho & Hb).
  destruct (dispatch_decode c m' _ w data v0 vcapacity dg3 Hw Hd Hb Hv) as (v & dg' & Hdec & Hcont).
  exists m', dg, v, dg'. done.
Qed.

(** The dispatcher contains its callbacks: whatever an encoder returns, the published result is a
    regular one, a failure reports no octets, and a success into a buffer reports no more than its
    capacity; a decoder can moreover pass on NEED_MORE_DATA, never END nor an unknown code.  A
    diagnostic carries the published result. *)
Theorem codec_dispatch_contains {V : Type} (c : tlv_codec_t V) (m : mem) (x : option V) (size : Z) (data : ptr)
  (capacity w0 : Z) (dg : option tlv_codec_diagnostic_t) :
  (let '(rc, _, written, dg') := tlv_codec_encode (Some c) m x size data capacity (Some w0) dg in
   rc <> TLV_END /\ rc <> TLV_NEED_MORE_DATA /\ (forall n, rc <> TLV_RESULT_OTHER n) /\
   (rc <> TLV_OK -> written = Some 0) /\
   (rc = TLV_OK -> data <> NULL -> exists n, written = Some n /\ n <= capacity) /\
   (dg' = None \/ exists d, dg' = Some d /\ d.(cdg_diagnostic).(dg_code) = rc)) /\
  (let '(rc, _, _, dg') := tlv_codec_decode (Some c) m data size x capacity dg in
   rc <> TLV_END /\ (forall n, rc <> TLV_RESULT_OTHER n) /\
   (dg' = None \/ exists d, dg' = Some d /\ d.(cdg_diagnostic).(dg_code) = rc)).
Proof.
  assert (forall dg rc, let dg' := tlv_codec_diagnostic_result dg rc in
    dg' = None \/ exists d, dg' = Some d /\ d.(cdg_diagnostic).(dg_code) = rc) as Hres
    by (intros [d|] rc; [right; eexists; split; [reflexivity|done]|now left]).
  assert (forall rc op, tlv_codec_result rc op <> TLV_END /\ (forall n, tlv_codec_result rc op <> TLV_RESULT_OTHER n) /\
    (op <> TLV_CODEC_OP_DECODE -> tlv_codec_result rc op <> TLV_NEED_MORE_DATA)) as Hrc.
  { intros rc op. unfold tlv_codec_result. destruct (rc_eqb rc TLV_NEED_MORE_DATA) eqn:E.
    - apply rc_eqb_true in E as ->. destruct (bool_decide_reflect (op = TLV_CODEC_OP_DECODE)); done.
    - destruct rc; done. }
  split.
  - unfold tlv_codec_encode, encoded.
    assert (codec_operation data <> TLV_CODEC_OP_DECODE) as Hop by (unfold codec_operation; now destruct (is_null data)).
    destruct x as [x|]; [|repeat split; done || apply Hres].
    destruct (is_null data && negb (capacity =? 0)); [repeat split; done || apply Hres|].
    destruct (cc_encode c) as [encode|]; [|repeat split; done || apply Hres].
    destruct (encode m (Some x) size data capacity (Some 0) _) as [[[rc m1] count] dg1].
    unfold tlv_codec_callback_result. destruct (Hrc rc (codec_operation data)) as (H1 & H2 & H3).
    destruct (is_ok (tlv_codec_result rc (codec_operation data))) eqn:Eok; cbn [negb].
    + apply is_ok_true in Eok. rewrite Eok.
      destruct (negb (is_null data) && (capacity <? cell 0 count)) eqn:Ecap; [repeat split; done || apply Hres|].
      repeat split; try done; try apply Hres. intros _ Hd. eexists. split; [done|]. destruct data; [done|].
      cbn [is_null negb andb] in Ecap. zlia.
    + apply is_ok_false in Eok. repeat split; auto; done || apply Hres.
  - unfold tlv_codec_decode, decoded. destruct x as [x|]; [|repeat split; done || apply Hres].
    destruct (is_null data && negb (size =? 0)); [repeat split; done || apply Hres|].
    destruct (cc_decode c) as [decode|]; [|repeat split; done || apply Hres].
    destruct (decode m data size (Some x) capacity _) as [[[rc m1] v] dg1].
    unfold tlv_codec_callback_result. destruct (Hrc rc TLV_CODEC_OP_DECODE) as (H1 & H2 & _).
    split; [exact H1|]. split; [exact H2|apply Hres].
Qed.
