(* ===== verification/QueryProgram.v ===== *)
(** * Programs of the query language (query/program_internal.h, query/frontend_internal.h, query/plan.c)

    A program is a header, instructions, the text they were compiled from and their constants, in one image: a record
    of the words of the header and of what lies behind it.  An instruction refers to earlier ones by
    index.  Selectors are numbers, as in the image, since an image is checked before it is used. *)

From Stdlib Require Import String.
From S2P Require Import Prelude Mem Core Diagnostic Reader Codec QueryPath.

Abbreviation QUERY_NONE := 4294967295 (only parsing).
Abbreviation QUERY_MAGIC := 1364351282 (only parsing).
Abbreviation QUERY_IMAGE_VERSION := 7 (only parsing).

Abbreviation Q_TEST := 0 (only parsing).
Abbreviation Q_ROOT := 1 (only parsing).
Abbreviation Q_SELF := 2 (only parsing).
Abbreviation Q_META := 3 (only parsing).
Abbreviation Q_LITERAL := 4 (only parsing).
Abbreviation Q_BYTES := 5 (only parsing).
Abbreviation Q_STRING := 6 (only parsing).
Abbreviation Q_VARIABLE := 7 (only parsing).
Abbreviation Q_CHILD := 8 (only parsing).
Abbreviation Q_DESC := 9 (only parsing).
Abbreviation Q_FILTER := 10 (only parsing).
Abbreviation Q_UNION := 11 (only parsing).
Abbreviation Q_INTERSECT := 12 (only parsing).
Abbreviation Q_EXCEPT := 13 (only parsing).
Abbreviation Q_EQ := 14 (only parsing).
Abbreviation Q_NE := 15 (only parsing).
Abbreviation Q_LT := 16 (only parsing).
Abbreviation Q_LE := 17 (only parsing).
Abbreviation Q_GT := 18 (only parsing).
Abbreviation Q_GE := 19 (only parsing).
Abbreviation Q_AND := 20 (only parsing).
Abbreviation Q_OR := 21 (only parsing).
Abbreviation Q_CALL := 22 (only parsing).
Abbreviation Q_ARGS := 23 (only parsing).
Abbreviation Q_BOOL := 24 (only parsing).

Abbreviation A_CHILD := 0 (only parsing).
Abbreviation A_SELF := 1 (only parsing).
Abbreviation A_DESC := 2 (only parsing).
Abbreviation A_ANCESTOR := 3 (only parsing).
Abbreviation A_DESC_SELF := 4 (only parsing).
Abbreviation A_PARENT := 5 (only parsing).
Abbreviation A_ANCESTOR_SELF := 6 (only parsing).
Abbreviation A_FOLLOW_SIBLING := 7 (only parsing).
Abbreviation A_PRECEDE_SIBLING := 8 (only parsing).
Abbreviation A_FOLLOW := 9 (only parsing).
Abbreviation A_PRECEDE := 10 (only parsing).

Abbreviation F_VALUE := 0 (only parsing).
Abbreviation F_LEN := 1 (only parsing).
Abbreviation F_NOT := 2 (only parsing).
Abbreviation F_STARTS := 3 (only parsing).
Abbreviation F_ENDS := 4 (only parsing).
Abbreviation F_CONTAINS := 5 (only parsing).
Abbreviation F_SUBSTR := 6 (only parsing).
Abbreviation F_MASK := 7 (only parsing).
Abbreviation F_RANGE := 8 (only parsing).
Abbreviation F_COUNT := 9 (only parsing).
Abbreviation F_EXISTS := 10 (only parsing).
Abbreviation F_EMPTY := 11 (only parsing).
Abbreviation F_POSITION := 12 (only parsing).
Abbreviation F_LAST := 13 (only parsing).
Abbreviation F_NUM := 14 (only parsing).
Abbreviation F_BCD := 15 (only parsing).
Abbreviation F_TEXT := 16 (only parsing).
Abbreviation F_DATE := 17 (only parsing).
Abbreviation F_TAG := 18 (only parsing).
Abbreviation F_CLASS := 19 (only parsing).
Abbreviation F_CONSTRUCTED := 20 (only parsing).
Abbreviation F_NUMBER := 21 (only parsing).
Abbreviation F_NAME := 22 (only parsing).
Abbreviation F_UNKNOWN := 23 (only parsing).

Abbreviation V_NODE := 0 (only parsing).
Abbreviation V_BOOL := 1 (only parsing).
Abbreviation V_NUMBER := 2 (only parsing).
Abbreviation V_BYTES := 3 (only parsing).
Abbreviation V_STRING := 4 (only parsing).

Abbreviation TLV_QUERY_META_LEN := 0 (only parsing).
Abbreviation TLV_QUERY_META_DEPTH := 1 (only parsing).
Abbreviation TLV_QUERY_META_INDEX := 2 (only parsing).
Abbreviation TLV_QUERY_META_OFFSET := 3 (only parsing).
Abbreviation TLV_QUERY_META_HLEN := 4 (only parsing).

Abbreviation TLV_QUERY_S0 := 0 (only parsing).
Abbreviation TLV_QUERY_S1 := 1 (only parsing).
Abbreviation TLV_QUERY_S2 := 2 (only parsing).
Abbreviation TLV_QUERY_D := 3 (only parsing).

Record query_node_t := mk_node {
  n_op : Z; n_left : Z; n_right : Z; n_begin : Z; n_end : Z; n_axis : Z;
  n_anchor : Z; n_scalar : Z; n_type : Z; n_low : Z; n_predicate_guard : Z; n_path_guard : Z;
  n_path_kind : Z; n_grouped : Z; n_nested : Z; n_variable_slot : Z; n_data_offset : Z; n_data_size : Z;
  n_resolved : Z; n_hook_id : Z; n_scratch_size : Z; n_reuse : Z; n_folded : Z; n_selector : Z;
  n_immediate_low : Z; n_immediate_high : Z; n_negative : Z; n_context : Z; n_mask_offset : Z }.

Definition with_n_op (x : Z) (n : query_node_t) : query_node_t :=
  mk_node x n.(n_left) n.(n_right) n.(n_begin) n.(n_end) n.(n_axis) n.(n_anchor) n.(n_scalar) n.(n_type) n.(n_low)
    n.(n_predicate_guard) n.(n_path_guard) n.(n_path_kind) n.(n_grouped) n.(n_nested) n.(n_variable_slot)
    n.(n_data_offset) n.(n_data_size) n.(n_resolved) n.(n_hook_id) n.(n_scratch_size) n.(n_reuse) n.(n_folded)
    n.(n_selector) n.(n_immediate_low) n.(n_immediate_high) n.(n_negative) n.(n_context) n.(n_mask_offset).

Definition with_n_axis (x : Z) (n : query_node_t) : query_node_t :=
  mk_node n.(n_op) n.(n_left) n.(n_right) n.(n_begin) n.(n_end) x n.(n_anchor) n.(n_scalar) n.(n_type) n.(n_low)
    n.(n_predicate_guard) n.(n_path_guard) n.(n_path_kind) n.(n_grouped) n.(n_nested) n.(n_variable_slot)
    n.(n_data_offset) n.(n_data_size) n.(n_resolved) n.(n_hook_id) n.(n_scratch_size) n.(n_reuse) n.(n_folded)
    n.(n_selector) n.(n_immediate_low) n.(n_immediate_high) n.(n_negative) n.(n_context) n.(n_mask_offset).

Definition with_n_anchor (x : Z) (n : query_node_t) : query_node_t :=
  mk_node n.(n_op) n.(n_left) n.(n_right) n.(n_begin) n.(n_end) n.(n_axis) x n.(n_scalar) n.(n_type) n.(n_low)
    n.(n_predicate_guard) n.(n_path_guard) n.(n_path_kind) n.(n_grouped) n.(n_nested) n.(n_variable_slot)
    n.(n_data_offset) n.(n_data_size) n.(n_resolved) n.(n_hook_id) n.(n_scratch_size) n.(n_reuse) n.(n_folded)
    n.(n_selector) n.(n_immediate_low) n.(n_immediate_high) n.(n_negative) n.(n_context) n.(n_mask_offset).

Definition with_n_scalar (x : Z) (n : query_node_t) : query_node_t :=
  mk_node n.(n_op) n.(n_left) n.(n_right) n.(n_begin) n.(n_end) n.(n_axis) n.(n_anchor) x n.(n_type) n.(n_low)
    n.(n_predicate_guard) n.(n_path_guard) n.(n_path_kind) n.(n_grouped) n.(n_nested) n.(n_variable_slot)
    n.(n_data_offset) n.(n_data_size) n.(n_resolved) n.(n_hook_id) n.(n_scratch_size) n.(n_reuse) n.(n_folded)
    n.(n_selector) n.(n_immediate_low) n.(n_immediate_high) n.(n_negative) n.(n_context) n.(n_mask_offset).

Definition with_node_type (x : Z) (n : query_node_t) : query_node_t :=
  mk_node n.(n_op) n.(n_left) n.(n_right) n.(n_begin) n.(n_end) n.(n_axis) n.(n_anchor) n.(n_scalar) x n.(n_low)
    n.(n_predicate_guard) n.(n_path_guard) n.(n_path_kind) n.(n_grouped) n.(n_nested) n.(n_variable_slot)
    n.(n_data_offset) n.(n_data_size) n.(n_resolved) n.(n_hook_id) n.(n_scratch_size) n.(n_reuse) n.(n_folded)
    n.(n_selector) n.(n_immediate_low) n.(n_immediate_high) n.(n_negative) n.(n_context) n.(n_mask_offset).

Definition with_n_predicate_guard (x : Z) (n : query_node_t) : query_node_t :=
  mk_node n.(n_op) n.(n_left) n.(n_right) n.(n_begin) n.(n_end) n.(n_axis) n.(n_anchor) n.(n_scalar) n.(n_type)
    n.(n_low) x n.(n_path_guard) n.(n_path_kind) n.(n_grouped) n.(n_nested) n.(n_variable_slot) n.(n_data_offset)
    n.(n_data_size) n.(n_resolved) n.(n_hook_id) n.(n_scratch_size) n.(n_reuse) n.(n_folded) n.(n_selector)
    n.(n_immediate_low) n.(n_immediate_high) n.(n_negative) n.(n_context) n.(n_mask_offset).

Definition with_n_nested (x : Z) (n : query_node_t) : query_node_t :=
  mk_node n.(n_op) n.(n_left) n.(n_right) n.(n_begin) n.(n_end) n.(n_axis) n.(n_anchor) n.(n_scalar) n.(n_type)
    n.(n_low) n.(n_predicate_guard) n.(n_path_guard) n.(n_path_kind) n.(n_grouped) x n.(n_variable_slot)
    n.(n_data_offset) n.(n_data_size) n.(n_resolved) n.(n_hook_id) n.(n_scratch_size) n.(n_reuse) n.(n_folded)
    n.(n_selector) n.(n_immediate_low) n.(n_immediate_high) n.(n_negative) n.(n_context) n.(n_mask_offset).

Definition with_n_grouped (x : Z) (n : query_node_t) : query_node_t :=
  mk_node n.(n_op) n.(n_left) n.(n_right) n.(n_begin) n.(n_end) n.(n_axis) n.(n_anchor) n.(n_scalar) n.(n_type)
    n.(n_low) n.(n_predicate_guard) n.(n_path_guard) n.(n_path_kind) x n.(n_nested) n.(n_variable_slot)
    n.(n_data_offset) n.(n_data_size) n.(n_resolved) n.(n_hook_id) n.(n_scratch_size) n.(n_reuse) n.(n_folded)
    n.(n_selector) n.(n_immediate_low) n.(n_immediate_high) n.(n_negative) n.(n_context) n.(n_mask_offset).

Definition with_n_variable_slot (x : Z) (n : query_node_t) : query_node_t :=
  mk_node n.(n_op) n.(n_left) n.(n_right) n.(n_begin) n.(n_end) n.(n_axis) n.(n_anchor) n.(n_scalar) n.(n_type)
    n.(n_low) n.(n_predicate_guard) n.(n_path_guard) n.(n_path_kind) n.(n_grouped) n.(n_nested) x n.(n_data_offset)
    n.(n_data_size) n.(n_resolved) n.(n_hook_id) n.(n_scratch_size) n.(n_reuse) n.(n_folded) n.(n_selector)
    n.(n_immediate_low) n.(n_immediate_high) n.(n_negative) n.(n_context) n.(n_mask_offset).

Definition with_n_selector (x : Z) (n : query_node_t) : query_node_t :=
  mk_node n.(n_op) n.(n_left) n.(n_right) n.(n_begin) n.(n_end) n.(n_axis) n.(n_anchor) n.(n_scalar) n.(n_type)
    n.(n_low) n.(n_predicate_guard) n.(n_path_guard) n.(n_path_kind) n.(n_grouped) n.(n_nested) n.(n_variable_slot)
    n.(n_data_offset) n.(n_data_size) n.(n_resolved) n.(n_hook_id) n.(n_scratch_size) n.(n_reuse) n.(n_folded) x
    n.(n_immediate_low) n.(n_immediate_high) n.(n_negative) n.(n_context) n.(n_mask_offset).

Definition with_n_reuse (x : Z) (n : query_node_t) : query_node_t :=
  mk_node n.(n_op) n.(n_left) n.(n_right) n.(n_begin) n.(n_end) n.(n_axis) n.(n_anchor) n.(n_scalar) n.(n_type)
    n.(n_low) n.(n_predicate_guard) n.(n_path_guard) n.(n_path_kind) n.(n_grouped) n.(n_nested) n.(n_variable_slot)
    n.(n_data_offset) n.(n_data_size) n.(n_resolved) n.(n_hook_id) n.(n_scratch_size) x n.(n_folded) n.(n_selector)
    n.(n_immediate_low) n.(n_immediate_high) n.(n_negative) n.(n_context) n.(n_mask_offset).

Definition with_n_folded (x : Z) (n : query_node_t) : query_node_t :=
  mk_node n.(n_op) n.(n_left) n.(n_right) n.(n_begin) n.(n_end) n.(n_axis) n.(n_anchor) n.(n_scalar) n.(n_type)
    n.(n_low) n.(n_predicate_guard) n.(n_path_guard) n.(n_path_kind) n.(n_grouped) n.(n_nested) n.(n_variable_slot)
    n.(n_data_offset) n.(n_data_size) n.(n_resolved) n.(n_hook_id) n.(n_scratch_size) n.(n_reuse) x n.(n_selector)
    n.(n_immediate_low) n.(n_immediate_high) n.(n_negative) n.(n_context) n.(n_mask_offset).

Definition with_n_context (x : Z) (n : query_node_t) : query_node_t :=
  mk_node n.(n_op) n.(n_left) n.(n_right) n.(n_begin) n.(n_end) n.(n_axis) n.(n_anchor) n.(n_scalar) n.(n_type)
    n.(n_low) n.(n_predicate_guard) n.(n_path_guard) n.(n_path_kind) n.(n_grouped) n.(n_nested) n.(n_variable_slot)
    n.(n_data_offset) n.(n_data_size) n.(n_resolved) n.(n_hook_id) n.(n_scratch_size) n.(n_reuse) n.(n_folded)
    n.(n_selector) n.(n_immediate_low) n.(n_immediate_high) n.(n_negative) x n.(n_mask_offset).

Definition with_n_resolved (x : Z) (n : query_node_t) : query_node_t :=
  mk_node n.(n_op) n.(n_left) n.(n_right) n.(n_begin) n.(n_end) n.(n_axis) n.(n_anchor) n.(n_scalar) n.(n_type)
    n.(n_low) n.(n_predicate_guard) n.(n_path_guard) n.(n_path_kind) n.(n_grouped) n.(n_nested) n.(n_variable_slot)
    n.(n_data_offset) n.(n_data_size) x n.(n_hook_id) n.(n_scratch_size) n.(n_reuse) n.(n_folded) n.(n_selector)
    n.(n_immediate_low) n.(n_immediate_high) n.(n_negative) n.(n_context) n.(n_mask_offset).

Definition with_operands (l r : Z) (n : query_node_t) : query_node_t :=
  mk_node n.(n_op) l r n.(n_begin) n.(n_end) n.(n_axis) n.(n_anchor) n.(n_scalar) n.(n_type) n.(n_low)
    n.(n_predicate_guard) n.(n_path_guard) n.(n_path_kind) n.(n_grouped) n.(n_nested) n.(n_variable_slot)
    n.(n_data_offset) n.(n_data_size) n.(n_resolved) n.(n_hook_id) n.(n_scratch_size) n.(n_reuse) n.(n_folded)
    n.(n_selector) n.(n_immediate_low) n.(n_immediate_high) n.(n_negative) n.(n_context) n.(n_mask_offset).

Definition with_path (g k : Z) (n : query_node_t) : query_node_t :=
  mk_node n.(n_op) n.(n_left) n.(n_right) n.(n_begin) n.(n_end) n.(n_axis) n.(n_anchor) n.(n_scalar) n.(n_type)
    n.(n_low) n.(n_predicate_guard) g k n.(n_grouped) n.(n_nested) n.(n_variable_slot) n.(n_data_offset)
    n.(n_data_size) n.(n_resolved) n.(n_hook_id) n.(n_scratch_size) n.(n_reuse) n.(n_folded) n.(n_selector)
    n.(n_immediate_low) n.(n_immediate_high) n.(n_negative) n.(n_context) n.(n_mask_offset).

Definition with_data (o s : Z) (n : query_node_t) : query_node_t :=
  mk_node n.(n_op) n.(n_left) n.(n_right) n.(n_begin) n.(n_end) n.(n_axis) n.(n_anchor) n.(n_scalar) n.(n_type)
    n.(n_low) n.(n_predicate_guard) n.(n_path_guard) n.(n_path_kind) n.(n_grouped) n.(n_nested) n.(n_variable_slot) o s
    n.(n_resolved) n.(n_hook_id) n.(n_scratch_size) n.(n_reuse) n.(n_folded) n.(n_selector) n.(n_immediate_low)
    n.(n_immediate_high) n.(n_negative) n.(n_context) n.(n_mask_offset).

Definition with_n_mask (o : Z) (n : query_node_t) : query_node_t :=
  mk_node n.(n_op) n.(n_left) n.(n_right) n.(n_begin) n.(n_end) n.(n_axis) n.(n_anchor) n.(n_scalar) n.(n_type)
    n.(n_low) n.(n_predicate_guard) n.(n_path_guard) n.(n_path_kind) n.(n_grouped) n.(n_nested) n.(n_variable_slot)
    n.(n_data_offset) n.(n_data_size) n.(n_resolved) n.(n_hook_id) n.(n_scratch_size) n.(n_reuse) n.(n_folded)
    n.(n_selector) n.(n_immediate_low) n.(n_immediate_high) n.(n_negative) n.(n_context) o.

Definition with_hook (i s : Z) (n : query_node_t) : query_node_t :=
  mk_node n.(n_op) n.(n_left) n.(n_right) n.(n_begin) n.(n_end) n.(n_axis) n.(n_anchor) n.(n_scalar) n.(n_type)
    n.(n_low) n.(n_predicate_guard) n.(n_path_guard) n.(n_path_kind) n.(n_grouped) n.(n_nested) n.(n_variable_slot)
    n.(n_data_offset) n.(n_data_size) n.(n_resolved) i s n.(n_reuse) n.(n_folded) n.(n_selector) n.(n_immediate_low)
    n.(n_immediate_high) n.(n_negative) n.(n_context) n.(n_mask_offset).

Definition with_immediate (lo hi ng : Z) (n : query_node_t) : query_node_t :=
  mk_node n.(n_op) n.(n_left) n.(n_right) n.(n_begin) n.(n_end) n.(n_axis) n.(n_anchor) n.(n_scalar) n.(n_type)
    n.(n_low) n.(n_predicate_guard) n.(n_path_guard) n.(n_path_kind) n.(n_grouped) n.(n_nested) n.(n_variable_slot)
    n.(n_data_offset) n.(n_data_size) n.(n_resolved) n.(n_hook_id) n.(n_scratch_size) n.(n_reuse) n.(n_folded)
    n.(n_selector) lo hi ng n.(n_context) n.(n_mask_offset).

(** ** Diagnostics *)

Inductive tlv_query_error_kind_t : Type :=
| TLV_QUERY_ERROR_NONE | TLV_QUERY_ERROR_SYNTAX | TLV_QUERY_ERROR_CAPABILITY | TLV_QUERY_ERROR_LIMIT
| TLV_QUERY_ERROR_STORAGE | TLV_QUERY_ERROR_EVENTS | TLV_QUERY_ERROR_SOURCE | TLV_QUERY_ERROR_READER
| TLV_QUERY_ERROR_BINDING | TLV_QUERY_ERROR_CARDINALITY | TLV_QUERY_ERROR_CODEC | TLV_QUERY_ERROR_IMAGE_VERSION
| TLV_QUERY_ERROR_STATE | TLV_QUERY_ERROR_CALLBACK | TLV_QUERY_ERROR_TYPE | TLV_QUERY_ERROR_IMAGE.

Record tlv_query_diagnostic_t := mk_query_diagnostic {
  qd_diagnostic : tlv_diagnostic_t; qd_kind : tlv_query_error_kind_t; qd_has_reader : bool; qd_begin : Z; qd_end : Z;
  qd_expected : option string; qd_limit : option string; qd_configured : Z; qd_reader : tlv_reader_detail_t;
  qd_codec : Z; qd_has_codec : bool; qd_codec_detail : tlv_codec_detail_t }.

Definition query_diag_init (d : option tlv_query_diagnostic_t) : option tlv_query_diagnostic_t :=
  match d with
  | None => None
  | Some _ =>
      Some (mk_query_diagnostic zero_diagnostic TLV_QUERY_ERROR_NONE false 0 0 None None 0 (zero_detail TLV_READER_OP_TAG) 0 false
        (mk_codec_detail TLV_CODEC_OP_DECODE TLV_OK TLV_CODEC_VIOLATION_NONE None TLV_CODEC_CAUSE_NONE))
  end.

Definition query_error (d : option tlv_query_diagnostic_t) (code : tlv_result_t) (kind : tlv_query_error_kind_t) (b e : Z)
  (expected : option string) : tlv_result_t * option tlv_query_diagnostic_t :=
  (code,
   match d with
   | None => None
   | Some d =>
       let diagnostic :=
         cell zero_diagnostic (tlv_diagnostic_set_location
           (tlv_diagnostic_init (Some d.(qd_diagnostic)) code TLV_DIAGNOSTIC_SEVERITY_ERROR) TLV_LOCATION_EXPRESSION TLV_LOCATION_SPAN b e) in
       let kind := if rc_eqb code TLV_ERR_INVALID_STATE then TLV_QUERY_ERROR_STATE
                   else if rc_eqb code TLV_ERR_CALLBACK then TLV_QUERY_ERROR_CALLBACK else kind in
       Some (mk_query_diagnostic diagnostic kind d.(qd_has_reader) b e expected d.(qd_limit) d.(qd_configured) d.(qd_reader)
         d.(qd_codec) d.(qd_has_codec) d.(qd_codec_detail))
   end).

Definition query_error_unlocated (d : option tlv_query_diagnostic_t) (code : tlv_result_t) (kind : tlv_query_error_kind_t)
  (expected : option string) : tlv_result_t * option tlv_query_diagnostic_t :=
  let '(rc, d) := query_error d code kind 0 0 expected in
  (rc,
   match d with
   | None => None
   | Some d =>
       Some (mk_query_diagnostic (with_location no_location d.(qd_diagnostic)) d.(qd_kind) d.(qd_has_reader) d.(qd_begin) d.(qd_end)
         d.(qd_expected) d.(qd_limit) d.(qd_configured) d.(qd_reader) d.(qd_codec) d.(qd_has_codec) d.(qd_codec_detail))
   end).

Definition query_limit (d : option tlv_query_diagnostic_t) (name : string) (configured b e : Z)
  : tlv_result_t * option tlv_query_diagnostic_t :=
  query_error
    (match d with
     | None => None
     | Some d => Some (mk_query_diagnostic d.(qd_diagnostic) d.(qd_kind) d.(qd_has_reader) d.(qd_begin) d.(qd_end) d.(qd_expected)
                         (Some name) configured d.(qd_reader) d.(qd_codec) d.(qd_has_codec) d.(qd_codec_detail))
     end) TLV_ERR_LIMIT TLV_QUERY_ERROR_LIMIT b e None.

(** ** Names *)

Definition query_axis_names : list string :=
  ["child"; "self"; "descendant"; "ancestor"; "descendant-or-self"; "parent"; "ancestor-or-self"; "following-sibling";
   "preceding-sibling"; "following"; "preceding"]%string.

Definition query_function_names : list string :=
  ["value"; "len"; "not"; "starts-with"; "ends-with"; "contains"; "substr"; "tag-mask"; "tag-range"; "count"; "exists";
   "empty"; "position"; "last"; "num"; "bcd"; "text"; "date"; "tag"; "class"; "constructed"; "number"; "name"]%string.

(** The text is the octets at [text]. *)
Definition query_word (m : mem) (text : ptr) (b e : Z) (word : string) : bool :=
  let n := zlen (Diagnostic.text word) in
  (e - b =? n) && (lex (bytes_of m (text +p b) n) (Diagnostic.text word) =? 0).

Fixpoint function_loop (names : list string) (i : Z) (m : mem) (text : ptr) (b e : Z) : Z :=
  match names with
  | [] => F_UNKNOWN
  | name :: names => if query_word m text b e name then i else function_loop names (i + 1) m text b e
  end.

Definition query_function_kind (m : mem) (text : ptr) (n : query_node_t) : Z :=
  function_loop query_function_names 0 m text n.(n_begin) n.(n_end).

Definition query_reverse_axis (axis : Z) : bool :=
  (axis =? A_ANCESTOR) || (axis =? A_ANCESTOR_SELF) || (axis =? A_PRECEDE_SIBLING) || (axis =? A_PRECEDE).

Inductive tlv_query_result_kind_t : Type :=
| TLV_QUERY_RESULT_NODES | TLV_QUERY_RESULT_BOOL | TLV_QUERY_RESULT_INTEGER | TLV_QUERY_RESULT_BYTES
| TLV_QUERY_RESULT_STRING | TLV_QUERY_RESULT_OTHER (n : Z).

Definition query_private_type (type : tlv_query_result_kind_t) : Z :=
  match type with
  | TLV_QUERY_RESULT_NODES => V_NODE
  | TLV_QUERY_RESULT_BOOL => V_BOOL
  | TLV_QUERY_RESULT_INTEGER => V_NUMBER
  | TLV_QUERY_RESULT_BYTES => V_BYTES
  | TLV_QUERY_RESULT_STRING => V_STRING
  | TLV_QUERY_RESULT_OTHER _ => UINT32_MAX
  end.

Definition query_public_type (type : Z) : tlv_query_result_kind_t :=
  if type =? V_BOOL then TLV_QUERY_RESULT_BOOL
  else if type =? V_NUMBER then TLV_QUERY_RESULT_INTEGER
  else if type =? V_BYTES then TLV_QUERY_RESULT_BYTES
  else if type =? V_STRING then TLV_QUERY_RESULT_STRING
  else TLV_QUERY_RESULT_NODES.

(** ** Instructions *)

Definition zero_node : query_node_t :=
  mk_node 0 0 0 0 0 0 0 0 0 0 0 0 0 0 0 0 0 0 0 0 0 0 0 0 0 0 0 0 0.

(** The instruction at an index that is one. *)
Definition query_at (nodes : list query_node_t) (i : Z) : query_node_t :=
  if i <? zlen nodes then nth (Z.to_nat i) nodes zero_node else zero_node.

Definition query_immediate (n : query_node_t) : Z := Z.lor (Z.shiftl n.(n_immediate_high) 32) n.(n_immediate_low).

Definition query_nodes_need_values (nodes : list query_node_t) : bool :=
  existsb (fun n =>
    ((n.(n_op) =? Q_META) && (n.(n_selector) =? TLV_QUERY_META_LEN)) ||
    ((n.(n_op) =? Q_CALL) &&
     let fn := n.(n_selector) in
     (fn =? F_VALUE) || (fn =? F_LEN) || ((F_NUM <=? fn) && (fn <=? F_DATE)) ||
     ((F_STARTS <=? fn) && (fn <=? F_SUBSTR) && (n.(n_left) =? QUERY_NONE)))) nodes.

(** ** Images *)

Definition PROGRAM_SIZE : Z := 52.
Definition NODE_SIZE : Z := 116.

(** The header, and what lies where it says: instructions, the text with its end, and constants. *)
Record tlv_query_program_t := mk_program {
  p_magic : Z; p_version : Z; p_count : Z; p_root : Z; p_text_size : Z; p_text_offset : Z; p_level : Z; p_reserved : Z;
  p_variable_count : Z; p_payload_size : Z; p_pattern_capacity : Z; p_codec_stride : Z; p_tag_id : Z;
  p_nodes : list query_node_t; p_text : list Z; p_payload : list Z }.

Definition query_payload (p : tlv_query_program_t) (offset size : Z) : list Z :=
  take (Z.to_nat size) (drop (Z.to_nat offset) p.(p_payload)).

(** Arguments are linked from the last to the first; the count, if at most two links. *)
Fixpoint count_args (fuel : nat) (nodes : list query_node_t) (cursor argc : Z) : option Z :=
  if negb (cursor =? QUERY_NONE) && ((query_at nodes cursor).(n_op) =? Q_ARGS) then
    let argc := argc + 1 in
    if 2 <? argc then None
    else match fuel with O => None | S fuel => count_args fuel nodes (query_at nodes cursor).(n_left) argc end
  else Some (if negb (cursor =? QUERY_NONE) then argc + 1 else argc).

Definition function_arity_invalid (fn argc : Z) : bool :=
  (F_NAME <=? fn) || (((fn =? F_POSITION) || (fn =? F_LAST)) && negb (argc =? 0)) ||
  (((fn =? F_VALUE) || (fn =? F_LEN) || ((F_TAG <=? fn) && (fn <=? F_NUMBER))) && (1 <? argc)) ||
  (((fn =? F_NOT) || ((F_COUNT <=? fn) && (fn <=? F_EMPTY)) || ((F_NUM <=? fn) && (fn <=? F_DATE))) && negb (argc =? 1)) ||
  ((F_STARTS <=? fn) && (fn <=? F_CONTAINS) && negb (argc =? 2)) ||
  (((fn =? F_MASK) || (fn =? F_RANGE)) && negb (argc =? 2)) ||
  ((fn =? F_SUBSTR) && negb (argc =? 2) && negb (argc =? 3)).

Definition function_type (fn : Z) : Z :=
  if (fn =? F_VALUE) || (fn =? F_TAG) || (fn =? F_SUBSTR) then V_BYTES
  else if fn =? F_TEXT then V_STRING
  else if (fn =? F_MASK) || (fn =? F_RANGE) then V_NODE
  else if (fn =? F_LEN) || (fn =? F_COUNT) || (fn =? F_POSITION) || (fn =? F_LAST) || (fn =? F_NUM) || (fn =? F_BCD) ||
          (fn =? F_DATE) || (fn =? F_CLASS) || (fn =? F_NUMBER) then V_NUMBER
  else V_BOOL.

Definition call_valid (nodes : list query_node_t) (n : query_node_t) : bool :=
  match count_args 3 nodes n.(n_left) 0 with
  | None => false
  | Some argc =>
      let fn := n.(n_selector) in
      if function_arity_invalid fn argc then false
      else if negb (n.(n_type) =? function_type fn) || ((F_NUM <=? fn) && (fn <=? F_DATE) && (n.(n_hook_id) =? 0)) then false
      else true
  end.

(** The ranges of the words, and that operands are there where the instruction has some, and earlier. *)
Definition links_valid (text_size : Z) (n : query_node_t) (i : Z) : bool :=
  let absent_or_earlier x := (x =? QUERY_NONE) || (x <? i) in
  let binary := ((Q_CHILD <=? n.(n_op)) && (n.(n_op) <=? Q_OR)) || (n.(n_op) =? Q_ARGS) in
  negb ((Q_BOOL <? n.(n_op)) || (A_PRECEDE <? n.(n_axis)) || (2 <? n.(n_anchor)) || (1 <? n.(n_scalar)) || (1 <? n.(n_grouped)) ||
        (1 <? n.(n_nested)) || (V_STRING <? n.(n_type)) || (n.(n_end) <? n.(n_begin)) ||
        (negb (text_size =? 0) && (text_size <? n.(n_end))) || (i <? n.(n_low))) &&
  absent_or_earlier n.(n_left) && absent_or_earlier n.(n_right) && absent_or_earlier n.(n_predicate_guard) && absent_or_earlier n.(n_path_guard) &&
  negb (negb (n.(n_path_guard) =? QUERY_NONE) && negb (n.(n_path_kind) =? Q_CHILD) && negb (n.(n_path_kind) =? Q_DESC) && negb (n.(n_path_kind) =? Q_SELF)) &&
  (if binary then negb ((n.(n_left) =? QUERY_NONE) || (n.(n_right) =? QUERY_NONE))
   else negb (negb (n.(n_op) =? Q_CALL) && (negb (n.(n_left) =? QUERY_NONE) || negb (n.(n_right) =? QUERY_NONE)))) &&
  negb ((n.(n_op) =? Q_CALL) && negb (n.(n_right) =? QUERY_NONE)).

(** The type an instruction has, its constant and its selector. *)
Definition type_invalid (codec_stride : Z) (n : query_node_t) : bool :=
  (((n.(n_op) <=? Q_SELF) || ((Q_CHILD <=? n.(n_op)) && (n.(n_op) <=? Q_EXCEPT))) && negb (n.(n_type) =? V_NODE)) ||
  (((n.(n_op) =? Q_META) || (n.(n_op) =? Q_LITERAL)) && negb (n.(n_type) =? V_NUMBER)) ||
  ((n.(n_op) =? Q_BYTES) && negb (n.(n_type) =? V_BYTES)) || ((n.(n_op) =? Q_STRING) && negb (n.(n_type) =? V_STRING)) ||
  (((n.(n_op) =? Q_BOOL) || ((Q_EQ <=? n.(n_op)) && (n.(n_op) <=? Q_OR))) && negb (n.(n_type) =? V_BOOL)) ||
  ((n.(n_op) =? Q_BOOL) && (1 <? n.(n_folded))) || (2 <? n.(n_resolved)) ||
  (negb (n.(n_scratch_size) =? 0) && ((n.(n_hook_id) =? 0) || (codec_stride <? n.(n_scratch_size)))) || negb (codec_stride mod 16 =? 0).

Definition literal_invalid (n : query_node_t) : bool :=
  (1 <? n.(n_context)) || (1 <? n.(n_negative)) || ((n.(n_op) =? Q_META) && (TLV_QUERY_META_HLEN <? n.(n_selector))) ||
  ((n.(n_op) =? Q_LITERAL) &&
   ((INT64_MAX + n.(n_negative) <? query_immediate n) || ((query_immediate n =? 0) && negb (n.(n_negative) =? 0)))).

Definition data_invalid (payload_size : Z) (n : query_node_t) (i : Z) : bool :=
  ((n.(n_resolved) =? 2) && ((payload_size <? n.(n_mask_offset)) || (payload_size - n.(n_mask_offset) <? n.(n_data_size)))) ||
  (payload_size <? n.(n_data_offset)) || (payload_size - n.(n_data_offset) <? n.(n_data_size)) ||
  (negb (n.(n_reuse) =? QUERY_NONE) && (i <=? n.(n_reuse))).

Definition same_slot (slot : Z) (n : query_node_t) : bool := (n.(n_op) =? Q_VARIABLE) && (n.(n_variable_slot) =? slot).

(** The number of variables so far. *)
Definition variable_valid (p : tlv_query_program_t) (n : query_node_t) (i variables : Z) : option Z :=
  if n.(n_op) =? Q_VARIABLE then
    if (negb (n.(n_type) =? V_NUMBER) && negb (n.(n_type) =? V_BYTES) && negb (n.(n_type) =? V_STRING)) ||
       (variables <? n.(n_variable_slot)) || (n.(n_data_size) =? 0) then None
    else if n.(n_variable_slot) =? variables then Some (variables + 1)
    else
      match List.find (same_slot n.(n_variable_slot)) (take (Z.to_nat i) p.(p_nodes)) with
      | None => None
      | Some first =>
          if negb (first.(n_type) =? n.(n_type)) || negb (first.(n_data_size) =? n.(n_data_size)) ||
             negb (lex (query_payload p first.(n_data_offset) n.(n_data_size)) (query_payload p n.(n_data_offset) n.(n_data_size)) =? 0)
          then None else Some variables
      end
  else Some variables.

Fixpoint nodes_valid (p : tlv_query_program_t) (nodes : list query_node_t) (i variables : Z) : option Z :=
  match nodes with
  | [] => Some variables
  | n :: nodes =>
      if negb (links_valid p.(p_text_size) n i) then None
      else if (n.(n_op) =? Q_CALL) && negb (call_valid p.(p_nodes) n) then None
      else if type_invalid p.(p_codec_stride) n || literal_invalid n || data_invalid p.(p_payload_size) n i then None
      else match variable_valid p n i variables with
           | None => None
           | Some variables => nodes_valid p nodes (i + 1) variables
           end
  end.

(** The address of the image is aligned. *)
Definition query_program_valid `{Platform} (aligned : bool) (p : tlv_query_program_t) : bool :=
  if negb aligned then false
  else if negb (p.(p_magic) =? QUERY_MAGIC) || negb (p.(p_version) =? QUERY_IMAGE_VERSION) || (p.(p_count) =? 0) ||
          (p.(p_count) <=? p.(p_root)) || (TLV_QUERY_D <? p.(p_level)) then false
  else if (UINT32_MAX - PROGRAM_SIZE) / NODE_SIZE <? p.(p_count) then false
  else
    let offset := usize (PROGRAM_SIZE + usize (p.(p_count) * NODE_SIZE)) in
    if negb (p.(p_text_offset) =? offset) || (UINT32_MAX - offset <=? p.(p_text_size)) ||
       (UINT32_MAX - offset - p.(p_text_size) - 1 <? p.(p_payload_size)) ||
       negb (p.(p_reserved) =? offset + p.(p_text_size) + 1 + p.(p_payload_size)) then false
    else
      match nodes_valid p (take (Z.to_nat p.(p_count)) p.(p_nodes)) 0 0 with
      | None => false
      | Some variables => (variables =? p.(p_variable_count)) && (byte_at p.(p_text) p.(p_text_size) =? 0)
      end.

(** ** Plans *)

(** The options the library is built with. *)
Class QueryConfig := { OPENTLV_QUERY_SET_OPERATIONS : bool; OPENTLV_DOCUMENT : bool }.

Definition query_plan_supported `{QueryConfig} (p : tlv_query_program_t) : bool :=
  (OPENTLV_QUERY_SET_OPERATIONS || negb (existsb (fun n => (Q_UNION <=? n.(n_op)) && (n.(n_op) <=? Q_EXCEPT)) p.(p_nodes))) &&
  (OPENTLV_DOCUMENT || negb (p.(p_level) =? TLV_QUERY_D)).

(** The instructions of a predicate that a scope can decide. *)
Definition s1_instruction (nodes : list query_node_t) (n : query_node_t) : bool :=
  if n.(n_op) =? Q_TEST then (n.(n_axis) =? A_CHILD) || (n.(n_axis) =? A_DESC)
  else if n.(n_op) =? Q_LITERAL then negb (n.(n_anchor) =? 2)
  else if n.(n_op) =? Q_CALL then
    let fn := n.(n_selector) in
    if negb (fn =? F_NOT) && negb (fn =? F_COUNT) && negb (fn =? F_EXISTS) && negb (fn =? F_EMPTY) then false
    else if negb (fn =? F_NOT) && negb ((query_at nodes n.(n_left)).(n_op) =? Q_TEST) then false
    else true
  else (n.(n_op) =? Q_BOOL) || ((Q_EQ <=? n.(n_op)) && (n.(n_op) <=? Q_OR)).

(** [count] is the number of [nodes]. *)
Definition query_s1_filter (nodes : list query_node_t) (root : Z) : Z :=
  let r := query_at nodes root in
  let left := query_at nodes r.(n_left) in
  let filter := if (r.(n_op) =? Q_CHILD) && (left.(n_op) =? Q_ROOT) && (left.(n_anchor) =? 0) then r.(n_right) else root in
  let f := query_at nodes filter in
  if negb (f.(n_op) =? Q_FILTER) then QUERY_NONE
  else
    let selector := query_at nodes f.(n_left) in
    if negb (selector.(n_op) =? Q_TEST) || negb (selector.(n_axis) =? A_CHILD) || negb (selector.(n_scalar) =? 0) then QUERY_NONE
    else
      let predicate := f.(n_right) in
      let low := (query_at nodes predicate).(n_low) in
      if forallb (s1_instruction nodes) (drop (Z.to_nat low) (take (Z.to_nat (predicate + 1)) nodes)) then filter else QUERY_NONE.

(** The arguments of a call, from the first to the last. *)
Fixpoint plan_args (fuel : nat) (nodes : list query_node_t) (cursor : Z) (args : list Z) : list Z :=
  if cursor =? QUERY_NONE then args
  else if (query_at nodes cursor).(n_op) =? Q_ARGS then
    match fuel with
    | O => args
    | S fuel => plan_args fuel nodes (query_at nodes cursor).(n_left) ((query_at nodes cursor).(n_right) :: args)
    end
  else cursor :: args.

(** The operand an instruction refers to, by its type. *)
Definition operand_type (nodes : list query_node_t) (x : Z) : Z := if x =? QUERY_NONE then V_NODE else (query_at nodes x).(n_type).

Definition guard_valid (nodes : list query_node_t) (x : Z) : bool := (x =? QUERY_NONE) || ((query_at nodes x).(n_type) =? V_NODE).

Definition is_args (nodes : list query_node_t) (x : Z) : bool := negb (x =? QUERY_NONE) && ((query_at nodes x).(n_op) =? Q_ARGS).

(** The types of the operands. *)
Definition operands_valid (nodes : list query_node_t) (n : query_node_t) : bool :=
  let a := operand_type nodes n.(n_left) in
  let b := operand_type nodes n.(n_right) in
  negb (is_args nodes n.(n_left) && negb (n.(n_op) =? Q_CALL) && negb (n.(n_op) =? Q_ARGS)) && negb (is_args nodes n.(n_right)) &&
  negb (((n.(n_op) =? Q_CHILD) || (n.(n_op) =? Q_DESC) || ((Q_UNION <=? n.(n_op)) && (n.(n_op) <=? Q_EXCEPT))) &&
        (negb (a =? V_NODE) || negb (b =? V_NODE))) &&
  negb ((n.(n_op) =? Q_FILTER) && (negb (a =? V_NODE) || (V_NUMBER <? b))) &&
  negb ((Q_EQ <=? n.(n_op)) && (n.(n_op) <=? Q_GE) && (negb (a =? b) || (a =? V_NODE))) &&
  negb (((n.(n_op) =? Q_AND) || (n.(n_op) =? Q_OR)) && ((V_BOOL <? a) || (V_BOOL <? b))) &&
  negb ((n.(n_op) =? Q_ARGS) && negb (n.(n_type) =? V_NODE)).

(** The axes that an event does not decide when it is published. *)
Definition axis_delayed (n : query_node_t) : bool :=
  ((A_DESC_SELF <=? n.(n_axis)) && negb ((n.(n_axis) =? A_PRECEDE_SIBLING) && negb (n.(n_scalar) =? 0))) ||
  ((n.(n_axis) =? A_DESC) && negb (n.(n_scalar) =? 0)) || ((n.(n_axis) =? A_ANCESTOR) && (n.(n_scalar) =? 0)) ||
  ((n.(n_axis) =? A_CHILD) && negb (n.(n_scalar) =? 0)).

Definition reuse_valid (p : tlv_query_program_t) (n other : query_node_t) : bool :=
  (other.(n_op) =? Q_TEST) && (other.(n_axis) =? n.(n_axis)) && (other.(n_anchor) =? n.(n_anchor)) && (other.(n_scalar) =? n.(n_scalar)) &&
  (other.(n_predicate_guard) =? n.(n_predicate_guard)) && (other.(n_path_guard) =? n.(n_path_guard)) && (other.(n_path_kind) =? n.(n_path_kind)) &&
  (other.(n_resolved) =? n.(n_resolved)) && (other.(n_data_size) =? n.(n_data_size)) &&
  (lex (query_payload p other.(n_data_offset) n.(n_data_size)) (query_payload p n.(n_data_offset) n.(n_data_size)) =? 0) &&
  (negb (n.(n_resolved) =? 2) || (lex (query_payload p other.(n_mask_offset) n.(n_data_size)) (query_payload p n.(n_mask_offset) n.(n_data_size)) =? 0)).

Definition test_valid (p : tlv_query_program_t) (n : query_node_t) : bool :=
  negb (((n.(n_axis) =? A_FOLLOW) || (n.(n_axis) =? A_PRECEDE)) && negb (p.(p_level) =? TLV_QUERY_D)) &&
  negb (negb (n.(n_context) =? 0) && (negb (n.(n_axis) =? A_PARENT) || negb (n.(n_resolved) =? 0))) &&
  (if n.(n_reuse) =? QUERY_NONE then true else reuse_valid p n (query_at p.(p_nodes) n.(n_reuse))).

(** Whether the arguments of a call fit, and whether an event decides it. *)
Definition arguments_valid (p : tlv_query_program_t) (n : query_node_t) (args : list Z) : bool * bool :=
  let count := zlen args in
  let arg j := query_at p.(p_nodes) (nth j args QUERY_NONE) in
  let f := n.(n_selector) in
  let a := if 0 <? count then (arg 0%nat).(n_type) else V_NODE in
  let b := if 1 <? count then (arg 1%nat).(n_type) else V_NODE in
  if (f =? F_VALUE) || ((F_TAG <=? f) && (f <=? F_NUMBER)) then
    (negb (negb (count =? 0) && negb (a =? V_NODE)), (count =? 0) && negb (F_TAG <=? f))
  else if f =? F_LEN then (negb (negb (count =? 0) && negb (a =? V_BYTES) && negb (a =? V_STRING)), true)
  else if f =? F_NOT then (negb (negb (a =? V_BOOL) && negb (a =? V_NODE)), true)
  else if (F_COUNT <=? f) && (f <=? F_LAST) then (negb (negb (count =? 0) && negb (a =? V_NODE)), false)
  else if (F_NUM <=? f) && (f <=? F_DATE) then (negb (negb (a =? V_NODE) && negb (a =? V_BYTES)), false)
  else if f =? F_SUBSTR then
    (negb (negb (a =? V_BYTES) || negb (b =? V_NUMBER) || ((count =? 3) && negb ((arg 2%nat).(n_type) =? V_NUMBER))), true)
  else if (F_STARTS <=? f) && (f <=? F_RANGE) then
    let x := arg 0%nat in let y := arg 1%nat in
    if negb (a =? V_BYTES) || negb (b =? V_BYTES) then (false, true)
    else if (f =? F_CONTAINS) && (y.(n_op) =? Q_BYTES) && (p.(p_pattern_capacity) <? y.(n_data_size)) then (false, true)
    else if (f =? F_MASK) || (f =? F_RANGE) then
      if negb (x.(n_op) =? Q_BYTES) || negb (y.(n_op) =? Q_BYTES) then (false, true)
      else if (f =? F_MASK) && negb (x.(n_data_size) =? y.(n_data_size)) then (false, true)
      else if (f =? F_RANGE) &&
              (let size := Z.min x.(n_data_size) y.(n_data_size) in
               let order := lex (query_payload p x.(n_data_offset) size) (query_payload p y.(n_data_offset) size) in
               (0 <? order) || ((order =? 0) && (y.(n_data_size) <? x.(n_data_size)))) then (false, true)
      else (true, n.(n_predicate_guard) =? QUERY_NONE)
    else (true, true)
  else (true, true).

(** Whether an instruction is typed, and whether an event decides it. *)
Definition instruction_valid (p : tlv_query_program_t) (n : query_node_t) : bool * bool :=
  let nodes := p.(p_nodes) in
  if negb (guard_valid nodes n.(n_predicate_guard)) || negb (guard_valid nodes n.(n_path_guard)) || negb (operands_valid nodes n) then (false, true)
  else
    let immediate := negb ((n.(n_op) =? Q_ROOT) && negb (n.(n_nested) =? 0)) && negb ((n.(n_op) =? Q_LITERAL) && (n.(n_anchor) =? 2)) in
    let test := n.(n_op) =? Q_TEST in
    if test && negb (test_valid p n) then (false, true)
    else
      let immediate := immediate && negb (test && axis_delayed n) &&
                       negb ((n.(n_op) =? Q_FILTER) && query_reverse_axis (query_at nodes n.(n_left)).(n_axis)) in
      if negb (n.(n_op) =? Q_CALL) then (true, immediate)
      else
        let '(ok, decided) := arguments_valid p n (plan_args 3 nodes n.(n_left) []) in
        let f := n.(n_selector) in
        (ok && negb (((f =? F_CLASS) || (f =? F_NUMBER)) && (p.(p_tag_id) =? 0)), immediate && decided).

Definition plan_types (p : tlv_query_program_t) : bool :=
  let nodes := p.(p_nodes) in
  if (query_at nodes p.(p_root)).(n_op) =? Q_ARGS then false
  else
    let checked := map (instruction_valid p) nodes in
    let immediate := ((query_at nodes p.(p_root)).(n_type) =? V_NODE) && forallb snd checked in
    if negb (forallb fst checked) then false
    else if (p.(p_level) =? TLV_QUERY_S0) && negb immediate then false
    else if (p.(p_level) =? TLV_QUERY_S1) && (query_s1_filter nodes p.(p_root) =? QUERY_NONE) then false
    else true.

(** Whether two spans of the caller's meet; objects at different places do not. *)
Definition query_overlap (a : ptr) (an : Z) (b : ptr) (bn : Z) : bool :=
  match a, b with
  | Ptr i x, Ptr j y =>
      (i =? j) && negb (an =? 0) && negb (bn =? 0) && (if x <=? y then y - x <? an else x - y <? bn)
  | _, _ => false
  end.
