(* ===== verification/QueryParser.v ===== *)
(** * Tokens and expressions of the query language (query/compiler.c: lex, parse, and the guards)

    One pass reads tokens, and writes the text in its canonical form where that is asked for.  An operator-precedence
    parser makes instructions of the tokens, and steps are guarded by what is in front of them. *)

From Stdlib Require Import String.
From S2P Require Import Prelude Mem Core Diagnostic QueryPath Utf8 QueryProgram.

(** * Tokens *)

Abbreviation T_WORD := 0 (only parsing).
Abbreviation T_BYTES := 1 (only parsing).
Abbreviation T_STRING := 2 (only parsing).
Abbreviation T_META := 3 (only parsing).
Abbreviation T_VARIABLE := 4 (only parsing).
Abbreviation T_SLASH := 5 (only parsing).
Abbreviation T_DESC := 6 (only parsing).
Abbreviation T_OPEN := 7 (only parsing).
Abbreviation T_CLOSE := 8 (only parsing).
Abbreviation T_POPEN := 9 (only parsing).
Abbreviation T_PCLOSE := 10 (only parsing).
Abbreviation T_COMMA := 11 (only parsing).
Abbreviation T_UNION := 12 (only parsing).
Abbreviation T_INTERSECT := 13 (only parsing).
Abbreviation T_EXCEPT := 14 (only parsing).
Abbreviation T_EQ := 15 (only parsing).
Abbreviation T_NE := 16 (only parsing).
Abbreviation T_LT := 17 (only parsing).
Abbreviation T_LE := 18 (only parsing).
Abbreviation T_GT := 19 (only parsing).
Abbreviation T_GE := 20 (only parsing).
Abbreviation T_AND := 21 (only parsing).
Abbreviation T_OR := 22 (only parsing).
Abbreviation T_DOT := 23 (only parsing).
Abbreviation T_DDOT := 24 (only parsing).
Abbreviation T_AXIS := 25 (only parsing).
Abbreviation T_END := 26 (only parsing).

Record query_token_t := mk_token { tk_kind : Z; tk_begin : Z; tk_end : Z }.

Definition whitespace (c : Z) : bool := (c =? 32) || (c =? 9) || (c =? 13) || (c =? 10).
Definition identifier_start (c : Z) : bool := ((97 <=? c) && (c <=? 122)) || ((65 <=? c) && (c <=? 90)).
Definition identifier_continue (c : Z) : bool := identifier_start c || ((48 <=? c) && (c <=? 57)) || (c =? 95) || (c =? 45).
Definition word_char (c : Z) : bool :=
  ((48 <=? c) && (c <=? 57)) || ((97 <=? c) && (c <=? 122)) || ((65 <=? c) && (c <=? 90)) || (c =? 95) || (c =? 45) || (c =? 63).

Definition format_operator (kind : Z) : bool :=
  (kind =? T_UNION) || (kind =? T_INTERSECT) || (kind =? T_EXCEPT) || ((T_EQ <=? kind) && (kind <=? T_OR)).

(** The validator always returns. *)
Definition utf8_ok (r : option tlv_result_t) : bool := match r with Some rc => is_ok rc | None => false end.

(** A token ends, or a span is not what was expected. *)
Definition lexed : Type := Z * Z + Z * Z * string.

Section Lex.
Context (m : mem) (text : ptr) (size : Z).

Definition at_char (pos c : Z) : bool := (pos <? size) && (ld m text pos =? c).

(** The first position from [pos] on whose character does not go on. *)
Fixpoint scan_while (n : nat) (goes_on : Z -> bool) (pos : Z) : Z :=
  match n with
  | O => pos
  | S n => if (pos <? size) && goes_on (ld m text pos) then scan_while n goes_on (pos + 1) else pos
  end.

Definition room (pos : Z) : nat := Z.to_nat (size - pos).

(** The end of the characters between quotes [c]. *)
Fixpoint scan_string (n : nat) (c pos : Z) : Z + Z * Z * string :=
  match n with
  | O => inl pos
  | S n =>
      if (pos <? size) && negb (ld m text pos =? c) then
        if ld m text pos <? 32 then inr (pos, pos + 1, "ASCII string or escaped UTF-8 bytes"%string)
        else if ld m text pos =? 92 then
          let pos := pos + 1 in
          if (pos =? size) || (negb (ld m text pos =? 92) && negb (ld m text pos =? 39) && negb (ld m text pos =? 34)) then
            inr (pos, pos, "escaped quote or backslash"%string)
          else scan_string n c (pos + 1)
        else scan_string n c (pos + 1)
      else inl pos
  end.

(** The end of the digits in front of a quote. *)
Fixpoint scan_bytes (n : nat) (pos : Z) : Z + Z * Z * string :=
  match n with
  | O => inl pos
  | S n =>
      if (pos <? size) && negb (ld m text pos =? 39) then
        if query_hex (ld m text pos) <? 0 then inr (pos, pos + 1, "hexadecimal byte"%string) else scan_bytes n (pos + 1)
      else inl pos
  end.

Definition lex_string (pending : list Z) (c b : Z) : lexed :=
  let pos := b + 1 in
  match scan_string (room pos) c pos with
  | inr e => inr e
  | inl pos =>
      if pos =? size then inr (b, pos, "closing quote"%string)
      else if negb (utf8_ok (tlv_utf8_validate m pending (text +p (b + 1)) (pos - b - 1))) then
        inr (b, pos, "valid UTF-8 string"%string)
      else inl (T_STRING, pos + 1)
  end.

Definition lex_bytes (b : Z) : lexed :=
  let digits := b + 2 in
  match scan_bytes (room digits) digits with
  | inr e => inr e
  | inl pos =>
      if (pos =? size) || negb ((pos - digits) mod 2 =? 0) then inr (b, pos, "even hexadecimal bytes and closing quote"%string)
      else inl (T_BYTES, pos + 1)
  end.

Definition lex_word (b : Z) : lexed :=
  let pos := scan_while (room (b + 1)) word_char (b + 1) in
  let pos := if at_char pos 58 && ((pos + 1 =? size) || negb (ld m text (pos + 1) =? 58))
             then scan_while (room (pos + 1)) word_char (pos + 1) else pos in
  let kind := if query_word m text b pos "and" then T_AND
              else if query_word m text b pos "or" then T_OR
              else if query_word m text b pos "intersect" then T_INTERSECT
              else if query_word m text b pos "except" then T_EXCEPT else T_WORD in
  inl (kind, pos).

(** The token at [b]; the kind [T_END] is none.  [pending] is the memory of the validator of UTF-8. *)
Definition lex_token (pending : list Z) (b : Z) : lexed :=
  let c := ld m text b in
  let pos := b + 1 in
  let one kind := inl (kind, pos) in
  let two next kind kind2 := if at_char pos next then inl (kind2, pos + 1) else inl (kind, pos) in
  if c =? 47 then two 47 T_SLASH T_DESC
  else if c =? 40 then one T_OPEN
  else if c =? 41 then one T_CLOSE
  else if c =? 91 then one T_POPEN
  else if c =? 93 then one T_PCLOSE
  else if c =? 44 then one T_COMMA
  else if c =? 124 then one T_UNION
  else if c =? 61 then one T_EQ
  else if c =? 33 then two 61 T_END T_NE
  else if c =? 60 then two 61 T_LT T_LE
  else if c =? 62 then two 61 T_GT T_GE
  else if c =? 46 then two 46 T_DOT T_DDOT
  else if c =? 58 then two 58 T_END T_AXIS
  else if c =? 42 then one T_WORD
  else if (c =? 64) || (c =? 36) then
    if (c =? 36) && ((pos =? size) || negb (identifier_start (ld m text pos))) then
      inr (b, pos, "variable identifier starting with a letter"%string)
    else
      let e := scan_while (room pos) (if c =? 36 then identifier_continue else word_char) pos in
      inl (if e =? b + 1 then T_END else if c =? 64 then T_META else T_VARIABLE, e)
  else if (c =? 39) || (c =? 34) then lex_string pending c b
  else if (c =? 120) && at_char pos 39 then lex_bytes b
  else if word_char c then lex_word b
  else one T_END.

(** Digits are in upper case in bytes, and in words that are tags. *)
Definition is_hexadecimal (kind b e : Z) : bool :=
  if (kind =? T_WORD) && ((e - b) mod 2 =? 0) then
    forallb (fun c => negb ((query_hex c <? 0) && negb (c =? 63))) (bytes_of m (text +p b) (e - b))
  else kind =? T_BYTES.

Definition needs_space (previous kind : Z) : bool :=
  format_operator kind || format_operator previous || (previous =? T_COMMA) ||
  (((previous =? T_SLASH) || (previous =? T_DESC)) && ((kind =? T_SLASH) || (kind =? T_DESC))) ||
  (((previous =? T_DOT) || (previous =? T_DDOT)) && ((kind =? T_DOT) || (kind =? T_DDOT))).
End Lex.

(** [None] as [formatted] is NULL: the size is counted. *)
Fixpoint emit_text (n : nat) (m : mem) (text : ptr) (j : Z) (hexadecimal : bool) (formatted : option ptr) (emitted : Z) : mem * Z :=
  match n with
  | O => (m, emitted)
  | S n =>
      let value := ld m text j in
      let value := if hexadecimal && (97 <=? value) && (value <=? 102) then u8 (value - 97 + 65) else value in
      let m := match formatted with Some out => st m out emitted value | None => m end in
      emit_text n m text (j + 1) hexadecimal formatted (emitted + 1)
  end.

(** One token of the canonical form; [None] is an overflow of the size. *)
Definition emit_token `{Platform} (m : mem) (text : ptr) (used : bool) (previous kind b e : Z) (formatted : option ptr) (emitted : Z)
  : mem * Z * bool :=
  let space := used && needs_space previous kind in
  if space && (emitted =? SIZE_MAX) then (m, emitted, false)
  else
    let m := if space then match formatted with Some out => st m out emitted 32 | None => m end else m in
    let emitted := if space then emitted + 1 else emitted in
    if SIZE_MAX - emitted <? e - b then (m, emitted, false)
    else
      let '(m, emitted) := emit_text (Z.to_nat (e - b)) m text b (is_hexadecimal m text kind b e) formatted emitted in
      (m, emitted, true).

Record lex_result_t := mk_lex { lx_code : tlv_result_t; lx_mem : mem; lx_tokens : list query_token_t; lx_size : Z;
  lx_diagnostic : option tlv_query_diagnostic_t }.

(** [format] is whether [formatted_size] is given; the tokens are in the order of the text. *)
Fixpoint lex_loop `{Platform} (fuel : nat) (m : mem) (text : ptr) (size limit : Z) (pending : list Z) (format : bool) (formatted : option ptr)
  (pos : Z) (tokens : list query_token_t) (previous emitted : Z) (d : option tlv_query_diagnostic_t) : option lex_result_t :=
  let fails r := let '(rc, d) := r in Some (mk_lex rc m [] 0 d) in
  if size <=? pos then Some (mk_lex TLV_OK m (rev tokens) emitted d)
  else
    match fuel with
    | O => None
    | S fuel =>
        if whitespace (ld m text pos) then lex_loop fuel m text size limit pending format formatted (pos + 1) tokens previous emitted d
        else
          match lex_token m text size pending pos with
          | inr (b, e, expected) => fails (query_error d TLV_ERR_SYNTAX TLV_QUERY_ERROR_SYNTAX b e (Some expected))
          | inl (kind, e) =>
              if kind =? T_END then fails (query_error d TLV_ERR_SYNTAX TLV_QUERY_ERROR_SYNTAX pos e (Some "Query token"%string))
              else if zlen tokens =? limit then fails (query_limit d "tokens" limit pos e)
              else
                let token := mk_token kind (u32 pos) (u32 e) in
                if format then
                  let '(m, emitted, ok) :=
                    emit_token m text (negb (match tokens with [] => true | _ => false end)) previous kind pos e formatted emitted in
                  if ok then lex_loop fuel m text size limit pending format formatted e (token :: tokens) kind emitted d
                  else Some (mk_lex TLV_ERR_OVERFLOW m [] 0 d)
                else lex_loop fuel m text size limit pending format formatted e (token :: tokens) previous emitted d
          end
    end.

Definition lex `{Platform} (m : mem) (text : ptr) (size limit : Z) (pending : list Z) (d : option tlv_query_diagnostic_t)
  (format : bool) (formatted : option ptr) : option lex_result_t :=
  lex_loop (Z.to_nat size) m text size limit pending format formatted 0 [] T_END 0 d.

(** * Expressions of the query language (query/compiler.c: parse and the guards of tlv_query_compile)

    An operator-precedence parser.  Its stacks are lists here, the top first; the instructions are in the order in
    which they are made, so that an instruction is behind its operands. *)

Record query_operator_t := mk_operator { op_kind : Z; op_token : Z; op_base : Z; op_function : Z }.

Definition precedence (kind : Z) : Z :=
  if kind =? T_COMMA then 1
  else if kind =? T_UNION then 2
  else if (kind =? T_INTERSECT) || (kind =? T_EXCEPT) then 6
  else if kind =? T_OR then 3
  else if kind =? T_AND then 4
  else if (kind =? T_EQ) || (kind =? T_NE) || (kind =? T_LT) || (kind =? T_LE) || (kind =? T_GT) || (kind =? T_GE) then 5
  else if (kind =? T_SLASH) || (kind =? T_DESC) then 7
  else 0.

Definition operation (kind : Z) : Z :=
  if kind =? T_COMMA then Q_ARGS
  else if kind =? T_UNION then Q_UNION
  else if kind =? T_INTERSECT then Q_INTERSECT
  else if kind =? T_EXCEPT then Q_EXCEPT
  else if kind =? T_OR then Q_OR
  else if kind =? T_AND then Q_AND
  else if kind =? T_EQ then Q_EQ
  else if kind =? T_NE then Q_NE
  else if kind =? T_LT then Q_LT
  else if kind =? T_LE then Q_LE
  else if kind =? T_GT then Q_GT
  else if kind =? T_GE then Q_GE
  else if kind =? T_DESC then Q_DESC
  else Q_CHILD.

Definition no_token : query_token_t := mk_token T_END 0 0.
Definition token_at (tokens : list query_token_t) (i : Z) : query_token_t :=
  if i <? zlen tokens then nth (Z.to_nat i) tokens no_token else no_token.

(** The instruction at the end of [nodes]. *)
Definition new_query_node (nodes : list query_node_t) (op left right : Z) (token : query_token_t) : query_node_t :=
  let used := u32 (zlen nodes) in
  let low := used in
  let low := if negb (left =? QUERY_NONE) && ((query_at nodes left).(n_low) <? low) then (query_at nodes left).(n_low) else low in
  let low := if negb (right =? QUERY_NONE) && ((query_at nodes right).(n_low) <? low) then (query_at nodes right).(n_low) else low in
  mk_node op left right token.(tk_begin) token.(tk_end) 0 0 0 0 low QUERY_NONE QUERY_NONE 0 0 0 0 0 0 0 0 0 QUERY_NONE 0 0 0 0 0 0 0.

Definition add_node (nodes : list query_node_t) (op left right : Z) (token : query_token_t) : list query_node_t * Z :=
  (nodes ++ [new_query_node nodes op left right token], u32 (zlen nodes)).

Definition update_at (i : Z) (f : query_node_t -> query_node_t) (nodes : list query_node_t) : list query_node_t := alter f (Z.to_nat i) nodes.

Definition reduce (nodes : list query_node_t) (values : list Z) (op : query_operator_t) (tokens : list query_token_t)
  : option (list query_node_t * list Z) :=
  match values with
  | rhs :: lhs :: values =>
      let '(nodes, i) := add_node nodes (operation op.(op_kind)) lhs rhs (token_at tokens op.(op_token)) in
      Some (nodes, i :: values)
  | _ => None
  end.

(** Operators are reduced as long as [reduces] says so of their precedence. *)
Fixpoint reduce_while (reduces : Z -> bool) (ops : list query_operator_t) (nodes : list query_node_t) (values : list Z)
  (tokens : list query_token_t) : option (list query_operator_t * list query_node_t * list Z) :=
  match ops with
  | [] => Some ([], nodes, values)
  | op :: outer =>
      if reduces (precedence op.(op_kind)) then
        match reduce nodes values op tokens with
        | None => None
        | Some (nodes, values) => reduce_while reduces outer nodes values tokens
        end
      else Some (ops, nodes, values)
  end.

Record parse_state := mk_parse {
  ps_nodes : list query_node_t; ps_ops : list query_operator_t; ps_values : list Z; ps_nesting : Z; ps_predicates : Z;
  ps_expected : bool; ps_after_path : bool }.

(** What a token leads to: the state and the next token, a syntax error at a token, or a limit. *)
Inductive parsed : Type :=
| Parsed (s : parse_state) (next : Z)
| Unexpected (t : query_token_t)
| Unknown_axis (t : query_token_t)
| Too_deep (t : query_token_t)
| Too_many (t : query_token_t).

Section Parse.
Context (m : mem) (text : ptr) (tokens : list query_token_t) (max_nesting max_states : Z).

Definition parse_open (s : parse_state) (i : Z) (t : query_token_t) : parsed :=
  let k := t.(tk_kind) in
  if ((k =? T_POPEN) && s.(ps_expected)) || ((k =? T_OPEN) && negb s.(ps_expected)) then Unexpected t
  else if s.(ps_nesting) =? max_nesting then Too_deep t
  else
    Parsed (mk_parse s.(ps_nodes) (mk_operator k (u32 i) (u32 (zlen s.(ps_values))) QUERY_NONE :: s.(ps_ops)) s.(ps_values)
              (s.(ps_nesting) + 1) (if k =? T_POPEN then s.(ps_predicates) + 1 else s.(ps_predicates)) true false) (i + 1).

(** The anchor of a call: the top, unless it is a step of a path. *)
Definition call_anchor (predicates function : Z) : Z :=
  let before := (token_at tokens (function - 1)).(tk_kind) in
  if (predicates =? 0) && negb (negb (function =? 0) && ((before =? T_SLASH) || (before =? T_DESC))) then 1 else 0.

Definition parse_close (s : parse_state) (i : Z) (t : query_token_t) : parsed :=
  let k := t.(tk_kind) in
  match reduce_while (fun p => negb (p =? 0)) s.(ps_ops) s.(ps_nodes) s.(ps_values) tokens with
  | None | Some ([], _, _) => Unexpected t
  | Some (op :: ops, nodes, values) =>
      let vn := zlen values in
      if ((k =? T_CLOSE) && negb (op.(op_kind) =? T_OPEN)) || ((k =? T_PCLOSE) && negb (op.(op_kind) =? T_POPEN)) then Unexpected t
      else
        let closed nodes values predicates := Parsed (mk_parse nodes ops values (s.(ps_nesting) - 1) predicates false false) (i + 1) in
        if negb (op.(op_function) =? QUERY_NONE) then
          if negb (vn =? op.(op_base)) && (s.(ps_expected) || negb (vn =? op.(op_base) + 1)) then Unexpected t
          else
            let '(args, values) := if vn =? op.(op_base) then (QUERY_NONE, values) else (List.hd QUERY_NONE values, List.tl values) in
            let '(nodes, call) := add_node nodes Q_CALL args QUERY_NONE (token_at tokens op.(op_function)) in
            closed (update_at call (with_n_anchor (call_anchor s.(ps_predicates) op.(op_function))) nodes) (call :: values) s.(ps_predicates)
        else if op.(op_kind) =? T_POPEN then
          if s.(ps_expected) || negb (vn =? op.(op_base) + 1) || (op.(op_base) =? 0) then Unexpected t
          else
            match values with
            | rhs :: lhs :: values =>
                let '(nodes, filter) := add_node nodes Q_FILTER lhs rhs (token_at tokens op.(op_token)) in
                closed nodes (filter :: values) (s.(ps_predicates) - 1)
            | _ => Unexpected t
            end
        else if s.(ps_expected) || negb (vn =? op.(op_base) + 1) then Unexpected t
        else closed (update_at (List.hd 0 values) (with_n_grouped 1) nodes) values s.(ps_predicates)
  end.

Definition parse_operator (s : parse_state) (i : Z) (t : query_token_t) : parsed :=
  let k := t.(tk_kind) in
  let slash := (k =? T_SLASH) || (k =? T_DESC) in
  if s.(ps_expected) && negb slash then Unexpected t
  else
    let '(nodes, values) :=
      if s.(ps_expected) then let '(nodes, root) := add_node s.(ps_nodes) Q_ROOT QUERY_NONE QUERY_NONE t in (nodes, root :: s.(ps_values))
      else (s.(ps_nodes), s.(ps_values)) in
    match reduce_while (fun p => precedence k <=? p) s.(ps_ops) nodes values tokens with
    | None => Unexpected t
    | Some (ops, nodes, values) =>
        Parsed (mk_parse nodes (mk_operator k (u32 i) 0 QUERY_NONE :: ops) values s.(ps_nesting) s.(ps_predicates) true slash) (i + 1)
    end.

Fixpoint axis_loop (names : list string) (axis : Z) (t : query_token_t) : Z :=
  match names with
  | [] => axis
  | name :: names => if query_word m text t.(tk_begin) t.(tk_end) name then axis else axis_loop names (axis + 1) t
  end.

Definition operand_op (k : Z) : option Z :=
  if k =? T_DOT then Some Q_SELF
  else if k =? T_DDOT then Some Q_TEST
  else if k =? T_META then Some Q_META
  else if k =? T_VARIABLE then Some Q_VARIABLE
  else if k =? T_BYTES then Some Q_BYTES
  else if k =? T_STRING then Some Q_STRING
  else if k =? T_WORD then Some Q_TEST
  else None.

(** The instruction of an operand. *)
Definition parse_step (s : parse_state) (i axis : Z) (t : query_token_t) : parsed :=
  match operand_op t.(tk_kind) with
  | None => Unexpected t
  | Some op =>
      let axis := if t.(tk_kind) =? T_DDOT then A_PARENT else axis in
      let outside := s.(ps_predicates) =? 0 in
      let op := if (op =? Q_SELF) && outside && negb s.(ps_after_path) then Q_ROOT else op in
      let '(nodes, n) := add_node s.(ps_nodes) op QUERY_NONE QUERY_NONE t in
      let nodes := update_at n (fun x => with_n_scalar (if outside then 0 else 1)
                     (with_n_anchor (if outside && negb s.(ps_after_path) then 1 else 0) (with_n_axis axis x))) nodes in
      if max_states <? zlen nodes then Too_many t
      else Parsed (mk_parse nodes s.(ps_ops) (n :: s.(ps_values)) s.(ps_nesting) s.(ps_predicates) false false) (i + 1)
  end.

Definition parse_operand (s : parse_state) (i : Z) (t : query_token_t) : parsed :=
  let k := t.(tk_kind) in
  let next := token_at tokens (i + 1) in
  if negb s.(ps_expected) then Unexpected t
  else if (k =? T_WORD) && (i + 1 <? zlen tokens) && (next.(tk_kind) =? T_OPEN) then
    if s.(ps_nesting) =? max_nesting then Too_deep t
    else
      Parsed (mk_parse s.(ps_nodes) (mk_operator T_OPEN (u32 (i + 1)) (u32 (zlen s.(ps_values))) (u32 i) :: s.(ps_ops)) s.(ps_values)
                (s.(ps_nesting) + 1) s.(ps_predicates) s.(ps_expected) false) (i + 2)
  else if (k =? T_WORD) && (i + 1 <? zlen tokens) && (next.(tk_kind) =? T_AXIS) then
    let axis := axis_loop query_axis_names 0 t in
    if A_PRECEDE <? axis then Unknown_axis t
    else if (zlen tokens <=? i + 2) || negb ((token_at tokens (i + 2)).(tk_kind) =? T_WORD) then Unexpected t
    else parse_step s (i + 2) axis (token_at tokens (i + 2))
  else parse_step s i A_CHILD t.

Definition parse_token (s : parse_state) (i : Z) : parsed :=
  let t := token_at tokens i in
  let k := t.(tk_kind) in
  if (k =? T_OPEN) || (k =? T_POPEN) then parse_open s i t
  else if (k =? T_CLOSE) || (k =? T_PCLOSE) then parse_close s i t
  else if negb (precedence k =? 0) then parse_operator s i t
  else parse_operand s i t.

Fixpoint parse_tokens (fuel : nat) (s : parse_state) (i : Z) : parse_state + parsed * bool :=
  match fuel with
  | O => inl s
  | S fuel =>
      if i <? zlen tokens then
        match parse_token s i with
        | Parsed s i => parse_tokens fuel s i
        | r => inr (r, s.(ps_expected))
        end
      else inl s
  end.

(** The instructions and the one that has the result. *)
Definition parse (d : option tlv_query_diagnostic_t)
  : tlv_result_t * option (list query_node_t * Z) * option tlv_query_diagnostic_t :=
  let fails (r : tlv_result_t * option tlv_query_diagnostic_t) := (fst r, None, snd r) in
  let syntax b e expected := fails (query_error d TLV_ERR_SYNTAX TLV_QUERY_ERROR_SYNTAX b e (Some expected)) in
  match parse_tokens (length tokens) (mk_parse [] [] [] 0 0 true false) 0 with
  | inr (Parsed _ _, _) => syntax 0 0 ""%string
  | inr (Unexpected t, expected) =>
      syntax t.(tk_begin) t.(tk_end) (if expected then "expression or step" else "operator or closing delimiter")%string
  | inr (Unknown_axis t, _) => syntax t.(tk_begin) t.(tk_end) "known axis"%string
  | inr (Too_deep t, _) => fails (query_limit d "nesting" max_nesting t.(tk_begin) t.(tk_end))
  | inr (Too_many t, _) => fails (query_limit d "states" max_states t.(tk_begin) t.(tk_end))
  | inl s =>
      if s.(ps_expected) || negb (s.(ps_nesting) =? 0) then
        let eof := match tokens with [] => 0 | _ => (token_at tokens (zlen tokens - 1)).(tk_end) end in
        syntax eof eof (if negb (s.(ps_nesting) =? 0) then "closing delimiter"%string else "expression"%string)
      else
        match reduce_while (fun _ => true) s.(ps_ops) s.(ps_nodes) s.(ps_values) tokens with
        | None => syntax 0 0 "complete expression operands"%string
        | Some (_, nodes, values) =>
            match values with
            | [root] =>
                if max_states <? zlen nodes then fails (query_limit d "states" max_states 0 0)
                else (TLV_OK, Some (nodes, root), d)
            | _ => syntax 0 0 "one expression result"%string
            end
        end
  end.
End Parse.

(** ** Guards *)

Section Guards.
Context (m : mem) (text : ptr).

(** [f] on the instructions from [low] to [high]. *)
Definition update_range (low high : Z) (f : query_node_t -> query_node_t) (nodes : list query_node_t) : list query_node_t :=
  imap (fun j n => if (low <=? Z.of_nat j) && (Z.of_nat j <=? high) then f n else n) nodes.

Definition is_node_test (step : query_node_t) : bool :=
  let named := query_word m text step.(n_begin) step.(n_end) in
  (step.(n_op) =? Q_TEST) || (step.(n_op) =? Q_SELF) || ((step.(n_op) =? Q_ROOT) && negb (step.(n_anchor) =? 0)) ||
  ((step.(n_op) =? Q_CALL) && (named "name"%string || named "tag-mask"%string || named "tag-range"%string)).

(** A step behind the operator [op] is guarded by what is in front of it. *)
Definition guard_step (op left : Z) (step : query_node_t) : query_node_t :=
  let step := if (step.(n_op) =? Q_ROOT) && (step.(n_anchor) =? 0) && (ld m text step.(n_begin) =? 47) then with_n_nested 1 step else step in
  if negb (step.(n_predicate_guard) =? QUERY_NONE) || negb (step.(n_path_guard) =? QUERY_NONE) then step
  else if negb (is_node_test step) then step
  else
    let step := if step.(n_op) =? Q_ROOT then with_n_op Q_SELF step else step in
    let kind := op in
    let kind := if (op =? Q_CHILD) && (step.(n_axis) =? A_DESC) then Q_DESC else kind in
    let kind := if (op =? Q_CHILD) && ((step.(n_op) =? Q_SELF) || (step.(n_axis) =? A_SELF)) then Q_SELF else kind in
    with_n_anchor 0 (with_path left kind step).

Definition guard_node (nodes : list query_node_t) (i : Z) : list query_node_t :=
  let n := query_at nodes i in
  let low := (query_at nodes n.(n_right)).(n_low) in
  if n.(n_op) =? Q_FILTER then update_range low n.(n_right) (with_n_predicate_guard n.(n_left)) nodes
  else if (n.(n_op) =? Q_CHILD) || (n.(n_op) =? Q_DESC) then update_range low n.(n_right) (guard_step n.(n_op) n.(n_left)) nodes
  else nodes.

Definition add_guards (nodes : list query_node_t) : list query_node_t :=
  fold_left guard_node (map Z.of_nat (seq 0 (length nodes))) nodes.
End Guards.
