(* ===== verification/QueryAnalyze.v ===== *)
(** * Options and analysis (query/compiler.c: options_check, tlv_query_compile_scratch, analyze)

    What the compiler is given, the check of it and the size of the scratch space; and the passes over the
    instructions that find literals, resolve names, collect constants, check types and fold.  A resolver of names is a
    function of the octets of the namespace, if there is one, and of the name.  The callbacks of an environment are
    those of the executor: the compiler looks only at which there are. *)

From Stdlib Require Import String.
From S2P Require Import Prelude Mem Core Format Diagnostic QueryPath QueryProgram QueryParser.

(** * Options *)

Record tlv_query_variable_t := mk_variable { qv_name : option string; qv_type : tlv_query_result_kind_t }.

Record tlv_query_hook_t := mk_hook { hk_id : Z; hk_function : Z; hk_scratch_size : Z; hk_scratch_alignment : Z }.

Record tlv_query_tag_adapter_t := mk_adapter { ta_id : Z; ta_class_of : bool; ta_number_of : bool }.

Record tlv_query_environment_t := mk_environment {
  qe_format : option tlv_format_t; qe_tags : option tlv_query_tag_adapter_t; qe_hooks : option (list tlv_query_hook_t); qe_hook_count : Z }.

Definition tlv_query_resolve_t : Type := option (list Z) -> list Z -> tlv_result_t * tlv_tag_t.

(** The size of the structure as its user knows it is [co_struct_size]. *)
Record tlv_query_compile_options_t := mk_options {
  co_struct_size : Z; co_language_version : Z; co_max_text : Z; co_max_tokens : Z; co_max_nesting : Z; co_max_states : Z;
  co_variables : option (list tlv_query_variable_t); co_variable_count : Z; co_resolve : option tlv_query_resolve_t;
  co_environment : option tlv_query_environment_t; co_max_resolved_tag : Z; co_max_pattern : Z; co_optimize : bool }.

(** The sizes of structures. *)
Class QueryLayout := {
  sizeof_options : Z; sizeof_info : Z; sizeof_query_diagnostic : Z; info_prefix : Z; query_candidate_size : Z; query_candidate_alignment : Z }.

Definition default_options `{QueryLayout} : tlv_query_compile_options_t :=
  mk_options sizeof_options 1 65536 8192 128 8192 None 0 None None 512 4096 true.

Definition tlv_query_compile_options_init `{QueryLayout} (o : option tlv_query_compile_options_t) : option tlv_query_compile_options_t :=
  match o with None => None | Some _ => Some default_options end.

(** ** The check *)

Definition name_octets (name : string) : list Z := Diagnostic.text name.

(** What is wrong with a declaration, in front of which are [earlier]. *)
Definition variable_error (earlier : list tlv_query_variable_t) (v : tlv_query_variable_t) : option string :=
  match v.(qv_name) with
  | None => Some "named integer, bytes or string variable"%string
  | Some name =>
      if negb (identifier_start (byte_at (name_octets name) 0)) ||
         match v.(qv_type) with TLV_QUERY_RESULT_INTEGER | TLV_QUERY_RESULT_BYTES | TLV_QUERY_RESULT_STRING => false | _ => true end
      then Some "named integer, bytes or string variable"%string
      else if negb (forallb identifier_continue (name_octets name)) then Some "variable identifier"%string
      else if existsb (fun u => Prelude.lex (name_octets name) (name_octets (default EmptyString u.(qv_name))) =? 0) earlier then Some "unique variable declaration"%string
      else None
  end.

Fixpoint variables_error (earlier variables : list tlv_query_variable_t) : option string :=
  match variables with
  | [] => None
  | v :: variables =>
      match variable_error earlier v with Some e => Some e | None => variables_error (earlier ++ [v]) variables end
  end.

Definition hook_invalid (earlier : list tlv_query_hook_t) (h : tlv_query_hook_t) : bool :=
  (h.(hk_id) =? 0) || (3 <? h.(hk_function)) || (h.(hk_scratch_alignment) =? 0) || (16 <? h.(hk_scratch_alignment)) ||
  negb (Z.land h.(hk_scratch_alignment) (h.(hk_scratch_alignment) - 1) =? 0) || (UINT32_MAX - 15 <? h.(hk_scratch_size)) ||
  existsb (fun k => (k.(hk_id) =? h.(hk_id)) || (k.(hk_function) =? h.(hk_function))) earlier.

Fixpoint hooks_invalid (earlier hooks : list tlv_query_hook_t) : bool :=
  match hooks with
  | [] => false
  | h :: hooks => hook_invalid earlier h || hooks_invalid (earlier ++ [h]) hooks
  end.

Definition environment_hooks (e : tlv_query_environment_t) : list tlv_query_hook_t :=
  take (Z.to_nat e.(qe_hook_count)) (default [] e.(qe_hooks)).

Definition option_variables (o : tlv_query_compile_options_t) : list tlv_query_variable_t :=
  take (Z.to_nat o.(co_variable_count)) (default [] o.(co_variables)).

Definition environment_invalid (o : tlv_query_compile_options_t) : bool :=
  match o.(co_environment) with
  | None => false
  | Some e =>
      (o.(co_max_states) <? e.(qe_hook_count)) || (negb (e.(qe_hook_count) =? 0) && negb (is_some e.(qe_hooks))) ||
      hooks_invalid [] (environment_hooks e)
  end.

(** The result, and the options in effect. *)
Definition options_check `{QueryLayout} (supplied : option tlv_query_compile_options_t) (size : Z) (d : option tlv_query_diagnostic_t)
  : tlv_result_t * tlv_query_compile_options_t * option tlv_query_diagnostic_t :=
  let fails o kind expected := let '(rc, d) := query_error_unlocated d TLV_ERR_INVALID_ARG kind (Some expected) in (rc, o, d) in
  let o := default default_options supplied in
  if match supplied with
     | None => false
     | Some s => negb (s.(co_struct_size) =? sizeof_options) || negb (s.(co_language_version) =? 1) || (s.(co_max_text) =? 0) ||
                 (s.(co_max_tokens) =? 0) || (s.(co_max_nesting) =? 0) || (s.(co_max_states) =? 0)
     end then fails default_options TLV_QUERY_ERROR_STORAGE "initialized language-version 1 options"%string
  else if (o.(co_max_states) <? o.(co_variable_count)) || (negb (o.(co_variable_count) =? 0) && negb (is_some o.(co_variables))) then
    fails o TLV_QUERY_ERROR_BINDING "bounded variable declarations"%string
  else
    match variables_error [] (option_variables o) with
    | Some e => fails o TLV_QUERY_ERROR_BINDING e
    | None =>
        if (o.(co_max_resolved_tag) =? 0) || (UINT32_MAX <? o.(co_max_resolved_tag)) || (UINT32_MAX <? o.(co_max_pattern)) then
          fails o TLV_QUERY_ERROR_STORAGE "bounded capabilities"%string
        else if environment_invalid o then fails o TLV_QUERY_ERROR_CAPABILITY "valid bounded unique codec hooks"%string
        else if o.(co_max_text) <? size then let '(rc, d) := query_limit d "text" o.(co_max_text) 0 size in (rc, o, d)
        else if UINT32_MAX <=? size then
          let '(rc, d) := query_error_unlocated d TLV_ERR_OVERFLOW TLV_QUERY_ERROR_STORAGE (Some "representable Query text size"%string) in
          (rc, o, d)
        else (TLV_OK, o, d)
    end.

(** ** Scratch space *)

(** A token, two instructions, an operator and a value. *)
Definition scratch_unit : Z := 12 + 2 * NODE_SIZE + 16 + 4.

(** Objects of the caller's, each an address and a size; the outputs first. *)
Fixpoint outputs_overlap (outputs inputs : list (ptr * Z)) : bool :=
  match outputs with
  | [] => false
  | (a, n) :: outputs =>
      existsb (fun '(b, k) => query_overlap a n b k) inputs || existsb (fun '(b, k) => query_overlap a n b k) outputs ||
      outputs_overlap outputs inputs
  end.

(** The outputs are [bytes] and [alignment]; [written] and [read] are where the outputs, and the text and the options, are. *)
Definition tlv_query_compile_scratch `{Platform} `{QueryLayout} (m : mem) (pending : list Z) (text : ptr) (size : Z)
  (options : option tlv_query_compile_options_t) (written read : list (ptr * Z)) (outputs : option (Z * Z)) (d : option tlv_query_diagnostic_t)
  : option (tlv_result_t * option (Z * Z) * option tlv_query_diagnostic_t) :=
  let fails code expected d :=
    let '(rc, d) := query_error_unlocated d code TLV_QUERY_ERROR_STORAGE (Some expected) in Some (rc, outputs, d) in
  if outputs_overlap written read then Some (TLV_ERR_INVALID_ARG, outputs, d)
  else
    let d := query_diag_init d in
    if is_null text || negb (is_some outputs) then fails TLV_ERR_NULL_ARG "required compiler arguments"%string d
    else
      let '(rc, o, d) := options_check options size d in
      if negb (is_ok rc) then Some (rc, outputs, d)
      else
        match lex m text size o.(co_max_tokens) pending d false None with
        | None => None
        | Some r =>
            let d := r.(lx_diagnostic) in
            if negb (is_ok r.(lx_code)) then Some (r.(lx_code), outputs, d)
            else
              let count := zlen r.(lx_tokens) in
              if (UINT32_MAX / 2 <=? count) || (SIZE_MAX / scratch_unit - 1 <? count) then
                fails TLV_ERR_OVERFLOW "representable compile scratch size"%string d
              else
                let base := (count + 1) * scratch_unit in
                if (SIZE_MAX - base <? size) || ((SIZE_MAX - base - size) / o.(co_max_resolved_tag) <? count) then
                  fails TLV_ERR_OVERFLOW "representable compiler storage size"%string d
                else Some (TLV_OK, Some (base + size + count * o.(co_max_resolved_tag), 4), d)
        end.

(** * Types and constants of the query language (query/compiler.c: analyze)

    The passes over the instructions that find literals, resolve names, collect constants, check types and fold. *)

Record analysis := mk_analysis { an_nodes : list query_node_t; an_payload : list Z; an_stride : Z; an_optimized : Z; an_level : Z }.

Definition with_level (level : Z) (a : analysis) : analysis := mk_analysis a.(an_nodes) a.(an_payload) a.(an_stride) a.(an_optimized) level.
Definition with_payload (more : list Z) (a : analysis) : analysis :=
  mk_analysis a.(an_nodes) (a.(an_payload) ++ more) a.(an_stride) a.(an_optimized) a.(an_level).
Definition with_nodes (nodes : list query_node_t) (a : analysis) : analysis := mk_analysis nodes a.(an_payload) a.(an_stride) a.(an_optimized) a.(an_level).
Definition count_optimized (a : analysis) : analysis := mk_analysis a.(an_nodes) a.(an_payload) a.(an_stride) (a.(an_optimized) + 1) a.(an_level).

(** What a failure leaves: its result and diagnostic, and the state with the instruction it was met at. *)
Record failure := mk_failure { fl_code : tlv_result_t; fl_diagnostic : option tlv_query_diagnostic_t; fl_node : query_node_t; fl_analysis : analysis }.

Definition outcome (A : Type) : Type := A + failure.
Notation "'try' x := e 'in' k" := (match e with inl x => k | inr r => inr r end) (at level 10, x pattern, k at level 200).

(** The offset of what is added. *)
Definition payload_end (a : analysis) : Z := zlen a.(an_payload).

(** [None] is an arity above three. *)
Fixpoint call_args_loop (fuel : nat) (nodes : list query_node_t) (cursor : Z) (args : list Z) : option (list Z) :=
  if cursor =? QUERY_NONE then Some args
  else if (query_at nodes cursor).(n_op) =? Q_ARGS then
    if zlen args =? 2 then None
    else match fuel with O => None | S fuel => call_args_loop fuel nodes (query_at nodes cursor).(n_left) ((query_at nodes cursor).(n_right) :: args) end
  else Some (cursor :: args).

Definition call_args (nodes : list query_node_t) (n : query_node_t) : option (list Z) := call_args_loop 3 nodes n.(n_left) [].

Section Analyze.
Context `{QueryConfig} (m : mem) (text : ptr) (o : tlv_query_compile_options_t) (d : option tlv_query_diagnostic_t).

Definition span (n : query_node_t) : list Z := bytes_of m (text +p n.(n_begin)) (n.(n_end) - n.(n_begin)).

Definition fail_with {A} (n : query_node_t) (a : analysis) (r : tlv_result_t * option tlv_query_diagnostic_t) : outcome A :=
  inr (mk_failure (fst r) (snd r) n a).
Definition node_error {A} (n : query_node_t) (a : analysis) (code : tlv_result_t) (kind : tlv_query_error_kind_t) (expected : string) : outcome A :=
  fail_with n a (query_error d code kind n.(n_begin) n.(n_end) (Some expected)).
Definition syntax {A} (n : query_node_t) (a : analysis) : outcome A := node_error n a TLV_ERR_SYNTAX TLV_QUERY_ERROR_SYNTAX "valid Query operand/arity"%string.
Definition types {A} (n : query_node_t) (a : analysis) : outcome A := node_error n a TLV_ERR_INVALID_VALUE TLV_QUERY_ERROR_TYPE "compatible expression types"%string.
Definition unsupported {A} (n : query_node_t) (a : analysis) (expected : string) : outcome A := node_error n a TLV_ERR_UNSUPPORTED TLV_QUERY_ERROR_CAPABILITY expected.
Definition limited {A} (n : query_node_t) (a : analysis) (name : string) (configured : Z) : outcome A :=
  fail_with n a (query_limit d name configured n.(n_begin) n.(n_end)).

(** ** Literals *)

Definition initial_analysis (nodes : list query_node_t) : analysis := mk_analysis nodes [] 0 0 TLV_QUERY_S0.

Fixpoint skip_back (n : nat) (prefix : Z) : Z :=
  match n with
  | O => prefix
  | S n => if negb (prefix =? 0) && whitespace (ld m text (prefix - 1)) then skip_back n (prefix - 1) else prefix
  end.

Definition is_digit (c : Z) : bool := (48 <=? c) && (c <=? 57).

(** Digits that are not the test of an axis. *)
Definition decimal (n : query_node_t) : bool :=
  let b := n.(n_begin) in
  let prefix := skip_back (Z.to_nat b) b in
  if (2 <=? prefix) && (ld m text (prefix - 1) =? 58) && (ld m text (prefix - 2) =? 58) then false
  else
    let b := if ld m text b =? 45 then b + 1 else b in
    if b =? n.(n_end) then false else forallb is_digit (bytes_of m (text +p b) (n.(n_end) - b)).

Definition is_decimal_test (n : query_node_t) : bool := (n.(n_op) =? Q_TEST) && decimal n.

Definition make_literal (anchor : option Z) (nodes : list query_node_t) (i : Z) : list query_node_t :=
  if is_decimal_test (query_at nodes i) then
    update_at i (fun n => match anchor with Some a => with_n_anchor a (with_n_op Q_LITERAL n) | None => with_n_op Q_LITERAL n end) nodes
  else nodes.

Definition is_word (n : query_node_t) (word : string) : bool := query_word m text n.(n_begin) n.(n_end) word.

(** Operands that are numbers or truth values, around the instruction [i]. *)
Definition literal_node (nodes : list query_node_t) (i : Z) : outcome (list query_node_t) :=
  let n := query_at nodes i in
  let a := initial_analysis nodes in
  if negb OPENTLV_QUERY_SET_OPERATIONS && (Q_UNION <=? n.(n_op)) && (n.(n_op) <=? Q_EXCEPT) then unsupported n a "Query set operations enabled"%string
  else
    let nodes := if (Q_EQ <=? n.(n_op)) && (n.(n_op) <=? Q_GE) then make_literal None (make_literal None nodes n.(n_left)) n.(n_right) else nodes in
    let nodes := if n.(n_op) =? Q_FILTER then make_literal (Some 2) nodes n.(n_right) else nodes in
    try nodes :=
      (if (n.(n_op) =? Q_CALL) && (query_function_kind m text n =? F_SUBSTR) then
         match call_args nodes n with
         | None => node_error n a TLV_ERR_SYNTAX TLV_QUERY_ERROR_SYNTAX "at most three function arguments"%string
         | Some args => inl (fold_left (make_literal None) (List.tl args) nodes)
         end
       else inl nodes : outcome (list query_node_t)) in
    inl (if (n.(n_op) =? Q_TEST) && (is_word n "true"%string || is_word n "false"%string)
         then update_at i (fun n => with_n_folded (if ld m text n.(n_begin) =? 116 then 1 else 0) (with_n_op Q_BOOL n)) nodes else nodes).

Fixpoint literal_pass (indices : list Z) (nodes : list query_node_t) : outcome (list query_node_t) :=
  match indices with
  | [] => inl nodes
  | i :: indices => try nodes := literal_node nodes i in literal_pass indices nodes
  end.

(** ** Tests of tags *)

(** What a resolver says. *)
Definition resolved_tag (n : query_node_t) (a : analysis) (namespace : option (list Z)) (name : list Z) (expected : string) (missing : string)
  : outcome (list Z) :=
  match o.(co_resolve) with
  | None => unsupported n a missing
  | Some resolve =>
      let '(rc, tag) := resolve namespace name in
      let rc := tlv_callback_result rc false in
      if negb (is_ok rc) then node_error n a rc TLV_QUERY_ERROR_CAPABILITY expected
      else if (tag.(t_size) =? 0) || is_null tag.(t_data) then
        node_error n a TLV_ERR_CALLBACK TLV_QUERY_ERROR_CALLBACK "nonempty resolver identifier"%string
      else if o.(co_max_resolved_tag) <? tag.(t_size) then limited n a "resolved-tag"%string o.(co_max_resolved_tag)
      else inl (tag_bytes m tag)
  end.

(** The octets up to a colon and behind it. *)
Fixpoint split_colon (l : list Z) : list Z * option (list Z) :=
  match l with
  | [] => ([], None)
  | c :: l => if c =? 58 then ([], Some l) else let '(a, b) := split_colon l in (c :: a, b)
  end.

Definition resolve_name (n : query_node_t) (a : analysis) : outcome (list Z) :=
  let '(namespace, name) :=
    match split_colon (span n) with (x, Some y) => (Some x, y) | (x, None) => (None, x) end in
  resolved_tag n a namespace name "one unambiguous symbolic name"%string "compile-time name resolver"%string.

Definition hex_pair (a b : Z) : bool := (0 <=? query_hex a) && (0 <=? query_hex b).

Fixpoint pairs_valid (l : list Z) : bool :=
  match l with
  | a :: b :: l => (((a =? 63) && (b =? 63)) || hex_pair a b) && pairs_valid l
  | _ => true
  end.
Fixpoint pair_bytes (l : list Z) : list Z :=
  match l with
  | a :: b :: l => (if a =? 63 then 0 else u8 (query_hex a * 16 + query_hex b)) :: pair_bytes l
  | _ => []
  end.
Fixpoint pair_masks (l : list Z) : list Z :=
  match l with
  | a :: _ :: l => (if a =? 63 then 0 else 255) :: pair_masks l
  | _ => []
  end.

(** The tag a test asks for: any, one, or one under a mask. *)
Definition analyze_test (n : query_node_t) (a : analysis) : outcome (query_node_t * analysis) :=
  if negb (forallb (fun c => negb ((query_hex c <? 0) && negb (c =? 63) && negb (c =? 42))) (span n)) then
    try tag := resolve_name n a in
    inl (with_data (payload_end a) (zlen tag) (with_n_resolved 1 n), with_payload tag a)
  else if (n.(n_end) - n.(n_begin) =? 1) && (ld m text n.(n_begin) =? 42) then inl (n, a)
  else if negb ((n.(n_end) - n.(n_begin)) mod 2 =? 0) || negb (pairs_valid (span n)) then syntax n a
  else
    let bytes := pair_bytes (span n) in
    let n := with_data (payload_end a) ((n.(n_end) - n.(n_begin)) / 2) (with_n_resolved 2 n) in
    let a := with_payload bytes a in
    inl (with_n_mask (payload_end a) n, with_payload (pair_masks (span n)) a).

(** ** Constants *)

Fixpoint find_variable (name : list Z) (variables : list tlv_query_variable_t) : option tlv_query_result_kind_t :=
  match variables with
  | [] => None
  | v :: variables =>
      if Prelude.lex name (name_octets (default EmptyString v.(qv_name))) =? 0 then Some v.(qv_type) else find_variable name variables
  end.

Definition analyze_variable (n : query_node_t) (a : analysis) : outcome (query_node_t * analysis) :=
  let name := List.tl (span n) in
  let n := with_data (payload_end a) (n.(n_end) - n.(n_begin) - 1) n in
  let a := with_payload name a in
  match find_variable name (option_variables o) with
  | None => node_error n a TLV_ERR_INVALID_VALUE TLV_QUERY_ERROR_BINDING "declared typed variable"%string
  | Some type => inl (with_node_type (query_private_type type) n, a)
  end.

(** The value of digits, or which of the two errors. *)
Fixpoint literal_value (l : list Z) (maximum value : Z) : Z + bool :=
  match l with
  | [] => inl value
  | c :: l =>
      let digit := u32 (c - 48) in
      if 9 <? digit then inr false
      else if (maximum - digit) / 10 <? value then inr true
      else literal_value l maximum (value * 10 + digit)
  end.

Definition analyze_literal (n : query_node_t) (a : analysis) : outcome (query_node_t * analysis) :=
  let negative := if ld m text n.(n_begin) =? 45 then 1 else 0 in
  match literal_value (drop (Z.to_nat negative) (span n)) (INT64_MAX + negative) 0 with
  | inr false => node_error n a TLV_ERR_SYNTAX TLV_QUERY_ERROR_SYNTAX "decimal literal"%string
  | inr true => node_error n a TLV_ERR_OVERFLOW TLV_QUERY_ERROR_TYPE "signed int64"%string
  | inl value =>
      inl (with_immediate (u32 value) (u32 (Z.shiftr value 32)) (if value =? 0 then 0 else negative) n,
           if n.(n_anchor) =? 2 then with_level TLV_QUERY_D a else a)
  end.

Fixpoint unescape (n : nat) (j e : Z) : list Z :=
  match n with
  | O => []
  | S n =>
      if j <? e then let j := if ld m text j =? 92 then j + 1 else j in ld m text j :: unescape n (j + 1) e
      else []
  end.

Definition analyze_constant (n : query_node_t) (a : analysis) : query_node_t * analysis :=
  let data :=
    if n.(n_op) =? Q_BYTES then pair_bytes (bytes_of m (text +p (n.(n_begin) + 2)) (n.(n_end) - n.(n_begin) - 3))
    else unescape (Z.to_nat (n.(n_end) - n.(n_begin))) (n.(n_begin) + 1) (n.(n_end) - 1) in
  (with_data (payload_end a) (zlen data) (with_node_type (if n.(n_op) =? Q_BYTES then V_BYTES else V_STRING) n), with_payload data a).

(** ** Calls *)

Definition data_of (a : analysis) (n : query_node_t) : list Z := take (Z.to_nat n.(n_data_size)) (drop (Z.to_nat n.(n_data_offset)) a.(an_payload)).

(** The call of [name] becomes the test of the tag it names. *)
Definition analyze_name (n : query_node_t) (args : list Z) (a : analysis) : outcome (query_node_t * analysis) :=
  let ns := query_at a.(an_nodes) (List.hd 0 args) in
  let symbol := query_at a.(an_nodes) (List.hd 0 (List.tl args)) in
  if negb (zlen args =? 2) || negb (ns.(n_op) =? Q_STRING) || negb (symbol.(n_op) =? Q_STRING) then types n a
  else
    try tag := resolved_tag n a (Some (data_of a ns)) (data_of a symbol) "one symbolic name"%string "name resolver"%string in
    let n := with_data (payload_end a) (zlen tag) (with_n_resolved 1 (with_operands QUERY_NONE QUERY_NONE (with_n_op Q_TEST n))) in
    let a := with_payload tag a in
    inl (n, if negb (n.(n_scalar) =? 0) || negb (n.(n_predicate_guard) =? QUERY_NONE) || negb (n.(n_axis) =? A_CHILD)
            then with_level TLV_QUERY_D a else a).

Definition arity_invalid (f arity : Z) : bool :=
  (((f =? F_VALUE) || (f =? F_LEN) || (f =? F_TAG) || (f =? F_CLASS) || (f =? F_NUMBER) || (f =? F_CONSTRUCTED)) && (1 <? arity)) ||
  (((f =? F_NOT) || (f =? F_COUNT) || (f =? F_EXISTS) || (f =? F_EMPTY) || ((F_NUM <=? f) && (f <=? F_DATE))) && negb (arity =? 1)) ||
  (((f =? F_POSITION) || (f =? F_LAST)) && negb (arity =? 0)) ||
  (((f =? F_STARTS) || (f =? F_ENDS) || (f =? F_CONTAINS) || (f =? F_MASK) || (f =? F_RANGE)) && negb (arity =? 2)) ||
  ((f =? F_SUBSTR) && negb (arity =? 2) && negb (arity =? 3)).

Definition find_hook (f : Z) : option tlv_query_hook_t :=
  match o.(co_environment) with
  | None => None
  | Some e => fold_left (fun found h => if h.(hk_function) =? f - F_NUM then Some h else found) (environment_hooks e) None
  end.

Definition analyze_conversion (n : query_node_t) (type : Z) (a : analysis) : outcome (query_node_t * analysis) :=
  if negb (type =? V_NODE) && negb (type =? V_BYTES) then types n a
  else
    match find_hook n.(n_selector) with
    | None => unsupported n a "conversion provider"%string
    | Some hook =>
        let scratch := u32 (Z.land (hook.(hk_scratch_size) + 15) (Z.lnot 15)) in
        inl (with_hook hook.(hk_id) scratch n,
             mk_analysis a.(an_nodes) a.(an_payload) (if a.(an_stride) <? scratch then scratch else a.(an_stride)) a.(an_optimized) TLV_QUERY_D)
    end.

(** The functions of two constants or spans. *)
Definition analyze_pair (n x y : query_node_t) (a : analysis) : outcome (query_node_t * analysis) :=
  let f := n.(n_selector) in
  if negb (x.(n_type) =? V_BYTES) || negb (y.(n_type) =? V_BYTES) then types n a
  else if ((f =? F_MASK) || (f =? F_RANGE)) && (negb (x.(n_op) =? Q_BYTES) || negb (y.(n_op) =? Q_BYTES)) then types n a
  else if (f =? F_CONTAINS) && (y.(n_op) =? Q_BYTES) && (o.(co_max_pattern) <? y.(n_data_size)) then limited n a "pattern"%string o.(co_max_pattern)
  else if (f =? F_MASK) && negb (x.(n_data_size) =? y.(n_data_size)) then syntax n a
  else if (f =? F_RANGE) &&
          (let size := Z.to_nat (Z.min x.(n_data_size) y.(n_data_size)) in
           let order := Prelude.lex (take size (data_of a x)) (take size (data_of a y)) in
           (0 <? order) || ((order =? 0) && (y.(n_data_size) <? x.(n_data_size)))) then syntax n a
  else inl (n, a).

(** The semantic providers a function needs. *)
Definition analyze_provider (n : query_node_t) (a : analysis) : outcome (query_node_t * analysis) :=
  let f := n.(n_selector) in
  let a := if f =? F_TAG then with_level TLV_QUERY_D a else a in
  try a :=
    (if (f =? F_CLASS) || (f =? F_NUMBER) then
       match match o.(co_environment) with Some e => e.(qe_tags) | None => None end with
       | None => unsupported n a "semantic tag provider"%string
       | Some tags =>
           if (tags.(ta_id) =? 0) || negb (if f =? F_CLASS then tags.(ta_class_of) else tags.(ta_number_of)) then unsupported n a "semantic tag provider"%string
           else inl (with_level TLV_QUERY_D a)
       end
     else inl a : outcome analysis) in
  if f =? F_CONSTRUCTED then
    match o.(co_environment) with
    | Some {| qe_format := None |} => unsupported n a "Format for constructed predicate"%string
    | _ => inl (n, with_level TLV_QUERY_D a)
    end
  else inl (n, a).

Definition analyze_arguments (n : query_node_t) (args : list Z) (a : analysis) : outcome (query_node_t * analysis) :=
  let f := n.(n_selector) in
  let arity := zlen args in
  let arg j := query_at a.(an_nodes) (nth j args 0) in
  let type j := (arg j).(n_type) in
  if (f =? F_VALUE) || (f =? F_TAG) || (f =? F_CLASS) || (f =? F_NUMBER) || (f =? F_CONSTRUCTED) then
    if negb (arity =? 0) && negb (type 0%nat =? V_NODE) then types n a
    else inl (n, if negb (arity =? 0) then with_level TLV_QUERY_D a else a)
  else if f =? F_LEN then
    if negb (arity =? 0) && negb (type 0%nat =? V_BYTES) && negb (type 0%nat =? V_STRING) then types n a else inl (n, a)
  else if f =? F_NOT then
    if negb (type 0%nat =? V_BOOL) && negb (type 0%nat =? V_NODE) then types n a else inl (n, a)
  else if (f =? F_COUNT) || (f =? F_EXISTS) || (f =? F_EMPTY) then
    if negb (type 0%nat =? V_NODE) then types n a else inl (n, with_level TLV_QUERY_D a)
  else if (f =? F_POSITION) || (f =? F_LAST) then inl (n, with_level TLV_QUERY_D a)
  else if (F_NUM <=? f) && (f <=? F_DATE) then analyze_conversion n (type 0%nat) a
  else if f =? F_SUBSTR then
    if negb (type 0%nat =? V_BYTES) || negb (type 1%nat =? V_NUMBER) || ((arity =? 3) && negb (type 2%nat =? V_NUMBER)) then types n a
    else inl (n, a)
  else if (f =? F_STARTS) || (f =? F_ENDS) || (f =? F_CONTAINS) || (f =? F_MASK) || (f =? F_RANGE) then
    analyze_pair n (arg 0%nat) (arg 1%nat) a
  else inl (n, a).

(** The second component is whether the instruction is finished: it became a test. *)
Definition analyze_call (n : query_node_t) (a : analysis) : outcome (query_node_t * analysis * bool) :=
  let f := n.(n_selector) in
  match call_args a.(an_nodes) n with
  | None => syntax n a
  | Some args =>
      if f =? F_NAME then try (n, a) := analyze_name n args a in inl (n, a, true)
      else if f =? F_UNKNOWN then unsupported n a "closed supported Query function"%string
      else if arity_invalid f (zlen args) then syntax n a
      else
        let a := if ((f =? F_MASK) || (f =? F_RANGE)) && negb (n.(n_predicate_guard) =? QUERY_NONE) then with_level TLV_QUERY_S2 a else a in
        let n := with_node_type (function_type f) n in
        try (n, a) := analyze_arguments n args a in
        try (n, a) := analyze_provider n a in
        inl (n, a, false)
  end.

(** ** Operators *)

Definition is_navigation (op : Z) : bool :=
  (op =? Q_CHILD) || (op =? Q_DESC) || (op =? Q_UNION) || (op =? Q_INTERSECT) || (op =? Q_EXCEPT).
Definition is_comparison (op : Z) : bool := (Q_EQ <=? op) && (op <=? Q_GE).
Definition is_connective (op : Z) : bool := (op =? Q_AND) || (op =? Q_OR).
Definition truth_type (type : Z) : bool := (type =? V_BOOL) || (type =? V_NODE).

Definition analyze_operator (n : query_node_t) (a : analysis) : outcome analysis :=
  let x := query_at a.(an_nodes) n.(n_left) in
  let y := query_at a.(an_nodes) n.(n_right) in
  if is_navigation n.(n_op) && (negb (x.(n_type) =? V_NODE) || negb (y.(n_type) =? V_NODE)) then types n a
  else
    let a := if (n.(n_op) =? Q_FILTER) && query_reverse_axis x.(n_axis) then with_level TLV_QUERY_D a else a in
    if (n.(n_op) =? Q_FILTER) && (negb (x.(n_type) =? V_NODE) || (negb (truth_type y.(n_type)) && negb (y.(n_type) =? V_NUMBER))) then types n a
    else if is_comparison n.(n_op) && (negb (x.(n_type) =? y.(n_type)) || (x.(n_type) =? V_NODE)) then types n a
    else if is_connective n.(n_op) && (negb (truth_type x.(n_type)) || negb (truth_type y.(n_type))) then types n a
    else inl a.

(** The value of a literal again, from its text. *)
Definition signed_literal (n : query_node_t) : Z :=
  let negative := ld m text n.(n_begin) =? 45 in
  let v := fold_left (fun v c => u64 (v * 10 + u32 (c - 48))) (drop (if negative then 1 else 0)%nat (span n)) 0 in
  if negative then - v else v.

(** The order of two constants. *)
Definition constant_order (x y : query_node_t) (a : analysis) : option Z :=
  if (x.(n_op) =? Q_LITERAL) && (y.(n_op) =? Q_LITERAL) then
    Some (let u := signed_literal x in let v := signed_literal y in if u <? v then -1 else if v <? u then 1 else 0)
  else if ((x.(n_op) =? Q_BYTES) || (x.(n_op) =? Q_STRING)) && (x.(n_op) =? y.(n_op)) then
    let size := Z.to_nat (Z.min x.(n_data_size) y.(n_data_size)) in
    let order := Prelude.lex (take size (data_of a x)) (take size (data_of a y)) in
    Some (if order =? 0 then (if x.(n_data_size) <? y.(n_data_size) then -1 else if y.(n_data_size) <? x.(n_data_size) then 1 else 0) else order)
  else None.

Definition comparison_holds (op order : Z) : bool :=
  if op =? Q_EQ then order =? 0
  else if op =? Q_NE then negb (order =? 0)
  else if op =? Q_LT then order <? 0
  else if op =? Q_LE then order <=? 0
  else if op =? Q_GT then 0 <? order
  else 0 <=? order.

Definition fold_to (b : bool) (n : query_node_t) : query_node_t :=
  with_operands QUERY_NONE QUERY_NONE (with_n_op Q_BOOL (with_n_folded (if b then 1 else 0) n)).

(** The first earlier test that is the same. *)
Definition same_test (n a : query_node_t) : bool :=
  (a.(n_op) =? Q_TEST) && (a.(n_axis) =? n.(n_axis)) && (a.(n_anchor) =? n.(n_anchor)) && (a.(n_scalar) =? n.(n_scalar)) &&
  (a.(n_predicate_guard) =? n.(n_predicate_guard)) && (a.(n_path_guard) =? n.(n_path_guard)) && (a.(n_path_kind) =? n.(n_path_kind)) &&
  (a.(n_end) - a.(n_begin) =? n.(n_end) - n.(n_begin)) && (Prelude.lex (span a) (span n) =? 0).

Fixpoint find_test (nodes : list query_node_t) (n : query_node_t) (j : Z) : option Z :=
  match nodes with
  | [] => None
  | x :: nodes => if same_test n x then Some j else find_test nodes n (j + 1)
  end.

Definition optimize_comparison (n : query_node_t) (a : analysis) : query_node_t * analysis :=
  if is_comparison n.(n_op) then
    match constant_order (query_at a.(an_nodes) n.(n_left)) (query_at a.(an_nodes) n.(n_right)) a with
    | Some order => (fold_to (comparison_holds n.(n_op) order) n, count_optimized a)
    | None => (n, a)
    end
  else (n, a).

(** A dot at the end of a path is a filter that lets everything through. *)
Definition optimize_dot (n : query_node_t) (a : analysis) : query_node_t * analysis :=
  if (n.(n_op) =? Q_CHILD) && ((query_at a.(an_nodes) n.(n_right)).(n_op) =? Q_SELF) then
    (with_n_op Q_FILTER n,
     count_optimized (with_nodes (update_at n.(n_right) (fun dot => with_n_folded 1 (with_node_type V_BOOL (with_n_op Q_BOOL dot))) a.(an_nodes)) a))
  else (n, a).

Definition optimize_connective (n : query_node_t) (a : analysis) : query_node_t * analysis :=
  let x := query_at a.(an_nodes) n.(n_left) in
  let y := query_at a.(an_nodes) n.(n_right) in
  if is_connective n.(n_op) && (x.(n_op) =? Q_BOOL) && (y.(n_op) =? Q_BOOL) then
    let b u := negb (u.(n_folded) =? 0) in
    (fold_to (if n.(n_op) =? Q_AND then b x && b y else b x || b y) n, count_optimized a)
  else (n, a).

Definition optimize_test (n : query_node_t) (i : Z) (a : analysis) : query_node_t * analysis :=
  if n.(n_op) =? Q_TEST then
    match find_test (take (Z.to_nat i) a.(an_nodes)) n 0 with
    | Some j => (with_n_reuse j n, count_optimized a)
    | None => (n, a)
    end
  else (n, a).

Definition optimize_node (n : query_node_t) (i : Z) (a : analysis) : query_node_t * analysis :=
  if o.(co_optimize) then
    let '(n, a) := optimize_comparison n a in
    let '(n, a) := optimize_dot n a in
    let '(n, a) := optimize_connective n a in
    optimize_test n i a
  else (n, a).

(** ** The pass *)

Definition meta_names : list string := ["@len"; "@depth"; "@index"; "@offset"; "@hlen"]%string.

Fixpoint meta_loop (names : list string) (j : Z) (n : query_node_t) : option Z :=
  match names with
  | [] => None
  | name :: names => if is_word n name then Some j else meta_loop names (j + 1) n
  end.

(** The fields that are set for every instruction. *)
Definition analyze_start (n : query_node_t) (a : analysis) : query_node_t :=
  let dot := ((n.(n_op) =? Q_ROOT) || (n.(n_op) =? Q_SELF) || (n.(n_op) =? Q_TEST)) && (ld m text n.(n_begin) =? 46) in
  let n := with_n_context (if dot then 1 else 0) (with_node_type V_NODE n) in
  let n := if n.(n_op) =? Q_CALL then with_n_selector (query_function_kind m text n) n else n in
  let n := if n.(n_op) =? Q_META then match meta_loop meta_names 0 n with Some j => with_n_selector j n | None => n end else n in
  if (n.(n_op) =? Q_TEST) && (n.(n_axis) =? A_PARENT) && (n.(n_end) - n.(n_begin) =? 2) &&
     (ld m text n.(n_begin) =? 46) && (ld m text (n.(n_begin) + 1) =? 46)
  then with_data (payload_end a) 0 (with_n_resolved 0 n) else n.

(** Operands: tests, variables, metadata and constants. *)
Definition analyze_operand (n : query_node_t) (a : analysis) : outcome (query_node_t * analysis) :=
  try (n, a) :=
    (if (n.(n_op) =? Q_TEST) && (n.(n_resolved) =? 0) && (n.(n_context) =? 0) then analyze_test n a else inl (n, a)
     : outcome (query_node_t * analysis)) in
  let a := if (n.(n_op) =? Q_TEST) && axis_delayed n then with_level TLV_QUERY_D a else a in
  try (n, a) := (if n.(n_op) =? Q_VARIABLE then analyze_variable n a else inl (n, a) : outcome (query_node_t * analysis)) in
  let n := if (n.(n_op) =? Q_META) || (n.(n_op) =? Q_LITERAL) then with_node_type V_NUMBER n else n in
  let n := if n.(n_op) =? Q_BOOL then with_node_type V_BOOL n else n in
  if (n.(n_op) =? Q_META) && negb (is_some (meta_loop meta_names 0 n)) then syntax n a
  else
    try (n, a) := (if n.(n_op) =? Q_LITERAL then analyze_literal n a else inl (n, a) : outcome (query_node_t * analysis)) in
    let '(n, a) := if (n.(n_op) =? Q_BYTES) || (n.(n_op) =? Q_STRING) then analyze_constant n a else (n, a) in
    inl (if (Q_EQ <=? n.(n_op)) && (n.(n_op) <=? Q_OR) then with_node_type V_BOOL n else n, a).

Definition store_node (i : Z) (n : query_node_t) (a : analysis) : analysis := with_nodes (update_at i (fun _ => n) a.(an_nodes)) a.

Definition analyze_instruction (i : Z) (n : query_node_t) (a : analysis) : outcome (query_node_t * analysis) :=
  try (n, a) := analyze_operand n a in
  try (n, a, done) := (if n.(n_op) =? Q_CALL then analyze_call n a else inl (n, a, false) : outcome (query_node_t * analysis * bool)) in
  if done then inl (n, a)
  else try a := analyze_operator n a in inl (optimize_node n i a).

(** A failure leaves the instruction as it was then. *)
Definition analyze_node (a : analysis) (i : Z) : outcome analysis :=
  match analyze_instruction i (analyze_start (query_at a.(an_nodes) i) a) a with
  | inl (n, a) => inl (store_node i n a)
  | inr f => inr (mk_failure f.(fl_code) f.(fl_diagnostic) f.(fl_node) (store_node i f.(fl_node) f.(fl_analysis)))
  end.

Fixpoint analyze_pass (indices : list Z) (a : analysis) : outcome analysis :=
  match indices with
  | [] => inl a
  | i :: indices => try a := analyze_node a i in analyze_pass indices a
  end.

(** The level of the whole. *)
Definition final_level (root : Z) (a : analysis) : Z :=
  let nodes := a.(an_nodes) in
  let level := if negb ((query_at nodes root).(n_type) =? V_NODE) then TLV_QUERY_D else a.(an_level) in
  let level := if existsb (fun n => (n.(n_op) =? Q_ROOT) && negb (n.(n_nested) =? 0)) nodes then TLV_QUERY_D else level in
  let level :=
    if level =? TLV_QUERY_D then
      if existsb (fun n => (n.(n_op) =? Q_TEST) && ((n.(n_axis) =? A_FOLLOW) || (n.(n_axis) =? A_PRECEDE))) nodes
      then TLV_QUERY_D else TLV_QUERY_S2
    else level in
  if (level =? TLV_QUERY_S2) && negb (query_s1_filter nodes root =? QUERY_NONE) then TLV_QUERY_S1 else level.

Definition node_indices (nodes : list query_node_t) : list Z := map Z.of_nat (seq 0 (length nodes)).

Definition analyze_passes (nodes : list query_node_t) : outcome analysis :=
  try nodes := literal_pass (node_indices nodes) nodes in analyze_pass (node_indices nodes) (initial_analysis nodes).

(** The result, and what there is then. *)
Definition analyze (nodes : list query_node_t) (root : Z) : tlv_result_t * analysis * option tlv_query_diagnostic_t :=
  match analyze_passes nodes with
  | inl a => (TLV_OK, with_level (final_level root a) a, d)
  | inr f => (f.(fl_code), f.(fl_analysis), f.(fl_diagnostic))
  end.
End Analyze.
