(* ===== verification/QueryCompile.v ===== *)
(** * The query compiler, plans and stored images (query/compiler.c, query/plan.c)

    The compiler reads tokens, parses them, guards steps, analyzes instructions, and writes an image.  A plan is an
    image that was opened; an image that is loaded is one that compiling its own text gives again.  What lies at the
    address of an image is its record. *)

From Stdlib Require Import String.
From S2P Require Import Prelude Mem Core Diagnostic QueryPath QueryProgram QueryParser QueryAnalyze.

(** * The compiler *)

Inductive tlv_query_decision_timing_t : Type := TLV_QUERY_DECISION_NODE | TLV_QUERY_DECISION_SCOPE | TLV_QUERY_DECISION_EOF.

Record tlv_query_program_info_t := mk_info {
  in_struct_size : Z; in_program_size : Z; in_program_alignment : Z; in_scratch_size : Z; in_scratch_alignment : Z; in_states : Z;
  in_language_version : Z; in_level : Z; in_result_kind : tlv_query_result_kind_t; in_expression_values : Z; in_instructions : Z;
  in_variable_slots : Z; in_codec_scratch : Z; in_pattern_bytes : Z; in_optimized_states : Z; in_expression_stack : Z;
  in_candidate_size : Z; in_candidate_alignment : Z; in_frame_states : Z; in_decision_timing : tlv_query_decision_timing_t;
  in_stable_input_required : bool; in_constructed_values_required : bool }.

Definition decision_timing (level : Z) : tlv_query_decision_timing_t :=
  if level =? TLV_QUERY_S0 then TLV_QUERY_DECISION_NODE
  else if level =? TLV_QUERY_S1 then TLV_QUERY_DECISION_SCOPE else TLV_QUERY_DECISION_EOF.

(** What a call of the compiler leaves.  Of the information, the first [in_struct_size] octets are the caller's;
    [None] is an output that is left alone. *)
Record compiled := mk_compiled {
  cm_code : tlv_result_t; cm_info : option tlv_query_program_info_t; cm_image : option tlv_query_program_t;
  cm_diagnostic : option tlv_query_diagnostic_t }.

Definition uncompiled (r : tlv_result_t * option tlv_query_diagnostic_t) : compiled := mk_compiled (fst r) None None (snd r).

Section Compile.
Context `{Platform} `{QueryLayout} `{QueryConfig}.

(** The longest pattern that a search may have to prepare. *)
Definition pattern_bytes (o : tlv_query_compile_options_t) (nodes : list query_node_t) : Z :=
  fold_left (fun pattern n =>
    if (n.(n_op) =? Q_CALL) && (n.(n_selector) =? F_CONTAINS) && negb (n.(n_left) =? QUERY_NONE) then
      let arg := query_at nodes n.(n_left) in
      let arg := if arg.(n_op) =? Q_ARGS then query_at nodes arg.(n_right) else arg in
      let bound := if arg.(n_op) =? Q_BYTES then arg.(n_data_size) else o.(co_max_pattern) in
      if pattern <? bound then bound else pattern
    else pattern) nodes 0.

Definition tag_provider (o : tlv_query_compile_options_t) (nodes : list query_node_t) : Z :=
  match match o.(co_environment) with Some e => e.(qe_tags) | None => None end with
  | Some tags =>
      if existsb (fun n => (n.(n_op) =? Q_CALL) && ((n.(n_selector) =? F_CLASS) || (n.(n_selector) =? F_NUMBER))) nodes then tags.(ta_id) else 0
  | None => 0
  end.

Definition same_variable (m : mem) (text : ptr) (n a : query_node_t) : bool :=
  (a.(n_op) =? Q_VARIABLE) && (a.(n_end) - a.(n_begin) =? n.(n_end) - n.(n_begin)) &&
  (Prelude.lex (span m text a) (span m text n) =? 0).

(** A variable has the slot of the first of its name. *)
Fixpoint variable_slots (m : mem) (text : ptr) (earlier nodes : list query_node_t) (slots : Z) : list query_node_t * Z :=
  match nodes with
  | [] => (earlier, slots)
  | n :: nodes =>
      if n.(n_op) =? Q_VARIABLE then
        let slot := match List.find (same_variable m text n) earlier with Some a => a.(n_variable_slot) | None => u32 slots end in
        variable_slots m text (earlier ++ [with_n_variable_slot slot n]) nodes (if slot =? slots then slots + 1 else slots)
      else variable_slots m text (earlier ++ [n]) nodes slots
  end.

Definition program_info (struct_size total needed alignment used level : Z) (kind : tlv_query_result_kind_t)
  (slots stride pattern optimized : Z) (values : bool) : tlv_query_program_info_t :=
  mk_info struct_size total 4 needed alignment used 1 level kind used used slots stride pattern optimized (used + 1)
    (if TLV_QUERY_S2 <=? level then query_candidate_size else 0) (if TLV_QUERY_S2 <=? level then query_candidate_alignment else 0)
    used (decision_timing level) (negb (level =? TLV_QUERY_S0)) values.

(** The image of analyzed instructions, or why there is none. *)
Definition emit_program (m : mem) (text : ptr) (size : Z) (o : tlv_query_compile_options_t) (needed alignment struct_size : Z) (root : Z)
  (storage : bool) (capacity : Z) (rc : tlv_result_t) (a : analysis) (d : option tlv_query_diagnostic_t) : compiled :=
  let fails code expected := uncompiled (query_error_unlocated d code TLV_QUERY_ERROR_STORAGE (Some expected)) in
  let used := zlen a.(an_nodes) in
  let pattern := pattern_bytes o a.(an_nodes) in
  let tag := tag_provider o a.(an_nodes) in
  let text_offset := PROGRAM_SIZE + used * NODE_SIZE in
  let payload_size := zlen a.(an_payload) in
  let total := text_offset + size + 1 + payload_size in
  if (SIZE_MAX - PROGRAM_SIZE - 1 <? size) || ((SIZE_MAX - PROGRAM_SIZE - size - 1) / NODE_SIZE <? used) then
    fails TLV_ERR_OVERFLOW "representable program size"%string
  else if SIZE_MAX - text_offset - size - 1 <? payload_size then fails TLV_ERR_OVERFLOW "representable compiler storage size"%string
  else if UINT32_MAX <? total then fails TLV_ERR_OVERFLOW "representable program size"%string
  else
    let '(nodes, slots) := variable_slots m text [] a.(an_nodes) 0 in
    let info := program_info struct_size total needed alignment used a.(an_level) (query_public_type (query_at a.(an_nodes) root).(n_type))
                  slots a.(an_stride) pattern a.(an_optimized) (query_nodes_need_values a.(an_nodes)) in
    if negb (is_ok rc) then mk_compiled rc (Some info) None d
    else if negb storage then mk_compiled TLV_OK (Some info) None d
    else if capacity <? total then
      let '(rc, d) := query_error_unlocated d TLV_ERR_BUFFER_TOO_SHORT TLV_QUERY_ERROR_STORAGE (Some "sufficient program capacity"%string) in
      mk_compiled rc (Some info) None d
    else
      mk_compiled TLV_OK (Some info)
        (Some (mk_program QUERY_MAGIC QUERY_IMAGE_VERSION (u32 used) root (u32 size) (u32 text_offset) a.(an_level) (u32 total) (u32 slots)
                 (u32 payload_size) (u32 pattern) (u32 a.(an_stride)) tag nodes (bytes_of m text size ++ [0]) a.(an_payload))) d.

(** What the compiler does with tokens. *)
Definition compile_tokens (m : mem) (text : ptr) (size : Z) (o : tlv_query_compile_options_t) (needed alignment struct_size : Z)
  (storage : bool) (capacity : Z) (tokens : list query_token_t) (d : option tlv_query_diagnostic_t) : compiled :=
  let '(rc, expression, d) := parse m text tokens o.(co_max_nesting) o.(co_max_states) d in
  match expression with
  | None => uncompiled (rc, d)
  | Some (nodes, root) =>
      let '(rc, a, d) := analyze m text o d (add_guards m text nodes) root in
      emit_program m text size o needed alignment struct_size root storage capacity rc a d
  end.

(** An object of the caller's: whether it is there and aligned, and its size. *)
Record area := mk_area { ar_present : bool; ar_aligned : bool; ar_size : Z }.

(** [info] is the size of the information that is the caller's, if there is some; [written] and [read] are where the
    outputs, and the text and the options, are.  The text is read twice, to count its tokens and for them. *)
Definition tlv_query_compile (m : mem) (pending : list Z) (text : ptr) (size : Z) (options : option tlv_query_compile_options_t)
  (written read : list (ptr * Z)) (scratch storage : area) (info : option Z) (d : option tlv_query_diagnostic_t) : option compiled :=
  let fails d code expected := Some (uncompiled (query_error_unlocated d code TLV_QUERY_ERROR_STORAGE (Some expected))) in
  if outputs_overlap written read then Some (uncompiled (TLV_ERR_INVALID_ARG, d))
  else
    let d := query_diag_init d in
    match info with
    | None => fails d TLV_ERR_NULL_ARG "required compiler arguments"%string
    | Some struct_size =>
        if is_null text || negb scratch.(ar_present) || (negb storage.(ar_present) && negb (storage.(ar_size) =? 0)) then
          fails d TLV_ERR_NULL_ARG "required compiler arguments"%string
        else if struct_size <? info_prefix then fails d TLV_ERR_INVALID_ARG "initialized program info extent"%string
        else
          let '(rc, o, d) := options_check options size d in
          if negb (is_ok rc) then Some (uncompiled (rc, d))
          else
            match tlv_query_compile_scratch m pending text size (Some o) [] [] (Some (0, 0)) d with
            | None => None
            | Some (rc, extent, d) =>
                let '(needed, alignment) := default (0, 0) extent in
                if negb (is_ok rc) then Some (uncompiled (rc, d))
                else if negb scratch.(ar_aligned) || (storage.(ar_present) && negb storage.(ar_aligned)) then
                  fails d TLV_ERR_INVALID_ARG "aligned storage"%string
                else if scratch.(ar_size) <? needed then fails d TLV_ERR_BUFFER_TOO_SHORT "sufficient compile scratch capacity"%string
                else
                  match lex m text size o.(co_max_tokens) pending d false None with
                  | None => None
                  | Some r =>
                      if negb (is_ok r.(lx_code)) then Some (uncompiled (r.(lx_code), r.(lx_diagnostic)))
                      else Some (compile_tokens m text size o needed alignment struct_size storage.(ar_present) storage.(ar_size)
                                   r.(lx_tokens) r.(lx_diagnostic))
                  end
            end
    end.
End Compile.

(** * Plans and stored images (query/plan.c, query/compiler.c)

    Opening an image as a plan, what a plan says of itself, loading an image by compiling its text again, and the
    canonical form of its text.  What lies at the address of an image is its record. *)

#[global] Instance query_node_eq_dec : EqDecision query_node_t.
Proof. solve_decision. Defined.
#[global] Instance query_program_eq_dec : EqDecision tlv_query_program_t.
Proof. solve_decision. Defined.

Section Plan.
Context `{Platform} `{QueryLayout} `{QueryConfig}.

(** ** Variables *)

Definition tlv_query_program_variable_count (aligned : bool) (p : option tlv_query_program_t) : Z :=
  match p with
  | Some p => if query_program_valid aligned p then p.(p_variable_count) else 0
  | None => 0
  end.

Record tlv_query_variable_info_t := mk_variable_info { vi_name : list Z; vi_type : tlv_query_result_kind_t }.

(** [overlap] is whether the output is inside of the image. *)
Definition tlv_query_program_variable (aligned overlap : bool) (p : option tlv_query_program_t) (index : Z) (output : bool)
  : tlv_result_t * option tlv_query_variable_info_t :=
  match p with
  | None => (TLV_ERR_NULL_ARG, None)
  | Some p =>
      if negb output then (TLV_ERR_NULL_ARG, None)
      else if negb aligned || overlap then (TLV_ERR_INVALID_ARG, None)
      else if negb (query_program_valid aligned p) then (TLV_ERR_INVALID_VALUE, None)
      else if p.(p_variable_count) <=? index then (TLV_ERR_INVALID_ARG, None)
      else
        match List.find (same_slot index) (take (Z.to_nat p.(p_count)) p.(p_nodes)) with
        | Some n => (TLV_OK, Some (mk_variable_info (query_payload p n.(n_data_offset) n.(n_data_size)) (query_public_type n.(n_type))))
        | None => (TLV_ERR_INVALID_ARG, None)
        end
  end.

(** ** Plans *)

Definition plan_extent_valid (size : Z) (p : tlv_query_program_t) : bool :=
  if (UINT32_MAX <? size) || negb (p.(p_reserved) =? size) || (p.(p_count) =? 0) || ((size - PROGRAM_SIZE) / NODE_SIZE <? p.(p_count)) then false
  else
    let offset := PROGRAM_SIZE + p.(p_count) * NODE_SIZE in
    negb (negb (p.(p_text_offset) =? offset) || (size - offset <=? p.(p_text_size)) || negb (p.(p_payload_size) =? size - offset - p.(p_text_size) - 1)).

(** [overlap] is whether the image, the output and the diagnostic meet; [output] is whether there is one. *)
Definition tlv_query_plan_open (aligned overlap : bool) (image : option tlv_query_program_t) (size : Z) (output : bool)
  (d : option tlv_query_diagnostic_t) : tlv_result_t * option tlv_query_program_t * option tlv_query_diagnostic_t :=
  let fails d code kind expected := let '(rc, d) := query_error_unlocated d code kind (Some expected) in (rc, None, d) in
  if overlap then (TLV_ERR_INVALID_ARG, None, d)
  else
    let d := query_diag_init d in
    let invalid := fails d TLV_ERR_INVALID_VALUE TLV_QUERY_ERROR_IMAGE "valid execution plan"%string in
    match image with
    | None => fails d TLV_ERR_NULL_ARG TLV_QUERY_ERROR_STORAGE "required plan arguments"%string
    | Some p =>
        if negb output then fails d TLV_ERR_NULL_ARG TLV_QUERY_ERROR_STORAGE "required plan arguments"%string
        else if negb aligned then fails d TLV_ERR_INVALID_ARG TLV_QUERY_ERROR_STORAGE "aligned bounded plan"%string
        else if size <? PROGRAM_SIZE then fails d TLV_ERR_INVALID_VALUE TLV_QUERY_ERROR_IMAGE "complete plan header"%string
        else if negb (p.(p_magic) =? QUERY_MAGIC) then invalid
        else if negb (p.(p_version) =? QUERY_IMAGE_VERSION) then
          fails d TLV_ERR_UNSUPPORTED TLV_QUERY_ERROR_IMAGE_VERSION "compatible native plan version and byte order"%string
        else if negb (plan_extent_valid size p) then invalid
        else if negb (query_program_valid aligned p) || negb (plan_types p) then invalid
        else if negb (query_plan_supported p) then
          fails d TLV_ERR_UNSUPPORTED TLV_QUERY_ERROR_CAPABILITY "available plan operation families"%string
        else (TLV_OK, Some p, d)
    end.

Definition tlv_query_plan_info (aligned overlap : bool) (p : option tlv_query_program_t) (info : option Z)
  : tlv_result_t * option tlv_query_program_info_t :=
  match p, info with
  | Some p, Some struct_size =>
      if negb aligned || overlap then (TLV_ERR_INVALID_ARG, None)
      else if negb (query_program_valid aligned p) then (TLV_ERR_INVALID_VALUE, None)
      else if struct_size <? info_prefix then (TLV_ERR_INVALID_ARG, None)
      else
        (TLV_OK, Some (program_info struct_size p.(p_reserved) 0 0 p.(p_count) p.(p_level)
                         (query_public_type (query_at p.(p_nodes) p.(p_root)).(n_type)) p.(p_variable_count) p.(p_codec_stride)
                         p.(p_pattern_capacity) 0 (query_nodes_need_values p.(p_nodes))))
  | _, _ => (TLV_ERR_NULL_ARG, None)
  end.

(** ** Preparing *)

(** The offset of the image behind the scratch space, the octets and the alignment, or a failure. *)
Definition prepare_layout (m : mem) (pending : list Z) (text : ptr) (size : Z) (options : option tlv_query_compile_options_t)
  (d : option tlv_query_diagnostic_t) : option (tlv_result_t * (Z * Z * Z) * option tlv_query_diagnostic_t) :=
  let fails d := let '(rc, d) := query_error_unlocated d TLV_ERR_OVERFLOW TLV_QUERY_ERROR_STORAGE (Some "representable compiler storage size"%string) in
                 Some (rc, (0, 0, 0), d) in
  match tlv_query_compile_scratch m pending text size options [] [] (Some (0, 0)) d with
  | None => None
  | Some (rc, extent, d) =>
      let '(scratch, align) := default (0, 0) extent in
      if negb (is_ok rc) then Some (rc, (0, 0, 0), d)
      else if SIZE_MAX - 3 <? scratch then fails d
      else
        let start := Z.land (scratch + 3) (Z.lnot 3) in
        if SIZE_MAX - PROGRAM_SIZE - 1 <? size then fails d
        else
          let image := PROGRAM_SIZE + size + 1 in
          if (SIZE_MAX - image <? scratch) || (SIZE_MAX - image - scratch <? start) then fails d
          else Some (TLV_OK, (start, start + image + scratch, align), d)
  end.

Definition tlv_query_compile_prepare_size (m : mem) (pending : list Z) (text : ptr) (size : Z) (options : option tlv_query_compile_options_t)
  (outputs : bool) (d : option tlv_query_diagnostic_t) : option (tlv_result_t * option (Z * Z) * option tlv_query_diagnostic_t) :=
  if negb outputs then Some (TLV_ERR_NULL_ARG, None, d)
  else
    match prepare_layout m pending text size options d with
    | None => None
    | Some (rc, (_, bytes, alignment), d) => Some (rc, if is_ok rc then Some (bytes, alignment) else None, d)
    end.

Definition with_struct_size (struct_size : Z) (i : tlv_query_program_info_t) : tlv_query_program_info_t :=
  mk_info struct_size i.(in_program_size) i.(in_program_alignment) i.(in_scratch_size) i.(in_scratch_alignment) i.(in_states)
    i.(in_language_version) i.(in_level) i.(in_result_kind) i.(in_expression_values) i.(in_instructions) i.(in_variable_slots)
    i.(in_codec_scratch) i.(in_pattern_bytes) i.(in_optimized_states) i.(in_expression_stack) i.(in_candidate_size)
    i.(in_candidate_alignment) i.(in_frame_states) i.(in_decision_timing) i.(in_stable_input_required) i.(in_constructed_values_required).

(** The objects of the caller's are disjoint unless [overlap]; the image is behind the scratch space of the compiler. *)
Definition tlv_query_compile_prepare (m : mem) (pending : list Z) (text : ptr) (size : Z) (options : option tlv_query_compile_options_t)
  (workspace : area) (overlap prepared : bool) (info : option Z) (d : option tlv_query_diagnostic_t) : option compiled :=
  match info with
  | None => Some (uncompiled (TLV_ERR_NULL_ARG, d))
  | Some struct_size =>
      if is_null text || negb workspace.(ar_present) || negb prepared then Some (uncompiled (TLV_ERR_NULL_ARG, d))
      else if (struct_size <? info_prefix) || overlap then Some (uncompiled (TLV_ERR_INVALID_ARG, d))
      else
        match prepare_layout m pending text size options d with
        | None => None
        | Some (rc, (offset, needed, alignment), d) =>
            if negb (is_ok rc) then Some (uncompiled (rc, d))
            else if negb workspace.(ar_aligned) then
              Some (uncompiled (query_error_unlocated d TLV_ERR_INVALID_ARG TLV_QUERY_ERROR_STORAGE (Some "aligned prepare workspace"%string)))
            else if workspace.(ar_size) <? needed then
              Some (uncompiled (query_error_unlocated d TLV_ERR_BUFFER_TOO_SHORT TLV_QUERY_ERROR_STORAGE
                                  (Some "sufficient compiler storage capacity"%string)))
            else
              match tlv_query_compile m pending text size options [] [] (mk_area true true offset) (mk_area true true (needed - offset))
                      (Some sizeof_info) d with
              | None => None
              | Some c =>
                  if negb (is_ok c.(cm_code)) then Some (uncompiled (c.(cm_code), c.(cm_diagnostic)))
                  else Some (mk_compiled TLV_OK (with_struct_size struct_size <$> c.(cm_info)) c.(cm_image) c.(cm_diagnostic))
              end
        end
  end.

(** ** Loading *)

(** [overlap] is whether the diagnostic is inside of the image. *)
Definition image_header (overlap : bool) (image : option tlv_query_program_t) (size : Z) (d : option tlv_query_diagnostic_t)
  : tlv_result_t * option tlv_query_diagnostic_t :=
  if overlap then (TLV_ERR_INVALID_ARG, d)
  else
    let d := query_diag_init d in
    let fails code kind expected := query_error_unlocated d code kind (Some expected) in
    match image with
    | None => fails TLV_ERR_NULL_ARG TLV_QUERY_ERROR_STORAGE "required compiler arguments"%string
    | Some p =>
        if size <? PROGRAM_SIZE then fails TLV_ERR_INVALID_VALUE TLV_QUERY_ERROR_IMAGE "complete image header"%string
        else if negb (p.(p_magic) =? QUERY_MAGIC) then fails TLV_ERR_INVALID_VALUE TLV_QUERY_ERROR_IMAGE "recognized Query image magic"%string
        else if negb (p.(p_version) =? QUERY_IMAGE_VERSION) then
          fails TLV_ERR_UNSUPPORTED TLV_QUERY_ERROR_IMAGE_VERSION "same-release native-endian Query image"%string
        else if (p.(p_count) =? 0) || ((UINT32_MAX - PROGRAM_SIZE) / NODE_SIZE <? p.(p_count)) then
          fails TLV_ERR_INVALID_VALUE TLV_QUERY_ERROR_IMAGE "bounded image instruction count"%string
        else
          let offset := PROGRAM_SIZE + p.(p_count) * NODE_SIZE in
          if negb (p.(p_reserved) =? size) || negb (p.(p_text_offset) =? offset) || (size <=? offset) || (p.(p_text_size) =? 0) ||
             (size - offset <=? p.(p_text_size)) || negb (p.(p_payload_size) =? size - offset - p.(p_text_size) - 1) ||
             negb (byte_at p.(p_text) p.(p_text_size) =? 0) then
            fails TLV_ERR_INVALID_VALUE TLV_QUERY_ERROR_IMAGE "bounded image text and payload"%string
          else (TLV_OK, d)
    end.

(** The text of the image [p] at the address [image]. *)
Definition image_text (image : ptr) (p : tlv_query_program_t) : ptr := image +p p.(p_text_offset).

(** [inside] is whether an output is inside of the image. *)
Definition tlv_query_program_load_scratch (m : mem) (pending : list Z) (image : ptr) (p : option tlv_query_program_t) (size : Z)
  (options : option tlv_query_compile_options_t) (outputs inside overlap : bool) (d : option tlv_query_diagnostic_t)
  : option (tlv_result_t * (Z * Z) * option tlv_query_diagnostic_t) :=
  if negb outputs then Some (TLV_ERR_NULL_ARG, (0, 0), d)
  else if inside then Some (TLV_ERR_INVALID_ARG, (0, 0), d)
  else
    let '(rc, d) := image_header overlap p size d in
    let header := default (mk_program 0 0 0 0 0 0 0 0 0 0 0 0 0 [] [] []) p in
    let fails d := let '(rc, d) := query_error_unlocated d TLV_ERR_OVERFLOW TLV_QUERY_ERROR_STORAGE (Some "representable compiler storage size"%string) in
                   Some (rc, (0, 0), d) in
    if negb (is_ok rc) then Some (rc, (0, 0), d)
    else
      match tlv_query_compile_scratch m pending (image_text image header) header.(p_text_size) options [] [] (Some (0, 0)) d with
      | None => None
      | Some (rc, extent, d) =>
          let '(compile_bytes, compile_alignment) := default (0, 0) extent in
          if negb (is_ok rc) then Some (rc, (0, 0), d)
          else if SIZE_MAX - 3 <? compile_bytes then fails d
          else
            let offset := Z.land (compile_bytes + 3) (Z.lnot 3) in
            if SIZE_MAX - offset <? size then fails d else Some (TLV_OK, (offset + size, compile_alignment), d)
      end.

(** [aligned] is of the image; [program] is whether there is an output; [info] is the size of the caller's, if there is
    some. *)
Definition tlv_query_program_load (m : mem) (pending : list Z) (image : ptr) (p : option tlv_query_program_t) (aligned : bool) (size : Z)
  (options : option tlv_query_compile_options_t) (scratch : area) (program overlap : bool) (info : option Z) (d : option tlv_query_diagnostic_t)
  : option compiled :=
  let fails d code kind expected := Some (uncompiled (query_error_unlocated d code kind (Some expected))) in
  if negb scratch.(ar_present) || negb program then Some (uncompiled (TLV_ERR_NULL_ARG, d))
  else if overlap || match info with Some struct_size => struct_size <? info_prefix | None => false end then
    Some (uncompiled (TLV_ERR_INVALID_ARG, d))
  else
    match tlv_query_program_load_scratch m pending image p size options true false false d with
    | None => None
    | Some (rc, (needed, alignment), d) =>
        let header := default (mk_program 0 0 0 0 0 0 0 0 0 0 0 0 0 [] [] []) p in
        if negb (is_ok rc) then Some (uncompiled (rc, d))
        else if negb aligned || negb scratch.(ar_aligned) then
          fails d TLV_ERR_INVALID_ARG TLV_QUERY_ERROR_STORAGE "aligned image and validation scratch"%string
        else if scratch.(ar_size) <? needed then
          fails d TLV_ERR_BUFFER_TOO_SHORT TLV_QUERY_ERROR_STORAGE "sufficient compiler storage capacity"%string
        else
          let offset := needed - size in
          match tlv_query_compile m pending (image_text image header) header.(p_text_size) options [] [] (mk_area true true offset)
                  (mk_area true true size) (Some sizeof_info) d with
          | None => None
          | Some c =>
              if negb (is_ok c.(cm_code)) then Some (uncompiled (c.(cm_code), c.(cm_diagnostic)))
              else if negb (match c.(cm_info) with Some i => i.(in_program_size) =? size | None => false end) ||
                      negb (bool_decide (c.(cm_image) = p)) then
                fails c.(cm_diagnostic) TLV_ERR_INVALID_VALUE TLV_QUERY_ERROR_IMAGE "canonical validated Query image and matching capabilities"%string
              else
                Some (mk_compiled TLV_OK (match info with Some struct_size => with_struct_size struct_size <$> c.(cm_info) | None => None end) p
                        c.(cm_diagnostic))
          end
    end.

(** A prepared image is copied once it has been loaded. *)
Definition tlv_query_compile_commit (m : mem) (pending : list Z) (image : ptr) (prepared : option tlv_query_program_t) (aligned : bool)
  (prepared_size : Z) (options : option tlv_query_compile_options_t) (scratch storage : area) (overlap : bool) (info : option Z)
  (d : option tlv_query_diagnostic_t) : option compiled :=
  if negb (bool_decide (is_Some prepared)) || negb scratch.(ar_present) || negb storage.(ar_present) then Some (uncompiled (TLV_ERR_NULL_ARG, d))
  else if negb storage.(ar_aligned) || match info with Some struct_size => struct_size <? info_prefix | None => false end || overlap then
    Some (uncompiled (TLV_ERR_INVALID_ARG, d))
  else if storage.(ar_size) <? prepared_size then
    Some (uncompiled (query_error_unlocated (query_diag_init d) TLV_ERR_BUFFER_TOO_SHORT TLV_QUERY_ERROR_STORAGE
                        (Some "sufficient compiler storage capacity"%string)))
  else
    match tlv_query_program_load m pending image prepared aligned prepared_size options scratch true false (Some sizeof_info) d with
    | None => None
    | Some c =>
        if negb (is_ok c.(cm_code)) then Some (uncompiled (c.(cm_code), c.(cm_diagnostic)))
        else Some (mk_compiled TLV_OK (match info with Some struct_size => with_struct_size struct_size <$> c.(cm_info) | None => None end)
                     c.(cm_image) c.(cm_diagnostic))
    end.

(** ** The text again *)

(** The canonical text and the size it needs; [overlap] is whether the image and the outputs meet. *)
Definition tlv_query_program_format (m : mem) (pending : list Z) (image : ptr) (aligned overlap : bool) (p : option tlv_query_program_t)
  (output : ptr) (capacity : Z) (required : option Z) : option (tlv_result_t * mem * option Z) :=
  match p, required with
  | Some p, Some _ =>
      if is_null output && negb (capacity =? 0) then Some (TLV_ERR_NULL_ARG, m, required)
      else if negb aligned then Some (TLV_ERR_INVALID_ARG, m, required)
      else if negb (query_program_valid aligned p) then Some (TLV_ERR_INVALID_VALUE, m, required)
      else if overlap then Some (TLV_ERR_INVALID_ARG, m, required)
      else if p.(p_text_size) =? 0 then Some (TLV_ERR_UNSUPPORTED, m, required)
      else
        match lex m (image_text image p) p.(p_text_size) UINT32_MAX pending None true None with
        | None => None
        | Some r =>
            if negb (is_ok r.(lx_code)) then Some (r.(lx_code), m, required)
            else if r.(lx_size) =? SIZE_MAX then Some (TLV_ERR_OVERFLOW, m, required)
            else
              let required := Some (r.(lx_size) + 1) in
              if is_null output then Some (TLV_OK, m, required)
              else if capacity <=? r.(lx_size) then Some (TLV_ERR_BUFFER_TOO_SHORT, m, required)
              else
                match lex m (image_text image p) p.(p_text_size) UINT32_MAX pending None true (Some output) with
                | None => None
                | Some r => Some (r.(lx_code), if is_ok r.(lx_code) then st r.(lx_mem) output r.(lx_size) 0 else r.(lx_mem), required)
                end
        end
  | _, _ => Some (TLV_ERR_NULL_ARG, m, required)
  end.
End Plan.
