(* ===== verification/QueryParserLaws.v ===== *)
(** * The laws of tokens, of the parser and of the guards

    Tokens are spans of the text, one behind the other; the instructions the parser makes of them are in postfix order
    and bounded by their number; the guards of a step are in front of it. *)

From Stdlib Require Import String.
From S2P Require Import Prelude Mem Core Diagnostic QueryPath QueryProgram QueryParser.

(** * Tokens are spans of the text, one behind the other

    A token has an extent in the text, begins where the one in front of it has ended or later, and a variable has a
    name.  So the extents of all tokens fit in the text. *)

(** ** One token *)

Section Token.
Context (m : mem) (text : ptr) (size : Z).

Lemma scan_while_bounds n f : forall pos, pos <= size -> pos <= scan_while m text size n f pos <= size.
Proof.
  induction n as [|n IH]; intros pos Hpos; simpl; [lia|].
  destruct ((pos <? size) && f (ld m text pos)) eqn:E; [|lia].
  specialize (IH (pos + 1)). zlia.
Qed.

Lemma scan_string_bounds c : forall n pos p, pos <= size -> scan_string m text size n c pos = inl p -> pos <= p <= size.
Proof.
  induction n as [|n IH]; intros pos p Hpos; simpl; [intros [= <-]; lia|].
  destruct ((pos <? size) && negb (ld m text pos =? c)) eqn:E; [|intros [= <-]; lia].
  assert (pos < size) by zlia.
  destruct (ld m text pos <? 32); [discriminate|]. destruct (ld m text pos =? 92).
  - destruct (Z.eqb_spec (pos + 1) size); [discriminate|]. simpl. destruct (_ && _ && _); [discriminate|].
    intros Hs. apply IH in Hs; lia.
  - intros Hs. apply IH in Hs; lia.
Qed.

Lemma scan_bytes_bounds : forall n pos p, pos <= size -> scan_bytes m text size n pos = inl p -> pos <= p <= size.
Proof.
  induction n as [|n IH]; intros pos p Hpos; simpl; [intros [= <-]; lia|].
  destruct ((pos <? size) && negb (ld m text pos =? 39)) eqn:E; [|intros [= <-]; lia].
  assert (pos < size) by zlia.
  destruct (query_hex (ld m text pos) <? 0); [discriminate|]. intros Hs. apply IH in Hs; lia.
Qed.

(** What a token of the kind [kind] from [b] to [e] is like. *)
Definition token_extent (b e kind : Z) : Prop := b < e <= size /\ (kind = T_VARIABLE -> b + 2 <= e) /\ T_WORD <= kind < T_END.

Lemma lex_word_extent b kind e : b < size -> lex_word m text size b = inl (kind, e) -> token_extent b e kind.
Proof.
  intros Hb. unfold lex_word. set (p := scan_while _ _ _ _ _ (b + 1)).
  assert (b + 1 <= p <= size) by (apply scan_while_bounds; lia).
  set (q := if at_char m text size p 58 && _ then _ else p).
  assert (b + 1 <= q <= size).
  { subst q. destruct (at_char m text size p 58 && _) eqn:E; [|lia]. apply andb_true_iff in E as [E _]. unfold at_char in E.
    pose proof (scan_while_bounds (room size (p + 1)) word_char (p + 1)). zlia. }
  intros [= <- <-]. split; [lia|]. repeat destruct (query_word _ _ _ _ _); split; (discriminate || lia).
Qed.

Lemma lex_string_extent pending c b kind e : b < size -> lex_string m text size pending c b = inl (kind, e) -> token_extent b e kind.
Proof.
  intros Hb. unfold lex_string. destruct (scan_string _ _ _ _ _ _) as [p|] eqn:Hs; [|discriminate]. apply scan_string_bounds in Hs; [|lia].
  destruct (Z.eqb_spec p size); [discriminate|]. destruct (negb _); [discriminate|]. intros [= <- <-]. split; [lia|]. split; (discriminate || lia).
Qed.

Lemma lex_bytes_extent b kind e : b + 1 < size -> lex_bytes m text size b = inl (kind, e) -> token_extent b e kind.
Proof.
  intros Hb. unfold lex_bytes. destruct (scan_bytes _ _ _ _ _) as [p|] eqn:Hs; [|discriminate]. apply scan_bytes_bounds in Hs; [|lia].
  destruct (Z.eqb_spec p size); [discriminate|]. destruct (negb _); [discriminate|]. intros [= <- <-]. split; [lia|]. split; (discriminate || lia).
Qed.

(** A token of one character, or of two where the second is [c]. *)
Lemma one_extent b k kind e : b < size -> T_WORD <= k <= T_END -> k <> T_VARIABLE -> inl (k, b + 1) = (inl (kind, e) : lexed) -> kind <> T_END -> token_extent b e kind.
Proof. intros Hb ? ? [= <- <-] ?. split; lia. Qed.

Lemma two_extent b c k k2 kind e : b < size -> T_WORD <= k <= T_END -> k <> T_VARIABLE -> T_WORD <= k2 < T_END -> k2 <> T_VARIABLE ->
  (if at_char m text size (b + 1) c then inl (k2, b + 1 + 1) else inl (k, b + 1) : lexed) = inl (kind, e) -> kind <> T_END -> token_extent b e kind.
Proof.
  intros Hb ? ? ? ?. unfold at_char. destruct (Z.ltb_spec (b + 1) size); simpl; [destruct (_ =? _)|]; intros [= <- <-] ?; split; lia.
Qed.

Lemma lex_name_extent b f k kind e : b < size -> k = T_META \/ k = T_VARIABLE ->
  (let e := scan_while m text size (room size (b + 1)) f (b + 1) in inl (if e =? b + 1 then T_END else k, e) : lexed) = inl (kind, e) ->
  kind <> T_END -> token_extent b e kind.
Proof.
  intros Hb Hk. pose proof (scan_while_bounds (room size (b + 1)) f (b + 1)) as Hs. cbv zeta.
  destruct (Z.eqb_spec (scan_while m text size (room size (b + 1)) f (b + 1)) (b + 1)); intros [= <- <-] ?; split; lia.
Qed.

Lemma lex_token_extent pending b kind e : b < size -> lex_token m text size pending b = inl (kind, e) -> kind <> T_END -> token_extent b e kind.
Proof.
  intros Hb. unfold lex_token.
  repeat (match goal with |- (if ?t then _ else _) = _ -> _ => destruct t eqn:? end;
          [first [discriminate | apply one_extent; lia | apply two_extent; lia | idtac]|]).
  - apply lex_name_extent; [done|]. destruct (ld m text b =? 64); auto.
  - intros Hl _. eapply lex_string_extent; eassumption.
  - intros Hl _. apply lex_bytes_extent in Hl; [done|]. unfold at_char in *. zlia.
  - intros Hl _. eapply lex_word_extent; eassumption.
  - apply one_extent; lia.
Qed.
End Token.

(** ** All tokens *)

(** Tokens from [from] on. *)
Fixpoint spaced (size from : Z) (tokens : list query_token_t) : Prop :=
  match tokens with
  | [] => True
  | t :: tokens => from <= t.(tk_begin) /\ token_extent size t.(tk_begin) t.(tk_end) t.(tk_kind) /\ spaced size t.(tk_end) tokens
  end.

Definition extent (t : query_token_t) : Z := t.(tk_end) - t.(tk_begin).

Fixpoint extents (tokens : list query_token_t) : Z :=
  match tokens with
  | [] => 0
  | t :: tokens => extent t + extents tokens
  end.

Lemma spaced_extents size tokens : forall from, from <= size -> spaced size from tokens -> 0 <= extents tokens <= size - from.
Proof.
  induction tokens as [|t tokens IH]; intros from Hf; simpl; [lia|]. intros (Hb & [He _] & Hs). apply IH in Hs; unfold extent; lia.
Qed.

Lemma spaced_Forall size tokens : forall from, 0 <= from -> spaced size from tokens ->
  Forall (fun t => 0 <= t.(tk_begin) /\ token_extent size t.(tk_begin) t.(tk_end) t.(tk_kind)) tokens.
Proof.
  induction tokens as [|t tokens IH]; intros from Hf; simpl; [constructor|]. intros (Hb & Ht & Hs). pose proof Ht as [He _].
  constructor; [split; [lia|done]|]. eapply IH; [|eassumption]. lia.
Qed.

(** The tokens of a text that is read: those in front of [pos], and the rest. *)
Lemma lex_loop_spaced `{Platform} fuel text size limit pending format formatted : 0 <= size < 4294967296 -> forall m pos tokens previous emitted d r,
  0 <= pos <= size ->
  lex_loop fuel m text size limit pending format formatted pos tokens previous emitted d = Some r -> r.(lx_code) = TLV_OK ->
  exists more, r.(lx_tokens) = rev tokens ++ more /\ spaced size pos more.
Proof.
  intros Hsize. induction fuel as [|fuel IH]; intros m pos tokens previous emitted d r Hpos; simpl.
  - destruct (Z.leb_spec size pos); [|discriminate]. intros [= <-] _. exists []. simpl. now rewrite app_nil_r.
  - destruct (Z.leb_spec size pos); [intros [= <-] _; exists []; simpl; now rewrite app_nil_r|].
    destruct (whitespace _).
    { intros Hr Hok. destruct (IH m (pos + 1) tokens previous emitted d r) as (more & -> & Hs); [lia|done|done|]. exists more. split; [done|].
      destruct more as [|t more]; [done|]. simpl in *. intuition lia. }
    destruct (lex_token _ _ _ _ _) as [[kind e]|[[b e] x]] eqn:Ht; [|intros [= <-]; discriminate].
    destruct (Z.eqb_spec kind T_END) as [|Hk]; [intros [= <-]; discriminate|].
    assert (Hext : token_extent size pos e kind).
    { eapply lex_token_extent; [lia|exact Ht|done]. }
    destruct (_ =? limit); [intros [= <-]; discriminate|].
    assert (Hstep : forall m previous emitted,
      lex_loop fuel m text size limit pending format formatted e (mk_token kind (u32 pos) (u32 e) :: tokens) previous emitted d = Some r ->
      r.(lx_code) = TLV_OK -> exists more, r.(lx_tokens) = rev tokens ++ more /\ spaced size pos more).
    { intros m' previous' emitted' Hr Hok. pose proof Hext as [He _]. edestruct (IH m' e) as (more & -> & Hs); [lia|exact Hr|exact Hok|].
      exists (mk_token kind (u32 pos) (u32 e) :: more). split; [simpl; now rewrite <- app_assoc|]. simpl.
      unfold u32. rewrite !Z.mod_small by lia. done. }
    destruct format; [|now apply Hstep].
    destruct (emit_token _ _ _ _ _ _ _ _ _) as [[m' emitted'] [|]]; [now apply Hstep|intros [= <-]; discriminate].
Qed.

Lemma lex_spaced `{Platform} m text size limit pending d format formatted r : 0 <= size < 4294967296 ->
  lex m text size limit pending d format formatted = Some r -> r.(lx_code) = TLV_OK -> spaced size 0 r.(lx_tokens).
Proof.
  intros Hs Hr Hok. destruct (lex_loop_spaced (Z.to_nat size) text size limit pending format formatted Hs m 0 [] T_END 0 d r) as (more & -> & Hm); [lia|exact Hr|exact Hok|].
  exact Hm.
Qed.

(** Reading a text ends. *)
Lemma lex_total `{Platform} m text size limit pending d format formatted : 0 <= size ->
  is_Some (lex m text size limit pending d format formatted).
Proof.
  intros Hs. unfold lex.
  assert (Hloop : forall fuel m pos tokens previous emitted d, 0 <= pos -> size - pos <= Z.of_nat fuel ->
    is_Some (lex_loop fuel m text size limit pending format formatted pos tokens previous emitted d)).
  { induction fuel as [|fuel IH]; intros m' pos tokens previous emitted d' Hpos Hf; simpl; (destruct (Z.leb_spec size pos); [eauto|]); [lia|].
    destruct (whitespace _); [apply IH; lia|].
    destruct (lex_token _ _ _ _ _) as [[kind e]|[[b e] x]] eqn:Ht; [|eauto].
    destruct (Z.eqb_spec kind T_END) as [|Hk]; [eauto|]. apply lex_token_extent in Ht as [He _]; [|lia|done].
    destruct (_ =? limit); [eauto|]. destruct format; [|apply IH; lia].
    destruct (emit_token _ _ _ _ _ _ _ _ _) as [[m2 emitted2] [|]]; [apply IH; lia|eauto]. }
  apply Hloop; lia.
Qed.

(** The diagnostic has no say in what is read. *)
Lemma lex_diagnostic `{Platform} m text size limit pending d d' format formatted r r' :
  lex m text size limit pending d format formatted = Some r -> lex m text size limit pending d' format formatted = Some r' ->
  r'.(lx_code) = r.(lx_code) /\ r'.(lx_tokens) = r.(lx_tokens) /\ r'.(lx_size) = r.(lx_size) /\ r'.(lx_mem) = r.(lx_mem).
Proof.
  unfold lex. generalize (Z.to_nat size) as fuel. intros fuel. generalize 0 at 1 3 as pos. generalize 0 as emitted. generalize T_END as previous. generalize (@nil query_token_t) as tokens.
  revert m. induction fuel as [|fuel IH]; intros m tokens previous emitted pos; simpl.
  - destruct (size <=? pos); [|discriminate]. intros [= <-] [= <-]. done.
  - destruct (size <=? pos); [intros [= <-] [= <-]; done|]. destruct (whitespace _); [apply IH|].
    destruct (lex_token _ _ _ _ _) as [[kind e]|[[b e] x]]; [|intros [= <-] [= <-]; done].
    destruct (kind =? T_END); [intros [= <-] [= <-]; done|]. destruct (_ =? limit); [intros [= <-] [= <-]; done|].
    destruct format; [|apply IH]. destruct (emit_token _ _ _ _ _ _ _ _ _) as [[m' emitted'] [|]]; [apply IH|intros [= <-] [= <-]; done].
Qed.

(** * What the parser makes of tokens

    The instructions of an expression are in postfix order: an instruction is behind the ranges of its operands, which
    lie side by side.  The stacks of the parser are not larger than the number of tokens, nor the instructions than
    twice that.  The octets that constants and tags may need are bounded by the tokens they come from. *)

(** ** Instructions by index *)

Lemma query_at_lookup nodes x : 0 <= x < zlen nodes -> nodes !! Z.to_nat x = Some (query_at nodes x).
Proof.
  intros Hx. unfold query_at. destruct (Z.ltb_spec x (zlen nodes)); [|lia]. destruct (nodes !! Z.to_nat x) as [n|] eqn:E.
  - now rewrite (nth_lookup_Some _ _ _ _ E).
  - apply lookup_ge_None in E. lia.
Qed.

Lemma query_at_Some nodes j n : nodes !! j = Some n -> query_at nodes (Z.of_nat j) = n.
Proof.
  intros E. pose proof (lookup_lt_Some _ _ _ E). unfold query_at. destruct (Z.ltb_spec (Z.of_nat j) (zlen nodes)); [|lia].
  rewrite Nat2Z.id. now apply nth_lookup_Some.
Qed.

Lemma query_at_app nodes more x : 0 <= x < zlen nodes -> query_at (nodes ++ more) x = query_at nodes x.
Proof.
  intros Hx. pose proof (query_at_lookup nodes x Hx) as E. unfold query_at at 1. rewrite length_app. destruct (Z.ltb_spec x (Z.of_nat (length nodes + length more))); [|lia].
  apply nth_lookup_Some. now rewrite lookup_app_l by (eapply lookup_lt_Some, E).
Qed.

Lemma query_at_snoc nodes n : query_at (nodes ++ [n]) (zlen nodes) = n.
Proof. apply query_at_Some. rewrite lookup_app_r by lia. now rewrite Nat.sub_diag. Qed.

Lemma update_at_length i f nodes : length (update_at i f nodes) = length nodes.
Proof. apply length_alter. Qed.

Lemma query_at_update i f nodes x : 0 <= i -> 0 <= x < zlen nodes ->
  query_at (update_at i f nodes) x = if x =? i then f (query_at nodes x) else query_at nodes x.
Proof.
  intros Hi Hx. pose proof (query_at_lookup nodes x Hx) as E. unfold query_at at 1. rewrite update_at_length. destruct (Z.ltb_spec x (zlen nodes)); [|lia].
  apply nth_lookup_Some. unfold update_at. destruct (Z.eqb_spec x i) as [->|Hn].
  - rewrite list_lookup_alter_eq, E. done.
  - rewrite list_lookup_alter_ne by lia. done.
Qed.

(** What holds of every instruction at its index. *)
Definition each (P : Z -> query_node_t -> Prop) (nodes : list query_node_t) : Prop := forall j n, nodes !! j = Some n -> P (Z.of_nat j) n.

Lemma each_at P nodes x : each P nodes -> 0 <= x < zlen nodes -> P x (query_at nodes x).
Proof. intros HP Hx. pose proof (HP _ _ (query_at_lookup nodes x Hx)) as H. now rewrite Z2Nat.id in H by lia. Qed.

Lemma each_snoc P nodes n : each P nodes -> P (zlen nodes) n -> each P (nodes ++ [n]).
Proof.
  intros HP Hn j x Hj. apply lookup_app_Some in Hj as [Hj|[Hl Hj]]; [now apply HP|].
  apply list_lookup_singleton_Some in Hj as [Hj <-]. replace (Z.of_nat j) with (zlen nodes) by lia. done.
Qed.

Lemma each_update (P : Z -> query_node_t -> Prop) i f nodes : 0 <= i -> (forall n, P i n -> P i (f n)) -> each P nodes -> each P (update_at i f nodes).
Proof.
  intros Hi Hf HP j n Hj. unfold update_at in Hj. destruct (decide (Z.to_nat i = j)) as [<-|Hne].
  - rewrite list_lookup_alter_eq in Hj. destruct (nodes !! Z.to_nat i) as [x|] eqn:E; [|discriminate]. injection Hj as <-.
    rewrite Z2Nat.id by lia. apply Hf. specialize (HP _ _ E). now rewrite Z2Nat.id in HP by lia.
  - rewrite list_lookup_alter_ne in Hj by done. now apply HP.
Qed.

Lemma each_mono (P Q : Z -> query_node_t -> Prop) nodes :
  (forall i n, 0 <= i < zlen nodes -> P i n -> Q i n) -> each P nodes -> each Q nodes.
Proof. intros HPQ HP j n Hj. pose proof (lookup_lt_Some _ _ _ Hj). apply HPQ; [lia|]. now apply HP. Qed.

(** ** Postfix order *)

Definition is_binary (op : Z) : bool := ((Q_CHILD <=? op) && (op <=? Q_OR)) || (op =? Q_ARGS).

Definition low (nodes : list query_node_t) (x : Z) : Z := (query_at nodes x).(n_low).

(** The operands of an instruction at [i], and the first instruction that is part of it. *)
Definition postfix (nodes : list query_node_t) (i : Z) (n : query_node_t) : Prop :=
  if is_binary n.(n_op) then
    n.(n_right) = i - 1 /\ n.(n_left) = low nodes n.(n_right) - 1 /\ n.(n_low) = low nodes n.(n_left) /\
    0 <= low nodes n.(n_left) <= n.(n_left) /\ n.(n_left) < low nodes n.(n_right) <= n.(n_right)
  else
    n.(n_right) = QUERY_NONE /\
    ((n.(n_left) = QUERY_NONE /\ n.(n_low) = i) \/
     (n.(n_op) = Q_CALL /\ n.(n_left) = i - 1 /\ n.(n_low) = low nodes n.(n_left) /\ 0 <= low nodes n.(n_left) <= n.(n_left))).

(** Values are side by side, the last one in front of [e]. *)
Fixpoint tiles (nodes : list query_node_t) (e : Z) (values : list Z) : Prop :=
  match values with
  | [] => e = 0
  | v :: values => v = e - 1 /\ 0 <= low nodes v <= v /\ tiles nodes (low nodes v) values
  end.

Lemma tiles_ext nodes nodes' values : forall e, (forall x, 0 <= x < e -> low nodes' x = low nodes x) -> tiles nodes e values -> tiles nodes' e values.
Proof.
  induction values as [|v values IH]; intros e He; simpl; [done|]. intros (-> & Hl & Ht). rewrite !He by lia. split_and!; [done|lia|lia|].
  apply IH; [|done]. intros x Hx. apply He. lia.
Qed.

Lemma postfix_ext nodes nodes' i n : (forall x, 0 <= x < i -> low nodes' x = low nodes x) -> postfix nodes i n -> postfix nodes' i n.
Proof.
  intros He. unfold postfix. destruct (is_binary n.(n_op)).
  - intros (Hr & Hl & Hlow & Hb & Hc). rewrite !(He n.(n_right)), !(He n.(n_left)) by lia. split_and!; lia.
  - intros [Hr [?|(Hop & Hl & Hlow & Hb)]]; split; auto. right. rewrite !(He n.(n_left)) by lia. done.
Qed.

Lemma tiles_length nodes values : forall e, tiles nodes e values -> zlen values <= e.
Proof. induction values as [|v values IH]; intros e; simpl; [lia|]. intros (-> & Hl & Ht). apply IH in Ht. lia. Qed.

(** ** What instructions are like before they are analyzed *)

Definition absent_or_before (i x : Z) : Prop := x = QUERY_NONE \/ 0 <= x < i.

Record pending (size i : Z) (n : query_node_t) : Prop := {
  pe_op : 0 <= n.(n_op) <= Q_BOOL;
  pe_span : 0 <= n.(n_begin) <= n.(n_end) /\ n.(n_end) <= size;
  pe_axis : 0 <= n.(n_axis) <= A_PRECEDE;
  pe_anchor : 0 <= n.(n_anchor) <= 2;
  pe_scalar : 0 <= n.(n_scalar) <= 1;
  pe_grouped : 0 <= n.(n_grouped) <= 1;
  pe_nested : 0 <= n.(n_nested) <= 1;
  pe_predicate : absent_or_before i n.(n_predicate_guard);
  pe_path : n.(n_path_guard) = QUERY_NONE \/
            0 <= n.(n_path_guard) < i /\ (n.(n_path_kind) = Q_CHILD \/ n.(n_path_kind) = Q_DESC \/ n.(n_path_kind) = Q_SELF);
  pe_variable : n.(n_op) = Q_VARIABLE -> n.(n_begin) + 2 <= n.(n_end);
  pe_folded : 0 <= n.(n_folded) <= 1;
  pe_data : n.(n_data_offset) = 0 /\ n.(n_data_size) = 0 /\ n.(n_resolved) = 0;
  pe_rest : n.(n_hook_id) = 0 /\ n.(n_scratch_size) = 0 /\ n.(n_negative) = 0 /\ n.(n_reuse) = QUERY_NONE }.

(** ** What constants and tags may need *)

(** The instructions that may add to the constants. *)
Definition paying (op : Z) : bool := (op =? Q_TEST) || (op =? Q_BYTES) || (op =? Q_STRING) || (op =? Q_VARIABLE) || (op =? Q_CALL).

Section Cost.
Context (most : Z).

Definition cost (n : query_node_t) : Z := if paying n.(n_op) then n.(n_end) - n.(n_begin) + most else 0.

Fixpoint costs (nodes : list query_node_t) : Z :=
  match nodes with
  | [] => 0
  | n :: nodes => cost n + costs nodes
  end.

Lemma costs_app l1 l2 : costs (l1 ++ l2) = costs l1 + costs l2.
Proof. induction l1; simpl; lia. Qed.

Lemma costs_update i f nodes : (forall n, cost (f n) = cost n) -> costs (update_at i f nodes) = costs nodes.
Proof.
  intros Hf. unfold update_at. generalize (Z.to_nat i). induction nodes as [|n nodes IH]; intros [|k]; simpl; [done|done| |].
  - rewrite Hf. done.
  - f_equal. apply IH.
Qed.

Definition token_cost (t : query_token_t) : Z := extent t + most.

Fixpoint token_costs (tokens : list query_token_t) : Z :=
  match tokens with
  | [] => 0
  | t :: tokens => token_cost t + token_costs tokens
  end.

Lemma token_costs_app l1 l2 : token_costs (l1 ++ l2) = token_costs l1 + token_costs l2.
Proof. induction l1; simpl; lia. Qed.

Lemma token_costs_extents tokens : token_costs tokens = extents tokens + zlen tokens * most.
Proof. induction tokens as [|t tokens IH]; simpl length; simpl; [lia|]. rewrite IH. unfold token_cost. lia. Qed.

(** What an operator that has not been reduced may still need. *)
Definition operator_cost (tokens : list query_token_t) (op : query_operator_t) : Z :=
  if op.(op_function) =? QUERY_NONE then 0 else token_cost (token_at tokens op.(op_function)).

Fixpoint operator_costs (tokens : list query_token_t) (ops : list query_operator_t) : Z :=
  match ops with
  | [] => 0
  | op :: ops => operator_cost tokens op + operator_costs tokens ops
  end.
End Cost.

(** An instruction whose operands are the last values. *)
Lemma new_node_binary nodes op l r t :
  is_binary op = true -> 0 <= l -> l < low nodes r <= r -> r = zlen nodes - 1 -> l = low nodes r - 1 -> 0 <= low nodes l <= l -> zlen nodes < QUERY_NONE ->
  let n := new_query_node nodes op l r t in
  postfix (nodes ++ [n]) (zlen nodes) n /\ n.(n_low) = low nodes l /\ n.(n_op) = op.
Proof.
  intros Hop Hl Hlr Hr Hll Hlow Hn n. unfold n, new_query_node, postfix. cbn [n_op n_left n_right n_low]. rewrite Hop.
  unfold low in *. rewrite !query_at_app by lia.
  assert (u32 (zlen nodes) = zlen nodes) as -> by (unfold u32; rewrite Z.mod_small; lia).
  destruct (Z.eqb_spec l QUERY_NONE); [lia|]. destruct (Z.eqb_spec r QUERY_NONE); [lia|]. cbn [negb andb].
  destruct (Z.ltb_spec (query_at nodes l).(n_low) (zlen nodes)); [|lia].
  destruct (Z.ltb_spec (query_at nodes r).(n_low) (query_at nodes l).(n_low)); [lia|]. split_and!; lia.
Qed.
(** An instruction without operands, or a call of the last value. *)
Lemma new_node_single nodes op l t : is_binary op = false -> zlen nodes < QUERY_NONE ->
  l = QUERY_NONE \/ (op = Q_CALL /\ l = zlen nodes - 1 /\ 0 <= low nodes l <= l) ->
  let n := new_query_node nodes op l QUERY_NONE t in
  postfix (nodes ++ [n]) (zlen nodes) n /\ n.(n_low) = (if l =? QUERY_NONE then zlen nodes else low nodes l) /\ n.(n_op) = op.
Proof.
  intros Hop Hn Hl n. unfold n, new_query_node, postfix. cbn [n_op n_left n_right n_low]. rewrite Hop.
  assert (u32 (zlen nodes) = zlen nodes) as -> by (unfold u32; rewrite Z.mod_small; lia).
  change (QUERY_NONE =? QUERY_NONE) with true. cbn [negb andb].
  destruct (Z.eqb_spec l QUERY_NONE) as [->|Hne]; cbn [negb andb]; [split_and!; auto|]. destruct Hl as [?|(-> & Hl & Hb)]; [lia|].
  unfold low in *. rewrite !query_at_app by lia. destruct (Z.ltb_spec (query_at nodes l).(n_low) (zlen nodes)); [|lia].
  split_and!; auto.
Qed.

Lemma new_node_pending size nodes op l r t : 0 <= op <= Q_BOOL -> 0 <= t.(tk_begin) <= t.(tk_end) /\ t.(tk_end) <= size ->
  (op = Q_VARIABLE -> t.(tk_begin) + 2 <= t.(tk_end)) -> pending size (zlen nodes) (new_query_node nodes op l r t).
Proof.
  intros Hop Hspan Hv. unfold new_query_node. constructor; simpl; try lia; auto. now left.
Qed.

Lemma low_snoc nodes n x : 0 <= x < zlen nodes -> low (nodes ++ [n]) x = low nodes x.
Proof. intros Hx. unfold low. now rewrite query_at_app. Qed.

Lemma low_update i f nodes x : 0 <= i -> 0 <= x < zlen nodes -> (forall n, (f n).(n_low) = n.(n_low)) -> low (update_at i f nodes) x = low nodes x.
Proof. intros Hi Hx Hf. unfold low. rewrite query_at_update by lia. destruct (_ =? _); auto. Qed.

(** ** The parser's invariant *)

Section Parser.
Context (m : mem) (text : ptr) (size : Z) (tokens : list query_token_t) (max_nesting max_states most : Z).
Context (Hsize : 0 <= size) (Hmost : 0 <= most) (Htokens : spaced size 0 tokens) (Hcount : 2 * zlen tokens < QUERY_NONE).

Definition well (nodes : list query_node_t) : Prop :=
  each (postfix nodes) nodes /\ each (pending size) nodes.

(** The stacks of the parser: [n], [k], [v] and [c] bound the instructions and operators, the operators, the values and
    the costs. *)
Record stacks (nodes : list query_node_t) (ops : list query_operator_t) (values : list Z) (n k v c : Z) : Prop := {
  sk_well : well nodes;
  sk_tiles : tiles nodes (zlen nodes) values;
  sk_nodes : zlen nodes + zlen ops <= n;
  sk_ops : zlen ops <= k;
  sk_values : zlen values <= v;
  sk_costs : costs most nodes + operator_costs most tokens ops <= c }.

Lemma token_span i : 0 <= (token_at tokens i).(tk_begin) <= (token_at tokens i).(tk_end) /\ (token_at tokens i).(tk_end) <= size.
Proof using Hsize Htokens.
  unfold token_at. destruct (Z.ltb_spec i (zlen tokens)); [|simpl; lia].
  destruct (nth_in_or_default (Z.to_nat i) tokens no_token) as [Hin| ->]; [|simpl; lia].
  pose proof (spaced_Forall _ _ _ (Z.le_refl 0) Htokens) as HF. rewrite List.Forall_forall in HF. destruct (HF _ Hin) as [Hb [He _]]. lia.
Qed.

Lemma token_cost_nonneg i : 0 <= token_cost most (token_at tokens i).
Proof using Hsize Htokens Hmost. pose proof (token_span i). unfold token_cost, extent. lia. Qed.

Lemma operator_costs_nonneg ops : 0 <= operator_costs most tokens ops.
Proof using Hsize Htokens Hmost.
  induction ops as [|op ops IH]; simpl; [lia|]. unfold operator_cost. pose proof (token_cost_nonneg op.(op_function)). destruct (_ =? _); lia.
Qed.

Lemma well_snoc nodes n : well nodes -> postfix (nodes ++ [n]) (zlen nodes) n -> pending size (zlen nodes) n -> well (nodes ++ [n]).
Proof.
  intros [Hp Hd] Hn Hn'. split; apply each_snoc; auto.
  intros j x Hj. pose proof (lookup_lt_Some _ _ _ Hj). eapply postfix_ext; [|apply (Hp _ _ Hj)]. intros y Hy. apply low_snoc. lia.
Qed.

Lemma well_update i f nodes : 0 <= i ->
  (forall n, (f n).(n_op) = n.(n_op) /\ (f n).(n_left) = n.(n_left) /\ (f n).(n_right) = n.(n_right) /\ (f n).(n_low) = n.(n_low)) ->
  (forall n, pending size i n -> pending size i (f n)) -> well nodes -> well (update_at i f nodes).
Proof.
  intros Hi Hf Hpe [Hp Hd]. split; [|now apply each_update].
  apply (each_mono (postfix nodes)).
  - intros j n Hj Hn. rewrite update_at_length in Hj. eapply postfix_ext; [|exact Hn]. intros x Hx. apply low_update; [lia|lia|]. intros y. apply Hf.
  - apply each_update; [done| |done]. intros n. unfold postfix. destruct (Hf n) as (-> & -> & -> & ->). done.
Qed.

Lemma tiles_push nodes n values l : tiles nodes l values -> l <= zlen nodes -> n.(n_low) = l -> 0 <= l ->
  tiles (nodes ++ [n]) (zlen (nodes ++ [n])) (zlen nodes :: values).
Proof.
  intros Ht Hl Hn Hl0. simpl. unfold low. rewrite query_at_snoc, Hn, length_app. simpl length. split_and!; [lia|lia|lia|].
  eapply tiles_ext; [|exact Ht]. intros x Hx. apply low_snoc. lia.
Qed.

Lemma tiles_update nodes i f values : 0 <= i -> (forall n, (f n).(n_low) = n.(n_low)) -> tiles nodes (zlen nodes) values ->
  tiles (update_at i f nodes) (zlen (update_at i f nodes)) values.
Proof. intros Hi Hf Ht. rewrite update_at_length. eapply tiles_ext; [|exact Ht]. intros x Hx. apply low_update; auto; lia. Qed.

Lemma operation_binary kind : is_binary (operation kind) = true.
Proof. unfold operation. repeat destruct (_ =? _); reflexivity. Qed.

Lemma binary_op op : is_binary op = true -> 0 <= op <= Q_BOOL /\ paying op = false /\ op <> Q_VARIABLE.
Proof. unfold is_binary, paying. intros Hb. split_and!; zlia. Qed.

(** Two values become one. *)
Lemma push_binary nodes ops l r values n k v c op t : is_binary op = true ->
  0 <= t.(tk_begin) <= t.(tk_end) /\ t.(tk_end) <= size -> n < QUERY_NONE ->
  well nodes -> tiles nodes (zlen nodes) (r :: l :: values) -> zlen nodes + 1 + zlen ops <= n -> zlen ops <= k -> zlen values + 1 <= v ->
  costs most nodes + operator_costs most tokens ops <= c ->
  stacks (fst (add_node nodes op l r t)) ops (snd (add_node nodes op l r t) :: values) n k v c.
Proof.
  intros Hop Ht Hn Hw (-> & Hr & -> & Hl & Hrest) Hnodes Hops Hv Hc. unfold add_node. cbn [fst snd].
  destruct (binary_op op Hop) as (Hrange & Hpay & Hvar).
  destruct (new_node_binary nodes op (low nodes (zlen nodes - 1) - 1) (zlen nodes - 1) t) as (Hpost & Hlow & Hnop); [done|lia|lia|lia|lia|lia|lia|].
  assert (u32 (zlen nodes) = zlen nodes) as -> by (unfold u32; rewrite Z.mod_small; lia).
  constructor; [| | | |simpl; lia|].
  - apply well_snoc; [done|done|]. apply new_node_pending; [lia|done|lia].
  - eapply tiles_push; [exact Hrest|lia|exact Hlow|lia].
  - rewrite length_app. simpl. lia.
  - lia.
  - rewrite costs_app. simpl. unfold cost. rewrite Hnop, Hpay. lia.
Qed.

Lemma reduce_stacks nodes op ops values n k v c nodes' values' : n < QUERY_NONE ->
  stacks nodes (op :: ops) values n k v c -> reduce nodes values op tokens = Some (nodes', values') -> stacks nodes' ops values' n k v c.
Proof.
  intros Hn [Hw Ht Hnodes Hops Hv Hc]. unfold reduce. destruct values as [|r [|l values]]; [discriminate|discriminate|].
  destruct (add_node nodes (operation (op_kind op)) l r (token_at tokens (op_token op))) as [nodes1 i] eqn:E. intros [= <- <-].
  simpl length in *. simpl in Hc.
  pose proof (push_binary nodes ops l r values n k v c (operation (op_kind op)) (token_at tokens (op_token op))) as Hpush. rewrite E in Hpush. cbn [fst snd] in Hpush.
  pose proof (operator_costs_nonneg [op]). simpl in *.
  apply Hpush; auto using operation_binary, token_span; lia.
Qed.

Lemma reduce_while_stacks reduces n k v c : n < QUERY_NONE -> forall ops nodes values ops' nodes' values',
  stacks nodes ops values n k v c -> reduce_while reduces ops nodes values tokens = Some (ops', nodes', values') -> stacks nodes' ops' values' n k v c.
Proof.
  intros Hn. induction ops as [|op ops IH]; intros nodes values ops' nodes' values' Hs; simpl; [intros [= <- <- <-]; done|].
  destruct (reduces _); [|intros [= <- <- <-]; done].
  destruct (reduce nodes values op tokens) as [[nodes1 values1]|] eqn:E; [|discriminate]. apply IH. eapply reduce_stacks; eassumption.
Qed.
(** A value is pushed: an operand, or a call of [l], which was the last value. *)
Lemma push_single nodes ops l rest n k v c op t : is_binary op = false -> 0 <= op <= Q_BOOL ->
  0 <= t.(tk_begin) <= t.(tk_end) /\ t.(tk_end) <= size -> (op = Q_VARIABLE -> t.(tk_begin) + 2 <= t.(tk_end)) -> n < QUERY_NONE ->
  well nodes -> (l = QUERY_NONE /\ tiles nodes (zlen nodes) rest) \/ (op = Q_CALL /\ tiles nodes (zlen nodes) (l :: rest)) ->
  zlen nodes + 1 + zlen ops <= n -> zlen ops <= k -> zlen rest + 1 <= v ->
  costs most nodes + (if paying op then token_cost most t else 0) + operator_costs most tokens ops <= c ->
  stacks (fst (add_node nodes op l QUERY_NONE t)) ops (snd (add_node nodes op l QUERY_NONE t) :: rest) n k v c.
Proof.
  intros Hop Hrange Ht Hvar Hn Hw Hl Hnodes Hops Hv Hc. unfold add_node. cbn [fst snd].
  assert (u32 (zlen nodes) = zlen nodes) as -> by (unfold u32; rewrite Z.mod_small; lia).
  destruct (new_node_single nodes op l t) as (Hpost & Hlow & Hnop); [done|lia| |].
  { destruct Hl as [[-> _]|(-> & -> & Hb & _)]; [auto|right; split_and!; auto; lia]. }
  constructor; [| | | |simpl; lia|].
  - apply well_snoc; [done|done|]. now apply new_node_pending.
  - destruct Hl as [[-> Hrest]|(-> & -> & Hb & Hrest)]; (eapply tiles_push; [exact Hrest|lia| |lia]); rewrite Hlow; [done|].
    destruct (Z.eqb_spec (zlen nodes - 1) QUERY_NONE); [lia|done].
  - rewrite length_app. simpl. lia.
  - lia.
  - rewrite costs_app. cbn [costs]. unfold cost. rewrite Hnop. unfold token_cost, extent in Hc. cbn [n_begin n_end new_query_node].
    destruct (paying op); lia.
Qed.

Lemma stacks_update nodes ops values n k v c i f : 0 <= i ->
  (forall n, (f n).(n_op) = n.(n_op) /\ (f n).(n_left) = n.(n_left) /\ (f n).(n_right) = n.(n_right) /\ (f n).(n_low) = n.(n_low)) ->
  (forall n, (f n).(n_begin) = n.(n_begin) /\ (f n).(n_end) = n.(n_end)) -> (forall n, pending size i n -> pending size i (f n)) ->
  stacks nodes ops values n k v c -> stacks (update_at i f nodes) ops values n k v c.
Proof.
  intros Hi Hf Hspan Hpe [Hw Ht Hnodes Hops Hv Hc]. constructor; auto.
  - now apply well_update.
  - apply tiles_update; [done| |done]. intros x. apply Hf.
  - now rewrite update_at_length.
  - rewrite costs_update; [done|]. intros x. unfold cost. destruct (Hf x) as (-> & _). destruct (Hspan x) as (-> & ->). done.
Qed.

Lemma stacks_weaken nodes ops values n k v c n' k' v' c' : n <= n' -> k <= k' -> v <= v' -> c <= c' ->
  stacks nodes ops values n k v c -> stacks nodes ops values n' k' v' c'.
Proof. intros ? ? ? ? [Hw Ht Hnodes Hops Hv Hc]. constructor; auto; lia. Qed.

(** An operator is pushed. *)
Lemma stacks_operator nodes ops values n k v c op : 0 <= c ->
  stacks nodes ops values n k v c -> stacks nodes (op :: ops) values (n + 1) (k + 1) v (c + operator_cost most tokens op).
Proof. intros ? [Hw Ht Hnodes Hops Hv Hc]. constructor; simpl; auto; lia. Qed.

(** ** Tokens that have been read *)

Definition spent (i : Z) : Z := token_costs most (take (Z.to_nat i) tokens).

Lemma spent_step i : 0 <= i < zlen tokens -> spent (i + 1) = spent i + token_cost most (token_at tokens i).
Proof.
  intros Hi. unfold spent, token_at. destruct (Z.ltb_spec i (zlen tokens)); [|lia]. replace (Z.to_nat (i + 1)) with (S (Z.to_nat i)) by lia.
  destruct (lookup_lt_is_Some_2 tokens (Z.to_nat i)) as [t Ht]; [lia|]. erewrite take_S_r by exact Ht. rewrite token_costs_app. simpl.
  rewrite (nth_lookup_Some _ _ _ _ Ht). lia.
Qed.

Lemma spent_nonneg i : 0 <= spent i.
Proof.
  unfold spent. pose proof (spaced_Forall _ _ _ (Z.le_refl 0) Htokens) as HF. apply (Forall_take _ (Z.to_nat i)) in HF.
  revert HF. generalize (take (Z.to_nat i) tokens) as l. induction l as [|t l IH]; simpl; [lia|]. intros HF. inversion HF as [|? ? [Hb [He _]] HF']; subst.
  apply IH in HF'. unfold token_cost, extent. lia.
Qed.

Lemma spent_all : spent (zlen tokens) <= size + zlen tokens * most.
Proof.
  unfold spent. rewrite Nat2Z.id, firstn_all, token_costs_extents. pose proof (spaced_extents _ _ _ Hsize Htokens). lia.
Qed.

(** The parser in front of token [i]. *)
Definition at_token (s : parse_state) (i : Z) : Prop :=
  0 <= i <= zlen tokens /\ stacks s.(ps_nodes) s.(ps_ops) s.(ps_values) (2 * i) i i (spent i).

Lemma parse_open_at s i : at_token s i -> i < zlen tokens -> forall s' j, parse_open max_nesting s i (token_at tokens i) = Parsed s' j -> at_token s' j /\ i < j.
Proof.
  intros [Hi Hs] Hlt s' j. unfold parse_open. destruct (_ || _); [discriminate|]. destruct (_ =? _); [discriminate|]. intros [= <- <-].
  split; [|lia]. split; [lia|]. cbn [ps_nodes ps_ops ps_values]. rewrite spent_step by lia. pose proof (token_cost_nonneg i). pose proof (spent_nonneg i).
  eapply stacks_weaken; [..|apply stacks_operator; [|exact Hs]]; simpl; try lia; unfold operator_cost; simpl; lia.
Qed.

Lemma parse_operator_at s i : at_token s i -> i < zlen tokens -> forall s' j, parse_operator tokens s i (token_at tokens i) = Parsed s' j -> at_token s' j /\ i < j.
Proof.
  intros [Hi Hs] Hlt s' j. unfold parse_operator. set (t := token_at tokens i). destruct (_ && _); [discriminate|].
  pose proof (token_cost_nonneg i). pose proof (spent_nonneg i).
  destruct (if ps_expected s then _ else _) as [nodes values] eqn:E.
  assert (Hroot : stacks nodes s.(ps_ops) values (2 * i + 1) i (i + 1) (spent i)).
  { destruct (ps_expected s).
    - destruct (add_node _ _ _ _ _) as [nodes1 root] eqn:Ea. injection E as <- <-. destruct Hs as [Hw Ht Hnodes Hops Hv Hc].
      pose proof (push_single s.(ps_nodes) s.(ps_ops) QUERY_NONE s.(ps_values) (2 * i + 1) i (i + 1) (spent i) Q_ROOT t) as Hp.
      rewrite Ea in Hp. cbn [fst snd] in Hp. apply Hp; auto; try lia; try discriminate; [apply token_span|cbn; lia].
    - injection E as <- <-. eapply stacks_weaken; [..|exact Hs]; lia. }
  destruct (reduce_while _ _ _ _ _) as [[[ops nodes'] values']|] eqn:Er; [|discriminate]. intros [= <- <-]. split; [|lia]. split; [lia|].
  cbn [ps_nodes ps_ops ps_values]. rewrite spent_step by lia.
  eapply stacks_weaken; [..|apply stacks_operator; [|eapply reduce_while_stacks; [|exact Hroot|exact Er]]]; try lia.
  all: unfold operator_cost; simpl; lia.
Qed.
Lemma spent_mono i j : 0 <= i <= j -> j <= zlen tokens -> spent i <= spent j.
Proof.
  intros Hi Hj. replace j with (i + Z.of_nat (Z.to_nat (j - i))) by lia. assert (i + Z.of_nat (Z.to_nat (j - i)) <= zlen tokens) as Hb by lia. clear Hj.
  induction (Z.to_nat (j - i)) as [|k IH]; [replace (i + Z.of_nat 0) with i by lia; lia|].
  replace (i + Z.of_nat (S k)) with (i + Z.of_nat k + 1) by lia. rewrite spent_step by lia. pose proof (token_cost_nonneg (i + Z.of_nat k)). lia.
Qed.

Lemma token_kind i : 0 <= i < zlen tokens -> (token_at tokens i).(tk_kind) = T_VARIABLE -> (token_at tokens i).(tk_begin) + 2 <= (token_at tokens i).(tk_end).
Proof.
  intros Hi. unfold token_at. destruct (Z.ltb_spec i (zlen tokens)); [|lia].
  pose proof (spaced_Forall _ _ _ (Z.le_refl 0) Htokens) as HF. rewrite List.Forall_forall in HF.
  destruct (HF (nth (Z.to_nat i) tokens no_token)) as [_ (_ & Hv & _)]; [apply nth_In; lia|]. exact Hv.
Qed.

(** The fields that the parser sets of an instruction that it has made. *)
Definition keeps (f : query_node_t -> query_node_t) : Prop :=
  (forall n, (f n).(n_op) = n.(n_op) /\ (f n).(n_left) = n.(n_left) /\ (f n).(n_right) = n.(n_right) /\ (f n).(n_low) = n.(n_low)) /\
  (forall n, (f n).(n_begin) = n.(n_begin) /\ (f n).(n_end) = n.(n_end)) /\ (forall i n, pending size i n -> pending size i (f n)).

Lemma keeps_anchor x : 0 <= x <= 2 -> keeps (with_n_anchor x).
Proof. intros Hx. split_and!; [done|done|]. intros i n []. constructor; auto. Qed.
Lemma keeps_grouped : keeps (with_n_grouped 1).
Proof. split_and!; [done|done|]. intros i n []. constructor; auto. simpl. lia. Qed.
Lemma keeps_operand scalar anchor axis : 0 <= scalar <= 1 -> 0 <= anchor <= 2 -> 0 <= axis <= A_PRECEDE ->
  keeps (fun x => with_n_scalar scalar (with_n_anchor anchor (with_n_axis axis x))).
Proof. intros ? ? ?. split_and!; [done|done|]. intros i n []. constructor; auto. Qed.

Lemma stacks_keeps nodes ops values n k v c i f : 0 <= i -> keeps f ->
  stacks nodes ops values n k v c -> stacks (update_at i f nodes) ops values n k v c.
Proof. intros Hi (Hf & Hs & Hp). apply stacks_update; auto. Qed.

Lemma add_node_nonneg nodes op l r t : 0 <= snd (add_node nodes op l r t).
Proof. unfold add_node, u32. simpl. apply Z.mod_pos_bound. lia. Qed.

Lemma parse_step_at s i j0 axis : at_token s i -> i <= j0 < zlen tokens -> 0 <= axis <= A_PRECEDE ->
  forall s' j, parse_step max_states s j0 axis (token_at tokens j0) = Parsed s' j -> at_token s' j /\ i < j.
Proof.
  intros [Hi [Hw Ht Hnodes Hops Hv Hc]] Hlt Haxis s' j. unfold parse_step. set (t := token_at tokens j0).
  destruct (operand_op t.(tk_kind)) as [op0|] eqn:Eop; [|discriminate]. cbv zeta.
  set (op := if (op0 =? Q_SELF) && _ && _ then Q_ROOT else op0).
  assert (Hop0 : is_binary op0 = false /\ 0 <= op0 <= Q_BOOL /\ (op0 = Q_VARIABLE -> t.(tk_begin) + 2 <= t.(tk_end))).
  { pose proof (token_kind j0 ltac:(lia)) as Hk. fold t in Hk. revert Eop. unfold operand_op, is_binary.
    repeat match goal with |- context[if ?x =? ?y then _ else _] => destruct (Z.eqb_spec x y); [intros [= <-]; split_and!; try lia; auto|] end. discriminate. }
  assert (Hop : is_binary op = false /\ 0 <= op <= Q_BOOL /\ (op = Q_VARIABLE -> t.(tk_begin) + 2 <= t.(tk_end))).
  { subst op. destruct (_ && _); [split_and!; try done; lia|done]. }
  destruct Hop as (Hbin & Hrange & Hvar). destruct (add_node s.(ps_nodes) op QUERY_NONE QUERY_NONE t) as [nodes n] eqn:Ea.
  destruct (_ <? _); [discriminate|]. intros [= <- <-]. split; [|lia]. split; [lia|]. cbn [ps_nodes ps_ops ps_values].
  pose proof (spent_mono i j0 ltac:(lia) ltac:(lia)) as Hmono. pose proof (token_cost_nonneg j0) as Hcost. fold t in Hcost.
  pose proof (spent_step j0 ltac:(lia)) as Hstep. fold t in Hstep.
  pose proof (push_single s.(ps_nodes) s.(ps_ops) QUERY_NONE s.(ps_values) (2 * i + 1) i (i + 1) (spent (j0 + 1)) op t) as Hp.
  rewrite Ea in Hp. cbn [fst snd] in Hp. pose proof (add_node_nonneg s.(ps_nodes) op QUERY_NONE QUERY_NONE t) as Hn0. rewrite Ea in Hn0. cbn [snd] in Hn0.
  apply (stacks_keeps _ _ _ _ _ _ _ n).
  - lia.
  - apply keeps_operand; repeat match goal with |- context[if ?b then _ else _] => destruct b end; lia.
  - eapply stacks_weaken; [..|apply Hp]; try lia; auto; [apply token_span|]. destruct (paying op); lia.
Qed.

Lemma axis_loop_bounds names t : forall axis, axis <= axis_loop m text names axis t.
Proof. induction names as [|name names IH]; intros axis; simpl; [lia|]. destruct (query_word _ _ _ _ _); [lia|]. specialize (IH (axis + 1)). lia. Qed.

Lemma parse_operand_at s i : at_token s i -> i < zlen tokens -> forall s' j,
  parse_operand m text tokens max_nesting max_states s i (token_at tokens i) = Parsed s' j -> at_token s' j /\ i < j.
Proof.
  intros Hat Hlt s' j. pose proof Hat as [Hi Hs]. unfold parse_operand. cbv zeta. destruct (negb s.(ps_expected)); [discriminate|].
  destruct ((_ =? T_WORD) && (i + 1 <? zlen tokens) && (_ =? T_OPEN)) eqn:Eo.
  { destruct (ps_nesting s =? max_nesting); [discriminate|]. intros [= <- <-]. assert (i + 1 < zlen tokens) by zlia. split; [|lia]. split; [lia|]. cbn [ps_nodes ps_ops ps_values].
    pose proof (spent_nonneg i) as Hn. pose proof (spent_step i ltac:(lia)) as Hs1. pose proof (spent_mono (i + 1) (i + 2) ltac:(lia) ltac:(lia)) as Hs2.
    eapply stacks_weaken; [..|apply stacks_operator; [exact Hn|exact Hs]]; try lia. unfold operator_cost. cbn [op_function].
    assert (u32 i = i) as -> by (unfold u32; rewrite Z.mod_small; lia). destruct (Z.eqb_spec i QUERY_NONE); lia. }
  destruct ((_ =? T_WORD) && (i + 1 <? zlen tokens) && (_ =? T_AXIS)) eqn:Ea.
  - destruct (Z.ltb_spec A_PRECEDE (axis_loop m text query_axis_names 0 (token_at tokens i))); [discriminate|].
    destruct ((zlen tokens <=? i + 2) || _) eqn:El; [discriminate|]. pose proof (axis_loop_bounds query_axis_names (token_at tokens i) 0).
    apply parse_step_at; [done| |lia]. apply orb_false_iff in El as [El _]. lia.
  - apply parse_step_at; [done|lia|lia].
Qed.
Lemma tiles_hd_nonneg nodes e values : tiles nodes e values -> 0 <= List.hd 0 values.
Proof. destruct values as [|v values]; simpl; [lia|]. intros (-> & ? & _). lia. Qed.

Lemma close_call nodes op ops values i args rest predicates nodes' call :
  stacks nodes (op :: ops) values (2 * i) i i (spent i) -> 0 <= i <= zlen tokens -> op.(op_function) <> QUERY_NONE ->
  (args = QUERY_NONE /\ rest = values) \/ (args = List.hd QUERY_NONE values /\ rest = List.tl values) ->
  add_node nodes Q_CALL args QUERY_NONE (token_at tokens op.(op_function)) = (nodes', call) ->
  stacks (update_at call (with_n_anchor (call_anchor tokens predicates op.(op_function))) nodes') ops (call :: rest) (2 * i) i (i + 1) (spent i).
Proof.
  intros [Hw Ht Hnodes Hops Hv Hc] Hi Hf Hargs Ea. simpl in Hnodes, Hops, Hc. unfold operator_cost in Hc. destruct (Z.eqb_spec op.(op_function) QUERY_NONE); [done|].
  pose proof (add_node_nonneg nodes Q_CALL args QUERY_NONE (token_at tokens op.(op_function))) as Hn0. rewrite Ea in Hn0.
  apply stacks_keeps; [done|apply keeps_anchor; unfold call_anchor; destruct (_ && _); lia|].
  pose proof (push_single nodes ops args rest (2 * i) i (i + 1) (spent i) Q_CALL (token_at tokens op.(op_function))) as Hp. rewrite Ea in Hp. cbn [fst snd] in Hp.
  assert (zlen rest <= zlen values) by (destruct Hargs as [[_ ->]|[_ ->]]; [lia|destruct values; simpl; lia]).
  apply Hp; [done|lia|apply token_span|discriminate|lia|done| |lia|lia|lia|cbn; lia].
  destruct Hargs as [[-> ->]|[-> ->]]; [auto|]. destruct values as [|v values]; [left; auto|right; auto].
Qed.

Lemma parse_close_at s i : at_token s i -> i < zlen tokens -> forall s' j, parse_close tokens s i (token_at tokens i) = Parsed s' j -> at_token s' j /\ i < j.
Proof.
  intros [Hi Hs] Hlt s' j. unfold parse_close. destruct (reduce_while _ _ _ _ _) as [[[[|op ops] nodes] values]|] eqn:Er; [discriminate| |discriminate].
  assert (2 * i < QUERY_NONE) as Hn by lia. pose proof (reduce_while_stacks _ _ _ _ _ Hn _ _ _ _ _ _ Hs Er) as Hk. cbv zeta.
  assert (Hclosed : forall nodes' values' p s' j, stacks nodes' ops values' (2 * i) i (i + 1) (spent i) ->
    Parsed (mk_parse nodes' ops values' (s.(ps_nesting) - 1) p false false) (i + 1) = Parsed s' j -> at_token s' j /\ i < j).
  { intros nodes' values' p s1 j1 Hst [= <- <-]. split; [|lia]. split; [lia|]. cbn [ps_nodes ps_ops ps_values].
    pose proof (token_cost_nonneg i). eapply stacks_weaken; [..|exact Hst]; rewrite ?spent_step; lia. }
  destruct (_ || _); [discriminate|]. destruct (negb (op.(op_function) =? QUERY_NONE)) eqn:Ef.
  - destruct (_ && _); [discriminate|]. destruct (if zlen values =? op_base op then _ else _) as [args rest] eqn:Ea.
    destruct (add_node nodes Q_CALL args QUERY_NONE _) as [nodes' call] eqn:En. apply Hclosed. eapply close_call; [exact Hk|lia| | |exact En].
    + now destruct (Z.eqb_spec op.(op_function) QUERY_NONE).
    + destruct (zlen values =? op_base op); injection Ea as <- <-; auto.
  - pose proof Hk as [Hw Ht Hnodes Hops Hv Hc]. simpl in Hnodes, Hops, Hc. pose proof (operator_costs_nonneg [op]) as Ho. simpl in Ho.
    destruct (op.(op_kind) =? T_POPEN).
    + destruct (_ || _); [discriminate|]. destruct values as [|r [|l values]]; [discriminate|discriminate|].
      destruct (add_node nodes Q_FILTER l r _) as [nodes' filter] eqn:En. apply Hclosed.
      pose proof (push_binary nodes ops l r values (2 * i) i (i + 1) (spent i) Q_FILTER (token_at tokens op.(op_token))) as Hp. rewrite En in Hp. cbn [fst snd] in Hp.
      simpl in Hv. apply Hp; [done|apply token_span|lia|done|done|lia..].
    + destruct (_ || _); [discriminate|]. apply Hclosed. apply stacks_keeps; [eapply tiles_hd_nonneg, Ht|apply keeps_grouped|]. constructor; auto; lia.
Qed.

Lemma parse_token_at s i s' j : at_token s i -> i < zlen tokens -> parse_token m text tokens max_nesting max_states s i = Parsed s' j -> at_token s' j /\ i < j.
Proof.
  intros Hat Hlt. unfold parse_token. cbv zeta. destruct (_ || _); [now apply parse_open_at|]. destruct (_ || _); [now apply parse_close_at|].
  destruct (negb _); [now apply parse_operator_at|]. now apply parse_operand_at.
Qed.

(** ** The parser as a machine *)

Inductive parsing : parse_state -> Z -> Prop :=
| parsing_start : parsing (mk_parse [] [] [] 0 0 true false) 0
| parsing_step s i s' j : parsing s i -> i < zlen tokens -> parse_token m text tokens max_nesting max_states s i = Parsed s' j -> parsing s' j.

Lemma parsing_at s i : parsing s i -> at_token s i.
Proof.
  induction 1 as [|s i s' j _ IH Hlt Hp].
  - split; [lia|]. constructor; simpl; try lia; [|unfold spent; simpl; lia]. split; intros j n Hj; discriminate.
  - now apply (parse_token_at s i).
Qed.

(** The loop ends with a state that is reached, at the end of the tokens. *)
Lemma parse_tokens_parsing fuel : forall s i s', zlen tokens - i <= Z.of_nat fuel -> parsing s i ->
  parse_tokens m text tokens max_nesting max_states fuel s i = inl s' -> parsing s' (zlen tokens).
Proof.
  induction fuel as [|fuel IH]; intros s i s' Hf Hs; simpl; pose proof (parsing_at _ _ Hs) as [Hi _].
  - intros [= <-]. now replace (zlen tokens) with i by lia.
  - destruct (Z.ltb_spec i (zlen tokens)); [|intros [= <-]; now replace (zlen tokens) with i by lia].
    destruct (parse_token m text tokens max_nesting max_states s i) as [s1 j|t|t|t|t] eqn:E; try discriminate.
    pose proof (parse_token_at s i s1 j (parsing_at _ _ Hs) ltac:(lia) E) as [_ Hj].
    apply IH; [lia|]. now apply (parsing_step s i).
Qed.

(** What the parser gives: instructions in postfix order, the last one for the whole, with bounds. *)
Lemma parse_result d rc nodes root d' : parse m text tokens max_nesting max_states d = (rc, Some (nodes, root), d') ->
  rc = TLV_OK /\ well nodes /\ root = zlen nodes - 1 /\ 0 <= root /\ zlen nodes <= 2 * zlen tokens /\ zlen nodes <= max_states /\
  costs most nodes <= size + zlen tokens * most.
Proof.
  unfold parse. destruct (parse_tokens _ _ _ _ _ _ _ _) as [s|[[] e]] eqn:Et;
    [|unfold query_limit; repeat (destruct (query_error _ _ _ _ _ _)); discriminate..].
  apply parse_tokens_parsing in Et; [|lia|constructor]. apply parsing_at in Et as [Hi Hs].
  destruct (_ || _); [destruct (negb _); destruct tokens; discriminate|].
  destruct (reduce_while _ _ _ _ _) as [[[ops nodes'] values]|] eqn:Er; [|discriminate].
  apply (reduce_while_stacks _ (2 * zlen tokens) (zlen tokens) (zlen tokens) (spent (zlen tokens))) in Er; [|lia|done].
  destruct values as [|v [|]]; [discriminate| |discriminate]. destruct (Z.ltb_spec max_states (zlen nodes')); [discriminate|].
  intros [= <- <- <- <-]. destruct Er as [Hw (-> & Hl & Ht) Hnodes Hops Hv Hc]. pose proof (operator_costs_nonneg ops). pose proof spent_all.
  split_and!; try done; try lia.
Qed.
End Parser.

(** * Guards keep the order of instructions

    The predicate and the path a step is guarded by are in front of it. *)

Section Guards.
Context (m : mem) (text : ptr) (size : Z).

Lemma update_range_length l h f nodes : length (update_range l h f nodes) = length nodes.
Proof. apply length_imap. Qed.

Lemma update_range_lookup l h f nodes j n : update_range l h f nodes !! j = Some n ->
  exists x, nodes !! j = Some x /\ n = if (l <=? Z.of_nat j) && (Z.of_nat j <=? h) then f x else x.
Proof. unfold update_range. rewrite list_lookup_imap. destruct (nodes !! j) as [x|]; [|discriminate]. intros [= <-]. eauto. Qed.

Lemma low_range l h f nodes x : 0 <= x < zlen nodes -> (forall n, (f n).(n_low) = n.(n_low)) -> low (update_range l h f nodes) x = low nodes x.
Proof.
  intros Hx Hf. pose proof (query_at_lookup (update_range l h f nodes) x) as E. rewrite update_range_length in E. specialize (E Hx).
  apply update_range_lookup in E as (y & Hy & E). unfold low. rewrite E. rewrite (query_at_lookup nodes x Hx) in Hy. injection Hy as <-.
  destruct (_ && _); auto.
Qed.

(** The class of an instruction that its operands depend on. *)
Definition same_links (f : query_node_t -> query_node_t) : Prop := forall n,
  is_binary (f n).(n_op) = is_binary n.(n_op) /\ (n.(n_op) = Q_CALL -> (f n).(n_op) = Q_CALL) /\ (f n).(n_left) = n.(n_left) /\
  (f n).(n_right) = n.(n_right) /\ (f n).(n_low) = n.(n_low).

Lemma postfix_same nodes i f n : same_links f -> postfix nodes i n -> postfix nodes i (f n).
Proof.
  intros Hf. destruct (Hf n) as (Hb & Hc & Hl & Hr & Hlow). unfold postfix. rewrite Hb, Hl, Hr, Hlow. destruct (is_binary n.(n_op)); [done|].
  intros [? [?|(? & ?)]]; auto.
Qed.

Lemma well_range l h f nodes : same_links f -> (forall j n, l <= j <= h -> pending size j n -> pending size j (f n)) ->
  well size nodes -> well size (update_range l h f nodes).
Proof.
  intros Hf Hpe [Hp Hd]. split; intros j n Hj; pose proof (lookup_lt_Some _ _ _ Hj) as Hlt; rewrite update_range_length in Hlt;
    apply update_range_lookup in Hj as (x & Hx & ->).
  - eapply postfix_ext; [intros y Hy; apply low_range; [lia|apply Hf]|]. destruct (_ && _); [apply postfix_same|]; auto.
  - destruct (_ && _) eqn:E; [apply Hpe; [zlia|]|]; auto.
Qed.

Lemma costs_range most f nodes : (forall n, cost most (f n) = cost most n) -> forall l h, costs most (update_range l h f nodes) = costs most nodes.
Proof.
  intros Hf. unfold update_range. assert (Hg : forall (g : nat -> query_node_t -> query_node_t), (forall j n, cost most (g j n) = cost most n) -> costs most (imap g nodes) = costs most nodes).
  { induction nodes as [|n nodes IH]; intros g Hg; simpl; [done|]. rewrite Hg, IH; [done|]. intros j x. apply Hg. }
  intros l h. apply Hg. intros j n. destruct (_ && _); auto.
Qed.

Lemma guard_step_links op left : same_links (guard_step m text op left).
Proof.
  intros n. unfold guard_step. cbv zeta.
  set (n1 := if (n.(n_op) =? Q_ROOT) && _ && _ then with_n_nested 1 n else n).
  assert (H1 : n1.(n_op) = n.(n_op) /\ n1.(n_left) = n.(n_left) /\ n1.(n_right) = n.(n_right) /\ n1.(n_low) = n.(n_low)) by (subst n1; destruct (_ && _); done).
  destruct H1 as (Ho & Hl & Hr & Hw). destruct (_ || _); [rewrite Ho, Hl, Hr, Hw; auto|]. destruct (negb _); [rewrite Ho, Hl, Hr, Hw; auto|].
  destruct (Z.eqb_spec n1.(n_op) Q_ROOT) as [E|E]; simpl; rewrite ?Hl, ?Hr, ?Hw, <- ?Ho; [|auto]. rewrite E. split_and!; auto. discriminate.
Qed.

Lemma guard_step_cost most op left n : cost most (guard_step m text op left n) = cost most n.
Proof.
  unfold guard_step. cbv zeta.
  set (n1 := if (n.(n_op) =? Q_ROOT) && _ && _ then with_n_nested 1 n else n).
  assert (H1 : cost most n1 = cost most n) by (subst n1; destruct (_ && _); done).
  rewrite <- H1. destruct (_ || _); [done|]. destruct (negb _); [done|].
  destruct (Z.eqb_spec n1.(n_op) Q_ROOT) as [E|E]; [|done]. unfold cost. simpl. now rewrite E.
Qed.

Lemma guard_step_pending op left j n : op = Q_CHILD \/ op = Q_DESC -> 0 <= left < j -> pending size j n -> pending size j (guard_step m text op left n).
Proof.
  intros Hop Hl Hn. unfold guard_step. cbv zeta.
  set (n1 := if (n.(n_op) =? Q_ROOT) && _ && _ then with_n_nested 1 n else n).
  assert (H1 : pending size j n1). { subst n1. destruct (_ && _); [|done]. destruct Hn. constructor; auto. simpl. lia. }
  destruct (_ || _); [done|]. destruct (negb _); [done|].
  set (n2 := if n1.(n_op) =? Q_ROOT then with_n_op Q_SELF n1 else n1).
  assert (H2 : pending size j n2). { subst n2. destruct (n1.(n_op) =? Q_ROOT); [|done]. destruct H1. constructor; auto; simpl; try lia; discriminate. }
  destruct H2. constructor; auto; simpl; [lia|]. right. split; [done|]. repeat match goal with |- context[if ?b then _ else _] => destruct b end; auto. destruct Hop; auto.
Qed.

(** What a pass over all instructions keeps. *)
Definition guarded (most count bound : Z) (nodes : list query_node_t) : Prop :=
  well size nodes /\ zlen nodes = count /\ costs most nodes <= bound.

Lemma guard_node_keeps most count bound nodes i : 0 <= i < count -> guarded most count bound nodes -> guarded most count bound (guard_node m text nodes i).
Proof.
  intros Hi (Hw & Hlen & Hc). unfold guard_node. cbv zeta. fold (low nodes (n_right (query_at nodes i))). set (n := query_at nodes i).
  assert (Hlinks : is_binary n.(n_op) = true -> 0 <= n.(n_left) < low nodes n.(n_right)).
  { destruct Hw as [Hp _]. pose proof (each_at _ _ i Hp ltac:(lia)) as Hn. fold n in Hn. unfold postfix in Hn. intros Hb. rewrite Hb in Hn. lia. }
  destruct (Z.eqb_spec n.(n_op) Q_FILTER) as [E|E].
  - rewrite E in Hlinks. specialize (Hlinks eq_refl). split_and!.
    + apply well_range; [intros x; auto|intros j x Hj [] | done]. constructor; auto. right. simpl. lia.
    + now rewrite update_range_length.
    + rewrite costs_range; done.
  - destruct ((n.(n_op) =? Q_CHILD) || (n.(n_op) =? Q_DESC)) eqn:Eo; [|done].
    assert (Hop : n.(n_op) = Q_CHILD \/ n.(n_op) = Q_DESC) by zlia.
    assert (is_binary n.(n_op) = true) as Hb by (destruct Hop as [-> | ->]; done). specialize (Hlinks Hb). split_and!.
    + apply well_range; [apply guard_step_links| |done]. intros j x Hj. apply guard_step_pending; [done|lia].
    + now rewrite update_range_length.
    + rewrite costs_range; [done|]. intros x. apply guard_step_cost.
Qed.

Lemma add_guards_keeps most count bound nodes : guarded most count bound nodes -> guarded most count bound (add_guards m text nodes).
Proof.
  intros Hg. unfold add_guards. assert (Hall : Forall (fun i => 0 <= i < count) (map Z.of_nat (seq 0 (length nodes)))).
  { destruct Hg as (_ & <- & _). apply list.Forall_forall. intros i Hi. apply list_elem_of_fmap in Hi as (k & -> & Hk). apply elem_of_seq in Hk. lia. }
  revert nodes Hg Hall. intros nodes Hg. generalize (map Z.of_nat (seq 0 (length nodes))) as l. intros l Hall. revert nodes Hg.
  induction Hall as [|i l Hi _ IH]; intros nodes Hg; simpl; [done|]. apply IH. now apply guard_node_keeps.
Qed.
End Guards.
