(* ===== verification/QueryAnalyzeLaws.v ===== *)
(** * The instructions that analysis gives are valid

    What one step of analysis leaves of an instruction, and then what the passes keep of all of them: operands in front of
    them, types that fit the operation, constants inside of the payload, and selectors that exist.  Analysis adds no
    more constants than the tokens of the text have room for, be it that it fails. *)

From Stdlib Require Import String.
From S2P Require Import Prelude Mem Core Format Diagnostic QueryPath QueryProgram QueryParser QueryAnalyze QueryParserLaws.

(** ** Sizes of constants *)

Lemma pair_lists_length l : zlen (pair_bytes l) = zlen l / 2 /\ zlen (pair_masks l) = zlen l / 2.
Proof.
  enough (forall k l, (length l <= k)%nat -> zlen (pair_bytes l) = zlen l / 2 /\ zlen (pair_masks l) = zlen l / 2) as H by now apply (H (length l)).
  clear l. intros k. induction k as [|k IH]; intros [|x [|y l]] Hk; simpl in Hk; try lia; try done.
  destruct (IH l) as [H1 H2]; [lia|]. simpl length. rewrite !Nat2Z.inj_succ, H1, H2.
  replace (Z.succ (Z.succ (zlen l))) with (zlen l + 1 * 2) by lia. rewrite Z.div_add by lia. lia.
Qed.

Lemma unescape_length m text n : forall j e, zlen (unescape m text n j e) <= Z.max 0 (e - j).
Proof.
  induction n as [|n IH]; intros j e; simpl; [lia|]. destruct (Z.ltb_spec j e); simpl; [|lia].
  specialize (IH ((if ld m text j =? 92 then j + 1 else j) + 1) e). destruct (_ =? _); lia.
Qed.

Lemma span_length m text n : n.(n_begin) <= n.(n_end) -> zlen (span m text n) = n.(n_end) - n.(n_begin).
Proof. intros Hn. unfold span. rewrite length_bytes_of. lia. Qed.

(** What lies in the payload stays there. *)
Definition slice (l : list Z) (offset size : Z) : list Z := take (Z.to_nat size) (drop (Z.to_nat offset) l).

Lemma slice_app l more offset size : 0 <= offset -> 0 <= size -> offset + size <= zlen l -> slice (l ++ more) offset size = slice l offset size.
Proof.
  intros Ho Hs Hl. unfold slice. rewrite drop_app_le by lia. rewrite take_app_le; [done|]. rewrite length_drop. lia.
Qed.

Lemma slice_end l more : slice (l ++ more) (zlen l) (zlen more) = more.
Proof. unfold slice. rewrite !Nat2Z.id, drop_app_length. apply firstn_all. Qed.

(** ** What instructions are like while they are analyzed *)

Definition linked (i : Z) (n : query_node_t) : Prop :=
  0 <= n.(n_low) <= i /\
  if is_binary n.(n_op) then 0 <= n.(n_left) < i /\ 0 <= n.(n_right) < i
  else n.(n_right) = QUERY_NONE /\ (n.(n_left) = QUERY_NONE \/ (n.(n_op) = Q_CALL /\ 0 <= n.(n_left) < i)).

Lemma postfix_linked nodes i n : 0 <= i -> postfix nodes i n -> linked i n.
Proof.
  intros Hi. unfold postfix, linked. destruct (is_binary n.(n_op)).
  - intros (Hr & Hl & -> & Hb & Hc). lia.
  - intros [? [[? ->]|(? & ? & -> & ?)]]; split; [lia|auto|lia|]. split; [done|right; split; [done|lia]].
Qed.

(** [p] is the size of the payload. *)
Record base (size i stride p : Z) (n : query_node_t) : Prop := {
  ba_op : 0 <= n.(n_op) <= Q_BOOL;
  ba_links : linked i n;
  ba_span : 0 <= n.(n_begin) <= n.(n_end) /\ n.(n_end) <= size;
  ba_axis : 0 <= n.(n_axis) <= A_PRECEDE;
  ba_anchor : 0 <= n.(n_anchor) <= 2;
  ba_scalar : 0 <= n.(n_scalar) <= 1;
  ba_grouped : 0 <= n.(n_grouped) <= 1;
  ba_nested : 0 <= n.(n_nested) <= 1;
  ba_predicate : absent_or_before i n.(n_predicate_guard);
  ba_path : n.(n_path_guard) = QUERY_NONE \/
            0 <= n.(n_path_guard) < i /\ (n.(n_path_kind) = Q_CHILD \/ n.(n_path_kind) = Q_DESC \/ n.(n_path_kind) = Q_SELF);
  ba_variable : n.(n_op) = Q_VARIABLE -> n.(n_begin) + 2 <= n.(n_end);
  ba_folded : 0 <= n.(n_folded) <= 1;
  ba_context : 0 <= n.(n_context) <= 1;
  ba_negative : 0 <= n.(n_negative) <= 1;
  ba_resolved : 0 <= n.(n_resolved) <= 2;
  ba_data : 0 <= n.(n_data_offset) /\ 0 <= n.(n_data_size) /\ n.(n_data_offset) + n.(n_data_size) <= p;
  ba_mask : n.(n_resolved) = 2 -> 0 <= n.(n_mask_offset) /\ n.(n_mask_offset) + n.(n_data_size) <= p;
  ba_hook : n.(n_scratch_size) = 0 \/ (n.(n_hook_id) <> 0 /\ 0 <= n.(n_scratch_size) <= stride);
  ba_reuse : absent_or_before i n.(n_reuse) }.

Lemma base_mono size i stride p stride' p' n : stride <= stride' -> p <= p' -> base size i stride p n -> base size i stride' p' n.
Proof. intros Hs Hp []. constructor; auto; lia. Qed.

(** The state, and how a step changes it: at most [k] octets are added. *)
Definition state_ok (a : analysis) : Prop := 0 <= a.(an_stride) /\ a.(an_stride) mod 16 = 0 /\ a.(an_stride) < 4294967296 /\ 0 <= a.(an_level) <= TLV_QUERY_D.

Record grows (k : Z) (a a' : analysis) : Prop := {
  gr_nodes : a'.(an_nodes) = a.(an_nodes);
  gr_payload : exists more, a'.(an_payload) = a.(an_payload) ++ more /\ zlen more <= k;
  gr_stride : a.(an_stride) <= a'.(an_stride);
  gr_ok : state_ok a' }.

Lemma grows_refl k a : 0 <= k -> state_ok a -> grows k a a.
Proof. intros Hk Ha. constructor; auto; [|lia]. exists []. split; [now rewrite app_nil_r|simpl; lia]. Qed.

Lemma grows_trans k1 k2 a b c : grows k1 a b -> grows k2 b c -> grows (k1 + k2) a c.
Proof.
  intros [N1 (m1 & P1 & L1) S1 O1] [N2 (m2 & P2 & L2) S2 O2]. constructor; [congruence| |lia|done].
  exists (m1 ++ m2). rewrite P2, P1, app_assoc, length_app. split; [done|lia].
Qed.

Lemma grows_level k level a : 0 <= k -> 0 <= level <= TLV_QUERY_D -> state_ok a -> grows k a (with_level level a).
Proof. intros Hk Hl (? & ? & ? & ?). constructor; simpl; [done| |lia|split_and!; simpl; lia]. exists []. split; [now rewrite app_nil_r|simpl; lia]. Qed.

Lemma grows_payload k more a : zlen more <= k -> state_ok a -> grows k a (with_payload more a).
Proof. intros Hk (? & ? & ? & ?). constructor; simpl; [done| |lia|split_and!; simpl; lia]. eauto. Qed.

Lemma grows_size k a a' : grows k a a' -> payload_end a <= payload_end a' <= payload_end a + k /\ a.(an_stride) <= a'.(an_stride).
Proof. intros [_ (more & Hp & Hm) Hs _]. unfold payload_end. rewrite Hp, length_app. lia. Qed.

(** What a step leaves of an instruction. *)
Record kept (n n' : query_node_t) : Prop := {
  kp_op : n'.(n_op) = n.(n_op);
  kp_left : n'.(n_left) = n.(n_left);
  kp_span : n'.(n_begin) = n.(n_begin) /\ n'.(n_end) = n.(n_end);
  kp_selector : n'.(n_selector) = n.(n_selector) }.

Lemma kept_refl n : kept n n.
Proof. now constructor. Qed.

Lemma kept_trans a b c : kept a b -> kept b c -> kept a c.
Proof. intros [? ? [? ?] ?] [? ? [? ?] ?]. constructor; [congruence|congruence|split; congruence|congruence]. Qed.

Lemma meta_loop_bounds m text names n : forall k j, meta_loop m text names k n = Some j -> k <= j < k + zlen names.
Proof.
  induction names as [|name names IH]; intros k j; cbn [meta_loop length]; [discriminate|]. destruct (is_word _ _ _ _); [intros [= <-]; lia|]. intros Hj. apply IH in Hj. lia.
Qed.

Lemma meta_loop_same m text names n n' : n'.(n_begin) = n.(n_begin) -> n'.(n_end) = n.(n_end) -> forall k, meta_loop m text names k n' = meta_loop m text names k n.
Proof.
  intros Hb He. induction names as [|name names IH]; intros k; cbn [meta_loop]; [done|]. unfold is_word. rewrite Hb, He. destruct (query_word _ _ _ _ _); [done|apply IH].
Qed.

#[local] Arguments meta_loop : simpl never.

Section Operands.
Context `{QueryConfig} (m : mem) (text : ptr) (o : tlv_query_compile_options_t) (d : option tlv_query_diagnostic_t) (size : Z).

Abbreviation base_in i a := (base size i a.(an_stride) (payload_end a)).

(** What a step on the instruction [i] may cost, and what it keeps. *)
Definition steps (i k : Z) (n : query_node_t) (a : analysis) (n' : query_node_t) (a' : analysis) : Prop :=
  grows k a a' /\ base_in i a' n' /\ kept n n'.

Lemma steps_trans i k1 k2 n a n1 a1 n2 a2 : steps i k1 n a n1 a1 -> steps i k2 n1 a1 n2 a2 -> steps i (k1 + k2) n a n2 a2.
Proof. intros (G1 & B1 & K1) (G2 & B2 & K2). split_and!; [eapply grows_trans|done|eapply kept_trans]; eassumption. Qed.

Lemma steps_refl i k n a : 0 <= k -> state_ok a -> base_in i a n -> steps i k n a n a.
Proof. intros. split_and!; [now apply grows_refl|done|apply kept_refl]. Qed.

Lemma base_grows i k a a' n : grows k a a' -> base_in i a n -> base_in i a' n.
Proof. intros G. apply base_mono; apply grows_size in G; lia. Qed.

Lemma resolved_tag_size n a ns name x y tag : 0 <= o.(co_max_resolved_tag) -> resolved_tag m o d n a ns name x y = inl tag ->
  zlen tag <= o.(co_max_resolved_tag).
Proof.
  intros Hmax. unfold resolved_tag. destruct o.(co_resolve) as [resolve|]; [|discriminate]. destruct (resolve ns name) as [rc t].
  destruct (negb _); [discriminate|]. destruct (_ || _); [discriminate|]. destruct (Z.ltb_spec o.(co_max_resolved_tag) t.(t_size)); [discriminate|].
  intros [= <-]. unfold tag_bytes. rewrite length_bytes_of. lia.
Qed.

(** The constant of an instruction is put behind the payload. *)
Lemma base_data i a n more r s : base_in i a n -> 0 <= r <= 1 -> s = zlen more ->
  base_in i (with_payload more a) (with_data (payload_end a) s (with_n_resolved r n)).
Proof.
  intros Hn Hr ->. destruct Hn. unfold payload_end in *. constructor; simpl; auto; rewrite ?length_app; lia.
Qed.

Lemma analyze_test_steps i n a n' a' : 0 <= o.(co_max_resolved_tag) -> state_ok a -> base_in i a n -> n.(n_op) = Q_TEST ->
  analyze_test m text o d n a = inl (n', a') -> steps i (cost o.(co_max_resolved_tag) n) n a n' a' /\ n'.(n_type) = n.(n_type).
Proof.
  intros Hmax Ha Hn Hop. pose proof (ba_span _ _ _ _ _ Hn) as Hspan. unfold cost. rewrite Hop. change (paying Q_TEST) with true. cbv iota.
  unfold analyze_test. destruct (negb _).
  { destruct (resolve_name _ _ _ _ _ _) as [tag|] eqn:Et; [|discriminate]. intros [= <- <-].
    assert (zlen tag <= o.(co_max_resolved_tag)) as Ht.
    { unfold resolve_name in Et. destruct (split_colon _) as [x [y|]]; eapply resolved_tag_size; eauto. }
    split; [split_and!; [apply grows_payload; [lia|done]|apply base_data; auto; lia|done]|done]. }
  destruct (_ && _); [intros [= <- <-]; split; [apply steps_refl; auto; lia|done]|].
  destruct (negb (_ mod 2 =? 0) || _) eqn:Em; [discriminate|]. apply orb_false_iff in Em as [Em _]. apply negb_false_iff, Z.eqb_eq in Em.
  intros [= <- <-]. set (n1 := with_data _ _ _). change (span m text n1) with (span m text n). subst n1. destruct (pair_lists_length (span m text n)) as [H1 H2]. rewrite span_length in H1, H2 by lia.
  set (b := n.(n_end) - n.(n_begin)) in *. pose proof (Z.div_mod b 2 ltac:(lia)).
  split; [split_and!|done].
  - replace (b + co_max_resolved_tag o) with (b / 2 + (b / 2 + co_max_resolved_tag o)) by lia.
    eapply (grows_trans _ _ _ (with_payload (pair_bytes (span m text n)) a)); [apply grows_payload; [lia|done]|].
    apply grows_payload; [lia|exact Ha].
  - destruct Hn. unfold payload_end in *. constructor; simpl; auto; rewrite ?length_app; fold b; lia.
  - done.
Qed.
(** ** Variables, numbers and constants *)

Definition variable_ok (payload : list Z) (n : query_node_t) : Prop :=
  exists kind, find_variable (List.tl (span m text n)) (option_variables o) = Some kind /\ n.(n_type) = query_private_type kind /\
    n.(n_data_size) = n.(n_end) - n.(n_begin) - 1 /\ slice payload n.(n_data_offset) n.(n_data_size) = List.tl (span m text n).

Lemma analyze_variable_steps i n a n' a' : state_ok a -> base_in i a n -> n.(n_op) = Q_VARIABLE -> n.(n_resolved) = 0 ->
  analyze_variable m text o d n a = inl (n', a') ->
  steps i (n.(n_end) - n.(n_begin)) n a n' a' /\ variable_ok a'.(an_payload) n'.
Proof.
  intros Ha Hn Hop Hres. pose proof (ba_variable _ _ _ _ _ Hn Hop) as Hlen. unfold analyze_variable.
  destruct (find_variable _ _) as [kind|] eqn:Ef; [|discriminate]. intros [= <- <-].
  assert (zlen (List.tl (span m text n)) = n.(n_end) - n.(n_begin) - 1) as Hz.
  { pose proof (span_length m text n ltac:(lia)) as Hs. destruct (span m text n); simpl in *; lia. }
  split; [split_and!|].
  - apply grows_payload; [lia|done].
  - destruct Hn. unfold payload_end in *. constructor; simpl; auto; rewrite ?length_app; lia.
  - done.
  - exists kind. split_and!; auto. simpl. unfold payload_end. rewrite <- Hz. apply slice_end.
Qed.

Definition literal_ok (n : query_node_t) : Prop :=
  query_immediate n <= INT64_MAX + n.(n_negative) /\ (query_immediate n = 0 -> n.(n_negative) = 0).

Lemma literal_value_bounds maximum l : forall value v, 0 <= value <= maximum -> literal_value l maximum value = inl v -> 0 <= v <= maximum.
Proof.
  induction l as [|c l IH]; intros value v Hv; simpl; [intros [= <-]; done|]. destruct (Z.ltb_spec 9 (u32 (c - 48))); [discriminate|].
  destruct (Z.ltb_spec ((maximum - u32 (c - 48)) / 10) value); [discriminate|]. apply IH.
  assert (0 <= u32 (c - 48)) by (unfold u32; apply Z.mod_pos_bound; lia). pose proof (Z.mul_div_le (maximum - u32 (c - 48)) 10 ltac:(lia)). lia.
Qed.

Lemma analyze_literal_steps i n a n' a' : state_ok a -> base_in i a n -> analyze_literal m text d n a = inl (n', a') ->
  steps i 0 n a n' a' /\ literal_ok n' /\ n'.(n_type) = n.(n_type).
Proof.
  intros Ha Hn. unfold analyze_literal. set (negative := if ld m text n.(n_begin) =? 45 then 1 else 0).
  assert (negative = 0 \/ negative = 1) as Hneg by (subst negative; destruct (_ =? _); auto).
  destruct (literal_value _ _ _) as [value|[|]] eqn:El; [|discriminate|discriminate]. apply literal_value_bounds in El; [|lia]. intros [= <- <-].
  split; [split_and!|split].
  - destruct (_ =? 2); [apply grows_level; [lia|lia|done]|now apply grows_refl].
  - assert (base_in i a (with_immediate (u32 value) (u32 (Z.shiftr value 32)) (if value =? 0 then 0 else negative) n)) as Hb.
    { destruct Hn. constructor; auto. simpl. destruct (value =? 0); lia. }
    destruct (_ =? 2); exact Hb.
  - done.
  - assert (query_immediate (with_immediate (u32 value) (u32 (Z.shiftr value 32)) (if value =? 0 then 0 else negative) n) = value) as Hi.
    { unfold query_immediate. simpl. rewrite Z.shiftl_mul_pow2, Z.shiftr_div_pow2 by lia. unfold u32. change 4294967296 with (2 ^ 32).
      rewrite (Z.mod_small (value / 2 ^ 32)); [|split; [apply Z.div_pos; lia|apply Z.div_lt_upper_bound; lia]].
      rewrite lor_shift_add by (pose proof (Z.mod_pos_bound value (2 ^ 32)); lia). pose proof (Z.div_mod value (2 ^ 32)). lia. }
    unfold literal_ok. rewrite Hi. simpl. destruct (Z.eqb_spec value 0); lia.
  - done.
Qed.

Lemma analyze_constant_steps i n a : state_ok a -> base_in i a n -> n.(n_op) = Q_BYTES \/ n.(n_op) = Q_STRING -> n.(n_resolved) = 0 ->
  steps i (n.(n_end) - n.(n_begin)) n a (fst (analyze_constant m text n a)) (snd (analyze_constant m text n a)) /\
  (fst (analyze_constant m text n a)).(n_type) = (if n.(n_op) =? Q_BYTES then V_BYTES else V_STRING).
Proof.
  intros Ha Hn Hop Hres. pose proof (ba_span _ _ _ _ _ Hn) as Hspan. unfold analyze_constant. set (data := if _ =? _ then _ else _). cbn [fst snd].
  assert (zlen data <= n.(n_end) - n.(n_begin)) as Hd.
  { subst data. destruct (_ =? _).
    - destruct (pair_lists_length (bytes_of m (text +p (n.(n_begin) + 2)) (n.(n_end) - n.(n_begin) - 3))) as [-> _]. rewrite length_bytes_of.
      pose proof (Z.div_le_upper_bound (Z.of_nat (Z.to_nat (n.(n_end) - n.(n_begin) - 3))) 2 (n.(n_end) - n.(n_begin))). lia.
    - pose proof (unescape_length m text (Z.to_nat (n.(n_end) - n.(n_begin))) (n.(n_begin) + 1) (n.(n_end) - 1)). lia. }
  split; [split_and!|done].
  - apply grows_payload; [lia|done].
  - destruct Hn. unfold payload_end in *. constructor; simpl; auto; rewrite ?length_app; lia.
  - done.
Qed.
(** ** Operands *)

(** The type of an instruction that is neither a call nor a variable. *)
Definition operand_kind (op : Z) : Z :=
  if (op =? Q_META) || (op =? Q_LITERAL) then V_NUMBER
  else if op =? Q_BYTES then V_BYTES
  else if op =? Q_STRING then V_STRING
  else if (op =? Q_BOOL) || ((Q_EQ <=? op) && (op <=? Q_OR)) then V_BOOL
  else V_NODE.

Record operand_ok (payload : list Z) (n : query_node_t) : Prop := {
  ok_variable : n.(n_op) = Q_VARIABLE -> variable_ok payload n;
  ok_literal : n.(n_op) = Q_LITERAL -> literal_ok n;
  ok_meta : n.(n_op) = Q_META -> is_Some (meta_loop m text meta_names 0 n);
  ok_type : n.(n_op) <> Q_VARIABLE -> n.(n_type) = operand_kind n.(n_op) }.

Lemma base_type i a t n : base_in i a n -> base_in i a (with_node_type t n).
Proof. intros []. constructor; auto. Qed.

Lemma steps_type i k n a n' a' t : steps i k n a n' a' -> steps i k n a (with_node_type t n') a'.
Proof. intros (G & B & [? ? ? ?]). split_and!; [done|now apply base_type|now constructor]. Qed.

Lemma steps_weaken i k k' n a n' a' : k <= k' -> steps i k n a n' a' -> steps i k' n a n' a'.
Proof. intros Hk ([? (more & ? & ?) ? ?] & B & K). split_and!; [|done|done]. constructor; auto. exists more. split; [done|lia]. Qed.

Lemma steps_level i k n a n' a' level : 0 <= level <= TLV_QUERY_D -> steps i k n a n' a' -> steps i k n a n' (with_level level a').
Proof.
  intros Hl ([? Hp ? (? & ? & ? & ?)] & B & K). split_and!; [|exact B|done]. constructor; auto. split_and!; simpl; lia.
Qed.

Lemma operand_test i n a n' a' : 0 <= o.(co_max_resolved_tag) -> state_ok a -> base_in i a n -> n.(n_op) = Q_TEST -> n.(n_type) = V_NODE ->
  analyze_operand m text o d n a = inl (n', a') -> steps i (cost o.(co_max_resolved_tag) n) n a n' a' /\ operand_ok a'.(an_payload) n'.
Proof.
  intros Hmax Ha Hn Hop Ht. pose proof (ba_span _ _ _ _ _ Hn) as Hspan. unfold analyze_operand. rewrite Hop. change (Q_TEST =? Q_TEST) with true. cbn [andb].
  destruct (if (n_resolved n =? 0) && (n_context n =? 0) then _ else _) as [[n1 a1]|] eqn:Et; [|discriminate].
  assert (steps i (cost o.(co_max_resolved_tag) n) n a n1 a1 /\ n1.(n_type) = n.(n_type)) as [Hs Ht1].
  { destruct (_ && _); [now apply analyze_test_steps|]. injection Et as <- <-. split; [|done]. apply steps_refl; auto.
    unfold cost. rewrite Hop. simpl. lia. }
  pose proof (kp_op _ _ (proj2 (proj2 Hs))) as Hop1. rewrite Hop in Hop1. repeat (rewrite Hop1; cbn). intros [= <- <-]. split.
  - destruct (axis_delayed n1); [apply steps_level; [lia|done]|done].
  - constructor; rewrite Hop1; try discriminate. intros _. now rewrite Ht1.
Qed.

Lemma operand_other i n a n' a' : 0 <= o.(co_max_resolved_tag) -> state_ok a -> base_in i a n -> n.(n_op) <> Q_TEST -> n.(n_type) = V_NODE -> n.(n_resolved) = 0 ->
  analyze_operand m text o d n a = inl (n', a') -> steps i (cost o.(co_max_resolved_tag) n) n a n' a' /\ operand_ok a'.(an_payload) n'.
Proof.
  intros Hmax Ha Hn Hop Ht Hr. pose proof (ba_span _ _ _ _ _ Hn) as Hspan. pose proof (ba_op _ _ _ _ _ Hn) as Hrange. unfold analyze_operand.
  rewrite (proj2 (Z.eqb_neq _ _) Hop). cbn [andb]. rewrite ?(proj2 (Z.eqb_neq _ _) Hop). cbn [andb]. destruct (Z.eqb_spec n.(n_op) Q_VARIABLE) as [Hv|Hv].
  { destruct (analyze_variable _ _ _ _ _ _) as [[n1 a1]|] eqn:Ev; [|discriminate]. destruct (analyze_variable_steps i n a n1 a1 Ha Hn Hv Hr Ev) as [Hs Hok].
    pose proof (kp_op _ _ (proj2 (proj2 Hs))) as Hop1. rewrite Hv in Hop1. repeat (rewrite Hop1; cbn). intros [= <- <-]. split.
    - eapply steps_weaken; [|exact Hs]. unfold cost. rewrite Hv. cbn. lia.
    - constructor; rewrite Hop1; try discriminate; try done. }
  assert (Hrefl : forall t, steps i (cost o.(co_max_resolved_tag) n) n a (with_node_type t n) a).
  { intros t. apply steps_type, steps_refl; auto. unfold cost. destruct (paying _); lia. }
  destruct (Z.eqb_spec n.(n_op) Q_META) as [Hm|Hm].
  { cbn. repeat (rewrite Hm; cbn). destruct (meta_loop _ _ _ _ _) as [j|] eqn:Ej; cbn; [|discriminate]. intros [= <- <-]. split; [apply Hrefl|].
    constructor; cbn; rewrite Hm; try discriminate; [|done]. intros _. exists j. exact Ej. }
  destruct (Z.eqb_spec n.(n_op) Q_LITERAL) as [Hl|Hl].
  { cbn. repeat (rewrite Hl; cbn). destruct (analyze_literal _ _ _ _ _) as [[n1 a1]|] eqn:Ev; [|discriminate].
    apply (analyze_literal_steps i) in Ev as (Hs & Hok & Ht1); [|done|now apply base_type]. pose proof (kp_op _ _ (proj2 (proj2 Hs))) as Hop1. cbn in Hop1. rewrite Hl in Hop1.
    repeat (rewrite Hop1; cbn). intros [= <- <-]. split.
    - pose proof (steps_trans i _ _ _ _ _ _ _ _ (Hrefl V_NUMBER) Hs) as Hst. now rewrite Z.add_0_r in Hst.
    - constructor; rewrite Hop1; try discriminate; auto. }
  cbn [orb]. destruct (Z.eqb_spec n.(n_op) Q_BOOL) as [Hb|Hb].
  { cbn. repeat (rewrite Hb; cbn). intros [= <- <-]. split; [apply Hrefl|]. constructor; cbn; rewrite Hb; try discriminate; auto. }
  rewrite (proj2 (Z.eqb_neq _ _) Hm), (proj2 (Z.eqb_neq _ _) Hl). cbn.
  destruct ((n.(n_op) =? Q_BYTES) || (n.(n_op) =? Q_STRING)) eqn:Ec.
  { assert (n.(n_op) = Q_BYTES \/ n.(n_op) = Q_STRING) as Hc by zlia. destruct (analyze_constant_steps i n a Ha Hn Hc Hr) as [Hs Ht1].
    destruct (analyze_constant m text n a) as [n1 a1]. cbn [fst snd] in Hs, Ht1. pose proof (kp_op _ _ (proj2 (proj2 Hs))) as Hop1. rewrite Hop1.
    assert ((Q_EQ <=? n.(n_op)) && (n.(n_op) <=? Q_OR) = false) as -> by zlia. intros [= <- <-]. split.
    - eapply steps_weaken; [|exact Hs]. unfold cost. destruct Hc as [-> | ->]; cbn; lia.
    - constructor; rewrite Hop1; try lia. intros _. rewrite Ht1. destruct Hc as [-> | ->]; done. }
  assert (Hcost : 0 <= cost o.(co_max_resolved_tag) n) by (unfold cost; destruct (paying _); lia).
  destruct ((Q_EQ <=? n.(n_op)) && (n.(n_op) <=? Q_OR)) eqn:Eb; intros [= <- <-]; (split; [first [apply Hrefl | now apply steps_refl]|]);
    constructor; cbn; try lia; intros _; unfold operand_kind; rewrite ?Ht, Eb; repeat match goal with |- context[?x =? ?y] => destruct (Z.eqb_spec x y); try lia end; done.
Qed.

Lemma analyze_operand_steps i n a n' a' : 0 <= o.(co_max_resolved_tag) -> state_ok a -> base_in i a n -> n.(n_type) = V_NODE -> n.(n_resolved) = 0 ->
  analyze_operand m text o d n a = inl (n', a') -> steps i (cost o.(co_max_resolved_tag) n) n a n' a' /\ operand_ok a'.(an_payload) n'.
Proof. intros. destruct (Z.eq_dec n.(n_op) Q_TEST); [now apply operand_test|now apply operand_other]. Qed.
End Operands.

(** ** Arguments *)

Lemma call_args_count nodes fuel : forall cursor args l, zlen args <= 2 -> call_args_loop fuel nodes cursor args = Some l ->
  count_args fuel nodes cursor (zlen args) = Some (zlen l).
Proof.
  induction fuel as [|fuel IH]; intros cursor args l Ha; simpl; destruct (Z.eqb_spec cursor QUERY_NONE) as [E|E]; cbn [negb andb];
    try (intros [= <-]; done); destruct (_ =? Q_ARGS); try (intros [= <-]; simpl length; f_equal; lia);
    destruct (Z.eqb_spec (zlen args) 2); try discriminate; (destruct (Z.ltb_spec 2 (zlen args + 1)); [lia|]).
  intros Hl. apply IH in Hl; simpl length in *; [|lia]. rewrite <- Hl. f_equal. lia.
Qed.

(** A hook that the options have is one. *)
Lemma hooks_have_ids hooks : forall earlier, hooks_invalid earlier hooks = false -> Forall (fun h => h.(hk_id) <> 0) hooks.
Proof.
  induction hooks as [|h hooks IH]; intros earlier; simpl; [constructor|]. rewrite orb_false_iff. intros [Hh Hs]. constructor; [|eapply IH, Hs].
  unfold hook_invalid in Hh. rewrite !orb_false_iff in Hh. destruct Hh as [[[[[[Hid _] _] _] _] _] _]. now apply Z.eqb_neq.
Qed.

(** The branch without an error. *)
Ltac branch := match goal with |- (if ?b then _ else _) = _ -> _ => destruct b; [discriminate|] end.

Section Calls.
Context `{QueryConfig} (m : mem) (text : ptr) (o : tlv_query_compile_options_t) (d : option tlv_query_diagnostic_t) (size : Z).
Context (Hmax : 0 <= o.(co_max_resolved_tag)) (Hhooks : environment_invalid o = false).

Lemma find_hook_id f hook : find_hook o f = Some hook -> hook.(hk_id) <> 0.
Proof.
  unfold find_hook. unfold environment_invalid in Hhooks. destruct o.(co_environment) as [e|]; [|discriminate].
  apply orb_false_iff in Hhooks as [_ Hh]. apply hooks_have_ids in Hh. revert Hh. generalize (environment_hooks e) as hooks.
  intros hooks Hh. enough (forall found, (match found with Some h => h.(hk_id) <> 0 | None => True end) ->
    fold_left (fun found h => if hk_function h =? f - F_NUM then Some h else found) hooks found = Some hook -> hook.(hk_id) <> 0) as H0 by now apply (H0 None).
  induction Hh as [|h hooks Hid _ IH]; intros found Hf; simpl; [intros ->; done|]. apply IH. now destruct (_ =? _).
Qed.

(** A call that stays one. *)
Definition call_ok (nodes : list query_node_t) (n : query_node_t) : Prop :=
  exists argc, count_args 3 nodes n.(n_left) 0 = Some argc /\ function_arity_invalid n.(n_selector) argc = false /\
    n.(n_type) = function_type n.(n_selector) /\ (F_NUM <= n.(n_selector) <= F_DATE -> n.(n_hook_id) <> 0).

Lemma scratch_multiple s : u32 (Z.land (s + 15) (Z.lnot 15)) mod 16 = 0 /\ 0 <= u32 (Z.land (s + 15) (Z.lnot 15)) < 4294967296.
Proof.
  split; [|apply Z.mod_pos_bound; lia]. unfold u32. rewrite Z.mod_mod_divide by (exists 268435456; lia).
  change 16 with (2 ^ 4). rewrite <- Z.land_ones, <- Z.land_assoc by lia. change (Z.land (Z.lnot 15) (Z.ones 4)) with 0. apply Z.land_0_r.
Qed.

Abbreviation base_in i a := (base size i a.(an_stride) (payload_end a)).
Abbreviation steps i k n a n' a' := (steps size i k n a n' a').

Lemma analyze_conversion_steps i n type a n' a' : state_ok a -> base_in i a n -> analyze_conversion o d n type a = inl (n', a') ->
  steps i 0 n a n' a' /\ n'.(n_type) = n.(n_type) /\ n'.(n_hook_id) <> 0.
Proof.
  intros Ha Hn. unfold analyze_conversion. destruct (_ && _); [discriminate|]. destruct (find_hook _ _) as [hook|] eqn:Eh; [|discriminate].
  apply find_hook_id in Eh. destruct (scratch_multiple hook.(hk_scratch_size)) as [Hm Hr]. set (scratch := u32 _) in *. intros [= <- <-].
  destruct Ha as (? & ? & ? & ?). split; [split_and!|done].
  - constructor; simpl; [done| | |].
    + exists []. split; [now rewrite app_nil_r|simpl; lia].
    + destruct (Z.ltb_spec a.(an_stride) scratch); lia.
    + split_and!; simpl; try lia; destruct (Z.ltb_spec a.(an_stride) scratch); lia.
  - destruct Hn. constructor; auto. simpl. right. split; [done|]. destruct (Z.ltb_spec a.(an_stride) scratch); lia.
  - done.
Qed.

Lemma steps_keep i n a : state_ok a -> base_in i a n -> steps i 0 n a n a.
Proof. intros. split_and!; [now apply grows_refl|done|apply kept_refl]. Qed.

Lemma steps_raise i n a level : 0 <= level <= TLV_QUERY_D -> state_ok a -> base_in i a n -> steps i 0 n a n (with_level level a).
Proof. intros. split_and!; [now apply grows_level|done|apply kept_refl]. Qed.

Lemma analyze_pair_steps i n x y a n' a' : state_ok a -> base_in i a n -> analyze_pair o d n x y a = inl (n', a') -> n' = n /\ a' = a.
Proof.
  intros Ha Hn. unfold analyze_pair. repeat (match goal with |- (if ?b then _ else _) = _ -> _ => destruct b; [discriminate|] end).
  intros [= <- <-]. done.
Qed.

Lemma analyze_provider_steps i n a n' a' : state_ok a -> base_in i a n -> analyze_provider o d n a = inl (n', a') ->
  steps i 0 n a n' a' /\ n' = n.
Proof.
  intros Ha Hn. unfold analyze_provider.
  assert (Hraise : forall a, state_ok a -> base_in i a n -> state_ok (with_level TLV_QUERY_D a) /\ base_in i (with_level TLV_QUERY_D a) n /\ steps i 0 n a n (with_level TLV_QUERY_D a)).
  { intros b Hb Hbn. split_and!; [|exact Hbn|apply steps_raise; [lia|done|done]]. destruct Hb as (? & ? & ? & ?). split_and!; simpl; lia. }
  set (a1 := if n.(n_selector) =? F_TAG then with_level TLV_QUERY_D a else a).
  assert (state_ok a1 /\ base_in i a1 n /\ steps i 0 n a n a1) as (Ha1 & Hn1 & Hs1).
  { subst a1. destruct (_ =? _); [apply Hraise; done|]. split_and!; [done|done|now apply steps_keep]. }
  destruct (if (n_selector n =? F_CLASS) || _ then _ else _) as [a2|] eqn:E2; [|discriminate].
  assert (state_ok a2 /\ base_in i a2 n /\ steps i 0 n a n a2) as (Ha2 & Hn2 & Hs2).
  { destruct ((n_selector n =? F_CLASS) || _); [|injection E2 as <-; done]. destruct (co_environment o) as [e|]; [|discriminate]. destruct (qe_tags e) as [tags|]; [|discriminate].
    destruct (_ || _); [discriminate|]. injection E2 as <-. destruct (Hraise _ Ha1 Hn1) as (? & ? & Hs). split_and!; [done|done|].
    pose proof (steps_trans size i _ _ _ _ _ _ _ _ Hs1 Hs) as Ht. exact Ht. }
  destruct (Hraise _ Ha2 Hn2) as (_ & _ & Hs). pose proof (steps_trans size i _ _ _ _ _ _ _ _ Hs2 Hs) as Ht.
  destruct (_ =? F_CONSTRUCTED); [|intros [= <- <-]; done].
  destruct (co_environment o) as [e|]; [|intros [= <- <-]; done]. destruct e as [fmt tags hooks count]. destruct fmt; [|discriminate]. intros [= <- <-]. done.
Qed.
Lemma analyze_arguments_steps i n args a n' a' : state_ok a -> base_in i a n -> analyze_arguments o d n args a = inl (n', a') ->
  steps i 0 n a n' a' /\ n'.(n_type) = n.(n_type) /\ (F_NUM <= n.(n_selector) <= F_DATE -> n'.(n_hook_id) <> 0).
Proof.
  intros Ha Hn. unfold analyze_arguments. cbv zeta. set (arg j := query_at a.(an_nodes) (nth j args 0)).
  assert (Hkeep : forall a1, (inl (n, a1) : outcome (query_node_t * analysis)) = inl (n', a') -> steps i 0 n a n a1 -> (F_NUM <= n.(n_selector) <= F_DATE -> False) ->
    steps i 0 n a n' a' /\ n'.(n_type) = n.(n_type) /\ (F_NUM <= n.(n_selector) <= F_DATE -> n'.(n_hook_id) <> 0)).
  { intros a1 [= <- <-] Hs Hf. split; [exact Hs|split; [done|]]. intros Hx. destruct (Hf Hx). }
  assert (Hraise : steps i 0 n a n (with_level TLV_QUERY_D a)) by (apply steps_raise; [lia|done|done]).
  pose proof (steps_keep i n a Ha Hn) as Hsame.
  destruct ((n.(n_selector) =? F_VALUE) || _ || _ || _ || _) eqn:E1.
  { branch. intros He. eapply Hkeep; [exact He| |intros; zlia]. destruct (negb _); done. }
  destruct (n.(n_selector) =? F_LEN) eqn:E2; [branch; intros He; eapply Hkeep; [exact He|done|intros; zlia]|].
  destruct (n.(n_selector) =? F_NOT) eqn:E3; [branch; intros He; eapply Hkeep; [exact He|done|intros; zlia]|].
  destruct ((n.(n_selector) =? F_COUNT) || _ || _) eqn:E4; [branch; intros He; eapply Hkeep; [exact He|done|intros; zlia]|].
  destruct ((n.(n_selector) =? F_POSITION) || _) eqn:E5; [intros He; eapply Hkeep; [exact He|done|intros; zlia]|].
  destruct ((F_NUM <=? n.(n_selector)) && (n.(n_selector) <=? F_DATE)) eqn:E6.
  { intros He. apply (analyze_conversion_steps i) in He as (Hs & Ht & Hh); auto. }
  assert (F_NUM <= n.(n_selector) <= F_DATE -> False) as Hno by (intros; zlia).
  destruct (n.(n_selector) =? F_SUBSTR); [branch; intros He; eapply Hkeep; [exact He|done|done]|].
  destruct ((n.(n_selector) =? F_STARTS) || _ || _ || _ || _); [|intros He; eapply Hkeep; [exact He|done|done]].
  intros He. apply (analyze_pair_steps i) in He as [-> ->]; [|done|done]. split; [exact Hsame|split; [done|]]. intros Hx. destruct (Hno Hx).
Qed.

Lemma arity_invalid_function f argc : 0 <= f < F_NAME -> arity_invalid f argc = false -> function_arity_invalid f argc = false.
Proof.
  intros Hf. unfold arity_invalid, function_arity_invalid. destruct (Z.leb_spec F_NAME f); [lia|]. cbn [orb].
  rewrite !orb_false_iff. intros ((((H1 & H2) & H3) & H4) & H5).
  split_and!; try assumption.
  - destruct (_ || _) eqn:E in |- *; [|done]. cbn [andb]. rewrite andb_false_iff in H1. destruct H1 as [H1|H1]; [zlia|done].
  - destruct (_ || _) eqn:E in |- *; [|done]. cbn [andb]. rewrite andb_false_iff in H2. destruct H2 as [H2|H2]; [zlia|done].
  - destruct (argc =? 2); cbn [negb] in *; [apply andb_false_r|]. rewrite andb_true_r in *. zlia.
  - destruct (argc =? 2); cbn [negb] in *; [apply andb_false_r|]. rewrite andb_true_r in *. zlia.
Qed.

(** A call is kept, or it is [name] and becomes a test. *)
Lemma analyze_call_steps i n a n' a' done : state_ok a -> base_in i a n -> n.(n_op) = Q_CALL -> 0 <= n.(n_selector) <= F_UNKNOWN -> 0 <= i ->
  analyze_call m o d n a = inl (n', a', done) ->
  if done then grows o.(co_max_resolved_tag) a a' /\ base_in i a' n' /\ n'.(n_op) = Q_TEST /\ n'.(n_type) = n.(n_type)
  else steps i 0 n a n' a' /\ call_ok a.(an_nodes) n'.
Proof.
  intros Ha Hn Hop Hsel Hi. unfold analyze_call. destruct (call_args _ _) as [args|] eqn:Eargs; [|discriminate].
  destruct (Z.eqb_spec n.(n_selector) F_NAME) as [Ename|Ename].
  - unfold analyze_name. destruct (_ || _); [discriminate|]. destruct (resolved_tag _ _ _ _ _ _ _ _ _) as [tag|] eqn:Et; [|discriminate].
    apply resolved_tag_size in Et; [|done]. intros [= <- <- <-].
    assert (Hb : base_in i (with_payload tag a) (with_data (payload_end a) (zlen tag) (with_n_resolved 1 (with_operands QUERY_NONE QUERY_NONE (with_n_op Q_TEST n))))).
    { apply base_data; [|lia|done]. destruct Hn as [? [Hlow _]]. constructor; auto; simpl; try lia; try discriminate. split; [done|]. simpl. auto. }
    assert (Hg : grows o.(co_max_resolved_tag) a (with_payload tag a)) by now apply grows_payload.
    destruct (_ || _); [|done]. split_and!; [|exact Hb|done|done].
    pose proof (grows_trans _ _ _ _ _ Hg (grows_level 0 TLV_QUERY_D _ ltac:(lia) ltac:(lia) (gr_ok _ _ _ Hg))) as Ht. now rewrite Z.add_0_r in Ht.
  - destruct (Z.eqb_spec n.(n_selector) F_UNKNOWN); [discriminate|]. destruct (arity_invalid _ _) eqn:Ear; [discriminate|].
    set (a1 := if _ && negb _ then with_level TLV_QUERY_S2 a else a). set (n1 := with_node_type _ n).
    assert (steps i 0 n a n1 a1) as Hs1.
    { apply steps_type. subst a1. destruct (_ && negb _); [apply steps_raise; [lia|done|done]|now apply steps_keep]. }
    destruct (analyze_arguments _ _ _ _ _) as [[n2 a2]|] eqn:Ea; [|discriminate].
    apply (analyze_arguments_steps i) in Ea as (Hs2 & Ht2 & Hh2); [|apply Hs1|apply Hs1].
    destruct (analyze_provider _ _ _ _) as [[n3 a3]|] eqn:Ep; [|discriminate]. apply (analyze_provider_steps i) in Ep as [Hs3 ->]; [|apply Hs2|apply Hs2].
    intros [= <- <- <-]. pose proof (steps_trans size i _ _ _ _ _ _ _ _ (steps_trans size i _ _ _ _ _ _ _ _ Hs1 Hs2) Hs3) as Hs. split; [exact Hs|].
    apply call_args_count in Eargs; [|simpl; lia]. exists (zlen args). destruct Hs as (_ & _ & [_ Hl _ Hse]). rewrite Hl, Hse. split_and!; [exact Eargs| | |].
    + apply arity_invalid_function; [lia|done].
    + now rewrite Ht2.
    + exact Hh2.
Qed.
End Calls.

(** * What analysis keeps of all instructions

    Instructions in front of the one that is analyzed are valid; those behind it are as the parser has made them. *)

(** ** Argument lists *)

(** The links between arguments are the same. *)
Definition same_arguments (n n' : query_node_t) : Prop :=
  (n'.(n_op) = Q_ARGS <-> n.(n_op) = Q_ARGS) /\ (n.(n_op) = Q_ARGS -> n'.(n_left) = n.(n_left)).

Lemma same_arguments_refl n : same_arguments n n.
Proof. done. Qed.

Lemma arguments_refl nodes : Forall2 same_arguments nodes nodes.
Proof. induction nodes; constructor; auto using same_arguments_refl. Qed.

Lemma query_at_Forall2 (R : query_node_t -> query_node_t -> Prop) l l' x : R zero_node zero_node -> Forall2 R l l' -> R (query_at l x) (query_at l' x).
Proof.
  intros H0 HF. unfold query_at. rewrite (Forall2_length HF). destruct (_ <? _); [|done].
  generalize (Z.to_nat x) as k. induction HF as [|a b l l' Hab HF IH]; intros [|k]; simpl; auto.
Qed.

Lemma count_args_same nodes nodes' : Forall2 same_arguments nodes nodes' -> forall fuel cursor argc, count_args fuel nodes' cursor argc = count_args fuel nodes cursor argc.
Proof.
  intros HF. induction fuel as [|fuel IH]; intros cursor argc; simpl;
    pose proof (query_at_Forall2 _ _ _ cursor (same_arguments_refl _) HF) as [Hop Hleft];
    destruct (negb (cursor =? QUERY_NONE)); simpl; auto;
    destruct (Z.eqb_spec (query_at nodes' cursor).(n_op) Q_ARGS) as [E|E]; destruct (Z.eqb_spec (query_at nodes cursor).(n_op) Q_ARGS) as [E'|E']; try tauto.
  destruct (_ <? _); [done|]. now rewrite Hleft, IH.
Qed.

(** ** An instruction that has been analyzed *)

Section Pass.
Context `{QueryConfig} (m : mem) (text : ptr) (o : tlv_query_compile_options_t) (d : option tlv_query_diagnostic_t) (size : Z).
Context (Hmax : 0 <= o.(co_max_resolved_tag)) (Hhooks : environment_invalid o = false).

(** [g] are the instructions before analysis. *)
Record settled (g : list query_node_t) (i stride : Z) (payload : list Z) (n : query_node_t) : Prop := {
  se_base : base size i stride (zlen payload) n;
  se_type : n.(n_op) <> Q_VARIABLE -> n.(n_op) <> Q_CALL -> n.(n_type) = operand_kind n.(n_op);
  se_meta : n.(n_op) = Q_META -> 0 <= n.(n_selector) <= TLV_QUERY_META_HLEN;
  se_literal : n.(n_op) = Q_LITERAL -> literal_ok n;
  se_variable : n.(n_op) = Q_VARIABLE -> variable_ok m text o payload n;
  se_call : n.(n_op) = Q_CALL -> call_ok g n }.

Lemma settled_mono g i stride stride' payload more n : stride <= stride' -> settled g i stride payload n -> settled g i stride' (payload ++ more) n.
Proof.
  intros Hs [Hb Ht Hm Hl Hv Hc]. pose proof Hb as Hb'. constructor; auto.
  - eapply base_mono; [exact Hs| |exact Hb]. rewrite length_app. lia.
  - intros Hop. destruct (Hv Hop) as (kind & Hf & Hk & Hd & Hsl). exists kind. split_and!; auto.
    destruct Hb' as [? ? ? ? ? ? ? ? ? ? ? ? ? ? ? (? & ? & ?) ? ? ?]. now rewrite slice_app.
Qed.

(** ** Optimizing *)

Lemma operand_kind_bool op : Q_EQ <= op <= Q_OR -> operand_kind op = V_BOOL.
Proof. intros Hop. assert (op = 14 \/ op = 15 \/ op = 16 \/ op = 17 \/ op = 18 \/ op = 19 \/ op = 20 \/ op = 21) by lia. intuition (subst; done). Qed.

Lemma settled_fold g i stride payload n b : settled g i stride payload n -> operand_kind n.(n_op) = V_BOOL -> settled g i stride payload (fold_to b n).
Proof.
  intros [Hb Ht _ _ _ _] Hk. assert (n.(n_op) <> Q_VARIABLE /\ n.(n_op) <> Q_CALL) as [Hv Hc] by (split; intros E; rewrite E in Hk; discriminate).
  rewrite Hk in Ht. constructor; simpl; try discriminate; [|auto].
  destruct Hb as [? [Hlow _]]. constructor; simpl; auto; try lia; try discriminate; [split; [done|cbn; auto]|destruct b; lia].
Qed.

Definition true_dot (dot : query_node_t) : query_node_t := with_n_folded 1 (with_node_type V_BOOL (with_n_op Q_BOOL dot)).

Lemma settled_dot g i stride payload n : n.(n_op) = Q_SELF -> settled g i stride payload n -> settled g i stride payload (true_dot n).
Proof.
  intros Hop [Hb _ _ _ _ _]. constructor; simpl; try discriminate; [|auto].
  destruct Hb as [? [Hlow Hlinks]]. rewrite Hop in Hlinks. cbn in Hlinks. destruct Hlinks as [Hr [Hl|[? _]]]; [|discriminate].
  constructor; simpl; auto; try lia; try discriminate. split; [done|cbn; auto].
Qed.

Lemma settled_filter g i stride payload n : n.(n_op) = Q_CHILD -> settled g i stride payload n -> settled g i stride payload (with_n_op Q_FILTER n).
Proof.
  intros Hop [Hb Ht _ _ _ _]. rewrite Hop in Ht. constructor; simpl; try discriminate; [|intros _ _; now rewrite Ht].
  destruct Hb as [? [Hlow Hlinks]]. rewrite Hop in Hlinks. constructor; simpl; auto; try lia; try discriminate. split; [done|exact Hlinks].
Qed.

Lemma settled_reuse g i stride payload n j : 0 <= j < i -> settled g i stride payload n -> settled g i stride payload (with_n_reuse j n).
Proof.
  intros Hj [Hb Ht Hm Hl Hv Hc]. constructor; auto. destruct Hb. constructor; auto. right. simpl. lia.
Qed.

Lemma find_test_bounds nodes n : forall j k, find_test m text nodes n j = Some k -> j <= k < j + zlen nodes.
Proof.
  induction nodes as [|x nodes IH]; intros j k; simpl; [discriminate|]. destruct (same_test _ _ _ _); [intros [= <-]; lia|].
  intros Hk. apply IH in Hk. lia.
Qed.

(** What optimizing does to the instructions: at most one dot is no longer one. *)
Definition dotted (i : Z) (nodes nodes' : list query_node_t) : Prop :=
  nodes' = nodes \/ exists r, 0 <= r < i /\ (query_at nodes r).(n_op) = Q_SELF /\ nodes' = update_at r true_dot nodes.

(** What an instruction that is done is. *)
Record finished (g : list query_node_t) (i : Z) (n : query_node_t) (a : analysis) (n' : query_node_t) (a' : analysis) : Prop := {
  fi_settled : settled g i a'.(an_stride) a'.(an_payload) n';
  fi_arguments : same_arguments n n';
  fi_nodes : dotted i a.(an_nodes) a'.(an_nodes);
  fi_payload : a'.(an_payload) = a.(an_payload);
  fi_stride : a'.(an_stride) = a.(an_stride);
  fi_level : a'.(an_level) = a.(an_level) }.

Lemma dot_other n a : n.(n_op) <> Q_CHILD -> optimize_dot n a = (n, a).
Proof. intros Hop. unfold optimize_dot. now destruct (Z.eqb_spec n.(n_op) Q_CHILD). Qed.
Lemma connective_other n a : is_connective n.(n_op) = false -> optimize_connective n a = (n, a).
Proof. intros Hop. unfold optimize_connective. now rewrite Hop. Qed.
Lemma test_other n i a : n.(n_op) <> Q_TEST -> optimize_test m text n i a = (n, a).
Proof. intros Hop. unfold optimize_test. now destruct (Z.eqb_spec n.(n_op) Q_TEST). Qed.

Lemma optimize_node_finished g n i a : 0 <= i -> settled g i a.(an_stride) a.(an_payload) n ->
  finished g i n a (fst (optimize_node m text o n i a)) (snd (optimize_node m text o n i a)).
Proof.
  intros Hi Hs. unfold optimize_node. destruct (co_optimize o); [|constructor; auto; [done|now left]].
  assert (Hsame : finished g i n a n a) by (constructor; auto; [done|now left]).
  assert (Hfold : forall b, operand_kind n.(n_op) = V_BOOL -> n.(n_op) <> Q_ARGS -> finished g i n a (fold_to b n) (count_optimized a)).
  { intros b Hk Hne. constructor; auto; [now apply settled_fold|split; [split; [discriminate|done]|done]|now left]. }
  destruct (is_comparison n.(n_op)) eqn:Ec.
  { assert (Hop : Q_EQ <= n.(n_op) <= Q_GE) by (unfold is_comparison in Ec; zlia). unfold optimize_comparison. rewrite Ec.
    destruct (constant_order _ _ _ _ _) as [order|].
    - unfold optimize_dot, optimize_connective, optimize_test. cbn. apply Hfold; [apply operand_kind_bool|]; lia.
    - rewrite dot_other, connective_other, test_other by (unfold is_connective; zlia). exact Hsame. }
  unfold optimize_comparison. rewrite Ec. destruct (Z.eqb_spec n.(n_op) Q_CHILD) as [Echild|Echild].
  { unfold optimize_dot. rewrite Echild. cbn [andb]. change (Q_CHILD =? Q_CHILD) with true. cbn [andb].
    destruct (Z.eqb_spec (query_at a.(an_nodes) n.(n_right)).(n_op) Q_SELF) as [Eself|Eself].
    - rewrite connective_other, test_other by done. constructor; auto; [now apply settled_filter|split; cbn; rewrite Echild; [done|discriminate]|]. right.
      exists n.(n_right). split_and!; auto; destruct Hs as [[_ [_ Hl]] _ _ _ _ _]; rewrite Echild in Hl; cbn in Hl; lia.
    - rewrite connective_other, test_other by (unfold is_connective; zlia). exact Hsame. }
  rewrite dot_other by done. destruct (is_connective n.(n_op)) eqn:Eand.
  { assert (Hop : Q_AND <= n.(n_op) <= Q_OR) by (unfold is_connective in Eand; zlia). unfold optimize_connective. rewrite Eand. cbn [andb].
    destruct (_ && _); [|rewrite test_other by lia; exact Hsame]. rewrite test_other by done. apply Hfold; [apply operand_kind_bool|]; lia. }
  rewrite connective_other by done. unfold optimize_test. destruct (Z.eqb_spec n.(n_op) Q_TEST) as [Etest|Etest]; [|exact Hsame].
  destruct (find_test _ _ _ _ _) as [j|] eqn:Ej; [|exact Hsame]. apply find_test_bounds in Ej. rewrite length_take in Ej.
  constructor; auto; [apply settled_reuse; [lia|done]|split; [done|rewrite Etest; discriminate]|now left].
Qed.
(** ** One instruction *)

Definition waiting (i : Z) (n : query_node_t) : Prop := pending size i n /\ linked i n.

Lemma function_loop_bounds names b e : forall k, 0 <= k -> function_loop names k m text b e = F_UNKNOWN \/ k <= function_loop names k m text b e < k + zlen names.
Proof.
  induction names as [|name names IH]; intros k Hk; simpl; [auto|]. destruct (query_word _ _ _ _ _); [right; lia|]. destruct (IH (k + 1)); lia.
Qed.

Lemma function_kind_bounds n : 0 <= query_function_kind m text n <= F_UNKNOWN.
Proof. unfold query_function_kind. pose proof (function_loop_bounds query_function_names n.(n_begin) n.(n_end) 0 ltac:(lia)) as Hb. simpl length in Hb. lia. Qed.

Record started (i : Z) (n : query_node_t) (a : analysis) (n' : query_node_t) : Prop := {
  sr_base : base size i a.(an_stride) (payload_end a) n';
  sr_type : n'.(n_type) = V_NODE;
  sr_resolved : n'.(n_resolved) = 0;
  sr_op : n'.(n_op) = n.(n_op);
  sr_left : n'.(n_left) = n.(n_left);
  sr_span : n'.(n_begin) = n.(n_begin) /\ n'.(n_end) = n.(n_end);
  sr_function : n.(n_op) = Q_CALL -> 0 <= n'.(n_selector) <= F_UNKNOWN;
  sr_meta : n.(n_op) = Q_META -> forall j, meta_loop m text meta_names 0 n = Some j -> n'.(n_selector) = j }.

Lemma analyze_start_started i n a : waiting i n -> state_ok a -> started i n a (analyze_start m text n a).
Proof.
  intros [Hp Hl] (Hst & _). unfold analyze_start. set (dot := (_ || _ || _) && _). set (n1 := with_n_context _ _).
  assert (H1 : base size i a.(an_stride) (payload_end a) n1 /\ n1.(n_type) = V_NODE /\ n1.(n_resolved) = 0 /\ n1.(n_op) = n.(n_op) /\ n1.(n_left) = n.(n_left) /\
               n1.(n_begin) = n.(n_begin) /\ n1.(n_end) = n.(n_end)).
  { subst n1. destruct Hp as [? ? ? ? ? ? ? ? ? ? ? (Hd1 & Hd2 & Hd3) (Hr1 & Hr2 & Hr3 & Hr4)]. cbn. split_and!; auto.
    unfold payload_end. constructor; simpl; auto; try (destruct dot; lia); try lia. now left. }
  destruct H1 as (Hb1 & Ht1 & Hr1 & Ho1 & Hl1 & Hbe1). clearbody n1. rewrite Ho1.
  set (n2 := if n.(n_op) =? Q_CALL then with_n_selector _ n1 else n1).
  assert (H2 : started i n a n2 \/ n.(n_op) = Q_META /\ n2 = n1).
  { subst n2. destruct (Z.eqb_spec n.(n_op) Q_META) as [E|E]; [right; split; [done|]; now rewrite E|left].
    destruct (Z.eqb_spec n.(n_op) Q_CALL) as [E'|E'].
    - constructor; auto; try lia; [destruct Hb1; constructor; auto|intros _; apply function_kind_bounds].
    - constructor; auto; lia. }
  assert (Ho2 : n2.(n_op) = n.(n_op)) by (subst n2; destruct (n_op n =? Q_CALL); exact Ho1). rewrite Ho2.
  set (n3 := if n.(n_op) =? Q_META then _ else n2).
  assert (H3 : started i n a n3).
  { subst n3. destruct H2 as [H2|[E ->]].
    - destruct (Z.eqb_spec n.(n_op) Q_META) as [E|E]; [|done]. destruct (meta_loop _ _ _ _ _) as [j|] eqn:Ej; [|done].
      destruct H2 as [[] ? ? ? ? Hbe Hf Hme]. constructor; auto; try lia; [constructor; auto|]. intros _ k Hk. rewrite (meta_loop_same _ _ _ n) in Ej by tauto. simpl. congruence.
    - rewrite E. change (Q_META =? Q_META) with true. cbv iota. rewrite (meta_loop_same _ _ _ n) by tauto. destruct (meta_loop _ _ _ _ n) as [j|] eqn:Ej.
      + constructor; auto; try lia; [destruct Hb1; constructor; auto|]. intros _ k Hk. simpl. congruence.
      + constructor; auto; try lia. intros _ k Hk. congruence. }
  destruct (_ && _ && _ && _ && _) eqn:Edd; [|exact H3]. destruct H3 as [[] Ht3 Hr3 Ho3 Hl3 Hbe3 Hf3 Hm3].
  constructor; auto; simpl; try lia. unfold payload_end in *. constructor; simpl; auto; lia.
Qed.
Lemma operand_call n a : n.(n_op) = Q_CALL -> analyze_operand m text o d n a = inl (n, a).
Proof. intros Hop. unfold analyze_operand. rewrite Hop. cbn. repeat (rewrite Hop; cbn). done. Qed.

Lemma analyze_operator_grows n a a' : state_ok a -> analyze_operator d n a = inl a' -> grows 0 a a'.
Proof.
  intros Ha. unfold analyze_operator. branch. set (a1 := if _ && query_reverse_axis _ then _ else a).
  assert (grows 0 a a1) as Hg by (subst a1; destruct (_ && query_reverse_axis _); [apply grows_level; [lia|lia|done]|now apply grows_refl]).
  branch. branch. branch. intros [= <-]. exact Hg.
Qed.

(** What an instruction leaves. *)
Record analyzed (g : list query_node_t) (i : Z) (n : query_node_t) (a : analysis) (n' : query_node_t) (a' : analysis) : Prop := {
  az_state : state_ok a';
  az_settled : settled g i a'.(an_stride) a'.(an_payload) n';
  az_payload : exists more, a'.(an_payload) = a.(an_payload) ++ more /\ zlen more <= cost o.(co_max_resolved_tag) n;
  az_stride : a.(an_stride) <= a'.(an_stride);
  az_arguments : same_arguments n n';
  az_nodes : dotted i a.(an_nodes) a'.(an_nodes) }.

(** The last steps of an instruction. *)
Lemma finish_analyzed g i n a n1 a1 a2 : 0 <= i -> grows (cost o.(co_max_resolved_tag) n) a a1 -> settled g i a1.(an_stride) a1.(an_payload) n1 -> same_arguments n n1 ->
  grows 0 a1 a2 -> analyzed g i n a (fst (optimize_node m text o n1 i a2)) (snd (optimize_node m text o n1 i a2)).
Proof.
  intros Hi Hg1 Hs Hsame Hg2. pose proof (grows_trans _ _ _ _ _ Hg1 Hg2) as Hg. rewrite Z.add_0_r in Hg.
  destruct Hg2 as [Hn2 (more & Hp2 & Hm2) Hs2 _]. destruct more; [|simpl in Hm2; lia]. rewrite app_nil_r in Hp2.
  assert (Hs' : settled g i a2.(an_stride) a2.(an_payload) n1) by (rewrite Hp2, <- (app_nil_r a1.(an_payload)); now apply (settled_mono _ _ a1.(an_stride))).
  destruct (optimize_node_finished g n1 i a2 Hi Hs') as [Hfs [Ha1 Ha2] Hfn Hfp Hfst Hfl]. destruct Hg as [Hn Hp Hst (? & ? & ? & ?)]. destruct Hsame as [Hb1 Hb2].
  constructor.
  - rewrite <- Hfl, <- Hfst in *. split_and!; try done; rewrite Hfl; lia.
  - done.
  - now rewrite Hfp.
  - now rewrite Hfst.
  - split; [tauto|]. intros E. rewrite Ha2, Hb2; tauto.
  - rewrite <- Hn. exact Hfn.
Qed.

Lemma analyze_instruction_analyzed g i n a n' a' : waiting i n -> state_ok a -> 0 <= i -> Forall2 same_arguments g a.(an_nodes) ->
  analyze_instruction m text o d i (analyze_start m text n a) a = inl (n', a') -> analyzed g i n a n' a'.
Proof.
  intros Hw Ha Hi Hargs. pose proof (analyze_start_started i n a Hw Ha) as [Hb Ht Hr Hop Hleft [Hbegin Hend] Hf Hmeta].
  set (n1 := analyze_start m text n a) in *. clearbody n1. unfold analyze_instruction.
  assert (Hcost : cost o.(co_max_resolved_tag) n1 = cost o.(co_max_resolved_tag) n) by (unfold cost; now rewrite Hop, Hbegin, Hend).
  assert (Hn1 : same_arguments n n1) by (split; [now rewrite Hop|done]).
  assert (Hnn : 0 <= cost o.(co_max_resolved_tag) n). { destruct Hw as [[] _]. unfold cost. destruct (paying _); lia. }
  destruct (Z.eq_dec n.(n_op) Q_CALL) as [Ecall|Ecall].
  - rewrite operand_call by congruence. rewrite Hop, Ecall. cbn.
    destruct (analyze_call _ _ _ _ _) as [[[n2 a2] [|]]|] eqn:Ec; [| |discriminate]; apply (analyze_call_steps m o d size Hmax Hhooks i) in Ec; auto; try congruence; try (apply Hf; done).
    + intros [= <- <-]. destruct Ec as (Hg & Hb2 & Hop2 & Ht2). pose proof (gr_nodes _ _ _ Hg) as Hgn. pose proof (gr_payload _ _ _ Hg) as (more & Hmp & Hmc). constructor.
      * apply Hg.
      * constructor; rewrite ?Hop2; try discriminate; [exact Hb2|]. intros _ _. now rewrite Ht2, Ht.
      * exists more. split; [done|]. unfold cost. rewrite Ecall. cbn. destruct Hw as [[] _]. lia.
      * apply Hg.
      * split; rewrite ?Hop2, ?Ecall; [done|discriminate].
      * left. done.
    + destruct Ec as [(Hg & Hb2 & [Ko Kl Ks Kse]) Hcall]. destruct (analyze_operator _ _ _) as [a3|] eqn:Eo; [|discriminate]. apply analyze_operator_grows in Eo; [|apply Hg].
      destruct (optimize_node m text o n2 i a3) as [n3 a4] eqn:En. intros [= <- <-].
      replace n3 with (fst (optimize_node m text o n2 i a3)) by now rewrite En. replace a4 with (snd (optimize_node m text o n2 i a3)) by now rewrite En.
      apply (finish_analyzed _ _ _ _ _ a2); auto.
      * destruct Hg as [? (more & ? & ?) ? ?]. constructor; auto. exists more. split; [done|lia].
      * rewrite Hop, Ecall in Ko. constructor; rewrite ?Ko; try discriminate; [exact Hb2|done|]. intros _.
        destruct Hcall as (argc & Hc & Hrest). exists argc. split; [|done]. now rewrite <- Hc, (count_args_same _ _ Hargs).
      * split; rewrite ?Ko, ?Hop; [done|]. rewrite Ecall. discriminate.
  - destruct (analyze_operand _ _ _ _ _ _) as [[n2 a2]|] eqn:Eo; [|discriminate].
    apply (analyze_operand_steps m text o d size i) in Eo; [|done|done|done|done|done]. rewrite Hcost in Eo. destruct Eo as [(Hg & Hb2 & [Ko Kl [Kb Ke] Kse]) [Hv Hlit Hme Hty]].
    rewrite Hop in Ko. destruct (Z.eqb_spec n2.(n_op) Q_CALL); [congruence|].
    destruct (analyze_operator _ _ _) as [a3|] eqn:Eo3; [|discriminate]. apply analyze_operator_grows in Eo3; [|apply Hg].
    destruct (optimize_node m text o n2 i a3) as [n3 a4] eqn:En. intros [= <- <-].
    replace n3 with (fst (optimize_node m text o n2 i a3)) by now rewrite En. replace a4 with (snd (optimize_node m text o n2 i a3)) by now rewrite En.
    apply (finish_analyzed _ _ _ _ _ a2); auto.
    + constructor; auto; try congruence. intros E. destruct (Hme E) as [j Hj]. rewrite (meta_loop_same _ _ _ n) in Hj by congruence.
      rewrite Kse, (Hmeta ltac:(congruence) j Hj). apply meta_loop_bounds in Hj. simpl in Hj. lia.
    + split; [now rewrite Ko|]. intros _. congruence.
Qed.
(** ** Changing one instruction *)

Lemma costs_alter most f nodes : forall j, (forall n, nodes !! j = Some n -> cost most (f n) <= cost most n) -> costs most (alter f j nodes) <= costs most nodes.
Proof.
  induction nodes as [|n nodes IH]; intros [|j] Hf; simpl; [lia|lia| |].
  - specialize (Hf n eq_refl). lia.
  - specialize (IH j Hf). unfold alter in IH. lia.
Qed.

Lemma arguments_alter f g nodes : Forall2 same_arguments g nodes ->
  forall j, (forall n, nodes !! j = Some n -> forall x, same_arguments x n -> same_arguments x (f n)) -> Forall2 same_arguments g (alter f j nodes).
Proof.
  induction 1 as [|x n g nodes Hxn HF IH]; intros [|j] Hf; [constructor|constructor| |].
  - constructor; [now apply Hf|done].
  - constructor; [done|]. apply IH. intros y Hy. now apply Hf.
Qed.

Lemma lookup_update f x nodes j n : update_at x f nodes !! j = Some n ->
  exists y, nodes !! j = Some y /\ n = if decide (Z.to_nat x = j) then f y else y.
Proof.
  unfold update_at. destruct (decide (Z.to_nat x = j)) as [<-|Hne].
  - rewrite list_lookup_alter_eq. destruct (nodes !! Z.to_nat x) as [y|]; [|discriminate]. intros [= <-]. eauto.
  - rewrite list_lookup_alter_ne by done. eauto.
Qed.

(** ** The pass *)

Record stage (g : list query_node_t) (bound i : Z) (a : analysis) : Prop := {
  sg_state : state_ok a;
  sg_arguments : Forall2 same_arguments g a.(an_nodes);
  sg_done : forall j n, a.(an_nodes) !! j = Some n -> Z.of_nat j < i -> settled g (Z.of_nat j) a.(an_stride) a.(an_payload) n;
  sg_waiting : forall j n, a.(an_nodes) !! j = Some n -> i <= Z.of_nat j -> waiting (Z.of_nat j) n;
  sg_costs : zlen a.(an_payload) + costs o.(co_max_resolved_tag) (drop (Z.to_nat i) a.(an_nodes)) <= bound }.

Lemma dotted_lookup i nodes nodes' j n : dotted i nodes nodes' -> nodes' !! j = Some n ->
  exists y, nodes !! j = Some y /\ (n = y \/ (Z.of_nat j < i /\ y.(n_op) = Q_SELF /\ n = true_dot y)).
Proof.
  intros [->|(r & Hr & Hop & ->)] Hj; [eauto|]. apply lookup_update in Hj as (y & Hy & ->). exists y. split; [done|].
  destruct (decide _) as [<-|]; [|auto]. right. split_and!; [lia| |done]. pose proof (query_at_Some _ _ _ Hy) as Hq. rewrite Z2Nat.id in Hq by lia. congruence.
Qed.

Lemma dotted_arguments i g nodes nodes' : dotted i nodes nodes' -> Forall2 same_arguments g nodes -> Forall2 same_arguments g nodes'.
Proof.
  intros [->|(r & Hr & Hop & ->)] HF; [done|]. apply arguments_alter; [done|]. intros n Hn x [H1 H2].
  pose proof (query_at_Some _ _ _ Hn) as Hq. rewrite Z2Nat.id in Hq by lia. rewrite <- Hq, Hop in *. split; [cbn; split; [discriminate|intros E; apply H1 in E; discriminate]|].
  intros E. apply H1 in E. discriminate.
Qed.

Lemma dotted_drop i nodes nodes' : 0 <= i -> dotted i nodes nodes' -> drop (Z.to_nat i) nodes' = drop (Z.to_nat i) nodes.
Proof. intros Hi [->|(r & Hr & _ & ->)]; [done|]. unfold update_at. rewrite drop_alter, decide_False by lia. done. Qed.

Lemma analyze_node_stage g bound i a a' : 0 <= i < zlen a.(an_nodes) -> stage g bound i a -> analyze_node m text o d a i = inl a' ->
  stage g bound (i + 1) a' /\ length a'.(an_nodes) = length a.(an_nodes).
Proof.
  intros Hi [Hst Hargs Hdone Hwait Hc]. unfold analyze_node. pose proof (query_at_lookup _ _ Hi) as Hlook. set (n := query_at a.(an_nodes) i) in *.
  destruct (analyze_instruction _ _ _ _ _ _ _) as [[n' a1]|] eqn:Ei; [|discriminate]. intros [= <-].
  assert (Hw : waiting i n). { specialize (Hwait _ _ Hlook). rewrite Z2Nat.id in Hwait by lia. apply Hwait. lia. }
  apply (analyze_instruction_analyzed g i) in Ei as [Hst' Hset (more & Hp & Hm) Hstr Hsame Hdot]; [|done|done|lia|done].
  assert (Hlen : length a1.(an_nodes) = length a.(an_nodes)) by (destruct Hdot as [-> |(r & _ & _ & ->)]; [done|apply update_at_length]).
  split; [|unfold store_node; simpl; now rewrite update_at_length].
  assert (Hn1 : a1.(an_nodes) !! Z.to_nat i = Some n).
  { destruct Hdot as [-> |(r & Hr & _ & ->)]; [done|]. unfold update_at. rewrite list_lookup_alter_ne by lia. done. }
  constructor; simpl.
  - exact Hst'.
  - apply arguments_alter; [now apply (dotted_arguments i g a.(an_nodes))|]. intros y Hy x [H1 H2]. assert (y = n) as -> by congruence. destruct Hsame as [H3 H4].
    split; [tauto|]. intros E. rewrite <- H2 by done. apply H4. tauto.
  - intros j y Hj Hji. apply lookup_update in Hj as (z & Hz & ->). destruct (decide _) as [<-|Hne]; [rewrite Z2Nat.id by lia; exact Hset|].
    rewrite Hp. apply (settled_mono _ _ a.(an_stride)); [done|]. apply (dotted_lookup i a.(an_nodes)) in Hz as (w & Hw' & [->|(Hlt & Hop & ->)]); [apply Hdone; [done|lia]| |done].
    apply settled_dot; [done|]. apply Hdone; [done|lia].
  - intros j y Hj Hji. apply lookup_update in Hj as (z & Hz & ->). destruct (decide _) as [<-|Hne]; [lia|].
    apply (dotted_lookup i a.(an_nodes)) in Hz as (w & Hw' & [->|(Hlt & _)]); [|lia|done]. apply Hwait; [done|lia].
  - replace (Z.to_nat (i + 1)) with (S (Z.to_nat i)) by lia. unfold update_at. rewrite drop_alter, decide_False by lia.
    pose proof (dotted_drop i _ _ ltac:(lia) Hdot) as Hd. rewrite (drop_S _ _ _ Hlook) in Hd. rewrite (drop_S _ _ _ Hn1) in Hd. injection Hd as Hd. rewrite Hd.
    rewrite (drop_S _ _ _ Hlook) in Hc. simpl in Hc. rewrite Hp, length_app. lia.
Qed.
Lemma analyze_pass_stage g bound k : forall i a a', 0 <= i -> i + Z.of_nat k = zlen a.(an_nodes) -> stage g bound i a ->
  analyze_pass m text o d (map Z.of_nat (seq (Z.to_nat i) k)) a = inl a' ->
  stage g bound (zlen a.(an_nodes)) a' /\ length a'.(an_nodes) = length a.(an_nodes).
Proof.
  induction k as [|k IH]; intros i a a' Hi Hk Hs; simpl.
  - intros [= <-]. replace (zlen a.(an_nodes)) with i by lia. done.
  - rewrite Z2Nat.id by lia. destruct (analyze_node m text o d a i) as [a1|] eqn:E; [|discriminate].
    destruct (analyze_node_stage g bound i a a1 ltac:(lia) Hs E) as [Hs1 Hl1]. intros Hp. replace (S (Z.to_nat i)) with (Z.to_nat (i + 1)) in Hp by lia.
    rewrite <- Hl1. apply (IH (i + 1) a1 a'); [lia|lia|done|done].
Qed.

(** ** Literals *)

Definition parsed_nodes (count bound : Z) (nodes : list query_node_t) : Prop :=
  each waiting nodes /\ zlen nodes = count /\ costs o.(co_max_resolved_tag) nodes <= bound.

(** A test becomes an operand that has no constant. *)
Lemma parsed_update count bound x f nodes : (query_at nodes x).(n_op) = Q_TEST ->
  (forall i n, n.(n_op) = Q_TEST -> waiting i n -> waiting i (f n) /\ paying (f n).(n_op) = false) ->
  parsed_nodes count bound nodes -> parsed_nodes count bound (update_at x f nodes).
Proof.
  intros Hop Hf (Hw & Hl & Hc).
  assert (Hat : forall n, nodes !! Z.to_nat x = Some n -> n.(n_op) = Q_TEST).
  { intros n Hn. pose proof (lookup_lt_Some _ _ _ Hn). rewrite <- Hop. unfold query_at. destruct (Z.ltb_spec x (zlen nodes)); [|lia].
    now rewrite (nth_lookup_Some _ _ _ _ Hn). }
  split_and!.
  - intros j n Hj. apply lookup_update in Hj as (y & Hy & ->). destruct (decide _) as [<-|]; [|now apply Hw]. apply Hf; [now apply Hat|now apply Hw].
  - now rewrite update_at_length.
  - etransitivity; [apply costs_alter|exact Hc]. intros n Hn. destruct (Hf _ n (Hat n Hn) (Hw _ _ Hn)) as [_ Hp]. destruct (Hw _ _ Hn) as [[] _].
    unfold cost. rewrite Hp. destruct (paying n.(n_op)); lia.
Qed.

Lemma waiting_literal i n : n.(n_op) = Q_TEST -> waiting i n -> waiting i (with_n_op Q_LITERAL n).
Proof.
  intros Hop [[] [Hl Hk]]. rewrite Hop in Hk. split; [constructor; auto; simpl; try lia; discriminate|]. split; [done|]. cbn in *. destruct Hk as [? [?|[? _]]]; [auto|discriminate].
Qed.

Lemma make_literal_parsed count bound anchor x nodes : anchor = None \/ anchor = Some 2 ->
  parsed_nodes count bound nodes -> parsed_nodes count bound (make_literal m text anchor nodes x).
Proof.
  intros Hanchor Hp. unfold make_literal. destruct (is_decimal_test _ _ _) eqn:E; [|done]. apply andb_true_iff in E as [E _].
  apply parsed_update; [now apply Z.eqb_eq| |done]. intros i n Hop Hw. apply waiting_literal in Hw; [|done].
  destruct Hanchor as [-> | ->]; (split; [|done]); [done|]. destruct Hw as [[] Hl]. split; [constructor; auto; simpl; try lia; discriminate|exact Hl].
Qed.

Lemma literal_node_parsed count bound i nodes nodes' : parsed_nodes count bound nodes -> literal_node m text d nodes i = inl nodes' -> parsed_nodes count bound nodes'.
Proof.
  intros Hp. unfold literal_node. branch. set (n := query_at nodes i). destruct (Z.eqb_spec n.(n_op) Q_TEST) as [Etest|Etest].
  { rewrite Etest. cbn. intros [= <-]. destruct (_ || _); [|done]. apply parsed_update; [done| |done]. intros j x Hop [[] [Hl Hk]]. rewrite Hop in Hk.
    split; [|done]. split; [constructor; auto; simpl; try lia; try discriminate; destruct (_ =? _); lia|]. split; [done|]. cbn in *. destruct Hk as [? [?|[? _]]]; [auto|discriminate]. }
  cbn [andb].
  set (nodes1 := if (_ <=? _) && _ then _ else nodes). assert (Hp1 : parsed_nodes count bound nodes1) by (subst nodes1; destruct (_ && _); auto using make_literal_parsed).
  set (nodes2 := if _ =? Q_FILTER then _ else nodes1). assert (Hp2 : parsed_nodes count bound nodes2) by (subst nodes2; destruct (_ =? _); auto using make_literal_parsed).
  destruct (if (n_op n =? Q_CALL) && _ then _ else _) as [nodes3|] eqn:E3; [|discriminate]. assert (Hp3 : parsed_nodes count bound nodes3).
  { destruct ((n_op n =? Q_CALL) && _); [|injection E3 as <-; done]. destruct (call_args _ _) as [args|]; [|discriminate]. injection E3 as <-.
    generalize (List.tl args) as l. intros l. clearbody nodes2. clear -Hp2 Hmax. revert nodes2 Hp2. induction l as [|x l IH]; intros nodes2 Hp2; simpl; [done|].
    apply IH. apply make_literal_parsed; auto. }
  intros [= <-]. exact Hp3.
Qed.

Lemma literal_pass_parsed count bound indices : forall nodes nodes', parsed_nodes count bound nodes -> literal_pass m text d indices nodes = inl nodes' -> parsed_nodes count bound nodes'.
Proof.
  induction indices as [|i indices IH]; intros nodes nodes' Hp; simpl; [intros [= <-]; done|].
  destruct (literal_node _ _ _ _ _) as [nodes1|] eqn:E; [|discriminate]. apply IH. eapply literal_node_parsed; eassumption.
Qed.

(** All instructions are valid when analysis succeeds; what was added to the payload has room. *)
Lemma analyze_passes_stage count bound nodes a : parsed_nodes count bound nodes -> analyze_passes m text o d nodes = inl a ->
  exists g, stage g bound count a /\ zlen a.(an_nodes) = count.
Proof.
  intros Hp. unfold analyze_passes. destruct (literal_pass _ _ _ _ _) as [g|] eqn:El; [|discriminate]. apply (literal_pass_parsed count bound) in El as (Hw & Hl & Hc); [|done].
  intros Ha. exists g. assert (Hs : stage g bound 0 (initial_analysis g)).
  { constructor; [split_and!; done|apply arguments_refl|intros; lia|intros; now apply Hw|]. unfold initial_analysis. cbn [an_nodes an_payload length]. rewrite drop_0. lia. }
  destruct (analyze_pass_stage g bound (length g) 0 (initial_analysis g) a) as [Hs' Hl']; [lia|simpl; lia|done|exact Ha|]. simpl in *. rewrite Hl in Hs'. split; [done|lia].
Qed.
(** ** Failures *)

(** What a failure leaves has room too. *)
Definition within (k : Z) (a : analysis) (f : failure) : Prop :=
  f.(fl_code) <> TLV_OK /\ f.(fl_analysis).(an_nodes) = a.(an_nodes) /\ zlen f.(fl_analysis).(an_payload) <= zlen a.(an_payload) + k.

Lemma within_at {A} k n a a' r f : fst r <> TLV_OK -> a'.(an_nodes) = a.(an_nodes) -> zlen a'.(an_payload) <= zlen a.(an_payload) + k ->
  (fail_with n a' r : outcome A) = inr f -> within k a f.
Proof. intros Hc Hn Hk [= <-]. done. Qed.

(** All ways through a function, but those that do not fail. *)
Ltac failures :=
  repeat match goal with
  | |- inl _ = inr _ -> _ => discriminate
  | |- (if ?b then _ else _) = _ -> _ => destruct b
  | |- (let '(_, _) := ?x in _) = _ -> _ => destruct x
  | |- (match ?x with _ => _ end) = _ -> _ => destruct x
  | |- _ = inr _ -> _ => eapply within_at; [discriminate|reflexivity|simpl; lia]
  end.

Lemma resolved_tag_fails n a ns name x y f : resolved_tag m o d n a ns name x y = inr f -> within 0 a f.
Proof.
  unfold resolved_tag. destruct o.(co_resolve) as [resolve|]; [|failures]. destruct (resolve ns name) as [rc t].
  destruct (is_ok (tlv_callback_result rc false)) eqn:Erc; cbn [negb]; [failures|]. apply is_ok_false in Erc. now eapply within_at; [exact Erc|done|lia].
Qed.

Lemma analyze_test_fails n a f : analyze_test m text o d n a = inr f -> within 0 a f.
Proof.
  unfold analyze_test. destruct (negb _); [|failures]. destruct (resolve_name _ _ _ _ _ _) as [tag|f'] eqn:E; [discriminate|]. intros [= <-].
  unfold resolve_name in E. destruct (split_colon _) as [u [v|]]; eapply resolved_tag_fails; eassumption.
Qed.

Lemma analyze_literal_fails n a f : analyze_literal m text d n a = inr f -> within 0 a f.
Proof. unfold analyze_literal. failures. Qed.

Lemma within_weaken k k' a f : k <= k' -> within k a f -> within k' a f.
Proof. intros Hk (Hc & Hn & Hp). split_and!; [done|done|lia]. Qed.

Lemma operand_fails i n a f : state_ok a -> base size i a.(an_stride) (payload_end a) n -> n.(n_op) <> Q_CALL ->
  analyze_operand m text o d n a = inr f -> within (cost o.(co_max_resolved_tag) n) a f.
Proof.
  intros Ha Hb Hcall. pose proof (ba_span _ _ _ _ _ Hb) as Hspan. pose proof (ba_variable _ _ _ _ _ Hb) as Hv.
  assert (Hc : 0 <= cost o.(co_max_resolved_tag) n) by (unfold cost; destruct (paying n.(n_op)); lia). unfold analyze_operand.
  destruct (Z.eqb_spec n.(n_op) Q_TEST) as [Et|Et].
  - cbn [andb]. destruct (if (n_resolved n =? 0) && (n_context n =? 0) then _ else _) as [[n1 a1]|f'] eqn:E.
    + assert (n1.(n_op) = Q_TEST) as Et1.
      { destruct (_ && _); [|now injection E as <- <-]. apply (analyze_test_steps m text o d size i) in E as [(_ & _ & [Ko _ _ _]) _]; auto. congruence. }
      repeat (rewrite Et1; cbn). discriminate.
    + intros [= <-]. destruct (_ && _); [|discriminate]. apply analyze_test_fails in E. now apply (within_weaken 0).
  - cbn [andb]. rewrite ?(proj2 (Z.eqb_neq _ _) Et). cbn [andb]. destruct (Z.eqb_spec n.(n_op) Q_VARIABLE) as [Ev|Ev].
    + unfold analyze_variable. destruct (find_variable _ _).
      * cbn. repeat (rewrite Ev; cbn). discriminate.
      * intros [= <-]. split; [discriminate|split; [done|]]. simpl. rewrite length_app. unfold cost. rewrite Ev. cbn. specialize (Hv Ev).
        pose proof (span_length m text n ltac:(lia)) as Hs. destruct (span m text n); simpl in *; lia.
    + set (n1 := if (n_op n =? Q_META) || _ then _ else n). set (n2 := if n_op n1 =? Q_BOOL then _ else n1).
      match goal with |- (if ?b then _ else _) = _ -> _ => destruct b end; [eapply within_at; [discriminate|reflexivity|simpl; lia]|].
      destruct (if n_op n2 =? Q_LITERAL then _ else _) as [[n3 a3]|f'] eqn:E.
      * destruct (if (n_op n3 =? Q_BYTES) || _ then _ else _). discriminate.
      * intros [= <-]. destruct (n_op n2 =? Q_LITERAL); [|discriminate]. apply analyze_literal_fails in E. now apply (within_weaken 0).
Qed.

Lemma analyze_name_fails n args a f : analyze_name m o d n args a = inr f -> within 0 a f.
Proof.
  unfold analyze_name. destruct (_ || _); [failures|]. destruct (resolved_tag _ _ _ _ _ _ _ _ _) as [tag|f'] eqn:E; [discriminate|]. intros [= <-].
  eapply resolved_tag_fails; eassumption.
Qed.

Lemma analyze_arguments_fails n args a f : analyze_arguments o d n args a = inr f -> within 0 a f.
Proof. unfold analyze_arguments, analyze_conversion, analyze_pair. cbv zeta. failures. Qed.

Lemma analyze_provider_fails n a f : analyze_provider o d n a = inr f -> within 0 a f.
Proof.
  unfold analyze_provider. cbv zeta. set (a1 := if n.(n_selector) =? F_TAG then _ else a).
  assert (Ha1 : a1.(an_nodes) = a.(an_nodes) /\ a1.(an_payload) = a.(an_payload)) by (subst a1; destruct (_ =? F_TAG); done). destruct Ha1 as [Hn1 Hp1]. clearbody a1.
  destruct (if (n_selector n =? F_CLASS) || _ then _ else _) as [a2|f'] eqn:E.
  - assert (Ha2 : a2.(an_nodes) = a.(an_nodes) /\ a2.(an_payload) = a.(an_payload)).
    { destruct (_ || _); [|injection E as <-; done]. destruct (co_environment o) as [e|]; [|discriminate]. destruct (qe_tags e); [|discriminate].
      destruct (_ || _); [discriminate|]. injection E as <-. done. }
    destruct Ha2 as [Hn2 Hp2]. destruct (_ =? F_CONSTRUCTED); [|discriminate]. destruct (co_environment o) as [e|]; [|discriminate]. destruct e as [[fmt|] tags hooks count]; [discriminate|].
    eapply within_at; [discriminate|done|rewrite Hp2; lia].
  - intros [= <-]. revert E. destruct (_ || _); [|discriminate]. destruct (co_environment o) as [e|]; [destruct (qe_tags e); [destruct (_ || _); [|discriminate]|]|];
      (eapply within_at; [discriminate|done|rewrite Hp1; lia]).
Qed.

Lemma within_same k a a' f : a'.(an_nodes) = a.(an_nodes) -> a'.(an_payload) = a.(an_payload) -> within k a' f -> within k a f.
Proof. intros Hn Hp (Hc & Hn' & Hp'). split_and!; [done|congruence|]. now rewrite <- Hp. Qed.

Lemma grows_same a a' : grows 0 a a' -> a'.(an_nodes) = a.(an_nodes) /\ a'.(an_payload) = a.(an_payload).
Proof. intros [Hn (more & Hp & Hm) _ _]. split; [done|]. destruct more; [now rewrite app_nil_r in Hp|simpl in Hm; lia]. Qed.

Lemma analyze_call_fails i n a f : state_ok a -> base size i a.(an_stride) (payload_end a) n -> analyze_call m o d n a = inr f -> within 0 a f.
Proof.
  intros Ha Hb. unfold analyze_call. destruct (call_args _ _) as [args|]; [|failures]. destruct (n.(n_selector) =? F_NAME).
  { destruct (analyze_name _ _ _ _ _ _) as [[n1 a1]|f'] eqn:E; [discriminate|]. intros [= <-]. eapply analyze_name_fails; eassumption. }
  destruct (n.(n_selector) =? F_UNKNOWN); [failures|]. destruct (arity_invalid _ _); [failures|].
  set (a1 := if _ && negb _ then with_level TLV_QUERY_S2 a else a). set (n1 := with_node_type _ n).
  assert (Hs1 : steps size i 0 n a n1 a1).
  { apply steps_type. subst a1. destruct (_ && negb _); [apply steps_raise; [lia|done|done]|now apply steps_keep]. }
  destruct (grows_same _ _ (proj1 Hs1)) as [Hn1 Hp1]. destruct (analyze_arguments _ _ _ _ _) as [[n2 a2]|f'] eqn:Ea.
  - apply (analyze_arguments_steps o d size Hhooks i) in Ea as (Hs2 & _ & _); [|apply Hs1|apply Hs1]. destruct (grows_same _ _ (proj1 Hs2)) as [Hn2 Hp2].
    destruct (analyze_provider _ _ _ _) as [[n3 a3]|f'] eqn:Ep; [discriminate|]. intros [= <-]. apply analyze_provider_fails in Ep.
    apply (within_same _ _ a2); congruence.
  - intros [= <-]. apply analyze_arguments_fails in Ea. apply (within_same _ _ a1); congruence.
Qed.

Lemma analyze_operator_fails n a f : analyze_operator d n a = inr f -> within 0 a f.
Proof.
  unfold analyze_operator. cbv zeta. match goal with |- (if ?b then _ else _) = _ -> _ => destruct b; [eapply within_at; [discriminate|done|lia]|] end.
  set (a1 := if _ && query_reverse_axis _ then _ else a).
  assert (Ha1 : a1.(an_nodes) = a.(an_nodes) /\ a1.(an_payload) = a.(an_payload)) by (subst a1; destruct (_ && query_reverse_axis _); done). destruct Ha1 as [Hn1 Hp1]. clearbody a1.
  repeat match goal with |- (if ?b then _ else _) = _ -> _ => destruct b; [eapply within_at; [discriminate|done|rewrite Hp1; lia]|] end. discriminate.
Qed.

Lemma analyze_instruction_fails i n a f : waiting i n -> state_ok a -> analyze_instruction m text o d i (analyze_start m text n a) a = inr f ->
  within (cost o.(co_max_resolved_tag) n) a f.
Proof.
  intros Hw Ha. pose proof (analyze_start_started i n a Hw Ha) as [Hb Ht Hr Hop Hleft [Hbegin Hend] Hf Hmeta].
  set (n1 := analyze_start m text n a) in *. clearbody n1. unfold analyze_instruction.
  assert (Hcost : cost o.(co_max_resolved_tag) n1 = cost o.(co_max_resolved_tag) n) by (unfold cost; now rewrite Hop, Hbegin, Hend).
  assert (Hnn : 0 <= cost o.(co_max_resolved_tag) n). { destruct Hw as [[] _]. unfold cost. destruct (paying n.(n_op)); lia. }
  destruct (Z.eq_dec n.(n_op) Q_CALL) as [Ecall|Ecall].
  - rewrite operand_call by congruence. rewrite Hop, Ecall. cbn.
    destruct (analyze_call _ _ _ _ _) as [[[n2 a2] [|]]|f'] eqn:Ec; [discriminate| |].
    + apply (analyze_call_steps m o d size Hmax Hhooks i) in Ec as [(Hg & _ & _) _]; auto; try congruence; try (apply Hf; done); [|destruct Hw as [_ [Hlow _]]; lia].
      destruct (grows_same _ _ Hg) as [Hn2 Hp2].
      destruct (analyze_operator _ _ _) as [a3|f'] eqn:Eo; [discriminate|]. intros [= <-]. apply analyze_operator_fails in Eo.
      apply (within_weaken 0); [lia|]. now apply (within_same _ _ a2).
    + intros [= <-]. apply (within_weaken 0); [lia|]. now apply (analyze_call_fails i n1).
  - destruct (analyze_operand _ _ _ _ _ _) as [[n2 a2]|f'] eqn:Eo.
    + apply (analyze_operand_steps m text o d size i) in Eo; [|done|done|done|done|done]. rewrite Hcost in Eo. destruct Eo as [(Hg & _ & [Ko _ _ _]) _].
      destruct (Z.eqb_spec n2.(n_op) Q_CALL); [congruence|].
      destruct (analyze_operator _ _ _) as [a3|f'] eqn:Eo3; [discriminate|]. intros [= <-]. apply analyze_operator_fails in Eo3 as (Hc3 & Hn3 & Hp3).
      destruct Hg as [Hn2 (more & Hp2 & Hm2) _ _]. split_and!; [done|congruence|]. rewrite Hp2, length_app in Hp3. lia.
    + intros [= <-]. rewrite <- Hcost. apply (operand_fails i); auto. congruence.
Qed.

(** The room of what has been added to the payload when analysis ends, be it with a failure. *)
Definition room_left (count bound : Z) (a : analysis) : Prop := zlen a.(an_nodes) = count /\ zlen a.(an_payload) <= bound.
Definition failed (count bound : Z) (f : failure) : Prop := room_left count bound f.(fl_analysis) /\ f.(fl_code) <> TLV_OK.

Lemma costs_drop_nonneg nodes k : (forall j n, nodes !! j = Some n -> (k <= j)%nat -> waiting (Z.of_nat j) n) -> 0 <= costs o.(co_max_resolved_tag) (drop k nodes).
Proof.
  intros Hw. assert (HF : forall n, n ∈ drop k nodes -> 0 <= cost o.(co_max_resolved_tag) n).
  { intros n Hn. apply list_elem_of_lookup_1 in Hn as [j Hj]. rewrite lookup_drop in Hj. destruct (Hw _ _ Hj ltac:(lia)) as [[] _]. unfold cost. destruct (paying n.(n_op)); lia. }
  revert HF. generalize (drop k nodes) as l. induction l as [|n l IH]; intros HF; simpl; [lia|].
  assert (0 <= cost o.(co_max_resolved_tag) n) by (apply HF; left). assert (0 <= costs o.(co_max_resolved_tag) l) by (apply IH; intros x Hx; apply HF; now right). lia.
Qed.

Lemma analyze_node_fails g bound i a f : 0 <= i < zlen a.(an_nodes) -> stage g bound i a -> analyze_node m text o d a i = inr f ->
  failed (zlen a.(an_nodes)) bound f.
Proof.
  intros Hi [Hst Hargs Hdone Hwait Hc]. unfold analyze_node. pose proof (query_at_lookup _ _ Hi) as Hlook. set (n := query_at a.(an_nodes) i) in *.
  destruct (analyze_instruction _ _ _ _ _ _ _) as [[n' a1]|f'] eqn:Ei; [discriminate|]. intros [= <-].
  assert (Hw : waiting i n). { specialize (Hwait _ _ Hlook). rewrite Z2Nat.id in Hwait by lia. apply Hwait. lia. }
  apply (analyze_instruction_fails i) in Ei as (Hcode & Hn & Hp); [|done|done]. split; [|exact Hcode]. split; simpl; [now rewrite update_at_length, Hn|].
  rewrite (drop_S _ _ _ Hlook) in Hc. simpl in Hc. pose proof (costs_drop_nonneg a.(an_nodes) (S (Z.to_nat i))) as Hrest.
  assert (0 <= costs o.(co_max_resolved_tag) (drop (S (Z.to_nat i)) a.(an_nodes))) by (apply Hrest; intros j y Hj Hji; apply Hwait; [done|lia]). lia.
Qed.

Lemma analyze_pass_fails g bound k f : forall i a, 0 <= i -> i + Z.of_nat k = zlen a.(an_nodes) -> stage g bound i a ->
  analyze_pass m text o d (map Z.of_nat (seq (Z.to_nat i) k)) a = inr f -> failed (zlen a.(an_nodes)) bound f.
Proof.
  induction k as [|k IH]; intros i a Hi Hk Hs; simpl; [discriminate|]. rewrite Z2Nat.id by lia. destruct (analyze_node m text o d a i) as [a1|f'] eqn:E.
  - destruct (analyze_node_stage g bound i a a1 ltac:(lia) Hs E) as [Hs1 Hl1]. replace (S (Z.to_nat i)) with (Z.to_nat (i + 1)) by lia.
    rewrite <- Hl1. apply IH; [lia|lia|done].
  - intros [= <-]. eapply analyze_node_fails; [|done|exact E]. lia.
Qed.

Lemma literal_node_fails count bound i nodes f : parsed_nodes count bound nodes -> literal_node m text d nodes i = inr f -> failed count 0 f.
Proof.
  intros (_ & Hl & _). assert (Hroom : room_left count 0 (initial_analysis nodes)) by (split; [exact Hl|simpl; lia]). unfold literal_node. cbv zeta.
  match goal with |- (if ?b then _ else _) = _ -> _ => destruct b end; [intros [= <-]; split; [exact Hroom|discriminate]|].
  match goal with |- context[if (n_op ?x =? Q_CALL) && ?b then _ else _] => destruct ((n_op x =? Q_CALL) && b) end; [|discriminate].
  destruct (call_args _ _); [discriminate|]. intros [= <-]. split; [exact Hroom|discriminate].
Qed.

Lemma literal_pass_fails count bound indices : forall nodes f, parsed_nodes count bound nodes -> literal_pass m text d indices nodes = inr f ->
  failed count 0 f.
Proof.
  induction indices as [|i indices IH]; intros nodes f Hp; simpl; [discriminate|].
  destruct (literal_node _ _ _ _ _) as [nodes1|f'] eqn:E; [apply IH; eapply literal_node_parsed; eassumption|]. intros [= <-]. eapply literal_node_fails; eassumption.
Qed.

Lemma analyze_passes_fails count bound nodes f : parsed_nodes count bound nodes -> 0 <= bound -> analyze_passes m text o d nodes = inr f -> failed count bound f.
Proof.
  intros Hp Hb E. unfold analyze_passes in E. destruct (literal_pass _ _ _ _ _) as [g|f'] eqn:El.
  - apply (literal_pass_parsed count bound) in El as (Hw & Hl & Hc); [|done].
    assert (Hs : stage g bound 0 (initial_analysis g)).
    { constructor; [split_and!; done|apply arguments_refl|intros; lia|intros; now apply Hw|]. unfold initial_analysis. cbn [an_nodes an_payload length]. rewrite drop_0. lia. }
    apply (analyze_pass_fails g bound (length g) f 0) in E; [|lia|unfold initial_analysis; cbn [an_nodes]; lia|done].
    unfold initial_analysis in E. cbn [an_nodes] in E. now rewrite Hl in E.
  - injection E as <-. destruct (literal_pass_fails _ _ _ _ _ Hp El) as [[Hl Hz] Hc]. split; [split; [done|lia]|done].
Qed.

(** Whatever analysis ends with, what it has written has room. *)
Lemma analyze_room count bound nodes root rc a d' : parsed_nodes count bound nodes -> 0 <= bound -> analyze m text o d nodes root = (rc, a, d') -> room_left count bound a.
Proof.
  intros Hp Hb. unfold analyze. destruct (analyze_passes m text o d nodes) as [a0|f] eqn:E.
  - intros [= <- <- <-]. destruct (analyze_passes_stage _ _ _ _ Hp E) as (g & [_ _ _ _ Hc] & Hl). split; [exact Hl|]. simpl.
    rewrite drop_ge in Hc by lia. simpl in Hc. lia.
  - intros [= <- <- <-]. eapply analyze_passes_fails; eassumption.
Qed.
End Pass.
