(* ===== verification/QueryCompileLaws.v ===== *)
(** * What the compiler and its images promise

    Every image that is written or loaded is a valid program, what is written while it is compiled fits in the scratch
    space whose size is asked for, compiling ends and says what storage it needs, and the variables of a valid program
    are found by their slots. *)

From Stdlib Require Import String.
From S2P Require Import Prelude Mem Core Format Diagnostic QueryPath QueryProgram QueryParser QueryAnalyze QueryCompile QueryParserLaws QueryAnalyzeLaws.

(** * Valid images *)

(** ** One instruction *)

(** A variable that is declared has a type of its own. *)
Definition variable_type (type : Z) : Prop := type = V_NUMBER \/ type = V_BYTES \/ type = V_STRING.

Lemma find_variable_type name variables : forall earlier kind, variables_error earlier variables = None ->
  find_variable name variables = Some kind -> variable_type (query_private_type kind).
Proof.
  induction variables as [|v variables IH]; intros earlier kind; simpl; [discriminate|].
  destruct (variable_error earlier v) eqn:E; [discriminate|]. intros Hv. destruct (_ =? 0); [|now apply (IH _ _ Hv)]. intros [= <-].
  unfold variable_error in E. destruct (qv_name v) as [x|]; [|discriminate]. destruct (negb _); [discriminate|]. cbn [orb] in E.
  unfold variable_type. destruct (qv_type v); try discriminate; simpl; auto.
Qed.

Section Valid.
Context (m : mem) (text : ptr) (o : tlv_query_compile_options_t) (size : Z).
Context (Hvariables : variables_error [] (option_variables o) = None) (Hsize : 0 < size).

Abbreviation settled := (settled m text o size).

Lemma absent_or_before_true i x : absent_or_before i x -> (x =? QUERY_NONE) || (x <? i) = true.
Proof. intros [-> |Hx]; [done|]. zlia. Qed.

Lemma variable_ok_type payload n : variable_ok m text o payload n -> variable_type n.(n_type).
Proof. intros (kind & Hf & -> & _). eapply find_variable_type; eassumption. Qed.

Lemma settled_type g i stride payload n : settled g i stride payload n -> 0 <= n.(n_type) <= V_STRING.
Proof.
  intros [_ Ht _ _ Hv Hc].
  destruct (Z.eq_dec n.(n_op) Q_VARIABLE) as [E|E]; [destruct (variable_ok_type _ _ (Hv E)); lia|].
  destruct (Z.eq_dec n.(n_op) Q_CALL) as [E'|E']; [destruct (Hc E') as (k & _ & _ & -> & _)|rewrite Ht by done].
  - unfold function_type. repeat match goal with |- context[if ?b then _ else _] => destruct b end; lia.
  - unfold operand_kind. repeat match goal with |- context[if ?b then _ else _] => destruct b end; lia.
Qed.

Lemma settled_links g i stride payload n : i <= QUERY_NONE -> settled g i stride payload n -> links_valid size n i = true.
Proof.
  intros Hi Hs. pose proof (settled_type _ _ _ _ _ Hs) as Htype. destruct Hs as [[Hop [Hlow Hl] Hsp Hax Han Hsc Hgr Hne Hpr Hpa Hva Hfo Hco Hng Hre Hda Hma Hho Hru] Ht Hm Hli Hv Hc].
  unfold links_valid. cbv zeta. change (((Q_CHILD <=? n.(n_op)) && (n.(n_op) <=? Q_OR)) || (n.(n_op) =? Q_ARGS)) with (is_binary n.(n_op)).
  assert (Hpath : absent_or_before i n.(n_path_guard)) by (destruct Hpa as [?|[? _]]; [now left|now right]).
  rewrite (absent_or_before_true _ _ Hpr), (absent_or_before_true _ _ Hpath).
  assert (negb (negb (n.(n_path_guard) =? QUERY_NONE) && negb (n.(n_path_kind) =? Q_CHILD) && negb (n.(n_path_kind) =? Q_DESC) && negb (n.(n_path_kind) =? Q_SELF)) = true) as ->.
  { destruct Hpa as [-> |[_ [-> |[-> | ->]]]]; [done|..]; now rewrite ?andb_false_r. }
  assert ((Q_BOOL <? n.(n_op)) || (A_PRECEDE <? n.(n_axis)) || (2 <? n.(n_anchor)) || (1 <? n.(n_scalar)) || (1 <? n.(n_grouped)) ||
        (1 <? n.(n_nested)) || (V_STRING <? n.(n_type)) || (n.(n_end) <? n.(n_begin)) ||
        (negb (size =? 0) && (size <? n.(n_end))) || (i <? n.(n_low)) = false) as ->.
  { rewrite !orb_false_iff, andb_false_iff, !Z.ltb_ge. lia. }
  destruct (is_binary n.(n_op)) eqn:Eb.
  - assert ((n.(n_op) =? Q_CALL) = false) as -> by (unfold is_binary in Eb; zlia).
    rewrite (absent_or_before_true i n.(n_left)), (absent_or_before_true i n.(n_right)) by (right; lia). simpl.
    destruct (Z.eqb_spec n.(n_left) QUERY_NONE); [lia|]. destruct (Z.eqb_spec n.(n_right) QUERY_NONE); [lia|]. done.
  - destruct Hl as [-> Hl]. rewrite (absent_or_before_true i n.(n_left)) by (destruct Hl as [-> |[_ ?]]; [now left|now right]). simpl.
    destruct Hl as [-> |[-> _]]; simpl; now rewrite ?andb_false_r.
Qed.

(** The operation has another type. *)
Definition kind_mismatch (op type : Z) : bool :=
  (((op <=? Q_SELF) || ((Q_CHILD <=? op) && (op <=? Q_EXCEPT))) && negb (type =? V_NODE)) ||
  (((op =? Q_META) || (op =? Q_LITERAL)) && negb (type =? V_NUMBER)) ||
  ((op =? Q_BYTES) && negb (type =? V_BYTES)) || ((op =? Q_STRING) && negb (type =? V_STRING)) ||
  (((op =? Q_BOOL) || ((Q_EQ <=? op) && (op <=? Q_OR))) && negb (type =? V_BOOL)).

Lemma operand_kind_fits op : 0 <= op < 256 -> kind_mismatch op (operand_kind op) = false.
Proof. intros Hop. apply negb_true_iff. revert op Hop. apply octets_decide. vm_compute. reflexivity. Qed.

Lemma settled_type_valid g i stride payload n : stride mod 16 = 0 -> settled g i stride payload n -> type_invalid stride n = false.
Proof.
  intros Hm16 [[Hop Hl Hsp Hax Han Hsc Hgr Hne Hpr Hpa Hva Hfo Hco Hng Hre Hda Hma Hho Hru] Ht Hm Hli Hv Hc].
  assert (kind_mismatch n.(n_op) n.(n_type) = false) as Hk.
  { destruct (Z.eq_dec n.(n_op) Q_VARIABLE) as [E|E]; [rewrite E; reflexivity|]. destruct (Z.eq_dec n.(n_op) Q_CALL) as [E'|E']; [rewrite E'; reflexivity|].
    rewrite (Ht E E'). apply operand_kind_fits; lia. }
  unfold type_invalid. unfold kind_mismatch in Hk. rewrite Hk. cbn [orb]. rewrite !orb_false_iff. split_and!.
  - destruct (Z.ltb_spec 1 n.(n_folded)); [lia|apply andb_false_r].
  - zlia.
  - destruct Hho as [-> |[Hid Hb]]; [done|]. destruct (Z.eqb_spec n.(n_hook_id) 0); [done|]. destruct (Z.ltb_spec stride n.(n_scratch_size)); [lia|apply andb_false_r].
  - now rewrite Hm16.
Qed.

Lemma settled_literal_valid g i stride payload n : settled g i stride payload n -> literal_invalid n = false.
Proof.
  intros [[Hop Hl Hsp Hax Han Hsc Hgr Hne Hpr Hpa Hva Hfo Hco Hng Hre Hda Hma Hho Hru] Ht Hm Hli Hv Hc].
  unfold literal_invalid. rewrite !orb_false_iff. split_and!; [zlia|zlia| |].
  - destruct (Z.eqb_spec n.(n_op) Q_META) as [E|E]; [|done]. specialize (Hm E). zlia.
  - destruct (Z.eqb_spec n.(n_op) Q_LITERAL) as [E|E]; [|done]. destruct (Hli E) as [Hb Hz].
    destruct (Z.ltb_spec (INT64_MAX + n.(n_negative)) (query_immediate n)); [lia|]. cbn [orb andb].
    destruct (Z.eqb_spec (query_immediate n) 0) as [E0|E0]; [|done]. now rewrite (Hz E0).
Qed.

Lemma settled_data_valid g i stride payload n : i <= QUERY_NONE -> settled g i stride payload n -> data_invalid (zlen payload) n i = false.
Proof.
  intros Hi [[Hop Hl Hsp Hax Han Hsc Hgr Hne Hpr Hpa Hva Hfo Hco Hng Hre Hda Hma Hho Hru] Ht Hm Hli Hv Hc].
  unfold data_invalid. rewrite !orb_false_iff. split_and!; [|zlia|zlia|].
  - destruct (Z.eqb_spec n.(n_resolved) 2) as [E|E]; [|done]. specialize (Hma E). cbn [andb]. rewrite orb_false_iff, !Z.ltb_ge. lia.
  - destruct Hru as [-> |Hj]; [done|]. destruct (Z.leb_spec i n.(n_reuse)); [lia|apply andb_false_r].
Qed.

Lemma settled_call_valid g nodes i stride payload n : Forall2 same_arguments g nodes -> settled g i stride payload n ->
  (n.(n_op) =? Q_CALL) && negb (call_valid nodes n) = false.
Proof.
  intros Hargs [_ _ _ _ _ Hc]. destruct (Z.eqb_spec n.(n_op) Q_CALL) as [E|E]; [|done]. destruct (Hc E) as (argc & Hn & Ha & Ht & Hh).
  unfold call_valid. rewrite (count_args_same _ _ Hargs), Hn, Ha, Ht, Z.eqb_refl. cbn [negb orb].
  destruct ((F_NUM <=? n.(n_selector)) && (n.(n_selector) <=? F_DATE)) eqn:E1; [|done]. destruct (Z.eqb_spec n.(n_hook_id) 0); [|done]. destruct Hh; [zlia|done].
Qed.
(** ** Slots of variables *)

Lemma settled_slot g i stride payload n slot : settled g i stride payload n -> settled g i stride payload (with_n_variable_slot slot n).
Proof. intros [[] Ht Hm Hl Hv Hc]. constructor; auto. constructor; auto. Qed.

Lemma variable_slots_prefix rest : forall earlier slots nodes count, variable_slots m text earlier rest slots = (nodes, count) ->
  exists more, nodes = earlier ++ more /\ length more = length rest /\
    (forall j n, more !! j = Some n -> exists x slot, rest !! j = Some x /\ (n = x \/ n = with_n_variable_slot slot x)) /\ slots <= count <= slots + zlen rest.
Proof using.
  clear. induction rest as [|n rest IH]; intros earlier slots nodes count; simpl.
  - intros [= <- <-]. exists []. rewrite app_nil_r. split_and!; auto; [intros j n Hj; discriminate|simpl; lia|simpl; lia].
  - assert (Hgo : forall x slots', (exists slot, x = n \/ x = with_n_variable_slot slot n) -> slots <= slots' <= slots + 1 -> variable_slots m text (earlier ++ [x]) rest slots' = (nodes, count) ->
      exists more, nodes = earlier ++ more /\ length more = length (n :: rest) /\
        (forall j y, more !! j = Some y -> exists x slot, (n :: rest) !! j = Some x /\ (y = x \/ y = with_n_variable_slot slot x)) /\ slots <= count <= slots + zlen (n :: rest)).
    { intros x slots' [slot Hx] Hs Hv. destruct (IH _ _ _ _ Hv) as (more & -> & Hl & Hm & Hc). exists (x :: more). split_and!.
      - now rewrite <- app_assoc.
      - simpl. lia.
      - intros [|j] y Hj; simpl in Hj; [injection Hj as <-; exists n, slot; auto|]. now apply Hm.
      - lia.
      - simpl length. lia. }
    destruct (n_op n =? Q_VARIABLE); [|apply Hgo; [exists 0; auto|lia]].
    apply Hgo; [eexists; right; reflexivity|]. destruct (_ =? slots); lia.
Qed.

(** Variables with one slot have one name; slots are below the count. *)
Definition slots_ok (earlier : list query_node_t) (slots : Z) : Prop :=
  (forall x, x ∈ earlier -> x.(n_op) = Q_VARIABLE -> 0 <= x.(n_variable_slot) < slots) /\
  (forall x y, x ∈ earlier -> y ∈ earlier -> x.(n_op) = Q_VARIABLE -> y.(n_op) = Q_VARIABLE -> x.(n_variable_slot) = y.(n_variable_slot) -> span m text x = span m text y).

Lemma find_Some_in {A} (f : A -> bool) l x : List.find f l = Some x -> x ∈ l /\ f x = true.
Proof using. intros Hf. apply List.find_some in Hf as [Hin Hx]. split; [|done]. now apply list_elem_of_In. Qed.

Lemma same_variable_span n a : same_variable m text n a = true -> a.(n_op) = Q_VARIABLE /\ span m text a = span m text n /\ a.(n_end) - a.(n_begin) = n.(n_end) - n.(n_begin).
Proof using.
  unfold same_variable. rewrite !andb_true_iff. intros [[H1 H2] H3]. apply Z.eqb_eq in H1, H2, H3. apply lex_eq in H3. auto.
Qed.
(** Two variables of one name have one type and name. *)
Lemma variable_ok_same payload x y : variable_ok m text o payload x -> variable_ok m text o payload y -> span m text x = span m text y ->
  x.(n_begin) <= x.(n_end) -> y.(n_begin) <= y.(n_end) ->
  x.(n_type) = y.(n_type) /\ x.(n_data_size) = y.(n_data_size) /\ slice payload x.(n_data_offset) x.(n_data_size) = slice payload y.(n_data_offset) y.(n_data_size).
Proof using.
  intros (kx & Fx & Tx & Dx & Sx) (ky & Fy & Ty & Dy & Sy) Hs Hx Hy. rewrite Hs in *. assert (kx = ky) as -> by congruence.
  pose proof (span_length m text x Hx) as Lx. pose proof (span_length m text y Hy) as Ly. rewrite Hs in Lx. split_and!; [congruence|lia|congruence].
Qed.

Section Slots.
Context (p : tlv_query_program_t) (g : list query_node_t) (stride : Z) (payload : list Z).
Context (Hstride : stride mod 16 = 0) (Hptext : p.(p_text_size) = size) (Hpstride : p.(p_codec_stride) = stride)
  (Hpsize : p.(p_payload_size) = zlen payload) (Hppayload : p.(p_payload) = payload) (Hcount : zlen p.(p_nodes) < QUERY_NONE)
  (Hsettled : each (fun i n => settled g i stride payload n) p.(p_nodes)) (Hargs : Forall2 same_arguments g p.(p_nodes)).

Lemma settled_in x : x ∈ p.(p_nodes) -> exists i, settled g i stride payload x.
Proof using Hsettled. intros Hx. apply list_elem_of_lookup_1 in Hx as [j Hj]. eauto. Qed.

Lemma instruction_valid_here x i variables rest : settled g i stride payload x -> i <= QUERY_NONE ->
  nodes_valid p (x :: rest) i variables = match variable_valid p x i variables with None => None | Some variables => nodes_valid p rest (i + 1) variables end.
Proof.
  intros Hx Hi. cbn [nodes_valid]. rewrite Hptext, Hpstride, Hpsize, (settled_links _ _ _ _ _ Hi Hx), (settled_call_valid _ _ _ _ _ _ Hargs Hx).
  rewrite (settled_type_valid _ _ _ _ _ Hstride Hx), (settled_literal_valid _ _ _ _ _ Hx), (settled_data_valid _ _ _ _ _ Hi Hx). done.
Qed.

Lemma variable_checked x variables : variable_ok m text o payload x -> x.(n_begin) + 2 <= x.(n_end) -> x.(n_variable_slot) <= variables ->
  (negb (x.(n_type) =? V_NUMBER) && negb (x.(n_type) =? V_BYTES) && negb (x.(n_type) =? V_STRING)) || (variables <? x.(n_variable_slot)) || (x.(n_data_size) =? 0) = false.
Proof.
  intros Hv Hl Hs. pose proof Hv as (_ & _ & _ & Hd & _). destruct (Z.ltb_spec variables x.(n_variable_slot)); [lia|]. destruct (Z.eqb_spec x.(n_data_size) 0); [lia|].
  destruct (variable_ok_type _ _ Hv) as [-> |[-> | ->]]; done.
Qed.

Lemma variable_valid_known earlier rest x a variables : p.(p_nodes) = earlier ++ x :: rest -> slots_ok earlier variables ->
  x.(n_op) = Q_VARIABLE -> List.find (same_variable m text x) earlier = Some a -> x.(n_variable_slot) = a.(n_variable_slot) ->
  variable_valid p x (zlen earlier) variables = Some variables /\ slots_ok (earlier ++ [x]) variables.
Proof.
  intros Hp [Hlt Hname] Hop Hfind Hslot. apply find_Some_in in Hfind as [Ha Hsame]. apply same_variable_span in Hsame as (Hopa & Hspan & _).
  assert (Hearlier : forall y, y ∈ earlier -> y ∈ p.(p_nodes)) by (intros y Hy; rewrite Hp; apply elem_of_app; now left).
  pose proof (Hlt a Ha Hopa) as Hbound. destruct (settled_in x) as [ix Hx]; [rewrite Hp; apply elem_of_app; right; left|].
  pose proof (se_variable _ _ _ _ _ _ _ _ _ Hx Hop) as Hvx. pose proof (ba_variable _ _ _ _ _ (se_base _ _ _ _ _ _ _ _ _ Hx) Hop) as Hlx.
  split.
  - unfold variable_valid. rewrite Hop. change (Q_VARIABLE =? Q_VARIABLE) with true. cbv iota. rewrite variable_checked by (auto; lia).
    destruct (Z.eqb_spec x.(n_variable_slot) variables); [lia|]. rewrite Nat2Z.id, Hp, take_app_length.
    destruct (List.find (same_slot (n_variable_slot x)) earlier) as [first|] eqn:Ef.
    + apply find_Some_in in Ef as [Hin Hs]. apply andb_true_iff in Hs as [Hs1 Hs2]. apply Z.eqb_eq in Hs1, Hs2.
      destruct (settled_in first) as [jf Hf]; [auto|]. pose proof (se_variable _ _ _ _ _ _ _ _ _ Hf Hs1) as Hvf. pose proof (ba_variable _ _ _ _ _ (se_base _ _ _ _ _ _ _ _ _ Hf) Hs1) as Hlf.
      destruct (variable_ok_same payload first x) as (Ht & Hd & Hsl); [done|done| |lia|lia|].
      { rewrite <- Hspan. apply Hname; auto. congruence. }
      rewrite Ht, Hd, !Z.eqb_refl. unfold query_payload. rewrite Hppayload. fold (slice payload first.(n_data_offset) x.(n_data_size)) (slice payload x.(n_data_offset) x.(n_data_size)).
      rewrite Hd in Hsl. rewrite Hsl, (proj2 (lex_eq _ _) eq_refl). done.
    + exfalso. apply list_elem_of_In in Ha. pose proof (List.find_none _ _ Ef a Ha) as Hno. unfold same_slot in Hno. rewrite Hopa, Hslot, !Z.eqb_refl in Hno. discriminate.
  - assert (Hxy : forall y, y ∈ earlier -> y.(n_op) = Q_VARIABLE -> x.(n_variable_slot) = y.(n_variable_slot) -> span m text x = span m text y).
    { intros y Hy Hyop Hs. rewrite <- Hspan. apply Hname; auto. congruence. }
    split.
    + intros y Hy Hy'. apply elem_of_app in Hy as [Hy|Hy%list_elem_of_singleton]; [auto|subst y; lia].
    + intros y z Hy Hz Hyop Hzop Hs. apply elem_of_app in Hy as [Hy|Hy%list_elem_of_singleton], Hz as [Hz|Hz%list_elem_of_singleton]; subst; auto. symmetry. auto.
Qed.

Lemma variable_valid_new earlier x variables : x ∈ p.(p_nodes) -> slots_ok earlier variables -> 0 <= variables ->
  x.(n_op) = Q_VARIABLE -> x.(n_variable_slot) = variables ->
  variable_valid p x (zlen earlier) variables = Some (variables + 1) /\ slots_ok (earlier ++ [x]) (variables + 1).
Proof.
  intros Hin [Hlt Hname] Hv Hop Hslot. destruct (settled_in x) as [ix Hx]; [done|].
  pose proof (se_variable _ _ _ _ _ _ _ _ _ Hx Hop) as Hvx. pose proof (ba_variable _ _ _ _ _ (se_base _ _ _ _ _ _ _ _ _ Hx) Hop) as Hlx. split.
  - unfold variable_valid. rewrite Hop. change (Q_VARIABLE =? Q_VARIABLE) with true. cbv iota. rewrite variable_checked by (auto; lia).
    rewrite Hslot, Z.eqb_refl. done.
  - split.
    + intros y Hy Hy'. apply elem_of_app in Hy as [Hy|Hy%list_elem_of_singleton]; [specialize (Hlt y Hy Hy'); lia|subst y; lia].
    + intros y z Hy Hz Hyop Hzop Hs. apply elem_of_app in Hy as [Hy|Hy%list_elem_of_singleton], Hz as [Hz|Hz%list_elem_of_singleton]; subst; auto.
      * specialize (Hlt y Hy Hyop). lia.
      * specialize (Hlt z Hz Hzop). lia.
Qed.

Lemma nodes_valid_slots rest : forall earlier slots count, variable_slots m text earlier rest slots = (p.(p_nodes), count) ->
  slots_ok earlier slots -> 0 <= slots <= zlen earlier ->
  nodes_valid p (drop (length earlier) p.(p_nodes)) (zlen earlier) slots = Some count.
Proof.
  induction rest as [|n rest IH]; intros earlier slots count Hvs Hok Hslots; simpl in Hvs.
  - injection Hvs as He <-. rewrite <- He, drop_all. done.
  - assert (Hstep : forall x slots', variable_slots m text (earlier ++ [x]) rest slots' = (p.(p_nodes), count) ->
      (p.(p_nodes) = earlier ++ x :: drop (S (length earlier)) p.(p_nodes) -> variable_valid p x (zlen earlier) slots = Some slots' /\ slots_ok (earlier ++ [x]) slots') ->
      slots <= slots' <= slots + 1 -> nodes_valid p (drop (length earlier) p.(p_nodes)) (zlen earlier) slots = Some count).
    { intros x slots' Hv Hx Hs. destruct (variable_slots_prefix _ _ _ _ _ Hv) as (more & He & _).
      assert (Hl : p.(p_nodes) = earlier ++ x :: drop (S (length earlier)) p.(p_nodes)).
      { rewrite He, <- app_assoc at 1. f_equal. simpl. f_equal. rewrite He. rewrite drop_app_ge; rewrite length_app; simpl; [|lia].
        now replace (S (length earlier) - (length earlier + 1))%nat with 0%nat by lia. }
      assert (Hat : p.(p_nodes) !! length earlier = Some x) by (rewrite Hl, lookup_app_r, Nat.sub_diag by lia; done).
      destruct (Hx Hl) as [Hval Hok']. rewrite (drop_S _ _ _ Hat). pose proof (lookup_lt_Some _ _ _ Hat).
      rewrite instruction_valid_here by (first [apply Hsettled, Hat | lia]). rewrite Hval.
      specialize (IH (earlier ++ [x]) slots' count Hv Hok'). rewrite length_app in IH. simpl length in IH.
      replace (length earlier + 1)%nat with (S (length earlier)) in IH by lia. replace (Z.of_nat (S (length earlier))) with (zlen earlier + 1) in IH by lia. apply IH. lia. }
    destruct (Z.eqb_spec n.(n_op) Q_VARIABLE) as [Hop|Hop].
    + destruct (List.find (same_variable m text n) earlier) as [a|] eqn:Ef.
      * pose proof (find_Some_in _ _ _ Ef) as [Ha Hsame]. apply same_variable_span in Hsame as (Hopa & _ & _). pose proof (proj1 Hok a Ha Hopa) as Hb.
        destruct (Z.eqb_spec a.(n_variable_slot) slots); [lia|]. apply (Hstep _ _ Hvs); [|lia]. intros Hl. eapply variable_valid_known; [exact Hl|done|done|exact Ef|done].
      * pose proof (variable_slots_prefix _ _ _ _ _ Hvs) as (more & He & _). assert (Hlen : zlen earlier < QUERY_NONE) by (rewrite He, !length_app in Hcount; lia).
        assert (u32 slots = slots) as Hu by (unfold u32; rewrite Z.mod_small; lia). rewrite Hu, Z.eqb_refl in Hvs.
        apply (Hstep _ _ Hvs); [|lia]. intros Hl. apply variable_valid_new; [rewrite Hl; apply elem_of_app; right; left|done|lia|done|done].
    + apply (Hstep _ _ Hvs); [|lia]. intros Hl. split.
      * unfold variable_valid. destruct (Z.eqb_spec n.(n_op) Q_VARIABLE); [done|]. done.
      * destruct Hok as [Hlt Hname]. split.
        -- intros y Hy Hy'. apply elem_of_app in Hy as [Hy|Hy%list_elem_of_singleton]; [auto|subst y; done].
        -- intros y z Hy Hz Hyop Hzop Hs. apply elem_of_app in Hy as [Hy|Hy%list_elem_of_singleton], Hz as [Hz|Hz%list_elem_of_singleton]; subst; auto; done.
Qed.
End Slots.
End Valid.

(** ** The image *)

(** The branch with an image. *)
Ltac image_branch E := match goal with |- cm_image (if ?b then _ else _) = _ -> _ => destruct b eqn:E; [discriminate|] end.

Section Image.
Context `{Platform} `{QueryLayout} `{QueryConfig} (m : mem) (text : ptr) (o : tlv_query_compile_options_t) (size : Z).
Context (Hvariables : variables_error [] (option_variables o) = None) (Hhooks : environment_invalid o = false)
  (Hmax : 0 <= o.(co_max_resolved_tag)) (Hsize : 0 < size < UINT32_MAX).

(** The rooms of an image that fits. *)
Lemma image_fits (nodes : list query_node_t) (payload : list Z) root : let used := zlen nodes in let total := PROGRAM_SIZE + used * NODE_SIZE + size + 1 + zlen payload in
  (SIZE_MAX - PROGRAM_SIZE - 1 <? size) || ((SIZE_MAX - PROGRAM_SIZE - size - 1) / NODE_SIZE <? used) = false -> total <= UINT32_MAX -> 0 <= root < used ->
  usize (PROGRAM_SIZE + usize (used * NODE_SIZE)) = PROGRAM_SIZE + used * NODE_SIZE /\ ((UINT32_MAX - PROGRAM_SIZE) / NODE_SIZE <? used) = false.
Proof.
  intros used total Hfit Ht Hr. apply orb_false_iff in Hfit as [Hf1 Hf2]. apply Z.ltb_ge in Hf1, Hf2. unfold PROGRAM_SIZE, NODE_SIZE in *.
  assert (used * 116 <= SIZE_MAX - 52 - size - 1). { pose proof (Z.mul_div_le (SIZE_MAX - 52 - size - 1) 116 ltac:(lia)). nia. }
  rewrite (usize_small (used * 116)) by lia. rewrite usize_small by lia. split; [done|]. apply Z.ltb_ge. apply Z.div_le_lower_bound; lia.
Qed.

Lemma emit_program_valid needed alignment struct_size root storage capacity g bound count a d p : stage m text o size g bound count a -> zlen a.(an_nodes) = count ->
  0 <= root < count -> count < QUERY_NONE ->
  (emit_program m text size o needed alignment struct_size root storage capacity TLV_OK a d).(cm_image) = Some p -> query_program_valid true p = true.
Proof.
  intros [[Hs0 [Hs16 [Hs32 Hlevel]]] Hargs Hdone _ _] Hcount Hroot Hc. unfold emit_program. cbv zeta.
  image_branch Efit. image_branch Epayload. image_branch Etotal. apply Z.ltb_ge in Etotal as Htotal.
  destruct (image_fits _ _ root Efit Htotal ltac:(lia)) as [Hoffset Hn]. 
  destruct (variable_slots m text [] a.(an_nodes) 0) as [nodes slots] eqn:Evs. rewrite is_ok_OK. cbn [negb]. image_branch Estorage. image_branch Ecapacity.
  intros [= <-]. destruct (variable_slots_prefix m text _ _ _ _ _ Evs) as (more & -> & Hlen & Hmore & Hslots). simpl in Hlen, Hslots. rewrite app_nil_l in *.
  assert (Hu : forall x, 0 <= x <= UINT32_MAX -> u32 x = x) by (intros x Hx; unfold u32; rewrite Z.mod_small; lia).
  unfold query_program_valid. cbn [negb p_magic p_version p_count p_root p_level p_text_offset p_text_size p_payload_size p_reserved p_nodes p_variable_count p_text].
  unfold PROGRAM_SIZE, NODE_SIZE in Htotal, Hn, Hoffset |- *. rewrite !Hu by lia. rewrite Hoffset, Hn, !Z.eqb_refl. cbn [negb orb].
  destruct (Z.eqb_spec (zlen a.(an_nodes)) 0); [lia|]. destruct (Z.leb_spec (zlen a.(an_nodes)) root); [lia|]. destruct (Z.ltb_spec TLV_QUERY_D a.(an_level)); [lia|]. cbn [orb].
  destruct (Z.leb_spec (UINT32_MAX - (52 + zlen a.(an_nodes) * 116)) size); [lia|].
  destruct (Z.ltb_spec (UINT32_MAX - (52 + zlen a.(an_nodes) * 116) - size - 1) (zlen a.(an_payload))); [lia|]. cbn [orb].
  rewrite <- Hlen, Nat2Z.id, firstn_all.
  match goal with |- match nodes_valid ?q _ _ _ with _ => _ end = _ => pose proof (nodes_valid_slots m text o size Hvariables ltac:(lia) q g a.(an_stride) a.(an_payload) Hs16) as Hnv; cbn [p_text_size p_codec_stride p_payload_size p_payload p_nodes] in Hnv end.
  rewrite (Hnv eq_refl (Hu a.(an_stride) ltac:(lia)) eq_refl eq_refl ltac:(lia)) with (rest := a.(an_nodes)) (earlier := []) (count := slots); clear Hnv.
  - rewrite Z.eqb_refl. unfold byte_at. rewrite app_nth2 by (rewrite length_bytes_of; lia). rewrite length_bytes_of, Nat.sub_diag. done.
  - intros j n' Hj. destruct (Hmore j n' Hj) as (x & slot & Hx & Hn'). pose proof (lookup_lt_Some _ _ _ Hx). specialize (Hdone j x Hx ltac:(lia)).
    destruct Hn' as [-> | ->]; [done|now apply settled_slot].
  - apply Forall2_same_length_lookup. split; [apply Forall2_length in Hargs; lia|]. intros j x y Hx Hy. destruct (Hmore j y Hy) as (z & slot & Hz & Hy').
    pose proof (Forall2_lookup_lr _ _ _ _ _ _ Hargs Hx Hz) as Hxz. destruct Hy' as [-> | ->]; done.
  - exact Evs.
  - split; [intros x Hx|intros x y Hx]; apply not_elem_of_nil in Hx; done.
  - simpl. lia.
Qed.
End Image.

(** ** The whole *)

Definition sizes_ok (options : option tlv_query_compile_options_t) : Prop :=
  match options with Some o => 0 <= o.(co_max_resolved_tag) | None => True end.

Record checked (size : Z) (options : option tlv_query_compile_options_t) (o : tlv_query_compile_options_t) : Prop := {
  ck_variables : variables_error [] (option_variables o) = None;
  ck_hooks : environment_invalid o = false;
  ck_max : sizes_ok options -> 0 < o.(co_max_resolved_tag);
  ck_size : size < UINT32_MAX;
  ck_options : forall s, options = Some s -> o = s }.

(** A branch that reports an error is not one that succeeds. *)
Ltac refuse d := match goal with |- (if ?b then _ else _) = _ -> _ => destruct b eqn:?; [destruct d; discriminate|] end.

Lemma options_check_ok `{QueryLayout} options size d o d' : options_check options size d = (TLV_OK, o, d') -> checked size options o.
Proof.
  unfold options_check. cbv zeta. destruct (match options with Some _ => _ | None => false end); [destruct d; discriminate|]. set (p := default default_options options).
  refuse d. destruct (variables_error [] (option_variables p)) eqn:Ev; [destruct d; discriminate|]. refuse d. refuse d. refuse d. refuse d.
  intros [= <- <-]. constructor; try done.
  - intros Hs. rewrite !orb_false_iff in *. assert (0 <= p.(co_max_resolved_tag)) by (subst p; destruct options; simpl; [exact Hs|lia]). zlia.
  - zlia.
  - intros x ->. done.
Qed.

Section Whole.
Context `{Platform} `{QueryLayout} `{QueryConfig} (m : mem) (pending : list Z) (text : ptr) (size : Z).

(** What the size of the scratch space is for. *)
Record scratched (o : tlv_query_compile_options_t) (needed alignment : Z) (tokens : list query_token_t) : Prop := {
  sd_spaced : spaced size 0 tokens;
  sd_count : 2 * zlen tokens < QUERY_NONE;
  sd_needed : needed = (zlen tokens + 1) * scratch_unit + size + zlen tokens * o.(co_max_resolved_tag);
  sd_checked : checked size (Some o) o }.

Lemma compile_scratch_ok o d extent d' : 0 <= size ->
  tlv_query_compile_scratch m pending text size (Some o) [] [] (Some (0, 0)) d = Some (TLV_OK, extent, d') ->
  exists needed alignment d0 r, extent = Some (needed, alignment) /\ lex m text size o.(co_max_tokens) pending d0 false None = Some r /\ r.(lx_code) = TLV_OK /\ scratched o needed alignment r.(lx_tokens).
Proof.
  intros Hsize. unfold tlv_query_compile_scratch. cbn [outputs_overlap is_some negb]. destruct (is_null text); [destruct d; discriminate|]. cbn [orb].
  destruct (options_check (Some o) size (query_diag_init d)) as [[rc o'] d0] eqn:Eo. destruct (is_ok rc) eqn:Erc; [|cbn [negb]; intros E; assert (rc = TLV_OK) as -> by congruence; rewrite is_ok_OK in Erc; discriminate]. cbn [negb].
  apply is_ok_true in Erc as ->. apply options_check_ok in Eo as Hck. assert (o' = o) as -> by now apply (ck_options _ _ _ Hck).
  pose proof (ck_size _ _ _ Hck) as Hlt.
  destruct (lex m text size o.(co_max_tokens) pending d0 false None) as [r|] eqn:El; [|discriminate]. destruct (is_ok r.(lx_code)) eqn:Er; [|cbn [negb]; intros E; assert (r.(lx_code) = TLV_OK) as E' by congruence; rewrite E', is_ok_OK in Er; discriminate].
  cbn [negb]. apply is_ok_true in Er. destruct ((UINT32_MAX / 2 <=? zlen r.(lx_tokens)) || _) eqn:E1; [destruct (lx_diagnostic r); discriminate|]. refuse (lx_diagnostic r).
  intros E. injection E as <- <-. do 2 eexists. exists d0, r. split; [reflexivity|]. split_and!; [done|done|]. apply orb_false_iff in E1 as [E1 _]. apply Z.leb_gt in E1. change (UINT32_MAX / 2) with 2147483647 in E1.
  constructor; [|lia|done|done]. eapply lex_spaced; [|exact El|done]. lia.
Qed.
Lemma parse_ready o needed alignment tokens d rc nodes root d' : 0 <= size -> 0 <= o.(co_max_resolved_tag) -> scratched o needed alignment tokens ->
  parse m text tokens o.(co_max_nesting) o.(co_max_states) d = (rc, Some (nodes, root), d') ->
  parsed_nodes o size (zlen nodes) (size + zlen tokens * o.(co_max_resolved_tag)) (add_guards m text nodes) /\
  0 <= root < zlen nodes /\ zlen nodes <= 2 * zlen tokens /\ 0 < size.
Proof.
  intros Hs Hm [Hsp Hcount Hneed Hck] Hp. destruct (parse_result m text size tokens _ _ _ Hs Hm Hsp Hcount d rc nodes root d' Hp) as (_ & Hw & Hroot & Hr0 & Hn & _ & Hc).
  destruct (add_guards_keeps m text size _ (zlen nodes) (size + zlen tokens * o.(co_max_resolved_tag)) nodes (conj Hw (conj eq_refl Hc))) as ([Hpost Hpend] & Hl & Hcost).
  split_and!; try lia.
  - split_and!; [|done|done]. intros j n Hj. split; [now apply Hpend|]. eapply postfix_linked; [lia|]. now apply Hpost.
  - destruct tokens as [|t tokens]; [cbn [length] in Hn; lia|]. destruct Hsp as (Hb & [He _] & _). lia.
Qed.

(** A failure has no image. *)
Lemma emit_failed o needed alignment struct_size root storage capacity rc a d : rc <> TLV_OK ->
  (emit_program m text size o needed alignment struct_size root storage capacity rc a d).(cm_image) = None.
Proof.
  intros Hrc%is_ok_false. unfold emit_program. cbv zeta. repeat match goal with |- cm_image (if ?b then _ else _) = _ => destruct b; [done|] end.
  destruct (variable_slots _ _ _ _ _) as [nodes slots]. now rewrite Hrc.
Qed.

Lemma final_level_range root a : 0 <= a.(an_level) <= TLV_QUERY_D -> 0 <= final_level root a <= TLV_QUERY_D.
Proof.
  intros Ha. unfold final_level. repeat match goal with |- context[if ?b then _ else _] => destruct b end; lia.
Qed.

Lemma stage_level o g bound count a level : 0 <= level <= TLV_QUERY_D -> stage m text o size g bound count a -> stage m text o size g bound count (with_level level a).
Proof. intros Hl [(? & ? & ? & _) ? ? ? ?]. constructor; auto. split_and!; auto; apply Hl. Qed.

(** An image that the compiler writes is a valid program. *)
Lemma compiled_valid options written read scratch storage info d c p : 0 <= size -> sizes_ok options ->
  tlv_query_compile m pending text size options written read scratch storage info d = Some c -> c.(cm_image) = Some p -> query_program_valid true p = true.
Proof.
  intros Hsize Hsizes. unfold tlv_query_compile. cbv zeta. destruct (outputs_overlap _ _); [intros [= <-]; discriminate|]. destruct info as [ss|]; [|intros [= <-]; discriminate].
  destruct (_ || _); [intros [= <-]; discriminate|]. destruct (_ <? _); [intros [= <-]; discriminate|].
  destruct (options_check _ _ _) as [[rc o] d0] eqn:Eo. destruct (is_ok rc) eqn:Erc; cbn [negb]; [|intros [= <-]; discriminate].
  apply is_ok_true in Erc as ->. apply options_check_ok in Eo as [Hv Hh Hm Hlt _]. specialize (Hm Hsizes).
  destruct (tlv_query_compile_scratch _ _ _ _ _ _ _ _ _) as [[[rc1 extent] d1]|] eqn:Es; [|discriminate].
  destruct (default (0, 0) extent) as [needed alignment] eqn:Ex. destruct (is_ok rc1) eqn:Erc1; cbn [negb]; [|intros [= <-]; discriminate]. apply is_ok_true in Erc1 as ->.
  destruct (_ || _); [intros [= <-]; discriminate|]. destruct (_ <? _); [intros [= <-]; discriminate|].
  destruct (lex _ _ _ _ _ _ _ _) as [r|] eqn:El; [|discriminate]. destruct (is_ok (lx_code r)) eqn:Er; cbn [negb]; [|intros [= <-]; discriminate]. apply is_ok_true in Er.
  apply compile_scratch_ok in Es as (n & al & d2 & r2 & -> & El2 & Er2 & Hscr); [|done].
  destruct (lex_diagnostic _ _ _ _ _ _ _ _ _ _ _ El2 El) as (_ & Ht & _). rewrite <- Ht in Hscr. intros [= <-]. unfold compile_tokens.
  destruct (parse _ _ _ _ _ _) as [[rc2 [[nodes root]|]] d3] eqn:Ep; [|discriminate].
  destruct (parse_ready _ _ _ _ _ _ _ _ _ Hsize (Z.lt_le_incl _ _ Hm) Hscr Ep) as (Hparsed & Hroot & Hn2 & Hpos).
  unfold analyze. destruct (analyze_passes _ _ _ _ _) as [a|f] eqn:Ea.
  - destruct (analyze_passes_stage m text o d3 size (Z.lt_le_incl _ _ Hm) Hh _ _ _ _ Hparsed Ea) as (g & Hstage & Hcount).
    pose proof (final_level_range root a (proj2 (proj2 (proj2 (sg_state _ _ _ _ _ _ _ _ Hstage))))) as Hlevel.
    pose proof (sd_count _ _ _ _ Hscr) as Hsc.
    apply (emit_program_valid m text o size Hv ltac:(lia)) with (g := g) (bound := size + zlen (lx_tokens r) * co_max_resolved_tag o) (count := zlen nodes);
      [now apply stage_level|exact Hcount|exact Hroot|lia].
  - destruct (analyze_passes_fails m text o d3 size (Z.lt_le_incl _ _ Hm) Hh _ _ _ _ Hparsed ltac:(lia) Ea) as [_ Hcode]. rewrite emit_failed by done. discriminate.
Qed.

(** C21. The rooms that compiling takes of the scratch space.  The tokens, the instructions, the operators that wait and the
    values have each an array of as many, and the constants have what is left.  No state that the parser reaches has more
    instructions than two per token, or more operators or values than tokens; and what analysis ends with, be it
    a failure, has as many instructions as the parser has made, and constants that fit in the scratch space whose size has been asked for. *)
Theorem compile_fits o d needed alignment d' d0 r : 0 <= size -> 0 <= o.(co_max_resolved_tag) ->
  tlv_query_compile_scratch m pending text size (Some o) [] [] (Some (0, 0)) d = Some (TLV_OK, Some (needed, alignment), d') ->
  lex m text size o.(co_max_tokens) pending d0 false None = Some r ->
  let count := zlen r.(lx_tokens) in
  (forall s i, parsing m text r.(lx_tokens) o.(co_max_nesting) o.(co_max_states) s i -> zlen s.(ps_nodes) <= 2 * count /\ zlen s.(ps_ops) <= count /\ zlen s.(ps_values) <= count) /\
  (forall nodes root rc d1 d2 rc' a d3, parse m text r.(lx_tokens) o.(co_max_nesting) o.(co_max_states) d1 = (rc, Some (nodes, root), d2) ->
    analyze m text o d2 (add_guards m text nodes) root = (rc', a, d3) ->
    zlen nodes <= 2 * count /\ zlen a.(an_nodes) = zlen nodes /\ (count + 1) * scratch_unit + zlen a.(an_payload) <= needed).
Proof.
  intros Hsize Hmax Hs El count. apply compile_scratch_ok in Hs as (n & al & d4 & r4 & [= <- <-] & El4 & _ & Hscr); [|done].
  destruct (lex_diagnostic _ _ _ _ _ _ _ _ _ _ _ El El4) as (_ & Ht & _). rewrite Ht in Hscr. fold count.
  pose proof Hscr as [Hsp Hcount Hneed [_ Hh _ _ _]]. split.
  - intros s i Hp. destruct (parsing_at m text size _ _ _ _ Hsize Hmax Hsp Hcount s i Hp) as [Hi [_ _ Hn Ho Hv _]]. lia.
  - intros nodes root rc d1 d2 rc' a d3 Hp Ha. destruct (parse_ready _ _ _ _ _ _ _ _ _ Hsize Hmax Hscr Hp) as (Hparsed & _ & Hn & _).
    destruct (analyze_room m text o d2 size Hmax Hh _ _ _ _ _ _ _ Hparsed ltac:(lia) Ha) as [Hl Hroom]. split_and!; [done|done|]. lia.
Qed.
End Whole.

(** * What the compiler tells its caller

    Compiling ends, and compiling without storage gives the size that the storage must have: with as much the image is
    written, with less it is not. *)

(** What compiling gives with storage, [c'], when it gives [c] without. *)
Definition stored (c c' : compiled) (capacity : Z) : Prop :=
  if is_ok c.(cm_code) then
    exists i, c.(cm_info) = Some i /\ c.(cm_image) = None /\ c'.(cm_info) = Some i /\
      if capacity <? i.(in_program_size) then c'.(cm_code) = TLV_ERR_BUFFER_TOO_SHORT /\ c'.(cm_image) = None
      else c'.(cm_code) = TLV_OK /\ exists p, c'.(cm_image) = Some p /\ p.(p_reserved) = i.(in_program_size) /\ p.(p_count) = i.(in_instructions)
  else c' = c.

Section Stored.
Context `{Platform} `{QueryLayout} `{QueryConfig}.

Lemma stored_failure code expected kind d capacity : code <> TLV_OK ->
  stored (uncompiled (query_error_unlocated d code kind (Some expected))) (uncompiled (query_error_unlocated d code kind (Some expected))) capacity.
Proof. intros Hc%is_ok_false. unfold stored. destruct d; simpl; now rewrite Hc. Qed.

Lemma emit_program_stored m text size o needed alignment struct_size root capacity capacity' rc a d : 0 <= size ->
  stored (emit_program m text size o needed alignment struct_size root false capacity rc a d)
    (emit_program m text size o needed alignment struct_size root true capacity' rc a d) capacity'.
Proof.
  intros Hsize. unfold emit_program. cbv zeta. destruct (_ || _); [now apply stored_failure|]. destruct (_ <? _); [now apply stored_failure|].
  destruct (Z.ltb_spec UINT32_MAX (PROGRAM_SIZE + zlen (an_nodes a) * NODE_SIZE + size + 1 + zlen (an_payload a))) as [|Htotal]; [now apply stored_failure|].
  destruct (variable_slots _ _ _ _ _) as [nodes slots]. destruct (is_ok rc) eqn:Erc; cbn [negb]; [|unfold stored; simpl; now rewrite Erc].
  unfold stored. simpl cm_code. rewrite is_ok_OK. cbn [cm_info cm_image]. eexists. split_and!; [reflexivity|reflexivity|..].
  - destruct (_ <? _); [destruct d|]; reflexivity.
  - unfold program_info at 1. cbn [in_program_size]. destruct (_ <? _); [destruct d; done|]. split; [done|]. eexists. split_and!; [reflexivity|..].
    + unfold program_info. cbn [p_reserved in_program_size]. unfold u32. apply Z.mod_small. unfold PROGRAM_SIZE, NODE_SIZE in *. lia.
    + unfold program_info. cbn [p_count in_instructions]. unfold u32. apply Z.mod_small. unfold PROGRAM_SIZE, NODE_SIZE in *. lia.
Qed.

Lemma compile_scratch_total m pending text size options written read outputs d : 0 <= size ->
  is_Some (tlv_query_compile_scratch m pending text size options written read outputs d).
Proof.
  intros Hsize. unfold tlv_query_compile_scratch. destruct (outputs_overlap _ _); [eauto|]. cbv zeta. destruct (_ || _); [destruct (query_error_unlocated _ _ _ _); eauto|].
  destruct (options_check _ _ _) as [[rc o] d0]. destruct (negb _); [eauto|].
  destruct (lex_total m text size o.(co_max_tokens) pending d0 false None Hsize) as [r ->]. destruct (negb _); [eauto|].
  destruct (_ || _); [destruct (query_error_unlocated _ _ _ _); eauto|]. destruct (_ || _); [destruct (query_error_unlocated _ _ _ _)|]; eauto.
Qed.

(** There is no expression without a failure. *)
Lemma parse_none m text tokens max_nesting max_states d rc d' : parse m text tokens max_nesting max_states d = (rc, None, d') -> rc <> TLV_OK.
Proof.
  unfold parse, query_limit, query_error. intros Hp ->. revert Hp.
  repeat match goal with
  | |- (match ?x with _ => _ end) = _ -> _ => destruct x
  | |- (_, _, _) = _ -> _ => discriminate
  end.
Qed.

(** A scratch area that is there and aligned, and no storage. *)
Definition no_storage : area := mk_area false false 0.

(** C22. Compiling ends whatever the text is.  Compiling without storage reports the same failure as compiling with storage;
    if it succeeds it writes no image but the information, and compiling with storage gives the same information: it says
    that the storage is too short when there is less of it than the information says, and writes an image of that very
    size and number of instructions when there is not. *)
Theorem compile_measures m pending text size options written written' read scratch storage info d : 0 <= size ->
  outputs_overlap written read = false -> outputs_overlap written' read = false -> storage.(ar_present) = true -> storage.(ar_aligned) = true ->
  exists c c', tlv_query_compile m pending text size options written read scratch no_storage info d = Some c /\
    tlv_query_compile m pending text size options written' read scratch storage info d = Some c' /\ stored c c' storage.(ar_size).
Proof.
  intros Hsize Ho Ho' Hp Ha. unfold tlv_query_compile. cbv zeta. rewrite Ho, Ho', Hp, Ha. cbn [no_storage ar_present ar_aligned ar_size negb andb].
  destruct info as [ss|]; [|do 2 eexists; split_and!; [reflexivity|reflexivity|now apply stored_failure]].
  rewrite !orb_false_r. destruct (_ || _); [do 2 eexists; split_and!; [reflexivity|reflexivity|now apply stored_failure]|].
  destruct (_ <? _); [do 2 eexists; split_and!; [reflexivity|reflexivity|now apply stored_failure]|].
  destruct (options_check _ _ _) as [[rc o] d0]. destruct (is_ok rc) eqn:Erc; cbn [negb]; [|do 2 eexists; split_and!; [reflexivity|reflexivity|unfold stored; simpl; now rewrite Erc]].
  destruct (compile_scratch_total m pending text size (Some o) [] [] (Some (0, 0)) d0 Hsize) as [[[rc1 extent] d1] ->].
  destruct (default (0, 0) extent) as [needed alignment]. destruct (is_ok rc1) eqn:Erc1; cbn [negb]; [|do 2 eexists; split_and!; [reflexivity|reflexivity|unfold stored; simpl; now rewrite Erc1]].
  destruct (negb (ar_aligned scratch)); cbn [orb]; [do 2 eexists; split_and!; [reflexivity|reflexivity|now apply stored_failure]|].
  destruct (_ <? _); [do 2 eexists; split_and!; [reflexivity|reflexivity|now apply stored_failure]|].
  destruct (lex_total m text size o.(co_max_tokens) pending d1 false None Hsize) as [r ->].
  destruct (is_ok (lx_code r)) eqn:Er; cbn [negb]; [|do 2 eexists; split_and!; [reflexivity|reflexivity|unfold stored; simpl; now rewrite Er]].
  do 2 eexists. split_and!; [reflexivity|reflexivity|]. unfold compile_tokens.
  destruct (parse _ _ _ _ _ _) as [[rc2 [[nodes root]|]] d2] eqn:Ep.
  - destruct (analyze _ _ _ _ _ _) as [[rc3 a] d3]. now apply emit_program_stored.
  - apply parse_none in Ep. unfold stored. simpl. apply is_ok_false in Ep. now rewrite Ep.
Qed.
End Stored.

(** ** An example *)

Module Example.
#[local] Instance layout : QueryLayout := Build_QueryLayout 104 176 240 64 200 8.
#[local] Instance config : QueryConfig := Build_QueryConfig true true.

Definition expression : string := "50[num(.) = $a or len() = $a]//51[position() < 3]/60".
Definition memory : mem := mem_of 0 (Diagnostic.text expression).
Definition size : Z := zlen (Diagnostic.text expression).
Definition options : tlv_query_compile_options_t :=
  mk_options 104 1 65536 8192 128 8192 (Some [mk_variable (Some "a"%string) TLV_QUERY_RESULT_INTEGER]) 1 None
    (Some (mk_environment None None (Some [mk_hook 1 0 5 1]) 1)) 512 4096 true.
Definition result : option compiled :=
  @tlv_query_compile LP64 layout config memory [] (Ptr 0 0) size (Some options) [] [] (mk_area true true 100000) (mk_area true true 10000) (Some 176) None.
Definition extent : option (tlv_result_t * option (Z * Z) * option tlv_query_diagnostic_t) :=
  @tlv_query_compile_scratch LP64 layout memory [] (Ptr 0 0) size (Some options) [] [] (Some (0, 0)) None.
Definition tokens : option lex_result_t := @lex LP64 memory (Ptr 0 0) size 8192 [] None false None.

Lemma compile_fits_witness : exists needed r, extent = Some (TLV_OK, Some (needed, 4), None) /\ tokens = Some r /\ zlen r.(lx_tokens) = 26 /\
  forall s i, @parsing memory (Ptr 0 0) r.(lx_tokens) 128 8192 s i -> zlen s.(ps_nodes) <= 52.
Proof.
  assert (Hx : match extent with Some (TLV_OK, Some (n, a), None) => a =? 4 | _ => false end = true) by (vm_compute; reflexivity).
  assert (Ht : match tokens with Some r => zlen r.(lx_tokens) =? 26 | None => false end = true) by (vm_compute; reflexivity).
  destruct extent as [[[[] [[n a]|]] [d|]]|] eqn:E; try discriminate Hx. apply Z.eqb_eq in Hx as ->.
  destruct tokens as [r|] eqn:Er; [|discriminate Ht]. apply Z.eqb_eq in Ht. exists n, r. split_and!; [done|done|done|].
  intros s i Hp. destruct (@compile_fits LP64 layout config memory [] (Ptr 0 0) size options None n 4 None None r) as [Hs _]; [vm_compute; discriminate|vm_compute; discriminate|exact E|exact Er|].
  specialize (Hs s i Hp). lia.
Defined.

(** A storage that is too short, and one that is not. *)
Lemma compile_measures_witness : Forall (fun capacity => exists c c',
  @tlv_query_compile LP64 layout config memory [] (Ptr 0 0) size (Some options) [] [] (mk_area true true 100000) no_storage (Some 176) None = Some c /\
  c.(cm_code) = TLV_OK /\ stored c c' capacity) [100; 10000].
Proof.
  assert (Hc : match @tlv_query_compile LP64 layout config memory [] (Ptr 0 0) size (Some options) [] [] (mk_area true true 100000) no_storage (Some 176) None with
    Some c => is_ok c.(cm_code) | None => false end = true) by (vm_compute; reflexivity).
  apply Forall_true. intros capacity.
  destruct (@compile_measures LP64 layout config memory [] (Ptr 0 0) size (Some options) [] [] [] (mk_area true true 100000) (mk_area true true capacity) (Some 176) None)
    as (c & c' & E & _ & Hs); [vm_compute; discriminate|reflexivity..|].
  exists c, c'. rewrite E in Hc. split_and!; [exact E|now apply is_ok_true|exact Hs].
Defined.
End Example.

(** * What a plan can rely on

    Whatever writes an image writes a valid program, an image that is loaded is what its own text compiles to, and the variables of a valid program
    are found by their slots. *)

(** ** Variables *)

Lemma find_app {A} (f : A -> bool) l l' : List.find f (l ++ l') = match List.find f l with Some x => Some x | None => List.find f l' end.
Proof. induction l as [|x l IH]; simpl; [done|]. now destruct (f x). Qed.

Section Variables.
Context (p : tlv_query_program_t).

(** The name of a variable. *)
Definition variable_name (n : query_node_t) : list Z := query_payload p n.(n_data_offset) n.(n_data_size).

(** [first] is what all variables of a slot are like. *)
Definition slot_of (nodes : list query_node_t) (slot : Z) (first : query_node_t) : Prop :=
  List.find (same_slot slot) nodes = Some first /\ variable_type first.(n_type) /\
  forall y, y ∈ nodes -> same_slot slot y = true -> y.(n_type) = first.(n_type) /\ variable_name y = variable_name first.

Definition slots_found (nodes : list query_node_t) (variables : Z) : Prop :=
  0 <= variables /\ (forall y, y ∈ nodes -> y.(n_op) = Q_VARIABLE -> y.(n_variable_slot) < variables) /\
  forall slot, 0 <= slot < variables -> exists first, slot_of nodes slot first.

Lemma slot_of_grows nodes slot first n : slot_of nodes slot first ->
  (same_slot slot n = true -> n.(n_type) = first.(n_type) /\ variable_name n = variable_name first) -> slot_of (nodes ++ [n]) slot first.
Proof.
  intros (Hf & Ht & Hall) Hn. split_and!; [now rewrite find_app, Hf|done|]. intros y Hy. apply elem_of_app in Hy as [Hy|Hy%list_elem_of_singleton]; [auto|now subst].
Qed.

Lemma same_slot_true slot n : same_slot slot n = true -> n.(n_op) = Q_VARIABLE /\ n.(n_variable_slot) = slot.
Proof. unfold same_slot. rewrite andb_true_iff, !Z.eqb_eq. done. Qed.

Lemma variable_valid_slots earlier n rest variables variables' : p.(p_nodes) = earlier ++ n :: rest -> variable_valid p n (zlen earlier) variables = Some variables' ->
  slots_found earlier variables -> slots_found (earlier ++ [n]) variables'.
Proof.
  intros Hp Hv (H0 & Hlt & Hall). unfold variable_valid in Hv. destruct (Z.eqb_spec n.(n_op) Q_VARIABLE) as [Hop|Hop].
  - destruct (_ || _ || _) eqn:Ebad; [discriminate|]. rewrite !orb_false_iff in Ebad. destruct Ebad as [[Htype Hslot] _].
    assert (variable_type n.(n_type)) as Hty by (unfold variable_type; zlia). apply Z.ltb_ge in Hslot. destruct (Z.eqb_spec n.(n_variable_slot) variables) as [Es|Es].
    + injection Hv as <-. split_and!; [lia| |].
      * intros y Hy Hyop. apply elem_of_app in Hy as [Hy|Hy%list_elem_of_singleton]; [pose proof (Hlt y Hy Hyop); lia|subst; lia].
      * intros slot Hs. destruct (Z.eq_dec slot variables) as [->|Hne].
        -- exists n. split_and!; [|done|].
           ++ rewrite find_app. destruct (List.find _ earlier) as [y|] eqn:Ef; [|simpl; unfold same_slot; now rewrite Hop, Es, Z.eqb_refl, Z.eqb_refl].
              apply find_Some_in in Ef as [Hy [Hyop Hys]%same_slot_true]. pose proof (Hlt y Hy Hyop). lia.
           ++ intros y Hy [Hyop Hys]%same_slot_true. apply elem_of_app in Hy as [Hy|Hy%list_elem_of_singleton]; [pose proof (Hlt y Hy Hyop); lia|now subst].
        -- destruct (Hall slot ltac:(lia)) as [first Hf]. exists first. apply slot_of_grows; [done|]. intros [_ Hys]%same_slot_true. lia.
    + destruct (List.find _ _) as [first|] eqn:Ef; [|discriminate]. destruct (_ || _ || _) eqn:Ediff; [discriminate|]. injection Hv as <-.
      rewrite !orb_false_iff, !negb_false_iff, !Z.eqb_eq in Ediff. destruct Ediff as [[Et Ed] El]. apply lex_eq in El.
      rewrite Nat2Z.id, Hp, take_app_length in Ef. split_and!; [done| |].
      * intros y Hy Hyop. apply elem_of_app in Hy as [Hy|Hy%list_elem_of_singleton]; [auto|subst; lia].
      * intros slot Hs. destruct (Hall slot Hs) as [f Hf]. exists f. apply slot_of_grows; [done|]. intros [_ <-]%same_slot_true.
        destruct Hf as [Hf _]. assert (first = f) as -> by congruence. split; [done|]. unfold variable_name. now rewrite Ed.
  - injection Hv as <-. split_and!; [done| |].
    + intros y Hy Hyop. apply elem_of_app in Hy as [Hy|Hy%list_elem_of_singleton]; [auto|now subst].
    + intros slot Hs. destruct (Hall slot Hs) as [f Hf]. exists f. apply slot_of_grows; [done|]. intros [? _]%same_slot_true. done.
Qed.

Lemma nodes_valid_found rest more : forall earlier variables count, p.(p_nodes) = earlier ++ rest ++ more -> nodes_valid p rest (zlen earlier) variables = Some count ->
  slots_found earlier variables -> slots_found (earlier ++ rest) count.
Proof.
  induction rest as [|n rest IH]; intros earlier variables count Hp; cbn [nodes_valid].
  - intros [= <-]. now rewrite app_nil_r.
  - destruct (negb _); [discriminate|]. destruct (_ && _); [discriminate|]. destruct (_ || _ || _); [discriminate|].
    destruct (variable_valid p n (zlen earlier) variables) as [variables'|] eqn:Ev; [|discriminate]. intros Hn Hs.
    apply (variable_valid_slots _ _ (rest ++ more)) in Ev; [|exact Hp|done]. change (n :: rest) with ([n] ++ rest). rewrite app_assoc. apply (IH _ variables'); [|rewrite length_app; simpl|done].
    + rewrite Hp, <- !app_assoc. done.
    + now replace (Z.of_nat (length earlier + 1)) with (zlen earlier + 1) by lia.
Qed.
End Variables.

(** The sizes of an image are words. *)
Definition text_size_ok (q : option tlv_query_program_t) : Prop := match q with Some h => 0 <= h.(p_text_size) | None => True end.

Section Images.
Context `{Platform} `{QueryLayout} `{QueryConfig}.

Lemma valid_slots p : query_program_valid true p = true -> slots_found p (take (Z.to_nat p.(p_count)) p.(p_nodes)) p.(p_variable_count).
Proof.
  unfold query_program_valid. simpl negb. cbv iota. destruct (_ || _ || _ || _ || _); [discriminate|]. destruct (_ <? _); [discriminate|]. destruct (_ || _ || _ || _); [discriminate|].
  destruct (nodes_valid _ _ _ _) as [variables|] eqn:Ev; [|discriminate]. rewrite andb_true_iff, Z.eqb_eq. intros [<- _].
  apply (nodes_valid_found p _ (drop (Z.to_nat p.(p_count)) p.(p_nodes)) []) in Ev; [done|simpl; now rewrite take_drop|].
  split_and!; [done|intros y Hy; now apply not_elem_of_nil in Hy|lia].
Qed.

(** C23. Every slot of a valid program has a variable: asking for one that is below the count succeeds, with the name and
    the type of the first instruction that refers to it; the type is a number, octets or a string, and all other instructions that refer to
    this slot have the same name and type, so that binding the slot binds them all.  No instruction refers to a
    slot at or above the count, and asking for one there is an invalid argument. *)
Theorem program_variable_found p : query_program_valid true p = true ->
  (forall n, n ∈ take (Z.to_nat p.(p_count)) p.(p_nodes) -> n.(n_op) = Q_VARIABLE -> n.(n_variable_slot) < tlv_query_program_variable_count true (Some p)) /\
  (forall index, 0 <= index < tlv_query_program_variable_count true (Some p) ->
    exists v, tlv_query_program_variable true false (Some p) index true = (TLV_OK, Some v) /\
      (v.(vi_type) = TLV_QUERY_RESULT_INTEGER \/ v.(vi_type) = TLV_QUERY_RESULT_BYTES \/ v.(vi_type) = TLV_QUERY_RESULT_STRING) /\
      forall n, n ∈ take (Z.to_nat p.(p_count)) p.(p_nodes) -> n.(n_op) = Q_VARIABLE -> n.(n_variable_slot) = index ->
        query_payload p n.(n_data_offset) n.(n_data_size) = v.(vi_name) /\ query_public_type n.(n_type) = v.(vi_type)) /\
  (forall index, tlv_query_program_variable_count true (Some p) <= index ->
    tlv_query_program_variable true false (Some p) index true = (TLV_ERR_INVALID_ARG, None)).
Proof.
  intros Hp. pose proof (valid_slots p Hp) as (H0' & Hlt & Hall). unfold tlv_query_program_variable_count, tlv_query_program_variable. rewrite Hp. cbn [negb orb].
  split_and!; [done| |intros index Hi; now rewrite (proj2 (Z.leb_le _ _) Hi)].
  intros index Hi. destruct (Z.leb_spec p.(p_variable_count) index); [lia|]. destruct (Hall index Hi) as (first & Hf & Ht & Hsame). rewrite Hf.
  eexists. split_and!; [reflexivity| |].
  - cbn [vi_type]. destruct Ht as [-> |[-> | ->]]; auto.
  - intros n Hn Hop Hs. destruct (Hsame n Hn) as [Ht' Hname]; [unfold same_slot; now rewrite Hop, Hs, !Z.eqb_refl|]. cbn [vi_name vi_type]. split; [exact Hname|now rewrite Ht'].
Qed.

Ltac no_image := intros [= <-]; simpl; discriminate.

Lemma prepare_valid m pending text size options workspace overlap prepared info d c p : 0 <= size -> sizes_ok options ->
  tlv_query_compile_prepare m pending text size options workspace overlap prepared info d = Some c -> c.(cm_image) = Some p -> query_program_valid true p = true.
Proof.
  intros Hsize Ho. unfold tlv_query_compile_prepare. destruct info as [ss|]; [|no_image]. destruct (_ || _ || _); [no_image|]. destruct (_ || _); [no_image|].
  destruct (prepare_layout _ _ _ _ _ _) as [[[rc [[offset needed] alignment]] d1]|]; [|discriminate]. destruct (negb _); [no_image|]. destruct (negb _); [no_image|].
  destruct (_ <? _); [no_image|]. destruct (tlv_query_compile _ _ _ _ _ _ _ _ _ _ _) as [c1|] eqn:E; [|discriminate]. destruct (negb _); [no_image|].
  intros [= <-] Hi. simpl in Hi. eapply (compiled_valid m pending text size); eassumption.
Qed.

(** What is loaded is what compiling its text gives. *)
Definition own_image (m : mem) (pending : list Z) (image : ptr) (options : option tlv_query_compile_options_t) (p : tlv_query_program_t) : Prop :=
  exists scratch storage info d c, tlv_query_compile m pending (image_text image p) p.(p_text_size) options [] [] scratch storage info d = Some c /\
    c.(cm_code) = TLV_OK /\ c.(cm_image) = Some p.

Lemma load_own m pending image q aligned size options scratch program overlap info d c p :
  tlv_query_program_load m pending image q aligned size options scratch program overlap info d = Some c -> c.(cm_image) = Some p ->
  q = Some p /\ own_image m pending image options p.
Proof.
  unfold tlv_query_program_load. destruct (_ || _); [no_image|]. destruct (_ || _); [no_image|].
  destruct (tlv_query_program_load_scratch _ _ _ _ _ _ _ _ _ _) as [[[rc [needed alignment]] d1]|]; [|discriminate]. cbv zeta. destruct (negb _); [no_image|].
  destruct (_ || _); [no_image|]. destruct (_ <? _); [no_image|]. destruct (tlv_query_compile _ _ _ _ _ _ _ _ _ _ _) as [c1|] eqn:E; [|discriminate].
  destruct (is_ok c1.(cm_code)) eqn:Ec; cbn [negb]; [|no_image]. destruct (_ || _) eqn:Esame; [no_image|]. intros [= <-] Hq. simpl in Hq. subst q. split; [done|].
  apply orb_false_iff in Esame as [_ Esame]. apply negb_false_iff, bool_decide_eq_true in Esame. simpl in E. apply is_ok_true in Ec. do 5 eexists. split_and!; eassumption.
Qed.

Lemma own_valid m pending image options p : sizes_ok options -> 0 <= p.(p_text_size) -> own_image m pending image options p -> query_program_valid true p = true.
Proof. intros Ho Hs (scratch & storage & info & d & c & E & _ & Hi). eapply (compiled_valid m pending); eassumption. Qed.

Lemma commit_own m pending image q aligned size options scratch storage overlap info d c p :
  tlv_query_compile_commit m pending image q aligned size options scratch storage overlap info d = Some c -> c.(cm_image) = Some p ->
  q = Some p /\ own_image m pending image options p.
Proof.
  unfold tlv_query_compile_commit. destruct (_ || _); [no_image|]. destruct (_ || _); [no_image|]. destruct (_ <? _); [no_image|].
  destruct (tlv_query_program_load _ _ _ _ _ _ _ _ _ _ _ _) as [c1|] eqn:E; [|discriminate]. destruct (negb _); [no_image|]. intros [= <-] Hi. simpl in Hi.
  eapply load_own; eassumption.
Qed.

(** C20. No operation that gives an image gives one that is not a valid program: not the compiler, not the preparation in
    one workspace, not loading, whatever octets are loaded, and not the commitment of a prepared image.  What is loaded or committed
    is left as it is, and it is the very image that compiling the text in it gives. *)
Theorem images_valid m pending options c p : sizes_ok options -> c.(cm_image) = Some p ->
  (forall text size written read scratch storage info d, 0 <= size ->
    tlv_query_compile m pending text size options written read scratch storage info d = Some c -> query_program_valid true p = true) /\
  (forall text size workspace overlap prepared info d, 0 <= size ->
    tlv_query_compile_prepare m pending text size options workspace overlap prepared info d = Some c -> query_program_valid true p = true) /\
  (forall image q aligned size scratch program overlap info d, text_size_ok q ->
    tlv_query_program_load m pending image q aligned size options scratch program overlap info d = Some c ->
    q = Some p /\ own_image m pending image options p /\ query_program_valid true p = true) /\
  (forall image q aligned size scratch storage overlap info d, text_size_ok q ->
    tlv_query_compile_commit m pending image q aligned size options scratch storage overlap info d = Some c ->
    q = Some p /\ own_image m pending image options p /\ query_program_valid true p = true).
Proof.
  intros Ho Hi. split_and!.
  - intros. eapply (compiled_valid m pending); eassumption.
  - intros. eapply prepare_valid; eassumption.
  - intros image q aligned size scratch program overlap info d Hq E. destruct (load_own _ _ _ _ _ _ _ _ _ _ _ _ _ _ E Hi) as [-> Hown].
    split_and!; [done|done|]. now apply (own_valid m pending image options).
  - intros image q aligned size scratch storage overlap info d Hq E. destruct (commit_own _ _ _ _ _ _ _ _ _ _ _ _ _ _ E Hi) as [-> Hown].
    split_and!; [done|done|]. now apply (own_valid m pending image options).
Qed.
End Images.

(** ** The example, loaded *)

Module Loaded.
Import Example.

Definition program : tlv_query_program_t :=
  match result with
  | Some c => default (mk_program 0 0 0 0 0 0 0 0 0 0 0 0 0 [] [] []) c.(cm_image)
  | None => mk_program 0 0 0 0 0 0 0 0 0 0 0 0 0 [] [] []
  end.
(** The octets in front of the text do not matter here. *)
Definition image_memory : mem := mem_of 0 (repeat 0 (Z.to_nat program.(p_text_offset)) ++ Diagnostic.text expression).
Abbreviation loaded :=
  (@tlv_query_program_load LP64 layout config image_memory [] (Ptr 0 0) (Some program) true program.(p_reserved) (Some options) (mk_area true true 100000) true false (Some 176) None)
  (only parsing).

Lemma images_valid_witness : exists c p, loaded = Some c /\ c.(cm_code) = TLV_OK /\ c.(cm_image) = Some p /\ p.(p_count) = 18 /\ @query_program_valid LP64 true p = true.
Proof.
  assert (Hi : match loaded with Some c => match c.(cm_code), c.(cm_image) with TLV_OK, Some p => p.(p_count) =? 18 | _, _ => false end | None => false end = true)
    by (vm_compute; reflexivity).
  destruct loaded as [c|] eqn:E; [|discriminate Hi]. destruct (cm_code c) eqn:Ec; try discriminate Hi. destruct (cm_image c) as [p|] eqn:Ei; [|discriminate Hi].
  exists c, p. split_and!; [done|done|done|now apply Z.eqb_eq|].
  destruct (@images_valid LP64 layout config image_memory [] (Some options) c p) as (_ & _ & Hl & _); [vm_compute; discriminate|exact Ei|].
  apply (Hl (Ptr 0 0) (Some program) true program.(p_reserved) (mk_area true true 100000) true false (Some 176) None); [vm_compute; discriminate|exact E].
Defined.

Lemma program_variable_found_witness : exists v, @tlv_query_program_variable LP64 true false (Some program) 0 true = (TLV_OK, Some v) /\
  forall n, n ∈ take (Z.to_nat program.(p_count)) program.(p_nodes) -> n.(n_op) = Q_VARIABLE -> n.(n_variable_slot) = 0 ->
    query_payload program n.(n_data_offset) n.(n_data_size) = v.(vi_name).
Proof.
  destruct (@program_variable_found LP64 program) as (_ & Hf & _); [vm_compute; reflexivity|].
  destruct (Hf 0) as (v & Hv & _ & Hn); [vm_compute; split; [discriminate|reflexivity]|]. exists v. split; [exact Hv|]. intros n H1 H2 H3. now apply Hn.
Defined.
End Loaded.
