(* ===== verification/Values.v ===== *)
(** * Value codecs of fixed shape (codec/values.h, src/codec/values.c)

    Unsigned integers of one, two and four octets in either order, minimal signed integers, and
    borrowed bytes.  A C object of integer type is its value; [sizeof(tlv_value_t)] is a parameter. *)

From S2P Require Import Prelude Mem Core Endian Diagnostic Reader Codec.

(** The C object layout that matters here. *)
Class ValueLayout := { sizeof_value : Z; sizeof_value_pos : 0 < sizeof_value }.

Definition LP64_layout : ValueLayout := {| sizeof_value := 16; sizeof_value_pos := eq_refl |}.

(** [memcpy(value, &result, sizeof(result))] *)
Definition store {V} (value : option V) (result : V) : option V :=
  match value with Some _ => Some result | None => None end.

(** ** Unsigned integers *)

Definition decode_uint8 : codec_decode_fn Z := fun m data size value capacity diagnostic =>
  let diagnostic := tlv_codec_diagnostic_init diagnostic TLV_CODEC_OP_DECODE in
  if negb (size =? 1) then decoded m value diagnostic TLV_ERR_INVALID_VALUE
  else if capacity <? 1 then decoded m value diagnostic TLV_ERR_BUFFER_TOO_SHORT
  else decoded m (store value (ld m data 0)) diagnostic TLV_OK.

Definition encode_uint8 : codec_encode_fn Z := fun m value size data capacity written diagnostic =>
  let diagnostic := tlv_codec_diagnostic_init diagnostic (codec_operation data) in
  if negb (size =? 1) then encoded m written diagnostic TLV_ERR_INVALID_VALUE
  else if negb (is_null data) && (capacity <? 1) then encoded m written diagnostic TLV_ERR_BUFFER_TOO_SHORT
  else
    let m := if negb (is_null data) then st m data 0 (cell 0 value) else m in
    encoded m (store written 1) diagnostic TLV_OK.

Definition tlv_codec_uint8 : tlv_codec_t Z := mk_codec (Some decode_uint8) (Some encode_uint8).

(** The context is the byte order. *)
Definition decode_uint16 (order : tlv_byte_order_t) : codec_decode_fn Z := fun m data size value capacity diagnostic =>
  let diagnostic := tlv_codec_diagnostic_init diagnostic TLV_CODEC_OP_DECODE in
  if negb (size =? 2) then decoded m value diagnostic TLV_ERR_INVALID_VALUE
  else if capacity <? 2 then decoded m value diagnostic TLV_ERR_BUFFER_TOO_SHORT
  else
    let result := if order_is order TLV_BYTE_ORDER_BIG_ENDIAN then tlv_read_u16_be m data else tlv_read_u16_le m data in
    decoded m (store value result) diagnostic TLV_OK.

Definition encode_uint16 (order : tlv_byte_order_t) : codec_encode_fn Z := fun m value size data capacity written diagnostic =>
  let diagnostic := tlv_codec_diagnostic_init diagnostic (codec_operation data) in
  if negb (size =? 2) then encoded m written diagnostic TLV_ERR_INVALID_VALUE
  else if negb (is_null data) && (capacity <? 2) then encoded m written diagnostic TLV_ERR_BUFFER_TOO_SHORT
  else
    let m :=
      if negb (is_null data) then
        if order_is order TLV_BYTE_ORDER_BIG_ENDIAN then tlv_write_u16_be m data (cell 0 value)
        else tlv_write_u16_le m data (cell 0 value)
      else m in
    encoded m (store written 2) diagnostic TLV_OK.

Definition tlv_codec_uint16_be : tlv_codec_t Z :=
  mk_codec (Some (decode_uint16 TLV_BYTE_ORDER_BIG_ENDIAN)) (Some (encode_uint16 TLV_BYTE_ORDER_BIG_ENDIAN)).
Definition tlv_codec_uint16_le : tlv_codec_t Z :=
  mk_codec (Some (decode_uint16 TLV_BYTE_ORDER_LITTLE_ENDIAN)) (Some (encode_uint16 TLV_BYTE_ORDER_LITTLE_ENDIAN)).

Definition decode_uint32 (order : tlv_byte_order_t) : codec_decode_fn Z := fun m data size value capacity diagnostic =>
  let diagnostic := tlv_codec_diagnostic_init diagnostic TLV_CODEC_OP_DECODE in
  if negb (size =? 4) then decoded m value diagnostic TLV_ERR_INVALID_VALUE
  else if capacity <? 4 then decoded m value diagnostic TLV_ERR_BUFFER_TOO_SHORT
  else
    let result := if order_is order TLV_BYTE_ORDER_BIG_ENDIAN then tlv_read_u32_be m data else tlv_read_u32_le m data in
    decoded m (store value result) diagnostic TLV_OK.

Definition encode_uint32 (order : tlv_byte_order_t) : codec_encode_fn Z := fun m value size data capacity written diagnostic =>
  let diagnostic := tlv_codec_diagnostic_init diagnostic (codec_operation data) in
  if negb (size =? 4) then encoded m written diagnostic TLV_ERR_INVALID_VALUE
  else if negb (is_null data) && (capacity <? 4) then encoded m written diagnostic TLV_ERR_BUFFER_TOO_SHORT
  else
    let m :=
      if negb (is_null data) then
        if order_is order TLV_BYTE_ORDER_BIG_ENDIAN then tlv_write_u32_be m data (cell 0 value)
        else tlv_write_u32_le m data (cell 0 value)
      else m in
    encoded m (store written 4) diagnostic TLV_OK.

Definition tlv_codec_uint32_be : tlv_codec_t Z :=
  mk_codec (Some (decode_uint32 TLV_BYTE_ORDER_BIG_ENDIAN)) (Some (encode_uint32 TLV_BYTE_ORDER_BIG_ENDIAN)).
Definition tlv_codec_uint32_le : tlv_codec_t Z :=
  mk_codec (Some (decode_uint32 TLV_BYTE_ORDER_LITTLE_ENDIAN)) (Some (encode_uint32 TLV_BYTE_ORDER_LITTLE_ENDIAN)).

(** ** Borrowed bytes *)

Definition decode_bytes `{ValueLayout} : codec_decode_fn tlv_value_t := fun m data size value capacity diagnostic =>
  let diagnostic := tlv_codec_diagnostic_init diagnostic TLV_CODEC_OP_DECODE in
  if capacity <? sizeof_value then decoded m value diagnostic TLV_ERR_BUFFER_TOO_SHORT
  else decoded m (store value (mk_value data size)) diagnostic TLV_OK.

Definition encode_bytes `{Platform} `{ValueLayout} : codec_encode_fn tlv_value_t :=
  fun m value size data capacity written diagnostic =>
  let diagnostic := tlv_codec_diagnostic_init diagnostic (codec_operation data) in
  if negb (size =? sizeof_value) then encoded m written diagnostic TLV_ERR_INVALID_VALUE
  else
    let input := cell empty_value value in
    if is_null input.(v_data) && negb (input.(v_size) =? 0) then encoded m written diagnostic TLV_ERR_NULL_ARG
    else
      let '(rc, length) := tlv_size_to_native input.(v_size) (Some 0) in
      if negb (is_ok rc) then encoded m written diagnostic TLV_ERR_INVALID_VALUE
      else
        let length := cell 0 length in
        if negb (is_null data) && (capacity <? length) then encoded m written diagnostic TLV_ERR_BUFFER_TOO_SHORT
        else
          let m := if negb (is_null data) && negb (length =? 0) then memcpy m data input.(v_data) length else m in
          encoded m (store written length) diagnostic TLV_OK.

Definition tlv_codec_bytes `{Platform} `{ValueLayout} : tlv_codec_t tlv_value_t :=
  mk_codec (Some decode_bytes) (Some encode_bytes).

(** ** Minimal signed integers *)

(** The octets [i .. i + n - 1] shifted into [bits]. *)
Fixpoint integer_bits (m : mem) (data : ptr) (n : nat) (i bits : Z) : Z :=
  match n with
  | O => bits
  | S n => integer_bits m data n (i + 1) (Z.lor (u64 (Z.shiftl bits 8)) (ld m data i))
  end.

(** The result is the [int64_t], or the C function returned 0. *)
Definition integer_decode_value (m : mem) (data : ptr) (size : Z) : option Z :=
  if (size <? 1) || (8 <? size) then None
  else
    let bits := if negb (Z.land (ld m data 0) 128 =? 0) then UINT64_MAX else 0 in
    let bits := integer_bits m data (Z.to_nat size) 0 bits in
    Some (if bits <=? INT64_MAX then bits else -1 - Z.lxor bits UINT64_MAX).

(** [full[start]] repeats the sign of the next octet. *)
Definition redundant (b0 b1 : Z) : bool :=
  ((b0 =? 0) && (Z.land b1 128 =? 0)) || ((b0 =? 255) && negb (Z.land b1 128 =? 0)).

(** [n] is [sizeof(int64_t) - 1 - start]. *)
Fixpoint minimal_start (n : nat) (full : list Z) (start : Z) : Z :=
  match n with
  | O => start
  | S n => if redundant (byte_at full start) (byte_at full (start + 1)) then minimal_start n full (start + 1)
           else start
  end.

Definition integer_minimal_size (full : list Z) : Z := 8 - minimal_start 7 full 0.

Definition integer_encode_value (value : Z) : list Z :=
  let bits := u64 value in
  map (fun i => u8 (Z.shiftr bits (8 * (8 - 1 - Z.of_nat i)))) (seq 0 8).

Definition decode_integer : codec_decode_fn Z := fun m data size value capacity diagnostic =>
  let diagnostic := tlv_codec_diagnostic_init diagnostic TLV_CODEC_OP_DECODE in
  if (size =? 0) || (8 <? size) then decoded m value diagnostic TLV_ERR_INVALID_VALUE
  else if (1 <? size) && redundant (ld m data 0) (ld m data 1) then decoded m value diagnostic TLV_ERR_INVALID_VALUE
  else
    match integer_decode_value m data size with
    | None => decoded m value diagnostic TLV_ERR_INVALID_VALUE
    | Some result =>
        if capacity <? 8 then decoded m value diagnostic TLV_ERR_BUFFER_TOO_SHORT
        else decoded m (store value result) diagnostic TLV_OK
    end.

Definition encode_integer : codec_encode_fn Z := fun m value size data capacity written diagnostic =>
  let diagnostic := tlv_codec_diagnostic_init diagnostic (codec_operation data) in
  if negb (size =? 8) then encoded m written diagnostic TLV_ERR_INVALID_VALUE
  else
    let full := integer_encode_value (cell 0 value) in
    let minimal_size := integer_minimal_size full in
    let offset := 8 - minimal_size in
    if negb (is_null data) && (capacity <? minimal_size) then encoded m written diagnostic TLV_ERR_BUFFER_TOO_SHORT
    else
      let m := if negb (is_null data) then put_at m data (take (Z.to_nat minimal_size) (drop (Z.to_nat offset) full)) else m in
      encoded m (store written minimal_size) diagnostic TLV_OK.

Definition tlv_codec_int64_minimal_be : tlv_codec_t Z := mk_codec (Some decode_integer) (Some encode_integer).
