(* ===== verification/ValuesLaws.v ===== *)
(** * Laws of the fixed-shape value codecs

    Each codec of [Values] is lawful ([ValueCodec]); minimal integers are canonical: one octet string
    per value. *)

From S2P Require Import Prelude Mem Core Endian Diagnostic Reader Codec Values.

(** ** Two's complement *)

(** The value of a big-endian two's-complement string. *)
Definition twos (l : list Z) : Z :=
  be_value l - (if 128 <=? hd 0 l then 256 ^ zlen l else 0).

Definition int64 (v : Z) : Prop := -9223372036854775808 <= v <= INT64_MAX.

(** Without octets that only repeat the sign. *)
Fixpoint strip (l : list Z) : list Z :=
  match l with
  | b0 :: (b1 :: _) as t => if redundant b0 b1 then strip t else l
  | _ => l
  end.

Lemma be_value_cons b l : be_value (b :: l) = b * 256 ^ zlen l + be_value l.
Proof. unfold be_value at 1. cbn [fold_left]. now rewrite be_fold, Z.mul_0_l, Z.add_0_l. Qed.

Definition sign_bit_at (b : Z) : bool := Bool.eqb (Z.land b 128 =? 0) (b <? 128).
Lemma sign_bit_check : forallb sign_bit_at all_octets = true.
Proof. vm_compute. reflexivity. Qed.

Lemma sign_bit b : 0 <= b < 256 -> (Z.land b 128 =? 0) = (b <? 128).
Proof. intros Hb. apply eqb_true_iff. exact (octets_decide _ sign_bit_check b Hb). Qed.

Lemma redundant_octets b0 b1 : 0 <= b1 < 256 ->
  redundant b0 b1 = ((b0 =? 0) && (b1 <? 128)) || ((b0 =? 255) && (128 <=? b1)).
Proof. intros H. unfold redundant. rewrite sign_bit by done. f_equal. f_equal. zlia. Qed.

Lemma twos_redundant b0 b1 t : bytes (b0 :: b1 :: t) -> redundant b0 b1 = true -> twos (b0 :: b1 :: t) = twos (b1 :: t).
Proof.
  intros Hb Hr. inversion_clear Hb as [|? ? H0 Hb']. inversion_clear Hb' as [|? ? H1 Ht]. unfold is_byte in *.
  rewrite redundant_octets in Hr by done. unfold twos. cbn [hd]. rewrite be_value_cons. simpl length. rewrite !pow256_S.
  pose proof (pow256_pos (length t)).
  apply orb_true_iff in Hr as [Hr|Hr]; apply andb_true_iff in Hr as [Hr1 Hr2].
  - apply Z.eqb_eq in Hr1 as ->. apply Z.ltb_lt in Hr2. rewrite (proj2 (Z.leb_gt 128 0)), (proj2 (Z.leb_gt 128 b1)) by lia. lia.
  - apply Z.eqb_eq in Hr1 as ->. rewrite Hr2. cbn [Z.leb]. change (128 <=? 255) with true. lia.
Qed.

Lemma strip_bytes l : bytes l -> bytes (strip l).
Proof.
  induction l as [|b0 l IH]; intros Hb; [done|]. destruct l as [|b1 t]; [done|]. cbn [strip].
  destruct (redundant b0 b1); [|done]. apply IH. now inversion_clear Hb.
Qed.

Lemma twos_strip l : bytes l -> twos (strip l) = twos l.
Proof.
  induction l as [|b0 l IH]; intros Hb; [done|]. destruct l as [|b1 t]; [done|]. cbn [strip].
  destruct (redundant b0 b1) eqn:Er; [|done]. rewrite twos_redundant by done. apply IH. now inversion_clear Hb.
Qed.

Lemma strip_idem l : strip (strip l) = strip l.
Proof.
  induction l as [|b0 l IH]; [done|]. destruct l as [|b1 t]; [done|]. cbn [strip].
  destruct (redundant b0 b1) eqn:Er; [exact IH|]. cbn [strip]. now rewrite Er.
Qed.

Lemma length_strip l : l <> [] -> (1 <= length (strip l) <= length l)%nat.
Proof.
  induction l as [|b0 l IH]; [done|]. intros _. destruct l as [|b1 t]; [cbn; lia|].
  specialize (IH ltac:(done)). change (strip (b0 :: b1 :: t)) with (if redundant b0 b1 then strip (b1 :: t) else b0 :: b1 :: t).
  change (length (b0 :: b1 :: t)) with (S (length (b1 :: t))). destruct (redundant b0 b1); cbn [length] in *; lia.
Qed.

Lemma twos_range l : bytes l -> l <> [] -> - (128 * 256 ^ (zlen l - 1)) <= twos l < 128 * 256 ^ (zlen l - 1).
Proof.
  destruct l as [|b t]; [done|]. intros Hb _. inversion_clear Hb as [|? ? H0 Ht]. unfold is_byte in *.
  pose proof (be_value_range t Ht) as Hr. unfold twos. cbn [hd]. rewrite be_value_cons.
  change (length (b :: t)) with (S (length t)). rewrite pow256_S. replace (zlen t + 0) with (zlen t) by lia.
  replace (Z.of_nat (S (length t)) - 1) with (zlen t) by lia. set (q := 256 ^ zlen t) in *.
  destruct (Z.leb_spec 128 b); nia.
Qed.

Lemma be_bytes_cons k v : be_bytes (S k) v = u8 (v / 256 ^ Z.of_nat k) :: be_bytes k v.
Proof.
  apply (nth_ext _ _ 0 0); [cbn [length]; now rewrite !length_be_bytes|].
  rewrite length_be_bytes. intros [|i] Hi.
  - rewrite nth_be_bytes by lia. cbn [nth]. do 3 f_equal. lia.
  - rewrite nth_be_bytes by lia. cbn [nth]. rewrite nth_be_bytes by lia. do 3 f_equal. lia.
Qed.

Lemma be_bytes_mod k v : be_bytes k (v mod 256 ^ Z.of_nat k) = be_bytes k v.
Proof.
  apply be_bytes_inj; try apply be_bytes_bytes; [now rewrite !length_be_bytes|].
  rewrite !be_value_be_bytes, Z.mod_mod; [done|]. pose proof (pow256_pos k). lia.
Qed.

(** The [n]-octet string of a value in range has that value. *)
Lemma twos_be_bytes n v : (1 <= n)%nat -> - (128 * 256 ^ (Z.of_nat n - 1)) <= v < 128 * 256 ^ (Z.of_nat n - 1) ->
  twos (be_bytes n v) = v.
Proof.
  intros Hn Hv. destruct n as [|k]; [lia|]. replace (Z.of_nat (S k) - 1) with (Z.of_nat k) in Hv by lia.
  unfold twos. rewrite be_value_be_bytes, length_be_bytes. pose proof (pow256_pos k) as Hp. rewrite pow256_S in *.
  set (q := 256 ^ Z.of_nat k) in *. rewrite be_bytes_cons. cbn [hd]. fold q.
  destruct (Z.lt_ge_cases v 0) as [Hneg|Hpos].
  - replace (v mod (256 * q)) with (v + 256 * q) by (rewrite <- (Z.mod_small (v + 256 * q) (256 * q)) by lia;
      rewrite <- (Z_mod_plus_full v 1 (256 * q)); f_equal; lia).
    assert (128 <= u8 (v / q)) as Hh.
    { unfold u8. pose proof (Z.div_mod v q ltac:(lia)). pose proof (Z.mod_pos_bound v q ltac:(lia)).
      assert (-128 <= v / q < 0) by (split; [apply Z.div_le_lower_bound|apply Z.div_lt_upper_bound]; lia).
      replace ((v / q) mod 256) with (v / q + 256); [lia|].
      rewrite <- (Z.mod_small (v / q + 256) 256) by lia. rewrite <- (Z_mod_plus_full (v / q) 1 256). f_equal. }
    rewrite (proj2 (Z.leb_le 128 _)) by lia. lia.
  - rewrite Z.mod_small by lia. assert (u8 (v / q) < 128) as Hh.
    { unfold u8. assert (0 <= v / q < 128) by (split; [apply Z.div_le_lower_bound|apply Z.div_lt_upper_bound]; lia).
      rewrite Z.mod_small; lia. }
    rewrite (proj2 (Z.leb_gt 128 _)) by lia. lia.
Qed.

(** A string is the string of its value. *)
Lemma be_bytes_twos l : bytes l -> be_bytes (length l) (twos l) = l.
Proof.
  intros Hb. rewrite <- (be_bytes_be_value l Hb) at 3. rewrite <- be_bytes_mod, <- (be_bytes_mod _ (be_value l)). f_equal.
  unfold twos. destruct (128 <=? hd 0 l); [|now rewrite Z.sub_0_r].
  replace (be_value l - 256 ^ zlen l) with (be_value l + (-1) * 256 ^ zlen l) by lia. apply Z_mod_plus_full.
Qed.

(** One octet more than needed repeats the sign. *)
Lemma strip_wider k v : (1 <= k)%nat -> - (128 * 256 ^ (Z.of_nat k - 1)) <= v < 128 * 256 ^ (Z.of_nat k - 1) ->
  strip (be_bytes (S k) v) = strip (be_bytes k v).
Proof.
  intros Hk Hv. rewrite be_bytes_cons. destruct k as [|k]; [lia|]. rewrite be_bytes_cons. cbn [strip].
  replace (Z.of_nat (S k) - 1) with (Z.of_nat k) in Hv by lia. rewrite pow256_S.
  pose proof (pow256_pos k) as Hp. set (q := 256 ^ Z.of_nat k) in *.
  replace (redundant _ _) with true; [done|]. symmetry. rewrite redundant_octets by apply u8_range.
  destruct (Z.lt_ge_cases v 0) as [Hneg|Hpos].
  - assert (v / (256 * q) = -1) as -> by (symmetry; apply (Z.div_unique v (256 * q) (-1) (v + 256 * q)); lia).
    assert (-128 <= v / q < 0) by (split; [apply Z.div_le_lower_bound|apply Z.div_lt_upper_bound]; lia).
    unfold u8. replace ((v / q) mod 256) with (v / q + 256)
      by (rewrite <- (Z.mod_small (v / q + 256) 256) by lia; rewrite <- (Z_mod_plus_full (v / q) 1 256); f_equal).
    change (-1 mod 256) with 255. zlia.
  - rewrite (Z.div_small v (256 * q)) by lia. unfold u8.
    assert (0 <= v / q < 128) by (split; [apply Z.div_le_lower_bound|apply Z.div_lt_upper_bound]; lia).
    rewrite (Z.mod_small (v / q)) by lia. change (0 mod 256) with 0. zlia.
Qed.

Lemma strip_widest j l : bytes l -> l <> [] -> strip (be_bytes (length l + j) (twos l)) = strip l.
Proof.
  intros Hb Hl. pose proof (twos_range l Hb Hl) as Hr.
  assert (1 <= length l)%nat by (destruct l; [done|cbn; lia]).
  induction j as [|j IH]; [rewrite Nat.add_0_r; now rewrite be_bytes_twos|].
  replace (length l + S j)%nat with (S (length l + j)) by lia. rewrite strip_wider; [done|lia|].
  assert (256 ^ (zlen l - 1) <= 256 ^ (Z.of_nat (length l + j) - 1)) by (apply Z.pow_le_mono_r; lia). lia.
Qed.

(** ** The loops of the integer codec *)

Lemma shift_in x b : 0 <= b < 256 -> Z.lor (u64 (Z.shiftl x 8)) b = u64 (x * 256 + b).
Proof.
  intros Hb. rewrite Z.shiftl_mul_pow2 by lia. change (2 ^ 8) with 256. unfold u64.
  change 18446744073709551616 with (72057594037927936 * 256). rewrite Z.mul_mod_distr_r by lia.
  rewrite (lor_shift_add _ b 8) by (change (2 ^ 8) with 256; lia). change (2 ^ 8) with 256.
  set (d := 72057594037927936). pose proof (Z.div_mod x d ltac:(lia)) as E. pose proof (Z.mod_pos_bound x d ltac:(lia)).
  apply (Z.mod_unique _ _ (x / d)); lia.
Qed.

Lemma u64_step x b : u64 (u64 x * 256 + b) = u64 (x * 256 + b).
Proof. unfold u64. rewrite <- (Zplus_mod_idemp_l (x mod _ * 256)), Zmult_mod_idemp_l, Zplus_mod_idemp_l. done. Qed.

Lemma integer_bits_value m data n : forall i x, 0 <= i ->
  integer_bits m data n i (u64 x) = u64 (x * 256 ^ Z.of_nat n + be_value (bytes_of m (data +p i) (Z.of_nat n))).
Proof.
  induction n as [|n IH]; intros i x Hi; cbn [integer_bits].
  - rewrite bytes_of_0 by lia. rewrite be_value_nil. change (256 ^ Z.of_nat 0) with 1. f_equal. lia.
  - rewrite shift_in by apply ld_range. rewrite u64_step, IH by lia.
    replace (Z.of_nat (S n)) with (1 + Z.of_nat n) by lia. rewrite bytes_of_cons, padd_padd, ld_padd, Z.add_0_r by lia.
    rewrite be_value_cons, length_bytes_of, Nat2Z.id, Z.pow_add_r by lia. f_equal. lia.
Qed.

Lemma lxor_ones x : 0 <= x <= UINT64_MAX -> Z.lxor x UINT64_MAX = UINT64_MAX - x.
Proof.
  intros Hx. change UINT64_MAX with (2 ^ 64 - 1) in *.
  assert (Z.land x (Z.lxor x (2 ^ 64 - 1)) = 0) as Hl.
  { apply Z.bits_inj'. intros i Hi. rewrite Z.land_spec, Z.lxor_spec, Z.bits_0.
    destruct (Z.lt_ge_cases i 64) as [H|H].
    - replace (2 ^ 64 - 1) with (Z.ones 64) by done. rewrite Z.ones_spec_low by lia. now destruct (Z.testbit x i).
    - rewrite (Z.bits_above_log2 x i); [done|lia|]. destruct (Z.eq_dec x 0) as [->|]; [cbn; lia|].
      apply Z.log2_lt_pow2; [lia|]. assert (2 ^ 64 <= 2 ^ i) by (apply Z.pow_le_mono_r; lia). lia. }
  pose proof (Z.add_nocarry_lxor _ _ Hl) as E. rewrite <- Z.lxor_assoc, Z.lxor_nilpotent, Z.lxor_0_l in E. lia.
Qed.

Lemma decode_value_twos m data n : 1 <= n <= 8 -> integer_decode_value m data n = Some (twos (bytes_of m data n)).
Proof.
  intros Hn. unfold integer_decode_value. rewrite (proj2 (Z.ltb_ge n 1)), (proj2 (Z.ltb_ge 8 n)) by lia. cbn [orb].
  set (l := bytes_of m data n). assert (zlen l = n) as Hlen by (unfold l; rewrite length_bytes_of; lia).
  assert (bytes l) as Hb by apply bytes_of_bytes.
  assert (l <> []) as Hl by (intros E; rewrite E in Hlen; cbn in Hlen; lia).
  assert (ld m data 0 = hd 0 l) as Eh.
  { unfold l. replace n with (1 + (n - 1)) by lia. now rewrite bytes_of_cons by lia. }
  rewrite sign_bit, Eh by apply ld_range.
  set (x := if 128 <=? hd 0 l then -1 else 0).
  assert ((if negb (hd 0 l <? 128) then UINT64_MAX else 0) = u64 x) as ->.
  { unfold x. destruct (Z.ltb_spec (hd 0 l) 128), (Z.leb_spec 128 (hd 0 l)); (done || lia). }
  rewrite integer_bits_value by lia. rewrite padd_0, Z2Nat.id by lia. fold l.
  replace (x * 256 ^ n + be_value l) with (twos l) by (unfold twos, x; rewrite Hlen; destruct (128 <=? hd 0 l); lia).
  pose proof (twos_range l Hb Hl) as Hr. rewrite Hlen in Hr.
  assert (256 ^ (n - 1) <= 256 ^ 7) as H7 by (apply Z.pow_le_mono_r; lia). change (256 ^ 7) with 72057594037927936 in H7.
  f_equal. destruct (Z.lt_ge_cases (twos l) 0) as [Hneg|Hpos].
  - assert (u64 (twos l) = twos l + 18446744073709551616) as ->.
    { unfold u64. symmetry. apply (Z.mod_unique _ _ (-1)); lia. }
    rewrite (proj2 (Z.leb_gt _ INT64_MAX)), lxor_ones by lia. lia.
  - rewrite u64_small by lia. now rewrite (proj2 (Z.leb_le _ INT64_MAX)) by lia.
Qed.

Lemma encode_value_octets v : integer_encode_value v = be_bytes 8 v.
Proof.
  unfold integer_encode_value. apply (nth_ext _ _ 0 0); [done|]. rewrite length_map, length_seq. intros i Hi.
  rewrite (nth_indep _ 0 (u8 (Z.shiftr (u64 v) (8 * (8 - 1 - Z.of_nat 0))))) by now rewrite length_map, length_seq.
  rewrite (map_nth (fun i => u8 (Z.shiftr (u64 v) (8 * (8 - 1 - Z.of_nat i))))), seq_nth, nth_be_bytes by lia.
  cbn [Nat.add]. set (k := 8 - 1 - Z.of_nat i). assert (0 <= k <= 7) as Hk by lia.
  replace (Z.of_nat 8 - 1 - Z.of_nat i) with k by lia. rewrite Z.shiftr_div_pow2 by lia.
  replace (2 ^ (8 * k)) with (256 ^ k) by (change 256 with (2 ^ 8); now rewrite <- Z.pow_mul_r by lia).
  assert (18446744073709551616 = 256 ^ (8 - k) * 256 ^ k) as Em by (rewrite <- Z.pow_add_r by lia; now replace (8 - k + k) with 8 by lia).
  assert (0 < 256 ^ k) by (apply Z.pow_pos_nonneg; lia). unfold u64, u8.
  rewrite (Z.div_mod v 18446744073709551616) at 2 by lia. rewrite Em at 2.
  replace (256 ^ (8 - k) * 256 ^ k * (v / 18446744073709551616) + v mod 18446744073709551616)
    with ((256 ^ (8 - k) * (v / 18446744073709551616)) * 256 ^ k + v mod 18446744073709551616) by lia.
  rewrite Z.div_add_l by lia.
  replace (256 ^ (8 - k)) with (256 ^ (7 - k) * 256) by (rewrite <- (Z.pow_add_r 256 _ 1) by lia; f_equal; lia).
  replace (256 ^ (7 - k) * 256 * (v / 18446744073709551616)) with ((256 ^ (7 - k) * (v / 18446744073709551616)) * 256) by lia.
  rewrite Z.add_comm. now rewrite Z_mod_plus_full.
Qed.

Lemma minimal_start_strip n : forall full i, (i + n + 1 = length full)%nat ->
  let j := minimal_start n full (Z.of_nat i) in
  Z.of_nat i <= j < zlen full /\ strip (drop i full) = drop (Z.to_nat j) full.
Proof.
  induction n as [|n IH]; intros full i Hi; cbv zeta; cbn [minimal_start].
  - split; [lia|]. rewrite Nat2Z.id. destruct (drop i full) as [|b [|? ?]] eqn:E; try done.
    apply (f_equal length) in E. rewrite length_drop in E. cbn in E. lia.
  - destruct (drop i full) as [|b0 [|b1 t]] eqn:E.
    1-2: apply (f_equal length) in E; rewrite length_drop in E; cbn in E; lia.
    assert (byte_at full (Z.of_nat i) = b0 /\ byte_at full (Z.of_nat i + 1) = b1 /\ drop (S i) full = b1 :: t) as (-> & -> & E1).
    { unfold byte_at. rewrite <- (take_drop i full), E. assert (length (take i full) = i) as Et by (rewrite length_take; lia).
      split; [|split].
      - rewrite app_nth2 by lia. now replace (Z.to_nat (Z.of_nat i) - length (take i full))%nat with 0%nat by lia.
      - rewrite app_nth2 by lia. now replace (Z.to_nat (Z.of_nat i + 1) - length (take i full))%nat with 1%nat by lia.
      - rewrite drop_app_ge by lia. rewrite Et. now replace (S i - i)%nat with 1%nat by lia. }
    cbn [strip]. destruct (redundant b0 b1).
    + replace (Z.of_nat i + 1) with (Z.of_nat (S i)) by lia. destruct (IH full (S i) ltac:(lia)) as [Hj Es].
      split; [lia|]. rewrite <- Es, E1. done.
    + split; [lia|]. now rewrite Nat2Z.id, E.
Qed.

(** What the encoder writes. *)
Definition minimal_octets (v : Z) : list Z := strip (be_bytes 8 v).

Lemma encode_integer_octets v :
  let full := integer_encode_value v in
  integer_minimal_size full = zlen (minimal_octets v) /\
  take (Z.to_nat (integer_minimal_size full)) (drop (Z.to_nat (8 - integer_minimal_size full)) full) = minimal_octets v.
Proof.
  cbv zeta. rewrite encode_value_octets. unfold integer_minimal_size, minimal_octets.
  assert (length (be_bytes 8 v) = 8%nat) as Hl by apply length_be_bytes.
  destruct (minimal_start_strip 7 (be_bytes 8 v) 0 ltac:(lia)) as [Hj Es]. rewrite drop_0 in Es. rewrite Es.
  change (Z.of_nat 0) with 0 in *. set (j := minimal_start 7 (be_bytes 8 v) 0) in *. rewrite Hl in Hj.
  replace (8 - (8 - j)) with j by lia. rewrite length_drop, Hl. split; [lia|].
  apply take_ge. rewrite length_drop, Hl. lia.
Qed.

Lemma minimal_octets_ok v : int64 v ->
  bytes (minimal_octets v) /\ 1 <= zlen (minimal_octets v) <= 8 /\ twos (minimal_octets v) = v.
Proof.
  intros Hv. unfold minimal_octets. pose proof (be_bytes_bytes 8 v) as Hb. split; [now apply strip_bytes|]. split.
  - pose proof (length_strip (be_bytes 8 v)) as Hl. rewrite length_be_bytes in Hl.
    assert (be_bytes 8 v <> []) as Hn by (intros E; apply (f_equal length) in E; now rewrite length_be_bytes in E).
    specialize (Hl Hn). lia.
  - rewrite twos_strip by done. apply twos_be_bytes; [lia|]. unfold int64 in Hv.
    change (Z.of_nat 8 - 1) with 7. change (256 ^ 7) with 72057594037927936. lia.
Qed.

Lemma minimal_octets_head v b0 b1 t : minimal_octets v = b0 :: b1 :: t -> redundant b0 b1 = false.
Proof.
  intros E. destruct (redundant b0 b1) eqn:Er; [|done]. exfalso.
  pose proof (strip_idem (be_bytes 8 v)) as Hi. fold (minimal_octets v) in Hi. rewrite E in Hi.
  cbn [strip] in Hi. rewrite Er in Hi. pose proof (length_strip (b1 :: t) ltac:(done)) as Hl.
  change (match t with [] => b1 :: t | b2 :: _ => if redundant b1 b2 then strip t else b1 :: t end) with (strip (b1 :: t)) in Hi.
  rewrite Hi in Hl. cbn [length] in Hl. lia.
Qed.

(** ** Instances *)

Lemma data_null data : data <> NULL -> is_null data = false.
Proof. now destruct data. Qed.

(** Unsigned integers of [n] octets. *)
Definition uint_wire (n : nat) (big : bool) (v : Z) : option (list Z) :=
  if (0 <=? v) && (v <? 256 ^ Z.of_nat n) then Some (if big then be_bytes n v else le_bytes n v) else None.

Lemma uint_wire_some n big v w : uint_wire n big v = Some w ->
  0 <= v < 256 ^ Z.of_nat n /\ w = (if big then be_bytes n v else le_bytes n v) /\ zlen w = Z.of_nat n.
Proof.
  unfold uint_wire. destruct (_ && _) eqn:E; [|done]. intros [= <-]. split; [zlia|]. split; [done|].
  destruct big; now rewrite ?length_be_bytes, ?length_le_bytes.
Qed.

Lemma be_value_read n v : 0 <= v < 256 ^ Z.of_nat n -> be_value (be_bytes n v) = v.
Proof. intros Hv. rewrite be_value_be_bytes. now apply Z.mod_small. Qed.

Lemma read_field m data n (big : bool) v : (1 <= n)%nat -> 0 <= v < 256 ^ Z.of_nat n ->
  bytes_of m data (Z.of_nat n) = (if big then be_bytes n v else le_bytes n v) ->
  be_value (field_octets m data (Z.of_nat n) big) = v.
Proof.
  intros Hn Hv Hb. transitivity (be_value (be_bytes n v)); [|now apply be_value_read]. f_equal. destruct big.
  - now rewrite field_octets_big.
  - rewrite field_octets_little by lia. now rewrite Hb.
Qed.

Lemma u8_shiftr v k : u8 (u8 (Z.shiftr v (8 * Z.of_nat k))) = u8 (v / 256 ^ Z.of_nat k).
Proof.
  rewrite u8_u8, Z.shiftr_div_pow2 by lia. do 2 f_equal. change 256 with (2 ^ 8). now rewrite <- Z.pow_mul_r by lia.
Qed.

Lemma le_bytes_2 v : le_bytes 2 v = [u8 v; u8 (v / 256)].
Proof. done. Qed.
Lemma le_bytes_4 v : le_bytes 4 v = [u8 v; u8 (v / 256); u8 (v / 65536); u8 (v / 16777216)].
Proof. cbn [le_bytes]. now rewrite !Z.div_div by lia. Qed.

Lemma write_u16 m data (big : bool) v : data <> NULL ->
  let m' := if big then tlv_write_u16_be m data v else tlv_write_u16_le m data v in
  only_changes m m' data 2 /\ bytes_of m' data 2 = (if big then be_bytes 2 v else le_bytes 2 v).
Proof.
  intros Hd. apply data_null in Hd.
  pose proof (u8_shiftr v 0) as S0. pose proof (u8_shiftr v 1) as S1.
  change (8 * Z.of_nat 0) with 0 in S0. change (8 * Z.of_nat 1) with 8 in S1. change (256 ^ Z.of_nat 0) with 1 in S0.
  change (256 ^ Z.of_nat 1) with 256 in S1. rewrite Z.div_1_r in S0.
  destruct big; cbv zeta; split; unfold tlv_write_u16_be, tlv_write_u16_le.
  1, 3: eapply only_trans; apply st_only; lia.
  all: unfold be_bytes; rewrite le_bytes_2; unfold bytes_of; change (Z.to_nat 2) with 2%nat; cbn [seq map rev app];
    change (Z.of_nat 0) with 0; change (Z.of_nat 1) with 1;
    rewrite (ld_st_other _ _ 1 _ 0), !ld_st_same, ?S0, ?S1 by (done || lia); done.
Qed.

Lemma write_u32 m data (big : bool) v : data <> NULL ->
  let m' := if big then tlv_write_u32_be m data v else tlv_write_u32_le m data v in
  only_changes m m' data 4 /\ bytes_of m' data 4 = (if big then be_bytes 4 v else le_bytes 4 v).
Proof.
  intros Hd. apply data_null in Hd.
  pose proof (u8_shiftr v 0) as S0. pose proof (u8_shiftr v 1) as S1. pose proof (u8_shiftr v 2) as S2.
  pose proof (u8_shiftr v 3) as S3.
  change (8 * Z.of_nat 0) with 0 in S0. change (8 * Z.of_nat 1) with 8 in S1. change (8 * Z.of_nat 2) with 16 in S2.
  change (8 * Z.of_nat 3) with 24 in S3. change (256 ^ Z.of_nat 0) with 1 in S0. change (256 ^ Z.of_nat 1) with 256 in S1.
  change (256 ^ Z.of_nat 2) with 65536 in S2. change (256 ^ Z.of_nat 3) with 16777216 in S3. rewrite Z.div_1_r in S0.
  destruct big; cbv zeta; split; unfold tlv_write_u32_be, tlv_write_u32_le.
  1, 3: eapply only_trans; [|apply st_only; lia]; eapply only_trans; [|apply st_only; lia];
    eapply only_trans; apply st_only; lia.
  all: unfold be_bytes; rewrite le_bytes_4; unfold bytes_of; change (Z.to_nat 4) with 4%nat; cbn [seq map rev app];
    change (Z.of_nat 0) with 0; change (Z.of_nat 1) with 1; change (Z.of_nat 2) with 2; change (Z.of_nat 3) with 3;
    rewrite !(ld_st_other _ _ 3) by lia; rewrite !(ld_st_other _ _ 2) by lia; rewrite !(ld_st_other _ _ 1) by lia;
    rewrite !ld_st_same, ?S0, ?S1, ?S2, ?S3 by done; done.
Qed.

#[export] Instance uint8_lawful : ValueCodec tlv_codec_uint8 Z.
Proof.
  refine {| vc_size := 1; vc_content := fun _ x => x; vc_wire := uint_wire 1 true; vc_ok := fun _ => True;
            vc_apart := fun _ _ _ => True; vc_encode_fn := encode_uint8; vc_decode_fn := decode_uint8 |}; try reflexivity.
  - intros m x w w0 dg _ Hw. apply uint_wire_some in Hw as (_ & _ & ->). eexists. reflexivity.
  - intros m x w data capacity w0 dg _ Hw Hd Hc _. apply uint_wire_some in Hw as (Hx & -> & Hl). rewrite Hl in *.
    eexists _, _. split; [unfold encode_uint8; rewrite (data_null data Hd), (proj2 (Z.ltb_ge capacity 1)) by lia; reflexivity|].
    split; [apply st_only; lia|]. change (256 ^ Z.of_nat 1) with 256 in Hx. cbn [Z.of_nat negb cell]. rewrite bytes_of_1.
    rewrite ld_st_same by now apply data_null. done.
  - intros m y w data v0 capacity dg Hw Hd Hb Hc. apply uint_wire_some in Hw as (Hy & -> & Hl). rewrite Hl in *.
    change (256 ^ Z.of_nat 1) with 256 in Hy. change (Z.of_nat 1) with 1 in *. rewrite bytes_of_1 in Hb. injection Hb as Hb.
    eexists _, _. split; [unfold decode_uint8; rewrite (proj2 (Z.ltb_ge capacity 1)) by lia; reflexivity|].
    rewrite Hb. apply u8_small. lia.
Defined.

Lemma uint16_lawful order (Ho : order_bad order = false) :
  ValueCodec (mk_codec (Some (decode_uint16 order)) (Some (encode_uint16 order))) Z.
Proof.
  refine {| vc_size := 2; vc_content := fun _ x => x;
            vc_wire := uint_wire 2 (order_is order TLV_BYTE_ORDER_BIG_ENDIAN); vc_ok := fun _ => True;
            vc_apart := fun _ _ _ => True; vc_encode_fn := encode_uint16 order; vc_decode_fn := decode_uint16 order |}; try reflexivity.
  - intros m x w w0 dg _ Hw. apply uint_wire_some in Hw as (_ & _ & ->). eexists. reflexivity.
  - intros m x w data capacity w0 dg _ Hw Hd Hc _. apply uint_wire_some in Hw as (Hx & -> & Hl). rewrite Hl in *.
    destruct (write_u16 m data (order_is order TLV_BYTE_ORDER_BIG_ENDIAN) x Hd) as [Ho1 Hb1].
    eexists _, _. split; [unfold encode_uint16; rewrite (data_null data Hd), (proj2 (Z.ltb_ge capacity 2)) by lia; reflexivity|].
    split; [exact Ho1|exact Hb1].
  - intros m y w data v0 capacity dg Hw Hd Hb Hc. apply uint_wire_some in Hw as (Hy & -> & Hl). rewrite Hl in *.
    eexists _, _. split; [unfold decode_uint16; rewrite (proj2 (Z.ltb_ge capacity 2)) by lia; reflexivity|].
    destruct (fixed_width_generic m data Hd) as (E1 & E2 & _ & _).
    pose proof (read_field m data 2 _ y ltac:(lia) Hy Hb) as Hr. change (Z.of_nat 2) with 2 in Hr.
    destruct (order_is order TLV_BYTE_ORDER_BIG_ENDIAN); [rewrite E1|rewrite E2];
      rewrite read_uint_value by (done || lia); exact Hr.
Defined.

Lemma uint32_lawful order (Ho : order_bad order = false) :
  ValueCodec (mk_codec (Some (decode_uint32 order)) (Some (encode_uint32 order))) Z.
Proof.
  refine {| vc_size := 4; vc_content := fun _ x => x;
            vc_wire := uint_wire 4 (order_is order TLV_BYTE_ORDER_BIG_ENDIAN); vc_ok := fun _ => True;
            vc_apart := fun _ _ _ => True; vc_encode_fn := encode_uint32 order; vc_decode_fn := decode_uint32 order |}; try reflexivity.
  - intros m x w w0 dg _ Hw. apply uint_wire_some in Hw as (_ & _ & ->). eexists. reflexivity.
  - intros m x w data capacity w0 dg _ Hw Hd Hc _. apply uint_wire_some in Hw as (Hx & -> & Hl). rewrite Hl in *.
    destruct (write_u32 m data (order_is order TLV_BYTE_ORDER_BIG_ENDIAN) x Hd) as [Ho1 Hb1].
    eexists _, _. split; [unfold encode_uint32; rewrite (data_null data Hd), (proj2 (Z.ltb_ge capacity 4)) by lia; reflexivity|].
    split; [exact Ho1|exact Hb1].
  - intros m y w data v0 capacity dg Hw Hd Hb Hc. apply uint_wire_some in Hw as (Hy & -> & Hl). rewrite Hl in *.
    eexists _, _. split; [unfold decode_uint32; rewrite (proj2 (Z.ltb_ge capacity 4)) by lia; reflexivity|].
    destruct (fixed_width_generic m data Hd) as (_ & _ & E1 & E2).
    pose proof (read_field m data 4 _ y ltac:(lia) Hy Hb) as Hr. change (Z.of_nat 4) with 4 in Hr.
    destruct (order_is order TLV_BYTE_ORDER_BIG_ENDIAN); [rewrite E1|rewrite E2];
      rewrite read_uint_value by (done || lia); exact Hr.
Defined.

#[export] Instance uint16_be_lawful : ValueCodec tlv_codec_uint16_be Z := uint16_lawful TLV_BYTE_ORDER_BIG_ENDIAN eq_refl.
#[export] Instance uint16_le_lawful : ValueCodec tlv_codec_uint16_le Z := uint16_lawful TLV_BYTE_ORDER_LITTLE_ENDIAN eq_refl.
#[export] Instance uint32_be_lawful : ValueCodec tlv_codec_uint32_be Z := uint32_lawful TLV_BYTE_ORDER_BIG_ENDIAN eq_refl.
#[export] Instance uint32_le_lawful : ValueCodec tlv_codec_uint32_le Z := uint32_lawful TLV_BYTE_ORDER_LITTLE_ENDIAN eq_refl.

(** Borrowed bytes: the content is what the view shows. *)
#[export] Instance bytes_lawful `{Platform} `{ValueLayout} : ValueCodec tlv_codec_bytes (list Z).
Proof.
  refine {| vc_size := sizeof_value; vc_content := value_bytes;
            vc_wire := fun l => if zlen l <=? SIZE_MAX then Some l else None; vc_ok := value_ok;
            vc_apart := fun v data n => disjoint_range data n v.(v_data) v.(v_size);
            vc_encode_fn := encode_bytes; vc_decode_fn := decode_bytes |}; try reflexivity.
  all: assert (forall v (w : list Z), value_ok v -> (if zlen w <=? SIZE_MAX then Some w else None) = Some w -> zlen w = v.(v_size) ->
    (is_null v.(v_data) && negb (v.(v_size) =? 0)) = false /\
    tlv_size_to_native v.(v_size) (Some 0) = (TLV_OK, Some v.(v_size))) as Hv.
  1, 3, 5: intros v w [Hs Hn] Hw Hl; destruct (Z.leb_spec (zlen w) SIZE_MAX); [|done]; split;
    [destruct (v_data v); [rewrite Hn by done; done|done]|
     unfold tlv_size_to_native; rewrite (proj2 (Z.ltb_ge SIZE_MAX _)), usize_small by lia; done].
  - intros m x w w0 dg Hx Hw. assert (w = value_bytes m x) as -> by (destruct (_ <=? _); congruence).
    assert (zlen (value_bytes m x) = v_size x) as Hl by (unfold value_bytes; rewrite length_bytes_of; destruct Hx; lia).
    destruct (Hv x _ Hx Hw Hl) as [E1 E2]. rewrite Hl. eexists. unfold encode_bytes. cbn [cell].
    rewrite Z.eqb_refl, E1, E2. cbn [negb is_null andb]. rewrite is_ok_OK. reflexivity.
  - intros m x w data capacity w0 dg Hx Hw Hd Hc Hap. assert (w = value_bytes m x) as -> by (destruct (_ <=? _); congruence).
    assert (zlen (value_bytes m x) = v_size x) as Hl by (unfold value_bytes; rewrite length_bytes_of; destruct Hx; lia).
    destruct (Hv x _ Hx Hw Hl) as [E1 E2]. rewrite Hl in *. eexists _, _.
    split; [unfold encode_bytes; cbn [cell]; rewrite Z.eqb_refl, E1, E2, (data_null data Hd); cbn [negb andb cell];
      rewrite is_ok_OK, (proj2 (Z.ltb_ge capacity _)) by lia; reflexivity|].
    destruct (Z.eqb_spec (v_size x) 0) as [Hz|Hz]; cbn [negb].
    + split; [apply only_refl|]. rewrite Hz, bytes_of_0 by lia. unfold value_bytes. now rewrite Hz, bytes_of_0 by lia.
    + split; [apply memmove_only|]. apply bytes_of_memmove. now apply data_null.
  - intros m y w data v0 capacity dg Hw Hd Hb Hc. destruct (Z.leb_spec (zlen y) SIZE_MAX); [|done]. injection Hw as ->.
    eexists _, _. split; [unfold decode_bytes; rewrite (proj2 (Z.ltb_ge capacity sizeof_value)) by lia; reflexivity|].
    exact Hb.
Defined.

#[export] Instance int64_lawful : ValueCodec tlv_codec_int64_minimal_be Z.
Proof.
  refine {| vc_size := 8; vc_content := fun _ x => x;
            vc_wire := fun v => if bool_decide (int64 v) then Some (minimal_octets v) else None; vc_ok := fun _ => True;
            vc_apart := fun _ _ _ => True; vc_encode_fn := encode_integer; vc_decode_fn := decode_integer |}; try reflexivity.
  - intros m x w w0 dg _ Hw. case_bool_decide; [|done]. injection Hw as <-.
    destruct (encode_integer_octets x) as [E _]. rewrite <- E. eexists. reflexivity.
  - intros m x w data capacity w0 dg _ Hw Hd Hc _. case_bool_decide as Hx; [|done]. injection Hw as <-.
    destruct (encode_integer_octets x) as [E E']. destruct (minimal_octets_ok x Hx) as (Hb & _ & _).
    eexists _, _. split.
    { unfold encode_integer. cbn [cell]. rewrite E', E, (data_null data Hd), (proj2 (Z.ltb_ge capacity _)) by lia. reflexivity. }
    cbn [negb]. split; [apply put_at_only|now apply bytes_of_put_at].
  - intros m y w data v0 capacity dg Hw Hd Hb Hc. case_bool_decide as Hy; [|done]. injection Hw as <-.
    destruct (minimal_octets_ok y Hy) as (Hby & Hl & Ht). pose proof (minimal_octets_head y) as Hh.
    set (w := minimal_octets y) in *. eexists _, _. split.
    { unfold decode_integer. rewrite (proj2 (Z.eqb_neq (zlen w) 0)), (proj2 (Z.ltb_ge 8 (zlen w))) by lia. cbn [orb].
      replace ((1 <? zlen w) && redundant (ld m data 0) (ld m data 1)) with false.
      2: { destruct (Z.ltb_spec 1 (zlen w)) as [H1|H1]; [|done]. destruct w as [|b0 [|b1 t]] eqn:Ew; [cbn in H1; lia|cbn in H1; lia|].
           replace (ld m data 0) with b0 by (rewrite <- (byte_at_bytes_of m data (zlen (b0 :: b1 :: t)) 0) by lia; now rewrite Hb).
           replace (ld m data 1) with b1 by (rewrite <- (byte_at_bytes_of m data (zlen (b0 :: b1 :: t)) 1) by lia; now rewrite Hb).
           now rewrite (Hh b0 b1 t eq_refl). }
      rewrite decode_value_twos, Hb, Ht by lia. rewrite (proj2 (Z.ltb_ge capacity 8)) by lia. reflexivity. }
    done.
Defined.

Lemma strip_minimal l : (forall b0 b1 t, l = b0 :: b1 :: t -> redundant b0 b1 = false) -> strip l = l.
Proof. intros H. destruct l as [|b0 [|b1 t]]; try done. cbn [strip]. now rewrite (H b0 b1 t). Qed.

Lemma minimal_octets_twos l : bytes l -> l <> [] -> (length l <= 8)%nat ->
  (forall b0 b1 t, l = b0 :: b1 :: t -> redundant b0 b1 = false) -> minimal_octets (twos l) = l.
Proof.
  intros Hb Hl H8 Hm. unfold minimal_octets. replace 8%nat with (length l + (8 - length l))%nat by lia.
  rewrite strip_widest by done. now apply strip_minimal.
Qed.

(** ** Theorems *)

(** The minimal signed codec is a bijection between the 64-bit integers and the minimal strings: the
    decoder accepts exactly the strings of one to eight octets in which no leading octet only repeats
    the sign, gives their two's-complement value, and encoding that value gives the same octets. *)
Theorem int64_minimal_canonical (m : mem) (data : ptr) (size capacity v0 : Z) (dg : option tlv_codec_diagnostic_t)
  (Hd : data <> NULL) (Hsize : 0 <= size) (Hcap : 8 <= capacity) :
  let '(rc, m', value, _) := decode_integer m data size (Some v0) capacity dg in
  m' = m /\
  (rc = TLV_OK <-> 1 <= size <= 8 /\ ((1 <? size) && redundant (ld m data 0) (ld m data 1)) = false) /\
  (rc <> TLV_OK -> rc = TLV_ERR_INVALID_VALUE /\ value = Some v0) /\
  (rc = TLV_OK -> exists v, value = Some v /\ int64 v /\ v = twos (bytes_of m data size) /\
     forall m1 out room w0 dg1, out <> NULL -> size <= room ->
     exists m2 dg2, tlv_codec_encode (Some tlv_codec_int64_minimal_be) m1 (Some v) 8 out room (Some w0) dg1 =
         (TLV_OK, m2, Some size, dg2) /\ bytes_of m2 out size = bytes_of m data size).
Proof.
  unfold decode_integer, decoded. destruct (Z.eqb_spec size 0) as [Hz|Hz]; cbn [orb].
  { split; [done|]. split; [split; [done|lia]|done]. }
  destruct (Z.ltb_spec 8 size) as [Hbig|Hsmall]; [split; [done|]; split; [split; [done|lia]|done]|].
  destruct ((1 <? size) && redundant (ld m data 0) (ld m data 1)) eqn:Er.
  { split; [done|]. split; [split; [done|intros [_ ?]; done]|done]. }
  rewrite decode_value_twos, (proj2 (Z.ltb_ge capacity 8)) by lia. cbn [store].
  split; [done|]. split; [split; [lia|done]|]. split; [done|]. intros _.
  set (l := bytes_of m data size) in *. assert (zlen l = size) as Hl by (unfold l; rewrite length_bytes_of; lia).
  assert (bytes l) as Hb by apply bytes_of_bytes.
  assert (l <> []) as Hn by (intros E; rewrite E in Hl; cbn in Hl; lia).
  pose proof (twos_range l Hb Hn) as Hr. rewrite Hl in Hr.
  assert (256 ^ (size - 1) <= 256 ^ 7) as H7 by (apply Z.pow_le_mono_r; lia). change (256 ^ 7) with 72057594037927936 in H7.
  assert (int64 (twos l)) as Hi by (unfold int64; lia).
  assert (minimal_octets (twos l) = l) as Hm.
  { apply minimal_octets_twos; [done|done|lia|]. intros b0 b1 t E. assert (1 < size) by (rewrite <- Hl, E; cbn; lia).
    rewrite (proj2 (Z.ltb_lt 1 size)) in Er by lia. cbn [andb] in Er.
    replace b0 with (ld m data 0) by (rewrite <- (byte_at_bytes_of m data size 0) by lia; fold l; now rewrite E).
    now replace b1 with (ld m data 1) by (rewrite <- (byte_at_bytes_of m data size 1) by lia; fold l; now rewrite E). }
  exists (twos l). split; [done|]. split; [done|]. split; [done|]. intros m1 out room w0 dg1 Hout Hroom.
  destruct (dispatch_encode tlv_codec_int64_minimal_be m1 (twos l) l out room w0 dg1) as (m2 & dg2 & E & _ & Hb2); try done.
  - change ((if bool_decide (int64 (twos l)) then Some (minimal_octets (twos l)) else None) = Some l).
    rewrite bool_decide_eq_true_2 by done. now rewrite Hm.
  - lia.
  - rewrite Hl in *. exists m2, dg2. split; [exact E|exact Hb2].
Qed.

Lemma int64_minimal_canonical_witness :
  exists v, fst (fst (fst (decode_integer (mem_of 1 [255; 127]) (Ptr 1 0) 2 (Some 0) 8 None))) = TLV_OK /\
    v = -129 /\ exists m2 dg2,
    tlv_codec_encode (Some tlv_codec_int64_minimal_be) (mem_of 1 []) (Some v) 8 (Ptr 2 0) 4 (Some 0) None =
      (TLV_OK, m2, Some 2, dg2) /\ bytes_of m2 (Ptr 2 0) 2 = [255; 127].
Proof.
  pose proof (int64_minimal_canonical (mem_of 1 [255; 127]) (Ptr 1 0) 2 8 0 None ltac:(discriminate) ltac:(lia) ltac:(lia)) as H.
  destruct (decode_integer (mem_of 1 [255; 127]) (Ptr 1 0) 2 (Some 0) 8 None) as [[[rc m'] value] dg] eqn:E.
  destruct H as (_ & Hiff & _ & Hok). cbn [fst].
  assert (rc = TLV_OK) as -> by (apply (f_equal (fun x => fst (fst (fst x)))) in E; vm_compute in E; congruence).
  destruct (Hok eq_refl) as (v & -> & _ & Hv & Henc). exists v. split; [reflexivity|].
  split; [rewrite Hv; vm_compute; reflexivity|].
  destruct (Henc (mem_of 1 []) (Ptr 2 0) 4 0 None ltac:(discriminate) ltac:(lia)) as (m2 & dg2 & H1 & H2).
  exists m2, dg2. split; [exact H1|]. etransitivity; [exact H2|]. vm_compute. reflexivity.
Defined.

Lemma value_codec_roundtrip_witness :
  exists m' dg v dg',
    tlv_codec_encode (Some tlv_codec_uint32_le) (mem_of 1 []) (Some 305419896) 4 (Ptr 1 0) 8 (Some 0) None =
      (TLV_OK, m', Some 4, dg) /\ bytes_of m' (Ptr 1 0) 4 = [120; 86; 52; 18] /\
    tlv_codec_decode (Some tlv_codec_uint32_le) m' (Ptr 1 0) 4 (Some 0) 4 None = (TLV_OK, m', Some v, dg') /\
    v = 305419896.
Proof.
  destruct (value_codec_roundtrip tlv_codec_uint32_le uint32_le_lawful (mem_of 1 []) 305419896 0 [120; 86; 52; 18]
    (Ptr 1 0) 8 4 0 None None None I eq_refl ltac:(discriminate) ltac:(cbn; lia) ltac:(cbn; lia) I)
    as (_ & m' & dg & v & dg' & E1 & _ & Hb & E2 & Hv).
  exists m', dg, v, dg'. split; [exact E1|]. split; [exact Hb|]. split; [exact E2|exact Hv].
Defined.
