(* ===== verification/Number.v ===== *)
(** * The configurable number codec and its laws (codec/number.h, src/codec/number.c)

    Unsigned integers as binary in either byte order or as packed decimal, of fixed or minimal width.
    The C object is a [uint64_t].  The laws are those of the width loop, of packed decimal, and the round trip. *)

From S2P Require Import Prelude Mem Core Endian Diagnostic Reader Codec Values ValuesLaws.

Inductive tlv_number_encoding_t : Type :=
| TLV_NUMBER_BINARY_BE | TLV_NUMBER_BINARY_LE | TLV_NUMBER_BCD | TLV_NUMBER_OTHER (n : Z).

#[export] Instance number_encoding_eq_dec : EqDecision tlv_number_encoding_t.
Proof. solve_decision. Defined.

Record tlv_number_codec_config_t := mk_number_config {
  nc_encoding : tlv_number_encoding_t; nc_width : Z; nc_digits : Z }.

Definition is_bcd (config : tlv_number_codec_config_t) : bool :=
  bool_decide (config.(nc_encoding) = TLV_NUMBER_BCD).

Definition number_valid_config (config : tlv_number_codec_config_t) : bool :=
  match config.(nc_encoding) with
  | TLV_NUMBER_BCD => (config.(nc_width) <=? 9) && (1 <=? config.(nc_digits)) && (config.(nc_digits) <=? 18)
  | TLV_NUMBER_BINARY_BE | TLV_NUMBER_BINARY_LE => (config.(nc_width) <=? 8) && (config.(nc_digits) =? 0)
  | TLV_NUMBER_OTHER _ => false
  end.

Fixpoint decimal_loop (n : nat) (limit : Z) : Z :=
  match n with O => limit | S n => decimal_loop n (u64 (limit * 10)) end.
Definition decimal_limit (digits : Z) : Z := u64 (decimal_loop (Z.to_nat digits) 1 - 1).

Definition number_order (config : tlv_number_codec_config_t) : tlv_byte_order_t :=
  match config.(nc_encoding) with
  | TLV_NUMBER_BINARY_BE => TLV_BYTE_ORDER_BIG_ENDIAN
  | _ => TLV_BYTE_ORDER_LITTLE_ENDIAN
  end.

(** Octets [i .. i + n - 1] of packed decimal; [None] is an invalid digit. *)
Fixpoint bcd_decode_loop (n : nat) (m : mem) (data : ptr) (i number : Z) : option Z :=
  match n with
  | O => Some number
  | S n =>
      let high := Z.shiftr (ld m data i) 4 in
      let low := Z.land (ld m data i) 15 in
      if (9 <? high) || (9 <? low) then None
      else bcd_decode_loop n m data (i + 1) (u64 (number * 100 + high * 10 + low))
  end.

Definition tlv_number_decode (context : option tlv_number_codec_config_t) : codec_decode_fn Z :=
  fun m data size value capacity diagnostic =>
  let diagnostic := tlv_codec_diagnostic_init diagnostic TLV_CODEC_OP_DECODE in
  match context, value with
  | Some config, Some _ =>
      if is_null data && negb (size =? 0) then decoded m value diagnostic TLV_ERR_NULL_ARG
      else if negb (number_valid_config config) then decoded m value diagnostic TLV_ERR_INVALID_ARG
      else if (size =? 0) || ((if is_bcd config then 9 else 8) <? size) ||
              (negb (config.(nc_width) =? 0) && negb (size =? config.(nc_width))) then
        decoded m value diagnostic TLV_ERR_INVALID_VALUE
      else
        let number :=
          if is_bcd config then
            match bcd_decode_loop (Z.to_nat size) m data 0 0 with
            | Some number => if decimal_limit config.(nc_digits) <? number then None else Some number
            | None => None
            end
          else
            let '(rc, number) := tlv_read_uint m data size (number_order config) (Some 0) in
            if is_ok rc then number else None in
        match number with
        | None => decoded m value diagnostic TLV_ERR_INVALID_VALUE
        | Some number =>
            if capacity <? 8 then decoded m value diagnostic TLV_ERR_BUFFER_TOO_SHORT
            else decoded m (store value number) diagnostic TLV_OK
        end
  | _, _ => decoded m value diagnostic TLV_ERR_NULL_ARG
  end.

(** [while (remaining >= radix)], with fuel; a [uint64_t] has at most ten digits to these bases. *)
Fixpoint width_loop (fuel : nat) (radix remaining width : Z) : Z :=
  match fuel with
  | O => width
  | S fuel => if radix <=? remaining then width_loop fuel radix (remaining / radix) (width + 1) else width
  end.

(** [for (i = width; i > 0; --i)] over the local array [bytes]. *)
Fixpoint bcd_encode_loop (i : nat) (bytes : list Z) (number : Z) : list Z :=
  match i with
  | O => bytes
  | S i =>
      let pair := number mod 100 in
      bcd_encode_loop i (<[i := u8 (Z.lor (Z.shiftl (pair / 10) 4) (pair mod 10))]> bytes) (number / 100)
  end.

(** The local array [bytes] after encoding, [None] when [tlv_write_uint] refuses. *)
Definition number_bytes (config : tlv_number_codec_config_t) (width number : Z) : option (list Z) :=
  if is_bcd config then Some (bcd_encode_loop (Z.to_nat width) (replicate 9 0) number)
  else
    let '(rc, local) := tlv_write_uint (mem_of 0 (replicate 9 0)) (Ptr 0 0) width (number_order config) number in
    if is_ok rc then Some (bytes_of local (Ptr 0 0) 9) else None.

Definition tlv_number_encode (context : option tlv_number_codec_config_t) : codec_encode_fn Z :=
  fun m value size data capacity written diagnostic =>
  let diagnostic := tlv_codec_diagnostic_init diagnostic (codec_operation data) in
  match written with
  | None => encoded m written diagnostic TLV_ERR_NULL_ARG
  | Some _ =>
      let written := Some 0 in
      match context, value with
      | Some config, Some number =>
          if is_null data && negb (capacity =? 0) then encoded m written diagnostic TLV_ERR_NULL_ARG
          else if negb (number_valid_config config) then encoded m written diagnostic TLV_ERR_INVALID_ARG
          else if negb (size =? 8) then encoded m written diagnostic TLV_ERR_INVALID_VALUE
          else if is_bcd config && (decimal_limit config.(nc_digits) <? number) then
            encoded m written diagnostic TLV_ERR_INVALID_VALUE
          else
            let radix := if is_bcd config then 100 else 256 in
            let width := width_loop 10 radix number 1 in
            if negb (config.(nc_width) =? 0) && (config.(nc_width) <? width) then
              encoded m written diagnostic TLV_ERR_INVALID_VALUE
            else
              let width := if negb (config.(nc_width) =? 0) then config.(nc_width) else width in
              if negb (is_null data) && (capacity <? width) then encoded m written diagnostic TLV_ERR_BUFFER_TOO_SHORT
              else
                match number_bytes config width number with
                | None => encoded m written diagnostic TLV_ERR_INVALID_VALUE
                | Some bytes =>
                    let m := if negb (is_null data) then put_at m data (take (Z.to_nat width) bytes) else m in
                    encoded m (Some width) diagnostic TLV_OK
                end
      | _, _ => encoded m written diagnostic TLV_ERR_NULL_ARG
      end
  end.

Definition tlv_number_codec (config : option tlv_number_codec_config_t) : tlv_codec_t Z :=
  mk_codec (Some (tlv_number_decode config)) (Some (tlv_number_encode config)).

(** ** The reference *)

(** Digits to a base, most significant first. *)
Fixpoint base_digits (base : Z) (n : nat) (v : Z) : list Z :=
  match n with O => [] | S n => base_digits base n (v / base) ++ [v mod base] end.

(** The fewest digits that hold [v]. *)
Definition digits_needed (radix v : Z) : Z := width_loop 10 radix v 1.

Definition bcd_octet (pair : Z) : Z := pair / 10 * 16 + pair mod 10.

Definition number_width (config : tlv_number_codec_config_t) (v : Z) : Z :=
  if config.(nc_width) =? 0 then digits_needed (if is_bcd config then 100 else 256) v else config.(nc_width).

(** [v] in [n] octets, when they and the digits of the configuration hold it. *)
Definition number_octets (config : tlv_number_codec_config_t) (n v : Z) : option (list Z) :=
  match config.(nc_encoding) with
  | TLV_NUMBER_BCD =>
      if (v <? 10 ^ config.(nc_digits)) && (v <? 100 ^ n) then Some (map bcd_octet (base_digits 100 (Z.to_nat n) v)) else None
  | TLV_NUMBER_BINARY_BE => if v <? 256 ^ n then Some (be_bytes (Z.to_nat n) v) else None
  | _ => if v <? 256 ^ n then Some (le_bytes (Z.to_nat n) v) else None
  end.

Definition number_wire (config : tlv_number_codec_config_t) (v : Z) : option (list Z) :=
  number_octets config (number_width config v) v.

(** A configuration the codec accepts, its width a [size_t]. *)
Definition number_config_ok (config : tlv_number_codec_config_t) : Prop :=
  number_valid_config config = true /\ 0 <= config.(nc_width).

(** * Laws of the number codec: the width loop, packed decimal, and the round trip *)

(** ** The width loop *)

Lemma width_loop_spec fuel radix v width : 2 <= radix -> 0 <= v < radix ^ (Z.of_nat fuel + 1) ->
  exists k, 0 <= k <= Z.of_nat fuel /\ width_loop fuel radix v width = width + k /\ v < radix ^ (k + 1) /\
    (k = 0 \/ radix ^ k <= v).
Proof.
  intros Hr. revert v width. induction fuel as [|fuel IH]; intros v width Hv; cbn [width_loop].
  { exists 0. repeat split; lia. }
  destruct (Z.leb_spec radix v) as [Hle|Hgt].
  - rewrite Nat2Z.inj_succ, <- Z.add_1_r, (Z.pow_add_r radix _ 1), Z.pow_1_r in Hv by lia.
    destruct (IH (v / radix) (width + 1)) as (k & Hk & -> & Hu & Hl).
    { split; [apply Z.div_pos; lia|]. apply Z.div_lt_upper_bound; lia. }
    exists (k + 1). rewrite (Z.pow_add_r radix (k + 1) 1), Z.pow_1_r by lia.
    pose proof (Z.mul_div_le v radix ltac:(lia)) as Hd. pose proof (Z.mul_succ_div_gt v radix ltac:(lia)) as Hd2.
    split; [lia|]. split; [lia|]. split; [nia|]. right. rewrite Z.pow_add_r, Z.pow_1_r by lia.
    destruct Hl as [->|Hl]; [rewrite Z.pow_0_r; lia|nia].
  - exists 0. rewrite Z.pow_1_r. repeat split; try lia.
Qed.

Lemma digits_needed_spec radix v : radix = 100 \/ radix = 256 -> 0 <= v <= UINT64_MAX ->
  let w := digits_needed radix v in
  1 <= w <= 10 /\ v < radix ^ w /\ (w = 1 \/ radix ^ (w - 1) <= v).
Proof.
  intros Hr Hv. cbv zeta. unfold digits_needed.
  destruct (width_loop_spec 10 radix v 1) as (k & Hk & -> & Hu & Hl).
  { destruct Hr as [-> | ->]; lia. }
  { destruct Hr as [-> | ->]; [change (100 ^ (Z.of_nat 10 + 1)) with 10000000000000000000000|
      change (256 ^ (Z.of_nat 10 + 1)) with 309485009821345068724781056]; lia. }
  replace (1 + k - 1) with k by lia. rewrite (Z.add_comm 1 k). split.
  { destruct (Z.eq_dec k 10) as [->|]; [|lia]. destruct Hl as [Hl|Hl]; [done|exfalso].
    destruct Hr as [-> | ->]; [change (100 ^ 10) with 100000000000000000000 in Hl|change (256 ^ 10) with 1208925819614629174706176 in Hl]; lia. }
  split; [done|].
  destruct Hl as [->|]; auto.
Qed.

(** A width that holds the value is at least the number of digits. *)
Lemma digits_needed_least radix v n : radix = 100 \/ radix = 256 -> 0 <= v <= UINT64_MAX -> 1 <= n ->
  (digits_needed radix v <= n <-> v < radix ^ n).
Proof.
  intros Hr Hv Hn. pose proof (digits_needed_spec radix v Hr Hv) as (Hw & Hu & Hl).
  assert (2 <= radix) as H2 by (destruct Hr as [-> | ->]; lia). split; intros H.
  - eapply Z.lt_le_trans; [exact Hu|]. apply Z.pow_le_mono_r; lia.
  - destruct Hl as [->|Hl]; [lia|]. apply Z.nlt_ge. intros Hc.
    assert (radix ^ n <= radix ^ (digits_needed radix v - 1)) by (apply Z.pow_le_mono_r; lia). lia.
Qed.

(** ** Packed decimal *)

Lemma bcd_octet_lor pair : 0 <= pair < 100 ->
  u8 (Z.lor (Z.shiftl (pair / 10) 4) (pair mod 10)) = bcd_octet pair.
Proof.
  intros H.
  assert (implb (pair <? 100) (u8 (Z.lor (Z.shiftl (pair / 10) 4) (pair mod 10)) =? bcd_octet pair) = true) as E.
  { apply (octets_decide (fun pair => implb (pair <? 100) (u8 (Z.lor (Z.shiftl (pair / 10) 4) (pair mod 10)) =? bcd_octet pair)));
      [vm_compute; reflexivity|lia]. }
  rewrite (proj2 (Z.ltb_lt pair 100)) in E by lia. cbn [implb] in E. lia.
Qed.

Lemma bcd_octet_digits pair : 0 <= pair < 100 ->
  is_byte (bcd_octet pair) /\ Z.shiftr (bcd_octet pair) 4 = pair / 10 /\ Z.land (bcd_octet pair) 15 = pair mod 10.
Proof.
  intros H. unfold bcd_octet, is_byte.
  assert (0 <= pair / 10 < 10 /\ 0 <= pair mod 10 < 10) as [H1 H2].
  { pose proof (Z.mod_pos_bound pair 10). pose proof (Z.div_pos pair 10). pose proof (Z.div_lt_upper_bound pair 10 10). lia. }
  split; [lia|]. rewrite Z.shiftr_div_pow2 by lia. change 15 with (2 ^ 4 - 1). rewrite land_ones_mod by lia. change (2 ^ 4) with 16. split.
  - rewrite Z.add_comm, Z.div_add, Z.div_small by lia. lia.
  - rewrite Z.add_comm, Z.mod_add, Z.mod_small by lia. lia.
Qed.

Lemma length_base_digits base n v : length (base_digits base n v) = n.
Proof. revert v. induction n; intros v; [done|]. cbn [base_digits]. rewrite length_app, IHn. cbn. lia. Qed.

Lemma base_digits_range base n v : 0 < base -> Forall (fun d => 0 <= d < base) (base_digits base n v).
Proof.
  intros Hb. revert v. induction n as [|n IH]; intros v; [constructor|]. cbn [base_digits].
  apply Forall_app. split; [apply IH|]. constructor; [|constructor]. apply Z.mod_pos_bound. lia.
Qed.

(** The value of a digit string. *)
Definition base_value (base : Z) (l : list Z) (acc : Z) : Z := fold_left (fun acc d => acc * base + d) l acc.

Lemma base_value_digits base n v : 0 < base -> base_value base (base_digits base n v) 0 = v mod base ^ Z.of_nat n.
Proof.
  intros Hb. revert v. induction n as [|n IH]; intros v.
  - cbn. now rewrite Z.mod_1_r.
  - cbn [base_digits]. unfold base_value in *. rewrite fold_left_app. cbn [fold_left]. rewrite IH.
    rewrite Nat2Z.inj_succ, Z.pow_succ_r, Z.rem_mul_r by lia. lia.
Qed.

Lemma base_value_bound base l : 0 < base -> Forall (fun d => 0 <= d < base) l ->
  0 <= base_value base l 0 < base ^ zlen l.
Proof.
  intros Hb. induction l as [|d l IH] using rev_ind; intros Hl.
  - cbn. lia.
  - apply Forall_app in Hl as [Hl Hd]. apply Forall_inv in Hd. specialize (IH Hl). unfold base_value in *.
    rewrite fold_left_app, length_app. cbn [fold_left length]. rewrite Nat2Z.inj_add, Z.pow_add_r by lia.
    change (base ^ Z.of_nat 1) with (base ^ 1). rewrite Z.pow_1_r. nia.
Qed.

(** The encoder's loop fills the first octets, last first. *)
Lemma bcd_encode_octets i v l : (i <= length l)%nat ->
  bcd_encode_loop i l v = map bcd_octet (base_digits 100 i v) ++ drop i l.
Proof.
  revert v l. induction i as [|i IH]; intros v l Hi; [cbn [bcd_encode_loop base_digits map app]; now rewrite drop_0|].
  cbn [bcd_encode_loop base_digits]. rewrite IH by (rewrite length_insert; lia).
  rewrite bcd_octet_lor by (apply Z.mod_pos_bound; lia).
  rewrite map_app, <- app_assoc. f_equal. cbn [map app].
  rewrite insert_take_drop, drop_app_length' by (rewrite ?length_take; lia). done.
Qed.

(** The decoder's loop, when no digit is invalid and nothing overflows. *)
Lemma bcd_decode_digits m data l i acc : Forall (fun d => 0 <= d < 100) l -> 0 <= i -> 0 <= acc ->
  (acc + 1) * 100 ^ zlen l <= 18446744073709551616 ->
  bytes_of m (data +p i) (zlen l) = map bcd_octet l ->
  bcd_decode_loop (length l) m data i acc = Some (base_value 100 l acc).
Proof.
  revert i acc. induction l as [|d l IH]; intros i acc Hl Hi Ha Hov Hb; [done|].
  apply Forall_cons_1 in Hl as [Hd Hl]. destruct (bcd_octet_digits d Hd) as (_ & Hhi & Hlo).
  rewrite <- (Nat2Z.id (length (d :: l))) in Hb. change (length (d :: l)) with (S (length l)) in *.
  rewrite Nat2Z.id in Hb. rewrite Nat2Z.inj_succ in Hb, Hov. rewrite <- Z.add_1_l in Hb.
  rewrite Z.pow_succ_r in Hov by lia.
  rewrite bytes_of_cons in Hb by lia. cbn [map] in Hb. injection Hb as Hb0 Hb.
  assert (0 < 100 ^ zlen l) as Hp by (apply Z.pow_pos_nonneg; lia).
  assert (0 <= d / 10 < 10 /\ 0 <= d mod 10 < 10 /\ d = 10 * (d / 10) + d mod 10) as (H1 & H2 & H3).
  { pose proof (Z.mod_pos_bound d 10). pose proof (Z.div_pos d 10). pose proof (Z.div_lt_upper_bound d 10 10).
    pose proof (Z.div_mod d 10). lia. }
  cbn [bcd_decode_loop]. rewrite ld_padd, Z.add_0_r in Hb0. rewrite Hb0, Hhi, Hlo.
  rewrite (proj2 (Z.ltb_ge 9 (d / 10))), (proj2 (Z.ltb_ge 9 (d mod 10))) by lia. cbn [orb].
  rewrite u64_small by nia. rewrite IH; [|done|lia|lia|nia|].
  - unfold base_value. cbn [fold_left]. replace (acc * 100 + d) with (acc * 100 + d / 10 * 10 + d mod 10) by lia. done.
  - now rewrite padd_padd in Hb.
Qed.

Lemma decimal_limit_pow digits : 1 <= digits <= 18 -> decimal_limit digits = 10 ^ digits - 1.
Proof.
  intros H. assert (forallb (fun d => implb ((1 <=? d) && (d <=? 18)) (decimal_limit d =? 10 ^ d - 1)) (seqZ 0 19) = true) as E
    by (vm_compute; reflexivity).
  rewrite forallb_forall in E. specialize (E digits). assert (In digits (seqZ 0 19)) as Hi
    by (apply list_elem_of_In, elem_of_seqZ; lia).
  specialize (E Hi). rewrite (proj2 (Z.leb_le 1 digits)), (proj2 (Z.leb_le digits 18)) in E by lia. cbn in E. lia.
Qed.

(** ** Configurations *)

Lemma config_cases config : number_config_ok config ->
  (is_bcd config = true /\ config.(nc_encoding) = TLV_NUMBER_BCD /\ 0 <= config.(nc_width) <= 9 /\
     1 <= config.(nc_digits) <= 18) \/
  (is_bcd config = false /\ order_bad (number_order config) = false /\ 0 <= config.(nc_width) <= 8 /\
     forall n v, number_octets config n v = if v <? 256 ^ n then
       Some (if order_is (number_order config) TLV_BYTE_ORDER_BIG_ENDIAN then be_bytes (Z.to_nat n) v
             else le_bytes (Z.to_nat n) v) else None).
Proof.
  intros [Hv Hw]. unfold number_valid_config, is_bcd, number_order, number_octets in *.
  destruct (nc_encoding config); [right|right|left|done]; repeat split; try zlia; done.
Qed.

(** The largest width of an encoding. *)
Definition max_width (config : tlv_number_codec_config_t) : Z := if is_bcd config then 9 else 8.

Lemma number_width_range config v w : number_config_ok config -> 0 <= v <= UINT64_MAX -> number_wire config v = Some w ->
  1 <= number_width config v <= max_width config.
Proof.
  intros Hc Hv. unfold number_wire, number_width, max_width.
  destruct (config_cases config Hc) as [(-> & He & Hw & Hd)|(-> & _ & Hw & Ho)].
  - unfold number_octets. rewrite He. destruct (Z.eqb_spec (nc_width config) 0) as [_|]; [|lia].
    destruct (Z.ltb_spec v (10 ^ nc_digits config)) as [Hlt|]; [|done]. intros _.
    pose proof (digits_needed_spec 100 v (or_introl eq_refl) Hv) as [? _]. split; [lia|].
    apply digits_needed_least; [auto|done|lia|].
    assert (10 ^ nc_digits config <= 10 ^ 18) by (apply Z.pow_le_mono_r; lia).
    change (10 ^ 18) with 1000000000000000000 in *. change (100 ^ 9) with 1000000000000000000. lia.
  - intros _. destruct (Z.eqb_spec (nc_width config) 0) as [_|]; [|lia].
    pose proof (digits_needed_spec 256 v (or_intror eq_refl) Hv) as [? _]. split; [lia|].
    apply digits_needed_least; [auto|done|lia|]. change (256 ^ 8) with 18446744073709551616. lia.
Qed.

Lemma number_octets_ok config n v w : number_config_ok config -> 0 <= n -> number_octets config n v = Some w ->
  bytes w /\ zlen w = n.
Proof.
  intros Hc Hn. destruct (config_cases config Hc) as [(_ & He & _ & _)|(_ & _ & _ & ->)].
  - unfold number_octets. rewrite He. destruct (_ && _); [|done]. intros [= <-].
    rewrite length_map, length_base_digits. split; [|lia].
    apply Forall_map. eapply list.Forall_impl; [apply (base_digits_range 100); lia|]. intros d Hd. now apply bcd_octet_digits.
  - destruct (_ <? _); [|done]. intros [= <-].
    destruct (order_is _ _); rewrite ?length_be_bytes, ?length_le_bytes;
      (split; [apply be_bytes_bytes || apply le_bytes_bytes|lia]).
Qed.

(** ** Encoding *)

Lemma number_bytes_octets config n v : number_config_ok config -> 0 <= v <= UINT64_MAX -> 1 <= n <= max_width config ->
  (is_bcd config = true -> v < 10 ^ config.(nc_digits)) ->
  v < (if is_bcd config then 100 else 256) ^ n ->
  exists w bs, number_octets config n v = Some w /\ number_bytes config n v = Some bs /\ take (Z.to_nat n) bs = w.
Proof.
  intros Hc Hv Hn Hd Hr. unfold number_bytes, max_width in *.
  destruct (config_cases config Hc) as [(E & He & _ & _)|(E & Ho & _ & Hw)]; rewrite E in *.
  - unfold number_octets. rewrite He, (proj2 (Z.ltb_lt v (10 ^ _))), (proj2 (Z.ltb_lt v (100 ^ n))) by auto.
    eexists _, _. split; [reflexivity|]. split; [reflexivity|].
    rewrite bcd_encode_octets by (rewrite length_replicate; lia).
    rewrite take_app_le, take_ge; rewrite ?length_map, ?length_base_digits; done.
  - rewrite Hw, (proj2 (Z.ltb_lt v _)) by done.
    pose proof (write_uint_cases (mem_of 0 (replicate 9 0)) (Ptr 0 0) n _ v ltac:(done) Hn Ho Hv) as Hu.
    rewrite (proj2 (Z.ltb_lt v _)) in Hu by done. destruct Hu as (m' & -> & _ & Hf). rewrite is_ok_OK.
    eexists _, _. split; [reflexivity|]. split; [reflexivity|].
    transitivity (bytes_of m' (Ptr 0 0) n).
    { replace 9 with (n + (9 - n)) by lia. rewrite bytes_of_app by lia.
      apply take_app_length'. now rewrite length_bytes_of. }
    destruct (order_is _ _).
    + rewrite <- Hf. now rewrite field_octets_big.
    + rewrite field_octets_little in Hf by lia. apply (f_equal (@rev Z)) in Hf. unfold be_bytes in Hf.
      now rewrite !rev_involutive in Hf.
Qed.

(** The encoder: exactly the octets of the reference, or a refusal. *)
Lemma number_encode_wire config m v data capacity w0 dg : number_config_ok config -> 0 <= v <= UINT64_MAX ->
  is_null data = false \/ capacity = 0 ->
  tlv_number_encode (Some config) m (Some v) 8 data capacity (Some w0) dg =
  let dg := tlv_codec_diagnostic_init dg (codec_operation data) in
  match number_wire config v with
  | None => encoded m (Some 0) dg TLV_ERR_INVALID_VALUE
  | Some w =>
      if negb (is_null data) && (capacity <? zlen w) then encoded m (Some 0) dg TLV_ERR_BUFFER_TOO_SHORT
      else encoded (if negb (is_null data) then put_at m data w else m) (Some (zlen w)) dg TLV_OK
  end.
Proof.
  intros Hc Hv Hn. pose proof Hc as [Hvc Hw0]. unfold tlv_number_encode. cbv zeta.
  replace (is_null data && negb (capacity =? 0)) with false by (destruct Hn as [->| ->]; [done|now rewrite andb_false_r]).
  rewrite Hvc. change (8 =? 8) with true. cbn [negb].
  set (radix := if is_bcd config then 100 else 256). fold (digits_needed radix v).
  assert (radix = 100 \/ radix = 256) as Hradix by (subst radix; destruct (is_bcd config); auto).
  pose proof (digits_needed_spec radix v Hradix Hv) as (Hdn & Hup & _).
  assert (is_bcd config && (decimal_limit (nc_digits config) <? v) = is_bcd config && negb (v <? 10 ^ nc_digits config)) as ->.
  { destruct (config_cases config Hc) as [(-> & _ & _ & Hd)|(-> & _)]; [|done]. rewrite decimal_limit_pow by done. zlia. }
  destruct (is_bcd config && negb (v <? 10 ^ nc_digits config)) eqn:Ed.
  { destruct (config_cases config Hc) as [(E & He & _ & _)|(E & _)]; rewrite E in Ed; [|done]. cbn [andb] in Ed.
    unfold number_wire, number_octets. rewrite He. now destruct (v <? 10 ^ nc_digits config). }
  assert (is_bcd config = true -> v < 10 ^ nc_digits config) as Hd by (intros E; rewrite E in Ed; zlia).
  destruct (negb (nc_width config =? 0) && (nc_width config <? digits_needed radix v)) eqn:Ew.
  { assert (nc_width config <> 0 /\ nc_width config < digits_needed radix v) as [H0 H1] by zlia.
    assert (radix ^ nc_width config <= v) as Hbig.
    { apply Z.nlt_ge. intros H. apply (digits_needed_least radix v (nc_width config) Hradix Hv ltac:(lia)) in H. lia. }
    unfold number_wire, number_width. rewrite (proj2 (Z.eqb_neq _ 0)) by done. subst radix.
    destruct (config_cases config Hc) as [(E & He & _ & _)|(E & _ & _ & Ho)]; rewrite E in Hbig.
    - unfold number_octets. rewrite He, (proj2 (Z.ltb_ge v (100 ^ _))), andb_false_r by done. done.
    - rewrite Ho, (proj2 (Z.ltb_ge v (256 ^ _))) by done. done. }
  replace (if negb (nc_width config =? 0) then nc_width config else digits_needed radix v) with (number_width config v)
    by (unfold number_width; now destruct (nc_width config =? 0)).
  assert (v < radix ^ number_width config v) as Hfit.
  { unfold number_width. fold radix. destruct (Z.eqb_spec (nc_width config) 0); [done|].
    cbn [negb andb] in Ew. apply digits_needed_least; [done|done|lia|lia]. }
  assert (exists w, number_wire config v = Some w) as [w Hw].
  { unfold number_wire. destruct (config_cases config Hc) as [(E & He & _ & _)|(E & _ & _ & Ho)]; subst radix; rewrite E in *.
    - unfold number_octets. rewrite He, (proj2 (Z.ltb_lt v (10 ^ _))), (proj2 (Z.ltb_lt v (100 ^ _))) by auto. eauto.
    - rewrite Ho, (proj2 (Z.ltb_lt v _)) by done. eauto. }
  pose proof (number_width_range config v w Hc Hv Hw) as Hr. rewrite Hw.
  destruct (number_bytes_octets config (number_width config v) v Hc Hv Hr Hd Hfit) as (w' & bs & Hw' & -> & Ht).
  unfold number_wire in Hw. rewrite Hw in Hw'. injection Hw' as <-.
  destruct (number_octets_ok config (number_width config v) v w Hc ltac:(lia) Hw) as [_ El].
  rewrite Ht, El. done.
Qed.

(** ** Decoding *)

(** The decoder's loop succeeds exactly on packed decimal. *)
Lemma bcd_decode_inv n m data i acc v : 0 <= i -> 0 <= acc -> (acc + 1) * 100 ^ Z.of_nat n <= 18446744073709551616 ->
  bcd_decode_loop n m data i acc = Some v ->
  exists l, length l = n /\ Forall (fun d => 0 <= d < 100) l /\ bytes_of m (data +p i) (Z.of_nat n) = map bcd_octet l /\
    v = base_value 100 l acc.
Proof.
  revert i acc. induction n as [|n IH]; intros i acc Hi Ha Hov; cbn [bcd_decode_loop].
  { intros [= <-]. exists []. done. }
  pose proof (ld_range m data i) as Hb. set (b := ld m data i) in *.
  assert (Z.shiftr b 4 = b / 16 /\ Z.land b 15 = b mod 16) as [-> ->].
  { split; [now rewrite Z.shiftr_div_pow2 by lia|exact (land_ones_mod b 4 ltac:(lia))]. }
  assert (b = 16 * (b / 16) + b mod 16) as Eb by (apply Z.div_mod; lia).
  pose proof (Z.mod_pos_bound b 16 ltac:(lia)) as Hm. assert (0 <= b / 16) as Hq by (apply Z.div_pos; lia).
  rewrite Nat2Z.inj_succ, Z.pow_succ_r in Hov by lia. assert (0 < 100 ^ Z.of_nat n) as Hp by (apply Z.pow_pos_nonneg; lia).
  destruct (_ || _) eqn:E; [done|]. assert (b / 16 <= 9 /\ b mod 16 <= 9) as [H1 H2] by zlia.
  rewrite u64_small by nia. intros H. apply IH in H as (l & Hl & Hf & Hby & ->); [|lia|lia|nia].
  exists (b / 16 * 10 + b mod 16 :: l). split; [cbn; lia|]. split; [constructor; [lia|done]|]. split.
  - rewrite Nat2Z.inj_succ, <- Z.add_1_l, bytes_of_cons, ld_padd, Z.add_0_r by lia. rewrite padd_padd, Hby. cbn [map].
    f_equal. fold b. unfold bcd_octet. rewrite Z.div_add_l, (Z.div_small (b mod 16)) by lia.
    rewrite (Z.add_comm (b / 16 * 10)), Z.mod_add, (Z.mod_small (b mod 16)) by lia. lia.
  - unfold base_value. cbn [fold_left]. f_equal. lia.
Qed.

Lemma base_digits_value l : Forall (fun d => 0 <= d < 100) l -> base_digits 100 (length l) (base_value 100 l 0) = l.
Proof.
  induction l as [|d l IH] using rev_ind; intros Hl; [done|]. apply Forall_app in Hl as [Hl Hd]. apply Forall_inv in Hd.
  rewrite length_app, Nat.add_1_r. cbn [length base_digits]. unfold base_value in *. rewrite fold_left_app. cbn [fold_left].
  rewrite Z.div_add_l, (Z.div_small d), Z.add_0_r, IH by (done || lia). do 2 f_equal.
  rewrite Z.add_comm, Z.mod_add, Z.mod_small by lia. done.
Qed.

(** What the decoder of octets in memory computes. *)
Definition number_read (config : tlv_number_codec_config_t) (m : mem) (data : ptr) (size : Z) : option Z :=
  if is_bcd config then
    match bcd_decode_loop (Z.to_nat size) m data 0 0 with
    | Some number => if decimal_limit config.(nc_digits) <? number then None else Some number
    | None => None
    end
  else
    let '(rc, number) := tlv_read_uint m data size (number_order config) (Some 0) in
    if is_ok rc then number else None.

Lemma number_read_spec config m data size v : number_config_ok config -> data <> NULL -> 1 <= size <= max_width config ->
  number_read config m data size = Some v <->
  0 <= v <= UINT64_MAX /\ number_octets config size v = Some (bytes_of m data size).
Proof.
  intros Hc Hd Hs. unfold number_read, max_width in *.
  destruct (config_cases config Hc) as [(E & He & _ & Hdig)|(E & Ho & _ & Hw)]; rewrite E in *.
  - assert (100 ^ size <= 100 ^ 9) as Hp by (apply Z.pow_le_mono_r; lia). change (100 ^ 9) with 1000000000000000000 in Hp.
    rewrite decimal_limit_pow by done. unfold number_octets. rewrite He. split.
    + destruct (bcd_decode_loop (Z.to_nat size) m data 0 0) as [x|] eqn:Eb; [|done].
      apply bcd_decode_inv in Eb as (l & Hl & Hf & Hby & ->); [|lia|lia|rewrite Z2Nat.id; lia]. rewrite padd_0, Z2Nat.id in Hby by lia.
      destruct (Z.ltb_spec (10 ^ nc_digits config - 1) (base_value 100 l 0)) as [|Hle]; [done|]. intros [= <-].
      pose proof (base_value_bound 100 l ltac:(lia) Hf) as Hv. rewrite Hl, Z2Nat.id in Hv by lia. split; [lia|].
      rewrite (proj2 (Z.ltb_lt _ (10 ^ _))), (proj2 (Z.ltb_lt _ (100 ^ size))) by lia. cbn [andb].
      rewrite Hby, <- Hl, base_digits_value by done. done.
    + intros [Hv H]. destruct ((v <? 10 ^ nc_digits config) && (v <? 100 ^ size)) eqn:Ef; [|done]. injection H as H.
      pose proof (bcd_decode_digits m data (base_digits 100 (Z.to_nat size) v) 0 0 (base_digits_range 100 _ v ltac:(lia))) as Hdec.
      rewrite length_base_digits, Z2Nat.id, padd_0 in Hdec by lia. rewrite Hdec by (lia || done).
      rewrite base_value_digits, Z2Nat.id, Z.mod_small by zlia. now replace (10 ^ nc_digits config - 1 <? v) with false by zlia.
  - rewrite read_uint_value by done. rewrite is_ok_OK, Hw. set (big := order_is (number_order config) TLV_BYTE_ORDER_BIG_ENDIAN).
    assert (256 ^ size <= 256 ^ 8) as Hp by (apply Z.pow_le_mono_r; lia). change (256 ^ 8) with 18446744073709551616 in Hp.
    split.
    + intros [= <-]. pose proof (be_value_octets_range m data size big ltac:(lia)) as Hr. split; [lia|].
      rewrite (proj2 (Z.ltb_lt _ _)) by lia. f_equal.
      pose proof (be_bytes_be_value _ (field_octets_bytes m data size big)) as Hbe. rewrite length_field_octets in Hbe.
      destruct big; [exact Hbe|]. rewrite field_octets_little in * by lia. unfold be_bytes in Hbe.
      apply (f_equal (@rev Z)) in Hbe. now rewrite !rev_involutive in Hbe.
    + intros [Hv H]. destruct (Z.ltb_spec v (256 ^ size)) as [Hlt|]; [|done]. injection H as H. f_equal.
      rewrite <- (Z2Nat.id size) at 1 by lia. apply read_field; [lia|rewrite Z2Nat.id; lia|now rewrite Z2Nat.id by lia].
Qed.

Lemma number_decode_read config m data size v0 capacity dg : number_config_ok config -> data <> NULL -> 0 <= size -> 8 <= capacity ->
  tlv_number_decode (Some config) m data size (Some v0) capacity dg =
  let dg := tlv_codec_diagnostic_init dg TLV_CODEC_OP_DECODE in
  if (1 <=? size) && (size <=? max_width config) && ((config.(nc_width) =? 0) || (size =? config.(nc_width))) then
    match number_read config m data size with
    | Some v => decoded m (Some v) dg TLV_OK
    | None => decoded m (Some v0) dg TLV_ERR_INVALID_VALUE
    end
  else decoded m (Some v0) dg TLV_ERR_INVALID_VALUE.
Proof.
  intros Hc Hd Hs Hcap. pose proof Hc as [Hvc _]. unfold tlv_number_decode, number_read, max_width.
  rewrite (data_null data Hd), Hvc, (proj2 (Z.ltb_ge capacity 8)) by done. cbv zeta. cbn [andb negb store].
  replace ((size =? 0) || ((if is_bcd config then 9 else 8) <? size) ||
           (negb (nc_width config =? 0) && negb (size =? nc_width config)))
    with (negb ((1 <=? size) && (size <=? (if is_bcd config then 9 else 8)) &&
                ((nc_width config =? 0) || (size =? nc_width config)))).
  2: { destruct (is_bcd config), (nc_width config =? 0), (size =? nc_width config); cbn [negb andb orb]; zlia. }
  now destruct (_ && _).
Qed.

(** The decoder gives a number exactly for its octets in their own width. *)
Lemma number_decode_exact config m data size v v0 dg : number_config_ok config -> 0 <= v <= UINT64_MAX -> data <> NULL -> 0 <= size ->
  let '(rc, m', value, _) := tlv_number_decode (Some config) m data size (Some v0) 8 dg in
  m' = m /\ (rc = TLV_OK \/ rc = TLV_ERR_INVALID_VALUE) /\
  ((rc = TLV_OK /\ value = Some v) <->
   1 <= size <= max_width config /\ (config.(nc_width) = 0 \/ size = config.(nc_width)) /\
   number_octets config size v = Some (bytes_of m data size)).
Proof.
  intros Hc Hv Hd Hs. rewrite number_decode_read by (done || lia). cbv zeta.
  destruct ((1 <=? size) && (size <=? max_width config) && ((nc_width config =? 0) || (size =? nc_width config))) eqn:Eg.
  + pose proof (number_read_spec config m data size v Hc Hd ltac:(zlia)) as Hspec.
    destruct (number_read config m data size) as [x|]; unfold decoded; (split; [done|]); (split; [auto|]); split.
    * intros [_ [= ->]]. destruct (proj1 Hspec eq_refl) as [_ ->]. repeat split; zlia.
    * intros (_ & _ & Ho). split; [done|]. f_equal. assert (Some x = Some v) as [= ->]; [|done]. now apply Hspec.
    * intros [[=] _].
    * intros (_ & _ & Ho). assert (None = Some v) as [=]. now apply Hspec.
  + unfold decoded. split; [done|]. split; [auto|]. split; [intros [[=] _]|]. intros (Hsz & Hwd & _). zlia.
Qed.

(** ** The codec as an implementation of the interface *)

#[export] Instance number_lawful config (Hc : number_config_ok config) : ValueCodec (tlv_number_codec (Some config)) Z.
Proof.
  refine {| vc_size := 8; vc_content := fun _ x => x;
            vc_wire := fun v => if (0 <=? v) && (v <=? UINT64_MAX) then number_wire config v else None; vc_ok := fun _ => True;
            vc_apart := fun _ _ _ => True; vc_encode_fn := tlv_number_encode (Some config);
            vc_decode_fn := tlv_number_decode (Some config) |}; try reflexivity.
  - intros m x w w0 dg _ Hw. destruct (_ && _) eqn:E; [|done].
    rewrite number_encode_wire by (done || zlia || now right). cbv zeta. rewrite Hw. eexists. reflexivity.
  - intros m x w data capacity w0 dg _ Hw Hd Hcap _. destruct (_ && _) eqn:E; [|done].
    pose proof (number_width_range config x w Hc ltac:(zlia) Hw) as Hr.
    destruct (number_octets_ok config (number_width config x) x w Hc ltac:(lia) Hw) as [Hb _].
    rewrite number_encode_wire by (done || zlia || now left; apply data_null). cbv zeta.
    rewrite Hw, (data_null data Hd), (proj2 (Z.ltb_ge capacity _)) by lia. cbn [negb andb].
    eexists _, _. split; [reflexivity|]. split; [apply put_at_only|now apply bytes_of_put_at].
  - intros m y w data v0 capacity dg Hw Hd Hb Hcap. destruct (_ && _) eqn:E; [|done].
    pose proof (number_width_range config y w Hc ltac:(zlia) Hw) as Hr.
    destruct (number_octets_ok config (number_width config y) y w Hc ltac:(lia) Hw) as [_ Hl].
    rewrite number_decode_read by (done || lia). cbv zeta.
    rewrite (proj2 (number_read_spec config m data (zlen w) y Hc Hd ltac:(lia))) by (rewrite Hb, Hl; split; [zlia|exact Hw]).
    replace ((1 <=? zlen w) && (zlen w <=? max_width config) && ((nc_width config =? 0) || (zlen w =? nc_width config)))
      with true by (rewrite Hl in *; unfold number_width in *; destruct (nc_width config =? 0); zlia).
    eexists _, _. split; [reflexivity|done].
Defined.

(** ** Theorems *)

(** C40. A configured number codec is exact.  The encoder writes the octets of the reference, of the
    configured width or the fewest that hold the number, or refuses a number that does not fit without
    touching memory; the decoder accepts exactly the strings that are the octets of a number in their
    own width, and gives that number. *)
Theorem number_codec_exact (config : tlv_number_codec_config_t) (m : mem) (v : Z) (data : ptr) (size capacity v0 w0 : Z)
  (dg dg' : option tlv_codec_diagnostic_t) (Hc : number_config_ok config) (Hv : 0 <= v <= UINT64_MAX) (Hd : data <> NULL)
  (Hs : 0 <= size) :
  (let '(rc, m', written, _) := tlv_number_encode (Some config) m (Some v) 8 data capacity (Some w0) dg in
   match number_wire config v with
   | None => rc = TLV_ERR_INVALID_VALUE /\ m' = m /\ written = Some 0
   | Some w =>
       zlen w = number_width config v /\
       (config.(nc_width) = 0 ->
          forall n, 1 <= n -> v < (if is_bcd config then 100 else 256) ^ n -> zlen w <= n) /\
       (capacity < zlen w -> rc = TLV_ERR_BUFFER_TOO_SHORT /\ m' = m) /\
       (zlen w <= capacity ->
          rc = TLV_OK /\ written = Some (zlen w) /\ only_changes m m' data (zlen w) /\ bytes_of m' data (zlen w) = w)
   end) /\
  (let '(rc, m', value, _) := tlv_number_decode (Some config) m data size (Some v0) 8 dg' in
   m' = m /\ (rc = TLV_OK \/ rc = TLV_ERR_INVALID_VALUE) /\
   ((rc = TLV_OK /\ value = Some v) <->
    1 <= size <= max_width config /\ (config.(nc_width) = 0 \/ size = config.(nc_width)) /\
    number_octets config size v = Some (bytes_of m data size))).
Proof.
  split.
  - rewrite number_encode_wire by (done || now left; apply data_null). cbv zeta. rewrite (data_null data Hd). cbn [negb andb].
    destruct (number_wire config v) as [w|] eqn:Hw; [|done].
    pose proof (number_width_range config v w Hc Hv Hw) as Hr.
    destruct (number_octets_ok config (number_width config v) v w Hc ltac:(lia) Hw) as [Hb Hl].
    destruct (Z.ltb_spec capacity (zlen w)); unfold encoded; repeat split; try done; try lia;
      try (now apply put_at_only); try (now apply bytes_of_put_at); try (intros ?; lia).
    all: intros Hz n Hn Hfit; rewrite Hl; unfold number_width; rewrite Hz; cbn [Z.eqb];
      apply digits_needed_least; (done || (destruct (is_bcd config); auto)).
  - now apply number_decode_exact.
Qed.

Definition bcd_example : tlv_number_codec_config_t := mk_number_config TLV_NUMBER_BCD 3 5.

Lemma number_codec_exact_witness :
  number_wire bcd_example 12345 = Some [1; 35; 69] /\ number_wire bcd_example 100000 = None /\
  fst (fst (fst (tlv_number_encode (Some bcd_example) (mem_of 1 [0; 0; 0]) (Some 12345) 8 (Ptr 1 0) 3 (Some 0) None))) = TLV_OK.
Proof.
  split; [reflexivity|]. split; [reflexivity|].
  pose proof (number_codec_exact bcd_example (mem_of 1 [0; 0; 0]) 12345 (Ptr 1 0) 3 3 0 0 None None
    ltac:(split; [reflexivity|done]) ltac:(lia) ltac:(done) ltac:(lia)) as [H _].
  destruct (tlv_number_encode _ _ _ _ _ _ _ _) as [[[rc m'] written] dg']. cbv beta iota zeta in H.
  change (number_wire bcd_example 12345) with (Some [1; 35; 69]) in H. cbv iota in H.
  now destruct H as (_ & _ & _ & H); apply H.
Defined.
