(* ===== verification/Text.v ===== *)
(** * Text and IPv4 codecs (codec/text.h, src/codec/text.c, codec/ipv4.h, src/codec/ipv4.c)

    Borrowed text of a fixed alphabet, of variable or fixed width with zero padding; addresses of four
    octets and borrowed lists of them. *)

From S2P Require Import Prelude Mem Core Endian Diagnostic Reader Codec Values ValuesLaws.

(** ** Text *)

Inductive tlv_text_alphabet_t : Type :=
| TLV_TEXT_ASCII_PRINTABLE | TLV_TEXT_ASCII_ALNUM | TLV_TEXT_OTHER (n : Z).

#[export] Instance text_alphabet_eq_dec : EqDecision tlv_text_alphabet_t.
Proof. solve_decision. Defined.

Record tlv_text_codec_config_t := mk_text_config {
  tc_alphabet : tlv_text_alphabet_t; tc_width : Z; tc_zero_padding : Z }.

Definition text_valid_config (config : tlv_text_codec_config_t) : bool :=
  (bool_decide (config.(tc_alphabet) = TLV_TEXT_ASCII_PRINTABLE) || bool_decide (config.(tc_alphabet) = TLV_TEXT_ASCII_ALNUM)) &&
  ((config.(tc_zero_padding) =? 0) || (config.(tc_zero_padding) =? 1)).

(** The octets that the body of the loop of [valid_text] lets pass. *)
Definition in_alphabet (alphabet : tlv_text_alphabet_t) (c : Z) : bool :=
  if bool_decide (alphabet = TLV_TEXT_ASCII_PRINTABLE) then negb ((c <? 32) || (126 <? c))
  else ((65 <=? c) && (c <=? 90)) || ((97 <=? c) && (c <=? 122)) || ((48 <=? c) && (c <=? 57)).

Fixpoint valid_text_loop (n : nat) (config : tlv_text_codec_config_t) (m : mem) (data : ptr) (i : Z) : bool :=
  match n with
  | O => true
  | S n => in_alphabet config.(tc_alphabet) (ld m data i) && valid_text_loop n config m data (i + 1)
  end.
Definition valid_text (config : tlv_text_codec_config_t) (m : mem) (data : ptr) (size : Z) : bool :=
  valid_text_loop (Z.to_nat size) config m data 0.

(** [while (size && data[size - 1] == 0) --size;] *)
Fixpoint strip_loop (n : nat) (m : mem) (data : ptr) : Z :=
  match n with
  | O => 0
  | S n => if ld m data (Z.of_nat n) =? 0 then strip_loop n m data else Z.of_nat (S n)
  end.

Section Text.
Context `{Platform} `{ValueLayout}.

Definition tlv_text_decode (context : option tlv_text_codec_config_t) : codec_decode_fn tlv_value_t :=
  fun m data size value capacity diagnostic =>
  let diagnostic := tlv_codec_diagnostic_init diagnostic TLV_CODEC_OP_DECODE in
  match context, value with
  | Some config, Some _ =>
      if is_null data && negb (size =? 0) then decoded m value diagnostic TLV_ERR_NULL_ARG
      else if negb (text_valid_config config) then decoded m value diagnostic TLV_ERR_INVALID_ARG
      else if negb (config.(tc_width) =? 0) && negb (size =? config.(tc_width)) then
        decoded m value diagnostic TLV_ERR_INVALID_VALUE
      else
        let size := if negb (config.(tc_zero_padding) =? 0) then strip_loop (Z.to_nat size) m data else size in
        if negb (valid_text config m data size) then decoded m value diagnostic TLV_ERR_INVALID_VALUE
        else if capacity <? sizeof_value then decoded m value diagnostic TLV_ERR_BUFFER_TOO_SHORT
        else decoded m (store value (mk_value data size)) diagnostic TLV_OK
  | _, _ => decoded m value diagnostic TLV_ERR_NULL_ARG
  end.

Definition tlv_text_encode (context : option tlv_text_codec_config_t) : codec_encode_fn tlv_value_t :=
  fun m value size data capacity written diagnostic =>
  let diagnostic := tlv_codec_diagnostic_init diagnostic (codec_operation data) in
  match written with
  | None => encoded m written diagnostic TLV_ERR_NULL_ARG
  | Some _ =>
      let written := Some 0 in
      match context, value with
      | Some config, Some text =>
          if is_null data && negb (capacity =? 0) then encoded m written diagnostic TLV_ERR_NULL_ARG
          else if negb (text_valid_config config) then encoded m written diagnostic TLV_ERR_INVALID_ARG
          else if negb (size =? sizeof_value) then encoded m written diagnostic TLV_ERR_INVALID_VALUE
          else if is_null text.(v_data) && negb (text.(v_size) =? 0) then encoded m written diagnostic TLV_ERR_NULL_ARG
          else
            let '(rc, length) := tlv_size_to_native text.(v_size) (Some 0) in
            if negb (is_ok rc) then encoded m written diagnostic TLV_ERR_INVALID_VALUE
            else
              let length := cell 0 length in
              let bytes := if negb (config.(tc_zero_padding) =? 0) && (length <? config.(tc_width)) then config.(tc_width) else length in
              if (negb (config.(tc_width) =? 0) && negb (bytes =? config.(tc_width))) || negb (valid_text config m text.(v_data) length) then
                encoded m written diagnostic TLV_ERR_INVALID_VALUE
              else if negb (is_null data) && (capacity <? bytes) then encoded m written diagnostic TLV_ERR_BUFFER_TOO_SHORT
              else
                let m :=
                  if negb (is_null data) then
                    let m := if negb (length =? 0) then memcpy m data text.(v_data) length else m in
                    if length <? bytes then memset m (data +p length) 0 (bytes - length) else m
                  else m in
                encoded m (Some bytes) diagnostic TLV_OK
      | _, _ => encoded m written diagnostic TLV_ERR_NULL_ARG
      end
  end.

Definition tlv_text_codec (config : option tlv_text_codec_config_t) : tlv_codec_t tlv_value_t :=
  mk_codec (Some (tlv_text_decode config)) (Some (tlv_text_encode config)).
End Text.

(** ** IPv4 *)

(** [tlv_ipv4_t] is its [bytes]. *)
Definition decode_ipv4 : codec_decode_fn (list Z) := fun m data size value capacity diagnostic =>
  let diagnostic := tlv_codec_diagnostic_init diagnostic TLV_CODEC_OP_DECODE in
  if negb (size =? 4) then decoded m value diagnostic TLV_ERR_INVALID_VALUE
  else if capacity <? 4 then decoded m value diagnostic TLV_ERR_BUFFER_TOO_SHORT
  else decoded m (store value (bytes_of m data 4)) diagnostic TLV_OK.

Definition encode_ipv4 : codec_encode_fn (list Z) := fun m value size data capacity written diagnostic =>
  let diagnostic := tlv_codec_diagnostic_init diagnostic (codec_operation data) in
  if negb (size =? 4) then encoded m written diagnostic TLV_ERR_INVALID_VALUE
  else if negb (is_null data) && (capacity <? 4) then encoded m written diagnostic TLV_ERR_BUFFER_TOO_SHORT
  else
    let m := if negb (is_null data) then put_at m data (cell [] value) else m in
    encoded m (store written 4) diagnostic TLV_OK.

Definition tlv_codec_ipv4 : tlv_codec_t (list Z) := mk_codec (Some decode_ipv4) (Some encode_ipv4).

Record tlv_ipv4_list_t := mk_ipv4_list { il_raw : tlv_value_t }.

Section Ipv4List.
Context `{Platform} `{ValueLayout}.

(** The result, and what [length] then holds. *)
Definition validate_list (value : tlv_value_t) (length : Z) : tlv_result_t * Z :=
  if is_null value.(v_data) && negb (value.(v_size) =? 0) then (TLV_ERR_NULL_ARG, length)
  else
    let '(rc, native) := tlv_size_to_native value.(v_size) (Some length) in
    if negb (is_ok rc) || negb (cell length native mod 4 =? 0) then (TLV_ERR_INVALID_VALUE, cell length native)
    else (TLV_OK, cell length native).

Definition decode_ipv4_list : codec_decode_fn tlv_ipv4_list_t := fun m data size value capacity diagnostic =>
  let diagnostic := tlv_codec_diagnostic_init diagnostic TLV_CODEC_OP_DECODE in
  if negb (size mod 4 =? 0) then decoded m value diagnostic TLV_ERR_INVALID_VALUE
  else if capacity <? sizeof_value then decoded m value diagnostic TLV_ERR_BUFFER_TOO_SHORT
  else decoded m (store value (mk_ipv4_list (mk_value data size))) diagnostic TLV_OK.

Definition encode_ipv4_list : codec_encode_fn tlv_ipv4_list_t := fun m value size data capacity written diagnostic =>
  let diagnostic := tlv_codec_diagnostic_init diagnostic (codec_operation data) in
  if negb (size =? sizeof_value) then encoded m written diagnostic TLV_ERR_INVALID_VALUE
  else
    let input := cell (mk_ipv4_list empty_value) value in
    let '(rc, _) := validate_list input.(il_raw) 0 in
    if negb (is_ok rc) then encoded m written diagnostic rc
    else
      let '(rc, m, written, diagnostic) :=
        tlv_codec_encode (Some tlv_codec_bytes) m (Some input.(il_raw)) sizeof_value data capacity written diagnostic in
      encoded m written diagnostic rc.

Definition tlv_codec_ipv4_list : tlv_codec_t tlv_ipv4_list_t := mk_codec (Some decode_ipv4_list) (Some encode_ipv4_list).

Definition tlv_ipv4_list_at (m : mem) (addresses : option tlv_ipv4_list_t) (index : Z) (value : option (list Z))
  : tlv_result_t * option (list Z) :=
  match addresses, value with
  | Some l, Some _ =>
      let '(rc, length) := validate_list l.(il_raw) 0 in
      if negb (is_ok rc) then (rc, value)
      else if length / 4 <=? index then (TLV_ERR_INVALID_VALUE, value)
      else (TLV_OK, Some (bytes_of m (l.(il_raw).(v_data) +p usize (index * 4)) 4))
  | _, _ => (TLV_ERR_NULL_ARG, value)
  end.
End Ipv4List.

(** ** The laws of text *)

Lemma valid_text_bytes config m data size : 0 <= size ->
  valid_text config m data size = forallb (in_alphabet config.(tc_alphabet)) (bytes_of m data size).
Proof.
  intros Hs. unfold valid_text. assert (forall n i, valid_text_loop n config m data i =
    forallb (in_alphabet (tc_alphabet config)) (bytes_of m (data +p i) (Z.of_nat n))) as Hl.
  { intros n. induction n as [|n IH]; intros i; [done|]. cbn [valid_text_loop].
    replace (Z.of_nat (S n)) with (1 + Z.of_nat n) by lia. rewrite bytes_of_cons, padd_padd, ld_padd, Z.add_0_r, IH by lia. done. }
  rewrite Hl, padd_0, Z2Nat.id by done. done.
Qed.

(** Zeros behind a text that does not end in one are stripped. *)
Lemma strip_spec m data n k : bytes_of m (data +p Z.of_nat n) (Z.of_nat k) = replicate k 0 ->
  (n = 0%nat \/ ld m data (Z.of_nat n - 1) <> 0) -> strip_loop (n + k) m data = Z.of_nat n.
Proof.
  induction k as [|k IH]; intros Hz Hn.
  - rewrite Nat.add_0_r. destruct n as [|n]; [done|]. cbn [strip_loop]. destruct Hn as [Hn|Hn]; [done|].
    replace (Z.of_nat (S n) - 1) with (Z.of_nat n) in Hn by lia. now rewrite (proj2 (Z.eqb_neq _ _)).
  - rewrite Nat.add_succ_r. cbn [strip_loop]. replace (Z.of_nat (S k)) with (Z.of_nat k + 1) in Hz by lia.
    rewrite bytes_of_snoc, ld_padd, replicate_S_end in Hz by lia. apply app_inj_2 in Hz as [Hz Hl]; [|done]. injection Hl as Hl.
    replace (Z.of_nat (n + k)) with (Z.of_nat n + Z.of_nat k) by lia. rewrite Hl. now apply IH.
Qed.

Lemma in_alphabet_nonzero alphabet : in_alphabet alphabet 0 = false.
Proof. unfold in_alphabet. now destruct (bool_decide _). Qed.

(** What a text is encoded as. *)
Definition text_wire `{Platform} (config : tlv_text_codec_config_t) (l : list Z) : option (list Z) :=
  if negb (forallb (in_alphabet config.(tc_alphabet)) l) || (SIZE_MAX <? zlen l) then None
  else if (config.(tc_width) =? 0) || (zlen l =? config.(tc_width)) then Some l
  else if negb (config.(tc_zero_padding) =? 0) && (zlen l <? config.(tc_width)) then
    Some (l ++ replicate (Z.to_nat (config.(tc_width) - zlen l)) 0)
  else None.

(** A configuration the codec accepts; its width is a [size_t]. *)
Definition text_config_ok `{Platform} (config : tlv_text_codec_config_t) : Prop :=
  text_valid_config config = true /\ 0 <= config.(tc_width) <= SIZE_MAX.

Section TextLaws.
Context `{Platform} `{ValueLayout} (config : tlv_text_codec_config_t) (Hok : text_config_ok config).

Lemma text_wire_some l w : text_wire config l = Some w ->
  forallb (in_alphabet config.(tc_alphabet)) l = true /\ zlen l <= SIZE_MAX /\
  zlen w = (if negb (config.(tc_zero_padding) =? 0) && (zlen l <? config.(tc_width)) then config.(tc_width) else zlen l) /\
  (config.(tc_width) = 0 \/ zlen w = config.(tc_width)) /\
  w = l ++ replicate (Z.to_nat (zlen w - zlen l)) 0 /\ (config.(tc_zero_padding) = 0 -> w = l).
Proof using Hok.
  destruct Hok as [_ Hwidth]. unfold text_wire. destruct (negb (forallb _ l) || _) eqn:E1; [done|].
  apply orb_false_iff in E1 as [E1 E2]. apply negb_false_iff in E1. apply Z.ltb_ge in E2.
  destruct (_ || _) eqn:E3.
  - intros [= <-]. split; [done|]. split; [done|]. apply orb_true_iff in E3. rewrite !Z.eqb_eq in E3.
    rewrite (proj2 (Z.ltb_ge (zlen l) _)), andb_false_r by lia. split; [done|]. split; [lia|]. rewrite Z.sub_diag. cbn. now rewrite app_nil_r.
  - destruct (_ && _) eqn:E4; [|done]. intros [= <-]. apply andb_true_iff in E4 as [E4 E5]. apply Z.ltb_lt in E5.
    rewrite length_app, length_replicate. split; [done|]. split; [done|]. split; [lia|]. split; [lia|]. split; [do 2 f_equal; lia|].
    intros Hp. now rewrite Hp in E4.
Qed.

(** The memory after an encoding: the text, and zeros behind it. *)
Definition text_written (m : mem) (x : tlv_value_t) (data : ptr) (n : Z) : mem :=
  let m := if negb (x.(v_size) =? 0) then memcpy m data x.(v_data) x.(v_size) else m in
  if x.(v_size) <? n then memset m (data +p x.(v_size)) 0 (n - x.(v_size)) else m.

Lemma text_encode_run m x w data capacity w0 dg : value_ok x -> text_wire config (value_bytes m x) = Some w ->
  (data = NULL -> capacity = 0) -> (data <> NULL -> zlen w <= capacity) ->
  exists dg', tlv_text_encode (Some config) m (Some x) sizeof_value data capacity (Some w0) dg =
    (TLV_OK, if is_null data then m else text_written m x data (zlen w), Some (zlen w), dg').
Proof using Hok.
  intros [Hs Hn] Hw Hd Hc. destruct Hok as [Hval Hwidth]. destruct (text_wire_some _ _ Hw) as (Hal & Hmax & Hlen & Hwid & _ & _).
  assert (zlen (value_bytes m x) = v_size x) as Hl by (unfold value_bytes; rewrite length_bytes_of; lia). rewrite Hl in *.
  unfold tlv_text_encode. rewrite Hval, Z.eqb_refl.
  assert (is_null data && negb (capacity =? 0) = false) as -> by (destruct data; [now rewrite Hd|done]).
  assert (is_null x.(v_data) && negb (x.(v_size) =? 0) = false) as -> by (destruct (v_data x); [now rewrite Hn|done]).
  rewrite size_to_native_small, is_ok_OK by lia. cbn [negb cell]. rewrite valid_text_bytes by lia. fold (value_bytes m x). rewrite Hal.
  rewrite <- Hlen. assert (negb (tc_width config =? 0) && negb (zlen w =? tc_width config) = false) as ->.
  { destruct Hwid as [Ez|Ez]; rewrite Ez; [done|]. rewrite Z.eqb_refl. apply andb_false_r. }
  cbn [negb orb]. assert (negb (is_null data) && (capacity <? zlen w) = false) as ->.
  { destruct data; [done|]. cbn. apply Z.ltb_ge, Hc. done. }
  eexists. unfold encoded, text_written. destruct data; reflexivity.
Qed.

Lemma memset_bytes m p n : p <> NULL -> bytes_of (memset m p 0 n) p n = replicate (Z.to_nat n) 0.
Proof using.
  intros Hp. destruct p as [|b o]; [done|]. transitivity (map (fun _ => 0) (seq 0 (Z.to_nat n))).
  - apply map_ext_in. intros i Hi. apply in_seq in Hi. unfold memset. now rewrite ld_set_range_in by lia.
  - generalize 0%nat. induction (Z.to_nat n) as [|k IH]; intros s; [done|]. cbn. now rewrite IH.
Qed.

Lemma text_written_spec m x w data : value_ok x -> text_wire config (value_bytes m x) = Some w -> data <> NULL ->
  disjoint_range data (zlen w) x.(v_data) x.(v_size) ->
  only_changes m (text_written m x data (zlen w)) data (zlen w) /\ bytes_of (text_written m x data (zlen w)) data (zlen w) = w.
Proof using Hok.
  intros [Hs Hn] Hw Hd Hap. destruct (text_wire_some _ _ Hw) as (_ & _ & Hlen & _ & Ew & _).
  assert (zlen (value_bytes m x) = v_size x) as Hl by (unfold value_bytes; rewrite length_bytes_of; lia). rewrite Hl in *.
  assert (v_size x <= zlen w) as Hle by (destruct (_ && (_ <? _)) eqn:E; [apply andb_true_iff in E as [_ E]; apply Z.ltb_lt in E|]; lia).
  set (m1 := if negb (v_size x =? 0) then memcpy m data (v_data x) (v_size x) else m).
  assert (only_changes m m1 data (v_size x) /\ bytes_of m1 data (v_size x) = value_bytes m x) as [Ho1 Hb1].
  { unfold m1. destruct (Z.eqb_spec (v_size x) 0) as [Hz|Hz]; cbn [negb].
    - split; [apply only_refl|]. unfold value_bytes. now rewrite Hz, !bytes_of_0 by lia.
    - split; [apply memmove_only|]. apply bytes_of_memmove. now destruct data. }
  unfold text_written. fold m1. destruct (Z.ltb_spec (v_size x) (zlen w)) as [Hlt|Hge].
  - assert (only_changes m1 (memset m1 (data +p v_size x) 0 (zlen w - v_size x)) (data +p v_size x) (zlen w - v_size x)) as Ho2 by apply set_range_only.
    split; [eapply only_trans; [apply (only_prefix _ _ _ _ (v_size x)); [lia|exact Ho1]|]; apply (only_sub _ _ _ _ (v_size x) (zlen w - v_size x)); [lia|lia|exact Ho2]|].
    replace (zlen w) with (v_size x + (zlen w - v_size x)) at 2 by lia. rewrite bytes_of_app by lia.
    rewrite memset_bytes by now destruct data. rewrite Ew at 3. rewrite <- Hb1. f_equal. apply same_bytes_of.
    apply (only_same _ _ _ _ _ _ Ho2). destruct data; cbn; [done|]. lia.
  - assert (zlen w = v_size x) as -> by lia. split; [exact Ho1|]. rewrite Hb1. rewrite Ew.
    replace (zlen w - v_size x) with 0 by lia. cbn. now rewrite app_nil_r.
Qed.

#[export] Instance text_lawful : ValueCodec (tlv_text_codec (Some config)) (list Z).
Proof using Hok.
  refine {| vc_size := sizeof_value; vc_content := value_bytes; vc_wire := text_wire config; vc_ok := value_ok;
            vc_apart := fun v data n => disjoint_range data n v.(v_data) v.(v_size);
            vc_encode_fn := tlv_text_encode (Some config); vc_decode_fn := tlv_text_decode (Some config) |}; try reflexivity.
  all: destruct Hok as [Hval Hwidth].
  - intros m x w w0 dg Hx Hw. destruct (text_encode_run m x w NULL 0 w0 dg Hx Hw ltac:(done) ltac:(done)) as (dg' & ->). now exists dg'.
  - intros m x w data capacity w0 dg Hx Hw Hd Hc Hap.
    destruct (text_encode_run m x w data capacity w0 dg Hx Hw ltac:(done) ltac:(done)) as (dg' & ->).
    destruct data as [|b o]; [done|]. cbn [is_null]. destruct (text_written_spec m x w (Ptr b o) Hx Hw Hd Hap) as [Ho Hb].
    now exists (text_written m x (Ptr b o) (zlen w)), dg'.
  - intros m y w data v0 capacity dg Hw Hd Hb Hc. destruct (text_wire_some _ _ Hw) as (Hal & Hmax & Hlen & Hwid & Ew & Hpad).
    unfold tlv_text_decode. rewrite Hval. destruct data as [|b o] eqn:Edata; [done|]. rewrite <- Edata in *. clear Edata b o.
    assert (is_null data = false) as -> by now destruct data. cbn [andb negb].
    assert (negb (tc_width config =? 0) && negb (zlen w =? tc_width config) = false) as ->.
    { destruct Hwid as [Ez|Ez]; rewrite Ez; [done|]. rewrite Z.eqb_refl. apply andb_false_r. }
    assert (bytes_of m data (zlen y) = y /\ bytes_of m (data +p zlen y) (zlen w - zlen y) = replicate (Z.to_nat (zlen w - zlen y)) 0 /\ zlen y <= zlen w) as (Hby & Hbz & Hle).
    { assert (zlen y <= zlen w) as Hle by (rewrite Ew, length_app; lia). split; [|split; [|done]].
      all: rewrite Ew in Hb at 2; replace (zlen w) with (zlen y + (zlen w - zlen y)) in Hb at 1 by lia; rewrite bytes_of_app in Hb by lia;
        apply app_inj_1 in Hb as [Hb1 Hb2]; [done|rewrite length_bytes_of; lia]. }
    assert ((if negb (tc_zero_padding config =? 0) then strip_loop (Z.to_nat (zlen w)) m data else zlen w) = zlen y) as ->.
    { destruct (Z.eqb_spec (tc_zero_padding config) 0) as [Hz|Hz]; cbn [negb]; [now rewrite (Hpad Hz)|].
      replace (Z.to_nat (zlen w)) with (length y + Z.to_nat (zlen w - zlen y))%nat by lia.
      apply strip_spec; [rewrite Z2Nat.id by lia; exact Hbz|]. destruct (decide (length y = 0%nat)) as [|Hne]; [now left|right].
      rewrite <- (byte_at_bytes_of m data (zlen y) (zlen y - 1)) by lia. rewrite Hby. intros E0.
      assert (in_alphabet (tc_alphabet config) 0 = true) as Hx; [|now rewrite in_alphabet_nonzero in Hx].
      rewrite forallb_forall in Hal. apply Hal. rewrite <- E0. unfold byte_at. apply nth_In. lia. }
    rewrite valid_text_bytes, Hby, Hal by lia. cbn [negb]. rewrite (proj2 (Z.ltb_ge capacity _)) by lia.
    eexists _, _. split; [reflexivity|]. exact Hby.
Defined.
End TextLaws.

(** ** The laws of addresses *)

#[export] Instance ipv4_lawful : ValueCodec tlv_codec_ipv4 (list Z).
Proof.
  refine {| vc_size := 4; vc_content := fun _ x => x; vc_wire := fun l => if bool_decide (bytes l /\ zlen l = 4) then Some l else None;
            vc_ok := fun _ => True; vc_apart := fun _ _ _ => True; vc_encode_fn := encode_ipv4; vc_decode_fn := decode_ipv4 |}; try reflexivity.
  - intros m x w w0 dg _ Hw. case_bool_decide as Hx; [|done]. injection Hw as <-. destruct Hx as [_ ->]. eexists. reflexivity.
  - intros m x w data capacity w0 dg _ Hw Hd Hc _. case_bool_decide as Hx; [|done]. injection Hw as <-. destruct Hx as [Hx Hl]. rewrite Hl in *.
    eexists _, _. split; [unfold encode_ipv4; rewrite (data_null data Hd), (proj2 (Z.ltb_ge capacity 4)) by lia; reflexivity|].
    cbn [negb cell]. rewrite <- Hl. split; [apply put_at_only|now apply bytes_of_put_at].
  - intros m y w data v0 capacity dg Hw Hd Hb Hc. case_bool_decide as Hx; [|done]. injection Hw as <-. destruct Hx as [Hx Hl]. rewrite Hl in *.
    eexists _, _. split; [unfold decode_ipv4; rewrite (proj2 (Z.ltb_ge capacity 4)) by lia; reflexivity|]. exact Hb.
Defined.

#[export] Instance ipv4_list_lawful `{Platform} `{ValueLayout} : ValueCodec tlv_codec_ipv4_list (list Z).
Proof.
  refine {| vc_size := sizeof_value; vc_content := fun m x => value_bytes m x.(il_raw);
            vc_wire := fun l => if (zlen l <=? SIZE_MAX) && (zlen l mod 4 =? 0) then Some l else None; vc_ok := fun x => value_ok x.(il_raw);
            vc_apart := fun x data n => disjoint_range data n x.(il_raw).(v_data) x.(il_raw).(v_size);
            vc_encode_fn := encode_ipv4_list; vc_decode_fn := decode_ipv4_list |}; try reflexivity.
  all: assert (forall m x w, value_ok (il_raw x) -> (if (zlen (value_bytes m (il_raw x)) <=? SIZE_MAX) && (zlen (value_bytes m (il_raw x)) mod 4 =? 0)
      then Some (value_bytes m (il_raw x)) else None) = Some w ->
    exists n, validate_list (il_raw x) 0 = (TLV_OK, n) /\ vc_wire tlv_codec_bytes (value_bytes m (il_raw x)) = Some w) as Hv.
  1, 3, 5: intros m x w [Hs Hn] Hw; destruct (_ && _) eqn:E; [|done]; apply andb_true_iff in E as [E1 E2];
    assert (zlen (value_bytes m (il_raw x)) = v_size (il_raw x)) as Hl by (unfold value_bytes; rewrite length_bytes_of; lia);
    rewrite Hl in E1, E2; exists (v_size (il_raw x)); apply Z.leb_le in E1; split;
    [unfold validate_list; assert (is_null (v_data (il_raw x)) && negb (v_size (il_raw x) =? 0) = false) as ->
       by (destruct (v_data (il_raw x)); [now rewrite Hn|done]); rewrite size_to_native_small, is_ok_OK by lia; cbn [cell negb orb]; now rewrite E2
    |cbn; rewrite Hl, (proj2 (Z.leb_le _ _)) by lia; done].
  - intros m x w w0 dg Hx Hw. destruct (Hv m x w Hx Hw) as (n & E & Hwb).
    destruct (dispatch_measure (ValueCodec0 := bytes_lawful) tlv_codec_bytes m (il_raw x) w w0 (tlv_codec_diagnostic_init dg (codec_operation NULL)) Hx Hwb) as (dg' & Ed).
    unfold encode_ipv4_list. cbn [cell]. rewrite Z.eqb_refl, E, is_ok_OK. cbn [negb]. change sizeof_value with (vc_size tlv_codec_bytes) at 1. rewrite Ed. eexists. reflexivity.
  - intros m x w data capacity w0 dg Hx Hw Hd Hc Hap. destruct (Hv m x w Hx Hw) as (n & E & Hwb).
    destruct (dispatch_encode (ValueCodec0 := bytes_lawful) tlv_codec_bytes m (il_raw x) w data capacity w0 (tlv_codec_diagnostic_init dg (codec_operation data)) Hx Hwb Hd Hc Hap)
      as (m' & dg' & Ed & Ho & Hb).
    unfold encode_ipv4_list. cbn [cell]. rewrite Z.eqb_refl, E, is_ok_OK. cbn [negb]. change sizeof_value with (vc_size tlv_codec_bytes) at 1. rewrite Ed.
    eexists _, _. split; [reflexivity|done].
  - intros m y w data v0 capacity dg Hw Hd Hb Hc. destruct (_ && _) eqn:E; [|done]. injection Hw as <-. apply andb_true_iff in E as [_ E].
    eexists _, _. split; [unfold decode_ipv4_list; rewrite E, (proj2 (Z.ltb_ge capacity sizeof_value)) by lia; reflexivity|]. exact Hb.
Defined.

(** The addresses of a list are its quadruples of octets. *)
Lemma ipv4_list_at_spec `{Platform} m x index v0 : value_ok (il_raw x) -> v_size (il_raw x) <= SIZE_MAX -> v_size (il_raw x) mod 4 = 0 -> 0 <= index ->
  tlv_ipv4_list_at m (Some x) index (Some v0) =
  if index <? v_size (il_raw x) / 4 then (TLV_OK, Some (take 4 (drop (Z.to_nat (index * 4)) (value_bytes m (il_raw x))))) else (TLV_ERR_INVALID_VALUE, Some v0).
Proof.
  intros [Hs Hn] Hm H4 Hi. unfold tlv_ipv4_list_at, validate_list.
  assert (is_null (v_data (il_raw x)) && negb (v_size (il_raw x) =? 0) = false) as -> by (destruct (v_data (il_raw x)); [now rewrite Hn|done]).
  rewrite size_to_native_small, is_ok_OK by lia. cbn [cell negb orb]. rewrite H4. cbn [negb orb Z.eqb]. rewrite is_ok_OK. cbn [negb].
  set (n := v_size (il_raw x)) in *. assert (n = 4 * (n / 4)) as En by (pose proof (Z.div_mod n 4); lia). destruct (Z.ltb_spec index (n / 4)).
  - rewrite (proj2 (Z.leb_gt _ _)) by lia. rewrite usize_small by lia. do 2 f_equal. unfold value_bytes. fold n.
    replace n with (index * 4 + (4 + (n - 4 - index * 4))) by lia. rewrite bytes_of_app, (bytes_of_app _ _ 4) by lia.
    rewrite drop_app_length' by (rewrite length_bytes_of; done). now rewrite take_app_length' by now rewrite length_bytes_of.
  - now rewrite (proj2 (Z.leb_le _ _)) by lia.
Qed.
