(* ===== verification/Digits.v ===== *)
(** * The digits codec and its laws (codec/digits.h, src/codec/digits.c)

    Decimal digits packed two to an octet, filled up with the nibble 15; the C object is a character array
    that the decoder ends with a NUL.  The array lies in memory, so the decoder takes a pointer to it. *)

From S2P Require Import Prelude Mem Core Endian Diagnostic Reader Codec Values ValuesLaws.

Record tlv_digits_codec_config_t := mk_digits_config { dc_width : Z }.

Definition nibble (m : mem) (data : ptr) (index : Z) : Z :=
  Z.land (if negb (index mod 2 =? 0) then ld m data (index / 2) else Z.shiftr (ld m data (index / 2)) 4) 15.

(** The first loop of the decoder, with [count] and [padding]; [None] is an invalid value. *)
Fixpoint digits_count_loop (n : nat) (m : mem) (data : ptr) (i count : Z) (padding : bool) : option Z :=
  match n with
  | O => Some count
  | S n =>
      let digit := nibble m data i in
      if digit =? 15 then digits_count_loop n m data (i + 1) count true
      else if (9 <? digit) || padding then None
      else digits_count_loop n m data (i + 1) (count + 1) padding
  end.

(** The second loop: the characters of the digits [i .. i + n - 1]. *)
Fixpoint digits_store_loop (n : nat) (m : mem) (data value : ptr) (i : Z) : mem :=
  match n with
  | O => m
  | S n => digits_store_loop n (st m value i (48 + nibble m data i)) data value (i + 1)
  end.

(** [digits[i] < '0' || digits[i] > '9'] for the characters [i .. i + n - 1]. *)
Fixpoint digits_valid_loop (n : nat) (m : mem) (value : ptr) (i : Z) : bool :=
  match n with
  | O => true
  | S n => negb ((ld m value i <? 48) || (57 <? ld m value i)) && digits_valid_loop n m value (i + 1)
  end.

Fixpoint digits_pack_loop (n : nat) (m : mem) (value : ptr) (size : Z) (data : ptr) (i : Z) : mem :=
  match n with
  | O => m
  | S n =>
      let high := if i * 2 <? size then ld m value (i * 2) - 48 else 15 in
      let low := if i * 2 + 1 <? size then ld m value (i * 2 + 1) - 48 else 15 in
      digits_pack_loop n (st m data i (u8 (Z.lor (Z.shiftl high 4) low))) value size data (i + 1)
  end.

Section Digits.
Context `{Platform}.

Definition tlv_digits_decode (context : option tlv_digits_codec_config_t) (m : mem) (data : ptr) (size : Z) (value : ptr)
  (capacity : Z) (diagnostic : option tlv_codec_diagnostic_t) : tlv_result_t * mem * option tlv_codec_diagnostic_t :=
  let diagnostic := tlv_codec_diagnostic_init diagnostic TLV_CODEC_OP_DECODE in
  let return_ (m : mem) (rc : tlv_result_t) := (rc, m, tlv_codec_diagnostic_result diagnostic rc) in
  match context with
  | None => return_ m TLV_ERR_NULL_ARG
  | Some config =>
      if is_null value || (is_null data && negb (size =? 0)) then return_ m TLV_ERR_NULL_ARG
      else if (negb (config.(dc_width) =? 0) && negb (size =? config.(dc_width))) || ((SIZE_MAX - 1) / 2 <? size) then
        return_ m TLV_ERR_INVALID_VALUE
      else
        match digits_count_loop (Z.to_nat (size * 2)) m data 0 0 false with
        | None => return_ m TLV_ERR_INVALID_VALUE
        | Some count =>
            if capacity <=? count then return_ m TLV_ERR_BUFFER_TOO_SHORT
            else
              let m := digits_store_loop (Z.to_nat count) m data value 0 in
              return_ (st m value count 0) TLV_OK
        end
  end.

Definition tlv_digits_encode (context : option tlv_digits_codec_config_t) (m : mem) (value : ptr) (size : Z) (data : ptr)
  (capacity : Z) (written : option Z) (diagnostic : option tlv_codec_diagnostic_t)
  : tlv_result_t * mem * option Z * option tlv_codec_diagnostic_t :=
  let diagnostic := tlv_codec_diagnostic_init diagnostic (codec_operation data) in
  let bytes := size / 2 + size mod 2 in
  match written with
  | None => encoded m written diagnostic TLV_ERR_NULL_ARG
  | Some _ =>
      let written := Some 0 in
      match context with
      | None => encoded m written diagnostic TLV_ERR_NULL_ARG
      | Some config =>
          if is_null value || (is_null data && negb (capacity =? 0)) then encoded m written diagnostic TLV_ERR_NULL_ARG
          else if negb (config.(dc_width) =? 0) && (config.(dc_width) <? bytes) then encoded m written diagnostic TLV_ERR_INVALID_VALUE
          else
            let bytes := if negb (config.(dc_width) =? 0) then config.(dc_width) else bytes in
            if (SIZE_MAX - 1) / 2 <? bytes then encoded m written diagnostic TLV_ERR_INVALID_VALUE
            else if negb (digits_valid_loop (Z.to_nat size) m value 0) then encoded m written diagnostic TLV_ERR_INVALID_VALUE
            else if negb (is_null data) && (capacity <? bytes) then encoded m written diagnostic TLV_ERR_BUFFER_TOO_SHORT
            else
              let m := if negb (is_null data) then digits_pack_loop (Z.to_nat bytes) m value size data 0 else m in
              encoded m (Some bytes) diagnostic TLV_OK
      end
  end.
End Digits.

(** * The laws of the digits codec *)

Definition is_digit (d : Z) : Prop := 0 <= d <= 9.
Definition is_nibble (d : Z) : Prop := 0 <= d < 16.

(** Two nibbles to an octet. *)
Fixpoint pack_nibbles (l : list Z) : list Z :=
  match l with h :: lo :: l => (16 * h + lo) :: pack_nibbles l | _ => [] end.

(** The nibbles of octets. *)
Definition nibbles (l : list Z) : list Z := concat (map (fun x => [x / 16; x mod 16]) l).

Definition digits_octets (config : tlv_digits_codec_config_t) (n : Z) : Z :=
  if config.(dc_width) =? 0 then n / 2 + n mod 2 else config.(dc_width).

(** Digits, and fill up to the width. *)
Definition digits_padded (config : tlv_digits_codec_config_t) (ds : list Z) : list Z :=
  ds ++ replicate (Z.to_nat (2 * digits_octets config (zlen ds) - zlen ds)) 15.

(** The width holds the digits, and [size_t] twice the width. *)
Definition digits_fit `{Platform} (config : tlv_digits_codec_config_t) (ds : list Z) : Prop :=
  Forall is_digit ds /\ zlen ds / 2 + zlen ds mod 2 <= digits_octets config (zlen ds) <= (SIZE_MAX - 1) / 2.

Lemma nibbles_pack l k : length l = (2 * k)%nat -> Forall is_nibble l -> nibbles (pack_nibbles l) = l.
Proof.
  revert l. induction k as [|k IH]; intros l Hl Hn; [now destruct l|].
  destruct l as [|h [|lo l]]; [done|cbn in Hl; lia|]. inversion Hn as [|? ? Hh Hn1]; subst. inversion Hn1 as [|? ? Hlo Hn2]; subst.
  unfold nibbles in *. cbn [pack_nibbles map concat app]. rewrite IH; [|cbn in Hl; lia|done]. unfold is_nibble in *. f_equal; [|f_equal]; Z.to_euclidean_division_equations; lia.
Qed.

Lemma length_pack l k : length l = (2 * k)%nat -> length (pack_nibbles l) = k.
Proof.
  revert l. induction k as [|k IH]; intros l Hl; [now destruct l|]. destruct l as [|h [|lo l]]; [done|cbn in Hl; lia|].
  cbn [pack_nibbles length]. rewrite IH; [done|cbn in Hl; lia].
Qed.

Lemma pack_bytes l k : length l = (2 * k)%nat -> Forall is_nibble l -> bytes (pack_nibbles l).
Proof.
  revert l. induction k as [|k IH]; intros l Hl Hn; [destruct l; [constructor|done]|].
  destruct l as [|h [|lo l]]; [done|cbn in Hl; lia|]. inversion Hn as [|? ? Hh Hn1]; subst. inversion Hn1 as [|? ? Hlo Hn2]; subst.
  cbn [pack_nibbles]. constructor; [unfold is_byte, is_nibble in *; lia|]. apply IH; [cbn in Hl; lia|done].
Qed.

(** ** The nibbles in memory *)

Definition nibble_seq (m : mem) (data : ptr) (i : Z) (n : nat) : list Z := map (fun j => nibble m data (i + Z.of_nat j)) (seq 0 n).

Lemma nibble_seq_S m data i n : nibble_seq m data i (S n) = nibble m data i :: nibble_seq m data (i + 1) n.
Proof.
  unfold nibble_seq. cbn [seq map]. rewrite Z.add_0_r. f_equal. rewrite <- seq_shift, map_map. apply map_ext. intros j. f_equal. lia.
Qed.

Lemma land_15 x : 0 <= x -> Z.land x 15 = x mod 16.
Proof. intros Hx. change 15 with (Z.ones 4). rewrite Z.land_ones by lia. done. Qed.

Lemma nibble_pair m data k : 0 <= k -> nibble m data (2 * k) = ld m data k / 16 /\ nibble m data (2 * k + 1) = ld m data k mod 16.
Proof.
  intros Hk. unfold nibble. pose proof (ld_range m data k) as Hr.
  assert ((2 * k) mod 2 = 0 /\ (2 * k + 1) mod 2 = 1 /\ 2 * k / 2 = k /\ (2 * k + 1) / 2 = k) as (-> & -> & -> & ->)
    by (Z.to_euclidean_division_equations; lia).
  cbn [Z.eqb negb]. rewrite land_15 by (apply Z.shiftr_nonneg; lia). rewrite land_15 by lia. rewrite Z.shiftr_div_pow2 by lia.
  change (2 ^ 4) with 16. split; [|done]. Z.to_euclidean_division_equations; lia.
Qed.

Lemma nibble_seq_octets m data n : forall k, 0 <= k -> nibble_seq m data (2 * k) (2 * n) = nibbles (bytes_of m (data +p k) (Z.of_nat n)).
Proof.
  induction n as [|n IH]; intros k Hk; [done|]. replace (2 * S n)%nat with (S (S (2 * n))) by lia. rewrite !nibble_seq_S.
  replace (Z.of_nat (S n)) with (1 + Z.of_nat n) by lia. rewrite bytes_of_cons, padd_padd, ld_padd, Z.add_0_r by lia.
  unfold nibbles in *. cbn [map concat app]. destruct (nibble_pair m data k Hk) as [-> ->].
  replace (2 * k + 1 + 1) with (2 * (k + 1)) by lia. rewrite IH by lia. done.
Qed.

(** ** Decoding *)

(** What the first loop computes, on the nibbles. *)
Fixpoint leading_digits (padding : bool) (l : list Z) : option Z :=
  match l with
  | [] => Some 0
  | d :: l =>
      if d =? 15 then leading_digits true l
      else if (9 <? d) || padding then None
      else option_map (Z.add 1) (leading_digits padding l)
  end.

Lemma count_loop_leading n : forall m data i count padding,
  digits_count_loop n m data i count padding = option_map (Z.add count) (leading_digits padding (nibble_seq m data i n)).
Proof.
  induction n as [|n IH]; intros m data i count padding; [cbn; now rewrite Z.add_0_r|].
  rewrite nibble_seq_S. cbn [digits_count_loop leading_digits]. destruct (_ =? 15); [apply IH|]. destruct (_ || padding); [done|].
  rewrite IH. destruct (leading_digits _ _); cbn; [|done]. f_equal. lia.
Qed.

Lemma leading_fill k : forall padding, leading_digits padding (replicate k 15) = Some 0.
Proof. induction k as [|k IH]; intros padding; [done|]. cbn. apply IH. Qed.

Lemma leading_padded ds k : Forall is_digit ds -> leading_digits false (ds ++ replicate k 15) = Some (zlen ds).
Proof.
  induction 1 as [|d ds Hd Hds IH]; [apply leading_fill|]. cbn [app leading_digits length]. unfold is_digit in Hd.
  rewrite (proj2 (Z.eqb_neq d 15)), (proj2 (Z.ltb_ge 9 d)) by lia. cbn [orb]. rewrite IH. cbn [option_map]. f_equal. lia.
Qed.

Lemma leading_some l : forall padding c, Forall (fun d => 0 <= d) l -> leading_digits padding l = Some c ->
  exists ds k, l = ds ++ replicate k 15 /\ Forall is_digit ds /\ c = zlen ds /\ (padding = true -> ds = []).
Proof.
  induction l as [|d l IH]; intros padding c Hl Hc; cbn [leading_digits] in Hc.
  - injection Hc as <-. now exists [], 0%nat.
  - apply list.Forall_cons_1 in Hl as [Hd0 Hl]. destruct (Z.eqb_spec d 15) as [->|Hne].
    + destruct (IH true c Hl Hc) as (ds & k & -> & Hds & -> & Hp). rewrite (Hp eq_refl). now exists [], (S k).
    + destruct (Z.ltb_spec 9 d) as [|Hd]; [done|]. destruct padding; [done|]. cbn [orb] in Hc. destruct (leading_digits false l) as [c'|] eqn:El; [|done].
      injection Hc as <-. destruct (IH false c' Hl El) as (ds & k & -> & Hds & -> & _). exists (d :: ds), k.
      split; [done|]. split; [constructor; [unfold is_digit; lia|done]|]. split; [cbn [length]; lia|done].
Qed.

(** The stored characters. *)
Lemma store_loop_spec n m data value : forall m0 i, value <> NULL -> 0 <= i -> disjoint_range value (i + Z.of_nat n) data ((i + Z.of_nat n + 1) / 2) ->
  only_changes m m0 value i -> bytes_of m0 value i = map (Z.add 48) (nibble_seq m data 0 (Z.to_nat i)) ->
  only_changes m (digits_store_loop n m0 data value i) value (i + Z.of_nat n) /\
  bytes_of (digits_store_loop n m0 data value i) value (i + Z.of_nat n) = map (Z.add 48) (nibble_seq m data 0 (Z.to_nat i + n)).
Proof.
  induction n as [|n IH]; intros m0 i Hv Hi Hap Ho Hb; cbn [digits_store_loop].
  - rewrite Z.add_0_r, Nat.add_0_r. done.
  - replace (i + Z.of_nat (S n)) with (i + 1 + Z.of_nat n) in * by lia.
    assert (nibble m0 data i = nibble m data i) as En.
    { unfold nibble. assert (ld m0 data (i / 2) = ld m data (i / 2)) as ->; [|done]. apply (only_ld _ _ _ _ _ _ Ho); [|apply Z.div_pos; lia].
      assert (i / 2 + 1 <= (i + 1 + Z.of_nat n + 1) / 2) as Hle by (Z.to_euclidean_division_equations; lia).
      destruct value as [|b o], data as [|b' o']; cbn [disjoint_range] in *; lia. }
    rewrite En. set (m1 := st m0 value i (48 + nibble m data i)).
    assert (0 <= nibble m data i < 16) as Hnib by (unfold nibble; rewrite land_15; [apply Z.mod_pos_bound; lia|]; destruct (negb _); [apply ld_range|apply Z.shiftr_nonneg, ld_range]).
    replace (Z.to_nat i + S n)%nat with (Z.to_nat (i + 1) + n)%nat by lia. apply IH; [done|lia|done| |].
    + eapply only_trans; [apply (only_prefix _ _ _ _ i); [lia|exact Ho]|]. apply st_only. lia.
    + rewrite bytes_of_snoc by lia. replace (Z.to_nat (i + 1)) with (Z.to_nat i + 1)%nat by lia. unfold nibble_seq in *. rewrite seq_app, map_app, map_app.
      f_equal.
      * rewrite <- Hb. apply bytes_of_ext. intros j Hj. unfold m1. apply ld_st_other. lia.
      * cbn [seq map]. f_equal. unfold m1. rewrite ld_st_same by now destruct value. rewrite u8_small by lia. do 2 f_equal. lia.
Qed.

(** Every nibble is in range. *)
Lemma nibble_seq_range m data i n : Forall is_nibble (nibble_seq m data i n).
Proof.
  apply list.Forall_forall. intros x Hx. apply list_elem_of_In, in_map_iff in Hx as (j & <- & _). unfold is_nibble, nibble.
  rewrite land_15; [apply Z.mod_pos_bound; lia|]. destruct (negb _); [apply ld_range|apply Z.shiftr_nonneg, ld_range].
Qed.

(** ** Encoding *)

Lemma valid_loop_chars n m value : forall i, digits_valid_loop n m value i = true <->
  Forall (fun c => 48 <= c <= 57) (bytes_of m (value +p i) (Z.of_nat n)).
Proof.
  induction n as [|n IH]; intros i; [done|]. replace (Z.of_nat (S n)) with (1 + Z.of_nat n) by lia.
  rewrite bytes_of_cons, padd_padd, ld_padd, Z.add_0_r by lia. cbn [digits_valid_loop].
  rewrite andb_true_iff, IH, list.Forall_cons, negb_true_iff, orb_false_iff, !Z.ltb_ge. intuition lia.
Qed.

(** The nibbles that the encoder packs. *)
Definition nibble_at (ds : list Z) (j : nat) : Z := nth j ds 15.

Lemma nibbles_padded ds n : (length ds <= n)%nat -> map (nibble_at ds) (seq 0 n) = ds ++ replicate (n - length ds) 15.
Proof.
  intros Hn. replace n with (length ds + (n - length ds))%nat at 1 by lia. rewrite seq_app, map_app. f_equal.
  - clear Hn. unfold nibble_at. induction ds as [|d ds IH]; [done|]. cbn [length seq map]. f_equal. rewrite <- IH at 2. rewrite <- seq_shift, map_map. done.
  - generalize (n - length ds)%nat as k. intros k. rewrite Nat.add_0_l. assert (forall s, (length ds <= s)%nat -> map (nibble_at ds) (seq s k) = replicate k 15) as Hs; [|now apply Hs].
    induction k as [|k IH]; intros s Hs; [done|]. cbn [seq map replicate]. rewrite IH by lia. f_equal. unfold nibble_at. now apply nth_overflow.
Qed.

Lemma pack_snoc l k a b : length l = (2 * k)%nat -> pack_nibbles (l ++ [a; b]) = pack_nibbles l ++ [16 * a + b].
Proof.
  revert l. induction k as [|k IH]; intros l Hl; [now destruct l|]. destruct l as [|h [|lo l]]; [done|cbn in Hl; lia|].
  cbn [pack_nibbles app]. rewrite IH; [done|cbn in Hl; lia].
Qed.

Lemma pack_octet a b : 0 <= a < 16 -> 0 <= b < 16 -> u8 (Z.lor (Z.shiftl a 4) b) = 16 * a + b.
Proof.
  intros Ha Hb. assert (forallb (fun a => forallb (fun b => u8 (Z.lor (Z.shiftl a 4) b) =? 16 * a + b) (seqZ 0 16)) (seqZ 0 16) = true) as Hall
    by (vm_compute; reflexivity).
  rewrite forallb_forall in Hall. specialize (Hall a ltac:(apply list_elem_of_In, elem_of_seqZ; lia)). rewrite forallb_forall in Hall.
  apply Z.eqb_eq, Hall, list_elem_of_In, elem_of_seqZ. lia.
Qed.

Lemma pack_loop_spec n m value size data ds : forall m0 i, data <> NULL -> 0 <= i -> zlen ds = size -> Forall is_digit ds ->
  bytes_of m value size = map (Z.add 48) ds -> disjoint_range data (i + Z.of_nat n) value size ->
  only_changes m m0 data i -> bytes_of m0 data i = pack_nibbles (map (nibble_at ds) (seq 0 (2 * Z.to_nat i))) ->
  only_changes m (digits_pack_loop n m0 value size data i) data (i + Z.of_nat n) /\
  bytes_of (digits_pack_loop n m0 value size data i) data (i + Z.of_nat n) = pack_nibbles (map (nibble_at ds) (seq 0 (2 * (Z.to_nat i + n)))).
Proof.
  induction n as [|n IH]; intros m0 i Hd Hi Hl Hds Hc Hap Ho Hb; cbn [digits_pack_loop].
  - rewrite Z.add_0_r, Nat.add_0_r. done.
  - replace (i + Z.of_nat (S n)) with (i + 1 + Z.of_nat n) in * by lia.
    assert (forall j, 0 <= j -> (if j <? size then ld m0 value j - 48 else 15) = nibble_at ds (Z.to_nat j)) as Hn.
    { intros j Hj. unfold nibble_at. destruct (Z.ltb_spec j size) as [Hlt|Hge]; [|symmetry; apply nth_overflow; lia].
      assert (ld m0 value j = ld m value j) as ->.
      { apply (only_ld _ _ _ _ _ _ Ho); [|done]. destruct value, data; cbn [disjoint_range] in *; lia. }
      rewrite <- (byte_at_bytes_of m value size j) by lia. rewrite Hc. unfold byte_at.
      rewrite (nth_indep _ 0 (48 + 15)) by (rewrite length_map; lia). rewrite (map_nth (Z.add 48)). lia. }
    rewrite !Hn by lia. replace (Z.to_nat (i * 2 + 1)) with (S (2 * Z.to_nat i)) by lia. replace (Z.to_nat (i * 2)) with (2 * Z.to_nat i)%nat by lia.
    set (a := nibble_at ds (2 * Z.to_nat i)). set (b := nibble_at ds (S (2 * Z.to_nat i))).
    assert (forall j, 0 <= nibble_at ds j < 16) as Hr.
    { intros j. unfold nibble_at. destruct (nth_in_or_default j ds 15) as [Hin| ->]; [|lia]. rewrite List.Forall_forall in Hds. specialize (Hds _ Hin). unfold is_digit in Hds. lia. }
    pose proof (Hr (2 * Z.to_nat i)%nat) as Ha. pose proof (Hr (S (2 * Z.to_nat i))) as Hb2. fold a in Ha. fold b in Hb2.
    assert (u8 (Z.lor (Z.shiftl a 4) b) = 16 * a + b) as Eu.
    { now apply pack_octet. }
    rewrite Eu. replace (Z.to_nat i + S n)%nat with (Z.to_nat (i + 1) + n)%nat by lia. apply IH; try done; try lia.
    + eapply only_trans; [apply (only_prefix _ _ _ _ i); [lia|exact Ho]|]. apply st_only. lia.
    + rewrite bytes_of_snoc by lia. replace (2 * Z.to_nat (i + 1))%nat with (2 * Z.to_nat i + 2)%nat by lia. rewrite seq_app, map_app.
      cbn [seq map]. rewrite Nat.add_0_l. fold a b. rewrite (pack_snoc _ (Z.to_nat i)) by now rewrite length_map, length_seq. f_equal.
      * rewrite <- Hb. apply bytes_of_ext. intros j Hj. apply ld_st_other. lia.
      * f_equal. rewrite ld_st_same by now destruct data. apply u8_small. lia.
Qed.

(** ** The codec *)

Section Laws.
Context `{Platform} (config : tlv_digits_codec_config_t) (Hwidth : 0 <= config.(dc_width)).

(** A successful decoding: the octets are digits and fill, and the characters are theirs. *)
Lemma digits_decode_run m data size value capacity dg ds k : data <> NULL -> value <> NULL ->
  nibbles (bytes_of m data size) = ds ++ replicate k 15 -> Forall is_digit ds -> 0 <= size <= (SIZE_MAX - 1) / 2 ->
  config.(dc_width) = 0 \/ size = config.(dc_width) -> zlen ds < capacity -> disjoint_range value (zlen ds + 1) data size ->
  exists m' dg', tlv_digits_decode (Some config) m data size value capacity dg = (TLV_OK, m', dg') /\
    only_changes m m' value (zlen ds + 1) /\ bytes_of m' value (zlen ds + 1) = map (Z.add 48) ds ++ [0].
Proof using Hwidth.
  intros Hd Hv Hn Hds Hs Hw Hc Hap. unfold tlv_digits_decode.
  assert (is_null value || is_null data && negb (size =? 0) = false) as -> by now destruct value, data.
  assert (negb (dc_width config =? 0) && negb (size =? dc_width config) = false) as ->.
  { destruct Hw as [E|E]; rewrite E; [done|]. rewrite Z.eqb_refl. apply andb_false_r. }
  rewrite (proj2 (Z.ltb_ge _ _)) by lia. cbn [orb]. rewrite count_loop_leading.
  assert (nibble_seq m data 0 (Z.to_nat (size * 2)) = ds ++ replicate k 15) as En.
  { replace (Z.to_nat (size * 2)) with (2 * Z.to_nat size)%nat by lia. pose proof (nibble_seq_octets m data (Z.to_nat size) 0 ltac:(lia)) as E.
    rewrite Z.mul_0_r, padd_0, Z2Nat.id in E by lia. congruence. }
  rewrite En, (leading_padded ds k Hds). cbn [option_map]. rewrite Z.add_0_l, (proj2 (Z.leb_gt _ _)) by lia.
  assert (zlen ds + Z.of_nat k = 2 * size) as Elen.
  { apply (f_equal length) in En. unfold nibble_seq in En. rewrite length_map, length_seq, length_app, length_replicate in En. lia. }
  destruct (store_loop_spec (length ds) m data value m 0) as [Ho Hb]; try done.
  { assert ((0 + zlen ds + 1) / 2 <= size) by (Z.to_euclidean_division_equations; lia). destruct value, data; cbn [disjoint_range] in *; lia. }
  rewrite Z.add_0_l in *. change (Z.to_nat 0 + length ds)%nat with (length ds) in Hb. rewrite Nat2Z.id. set (m1 := digits_store_loop _ _ _ _ _) in *.
  assert (nibble_seq m data 0 (length ds) = ds) as Eds.
  { unfold nibble_seq in *. replace (Z.to_nat (size * 2)) with (length ds + k)%nat in En by lia. rewrite seq_app, map_app in En.
    apply app_inj_1 in En as [En _]; [done|]. now rewrite length_map, length_seq. }
  rewrite Eds in Hb. eexists _, _. split; [reflexivity|]. split.
  - eapply only_trans; [apply (only_prefix _ _ _ _ (zlen ds)); [lia|exact Ho]|]. apply st_only. lia.
  - rewrite bytes_of_snoc by lia. rewrite ld_st_same by now destruct value. f_equal. rewrite <- Hb. apply bytes_of_ext. intros j Hj. apply ld_st_other. lia.
Qed.

(** Nothing else is decoded. *)
Lemma digits_decode_only m data size value capacity dg m' dg' : 0 <= size ->
  tlv_digits_decode (Some config) m data size value capacity dg = (TLV_OK, m', dg') ->
  exists ds k, nibbles (bytes_of m data size) = ds ++ replicate k 15 /\ Forall is_digit ds /\ zlen ds < capacity /\
    (config.(dc_width) = 0 \/ size = config.(dc_width)).
Proof using Hwidth.
  intros Hs. unfold tlv_digits_decode. destruct (_ || _ && _); [done|]. destruct (_ || _) eqn:Ew; [done|]. rewrite count_loop_leading.
  destruct (leading_digits false _) as [c|] eqn:El; [|done]. cbn [option_map]. destruct (Z.leb_spec capacity (0 + c)); [done|]. intros _.
  apply leading_some in El as (ds & k & En & Hds & -> & _).
  2: { eapply (list.Forall_impl is_nibble); [apply nibble_seq_range|]. unfold is_nibble. intros; lia. }
  exists ds, k. replace (Z.to_nat (size * 2)) with (2 * Z.to_nat size)%nat in En by lia.
  pose proof (nibble_seq_octets m data (Z.to_nat size) 0 ltac:(lia)) as E. rewrite Z.mul_0_r, padd_0, Z2Nat.id in E by lia.
  split; [congruence|]. split; [done|]. split; [lia|]. apply orb_false_iff in Ew as [Ew _]. apply andb_false_iff in Ew as [Ew|Ew]; apply negb_false_iff, Z.eqb_eq in Ew; auto.
Qed.

Lemma padded_length ds : digits_fit config ds -> length (digits_padded config ds) = (2 * Z.to_nat (digits_octets config (zlen ds)))%nat.
Proof using.
  intros [_ [Hl _]]. unfold digits_padded. rewrite length_app, length_replicate. assert (zlen ds <= 2 * (zlen ds / 2 + zlen ds mod 2)) by (Z.to_euclidean_division_equations; lia). lia.
Qed.

Lemma padded_nibbles ds : digits_fit config ds -> Forall is_nibble (digits_padded config ds).
Proof using.
  intros [Hds _]. unfold digits_padded. apply list.Forall_app. split; [eapply (list.Forall_impl is_digit); [exact Hds|]; unfold is_digit, is_nibble; intros; lia|].
  apply list.Forall_forall. intros x Hx. apply elem_of_replicate in Hx as [-> _]. unfold is_nibble. lia.
Qed.

Lemma digits_encode_run m value data ds capacity w0 dg : digits_fit config ds -> value <> NULL -> data <> NULL ->
  bytes_of m value (zlen ds) = map (Z.add 48) ds -> digits_octets config (zlen ds) <= capacity -> disjoint_range data (digits_octets config (zlen ds)) value (zlen ds) ->
  exists m' dg', tlv_digits_encode (Some config) m value (zlen ds) data capacity (Some w0) dg = (TLV_OK, m', Some (digits_octets config (zlen ds)), dg') /\
    only_changes m m' data (digits_octets config (zlen ds)) /\
    bytes_of m' data (digits_octets config (zlen ds)) = pack_nibbles (digits_padded config ds).
Proof using Hwidth.
  intros Hfit Hv Hd Hb Hc Hap. pose proof Hfit as [Hds [Hl Hm]]. unfold tlv_digits_encode.
  assert (is_null value || is_null data && negb (capacity =? 0) = false) as -> by now destruct value, data.
  unfold digits_octets in *. set (n := zlen ds / 2 + zlen ds mod 2) in *.
  assert (negb (dc_width config =? 0) && (dc_width config <? n) = false) as -> by (destruct (Z.eqb_spec (dc_width config) 0); [done|cbn; apply Z.ltb_ge; lia]).
  assert ((if negb (dc_width config =? 0) then dc_width config else n) = if dc_width config =? 0 then n else dc_width config) as -> by now destruct (_ =? 0).
  set (k := if dc_width config =? 0 then n else dc_width config) in *. rewrite (proj2 (Z.ltb_ge _ k)) by lia.
  assert (digits_valid_loop (Z.to_nat (zlen ds)) m value 0 = true) as ->.
  { apply valid_loop_chars. rewrite padd_0, Z2Nat.id, Hb by lia. apply list.Forall_forall. intros x Hx.
    apply list_elem_of_In, in_map_iff in Hx as (d & <- & Hin). rewrite List.Forall_forall in Hds. specialize (Hds d Hin). unfold is_digit in Hds. lia. }
  cbn [negb]. rewrite (data_null data Hd), (proj2 (Z.ltb_ge capacity k)) by lia. cbn [negb andb].
  assert (zlen ds <= 2 * n) as Hn by (unfold n; Z.to_euclidean_division_equations; lia).
  destruct (pack_loop_spec (Z.to_nat k) m value (zlen ds) data ds m 0) as [Ho Hb2]; try done; [rewrite Z2Nat.id by lia; exact Hap|].
  rewrite Z.add_0_l, Z2Nat.id in * by lia. change (Z.to_nat 0 + Z.to_nat k)%nat with (Z.to_nat k) in Hb2. eexists _, _. split; [reflexivity|]. split; [exact Ho|].
  rewrite Hb2. f_equal. rewrite nibbles_padded by lia. unfold digits_padded, digits_octets. fold n k. do 2 f_equal. lia.
Qed.
End Laws.

(** C39. The digits codec is exact: the characters of decimal digits are packed two to an octet and filled up with the
    nibble 15 to the fixed or the least width, and decoding gives back the characters and a NUL, touching
    nothing else; whatever octets decode are digits followed by fill and nothing else, with room for
    the characters and the NUL. *)
Theorem digits_codec_exact `{Platform} (config : tlv_digits_codec_config_t) (m : mem) (value data out : ptr) (ds : list Z)
  (capacity ocapacity w0 : Z) (dg1 dg2 : option tlv_codec_diagnostic_t)
  (Hwidth : 0 <= config.(dc_width)) (Hfit : digits_fit config ds) (Hv : value <> NULL) (Hd : data <> NULL) (Hout : out <> NULL)
  (Hb : bytes_of m value (zlen ds) = map (Z.add 48) ds) (Hc : digits_octets config (zlen ds) <= capacity)
  (Hoc : zlen ds < ocapacity) (Hap : disjoint_range data (digits_octets config (zlen ds)) value (zlen ds))
  (Hap2 : disjoint_range out (zlen ds + 1) data (digits_octets config (zlen ds))) :
  (exists m1 d1 m2 d2, let n := digits_octets config (zlen ds) in
    tlv_digits_encode (Some config) m value (zlen ds) data capacity (Some w0) dg1 = (TLV_OK, m1, Some n, d1) /\
    only_changes m m1 data n /\ bytes_of m1 data n = pack_nibbles (digits_padded config ds) /\
    tlv_digits_decode (Some config) m1 data n out ocapacity dg2 = (TLV_OK, m2, d2) /\
    only_changes m1 m2 out (zlen ds + 1) /\ bytes_of m2 out (zlen ds + 1) = map (Z.add 48) ds ++ [0]) /\
  (forall m0 octets size target room dg m' dg', 0 <= size ->
    tlv_digits_decode (Some config) m0 octets size target room dg = (TLV_OK, m', dg') ->
    exists ds k, nibbles (bytes_of m0 octets size) = ds ++ replicate k 15 /\ Forall is_digit ds /\ zlen ds < room /\
      (config.(dc_width) = 0 \/ size = config.(dc_width))).
Proof.
  split; [|intros; eapply digits_decode_only; eassumption].
  destruct (digits_encode_run config Hwidth m value data ds capacity w0 dg1 Hfit Hv Hd Hb Hc Hap) as (m1 & d1 & E1 & Ho1 & Hb1).
  pose proof Hfit as [Hds [Hl Hm]]. assert (0 <= digits_octets config (zlen ds)) as H0n by (unfold digits_octets; destruct (_ =? 0); [Z.to_euclidean_division_equations|]; lia).
  destruct (digits_decode_run config Hwidth m1 data (digits_octets config (zlen ds)) out ocapacity dg2 ds
    (Z.to_nat (2 * digits_octets config (zlen ds) - zlen ds))) as (m2 & d2 & E2 & Ho2 & Hb2); try done.
  - rewrite Hb1. exact (nibbles_pack _ _ (padded_length config ds Hfit) (padded_nibbles config ds Hfit)).
  - unfold digits_octets. destruct (Z.eqb_spec (dc_width config) 0); auto.
  - exists m1, d1, m2, d2. done.
Qed.

Lemma digits_codec_exact_witness :
  let m := mem_of 1 [49; 50; 51] in
  exists m1 d1 m2 d2,
    @tlv_digits_encode LP64 (Some (mk_digits_config 3)) m (Ptr 1 0) 3 (Ptr 2 0) 3 (Some 0) None = (TLV_OK, m1, Some 3, d1) /\
    bytes_of m1 (Ptr 2 0) 3 = [18; 63; 255] /\
    @tlv_digits_decode LP64 (Some (mk_digits_config 3)) m1 (Ptr 2 0) 3 (Ptr 3 0) 4 None = (TLV_OK, m2, d2) /\
    bytes_of m2 (Ptr 3 0) 4 = [49; 50; 51; 0].
Proof.
  intros m. destruct (digits_codec_exact (H := LP64) (mk_digits_config 3) m (Ptr 1 0) (Ptr 2 0) (Ptr 3 0) [1; 2; 3] 3 4 0 None None) as
    [(m1 & d1 & m2 & d2 & E1 & _ & Hb1 & E2 & _ & Hb2) _];
    [vm_compute; congruence| |discriminate|discriminate|discriminate|vm_compute; reflexivity|vm_compute; congruence|vm_compute; reflexivity|vm_compute; auto; lia|vm_compute; auto; lia|].
  - split; [repeat constructor; unfold is_digit; lia|split; vm_compute; congruence].
  - exists m1, d1, m2, d2. split; [exact E1|]. split; [exact Hb1|]. split; [exact E2|exact Hb2].
Defined.
