(* ===== verification/Schema.v ===== *)
(** * Schemas: definitions and their check (schema/schema.h, schema/constraint.h, src/schema/schema.c,
    src/schema/constraint.c, src/schema/diagnostic_internal.h)

    A structural schema is a graph of tables that refer to each other by address, possibly in cycles:
    the definitions take the tables that live at the addresses, and [check_loop] compares addresses.
    An array that may be NULL is an [option] of a list. *)

From S2P Require Import Prelude Mem Core Format Diagnostic Codec.
From Stdlib Require Import String.

Definition TLV_SCHEMA_MAX_DEPTH : Z := 64.
Definition TLV_SCHEMA_MAX_TABLES : Z := 256.
Definition TLV_SCHEMA_LENGTH_ENDPOINTS : Z := 1.

Record tlv_schema_entry_t := mk_schema_entry {
  se_tag : tlv_tag_t; se_min_length : Z; se_max_length : Z; se_flags : Z; se_name : option string; se_length_multiple : Z }.

Record tlv_schema_t := mk_schema { sc_entries : option (list tlv_schema_entry_t); sc_count : Z }.

(** [sr_children] is the address of a table. *)
Record tlv_structure_rule_t := mk_rule {
  sr_entry : option tlv_schema_entry_t; sr_min_occurs : Z; sr_max_occurs : Z; sr_kind : tlv_schema_kind_t;
  sr_children : option Z; sr_group : Z }.

Inductive tlv_schema_order_t : Type :=
| TLV_SCHEMA_ORDER_ANY | TLV_SCHEMA_ORDER_SEQUENCE | TLV_SCHEMA_ORDER_OTHER (n : Z).

#[export] Instance schema_order_eq_dec : EqDecision tlv_schema_order_t.
Proof. solve_decision. Defined.

#[export] Instance schema_kind_eq_dec : EqDecision tlv_schema_kind_t.
Proof. solve_decision. Defined.

#[export] Instance schema_issue_kind_eq_dec : EqDecision tlv_schema_issue_kind_t.
Proof. solve_decision. Defined.

Record tlv_structure_group_t := mk_group {
  sg_id : Z; sg_min_occurs : Z; sg_max_occurs : Z; sg_name : option string }.

Record tlv_structure_schema_t := mk_structure {
  ss_rules : option (list tlv_structure_rule_t); ss_count : Z; ss_allow_unknown : Z;
  ss_groups : option (list tlv_structure_group_t); ss_group_count : Z; ss_order : tlv_schema_order_t }.

(** ** Diagnostics *)

Record tlv_schema_diagnostic_t := mk_schema_diagnostic {
  sdg_diagnostic : tlv_diagnostic_t; sdg_kind : tlv_schema_issue_kind_t; sdg_tag : tlv_tag_t;
  sdg_definition : tlv_schema_definition_location_t; sdg_field : option string; sdg_is_group : Z;
  sdg_has_occurs : Z; sdg_min_occurs : Z; sdg_max_occurs : Z; sdg_occurs : Z;
  sdg_has_length : Z; sdg_min_length : Z; sdg_max_length : Z; sdg_actual_length : Z;
  sdg_has_form : Z; sdg_expected_form : tlv_schema_kind_t; sdg_actual_constructed : Z;
  sdg_length_multiple : Z; sdg_length_flags : Z }.

Definition no_definition : tlv_schema_definition_location_t := mk_definition_location TLV_SCHEMA_DEFINITION_UNKNOWN NULL 0.

(** [memset] to zero. *)
Definition no_schema_diagnostic : tlv_schema_diagnostic_t :=
  mk_schema_diagnostic (mk_diagnostic TLV_OK TLV_DIAGNOSTIC_SEVERITY_INFO no_location None None no_context false no_path)
    TLV_SCHEMA_ISSUE_NONE empty_tag no_definition None 0 0 0 0 0 0 0 0 0 0 TLV_SCHEMA_ANY 0 0 0.

Definition tlv_schema_diagnostic_init (diagnostic : option tlv_schema_diagnostic_t) : option tlv_schema_diagnostic_t :=
  match diagnostic with None => None | Some _ => Some no_schema_diagnostic end.

Definition with_base (base : tlv_diagnostic_t) (d : tlv_schema_diagnostic_t) : tlv_schema_diagnostic_t :=
  mk_schema_diagnostic base d.(sdg_kind) d.(sdg_tag) d.(sdg_definition) d.(sdg_field) d.(sdg_is_group)
    d.(sdg_has_occurs) d.(sdg_min_occurs) d.(sdg_max_occurs) d.(sdg_occurs) d.(sdg_has_length) d.(sdg_min_length)
    d.(sdg_max_length) d.(sdg_actual_length) d.(sdg_has_form) d.(sdg_expected_form) d.(sdg_actual_constructed)
    d.(sdg_length_multiple) d.(sdg_length_flags).

(** The code and the severity. *)
Definition with_failure (code : tlv_result_t) (d : tlv_schema_diagnostic_t) : tlv_schema_diagnostic_t :=
  let b := d.(sdg_diagnostic) in
  with_base (mk_diagnostic code TLV_DIAGNOSTIC_SEVERITY_ERROR b.(dg_location) b.(dg_expected) b.(dg_actual)
               b.(dg_contexts) b.(dg_has_path) b.(dg_path)) d.

Definition with_kind (kind : tlv_schema_issue_kind_t) (tag : tlv_tag_t) (d : tlv_schema_diagnostic_t) : tlv_schema_diagnostic_t :=
  mk_schema_diagnostic d.(sdg_diagnostic) kind tag d.(sdg_definition) d.(sdg_field) d.(sdg_is_group)
    d.(sdg_has_occurs) d.(sdg_min_occurs) d.(sdg_max_occurs) d.(sdg_occurs) d.(sdg_has_length) d.(sdg_min_length)
    d.(sdg_max_length) d.(sdg_actual_length) d.(sdg_has_form) d.(sdg_expected_form) d.(sdg_actual_constructed)
    d.(sdg_length_multiple) d.(sdg_length_flags).

Definition with_definition (definition : tlv_schema_definition_location_t) (d : tlv_schema_diagnostic_t) : tlv_schema_diagnostic_t :=
  mk_schema_diagnostic d.(sdg_diagnostic) d.(sdg_kind) d.(sdg_tag) definition d.(sdg_field) d.(sdg_is_group)
    d.(sdg_has_occurs) d.(sdg_min_occurs) d.(sdg_max_occurs) d.(sdg_occurs) d.(sdg_has_length) d.(sdg_min_length)
    d.(sdg_max_length) d.(sdg_actual_length) d.(sdg_has_form) d.(sdg_expected_form) d.(sdg_actual_constructed)
    d.(sdg_length_multiple) d.(sdg_length_flags).

Definition with_field (field : option string) (d : tlv_schema_diagnostic_t) : tlv_schema_diagnostic_t :=
  mk_schema_diagnostic d.(sdg_diagnostic) d.(sdg_kind) d.(sdg_tag) d.(sdg_definition) field d.(sdg_is_group)
    d.(sdg_has_occurs) d.(sdg_min_occurs) d.(sdg_max_occurs) d.(sdg_occurs) d.(sdg_has_length) d.(sdg_min_length)
    d.(sdg_max_length) d.(sdg_actual_length) d.(sdg_has_form) d.(sdg_expected_form) d.(sdg_actual_constructed)
    d.(sdg_length_multiple) d.(sdg_length_flags).

Definition no_entry : tlv_schema_entry_t := mk_schema_entry empty_tag 0 0 0 None 0.
Definition no_rule : tlv_structure_rule_t := mk_rule None 0 0 TLV_SCHEMA_ANY None 0.
Definition no_group : tlv_structure_group_t := mk_group 0 0 0 None.

(** [rule->entry], once it is known not to be NULL. *)
Definition entry_of (rule : tlv_structure_rule_t) : tlv_schema_entry_t := cell no_entry rule.(sr_entry).

Definition schema_issue_occurs (diagnostic : tlv_schema_diagnostic_t) (rule : tlv_structure_rule_t)
  (group : option tlv_structure_group_t) (occurs : Z) : tlv_schema_diagnostic_t :=
  let d := diagnostic in
  mk_schema_diagnostic d.(sdg_diagnostic) d.(sdg_kind) d.(sdg_tag) d.(sdg_definition)
    (match group with Some g => g.(sg_name) | None => (entry_of rule).(se_name) end)
    (match group with Some _ => 1 | None => 0 end) 1
    (match group with Some g => g.(sg_min_occurs) | None => rule.(sr_min_occurs) end)
    (match group with Some g => g.(sg_max_occurs) | None => rule.(sr_max_occurs) end) occurs
    d.(sdg_has_length) d.(sdg_min_length) d.(sdg_max_length) d.(sdg_actual_length) d.(sdg_has_form)
    d.(sdg_expected_form) d.(sdg_actual_constructed) d.(sdg_length_multiple) d.(sdg_length_flags).

Definition schema_issue_length (diagnostic : tlv_schema_diagnostic_t) (rule : tlv_structure_rule_t)
  (actual_length : Z) : tlv_schema_diagnostic_t :=
  let d := diagnostic in
  let entry := entry_of rule in
  mk_schema_diagnostic d.(sdg_diagnostic) d.(sdg_kind) d.(sdg_tag) d.(sdg_definition) entry.(se_name) d.(sdg_is_group)
    d.(sdg_has_occurs) d.(sdg_min_occurs) d.(sdg_max_occurs) d.(sdg_occurs) 1 entry.(se_min_length)
    entry.(se_max_length) actual_length d.(sdg_has_form) d.(sdg_expected_form) d.(sdg_actual_constructed)
    entry.(se_length_multiple) entry.(se_flags).

Definition schema_issue_form (diagnostic : tlv_schema_diagnostic_t) (rule : tlv_structure_rule_t)
  (actual_constructed : Z) : tlv_schema_diagnostic_t :=
  let d := diagnostic in
  mk_schema_diagnostic d.(sdg_diagnostic) d.(sdg_kind) d.(sdg_tag) d.(sdg_definition) (entry_of rule).(se_name)
    d.(sdg_is_group) d.(sdg_has_occurs) d.(sdg_min_occurs) d.(sdg_max_occurs) d.(sdg_occurs) d.(sdg_has_length)
    d.(sdg_min_length) d.(sdg_max_length) d.(sdg_actual_length) 1 rule.(sr_kind) actual_constructed
    d.(sdg_length_multiple) d.(sdg_length_flags).

(** ** Flat schemas *)

(** [entries[i]] of the array, for an index that it has. *)
Definition entry_at (schema : tlv_schema_t) (i : Z) : tlv_schema_entry_t :=
  nth (Z.to_nat i) (default [] schema.(sc_entries)) no_entry.

Fixpoint find_loop (m : mem) (fuel : nat) (schema : tlv_schema_t) (tag : tlv_tag_t) (i : Z) : option tlv_schema_entry_t :=
  match fuel with
  | O => None
  | S fuel =>
      let entry := entry_at schema i in
      if negb (entry.(se_tag).(t_size) =? 0) && is_null entry.(se_tag).(t_data) then find_loop m fuel schema tag (i + 1)
      else if tlv_tag_equal m entry.(se_tag) tag then Some entry
      else find_loop m fuel schema tag (i + 1)
  end.

Definition tlv_schema_find (m : mem) (schema : option tlv_schema_t) (tag : option tlv_tag_t) : option tlv_schema_entry_t :=
  match schema, tag with
  | Some schema, Some tag =>
      if bool_decide (schema.(sc_entries) = None) && negb (schema.(sc_count) =? 0) then None
      else if negb (tag.(t_size) =? 0) && is_null tag.(t_data) then None
      else find_loop m (Z.to_nat schema.(sc_count)) schema tag 0
  | _, _ => None
  end.

Definition tlv_schema_validate_length (entry : option tlv_schema_entry_t) (length : Z) : tlv_result_t :=
  match entry with
  | None => TLV_ERR_NULL_ARG
  | Some e =>
      if e.(se_max_length) <? e.(se_min_length) then TLV_ERR_INVALID_SCHEMA
      else if (length <? e.(se_min_length)) || (e.(se_max_length) <? length) ||
              (negb (Z.land e.(se_flags) TLV_SCHEMA_LENGTH_ENDPOINTS =? 0) && negb (length =? e.(se_min_length)) &&
               negb (length =? e.(se_max_length))) ||
              (negb (e.(se_length_multiple) =? 0) && negb (length mod e.(se_length_multiple) =? 0))
      then TLV_ERR_SCHEMA
      else TLV_OK
  end.

(** ** Structural schemas *)

Definition rule_at (schema : tlv_structure_schema_t) (i : Z) : tlv_structure_rule_t :=
  nth (Z.to_nat i) (default [] schema.(ss_rules)) no_rule.
Definition group_at (schema : tlv_structure_schema_t) (i : Z) : tlv_structure_group_t :=
  nth (Z.to_nat i) (default [] schema.(ss_groups)) no_group.

(** [(int)g] *)
Definition int_of (n : Z) : Z := if u32 n <? 2 ^ 31 then u32 n else u32 n - 2 ^ 32.

Fixpoint group_index_loop (fuel : nat) (schema : tlv_structure_schema_t) (id g : Z) : Z :=
  match fuel with
  | O => -1
  | S fuel => if (group_at schema g).(sg_id) =? id then int_of g else group_index_loop fuel schema id (g + 1)
  end.
Definition group_index (schema : tlv_structure_schema_t) (id : Z) : Z :=
  group_index_loop (Z.to_nat schema.(ss_group_count)) schema id 0.

(** Some index from 0 up to [n], exclusive. *)
Definition some_index (n : Z) (test : Z -> bool) : bool := existsb test (seqZ 0 n).

Definition group_invalid (schema : tlv_structure_schema_t) (g : Z) : bool :=
  let group := group_at schema g in
  (group.(sg_id) =? 0) || (group.(sg_max_occurs) <? group.(sg_min_occurs)) ||
  some_index g (fun h => (group_at schema h).(sg_id) =? group.(sg_id)) ||
  negb (some_index schema.(ss_count) (fun i => (rule_at schema i).(sr_group) =? group.(sg_id))).

Definition rule_invalid (m : mem) (schema : tlv_structure_schema_t) (i : Z) : bool :=
  let rule := rule_at schema i in
  match rule.(sr_entry) with
  | None => true
  | Some entry =>
      (entry.(se_tag).(t_size) =? 0) || is_null entry.(se_tag).(t_data) ||
      (entry.(se_max_length) <? entry.(se_min_length)) || (rule.(sr_max_occurs) <? rule.(sr_min_occurs)) ||
      (match rule.(sr_kind) with TLV_SCHEMA_KIND_OTHER _ => true | _ => false end) ||
      (bool_decide (rule.(sr_children) <> None) && negb (bool_decide (rule.(sr_kind) = TLV_SCHEMA_CONSTRUCTED))) ||
      (negb (rule.(sr_group) =? 0) && (group_index schema rule.(sr_group) <? 0)) ||
      (negb (rule.(sr_group) =? 0) && negb (rule.(sr_min_occurs) =? 0)) ||
      some_index i (fun j => tlv_tag_equal m entry.(se_tag) (entry_of (rule_at schema j)).(se_tag))
  end.

(** The out-parameter is the object that is being looked at. *)
Definition locate (location : option tlv_schema_definition_location_t) (kind : tlv_schema_definition_kind_t)
  (owner index : Z) : option tlv_schema_definition_location_t :=
  match location with None => None | Some _ => Some (mk_definition_location kind (Ptr owner 0) index) end.

Fixpoint check_groups (fuel : nat) (schema : tlv_structure_schema_t) (owner g : Z)
  (location : option tlv_schema_definition_location_t) : tlv_result_t * option tlv_schema_definition_location_t :=
  match fuel with
  | O => (TLV_OK, location)
  | S fuel =>
      let location := locate location TLV_SCHEMA_DEFINITION_GROUP owner g in
      if group_invalid schema g then (TLV_ERR_INVALID_SCHEMA, location)
      else check_groups fuel schema owner (g + 1) location
  end.

Fixpoint check_rules (m : mem) (fuel : nat) (schema : tlv_structure_schema_t) (owner i : Z)
  (location : option tlv_schema_definition_location_t) : tlv_result_t * option tlv_schema_definition_location_t :=
  match fuel with
  | O => (TLV_OK, location)
  | S fuel =>
      let location := locate location TLV_SCHEMA_DEFINITION_RULE owner i in
      if rule_invalid m schema i then (TLV_ERR_INVALID_SCHEMA, location)
      else check_rules m fuel schema owner (i + 1) location
  end.

Section Check.
Context (m : mem) (tables : Z -> tlv_structure_schema_t).

Definition check_table (owner : Z) (location : option tlv_schema_definition_location_t)
  : tlv_result_t * option tlv_schema_definition_location_t :=
  let schema := tables owner in
  let location := locate location TLV_SCHEMA_DEFINITION_TABLE owner 0 in
  if bool_decide (schema.(ss_rules) = None) && negb (schema.(ss_count) =? 0) then (TLV_ERR_INVALID_SCHEMA, location)
  else if bool_decide (schema.(ss_groups) = None) && negb (schema.(ss_group_count) =? 0) then
    (TLV_ERR_INVALID_SCHEMA, location)
  else
    match schema.(ss_order) with
    | TLV_SCHEMA_ORDER_OTHER _ => (TLV_ERR_INVALID_SCHEMA, location)
    | _ =>
        let '(rc, location) := check_groups (Z.to_nat schema.(ss_group_count)) schema owner 0 location in
        if negb (is_ok rc) then (rc, location)
        else check_rules m (Z.to_nat schema.(ss_count)) schema owner 0 location
    end.

(** The tables found so far, with the children of the rules from [rule] on; [None] when there are too many. *)
Fixpoint enqueue (fuel : nat) (schema : tlv_structure_schema_t) (rule : Z) (found : list Z) : option (list Z) :=
  match fuel with
  | O => Some found
  | S fuel =>
      match (rule_at schema rule).(sr_children) with
      | None => enqueue fuel schema (rule + 1) found
      | Some child =>
          if bool_decide (child ∈ found) then enqueue fuel schema (rule + 1) found
          else if zlen found =? TLV_SCHEMA_MAX_TABLES then None
          else enqueue fuel schema (rule + 1) (found ++ [child])
      end
  end.

Fixpoint check_loop (fuel : nat) (found : list Z) (next : nat) (location : option tlv_schema_definition_location_t)
  : option (tlv_result_t * option tlv_schema_definition_location_t) :=
  match fuel with
  | O => None
  | S fuel =>
      match found !! next with
      | None => Some (TLV_OK, location)
      | Some current =>
          let '(rc, location) := check_table current location in
          if negb (is_ok rc) then Some (rc, location)
          else
            match enqueue (Z.to_nat (tables current).(ss_count)) (tables current) 0 found with
            | None => Some (TLV_ERR_UNSUPPORTED, location)
            | Some found => check_loop fuel found (S next) location
            end
      end
  end.

(** A table is looked at once, so that as many rounds as there can be tables, and one more, are enough. *)
Definition tlv_schema_check (schema : option Z) (diagnostic : option tlv_schema_diagnostic_t)
  : option (tlv_result_t * option tlv_schema_diagnostic_t) :=
  let diagnostic := tlv_schema_diagnostic_init diagnostic in
  match
    match schema with
    | None => Some (TLV_ERR_NULL_ARG, option_map sdg_definition diagnostic)
    | Some root => check_loop (Z.to_nat TLV_SCHEMA_MAX_TABLES + 1) [root] 0 (option_map sdg_definition diagnostic)
    end
  with
  | None => None
  | Some (rc, location) =>
      Some (rc,
            match diagnostic with
            | None => None
            | Some d =>
                let d := with_definition (if is_ok rc then no_definition else cell no_definition location) d in
                Some (if is_ok rc then d
                      else
                        let d := with_failure rc d in
                        if rc_eqb rc TLV_ERR_INVALID_SCHEMA then with_kind TLV_SCHEMA_ISSUE_DEFINITION d.(sdg_tag) d else d)
            end)
  end.

(** The schema of a handle, [None] when it is not prepared. *)
Record tlv_schema_checked_t := mk_checked { ck_schema : option Z }.

Definition tlv_schema_prepare (checked : option tlv_schema_checked_t) (schema : option Z)
  (diagnostic : option tlv_schema_diagnostic_t)
  : option (tlv_result_t * option tlv_schema_checked_t * option tlv_schema_diagnostic_t) :=
  match checked with
  | None =>
      Some (TLV_ERR_NULL_ARG, checked,
            match tlv_schema_diagnostic_init diagnostic with
            | Some d => Some (with_failure TLV_ERR_NULL_ARG d)
            | None => None
            end)
  | Some _ =>
      match tlv_schema_check schema diagnostic with
      | None => None
      | Some (rc, diagnostic) => Some (rc, Some (mk_checked (if is_ok rc then schema else None)), diagnostic)
      end
  end.
End Check.

(** ** Value constraints *)

Inductive tlv_value_constraint_kind_t : Type :=
| TLV_VALUE_CONSTRAINT_NONE | TLV_VALUE_CONSTRAINT_RANGE | TLV_VALUE_CONSTRAINT_ALLOWED_VALUES
| TLV_VALUE_CONSTRAINT_OTHER (n : Z).

Record tlv_value_constraint_t := mk_constraint {
  vcn_kind : tlv_value_constraint_kind_t; vcn_min_value : Z; vcn_max_value : Z;
  vcn_allowed_values : option (list Z); vcn_allowed_values_count : Z;
  vcn_allowed_value_names : option (list (option string)) }.

Definition tlv_value_constraint_check (constraint : option tlv_value_constraint_t) : tlv_result_t :=
  match constraint with
  | None => TLV_ERR_NULL_ARG
  | Some c =>
      match c.(vcn_kind) with
      | TLV_VALUE_CONSTRAINT_NONE => TLV_OK
      | TLV_VALUE_CONSTRAINT_RANGE => if c.(vcn_min_value) <=? c.(vcn_max_value) then TLV_OK else TLV_ERR_INVALID_SCHEMA
      | TLV_VALUE_CONSTRAINT_ALLOWED_VALUES =>
          if (c.(vcn_allowed_values_count) =? 0) || bool_decide (c.(vcn_allowed_values) <> None) then TLV_OK
          else TLV_ERR_INVALID_SCHEMA
      | TLV_VALUE_CONSTRAINT_OTHER _ => TLV_ERR_INVALID_SCHEMA
      end
  end.

Definition allowed_at (c : tlv_value_constraint_t) (i : Z) : Z := nth (Z.to_nat i) (default [] c.(vcn_allowed_values)) 0.

Definition tlv_value_constraint_validate (constraint : option tlv_value_constraint_t) (value : Z) : tlv_result_t :=
  let rc := tlv_value_constraint_check constraint in
  match constraint with
  | None => rc
  | Some c =>
      if negb (is_ok rc) then rc
      else
        match c.(vcn_kind) with
        | TLV_VALUE_CONSTRAINT_NONE => TLV_OK
        | TLV_VALUE_CONSTRAINT_RANGE =>
            if (c.(vcn_max_value) <? c.(vcn_min_value)) || (value <? c.(vcn_min_value)) || (c.(vcn_max_value) <? value)
            then TLV_ERR_SCHEMA else TLV_OK
        | TLV_VALUE_CONSTRAINT_ALLOWED_VALUES =>
            if negb (c.(vcn_allowed_values_count) =? 0) && bool_decide (c.(vcn_allowed_values) = None) then TLV_ERR_SCHEMA
            else if some_index c.(vcn_allowed_values_count) (fun i => allowed_at c i =? value) then TLV_OK
            else TLV_ERR_SCHEMA
        | TLV_VALUE_CONSTRAINT_OTHER _ => TLV_ERR_SCHEMA
        end
  end.

Fixpoint name_loop (fuel : nat) (c : tlv_value_constraint_t) (value i : Z) : option string :=
  match fuel with
  | O => None
  | S fuel =>
      if allowed_at c i =? value then nth (Z.to_nat i) (default [] c.(vcn_allowed_value_names)) None
      else name_loop fuel c value (i + 1)
  end.

Definition tlv_value_constraint_name (constraint : option tlv_value_constraint_t) (value : Z) : option string :=
  match constraint with
  | None => None
  | Some c =>
      match c.(vcn_kind), c.(vcn_allowed_values), c.(vcn_allowed_value_names) with
      | TLV_VALUE_CONSTRAINT_ALLOWED_VALUES, Some _, Some _ => name_loop (Z.to_nat c.(vcn_allowed_values_count)) c value 0
      | _, _, _ => None
      end
  end.
