(* ===== verification/SchemaLaws.v ===== *)
(** * Schemas: the laws of the definition check

    [tlv_schema_check] decides whether every table that can be reached from a schema is well formed, with
    cycles, within its capacity of tables. *)

From stdpp Require Import relations.
From S2P Require Import Prelude Mem Core Format Diagnostic Codec Schema.

(** ** Arrays and their indices *)

Lemma some_index_spec n test : some_index n test = true <-> exists i, 0 <= i < n /\ test i = true.
Proof.
  unfold some_index. rewrite existsb_exists. split.
  - intros (i & Hi & Ht). exists i. apply list_elem_of_In, elem_of_seqZ in Hi. split; [lia|done].
  - intros (i & Hi & Ht). exists i. split; [apply list_elem_of_In, elem_of_seqZ; lia|done].
Qed.

Lemma some_index_false n test : some_index n test = false <-> forall i, 0 <= i < n -> test i = false.
Proof.
  rewrite <- not_true_iff_false, some_index_spec. split.
  - intros Hn i Hi. apply not_true_iff_false. eauto.
  - intros Hf (i & Hi & Ht). rewrite Hf in Ht; done.
Qed.

Section Arrays.
Context {A : Type} (d : A).
Implicit Types (l : list A) (x : A).

Lemma nth_in l i : 0 <= i < zlen l -> nth (Z.to_nat i) l d ∈ l.
Proof using. intros Hi. apply list_elem_of_In, nth_In. lia. Qed.

Lemma in_nth l x : x ∈ l <-> exists i, 0 <= i < zlen l /\ nth (Z.to_nat i) l d = x.
Proof using.
  split.
  - intros Hx. apply list_elem_of_In, (In_nth _ _ d) in Hx as (i & Hi & E). exists (Z.of_nat i). rewrite Nat2Z.id. split; [lia|done].
  - intros (i & Hi & <-). now apply nth_in.
Qed.

Lemma Forall_index l (P : A -> Prop) : Forall P l <-> forall i, 0 <= i < zlen l -> P (nth (Z.to_nat i) l d).
Proof using.
  rewrite list.Forall_forall. split; intros Hp.
  - intros i Hi. apply Hp, nth_in, Hi.
  - intros x Hx. apply in_nth in Hx as (i & Hi & <-). auto.
Qed.

(** No element has the key of an earlier one. *)
Lemma NoDup_index {B} (key : A -> B) l : NoDup (map key l) <->
  forall i j, 0 <= j < i -> i < zlen l -> key (nth (Z.to_nat j) l d) <> key (nth (Z.to_nat i) l d).
Proof using.
  rewrite NoDup_ListNoDup, (NoDup_nth _ (key d)). rewrite length_map. split.
  - intros Hn i j Hj Hi E. rewrite <- !(map_nth key) in E. apply Hn in E; lia.
  - intros Hn i j Hi Hj E. rewrite !(map_nth key) in E. destruct (lt_eq_lt_dec i j) as [[Hl|]|Hl]; [|done|].
    + destruct (Hn (Z.of_nat j) (Z.of_nat i)); [lia|lia|]. now rewrite !Nat2Z.id.
    + destruct (Hn (Z.of_nat i) (Z.of_nat j)); [lia|lia|]. now rewrite !Nat2Z.id.
Qed.
End Arrays.

(** ** Well-formed tables *)

Definition rules_of (t : tlv_structure_schema_t) : list tlv_structure_rule_t := default [] t.(ss_rules).
Definition groups_of (t : tlv_structure_schema_t) : list tlv_structure_group_t := default [] t.(ss_groups).
Definition rule_tag (r : tlv_structure_rule_t) : tlv_tag_t := (entry_of r).(se_tag).

(** The arrays have the lengths that the table says, an [int] can index the groups, and sizes are sizes. *)
Record table_typed (t : tlv_structure_schema_t) : Prop := {
  tt_rules : match t.(ss_rules) with Some l => zlen l = t.(ss_count) | None => 0 <= t.(ss_count) end;
  tt_groups : match t.(ss_groups) with Some l => zlen l = t.(ss_group_count) | None => 0 <= t.(ss_group_count) end;
  tt_index : t.(ss_group_count) < 2 ^ 31;
  tt_tags : Forall (fun r => 0 <= (rule_tag r).(t_size)) (rules_of t);
  tt_rule_occurs : Forall (fun r => 0 <= r.(sr_min_occurs)) (rules_of t);
  tt_group_occurs : Forall (fun g => 0 <= g.(sg_min_occurs)) (groups_of t) }.

Record group_ok (t : tlv_structure_schema_t) (g : tlv_structure_group_t) : Prop := {
  go_id : g.(sg_id) <> 0;
  go_occurs : g.(sg_min_occurs) <= g.(sg_max_occurs);
  go_member : exists r, r ∈ rules_of t /\ r.(sr_group) = g.(sg_id) }.

Record rule_ok (t : tlv_structure_schema_t) (r : tlv_structure_rule_t) : Prop := {
  ro_entry : exists e, r.(sr_entry) = Some e /\ e.(se_tag).(t_size) <> 0 /\ e.(se_tag).(t_data) <> NULL /\
                       e.(se_min_length) <= e.(se_max_length);
  ro_occurs : r.(sr_min_occurs) <= r.(sr_max_occurs);
  ro_kind : match r.(sr_kind) with TLV_SCHEMA_KIND_OTHER _ => False | _ => True end;
  ro_children : r.(sr_children) <> None -> r.(sr_kind) = TLV_SCHEMA_CONSTRUCTED;
  ro_group : r.(sr_group) <> 0 -> r.(sr_min_occurs) = 0 /\ exists g, g ∈ groups_of t /\ g.(sg_id) = r.(sr_group) }.

Record table_ok (m : mem) (t : tlv_structure_schema_t) : Prop := {
  to_rules : zlen (rules_of t) = t.(ss_count);
  to_groups : zlen (groups_of t) = t.(ss_group_count);
  to_order : match t.(ss_order) with TLV_SCHEMA_ORDER_OTHER _ => False | _ => True end;
  to_group : Forall (group_ok t) (groups_of t);
  to_ids : NoDup (map sg_id (groups_of t));
  to_rule : Forall (rule_ok t) (rules_of t);
  to_tags : NoDup (map (fun r => tag_bytes m (rule_tag r)) (rules_of t)) }.

Lemma int_of_small n : 0 <= n < 2 ^ 31 -> int_of n = n.
Proof. intros Hn. unfold int_of. assert (u32 n = n) as -> by (apply Z.mod_small; lia). now rewrite (proj2 (Z.ltb_lt _ _)) by lia. Qed.

Section Table.
Context (m : mem) (t : tlv_structure_schema_t)
  (Hrules : zlen (rules_of t) = t.(ss_count)) (Hgroups : zlen (groups_of t) = t.(ss_group_count))
  (Hindex : t.(ss_group_count) < 2 ^ 31) (Htags : Forall (fun r => 0 <= (rule_tag r).(t_size)) (rules_of t)).

Lemma group_index_spec id : group_index t id < 0 <-> ~ exists g, g ∈ groups_of t /\ g.(sg_id) = id.
Proof using Hgroups Hindex.
  assert (forall fuel g, 0 <= g -> g + Z.of_nat fuel = t.(ss_group_count) ->
    (group_index_loop fuel t id g < 0 <-> forall h, g <= h < t.(ss_group_count) -> sg_id (group_at t h) <> id)) as Hloop.
  { induction fuel as [|fuel IH]; intros g Hg Hf; cbn [group_index_loop].
    - split; [intros _ h Hh; lia|lia].
    - destruct (Z.eqb_spec (sg_id (group_at t g)) id) as [E|E].
      + rewrite int_of_small by lia. split; [lia|]. intros Hn. destruct (Hn g); [lia|done].
      + rewrite IH by lia. split; [|intros Hn h Hh; apply Hn; lia]. intros Hn h Hh. destruct (decide (h = g)) as [->|]; [done|]. apply Hn. lia. }
  unfold group_index. rewrite Hloop by lia. split.
  - intros Hn (g & Hg & E). apply (in_nth no_group) in Hg as (i & Hi & <-). destruct (Hn i); [lia|done].
  - intros Hn h Hh E. apply Hn. exists (group_at t h). split; [apply nth_in; lia|done].
Qed.

Lemma group_invalid_spec g : 0 <= g < t.(ss_group_count) ->
  group_invalid t g = false <->
  group_ok t (group_at t g) /\ forall h, 0 <= h < g -> sg_id (group_at t h) <> sg_id (group_at t g).
Proof using Hrules.
  intros Hg. unfold group_invalid. rewrite !orb_false_iff, Z.eqb_neq, Z.ltb_ge, some_index_false, negb_false_iff, some_index_spec. split.
  - intros [[[Hi Ho] Hd] (i & Hm & E)]. split; [split; [done|done|]|].
    + exists (rule_at t i). split; [apply nth_in; lia|lia].
    + intros h Hh. specialize (Hd h Hh). lia.
  - intros [[Hi Ho (r & Hr & E)] Hd]. split; [split; [done|]|].
    + intros h Hh. specialize (Hd h Hh). lia.
    + apply (in_nth no_rule) in Hr as (i & Hm & <-). exists i. split; [lia|]. unfold rule_at. fold (rules_of t). lia.
Qed.

Lemma rule_invalid_spec i : 0 <= i < t.(ss_count) ->
  rule_invalid m t i = false <->
  rule_ok t (rule_at t i) /\ forall j, 0 <= j < i -> tag_bytes m (rule_tag (rule_at t j)) <> tag_bytes m (rule_tag (rule_at t i)).
Proof using Hrules Hgroups Hindex Htags.
  intros Hi. unfold rule_invalid. set (r := rule_at t i).
  assert (forall j, 0 <= j < t.(ss_count) -> 0 <= (rule_tag (rule_at t j)).(t_size)) as Hsize.
  { intros j Hj. revert Htags. rewrite (Forall_index no_rule). intros Hf. apply Hf. lia. }
  destruct (sr_entry r) as [e|] eqn:Ee.
  2: { split; [done|]. intros [[(e & E & _) _ _ _ _] _]. congruence. }
  assert (rule_tag r = e.(se_tag)) as Et by (unfold rule_tag, entry_of; now rewrite Ee).
  rewrite !orb_false_iff, !andb_false_iff, Z.eqb_neq, !Z.ltb_ge, !negb_false_iff, !Z.eqb_eq, bool_decide_eq_true, bool_decide_eq_false, some_index_false.
  assert (group_index t (sr_group r) >= 0 <-> exists g, g ∈ groups_of t /\ sg_id g = sr_group r) as Hgi.
  { pose proof (group_index_spec (sr_group r)) as Hg. split; intros Hx.
    - destruct (decide (Exists (fun g => sg_id g = sr_group r) (groups_of t))) as [He|He]; rewrite list.Exists_exists in He; [done|].
      apply Hg in He. lia.
    - destruct (Z.lt_ge_cases (group_index t (sr_group r)) 0) as [Hl|Hl]; [|lia]. now apply Hg in Hl. }
  assert ((forall j, 0 <= j < i -> tlv_tag_equal m (se_tag e) (se_tag (entry_of (rule_at t j))) = false) <->
          forall j, 0 <= j < i -> tag_bytes m (rule_tag (rule_at t j)) <> tag_bytes m (rule_tag r)) as Htag.
  { split; intros Hn j Hj; specialize (Hn j Hj); [intros E; apply not_true_iff_false in Hn; apply Hn|apply not_true_iff_false; intros E; apply Hn];
      revert E; rewrite tag_equal_bytes, Et; try done; try (rewrite <- Et; apply Hsize; lia); apply (Hsize j); lia. }
  rewrite Htag. clear Htag. split.
  - intros [[[[[[[[H1 H2] H3] H4] H5] H6] H7] H8] H9]. split; [|done]. split.
    + exists e. split; [done|]. split; [done|]. split; [|done]. now destruct (t_data (se_tag e)).
    + done.
    + now destruct (sr_kind r).
    + intros Hc. now destruct H6.
    + intros Hg. destruct H7 as [|H7]; [done|]. destruct H8 as [|H8]; [done|]. split; [done|]. apply Hgi. lia.
  - intros [[(e' & Ee' & H1 & H2 & H3) H4 H5 H6 H7] H9]. assert (e' = e) as -> by congruence.
    assert (sr_group r = 0 \/ sr_group r <> 0) as Hd by lia.
    repeat split; try done.
    + now destruct (t_data (se_tag e)).
    + now destruct (sr_kind r).
    + destruct (decide (sr_children r = None)) as [Hc|Hc]; [left; auto|right; auto].
    + destruct Hd as [|Hg]; [now left|right]. destruct (H7 Hg) as [_ Hx]. apply Hgi in Hx. lia.
    + destruct Hd as [|Hg]; [now left|right]. now destruct (H7 Hg).
Qed.

Lemma groups_valid : (forall i, 0 <= i < t.(ss_group_count) -> group_invalid t i = false) <->
  Forall (group_ok t) (groups_of t) /\ NoDup (map sg_id (groups_of t)).
Proof using Hrules Hgroups.
  rewrite (Forall_index no_group), (NoDup_index no_group), Hgroups. split.
  - intros Hv. split; [intros i Hi; now apply group_invalid_spec, Hv|]. intros i j Hj Hi. apply group_invalid_spec; [lia|apply Hv; lia|lia].
  - intros [Hg Hd] i Hi. apply group_invalid_spec; [done|]. split; [now apply Hg|]. intros h Hh. now apply Hd.
Qed.

Lemma rules_valid : (forall i, 0 <= i < t.(ss_count) -> rule_invalid m t i = false) <->
  Forall (rule_ok t) (rules_of t) /\ NoDup (map (fun r => tag_bytes m (rule_tag r)) (rules_of t)).
Proof using Hrules Hgroups Hindex Htags.
  rewrite (Forall_index no_rule), (NoDup_index no_rule), Hrules. split.
  - intros Hv. split; [intros i Hi; now apply rule_invalid_spec, Hv|]. intros i j Hj Hi. apply rule_invalid_spec; [lia|apply Hv; lia|lia].
  - intros [Hg Hd] i Hi. apply rule_invalid_spec; [done|]. split; [now apply Hg|]. intros h Hh. now apply Hd.
Qed.
End Table.

(** ** The check of one table *)

(** The out-parameter names something of the table at [owner]. *)
Definition names (owner : Z) (location : option tlv_schema_definition_location_t) : Prop :=
  match location with None => True | Some l => l.(dl_owner) = Ptr owner 0 end.

Lemma names_locate location kind owner i : names owner (locate location kind owner i).
Proof. now destruct location. Qed.

Lemma check_groups_spec t owner fuel : forall g location, names owner location ->
  exists location', names owner location' /\ (location' = None <-> location = None) /\
    ((check_groups fuel t owner g location = (TLV_OK, location') /\ forall i, g <= i < g + Z.of_nat fuel -> group_invalid t i = false) \/
     (check_groups fuel t owner g location = (TLV_ERR_INVALID_SCHEMA, location') /\
      exists i, g <= i < g + Z.of_nat fuel /\ group_invalid t i = true)).
Proof.
  induction fuel as [|fuel IH]; intros g location Hl; cbn [check_groups].
  - exists location. split; [done|]. split; [done|]. left. split; [done|]. lia.
  - set (l := locate location TLV_SCHEMA_DEFINITION_GROUP owner g).
    assert (l = None <-> location = None) as Hnone by now destruct location.
    destruct (group_invalid t g) eqn:E.
    + exists l. split; [apply names_locate|]. split; [done|]. right. split; [done|]. exists g. split; [lia|done].
    + destruct (IH (g + 1) l) as (l' & Hn & Hl' & Hout); [apply names_locate|]. exists l'. split; [done|]. split; [tauto|].
      destruct Hout as [[Ec Hi]|[Ec (i & Hi & Ei)]]; [left|right; split; [done|]; exists i; split; [lia|done]].
      split; [done|]. intros i Hgi. destruct (decide (i = g)) as [->|]; [done|]. apply Hi. lia.
Qed.

Lemma check_rules_spec m t owner fuel : forall k location, names owner location ->
  exists location', names owner location' /\ (location' = None <-> location = None) /\
    ((check_rules m fuel t owner k location = (TLV_OK, location') /\ forall i, k <= i < k + Z.of_nat fuel -> rule_invalid m t i = false) \/
     (check_rules m fuel t owner k location = (TLV_ERR_INVALID_SCHEMA, location') /\
      exists i, k <= i < k + Z.of_nat fuel /\ rule_invalid m t i = true)).
Proof.
  induction fuel as [|fuel IH]; intros k location Hl; cbn [check_rules].
  - exists location. split; [done|]. split; [done|]. left. split; [done|]. lia.
  - set (l := locate location TLV_SCHEMA_DEFINITION_RULE owner k).
    assert (l = None <-> location = None) as Hnone by now destruct location.
    destruct (rule_invalid m t k) eqn:E.
    + exists l. split; [apply names_locate|]. split; [done|]. right. split; [done|]. exists k. split; [lia|done].
    + destruct (IH (k + 1) l) as (l' & Hn & Hl' & Hout); [apply names_locate|]. exists l'. split; [done|]. split; [tauto|].
      destruct Hout as [[Ec Hi]|[Ec (i & Hi & Ei)]]; [left|right; split; [done|]; exists i; split; [lia|done]].
      split; [done|]. intros i Hgi. destruct (decide (i = k)) as [->|]; [done|]. apply Hi. lia.
Qed.

Lemma table_typed_zlen t : table_typed t ->
  0 <= t.(ss_count) /\ 0 <= t.(ss_group_count) /\
  (bool_decide (t.(ss_rules) = None) && negb (t.(ss_count) =? 0) = false <-> zlen (rules_of t) = t.(ss_count)) /\
  (bool_decide (t.(ss_groups) = None) && negb (t.(ss_group_count) =? 0) = false <-> zlen (groups_of t) = t.(ss_group_count)).
Proof.
  intros [Hr Hg _ _ _ _]. unfold rules_of, groups_of. destruct (ss_rules t) as [l|], (ss_groups t) as [k|]; cbn in *; lia.
Qed.

(** A child of the rules from [k] on. *)
Definition listed (t : tlv_structure_schema_t) (k : Z) (fuel : nat) (b : Z) : Prop :=
  exists i, k <= i < k + Z.of_nat fuel /\ (rule_at t i).(sr_children) = Some b.

Lemma listed_step t k fuel b : listed t k (S fuel) b <-> (rule_at t k).(sr_children) = Some b \/ listed t (k + 1) fuel b.
Proof.
  unfold listed. split.
  - intros (i & Hi & E). destruct (decide (i = k)) as [->|]; [now left|right]. exists i. split; [lia|done].
  - intros [E|(i & Hi & E)]; [exists k|exists i]; (split; [lia|done]).
Qed.

(** Children that were not there are appended, until there is no room. *)
Lemma enqueue_spec t fuel : forall k found, NoDup found -> zlen found <= TLV_SCHEMA_MAX_TABLES ->
  match enqueue fuel t k found with
  | Some found' => (exists more, found' = found ++ more /\ Forall (listed t k fuel) more) /\ NoDup found' /\
      zlen found' <= TLV_SCHEMA_MAX_TABLES /\ (forall b, listed t k fuel b -> b ∈ found')
  | None => exists more, Forall (listed t k fuel) more /\ NoDup (found ++ more) /\ zlen (found ++ more) = TLV_SCHEMA_MAX_TABLES + 1
  end.
Proof.
  induction fuel as [|fuel IH]; intros k found Hn Hm; cbn [enqueue].
  - split; [exists []; now rewrite app_nil_r|]. split; [done|]. split; [done|]. intros b (i & Hi & _). lia.
  - assert (forall more, Forall (listed t (k + 1) fuel) more -> Forall (listed t k (S fuel)) more) as Hmore.
    { intros more. apply Forall_impl. intros b Hb. apply listed_step. now right. }
    destruct (sr_children (rule_at t k)) as [c|] eqn:Ec; [case_bool_decide as Hin|].
    + specialize (IH (k + 1) found Hn Hm). destruct (enqueue fuel t (k + 1) found) as [found'|].
      * destruct IH as ((more & E & Hf) & Hn' & Hm' & Hall). split; [eauto|]. split; [done|]. split; [done|].
        intros b Hb. apply listed_step in Hb as [Hb|Hb]; [|auto]. rewrite Ec in Hb. injection Hb as <-. rewrite E. set_solver.
      * destruct IH as (more & Hf & Hr). eauto.
    + assert (NoDup (found ++ [c])) as Hn1 by (apply list.NoDup_app; split; [done|]; split; [intros x Hx ->%list_elem_of_singleton; done|apply NoDup_singleton]).
      destruct (Z.eqb_spec (zlen found) TLV_SCHEMA_MAX_TABLES) as [Efull|Efull].
      * exists [c]. split; [constructor; [apply listed_step; now left|done]|]. split; [done|]. rewrite length_app. cbn. lia.
      * specialize (IH (k + 1) (found ++ [c]) Hn1). rewrite length_app in IH. cbn [length] in IH. specialize (IH ltac:(lia)).
        assert (listed t k (S fuel) c) as Hc by (apply listed_step; now left).
        destruct (enqueue fuel t (k + 1) (found ++ [c])) as [found'|].
        -- destruct IH as ((more & E & Hf) & Hn' & Hm' & Hall). rewrite <- app_assoc in E. split; [exists (c :: more); split; [done|constructor; auto]|].
           split; [done|]. split; [done|]. intros b Hb. apply listed_step in Hb as [Hb|Hb]; [|auto].
           rewrite Ec in Hb. injection Hb as <-. rewrite E. set_solver.
        -- destruct IH as (more & Hf & Hn2 & Hz). rewrite <- app_assoc in Hn2, Hz. exists (c :: more). split; [constructor; auto|]. done.
    + specialize (IH (k + 1) found Hn Hm). destruct (enqueue fuel t (k + 1) found) as [found'|].
      * destruct IH as ((more & E & Hf) & Hn' & Hm' & Hall). split; [eauto|]. split; [done|]. split; [done|].
        intros b Hb. apply listed_step in Hb as [Hb|Hb]; [congruence|auto].
      * destruct IH as (more & Hf & Hr). eauto.
Qed.

Section Checking.
Context (m : mem) (tables : Z -> tlv_structure_schema_t).

Lemma check_table_spec owner location : table_typed (tables owner) ->
  exists location', names owner location' /\ (location' = None <-> location = None) /\
    ((check_table m tables owner location = (TLV_OK, location') /\ table_ok m (tables owner)) \/
     (check_table m tables owner location = (TLV_ERR_INVALID_SCHEMA, location') /\ ~ table_ok m (tables owner))).
Proof using.
  intros Ht. destruct (table_typed_zlen _ Ht) as (Hc & Hgc & Hrl & Hgl). pose proof Ht as [_ _ Hindex Htags _ _].
  unfold check_table. set (l := locate location TLV_SCHEMA_DEFINITION_TABLE owner 0). set (t := tables owner) in *.
  assert (l = None <-> location = None) as Hnone by now destruct location.
  destruct (bool_decide (ss_rules t = None) && _) eqn:Er.
  { exists l. split; [apply names_locate|]. split; [done|]. right. split; [done|]. intros [Hx _ _ _ _ _ _]. apply Hrl in Hx. congruence. }
  destruct (bool_decide (ss_groups t = None) && _) eqn:Eg.
  { exists l. split; [apply names_locate|]. split; [done|]. right. split; [done|]. intros [_ Hx _ _ _ _ _]. apply Hgl in Hx. congruence. }
  apply proj1 in Hrl, Hgl. specialize (Hrl eq_refl). specialize (Hgl eq_refl).
  pose proof (groups_valid t Hrl Hgl) as Hgroup. pose proof (rules_valid m t Hrl Hgl Hindex Htags) as Hrule.
  destruct (check_groups_spec t owner (Z.to_nat (ss_group_count t)) 0 l) as (lg & Hng & Hl & Hg); [apply names_locate|].
  destruct (check_rules_spec m t owner (Z.to_nat (ss_count t)) 0 lg) as (lr & Hnr & Hl' & Hr); [done|].
  destruct (ss_order t) eqn:Eo.
  3: { exists l. split; [apply names_locate|]. split; [done|]. right. split; [done|]. intros [_ _ Hx _ _ _ _]. now rewrite Eo in Hx. }
  all: destruct Hg as [[-> Hg]|[-> (i & Hi & Ei)]].
  2, 4: exists lg; split; [done|]; split; [tauto|]; right; split; [done|]; intros [_ _ _ Hx Hd _ _];
    rewrite (proj2 Hgroup (conj Hx Hd)) in Ei; [done|lia].
  all: rewrite is_ok_OK; cbn [negb]; destruct Hr as [[-> Hr]|[-> (i & Hi & Ei)]].
  2, 4: exists lr; split; [done|]; split; [tauto|]; right; split; [done|]; intros [_ _ _ _ _ Hx Hd];
    rewrite (proj2 Hrule (conj Hx Hd)) in Ei; [done|lia].
  all: exists lr; split; [done|]; split; [tauto|]; left; split; [done|].
  all: destruct (proj1 Hgroup) as [Hg1 Hg2]; [intros i Hi; apply Hg; lia|]; destruct (proj1 Hrule) as [Hr1 Hr2]; [intros i Hi; apply Hr; lia|].
  all: split; try done; now rewrite Eo.
Qed.

(** ** The graph of tables *)

Definition child_of (a b : Z) : Prop := exists r, r ∈ rules_of (tables a) /\ r.(sr_children) = Some b.
Definition reaches (root a : Z) : Prop := rtc child_of root a.

Lemma listed_child a b : zlen (rules_of (tables a)) = (tables a).(ss_count) ->
  listed (tables a) 0 (Z.to_nat (tables a).(ss_count)) b <-> child_of a b.
Proof using.
  intros Hz. unfold listed, child_of. split.
  - intros (i & Hi & E). exists (rule_at (tables a) i). split; [apply nth_in; lia|done].
  - intros (r & Hr & E). apply (in_nth no_rule) in Hr as (i & Hi & <-). exists i. split; [lia|done].
Qed.

Section Loop.
Context (root : Z) (Htyped : forall a, reaches root a -> table_typed (tables a)).

(** The tables in front of [next] are done. *)
Record searching (found : list Z) (next : nat) : Prop := {
  sh_nodup : NoDup found;
  sh_room : zlen found <= TLV_SCHEMA_MAX_TABLES;
  sh_reached : Forall (reaches root) found;
  sh_next : (next <= length found)%nat;
  sh_done : forall a, a ∈ take next found -> table_ok m (tables a) /\ forall b, child_of a b -> b ∈ found }.

(** What the check decides. *)
Definition verdict (rc : tlv_result_t) (location : option tlv_schema_definition_location_t) : Prop :=
  (rc = TLV_OK /\ exists found, NoDup found /\ zlen found <= TLV_SCHEMA_MAX_TABLES /\
     forall a, (a ∈ found <-> reaches root a) /\ (reaches root a -> table_ok m (tables a))) \/
  (rc = TLV_ERR_INVALID_SCHEMA /\ exists a, reaches root a /\ ~ table_ok m (tables a) /\ names a location) \/
  (rc = TLV_ERR_UNSUPPORTED /\ exists found, NoDup found /\ zlen found = TLV_SCHEMA_MAX_TABLES + 1 /\ Forall (reaches root) found).

Lemma check_loop_spec fuel : forall found next location, searching found next -> root ∈ found ->
  (Z.to_nat TLV_SCHEMA_MAX_TABLES < fuel + next)%nat ->
  exists rc location', check_loop m tables fuel found next location = Some (rc, location') /\
    (location' = None <-> location = None) /\ verdict rc location'.
Proof using Htyped.
  induction fuel as [|fuel IH]; intros found next location [Hnd Hroom Hre Hnext Hdone] Hroot Hfuel.
  { change (Z.to_nat TLV_SCHEMA_MAX_TABLES) with 256%nat in Hfuel. unfold TLV_SCHEMA_MAX_TABLES in Hroom. lia. }
  cbn [check_loop]. destruct (found !! next) as [a|] eqn:Ea.
  2: { exists TLV_OK, location. split; [done|]. split; [done|]. left. split; [done|]. exists found. split; [done|]. split; [done|].
       apply lookup_ge_None in Ea. rewrite take_ge in Hdone by done.
       assert (forall a, reaches root a -> a ∈ found) as Hall.
       { intros a Ha. revert Ha. apply (rtc_ind_r (R := child_of) (fun a => a ∈ found)); [done|]. intros b c _ Hbc Hb. now apply (Hdone b Hb). }
       intros a. split; [split; [|apply Hall]|]; intros Ha.
       - rewrite list.Forall_forall in Hre. apply Hre, Ha.
       - now apply Hdone, Hall. }
  assert (reaches root a) as Har by (rewrite list.Forall_forall in Hre; now apply Hre, (list_elem_of_lookup_2 _ next)).
  destruct (check_table_spec a location (Htyped a Har)) as (l & Hnl & Hl & [[-> Hok]|[-> Hno]]).
  2: { exists TLV_ERR_INVALID_SCHEMA, l. split; [done|]. split; [done|]. right. left. eauto. }
  rewrite is_ok_OK. cbn [negb].
  pose proof (enqueue_spec (tables a) (Z.to_nat (ss_count (tables a))) 0 found Hnd Hroom) as Hq.
  assert (forall more, Forall (listed (tables a) 0 (Z.to_nat (ss_count (tables a)))) more -> Forall (reaches root) more) as Hmore.
  { intros more. apply Forall_impl. intros b Hb. apply listed_child in Hb; [|apply Hok]. eapply rtc_r; eauto. }
  destruct (enqueue _ _ _ _) as [found'|].
  2: { destruct Hq as (more & Hf & Hn & Hz). exists TLV_ERR_UNSUPPORTED, l. split; [done|]. split; [done|]. right. right. split; [done|].
       exists (found ++ more). split; [done|]. split; [done|]. apply list.Forall_app. auto. }
  destruct Hq as ((more & -> & Hf) & Hn & Hm & Hall).
  destruct (IH (found ++ more) (S next) l) as (rc & l' & E & Hl' & Hv).
  - pose proof (lookup_lt_Some _ _ _ Ea) as Hlt. split; try done.
    + apply list.Forall_app. auto.
    + rewrite length_app. lia.
    + intros b Hb. rewrite take_app_le, (take_S_r _ _ a) in Hb by (done || lia). apply elem_of_app in Hb as [Hb|Hb].
      * destruct (Hdone b Hb) as [H1 H2]. split; [done|]. intros c Hc. apply elem_of_app. left. auto.
      * apply list_elem_of_singleton in Hb as ->. split; [done|]. intros c Hc. apply Hall, listed_child, Hc. apply Hok.
  - apply elem_of_app. now left.
  - lia.
  - exists rc, l'. split; [done|]. split; [tauto|done].
Qed.
End Loop.
End Checking.

(** A schema that passes: its tables fit and each is well formed. *)
Definition schema_accepted (m : mem) (tables : Z -> tlv_structure_schema_t) (root : Z) : Prop :=
  exists found, NoDup found /\ zlen found <= TLV_SCHEMA_MAX_TABLES /\
    forall a, (a ∈ found <-> reaches tables root a) /\ (reaches tables root a -> table_ok m (tables a)).

Lemma verdict_accepted m tables root rc location : verdict m tables root rc location -> rc = TLV_OK <-> schema_accepted m tables root.
Proof.
  intros Hv. split.
  - intros ->. destruct Hv as [[_ Hv]|[[Hx _]|[Hx _]]]; done.
  - intros (found & Hn & Hz & Hf). destruct Hv as [[-> _]|[(-> & a & Ha & Hno & _)|(-> & more & Hm & Hz' & Hr)]]; [done| |].
    + destruct Hno. now apply Hf.
    + pose proof (submseteq_length more found) as Hle. cut (more ⊆+ found); [intros Hs; specialize (Hle Hs); lia|].
      apply NoDup_submseteq; [done|]. intros a Ha. apply Hf. rewrite list.Forall_forall in Hr. now apply Hr.
Qed.

Lemma check_run m tables root dg : (forall a, reaches tables root a -> table_typed (tables a)) ->
  exists rc dg', tlv_schema_check m tables (Some root) dg = Some (rc, dg') /\ (dg = None <-> dg' = None) /\
    verdict m tables root rc (option_map sdg_definition dg') /\
    forall d, dg' = Some d -> d.(sdg_diagnostic).(dg_code) = rc.
Proof.
  intros Ht. unfold tlv_schema_check.
  destruct (check_loop_spec m tables root Ht (Z.to_nat TLV_SCHEMA_MAX_TABLES + 1) [root] 0
    (option_map sdg_definition (tlv_schema_diagnostic_init dg))) as (rc & l & E & Hl & Hv).
  { split; [apply NoDup_singleton|done|constructor; [apply rtc_refl|done]|cbn; lia|intros a Ha; inversion Ha]. }
  { now apply list_elem_of_singleton. }
  { cbn. lia. }
  rewrite E. destruct dg as [d0|]; cbn [tlv_schema_diagnostic_init option_map] in *.
  2: { exists rc, None. split; [done|]. split; [done|]. split; [|done]. cbn. replace l with (@None tlv_schema_definition_location_t) in Hv; [done|]. symmetry. tauto. }
  eexists rc, (Some _). split; [reflexivity|]. split; [done|]. destruct l as [l|]; [|discriminate (proj1 Hl eq_refl)].
  destruct Hv as [(-> & Hv)|[(-> & Hv)|(-> & Hv)]]; cbn.
  - split; [now left|]. now intros d [= <-].
  - split; [|now intros d [= <-]]. right. left. now split.
  - split; [|now intros d [= <-]]. right. right. now split.
Qed.

(** C12. The check of a structural schema terminates for every graph of tables, cycles included, and decides
    it: it accepts exactly the schemas of which every reachable table is well formed and no more tables
    can be reached than it has room for; it rejects a definition only for a reachable table that is
    malformed, which the diagnostic names, and gives up only when there are too many tables.  A handle
    is prepared exactly when the schema is accepted. *)
Theorem schema_check_decides (m : mem) (tables : Z -> tlv_structure_schema_t) (root : Z) (dg : option tlv_schema_diagnostic_t)
  (ck : tlv_schema_checked_t) (Htyped : forall a, reaches tables root a -> table_typed (tables a)) :
  exists rc dg', tlv_schema_check m tables (Some root) dg = Some (rc, dg') /\
    (rc = TLV_OK <-> schema_accepted m tables root) /\
    (rc = TLV_OK \/
     (rc = TLV_ERR_INVALID_SCHEMA /\ exists a, reaches tables root a /\ ~ table_ok m (tables a) /\ names a (option_map sdg_definition dg')) \/
     (rc = TLV_ERR_UNSUPPORTED /\ exists found, NoDup found /\ zlen found = TLV_SCHEMA_MAX_TABLES + 1 /\ Forall (reaches tables root) found)) /\
    tlv_schema_prepare m tables (Some ck) (Some root) dg =
      Some (rc, Some (mk_checked (if is_ok rc then Some root else None)), dg').
Proof.
  destruct (check_run m tables root dg Htyped) as (rc & dg' & E & _ & Hv & _).
  exists rc, dg'. split; [done|]. split; [exact (verdict_accepted _ _ _ _ _ Hv)|]. split; [|unfold tlv_schema_prepare; now rewrite E].
  destruct Hv as [[-> _]|[Hv|Hv]]; auto.
Qed.

(** A table that refers to itself: an element with tag 2 of one octet, and containers with tag 33. *)
Definition example_tables : Z -> tlv_structure_schema_t := fun _ =>
  mk_structure
    (Some [mk_rule (Some (mk_schema_entry (mk_tag (Ptr 9 0) 1) 1 1 0 None 0)) 0 1 TLV_SCHEMA_PRIMITIVE None 0;
           mk_rule (Some (mk_schema_entry (mk_tag (Ptr 9 1) 1) 0 100 0 None 0)) 0 10 TLV_SCHEMA_CONSTRUCTED (Some 1) 0])
    2 0 None 0 TLV_SCHEMA_ORDER_ANY.
Definition example_tags : mem := mem_of 9 [1; 33].

Lemma example_tables_typed a : table_typed (example_tables a).
Proof. split; cbn; try done; repeat constructor; done. Qed.

Lemma schema_check_decides_witness :
  tlv_schema_check example_tags example_tables (Some 1) None = Some (TLV_OK, None) /\ schema_accepted example_tags example_tables 1.
Proof.
  destruct (schema_check_decides example_tags example_tables 1 None (mk_checked None) (fun a _ => example_tables_typed a)) as (rc & dg' & E & Hacc & _).
  assert (tlv_schema_check example_tags example_tables (Some 1) None = Some (TLV_OK, None)) as E' by (vm_compute; reflexivity).
  rewrite E in E'. split; [rewrite E; exact E'|]. apply Hacc. congruence.
Defined.
