(* ===== verification/SchemaStructure.v ===== *)
(** * Schemas: validation (src/schema/structure.c, src/schema/traversal_internal.h)

    [location] of the source is the base of [diagnostic], or NULL with it, and is not a parameter here.
    An element takes an octet at least, so that a scan of a scope runs on fuel of the size of the input and
    one more; elements can be nested in [TLV_SCHEMA_MAX_DEPTH] scopes, so that the loops over all of them
    run on [item_fuel]. *)

From S2P Require Import Prelude Mem Core Format Diagnostic Reader TreeReader Visitor Codec Schema.

Definition scan_fuel (size : Z) : nat := S (Z.to_nat size).
Definition item_fuel (size : Z) : nat := S (Z.to_nat size * S (Z.to_nat TLV_SCHEMA_MAX_DEPTH)).

Definition same_tag (m : mem) (a b : tlv_tag_t) : bool := tlv_tag_equal m a b.

(** How a loop over the elements of a scope ends: at the end, with a return of the body, or with an
    element that cannot be read at a position. *)
Inductive scanned (A R : Type) : Type :=
| Scanned (a : A)
| Returned (r : R)
| Unread (a : A) (rc : tlv_result_t) (pos : Z).
Arguments Scanned {A R}.
Arguments Returned {A R}.
Arguments Unread {A R}.

(** [while (pos < end) { tlv_read ..; body; pos += used; }]; the body goes on with [inl]. *)
Fixpoint scan `{Platform} {A R} (fuel : nat) (m : mem) (data : ptr) (format : option tlv_format_t)
  (body : A -> tlv_element_t -> Z -> A + R) (pos stop : Z) (a : A) : option (scanned A R) :=
  match fuel with
  | O => None
  | S fuel =>
      if pos <? stop then
        let '(rc, element, used) :=
          tlv_read m (data +p pos) (stop - pos) format (Some empty_element) (Some 0) in
        if negb (is_ok rc) then Some (Unread a rc pos)
        else
          match body a (cell empty_element element) pos with
          | inr r => Some (Returned r)
          | inl a => scan fuel m data format body (usize (pos + cell 0 used)) stop a
          end
      else Some (Scanned a)
  end.

(** [for (i = 0; i < count; ++i)] over the rules, up to one that the test picks. *)
Fixpoint find_rule (fuel : nat) (schema : tlv_structure_schema_t) (test : tlv_structure_rule_t -> bool) (i : Z)
  : option (Z * tlv_structure_rule_t) :=
  match fuel with
  | O => None
  | S fuel =>
      if test (rule_at schema i) then Some (i, rule_at schema i) else find_rule fuel schema test (i + 1)
  end.

(** The first rule with the tag, if [group] is given one of its members. *)
Definition matching_rule (m : mem) (schema : tlv_structure_schema_t) (group : option Z) (tag : tlv_tag_t)
  : option (Z * tlv_structure_rule_t) :=
  find_rule (Z.to_nat schema.(ss_count)) schema
    (fun rule => (match group with Some id => rule.(sr_group) =? id | None => true end) &&
                 same_tag m (entry_of rule).(se_tag) tag) 0.

Section Validation.
Context `{Platform} (m : mem) (tables : Z -> tlv_structure_schema_t).

Definition set_read_location (diagnostic : option tlv_schema_diagnostic_t) (offset : Z) : option tlv_schema_diagnostic_t :=
  match diagnostic with
  | None => None
  | Some d =>
      Some (with_base (cell d.(sdg_diagnostic)
              (tlv_diagnostic_set_location (Some d.(sdg_diagnostic)) TLV_LOCATION_INPUT TLV_LOCATION_POINT offset offset)) d)
  end.

Fixpoint push_tags (fuel : nat) (tags : list tlv_tag_t) (i : Z) (path : tlv_diagnostic_path_t) : tlv_diagnostic_path_t :=
  match fuel with
  | O => path
  | S fuel =>
      let '(_, path') := tlv_diagnostic_path_push (Some path) (nth (Z.to_nat i) tags empty_tag) in
      push_tags fuel tags (i + 1) (cell path path')
  end.

Definition with_path (path : tlv_diagnostic_path_t) (d : tlv_diagnostic_t) : tlv_diagnostic_t :=
  mk_diagnostic d.(dg_code) d.(dg_severity) d.(dg_location) d.(dg_expected) d.(dg_actual) d.(dg_contexts) true path.

(** [path] holds the tags of the enclosing elements at the indices 1 to [depth]. *)
Definition violation (diagnostic : option tlv_schema_diagnostic_t) (kind : tlv_schema_issue_kind_t) (tag : tlv_tag_t)
  (offset : Z) (path : list tlv_tag_t) (depth : Z) : tlv_result_t * option tlv_schema_diagnostic_t :=
  match diagnostic with
  | None => (TLV_ERR_SCHEMA, diagnostic)
  | Some d =>
      let base := cell d.(sdg_diagnostic)
        (tlv_diagnostic_set_location (Some d.(sdg_diagnostic)) TLV_LOCATION_INPUT
           (if bool_decide (kind = TLV_SCHEMA_ISSUE_MISSING) then TLV_LOCATION_SCOPE_END else TLV_LOCATION_POINT) offset offset) in
      let cleared := cell base.(dg_path) (tlv_diagnostic_path_init (Some base.(dg_path))) in
      (TLV_ERR_SCHEMA,
       Some (with_kind kind tag (with_base (with_path (push_tags (Z.to_nat depth) path 1 cleared) base) d)))
  end.

Definition option_occurs (diagnostic : option tlv_schema_diagnostic_t) (rule : tlv_structure_rule_t)
  (group : option tlv_structure_group_t) (occurs : Z) : option tlv_schema_diagnostic_t :=
  match diagnostic with None => None | Some d => Some (schema_issue_occurs d rule group occurs) end.

Section Scope.
Context (fuel : nat) (data : ptr) (format : option tlv_format_t) (current : tlv_structure_schema_t) (start stop : Z)
  (path : list tlv_tag_t) (depth : Z).

(** The rules from [i] on: their occurrences in the scope. *)
Fixpoint check_rule_counts (n : nat) (i : Z) (diagnostic : option tlv_schema_diagnostic_t)
  : option (tlv_result_t * option tlv_schema_diagnostic_t) :=
  match n with
  | O => Some (TLV_OK, diagnostic)
  | S n =>
      let rule := rule_at current i in
      match scan fuel m data format
              (fun count element pos =>
                 if same_tag m (entry_of rule).(se_tag) element.(e_tag) then
                   if count =? rule.(sr_max_occurs) then
                     inr (violation (option_occurs diagnostic rule None (usize (count + 1))) TLV_SCHEMA_ISSUE_DUPLICATE
                            element.(e_tag) pos path depth)
                   else inl (usize (count + 1))
                 else inl count) start stop 0 with
      | None => None
      | Some (Unread _ rc pos) => Some (rc, set_read_location diagnostic pos)
      | Some (Returned r) => Some r
      | Some (Scanned count) =>
          if count <? rule.(sr_min_occurs) then
            Some (violation (option_occurs diagnostic rule None count) TLV_SCHEMA_ISSUE_MISSING
                    (entry_of rule).(se_tag) stop path depth)
          else check_rule_counts n (i + 1) diagnostic
      end
  end.

(** The first rule of a group. *)
Definition first_member (id : Z) : tlv_structure_rule_t :=
  match find_rule (Z.to_nat current.(ss_count)) current (fun rule => rule.(sr_group) =? id) 0 with
  | Some (_, rule) => rule
  | None => no_rule
  end.

(** The groups from [g] on. *)
Fixpoint check_group_counts (n : nat) (g : Z) (diagnostic : option tlv_schema_diagnostic_t)
  : option (tlv_result_t * option tlv_schema_diagnostic_t) :=
  match n with
  | O => Some (TLV_OK, diagnostic)
  | S n =>
      let group := group_at current g in
      match scan fuel m data format
              (fun count element pos =>
                 match matching_rule m current (Some group.(sg_id)) element.(e_tag) with
                 | Some _ =>
                     if count =? group.(sg_max_occurs) then
                       inr (violation (option_occurs diagnostic no_rule (Some group) (usize (count + 1)))
                              TLV_SCHEMA_ISSUE_DUPLICATE element.(e_tag) pos path depth)
                     else inl (usize (count + 1))
                 | None => inl count
                 end) start stop 0 with
      | None => None
      | Some (Unread _ rc pos) => Some (rc, set_read_location diagnostic pos)
      | Some (Returned r) => Some r
      | Some (Scanned count) =>
          if count <? group.(sg_min_occurs) then
            Some (violation (option_occurs diagnostic no_rule (Some group) count) TLV_SCHEMA_ISSUE_MISSING
                    (entry_of (first_member group.(sg_id))).(se_tag) stop path depth)
          else check_group_counts n (g + 1) diagnostic
      end
  end.

(** The order of the elements; the state is the index of the last rule that matched, if one has. *)
Definition check_order (diagnostic : option tlv_schema_diagnostic_t) : option (tlv_result_t * option tlv_schema_diagnostic_t) :=
  match scan fuel m data format
          (fun last element pos =>
             match matching_rule m current None element.(e_tag) with
             | Some (i, rule) =>
                 if match last with Some last_index => i <? last_index | None => false end then
                   inr (violation (match diagnostic with
                                   | Some d => Some (with_field (entry_of rule).(se_name) d) | None => None end)
                          TLV_SCHEMA_ISSUE_ORDER element.(e_tag) pos path depth)
                 else inl (Some i)
             | None => inl last
             end) start stop None with
  | None => None
  | Some (Unread _ rc pos) => Some (rc, set_read_location diagnostic pos)
  | Some (Returned r) => Some r
  | Some (Scanned _) => Some (TLV_OK, diagnostic)
  end.

Definition check_scope (diagnostic : option tlv_schema_diagnostic_t) : option (tlv_result_t * option tlv_schema_diagnostic_t) :=
  match check_rule_counts (Z.to_nat current.(ss_count)) 0 diagnostic with
  | Some (TLV_OK, diagnostic) =>
      match check_group_counts (Z.to_nat current.(ss_group_count)) 0 diagnostic with
      | Some (TLV_OK, diagnostic) =>
          if bool_decide (current.(ss_order) = TLV_SCHEMA_ORDER_SEQUENCE) then check_order diagnostic
          else Some (TLV_OK, diagnostic)
      | other => other
      end
  | other => other
  end.
End Scope.

Definition no_cursor : tlv_tree_reader_t :=
  mk_tree (mk_reader None NULL 0 0 0 0) None 0 0 0 0 0 no_frame false false false false.
Definition schema_frames : list tlv_tree_frame_t := replicate (Z.to_nat TLV_SCHEMA_MAX_DEPTH) no_frame.

Definition schema_check_tree (fuel : nat) (data : ptr) (size : Z) (format : option tlv_format_t) (max_depth max_elements : Z)
  (diagnostic : option tlv_diagnostic_t) : option (tlv_result_t * option tlv_diagnostic_t) :=
  let '(rc, reader) := tlv_tree_reader_init (Some no_cursor) data size format (Some schema_frames) TLV_SCHEMA_MAX_DEPTH
                         max_depth max_elements in
  if negb (is_ok rc) then
    Some (rc, tlv_diagnostic_init diagnostic rc TLV_DIAGNOSTIC_SEVERITY_ERROR)
  else
    match tlv_tree_reader_visit m fuel reader (None : option (tlv_tree_visitor_t unit)) tt
            (match diagnostic with
             | Some _ => Some (mk_reader_diagnostic zero_diagnostic (zero_detail TLV_READER_OP_TAG)) | None => None end) with
    | None => None
    | Some (rc, _, _, detail) =>
        Some (rc, match diagnostic, detail with
                  | Some d, Some detail => Some (if is_ok rc then d else detail.(rdg_diagnostic))
                  | _, _ => diagnostic
                  end)
    end.

(** How a round of the main loop ends: [inl] goes on with the reader, the scopes and the path; [inr]
    returns. *)
Definition round : Type :=
  tlv_tree_reader_t * list Z * list tlv_tag_t * option tlv_schema_diagnostic_t + tlv_result_t * option tlv_schema_diagnostic_t.

(** The end of a round; framing has already been validated, including unmodelled descendants. *)
Definition skip_item (item : tlv_tree_item_t) (reader : tlv_tree_reader_t) (scopes : list Z) (path : list tlv_tag_t)
  (diagnostic : option tlv_schema_diagnostic_t) : option round :=
  if item.(it_constructed) && negb (item.(it_element).(e_value).(v_size) =? 0) then
    match tlv_tree_reader_skip_subtree (Some reader) with
    | None => None
    | Some (rc, r) =>
        if negb (is_ok rc) then Some (inr (rc, diagnostic)) else Some (inl (cell reader r, scopes, path, diagnostic))
    end
  else Some (inl (reader, scopes, path, diagnostic)).

(** What a round does with an item. *)
Definition validate_item (fuel : nat) (data : ptr) (format : option tlv_format_t) (item : tlv_tree_item_t)
  (reader : tlv_tree_reader_t) (scopes : list Z) (path : list tlv_tag_t) (diagnostic : option tlv_schema_diagnostic_t)
  : option round :=
  let element := item.(it_element) in
  let depth := item.(it_depth) in
  let current := tables (nth (Z.to_nat depth) scopes 0) in
  let skip path diagnostic := skip_item item reader scopes path diagnostic in
  match matching_rule m current None element.(e_tag) with
  | None =>
      if current.(ss_allow_unknown) =? 0 then
        Some (inr (violation diagnostic TLV_SCHEMA_ISSUE_UNEXPECTED element.(e_tag) item.(it_offset) path depth))
      else skip path diagnostic
  | Some (_, rule) =>
      let '(rc, length) := tlv_size_to_native element.(e_value).(v_size) (Some 0) in
      let value_length := cell 0 length in
      let rc := if is_ok rc then tlv_schema_validate_length rule.(sr_entry) value_length else rc in
      if rc_eqb rc TLV_ERR_SCHEMA then
        Some (inr (violation
          (match diagnostic with Some d => Some (schema_issue_length d rule value_length) | None => None end)
          TLV_SCHEMA_ISSUE_LENGTH element.(e_tag) item.(it_offset) path depth))
      else if negb (is_ok rc) then Some (inr (rc, set_read_location diagnostic item.(it_offset)))
      else if (bool_decide (rule.(sr_kind) = TLV_SCHEMA_PRIMITIVE) && item.(it_constructed)) ||
              (bool_decide (rule.(sr_kind) = TLV_SCHEMA_CONSTRUCTED) && negb item.(it_constructed)) then
        Some (inr (violation
          (match diagnostic with
           | Some d => Some (schema_issue_form d rule (if item.(it_constructed) then 1 else 0)) | None => None end)
          TLV_SCHEMA_ISSUE_KIND element.(e_tag) item.(it_offset) path depth))
      else
        match rule.(sr_children) with
        | None => skip path diagnostic
        | Some children =>
            let start := usize (item.(it_offset) + item.(it_source).(s_value).(r_offset)) in
            let path := <[Z.to_nat (depth + 1) := element.(e_tag)]> path in
            match check_scope fuel data format (tables children) start (usize (start + value_length)) path (depth + 1) diagnostic with
            | None => None
            | Some (rc, diagnostic) =>
                if negb (is_ok rc) then Some (inr (rc, diagnostic))
                else if negb (value_length =? 0) then
                  if depth =? TLV_SCHEMA_MAX_DEPTH then Some (inr (TLV_ERR_LIMIT, diagnostic))
                  else Some (inl (reader, <[Z.to_nat (depth + 1) := children]> scopes, path, diagnostic))
                else skip path diagnostic
            end
        end
  end.

Fixpoint validate_loop (n fuel : nat) (data : ptr) (format : option tlv_format_t) (reader : tlv_tree_reader_t)
  (scopes : list Z) (path : list tlv_tag_t) (diagnostic : option tlv_schema_diagnostic_t)
  : option (tlv_result_t * option tlv_schema_diagnostic_t) :=
  match n with
  | O => None
  | S n =>
      if tlv_tree_reader_at_end (Some reader) then Some (TLV_OK, diagnostic)
      else
        match tlv_tree_reader_next m (Some reader) (Some no_item) with
        | None => None
        | Some (rc, r, item) =>
            let reader := cell reader r in
            if negb (is_ok rc) then Some (rc, set_read_location diagnostic (tlv_tree_reader_offset (Some reader)))
            else
              match validate_item fuel data format (cell no_item item) reader scopes path diagnostic with
              | None => None
              | Some (inr result) => Some result
              | Some (inl (reader, scopes, path, diagnostic)) => validate_loop n fuel data format reader scopes path diagnostic
              end
        end
  end.

Definition validate_input (data : ptr) (size : Z) (format : option tlv_format_t) (schema : option Z)
  (max_depth max_elements : Z) (diagnostic : option tlv_schema_diagnostic_t)
  : option (tlv_result_t * option tlv_schema_diagnostic_t) :=
  match schema with
  | None => Some (TLV_ERR_NULL_ARG, set_read_location diagnostic 0)
  | Some root =>
      let fuel := scan_fuel size in
      match schema_check_tree (item_fuel size) data size format max_depth max_elements (option_map sdg_diagnostic diagnostic) with
      | None => None
      | Some (rc, base) =>
          let diagnostic := match diagnostic, base with Some d, Some b => Some (with_base b d) | _, _ => diagnostic end in
          if negb (is_ok rc) then Some (rc, diagnostic)
          else
            let path := replicate (Z.to_nat TLV_SCHEMA_MAX_DEPTH + 2) empty_tag in
            match check_scope fuel data format (tables root) 0 size path 0 diagnostic with
            | None => None
            | Some (rc, diagnostic) =>
                if negb (is_ok rc) then Some (rc, diagnostic)
                else
                  let '(rc, reader) := tlv_tree_reader_init (Some no_cursor) data size format (Some schema_frames)
                                         TLV_SCHEMA_MAX_DEPTH max_depth max_elements in
                  if negb (is_ok rc) then Some (rc, diagnostic)
                  else
                    validate_loop (item_fuel size) fuel data format (cell no_cursor reader)
                      (<[O := root]> (replicate (Z.to_nat TLV_SCHEMA_MAX_DEPTH + 1) 0)) path diagnostic
            end
      end
  end.

Definition validate_checked (data : ptr) (size : Z) (format : option tlv_format_t) (schema : option Z)
  (max_depth max_elements : Z) (diagnostic : option tlv_schema_diagnostic_t)
  : option (tlv_result_t * option tlv_schema_diagnostic_t) :=
  match validate_input data size format schema max_depth max_elements diagnostic with
  | None => None
  | Some (rc, diagnostic) =>
      Some (rc, match diagnostic with
                | Some d => Some (if is_ok rc then d else with_failure rc d)
                | None => None
                end)
  end.

Definition argument_failure (rc : tlv_result_t) (diagnostic : option tlv_schema_diagnostic_t)
  : tlv_result_t * option tlv_schema_diagnostic_t :=
  (rc, option_map (with_failure rc) diagnostic).

Definition tlv_schema_validate (data : ptr) (size : Z) (format : option tlv_format_t) (schema : option Z)
  (max_depth max_elements : Z) (diagnostic : option tlv_schema_diagnostic_t)
  : option (tlv_result_t * option tlv_schema_diagnostic_t) :=
  let diagnostic := tlv_schema_diagnostic_init diagnostic in
  match schema, format with
  | Some _, Some _ =>
      if is_null data && negb (size =? 0) then Some (argument_failure TLV_ERR_NULL_ARG diagnostic)
      else
        match tlv_schema_check m tables schema diagnostic with
        | None => None
        | Some (rc, diagnostic) =>
            if negb (is_ok rc) then Some (rc, diagnostic)
            else validate_checked data size format schema max_depth max_elements diagnostic
        end
  | _, _ => Some (argument_failure TLV_ERR_NULL_ARG diagnostic)
  end.

Definition tlv_schema_validate_checked (checked : option tlv_schema_checked_t) (data : ptr) (size : Z)
  (format : option tlv_format_t) (max_depth max_elements : Z) (diagnostic : option tlv_schema_diagnostic_t)
  : option (tlv_result_t * option tlv_schema_diagnostic_t) :=
  let diagnostic := tlv_schema_diagnostic_init diagnostic in
  match checked, format with
  | Some ck, Some _ =>
      if is_null data && negb (size =? 0) then Some (argument_failure TLV_ERR_NULL_ARG diagnostic)
      else
        match ck.(ck_schema) with
        | None => Some (argument_failure TLV_ERR_INVALID_STATE diagnostic)
        | Some _ => validate_checked data size format ck.(ck_schema) max_depth max_elements diagnostic
        end
  | _, _ => Some (argument_failure TLV_ERR_NULL_ARG diagnostic)
  end.
End Validation.
