(* ===== verification/SchemaReport.v ===== *)
(** * Schemas: reports of every violation (src/schema/report.c)

    The storage of a report is a list that the caller provides; the collector holds the report, the stack
    of scopes and the depth that a violation's path is taken from. *)

From S2P Require Import Prelude Mem Core Format Diagnostic Reader TreeReader Visitor Codec Schema SchemaStructure.

Inductive tlv_schema_unknown_policy_t : Type :=
| TLV_SCHEMA_UNKNOWN_BY_SCHEMA | TLV_SCHEMA_UNKNOWN_ALLOW | TLV_SCHEMA_UNKNOWN_REJECT | TLV_SCHEMA_UNKNOWN_OTHER (n : Z).

#[export] Instance unknown_policy_eq_dec : EqDecision tlv_schema_unknown_policy_t.
Proof. solve_decision. Defined.

Record tlv_schema_diagnostic_report_t := mk_report {
  rp_diagnostics : option (list tlv_schema_diagnostic_t); rp_capacity : Z; rp_count : Z }.

(** [frame_t]: a scope, and the element that encloses it. *)
Record scope_frame := mk_scope { sf_schema : Z; sf_start : Z; sf_end : Z; sf_tag : tlv_tag_t; sf_offset : Z }.
Definition no_scope : scope_frame := mk_scope 0 0 0 empty_tag 0.

Record collector_t := mk_collector { c_report : tlv_schema_diagnostic_report_t; c_frames : list scope_frame; c_depth : Z }.

Definition with_depth (depth : Z) (c : collector_t) : collector_t := mk_collector c.(c_report) c.(c_frames) depth.
Definition scope_at (frames : list scope_frame) (i : Z) : scope_frame := nth (Z.to_nat i) frames no_scope.

(** [(size_t)(p - q)], of pointers into one object. *)
Definition pointer_offset `{Platform} (p q : ptr) : Z :=
  match p, q with Ptr _ o, Ptr _ o' => usize (o - o') | _, _ => 0 end.

Section Report.
Context `{Platform} (m : mem) (tables : Z -> tlv_structure_schema_t).

Fixpoint push_scope_tags (fuel : nat) (frames : list scope_frame) (depth i : Z) (path : tlv_diagnostic_path_t)
  : tlv_diagnostic_path_t :=
  match fuel with
  | O => path
  | S fuel =>
      let '(rc, path') := tlv_diagnostic_path_push (Some path) (scope_at frames i).(sf_tag) in
      let path := cell path path' in
      if rc_eqb rc TLV_ERR_BUFFER_TOO_SHORT
      then mk_path path.(p_tags) path.(p_length) (usize (path.(p_omitted) + (depth - i)))
      else push_scope_tags fuel frames depth (i + 1) path
  end.

(** The index of the stored entry, or [None] once storage is full. *)
Definition add_issue (c : collector_t) (kind : tlv_schema_issue_kind_t) (tag : tlv_tag_t) (offset : option Z)
  : collector_t * option Z :=
  let report := c.(c_report) in
  let count := usize (report.(rp_count) + 1) in
  if report.(rp_capacity) <=? report.(rp_count) then
    (mk_collector (mk_report report.(rp_diagnostics) report.(rp_capacity) count) c.(c_frames) c.(c_depth), None)
  else
    let base := mk_diagnostic TLV_ERR_SCHEMA TLV_DIAGNOSTIC_SEVERITY_ERROR no_location None None no_context false no_path in
    let base := match offset with
                | Some o => cell base (tlv_diagnostic_set_location (Some base) TLV_LOCATION_INPUT TLV_LOCATION_POINT o o)
                | None => base end in
    let l := base.(dg_location) in
    let base := with_location (mk_location l.(l_domain)
                  (match offset with
                   | None => TLV_LOCATION_UNKNOWN
                   | Some _ => if bool_decide (kind = TLV_SCHEMA_ISSUE_MISSING) then TLV_LOCATION_SCOPE_END else TLV_LOCATION_POINT
                   end) l.(l_begin) l.(l_end)) base in
    let cleared := cell base.(dg_path) (tlv_diagnostic_path_init (Some base.(dg_path))) in
    let base := with_path (push_scope_tags (Z.to_nat c.(c_depth)) c.(c_frames) c.(c_depth) 1 cleared) base in
    let issue := with_kind kind tag (with_base base no_schema_diagnostic) in
    let diagnostics := match report.(rp_diagnostics) with
                       | Some l => Some (<[Z.to_nat report.(rp_count) := issue]> l) | None => None end in
    (mk_collector (mk_report diagnostics report.(rp_capacity) count) c.(c_frames) c.(c_depth), Some report.(rp_count)).

(** [if (issue) ..] on the stored entry. *)
Definition amend (change : tlv_schema_diagnostic_t -> tlv_schema_diagnostic_t) (added : collector_t * option Z) : collector_t :=
  let '(c, issue) := added in
  match issue with
  | None => c
  | Some i =>
      let report := c.(c_report) in
      mk_collector (mk_report (match report.(rp_diagnostics) with
                               | Some l => Some (alter change (Z.to_nat i) l) | None => None end)
                      report.(rp_capacity) report.(rp_count)) c.(c_frames) c.(c_depth)
  end.

Section Scope.
Context (fuel : nat) (data : ptr) (format : option tlv_format_t) (frame : scope_frame).

Definition frame_schema : tlv_structure_schema_t := tables frame.(sf_schema).

Fixpoint report_rule_counts (n : nat) (i : Z) (c : collector_t) : option (tlv_result_t * collector_t) :=
  match n with
  | O => Some (TLV_OK, c)
  | S n =>
      let rule := rule_at frame_schema i in
      match scan (R := Empty_set) fuel m data format
              (fun '(count, c) element pos =>
                 if same_tag m (entry_of rule).(se_tag) element.(e_tag) then
                   let count := usize (count + 1) in
                   inl (count,
                        if rule.(sr_max_occurs) <? count then
                          amend (fun d => schema_issue_occurs d rule None count)
                            (add_issue c TLV_SCHEMA_ISSUE_DUPLICATE element.(e_tag) (Some pos))
                        else c)
                 else inl (count, c)) frame.(sf_start) frame.(sf_end) (0, c) with
      | None => None
      | Some (Unread (_, c) rc _) => Some (rc, c)
      | Some (Returned r) => match r with end
      | Some (Scanned (count, c)) =>
          report_rule_counts n (i + 1)
            (if count <? rule.(sr_min_occurs) then
               amend (fun d => schema_issue_occurs d rule None count)
                 (add_issue c TLV_SCHEMA_ISSUE_MISSING (entry_of rule).(se_tag) (Some frame.(sf_end)))
             else c)
      end
  end.

Fixpoint report_group_counts (n : nat) (g : Z) (c : collector_t) : option (tlv_result_t * collector_t) :=
  match n with
  | O => Some (TLV_OK, c)
  | S n =>
      let group := group_at frame_schema g in
      let first_tag := (entry_of (first_member frame_schema group.(sg_id))).(se_tag) in
      match scan (R := Empty_set) fuel m data format
              (fun '(count, c) element pos =>
                 match matching_rule m frame_schema (Some group.(sg_id)) element.(e_tag) with
                 | Some _ =>
                     let count := usize (count + 1) in
                     inl (count,
                          if group.(sg_max_occurs) <? count then
                            amend (fun d => schema_issue_occurs d no_rule (Some group) count)
                              (add_issue c TLV_SCHEMA_ISSUE_DUPLICATE element.(e_tag) (Some pos))
                          else c)
                 | None => inl (count, c)
                 end) frame.(sf_start) frame.(sf_end) (0, c) with
      | None => None
      | Some (Unread (_, c) rc _) => Some (rc, c)
      | Some (Returned r) => match r with end
      | Some (Scanned (count, c)) =>
          report_group_counts n (g + 1)
            (if count <? group.(sg_min_occurs) then
               amend (fun d => schema_issue_occurs d no_rule (Some group) count)
                 (add_issue c TLV_SCHEMA_ISSUE_MISSING first_tag (Some frame.(sf_end)))
             else c)
      end
  end.

Definition report_order (c : collector_t) : option (tlv_result_t * collector_t) :=
  match scan (R := Empty_set) fuel m data format
          (fun '(last, c) element pos =>
             match matching_rule m frame_schema None element.(e_tag) with
             | Some (i, rule) =>
                 match last with
                 | Some last_index =>
                     if i <? last_index then
                       inl (last, amend (with_field (entry_of rule).(se_name))
                                    (add_issue c TLV_SCHEMA_ISSUE_ORDER element.(e_tag) (Some pos)))
                     else inl (Some i, c)
                 | None => inl (Some i, c)
                 end
             | None => inl (last, c)
             end) frame.(sf_start) frame.(sf_end) (None, c) with
  | None => None
  | Some (Unread (_, c) rc _) => Some (rc, c)
  | Some (Returned r) => match r with end
  | Some (Scanned (_, c)) => Some (TLV_OK, c)
  end.

Definition report_scope (c : collector_t) : option (tlv_result_t * collector_t) :=
  match report_rule_counts (Z.to_nat frame_schema.(ss_count)) 0 c with
  | Some (TLV_OK, c) =>
      match report_group_counts (Z.to_nat frame_schema.(ss_group_count)) 0 c with
      | Some (TLV_OK, c) =>
          if bool_decide (frame_schema.(ss_order) = TLV_SCHEMA_ORDER_SEQUENCE) then report_order c else Some (TLV_OK, c)
      | other => other
      end
  | other => other
  end.
End Scope.

(** What a round of the main loop does with an item: [inl] goes on with the reader and the collector. *)
Definition report_item (fuel : nat) (data : ptr) (format : option tlv_format_t) (unknown : tlv_schema_unknown_policy_t)
  (item : tlv_tree_item_t) (reader : tlv_tree_reader_t) (c : collector_t) (diagnostic : option tlv_diagnostic_t)
  : option (tlv_tree_reader_t * collector_t + tlv_result_t * collector_t * option tlv_diagnostic_t) :=
  let c := with_depth item.(it_depth) c in
  let current := tables (scope_at c.(c_frames) c.(c_depth)).(sf_schema) in
  let element := item.(it_element) in
  let pos := item.(it_offset) in
  let skip (c : collector_t) :=
    if item.(it_constructed) && negb (element.(e_value).(v_size) =? 0) then
      match tlv_tree_reader_skip_subtree (Some reader) with
      | None => None
      | Some (_, r) => Some (inl (cell reader r, c))
      end
    else Some (inl (reader, c)) in
  match matching_rule m current None element.(e_tag) with
  | None =>
      skip (if bool_decide (unknown = TLV_SCHEMA_UNKNOWN_REJECT) ||
               (bool_decide (unknown = TLV_SCHEMA_UNKNOWN_BY_SCHEMA) && (current.(ss_allow_unknown) =? 0))
            then fst (add_issue c TLV_SCHEMA_ISSUE_UNEXPECTED element.(e_tag) (Some pos)) else c)
  | Some (_, rule) =>
      let '(rc, length) := tlv_size_to_native element.(e_value).(v_size) (Some 0) in
      let value_length := cell 0 length in
      if negb (is_ok rc) then Some (inr (rc, c, diagnostic))
      else
        let c := if negb (is_ok (tlv_schema_validate_length rule.(sr_entry) value_length)) then
                   amend (fun d => schema_issue_length d rule value_length)
                     (add_issue c TLV_SCHEMA_ISSUE_LENGTH element.(e_tag) (Some pos))
                 else c in
        let constructed := is_constructed format m element.(e_tag) in
        let kind_ok := negb ((bool_decide (rule.(sr_kind) = TLV_SCHEMA_PRIMITIVE) && constructed) ||
                             (bool_decide (rule.(sr_kind) = TLV_SCHEMA_CONSTRUCTED) && negb constructed)) in
        let c := if negb kind_ok then
                   amend (fun d => schema_issue_form d rule (if constructed then 1 else 0))
                     (add_issue c TLV_SCHEMA_ISSUE_KIND element.(e_tag) (Some pos))
                 else c in
        match kind_ok, rule.(sr_children) with
        | true, Some children =>
            let start := pointer_offset element.(e_value).(v_data) data in
            if c.(c_depth) =? TLV_SCHEMA_MAX_DEPTH then
              Some (inr (TLV_ERR_LIMIT, c, tlv_diagnostic_set_location diagnostic TLV_LOCATION_INPUT TLV_LOCATION_POINT pos pos))
            else
              let depth := c.(c_depth) + 1 in
              let frame := mk_scope children start (usize (start + value_length)) element.(e_tag) pos in
              let c := mk_collector c.(c_report) (<[Z.to_nat depth := frame]> c.(c_frames)) depth in
              match report_scope fuel data format frame c with
              | None => None
              | Some (rc, c) => if negb (is_ok rc) then Some (inr (rc, c, diagnostic)) else Some (inl (reader, c))
              end
        | _, _ => skip c
        end
  end.

Fixpoint report_loop (n fuel : nat) (data : ptr) (format : option tlv_format_t) (unknown : tlv_schema_unknown_policy_t)
  (reader : tlv_tree_reader_t) (c : collector_t) (diagnostic : option tlv_diagnostic_t)
  : option (tlv_result_t * collector_t * option tlv_diagnostic_t) :=
  match n with
  | O => None
  | S n =>
      if tlv_tree_reader_at_end (Some reader) then
        Some ((if negb (c.(c_report).(rp_count) =? 0) then TLV_ERR_SCHEMA else TLV_OK), c, diagnostic)
      else
        match tlv_tree_reader_next m (Some reader) (Some no_item) with
        | None => None
        | Some (rc, r, item) =>
            if negb (is_ok rc) then Some (rc, c, diagnostic)
            else
              match report_item fuel data format unknown (cell no_item item) (cell reader r) c diagnostic with
              | None => None
              | Some (inr result) => Some result
              | Some (inl (reader, c)) => report_loop n fuel data format unknown reader c diagnostic
              end
        end
  end.

Definition validate_all (data : ptr) (size : Z) (format : option tlv_format_t) (schema : Z) (max_depth max_elements : Z)
  (unknown : tlv_schema_unknown_policy_t) (c : collector_t) (diagnostic : option tlv_diagnostic_t)
  : option (tlv_result_t * collector_t * option tlv_diagnostic_t) :=
  let fuel := scan_fuel size in
  match schema_check_tree m (item_fuel size) data size format max_depth max_elements diagnostic with
  | None => None
  | Some (rc, diagnostic) =>
      if negb (is_ok rc) then Some (rc, c, diagnostic)
      else
        let root := mk_scope schema 0 size empty_tag 0 in
        let stack := <[O := root]> (replicate (Z.to_nat TLV_SCHEMA_MAX_DEPTH + 1) no_scope) in
        match report_scope fuel data format root (mk_collector c.(c_report) stack 0) with
        | None => None
        | Some (rc, c) =>
            if negb (is_ok rc) then Some (rc, c, diagnostic)
            else
              let '(rc, reader) := tlv_tree_reader_init (Some no_cursor) data size format (Some schema_frames)
                                     TLV_SCHEMA_MAX_DEPTH max_depth max_elements in
              if negb (is_ok rc) then Some (rc, c, diagnostic)
              else report_loop (item_fuel size) fuel data format unknown (cell no_cursor reader) c diagnostic
        end
  end.

Definition with_code (code : tlv_result_t) (d : tlv_diagnostic_t) : tlv_diagnostic_t :=
  mk_diagnostic code d.(dg_severity) d.(dg_location) d.(dg_expected) d.(dg_actual) d.(dg_contexts) d.(dg_has_path) d.(dg_path).
Definition with_count (count : Z) (report : tlv_schema_diagnostic_report_t) : tlv_schema_diagnostic_report_t :=
  mk_report report.(rp_diagnostics) report.(rp_capacity) count.

Definition report_checked (data : ptr) (size : Z) (format : option tlv_format_t) (schema : Z) (max_depth max_elements : Z)
  (unknown : tlv_schema_unknown_policy_t) (report : tlv_schema_diagnostic_report_t) (diagnostic : option tlv_schema_diagnostic_t)
  : option (tlv_result_t * tlv_schema_diagnostic_report_t * option tlv_schema_diagnostic_t) :=
  match validate_all data size format schema max_depth max_elements unknown (mk_collector report [] 0)
          (option_map sdg_diagnostic diagnostic) with
  | None => None
  | Some (rc, c, base) =>
      Some (rc, (if negb (is_ok rc) && negb (rc_eqb rc TLV_ERR_SCHEMA) then with_count 0 c.(c_report) else c.(c_report)),
            match diagnostic, base with Some d, Some b => Some (with_base (with_code rc b) d) | _, _ => diagnostic end)
  end.

Definition policy_known (unknown : tlv_schema_unknown_policy_t) : bool :=
  match unknown with TLV_SCHEMA_UNKNOWN_OTHER _ => false | _ => true end.

Definition tlv_schema_validate_all_diag (data : ptr) (size : Z) (format : option tlv_format_t) (schema : option Z)
  (max_depth max_elements : Z) (unknown : tlv_schema_unknown_policy_t) (report : option tlv_schema_diagnostic_report_t)
  (diagnostic : option tlv_schema_diagnostic_t)
  : option (tlv_result_t * option tlv_schema_diagnostic_report_t * option tlv_schema_diagnostic_t) :=
  match report with
  | None => Some (TLV_ERR_NULL_ARG, report, diagnostic)
  | Some report =>
      let report := with_count 0 report in
      match schema with
      | None => Some (TLV_ERR_NULL_ARG, Some report, diagnostic)
      | Some root =>
          if bool_decide (report.(rp_diagnostics) = None) && negb (report.(rp_capacity) =? 0) then
            Some (TLV_ERR_NULL_ARG, Some report, diagnostic)
          else if negb (policy_known unknown) then Some (TLV_ERR_INVALID_ARG, Some report, diagnostic)
          else
            match tlv_schema_check m tables schema (tlv_schema_diagnostic_init diagnostic) with
            | None => None
            | Some (rc, diagnostic) =>
                if negb (is_ok rc) then Some (rc, Some report, diagnostic)
                else
                  match report_checked data size format root max_depth max_elements unknown report diagnostic with
                  | None => None
                  | Some (rc, report, diagnostic) => Some (rc, Some report, diagnostic)
                  end
            end
      end
  end.

Definition tlv_schema_validate_all_checked (checked : option tlv_schema_checked_t) (data : ptr) (size : Z)
  (format : option tlv_format_t) (max_depth max_elements : Z) (unknown : tlv_schema_unknown_policy_t)
  (report : option tlv_schema_diagnostic_report_t) (diagnostic : option tlv_schema_diagnostic_t)
  : option (tlv_result_t * option tlv_schema_diagnostic_report_t * option tlv_schema_diagnostic_t) :=
  match report with
  | None => Some (TLV_ERR_NULL_ARG, report, diagnostic)
  | Some report =>
      let report := with_count 0 report in
      match checked with
      | None => Some (TLV_ERR_NULL_ARG, Some report, diagnostic)
      | Some ck =>
          if bool_decide (report.(rp_diagnostics) = None) && negb (report.(rp_capacity) =? 0) then
            Some (TLV_ERR_NULL_ARG, Some report, diagnostic)
          else if negb (policy_known unknown) then Some (TLV_ERR_INVALID_ARG, Some report, diagnostic)
          else
            match ck.(ck_schema) with
            | None => Some (TLV_ERR_INVALID_STATE, Some report, diagnostic)
            | Some root =>
                match report_checked data size format root max_depth max_elements unknown report
                        (tlv_schema_diagnostic_init diagnostic) with
                | None => None
                | Some (rc, report, diagnostic) => Some (rc, Some report, diagnostic)
                end
            end
      end
  end.
End Report.
