(* ===== verification/SchemaScope.v ===== *)
(** * Schemas: conformance and the checks of one scope

    What a forest has to satisfy to conform to a structural schema, independently of the cursor, and the
    scans of a scope, which decide it. *)

From S2P Require Import Prelude Mem Core Format WireFormat Diagnostic Reader TreeReader TreeLaws TreeNodes TreePlaces Visitor Codec Schema SchemaLaws SchemaStructure.
From Stdlib Require Import Sorting.Sorted.

(** ** The specification *)

(** The tags of the elements of a scope. *)
Fixpoint heads (fo : forest) : list (list Z) :=
  match fo with FNil => [] | FElement tag _ rest | FNode tag _ rest => tag :: heads rest end.

Section Conformance.
Context `{Platform} (f : tlv_format_t) `{!CodecLaws f} (m : mem) (tables : Z -> tlv_structure_schema_t).

Definition describes (tag : list Z) (r : tlv_structure_rule_t) : Prop := tag_bytes m (rule_tag r) = tag.
Definition describes_member (id : Z) (tag : list Z) (r : tlv_structure_rule_t) : Prop := r.(sr_group) = id /\ describes tag r.

#[export] Instance describes_decision tag r : Decision (describes tag r).
Proof using. unfold describes. apply _. Defined.
#[export] Instance describes_member_decision id tag r : Decision (describes_member id tag r).
Proof using. unfold describes_member. apply _. Defined.

(** The first rule for a tag, and its index. *)
Definition rule_for (t : tlv_structure_schema_t) (tag : list Z) : option (nat * tlv_structure_rule_t) :=
  list_find (describes tag) (rules_of t).
Definition member_of (t : tlv_structure_schema_t) (id : Z) (tag : list Z) : Prop :=
  Exists (describes_member id tag) (rules_of t).

Definition occurrences (r : tlv_structure_rule_t) (tags : list (list Z)) : Z := zlen (filter (fun tag => describes tag r) tags).
Definition members (t : tlv_structure_schema_t) (id : Z) (tags : list (list Z)) : Z := zlen (filter (member_of t id) tags).

(** The rules that the elements match, in the order of the elements. *)
Definition matched (t : tlv_structure_schema_t) (tags : list (list Z)) : list nat := omap (fun tag => option_map fst (rule_for t tag)) tags.

Record scope_met (t : tlv_structure_schema_t) (tags : list (list Z)) : Prop := {
  sm_rules : Forall (fun r => r.(sr_min_occurs) <= occurrences r tags <= r.(sr_max_occurs)) (rules_of t);
  sm_groups : Forall (fun g => g.(sg_min_occurs) <= members t g.(sg_id) tags <= g.(sg_max_occurs)) (groups_of t);
  sm_order : t.(ss_order) = TLV_SCHEMA_ORDER_SEQUENCE -> Sorted le (matched t tags) }.

Record length_met (e : tlv_schema_entry_t) (n : Z) : Prop := {
  lm_bounds : e.(se_min_length) <= n <= e.(se_max_length);
  lm_endpoints : Z.land e.(se_flags) TLV_SCHEMA_LENGTH_ENDPOINTS <> 0 -> n = e.(se_min_length) \/ n = e.(se_max_length);
  lm_multiple : e.(se_length_multiple) <> 0 -> (e.(se_length_multiple) | n) }.

Definition form_met (r : tlv_structure_rule_t) (constructed : bool) : Prop :=
  match r.(sr_kind) with
  | TLV_SCHEMA_PRIMITIVE => constructed = false
  | TLV_SCHEMA_CONSTRUCTED => constructed = true
  | _ => True
  end.

(** An element with a value of [n] octets; [below] is what its children have to satisfy in their table. *)
Definition element_met (t : tlv_structure_schema_t) (tag : list Z) (n : Z) (constructed : bool) (below : Z -> Prop) : Prop :=
  match rule_for t tag with
  | None => t.(ss_allow_unknown) <> 0
  | Some (_, r) =>
      length_met (entry_of r) n /\ form_met r constructed /\ match r.(sr_children) with Some c => below c | None => True end
  end.

Definition wire_length (fo : forest) : Z := zlen (default [] (forest_wire f fo)).

(** Every element of the scope, and what is in it. *)
Fixpoint elements_met (a : Z) (fo : forest) : Prop :=
  match fo with
  | FNil => True
  | FElement tag value rest => element_met (tables a) tag (zlen value) false (fun _ => False) /\ elements_met a rest
  | FNode tag kids rest =>
      element_met (tables a) tag (wire_length kids) true (fun c => scope_met (tables c) (heads kids) /\ elements_met c kids) /\
      elements_met a rest
  end.

Definition conforms (a : Z) (fo : forest) : Prop := scope_met (tables a) (heads fo) /\ elements_met a fo.
End Conformance.

(** * Schemas: the checks of one scope

    A scan over the encoding of a forest is a fold over the tags of its elements; with it the three checks
    of a scope decide [scope_met], whatever diagnostic they fill. *)

Section Scans.
Context `{Platform} (f : tlv_format_t) (decode : tlv_decode_fn) (Hdec : f.(f_decode) = Some decode)
  `{!DecodeLaws decode} `{!CodecLaws f} (m : mem).

(** Reading the element at the front. *)
Lemma read_element data size tag value w : data <> NULL -> 1 <= size <= SIZE_MAX -> cl_wire tag value = Some w -> zlen w <= size ->
  bytes_of m data (zlen w) = w ->
  exists el, tlv_read m data size (Some f) (Some empty_element) (Some 0) = (TLV_OK, Some el, Some (zlen w)) /\
    tag_ok el.(e_tag) /\ tag_bytes m el.(e_tag) = tag.
Proof using Hdec DecodeLaws0.
  intros Hd Hs Hw Hz Hb. destruct (cl_decode m data size no_decoded None tag value w Hd (proj2 Hs) Hw Hz Hb) as (d & E & Hsz & Ht & _).
  assert (forall dd, f_decode f = Some dd -> decode_typed dd) as Htyped by (intros dd Edd; rewrite Hdec in Edd; injection Edd as <-; apply dl_typed).
  assert (0 <= size <= SIZE_MAX) as Hs0 by lia.
  pose proof (format_decode_cases f m data size no_decoded None Hs0 Htyped) as Hc. rewrite E in Hc.
  destruct Hc as [(_ & _ & _ & d' & Ed & _ & _ & Htag)|(Hrc & _)]; [|done]. injection Ed as <-.
  exists d.(d_element). unfold tlv_read, tlv_read_impl. cbn [ro_element ro_consumed ro_diagnostic ro_source].
  rewrite E, is_ok_OK. cbn [cell ro_element ro_consumed]. now rewrite Hsz.
Qed.

(** The value of an element at the front lies in it. *)
Lemma value_within q tag value w : q <> NULL -> zlen w <= SIZE_MAX -> cl_wire tag value = Some w -> bytes_of m q (zlen w) = w ->
  exists h, 0 <= h /\ h + zlen value <= zlen w /\ bytes_of m (q +p h) (zlen value) = value.
Proof using Hdec DecodeLaws0.
  intros Hq Hs Hw Hb. pose proof (cl_wire_length _ _ _ Hw) as Hlen.
  destruct (cl_decode m q (zlen w) no_decoded None tag value w Hq Hs Hw ltac:(lia) Hb) as (d & E & Hsz & _ & Hval).
  assert (forall dd, f_decode f = Some dd -> decode_typed dd) as Htyped by (intros dd Edd; rewrite Hdec in Edd; injection Edd as <-; apply dl_typed).
  assert (0 <= zlen w <= SIZE_MAX) as Hs0 by lia.
  pose proof (format_decode_cases f m q (zlen w) no_decoded None Hs0 Htyped) as Hc. rewrite E in Hc.
  destruct Hc as [(_ & _ & _ & d' & Ed & [_ _ _ [_ Hh] [_ Hv] [_ Ht] Hsum Hview _ _] & _)|(Hrc & _)]; [|done]. injection Ed as <-.
  unfold value_bytes in Hval. rewrite Hview in Hval. cbn in Hval.
  assert (zlen value = r_size (s_value (d_source d))) as Ev by (rewrite <- Hval, length_bytes_of; lia).
  exists (r_size (s_header (d_source d))). rewrite Ev. split; [done|]. split; [lia|done].
Qed.

(** An octet for every element at every level of nesting. *)
Lemma forest_size_wire fo : forall w q, forest_wire f fo = Some w -> (q = NULL -> w = []) -> zlen w <= SIZE_MAX ->
  bytes_of m q (zlen w) = w -> forest_size fo <= zlen w * (1 + forest_height fo).
Proof using Hdec DecodeLaws0.
  induction fo as [|tag value rest IH|tag kids IHk rest IH]; intros w q Hw Hq Hs Hb; cbn [forest_wire] in Hw; [cbn; lia|..].
  - destruct (cl_wire tag value) as [w1|] eqn:E1; [|done]. destruct (forest_wire f rest) as [w2|] eqn:E2; [|done]. injection Hw as <-.
    pose proof (cl_wire_length _ _ _ E1) as Hlen. rewrite length_app in *. rewrite Nat2Z.inj_add, bytes_of_app in Hb by lia.
    apply app_inj_1 in Hb as [_ Hb]; [|rewrite length_bytes_of; lia].
    specialize (IH w2 (q +p zlen w1) eq_refl). pose proof (forest_height_nonneg rest). cbn [forest_size forest_height].
    assert (q +p zlen w1 = NULL -> w2 = []) as Hn by (intros Hn; destruct q; [|done]; specialize (Hq eq_refl); destruct w1; [cbn in Hlen; lia|done]).
    specialize (IH Hn ltac:(lia) Hb). nia.
  - destruct (forest_wire f kids) as [value|] eqn:Ek; [|done]. destruct (cl_wire tag value) as [w1|] eqn:E1; [|done].
    destruct (forest_wire f rest) as [w2|] eqn:E2; [|done]. injection Hw as <-.
    pose proof (cl_wire_length _ _ _ E1) as Hlen. rewrite length_app in *. rewrite Nat2Z.inj_add, bytes_of_app in Hb by lia.
    apply app_inj_1 in Hb as [Hb1 Hb]; [|rewrite length_bytes_of; lia].
    specialize (IH w2 (q +p zlen w1) eq_refl). pose proof (forest_height_nonneg rest). pose proof (forest_height_nonneg kids).
    destruct (forest_height_node tag kids rest) as [Hh Hh']. pose proof (forest_size_nonneg kids).
    assert (q <> NULL) as Hnn by (intros Hn; specialize (Hq Hn); destruct w1; [cbn in Hlen; lia|done]).
    specialize (IH ltac:(intros Hn; now destruct q) ltac:(lia) Hb).
    destruct (value_within q tag value w1 Hnn ltac:(lia) E1 Hb1) as (h & Hh0 & Hv & Hbv).
    specialize (IHk value (q +p h) eq_refl ltac:(intros Hn; now destruct q) ltac:(lia) Hbv).
    assert (forest_size kids <= zlen w1 * forest_height (FNode tag kids rest)) as Hkb.
    { destruct kids as [|a b c|a b c]; [cbn [forest_size]; pose proof (forest_height_nonneg (FNode tag FNil rest)); nia|..].
      all: change (forest_height (FNode tag ?k rest)) with (Z.max (1 + forest_height k) (forest_height rest)); nia. }
    change (forest_size (FNode tag kids rest)) with (1 + forest_size kids + forest_size rest). nia.
Qed.

Section Body.
Context {A R B R' : Type} (data : ptr) (body : A -> tlv_element_t -> Z -> A + R) (view : A -> B) (result : R -> R')
  (step : B -> list Z -> B + R')
  (Hbody : forall a el pos, tag_ok el.(e_tag) ->
    match body a el pos with
    | inl a' => step (view a) (tag_bytes m el.(e_tag)) = inl (view a')
    | inr r => step (view a) (tag_bytes m el.(e_tag)) = inr (result r)
    end).

(** What the scan ends with, given what the fold ends with. *)
Definition scanned_as (r : B + R') (o : option (scanned A R)) : Prop :=
  match r with
  | inl b => exists a, o = Some (Scanned a) /\ view a = b
  | inr r => exists x, o = Some (Returned x) /\ result x = r
  end.

Lemma scan_one fuel pos stop tag value w a : data <> NULL -> cl_wire tag value = Some w -> 0 <= pos -> pos + zlen w <= stop <= SIZE_MAX ->
  bytes_of m (data +p pos) (zlen w) = w ->
  match step (view a) tag with
  | inl b => exists a', scan (S fuel) m data (Some f) body pos stop a = scan fuel m data (Some f) body (pos + zlen w) stop a' /\ view a' = b
  | inr r => exists x, scan (S fuel) m data (Some f) body pos stop a = Some (Returned x) /\ result x = r
  end.
Proof using Hdec DecodeLaws0 Hbody.
  intros Hd Hw Hp Hs Hb. pose proof (cl_wire_length _ _ _ Hw) as Hlen. cbn [scan]. rewrite (proj2 (Z.ltb_lt _ _)) by lia.
  destruct (read_element (data +p pos) (stop - pos) tag value w) as (el & -> & Htok & <-); [now destruct data|lia|done|lia|done|].
  rewrite is_ok_OK. cbn [negb cell]. specialize (Hbody a el pos Htok). destruct (body a el pos) as [a'|x]; rewrite Hbody.
  - exists a'. rewrite usize_small by lia. done.
  - exists x. done.
Qed.

Lemma scan_forest fo : forall fuel pos w a, forest_wire f fo = Some w -> (data = NULL -> w = []) -> 0 <= pos -> pos + zlen w <= SIZE_MAX ->
  bytes_of m (data +p pos) (zlen w) = w -> zlen w < Z.of_nat fuel ->
  scanned_as (fold_until step (view a) (heads fo)) (scan fuel m data (Some f) body pos (pos + zlen w) a).
Proof using Hdec DecodeLaws0 Hbody.
  assert (forall tag value w1 w2 rest, (forall fuel pos a, (data = NULL -> w2 = []) -> 0 <= pos -> pos + zlen w2 <= SIZE_MAX ->
      bytes_of m (data +p pos) (zlen w2) = w2 -> zlen w2 < Z.of_nat fuel ->
      scanned_as (fold_until step (view a) (heads rest)) (scan fuel m data (Some f) body pos (pos + zlen w2) a)) ->
    cl_wire tag value = Some w1 ->
    forall fuel pos a, (data = NULL -> w1 ++ w2 = []) -> 0 <= pos -> pos + zlen (w1 ++ w2) <= SIZE_MAX ->
      bytes_of m (data +p pos) (zlen (w1 ++ w2)) = w1 ++ w2 -> zlen (w1 ++ w2) < Z.of_nat fuel ->
      scanned_as (fold_until step (view a) (tag :: heads rest)) (scan fuel m data (Some f) body pos (pos + zlen (w1 ++ w2)) a)) as Hone.
  { intros tag value w1 w2 rest IH Hw1 fuel pos a Hd Hp Hs Hb Hf. pose proof (cl_wire_length _ _ _ Hw1) as Hlen. rewrite length_app in *.
    assert (data <> NULL) as Hnn by (intros Hn; apply Hd in Hn; destruct w1; [cbn in Hlen; lia|done]).
    rewrite Nat2Z.inj_add, bytes_of_app in Hb by lia. apply app_inj_1 in Hb as [Hb1 Hb2]; [|rewrite length_bytes_of; lia]. rewrite padd_padd in Hb2.
    destruct fuel as [|fuel]; [lia|].
    pose proof (scan_one fuel pos (pos + Z.of_nat (length w1 + length w2)) tag value w1 a Hnn Hw1 Hp ltac:(lia) Hb1) as Ho.
    cbn [fold_until]. destruct (step (view a) tag) as [b|r]; [|exact Ho]. destruct Ho as (a' & -> & <-).
    replace (pos + Z.of_nat (length w1 + length w2)) with (pos + zlen w1 + zlen w2) by lia.
    apply IH; try done; lia. }
  induction fo as [|tag value rest IH|tag kids _ rest IH]; intros fuel pos w a Hw Hd Hp Hs Hb Hf; cbn [forest_wire heads] in *.
  - injection Hw as <-. destruct fuel as [|fuel]; [cbn in Hf; lia|]. cbn. rewrite (proj2 (Z.ltb_ge _ _)) by lia. eauto.
  - destruct (cl_wire tag value) as [w1|] eqn:E1; [|done]. destruct (forest_wire f rest) as [w2|] eqn:E2; [|done]. injection Hw as <-.
    now apply (Hone tag value w1 w2 rest (fun fuel pos a => IH fuel pos w2 a eq_refl) E1).
  - destruct (forest_wire f kids) as [value|]; [|done]. destruct (cl_wire tag value) as [w1|] eqn:E1; [|done].
    destruct (forest_wire f rest) as [w2|] eqn:E2; [|done]. injection Hw as <-. now apply (Hone tag value w1 w2 rest (fun fuel pos a => IH fuel pos w2 a eq_refl) E1).
Qed.
End Body.
End Scans.

(** ** Rules by tag *)

Section Rules.
Context (m : mem) (t : tlv_structure_schema_t) (Hrules : zlen (rules_of t) = t.(ss_count))
  (Htags : Forall (fun r => 0 <= (rule_tag r).(t_size)) (rules_of t)).

Definition indexed (base : Z) (o : option (nat * tlv_structure_rule_t)) : option (Z * tlv_structure_rule_t) :=
  match o with Some (k, r) => Some (base + Z.of_nat k, r) | None => None end.

Lemma find_rule_list (P : tlv_structure_rule_t -> Prop) `{!forall r, Decision (P r)} (test : tlv_structure_rule_t -> bool) l : forall i,
  0 <= i -> drop (Z.to_nat i) (rules_of t) = l -> Forall (fun r => test r = bool_decide (P r)) l ->
  find_rule (length l) t test i = indexed i (list_find P l).
Proof using.
  induction l as [|r l IH]; intros i Hi Hd Hf; [done|]. apply list.Forall_cons_1 in Hf as [Hr Hf]. cbn [length find_rule list_find].
  assert (rule_at t i = r) as ->.
  { unfold rule_at. fold (rules_of t). rewrite nth_lookup. replace (Z.to_nat i) with (Z.to_nat i + 0)%nat by lia.
    now rewrite <- lookup_drop, Hd. }
  rewrite Hr. case_bool_decide as Hp; [rewrite decide_True by done; cbn; do 2 f_equal; lia|]. rewrite decide_False by done.
  rewrite (IH (i + 1)); [|lia| |done].
  - destruct (list_find P l) as [[k x]|]; [|done]. cbn. do 2 f_equal. lia.
  - replace (Z.to_nat (i + 1)) with (Z.to_nat i + 1)%nat by lia. rewrite <- drop_drop, Hd. done.
Qed.

Lemma same_tag_bytes r tag : r ∈ rules_of t -> 0 <= tag.(t_size) ->
  same_tag m (entry_of r).(se_tag) tag = bool_decide (describes m (tag_bytes m tag) r).
Proof using Htags.
  intros Hr Ht. rewrite list.Forall_forall in Htags. specialize (Htags r Hr). apply eq_bool_prop_intro. unfold same_tag, describes, rule_tag in *.
  rewrite bool_decide_spec, Is_true_true. now apply tag_equal_bytes.
Qed.

Lemma matching_rule_for tag : 0 <= tag.(t_size) -> matching_rule m t None tag = indexed 0 (rule_for m t (tag_bytes m tag)).
Proof using Hrules Htags.
  intros Ht. unfold matching_rule, rule_for. rewrite <- Hrules, Nat2Z.id. apply find_rule_list; [done|done|].
  apply list.Forall_forall. intros r Hr. cbn [andb]. now apply same_tag_bytes.
Qed.

Lemma matching_member id tag : 0 <= tag.(t_size) ->
  match matching_rule m t (Some id) tag with Some _ => member_of m t id (tag_bytes m tag) | None => ~ member_of m t id (tag_bytes m tag) end.
Proof using Hrules Htags.
  intros Ht. unfold matching_rule. rewrite <- Hrules, Nat2Z.id.
  rewrite (find_rule_list (describes_member m id (tag_bytes m tag))); [|done|done|].
  2: { apply list.Forall_forall. intros r Hr. unfold describes_member. rewrite (same_tag_bytes r tag Hr Ht). apply eq_bool_prop_intro.
       rewrite bool_decide_spec, Is_true_true, andb_true_iff, bool_decide_eq_true, Z.eqb_eq. done. }
  unfold member_of. destruct (list_find _ _) as [[k r]|] eqn:E; cbn [indexed].
  - apply list_find_Some in E as (Hk & Hp & _). apply list.Exists_exists. exists r. split; [now apply list_elem_of_lookup_2 in Hk|done].
  - apply list_find_None in E. apply Forall_Exists_neg. exact E.
Qed.

Lemma first_member_in id : (exists r, r ∈ rules_of t /\ r.(sr_group) = id) -> first_member t id ∈ rules_of t.
Proof using Hrules.
  intros (r & Hr & Hg). unfold first_member. rewrite <- Hrules, Nat2Z.id.
  rewrite (find_rule_list (fun r => sr_group r = id)); [|done|done|].
  - destruct (list_find _ _) as [[k x]|] eqn:E; cbn [indexed].
    + apply list_find_Some in E as (Hk & _ & _). now apply list_elem_of_lookup_2 in Hk.
    + apply list_find_None in E. rewrite list.Forall_forall in E. now apply E in Hg.
  - apply list.Forall_forall. intros x _. apply eq_bool_prop_intro. rewrite bool_decide_spec, Is_true_true. apply Z.eqb_eq.
Qed.
End Rules.

(** Counting up to a bound, which the next one breaks. *)
Definition count_step (P : list Z -> Prop) `{!forall x, Decision (P x)} `{Platform} (bound b : Z) (tag : list Z) : Z + tlv_result_t :=
  if bool_decide (P tag) then if b =? bound then inr TLV_ERR_SCHEMA else inl (usize (b + 1)) else inl b.

Lemma fold_count `{Platform} (P : list Z -> Prop) `{!forall x, Decision (P x)} bound tags : forall b, 0 <= b <= bound -> b + zlen tags <= SIZE_MAX ->
  fold_until (count_step P bound) b tags =
  if b + zlen (filter P tags) <=? bound then inl (b + zlen (filter P tags)) else inr TLV_ERR_SCHEMA.
Proof.
  induction tags as [|x tags IH]; intros b Hb Hs; cbn [fold_until length] in *.
  - rewrite filter_nil. cbn [length]. rewrite (proj2 (Z.leb_le _ _)) by lia. f_equal. lia.
  - unfold count_step at 1. rewrite filter_cons. case_bool_decide as Hp; [rewrite decide_True by done|rewrite decide_False by done; apply IH; lia].
    cbn [length]. destruct (Z.eqb_spec b bound) as [->|Hne].
    + rewrite (proj2 (Z.leb_gt _ _)) by lia. done.
    + rewrite usize_small by lia. rewrite IH by lia. replace (b + 1 + zlen (filter P tags)) with (b + Z.of_nat (S (length (filter P tags)))) by lia. done.
Qed.

Lemma heads_wire `{Platform} (f : tlv_format_t) `{!CodecLaws f} fo : forall w, forest_wire f fo = Some w -> zlen (heads fo) <= zlen w.
Proof.
  induction fo as [|tag value rest IH|tag kids _ rest IH]; intros w Hw; cbn in *; [lia| |].
  - destruct (cl_wire tag value) as [w1|] eqn:E1; [|done]. destruct (forest_wire f rest) as [w2|]; [|done]. injection Hw as <-.
    specialize (IH w2 eq_refl). apply cl_wire_length in E1. rewrite length_app. lia.
  - destruct (forest_wire f kids) as [value|]; [|done]. destruct (cl_wire tag value) as [w1|] eqn:E1; [|done].
    destruct (forest_wire f rest) as [w2|]; [|done]. injection Hw as <-. specialize (IH w2 eq_refl). apply cl_wire_length in E1. rewrite length_app. lia.
Qed.

Lemma violation_fails `{Platform} dg kind tag offset path depth : exists dg', violation dg kind tag offset path depth = (TLV_ERR_SCHEMA, dg').
Proof. destruct dg; cbn; eauto. Qed.

Lemma Forall_cons_iff' {A} (P : A -> Prop) x l : P x -> Forall P l <-> Forall P (x :: l).
Proof. intros Hx. rewrite list.Forall_cons. tauto. Qed.

(** A check of a condition: its result decides it. *)
Definition decides {A} (P : Prop) (o : option (tlv_result_t * A)) : Prop :=
  exists rc x, o = Some (rc, x) /\ ((rc = TLV_OK /\ P) \/ (rc = TLV_ERR_SCHEMA /\ ~ P)).

Lemma decides_iff {A} (P Q : Prop) (o : option (tlv_result_t * A)) : (P <-> Q) -> decides P o -> decides Q o.
Proof. intros Hpq (rc & x & E & Hout). exists rc, x. split; [done|]. rewrite Hpq in Hout. exact Hout. Qed.

Lemma decides_no `{Platform} (P : Prop) dg kind tag offset path depth : ~ P -> decides P (Some (violation dg kind tag offset path depth)).
Proof. intros Hp. destruct (violation_fails dg kind tag offset path depth) as [dg' ->]. exists TLV_ERR_SCHEMA, dg'. auto. Qed.

Section Order.
Context (m : mem) (t : tlv_structure_schema_t).

(** The order: the last index that matched, as a number. *)
Definition order_step (last : option nat) (tag : list Z) : option nat + tlv_result_t :=
  match rule_for m t tag with
  | Some (k, _) => if match last with Some l => (k <? l)%nat | None => false end then inr TLV_ERR_SCHEMA else inl (Some k)
  | None => inl last
  end.

Lemma fold_order l : forall last,
  (exists last', fold_until order_step last l = inl last' /\ Sorted le (option_list last ++ matched m t l)) \/
  (fold_until order_step last l = inr TLV_ERR_SCHEMA /\ ~ Sorted le (option_list last ++ matched m t l)).
Proof using.
  induction l as [|tag l IH]; intros last; cbn [fold_until].
  - left. exists last. split; [done|]. destruct last; cbn; repeat constructor.
  - unfold order_step at 1 3, matched. cbn [omap list_omap]. fold (matched m t l). destruct (rule_for m t tag) as [[k r]|]; cbn [option_map fst]; [|apply IH].
    destruct last as [j|]; cbn [option_list app]; [|exact (IH (Some k))]. destruct (Nat.ltb_spec k j) as [Hlt|Hge].
    + right. split; [done|]. intros Hs. inversion Hs as [|? ? _ Hh]; subst. inversion Hh; lia.
    + destruct (IH (Some k)) as [(last' & E & Hs)|[E Hs]]; cbn [option_list app] in Hs; [left|right].
      * exists last'. split; [done|]. constructor; [done|]. constructor. lia.
      * split; [done|]. intros Hs'. apply Hs. now inversion Hs'.
Qed.

End Order.

(** ** The checks *)

Section Scope.
Context `{Platform} (f : tlv_format_t) (decode : tlv_decode_fn) (Hdec : f.(f_decode) = Some decode)
  `{!DecodeLaws decode} `{!CodecLaws f} (m : mem)
  (t : tlv_structure_schema_t) (Htyped : table_typed t) (Hok : table_ok m t)
  (fo : forest) (w : list Z) (Hw : forest_wire f fo = Some w) (fuel : nat) (data : ptr) (start : Z)
  (Hdata : data = NULL -> w = []) (Hstart : 0 <= start) (Hstop : start + zlen w <= SIZE_MAX)
  (Hoctets : bytes_of m (data +p start) (zlen w) = w) (Hfuel : zlen w < Z.of_nat fuel)
  (path : list tlv_tag_t) (depth : Z).

Let tags := heads fo.
Let stop := start + zlen w.

Lemma rule_counts_spec n : forall i dg, 0 <= i -> i + Z.of_nat n = t.(ss_count) ->
  decides (Forall (fun r => r.(sr_min_occurs) <= occurrences m r tags <= r.(sr_max_occurs)) (drop (Z.to_nat i) (rules_of t)))
    (check_rule_counts m fuel data (Some f) t start stop path depth n i dg).
Proof using Hdec DecodeLaws0 Htyped Hok Hw Hdata Hstart Hstop Hoctets Hfuel.
  induction n as [|n IH]; intros i dg Hi Hn; cbn [check_rule_counts].
  - exists TLV_OK, dg. split; [done|]. left. split; [done|]. rewrite drop_ge; [done|]. pose proof (to_rules _ _ Hok). lia.
  - set (r := rule_at t i). assert (r ∈ rules_of t) as Hr by (apply nth_in; pose proof (to_rules _ _ Hok); lia).
    assert (rules_of t !! Z.to_nat i = Some r) as Hl.
    { unfold r, rule_at. fold (rules_of t). rewrite nth_lookup. destruct (rules_of t !! Z.to_nat i) eqn:E; [done|]. apply lookup_ge_None in E. pose proof (to_rules _ _ Hok). lia. }
    rewrite (drop_S _ _ _ Hl).
    set (body := fun (count : Z) (element : tlv_element_t) (pos : Z) => if same_tag m _ _ then _ else _).
    pose proof (tt_rule_occurs _ Htyped) as Hmin. rewrite list.Forall_forall in Hmin. specialize (Hmin r Hr).
    pose proof (to_rule _ _ Hok) as Hmax. rewrite list.Forall_forall in Hmax. specialize (Hmax r Hr). apply ro_occurs in Hmax.
    pose proof (heads_wire f fo w Hw) as Hlen. fold tags in Hlen.
    assert (forall count el pos, tag_ok el.(e_tag) ->
      match body count el pos with
      | inl count' => count_step (fun tag => describes m tag r) (sr_max_occurs r) count (tag_bytes m el.(e_tag)) = inl count'
      | inr x => count_step (fun tag => describes m tag r) (sr_max_occurs r) count (tag_bytes m el.(e_tag)) = inr (fst x)
      end) as Hbody.
    { intros count el pos [Hte _]. unfold body, count_step. rewrite (same_tag_bytes m t (tt_tags _ Htyped) r _ Hr) by lia.
      destruct (bool_decide (describes m _ _)); [|done]. destruct (count =? sr_max_occurs r); [|done].
      now destruct (violation_fails (option_occurs dg r None (usize (count + 1))) TLV_SCHEMA_ISSUE_DUPLICATE (e_tag el) pos path depth) as [x ->]. }
    pose proof (scan_forest f decode Hdec m data body id fst _ Hbody fo fuel start w 0 Hw Hdata Hstart Hstop Hoctets Hfuel) as Hs.
    fold tags in Hs. unfold id in Hs. rewrite (fold_count _ _ tags 0) in Hs by lia.
    change (zlen (filter (fun tag => describes m tag r) tags)) with (occurrences m r tags) in Hs. rewrite Z.add_0_l in Hs. fold stop in Hs.
    destruct (Z.leb_spec (occurrences m r tags) (sr_max_occurs r)) as [Hle|Hgt].
    + destruct Hs as (c & -> & ->). destruct (Z.ltb_spec (occurrences m r tags) (sr_min_occurs r)) as [Hlt|Hge].
      * apply decides_no. intros Hf. apply list.Forall_cons_1 in Hf as [Hf _]. lia.
      * eapply decides_iff; [apply Forall_cons_iff'; exact (conj Hge Hle)|].
        replace (S (Z.to_nat i)) with (Z.to_nat (i + 1)) by lia. apply IH; lia.
    + destruct Hs as ([rc x] & -> & E). cbn in E. subst rc. exists TLV_ERR_SCHEMA, x. split; [done|]. right. split; [done|].
      intros Hf. apply list.Forall_cons_1 in Hf as [Hf _]. lia.
Qed.

Lemma group_counts_spec n : forall g dg, 0 <= g -> g + Z.of_nat n = t.(ss_group_count) ->
  decides (Forall (fun x => x.(sg_min_occurs) <= members m t x.(sg_id) tags <= x.(sg_max_occurs)) (drop (Z.to_nat g) (groups_of t)))
    (check_group_counts m fuel data (Some f) t start stop path depth n g dg).
Proof using Hdec DecodeLaws0 Htyped Hok Hw Hdata Hstart Hstop Hoctets Hfuel.
  pose proof (to_groups _ _ Hok) as Hlen'.
  induction n as [|n IH]; intros g dg Hg Hn; cbn [check_group_counts].
  - exists TLV_OK, dg. split; [done|]. left. split; [done|]. rewrite drop_ge; [done|lia].
  - set (x := group_at t g). assert (x ∈ groups_of t) as Hx by (apply nth_in; lia).
    assert (groups_of t !! Z.to_nat g = Some x) as Hl.
    { unfold x, group_at. fold (groups_of t). rewrite nth_lookup. destruct (groups_of t !! Z.to_nat g) eqn:E; [done|]. apply lookup_ge_None in E. lia. }
    rewrite (drop_S _ _ _ Hl). set (P := member_of m t (sg_id x)).
    set (body := fun (count : Z) (element : tlv_element_t) (pos : Z) => match matching_rule m t _ _ with Some _ => _ | None => _ end).
    pose proof (tt_group_occurs _ Htyped) as Hmin. rewrite list.Forall_forall in Hmin. specialize (Hmin x Hx).
    pose proof (to_group _ _ Hok) as Hmax. rewrite list.Forall_forall in Hmax. specialize (Hmax x Hx). apply go_occurs in Hmax.
    pose proof (heads_wire f fo w Hw) as Hlen. fold tags in Hlen.
    assert (forall count el pos, tag_ok el.(e_tag) ->
      match body count el pos with
      | inl count' => count_step P (sg_max_occurs x) count (tag_bytes m el.(e_tag)) = inl count'
      | inr r => count_step P (sg_max_occurs x) count (tag_bytes m el.(e_tag)) = inr (fst r)
      end) as Hbody.
    { intros count el pos [Hte _]. unfold body, count_step.
      pose proof (matching_member m t (to_rules _ _ Hok) (tt_tags _ Htyped) (sg_id x) (e_tag el) ltac:(lia)) as Hm.
      destruct (matching_rule m t _ _); [rewrite (bool_decide_eq_true_2 (P _)) by done|now rewrite (bool_decide_eq_false_2 (P _)) by done].
      destruct (count =? sg_max_occurs x); [|done].
      now destruct (violation_fails (option_occurs dg no_rule (Some x) (usize (count + 1))) TLV_SCHEMA_ISSUE_DUPLICATE (e_tag el) pos path depth) as [y ->]. }
    pose proof (scan_forest f decode Hdec m data body id fst _ Hbody fo fuel start w 0 Hw Hdata Hstart Hstop Hoctets Hfuel) as Hs.
    fold tags in Hs. unfold id in Hs. rewrite (fold_count _ _ tags 0) in Hs by lia.
    change (zlen (filter P tags)) with (members m t (sg_id x) tags) in Hs. rewrite Z.add_0_l in Hs. fold stop in Hs.
    destruct (Z.leb_spec (members m t (sg_id x) tags) (sg_max_occurs x)) as [Hle|Hgt].
    + destruct Hs as (c & -> & ->). destruct (Z.ltb_spec (members m t (sg_id x) tags) (sg_min_occurs x)) as [Hlt|Hge].
      * apply decides_no. intros Hf. apply list.Forall_cons_1 in Hf as [Hf _]. lia.
      * eapply decides_iff; [apply Forall_cons_iff'; exact (conj Hge Hle)|].
        replace (S (Z.to_nat g)) with (Z.to_nat (g + 1)) by lia. apply IH; lia.
    + destruct Hs as ([rc y] & -> & E). cbn in E. subst rc. exists TLV_ERR_SCHEMA, y. split; [done|]. right. split; [done|].
      intros Hf. apply list.Forall_cons_1 in Hf as [Hf _]. lia.
Qed.

Lemma check_order_spec dg :
  decides (Sorted le (matched m t tags)) (check_order m fuel data (Some f) t start stop path depth dg).
Proof using Hdec DecodeLaws0 Htyped Hok Hw Hdata Hstart Hstop Hoctets Hfuel.
  unfold check_order. set (body := fun (last : option Z) (element : tlv_element_t) (pos : Z) => match matching_rule m t _ _ with Some _ => _ | None => _ end).
  assert (forall last el pos, tag_ok el.(e_tag) ->
    match body last el pos with
    | inl last' => order_step m t (option_map Z.to_nat last) (tag_bytes m el.(e_tag)) = inl (option_map Z.to_nat last')
    | inr r => order_step m t (option_map Z.to_nat last) (tag_bytes m el.(e_tag)) = inr (fst r)
    end) as Hbody.
  { intros last el pos [Hte _]. unfold body, order_step.
    rewrite (matching_rule_for m t (to_rules _ _ Hok) (tt_tags _ Htyped)) by lia. destruct (rule_for m t _) as [[k r]|]; cbn [indexed]; [|done].
    rewrite Z.add_0_l. destruct last as [l|]; cbn [option_map]; [|cbn; now rewrite Nat2Z.id].
    assert ((Z.of_nat k <? l) = (k <? Z.to_nat l)%nat) as -> by (apply eq_bool_prop_intro; rewrite !Is_true_true, Z.ltb_lt, Nat.ltb_lt; lia).
    destruct (k <? Z.to_nat l)%nat; [|cbn; now rewrite Nat2Z.id].
    now destruct (violation_fails (match dg with Some d => Some (with_field (se_name (entry_of r)) d) | None => None end)
      TLV_SCHEMA_ISSUE_ORDER (e_tag el) pos path depth) as [y ->]. }
  pose proof (scan_forest f decode Hdec m data body (option_map Z.to_nat) fst _ Hbody fo fuel start w None Hw Hdata Hstart Hstop Hoctets Hfuel) as Hs.
  fold tags stop in Hs. cbn [option_map] in Hs. destruct (fold_order m t tags None) as [(last' & E & Hsort)|[E Hsort]]; rewrite E in Hs.
  - destruct Hs as (last & -> & _). exists TLV_OK, dg. auto.
  - destruct Hs as ([rc y] & -> & Erc). cbn in Erc. subst rc. exists TLV_ERR_SCHEMA, y. auto.
Qed.

(** The whole scope. *)
Lemma check_scope_spec dg : decides (scope_met m t tags) (check_scope m fuel data (Some f) t start stop path depth dg).
Proof using Hdec DecodeLaws0 Htyped Hok Hw Hdata Hstart Hstop Hoctets Hfuel.
  destruct (table_typed_zlen _ Htyped) as (Hc & Hg & _). unfold check_scope.
  destruct (rule_counts_spec (Z.to_nat (ss_count t)) 0 dg ltac:(lia) ltac:(lia)) as (rc1 & dg1 & -> & [[-> Hr]|[-> Hr]]); rewrite drop_0 in Hr.
  2: { exists TLV_ERR_SCHEMA, dg1. split; [done|]. right. split; [done|]. intros [Hx _ _]. done. }
  destruct (group_counts_spec (Z.to_nat (ss_group_count t)) 0 dg1 ltac:(lia) ltac:(lia)) as (rc2 & dg2 & -> & [[-> Hgr]|[-> Hgr]]); rewrite drop_0 in Hgr.
  2: { exists TLV_ERR_SCHEMA, dg2. split; [done|]. right. split; [done|]. intros [_ Hx _]. done. }
  case_bool_decide as Eo; [|exists TLV_OK, dg2; split; [done|]; left; split; [done|]; now split].
  apply (decides_iff (Sorted le (matched m t tags))); [|apply check_order_spec]. split; [intros Hs; now split|intros [_ _ Hs]; auto].
Qed.
End Scope.
