(* ===== verification/SchemaValidate.v ===== *)
(** * Schemas: the rounds of a client of the node projection, and the laws of validation

    Both validations read a cursor of the node projection with a stack of scopes beside it.  A round reads
    the first item of the elements that are left, and ends behind the element or in front of its children;
    so validation accepts exactly the forests that conform to the schema. *)

From stdpp Require Import relations.
From S2P Require Import Prelude Mem Core Format WireFormat Diagnostic Reader TreeReader TreeLaws TreeNodes TreePlaces Visitor Codec Schema SchemaLaws SchemaStructure SchemaScope.

Lemma nth_insert_other (l : list Z) i j x : i <> j -> nth i (<[j := x]> l) 0 = nth i l 0.
Proof. intros Hn. now rewrite !nth_lookup, list_lookup_insert_ne. Qed.

Lemma nth_insert_same (l : list Z) i x : (i < length l)%nat -> nth i (<[i := x]> l) 0 = x.
Proof. intros Hn. now rewrite nth_lookup, list_lookup_insert_eq. Qed.

Lemma fits_settle room D : forall fo, fits room fo D -> fits room (fst (settle fo D)) (snd (settle fo D)).
Proof. induction D as [|rest D IH]; intros [| |] Hf; cbn [settle fst snd]; try done. apply IH, Hf. Qed.

Lemma fits_after room fo D : fits room fo D -> fo <> FNil -> fits room (fst (front (after_item fo D))) (snd (front (after_item fo D))).
Proof.
  intros Hf Hne. destruct fo as [|tag value rest|tag kids rest]; [done|..].
  - cbn [after_item behind_element front fst snd]. apply fits_settle. now apply (fits_rest _ _ _ _ Hf).
  - destruct (forest_height_node tag kids rest) as [_ Hr]. pose proof (fits_rest _ _ rest _ Hf Hr) as Hfr.
    destruct kids as [|? ? ?|? ? ?]; cbn [after_item behind_element front fst snd]; [now apply fits_settle|..].
    all: split; [|exact Hfr]; destruct D; destruct Hf as [Hf _]; revert Hf; cbn -[Z.max Z.of_nat]; lia.
Qed.

Lemma settle_length D : forall fo, (length (snd (settle fo D)) <= length D)%nat.
Proof. induction D as [|r D IH]; intros [| |]; cbn [settle snd length]; try lia. specialize (IH r). lia. Qed.

Section Visiting.
Context `{Platform} (f : tlv_format_t) (decode : tlv_decode_fn) (Hdec : f.(f_decode) = Some decode)
  `{!DecodeLaws decode} `{!CodecLaws f} (p : list Z -> bool) (m : mem)
  (Hclass : forall tag, tag_ok tag -> is_constructed (Some f) m tag = p (tag_bytes m tag)).

(** The next item of a place that is not the end. *)
Lemma next_any t P dg it0 : stands f p m t P -> settled P -> tlv_tree_reader_at_end (Some t) = false ->
  exists it t2, tlv_tree_reader_next_diag m (Some t) (Some it0) dg = Some (TLV_OK, Some t2, Some it, dg) /\ fst (front P) <> FNil /\
    stands f p m t2 (after_item (fst (front P)) (snd (front P))) /\ t2.(tr_projection) = true.
Proof using Hdec DecodeLaws0 Hclass.
  intros Hs Hset Hend. rewrite (place_at_end f p m t P Hs Hset) in Hend. destruct (front P) as [fo D] eqn:Ef.
  destruct fo as [|tag value rest|tag kids rest]; cbn [fst snd].
  - exfalso. destruct P as [fo' D'|kids rest D']; cbn in Ef; injection Ef; clear Ef; intros; subst; [now destruct D|now destruct Hs].
  - destruct (next_element f decode Hdec p m Hclass t P tag value rest D dg it0 Hs Ef) as (it & t2 & E & _ & Hs2 & Hp2 & _). now exists it, t2.
  - destruct (next_node_item f decode Hdec p m Hclass t P tag kids rest D dg it0 Hs Ef) as (v & it & t2 & _ & E & _ & Hs2 & Hp2 & _). now exists it, t2.
Qed.

Lemma after_settled fo D : settled (after_item fo D) \/ fo = FNil.
Proof using. destruct fo as [|? ? rest|? [] rest]; [now right|left; apply behind_settled..|now left|now left]. Qed.

(** Without a visitor the whole input is read. *)
Lemma visit_quiet {S : Type} n : forall t P (s : S) dg, stands f p m t P -> settled P -> place_size P < Z.of_nat n ->
  exists t', tree_visit_loop m n None t s dg = Some (TLV_OK, t', s, dg).
Proof using Hdec DecodeLaws0 Hclass.
  induction n as [|n IH]; intros t P s dg Hs Hset Hn; [pose proof (place_size_nonneg P); lia|]. cbn [tree_visit_loop].
  destruct (tlv_tree_reader_at_end (Some t)) eqn:Eend; [eauto|].
  destruct (next_any t P dg no_item Hs Hset Eend) as (it & t2 & -> & Hne & Hs2 & _). rewrite is_ok_OK. cbn [cell negb].
  apply (IH t2 (after_item (fst (front P)) (snd (front P)))); [done|now destruct (after_settled (fst (front P)) (snd (front P)))|].
  rewrite after_size by done. unfold place_size in Hn. lia.
Qed.

(** The first element of a front: its tag, value and form, its children and what follows. *)
Definition headed (fo : forest) (tag value : list Z) (c : bool) (kids rest : forest) : Prop :=
  match fo with
  | FNil => False
  | FElement tag' value' rest' => tag' = tag /\ value' = value /\ c = false /\ kids = FNil /\ rest' = rest
  | FNode tag' kids' rest' => tag' = tag /\ forest_wire f kids' = Some value /\ c = true /\ kids' = kids /\ rest' = rest
  end.

Lemma headed_size fo tag value c kids rest : headed fo tag value c kids rest -> forest_size rest < forest_size fo.
Proof using.
  destruct fo as [|tag' value' rest'|tag' kids' rest']; cbn [headed forest_size]; [done|intros (_ & _ & _ & _ & ->)|intros (_ & _ & _ & _ & ->)]; [lia|].
  pose proof (forest_size_nonneg kids'). lia.
Qed.

Lemma headed_height fo tag value c kids rest : headed fo tag value c kids rest -> forest_height rest <= forest_height fo.
Proof using.
  destruct fo as [|tag' value' rest'|tag' kids' rest']; cbn [headed]; [done|intros (_ & _ & _ & _ & ->)|intros (_ & _ & _ & _ & ->)]; [cbn; lia|].
  apply forest_height_node.
Qed.

Section Rounds.
Context (tables : Z -> tlv_structure_schema_t) (root : Z) (data : ptr) (size room : Z).

(** The state in front of a round; [scopes] holds the tables of the scopes at the indices of the nesting. *)
Record going (t : tlv_tree_reader_t) (P : place) (scopes : list Z) : Prop := {
  gg_stands : stands f p m t P;
  gg_settled : settled P;
  gg_data : t.(tr_input).(rd_data) = data;
  gg_base : t.(tr_input).(rd_base) = 0;
  gg_size : t.(tr_input).(rd_size) = size;
  gg_fits : fits room (fst (front P)) (snd (front P));
  gg_scopes : zlen scopes = TLV_SCHEMA_MAX_DEPTH + 1;
  gg_known : forall i, (i <= length (snd (front P)))%nat -> reaches tables root (nth i scopes 0) }.

(** The item of a round. *)
Record fetched (t2 : tlv_tree_reader_t) (fo : forest) (D : list forest) (it : tlv_tree_item_t) (tag value : list Z) (c : bool) (kids rest : forest) : Prop := {
  ft_head : headed fo tag value c kids rest;
  ft_depth : it.(it_depth) = zlen D;
  ft_form : it.(it_constructed) = c;
  ft_tag_ok : tag_ok it.(it_element).(e_tag);
  ft_tag : tag_bytes m it.(it_element).(e_tag) = tag;
  ft_class : is_constructed (Some f) m it.(it_element).(e_tag) = c;
  ft_view : it.(it_element).(e_value) = mk_value (data +p (it.(it_offset) + it.(it_source).(s_value).(r_offset))) (zlen value);
  ft_start : 0 <= it.(it_offset) + it.(it_source).(s_value).(r_offset);
  ft_stop : it.(it_offset) + it.(it_source).(s_value).(r_offset) + zlen value <= size;
  ft_kids : c = true -> forest_wire f kids = Some value /\
    bytes_of m (data +p (it.(it_offset) + it.(it_source).(s_value).(r_offset))) (zlen value) = value;
  ft_stands : stands f p m t2 (after_item fo D);
  ft_projection : t2.(tr_projection) = true;
  ft_data : t2.(tr_input).(rd_data) = data;
  ft_base : t2.(tr_input).(rd_base) = 0;
  ft_wsize : t2.(tr_input).(rd_size) = size }.

Lemma front_class t P : stands f p m t P -> classified p (fst (front P)) = true.
Proof using. intros Hs. destruct (front_of f p m t P Hs) as (t0 & [_ _ _ _ (w & _ & _ & _ & Hc) _ _ _] & _). done. Qed.

Lemma fetch t P scopes : going t P scopes -> tlv_tree_reader_at_end (Some t) = false ->
  exists it t2 tag value c kids rest, tlv_tree_reader_next m (Some t) (Some no_item) = Some (TLV_OK, Some t2, Some it) /\
    fetched t2 (fst (front P)) (snd (front P)) it tag value c kids rest.
Proof using Hdec DecodeLaws0 Hclass.
  intros [Hs Hset Hda Hb Hsz _ _ _] Hend. destruct (next_any t P None no_item Hs Hset Hend) as (_ & _ & _ & Hne & _).
  assert (window_end t = size) as Hwe by (unfold window_end; lia).
  pose proof (front_class t P Hs) as Hcl. destruct (front P) as [fo D] eqn:Ef. cbn [fst snd] in *. destruct fo as [|tag value rest|tag kids rest]; [done|..].
  - destruct (next_element f decode Hdec p m Hclass t P tag value rest D None no_item Hs Ef) as (it & t2 & E & [Hd Hc Hto Ht Hv Ho He Hview] & Hs2 & Hp2 & Hw).
    exists it, t2, tag, value, false, FNil, rest. split; [unfold tlv_tree_reader_next; now rewrite E|].
    unfold same_window in Hw. cbn [classified] in Hcl. apply andb_true_iff in Hcl as [Hcl _]. apply negb_true_iff in Hcl. split; try done; try lia.
    + now rewrite (Hclass _ Hto), Ht.
    + now rewrite Hview, Hda, Hb, Z.sub_0_r.
    + now rewrite Hw, <- Hda.
    + now rewrite Hw, <- Hb.
    + now rewrite Hw, <- Hsz.
  - destruct (next_node_item f decode Hdec p m Hclass t P tag kids rest D None no_item Hs Ef) as (value & it & t2 & Hk & E & [Hd Hc Hto Ht Hv Ho He Hview] & Hs2 & Hp2 & Hw & Hl).
    exists it, t2, tag, value, true, kids, rest. split; [unfold tlv_tree_reader_next; now rewrite E|].
    unfold same_window in Hw. cbn [classified] in Hcl. apply andb_true_iff in Hcl as [Hcl _]. apply andb_true_iff in Hcl as [Hcl _]. split; try done; try lia.
    + now rewrite (Hclass _ Hto), Ht.
    + now rewrite Hview, Hda, Hb, Z.sub_0_r.
    + intros _. split; [done|]. destruct Hl as (w & Hw2 & Hoct & _). rewrite Hk in Hw2. injection Hw2 as <-. unfold octets in Hoct.
      rewrite Hda, Hb, Z.sub_0_r in Hoct. exact Hoct.
    + now rewrite Hw, <- Hda.
    + now rewrite Hw, <- Hb.
    + now rewrite Hw, <- Hsz.
Qed.

(** A scope that is deeper than the nesting does not matter. *)
Lemma going_insert t P scopes i x : going t P scopes -> (length (snd (front P)) < i)%nat -> going t P (<[i := x]> scopes).
Proof using.
  intros [Hs Hset Hd Hb Hsz Hf Hsc Hk] Hi. split; try done; [now rewrite length_insert|]. intros j Hj. rewrite nth_insert_other by lia. auto.
Qed.

(** Behind the element. *)
Lemma rest_going t P scopes it t2 tag value c kids rest t3 : going t P scopes ->
  fetched t2 (fst (front P)) (snd (front P)) it tag value c kids rest ->
  stands f p m t3 (behind_element rest (snd (front P))) -> same_window t2 t3 -> going t3 (behind_element rest (snd (front P))) scopes.
Proof using.
  intros [_ _ _ _ _ Hf Hsc Hk] [Hh _ _ _ _ _ _ _ _ _ _ _ Hda Hb Hsz] Hs Hw. unfold same_window in Hw. apply headed_height in Hh.
  pose proof (fits_settle room _ rest (fits_rest _ _ _ _ Hf Hh)) as Hfit.
  split; [done|apply behind_settled|now rewrite Hw, <- Hda|now rewrite Hw, <- Hb|now rewrite Hw, <- Hsz|exact Hfit|done|].
  intros i Hi. apply Hk. cbn [behind_element front fst snd] in Hi. pose proof (settle_length (snd (front P)) rest). lia.
Qed.

Lemma rest_size P it t2 tag value c kids rest : fetched t2 (fst (front P)) (snd (front P)) it tag value c kids rest ->
  place_size (behind_element rest (snd (front P))) < place_size P.
Proof using.
  intros [Hh _ _ _ _ _ _ _ _ _ _ _ _ _ _]. unfold place_size. cbn [front behind_element fst snd]. rewrite settle_size. apply headed_size in Hh. lia.
Qed.

(** Skipping the children, if there are any. *)
Lemma skipped P it t2 tag value c kids rest : fetched t2 (fst (front P)) (snd (front P)) it tag value c kids rest ->
  exists t3, (if it.(it_constructed) && negb (it.(it_element).(e_value).(v_size) =? 0) then tlv_tree_reader_skip_subtree (Some t2)
              else Some (TLV_OK, Some t2)) = Some (TLV_OK, Some t3) /\
    stands f p m t3 (behind_element rest (snd (front P))) /\ same_window t2 t3.
Proof using.
  intros [Hh _ Hc _ _ _ Hv _ _ _ Hst Hpr _ _ _]. rewrite Hc, Hv. cbn [v_size].
  destruct (fst (front P)) as [|tag' value' rest'|tag' kids' rest']; cbn [headed] in Hh; [done|destruct Hh as (_ & _ & -> & _ & ->)|destruct Hh as (_ & Hw & -> & -> & ->)].
  - cbn [andb]. exists t2. split; [done|]. split; [exact Hst|apply same_window_refl].
  - assert (kids = FNil \/ kids <> FNil) as [->|Hne] by (destruct kids; [now left|now right..]).
    + injection Hw as <-. exists t2. split; [done|]. split; [exact Hst|apply same_window_refl].
    + pose proof (forest_wire_pos f kids value Hw Hne). rewrite (proj2 (Z.eqb_neq _ _)) by lia. cbn [andb negb].
      assert (stands f p m t2 (AtNode kids rest (snd (front P)))) as Hst' by now destruct kids.
      destruct (skip_node f p m t2 kids rest _ Hst' Hpr) as (t3 & -> & Hs3 & _ & Hw3). now exists t3.
Qed.

(** In front of the children. *)
Lemma kids_going t P scopes it t2 tag value c kids rest child : room <= TLV_SCHEMA_MAX_DEPTH -> going t P scopes ->
  fetched t2 (fst (front P)) (snd (front P)) it tag value c kids rest -> c = true -> kids <> FNil -> reaches tables root child ->
  zlen (snd (front P)) + 1 <= room /\
  going t2 (AtNode kids rest (snd (front P))) (<[S (length (snd (front P))) := child]> scopes) /\
  place_size (AtNode kids rest (snd (front P))) < place_size P.
Proof using.
  intros Hroom [_ _ _ _ _ Hf Hsc Hk] [Hh _ _ _ _ _ _ _ _ _ Hst _ Hda Hb Hsz] Hc Hne Hreach. set (D := snd (front P)) in *.
  assert (after_item (fst (front P)) D = AtNode kids rest D) as Ea.
  { destruct (fst (front P)); cbn [headed] in Hh; [done|destruct Hh as (_ & _ & Hx & _); congruence|]. destruct Hh as (_ & _ & _ & -> & ->). now destruct kids. }
  rewrite Ea in Hst. assert (fst (front P) <> FNil) as Hnn by now destruct (fst (front P)).
  pose proof (fits_after _ _ _ Hf Hnn) as Hfit. rewrite Ea in Hfit. cbn [front fst snd] in Hfit.
  assert (zlen D + 1 <= room) as Hd by (destruct Hfit as [Hfit _]; cbn [length] in Hfit; pose proof (forest_height_nonneg kids); lia).
  split; [done|]. split; [split; cbn [front fst snd]; try done|].
  - now rewrite length_insert.
  - intros i Hi. cbn [length] in Hi. destruct (decide (i = S (length D))) as [->|Hn]; [rewrite nth_insert_same; [done|unfold TLV_SCHEMA_MAX_DEPTH in *; lia]|].
    rewrite nth_insert_other by done. apply Hk. lia.
  - pose proof (after_size (fst (front P)) D Hnn) as Hps. rewrite Ea in Hps. unfold place_size at 2. fold D. lia.
Qed.
End Rounds.

(** The start of an input. *)
Lemma whole_going (fo : forest) (w : list Z) (data : ptr) (tables : Z -> tlv_structure_schema_t) root room x t : forest_height fo <= room ->
  stands f p m t (InScope fo []) -> t.(tr_input) = mk_reader (Some f) data (zlen w) 0 0 1 ->
  going tables root data (zlen w) room t (InScope fo []) (<[0%nat := root]> (replicate (Z.to_nat TLV_SCHEMA_MAX_DEPTH + 1) x)).
Proof using.
  intros Hr Hst Hi. split; rewrite ?Hi; try done.
  - now destruct fo.
  - intros i Hi'. cbn in Hi'. apply Nat.le_0_r in Hi' as ->. apply rtc_refl.
Qed.
(** An encoding that is read, within the limits. *)
Section Whole.
Context (fo : forest) (w : list Z) (data : ptr) (max_depth max_elements : Z)
  (Hw : forest_wire f fo = Some w) (Hcl : classified p fo = true) (Hd : data = NULL -> w = []) (Hs : zlen w <= SIZE_MAX)
  (Hb : bytes_of m data (zlen w) = w) (Hroom : forest_height fo <= TLV_SCHEMA_MAX_DEPTH)
  (Hmd : forest_height fo <= max_depth <= SIZE_MAX) (Hme : forest_size fo <= max_elements <= SIZE_MAX).

Lemma whole_cursor : exists t, tlv_tree_reader_init (Some no_cursor) data (zlen w) (Some f) (Some schema_frames) TLV_SCHEMA_MAX_DEPTH max_depth max_elements
    = (TLV_OK, Some t) /\ stands f p m t (InScope fo []) /\ t.(tr_input) = mk_reader (Some f) data (zlen w) 0 0 1.
Proof using Hdec Hw Hcl Hd Hs Hb Hroom Hmd Hme. exact (init_place f decode Hdec p m fo w data no_cursor schema_frames max_depth max_elements Hw Hcl Hd Hs Hb Hroom Hmd Hme). Qed.

Lemma whole_fuel : place_size (InScope fo []) < Z.of_nat (item_fuel (zlen w)).
Proof using Hdec DecodeLaws0 Hw Hd Hs Hb Hroom Hmd.
  pose proof (forest_size_wire f decode Hdec m fo w data Hw Hd Hs Hb). pose proof (forest_height_nonneg fo).
  unfold place_size, item_fuel, TLV_SCHEMA_MAX_DEPTH in *. cbn [front fst snd stack_size]. change (S (Z.to_nat 64)) with 65%nat. nia.
Qed.

Lemma check_tree_ok dg : exists dg', schema_check_tree m (item_fuel (zlen w)) data (zlen w) (Some f) max_depth max_elements dg = Some (TLV_OK, dg') /\ (dg = None -> dg' = None).
Proof using Hdec DecodeLaws0 Hclass Hw Hcl Hd Hs Hb Hroom Hmd Hme.
  unfold schema_check_tree. destruct whole_cursor as (t & -> & Hst & _). rewrite is_ok_OK. cbn [negb]. unfold tlv_tree_reader_visit.
  pose proof whole_fuel.
  edestruct (visit_quiet (item_fuel (zlen w)) t (InScope fo []) tt) as (t' & ->); [done|now destruct fo|done|].
  destruct dg as [d|]; cbn [tlv_reader_diagnostic_init]; eauto.
Qed.

End Whole.
End Visiting.

(** * Schemas: the laws of validation

    On the encoding of a forest within the limits, validation accepts exactly the forests that conform to
    the schema, whatever format, diagnostic and buffer. *)

Lemma length_met_spec e n : e.(se_min_length) <= e.(se_max_length) ->
  (tlv_schema_validate_length (Some e) n = TLV_OK /\ length_met e n) \/ (tlv_schema_validate_length (Some e) n = TLV_ERR_SCHEMA /\ ~ length_met e n).
Proof.
  intros Hle. unfold tlv_schema_validate_length. rewrite (proj2 (Z.ltb_ge _ _)) by lia. destruct (_ || _) eqn:E; [right|left]; (split; [done|]).
  - intros [Hb He Hm]. rewrite !orb_true_iff, !andb_true_iff, !negb_true_iff, !Z.ltb_lt, !Z.eqb_neq in E.
    destruct E as [[[E|E]|[[E1 E2] E3]]|[E1 E2]]; [lia|lia|destruct (He E1); done|]. apply E2, Z.mod_divide; [done|auto].
  - rewrite !orb_false_iff, !andb_false_iff, !negb_false_iff, !Z.ltb_ge, !Z.eqb_eq in E. destruct E as [[[E1 E2] E3] E4].
    split; [lia|intros Hf; destruct E3 as [[E3|E3]|E3]; auto; done|]. intros Hm. destruct E4 as [E4|E4]; [done|]. now apply Z.mod_divide.
Qed.

Section Visiting.
Context `{Platform} (f : tlv_format_t) (decode : tlv_decode_fn) (Hdec : f.(f_decode) = Some decode)
  `{!DecodeLaws decode} `{!CodecLaws f} (p : list Z -> bool) (m : mem)
  (Hclass : forall tag, tag_ok tag -> is_constructed (Some f) m tag = p (tag_bytes m tag)).

Section Loop.
Context (tables : Z -> tlv_structure_schema_t).

(** What is left to meet: the tables of the scopes are at the indices of the nesting. *)
Fixpoint todo (scopes : list Z) (fo : forest) (D : list forest) : Prop :=
  elements_met f m tables (nth (length D) scopes 0) fo /\ match D with [] => True | rest :: D => todo scopes rest D end.

Lemma todo_settle scopes D : forall fo, todo scopes (fst (settle fo D)) (snd (settle fo D)) <-> todo scopes fo D.
Proof using. induction D as [|rest D IH]; intros [| |]; cbn [settle fst snd]; try done. rewrite IH. cbn. tauto. Qed.

Lemma todo_insert scopes i x D : forall fo, (length D < i)%nat -> todo (<[i := x]> scopes) fo D <-> todo scopes fo D.
Proof using.
  induction D as [|rest D IH]; intros fo Hi; cbn [todo length] in *; rewrite nth_insert_other by lia; [done|]. rewrite IH by lia. done.
Qed.

Lemma headed_met fo tag value c kids rest a : headed f fo tag value c kids rest ->
  elements_met f m tables a fo <->
  element_met m (tables a) tag (zlen value) c (fun child => c = true /\ scope_met m (tables child) (heads kids) /\ elements_met f m tables child kids) /\
  elements_met f m tables a rest.
Proof using.
  destruct fo as [|tag' value' rest'|tag' kids' rest']; cbn [headed elements_met]; [done|intros (-> & -> & -> & -> & ->)|intros (-> & Hw & -> & -> & ->)].
  - unfold element_met. destruct (rule_for _ _ _) as [[k r]|]; [|done]. destruct (sr_children r); [|done]. intuition done.
  - unfold wire_length. rewrite Hw. cbn [default]. unfold element_met. destruct (rule_for _ _ _) as [[k r]|]; [|done]. destruct (sr_children r); [|done]. tauto.
Qed.

(** What is left: the first element, and the rest of its scope. *)
Lemma todo_headed fo tag value c kids rest scopes D : headed f fo tag value c kids rest ->
  todo scopes fo D <->
  element_met m (tables (nth (length D) scopes 0)) tag (zlen value) c
    (fun child => c = true /\ scope_met m (tables child) (heads kids) /\ elements_met f m tables child kids) /\
  todo scopes rest D.
Proof using. intros Hh. pose proof (headed_met _ _ _ _ _ _ (nth (length D) scopes 0) Hh) as Hm. destruct D; cbn [todo]; rewrite Hm; tauto. Qed.

Lemma todo_head fo D scopes tag value c kids rest : headed f fo tag value c kids rest ->
  ~ element_met m (tables (nth (length D) scopes 0)) tag (zlen value) c
    (fun child => c = true /\ scope_met m (tables child) (heads kids) /\ elements_met f m tables child kids) -> ~ todo scopes fo D.
Proof using. intros Hh Hn Ht. now apply Hn, (todo_headed _ _ _ _ _ _ scopes D Hh). Qed.

Context (root : Z) (data : ptr) (size : Z)
  (Htables : forall a, reaches tables root a -> table_typed (tables a) /\ table_ok m (tables a))
  (Hsize : 0 <= size <= SIZE_MAX) (Hdata : data = NULL -> size = 0).

Abbreviation going := (going f p m tables root data size TLV_SCHEMA_MAX_DEPTH).
Abbreviation fetched := (fetched f p m data size).

(** How a round ends: with a violation of what was left to meet, or nearer to the end with the rest. *)
Definition progress (P : place) (scopes : list Z) (o : option round) : Prop :=
  (exists dg, o = Some (inr (TLV_ERR_SCHEMA, dg)) /\ ~ todo scopes (fst (front P)) (snd (front P))) \/
  (exists t P' scopes' path dg, o = Some (inl (t, scopes', path, dg)) /\ going t P' scopes' /\ place_size P' < place_size P /\
     (todo scopes (fst (front P)) (snd (front P)) <-> todo scopes' (fst (front P')) (snd (front P')))).

Lemma todo_violated P scopes kind tag offset path depth dg : ~ todo scopes (fst (front P)) (snd (front P)) ->
  progress P scopes (Some (inr (violation dg kind tag offset path depth))).
Proof using. intros Hn. left. destruct (violation_fails dg kind tag offset path depth) as [dg' ->]. eauto. Qed.

(** A round that ends behind the element. *)
Lemma skip_progress t P scopes dg path it t2 tag value c kids rest :
  going t P scopes -> fetched t2 (fst (front P)) (snd (front P)) it tag value c kids rest ->
  element_met m (tables (nth (length (snd (front P))) scopes 0)) tag (zlen value) c
    (fun child => c = true /\ scope_met m (tables child) (heads kids) /\ elements_met f m tables child kids) ->
  progress P scopes (skip_item it t2 scopes path dg).
Proof using Hsize.
  intros Hg Hft Hmet. destruct (skipped f p m data size P it t2 tag value c kids rest Hft) as (t3 & E & Hs & Hw). right.
  exists t3, (behind_element rest (snd (front P))), scopes, path, dg. split.
  { unfold skip_item. destruct (_ && _); [now rewrite E, is_ok_OK|now injection E as ->]. }
  split; [exact (rest_going f p m tables root data size _ t P scopes it t2 tag value c kids rest t3 Hg Hft Hs Hw)|].
  split; [exact (rest_size f p m data size P it t2 tag value c kids rest Hft)|].
  unfold behind_element. cbn [front fst snd]. rewrite todo_settle, (todo_headed _ _ _ _ _ _ _ _ (ft_head _ _ _ _ _ _ _ _ _ _ _ _ _ _ Hft)). tauto.
Qed.

(** Into the children. *)
Lemma enter_progress t P scopes dg path it t2 tag value c kids rest k r child :
  going t P scopes -> fetched t2 (fst (front P)) (snd (front P)) it tag value c kids rest -> c = true -> zlen value <> 0 ->
  reaches tables root child -> rule_for m (tables (nth (length (snd (front P))) scopes 0)) tag = Some (k, r) ->
  length_met (entry_of r) (zlen value) -> form_met r c -> r.(sr_children) = Some child -> scope_met m (tables child) (heads kids) ->
  it.(it_depth) <> TLV_SCHEMA_MAX_DEPTH /\
  progress P scopes (Some (inl (t2, <[Z.to_nat (it.(it_depth) + 1) := child]> scopes, path, dg))).
Proof using Hsize.
  intros Hg Hft Hc Hnz Hreach Hrule Hlen Hform Hchild Hscope. pose proof Hft as [Hh Hd _ _ _ _ _ _ _ Hkv _ _ _ _ _].
  destruct (Hkv Hc) as [Hw _]. assert (kids <> FNil) as Hne by (intros ->; injection Hw as <-; done).
  destruct (kids_going f p m tables root data size TLV_SCHEMA_MAX_DEPTH t P scopes it t2 tag value c kids rest child (Z.le_refl _) Hg Hft Hc Hne Hreach)
    as (Hroom & Hg' & Hsz). pose proof (gg_scopes _ _ _ _ _ _ _ _ _ _ _ Hg) as Hsc.
  set (D := snd (front P)) in *. rewrite Hd. split; [unfold TLV_SCHEMA_MAX_DEPTH in *; lia|]. right.
  replace (Z.to_nat (zlen D + 1)) with (S (length D)) by (clear; lia).
  exists t2, (AtNode kids rest D), (<[S (length D) := child]> scopes), path, dg. split; [done|]. split; [done|]. split; [done|]. fold D.
  rewrite (todo_headed _ _ _ _ _ _ _ _ Hh). cbn [front fst snd todo length].
  rewrite nth_insert_same, todo_insert by (clear - Hroom Hsc; unfold TLV_SCHEMA_MAX_DEPTH in *; lia).
  unfold element_met. rewrite Hrule, Hchild. tauto.
Qed.

Context (fuel : nat) (Hfuel : size < Z.of_nat fuel).

Lemma rule_for_in t tag k r : rule_for m t tag = Some (k, r) -> r ∈ rules_of t.
Proof using. unfold rule_for. intros E. apply list_find_Some in E as (Hk & _ & _). now apply list_elem_of_lookup_2 in Hk. Qed.

Lemma form_met_test r c : match r.(sr_kind) with TLV_SCHEMA_KIND_OTHER _ => False | _ => True end ->
  (bool_decide (r.(sr_kind) = TLV_SCHEMA_PRIMITIVE) && c) || (bool_decide (r.(sr_kind) = TLV_SCHEMA_CONSTRUCTED) && negb c) = false <-> form_met r c.
Proof using. unfold form_met. destruct (sr_kind r), c; cbn; intros Hx; split; intros Hy; try done; try discriminate. Qed.

(** A round of the main loop. *)
Lemma round_progress t P scopes dg path it t2 tag value c kids rest :
  going t P scopes -> fetched t2 (fst (front P)) (snd (front P)) it tag value c kids rest ->
  progress P scopes (validate_item m tables fuel data (Some f) it t2 scopes path dg).
Proof using Hdec DecodeLaws0 Htables Hsize Hdata Hfuel.
  intros Hg Hft. pose proof Hg as [_ _ _ _ _ _ _ Hk]. pose proof Hft as [Hh Hd Hc [Hto _] Htag _ Hview Hst0 Hst1 Hkv _ _ _ _ _].
  assert (v_size (e_value (it_element it)) = zlen value) as Hsz by now rewrite Hview.
  assert (reaches tables root (nth (length (snd (front P))) scopes 0)) as Hreach by (now apply Hk).
  unfold validate_item. cbv zeta. rewrite Hd, Nat2Z.id. set (a := nth (length (snd (front P))) scopes 0) in *.
  destruct (Htables a Hreach) as [Hty Hok]. rewrite (matching_rule_for m (tables a) (to_rules _ _ Hok) (tt_tags _ Hty)) by lia. rewrite Htag.
  destruct (rule_for m (tables a) tag) as [[k r]|] eqn:Er; cbn [indexed].
  2: { destruct (Z.eqb_spec (ss_allow_unknown (tables a)) 0) as [E0|E0].
    - apply todo_violated. apply (todo_head _ _ _ _ _ _ _ _ Hh). fold a. unfold element_met. now rewrite Er.
    - apply (skip_progress t P scopes dg path it t2 tag value c kids rest Hg Hft). fold a. unfold element_met. now rewrite Er. }
  assert (rule_ok (tables a) r) as [(e & He & _ & _ & Hle) _ Hkind Hcc _].
  { pose proof (to_rule _ _ Hok) as Hf. rewrite list.Forall_forall in Hf. now apply Hf, (rule_for_in _ tag k). }
  rewrite Hsz, size_to_native_small by lia. rewrite is_ok_OK. cbn [cell]. rewrite He.
  assert (entry_of r = e) as Ee by (unfold entry_of; now rewrite He).
  destruct (length_met_spec e (zlen value) Hle) as [[-> Hlen]|[-> Hlen]].
  2: { apply todo_violated, (todo_head _ _ _ _ _ _ _ _ Hh). fold a. unfold element_met. rewrite Er, Ee. tauto. }
  rewrite is_ok_OK. cbn [rc_eqb negb]. change (rc_eqb TLV_OK TLV_ERR_SCHEMA) with false. cbn [negb]. rewrite Hc.
  destruct (_ || _) eqn:Ef.
  { apply todo_violated, (todo_head _ _ _ _ _ _ _ _ Hh). fold a. unfold element_met. rewrite Er. rewrite <- (form_met_test r c Hkind), Ef. intros (_ & Hx & _). done. }
  apply (form_met_test r c Hkind) in Ef. destruct (sr_children r) as [child|] eqn:Ech.
  2: { apply (skip_progress t P scopes dg path it t2 tag value c kids rest Hg Hft). fold a. unfold element_met. now rewrite Er, Ee, Ech. }
  assert (c = true) as -> by (unfold form_met in Ef; now rewrite Hcc in Ef).
  assert (reaches tables root child) as Hrc by (eapply rtc_r; [exact Hreach|]; exists r; split; [now apply (rule_for_in _ tag k)|done]).
  destruct (Htables child Hrc) as [Htyc Hokc]. destruct (Hkv eq_refl) as [Hw Hb]. rewrite !usize_small by lia.
  destruct (check_scope_spec f decode Hdec m (tables child) Htyc Hokc kids value Hw fuel data (it_offset it + r_offset (s_value (it_source it)))
    ltac:(intros Hn; apply Hdata in Hn; destruct value; [done|cbn [length] in *; lia]) ltac:(lia) ltac:(lia) Hb ltac:(lia)
    (<[Z.to_nat (zlen (snd (front P)) + 1) := e_tag (it_element it)]> path) (zlen (snd (front P)) + 1) dg) as (rc & dg2 & -> & [[-> Hs]|[-> Hs]]).
  2: { left. exists dg2. split; [done|]. apply (todo_head _ _ _ _ _ _ _ _ Hh). fold a. unfold element_met. rewrite Er, Ech. tauto. }
  rewrite is_ok_OK. cbn [negb]. destruct (Z.eqb_spec (zlen value) 0) as [Ez|Ez]; cbn [negb].
  - apply (skip_progress t P scopes _ _ it t2 tag value true kids rest Hg Hft). fold a. unfold element_met. rewrite Er, Ee, Ech.
    split; [done|]. split; [done|]. split; [done|]. split; [done|]. assert (kids = FNil) as -> by (apply (forest_wire_nil f); rewrite Hw; destruct value; [done|cbn in Ez; lia]). done.
  - destruct (enter_progress t P scopes dg2 (<[Z.to_nat (zlen (snd (front P)) + 1) := e_tag (it_element it)]> path) it t2 tag value true kids rest k r child Hg Hft
      eq_refl Ez Hrc Er ltac:(now rewrite Ee) Ef Ech Hs) as [Hnd Hp]. rewrite Hd in Hnd, Hp. rewrite (proj2 (Z.eqb_neq _ _)) by done. exact Hp.
Qed.

(** The main loop. *)
Lemma validate_loop_spec n : forall t P scopes path dg, going t P scopes -> place_size P < Z.of_nat n ->
  decides (todo scopes (fst (front P)) (snd (front P))) (validate_loop m tables n fuel data (Some f) t scopes path dg).
Proof using Hdec DecodeLaws0 Hclass Htables Hsize Hdata Hfuel.
  induction n as [|n IH]; intros t P scopes path dg Hg Hn; [pose proof (place_size_nonneg P); lia|]. cbn [validate_loop].
  destruct (tlv_tree_reader_at_end (Some t)) eqn:Eend.
  - rewrite (place_at_end f p m t P (gg_stands _ _ _ _ _ _ _ _ _ _ _ Hg) (gg_settled _ _ _ _ _ _ _ _ _ _ _ Hg)) in Eend. exists TLV_OK, dg. split; [done|]. left. split; [done|].
    pose proof (gg_settled _ _ _ _ _ _ _ _ _ _ _ Hg) as Hset. destruct P as [[| |] D|]; try done. destruct D; [|done]. done.
  - destruct (fetch f decode Hdec p m Hclass tables root data size _ t P scopes Hg Eend) as (it & t2 & tag & value & c & kids & rest & -> & Hft). cbn [cell]. rewrite is_ok_OK. cbn [negb cell].
    destruct (round_progress t P scopes dg path it t2 tag value c kids rest Hg Hft) as [(dg2 & -> & Hno)|(t3 & P3 & scopes3 & path3 & dg3 & -> & Hg3 & Hp3 & Hiff)].
    + exists TLV_ERR_SCHEMA, dg2. auto.
    + eapply decides_iff; [symmetry; exact Hiff|]. apply IH; [done|]. lia.
Qed.
End Loop.

Section Whole.
Context (tables : Z -> tlv_structure_schema_t) (root : Z) (fo : forest) (w : list Z) (data : ptr) (max_depth max_elements : Z)
  (Htables : forall a, reaches tables root a -> table_typed (tables a) /\ table_ok m (tables a))
  (Hw : forest_wire f fo = Some w) (Hcl : classified p fo = true) (Hd : data = NULL -> w = []) (Hs : zlen w <= SIZE_MAX)
  (Hb : bytes_of m data (zlen w) = w) (Hroom : forest_height fo <= TLV_SCHEMA_MAX_DEPTH)
  (Hmd : forest_height fo <= max_depth <= SIZE_MAX) (Hme : forest_size fo <= max_elements <= SIZE_MAX).

(** Validation of the input decides conformance. *)
Lemma validate_checked_spec dg : decides (conforms f m tables root fo)
  (validate_checked m tables data (zlen w) (Some f) (Some root) max_depth max_elements dg).
Proof using Hdec DecodeLaws0 Hclass Htables Hw Hcl Hd Hs Hb Hroom Hmd Hme.
  cut (decides (conforms f m tables root fo) (validate_input m tables data (zlen w) (Some f) (Some root) max_depth max_elements dg)).
  { intros (rc & x & E & Hout). unfold validate_checked. rewrite E. eexists rc, _. split; [reflexivity|done]. }
  unfold validate_input. destruct (check_tree_ok f decode Hdec p m Hclass fo w data max_depth max_elements Hw Hcl Hd Hs Hb Hroom Hmd Hme (option_map sdg_diagnostic dg)) as (base & -> & _). cbv zeta. rewrite is_ok_OK. cbn [negb].
  generalize (match dg with Some d => match base with Some b => Some (with_base b d) | None => dg end | None => dg end) as dg1. intros dg1.
  destruct (Htables root ltac:(apply rtc_refl)) as [Hty Hok]. set (path := replicate _ empty_tag).
  assert (0 <= zlen w <= SIZE_MAX) as Hsize by lia.
  pose proof (check_scope_spec f decode Hdec m (tables root) Hty Hok fo w Hw (scan_fuel (zlen w)) data 0 Hd ltac:(lia) ltac:(lia)) as Hsc.
  rewrite padd_0, Z.add_0_l in Hsc. destruct (Hsc Hb ltac:(unfold scan_fuel; lia) path 0 dg1) as (rc & dg2 & -> & [[-> Hsm]|[-> Hsm]]).
  2: { exists TLV_ERR_SCHEMA, dg2. split; [done|]. right. split; [done|]. now intros [Hx _]. }
  rewrite is_ok_OK. cbn [negb]. destruct (whole_cursor f decode Hdec p m fo w data max_depth max_elements Hw Hcl Hd Hs Hb Hroom Hmd Hme) as (t & -> & Hst & Hi). rewrite is_ok_OK. cbn [negb cell].
  apply (decides_iff (todo tables (<[0%nat := root]> (replicate (Z.to_nat TLV_SCHEMA_MAX_DEPTH + 1) 0)) fo [])); [unfold conforms; cbn; tauto|].
  pose proof (whole_fuel f decode Hdec m fo w data max_depth Hw Hd Hs Hb Hroom Hmd).
  apply (validate_loop_spec tables root data (zlen w) Htables Hsize ltac:(intros Hn; now rewrite (Hd Hn)) (scan_fuel (zlen w)) ltac:(unfold scan_fuel; lia)
    (item_fuel (zlen w)) t (InScope fo [])); [now apply whole_going|done].
Qed.

(** With the check of the schema in front. *)
Lemma validate_spec dg : (forall a, reaches tables root a -> table_typed (tables a)) -> schema_accepted m tables root ->
  decides (conforms f m tables root fo) (tlv_schema_validate m tables data (zlen w) (Some f) (Some root) max_depth max_elements dg).
Proof using Hdec DecodeLaws0 Hclass Htables Hw Hcl Hd Hs Hb Hroom Hmd Hme.
  intros Htyped Haccepted. unfold tlv_schema_validate.
  assert (is_null data && negb (zlen w =? 0) = false) as -> by (destruct data; [rewrite (Hd eq_refl)|]; done).
  destruct (check_run m tables root (tlv_schema_diagnostic_init dg) Htyped) as (rc & dg' & -> & _ & Hver & _).
  rewrite (proj2 (verdict_accepted _ _ _ _ _ Hver) Haccepted), is_ok_OK. apply validate_checked_spec.
Qed.
End Whole.
End Visiting.

(** C10. Validation decides conformance: for every wire format, every accepted schema, recursive ones included, and
    every forest within the limits, [tlv_schema_validate] of the encoding returns, without a diagnostic or
    with one, TLV_OK exactly if the forest conforms to the schema, and TLV_ERR_SCHEMA otherwise.
    Conformance is a specification without a cursor: the occurrences of the rules and groups and the order
    in every scope, and the length, the form and the children of every element that has a rule.  A
    prepared schema decides the same. *)
Theorem schema_validate_conforms `{Platform} (f : tlv_format_t) (decode : tlv_decode_fn) (Hdec : f.(f_decode) = Some decode)
  (Hlaws : DecodeLaws decode) (Hcodec : CodecLaws f) (p : list Z -> bool) (m : mem)
  (Hclass : forall tag, tag_ok tag -> is_constructed (Some f) m tag = p (tag_bytes m tag))
  (tables : Z -> tlv_structure_schema_t) (root : Z)
  (Htyped : forall a, reaches tables root a -> table_typed (tables a)) (Haccepted : schema_accepted m tables root)
  (fo : forest) (w : list Z) (data : ptr) (max_depth max_elements : Z) (dg : option tlv_schema_diagnostic_t)
  (Hw : forest_wire f fo = Some w) (Hcl : classified p fo = true) (Hd : data = NULL -> w = []) (Hs : zlen w <= SIZE_MAX)
  (Hb : bytes_of m data (zlen w) = w) (Hroom : forest_height fo <= TLV_SCHEMA_MAX_DEPTH)
  (Hmd : forest_height fo <= max_depth <= SIZE_MAX) (Hme : forest_size fo <= max_elements <= SIZE_MAX) :
  decides (conforms f m tables root fo) (tlv_schema_validate m tables data (zlen w) (Some f) (Some root) max_depth max_elements dg) /\
  decides (conforms f m tables root fo)
    (tlv_schema_validate_checked m tables (Some (mk_checked (Some root))) data (zlen w) (Some f) max_depth max_elements dg).
Proof.
  pose proof Haccepted as (found & _ & _ & Hfound).
  assert (forall a, reaches tables root a -> table_typed (tables a) /\ table_ok m (tables a)) as Htables by (intros a Ha; split; [auto|now apply Hfound]).
  split; [eapply validate_spec; eassumption|]. unfold tlv_schema_validate_checked.
  assert (is_null data && negb (zlen w =? 0) = false) as -> by (destruct data; [rewrite (Hd eq_refl)|]; done).
  eapply validate_checked_spec; eassumption.
Qed.

(** A container with one octet under tag 1, and one with two such elements; the tags of the schema are in
    block 9. *)
Definition schema_memory : mem := fun b o =>
  if b =? 9 then example_tags b o else mem_of b [33; 6; 1; 1; 7; 1; 1; 8] b o.

Lemma example_accepted m dg : tlv_schema_check m example_tables (Some 1) None = Some (TLV_OK, dg) -> schema_accepted m example_tables 1.
Proof.
  intros E. destruct (check_run m example_tables 1 None (fun a _ => example_tables_typed a)) as (rc & dg' & E' & _ & Hv & _).
  apply (verdict_accepted _ _ _ _ _ Hv). congruence.
Qed.

Lemma schema_memory_accepted : schema_accepted schema_memory example_tables 1.
Proof. apply (example_accepted _ None). vm_compute. reflexivity. Qed.

Lemma schema_validate_conforms_witness :
  @tlv_schema_validate LP64 schema_memory example_tables (Ptr 1 2) 3 (Some tree_example_format) (Some 1) 4 4 None = Some (TLV_OK, None) /\
  conforms tree_example_format (CodecLaws0 := tree_example_codec) schema_memory example_tables 1 (FElement [1] [7] FNil) /\
  @tlv_schema_validate LP64 schema_memory example_tables (Ptr 1 0) 8 (Some tree_example_format) (Some 1) 4 4 None = Some (TLV_ERR_SCHEMA, None) /\
  ~ conforms tree_example_format (CodecLaws0 := tree_example_codec) schema_memory example_tables 1
      (FNode [33] (FElement [1] [7] (FElement [1] [8] FNil)) FNil).
Proof.
  pose proof (schema_validate_conforms (H := LP64) tree_example_format _ eq_refl tree_example_laws tree_example_codec tree_example_class schema_memory
    (tree_example_classes schema_memory) example_tables 1 (fun a _ => example_tables_typed a) schema_memory_accepted) as Hsv.
  pose proof (Hsv (FElement [1] [7] FNil) [1; 1; 7] (Ptr 1 2) 4 4 None eq_refl eq_refl ltac:(discriminate) ltac:(vm_compute; congruence)
    ltac:(vm_compute; reflexivity) ltac:(vm_compute; congruence) ltac:(split; vm_compute; congruence) ltac:(split; vm_compute; congruence))
    as [(rc & dg & E & Hgood) _].
  pose proof (Hsv (FNode [33] (FElement [1] [7] (FElement [1] [8] FNil)) FNil) [33; 6; 1; 1; 7; 1; 1; 8] (Ptr 1 0) 4 4 None eq_refl eq_refl ltac:(discriminate)
    ltac:(vm_compute; congruence) ltac:(vm_compute; reflexivity) ltac:(vm_compute; congruence) ltac:(split; vm_compute; congruence)
    ltac:(split; vm_compute; congruence)) as [(rc2 & dg2 & E2 & Hbad) _].
  vm_compute in E, E2. injection E as <- _. injection E2 as <- _.
  split; [vm_compute; reflexivity|]. split; [now destruct Hgood as [[_ Hc]|[Hx _]]|]. split; [vm_compute; reflexivity|]. now destruct Hbad as [[Hx _]|[_ Hc]].
Defined.
