(* ===== verification/CodecStructure.v ===== *)
(** * Structure codecs (codec/structure.h, src/codec/structure.c)

    A codec of a whole sequence, elements nested in elements, to one object.  The decoder validates the
    sequence before its callback sees it, the encoder what its callback has written: against the schema,
    or without one the framing and the nesting.  Callbacks are closed over their context; the tables of
    schemas live at addresses, as in the validation. *)

From stdpp Require Import relations.
From S2P Require Import Prelude Mem Core Format WireFormat Reader TreeReader TreeLaws TreeNodes TreePlaces Diagnostic Visitor Codec Values.
From S2P Require Import Schema SchemaLaws SchemaStructure SchemaScope SchemaValidate.

Definition TLV_STRUCTURE_MAX_DEPTH : Z := 64.

Record tlv_structure_codec_t (V : Type) := mk_structure_codec {
  tsc_format : option tlv_format_t; tsc_schema : option Z; tsc_max_depth : Z; tsc_max_elements : Z;
  tsc_decode : option (tlv_format_t -> codec_decode_fn V); tsc_encode : option (tlv_format_t -> codec_encode_fn V) }.
Arguments mk_structure_codec {V}.
Arguments tsc_format {V}.
Arguments tsc_schema {V}.
Arguments tsc_max_depth {V}.
Arguments tsc_max_elements {V}.
Arguments tsc_decode {V}.
Arguments tsc_encode {V}.

Definition with_cause (base : tlv_diagnostic_t) (cause : tlv_codec_cause_t) (d : tlv_codec_diagnostic_t) : tlv_codec_diagnostic_t :=
  let c := d.(cdg_codec) in
  mk_codec_diagnostic base (mk_codec_detail c.(cd_operation) c.(cd_reported) c.(cd_violation) c.(cd_representation) cause).

(** The members that [validate] copies one by one. *)
Definition schema_detail (cause : tlv_schema_diagnostic_t) : tlv_codec_schema_detail_t :=
  mk_schema_detail cause.(sdg_kind) cause.(sdg_tag) cause.(sdg_definition) cause.(sdg_field) cause.(sdg_is_group)
    cause.(sdg_has_occurs) cause.(sdg_min_occurs) cause.(sdg_max_occurs) cause.(sdg_occurs) cause.(sdg_has_length)
    cause.(sdg_min_length) cause.(sdg_max_length) cause.(sdg_actual_length) cause.(sdg_has_form) cause.(sdg_expected_form)
    cause.(sdg_actual_constructed) cause.(sdg_length_multiple) cause.(sdg_length_flags).

Definition structure_frames : list tlv_tree_frame_t := replicate (Z.to_nat TLV_STRUCTURE_MAX_DEPTH) no_frame.

(** [if (diagnostic->diagnostic.location.domain == TLV_LOCATION_INPUT) ..domain = TLV_LOCATION_OUTPUT] *)
Definition output_location (diagnostic : option tlv_codec_diagnostic_t) : option tlv_codec_diagnostic_t :=
  match diagnostic with
  | Some d =>
      let l := d.(cdg_diagnostic).(dg_location) in
      Some (match l.(l_domain) with
            | TLV_LOCATION_INPUT =>
                mk_codec_diagnostic
                  (with_location (mk_location TLV_LOCATION_OUTPUT l.(l_kind) l.(l_begin) l.(l_end)) d.(cdg_diagnostic)) d.(cdg_codec)
            | _ => d
            end)
  | None => None
  end.

Section Structure.
Context `{Platform} (tables : Z -> tlv_structure_schema_t).

Definition structure_validate {V} (m : mem) (codec : tlv_structure_codec_t V) (data : ptr) (size : Z)
  (diagnostic : option tlv_codec_diagnostic_t) : option (tlv_result_t * option tlv_codec_diagnostic_t) :=
  match codec.(tsc_schema) with
  | Some _ =>
      match tlv_schema_validate m tables data size codec.(tsc_format) codec.(tsc_schema) codec.(tsc_max_depth)
              codec.(tsc_max_elements) (option_map (fun _ => no_schema_diagnostic) diagnostic) with
      | None => None
      | Some (rc, cause) =>
          let diagnostic :=
            match diagnostic, cause with
            | Some d, Some cause =>
                Some (if negb (is_ok rc) then with_cause cause.(sdg_diagnostic) (TLV_CODEC_CAUSE_SCHEMA (schema_detail cause)) d else d)
            | _, _ => diagnostic
            end in
          Some (rc, tlv_codec_diagnostic_result diagnostic rc)
      end
  | None =>
      let cause := option_map (fun _ => mk_reader_diagnostic zero_diagnostic (zero_detail TLV_READER_OP_TAG)) diagnostic in
      let '(rc, reader) := tlv_tree_reader_init (Some no_cursor) data size codec.(tsc_format) (Some structure_frames)
                             TLV_STRUCTURE_MAX_DEPTH codec.(tsc_max_depth) codec.(tsc_max_elements) in
      match
        if is_ok rc then
          match tlv_tree_reader_visit m (item_fuel size) reader (None : option (tlv_tree_visitor_t unit)) tt cause with
          | None => None
          | Some (rc, _, _, cause) => Some (rc, cause)
          end
        else Some (rc, cause)
      with
      | None => None
      | Some (rc, cause) =>
          let diagnostic :=
            match diagnostic, cause with
            | Some d, Some cause =>
                Some (if negb (is_ok rc) then with_cause cause.(rdg_diagnostic) (TLV_CODEC_CAUSE_READER cause.(rdg_detail)) d else d)
            | _, _ => diagnostic
            end in
          Some (rc, tlv_codec_diagnostic_result diagnostic rc)
      end
  end.

Definition tlv_structure_decode {V} (codec : option (tlv_structure_codec_t V)) (m : mem) (data : ptr) (size : Z)
  (value : option V) (capacity : Z) (diagnostic : option tlv_codec_diagnostic_t)
  : option (tlv_result_t * mem * option V * option tlv_codec_diagnostic_t) :=
  let diagnostic := tlv_codec_diagnostic_init diagnostic TLV_CODEC_OP_DECODE in
  match codec, value with
  | Some c, Some _ =>
      if is_null data && negb (size =? 0) then Some (decoded m value diagnostic TLV_ERR_NULL_ARG)
      else
        match c.(tsc_format), c.(tsc_decode) with
        | None, _ => Some (decoded m value diagnostic TLV_ERR_INVALID_ARG)
        | Some _, None => Some (decoded m value diagnostic TLV_ERR_UNSUPPORTED)
        | Some format, Some decode =>
            if negb (tlv_format_can_read c.(tsc_format)) then Some (decoded m value diagnostic TLV_ERR_UNSUPPORTED)
            else
              match structure_validate m c data size diagnostic with
              | None => None
              | Some (rc, diagnostic) =>
                  if negb (is_ok rc) then Some (rc, m, value, diagnostic)
                  else
                    let '(rc, m, value, diagnostic) := decode format m data size value capacity diagnostic in
                    let '(rc, diagnostic) := tlv_codec_callback_result diagnostic rc TLV_CODEC_OP_DECODE in
                    Some (rc, m, value, diagnostic)
              end
        end
  | _, _ => Some (decoded m value diagnostic TLV_ERR_NULL_ARG)
  end.

Definition tlv_structure_encode {V} (codec : option (tlv_structure_codec_t V)) (m : mem) (value : option V) (size : Z)
  (data : ptr) (capacity : Z) (written : option Z) (diagnostic : option tlv_codec_diagnostic_t)
  : option (tlv_result_t * mem * option Z * option tlv_codec_diagnostic_t) :=
  let operation := codec_operation data in
  let diagnostic := tlv_codec_diagnostic_init diagnostic operation in
  match written with
  | None => Some (encoded m written diagnostic TLV_ERR_NULL_ARG)
  | Some _ =>
      let written := Some 0 in
      match codec, value with
      | Some c, Some _ =>
          if is_null data && negb (capacity =? 0) then Some (encoded m written diagnostic TLV_ERR_NULL_ARG)
          else
            match c.(tsc_format), c.(tsc_encode) with
            | None, _ => Some (encoded m written diagnostic TLV_ERR_INVALID_ARG)
            | Some _, None => Some (encoded m written diagnostic TLV_ERR_UNSUPPORTED)
            | Some format, Some encode =>
                if negb (tlv_format_can_read c.(tsc_format)) || negb (tlv_format_can_write c.(tsc_format)) then
                  Some (encoded m written diagnostic TLV_ERR_UNSUPPORTED)
                else
                  let '(rc, m, count, diagnostic) := encode format m value size data capacity (Some 0) diagnostic in
                  let count := cell 0 count in
                  let '(rc, diagnostic) := tlv_codec_callback_result diagnostic rc operation in
                  if negb (is_ok rc) then Some (rc, m, written, diagnostic)
                  else if negb (is_null data) && (capacity <? count) then
                    Some (encoded m written (option_map (with_violation TLV_CODEC_VIOLATION_SIZE) diagnostic) TLV_ERR_CALLBACK)
                  else if negb (is_null data) then
                    match structure_validate m c data count diagnostic with
                    | None => None
                    | Some (rc, diagnostic) =>
                        let diagnostic := output_location diagnostic in
                        if negb (is_ok rc) then Some (rc, m, written, diagnostic)
                        else Some (encoded m (Some count) diagnostic TLV_OK)
                    end
                  else Some (encoded m (Some count) diagnostic TLV_OK)
            end
      | _, _ => Some (encoded m written diagnostic TLV_ERR_NULL_ARG)
      end
  end.
End Structure.

(** ** Laws *)

Lemma callback_result_code dg rc operation : exists dg', tlv_codec_callback_result dg rc operation = (tlv_codec_result rc operation, dg').
Proof. unfold tlv_codec_callback_result. eauto. Qed.

Section Laws.
Context `{Platform} (f : tlv_format_t) (decode : tlv_decode_fn) (Hdec : f.(f_decode) = Some decode)
  `{!DecodeLaws decode} `{!CodecLaws f} (p : list Z -> bool) (m : mem)
  (Hclass : forall tag, tag_ok tag -> is_constructed (Some f) m tag = p (tag_bytes m tag))
  (tables : Z -> tlv_structure_schema_t).

(** What a sequence has to meet, and what makes the schema usable. *)
Definition structure_met (schema : option Z) (fo : forest) : Prop :=
  match schema with Some root => conforms f m tables root fo | None => True end.

Definition structure_schema_ok (schema : option Z) : Prop :=
  match schema with
  | Some root => (forall a, reaches tables root a -> table_typed (tables a)) /\ schema_accepted m tables root
  | None => True
  end.

(** A forest in memory, within the limits of a codec. *)
Record held {V} (c : tlv_structure_codec_t V) (fo : forest) (w : list Z) (data : ptr) : Prop := {
  hd_wire : forest_wire f fo = Some w;
  hd_class : classified p fo = true;
  hd_data : data = NULL -> w = [];
  hd_size : zlen w <= SIZE_MAX;
  hd_bytes : bytes_of m data (zlen w) = w;
  hd_room : forest_height fo <= TLV_STRUCTURE_MAX_DEPTH;
  hd_depth : forest_height fo <= c.(tsc_max_depth) <= SIZE_MAX;
  hd_count : forest_size fo <= c.(tsc_max_elements) <= SIZE_MAX }.

Context {V : Type} (c : tlv_structure_codec_t V) (Hf : c.(tsc_format) = Some f) (Hschema : structure_schema_ok c.(tsc_schema)).

Lemma structure_validate_spec fo w data dg : held c fo w data ->
  decides (structure_met c.(tsc_schema) fo) (structure_validate tables m c data (zlen w) dg).
Proof using Hdec DecodeLaws0 Hclass Hf Hschema.
  intros [Hw Hcl Hd Hs Hb Hr Hmd Hme]. unfold structure_validate, structure_schema_ok, structure_met in *. rewrite Hf.
  destruct (tsc_schema c) as [root|].
  - destruct Hschema as [Htyped Haccepted]. pose proof Haccepted as (found & _ & _ & Hfound).
    assert (forall a, reaches tables root a -> table_typed (tables a) /\ table_ok m (tables a)) as Htables by (intros a Ha; split; [auto|now apply Hfound]).
    destruct (validate_spec f decode Hdec p m Hclass tables root fo w data (tsc_max_depth c) (tsc_max_elements c) Htables Hw Hcl Hd Hs Hb Hr Hmd Hme
      (option_map (fun _ => no_schema_diagnostic) dg) Htyped Haccepted) as (rc & cause & -> & Hout). eexists rc, _. split; [reflexivity|done].
  - destruct (whole_cursor f decode Hdec p m fo w data (tsc_max_depth c) (tsc_max_elements c) Hw Hcl Hd Hs Hb Hr Hmd Hme) as (t & Einit & Hst & _).
    change structure_frames with schema_frames. change TLV_STRUCTURE_MAX_DEPTH with TLV_SCHEMA_MAX_DEPTH. rewrite Einit, is_ok_OK. unfold tlv_tree_reader_visit.
    pose proof (whole_fuel f decode Hdec m fo w data (tsc_max_depth c) Hw Hd Hs Hb Hr Hmd).
    edestruct (visit_quiet f decode Hdec p m Hclass (item_fuel (zlen w)) t (InScope fo []) tt) as (t' & ->); [done|now destruct fo|done|].
    eexists TLV_OK, _. split; [reflexivity|]. now left.
Qed.

Lemma structure_decode_run dec fo w data x capacity dg : c.(tsc_decode) = Some dec -> held c fo w data ->
  (structure_met c.(tsc_schema) fo -> exists dg1 dg2, let '(rc, m', v, _) := dec f m data (zlen w) (Some x) capacity dg1 in
     tlv_structure_decode tables (Some c) m data (zlen w) (Some x) capacity dg = Some (tlv_codec_result rc TLV_CODEC_OP_DECODE, m', v, dg2)) /\
  (~ structure_met c.(tsc_schema) fo -> exists dg2,
     tlv_structure_decode tables (Some c) m data (zlen w) (Some x) capacity dg = Some (TLV_ERR_SCHEMA, m, Some x, dg2)).
Proof using Hdec DecodeLaws0 Hclass Hf Hschema.
  intros Hd Hheld. unfold tlv_structure_decode. cbv zeta.
  assert (is_null data && negb (zlen w =? 0) = false) as -> by (destruct data; [rewrite (hd_data _ _ _ _ Hheld eq_refl)|]; done).
  rewrite Hf, Hd. unfold tlv_format_can_read. rewrite Hdec. cbn [is_some negb].
  destruct (structure_validate_spec fo w data (tlv_codec_diagnostic_init dg TLV_CODEC_OP_DECODE) Hheld) as (rc & dg1 & -> & Hout).
  destruct Hout as [[-> Hmet]|[-> Hno]]; cbn [is_ok negb]; rewrite ?is_ok_OK; cbn [negb]; (split; [intros Hx|intros Hx]); try done; eauto.
  exists dg1. destruct (dec f m data (zlen w) (Some x) capacity dg1) as [[[rc m'] v] dg2].
  destruct (callback_result_code dg2 rc TLV_CODEC_OP_DECODE) as [dg3 ->]. eauto.
Qed.

(** What the encoder does with what its callback leaves in [m]. *)
Lemma structure_encode_run enc m0 fo w data x size capacity w0 dg : c.(tsc_encode) = Some enc -> tlv_format_can_write (Some f) = true ->
  data <> NULL -> held c fo w data ->
  (forall dg, exists dg', enc f m0 (Some x) size data capacity (Some 0) dg = (TLV_OK, m, Some (zlen w), dg')) ->
  exists rc written dg', tlv_structure_encode tables (Some c) m0 (Some x) size data capacity (Some w0) dg = Some (rc, m, Some written, dg') /\
    ((capacity < zlen w /\ rc = TLV_ERR_CALLBACK /\ written = 0) \/
     (zlen w <= capacity /\ structure_met c.(tsc_schema) fo /\ rc = TLV_OK /\ written = zlen w) \/
     (zlen w <= capacity /\ ~ structure_met c.(tsc_schema) fo /\ rc = TLV_ERR_SCHEMA /\ written = 0)).
Proof using Hdec DecodeLaws0 Hclass Hf Hschema.
  intros He Hwrite Hnull Hheld Henc. unfold tlv_structure_encode. cbv zeta.
  assert (is_null data = false) as -> by now destruct data. rewrite Hf, He, Hwrite. unfold tlv_format_can_read. rewrite Hdec. cbn [is_some negb andb orb].
  destruct (Henc (tlv_codec_diagnostic_init dg (codec_operation data))) as [dg1 ->].
  destruct (callback_result_code dg1 TLV_OK (codec_operation data)) as [dg2 ->]. change (tlv_codec_result TLV_OK (codec_operation data)) with TLV_OK.
  rewrite is_ok_OK. cbn [negb cell]. destruct (Z.ltb_spec capacity (zlen w)); cbn [andb].
  { eexists _, _, _. split; [reflexivity|]. auto. }
  destruct (structure_validate_spec fo w data dg2 Hheld) as (rc & dg3 & -> & [[-> Hmet]|[-> Hno]]); rewrite ?is_ok_OK; cbn [is_ok negb];
    (eexists _, _, _; split; [reflexivity|]); right; [left|right]; done.
Qed.
End Laws.

(** C38. A structure codec stands between its callbacks and sequences that do not conform.  The decoder passes a
    sequence on to its callback, and returns what the dispatch makes of its result, exactly if the forest
    that it encodes conforms to the schema, if there is one; otherwise it reports a violation, and nothing
    has been written.  Whatever sequence the callback of the encoder leaves, success is reported exactly
    if it fits and conforms, and a failure reports no octets. *)
Theorem structure_codec_guards `{Platform} {V : Type} (f : tlv_format_t) (decode : tlv_decode_fn) (Hdec : f.(f_decode) = Some decode)
  (Hlaws : DecodeLaws decode) (Hcodec : CodecLaws f) (Hwrite : tlv_format_can_write (Some f) = true) (p : list Z -> bool) (m m0 : mem)
  (Hclass : forall tag, tag_ok tag -> is_constructed (Some f) m tag = p (tag_bytes m tag))
  (tables : Z -> tlv_structure_schema_t) (c : tlv_structure_codec_t V) (dec : tlv_format_t -> codec_decode_fn V)
  (enc : tlv_format_t -> codec_encode_fn V) (Hf : c.(tsc_format) = Some f) (Hde : c.(tsc_decode) = Some dec)
  (Hen : c.(tsc_encode) = Some enc) (Hschema : structure_schema_ok m tables c.(tsc_schema))
  (fo : forest) (w : list Z) (data : ptr) (x : V) (size capacity w0 : Z) (dg : option tlv_codec_diagnostic_t)
  (Hheld : held f p m c fo w data) :
  (structure_met f m tables c.(tsc_schema) fo -> exists dg1 dg2, let '(rc, m', v, _) := dec f m data (zlen w) (Some x) capacity dg1 in
     tlv_structure_decode tables (Some c) m data (zlen w) (Some x) capacity dg = Some (tlv_codec_result rc TLV_CODEC_OP_DECODE, m', v, dg2)) /\
  (~ structure_met f m tables c.(tsc_schema) fo -> exists dg2,
     tlv_structure_decode tables (Some c) m data (zlen w) (Some x) capacity dg = Some (TLV_ERR_SCHEMA, m, Some x, dg2)) /\
  (data <> NULL ->
   (forall dg, exists dg', enc f m0 (Some x) size data capacity (Some 0) dg = (TLV_OK, m, Some (zlen w), dg')) ->
   exists rc written dg', tlv_structure_encode tables (Some c) m0 (Some x) size data capacity (Some w0) dg = Some (rc, m, Some written, dg') /\
     (rc = TLV_OK <-> zlen w <= capacity /\ structure_met f m tables c.(tsc_schema) fo) /\
     (rc = TLV_OK -> written = zlen w) /\ (rc <> TLV_OK -> written = 0)).
Proof.
  destruct (structure_decode_run f decode Hdec p m Hclass tables c Hf Hschema dec fo w data x capacity dg Hde Hheld) as [Hgood Hbad].
  split; [done|]. split; [done|]. intros Hnull Henc.
  destruct (structure_encode_run f decode Hdec p m Hclass tables c Hf Hschema enc m0 fo w data x size capacity w0 dg Hen Hwrite Hnull Hheld Henc)
    as (rc & written & dg' & E & Hout). exists rc, written, dg'. split; [exact E|].
  destruct Hout as [(Hc & -> & ->)|[(Hc & Hmet & -> & ->)|(Hc & Hno & -> & ->)]]; (split; [split; [done|]|done]); intros [Hx Hy]; done || lia.
Qed.

(** An element with tag 1 and one octet, to its value and back. *)
Definition octet_codec : tlv_structure_codec_t Z :=
  mk_structure_codec (Some tree_example_format) (Some 1) 4 4
    (Some (fun _ m data _ value _ dg => (TLV_OK, m, store value (ld m data 2), dg)))
    (Some (fun _ m value _ data _ written dg => (TLV_OK, put_at m data [1; 1; u8 (cell 0 value)], store written 3, dg))).

Lemma octet_codec_held m data x : data <> NULL -> bytes_of m data 3 = [1; 1; x] ->
  held (H := LP64) tree_example_format (CodecLaws0 := tree_example_codec) tree_example_class m octet_codec (FElement [1] [x] FNil) [1; 1; x] data.
Proof.
  intros Hd Hb. split; try done; try (vm_compute; intuition congruence).
Qed.



Lemma structure_codec_guards_witness :
  let m := put_at schema_memory (Ptr 1 2) [1; 1; 7] in
  structure_met (H := LP64) tree_example_format (CodecLaws0 := tree_example_codec) m example_tables (Some 1) (FElement [1] [7] FNil) /\
  exists dg1 dg2,
    @tlv_structure_encode LP64 example_tables Z (Some octet_codec) schema_memory (Some 7) 8 (Ptr 1 2) 3 (Some 0) None = Some (TLV_OK, m, Some 3, dg1) /\
    @tlv_structure_decode LP64 example_tables Z (Some octet_codec) m (Ptr 1 2) 3 (Some 0) 8 None = Some (TLV_OK, m, Some 7, dg2).
Proof.
  intros m.
  pose proof (fun x capacity => structure_codec_guards (H := LP64) tree_example_format _ eq_refl tree_example_laws tree_example_codec eq_refl
    tree_example_class m schema_memory (tree_example_classes m) example_tables octet_codec _ _ eq_refl eq_refl eq_refl
    (conj (fun a _ => example_tables_typed a) (example_accepted m None ltac:(vm_compute; reflexivity))) (FElement [1] [7] FNil) [1; 1; 7] (Ptr 1 2) x 8 capacity 0 None
    (octet_codec_held m (Ptr 1 2) 7 ltac:(discriminate) ltac:(vm_compute; reflexivity))) as Hg.
  destruct (Hg 7 3) as (_ & _ & He). destruct (He ltac:(discriminate) (fun dg => ex_intro _ dg eq_refl)) as (rc & written & dg1 & E & Hiff & Hok & _).
  assert (rc = TLV_OK) as -> by (vm_compute in E; now injection E as <- _).
  destruct (proj1 Hiff eq_refl) as [_ Hmet]. split; [exact Hmet|].
  destruct (Hg 0 8) as (Hd & _). destruct (Hd Hmet) as (dg & dg2 & E2). exists dg1, dg2. split; [|exact E2].
  rewrite (Hok eq_refl) in E. exact E.
Defined.
