(* ===== verification/SchemaTally.v ===== *)
(** * Schemas: the number of violations of a forest

    Every violation of a structural schema in a forest, counted independently of the cursor and of the
    storage for the report; a forest conforms exactly if there are none. *)

From stdpp Require Import relations.
From S2P Require Import Prelude Mem Core Format WireFormat Reader TreeReader TreeLaws TreeNodes Diagnostic Visitor Codec.
From S2P Require Import Schema SchemaLaws SchemaStructure SchemaScope SchemaReport.
From Stdlib Require Import Sorting.Sorted.

#[local] Instance divide_decision (a b : Z) : Decision (a | b).
Proof.
  destruct (decide (b mod a = 0)) as [Hy|Hn]; [left|right].
  - destruct (decide (a = 0)) as [->|Ha]; [rewrite Z.mod_0_r in Hy; now rewrite Hy|]. now apply Z.mod_divide.
  - intros Hd. destruct (decide (a = 0)) as [->|Ha]; [apply Z.divide_0_l in Hd as ->; done|]. now apply Hn, Z.mod_divide.
Defined.

#[export] Instance length_met_decision e n : Decision (length_met e n).
Proof.
  destruct (decide ((e.(se_min_length) <= n <= e.(se_max_length)) /\
    (Z.land e.(se_flags) TLV_SCHEMA_LENGTH_ENDPOINTS <> 0 -> n = e.(se_min_length) \/ n = e.(se_max_length)) /\
    (e.(se_length_multiple) <> 0 -> (e.(se_length_multiple) | n)))) as [Hy|Hn].
  - left. destruct Hy as (H1 & H2 & H3). now split.
  - right. intros [H1 H2 H3]. now apply Hn.
Defined.

#[export] Instance form_met_decision r c : Decision (form_met r c).
Proof. unfold form_met. destruct (sr_kind r); apply _. Defined.

Definition total {A} (weight : A -> Z) (l : list A) : Z := foldr (fun a n => weight a + n) 0 l.

Lemma total_nonneg {A} (weight : A -> Z) l : (forall a, 0 <= weight a) -> 0 <= total weight l.
Proof. intros Hw. unfold total. induction l as [|a l IH]; cbn; [done|]. specialize (Hw a). lia. Qed.

Lemma total_zero {A} (weight : A -> Z) (P : A -> Prop) l : (forall a, 0 <= weight a) -> (forall a, weight a = 0 <-> P a) ->
  total weight l = 0 <-> Forall P l.
Proof.
  intros Hw Hp. induction l as [|a l IH]; [split; [constructor|done]|]. change (total weight (a :: l)) with (weight a + total weight l). rewrite list.Forall_cons, <- IH, <- Hp.
  pose proof (total_nonneg weight l Hw). specialize (Hw a). lia.
Qed.

(** Occurrences above a maximum count one by one, too few of them count once. *)
Definition excess (n max : Z) : Z := Z.max 0 (n - max).
Definition lack (n min : Z) : Z := if n <? min then 1 else 0.
Definition range_violations (n min max : Z) : Z := excess n max + lack n min.

Lemma range_nonneg n min max : 0 <= range_violations n min max.
Proof. unfold range_violations, excess, lack. destruct (n <? min); lia. Qed.

Lemma range_zero n min max : range_violations n min max = 0 <-> min <= n <= max.
Proof. unfold range_violations, excess, lack. destruct (Z.ltb_spec n min); lia. Qed.

(** The indices below the last one that was in order. *)
Fixpoint order_violations (last : option nat) (l : list nat) : Z :=
  match l with
  | [] => 0
  | k :: l =>
      if match last with Some j => (k <? j)%nat | None => false end then 1 + order_violations last l else order_violations (Some k) l
  end.

Lemma order_nonneg l : forall last, 0 <= order_violations last l.
Proof. induction l as [|k l IH]; intros last; cbn; [lia|]. destruct (match last with Some j => _ | None => _ end); [specialize (IH last); lia|apply IH]. Qed.

Lemma order_zero l : forall last, order_violations last l = 0 <-> Sorted le (option_list last ++ l).
Proof.
  induction l as [|k l IH]; intros last; cbn [order_violations].
  - split; [intros _; destruct last; repeat constructor|done].
  - destruct last as [j|]; cbn [option_list app]; [|exact (IH (Some k))]. pose proof (order_nonneg l (Some j)). destruct (Nat.ltb_spec k j) as [Hlt|Hge].
    + split; [lia|]. intros Hs. inversion Hs as [|? ? _ Hh]; subst. inversion Hh; lia.
    + rewrite IH. cbn [option_list app]. split; [intros Hs; constructor; [done|constructor; lia]|intros Hs; now inversion Hs].
Qed.

Section Tally.
Context `{Platform} (f : tlv_format_t) `{!CodecLaws f} (m : mem) (tables : Z -> tlv_structure_schema_t) (unknown : tlv_schema_unknown_policy_t).

Definition scope_violations (t : tlv_structure_schema_t) (tags : list (list Z)) : Z :=
  total (fun r => range_violations (occurrences m r tags) r.(sr_min_occurs) r.(sr_max_occurs)) (rules_of t) +
  total (fun g => range_violations (members m t g.(sg_id) tags) g.(sg_min_occurs) g.(sg_max_occurs)) (groups_of t) +
  (if bool_decide (t.(ss_order) = TLV_SCHEMA_ORDER_SEQUENCE) then order_violations None (matched m t tags) else 0).

Definition rejects (t : tlv_structure_schema_t) : bool :=
  bool_decide (unknown = TLV_SCHEMA_UNKNOWN_REJECT) ||
  (bool_decide (unknown = TLV_SCHEMA_UNKNOWN_BY_SCHEMA) && (t.(ss_allow_unknown) =? 0)).

(** The children of an element of the wrong form are not looked at. *)
Definition element_violations (t : tlv_structure_schema_t) (tag : list Z) (n : Z) (constructed : bool) (below : Z -> Z) : Z :=
  match rule_for m t tag with
  | None => if rejects t then 1 else 0
  | Some (_, r) =>
      (if decide (length_met (entry_of r) n) then 0 else 1) +
      (if decide (form_met r constructed) then match r.(sr_children) with Some c => below c | None => 0 end else 1)
  end.

Fixpoint elements_violations (a : Z) (fo : forest) : Z :=
  match fo with
  | FNil => 0
  | FElement tag value rest => element_violations (tables a) tag (zlen value) false (fun _ => 0) + elements_violations a rest
  | FNode tag kids rest =>
      element_violations (tables a) tag (wire_length f kids) true (fun c => scope_violations (tables c) (heads kids) + elements_violations c kids) +
      elements_violations a rest
  end.

Definition violations (a : Z) (fo : forest) : Z := scope_violations (tables a) (heads fo) + elements_violations a fo.

Lemma scope_nonneg t tags : 0 <= scope_violations t tags.
Proof using.
  unfold scope_violations. pose proof (order_nonneg (matched m t tags) None).
  pose proof (total_nonneg (fun r => range_violations (occurrences m r tags) r.(sr_min_occurs) r.(sr_max_occurs)) (rules_of t) (fun r => range_nonneg _ _ _)).
  pose proof (total_nonneg (fun g => range_violations (members m t g.(sg_id) tags) g.(sg_min_occurs) g.(sg_max_occurs)) (groups_of t) (fun r => range_nonneg _ _ _)).
  destruct (bool_decide _); lia.
Qed.

Lemma scope_zero t tags : scope_violations t tags = 0 <-> scope_met m t tags.
Proof using.
  unfold scope_violations. pose proof (order_nonneg (matched m t tags) None).
  set (rw := fun r : tlv_structure_rule_t => range_violations _ _ _). set (gw := fun g : tlv_structure_group_t => range_violations _ _ _).
  pose proof (total_nonneg rw (rules_of t) (fun r => range_nonneg _ _ _)). pose proof (total_nonneg gw (groups_of t) (fun r => range_nonneg _ _ _)).
  pose proof (total_zero rw _ (rules_of t) (fun r => range_nonneg _ _ _) (fun r => range_zero _ _ _)) as Hr.
  pose proof (total_zero gw _ (groups_of t) (fun r => range_nonneg _ _ _) (fun r => range_zero _ _ _)) as Hg.
  pose proof (order_zero (matched m t tags) None) as Ho. cbn [option_list app] in Ho.
  case_bool_decide as Es.
  - split; [intros Hz; split; [apply Hr; lia|apply Hg; lia|intros _; apply Ho; lia]|].
    intros [H1' H2' H3']. apply Hr in H1'. apply Hg in H2'. apply Ho in H3'; [lia|done].
  - split; [intros Hz; split; [apply Hr; lia|apply Hg; lia|done]|]. intros [H1' H2' _]. apply Hr in H1'. apply Hg in H2'. lia.
Qed.

Lemma element_nonneg t tag n c below : (forall a, 0 <= below a) -> 0 <= element_violations t tag n c below.
Proof using.
  intros Hb. unfold element_violations. destruct (rule_for m t tag) as [[k r]|]; [|destruct (rejects t); lia].
  destruct (decide (length_met _ _)), (decide (form_met _ _)), (sr_children r) as [a|]; try lia; specialize (Hb a); lia.
Qed.

Lemma elements_nonneg fo : forall a, 0 <= elements_violations a fo.
Proof using.
  induction fo as [|tag value rest IH|tag kids IHk rest IH]; intros a; cbn [elements_violations]; [lia|..]; specialize (IH a).
  - pose proof (element_nonneg (tables a) tag (zlen value) false (fun _ => 0) ltac:(lia)). lia.
  - pose proof (element_nonneg (tables a) tag (wire_length f kids) true (fun c => scope_violations (tables c) (heads kids) + elements_violations c kids)
      ltac:(intros b; pose proof (scope_nonneg (tables b) (heads kids)); specialize (IHk b); lia)). lia.
Qed.

Lemma sum_zero a b : 0 <= a -> 0 <= b -> a + b = 0 <-> a = 0 /\ b = 0.
Proof using. lia. Qed.

(** No violations, and conformance, when elements without a rule are judged by the schema. *)
Section Zero.
Context (root : Z) (Hunknown : unknown = TLV_SCHEMA_UNKNOWN_BY_SCHEMA)
  (Htables : forall a, reaches tables root a -> table_ok m (tables a)).

Lemma element_zero a tag n c (below : Z -> Z) (P : Z -> Prop) : reaches tables root a -> (forall b, 0 <= below b) ->
  (forall b, reaches tables root b -> c = true -> below b = 0 <-> P b) ->
  element_violations (tables a) tag n c below = 0 <-> element_met m (tables a) tag n c P.
Proof using Hunknown Htables.
  intros Ha Hb Hp. unfold element_violations, element_met. destruct (rule_for m (tables a) tag) as [[k r]|] eqn:Er.
  2: { unfold rejects. rewrite Hunknown. cbn. destruct (Z.eqb_spec (ss_allow_unknown (tables a)) 0); cbn; split; intros; try done; lia. }
  assert (r ∈ rules_of (tables a)) as Hr by (unfold rule_for in Er; apply list_find_Some in Er as (Hk & _ & _); now apply list_elem_of_lookup_2 in Hk).
  pose proof (to_rule _ _ (Htables a Ha)) as Hrule. rewrite list.Forall_forall in Hrule. pose proof (ro_children _ _ (Hrule r Hr)) as Hc.
  assert (forall b, r.(sr_children) = Some b -> reaches tables root b) as Hreach by (intros b Hb'; eapply rtc_r; [exact Ha|]; now exists r).
  destruct (decide (form_met r c)) as [Hf|Hf].
  2: { destruct (decide (length_met _ _)); split; [lia|tauto|lia|tauto]. }
  destruct (sr_children r) as [b|].
  - assert (c = true) as Hct by (unfold form_met in Hf; now rewrite Hc in Hf). specialize (Hp b (Hreach b eq_refl) Hct). specialize (Hb b).
    destruct (decide (length_met _ _)); [|split; [lia|tauto]]. rewrite Z.add_0_l. tauto.
  - destruct (decide (length_met _ _)); split; try tauto; lia.
Qed.

Lemma elements_zero fo : forall a, reaches tables root a -> elements_violations a fo = 0 <-> elements_met f m tables a fo.
Proof using Hunknown Htables.
  induction fo as [|tag value rest IH|tag kids IHk rest IH]; intros a Ha; cbn [elements_violations elements_met]; [done|..];
    (rewrite sum_zero; [rewrite (IH a Ha)| |apply elements_nonneg]).
  - now rewrite (element_zero a tag (zlen value) false (fun _ => 0) (fun _ => False) Ha).
  - apply element_nonneg. intros _. lia.
  - rewrite (element_zero a tag (wire_length f kids) true _ (fun c => scope_met m (tables c) (heads kids) /\ elements_met f m tables c kids) Ha); [done| |].
    + intros b. pose proof (scope_nonneg (tables b) (heads kids)). pose proof (elements_nonneg kids b). lia.
    + intros b Hb _. rewrite sum_zero by (apply scope_nonneg || apply elements_nonneg). now rewrite scope_zero, (IHk b Hb).
  - apply element_nonneg. intros b. pose proof (scope_nonneg (tables b) (heads kids)). pose proof (elements_nonneg kids b). lia.
Qed.

Lemma violations_zero fo : violations root fo = 0 <-> conforms f m tables root fo.
Proof using Hunknown Htables.
  unfold violations, conforms. rewrite sum_zero by (apply scope_nonneg || apply elements_nonneg).
  rewrite scope_zero, elements_zero by apply rtc_refl. done.
Qed.
End Zero.
End Tally.
