(* ===== verification/SchemaNumber.v ===== *)
(** * Numbers under a field schema (schema/number.h, src/schema/number.c, src/schema/codec_internal.h)

    The number codec with the lengths that a schema entry permits: a codec of no fixed width takes the
    shortest permitted one.  The loop over the widths runs up to [limit]; its fuel is what is left of it. *)

From S2P Require Import Prelude Mem Core Endian Format Diagnostic Reader Codec Values ValuesLaws Number Schema SchemaScope SchemaValidate SchemaTally.

Record tlv_schema_number_t := mk_schema_number {
  sn_schema : option tlv_schema_entry_t; sn_representation : tlv_number_codec_config_t }.

(** The member of the union as [tlv_codec_diagnostic_init] leaves it. *)
Definition no_schema_detail : tlv_codec_schema_detail_t :=
  mk_schema_detail TLV_SCHEMA_ISSUE_NONE empty_tag no_definition None 0 0 0 0 0 0 0 0 0 0 TLV_SCHEMA_ANY 0 0 0.

Definition tlv_schema_codec_length_result (rule : tlv_schema_entry_t) (width : Z) (result : tlv_result_t)
  (diagnostic : option tlv_codec_diagnostic_t) : tlv_result_t * option tlv_codec_diagnostic_t :=
  let diagnostic :=
    match diagnostic with
    | None => None
    | Some d =>
        let c := d.(cdg_codec) in
        let s := match c.(cd_cause) with TLV_CODEC_CAUSE_SCHEMA s => s | _ => no_schema_detail end in
        let s :=
          mk_schema_detail
            (if rc_eqb result TLV_ERR_INVALID_SCHEMA then TLV_SCHEMA_ISSUE_DEFINITION else TLV_SCHEMA_ISSUE_LENGTH)
            rule.(se_tag) s.(sd_definition) rule.(se_name) s.(sd_is_group) s.(sd_has_occurs) s.(sd_min_occurs)
            s.(sd_max_occurs) s.(sd_occurs) 1 rule.(se_min_length) rule.(se_max_length) width s.(sd_has_form)
            s.(sd_expected_form) s.(sd_actual_constructed) rule.(se_length_multiple) rule.(se_flags) in
        Some (mk_codec_diagnostic d.(cdg_diagnostic)
                (mk_codec_detail c.(cd_operation) c.(cd_reported) c.(cd_violation) c.(cd_representation)
                   (TLV_CODEC_CAUSE_SCHEMA s)))
    end in
  (result, tlv_codec_diagnostic_result diagnostic result).

Definition tlv_schema_number_decode (context : option tlv_schema_number_t) : codec_decode_fn Z :=
  fun m data size value capacity diagnostic =>
  let diagnostic := tlv_codec_diagnostic_init diagnostic TLV_CODEC_OP_DECODE in
  match context, value with
  | Some (mk_schema_number (Some schema) representation), Some _ =>
      if is_null data && negb (size =? 0) then decoded m value diagnostic TLV_ERR_NULL_ARG
      else
        let result := tlv_schema_validate_length (Some schema) size in
        if negb (is_ok result) then
          let '(result, diagnostic) := tlv_schema_codec_length_result schema size result diagnostic in
          (result, m, value, diagnostic)
        else
          let '(result, m, value, diagnostic) := tlv_number_decode (Some representation) m data size value capacity diagnostic in
          decoded m value diagnostic result
  | _, _ => decoded m value diagnostic TLV_ERR_NULL_ARG
  end.

(** [for (;;)] from [width] on, [n] widths before the limit: the result and the width that the loop stops at. *)
Fixpoint permit_loop (n : nat) (schema : tlv_schema_entry_t) (width : Z) : tlv_result_t * Z :=
  let result := tlv_schema_validate_length (Some schema) width in
  if is_ok result then (result, width)
  else
    match n with
    | O => (result, width)
    | S n => if negb (rc_eqb result TLV_ERR_SCHEMA) then (result, width) else permit_loop n schema (width + 1)
    end.

Definition with_width (width : Z) (c : tlv_number_codec_config_t) : tlv_number_codec_config_t :=
  mk_number_config c.(nc_encoding) width c.(nc_digits).

Definition tlv_schema_number_encode (context : option tlv_schema_number_t) : codec_encode_fn Z :=
  fun m value size data capacity written diagnostic =>
  let diagnostic := tlv_codec_diagnostic_init diagnostic (codec_operation data) in
  match written with
  | None => encoded m written diagnostic TLV_ERR_NULL_ARG
  | Some _ =>
      let written := Some 0 in
      match context, value with
      | Some (mk_schema_number (Some schema) representation), Some _ =>
          if is_null data && negb (capacity =? 0) then encoded m written diagnostic TLV_ERR_NULL_ARG
          else
            let '(result, _, width, _) := tlv_number_encode (Some representation) m value size NULL 0 (Some 0) None in
            let width := cell 0 width in
            if negb (is_ok result) then encoded m written diagnostic result
            else
              let '(result, width) :=
                if negb (representation.(nc_width) =? 0) then (tlv_schema_validate_length (Some schema) width, width)
                else
                  let limit := if is_bcd representation then 9 else 8 in
                  permit_loop (Z.to_nat (limit - width)) schema width in
              if negb (is_ok result) then
                let '(result, diagnostic) := tlv_schema_codec_length_result schema width result diagnostic in
                (result, m, written, diagnostic)
              else
                let representation :=
                  if negb (representation.(nc_width) =? 0) then representation else with_width width representation in
                let '(result, m, written, diagnostic) :=
                  tlv_number_encode (Some representation) m value size data capacity written diagnostic in
                encoded m written diagnostic result
      | _, _ => encoded m written diagnostic TLV_ERR_NULL_ARG
      end
  end.

Definition tlv_schema_number_codec (config : option tlv_schema_number_t) : tlv_codec_t Z :=
  mk_codec (Some (tlv_schema_number_decode config)) (Some (tlv_schema_number_encode config)).

(** ** The reference *)

(** A width that the schema and the representation permit for [v]. *)
Definition width_permitted (e : tlv_schema_entry_t) (c : tlv_number_codec_config_t) (v n : Z) : Prop :=
  length_met e n /\ 1 <= n <= max_width c /\ (c.(nc_width) = 0 \/ n = c.(nc_width)) /\ is_Some (number_octets c n v).

Definition least_permitted (e : tlv_schema_entry_t) (c : tlv_number_codec_config_t) (v n : Z) : Prop :=
  width_permitted e c v n /\ forall k, width_permitted e c v k -> n <= k.

(** ** Laws *)

Lemma permit_loop_spec (e : tlv_schema_entry_t) (Hle : e.(se_min_length) <= e.(se_max_length)) (n : nat) : forall width,
  (exists w, permit_loop n e width = (TLV_OK, w) /\ width <= w <= width + Z.of_nat n /\ length_met e w /\
     forall k, width <= k -> length_met e k -> w <= k) \/
  (exists w, permit_loop n e width = (TLV_ERR_SCHEMA, w) /\ forall k, width <= k <= width + Z.of_nat n -> ~ length_met e k).
Proof.
  induction n as [|n IH]; intros width; cbn [permit_loop]; destruct (length_met_spec e width Hle) as [[-> Hm]|[-> Hm]]; cbn;
    try (left; exists width; split; [done|split; [lia|now split]]).
  - right. exists width. split; [done|]. intros k Hk. now replace k with width by lia.
  - destruct (IH (width + 1)) as [(w & -> & Hw & Hmet & Hl)|(w & -> & Hno)]; [left|right]; exists w; (split; [done|]).
    + split; [lia|]. split; [done|]. intros k Hk Hk2. apply Hl; [|done]. destruct (Z.eq_dec k width) as [->|]; [done|lia].
    + intros k Hk. destruct (Z.eq_dec k width) as [->|]; [done|]. apply Hno. lia.
Qed.

Section Config.
Context (c : tlv_number_codec_config_t) (Hc : number_config_ok c).

Lemma with_width_ok n : 1 <= n <= max_width c -> number_config_ok (with_width n c).
Proof using Hc.
  destruct Hc as [Hv Hw]. unfold number_config_ok, number_valid_config, max_width, is_bcd in *. intros Hn. split; [|cbn; lia].
  assert (n <= 9) by (destruct (bool_decide _); lia). destruct c as [[] w d]; cbn in *; try done; rewrite ?bool_decide_false in Hn by done; zlia.
Qed.

Lemma width_octets n k v : number_octets (with_width n c) k v = number_octets c k v.
Proof using. done. Qed.

(** What fits in a width. *)
Lemma octets_fit v n : 0 <= v <= UINT64_MAX -> 1 <= n ->
  is_Some (number_octets c n v) <->
  (is_bcd c = true -> v < 10 ^ c.(nc_digits)) /\ digits_needed (if is_bcd c then 100 else 256) v <= n.
Proof using Hc.
  intros Hv Hn. rewrite digits_needed_least by (done || (destruct (is_bcd c); auto)).
  destruct (config_cases c Hc) as [(E & He & _ & _)|(E & _ & _ & ->)]; rewrite E.
  - unfold number_octets. rewrite He. destruct (_ && _) eqn:Ef; (split; [intros [w Hw]|intros [H1 H2]]).
    + split; [intros _|]; zlia.
    + eauto.
    + done.
    + specialize (H1 eq_refl). zlia.
  - destruct (Z.ltb_spec v (256 ^ n)); (split; [intros [w Hw]|intros [H1 H2]]); (done || eauto || lia).
Qed.

Lemma wire_fits v : 0 <= v <= UINT64_MAX -> is_Some (number_wire c v) <-> exists n, 1 <= n <= max_width c /\
  (c.(nc_width) = 0 \/ n = c.(nc_width)) /\ is_Some (number_octets c n v).
Proof using Hc.
  intros Hv. split.
  - intros [w Hw]. exists (number_width c v). split; [now apply (number_width_range c v w)|]. split; [|now exists w].
    unfold number_width. destruct (Z.eqb_spec (nc_width c) 0); auto.
  - intros (n & Hn & Hw & Hs). unfold number_wire, number_width. destruct (Z.eqb_spec (nc_width c) 0) as [E|E]; [|now destruct Hw as [?| <-]].
    apply octets_fit in Hs as [Hd Hle]; [|done|lia].
    destruct (digits_needed_spec (if is_bcd c then 100 else 256) v ltac:(destruct (is_bcd c); auto) Hv) as (Hone & _).
    apply octets_fit; [done|lia|done].
Qed.

Lemma wire_refused v : 0 <= v <= UINT64_MAX ->
  number_wire c v = None <-> forall n, 1 <= n <= max_width c -> c.(nc_width) = 0 \/ n = c.(nc_width) -> number_octets c n v = None.
Proof using Hc.
  intros Hv. split.
  - intros E n Hn Hw. apply eq_None_not_Some. intros Hx. assert (is_Some (number_wire c v)) as [w Hw'] by (apply (wire_fits v Hv); eauto). congruence.
  - intros Hall. apply eq_None_not_Some. intros Hx. apply (wire_fits v Hv) in Hx as (n & Hn & Hw & [w Hx]). rewrite Hall in Hx; done.
Qed.
End Config.

Section Numbers.
Context (e : tlv_schema_entry_t) (Hle : e.(se_min_length) <= e.(se_max_length)) (c : tlv_number_codec_config_t)
  (Hc : number_config_ok c).
Local Abbreviation rule := (mk_schema_number (Some e) c).

(** The width that the encoder settles on, or why there is none. *)
Lemma permitted_cases v w : 0 <= v <= UINT64_MAX -> number_wire c v = Some w ->
  let '(rc, n) := if negb (c.(nc_width) =? 0) then (tlv_schema_validate_length (Some e) (zlen w), zlen w)
                  else permit_loop (Z.to_nat ((if is_bcd c then 9 else 8) - zlen w)) e (zlen w) in
  (rc = TLV_OK /\ least_permitted e c v n) \/ (rc = TLV_ERR_SCHEMA /\ forall k, ~ width_permitted e c v k).
Proof using Hle Hc.
  intros Hv Hw. pose proof (number_width_range c v w Hc Hv Hw) as Hr.
  destruct (number_octets_ok c (number_width c v) v w Hc ltac:(lia) Hw) as [_ Hl]. rewrite Hl. unfold number_width in *. fold (max_width c).
  unfold number_wire, number_width in Hw. destruct (Z.eqb_spec (nc_width c) 0) as [Ez|Ez]; cbn [negb].
  - set (radix := if is_bcd c then 100 else 256) in *. set (least := digits_needed radix v) in *.
    assert (is_Some (number_octets c least v)) as Hs by now rewrite Hw. apply (octets_fit c Hc) in Hs as [Hd _]; [|done|lia].
    assert (forall k, width_permitted e c v k -> least <= k) as Hlow by (intros k (_ & Hk & _ & Hs); apply (octets_fit c Hc) in Hs; [tauto|done|lia]).
    destruct (permit_loop_spec e Hle (Z.to_nat (max_width c - least)) least) as [(n & -> & Hn & Hm & Hk)|(n & -> & Hno)]; [left|right]; (split; [done|]).
    + split; [split; [done|split; [lia|split; [auto|apply (octets_fit c Hc); [done|lia|]; split; [done|exact (proj1 Hn)]]]]|].
      intros k Hp. pose proof (Hlow k Hp). apply Hk; [done|apply Hp].
    + intros k Hp. pose proof (Hlow k Hp). destruct Hp as (Hm & Hk & _). apply (Hno k); [lia|done].
  - destruct (length_met_spec e (nc_width c) Hle) as [[-> Hm]|[-> Hm]]; [left|right]; (split; [done|]).
    + split; [split; [done|split; [done|split; [auto|now rewrite Hw]]]|]. intros k (_ & _ & [?| ->] & _); done.
    + intros k (Hm2 & _ & [?| ->] & _); done.
Qed.

Lemma chosen_wire v n : least_permitted e c v n ->
  let c' := if negb (c.(nc_width) =? 0) then c else with_width n c in
  number_config_ok c' /\ number_wire c' v = number_octets c n v.
Proof using Hc.
  intros [(_ & Hn & Hw & _) _]. destruct (Z.eqb_spec (nc_width c) 0) as [Ez|Ez]; cbn [negb].
  - split; [now apply with_width_ok|]. unfold number_wire, number_width. cbn. now rewrite (proj2 (Z.eqb_neq n 0)) by lia.
  - destruct Hw as [?| ->]; [done|]. split; [done|]. unfold number_wire, number_width. now rewrite (proj2 (Z.eqb_neq _ 0)).
Qed.

(** The encoder in terms of the reference. *)
Lemma schema_encode_cases m v data capacity w0 dg : 0 <= v <= UINT64_MAX -> is_null data = false \/ capacity = 0 ->
  exists rc m' written dg', tlv_schema_number_encode (Some rule) m (Some v) 8 data capacity (Some w0) dg = (rc, m', Some written, dg') /\
    ((number_wire c v = None /\ rc = TLV_ERR_INVALID_VALUE /\ m' = m /\ written = 0) \/
     (is_Some (number_wire c v) /\ (forall k, ~ width_permitted e c v k) /\ rc = TLV_ERR_SCHEMA /\ m' = m /\ written = 0) \/
     (exists n w, least_permitted e c v n /\ number_octets c n v = Some w /\
       if negb (is_null data) && (capacity <? n) then rc = TLV_ERR_BUFFER_TOO_SHORT /\ m' = m /\ written = 0
       else rc = TLV_OK /\ m' = (if negb (is_null data) then put_at m data w else m) /\ written = n)).
Proof using Hle Hc.
  intros Hv Hn. unfold tlv_schema_number_encode. cbv zeta.
  replace (is_null data && negb (capacity =? 0)) with false by (destruct Hn as [->| ->]; [done|now rewrite andb_false_r]).
  rewrite number_encode_wire by (done || now right). cbv zeta. destruct (number_wire c v) as [w|] eqn:Hw; cbn [is_null negb andb encoded is_ok].
  2: { eexists _, _, _, _. split; [reflexivity|]. now left. }
  rewrite is_ok_OK. cbn [cell negb]. pose proof (permitted_cases v w Hv Hw) as Hp.
  destruct (if negb (nc_width c =? 0) then _ else _) as [rc n] eqn:Er in Hp. cbv zeta in Er. rewrite Er.
  destruct Hp as [[-> Hleast]|[-> Hno]]; cbn [is_ok negb].
  - destruct (chosen_wire v n Hleast) as [Hok Hwire]. cbv zeta in Hok, Hwire. rewrite number_encode_wire by done. rewrite Hwire.
    pose proof Hleast as [(_ & Hr & _ & [w' Hw']) _]. rewrite Hw'. destruct (number_octets_ok c n v w' Hc ltac:(lia) Hw') as [_ ->].
    rewrite is_ok_OK. cbn [negb]. destruct (negb (is_null data) && (capacity <? n)) eqn:Ec; (eexists _, _, _, _; split; [reflexivity|]); right; right; exists n, w'; rewrite Ec; done.
  - eexists _, _, _, _. split; [reflexivity|]. right. left. done.
Qed.

Lemma schema_decode_cases m data size v0 capacity dg : is_null data = false \/ size = 0 ->
  exists dg1 dg2, tlv_schema_number_decode (Some rule) m data size (Some v0) capacity dg =
    (if decide (length_met e size) then
       let '(rc, m, value, _) := tlv_number_decode (Some c) m data size (Some v0) capacity dg1 in (rc, m, value, dg2)
     else (TLV_ERR_SCHEMA, m, Some v0, dg2)).
Proof using Hle.
  intros Hn. unfold tlv_schema_number_decode. cbv zeta.
  replace (is_null data && negb (size =? 0)) with false by (destruct Hn as [->| ->]; [done|now rewrite andb_false_r]).
  destruct (length_met_spec e size Hle) as [[-> Hm]|[-> Hm]].
  - rewrite is_ok_OK. cbn [negb]. exists (tlv_codec_diagnostic_init dg TLV_CODEC_OP_DECODE). destruct (decide _); [|done].
    destruct (tlv_number_decode _ _ _ _ _ _ _) as [[[rc m1] v] dg1]. now eexists.
  - cbn [is_ok negb]. exists None. destruct (decide _); [done|]. eexists. reflexivity.
Qed.
End Numbers.


(** ** Theorems *)

(** A number under a field schema takes the shortest width that both permit.  The encoder writes the octets of
    the number in the least width that the entry and the representation permit, or its fixed width; it
    refuses a number that no width holds as a value, and one that no permitted width holds as a violation
    of the schema, and then writes nothing.  The decoder gives a number exactly if the length meets
    the entry and the octets are those of the number in that length. *)
Theorem schema_number_exact (e : tlv_schema_entry_t) (c : tlv_number_codec_config_t) (m : mem) (v : Z) (data : ptr)
  (size capacity v0 w0 : Z) (dg dg' : option tlv_codec_diagnostic_t) (Hle : e.(se_min_length) <= e.(se_max_length))
  (Hc : number_config_ok c) (Hv : 0 <= v <= UINT64_MAX) (Hd : data <> NULL) (Hs : 0 <= size) :
  let rule := mk_schema_number (Some e) c in
  (let '(rc, m', written, _) := tlv_schema_number_encode (Some rule) m (Some v) 8 data capacity (Some w0) dg in
   (rc = TLV_ERR_INVALID_VALUE <->
      forall n, 1 <= n <= max_width c -> c.(nc_width) = 0 \/ n = c.(nc_width) -> number_octets c n v = None) /\
   (rc = TLV_ERR_SCHEMA <-> is_Some (number_wire c v) /\ forall n, ~ width_permitted e c v n) /\
   (rc <> TLV_OK -> m' = m /\ written = Some 0) /\
   forall n w, least_permitted e c v n -> number_octets c n v = Some w ->
     if capacity <? n then rc = TLV_ERR_BUFFER_TOO_SHORT
     else rc = TLV_OK /\ written = Some n /\ only_changes m m' data n /\ bytes_of m' data n = w) /\
  (let '(rc, m', value, _) := tlv_schema_number_decode (Some rule) m data size (Some v0) 8 dg' in
   m' = m /\ (rc = TLV_OK /\ value = Some v <->
     length_met e size /\ 1 <= size <= max_width c /\ (c.(nc_width) = 0 \/ size = c.(nc_width)) /\
     number_octets c size v = Some (bytes_of m data size))).
Proof.
  cbv zeta. split.
  - destruct (schema_encode_cases e Hle c Hc m v data capacity w0 dg Hv ltac:(left; now apply data_null)) as (rc & m' & written & dg1 & -> & Hcases).
    rewrite (data_null data Hd) in Hcases. cbn [negb andb] in Hcases.
    rewrite <- (wire_refused c Hc v Hv). assert (forall n, width_permitted e c v n -> is_Some (number_wire c v)) as Hwire.
    { intros n (_ & Hn & Hw & Hx). apply (wire_fits c Hc v Hv). eauto. }
    destruct Hcases as [(E & -> & -> & ->)|[([w E] & Hno & -> & -> & ->)|(n & w & Hl & Ho & Hr)]].
    + rewrite E. split; [done|]. split; [split; [done|intros [[w [=]] _]]|]. split; [done|].
      intros n w [Hp _] _. apply Hwire in Hp as [x Hx]. congruence.
    + rewrite E. split; [done|]. split; [split; eauto|]. split; [done|]. intros n w' [Hp _] _. now apply Hno in Hp.
    + destruct (Hwire n (proj1 Hl)) as [x ->].
      assert (forall n', least_permitted e c v n' -> n' = n) as Huniq by (intros n' Hl'; pose proof (proj2 Hl n' (proj1 Hl')); pose proof (proj2 Hl' n (proj1 Hl)); lia).
      destruct (number_octets_ok c n v w Hc ltac:(destruct Hl as [(_ & ? & _) _]; lia) Ho) as [Hb Hzl].
      destruct (capacity <? n) eqn:Ecap; destruct Hr as (-> & -> & ->); (split; [done|]); (split; [split; [done|intros [_ Hno]; now destruct (Hno n (proj1 Hl))]|]);
        (split; [done|]); intros n' w' Hl' Ho'; rewrite (Huniq n' Hl') in *; rewrite Ecap; [done|].
      assert (w' = w) as -> by congruence. rewrite <- Hzl. repeat split; [now apply put_at_only|now apply bytes_of_put_at].
  - destruct (schema_decode_cases e Hle c m data size v0 8 dg' ltac:(left; now apply data_null)) as (dg1 & dg2 & ->).
    destruct (decide (length_met e size)) as [Hm|Hm].
    + pose proof (number_decode_exact c m data size v v0 dg1 Hc Hv Hd Hs) as Hdec. destruct (tlv_number_decode _ _ _ _ _ _ _) as [[[rc m1] x] dg3]. tauto.
    + split; [done|]. split; [intros [[=] _]|tauto].
Qed.

(** Two octets or four: 70000 takes four, although three hold it. *)
Definition even_entry : tlv_schema_entry_t := mk_schema_entry empty_tag 2 4 1 None 0.
Definition big_endian_number : tlv_number_codec_config_t := mk_number_config TLV_NUMBER_BINARY_BE 0 0.

Lemma schema_number_exact_witness :
  least_permitted even_entry big_endian_number 70000 4 /\
  fst (fst (fst (tlv_schema_number_encode (Some (mk_schema_number (Some even_entry) big_endian_number))
    (mem_of 1 [0; 0; 0; 0]) (Some 70000) 8 (Ptr 1 0) 4 (Some 0) None))) = TLV_OK.
Proof.
  assert (least_permitted even_entry big_endian_number 70000 4) as Hl.
  { split.
    - split; [split; cbn; [lia|auto|done]|]. split; [vm_compute; split; congruence|]. split; [now left|]. vm_compute. eauto.
    - intros k ([_ He _] & Hk & _ & Ho). cbn in He. specialize (He ltac:(done)). destruct He as [-> | ->]; [|done]. vm_compute in Ho. now destruct Ho. }
  split; [exact Hl|].
  destruct (schema_number_exact even_entry big_endian_number (mem_of 1 [0; 0; 0; 0]) 70000 (Ptr 1 0) 4 4 0 0 None None
    ltac:(cbn; lia) ltac:(split; [reflexivity|cbn; lia]) ltac:(lia) ltac:(discriminate) ltac:(lia)) as [He _].
  destruct (tlv_schema_number_encode _ _ _ _ _ _ _ _) as [[[rc m'] written] dg']. cbv beta iota zeta in He.
  destruct He as (_ & _ & _ & He). exact (proj1 (He 4 [0; 1; 17; 112] Hl eq_refl)).
Defined.
