(* ===== verification/SchemaReportLaws.v ===== *)
(** * Schemas: the laws of reports

    A report counts every violation of the forest, whatever room it has to store them. *)

From stdpp Require Import relations.
From S2P Require Import Prelude Mem Core Format WireFormat Reader TreeReader TreeLaws TreeNodes TreePlaces Diagnostic Visitor Codec TreeWriterLaws.
From S2P Require Import Schema SchemaLaws SchemaStructure SchemaScope SchemaValidate SchemaReport SchemaTally.
From Stdlib Require Import Sorting.Sorted.

(** ** The collector *)

(** The count of the report, and what the checks of a scope leave alone. *)
Definition tally (c : collector_t) : Z * list scope_frame * Z := (c.(c_report).(rp_count), c.(c_frames), c.(c_depth)).
Definition counted (c c' : collector_t) (n : Z) : Prop := tally c' = (c.(c_report).(rp_count) + n, c.(c_frames), c.(c_depth)).

Lemma tally_amend change added : tally (amend change added) = tally (fst added).
Proof. now destruct added as [c [i|]]. Qed.

Lemma tally_add `{Platform} c kind tag offset :
  tally (fst (add_issue c kind tag offset)) = (usize (c.(c_report).(rp_count) + 1), c.(c_frames), c.(c_depth)).
Proof. unfold add_issue. cbv zeta. now destruct (_ <=? _). Qed.

Lemma counted_refl c : counted c c 0.
Proof. unfold counted, tally. now rewrite Z.add_0_r. Qed.

Lemma counted_trans c1 c2 c3 n k : counted c1 c2 n -> counted c2 c3 k -> counted c1 c3 (n + k).
Proof. unfold counted, tally. intros [= E1 E2 E3] [= E4 E5 E6]. rewrite E4, E5, E6, E1, E2, E3. now rewrite Z.add_assoc. Qed.

Lemma counted_add `{Platform} c kind tag offset : 0 <= c.(c_report).(rp_count) < SIZE_MAX -> counted c (fst (add_issue c kind tag offset)) 1.
Proof. intros Hc. unfold counted. rewrite tally_add. rewrite usize_small by lia. done. Qed.

Lemma counted_amend c change added n : counted c (fst added) n -> counted c (amend change added) n.
Proof. unfold counted. now rewrite tally_amend. Qed.

Lemma counted_count c c' n : counted c c' n -> c'.(c_report).(rp_count) = c.(c_report).(rp_count) + n.
Proof. now intros [= E _ _]. Qed.

(** ** The scans *)

Section Folds.
Context `{Platform}.

Definition tally_step (P : list Z -> Prop) `{!forall x, Decision (P x)} (max : Z) (b : Z * (Z * list scope_frame * Z)) (tag : list Z)
  : (Z * (Z * list scope_frame * Z)) + Empty_set :=
  let '(n, (k, fr, d)) := b in
  if bool_decide (P tag) then inl (usize (n + 1), (if max <? usize (n + 1) then usize (k + 1) else k, fr, d)) else inl b.

Lemma fold_tally (P : list Z -> Prop) `{!forall x, Decision (P x)} max fr d tags : forall n k, 0 <= n -> n + zlen tags <= SIZE_MAX -> 0 <= k ->
  k + excess (n + zlen (filter P tags)) max - excess n max <= SIZE_MAX ->
  fold_until (tally_step P max) (n, (k, fr, d)) tags =
  inl (n + zlen (filter P tags), (k + excess (n + zlen (filter P tags)) max - excess n max, fr, d)).
Proof using.
  induction tags as [|x tags IH]; intros n k Hn Hs Hk Hb; cbn [fold_until].
  - rewrite filter_nil. cbn [length]. rewrite Z.add_0_r. do 4 f_equal. lia.
  - unfold tally_step at 1. rewrite filter_cons in *. cbn [length] in Hs.
    case_bool_decide as Hp; [rewrite decide_True in * by done|rewrite decide_False in * by done; apply IH; lia].
    cbn [length] in *. rewrite !(usize_small (n + 1)) by lia.
    replace (n + Z.of_nat (S (length (filter P tags)))) with (n + 1 + zlen (filter P tags)) in * by lia.
    assert (excess (n + 1) max - excess n max = if max <? n + 1 then 1 else 0) as He by (unfold excess; destruct (Z.ltb_spec max (n + 1)); lia).
    assert (excess (n + 1) max <= excess (n + 1 + zlen (filter P tags)) max) as Hm by (unfold excess; lia).
    destruct (max <? n + 1).
    + rewrite usize_small by lia. rewrite IH by lia. do 4 f_equal. lia.
    + rewrite IH by lia. do 4 f_equal. lia.
Qed.

Definition order_tally_step (m : mem) (t : tlv_structure_schema_t) (b : option nat * (Z * list scope_frame * Z)) (tag : list Z)
  : (option nat * (Z * list scope_frame * Z)) + Empty_set :=
  let '(last, (k, fr, d)) := b in
  match rule_for m t tag with
  | Some (i, _) =>
      if match last with Some j => (i <? j)%nat | None => false end then inl (last, (usize (k + 1), fr, d)) else inl (Some i, (k, fr, d))
  | None => inl b
  end.

Lemma fold_order_tally m t fr d tags : forall last k, 0 <= k -> k + order_violations last (matched m t tags) <= SIZE_MAX ->
  exists last', fold_until (order_tally_step m t) (last, (k, fr, d)) tags = inl (last', (k + order_violations last (matched m t tags), fr, d)).
Proof using.
  induction tags as [|tag tags IH]; intros last k Hk Hb; cbn [fold_until].
  - exists last. cbn. do 4 f_equal. lia.
  - unfold order_tally_step at 1. unfold matched in *. cbn [omap list_omap] in *. fold (matched m t tags) in *.
    destruct (rule_for m t tag) as [[i r]|]; cbn [option_map fst] in *; [|now apply IH].
    cbn [order_violations] in *. destruct (match last with Some j => _ | None => _ end); [|now apply IH].
    pose proof (order_nonneg (matched m t tags) last). rewrite usize_small by lia. destruct (IH last (k + 1) ltac:(lia) ltac:(lia)) as (l' & E).
    exists l'. rewrite E. do 4 f_equal. lia.
Qed.
End Folds.

(** ** The checks of a scope *)

(** The step from the rules or groups behind an index to those behind the next. *)
Lemma total_step {A} (weight : A -> Z) l i x : 0 <= i -> l !! Z.to_nat i = Some x ->
  total weight (drop (Z.to_nat i) l) = weight x + total weight (drop (Z.to_nat (i + 1)) l).
Proof. intros Hi Hl. rewrite (drop_S _ _ _ Hl). replace (Z.to_nat (i + 1)) with (S (Z.to_nat i)) by lia. done. Qed.

Lemma lookup_nth_in {A} (d : A) l i : 0 <= i < zlen l -> l !! Z.to_nat i = Some (nth (Z.to_nat i) l d).
Proof. intros Hi. rewrite nth_lookup. destruct (l !! Z.to_nat i) eqn:E; [done|]. apply lookup_ge_None in E. lia. Qed.

Lemma lack_counted `{Platform} c c1 n min kind tag offset change k : counted c c1 k -> 0 <= c.(c_report).(rp_count) -> 0 <= k ->
  c.(c_report).(rp_count) + k + lack n min <= SIZE_MAX ->
  counted c (if n <? min then amend change (add_issue c1 kind tag offset) else c1) (k + lack n min).
Proof.
  intros Hc Hc0 Hk Hb. unfold lack in *. destruct (n <? min); [|now rewrite Z.add_0_r]. apply (counted_trans _ c1); [done|].
  apply counted_amend, counted_add. rewrite (counted_count _ _ _ Hc). lia.
Qed.

Section Scope.
Context `{Platform} (f : tlv_format_t) (decode : tlv_decode_fn) (Hdec : f.(f_decode) = Some decode)
  `{!DecodeLaws decode} `{!CodecLaws f} (m : mem) (tables : Z -> tlv_structure_schema_t) (frame : scope_frame).
Let t := frame_schema tables frame.
Context (Htyped : table_typed t) (Hok : table_ok m t)
  (fo : forest) (w : list Z) (Hw : forest_wire f fo = Some w) (fuel : nat) (data : ptr)
  (Hdata : data = NULL -> w = []) (Hstart : 0 <= frame.(sf_start)) (Hend : frame.(sf_end) = frame.(sf_start) + zlen w)
  (Hstop : frame.(sf_end) <= SIZE_MAX)
  (Hoctets : bytes_of m (data +p frame.(sf_start)) (zlen w) = w) (Hfuel : zlen w < Z.of_nat fuel).
Let tags := heads fo.

(** A scan that counts the elements with a property, and adds an issue for every one above a maximum. *)
Lemma count_scan (P : list Z -> Prop) `{!forall x, Decision (P x)} max c (body : Z * collector_t -> tlv_element_t -> Z -> (Z * collector_t) + Empty_set) :
  0 <= max -> 0 <= c.(c_report).(rp_count) -> c.(c_report).(rp_count) + excess (zlen (filter P tags)) max <= SIZE_MAX ->
  (forall count c0 el pos, tag_ok el.(e_tag) -> exists c1,
     body (count, c0) el pos = inl (if bool_decide (P (tag_bytes m el.(e_tag))) then usize (count + 1) else count, c1) /\
     tally c1 = if bool_decide (P (tag_bytes m el.(e_tag))) && (max <? usize (count + 1))
                then (usize (c0.(c_report).(rp_count) + 1), c0.(c_frames), c0.(c_depth)) else tally c0) ->
  exists c1, scan fuel m data (Some f) body frame.(sf_start) frame.(sf_end) (0, c) = Some (Scanned (zlen (filter P tags), c1)) /\
    counted c c1 (excess (zlen (filter P tags)) max).
Proof using Hdec DecodeLaws0 Hw Hdata Hstart Hend Hstop Hoctets Hfuel.
  intros Hmax Hc Hb Hbody. pose proof (heads_wire f fo w Hw) as Hlen. fold tags in Hlen.
  assert (forall a el pos, tag_ok el.(e_tag) ->
    match body a el pos with
    | inl a' => tally_step P max (fst a, tally (snd a)) (tag_bytes m el.(e_tag)) = inl (fst a', tally (snd a'))
    | inr x => tally_step P max (fst a, tally (snd a)) (tag_bytes m el.(e_tag)) = inr (id x)
    end) as Hstep.
  { intros [count c0] el pos Ht. destruct (Hbody count c0 el pos Ht) as (c1 & -> & Et). unfold tally_step. cbn [fst snd].
    rewrite Et. unfold tally. destruct (bool_decide _); [|done]. cbn [andb]. now destruct (_ <? _). }
  assert (frame.(sf_start) + zlen w <= SIZE_MAX) as Hst by lia.
  pose proof (scan_forest f decode Hdec m data body (fun a => (fst a, tally (snd a))) id _ Hstep fo fuel (sf_start frame) w (0, c) Hw Hdata Hstart
    Hst Hoctets Hfuel) as Hs.
  rewrite Hend. cbn [fst snd] in Hs. change (tally c) with (rp_count (c_report c), c_frames c, c_depth c) in Hs. fold tags in Hs.
  assert (excess 0 max = 0) as He0 by (unfold excess; lia).
  rewrite (fold_tally P max _ _ tags 0), He0 in Hs by (rewrite ?He0, ?Z.add_0_l; lia). rewrite Z.add_0_l, Z.sub_0_r in Hs.
  destruct Hs as ([count c1] & -> & [= -> Et1 Et2 Et3]). exists c1. split; [done|]. unfold counted, tally. congruence.
Qed.

Definition rule_weight (r : tlv_structure_rule_t) : Z := range_violations (occurrences m r tags) r.(sr_min_occurs) r.(sr_max_occurs).
Definition group_weight (g : tlv_structure_group_t) : Z := range_violations (members m t g.(sg_id) tags) g.(sg_min_occurs) g.(sg_max_occurs).

Lemma rule_report_spec n : forall i c, 0 <= i -> i + Z.of_nat n = t.(ss_count) -> 0 <= c.(c_report).(rp_count) ->
  c.(c_report).(rp_count) + total rule_weight (drop (Z.to_nat i) (rules_of t)) <= SIZE_MAX ->
  exists c', report_rule_counts m tables fuel data (Some f) frame n i c = Some (TLV_OK, c') /\
    counted c c' (total rule_weight (drop (Z.to_nat i) (rules_of t))).
Proof using Hdec DecodeLaws0 Htyped Hok Hw Hdata Hstart Hend Hstop Hoctets Hfuel.
  pose proof (to_rules _ _ Hok) as Hlen.
  induction n as [|n IH]; intros i c Hi Hn Hc Hv; cbn [report_rule_counts].
  - exists c. split; [done|]. rewrite drop_ge by lia. apply counted_refl.
  - fold t. assert (0 <= i < zlen (rules_of t)) as Hin by lia. pose proof (lookup_nth_in no_rule _ _ Hin) as Hl. fold (rule_at t i) in Hl.
    rewrite (total_step rule_weight _ _ _ Hi Hl) in *. change (nth (Z.to_nat i) (rules_of t) no_rule) with (rule_at t i) in *.
    set (r := rule_at t i) in *. assert (r ∈ rules_of t) as Hr by now apply (nth_in no_rule).
    pose proof (tt_rule_occurs _ Htyped) as Hmin. rewrite list.Forall_forall in Hmin. specialize (Hmin r Hr).
    pose proof (to_rule _ _ Hok) as Hmax. rewrite list.Forall_forall in Hmax. specialize (Hmax r Hr). apply ro_occurs in Hmax.
    pose proof (total_nonneg rule_weight (drop (Z.to_nat (i + 1)) (rules_of t)) (fun _ => range_nonneg _ _ _)) as Hrest.
    pose proof (range_nonneg (occurrences m r tags) (sr_min_occurs r) (sr_max_occurs r)) as Hw0. fold (rule_weight r) in Hw0.
    assert (rule_weight r = excess (occurrences m r tags) (sr_max_occurs r) + lack (occurrences m r tags) (sr_min_occurs r)) as Ew by done.
    assert (0 <= lack (occurrences m r tags) (sr_min_occurs r)) as Hl0 by (unfold lack; destruct (_ <? _); lia).
    set (body := fun '(count, c) (element : tlv_element_t) (pos : Z) => if same_tag m _ _ then _ else _).
    destruct (count_scan (fun tag => describes m tag r) (sr_max_occurs r) c body) as (c1 & -> & Hc1); [lia|lia|unfold occurrences in *; lia| |].
    { intros count c0 el pos [Hte _]. unfold body. rewrite (same_tag_bytes m t (tt_tags _ Htyped) r _ Hr) by lia.
      destruct (bool_decide (describes m _ _)); cbn [andb]; [|now exists c0]. cbv zeta. eexists. split; [reflexivity|].
      destruct (_ <? _); [|done]. now rewrite tally_amend, tally_add. }
    fold (occurrences m r tags) in *.
    assert (counted c (if occurrences m r tags <? sr_min_occurs r then _ else c1) (rule_weight r)) as Hc2
      by (rewrite Ew; apply (lack_counted c c1 _ _ TLV_SCHEMA_ISSUE_MISSING (se_tag (entry_of r)) (Some (sf_end frame))
            (fun d => schema_issue_occurs d r None (occurrences m r tags))); [done|done|unfold excess; lia|lia]).
    pose proof (counted_count _ _ _ Hc2) as Hcc.
    destruct (IH (i + 1) _ ltac:(lia) ltac:(lia) ltac:(rewrite Hcc; lia) ltac:(rewrite Hcc; lia)) as (c3 & E & Hc3).
    exists c3. split; [exact E|]. exact (counted_trans _ _ _ _ _ Hc2 Hc3).
Qed.

Lemma group_report_spec n : forall g c, 0 <= g -> g + Z.of_nat n = t.(ss_group_count) -> 0 <= c.(c_report).(rp_count) ->
  c.(c_report).(rp_count) + total group_weight (drop (Z.to_nat g) (groups_of t)) <= SIZE_MAX ->
  exists c', report_group_counts m tables fuel data (Some f) frame n g c = Some (TLV_OK, c') /\
    counted c c' (total group_weight (drop (Z.to_nat g) (groups_of t))).
Proof using Hdec DecodeLaws0 Htyped Hok Hw Hdata Hstart Hend Hstop Hoctets Hfuel.
  pose proof (to_groups _ _ Hok) as Hlen.
  induction n as [|n IH]; intros g c Hg Hn Hc Hv; cbn [report_group_counts].
  - exists c. split; [done|]. rewrite drop_ge by lia. apply counted_refl.
  - fold t. assert (0 <= g < zlen (groups_of t)) as Hin by lia. pose proof (lookup_nth_in no_group _ _ Hin) as Hl. fold (group_at t g) in Hl.
    rewrite (total_step group_weight _ _ _ Hg Hl) in *. change (nth (Z.to_nat g) (groups_of t) no_group) with (group_at t g) in *.
    set (x := group_at t g) in *. assert (x ∈ groups_of t) as Hx by now apply (nth_in no_group).
    pose proof (tt_group_occurs _ Htyped) as Hmin. rewrite list.Forall_forall in Hmin. specialize (Hmin x Hx).
    pose proof (to_group _ _ Hok) as Hmax. rewrite list.Forall_forall in Hmax. specialize (Hmax x Hx). apply go_occurs in Hmax.
    pose proof (total_nonneg group_weight (drop (Z.to_nat (g + 1)) (groups_of t)) (fun _ => range_nonneg _ _ _)) as Hrest.
    assert (group_weight x = excess (members m t x.(sg_id) tags) (sg_max_occurs x) + lack (members m t x.(sg_id) tags) (sg_min_occurs x)) as Ew by done.
    assert (0 <= lack (members m t x.(sg_id) tags) (sg_min_occurs x)) as Hl0 by (unfold lack; destruct (_ <? _); lia).
    set (body := fun '(count, c) (element : tlv_element_t) (pos : Z) => match matching_rule m t _ _ with Some _ => _ | None => _ end).
    destruct (count_scan (member_of m t x.(sg_id)) (sg_max_occurs x) c body) as (c1 & -> & Hc1); [lia|lia|unfold members in *; lia| |].
    { intros count c0 el pos [Hte _]. unfold body.
      pose proof (matching_member m t (to_rules _ _ Hok) (tt_tags _ Htyped) (sg_id x) (e_tag el) ltac:(lia)) as Hm.
      destruct (matching_rule m t _ _); [rewrite (bool_decide_eq_true_2 (member_of _ _ _ _)) by done|rewrite (bool_decide_eq_false_2 (member_of _ _ _ _)) by done; now exists c0].
      cbn [andb]. cbv zeta. eexists. split; [reflexivity|]. destruct (_ <? _); [|done]. now rewrite tally_amend, tally_add. }
    fold (members m t x.(sg_id) tags) in *.
    assert (counted c (if members m t x.(sg_id) tags <? sg_min_occurs x then _ else c1) (group_weight x)) as Hc2
      by (rewrite Ew; apply (lack_counted c c1 _ _ TLV_SCHEMA_ISSUE_MISSING (se_tag (entry_of (first_member t (sg_id x)))) (Some (sf_end frame))
            (fun d => schema_issue_occurs d no_rule (Some x) (members m t x.(sg_id) tags))); [done|done|unfold excess; lia|lia]).
    pose proof (counted_count _ _ _ Hc2) as Hcc. assert (0 <= group_weight x) as Hw0 by apply range_nonneg.
    destruct (IH (g + 1) _ ltac:(lia) ltac:(lia) ltac:(rewrite Hcc; lia) ltac:(rewrite Hcc; lia)) as (c3 & E & Hc3).
    exists c3. split; [exact E|]. exact (counted_trans _ _ _ _ _ Hc2 Hc3).
Qed.

Lemma order_report_spec c : 0 <= c.(c_report).(rp_count) ->
  c.(c_report).(rp_count) + order_violations None (matched m t tags) <= SIZE_MAX ->
  exists c', report_order m tables fuel data (Some f) frame c = Some (TLV_OK, c') /\ counted c c' (order_violations None (matched m t tags)).
Proof using Hdec DecodeLaws0 Htyped Hok Hw Hdata Hstart Hend Hstop Hoctets Hfuel.
  intros Hc Hv. unfold report_order. fold t.
  set (body := fun '(last, c) (element : tlv_element_t) (pos : Z) => match matching_rule m t _ _ with Some _ => _ | None => _ end).
  assert (forall a el pos, tag_ok el.(e_tag) ->
    match body a el pos with
    | inl a' => order_tally_step m t (option_map Z.to_nat (fst a), tally (snd a)) (tag_bytes m el.(e_tag)) = inl (option_map Z.to_nat (fst a'), tally (snd a'))
    | inr x => order_tally_step m t (option_map Z.to_nat (fst a), tally (snd a)) (tag_bytes m el.(e_tag)) = inr (id x)
    end) as Hstep.
  { intros [last c0] el pos [Hte _]. unfold body, order_tally_step. cbn [fst snd].
    rewrite (matching_rule_for m t (to_rules _ _ Hok) (tt_tags _ Htyped)) by lia. destruct (rule_for m t _) as [[k r]|]; cbn [indexed]; [|done].
    rewrite Z.add_0_l. unfold tally at 1. destruct last as [l|]; cbn [option_map]; [|cbn; now rewrite Nat2Z.id].
    assert ((Z.of_nat k <? l) = (k <? Z.to_nat l)%nat) as -> by (apply eq_bool_prop_intro; rewrite !Is_true_true, Z.ltb_lt, Nat.ltb_lt; lia).
    destruct (k <? Z.to_nat l)%nat; cbn [fst snd option_map]; [now rewrite tally_amend, tally_add|now rewrite Nat2Z.id]. }
  assert (frame.(sf_start) + zlen w <= SIZE_MAX) as Hst by lia.
  pose proof (scan_forest f decode Hdec m data body (fun a => (option_map Z.to_nat (fst a), tally (snd a))) id _ Hstep fo fuel (sf_start frame) w (None, c)
    Hw Hdata Hstart Hst Hoctets Hfuel) as Hs.
  rewrite Hend. cbn [fst snd option_map] in Hs. change (tally c) with (rp_count (c_report c), c_frames c, c_depth c) in Hs. fold tags in Hs.
  destruct (fold_order_tally m t (c_frames c) (c_depth c) tags None (rp_count (c_report c)) Hc Hv) as (last' & E). rewrite E in Hs.
  destruct Hs as ([last c1] & -> & [= _ Et1 Et2 Et3]). exists c1. split; [done|]. unfold counted, tally. congruence.
Qed.

(** The whole scope. *)
Lemma report_scope_spec c : 0 <= c.(c_report).(rp_count) -> c.(c_report).(rp_count) + scope_violations m t tags <= SIZE_MAX ->
  exists c', report_scope m tables fuel data (Some f) frame c = Some (TLV_OK, c') /\ counted c c' (scope_violations m t tags).
Proof using Hdec DecodeLaws0 Htyped Hok Hw Hdata Hstart Hend Hstop Hoctets Hfuel.
  intros Hc Hv. destruct (table_typed_zlen _ Htyped) as (Hn & Hg & _). unfold report_scope. fold t. unfold scope_violations in *.
  fold rule_weight in *. change (fun g : tlv_structure_group_t => range_violations _ _ _) with group_weight in *.
  pose proof (total_nonneg rule_weight (rules_of t) (fun _ => range_nonneg _ _ _)). pose proof (total_nonneg group_weight (groups_of t) (fun _ => range_nonneg _ _ _)).
  pose proof (order_nonneg (matched m t tags) None).
  destruct (rule_report_spec (Z.to_nat (ss_count t)) 0 c) as (c1 & -> & Hc1); [lia|lia|done|rewrite drop_0; destruct (bool_decide _); lia|]. rewrite drop_0 in Hc1.
  pose proof (counted_count _ _ _ Hc1) as E1.
  destruct (group_report_spec (Z.to_nat (ss_group_count t)) 0 c1) as (c2 & -> & Hc2); [lia|lia|lia|rewrite drop_0, E1; destruct (bool_decide _); lia|]. rewrite drop_0 in Hc2.
  pose proof (counted_count _ _ _ Hc2) as E2. pose proof (counted_trans _ _ _ _ _ Hc1 Hc2) as Hc12.
  destruct (bool_decide (ss_order t = _)).
  - destruct (order_report_spec c2) as (c3 & -> & Hc3); [lia|lia|]. exists c3. split; [done|]. exact (counted_trans _ _ _ _ _ Hc12 Hc3).
  - exists c2. split; [done|]. now rewrite Z.add_0_r.
Qed.
End Scope.

(** ** The rounds of the main loop *)

Definition scopes_of (c : collector_t) : list Z := map sf_schema c.(c_frames).

Lemma scope_at_schema l i : sf_schema (scope_at l i) = nth (Z.to_nat i) (map sf_schema l) 0.
Proof. unfold scope_at. symmetry. apply (map_nth sf_schema l no_scope). Qed.

(** A count of an issue that is added if a test fails. *)
Lemma issue_counted `{Platform} c change kind tag offset (P : Prop) `{!Decision P} : 0 <= c.(c_report).(rp_count) ->
  c.(c_report).(rp_count) + (if decide P then 0 else 1) <= SIZE_MAX ->
  counted c (if negb (bool_decide P) then amend change (add_issue c kind tag offset) else c) (if decide P then 0 else 1).
Proof.
  intros Hc Hb. destruct (decide P) as [Hp|Hp]; [rewrite bool_decide_eq_true_2 by done; apply counted_refl|rewrite bool_decide_eq_false_2 by done].
  apply counted_amend, counted_add. lia.
Qed.

Lemma pointer_offset_add `{Platform} q s : 0 <= s <= SIZE_MAX -> (q = NULL -> s = 0) -> pointer_offset (q +p s) q = s.
Proof. intros Hs Hq. destruct q as [|k o]; cbn; [symmetry; auto|]. replace (o + s - o) with s by lia. now apply usize_small. Qed.

Lemma scopes_counted c c' n : counted c c' n -> scopes_of c' = scopes_of c /\ c'.(c_depth) = c.(c_depth).
Proof. intros [= _ E2 E3]. unfold scopes_of. now rewrite E2. Qed.

Section Loop.
Context `{Platform} (f : tlv_format_t) (decode : tlv_decode_fn) (Hdec : f.(f_decode) = Some decode)
  `{!DecodeLaws decode} `{!CodecLaws f} (p : list Z -> bool) (m : mem)
  (Hclass : forall tag, tag_ok tag -> is_constructed (Some f) m tag = p (tag_bytes m tag))
  (tables : Z -> tlv_structure_schema_t) (unknown : tlv_schema_unknown_policy_t).

Abbreviation elements_due := (elements_violations f m tables unknown).

(** The violations in what is left. *)
Fixpoint due (scopes : list Z) (fo : forest) (D : list forest) : Z :=
  elements_due (nth (length D) scopes 0) fo + match D with [] => 0 | rest :: D => due scopes rest D end.

Lemma due_nonneg scopes D : forall fo, 0 <= due scopes fo D.
Proof using.
  induction D as [|rest D IH]; intros fo; cbn [due].
  - pose proof (elements_nonneg f m tables unknown fo (nth (length (A := forest) []) scopes 0)). lia.
  - specialize (IH rest). pose proof (elements_nonneg f m tables unknown fo (nth (length (rest :: D)) scopes 0)). lia.
Qed.

Lemma due_settle scopes D : forall fo, due scopes (fst (settle fo D)) (snd (settle fo D)) = due scopes fo D.
Proof using. induction D as [|rest D IH]; intros [| |]; cbn [settle fst snd]; done. Qed.

Lemma due_insert scopes i x D : forall fo, (length D < i)%nat -> due (<[i := x]> scopes) fo D = due scopes fo D.
Proof using.
  induction D as [|rest D IH]; intros fo Hi; cbn [due length] in *; rewrite nth_insert_other by lia; [done|]. rewrite IH by lia. done.
Qed.

(** What the first element contributes; [below] is only used for the children of a node. *)
Lemma due_headed fo tag value c kids rest scopes D : headed f fo tag value c kids rest ->
  due scopes fo D =
  element_violations m unknown (tables (nth (length D) scopes 0)) tag (zlen value) c
    (fun child => if c then scope_violations m (tables child) (heads kids) + elements_due child kids else 0) + due scopes rest D.
Proof using.
  intros Hh. destruct fo as [|tag' value' rest'|tag' kids' rest']; cbn [headed] in Hh; [done|destruct Hh as (-> & -> & -> & -> & ->)|destruct Hh as (-> & Hw & -> & -> & ->)].
  - destruct D; cbn [due elements_violations]; lia.
  - assert (wire_length f kids = zlen value) as El by (unfold wire_length; now rewrite Hw). destruct D; cbn [due elements_violations]; rewrite El; lia.
Qed.

Context (root : Z) (data : ptr) (size room : Z)
  (Htables : forall a, reaches tables root a -> table_typed (tables a) /\ table_ok m (tables a))
  (Hsize : 0 <= size <= SIZE_MAX) (Hdata : data = NULL -> size = 0) (Hroom : room + 1 <= TLV_SCHEMA_MAX_DEPTH).

Abbreviation going := (going f p m tables root data size room).
Abbreviation fetched := (fetched f p m data size).

(** A round adds what the elements it leaves behind owe. *)
Definition settled_up (P : place) (c : collector_t) (o : option (tlv_tree_reader_t * collector_t + tlv_result_t * collector_t * option tlv_diagnostic_t)) : Prop :=
  exists t' P' c', o = Some (inl (t', c')) /\ going t' P' (scopes_of c') /\ place_size P' < place_size P /\
    c.(c_report).(rp_count) <= c'.(c_report).(rp_count) /\
    c'.(c_report).(rp_count) + due (scopes_of c') (fst (front P')) (snd (front P')) =
    c.(c_report).(rp_count) + due (scopes_of c) (fst (front P)) (snd (front P)).

(** A round that ends behind the element. *)
Lemma skip_settles t P c it t2 tag value b kids rest c1 : going t P (scopes_of c) ->
  fetched t2 (fst (front P)) (snd (front P)) it tag value b kids rest ->
  (exists i x, scopes_of c1 = scopes_of c \/ ((length (snd (front P)) < i)%nat /\ scopes_of c1 = <[i := x]> (scopes_of c))) ->
  c1.(c_report).(rp_count) = c.(c_report).(rp_count) +
    element_violations m unknown (tables (nth (length (snd (front P))) (scopes_of c) 0)) tag (zlen value) b
      (fun child => if b then scope_violations m (tables child) (heads kids) + elements_due child kids else 0) ->
  settled_up P c (if it.(it_constructed) && negb (it.(it_element).(e_value).(v_size) =? 0) then
                    match tlv_tree_reader_skip_subtree (Some t2) with None => None | Some (_, r) => Some (inl (cell t2 r, c1)) end
                  else Some (inl (t2, c1))).
Proof using.
  intros Hg Hft Hsc Hcount. destruct (skipped f p m data size P it t2 tag value b kids rest Hft) as (t3 & E & Hs & Hw).
  exists t3, (behind_element rest (snd (front P))), c1. split; [destruct (_ && _); [now rewrite E|now injection E as ->]|].
  pose proof (rest_going f p m tables root data size room t P _ it t2 tag value b kids rest t3 Hg Hft Hs Hw) as Hg3.
  pose proof (settle_length (snd (front P)) rest) as Hlen. pose proof (due_headed _ _ _ _ _ _ (scopes_of c) (snd (front P)) (ft_head _ _ _ _ _ _ _ _ _ _ _ _ _ _ Hft)) as Hdue.
  pose proof (rest_size f p m data size P it t2 tag value b kids rest Hft) as Hps.
  assert (c.(c_report).(rp_count) <= c1.(c_report).(rp_count)) as Hle.
  { rewrite Hcount. match goal with |- _ <= _ + ?e => assert (0 <= e); [|lia] end. apply element_nonneg. intros child. destruct b; [|lia].
    pose proof (scope_nonneg m (tables child) (heads kids)). pose proof (elements_nonneg f m tables unknown kids child). lia. }
  destruct Hsc as (i & x & [->|[Hi ->]]).
  - split; [done|]. split; [done|]. split; [done|]. cbn [front behind_element fst snd]. rewrite due_settle, Hdue. lia.
  - split; [apply going_insert; [done|cbn [front behind_element fst snd]; lia]|]. split; [done|].
    cbn [front behind_element fst snd]. rewrite due_settle, due_insert by lia. rewrite Hdue. lia.
Qed.

Context (fuel : nat) (Hfuel : size < Z.of_nat fuel).

Lemma rule_length r a n : r ∈ rules_of (tables a) -> reaches tables root a ->
  is_ok (tlv_schema_validate_length r.(sr_entry) n) = bool_decide (length_met (entry_of r) n).
Proof using Htables.
  intros Hr Ha. destruct (Htables a Ha) as [_ Hok]. pose proof (to_rule _ _ Hok) as Hf. rewrite list.Forall_forall in Hf. destruct (Hf r Hr) as [(e & He & _ & _ & Hle) _ _ _ _].
  unfold entry_of. rewrite He. cbn [default]. destruct (length_met_spec e n Hle) as [[-> Hl]|[-> Hl]]; [now rewrite bool_decide_eq_true_2|now rewrite bool_decide_eq_false_2].
Qed.

(** The children of a node, whose form and length have been looked at. *)
Lemma kids_settle t P c it t2 tag value kids rest c2 child k r dg : going t P (scopes_of c) ->
  fetched t2 (fst (front P)) (snd (front P)) it tag value true kids rest -> reaches tables root child ->
  rule_for m (tables (nth (length (snd (front P))) (scopes_of c) 0)) tag = Some (k, r) -> r.(sr_children) = Some child -> form_met r true ->
  0 <= c2.(c_report).(rp_count) -> scopes_of c2 = scopes_of c -> c2.(c_depth) = zlen (snd (front P)) ->
  c2.(c_report).(rp_count) = c.(c_report).(rp_count) + (if decide (length_met (entry_of r) (zlen value)) then 0 else 1) ->
  c.(c_report).(rp_count) + due (scopes_of c) (fst (front P)) (snd (front P)) <= SIZE_MAX ->
  let start := it.(it_offset) + it.(it_source).(s_value).(r_offset) in
  let frame := mk_scope child start (usize (start + zlen value)) it.(it_element).(e_tag) it.(it_offset) in
  let c3 := mk_collector c2.(c_report) (<[Z.to_nat (zlen (snd (front P)) + 1) := frame]> c2.(c_frames)) (zlen (snd (front P)) + 1) in
  settled_up P c (match report_scope m tables fuel data (Some f) frame c3 with
                  | None => None
                  | Some (rc, c) => if negb (is_ok rc) then Some (inr (rc, c, dg)) else Some (inl (t2, c))
                  end).
Proof using Hdec DecodeLaws0 Htables Hsize Hdata Hroom Hfuel.
  intros Hg Hft Hreach Er Ech Hform Hc2 Hsc Hdep Hcount Hb start frame c3. pose proof Hft as [Hh Hd _ _ _ _ _ Hst0 Hst1 Hkv Hst _ _ _ _].
  pose proof (due_headed _ _ _ _ _ _ (scopes_of c) (snd (front P)) Hh) as Hdue. rewrite Hdue in Hb. unfold element_violations in Hdue, Hb. rewrite Er, Ech in Hdue, Hb.
  rewrite (decide_True (P := form_met r true)) in Hdue, Hb by done. pose proof (gg_scopes _ _ _ _ _ _ _ _ _ _ _ Hg) as Hlen.
  pose proof (due_nonneg (scopes_of c) (snd (front P)) rest) as Hdn. pose proof (elements_nonneg f m tables unknown kids child) as Hen.
  pose proof (scope_nonneg m (tables child) (heads kids)) as Hsn. set (D := snd (front P)) in *. destruct (Hkv eq_refl) as [Hw Hbytes]. destruct (Htables child Hreach) as [Hty Hok].
  fold start in Hst0, Hst1, Hbytes. assert (sf_end frame = start + zlen value) as Eend by (cbn; apply usize_small; lia).
  destruct (report_scope_spec f decode Hdec m tables frame Hty Hok kids value Hw fuel data) with (c := c3) as (c4 & -> & Hc4);
    [intros Hn; apply Hdata in Hn; destruct value; [done|cbn [length] in *; lia]|done|done|lia|done|lia|done|cbn; unfold frame_schema; cbn; lia|].
  rewrite is_ok_OK. cbn [negb]. unfold frame_schema in Hc4. cbn [frame sf_schema] in Hc4. pose proof (counted_count _ _ _ Hc4) as Hcc. cbn [c3 c_report] in Hcc.
  assert (c.(c_report).(rp_count) <= c2.(c_report).(rp_count)) as Hle2 by (rewrite Hcount; destruct (decide (length_met _ _)); lia).
  assert (scopes_of c4 = <[S (length D) := child]> (scopes_of c)) as Esc.
  { destruct (scopes_counted _ _ _ Hc4) as [-> _]. unfold scopes_of, c3. cbn [c_frames]. rewrite list_fmap_insert. change (sf_schema <$> c_frames c2) with (scopes_of c2). rewrite Hsc.
    replace (Z.to_nat (zlen D + 1)) with (S (length D)) by lia. done. }
  assert (kids = FNil \/ kids <> FNil) as [->|Hne] by (destruct kids; [now left|now right..]).
  - exists t2, (behind_element rest D), c4. split; [done|]. rewrite Esc. injection Hw as <-. cbn [heads elements_violations] in *.
    assert (stands f p m t2 (behind_element rest D)) as Hst2.
    { destruct (fst (front P)); cbn [headed] in Hh; [done|destruct Hh as (_ & _ & Hx & _); congruence|]. destruct Hh as (_ & _ & _ & -> & ->). exact Hst. }
    split; [apply going_insert; [exact (rest_going f p m tables root data size room t P _ it t2 tag [] true FNil rest t2 Hg Hft Hst2 (same_window_refl _))|]|].
    { cbn [front behind_element fst snd]. pose proof (settle_length D rest). lia. }
    split; [exact (rest_size f p m data size P it t2 tag [] true FNil rest Hft)|]. split; [lia|].
    cbn [front behind_element fst snd]. rewrite due_settle, due_insert by lia. fold D. rewrite Hdue. lia.
  - exists t2, (AtNode kids rest D), c4. split; [done|]. rewrite Esc.
    destruct (kids_going f p m tables root data size room t P _ it t2 tag value true kids rest child ltac:(lia) Hg Hft eq_refl Hne Hreach) as (Hr & Hg2 & Hps). fold D in Hr.
    split; [done|]. split; [done|]. split; [lia|]. cbn [front fst snd due length]. rewrite nth_insert_same by (unfold TLV_SCHEMA_MAX_DEPTH in *; lia).
    fold D. rewrite due_insert by lia. rewrite Hdue. lia.
Qed.

(** An element with a rule. *)
Lemma ruled_settle t P c it t2 tag value b kids rest k r dg : going t P (scopes_of c) ->
  fetched t2 (fst (front P)) (snd (front P)) it tag value b kids rest -> 0 <= c.(c_report).(rp_count) ->
  c.(c_report).(rp_count) + due (scopes_of c) (fst (front P)) (snd (front P)) <= SIZE_MAX ->
  rule_for m (tables (nth (length (snd (front P))) (scopes_of c) 0)) tag = Some (k, r) ->
  matching_rule m (tables (nth (length (snd (front P))) (scopes_of c) 0)) None (e_tag (it_element it)) = Some (Z.of_nat k, r) ->
  settled_up P c (report_item m tables fuel data (Some f) unknown it t2 c dg).
Proof using Hdec DecodeLaws0 Htables Hsize Hdata Hroom Hfuel.
  intros Hg Hft Hc0 Hcb Er Hmatch. pose proof Hft as [Hh Hd Hb _ _ Hcl Hview Hst0 Hst1 Hkv _ _ _ _ _]. pose proof Hg as [_ _ _ _ _ Hfits Hsl Hk].
  assert (zlen (snd (front P)) <= room) as Hdepth.
  { pose proof (forest_height_nonneg (fst (front P))). destruct (snd (front P)); destruct Hfits as [Hf _]; cbn [length] in *; lia. }
  pose proof Hcb as Hcb'. rewrite (due_headed _ _ _ _ _ _ _ _ Hh) in Hcb. pose proof (due_nonneg (scopes_of c) (snd (front P)) rest) as Hdn.
  set (D := snd (front P)) in *. set (a := nth (length D) (scopes_of c) 0) in *. assert (reaches tables root a) as Hreach by (now apply Hk).
  destruct (Htables a Hreach) as [_ Hok]. assert (r ∈ rules_of (tables a)) as Hr by now apply (rule_for_in m _ tag k).
  pose proof (to_rule _ _ Hok) as Hf. rewrite list.Forall_forall in Hf. destruct (Hf r Hr) as [_ _ Hkind Hcc _].
  unfold report_item. cbv zeta. cbn [with_depth c_frames c_depth c_report]. rewrite Hd, scope_at_schema, Nat2Z.id. fold (scopes_of c). fold a. rewrite Hmatch.
  assert (tlv_size_to_native (v_size (e_value (it_element it))) (Some 0) = (TLV_OK, Some (zlen value))) as ->
    by (rewrite Hview; apply size_to_native_small; lia). rewrite is_ok_OK. cbn [negb cell].
  rewrite (rule_length r a (zlen value) Hr Hreach), Hcl.
  assert (negb (bool_decide (sr_kind r = TLV_SCHEMA_PRIMITIVE) && b || bool_decide (sr_kind r = TLV_SCHEMA_CONSTRUCTED) && negb b) = bool_decide (form_met r b)) as ->.
  { apply eq_bool_prop_intro. rewrite bool_decide_spec, Is_true_true, negb_true_iff. now apply form_met_test. }
  unfold element_violations in Hcb. rewrite Er in Hcb. change (mk_collector (c_report c) (c_frames c) (zlen D)) with (with_depth (zlen D) c).
  set (below := match sr_children r with Some _ => _ | None => _ end) in Hcb.
  assert (0 <= below) as Hbn.
  { unfold below. destruct (sr_children r) as [child|]; [|lia]. destruct b; [|lia]. pose proof (scope_nonneg m (tables child) (heads kids)). pose proof (elements_nonneg f m tables unknown kids child). lia. }
  set (c1 := if negb (bool_decide (length_met _ _)) then _ else _).
  assert (counted (with_depth (zlen D) c) c1 (if decide (length_met (entry_of r) (zlen value)) then 0 else 1)) as Hc1
    by (apply issue_counted; [done|cbn; destruct (decide (length_met _ _)), (decide (form_met _ _)); lia]).
  pose proof (counted_count _ _ _ Hc1) as Hn1. destruct (scopes_counted _ _ _ Hc1) as [Hs1 Hd1]. cbn in Hn1, Hd1. change (scopes_of (with_depth _ c)) with (scopes_of c) in Hs1.
  set (c2 := if negb (bool_decide (form_met _ _)) then _ else _).
  assert (counted c1 c2 (if decide (form_met r b) then 0 else 1)) as Hc2
    by (apply issue_counted; [destruct (decide (length_met _ _)); lia|destruct (decide (length_met _ _)), (decide (form_met _ _)); lia]).
  pose proof (counted_count _ _ _ Hc2) as Hn2. destruct (scopes_counted _ _ _ Hc2) as [Hs2 Hd2].
  destruct (decide (form_met r b)) as [Hform|Hform].
  - rewrite (bool_decide_eq_true_2 (form_met r b)) by done. destruct (sr_children r) as [child|] eqn:Ech.
    + assert (b = true) as Hbt by (unfold form_met in Hform; now rewrite Hcc in Hform). rewrite Hbt in *.
      rewrite Hd2, Hd1. rewrite (proj2 (Z.eqb_neq _ _)) by lia. rewrite Hview. cbn [v_data]. rewrite pointer_offset_add by (lia || (intros Hn; apply Hdata in Hn; lia)).
      apply (kids_settle t P c it t2 tag value kids rest c2 child k r dg Hg Hft); fold D; fold a; try done; try congruence; try lia.
      * eapply rtc_r; [exact Hreach|]. now exists r.
      * destruct (decide (length_met _ _)); lia.
    + apply (skip_settles t P c it t2 tag value b kids rest _ Hg Hft); fold D; fold a.
      * exists 0%nat, 0. left. congruence.
      * unfold element_violations. rewrite Er, Ech, (decide_True (P := form_met r b)) by done. lia.
  - rewrite (bool_decide_eq_false_2 (form_met r b)) by done.
    apply (skip_settles t P c it t2 tag value b kids rest _ Hg Hft); fold D; fold a.
    + exists 0%nat, 0. left. congruence.
    + unfold element_violations. rewrite Er, (decide_False (P := form_met r b)) by done. lia.
Qed.

(** A round of the main loop. *)
Lemma report_round t P c it t2 tag value b kids rest dg : going t P (scopes_of c) ->
  fetched t2 (fst (front P)) (snd (front P)) it tag value b kids rest -> 0 <= c.(c_report).(rp_count) ->
  c.(c_report).(rp_count) + due (scopes_of c) (fst (front P)) (snd (front P)) <= SIZE_MAX ->
  settled_up P c (report_item m tables fuel data (Some f) unknown it t2 c dg).
Proof using Hdec DecodeLaws0 Htables Hsize Hdata Hroom Hfuel.
  intros Hg Hft Hc0 Hcb. pose proof Hft as [Hh Hd _ [Hto _] Htag _ _ _ _ _ _ _ _ _ _]. pose proof Hg as [_ _ _ _ _ _ _ Hk].
  set (D := snd (front P)) in *. set (a := nth (length D) (scopes_of c) 0). assert (reaches tables root a) as Hreach by (now apply Hk).
  destruct (Htables a Hreach) as [Hty Hok].
  pose proof (matching_rule_for m (tables a) (to_rules _ _ Hok) (tt_tags _ Hty) (e_tag (it_element it)) ltac:(lia)) as Hm. rewrite Htag in Hm.
  destruct (rule_for m (tables a) tag) as [[k r]|] eqn:Er; cbn [indexed] in Hm.
  { apply (ruled_settle t P c it t2 tag value b kids rest k r dg Hg Hft Hc0 Hcb Er). exact Hm. }
  pose proof (due_nonneg (scopes_of c) D rest) as Hdn. rewrite (due_headed _ _ _ _ _ _ _ _ Hh) in Hcb. unfold element_violations in Hcb. fold a in Hcb. rewrite Er in Hcb.
  unfold report_item. cbv zeta. cbn [with_depth c_frames c_depth c_report]. rewrite Hd, scope_at_schema, Nat2Z.id. fold (scopes_of c). fold D. fold a. rewrite Hm.
  fold (rejects unknown (tables a)).
  apply (skip_settles t P c it t2 tag value b kids rest _ Hg Hft); fold D; fold a.
  - exists 0%nat, 0. left. destruct (rejects _ _); [|done]. unfold scopes_of, add_issue. cbv zeta. now destruct (_ <=? _).
  - unfold element_violations. rewrite Er. destruct (rejects _ _); [|cbn; lia].
    pose proof (tally_add (with_depth (zlen D) c) TLV_SCHEMA_ISSUE_UNEXPECTED (e_tag (it_element it)) (Some (it_offset it))) as Et.
    unfold tally in Et. injection Et as Et _ _. rewrite Et. cbn. rewrite usize_small by lia. done.
Qed.

Lemma report_loop_spec n : forall t P c dg, going t P (scopes_of c) -> place_size P < Z.of_nat n -> 0 <= c.(c_report).(rp_count) ->
  c.(c_report).(rp_count) + due (scopes_of c) (fst (front P)) (snd (front P)) <= SIZE_MAX ->
  exists c', c'.(c_report).(rp_count) = c.(c_report).(rp_count) + due (scopes_of c) (fst (front P)) (snd (front P)) /\
    report_loop m tables n fuel data (Some f) unknown t c dg =
      Some (if c'.(c_report).(rp_count) =? 0 then TLV_OK else TLV_ERR_SCHEMA, c', dg).
Proof using Hdec DecodeLaws0 Hclass Htables Hsize Hdata Hroom Hfuel.
  induction n as [|n IH]; intros t P c dg Hg Hn Hc Hb; [pose proof (place_size_nonneg P); lia|]. cbn [report_loop].
  destruct (tlv_tree_reader_at_end (Some t)) eqn:Eend.
  - rewrite (place_at_end f p m t P (gg_stands _ _ _ _ _ _ _ _ _ _ _ Hg) (gg_settled _ _ _ _ _ _ _ _ _ _ _ Hg)) in Eend. exists c.
    pose proof (gg_settled _ _ _ _ _ _ _ _ _ _ _ Hg) as Hset. destruct P as [[| |] D|]; try done. destruct D; [|done]. split; [cbn; lia|].
    now destruct (_ =? 0).
  - destruct (fetch f decode Hdec p m Hclass tables root data size _ t P _ Hg Eend) as (it & t2 & tag & value & b & kids & rest & -> & Hft). rewrite is_ok_OK. cbn [negb cell].
    destruct (report_round t P c it t2 tag value b kids rest dg Hg Hft Hc Hb) as (t3 & P3 & c3 & -> & Hg3 & Hp3 & Hle & Heq).
    pose proof (due_nonneg (scopes_of c3) (snd (front P3)) (fst (front P3))).
    destruct (IH t3 P3 c3 dg Hg3 ltac:(lia) ltac:(lia) ltac:(lia)) as (c' & Hc' & ->). exists c'. split; [lia|done].
Qed.
End Loop.

(** ** The whole report *)

Section Whole.
Context `{Platform} (f : tlv_format_t) (decode : tlv_decode_fn) (Hdec : f.(f_decode) = Some decode)
  `{!DecodeLaws decode} `{!CodecLaws f} (p : list Z -> bool) (m : mem)
  (Hclass : forall tag, tag_ok tag -> is_constructed (Some f) m tag = p (tag_bytes m tag))
  (tables : Z -> tlv_structure_schema_t) (unknown : tlv_schema_unknown_policy_t)
  (root : Z) (fo : forest) (w : list Z) (data : ptr) (max_depth max_elements : Z)
  (Htables : forall a, reaches tables root a -> table_typed (tables a) /\ table_ok m (tables a))
  (Hw : forest_wire f fo = Some w) (Hcl : classified p fo = true) (Hd : data = NULL -> w = []) (Hs : zlen w <= SIZE_MAX)
  (Hb : bytes_of m data (zlen w) = w) (Hroom : forest_height fo < TLV_SCHEMA_MAX_DEPTH)
  (Hmd : forest_height fo <= max_depth <= SIZE_MAX) (Hme : forest_size fo <= max_elements <= SIZE_MAX)
  (Hv : violations f m tables unknown root fo <= SIZE_MAX).

Lemma report_checked_spec report dg : report.(rp_count) = 0 ->
  exists report' dg', report'.(rp_count) = violations f m tables unknown root fo /\
    report_checked m tables data (zlen w) (Some f) root max_depth max_elements unknown report dg =
      Some (if violations f m tables unknown root fo =? 0 then TLV_OK else TLV_ERR_SCHEMA, report', dg').
Proof using Hdec DecodeLaws0 Hclass Htables Hw Hcl Hd Hs Hb Hroom Hmd Hme Hv.
  intros H0'. unfold report_checked, validate_all. assert (forest_height fo <= TLV_SCHEMA_MAX_DEPTH) as Hroom' by lia.
  destruct (check_tree_ok f decode Hdec p m Hclass fo w data max_depth max_elements Hw Hcl Hd Hs Hb Hroom' Hmd Hme (option_map sdg_diagnostic dg)) as (base & -> & _).
  rewrite is_ok_OK. cbn [negb]. cbv zeta. cbn [c_report]. destruct (Htables root ltac:(apply rtc_refl)) as [Hty Hok].
  set (frame := mk_scope root 0 (zlen w) empty_tag 0). set (stack := <[0%nat := frame]> _). unfold violations in *.
  pose proof (scope_nonneg m (tables root) (heads fo)). pose proof (elements_nonneg f m tables unknown fo root).
  destruct (report_scope_spec f decode Hdec m tables frame Hty Hok fo w Hw (scan_fuel (zlen w)) data) with (c := mk_collector report stack 0) as (c1 & -> & Hc1);
    [done|done|done|done|cbn; now rewrite padd_0|unfold scan_fuel; lia|cbn; lia|cbn [c_report]; unfold frame_schema; cbn [frame sf_schema]; lia|].
  rewrite is_ok_OK. cbn [negb]. unfold frame_schema in Hc1. cbn [frame sf_schema] in Hc1. pose proof (counted_count _ _ _ Hc1) as Hn1. cbn [c_report] in Hn1.
  destruct (scopes_counted _ _ _ Hc1) as [Hs1 _].
  destruct (whole_cursor f decode Hdec p m fo w data max_depth max_elements Hw Hcl Hd Hs Hb Hroom' Hmd Hme) as (t & -> & Hst & Hi). rewrite is_ok_OK. cbn [negb cell].
  assert (scopes_of c1 = <[0%nat := root]> (replicate (Z.to_nat TLV_SCHEMA_MAX_DEPTH + 1) 0)) as Esc.
  { rewrite Hs1. unfold scopes_of, stack. cbn [c_frames]. rewrite list_fmap_insert. f_equal. }
  assert (0 <= zlen w <= SIZE_MAX) as Hsize by lia. assert (forest_height fo <= TLV_SCHEMA_MAX_DEPTH - 1) as Hr1 by lia.
  pose proof (whole_going f p m fo w data tables root (TLV_SCHEMA_MAX_DEPTH - 1) 0 t Hr1 Hst Hi) as Hg. rewrite <- Esc in Hg.
  destruct (report_loop_spec f decode Hdec p m Hclass tables unknown root data (zlen w) (TLV_SCHEMA_MAX_DEPTH - 1) Htables Hsize
    ltac:(intros Hn; now rewrite (Hd Hn)) ltac:(lia) (scan_fuel (zlen w)) ltac:(unfold scan_fuel; lia) (item_fuel (zlen w)) t (InScope fo []) c1 base Hg)
    as (c2 & Hn2 & ->).
  - exact (whole_fuel f decode Hdec m fo w data max_depth Hw Hd Hs Hb Hroom' Hmd).
  - lia.
  - rewrite Esc. cbn [front fst snd due length nth]. change (nth 0 (<[0%nat := root]> _) 0) with root. lia.
  - rewrite Esc in Hn2. cbn [front fst snd due length] in Hn2. change (nth 0 (<[0%nat := root]> _) 0) with root in Hn2.
    assert (c2.(c_report).(rp_count) = scope_violations m (tables root) (heads fo) + elements_violations f m tables unknown root fo) as Hn by lia.
    eexists _, _. split; [|rewrite Hn; reflexivity]. rewrite <- Hn. now destruct (_ =? 0).
Qed.
End Whole.

(** C11. A report is complete: for every wire format, accepted schema and policy for elements without a rule, and
    every forest without a path of more than TLV_DIAGNOSTIC_PATH_MAX tags, the count of the report is the number of
    violations of the forest, as a specification without a cursor counts them, with or without room to
    store them; the result is TLV_OK exactly if there are none.  Under the policy of the schema that is
    exactly conformance, which is what [tlv_schema_validate] decides.  A prepared schema reports
    the same. *)
Theorem schema_report_counts `{Platform} (f : tlv_format_t) (decode : tlv_decode_fn) (Hdec : f.(f_decode) = Some decode)
  (Hlaws : DecodeLaws decode) (Hcodec : CodecLaws f) (p : list Z -> bool) (m : mem)
  (Hclass : forall tag, tag_ok tag -> is_constructed (Some f) m tag = p (tag_bytes m tag))
  (tables : Z -> tlv_structure_schema_t) (root : Z) (unknown : tlv_schema_unknown_policy_t)
  (Htyped : forall a, reaches tables root a -> table_typed (tables a)) (Haccepted : schema_accepted m tables root)
  (fo : forest) (w : list Z) (data : ptr) (max_depth max_elements : Z)
  (report : tlv_schema_diagnostic_report_t) (dg : option tlv_schema_diagnostic_t)
  (Hw : forest_wire f fo = Some w) (Hcl : classified p fo = true) (Hd : data = NULL -> w = []) (Hs : zlen w <= SIZE_MAX)
  (Hb : bytes_of m data (zlen w) = w) (Hroom : forest_levels fo <= TLV_DIAGNOSTIC_PATH_MAX)
  (Hmd : forest_height fo <= max_depth <= SIZE_MAX) (Hme : forest_size fo <= max_elements <= SIZE_MAX)
  (Hpolicy : policy_known unknown = true) (Hstorage : report.(rp_diagnostics) = None -> report.(rp_capacity) = 0)
  (Hv : violations f m tables unknown root fo <= SIZE_MAX) :
  let rc := if violations f m tables unknown root fo =? 0 then TLV_OK else TLV_ERR_SCHEMA in
  (unknown = TLV_SCHEMA_UNKNOWN_BY_SCHEMA -> rc = TLV_OK <-> conforms f m tables root fo) /\
  (exists report' dg', report'.(rp_count) = violations f m tables unknown root fo /\
    tlv_schema_validate_all_diag m tables data (zlen w) (Some f) (Some root) max_depth max_elements unknown (Some report) dg =
      Some (rc, Some report', dg')) /\
  (exists report' dg', report'.(rp_count) = violations f m tables unknown root fo /\
    tlv_schema_validate_all_checked m tables (Some (mk_checked (Some root))) data (zlen w) (Some f) max_depth max_elements unknown (Some report) dg =
      Some (rc, Some report', dg')).
Proof.
  intros rc. assert (Hroom' : forest_height fo < TLV_SCHEMA_MAX_DEPTH) by (pose proof (forest_height_levels fo); change TLV_DIAGNOSTIC_PATH_MAX with 32 in Hroom; change TLV_SCHEMA_MAX_DEPTH with 64; lia).
  pose proof Haccepted as (found & _ & _ & Hfound).
  assert (forall a, reaches tables root a -> table_typed (tables a) /\ table_ok m (tables a)) as Htables by (intros a Ha; split; [auto|now apply Hfound]).
  pose proof (report_checked_spec f decode Hdec p m Hclass tables unknown root fo w data max_depth max_elements Htables Hw Hcl Hd Hs Hb Hroom' Hmd Hme Hv
    (with_count 0 report)) as Hrep.
  assert (bool_decide (rp_diagnostics (with_count 0 report) = None) && negb (rp_capacity (with_count 0 report) =? 0) = false) as Estore.
  { cbn. case_bool_decide as Hn; [|done]. now rewrite (Hstorage Hn). }
  split; [|split].
  - intros Hu. rewrite <- (violations_zero f m tables unknown root Hu (fun a Ha => proj2 (Htables a Ha)) fo). unfold rc.
    destruct (Z.eqb_spec (violations f m tables unknown root fo) 0); done.
  - unfold tlv_schema_validate_all_diag. cbv zeta. rewrite Estore, Hpolicy. cbn [negb].
    destruct (check_run m tables root (tlv_schema_diagnostic_init dg) Htyped) as (rc' & dg' & -> & _ & Hver & _).
    rewrite (proj2 (verdict_accepted _ _ _ _ _ Hver) Haccepted), is_ok_OK. cbn [negb].
    destruct (Hrep dg' eq_refl) as (report' & dg2 & Hn & ->). eauto.
  - unfold tlv_schema_validate_all_checked. cbv zeta. rewrite Estore, Hpolicy. cbn [negb ck_schema].
    destruct (Hrep (tlv_schema_diagnostic_init dg) eq_refl) as (report' & dg2 & Hn & ->). eauto.
Qed.

(** Two elements too many and none of the third kind, without room to store an issue. *)
Lemma schema_report_counts_witness :
  let data := Ptr 1 0 in
  let empty := mk_report None 0 7 in
  exists dg', @tlv_schema_validate_all_diag LP64 schema_memory example_tables data 8 (Some tree_example_format) (Some 1) 4 4
    TLV_SCHEMA_UNKNOWN_BY_SCHEMA (Some empty) None = Some (TLV_ERR_SCHEMA, Some (mk_report None 0 1), dg').
Proof.
  intros data empty.
  destruct (schema_report_counts (H := LP64) tree_example_format _ eq_refl tree_example_laws tree_example_codec tree_example_class schema_memory
    (tree_example_classes schema_memory) example_tables 1 TLV_SCHEMA_UNKNOWN_BY_SCHEMA (fun a _ => example_tables_typed a) schema_memory_accepted
    (FNode [33] (FElement [1] [7] (FElement [1] [8] FNil)) FNil) [33; 6; 1; 1; 7; 1; 1; 8] data 4 4 empty None eq_refl eq_refl ltac:(discriminate)
    ltac:(vm_compute; congruence) ltac:(vm_compute; reflexivity) ltac:(vm_compute; congruence) ltac:(split; vm_compute; congruence)
    ltac:(split; vm_compute; congruence) eq_refl ltac:(done) ltac:(vm_compute; congruence)) as (_ & (report' & dg' & Hn & E) & _).
  exists dg'. revert E. generalize dg'. intros x E. transitivity (Some (TLV_ERR_SCHEMA, Some report', x)); [exact E|].
  vm_compute in E. injection E as <- <-. reflexivity.
Defined.
