(* ===== verification/Document.v ===== *)
(** * Documents: the store and the nodes (src/document/document.c, document_internal.h)

    The mutable tree owns heap objects linked by pointers.  A store holds the bytes of memory, the
    live node and document objects by address, and the addresses the allocator has handed out.  An
    address is never handed out twice.  The operations are in a state monad that is undefined where the
    program is: at a dereference of an object that is not live and at a release of what was not
    allocated.  Loops run on fuel taken from the number of live nodes; to run out is undefined too, so
    that a theorem that an operation returns says that it terminates and touches live memory only. *)

From stdpp Require Export gmap.
From S2P Require Import Prelude Mem Core Format Diagnostic Reader.
Open Scope Z_scope.
#[export] Set Warnings "-clear-no-such-hyp".

(** ** Objects *)

Record tlv_document_source_location_t := mk_source_location {
  sl_offset : Z; sl_header_size : Z; sl_has_offset : bool; sl_has_header_size : bool }.
Definition no_source_location : tlv_document_source_location_t := mk_source_location 0 0 false false.

(** The tag bytes follow the object in its allocation; so does the location, when it is retained. *)
Record tlv_node_t := mk_node {
  n_identity : Z; n_document : Z;
  n_parent : option Z; n_prev : option Z; n_next : option Z; n_first : option Z; n_last : option Z;
  n_value : ptr; n_value_size : Z; n_tag_size : Z; n_constructed : bool; n_pending_erase : bool;
  n_location : tlv_document_source_location_t }.

(** Callbacks are closed over their context, which knows the sizes that were asked for before: whether
    a request is granted.  [al_release] is whether the other callback is given. *)
Record tlv_allocator_t := mk_allocator { al_allocate : option (list Z -> Z -> bool); al_release : bool }.

Record tlv_document_options_t := mk_document_options {
  do_format : option tlv_format_t; do_max_depth : Z; do_max_elements : Z;
  do_allocator : option tlv_allocator_t; do_retain : bool }.

Record tlv_document_t := mk_document {
  d_options : tlv_document_options_t; d_allocator : list Z -> Z -> bool;
  d_first : option Z; d_last : option Z; d_count : Z; d_revision : Z; d_retire_epoch : Z;
  d_query_callbacks : Z; d_query_pending : Z; d_next_identity : Z }.

(** The C library's [malloc] and the sizes of the objects. *)
Class DocumentLayout := {
  malloc : list Z -> Z -> bool;
  sizeof_node : Z; sizeof_location : Z; sizeof_document : Z; sizeof_tree_frame : Z; sizeof_builder : Z;
  sizeof_range : 0 < sizeof_node <= 1024 /\ 0 < sizeof_location <= 1024 /\ 0 < sizeof_document <= 1024 /\
                 0 < sizeof_tree_frame <= 1024 /\ 0 < sizeof_builder <= 1024 }.

(** ** The store *)

Record store := mk_store {
  st_mem : mem; st_nodes : gmap Z tlv_node_t; st_documents : gmap Z tlv_document_t; st_live : gset Z;
  st_next : Z; st_requests : list Z }.

Definition M (A : Type) : Type := store -> option (A * store).

#[export] Instance M_ret : MRet M := fun A x s => Some (x, s).
#[export] Instance M_bind : MBind M := fun A B k e s =>
  match e s with Some (x, s) => k x s | None => None end.

Definition undefined {A} : M A := fun _ => None.
Definition with_nodes (N : gmap Z tlv_node_t) (s : store) : store :=
  mk_store s.(st_mem) N s.(st_documents) s.(st_live) s.(st_next) s.(st_requests).
Definition with_documents (D : gmap Z tlv_document_t) (s : store) : store :=
  mk_store s.(st_mem) s.(st_nodes) D s.(st_live) s.(st_next) s.(st_requests).
Definition with_memory (m : mem) (s : store) : store :=
  mk_store m s.(st_nodes) s.(st_documents) s.(st_live) s.(st_next) s.(st_requests).

Definition memory : M mem := fun s => Some (s.(st_mem), s).
Definition put_memory (m : mem) : M unit := fun s => Some (tt, with_memory m s).

(** [*p] and an assignment to a member of [*p]. *)
Definition node_at (p : Z) : M tlv_node_t := fun s =>
  match s.(st_nodes) !! p with Some n => Some (n, s) | None => None end.
Definition update_node (p : Z) (f : tlv_node_t -> tlv_node_t) : M unit := fun s =>
  match s.(st_nodes) !! p with
  | Some _ => Some (tt, with_nodes (alter f p s.(st_nodes)) s)
  | None => None
  end.
Definition document_at (d : Z) : M tlv_document_t := fun s =>
  match s.(st_documents) !! d with Some doc => Some (doc, s) | None => None end.
Definition update_document (d : Z) (f : tlv_document_t -> tlv_document_t) : M unit := fun s =>
  match s.(st_documents) !! d with
  | Some _ => Some (tt, with_documents (alter f d s.(st_documents)) s)
  | None => None
  end.

(** More rounds than a walk over the live nodes, twice each, can take. *)
Definition walk_fuel : M nat := fun s => Some (S (S (2 * size s.(st_nodes))), s).

(** The allocator's two functions: a granted block has a new address. *)
Definition allocate (grants : list Z -> Z -> bool) (n : Z) : M (option Z) := fun s =>
  let requests := n :: s.(st_requests) in
  if grants s.(st_requests) n
  then Some (Some s.(st_next),
             mk_store s.(st_mem) s.(st_nodes) s.(st_documents) ({[s.(st_next)]} ∪ s.(st_live)) (s.(st_next) + 1) requests)
  else Some (None, mk_store s.(st_mem) s.(st_nodes) s.(st_documents) s.(st_live) s.(st_next) requests).

(** What lived at the address is gone. *)
Definition release (b : Z) : M unit := fun s =>
  if bool_decide (b ∈ s.(st_live))
  then Some (tt, mk_store s.(st_mem) (delete b s.(st_nodes)) (delete b s.(st_documents)) (s.(st_live) ∖ {[b]})
                   s.(st_next) s.(st_requests))
  else None.

(** The allocated object becomes a node. *)
Definition new_node (p : Z) (n : tlv_node_t) : M unit := fun s => Some (tt, with_nodes (<[p := n]> s.(st_nodes)) s).

Definition new_document (b : Z) (d : tlv_document_t) : M unit := fun s =>
  Some (tt, with_documents (<[b := d]> s.(st_documents)) s).

(** An object of automatic storage. *)
Definition new_local (n : tlv_node_t) : M Z := fun s =>
  Some (s.(st_next), mk_store s.(st_mem) (<[s.(st_next) := n]> s.(st_nodes)) s.(st_documents) s.(st_live)
                       (s.(st_next) + 1) s.(st_requests)).
Definition end_local (p : Z) : M unit := fun s => Some (tt, with_nodes (delete p s.(st_nodes)) s).

(** ** Members *)

Definition with_parent (v : option Z) (n : tlv_node_t) : tlv_node_t :=
  mk_node n.(n_identity) n.(n_document) v n.(n_prev) n.(n_next) n.(n_first) n.(n_last) n.(n_value) n.(n_value_size)
    n.(n_tag_size) n.(n_constructed) n.(n_pending_erase) n.(n_location).
Definition with_prev (v : option Z) (n : tlv_node_t) : tlv_node_t :=
  mk_node n.(n_identity) n.(n_document) n.(n_parent) v n.(n_next) n.(n_first) n.(n_last) n.(n_value) n.(n_value_size)
    n.(n_tag_size) n.(n_constructed) n.(n_pending_erase) n.(n_location).
Definition with_next (v : option Z) (n : tlv_node_t) : tlv_node_t :=
  mk_node n.(n_identity) n.(n_document) n.(n_parent) n.(n_prev) v n.(n_first) n.(n_last) n.(n_value) n.(n_value_size)
    n.(n_tag_size) n.(n_constructed) n.(n_pending_erase) n.(n_location).
Definition with_first (v : option Z) (n : tlv_node_t) : tlv_node_t :=
  mk_node n.(n_identity) n.(n_document) n.(n_parent) n.(n_prev) n.(n_next) v n.(n_last) n.(n_value) n.(n_value_size)
    n.(n_tag_size) n.(n_constructed) n.(n_pending_erase) n.(n_location).
Definition with_last (v : option Z) (n : tlv_node_t) : tlv_node_t :=
  mk_node n.(n_identity) n.(n_document) n.(n_parent) n.(n_prev) n.(n_next) n.(n_first) v n.(n_value) n.(n_value_size)
    n.(n_tag_size) n.(n_constructed) n.(n_pending_erase) n.(n_location).
Definition with_node_value (p : ptr) (size : Z) (n : tlv_node_t) : tlv_node_t :=
  mk_node n.(n_identity) n.(n_document) n.(n_parent) n.(n_prev) n.(n_next) n.(n_first) n.(n_last) p size
    n.(n_tag_size) n.(n_constructed) n.(n_pending_erase) n.(n_location).
Definition with_pending_erase (n : tlv_node_t) : tlv_node_t :=
  mk_node n.(n_identity) n.(n_document) n.(n_parent) n.(n_prev) n.(n_next) n.(n_first) n.(n_last) n.(n_value)
    n.(n_value_size) n.(n_tag_size) n.(n_constructed) true n.(n_location).
Definition with_source_location (l : tlv_document_source_location_t) (n : tlv_node_t) : tlv_node_t :=
  mk_node n.(n_identity) n.(n_document) n.(n_parent) n.(n_prev) n.(n_next) n.(n_first) n.(n_last) n.(n_value)
    n.(n_value_size) n.(n_tag_size) n.(n_constructed) n.(n_pending_erase) l.

Definition with_d_first (v : option Z) (d : tlv_document_t) : tlv_document_t :=
  mk_document d.(d_options) d.(d_allocator) v d.(d_last) d.(d_count) d.(d_revision) d.(d_retire_epoch)
    d.(d_query_callbacks) d.(d_query_pending) d.(d_next_identity).
Definition with_d_last (v : option Z) (d : tlv_document_t) : tlv_document_t :=
  mk_document d.(d_options) d.(d_allocator) d.(d_first) v d.(d_count) d.(d_revision) d.(d_retire_epoch)
    d.(d_query_callbacks) d.(d_query_pending) d.(d_next_identity).
Definition with_d_count (v : Z) (d : tlv_document_t) : tlv_document_t :=
  mk_document d.(d_options) d.(d_allocator) d.(d_first) d.(d_last) v d.(d_revision) d.(d_retire_epoch)
    d.(d_query_callbacks) d.(d_query_pending) d.(d_next_identity).
(** [++revision], and [++retire_epoch] when nodes were retired. *)
Definition revised (retired : bool) (d : tlv_document_t) : tlv_document_t :=
  mk_document d.(d_options) d.(d_allocator) d.(d_first) d.(d_last) d.(d_count) (u64 (d.(d_revision) + 1))
    (if retired then u64 (d.(d_retire_epoch) + 1) else d.(d_retire_epoch))
    d.(d_query_callbacks) d.(d_query_pending) d.(d_next_identity).
Definition with_query (callbacks pending : Z) (d : tlv_document_t) : tlv_document_t :=
  mk_document d.(d_options) d.(d_allocator) d.(d_first) d.(d_last) d.(d_count) d.(d_revision) d.(d_retire_epoch)
    callbacks pending d.(d_next_identity).
Definition with_next_identity (v : Z) (d : tlv_document_t) : tlv_document_t :=
  mk_document d.(d_options) d.(d_allocator) d.(d_first) d.(d_last) d.(d_count) d.(d_revision) d.(d_retire_epoch)
    d.(d_query_callbacks) d.(d_query_pending) v.

Section Operations.
Context `{Platform} `{DocumentLayout}.

(** ** Memory *)

Definition document_memory_allocate (document size : Z) : M (option Z) :=
  d ← document_at document; allocate d.(d_allocator) size.

Definition document_memory_release (document : Z) (memory : ptr) : M unit :=
  match memory with
  | NULL => mret tt
  | Ptr b o => _ ← document_at document; if o =? 0 then release b else undefined
  end.

(** ** Nodes *)

Definition node_tag_data (node : Z) : M ptr :=
  n ← node_at node;
  d ← document_at n.(n_document);
  mret (Ptr node (sizeof_node + (if d.(d_options).(do_retain) then sizeof_location else 0))).

(** The location as an lvalue: whether it exists. *)
Definition document_node_location (node : option Z) : M (option Z) :=
  match node with
  | None => mret None
  | Some p => n ← node_at p; d ← document_at n.(n_document); mret (if d.(d_options).(do_retain) then Some p else None)
  end.

Definition tlv_node_source_location (node : option Z) : M tlv_document_source_location_t :=
  match node with
  | None => mret no_source_location
  | Some p =>
      n ← node_at p;
      d ← document_at n.(n_document);
      mret (if d.(d_options).(do_retain) then n.(n_location) else no_source_location)
  end.

Fixpoint invalidate_loop (fuel : nat) (node : option Z) : M unit :=
  match fuel, node with
  | O, _ => undefined
  | S fuel, None => mret tt
  | S fuel, Some p =>
      location ← document_node_location (Some p);
      _ ← (match location with Some p => update_node p (with_source_location no_source_location) | None => undefined end);
      n ← node_at p;
      invalidate_loop fuel n.(n_parent)
  end.

Definition invalidate_locations (node : option Z) : M unit :=
  match node with
  | None => mret tt
  | Some p =>
      n ← node_at p;
      d ← document_at n.(n_document);
      if d.(d_options).(do_retain) then fuel ← walk_fuel; invalidate_loop fuel node else mret tt
  end.

Definition document_node_tag (node : Z) : M tlv_tag_t :=
  n ← node_at node;
  if negb (n.(n_tag_size) =? 0) then data ← node_tag_data node; mret (mk_tag data n.(n_tag_size))
  else mret (mk_tag NULL 0).

(** The cells [*list_first(document, parent)] and [*list_last(document, parent)]. *)
Definition list_first (document : Z) (parent : option Z) : M (option Z) :=
  match parent with
  | Some p => n ← node_at p; mret n.(n_first)
  | None => d ← document_at document; mret d.(d_first)
  end.
Definition list_last (document : Z) (parent : option Z) : M (option Z) :=
  match parent with
  | Some p => n ← node_at p; mret n.(n_last)
  | None => d ← document_at document; mret d.(d_last)
  end.
Definition set_list_first (document : Z) (parent v : option Z) : M unit :=
  match parent with
  | Some p => update_node p (with_first v)
  | None => update_document document (with_d_first v)
  end.
Definition set_list_last (document : Z) (parent v : option Z) : M unit :=
  match parent with
  | Some p => update_node p (with_last v)
  | None => update_document document (with_d_last v)
  end.

Definition node_link (document : Z) (parent before : option Z) (node : Z) : M unit :=
  _ ← update_node node (with_parent parent);
  match before with
  | Some b =>
      _ ← update_node node (with_next (Some b));
      nb ← node_at b;
      _ ← update_node node (with_prev nb.(n_prev));
      _ ← (match nb.(n_prev) with
           | Some p => update_node p (with_next (Some node))
           | None => set_list_first document parent (Some node)
           end);
      update_node b (with_prev (Some node))
  | None =>
      last ← list_last document parent;
      _ ← update_node node (with_prev last);
      _ ← update_node node (with_next None);
      _ ← (match last with
           | Some p => update_node p (with_next (Some node))
           | None => set_list_first document parent (Some node)
           end);
      set_list_last document parent (Some node)
  end.

Definition node_unlink (node : Z) : M unit :=
  n ← node_at node;
  _ ← (match n.(n_prev) with
       | Some p => update_node p (with_next n.(n_next))
       | None => set_list_first n.(n_document) n.(n_parent) n.(n_next)
       end);
  _ ← (match n.(n_next) with
       | Some p => update_node p (with_prev n.(n_prev))
       | None => set_list_last n.(n_document) n.(n_parent) n.(n_prev)
       end);
  _ ← update_node node (with_next None);
  _ ← update_node node (with_prev None);
  update_node node (with_parent None).

(** [while (node != root && !node->next) node = node->parent]. *)
Fixpoint climb (fuel : nat) (node root : Z) : M Z :=
  match fuel with
  | O => undefined
  | S fuel =>
      if node =? root then mret node
      else
        n ← node_at node;
        match n.(n_next), n.(n_parent) with
        | Some _, _ => mret node
        | None, Some p => climb fuel p root
        | None, None => undefined
        end
  end.

Definition subtree_next (node root : Z) : M (option Z) :=
  n ← node_at node;
  match n.(n_first) with
  | Some first => mret (Some first)
  | None =>
      fuel ← walk_fuel;
      node ← climb fuel node root;
      if node =? root then mret None else n ← node_at node; mret n.(n_next)
  end.

Fixpoint size_loop (fuel : nat) (root : Z) (current : option Z) (total : Z) : M Z :=
  match fuel, current with
  | O, _ => undefined
  | S fuel, None => mret total
  | S fuel, Some node => next ← subtree_next node root; size_loop fuel root next (usize (total + 1))
  end.
Definition subtree_size (node : Z) : M Z := fuel ← walk_fuel; size_loop fuel node (Some node) 0.

Fixpoint free_loop (fuel : nat) (root : Z) (node : option Z) : M unit :=
  match fuel, node with
  | O, _ => undefined
  | S fuel, None => mret tt
  | S fuel, Some p =>
      n ← node_at p;
      match n.(n_first) with
      | Some first => free_loop fuel root (Some first)
      | None =>
          let parent := if p =? root then None else n.(n_parent) in
          _ ← (match parent with Some q => update_node q (with_first n.(n_next)) | None => mret tt end);
          _ ← document_memory_release n.(n_document) n.(n_value);
          _ ← document_memory_release n.(n_document) (Ptr p 0);
          free_loop fuel root parent
      end
  end.
Definition free_subtree (root : Z) : M unit := fuel ← walk_fuel; free_loop fuel root (Some root).

Fixpoint free_children_loop (fuel : nat) (child : option Z) : M unit :=
  match fuel, child with
  | O, _ => undefined
  | S fuel, None => mret tt
  | S fuel, Some c => n ← node_at c; _ ← free_subtree c; free_children_loop fuel n.(n_next)
  end.
Definition free_children (node : Z) : M unit :=
  n ← node_at node;
  fuel ← walk_fuel;
  _ ← free_children_loop fuel n.(n_first);
  _ ← update_node node (with_last None);
  update_node node (with_first None).

Fixpoint discard_loop (fuel : nat) (document : Z) (child : option Z) : M unit :=
  match fuel, child with
  | O, _ => undefined
  | S fuel, None => mret tt
  | S fuel, Some c =>
      n ← node_at c;
      count ← subtree_size c;
      _ ← update_document document (fun d => with_d_count (usize (d.(d_count) - count)) d);
      _ ← free_subtree c;
      discard_loop fuel document n.(n_next)
  end.
Definition discard_children (document : Z) (parent : option Z) : M unit :=
  first ← list_first document parent;
  fuel ← walk_fuel;
  _ ← discard_loop fuel document first;
  _ ← set_list_last document parent None;
  set_list_first document parent None.

Fixpoint depth_loop (fuel : nat) (node depth : Z) : M Z :=
  match fuel with
  | O => undefined
  | S fuel =>
      n ← node_at node;
      match n.(n_parent) with Some p => depth_loop fuel p (usize (depth + 1)) | None => mret depth end
  end.
Definition node_depth (node : Z) : M Z := fuel ← walk_fuel; depth_loop fuel node 0.

Definition copy_bytes (document : Z) (data : ptr) (size : Z) : M ptr :=
  if size =? 0 then mret NULL
  else
    copy ← document_memory_allocate document size;
    match copy with
    | None => mret NULL
    | Some b => m ← memory; _ ← put_memory (memcpy m (Ptr b 0) data size); mret (Ptr b 0)
    end.

(** ** Creation *)

Definition document_set_offset (out : option tlv_reader_diagnostic_t) (offset : Z) : option tlv_reader_diagnostic_t :=
  match out with
  | None => None
  | Some _ =>
      let d := mk_diagnostic TLV_ERR_LIMIT zero_diagnostic.(dg_severity) zero_diagnostic.(dg_location) None None
                 no_context false no_path in
      let d := cell d (tlv_diagnostic_set_location (Some d) TLV_LOCATION_INPUT TLV_LOCATION_POINT offset offset) in
      Some (mk_reader_diagnostic d (zero_detail TLV_READER_OP_TAG))
  end.

(** Out-parameters: the diagnostic and the node. *)
Definition document_create_node (document : Z) (parent : option Z) (tag : tlv_tag_t) (value : ptr) (length : Z)
  (constructed : bool) (depth element_offset : Z) (diagnostic : option tlv_reader_diagnostic_t)
  : M (tlv_result_t * option tlv_reader_diagnostic_t * option Z) :=
  d ← document_at document;
  if (d.(d_options).(do_max_depth) <? depth) || (d.(d_options).(do_max_elements) <=? d.(d_count)) then
    mret (TLV_ERR_LIMIT, document_set_offset diagnostic element_offset, None)
  else
    let node_size := sizeof_node + (if d.(d_options).(do_retain) then sizeof_location else 0) in
    if SIZE_MAX - node_size <? tag.(t_size) then mret (TLV_ERR_OUT_OF_MEMORY, diagnostic, None)
    else if d.(d_next_identity) =? UINT64_MAX then mret (TLV_ERR_OVERFLOW, diagnostic, None)
    else
      node ← document_memory_allocate document (node_size + tag.(t_size));
      match node with
      | None => mret (TLV_ERR_OUT_OF_MEMORY, diagnostic, None)
      | Some node =>
          let identity := u64 (d.(d_next_identity) + 1) in
          _ ← update_document document (with_next_identity identity);
          m ← memory;
          _ ← put_memory (if negb (tag.(t_size) =? 0) then memcpy m (Ptr node node_size) tag.(t_data) tag.(t_size) else m);
          _ ← new_node node (mk_node identity document None None None None None NULL 0 tag.(t_size) constructed false
                               no_source_location);
          copied ← (if negb constructed && negb (length =? 0) then
                      copy ← copy_bytes document value length;
                      if is_null copy then _ ← document_memory_release document (Ptr node 0); mret false
                      else _ ← update_node node (with_node_value copy length); mret true
                    else mret true);
          if negb copied then mret (TLV_ERR_OUT_OF_MEMORY, diagnostic, None)
          else
            _ ← node_link document parent None node;
            _ ← update_document document (fun d => with_d_count (usize (d.(d_count) + 1)) d);
            mret (TLV_OK, diagnostic, Some node)
      end.

(** ** Lifecycle *)

Definition TLV_TREE_DEFAULT_DEPTH : Z := 64.
Definition TLV_DOCUMENT_DEFAULT_MAX_ELEMENTS : Z := 65536.

Definition format_usable (format : option tlv_format_t) : bool := is_some format.

Definition tlv_document_options_init (options : option tlv_document_options_t) (format : option tlv_format_t)
  : tlv_result_t * option tlv_document_options_t :=
  match options with
  | None => (TLV_ERR_NULL_ARG, None)
  | Some _ =>
      if negb (format_usable format) then (TLV_ERR_NULL_ARG, options)
      else (TLV_OK, Some (mk_document_options format TLV_TREE_DEFAULT_DEPTH TLV_DOCUMENT_DEFAULT_MAX_ELEMENTS None false))
  end.

(** [*document] starts as NULL. *)
Definition tlv_document_create (options : option tlv_document_options_t) : M (tlv_result_t * option Z) :=
  match options with
  | None => mret (TLV_ERR_NULL_ARG, None)
  | Some o =>
      if negb (format_usable o.(do_format)) then mret (TLV_ERR_NULL_ARG, None)
      else
        match (match o.(do_allocator) with
               | Some a => if a.(al_release) then a.(al_allocate) else None
               | None => Some malloc
               end) with
        | None => mret (TLV_ERR_NULL_ARG, None)
        | Some grants =>
            created ← allocate grants sizeof_document;
            match created with
            | None => mret (TLV_ERR_OUT_OF_MEMORY, None)
            | Some b =>
                _ ← new_document b
                  (mk_document
                     (mk_document_options o.(do_format) o.(do_max_depth) o.(do_max_elements) None o.(do_retain))
                     grants None None 0 0 0 0 0 0);
                mret (TLV_OK, Some b)
            end
        end
  end.

Definition tlv_document_free (document : option Z) : M unit :=
  match document with
  | None => mret tt
  | Some b =>
      d ← document_at b;
      if negb (d.(d_query_callbacks) =? 0) then update_document b (with_query d.(d_query_callbacks) 2)
      else _ ← discard_children b None; document_memory_release b (Ptr b 0)
  end.

Definition tlv_document_count (document : option Z) : M Z :=
  match document with Some b => d ← document_at b; mret d.(d_count) | None => mret 0 end.

(** ** Navigation *)

Definition tlv_document_first (document : option Z) : M (option Z) :=
  match document with Some b => d ← document_at b; mret d.(d_first) | None => mret None end.
Definition tlv_node_first_child (node : option Z) : M (option Z) :=
  match node with Some p => n ← node_at p; mret n.(n_first) | None => mret None end.
Definition tlv_node_next (node : option Z) : M (option Z) :=
  match node with Some p => n ← node_at p; mret n.(n_next) | None => mret None end.
Definition tlv_node_parent (node : option Z) : M (option Z) :=
  match node with Some p => n ← node_at p; mret n.(n_parent) | None => mret None end.

Fixpoint find_loop (fuel : nat) (node : option Z) (tag : tlv_tag_t) : M (option Z) :=
  match fuel, node with
  | O, _ => undefined
  | S fuel, None => mret None
  | S fuel, Some p =>
      t ← document_node_tag p;
      m ← memory;
      if tlv_tag_equal m t tag then mret (Some p) else n ← node_at p; find_loop fuel n.(n_next) tag
  end.
Definition find_in_siblings (node : option Z) (tag : tlv_tag_t) : M (option Z) :=
  fuel ← walk_fuel; find_loop fuel node tag.

Definition tag_valid (tag : tlv_tag_t) : bool := negb (is_null tag.(t_data)) || (tag.(t_size) =? 0).

Definition tlv_document_find (document parent : option Z) (tag : tlv_tag_t) : M (option Z) :=
  if negb (tag_valid tag) then mret None
  else
    match parent, document with
    | Some p, _ => n ← node_at p; find_in_siblings n.(n_first) tag
    | None, Some b => d ← document_at b; find_in_siblings d.(d_first) tag
    | None, None => mret None
    end.

Definition tlv_node_next_same_tag (node : option Z) : M (option Z) :=
  match node with
  | Some p => tag ← document_node_tag p; n ← node_at p; find_in_siblings n.(n_next) tag
  | None => mret None
  end.

Definition tlv_node_tag (node : option Z) : M tlv_tag_t :=
  match node with Some p => document_node_tag p | None => mret (mk_tag NULL 0) end.
Definition tlv_node_is_constructed (node : option Z) : M bool :=
  match node with Some p => n ← node_at p; mret n.(n_constructed) | None => mret false end.
Definition tlv_node_value_data (node : option Z) : M ptr :=
  match node with Some p => n ← node_at p; mret n.(n_value) | None => mret NULL end.
Definition tlv_node_value_size (node : option Z) : M Z :=
  match node with Some p => n ← node_at p; mret n.(n_value_size) | None => mret 0 end.

(** ** Identities and counters *)

(** [while (node->parent && !node->next) node = node->parent; node = node->next]. *)
Fixpoint preorder_up (fuel : nat) (node : Z) : M (option Z) :=
  match fuel with
  | O => undefined
  | S fuel =>
      n ← node_at node;
      match n.(n_next), n.(n_parent) with
      | None, Some p => preorder_up fuel p
      | next, _ => mret next
      end
  end.

Fixpoint identity_loop (fuel : nat) (node : option Z) (wanted : Z) : M Z :=
  match fuel, node with
  | O, _ => undefined
  | S fuel, None => mret 0
  | S fuel, Some p =>
      n ← node_at p;
      if p =? wanted then mret n.(n_identity)
      else
        match n.(n_first) with
        | Some first => identity_loop fuel (Some first) wanted
        | None => up ← walk_fuel; next ← preorder_up up p; identity_loop fuel next wanted
        end
  end.

(** [wanted] is never dereferenced unless the walk finds it. *)
Definition tlv_document_node_identity (document wanted : option Z) : M Z :=
  match document, wanted with
  | Some b, Some w => d ← document_at b; fuel ← walk_fuel; identity_loop fuel d.(d_first) w
  | _, _ => mret 0
  end.

Definition tlv_node_identity (node : option Z) : M Z :=
  match node with Some p => n ← node_at p; mret n.(n_identity) | None => mret 0 end.
Definition tlv_document_revision (document : option Z) : M Z :=
  match document with Some b => d ← document_at b; mret d.(d_revision) | None => mret 0 end.
Definition tlv_document_retire_epoch (document : option Z) : M Z :=
  match document with Some b => d ← document_at b; mret d.(d_retire_epoch) | None => mret 0 end.
End Operations.
