(* ===== verification/DocumentReader.v ===== *)
(** * Documents: building from a tree Reader (src/document/reader.c)

    The builder appends the nodes of an event stream below a container; a BEGIN makes its node the
    container, an END goes back to the parent.  The cursor the builder borrows is passed and returned. *)

From S2P Require Import Prelude Mem Core Format Diagnostic Reader TreeReader Document.

(** The builder without the pointers to its document, its allocator and its cursor. *)
Record tlv_document_builder_t := mk_builder {
  b_document : option Z; b_container : option Z; b_subtree_done : bool; b_source_depth : Z; b_target_depth : Z;
  b_base : Z; b_subtree : bool; b_retain : bool }.

Definition with_container (c : option Z) (b : tlv_document_builder_t) : tlv_document_builder_t :=
  mk_builder b.(b_document) c b.(b_subtree_done) b.(b_source_depth) b.(b_target_depth) b.(b_base) b.(b_subtree) b.(b_retain).
Definition with_subtree_done (b : tlv_document_builder_t) : tlv_document_builder_t :=
  mk_builder b.(b_document) b.(b_container) true b.(b_source_depth) b.(b_target_depth) b.(b_base) b.(b_subtree) b.(b_retain).
Definition with_document (d : option Z) (b : tlv_document_builder_t) : tlv_document_builder_t :=
  mk_builder d b.(b_container) b.(b_subtree_done) b.(b_source_depth) b.(b_target_depth) b.(b_base) b.(b_subtree) b.(b_retain).

Section Operations.
Context `{Platform} `{DocumentLayout}.

(** The diagnostic of a failed append: at the item, in the coordinates of the whole input. *)
Definition append_diagnostic (rc : tlv_result_t) (offset base : Z) (diagnostic : option tlv_reader_diagnostic_t)
  : option tlv_reader_diagnostic_t :=
  match diagnostic with
  | None => None
  | Some _ =>
      let d := mk_diagnostic rc zero_diagnostic.(dg_severity) zero_diagnostic.(dg_location) None None no_context false no_path in
      let d := cell d (tlv_diagnostic_set_location (Some d) TLV_LOCATION_INPUT TLV_LOCATION_POINT offset offset) in
      let l := cell no_location (tlv_location_translate (Some d.(dg_location)) base) in
      Some (mk_reader_diagnostic (with_location l d) (zero_detail TLV_READER_OP_TAG))
  end.

(** Where an element came from. *)
Definition item_location (item : tlv_tree_item_t) : tlv_document_source_location_t :=
  let s := item.(it_source) in
  let h := s.(s_header) in
  let known := h.(r_present) && (h.(r_offset) <=? s.(s_size)) && (h.(r_size) <=? s.(s_size) - h.(r_offset)) in
  mk_source_location item.(it_offset) (if known then h.(r_size) else 0) true known.

Definition append_item (document : Z) (builder : tlv_document_builder_t) (item : tlv_tree_item_t)
  (diagnostic : option tlv_reader_diagnostic_t)
  : M (tlv_result_t * tlv_document_builder_t * option tlv_reader_diagnostic_t) :=
  if item.(it_depth) <? builder.(b_source_depth) then mret (TLV_ERR_INVALID_VALUE, builder, diagnostic)
  else
    let depth := item.(it_depth) - builder.(b_source_depth) in
    if SIZE_MAX - builder.(b_target_depth) <? depth then mret (TLV_ERR_OVERFLOW, builder, diagnostic)
    else
      let '(rc, length) := tlv_size_to_native item.(it_element).(e_value).(v_size) (Some 0) in
      '(rc, diagnostic, created) ←
        (if is_ok rc
         then document_create_node document builder.(b_container) item.(it_element).(e_tag)
                item.(it_element).(e_value).(v_data) (cell 0 length) item.(it_constructed)
                (builder.(b_target_depth) + depth) (usize (builder.(b_base) + item.(it_offset))) diagnostic
         else mret (rc, diagnostic, None));
      match created with
      | Some node =>
          if is_ok rc then
            _ ← (if builder.(b_retain) && negb (is_null item.(it_source).(s_data))
                 then
                   location ← document_node_location (Some node);
                   match location with
                   | Some p => update_node p (with_source_location (item_location item))
                   | None => undefined
                   end
                 else mret tt);
            mret (rc, (if item.(it_constructed) then with_container (Some node) builder else builder), diagnostic)
          else mret (rc, builder, append_diagnostic rc item.(it_offset) builder.(b_base) diagnostic)
      | None => mret (rc, builder, append_diagnostic rc item.(it_offset) builder.(b_base) diagnostic)
      end.

(** A diagnostic of the cursor in the coordinates of the whole input. *)
Definition rebase (rc : tlv_result_t) (base : Z) (diagnostic : option tlv_reader_diagnostic_t)
  : option tlv_reader_diagnostic_t :=
  match diagnostic with
  | None => None
  | Some d =>
      let g := d.(rdg_diagnostic) in
      let l := cell no_location (tlv_location_translate (Some g.(dg_location)) base) in
      Some (mk_reader_diagnostic
              (mk_diagnostic rc g.(dg_severity) l g.(dg_expected) g.(dg_actual) g.(dg_contexts) g.(dg_has_path) g.(dg_path))
              d.(rdg_detail))
  end.

Definition consume_result : Type :=
  tlv_result_t * tlv_document_builder_t * tlv_tree_reader_t * option tlv_reader_diagnostic_t.

Fixpoint consume_loop (fuel : nat) (document : Z) (builder : tlv_document_builder_t) (reader : tlv_tree_reader_t)
  (diagnostic : option tlv_reader_diagnostic_t) : M consume_result :=
  match fuel with
  | O => undefined
  | S fuel =>
      if (if builder.(b_subtree) then builder.(b_subtree_done) else tlv_tree_reader_at_end (Some reader))
      then mret (TLV_OK, builder, reader, diagnostic)
      else
        m ← memory;
        let '(rc, next, event, diagnostic) :=
          tlv_tree_reader_next_event_diag m (Some reader) (Some no_event) diagnostic in
        let reader := cell reader next in
        let event := cell no_event event in
        if negb (is_ok rc) then mret (rc, builder, reader, rebase rc builder.(b_base) diagnostic)
        else if bool_decide (event.(ev_kind) = TLV_TREE_END) then
          match builder.(b_container) with
          | Some container =>
              if event.(ev_skipped) then mret (TLV_ERR_INVALID_VALUE, builder, reader, diagnostic)
              else
                n ← node_at container;
                let builder := with_container n.(n_parent) builder in
                let builder :=
                  if builder.(b_subtree) && (event.(ev_depth) =? builder.(b_source_depth))
                  then with_subtree_done builder else builder in
                consume_loop fuel document builder reader diagnostic
          | None => mret (TLV_ERR_INVALID_VALUE, builder, reader, diagnostic)
          end
        else
          let item := mk_item event.(ev_element) event.(ev_source) event.(ev_depth) event.(ev_offset)
                        (bool_decide (event.(ev_kind) = TLV_TREE_BEGIN)) in
          '(rc, builder, diagnostic) ← append_item document builder item diagnostic;
          if negb (is_ok rc) then mret (rc, builder, reader, diagnostic)
          else consume_loop fuel document builder reader diagnostic
  end.

(** More rounds than the cursor has events. *)
Definition consume_tree (document : Z) (builder : tlv_document_builder_t) (reader : tlv_tree_reader_t)
  (diagnostic : option tlv_reader_diagnostic_t) : M consume_result :=
  consume_loop (Z.to_nat (2 * (reader.(tr_max_elements) - reader.(tr_count)) + reader.(tr_depth)) + 3)
    document builder reader diagnostic.

Definition no_tree_reader : tlv_tree_reader_t :=
  mk_tree (mk_reader None NULL 0 0 0 0) None 0 0 0 0 0 no_frame false false false false.

Definition document_parse_list (document : Z) (parent : option Z) (data : ptr) (size depth base : Z)
  (diagnostic : option tlv_reader_diagnostic_t) : M (tlv_result_t * option tlv_reader_diagnostic_t) :=
  d ← document_at document;
  let max_depth := d.(d_options).(do_max_depth) in
  let max_elements := d.(d_options).(do_max_elements) in
  if negb (size =? 0) && (max_depth <? depth) then mret (TLV_ERR_LIMIT, document_set_offset diagnostic base)
  else
    let capacity := if max_depth <? depth then 0 else max_depth - depth in
    let capacity := if size <? capacity then size else capacity in
    let capacity := if usize (max_elements - d.(d_count)) <? capacity then usize (max_elements - d.(d_count)) else capacity in
    if SIZE_MAX / sizeof_tree_frame <? capacity then mret (TLV_ERR_OUT_OF_MEMORY, diagnostic)
    else
      frames ← (if negb (capacity =? 0) then document_memory_allocate document (capacity * sizeof_tree_frame) else mret None);
      if negb (capacity =? 0) && bool_decide (frames = None) then mret (TLV_ERR_OUT_OF_MEMORY, diagnostic)
      else
        let '(rc, reader) :=
          tlv_tree_reader_init (Some no_tree_reader) data size d.(d_options).(do_format)
            (match frames with Some _ => Some (replicate (Z.to_nat capacity) no_frame) | None => None end)
            capacity capacity (usize (max_elements - d.(d_count))) in
        let builder := mk_builder (Some document) parent false 0 depth base false
                         (bool_decide (parent = None) && d.(d_options).(do_retain)) in
        '(rc, diagnostic) ←
          (if is_ok rc then
             '(rc, _, _, diagnostic) ← consume_tree document builder (cell no_tree_reader reader) diagnostic;
             mret (rc, diagnostic)
           else mret (rc, diagnostic));
        _ ← document_memory_release document (match frames with Some b => Ptr b 0 | None => NULL end);
        mret (rc, diagnostic).

(** [diagnostic->diagnostic.code = rc]. *)
Definition with_reader_code (rc : tlv_result_t) (diagnostic : option tlv_reader_diagnostic_t)
  : option tlv_reader_diagnostic_t :=
  match diagnostic with
  | None => None
  | Some d =>
      let g := d.(rdg_diagnostic) in
      Some (mk_reader_diagnostic
              (mk_diagnostic rc g.(dg_severity) g.(dg_location) g.(dg_expected) g.(dg_actual) g.(dg_contexts)
                 g.(dg_has_path) g.(dg_path)) d.(rdg_detail))
  end.

(** Out-parameters: the document ([*document] starts as NULL) and the diagnostic. *)
Definition tlv_document_parse (data : ptr) (size : Z) (options : option tlv_document_options_t)
  (diagnostic : option tlv_reader_diagnostic_t) : M (tlv_result_t * option Z * option tlv_reader_diagnostic_t) :=
  if is_null data && negb (size =? 0) then mret (TLV_ERR_NULL_ARG, None, diagnostic)
  else
    let diagnostic := tlv_reader_diagnostic_init diagnostic in
    '(rc, created) ← tlv_document_create options;
    match created with
    | Some document =>
        '(rc, diagnostic) ← document_parse_list document None data size 0 0 diagnostic;
        if negb (is_ok rc) then
          _ ← tlv_document_free (Some document);
          mret (rc, None, with_reader_code rc diagnostic)
        else mret (TLV_OK, Some document, diagnostic)
    | None => mret (rc, None, with_reader_code rc diagnostic)
    end.

(** ** The resumable builder *)

(** The builder object is behind the address of its allocation; the allocator is that of the document. *)
Definition builder_handle : Type := Z * (list Z -> Z -> bool) * tlv_document_builder_t.

Definition tlv_document_builder_free (builder : option builder_handle) : M unit :=
  match builder with
  | None => mret tt
  | Some (address, _, b) => _ ← tlv_document_free b.(b_document); release address
  end.

Definition tlv_document_builder_create (options : option tlv_document_options_t) (reader : option tlv_tree_reader_t)
  (root : option tlv_tree_item_t) : M (tlv_result_t * option builder_handle) :=
  match options, reader with
  | Some o, Some r =>
      let format_of (f : option tlv_format_t) := match f with Some f => f.(f_self) | None => NULL end in
      if negb (ptr_eqb (format_of o.(do_format)) (format_of r.(tr_input).(rd_format))) then mret (TLV_ERR_INVALID_ARG, None)
      else if bool_decide (root = None) && negb (r.(tr_count) =? 0) then mret (TLV_ERR_INVALID_STATE, None)
      else if (match root with
               | Some item => negb (ptr_eqb item.(it_source).(s_format) (format_of o.(do_format))) ||
                              (item.(it_source).(s_size) =? 0) ||
                              (SIZE_MAX - item.(it_source).(s_size) <? item.(it_offset))
               | None => false
               end) then mret (TLV_ERR_INVALID_ARG, None)
      else
        '(rc, document) ← tlv_document_create options;
        match document with
        | None => mret (rc, None)
        | Some document =>
            created ← document_memory_allocate document sizeof_builder;
            match created with
            | None => _ ← tlv_document_free (Some document); mret (TLV_ERR_OUT_OF_MEMORY, None)
            | Some address =>
                d ← document_at document;
                match root with
                | None =>
                    mret (TLV_OK, Some (address, d.(d_allocator),
                                        mk_builder (Some document) None false 0 0 0 false o.(do_retain)))
                | Some item =>
                    let builder := mk_builder (Some document) None
                      (negb item.(it_constructed) || (item.(it_element).(e_value).(v_size) =? 0))
                      item.(it_depth) 0 0 true o.(do_retain) in
                    '(rc, builder, _) ← append_item document builder item None;
                    let handle := (address, d.(d_allocator), builder) in
                    if negb (is_ok rc) then _ ← tlv_document_builder_free (Some handle); mret (rc, None)
                    else mret (TLV_OK, Some handle)
                end
            end
        end
  | _, _ => mret (TLV_ERR_NULL_ARG, None)
  end.

(** Out-parameters: the builder, the cursor, the document ([*document] starts as NULL), the diagnostic. *)
Definition tlv_document_builder_consume (builder : option builder_handle) (reader : tlv_tree_reader_t)
  (diagnostic : option tlv_reader_diagnostic_t)
  : M (tlv_result_t * option builder_handle * tlv_tree_reader_t * option Z * option tlv_reader_diagnostic_t) :=
  match builder with
  | None => mret (TLV_ERR_NULL_ARG, None, reader, None, diagnostic)
  | Some (address, grants, b) =>
      match b.(b_document) with
      | None => mret (TLV_ERR_INVALID_STATE, builder, reader, None, diagnostic)
      | Some document =>
          let diagnostic := tlv_reader_diagnostic_init diagnostic in
          '(rc, b, reader, diagnostic) ← consume_tree document b reader diagnostic;
          let diagnostic := if is_ok rc then diagnostic else with_reader_code rc diagnostic in
          if rc_eqb rc TLV_NEED_MORE_DATA then mret (rc, Some (address, grants, b), reader, None, diagnostic)
          else
            published ← (if is_ok rc then mret (Some document) else _ ← tlv_document_free (Some document); mret None);
            mret (rc, Some (address, grants, with_document None b), reader, published, diagnostic)
      end
  end.
End Operations.
