(* ===== verification/DocumentEdit.v ===== *)
(** * Documents: modification (src/document/document.c, second half)

    Values are replaced and elements inserted by parsing into a detached holder first.  While a Query
    callback runs, edits are refused and erasure and destruction are deferred. *)

From S2P Require Import Prelude Mem Core Format Diagnostic Reader TreeReader Document DocumentReader.

Section Operations.
Context `{Platform} `{DocumentLayout}.

(** [memset(&holder, 0, sizeof holder); holder.document = document]. *)
Definition holder_node (document : Z) : tlv_node_t :=
  mk_node 0 document None None None None None NULL 0 0 false false no_source_location.

Definition change_count (document : Z) (f : Z -> Z) : M unit :=
  update_document document (fun d => with_d_count (usize (f d.(d_count))) d).

(** Out-parameters: the diagnostic and the node. *)
Definition build_node (document : Z) (parent : option Z) (tag : tlv_tag_t) (value : ptr) (length depth value_base
  element_offset : Z) (diagnostic : option tlv_reader_diagnostic_t)
  : M (tlv_result_t * option tlv_reader_diagnostic_t * option Z) :=
  d ← document_at document;
  m ← memory;
  let constructed :=
    match d.(d_options).(do_format) with
    | Some {| f_is_constructed := Some is_constructed |} => is_constructed m tag
    | _ => false
    end in
  '(rc, diagnostic, created) ←
    document_create_node document parent tag value length constructed depth element_offset diagnostic;
  match created with
  | None => mret (rc, diagnostic, None)
  | Some node =>
      '(rc, diagnostic) ←
        (if constructed && negb (length =? 0) then
           if depth =? d.(d_options).(do_max_depth) then mret (TLV_ERR_LIMIT, document_set_offset diagnostic value_base)
           else document_parse_list document (Some node) value length (usize (depth + 1)) value_base diagnostic
         else mret (TLV_OK, diagnostic));
      if negb (is_ok rc) then
        _ ← node_unlink node;
        count ← subtree_size node;
        _ ← change_count document (fun c => c - count);
        _ ← free_subtree node;
        mret (rc, diagnostic, None)
      else mret (TLV_OK, diagnostic, Some node)
  end.

Fixpoint adopt_loop (fuel : nat) (child parent : option Z) : M unit :=
  match fuel, child with
  | O, _ => undefined
  | S fuel, None => mret tt
  | S fuel, Some c => _ ← update_node c (with_parent parent); n ← node_at c; adopt_loop fuel n.(n_next) parent
  end.

Definition tlv_node_set_value (node : option Z) (value : ptr) (length : Z) : M tlv_result_t :=
  match node with
  | None => mret TLV_ERR_NULL_ARG
  | Some node =>
      if is_null value && negb (length =? 0) then mret TLV_ERR_NULL_ARG
      else
        n ← node_at node;
        let document := n.(n_document) in
        d ← document_at document;
        if negb (d.(d_query_callbacks) =? 0) then mret TLV_ERR_INVALID_STATE
        else if negb n.(n_constructed) then
          copy ← copy_bytes document value length;
          if negb (length =? 0) && is_null copy then mret TLV_ERR_OUT_OF_MEMORY
          else
            _ ← document_memory_release document n.(n_value);
            _ ← update_node node (with_node_value copy length);
            _ ← invalidate_locations (Some node);
            _ ← update_document document (revised false);
            mret TLV_OK
        else
          holder ← new_local (holder_node document);
          size ← subtree_size node;
          let old_count := usize (size - 1) in
          _ ← change_count document (fun c => c - old_count);
          depth ← node_depth node;
          '(rc, _) ← document_parse_list document (Some holder) value length (usize (depth + 1)) 0 None;
          if negb (is_ok rc) then
            _ ← discard_children document (Some holder);
            _ ← change_count document (fun c => c + old_count);
            _ ← end_local holder;
            mret rc
          else
            _ ← free_children node;
            h ← node_at holder;
            _ ← update_node node (with_first h.(n_first));
            _ ← update_node node (with_last h.(n_last));
            fuel ← walk_fuel;
            _ ← adopt_loop fuel h.(n_first) (Some node);
            _ ← invalidate_locations (Some node);
            _ ← update_document document (revised (negb (old_count =? 0)));
            _ ← end_local holder;
            mret TLV_OK
  end.

(** Out-parameter: the node. *)
Definition tlv_document_insert (document : option Z) (parent before : option Z) (tag : tlv_tag_t) (value : ptr)
  (length : Z) (node : option (option Z)) : M (tlv_result_t * option (option Z)) :=
  match document with
  | None => mret (TLV_ERR_NULL_ARG, node)
  | Some document =>
      if (is_null value && negb (length =? 0)) || negb (tag_valid tag) then mret (TLV_ERR_NULL_ARG, node)
      else
        d ← document_at document;
        if negb (d.(d_query_callbacks) =? 0) then mret (TLV_ERR_INVALID_STATE, node)
        else
          bad_parent ← (match parent with
                        | Some p => n ← node_at p; mret (negb (n.(n_document) =? document) || negb n.(n_constructed))
                        | None => mret false
                        end);
          if (bad_parent : bool) then mret (TLV_ERR_INVALID_ARG, node)
          else
            bad_before ← (match before with
                          | Some b => n ← node_at b;
                                      mret (negb (n.(n_document) =? document) || negb (bool_decide (n.(n_parent) = parent)))
                          | None => mret false
                          end);
            if (bad_before : bool) then mret (TLV_ERR_INVALID_ARG, node)
            else
              m ← memory;
              let rc :=
                if tlv_format_can_write d.(d_options).(do_format) then
                  let '(rc, encoding, _) := tlv_format_measure d.(d_options).(do_format) m
                                              (Some (mk_element tag (mk_value NULL 0))) (Some no_encoding) None in
                  if is_ok rc then tlv_size_validate_native (cell no_encoding encoding).(en_total) else rc
                else TLV_OK in
              if negb (is_ok rc) then mret (rc, node)
              else
                holder ← new_local (holder_node document);
                depth ← (match parent with Some p => depth ← node_depth p; mret (usize (depth + 1)) | None => mret 0 end);
                '(rc, _, created) ← build_node document (Some holder) tag value length depth 0 0 None;
                match created with
                | None => _ ← end_local holder; mret (rc, node)
                | Some created =>
                    _ ← node_unlink created;
                    _ ← node_link document parent before created;
                    _ ← invalidate_locations parent;
                    _ ← update_document document (revised false);
                    _ ← end_local holder;
                    mret (TLV_OK, match node with Some _ => Some (Some created) | None => None end)
                end
  end.

Definition tlv_node_erase (node : option Z) : M unit :=
  match node with
  | None => mret tt
  | Some node =>
      n ← node_at node;
      let document := n.(n_document) in
      d ← document_at document;
      if negb (d.(d_query_callbacks) =? 0) then
        _ ← update_node node with_pending_erase;
        if d.(d_query_pending) =? 0 then update_document document (with_query d.(d_query_callbacks) 1) else mret tt
      else
        _ ← invalidate_locations n.(n_parent);
        _ ← node_unlink node;
        count ← subtree_size node;
        _ ← change_count document (fun c => c - count);
        _ ← free_subtree node;
        update_document document (revised true)
  end.

Definition document_format (document : option Z) : M (option tlv_format_t) :=
  match document with Some b => d ← document_at b; mret d.(d_options).(do_format) | None => mret None end.

Definition document_contains (document node : option Z) : M bool :=
  match document, node with
  | Some b, Some p => n ← node_at p; mret (n.(n_document) =? b)
  | _, _ => mret false
  end.

(** The deferred erasures, in preorder; a pending node is erased after the walk has moved on. *)
Fixpoint pending_loop (fuel : nat) (node : option Z) : M unit :=
  match fuel, node with
  | O, _ => undefined
  | S fuel, None => mret tt
  | S fuel, Some p =>
      n ← node_at p;
      match n.(n_first) with
      | Some first =>
          if negb n.(n_pending_erase) then pending_loop fuel (Some first)
          else
            up ← walk_fuel;
            next ← preorder_up up p;
            _ ← tlv_node_erase (Some p);
            pending_loop fuel next
      | None =>
          up ← walk_fuel;
          next ← preorder_up up p;
          _ ← (if n.(n_pending_erase) then tlv_node_erase (Some p) else mret tt);
          pending_loop fuel next
      end
  end.

(** The returned code: 0 unchanged, 1 deferred erase, 2 deferred destruction. *)
Definition document_query_callback (document : Z) (active : bool) : M Z :=
  d ← document_at document;
  if active then
    _ ← update_document document (with_query (usize (d.(d_query_callbacks) + 1)) d.(d_query_pending));
    mret 0
  else if d.(d_query_callbacks) =? 0 then undefined
  else
    let callbacks := d.(d_query_callbacks) - 1 in
    if negb (callbacks =? 0) then _ ← update_document document (with_query callbacks d.(d_query_pending)); mret 0
    else
      let pending := d.(d_query_pending) in
      _ ← update_document document (with_query 0 0);
      _ ← (if pending =? 2 then tlv_document_free (Some document)
           else if pending =? 1 then
             d ← document_at document; fuel ← walk_fuel; pending_loop fuel d.(d_first)
           else mret tt);
      mret pending.
End Operations.
