(* ===== verification/DocumentTree.v ===== *)
(** * The topology of a document

    A list of siblings with their subtrees is a [dforest], each node with its address and the members
    that are not links.  [linked] says that the links of the live nodes are those of the forest.  A
    place in a forest is a path of frames (the siblings on both sides of every ancestor), so that an
    edit is a change at a place. *)

From S2P Require Import Prelude Mem Core Format Diagnostic Reader Document.

(** Membership in a concatenation. *)
Ltac elem := cbn in *; rewrite ?elem_of_app, ?elem_of_cons, ?elem_of_nil in *; solve [tauto | set_solver].

(** The members of a node that are not links. *)
Record payload := mk_payload {
  np_identity : Z; np_document : Z; np_value : ptr; np_value_size : Z; np_tag_size : Z; np_constructed : bool;
  np_pending : bool; np_location : tlv_document_source_location_t }.

Definition node_of (p : payload) (parent prev next first last : option Z) : tlv_node_t :=
  mk_node p.(np_identity) p.(np_document) parent prev next first last p.(np_value) p.(np_value_size) p.(np_tag_size)
    p.(np_constructed) p.(np_pending) p.(np_location).

Inductive dforest : Type :=
| DNil
| DNode (a : Z) (p : payload) (kids rest : dforest).

Fixpoint dapp (f g : dforest) : dforest :=
  match f with DNil => g | DNode a p kids rest => DNode a p kids (dapp rest g) end.

(** Addresses in preorder. *)
Fixpoint addrs (f : dforest) : list Z :=
  match f with DNil => [] | DNode a _ kids rest => a :: addrs kids ++ addrs rest end.

Definition head_or (k : option Z) (f : dforest) : option Z := match f with DNil => k | DNode a _ _ _ => Some a end.
Fixpoint last_or (k : option Z) (f : dforest) : option Z :=
  match f with DNil => k | DNode a _ _ rest => last_or (Some a) rest end.

Lemma dapp_nil f : dapp f DNil = f.
Proof. induction f; cbn; congruence. Qed.
Lemma dapp_assoc f g h : dapp (dapp f g) h = dapp f (dapp g h).
Proof. induction f; cbn; congruence. Qed.
Lemma head_dapp k f g : head_or k (dapp f g) = head_or (head_or k g) f.
Proof. now destruct f. Qed.
Lemma last_dapp k f g : last_or k (dapp f g) = last_or (last_or k f) g.
Proof. revert k. induction f; intros k; cbn; [done|]. apply IHf2. Qed.
Lemma addrs_dapp f g : addrs (dapp f g) = addrs f ++ addrs g.
Proof. induction f; cbn; [done|]. now rewrite IHf2, <- app_assoc. Qed.
Lemma last_or_node k a p kids rest : last_or k (DNode a p kids rest) = last_or (Some a) rest.
Proof. done. Qed.

Lemma last_or_in k f z : last_or k f = Some z -> (f = DNil /\ k = Some z) \/ z ∈ addrs f.
Proof.
  revert k. induction f as [|a p kids IHk rest IHr]; intros k; cbn; [now left|].
  intros E. right. apply IHr in E as [[-> [= ->]]|E]; [set_solver|set_solver].
Qed.
Lemma head_or_in k f z : head_or k f = Some z -> (f = DNil /\ k = Some z) \/ z ∈ addrs f.
Proof. destruct f; cbn; [now left|]. intros [= ->]. set_solver. Qed.

(** ** The links of a list of siblings *)

Fixpoint linked (N : gmap Z tlv_node_t) (parent prev next : option Z) (f : dforest) : Prop :=
  match f with
  | DNil => True
  | DNode a p kids rest =>
      N !! a = Some (node_of p parent prev (head_or next rest) (head_or None kids) (last_or None kids)) /\
      linked N (Some a) None None kids /\ linked N parent (Some a) next rest
  end.

Lemma linked_frame N N' f : forall parent prev next, (forall a, a ∈ addrs f -> N' !! a = N !! a) ->
  linked N parent prev next f -> linked N' parent prev next f.
Proof.
  induction f as [|a p kids IHk rest IHr]; intros parent prev next Hf; cbn; [done|]. intros (Ha & Hk & Hr).
  rewrite Hf by (cbn; set_solver). split; [done|]. split; [apply IHk|apply IHr]; try done; intros b Hb; apply Hf; cbn; set_solver.
Qed.

Lemma linked_dapp N parent next f g : forall prev,
  linked N parent prev next (dapp f g) <->
  linked N parent prev (head_or next g) f /\ linked N parent (last_or prev f) next g.
Proof.
  induction f as [|a p kids IHk rest IHr]; intros prev; cbn [dapp linked last_or]; [tauto|].
  rewrite IHr, head_dapp. tauto.
Qed.

Lemma linked_lookup N parent prev next f a : linked N parent prev next f -> a ∈ addrs f -> is_Some (N !! a).
Proof.
  revert parent prev next. induction f as [|b p kids IHk rest IHr]; intros parent prev next; cbn; [set_solver|].
  intros (Hb & Hk & Hr) Ha. apply elem_of_cons in Ha as [->|Ha]; [rewrite Hb; eauto|].
  apply elem_of_app in Ha as [Ha|Ha]; eauto.
Qed.

(** Redirecting the last node's [next] and the first node's [prev]. *)
Definition alter_opt (f : tlv_node_t -> tlv_node_t) (o : option Z) (N : gmap Z tlv_node_t) : gmap Z tlv_node_t :=
  match o with Some z => alter f z N | None => N end.

Lemma alter_opt_other f o N b : o <> Some b -> alter_opt f o N !! b = N !! b.
Proof. destruct o; [|done]. intros E. apply lookup_alter_ne. congruence. Qed.

Lemma linked_next N parent next v f : NoDup (addrs f) -> forall prev,
  linked N parent prev next f -> linked (alter_opt (with_next v) (last_or None f) N) parent prev v f.
Proof.
  induction f as [|a p kids IHk rest IHr]; [done|]. cbn [addrs linked last_or]. intros Hn prev (Ha & Hk & Hr).
  apply NoDup_cons in Hn as [Hna Hn]. apply NoDup_app in Hn as (Hnk & Hd & Hnr).
  assert (forall b, b ∈ addrs kids -> last_or (Some a) rest <> Some b) as Hkids.
  { intros b Hb E. apply last_or_in in E as [[_ [= ->]]|E]; set_solver. }
  destruct rest as [|b pb kb rb].
  - cbn [last_or alter_opt head_or linked] in *. rewrite lookup_alter_eq, Ha. split; [done|]. split; [|done].
    apply (linked_frame N); [|done]. intros c Hc. apply lookup_alter_ne. set_solver.
  - rewrite last_or_node in *. rewrite alter_opt_other.
    2: { intros E. apply last_or_in in E as [[_ [= ->]]|E]; apply Hna; clear - E || clear; cbn; set_solver. }
    split; [exact Ha|]. split; [|exact (IHr Hnr (Some a) Hr)].
    apply (linked_frame N); [|done]. intros c Hc. apply alter_opt_other. now apply Hkids.
Qed.

Lemma linked_prev N parent prev v next f : NoDup (addrs f) ->
  linked N parent prev next f -> linked (alter_opt (with_prev v) (head_or None f) N) parent v next f.
Proof.
  destruct f as [|a p kids rest]; [done|]. cbn [addrs linked head_or alter_opt]. intros Hn (Ha & Hk & Hr).
  apply NoDup_cons in Hn as [Hna _]. rewrite lookup_alter_eq, Ha. split; [done|].
  split; (apply (linked_frame N); [|done]); intros c Hc; apply lookup_alter_ne; set_solver.
Qed.

(** ** Places *)

Record dframe := mk_dframe { df_left : dforest; df_addr : Z; df_payload : payload; df_right : dforest }.

(** Innermost frame first. *)
Fixpoint plug (C : list dframe) (g : dforest) : dforest :=
  match C with
  | [] => g
  | fr :: C => plug C (dapp fr.(df_left) (DNode fr.(df_addr) fr.(df_payload) g fr.(df_right)))
  end.

Fixpoint frame_addrs (C : list dframe) : list Z :=
  match C with
  | [] => []
  | fr :: C => fr.(df_addr) :: addrs fr.(df_left) ++ addrs fr.(df_right) ++ frame_addrs C
  end.

Lemma addrs_plug C : forall g, addrs (plug C g) ≡ₚ addrs g ++ frame_addrs C.
Proof.
  induction C as [|[l a p r] C IH]; intros g; cbn [plug frame_addrs df_left df_addr df_payload df_right].
  - now rewrite app_nil_r.
  - rewrite IH, addrs_dapp. cbn [addrs]. solve_Permutation.
Qed.

Section Rooted.
(** The document, and the node that holds the whole forest ([None]: the document itself). *)
Context (doc : Z) (root : option Z).

Definition root_addrs : list Z := match root with Some h => [h] | None => [] end.

Definition place_parent (C : list dframe) : option Z :=
  match C with [] => root | fr :: _ => Some fr.(df_addr) end.

(** The cells that hold the ends of a child list. *)
Definition cells (s : store) (parent first last : option Z) : Prop :=
  match parent with
  | Some p => exists n, s.(st_nodes) !! p = Some n /\ n.(n_first) = first /\ n.(n_last) = last
  | None => exists d, s.(st_documents) !! doc = Some d /\ d.(d_first) = first /\ d.(d_last) = last
  end.

Definition tree_in (s : store) (f : dforest) : Prop :=
  cells s root (head_or None f) (last_or None f) /\ linked s.(st_nodes) root None None f.

(** Everything but the list at the place, whose ends the innermost cells hold. *)
Fixpoint place_linked (s : store) (C : list dframe) (first last : option Z) : Prop :=
  match C with
  | [] => cells s root first last
  | fr :: C =>
      let '(mk_dframe l a p r) := fr in
      s.(st_nodes) !! a = Some (node_of p (place_parent C) (last_or None l) (head_or None r) first last) /\
      linked s.(st_nodes) (place_parent C) None (Some a) l /\ linked s.(st_nodes) (place_parent C) (Some a) None r /\
      place_linked s C (head_or (Some a) l) (last_or (Some a) r)
  end.

Lemma tree_in_plug s C : forall g,
  tree_in s (plug C g) <->
  place_linked s C (head_or None g) (last_or None g) /\ linked s.(st_nodes) (place_parent C) None None g.
Proof.
  induction C as [|[l a p r] C IH]; intros g; cbn [plug place_linked place_parent df_left df_addr df_payload df_right]; [done|].
  rewrite IH, linked_dapp, head_dapp, last_dapp. cbn [head_or linked]. rewrite last_or_node. tauto.
Qed.

Lemma place_cells s C first last : place_linked s C first last -> cells s (place_parent C) first last.
Proof. destruct C as [|[l a p r] C]; cbn; [done|]. intros (Ha & _). eauto. Qed.

(** ** Editing at a gap *)

Lemma place_frame s s' C : forall first last, s'.(st_documents) = s.(st_documents) ->
  (forall b, b ∈ root_addrs ++ frame_addrs C -> s'.(st_nodes) !! b = s.(st_nodes) !! b) ->
  place_linked s C first last -> place_linked s' C first last.
Proof.
  induction C as [|[l a p r] C IH]; intros first last Hd Hn; cbn [place_linked frame_addrs df_left df_addr df_payload df_right] in *.
  - unfold cells, root_addrs in *. destruct root as [h|]; [|now rewrite Hd]. rewrite Hn by set_solver. done.
  - intros (Ha & Hl & Hr & HC). rewrite Hn by elem. split; [done|].
    split; [|split]; [apply (linked_frame s.(st_nodes)); [|done]; intros b Hb; apply Hn; elem..|].
    apply IH; [done| |done]. intros b Hb. apply Hn. elem.
Qed.

(** What a change of links leaves alone. *)
Definition clear_ends (d : tlv_document_t) : tlv_document_t := with_d_first None (with_d_last None d).

Record moves (s s' : store) (A : list Z) : Prop := {
  mv_mem : s'.(st_mem) = s.(st_mem);
  mv_live : s'.(st_live) = s.(st_live);
  mv_next : s'.(st_next) = s.(st_next);
  mv_requests : s'.(st_requests) = s.(st_requests);
  mv_nodes : forall b, b ∉ root_addrs ++ A -> s'.(st_nodes) !! b = s.(st_nodes) !! b;
  mv_dom : dom s'.(st_nodes) = dom s.(st_nodes);
  mv_rooted : root <> None -> s'.(st_documents) = s.(st_documents);
  mv_others : forall d, d <> doc -> s'.(st_documents) !! d = s.(st_documents) !! d;
  mv_documents : forall d, clear_ends <$> s'.(st_documents) !! d = clear_ends <$> s.(st_documents) !! d }.

Lemma moves_refl s A : moves s s A.
Proof. now split. Qed.

Lemma moves_trans s1 s2 s3 A : moves s1 s2 A -> moves s2 s3 A -> moves s1 s3 A.
Proof.
  intros [? ? ? ? N1 ? R1 O1 D1] [? ? ? ? N2 ? R2 O2 D2]. split; try (etransitivity; eassumption).
  - intros b Hb. now rewrite N2, N1.
  - intros Hr. now rewrite R2, R1.
  - intros d Hd. now rewrite O2, O1.
  - intros d. now rewrite D2.
Qed.

Lemma moves_sub s s' A B : moves s s' A -> (forall b, b ∈ A -> b ∈ B) -> moves s s' B.
Proof.
  intros [? ? ? ? Hn ? ? ? ?] Hs. split; try done. intros b Hb. apply Hn. rewrite elem_of_app in *. intuition auto.
Qed.

Lemma with_nodes_id s : with_nodes s.(st_nodes) s = s.
Proof. now destruct s. Qed.

Lemma update_node_moves s p f A : is_Some (s.(st_nodes) !! p) -> p ∈ root_addrs ++ A ->
  update_node p f s = Some (tt, with_nodes (alter f p s.(st_nodes)) s) /\
  moves s (with_nodes (alter f p s.(st_nodes)) s) A.
Proof.
  intros [n Hn] Hp. unfold update_node. rewrite Hn. split; [done|]. split; try done; cbn.
  - intros b Hb. apply lookup_alter_ne. set_solver.
  - apply dom_alter_L.
Qed.

Lemma update_ends_moves s f A d : s.(st_documents) !! doc = Some d -> root = None ->
  (forall d, clear_ends (f d) = clear_ends d) ->
  update_document doc f s = Some (tt, with_documents (alter f doc s.(st_documents)) s) /\
  moves s (with_documents (alter f doc s.(st_documents)) s) A.
Proof.
  intros Hd Hr Hf. unfold update_document. rewrite Hd. split; [done|]. split; try done; cbn.
  { intros d' Hne. now apply lookup_alter_ne. }
  intros d'. destruct (Z.eq_dec doc d') as [<-|Hne].
  - rewrite lookup_alter_eq, Hd. cbn. now rewrite Hf.
  - now rewrite lookup_alter_ne by done.
Qed.

(** A write to an end cell of the place. *)
Lemma set_place_first s C first last v : NoDup (root_addrs ++ frame_addrs C) -> place_linked s C first last ->
  exists s', set_list_first doc (place_parent C) v s = Some (tt, s') /\ place_linked s' C v last /\
    moves s s' (frame_addrs C) /\ (forall b, Some b <> place_parent C -> s'.(st_nodes) !! b = s.(st_nodes) !! b).
Proof.
  intros Hnd HC. destruct C as [|[l a p r] C]; cbn [place_parent set_list_first df_addr] in *.
  - cbn [place_linked] in *. unfold cells in *. destruct root as [h|] eqn:Er.
    + destruct HC as (n & Hn & Hf & Hl). eexists. split; [unfold set_list_first, update_node; rewrite Hn; reflexivity|]. cbn.
      rewrite lookup_alter_eq, Hn. split; [eauto|]. rewrite <- Er in *.
      split; [apply update_node_moves; [eauto|unfold root_addrs; rewrite Er; elem]|]. intros b Hb. apply lookup_alter_ne. congruence.
    + destruct HC as (d & Hd & Hf & Hl). eexists. split; [unfold set_list_first, update_document; rewrite Hd; reflexivity|]. cbn.
      rewrite lookup_alter_eq, Hd. split; [eauto|]. split; [|done].
      destruct (update_ends_moves s (with_d_first v) [] d Hd Er) as [_ Hm]; [done|exact Hm].
  - cbn [place_linked frame_addrs df_left df_addr df_payload df_right] in *. destruct HC as (Ha & Hl & Hr & HC).
    eexists. split; [unfold update_node; rewrite Ha; reflexivity|]. cbn [with_nodes st_nodes].
    rewrite lookup_alter_eq, Ha. apply NoDup_app in Hnd as (_ & Hra & Hnd). apply NoDup_cons in Hnd as [Hna _].
    split; [|split; [apply update_node_moves; [eauto|set_solver]|intros b Hb; apply lookup_alter_ne; congruence]].
    split; [done|]. split; [|split].
    1, 2: apply (linked_frame s.(st_nodes)); [|done]; intros b Hb; apply lookup_alter_ne; set_solver.
    apply (place_frame s); [done| |done]. cbn. intros b Hb. apply lookup_alter_ne. intros ->.
    apply elem_of_app in Hb as [Hb|Hb]; [apply (Hra b Hb)|]; set_solver.
Qed.

Lemma set_place_last s C first last v : NoDup (root_addrs ++ frame_addrs C) -> place_linked s C first last ->
  exists s', set_list_last doc (place_parent C) v s = Some (tt, s') /\ place_linked s' C first v /\
    moves s s' (frame_addrs C) /\ (forall b, Some b <> place_parent C -> s'.(st_nodes) !! b = s.(st_nodes) !! b).
Proof.
  intros Hnd HC. destruct C as [|[l a p r] C]; cbn [place_parent set_list_last df_addr] in *.
  - cbn [place_linked] in *. unfold cells in *. destruct root as [h|] eqn:Er.
    + destruct HC as (n & Hn & Hf & Hl). eexists. split; [unfold set_list_last, update_node; rewrite Hn; reflexivity|]. cbn.
      rewrite lookup_alter_eq, Hn. split; [eauto|]. rewrite <- Er in *.
      split; [apply update_node_moves; [eauto|unfold root_addrs; rewrite Er; elem]|]. intros b Hb. apply lookup_alter_ne. congruence.
    + destruct HC as (d & Hd & Hf & Hl). eexists. split; [unfold set_list_last, update_document; rewrite Hd; reflexivity|]. cbn.
      rewrite lookup_alter_eq, Hd. split; [eauto|]. split; [|done].
      destruct (update_ends_moves s (with_d_last v) [] d Hd Er) as [_ Hm]; [done|exact Hm].
  - cbn [place_linked frame_addrs df_left df_addr df_payload df_right] in *. destruct HC as (Ha & Hl & Hr & HC).
    eexists. split; [unfold update_node; rewrite Ha; reflexivity|]. cbn [with_nodes st_nodes].
    rewrite lookup_alter_eq, Ha. apply NoDup_app in Hnd as (_ & Hra & Hnd). apply NoDup_cons in Hnd as [Hna _].
    split; [|split; [apply update_node_moves; [eauto|set_solver]|intros b Hb; apply lookup_alter_ne; congruence]].
    split; [done|]. split; [|split].
    1, 2: apply (linked_frame s.(st_nodes)); [|done]; intros b Hb; apply lookup_alter_ne; set_solver.
    apply (place_frame s); [done| |done]. cbn. intros b Hb. apply lookup_alter_ne. intros ->.
    apply elem_of_app in Hb as [Hb|Hb]; [apply (Hra b Hb)|]; set_solver.
Qed.

(** Siblings [l] and [r] around a gap: what the ends next to it point to, and the end cells. *)
Definition at_gap (s : store) (C : list dframe) (l : dforest) (nl : option Z) (r : dforest) (pr first last : option Z) : Prop :=
  linked s.(st_nodes) (place_parent C) None nl l /\ linked s.(st_nodes) (place_parent C) pr None r /\
  place_linked s C first last.

Definition gap_addrs (C : list dframe) (l r : dforest) : list Z := addrs l ++ addrs r ++ frame_addrs C.

Lemma place_parent_in C b : place_parent C = Some b -> b ∈ root_addrs ++ frame_addrs C.
Proof.
  unfold root_addrs. destruct C as [|[l a p r] C]; cbn [place_parent frame_addrs df_addr].
  - destruct root; [|done]. intros [= ->]. elem.
  - intros [= ->]. elem.
Qed.

Lemma closed_gap s C l r : tree_in s (plug C (dapp l r)) <->
  at_gap s C l (head_or None r) r (last_or None l) (head_or (head_or None r) l) (last_or (last_or None l) r).
Proof. rewrite tree_in_plug, linked_dapp, head_dapp, last_dapp. unfold at_gap. tauto. Qed.

Lemma filled_gap s C l a p kids r : tree_in s (plug C (dapp l (DNode a p kids r))) <->
  at_gap s C l (Some a) r (Some a) (head_or (Some a) l) (last_or (Some a) r) /\
  s.(st_nodes) !! a = Some (node_of p (place_parent C) (last_or None l) (head_or None r) (head_or None kids) (last_or None kids)) /\
  linked s.(st_nodes) (Some a) None None kids.
Proof.
  rewrite tree_in_plug, linked_dapp, head_dapp, last_dapp. cbn [head_or linked]. rewrite last_or_node. unfold at_gap. tauto.
Qed.

Lemma gap_frame s s' C l nl r pr first last : s'.(st_documents) = s.(st_documents) ->
  (forall b, b ∈ root_addrs ++ gap_addrs C l r -> s'.(st_nodes) !! b = s.(st_nodes) !! b) ->
  at_gap s C l nl r pr first last -> at_gap s' C l nl r pr first last.
Proof.
  unfold gap_addrs. intros Hd Hn (Hl & Hr & HC). split; [|split].
  1, 2: apply (linked_frame s.(st_nodes)); [|done]; intros b Hb; apply Hn; rewrite !elem_of_app; tauto.
  apply (place_frame s); [done| |done]. intros b Hb. apply Hn. rewrite !elem_of_app in *. tauto.
Qed.

(** The node before the gap, or the first cell, is pointed at [v]. *)
Lemma redirect_next s C l nl r pr last v : NoDup (root_addrs ++ gap_addrs C l r) ->
  at_gap s C l nl r pr (head_or nl l) last ->
  exists s', (match last_or None l with
              | Some p => update_node p (with_next v)
              | None => set_list_first doc (place_parent C) v
              end) s = Some (tt, s') /\
    at_gap s' C l v r pr (head_or v l) last /\ moves s s' (gap_addrs C l r) /\
    (forall b, b ∉ root_addrs ++ addrs l ++ frame_addrs C -> s'.(st_nodes) !! b = s.(st_nodes) !! b).
Proof.
  unfold gap_addrs. intros Hnd (Hl & Hr & HC).
  apply NoDup_app in Hnd as (Hnr & Hdr & Hnd). apply NoDup_app in Hnd as (Hnl & Hdl & Hnd). apply NoDup_app in Hnd as (Hnrr & Hdrr & HnC).
  destruct (last_or None l) as [z|] eqn:Ez.
  - pose proof Ez as Hz. apply last_or_in in Hz as [[_ Hz]|Hz]; [done|].
    eexists. split; [unfold update_node; destruct (linked_lookup _ _ _ _ _ z Hl Hz) as [n ->]; reflexivity|].
    assert (forall b, b ∉ addrs l -> alter (with_next v) z s.(st_nodes) !! b = s.(st_nodes) !! b) as Hoth
      by (intros b Hb; apply lookup_alter_ne; congruence).
    pose proof (linked_next _ _ nl v l Hnl _ Hl) as Hl'. rewrite Ez in Hl'.
    split; [split; [exact Hl'|split]|].
    + apply (linked_frame s.(st_nodes)); [|done]. intros b Hb. apply Hoth. intros Hbl. apply (Hdl b Hbl). rewrite elem_of_app. tauto.
    + destruct l as [|b pb kb rb]; [done|]. cbn [head_or] in *. apply (place_frame s); [done| |done].
      intros c Hc. apply Hoth. intros Hcl. apply elem_of_app in Hc as [Hc|Hc]; [apply (Hdr c Hc)|apply (Hdl c Hcl)];
        rewrite !elem_of_app; tauto.
    + split; [apply update_node_moves; [eauto using linked_lookup|rewrite !elem_of_app; tauto]|].
      intros b Hb. apply Hoth. rewrite !elem_of_app in Hb. tauto.
  - destruct l as [|b pb kb rb]; [|rewrite last_or_node in Ez; exfalso; clear -Ez; revert b Ez; induction rb; intros; [done|]; cbn in Ez; eauto].
    cbn [head_or] in HC.
    destruct (set_place_first s C nl last v) as (s' & Hs & HC' & Hm & Ho); [|done|].
    { apply NoDup_app. split; [done|]. split; [|done]. intros b Hb Hc. apply (Hdr b Hb). rewrite !elem_of_app. tauto. }
    exists s'. split; [exact Hs|]. split; [split; [done|split; [|done]]|].
    + apply (linked_frame s.(st_nodes)); [|done]. intros b Hb. apply Ho. intros E. symmetry in E.
      apply place_parent_in, elem_of_app in E as [E|E]; [apply (Hdr b E)|apply (Hdrr b Hb E)]. rewrite !elem_of_app. tauto.
    + split; [apply (moves_sub s s' _ _ Hm); intros b Hb; rewrite !elem_of_app; tauto|].
      intros b Hb. apply Hm. rewrite !elem_of_app in *. tauto.
Qed.

(** The node after the gap, or the last cell, is pointed at [v]. *)
Lemma redirect_prev s C l nl r pr first v : NoDup (root_addrs ++ gap_addrs C l r) ->
  at_gap s C l nl r pr first (last_or pr r) ->
  exists s', (match head_or None r with
              | Some p => update_node p (with_prev v)
              | None => set_list_last doc (place_parent C) v
              end) s = Some (tt, s') /\
    at_gap s' C l nl r v first (last_or v r) /\ moves s s' (gap_addrs C l r) /\
    (forall b, b ∉ root_addrs ++ addrs r ++ frame_addrs C -> s'.(st_nodes) !! b = s.(st_nodes) !! b).
Proof.
  unfold gap_addrs. intros Hnd (Hl & Hr & HC).
  apply NoDup_app in Hnd as (Hnr & Hdr & Hnd). apply NoDup_app in Hnd as (Hnl & Hdl & Hnd). apply NoDup_app in Hnd as (Hnrr & Hdrr & HnC).
  destruct r as [|z pz kz rz].
  - cbn [head_or last_or] in *.
    destruct (set_place_last s C first pr v) as (s' & Hs & HC' & Hm & Ho); [|done|].
    { apply NoDup_app. split; [done|]. split; [|done]. intros b Hb Hc. apply (Hdr b Hb). rewrite !elem_of_app. tauto. }
    exists s'. split; [exact Hs|]. split; [split; [|split; [done|done]]|].
    + apply (linked_frame s.(st_nodes)); [|done]. intros b Hb. apply Ho. intros E. symmetry in E.
      apply place_parent_in, elem_of_app in E as [E|E]; [apply (Hdr b E)|apply (Hdl b Hb)]; rewrite !elem_of_app; tauto.
    + split; [apply (moves_sub s s' _ _ Hm); intros b Hb; rewrite !elem_of_app; tauto|].
      intros b Hb. apply Hm. rewrite !elem_of_app in *. tauto.
  - pose proof (linked_prev _ _ pr v None _ Hnrr Hr) as Hr'. cbn [head_or alter_opt] in *.
    assert (z ∈ addrs (DNode z pz kz rz)) as Hz by (cbn; apply elem_of_cons; now left).
    eexists. split; [unfold update_node; destruct (linked_lookup _ _ _ _ _ z Hr Hz) as [n ->]; reflexivity|].
    assert (forall b, b ∉ addrs (DNode z pz kz rz) -> alter (with_prev v) z s.(st_nodes) !! b = s.(st_nodes) !! b) as Hoth
      by (intros b Hb; apply lookup_alter_ne; congruence).
    split; [split; [|split; [exact Hr'|]]|].
    + apply (linked_frame s.(st_nodes)); [|done]. intros b Hb. apply Hoth. intros Hbl. apply (Hdl b Hb). rewrite elem_of_app. tauto.
    + rewrite !last_or_node in *. apply (place_frame s); [done| |done].
      intros c Hc. apply Hoth. intros Hcl. apply elem_of_app in Hc as [Hc|Hc]; [apply (Hdr c Hc)|apply (Hdrr c Hcl Hc)];
        rewrite !elem_of_app; tauto.
    + split; [apply update_node_moves; [eauto using linked_lookup|rewrite !elem_of_app; tauto]|].
      intros b Hb. apply Hoth. rewrite !elem_of_app in Hb. tauto.
Qed.

Lemma list_first_run s C first last : place_linked s C first last ->
  list_first doc (place_parent C) s = Some (first, s).
Proof.
  intros HC. apply place_cells in HC. unfold list_first, cells in *. destruct (place_parent C) as [q|].
  - destruct HC as (n & Hn & <- & _). unfold mbind, M_bind, node_at. now rewrite Hn.
  - destruct HC as (d & Hd & <- & _). unfold mbind, M_bind, document_at. now rewrite Hd.
Qed.
Lemma list_last_run s C first last : place_linked s C first last ->
  list_last doc (place_parent C) s = Some (last, s).
Proof.
  intros HC. apply place_cells in HC. unfold list_last, cells in *. destruct (place_parent C) as [q|].
  - destruct HC as (n & Hn & _ & <-). unfold mbind, M_bind, node_at. now rewrite Hn.
  - destruct HC as (d & Hd & _ & <-). unfold mbind, M_bind, document_at. now rewrite Hd.
Qed.
End Rooted.

(** ** What a forest owns *)

Definition value_block (p : payload) : list Z := match p.(np_value) with NULL => [] | Ptr b _ => [b] end.

(** The allocations: every node with its tag, every value. *)
Fixpoint blocks (f : dforest) : list Z :=
  match f with DNil => [] | DNode a p kids rest => a :: value_block p ++ blocks kids ++ blocks rest end.
Fixpoint values (f : dforest) : list Z :=
  match f with DNil => [] | DNode a p kids rest => value_block p ++ values kids ++ values rest end.
Fixpoint payloads (f : dforest) : list payload :=
  match f with DNil => [] | DNode a p kids rest => p :: payloads kids ++ payloads rest end.

Lemma blocks_split f : blocks f ≡ₚ addrs f ++ values f.
Proof. induction f as [|a p kids IHk rest IHr]; cbn; [done|]. rewrite IHk, IHr. solve_Permutation. Qed.
Lemma blocks_dapp f g : blocks (dapp f g) ≡ₚ blocks f ++ blocks g.
Proof. induction f as [|a p kids IHk rest IHr]; cbn; [done|]. rewrite IHr. solve_Permutation. Qed.
Lemma payloads_dapp f g : payloads (dapp f g) = payloads f ++ payloads g.
Proof. induction f as [|a p kids IHk rest IHr]; cbn; [done|]. now rewrite IHr, <- app_assoc. Qed.

(** A distinct set of live nodes is not larger than the store. *)
Lemma live_size (N : gmap Z tlv_node_t) l : NoDup l -> (forall a, a ∈ l -> is_Some (N !! a)) -> (length l <= size N)%nat.
Proof.
  intros Hn Hl. rewrite <- size_dom. transitivity (size (list_to_set (C := gset Z) l)).
  - now rewrite size_list_to_set.
  - apply subseteq_size. intros a Ha. apply elem_of_list_to_set in Ha. now apply elem_of_dom, Hl.
Qed.
