(* ===== verification/DocumentFree.v ===== *)
(** * Documents: links, subtrees and freeing

    Linking and unlinking nodes; the iterative walks of a subtree count every node once and release every allocation of
    it once. *)

From S2P Require Import Prelude Mem Core Format Diagnostic Reader Document DocumentTree.

(** * Linking, unlinking and walking *)

(** ** Runs *)

Lemma bind_run {A B} (e : M A) (k : A -> M B) s x s' : e s = Some (x, s') -> (e ≫= k) s = k x s'.
Proof. intros E. unfold mbind, M_bind. now rewrite E. Qed.

Lemma node_at_run s a n : s.(st_nodes) !! a = Some n -> node_at a s = Some (n, s).
Proof. intros E. unfold node_at. now rewrite E. Qed.
Lemma document_at_run s b d : s.(st_documents) !! b = Some d -> document_at b s = Some (d, s).
Proof. intros E. unfold document_at. now rewrite E. Qed.
Lemma update_node_run s a f : is_Some (s.(st_nodes) !! a) ->
  update_node a f s = Some (tt, with_nodes (alter f a s.(st_nodes)) s).
Proof. intros [n E]. unfold update_node. now rewrite E. Qed.
Lemma update_document_run s b f : is_Some (s.(st_documents) !! b) ->
  update_document b f s = Some (tt, with_documents (alter f b s.(st_documents)) s).
Proof. intros [d E]. unfold update_document. now rewrite E. Qed.

(** One step of a run. *)
Ltac run H := rewrite (bind_run _ _ _ _ _ H).

Section Links.
Context `{Platform} `{DocumentLayout} (doc : Z) (root : option Z).

Lemma addrs_filled C l a p kids r :
  addrs (plug C (dapp l (DNode a p kids r))) ≡ₚ gap_addrs C l r ++ a :: addrs kids.
Proof. rewrite addrs_plug, addrs_dapp. unfold gap_addrs. cbn [addrs]. solve_Permutation. Qed.
Lemma addrs_gap C l r : addrs (plug C (dapp l r)) ≡ₚ gap_addrs C l r.
Proof. rewrite addrs_plug, addrs_dapp. unfold gap_addrs. solve_Permutation. Qed.

(** What is known of the addresses around a filled gap. *)
Lemma filled_nodup C l a p kids r :
  NoDup (root_addrs root ++ addrs (plug C (dapp l (DNode a p kids r)))) ->
  NoDup (root_addrs root ++ gap_addrs C l r) /\ (a ∉ root_addrs root ++ gap_addrs C l r) /\ (a ∉ addrs kids) /\
  NoDup (addrs kids) /\ (forall b, b ∈ addrs kids -> b ∉ root_addrs root ++ gap_addrs C l r).
Proof.
  rewrite addrs_filled, app_assoc. intros Hn. apply NoDup_app in Hn as (Hn & Hd & Hak). apply NoDup_cons in Hak as [Hak Hk].
  split; [done|]. split; [intros Ha; apply (Hd a Ha), elem_of_cons; now left|]. split; [done|]. split; [done|].
  intros b Hb Hg. apply (Hd b Hg), elem_of_cons. now right.
Qed.

(** A subtree that hangs nowhere. *)
Definition detached (N : gmap Z tlv_node_t) (a : Z) (p : payload) (kids : dforest) : Prop :=
  (exists parent prev next, N !! a = Some (node_of p parent prev next (head_or None kids) (last_or None kids))) /\
  linked N (Some a) None None kids.

Theorem node_unlink_run s C l a p kids r : p.(np_document) = doc ->
  NoDup (root_addrs root ++ addrs (plug C (dapp l (DNode a p kids r)))) ->
  tree_in doc root s (plug C (dapp l (DNode a p kids r))) ->
  exists s', node_unlink a s = Some (tt, s') /\ tree_in doc root s' (plug C (dapp l r)) /\
    s'.(st_nodes) !! a = Some (node_of p None None None (head_or None kids) (last_or None kids)) /\
    linked s'.(st_nodes) (Some a) None None kids /\
    moves doc root s s' (addrs (plug C (dapp l (DNode a p kids r)))).
Proof.
  intros Hp Hn Ht. destruct (filled_nodup _ _ _ _ _ _ Hn) as (Hg & Ha & Hak & Hk & Hkg).
  apply filled_gap in Ht as (Hgap & Hna & Hkids).
  destruct (redirect_next doc root s C l (Some a) r (Some a) _ (head_or None r) Hg Hgap) as (s1 & E1 & G1 & M1 & _).
  destruct (redirect_prev doc root s1 C l _ r (Some a) _ (last_or None l) Hg G1) as (s2 & E2 & G2 & M2 & _).
  pose proof (moves_trans doc root _ _ _ _ M1 M2) as M12.
  assert (forall b, b ∉ root_addrs root ++ gap_addrs C l r -> s2.(st_nodes) !! b = s.(st_nodes) !! b) as Hs2 by apply M12.
  set (s3 := with_nodes (alter (with_parent None) a (alter (with_prev None) a (alter (with_next None) a s2.(st_nodes)))) s2).
  assert (forall b, b <> a -> s3.(st_nodes) !! b = s2.(st_nodes) !! b) as Hs3.
  { intros b Hb. cbn. now rewrite !lookup_alter_ne by done. }
  exists s3. split; [|split; [|split; [|split]]].
  - unfold node_unlink. run (node_at_run s a _ Hna). cbn [node_of n_prev n_next n_document n_parent]. rewrite Hp.
    run E1. run E2.
    assert (is_Some (s2.(st_nodes) !! a)) as I by (rewrite Hs2, Hna by done; eauto).
    run (update_node_run s2 a (with_next None) I). cbn [with_nodes st_nodes].
    erewrite bind_run by (apply update_node_run; cbn; now rewrite lookup_alter_is_Some).
    erewrite update_node_run by (cbn; now rewrite !lookup_alter_is_Some). done.
  - apply closed_gap. apply (gap_frame doc root s2); [done| |].
    + intros b Hb. apply Hs3. intros ->. now apply Ha.
    + exact G2.
  - cbn. rewrite !lookup_alter_eq, Hs2, Hna by done. done.
  - apply (linked_frame s.(st_nodes)); [|done]. intros b Hb.
    rewrite Hs3 by (intros ->; now apply Hak). now apply Hs2, Hkg.
  - assert (moves doc root s2 s3 (addrs (plug C (dapp l (DNode a p kids r))))) as M3.
    { split; try done; cbn.
      - intros b Hb. rewrite !lookup_alter_ne; [done|..]; intros ->; apply Hb; rewrite addrs_filled, !elem_of_app, elem_of_cons; tauto.
      - now rewrite !dom_alter_L. }
    apply (moves_trans doc root _ s2); [|done]. apply (moves_sub doc root _ _ _ _ M12). intros b Hb.
    rewrite addrs_filled, elem_of_app. now left.
Qed.

(** The links of a node set, the node goes into the gap: [before] NULL appends. *)
Theorem node_link_run s C l a p kids r : p.(np_document) = doc ->
  NoDup (root_addrs root ++ addrs (plug C (dapp l (DNode a p kids r)))) ->
  tree_in doc root s (plug C (dapp l r)) -> detached s.(st_nodes) a p kids ->
  exists s', node_link doc (place_parent root C) (head_or None r) a s = Some (tt, s') /\
    tree_in doc root s' (plug C (dapp l (DNode a p kids r))) /\
    moves doc root s s' (addrs (plug C (dapp l (DNode a p kids r)))).
Proof.
  intros Hp Hn Ht [(pr0 & pv0 & nx0 & Hna) Hkids]. destruct (filled_nodup _ _ _ _ _ _ Hn) as (Hg & Ha & Hak & Hk & Hkg).
  apply closed_gap in Ht as Hgap.
  set (par := place_parent root C).
  set (s1 := with_nodes (alter (with_prev (last_or None l)) a (alter (with_next (head_or None r)) a (alter (with_parent par) a s.(st_nodes)))) s).
  assert (forall b, b <> a -> s1.(st_nodes) !! b = s.(st_nodes) !! b) as Hs1.
  { intros b Hb. cbn. now rewrite !lookup_alter_ne by done. }
  assert (at_gap doc root s1 C l (head_or None r) r (last_or None l) (head_or (head_or None r) l) (last_or (last_or None l) r)) as G1.
  { apply (gap_frame doc root s); [done| |done]. intros b Hb. apply Hs1. intros ->. now apply Ha. }
  destruct (redirect_next doc root s1 C l _ r _ _ (Some a) Hg G1) as (s2 & E2 & G2 & M2 & O2).
  destruct (redirect_prev doc root s2 C l _ r _ _ (Some a) Hg G2) as (s3 & E3 & G3 & M3 & _).
  pose proof (moves_trans doc root _ _ _ _ M2 M3) as M23.
  assert (moves doc root s s1 (addrs (plug C (dapp l (DNode a p kids r))))) as M1.
  { split; try done; cbn.
    - intros b Hb. rewrite !lookup_alter_ne; [done|..]; intros ->; apply Hb; rewrite addrs_filled, !elem_of_app, elem_of_cons; tauto.
    - now rewrite !dom_alter_L. }
  exists s3. split; [|split].
  - unfold node_link. run (update_node_run s a (with_parent par) ltac:(eauto)). fold par in E2, E3.
    destruct G1 as (Hl1 & Hr1 & HC1). destruct r as [|b pb kb rb]; cbn [head_or last_or] in *.
    + assert (place_linked doc root (with_nodes (alter (with_parent par) a s.(st_nodes)) s) C (head_or None l) (last_or None l)) as HC.
      { apply (place_frame doc root s); [done| |apply Hgap]. intros b Hb. cbn. apply lookup_alter_ne. intros ->.
        apply Ha. unfold gap_addrs. rewrite !elem_of_app in *. tauto. }
      run (list_last_run doc root _ C _ _ HC).
      erewrite bind_run by (apply update_node_run; cbn; rewrite lookup_alter_is_Some; eauto).
      erewrite bind_run by (apply update_node_run; cbn; rewrite !lookup_alter_is_Some; eauto). cbn [with_nodes st_nodes].
      replace (with_nodes _ _) with s1; [run E2; exact E3|].
      unfold s1, with_nodes. cbn. f_equal. apply map_eq. intros b. destruct (Z.eq_dec a b) as [<-|Hne].
      * rewrite !lookup_alter_eq. now destruct (s.(st_nodes) !! a) as [[]|].
      * now rewrite !lookup_alter_ne by done.
    + erewrite bind_run by (apply update_node_run; cbn; rewrite lookup_alter_is_Some; eauto). cbn [with_nodes st_nodes].
      destruct Hgap as (_ & [Hb _] & _).
      assert (b <> a) as Hba by (intros ->; apply Ha; unfold gap_addrs; cbn; rewrite !elem_of_app, elem_of_cons; tauto).
      erewrite bind_run by (apply node_at_run; cbn; rewrite !lookup_alter_ne by done; exact Hb).
      erewrite bind_run by (apply update_node_run; cbn; rewrite !lookup_alter_is_Some; eauto). cbn [with_nodes st_nodes node_of n_prev].
      change (with_nodes _ _) with s1. run E2. exact E3.
  - apply filled_gap. split; [exact G3|].
    assert (forall b, b ∉ root_addrs root ++ gap_addrs C l r -> s3.(st_nodes) !! b = s1.(st_nodes) !! b) as Hs3 by apply M23.
    split.
    + rewrite Hs3 by done. cbn. rewrite !lookup_alter_eq, Hna. done.
    + apply (linked_frame s.(st_nodes)); [|done]. intros b Hb. rewrite Hs3 by now apply Hkg.
      apply Hs1. intros ->. now apply Hak.
  - apply (moves_trans doc root _ s1); [done|]. apply (moves_sub doc root _ _ _ _ M23). intros b Hb.
    rewrite addrs_filled, elem_of_app. now left.
Qed.
End Links.

(** * Documents: the size of a subtree, and freeing it

    The iterative walks count every node once and release every allocation of a subtree once. *)

Lemma live_none (L : gset Z) : L = L ∖ list_to_set [].
Proof. set_solver. Qed.
Lemma live_one (L : gset Z) a : L ∖ {[a]} = L ∖ list_to_set [a].
Proof. set_solver. Qed.
Lemma live_two (L : gset Z) a b : L ∖ {[b]} ∖ {[a]} = L ∖ list_to_set [a; b].
Proof. set_solver. Qed.
Lemma live_app (L : gset Z) X Y : L ∖ list_to_set X ∖ list_to_set Y = L ∖ list_to_set (X ++ Y).
Proof. set_solver. Qed.
Lemma live_permutation (L : gset Z) X Y : X ≡ₚ Y -> L ∖ list_to_set X = L ∖ list_to_set Y.
Proof. intros E. f_equal. apply leibniz_equiv. now rewrite E. Qed.

Section Walks.
Context `{Platform} `{DocumentLayout}.

(** ** Preorder *)

(** The climb from [a] in [n] rounds, and the node it leads to. *)
Inductive ascends (N : gmap Z tlv_node_t) (root : Z) : Z -> nat -> option Z -> Prop :=
| asc_root : ascends N root root 0 None
| asc_next a n x : a <> root -> N !! a = Some n -> n.(n_next) = Some x -> ascends N root a 0 (Some x)
| asc_up a n q k r : a <> root -> N !! a = Some n -> n.(n_next) = None -> n.(n_parent) = Some q ->
    ascends N root q k r -> ascends N root a (S k) r.

Lemma ascends_run s root a k r fuel : ascends s.(st_nodes) root a k r -> (k < fuel)%nat ->
  (node ← climb fuel a root; if node =? root then mret None else n ← node_at node; mret n.(n_next)) s = Some (r, s).
Proof using.
  intros Ha. revert fuel. induction Ha as [|a n x Hne Hn Hx|a n q k r Hne Hn Hx Hq Ha IH]; intros [|fuel] Hf; try lia.
  - unfold mbind, M_bind. cbn. rewrite Z.eqb_refl. cbn. now rewrite Z.eqb_refl.
  - unfold mbind, M_bind. cbn. rewrite (proj2 (Z.eqb_neq a root)) by done. unfold mbind, M_bind, node_at. rewrite Hn, Hx. cbn.
    rewrite (proj2 (Z.eqb_neq a root)) by done. rewrite Hn, Hx. done.
  - specialize (IH fuel ltac:(lia)). rewrite <- IH. unfold mbind, M_bind. cbn. rewrite (proj2 (Z.eqb_neq a root)) by done.
    unfold mbind, M_bind, node_at. rewrite Hn, Hx, Hq. done.
Qed.

Lemma subtree_next_run s root a n k r : s.(st_nodes) !! a = Some n -> ascends s.(st_nodes) root a k r ->
  (k <= size s.(st_nodes))%nat -> subtree_next a root s = Some (match n.(n_first) with Some x => Some x | None => r end, s).
Proof using.
  intros Hn Ha Hk. unfold subtree_next. run (node_at_run s a n Hn). destruct (n_first n) as [x|]; [done|].
  unfold walk_fuel. erewrite bind_run by reflexivity. apply (ascends_run s root a k r); [done|lia].
Qed.

Lemma size_walk s root f : forall q prev k r fuel total,
  linked s.(st_nodes) (Some q) prev None f -> root ∉ addrs f -> ascends s.(st_nodes) root q k r ->
  (k + length (addrs f) <= size s.(st_nodes))%nat -> 0 <= total -> total + zlen (addrs f) <= SIZE_MAX ->
  size_loop (length (addrs f) + fuel) root (head_or r f) total s =
  size_loop fuel root r (total + zlen (addrs f)) s.
Proof using.
  induction f as [|a p kids IHk rest IHr]; intros q prev k r fuel total Hl Hroot Ha Hsz Ht Htm.
  { cbn. now rewrite Z.add_0_r. }
  cbn [addrs head_or linked] in *. destruct Hl as (Hna & Hk & Hr). rewrite not_elem_of_cons, not_elem_of_app in Hroot.
  destruct Hroot as (Hra & Hrk & Hrr). cbn [length] in *. rewrite length_app in *.
  assert (exists k', ascends s.(st_nodes) root a k' (head_or r rest) /\ (k' <= S k)%nat) as (k' & Ha' & Hk').
  { destruct rest as [|b pb kb rb]; cbn [head_or] in *.
    - exists (S k). split; [|lia]. eapply asc_up; [congruence|exact Hna|done|done|done].
    - exists 0%nat. split; [|lia]. eapply asc_next; [congruence|exact Hna|done]. }
  replace (S (length (addrs kids) + length (addrs rest)) + fuel)%nat
    with (S (length (addrs kids) + (length (addrs rest) + fuel)))%nat by lia.
  cbn [size_loop]. run (subtree_next_run s root a _ k' _ Hna Ha' ltac:(lia)). cbn [node_of n_first].
  replace (match head_or None kids with Some x => Some x | None => head_or r rest end) with (head_or (head_or r rest) kids)
    by now destruct kids.
  rewrite usize_small by lia.
  rewrite (IHk a None k' (head_or r rest)) by (done || lia). rewrite (IHr q (Some a) k r) by (done || lia).
  f_equal. lia.
Qed.

Lemma subtree_size_run s a p parent prev next kids :
  s.(st_nodes) !! a = Some (node_of p parent prev next (head_or None kids) (last_or None kids)) ->
  linked s.(st_nodes) (Some a) None None kids -> NoDup (a :: addrs kids) -> 1 + zlen (addrs kids) <= SIZE_MAX ->
  subtree_size a s = Some (1 + zlen (addrs kids), s).
Proof using.
  intros Ha Hk Hn Hm. assert (S (length (addrs kids)) <= size s.(st_nodes))%nat as Hs.
  { apply (live_size s.(st_nodes) (a :: addrs kids) Hn). intros b Hb. apply elem_of_cons in Hb as [->|Hb]; [eauto|].
    eauto using linked_lookup. }
  apply NoDup_cons in Hn as [Hna _]. unfold subtree_size, walk_fuel. erewrite bind_run by reflexivity.
  set (N := size (st_nodes s)) in *. replace (S (S (2 * N))) with (S (length (addrs kids) + S (2 * N - length (addrs kids))))%nat by lia.
  cbn [size_loop]. run (subtree_next_run s a a _ 0 None Ha (asc_root _ _) ltac:(lia)). cbn [node_of n_first].
  replace (match head_or None kids with Some x => Some x | None => None end) with (head_or None kids) by now destruct kids.
  rewrite usize_small by lia.
  rewrite (size_walk s a kids a None 0 None) by (done || constructor || lia). cbn [size_loop]. done.
Qed.

(** ** Freeing *)

Definition without (A : list Z) (N : gmap Z tlv_node_t) : gmap Z tlv_node_t := foldr delete N A.

Lemma lookup_without A N b : without A N !! b = if bool_decide (b ∈ A) then None else N !! b.
Proof using.
  induction A as [|a A IH]; [done|]. change (without (a :: A) N) with (delete a (without A N)). destruct (Z.eq_dec a b) as [<-|Hne].
  - rewrite lookup_delete_eq, bool_decide_eq_true_2 by (apply elem_of_cons; now left). done.
  - rewrite lookup_delete_ne, IH by done. destruct (decide (b ∈ A)) as [Hb|Hb].
    + rewrite !bool_decide_eq_true_2 by (rewrite ?elem_of_cons; auto). done.
    + rewrite !bool_decide_eq_false_2; [done| |done]. rewrite elem_of_cons. intros [?|?]; congruence.
Qed.

Definition payload_ok (doc : Z) (p : payload) : Prop :=
  p.(np_document) = doc /\ match p.(np_value) with NULL => p.(np_value_size) = 0 | Ptr _ o => o = 0 end /\
  0 <= p.(np_tag_size) <= SIZE_MAX /\ 0 <= p.(np_value_size) <= SIZE_MAX.

(** The allocations of a forest in a store, apart from one another and from the documents. *)
Record owned (doc : Z) (s : store) (f : dforest) : Prop := {
  ow_document : is_Some (s.(st_documents) !! doc);
  ow_distinct : NoDup (blocks f);
  ow_live : forall b, b ∈ blocks f -> b ∈ s.(st_live) /\ s.(st_documents) !! b = None;
  ow_values : forall b, b ∈ values f -> s.(st_nodes) !! b = None;
  ow_payloads : Forall (payload_ok doc) (payloads f) }.

(** Everything below [q] is released, and [q] has no first child. *)
Definition free_under (q : Z) (f : dforest) (s : store) : store :=
  mk_store s.(st_mem) (alter (with_first None) q (without (addrs f) s.(st_nodes))) s.(st_documents)
    (s.(st_live) ∖ list_to_set (blocks f)) s.(st_next) s.(st_requests).

Lemma release_run s doc b : is_Some (s.(st_documents) !! doc) -> b ∈ s.(st_live) -> s.(st_documents) !! b = None ->
  document_memory_release doc (Ptr b 0) s =
  Some (tt, mk_store s.(st_mem) (delete b s.(st_nodes)) s.(st_documents) (s.(st_live) ∖ {[b]}) s.(st_next) s.(st_requests)).
Proof using.
  intros [d Hd] Hb Hdb. unfold document_memory_release. run (document_at_run s doc d Hd). cbn.
  unfold release. rewrite bool_decide_eq_true_2 by done. now rewrite (delete_id _ _ Hdb).
Qed.

(** The two releases of a node whose children are gone. *)
Lemma release_node_run s doc a p : payload_ok doc p -> is_Some (s.(st_documents) !! doc) ->
  NoDup (a :: value_block p) ->
  (forall b, b ∈ a :: value_block p -> b ∈ s.(st_live) /\ s.(st_documents) !! b = None) ->
  (forall b, b ∈ value_block p -> s.(st_nodes) !! b = None) ->
  (_ ← document_memory_release p.(np_document) p.(np_value); document_memory_release p.(np_document) (Ptr a 0)) s =
  Some (tt, mk_store s.(st_mem) (delete a s.(st_nodes)) s.(st_documents)
              (s.(st_live) ∖ list_to_set (a :: value_block p)) s.(st_next) s.(st_requests)).
Proof using.
  intros (-> & Hp & _) Hd Hn Hl Hv. unfold value_block in *. destruct (np_value p) as [|b o].
  - erewrite bind_run by reflexivity. destruct (Hl a) as [Ha Hda]; [apply elem_of_cons; now left|].
    rewrite release_run by done. do 2 f_equal. f_equal. apply live_one.
  - subst o. destruct (Hl a) as [Ha Hda]; [apply elem_of_cons; now left|].
    destruct (Hl b) as [Hb Hdb]; [apply elem_of_cons; right; apply elem_of_cons; now left|].
    assert (a <> b) as Hab by (apply NoDup_cons in Hn as [Hn _]; intros ->; apply Hn, elem_of_cons; now left).
    run (release_run s doc b Hd Hb Hdb). rewrite release_run; cbn; [|done|apply elem_of_difference; rewrite elem_of_singleton; auto|done].
    rewrite (delete_id (st_nodes s)) by (apply Hv, elem_of_cons; now left). do 2 f_equal. f_equal. set_solver.
Qed.

Lemma owned_sub doc s f g : owned doc s f -> NoDup (blocks g) -> (forall b, b ∈ blocks g -> b ∈ blocks f) ->
  (forall b, b ∈ values g -> b ∈ values f) -> (forall p, p ∈ payloads g -> p ∈ payloads f) -> owned doc s g.
Proof using.
  intros [Hd Hn Hl Hv Hp] Hng Hb Hvv Hpp. split; [done|done|auto|auto|].
  rewrite list.Forall_forall in *. auto.
Qed.

Lemma owned_node doc s a p kids rest : owned doc s (DNode a p kids rest) ->
  owned doc s kids /\ owned doc s rest /\ payload_ok doc p /\
  NoDup (a :: value_block p) /\ (forall b, b ∈ a :: value_block p -> b ∉ blocks kids ++ blocks rest) /\
  (forall b, b ∈ blocks kids -> b ∉ blocks rest).
Proof using.
  intros Ho. pose proof Ho as [Hd Hn Hl Hv Hp]. cbn [blocks] in Hn.
  change (a :: value_block p ++ blocks kids ++ blocks rest) with ((a :: value_block p) ++ blocks kids ++ blocks rest) in Hn.
  apply NoDup_app in Hn as (H1 & H2 & H3). apply NoDup_app in H3 as (H3 & H4 & H5).
  split; [|split; [|split]].
  - apply (owned_sub _ _ _ _ Ho H3); intros x Hx; cbn; rewrite ?elem_of_cons, !elem_of_app; tauto.
  - apply (owned_sub _ _ _ _ Ho H5); intros x Hx; cbn; rewrite ?elem_of_cons, !elem_of_app; tauto.
  - now apply Forall_inv in Hp.
  - auto.
Qed.

Lemma addrs_blocks f b : b ∈ addrs f -> b ∈ blocks f.
Proof using. rewrite blocks_split, elem_of_app. auto. Qed.
Lemma values_blocks f b : b ∈ values f -> b ∈ blocks f.
Proof using. rewrite blocks_split, elem_of_app. auto. Qed.

(** A change elsewhere leaves what is owned. *)
Lemma owned_frame doc s s' f : owned doc s f ->
  (forall b, is_Some (s.(st_documents) !! b) <-> is_Some (s'.(st_documents) !! b)) ->
  (forall b, b ∈ blocks f -> b ∈ s.(st_live) -> b ∈ s'.(st_live)) ->
  (forall b, b ∈ values f -> s.(st_nodes) !! b = None -> s'.(st_nodes) !! b = None) -> owned doc s' f.
Proof using.
  intros [Hd Hn Hl Hv Hp] HD HL HV. split; [now apply HD|done| |auto|done].
  intros b Hb. destruct (Hl b Hb) as [H1 H2]. split; [auto|].
  destruct (s'.(st_documents) !! b) eqn:E; [|done]. assert (is_Some (s.(st_documents) !! b)) as [x Hx] by (apply HD; eauto). congruence.
Qed.

(** The loop below [q]: it comes back to [q] with everything below released. *)
Lemma free_list_run doc root f : forall q n prev s fuel,
  s.(st_nodes) !! q = Some n -> n.(n_first) = head_or None f -> q ∉ blocks f -> root ∉ addrs f ->
  linked s.(st_nodes) (Some q) prev None f -> owned doc s f ->
  free_loop (2 * length (addrs f) + fuel) root (Some q) s = free_loop fuel root (Some q) (free_under q f s).
Proof using.
  induction f as [|a p kids IHk rest IHr]; intros q n prev s fuel Hq Hfirst Hqf Hroot Hl Ho.
  { cbn [addrs length Nat.mul Nat.add]. f_equal. unfold free_under. cbn. rewrite alter_id.
    - destruct s. cbn. f_equal. apply live_none.
    - intros x Hx. rewrite Hq in Hx. injection Hx as <-. destruct n. cbn in *. now subst. }
  destruct (owned_node _ _ _ _ _ _ Ho) as (Hok & Hor & Hp & Hnp & Hsep & Hkr).
  pose proof Ho as [Hd _ Hlive Hval _]. cbn [linked addrs] in *. destruct Hl as (Hna & Hk & Hr).
  rewrite not_elem_of_cons, not_elem_of_app in Hroot. destruct Hroot as (Hra & Hrk & Hrr).
  assert (forall b, b ∈ blocks kids ++ blocks rest -> b <> a) as Ha by (intros b Hb ->; apply (Hsep a); [now left|done]).
  cbn [blocks] in Hqf, Hlive. rewrite not_elem_of_cons, !not_elem_of_app in Hqf. destruct Hqf as (Hqa & Hqv & Hqk & Hqr).
  cbn [length]. rewrite length_app.
  replace (2 * S (length (addrs kids) + length (addrs rest)) + fuel)%nat
    with (S (2 * length (addrs kids) + S (2 * length (addrs rest) + fuel)))%nat by lia.
  cbn [free_loop]. run (node_at_run s q n Hq). rewrite Hfirst. cbn [head_or].
  rewrite (IHk a _ None s _ Hna); [|done|intros Hx; apply (Ha a); [rewrite elem_of_app; auto|done]|done..].
  set (s1 := free_under a kids s).
  assert (s1.(st_nodes) !! a = Some (node_of p (Some q) prev (head_or None rest) None (last_or None kids))) as Ha1.
  { cbn. rewrite lookup_alter_eq, lookup_without, bool_decide_eq_false_2, Hna; [done|].
    intros Hx. apply addrs_blocks in Hx. apply (Ha a); [rewrite elem_of_app; auto|done]. }
  assert (forall b, b <> a -> b ∉ addrs kids -> s1.(st_nodes) !! b = s.(st_nodes) !! b) as Hs1.
  { intros b H1 H2. cbn. rewrite lookup_alter_ne, lookup_without, bool_decide_eq_false_2 by done. done. }
  cbn [free_loop]. run (node_at_run s1 a _ Ha1). cbn [node_of n_first n_parent n_next n_document n_value].
  rewrite (proj2 (Z.eqb_neq a root)) by congruence.
  assert (q <> a) as Hqa' by done.
  assert (s1.(st_nodes) !! q = Some n) as Hq1 by (rewrite Hs1; [done|done|intros Hx; now apply Hqk, addrs_blocks]).
  set (s2 := with_nodes (alter (with_first (head_or None rest)) q s1.(st_nodes)) s1).
  assert (update_node q (with_first (head_or None rest)) s1 = Some (tt, s2)) as Hu by (apply update_node_run; eauto).
  run Hu.
  assert (forall b, b ∈ a :: value_block p -> b ∈ s2.(st_live) /\ s2.(st_documents) !! b = None) as Hl2.
  { intros b Hb. destruct (Hlive b) as [H1 H2]; [rewrite app_comm_cons, elem_of_app; auto|]. split; [|done].
    cbn. apply elem_of_difference. split; [done|]. rewrite elem_of_list_to_set. intros Hx. apply (Hsep b Hb). rewrite elem_of_app. auto. }
  assert (forall b, b ∈ value_block p -> s2.(st_nodes) !! b = None) as Hv2.
  { intros b Hb. cbn. assert (s.(st_nodes) !! b = None) as E by (apply Hval; cbn; rewrite !elem_of_app; auto).
    apply lookup_alter_None, lookup_alter_None. rewrite lookup_without, E. now destruct (bool_decide _). }
  pose proof (release_node_run s2 doc a p Hp Hd Hnp Hl2 Hv2) as Hrel. unfold mbind, M_bind in Hrel. unfold mbind, M_bind.
  destruct (document_memory_release (np_document p) (np_value p) s2) as [[[] s2']|]; [|done]. rewrite Hrel.
  match type of Hrel with _ = Some (tt, ?x) => set (s3 := x) in * end.
  rewrite (IHr q (with_first (head_or None rest) n) (Some a) s3).
  - f_equal. unfold s3, s2, s1, free_under. cbn [with_nodes st_mem st_nodes st_documents st_live st_next st_requests]. f_equal.
    + apply map_eq. intros b. destruct (decide (b = q)) as [->|Hbq].
      * rewrite !lookup_alter_eq, !lookup_without. rewrite lookup_delete_ne, lookup_alter_eq, lookup_alter_ne, lookup_without by done.
        cbn [addrs]. rewrite !bool_decide_eq_false_2; [|rewrite ?elem_of_cons, ?elem_of_app; intuition eauto using addrs_blocks..].
        rewrite Hq. done.
      * rewrite !lookup_alter_ne, !lookup_without by done. cbn [addrs]. destruct (decide (b = a)) as [->|Hba].
        { rewrite lookup_delete_eq. rewrite (bool_decide_eq_true_2 (a ∈ a :: _)) by (apply elem_of_cons; now left).
          now destruct (bool_decide _). }
        rewrite lookup_delete_ne, !lookup_alter_ne, lookup_without by done.
        destruct (decide (b ∈ addrs rest)) as [H1|H1]; [rewrite !(bool_decide_eq_true_2 _);
          [done|rewrite elem_of_cons, elem_of_app; auto|done]|]. rewrite (bool_decide_eq_false_2 (b ∈ addrs rest)) by done.
        destruct (decide (b ∈ addrs kids)) as [H2|H2]; [rewrite !(bool_decide_eq_true_2 _); [done|rewrite elem_of_cons, elem_of_app; auto|done]|].
        rewrite !bool_decide_eq_false_2; [done|rewrite elem_of_cons, elem_of_app; intuition|done].
    + rewrite !live_app. apply live_permutation. cbn [blocks]. solve_Permutation.
  - cbn. rewrite lookup_delete_ne, lookup_alter_eq, lookup_alter_ne, lookup_without, bool_decide_eq_false_2, Hq; try done.
    intros Hx. now apply Hqk, addrs_blocks.
  - done.
  - done.
  - done.
  - apply (linked_frame s.(st_nodes)); [|done]. intros b Hb. pose proof (addrs_blocks _ _ Hb) as Hbb.
    assert (b <> a) by (apply Ha; rewrite elem_of_app; auto). assert (b <> q) by congruence.
    cbn. rewrite lookup_delete_ne, lookup_alter_ne by done. apply Hs1; [done|]. intros Hx. apply (Hkr b); auto using addrs_blocks.
  - apply (owned_frame doc s); [done|done| |].
    + intros b Hb Hbl. cbn. apply elem_of_difference. split; [apply elem_of_difference; split; [done|]|].
      * rewrite elem_of_list_to_set. intros Hx. now apply (Hkr b).
      * change ({[a]} ∪ list_to_set (value_block p)) with (list_to_set (C := gset Z) (a :: value_block p)).
        rewrite elem_of_list_to_set. intros Hx. apply (Hsep b Hx). rewrite elem_of_app. auto.
    + intros b Hb Hbn. cbn. apply lookup_delete_None. right. apply lookup_alter_None, lookup_alter_None.
      rewrite lookup_without, Hbn. now destruct (bool_decide _).
Qed.

(** A list of siblings is released: its nodes are dead, and its allocations, each released once. *)
Definition free_forest (f : dforest) (s : store) : store :=
  mk_store s.(st_mem) (without (addrs f) s.(st_nodes)) s.(st_documents) (s.(st_live) ∖ list_to_set (blocks f))
    s.(st_next) s.(st_requests).

Lemma owned_first doc s a p kids rest : owned doc s (DNode a p kids rest) -> owned doc s (DNode a p kids DNil).
Proof using.
  intros Ho. apply (owned_sub _ _ _ _ Ho); [|intros b; cbn; rewrite ?elem_of_cons, ?elem_of_app, ?elem_of_nil; tauto..].
  destruct Ho as [_ Hn _ _ _]. cbn [blocks] in *. rewrite app_nil_r.
  replace (a :: value_block p ++ blocks kids ++ blocks rest) with ((a :: value_block p ++ blocks kids) ++ blocks rest) in Hn
    by (cbn; now rewrite <- app_assoc). now apply NoDup_app in Hn as (Hn & _ & _).
Qed.

Lemma free_subtree_run doc s a p parent prev next kids :
  s.(st_nodes) !! a = Some (node_of p parent prev next (head_or None kids) (last_or None kids)) ->
  linked s.(st_nodes) (Some a) None None kids -> owned doc s (DNode a p kids DNil) ->
  free_subtree a s = Some (tt, free_forest (DNode a p kids DNil) s).
Proof using.
  intros Ha Hk Ho. destruct (owned_node _ _ _ _ _ _ Ho) as (Hok & _ & Hp & Hnp & Hsep & _). pose proof Ho as [Hd Hn Hlive Hval _].
  assert (a ∉ blocks kids) as Hak.
  { intros Hx. apply (Hsep a); [apply elem_of_cons; now left|]. rewrite elem_of_app. auto. }
  assert (S (length (addrs kids)) <= size s.(st_nodes))%nat as Hs.
  { apply (live_size s.(st_nodes) (a :: addrs kids)).
    - rewrite blocks_split in Hn. cbn [addrs values] in Hn. rewrite app_nil_r in Hn. now apply NoDup_app in Hn as (Hn & _ & _).
    - intros b Hb. apply elem_of_cons in Hb as [->|Hb]; [eauto|]. eauto using linked_lookup. }
  unfold free_subtree, walk_fuel. erewrite bind_run by reflexivity. set (N := size (st_nodes s)) in *.
  replace (S (S (2 * N))) with (2 * length (addrs kids) + S (S (2 * (N - length (addrs kids)))))%nat by lia.
  rewrite (free_list_run doc a kids a _ None s _ Ha) by (done || auto using addrs_blocks).
  set (s1 := free_under a kids s).
  assert (s1.(st_nodes) !! a = Some (node_of p parent prev next None (last_or None kids))) as Ha1.
  { cbn. rewrite lookup_alter_eq, lookup_without, bool_decide_eq_false_2, Ha; [done|]. auto using addrs_blocks. }
  cbn [free_loop]. run (node_at_run s1 a _ Ha1). cbn [node_of n_first n_parent n_next n_document n_value]. rewrite Z.eqb_refl.
  erewrite bind_run by reflexivity.
  assert (forall b, b ∈ a :: value_block p -> b ∈ s1.(st_live) /\ s1.(st_documents) !! b = None) as Hl1.
  { intros b Hb. destruct (Hlive b) as [H1 H2]; [cbn [blocks]; rewrite app_comm_cons, elem_of_app; auto|]. split; [|done].
    cbn. apply elem_of_difference. split; [done|]. rewrite elem_of_list_to_set. intros Hx. apply (Hsep b Hb). rewrite elem_of_app. auto. }
  assert (forall b, b ∈ value_block p -> s1.(st_nodes) !! b = None) as Hv1.
  { intros b Hb. cbn. assert (s.(st_nodes) !! b = None) as E by (apply Hval; cbn; rewrite !elem_of_app; auto).
    apply lookup_alter_None. rewrite lookup_without, E. now destruct (bool_decide _). }
  pose proof (release_node_run s1 doc a p Hp Hd Hnp Hl1 Hv1) as Hrel. unfold mbind, M_bind in *.
  destruct (document_memory_release (np_document p) (np_value p) s1) as [[[] s2]|]; [|done]. rewrite Hrel.
  unfold mret, M_ret. unfold free_forest, s1, free_under. cbn [st_mem st_nodes st_documents st_live st_next st_requests]. do 2 f_equal. f_equal.
  - apply map_eq. intros b. cbn [addrs]. rewrite app_nil_r. destruct (decide (b = a)) as [->|Hb].
    + rewrite lookup_delete_eq, lookup_without, bool_decide_eq_true_2 by (apply elem_of_cons; now left). done.
    + rewrite lookup_delete_ne, lookup_alter_ne, !lookup_without by done.
      destruct (decide (b ∈ addrs kids)) as [H1|H1]; [rewrite !(bool_decide_eq_true_2 _); [done|rewrite elem_of_cons; auto|done]|].
      rewrite !bool_decide_eq_false_2; [done|rewrite elem_of_cons; tauto|done].
  - rewrite live_app. apply live_permutation. cbn [blocks]. rewrite app_nil_r. solve_Permutation.
Qed.

Lemma free_forest_app s a p kids rest :
  free_forest rest (free_forest (DNode a p kids DNil) s) = free_forest (DNode a p kids rest) s.
Proof using.
  unfold free_forest. cbn [st_mem st_nodes st_documents st_live st_next st_requests addrs blocks]. rewrite !app_nil_r. f_equal.
  - apply map_eq. intros b. rewrite !lookup_without.
    destruct (decide (b ∈ addrs rest)) as [H1|H1]; [rewrite !(bool_decide_eq_true_2 _); [done|rewrite elem_of_cons, elem_of_app; auto|done]|].
    rewrite (bool_decide_eq_false_2 (b ∈ addrs rest)) by done.
    destruct (decide (b ∈ a :: addrs kids)) as [H2|H2].
    + rewrite !(bool_decide_eq_true_2 _); [done|rewrite elem_of_cons, elem_of_app in *; tauto|done].
    + rewrite !bool_decide_eq_false_2; [done|rewrite elem_of_cons, elem_of_app in *; tauto|done].
  - rewrite live_app. apply live_permutation. solve_Permutation.
Qed.

(** What remains of the siblings once the first is gone. *)
Lemma rest_after_first doc s a p kids rest parent prev : owned doc s (DNode a p kids rest) ->
  linked s.(st_nodes) parent prev None (DNode a p kids rest) ->
  let s1 := free_forest (DNode a p kids DNil) s in
  owned doc s1 rest /\ linked s1.(st_nodes) parent (Some a) None rest.
Proof using.
  intros Ho (_ & _ & Hr). destruct (owned_node _ _ _ _ _ _ Ho) as (_ & Hor & _ & _ & Hsep & Hkr).
  assert (forall b, b ∈ blocks rest -> b ∉ blocks (DNode a p kids DNil)) as Hd.
  { intros b Hb. cbn [blocks]. rewrite app_nil_r, app_comm_cons, elem_of_app. intros [Hx|Hx]; [apply (Hsep b Hx); rewrite elem_of_app; auto|].
    now apply (Hkr b). }
  split.
  - apply (owned_frame doc s); [done|done| |].
    + intros b Hb Hbl. cbn [free_forest st_live]. apply elem_of_difference. split; [done|]. rewrite elem_of_list_to_set. auto.
    + intros b Hb Hbn. cbn [free_forest st_nodes]. rewrite lookup_without, Hbn. now destruct (bool_decide _).
  - apply (linked_frame s.(st_nodes)); [|done]. intros b Hb. cbn [free_forest st_nodes]. rewrite lookup_without, bool_decide_eq_false_2; [done|].
    intros Hx. apply addrs_blocks in Hb, Hx. now apply (Hd b).
Qed.

Lemma free_children_loop_run doc f : forall parent prev s fuel, linked s.(st_nodes) parent prev None f -> owned doc s f ->
  (length (addrs f) < fuel)%nat -> free_children_loop fuel (head_or None f) s = Some (tt, free_forest f s).
Proof using.
  induction f as [|a p kids _ rest IHr]; intros parent prev s [|fuel] Hl Ho Hf; cbn [addrs length] in *; try lia.
  { cbn. unfold mret, M_ret, free_forest. destruct s. cbn. now rewrite <- live_none. }
  rewrite length_app in Hf. destruct (rest_after_first doc s a p kids rest parent prev Ho Hl) as [Ho1 Hl1].
  destruct Hl as (Ha & Hk & _). cbn [free_children_loop head_or]. run (node_at_run s a _ Ha).
  run (free_subtree_run doc s a p _ _ _ kids Ha Hk (owned_first _ _ _ _ _ _ Ho)). cbn [node_of n_next].
  rewrite (IHr parent (Some a) _ fuel Hl1 Ho1) by lia. now rewrite free_forest_app.
Qed.

(** Forgetting [n] elements. *)
Definition less_count (n : Z) (d : tlv_document_t) : tlv_document_t := with_d_count (d.(d_count) - n) d.

Lemma discard_loop_run doc f : forall parent prev s d fuel, linked s.(st_nodes) parent prev None f -> owned doc s f ->
  s.(st_documents) !! doc = Some d -> zlen (addrs f) <= d.(d_count) <= SIZE_MAX -> (length (addrs f) < fuel)%nat ->
  discard_loop fuel doc (head_or None f) s =
  Some (tt, with_documents (<[doc := less_count (zlen (addrs f)) d]> s.(st_documents)) (free_forest f s)).
Proof using.
  induction f as [|a p kids _ rest IHr]; intros parent prev s d [|fuel] Hl Ho Hd Hc Hf; cbn [addrs length] in *; try lia.
  { cbn. unfold mret, M_ret, free_forest, less_count, with_d_count, with_documents. destruct s. cbn in *. rewrite Z.sub_0_r, <- live_none.
    rewrite insert_id; [done|]. rewrite Hd. now destruct d. }
  rewrite length_app in *. pose proof (owned_first _ _ _ _ _ _ Ho) as Ho0.
  destruct (rest_after_first doc s a p kids rest parent prev Ho Hl) as [Ho1 Hl1].
  destruct Hl as (Ha & Hk & _). cbn [discard_loop head_or]. run (node_at_run s a _ Ha).
  assert (NoDup (a :: addrs kids)) as Hn.
  { destruct Ho0 as [_ Hn _ _ _]. rewrite blocks_split in Hn. cbn [addrs values] in Hn. rewrite app_nil_r in Hn. now apply NoDup_app in Hn as (Hn & _ & _). }
  run (subtree_size_run s a p _ _ _ kids Ha Hk Hn ltac:(lia)).
  run (update_document_run s doc (fun d => with_d_count (usize (d_count d - (1 + zlen (addrs kids)))) d) ltac:(eauto)).
  set (s1 := with_documents _ s).
  assert (owned doc s1 (DNode a p kids DNil)) as Hos1.
  { apply (owned_frame doc s); [done| |done|done]. intros b. cbn. now rewrite lookup_alter_is_Some. }
  run (free_subtree_run doc s1 a p _ _ _ kids Ha Hk Hos1). cbn [node_of n_next].
  set (n1 := 1 + zlen (addrs kids)).
  assert (s1.(st_documents) !! doc = Some (less_count n1 d)) as Hd1.
  { cbn. rewrite lookup_alter_eq, Hd. cbn. rewrite usize_small by lia. done. }
  erewrite (IHr parent (Some a) _ (less_count n1 d)); [| | | | |lia].
  - rewrite <- (free_forest_app s a p kids rest). unfold s1, with_documents, free_forest.
    cbn [st_mem st_nodes st_documents st_live st_next st_requests]. do 3 f_equal.
    apply map_eq. intros b. destruct (decide (b = doc)) as [->|Hb].
    + rewrite !lookup_insert_eq. f_equal. unfold less_count, with_d_count. cbn. f_equal. lia.
    + rewrite !lookup_insert_ne, lookup_alter_ne by done. done.
  - exact Hl1.
  - apply (owned_frame doc (free_forest (DNode a p kids DNil) s)); [done| |done|done].
    intros b. cbn. now rewrite lookup_alter_is_Some.
  - exact Hd1.
  - unfold less_count. cbn. lia.
Qed.
End Walks.
