(* ===== verification/DocumentInv.v ===== *)
(** * Documents: walks towards the root, and the invariant

    The walk that invalidates ancestors, and the invariant of a document: its links are those of a forest, its counters
    are those of the forest, its allocations are distinct and live, and its limits are kept. *)

From S2P Require Import Prelude Mem Core Format Diagnostic Reader Document DocumentTree DocumentFree.

(** * Walks towards the root *)

(** Ancestors forget where they came from. *)
Definition forget_location (p : payload) : payload :=
  mk_payload p.(np_identity) p.(np_document) p.(np_value) p.(np_value_size) p.(np_tag_size) p.(np_constructed) p.(np_pending)
    no_source_location.
Definition forget_frame (fr : dframe) : dframe :=
  mk_dframe fr.(df_left) fr.(df_addr) (forget_location fr.(df_payload)) fr.(df_right).
Definition forget (retain : bool) (C : list dframe) : list dframe := if retain then map forget_frame C else C.

Definition path_addrs (C : list dframe) : list Z := map df_addr C.

Lemma path_addrs_in C b : b ∈ path_addrs C -> b ∈ frame_addrs C.
Proof.
  induction C as [|fr C IH]; [done|]. cbn [path_addrs map frame_addrs]. rewrite !elem_of_cons, !elem_of_app. intuition auto.
Qed.
Lemma length_path_addrs C : (length C <= length (frame_addrs C))%nat.
Proof. induction C as [|fr C IH]; cbn [frame_addrs length]; [lia|]. rewrite !length_app. lia. Qed.
Lemma frame_addrs_forget retain C : frame_addrs (forget retain C) = frame_addrs C.
Proof. destruct retain; [|done]. cbn. induction C as [|[l a p r] C IH]; [done|]. cbn. now rewrite IH. Qed.
Lemma place_parent_forget root retain C : place_parent root (forget retain C) = place_parent root C.
Proof. destruct retain; [|done]. now destruct C as [|[]]. Qed.

Section Paths.
Context `{Platform} `{DocumentLayout} (doc : Z) (root : option Z).

Lemma frames_live s C : forall first last, place_linked doc root s C first last ->
  forall b, b ∈ frame_addrs C -> is_Some (s.(st_nodes) !! b).
Proof using.
  induction C as [|[l a p r] C IH]; intros first last HC b Hb; cbn [place_linked frame_addrs df_left df_addr df_right] in *; [set_solver|].
  destruct HC as (Ha & Hl & Hr & HC). rewrite elem_of_cons, !elem_of_app in Hb.
  destruct Hb as [->|[Hb|[Hb|Hb]]]; [eauto|eauto using linked_lookup..].
Qed.

Lemma path_fuel s C first last : NoDup (frame_addrs C) -> place_linked doc root s C first last ->
  (length C <= size s.(st_nodes))%nat.
Proof using.
  intros Hn HC. transitivity (length (frame_addrs C)); [apply length_path_addrs|].
  apply live_size; [done|]. eauto using frames_live.
Qed.

Lemma depth_loop_run s C : forall a n first last fuel depth, root = None ->
  s.(st_nodes) !! a = Some n -> n.(n_parent) = place_parent root C -> place_linked doc root s C first last ->
  (length C < fuel)%nat -> 0 <= depth -> depth + zlen C <= SIZE_MAX ->
  depth_loop fuel a depth s = Some (depth + zlen C, s).
Proof using.
  induction C as [|[l b p r] C IH]; intros a n first last [|fuel] depth Hr Ha Hp HC Hf Hd Hm; cbn [length place_parent] in *; try lia;
    cbn [depth_loop]; run (node_at_run s a n Ha); rewrite Hp.
  - rewrite Hr. cbn. now rewrite Z.add_0_r.
  - destruct HC as (Hb & _ & _ & HC). cbn [df_addr]. rewrite usize_small by lia.
    rewrite (IH b _ _ _ fuel (depth + 1) Hr Hb eq_refl HC) by lia. do 2 f_equal. lia.
Qed.

Lemma node_depth_run s C a n first last : root = None ->
  s.(st_nodes) !! a = Some n -> n.(n_parent) = place_parent root C -> place_linked doc root s C first last ->
  NoDup (frame_addrs C) -> zlen C <= SIZE_MAX -> node_depth a s = Some (zlen C, s).
Proof using.
  intros Hr Ha Hp HC Hn Hm. pose proof (path_fuel s C first last Hn HC). unfold node_depth, walk_fuel. erewrite bind_run by reflexivity.
  rewrite (depth_loop_run s C a n first last) by (done || lia). done.
Qed.

(** The walk that forgets the locations of a path. *)
Lemma invalidate_loop_run C : forall s first last fuel d, root = None ->
  s.(st_documents) !! doc = Some d -> d.(d_options).(do_retain) = true ->
  Forall (fun fr => fr.(df_payload).(np_document) = doc) C -> NoDup (frame_addrs C) ->
  place_linked doc root s C first last -> (length C < fuel)%nat ->
  exists s', invalidate_loop fuel (place_parent root C) s = Some (tt, s') /\
    place_linked doc root s' (map forget_frame C) first last /\ moves doc root s s' (frame_addrs C) /\
    (forall b, b ∉ path_addrs C -> s'.(st_nodes) !! b = s.(st_nodes) !! b).
Proof using.
  induction C as [|[l a p r] C IH]; intros s first last [|fuel] d Hroot Hd Hret Hdocs Hn HC Hf;
    cbn [place_parent df_addr length map forget_frame df_left df_payload df_right place_linked frame_addrs path_addrs] in *; try lia.
  { exists s. split; [now rewrite Hroot|]. split; [exact HC|]. split; [apply moves_refl|done]. }
  destruct HC as (Ha & Hl & Hr & HC). apply Forall_cons_1 in Hdocs as [Hpd Hdocs]. cbn in Hpd.
  apply NoDup_cons in Hn as [Hna Hn]. rewrite !not_elem_of_app in Hna. destruct Hna as (Hal & Har & HaC).
  apply NoDup_app in Hn as (Hnl & Hdl & Hn). apply NoDup_app in Hn as (Hnr & Hdr & HnC).
  set (s1 := with_nodes (alter (with_source_location no_source_location) a s.(st_nodes)) s).
  assert (forall b, b <> a -> s1.(st_nodes) !! b = s.(st_nodes) !! b) as Hs1 by (intros b Hb; now apply lookup_alter_ne).
  assert (s1.(st_nodes) !! a = Some (node_of (forget_location p) (place_parent root C) (last_or None l) (head_or None r) first last)) as Ha1
    by (cbn; now rewrite lookup_alter_eq, Ha).
  assert (place_linked doc root s1 C (head_or (Some a) l) (last_or (Some a) r)) as HC1.
  { apply (place_frame doc root s); [done| |done]. intros b Hb. apply Hs1. intros ->. unfold root_addrs in Hb. rewrite Hroot in Hb. now apply HaC. }
  destruct (IH s1 _ _ fuel d Hroot Hd Hret Hdocs HnC HC1 ltac:(lia)) as (s2 & E & HC2 & M & Ho).
  exists s2. split; [|split; [|split]].
  - cbn [invalidate_loop]. unfold document_node_location.
    erewrite bind_run by (run (node_at_run s a _ Ha); cbn [node_of n_document]; rewrite Hpd; run (document_at_run s doc d Hd); rewrite Hret; reflexivity).
    run (update_node_run s a (with_source_location no_source_location) ltac:(eauto)). run (node_at_run s1 a _ Ha1). exact E.
  - assert (forall b, b ∉ frame_addrs C -> s2.(st_nodes) !! b = s1.(st_nodes) !! b) as Ho' by (intros b Hb; apply Ho; auto using path_addrs_in).
    change (map forget_frame C) with (forget true C) in *. rewrite place_parent_forget.
    rewrite Ho' by done. split; [exact Ha1|].
    split; [|split; [|exact HC2]]; (apply (linked_frame s.(st_nodes)); [|done]); intros b Hb;
      (rewrite Ho', Hs1; [done|congruence|]); intros Hx.
    + apply (Hdl b Hb). rewrite elem_of_app. auto.
    + now apply (Hdr b Hb).
  - apply (moves_trans doc root _ s1).
    + split; try done; cbn.
      * intros b Hb. apply lookup_alter_ne. intros ->. apply Hb. rewrite elem_of_app, elem_of_cons. auto.
      * apply dom_alter_L.
    + apply (moves_sub doc root _ _ _ _ M). intros b Hb. rewrite elem_of_cons, !elem_of_app. auto.
  - intros b Hb. rewrite not_elem_of_cons in Hb. destruct Hb as [H1 H2]. rewrite Ho, Hs1 by done. done.
Qed.

(** Invalidation at a place: its ancestors forget their locations, when locations are retained. *)
Lemma invalidate_run s C g d : root = None -> s.(st_documents) !! doc = Some d ->
  Forall (fun fr => fr.(df_payload).(np_document) = doc) C -> NoDup (addrs (plug C g)) -> tree_in doc root s (plug C g) ->
  exists s', invalidate_locations (place_parent root C) s = Some (tt, s') /\
    tree_in doc root s' (plug (forget d.(d_options).(do_retain) C) g) /\ moves doc root s s' (addrs (plug C g)) /\
    (forall b, b ∉ path_addrs C -> s'.(st_nodes) !! b = s.(st_nodes) !! b).
Proof using.
  intros Hroot Hd Hdocs Hn Ht. pose proof Ht as Ht0. apply tree_in_plug in Ht as [HC Hg].
  rewrite addrs_plug in Hn. apply NoDup_app in Hn as (Hng & Hgd & HnC). unfold forget.
  destruct C as [|[l a p r] C].
  { exists s. cbn [place_parent]. rewrite Hroot. split; [done|]. split; [|split; [apply moves_refl|done]]. rewrite <- Hroot. now destruct (do_retain _). }
  unfold invalidate_locations. cbn [place_parent df_addr]. pose proof HC as (Ha & _). apply Forall_cons_1 in Hdocs as Hdc. destruct Hdc as [Hpd _]. cbn in Hpd.
  run (node_at_run s a _ Ha). cbn [node_of n_document]. rewrite Hpd. run (document_at_run s doc d Hd).
  destruct (do_retain (d_options d)) eqn:Eret.
  - pose proof (path_fuel s _ _ _ HnC HC) as Hfuel. unfold walk_fuel. erewrite bind_run by reflexivity.
    destruct (invalidate_loop_run _ s _ _ (S (S (2 * size (st_nodes s)))) d Hroot Hd Eret Hdocs HnC HC ltac:(lia)) as (s' & E & HC' & M & Ho).
    exists s'. split; [exact E|]. split; [|split; [|exact Ho]].
    + apply tree_in_plug. split; [exact HC'|]. change (map forget_frame ?x) with (forget true x). rewrite place_parent_forget.
      apply (linked_frame s.(st_nodes)); [|done]. intros b Hb. apply Ho. intros Hx. apply (Hgd b Hb). now apply path_addrs_in.
    + apply (moves_sub doc root _ _ _ _ M). intros b Hb. rewrite addrs_plug, elem_of_app. auto.
  - exists s. split; [done|]. split; [done|]. split; [apply moves_refl|done].
Qed.
End Paths.

(** * The invariant of a document

    The store owns the document: its links are those of a forest, its counters are those of the forest,
    its allocations are distinct and live, its identities are distinct, and its limits are kept. *)

(** ** Forests *)

(** Levels. *)
Fixpoint dheight (f : dforest) : Z :=
  match f with DNil => 0 | DNode _ _ kids rest => Z.max (1 + dheight kids) (dheight rest) end.

(** A primitive node has no children, a constructed one no value. *)
Fixpoint shape (f : dforest) : Prop :=
  match f with
  | DNil => True
  | DNode _ p kids rest =>
      (kids = DNil \/ p.(np_constructed) = true) /\
      (p.(np_constructed) = true -> p.(np_value) = NULL /\ p.(np_value_size) = 0) /\ shape kids /\ shape rest
  end.

Definition frame_ok (fr : dframe) : Prop :=
  fr.(df_payload).(np_constructed) = true /\ fr.(df_payload).(np_value) = NULL /\ fr.(df_payload).(np_value_size) = 0 /\
  shape fr.(df_left) /\ shape fr.(df_right).

Definition identities (f : dforest) : list Z := map np_identity (payloads f).

Fixpoint frame_payloads (C : list dframe) : list payload :=
  match C with
  | [] => []
  | fr :: C => fr.(df_payload) :: payloads fr.(df_left) ++ payloads fr.(df_right) ++ frame_payloads C
  end.
Fixpoint frame_blocks (C : list dframe) : list Z :=
  match C with
  | [] => []
  | fr :: C => fr.(df_addr) :: value_block fr.(df_payload) ++ blocks fr.(df_left) ++ blocks fr.(df_right) ++ frame_blocks C
  end.

Lemma payloads_plug C : forall g, payloads (plug C g) ≡ₚ payloads g ++ frame_payloads C.
Proof.
  induction C as [|[l a p r] C IH]; intros g; cbn [plug frame_payloads df_left df_addr df_payload df_right]; [now rewrite app_nil_r|].
  rewrite IH, payloads_dapp. cbn [payloads]. solve_Permutation.
Qed.
Lemma blocks_plug C : forall g, blocks (plug C g) ≡ₚ blocks g ++ frame_blocks C.
Proof.
  induction C as [|[l a p r] C IH]; intros g; cbn [plug frame_blocks df_left df_addr df_payload df_right]; [now rewrite app_nil_r|].
  rewrite IH, blocks_dapp. cbn [blocks]. solve_Permutation.
Qed.
Lemma frame_blocks_forget retain C : frame_blocks (forget retain C) = frame_blocks C.
Proof. destruct retain; [|done]. cbn. induction C as [|[l a p r] C IH]; [done|]. cbn. now rewrite IH. Qed.
Lemma frame_identities_forget retain C :
  map np_identity (frame_payloads (forget retain C)) = map np_identity (frame_payloads C).
Proof.
  destruct retain; [|done]. cbn. induction C as [|[l a p r] C IH]; [done|].
  cbn [map frame_payloads forget_frame df_payload df_left df_right]. now rewrite !map_app, IH.
Qed.
Lemma frame_payload_ok_forget `{Platform} doc retain C :
  Forall (payload_ok doc) (frame_payloads C) -> Forall (payload_ok doc) (frame_payloads (forget retain C)).
Proof.
  destruct retain; [|done]. cbn. induction C as [|[l a p r] C IH]; [done|]. cbn [map frame_payloads forget_frame df_payload df_left df_right].
  rewrite !Forall_cons, !Forall_app. intuition auto.
Qed.
Lemma length_forget retain C : length (forget retain C) = length C.
Proof. destruct retain; [apply length_map|done]. Qed.

Lemma dheight_nonneg f : 0 <= dheight f.
Proof. induction f; cbn; lia. Qed.
Lemma dheight_dapp f g : dheight (dapp f g) = Z.max (dheight f) (dheight g).
Proof. induction f as [|a p kids IHk rest IHr]; cbn; [pose proof (dheight_nonneg g); lia|]. rewrite IHr. lia. Qed.
Lemma dheight_plug C : forall g g', dheight (plug C g') <= Z.max (dheight (plug C g)) (zlen C + dheight g').
Proof.
  induction C as [|[l a p r] C IH]; intros g g'; cbn [plug df_left df_addr df_payload df_right length]; [lia|].
  etransitivity; [apply (IH (dapp l (DNode a p g r)))|]. rewrite dheight_dapp. cbn [dheight].
  pose proof (IH (dapp l (DNode a p g r)) (dapp l (DNode a p g r))) as H1. rewrite dheight_dapp in H1. cbn [dheight] in H1.
  assert (forall g, zlen C + dheight g <= dheight (plug C g)) as Hle.
  { clear. induction C as [|[l a p r] C IH]; intros g; cbn [plug df_left df_addr df_payload df_right length]; [lia|].
    etransitivity; [|apply IH]. rewrite dheight_dapp. cbn [dheight]. lia. }
  pose proof (Hle (dapp l (DNode a p g r))) as H2. rewrite dheight_dapp in H2. cbn [dheight] in H2. lia.
Qed.
Lemma dheight_place C g : zlen C + dheight g <= dheight (plug C g).
Proof.
  revert g. induction C as [|[l a p r] C IH]; intros g; cbn [plug df_left df_addr df_payload df_right length]; [lia|].
  etransitivity; [|apply IH]. rewrite dheight_dapp. cbn [dheight]. lia.
Qed.
Lemma dheight_forget retain C : forall g, dheight (plug (forget retain C) g) = dheight (plug C g).
Proof.
  destruct retain; [|done]. cbn. enough (forall g g', dheight g = dheight g' -> dheight (plug (map forget_frame C) g) = dheight (plug C g')) as Hx by auto.
  induction C as [|[l a p r] C IH]; intros g g' E; cbn [map plug forget_frame df_left df_addr df_payload df_right]; [done|].
  apply IH. rewrite !dheight_dapp. cbn [dheight]. now rewrite E.
Qed.

Lemma shape_dapp f g : shape (dapp f g) <-> shape f /\ shape g.
Proof. induction f as [|a p kids IHk rest IHr]; cbn; [tauto|]. rewrite IHr. tauto. Qed.
Lemma shape_plug C : forall g, Forall frame_ok C -> shape g -> shape (plug C g).
Proof.
  induction C as [|[l a p r] C IH]; intros g HC Hg; cbn [plug]; [done|]. apply Forall_cons_1 in HC as [(H1 & H2 & H3 & H4 & H5) HC].
  cbn [df_left df_addr df_payload df_right] in *. apply IH; [done|]. rewrite shape_dapp. cbn [shape]. tauto.
Qed.
Lemma shape_unplug C : forall g, g <> DNil -> shape (plug C g) -> Forall frame_ok C /\ shape g.
Proof.
  induction C as [|[l a p r] C IH]; intros g Hg Hs; cbn [plug df_left df_addr df_payload df_right] in *; [now split|].
  apply IH in Hs as [HC Hs]; [|now destruct l]. rewrite shape_dapp in Hs. cbn [shape] in Hs. destruct Hs as (Hl & Hk & Hv & Hsg & Hr).
  split; [|done]. constructor; [|done]. unfold frame_ok. cbn. destruct Hk as [Hk|Hk]; [done|]. destruct (Hv Hk). auto.
Qed.
Lemma frame_ok_forget retain C : Forall frame_ok C -> Forall frame_ok (forget retain C).
Proof. destruct retain; [|done]. cbn. induction 1 as [|fr C Hf HC IH]; constructor; [exact Hf|done]. Qed.

(** ** Stores *)

Section Invariant.
Context `{Platform} `{DocumentLayout}.

(** Nothing lives at an address that has not been handed out. *)
Record store_ok (s : store) : Prop := {
  so_nodes : forall b, s.(st_next) <= b -> s.(st_nodes) !! b = None;
  so_documents : forall b, s.(st_next) <= b -> s.(st_documents) !! b = None;
  so_live : forall b, s.(st_next) <= b -> b ∉ s.(st_live) }.

Record limits (d : tlv_document_t) : Prop := {
  li_elements : 0 <= d.(d_options).(do_max_elements) <= SIZE_MAX;
  li_depth : 0 <= d.(d_options).(do_max_depth) <= SIZE_MAX;
  li_identity : 0 <= d.(d_next_identity) <= UINT64_MAX }.

Record doc_ok (s : store) (doc : Z) (d : tlv_document_t) (f : dforest) : Prop := {
  dk_store : store_ok s;
  dk_document : s.(st_documents) !! doc = Some d;
  dk_self : doc ∈ s.(st_live);
  dk_tree : tree_in doc None s f;
  dk_owned : owned doc s f;
  dk_limits : limits d;
  dk_count : d.(d_count) = zlen (addrs f) /\ zlen (addrs f) <= d.(d_options).(do_max_elements);
  dk_height : dheight f <= d.(d_options).(do_max_depth) + 1;
  dk_shape : shape f;
  dk_identities : NoDup (identities f) /\ Forall (fun i => 0 < i <= d.(d_next_identity)) (identities f) }.

Lemma owned_addrs doc s f : owned doc s f -> NoDup (addrs f).
Proof using. intros [_ Hn _ _ _]. rewrite blocks_split in Hn. now apply NoDup_app in Hn as (Hn & _ & _). Qed.

Lemma documents_same doc root s s' A b d : moves doc root s s' A -> s.(st_documents) !! b = Some d ->
  exists d', s'.(st_documents) !! b = Some d' /\ clear_ends d' = clear_ends d.
Proof using.
  intros Hm Hd. pose proof (mv_documents _ _ _ _ _ Hm b) as E. rewrite Hd in E. cbn in E.
  destruct (s'.(st_documents) !! b) as [d'|]; [|done]. apply (inj Some) in E. eauto.
Qed.

Lemma documents_live doc root s s' A : moves doc root s s' A ->
  forall b, is_Some (s.(st_documents) !! b) <-> is_Some (s'.(st_documents) !! b).
Proof using.
  intros Hm b. pose proof (mv_documents _ _ _ _ _ Hm b) as E.
  destruct (s.(st_documents) !! b), (s'.(st_documents) !! b); cbn in E; try done; split; intros [? ?]; eauto; done.
Qed.

Lemma moves_none doc root s s' A b : moves doc root s s' A -> s.(st_nodes) !! b = None -> s'.(st_nodes) !! b = None.
Proof using. intros Hm Hb. apply not_elem_of_dom. rewrite (mv_dom _ _ _ _ _ Hm). now apply not_elem_of_dom. Qed.

Lemma moves_owned root doc s s' A f : moves doc root s s' A -> owned doc s f -> owned doc s' f.
Proof using.
  intros Hm Ho. apply (owned_frame doc s); [done|eapply documents_live; eauto| |].
  - intros b _ Hb. now rewrite (mv_live _ _ _ _ _ Hm).
  - intros b _. eapply moves_none; eauto.
Qed.

Lemma moves_store_ok doc root s s' A : moves doc root s s' A -> store_ok s -> store_ok s'.
Proof using.
  intros Hm [Hn Hd Hl]. pose proof (mv_next _ _ _ _ _ Hm) as En. split; intros b Hb; rewrite En in Hb.
  - eapply moves_none; eauto.
  - pose proof (mv_documents _ _ _ _ _ Hm b) as E. rewrite Hd in E by done. now destruct (s'.(st_documents) !! b).
  - rewrite (mv_live _ _ _ _ _ Hm). auto.
Qed.

Lemma tree_in_frame doc root s s' f : tree_in doc root s f ->
  (forall b, b ∈ root_addrs root ++ addrs f -> s'.(st_nodes) !! b = s.(st_nodes) !! b) ->
  (root = None -> forall d, s.(st_documents) !! doc = Some d ->
     exists d', s'.(st_documents) !! doc = Some d' /\ d'.(d_first) = d.(d_first) /\ d'.(d_last) = d.(d_last)) ->
  tree_in doc root s' f.
Proof using.
  intros [Hc Hl] Hn Hd. split.
  - unfold cells in *. destruct root as [h|].
    + rewrite Hn by (apply elem_of_app; left; apply elem_of_cons; now left). done.
    + destruct Hc as (d & E & H1 & H2). destruct (Hd eq_refl d E) as (d' & E' & H3 & H4). exists d'. split; [done|]. split; congruence.
  - apply (linked_frame s.(st_nodes)); [|done]. intros b Hb. apply Hn. rewrite elem_of_app. auto.
Qed.
End Invariant.
