(* ===== verification/DocumentErase.v ===== *)
(** * Documents: erasing a node *)

From S2P Require Import Prelude Mem Core Format Diagnostic Reader TreeReader Document DocumentReader DocumentEdit.
From S2P Require Import DocumentTree DocumentFree DocumentInv.

Section Erase.
Context `{Platform} `{DocumentLayout}.

Lemma clear_ends_eq d d' : clear_ends d' = clear_ends d ->
  d'.(d_options) = d.(d_options) /\ d'.(d_allocator) = d.(d_allocator) /\ d'.(d_count) = d.(d_count) /\
  d'.(d_revision) = d.(d_revision) /\ d'.(d_retire_epoch) = d.(d_retire_epoch) /\
  d'.(d_query_callbacks) = d.(d_query_callbacks) /\ d'.(d_query_pending) = d.(d_query_pending) /\
  d'.(d_next_identity) = d.(d_next_identity).
Proof using. unfold clear_ends, with_d_first, with_d_last. cbn. intros [=]. done. Qed.

(** Taking a subtree out of a forest keeps what the invariant asks of a forest. *)
Lemma removed_forest C l a p kids r : let f := plug C (dapp l (DNode a p kids r)) in let g := plug C (dapp l r) in
  addrs f ≡ₚ (a :: addrs kids) ++ addrs g /\ blocks f ≡ₚ blocks (DNode a p kids DNil) ++ blocks g /\
  payloads f ≡ₚ (p :: payloads kids) ++ payloads g /\ dheight g <= dheight f /\ (shape f -> shape g).
Proof using.
  cbv zeta. split; [|split; [|split; [|split]]].
  - rewrite !addrs_plug, !addrs_dapp. cbn [addrs]. solve_Permutation.
  - rewrite !blocks_plug, !blocks_dapp. cbn [blocks]. rewrite app_nil_r. solve_Permutation.
  - rewrite !payloads_plug, !payloads_dapp. cbn [payloads]. solve_Permutation.
  - etransitivity; [apply (dheight_plug C (dapp l (DNode a p kids r)))|].
    pose proof (dheight_place C (dapp l (DNode a p kids r))) as H1. rewrite !dheight_dapp in *. cbn [dheight] in *. lia.
  - intros Hs. apply shape_unplug in Hs as [HC Hs]; [|now destruct l]. apply shape_plug; [done|].
    rewrite shape_dapp in *. cbn [shape] in Hs. tauto.
Qed.

Lemma frame_documents doc s C g : owned doc s (plug C g) -> Forall (fun fr => np_document fr.(df_payload) = doc) C.
Proof using.
  intros [_ _ _ _ Hp]. rewrite payloads_plug in Hp. apply Forall_app in Hp as [_ Hp]. induction C as [|[l a p r] C IH]; [done|].
  cbn [frame_payloads df_payload] in Hp. rewrite Forall_cons, !Forall_app in Hp. destruct Hp as ([Hp _] & _ & _ & HpC). constructor; auto.
Qed.

(** What an edit to the ancestors' locations keeps. *)
Lemma forget_blocks retain C g : blocks (plug (forget retain C) g) ≡ₚ blocks (plug C g).
Proof using. now rewrite !blocks_plug, frame_blocks_forget. Qed.
Lemma forget_addrs retain C g : addrs (plug (forget retain C) g) ≡ₚ addrs (plug C g).
Proof using. now rewrite !addrs_plug, frame_addrs_forget. Qed.
Lemma forget_identities retain C g : identities (plug (forget retain C) g) ≡ₚ identities (plug C g).
Proof using.
  unfold identities. rewrite (Permutation_map np_identity (payloads_plug (forget retain C) g)).
  rewrite (Permutation_map np_identity (payloads_plug C g)). now rewrite !map_app, frame_identities_forget.
Qed.
Lemma forget_payload_ok doc retain C g : Forall (payload_ok doc) (payloads (plug C g)) ->
  Forall (payload_ok doc) (payloads (plug (forget retain C) g)).
Proof using. rewrite !payloads_plug, !Forall_app. intros [H1 H2]. split; [done|]. now apply frame_payload_ok_forget. Qed.

Lemma forget_values retain C g : values (plug (forget retain C) g) ≡ₚ values (plug C g).
Proof using.
  apply (Permutation_app_inv_l (addrs (plug C g))). rewrite <- (forget_addrs retain C g) at 1.
  now rewrite <- !blocks_split, forget_blocks.
Qed.

Lemma forget_owned doc s retain C g : owned doc s (plug C g) -> owned doc s (plug (forget retain C) g).
Proof using.
  intros [Hd Hn Hl Hv Hp]. split; [done|now rewrite forget_blocks| | |now apply forget_payload_ok].
  - intros b. rewrite forget_blocks. auto.
  - intros b. rewrite forget_values. auto.
Qed.

Lemma doc_nodup s doc d f : doc_ok s doc d f -> NoDup (addrs f).
Proof using. intros [_ _ _ _ Ho _ _ _ _ _]. now apply owned_addrs in Ho. Qed.

(** A forest of which a subtree is gone is still owned. *)
Lemma removed_owned doc s C l a p kids r : owned doc s (plug C (dapp l (DNode a p kids r))) ->
  owned doc s (plug C (dapp l r)) /\ owned doc s (DNode a p kids DNil) /\
  (forall b, b ∈ blocks (plug C (dapp l r)) -> b ∉ blocks (DNode a p kids DNil)).
Proof using.
  intros Ho. destruct (removed_forest C l a p kids r) as (Ha & Hb & Hp & _). pose proof Ho as [_ Hn _ _ _].
  rewrite Hb in Hn. apply NoDup_app in Hn as (H1 & H2 & H3).
  assert (values (plug C (dapp l (DNode a p kids r))) ≡ₚ values (DNode a p kids DNil) ++ values (plug C (dapp l r))) as Hv.
  { apply (Permutation_app_inv_l (addrs (plug C (dapp l (DNode a p kids r))))). rewrite <- blocks_split, Hb, Ha, !blocks_split.
    cbn [addrs]. rewrite app_nil_r. solve_Permutation. }
  split; [|split; [|intros b Hx Hy; now apply (H2 b)]].
  - apply (owned_sub doc s _ _ Ho H3); intros b; [rewrite Hb|rewrite Hv|rewrite Hp]; rewrite elem_of_app; auto.
  - apply (owned_sub doc s _ _ Ho H1); intros b; [rewrite Hb|rewrite Hv|rewrite Hp]; rewrite !elem_of_app; [auto..|].
    cbn [payloads]. rewrite app_nil_r. auto.
Qed.

(** The steps of an erasure behind the invalidation: unlink, uncount, free. *)
Lemma unlink_free_run s doc C l a p kids r d :
  s.(st_documents) !! doc = Some d -> tree_in doc None s (plug C (dapp l (DNode a p kids r))) ->
  owned doc s (plug C (dapp l (DNode a p kids r))) ->
  d.(d_count) = zlen (addrs (plug C (dapp l (DNode a p kids r)))) -> d.(d_count) <= SIZE_MAX ->
  exists s' d', (_ ← node_unlink a; count ← subtree_size a; _ ← change_count doc (fun c => c - count); free_subtree a) s = Some (tt, s') /\
    s'.(st_documents) !! doc = Some d' /\ clear_ends d' = clear_ends (less_count (1 + zlen (addrs kids)) d) /\
    tree_in doc None s' (plug C (dapp l r)) /\ owned doc s' (plug C (dapp l r)) /\ (store_ok s -> store_ok s') /\
    s'.(st_mem) = s.(st_mem) /\ s'.(st_live) = s.(st_live) ∖ list_to_set (blocks (DNode a p kids DNil)) /\
    s'.(st_next) = s.(st_next) /\ s'.(st_requests) = s.(st_requests).
Proof using.
  intros Hd Ht Ho Hc Hmax. pose proof (owned_addrs _ _ _ Ho) as Hn.
  destruct (removed_forest C l a p kids r) as (Ha & Hb & _ & _).
  destruct (removed_owned _ _ _ _ _ _ _ _ Ho) as (Hog & Hoa & Hdis).
  assert (np_document p = doc) as Hp by (destruct Hoa as [_ _ _ _ Hpp]; apply Forall_inv in Hpp as [Hpp _]; done).
  destruct (node_unlink_run doc None s C l a p kids r Hp Hn Ht) as (s1 & E1 & Ht1 & Ha1 & Hk1 & M1).
  destruct (documents_same _ _ _ _ _ _ _ M1 Hd) as (d1 & Hd1 & Ec). pose proof (clear_ends_eq _ _ Ec) as (_ & _ & Ecount & _).
  assert (zlen (addrs (plug C (dapp l (DNode a p kids r)))) = 1 + zlen (addrs kids) + zlen (addrs (plug C (dapp l r)))) as Hlen.
  { rewrite (Permutation_length Ha). cbn [length app]. rewrite length_app. lia. }
  rewrite Ha in Hn. apply NoDup_app in Hn as (Hnk & _ & _).
  assert (1 + zlen (addrs kids) <= SIZE_MAX) as Hsz by (clear - Hlen Hc Hmax; lia).
  pose proof (subtree_size_run s1 a p _ _ _ kids Ha1 Hk1 Hnk Hsz) as E2.
  set (s2 := with_documents (alter (fun d => with_d_count (usize (d_count d - (1 + zlen (addrs kids)))) d) doc s1.(st_documents)) s1).
  assert (change_count doc (fun c => c - (1 + zlen (addrs kids))) s1 = Some (tt, s2)) as E3 by (apply update_document_run; eauto).
  assert (owned doc s2 (DNode a p kids DNil)) as Ho2.
  { apply (owned_frame doc s1); [now apply (moves_owned None doc s s1 _ _ M1)| |done|done]. intros b. cbn. now rewrite lookup_alter_is_Some. }
  pose proof (free_subtree_run doc s2 a p _ _ _ kids Ha1 Hk1 Ho2) as E4.
  exists (free_forest (DNode a p kids DNil) s2), (less_count (1 + zlen (addrs kids)) d1).
  assert (forall b, b ∈ addrs (plug C (dapp l r)) -> b ∉ addrs (DNode a p kids DNil)) as Hdis'.
  { intros b Hx Hy. apply addrs_blocks in Hx, Hy. now apply (Hdis b). }
  split; [run E1; run E2; run E3; exact E4|]. split.
  { cbn. rewrite lookup_alter_eq, Hd1. cbn. rewrite usize_small by lia. done. }
  split; [unfold less_count, clear_ends, with_d_first, with_d_last, with_d_count in *; cbn in *; injection Ec as -> -> -> -> -> -> -> ->; done|].
  split; [|split; [|split; [|split; [|split; [|split]]]]].
  - apply (tree_in_frame doc None s1); [done| |].
    + cbn [root_addrs app]. intros b Hx. cbn [free_forest st_nodes]. rewrite lookup_without, bool_decide_eq_false_2; [done|]. now apply Hdis'.
    + intros _ x Hx. cbn. rewrite lookup_alter_eq, Hx. cbn. eauto.
  - apply (owned_frame doc s1); [now apply (moves_owned None doc s s1 _ _ M1)| | |].
    + intros b. cbn. now rewrite lookup_alter_is_Some.
    + intros b Hx Hl. cbn [free_forest st_live]. apply elem_of_difference. split; [done|]. rewrite elem_of_list_to_set. now apply Hdis.
    + intros b _ Hx. cbn [free_forest st_nodes]. rewrite lookup_without. cbn [with_documents s2 st_nodes]. rewrite Hx. now destruct (bool_decide _).
  - intros Hso. pose proof (moves_store_ok _ _ _ _ _ M1 Hso) as [N1 D1 L1].
    split; cbn [free_forest st_nodes st_documents st_live st_next s2 with_documents]; intros b Hx.
    + rewrite lookup_without, N1 by done. now destruct (bool_decide _).
    + apply lookup_alter_None. now apply D1.
    + rewrite elem_of_difference. intros [Hy _]. now apply (L1 b).
  - cbn. apply M1.
  - cbn [free_forest st_live s2 with_documents]. now rewrite (mv_live _ _ _ _ _ M1).
  - cbn. apply M1.
  - cbn. apply M1.
Qed.

(** ** Theorem *)

(** C6. Erasing a node of a well-formed document removes its subtree and nothing else: the remaining
    forest is the document without the subtree, the element count drops by its size, every allocation
    of the subtree is released, each once, and no other; the ancestors forget their source locations
    and both counters advance.  The walks terminate and never touch a dead object. *)
Theorem node_erase_removes (s : store) (doc : Z) (d : tlv_document_t) (C : list dframe) (l : dforest) (a : Z) (p : payload)
  (kids r : dforest) (Hok : doc_ok s doc d (plug C (dapp l (DNode a p kids r)))) (Hq : d.(d_query_callbacks) = 0) :
  exists s' d', tlv_node_erase (Some a) s = Some (tt, s') /\
    doc_ok s' doc d' (plug (forget d.(d_options).(do_retain) C) (dapp l r)) /\
    d'.(d_count) = d.(d_count) - (1 + zlen (addrs kids)) /\
    s'.(st_live) = s.(st_live) ∖ list_to_set (blocks (DNode a p kids DNil)) /\ s'.(st_mem) = s.(st_mem) /\
    d'.(d_revision) = u64 (d.(d_revision) + 1) /\ d'.(d_retire_epoch) = u64 (d.(d_retire_epoch) + 1).
Proof.
  pose proof Hok as [Hst Hd Hself Ht Ho [He Hmd Hid] [Hc Hcm] Hh Hsh [Hni Hi]].
  pose proof (doc_nodup _ _ _ _ Hok) as Hn.
  destruct (removed_forest C l a p kids r) as (Ha & Hb & Hp & Hhg & Hshg).
  pose proof (frame_documents doc s C _ Ho) as Hdocs.
  pose proof Ht as Htt. apply filled_gap in Htt as (_ & Hna & _).
  assert (np_document p = doc) as Hpd.
  { destruct Ho as [_ _ _ _ Hpp]. rewrite Hp in Hpp. apply Forall_inv in Hpp. apply Hpp. }
  destruct (invalidate_run doc None s C _ d eq_refl Hd Hdocs Hn Ht) as (s1 & E1 & Ht1 & M1 & Hoth1).
  set (C' := forget (do_retain (d_options d)) C) in *.
  destruct (documents_same _ _ _ _ _ _ _ M1 Hd) as (d1 & Hd1 & Ec1). pose proof (clear_ends_eq _ _ Ec1) as (Eo1 & _ & Ec1' & Er1 & Ep1 & Eq1 & _ & Ei1).
  pose proof (forget_owned doc s1 (do_retain (d_options d)) C _ (moves_owned None doc s s1 _ _ M1 Ho)) as Ho1. fold C' in Ho1.
  assert (zlen (addrs (plug C' (dapp l (DNode a p kids r)))) = zlen (addrs (plug C (dapp l (DNode a p kids r))))) as El
    by (unfold C'; now rewrite (Permutation_length (forget_addrs _ _ _))).
  destruct (unlink_free_run s1 doc C' l a p kids r d1 Hd1 Ht1 Ho1 ltac:(congruence) ltac:(lia))
    as (s2 & d2 & E2 & Hd2 & Ec2 & Ht2 & Ho2 & Hst2 & Em2 & Elv2 & _ & _).
  pose proof (clear_ends_eq _ _ Ec2) as (Eo2 & _ & Ecount2 & Er2 & Ep2 & Eq2 & _ & Ei2).
  unfold less_count, with_d_count in *. cbn [d_options d_count d_revision d_retire_epoch d_query_callbacks d_next_identity] in *.
  set (s3 := with_documents (alter (revised true) doc s2.(st_documents)) s2).
  exists s3, (revised true d2). split; [|split; [|split; [|split; [|split; [|split]]]]].
  - unfold tlv_node_erase. run (node_at_run s a _ Hna). cbn [node_of n_document n_parent]. rewrite Hpd. run (document_at_run s doc d Hd).
    rewrite Hq. cbn [Z.eqb negb]. run E1.
    unfold mbind, M_bind in E2 |- *. destruct (node_unlink a s1) as [[[] s1a]|]; [|done]. destruct (subtree_size a s1a) as [[n s1b]|]; [|done].
    destruct (change_count doc _ s1b) as [[[] s1c]|]; [|done]. rewrite E2. rewrite (update_document_run s2 doc (revised true)) by eauto. done.
  - assert (plug C' (dapp l r) = plug C' (dapp l r)) as _ by done.
    assert (owned doc s3 (plug C' (dapp l r))) as Ho3.
    { apply (owned_frame doc s2); [done| |done|done]. intros b. cbn. now rewrite lookup_alter_is_Some. }
    assert (identities (plug C (dapp l (DNode a p kids r))) ≡ₚ map np_identity (p :: payloads kids) ++ identities (plug C' (dapp l r))) as Hids.
    { unfold C'. rewrite forget_identities. unfold identities. rewrite <- map_app. now apply Permutation_map. }
    rewrite Hids in Hni, Hi. apply NoDup_app in Hni as (_ & _ & Hni). apply Forall_app in Hi as [_ Hi].
    assert (zlen (addrs (plug C (dapp l (DNode a p kids r)))) = 1 + zlen (addrs kids) + zlen (addrs (plug C' (dapp l r)))) as Hlen.
    { rewrite (Permutation_length Ha). unfold C'. rewrite (Permutation_length (forget_addrs _ _ _)). cbn [length app]. rewrite length_app. lia. }
    split; try done.
    + destruct (Hst2 (moves_store_ok _ _ _ _ _ M1 Hst)) as [N2 D2 L2]. split; cbn; auto. intros b Hx. apply lookup_alter_None. auto.
    + cbn. now rewrite lookup_alter_eq, Hd2.
    + cbn. rewrite Elv2, (mv_live _ _ _ _ _ M1). apply elem_of_difference. split; [done|]. rewrite elem_of_list_to_set.
      intros Hx. destruct Ho as [_ _ Hl _ _]. destruct (Hl doc) as [_ E]; [rewrite Hb, elem_of_app; auto|congruence].
    + apply (tree_in_frame doc None s2); [done|done|]. intros _ x Hx. cbn. rewrite lookup_alter_eq, Hx. cbn. eauto.
    + split; cbn; [rewrite Eo2, Eo1..|rewrite Ei2, Ei1]; done.
    + cbn. rewrite Ecount2, Eo2, Eo1. lia.
    + cbn. rewrite Eo2, Eo1. unfold C'. rewrite dheight_forget. lia.
    + unfold C'. apply shape_unplug in Hsh as [HC Hs]; [|now destruct l]. apply shape_plug; [now apply frame_ok_forget|].
      rewrite shape_dapp in *. cbn [shape] in Hs. tauto.
    + cbn. rewrite Ei2, Ei1. done.
  - cbn. lia.
  - cbn [s3 with_documents st_live]. now rewrite Elv2, (mv_live _ _ _ _ _ M1).
  - cbn. rewrite Em2. apply M1.
  - cbn. congruence.
  - cbn. congruence.
Qed.
End Erase.
