(* ===== verification/DocumentBuild.v ===== *)
(** * Documents: creating a node

    Trees are built below the document itself or below a detached holder while other trees of the
    document stay as they are.  Whatever the outcome, what was there before is untouched and every
    allocation belongs to the tree that is being built. *)

From S2P Require Import Prelude Mem Core Format Diagnostic Reader Document.
From S2P Require Import DocumentTree DocumentFree DocumentInv DocumentErase.

(** Where a tree is built: in which document, below which holder, next to how many elements, at which
    depth, after which identity, and the allocations that are not the tree's. *)
Record site := mk_site {
  si_doc : Z; si_root : option Z; si_base : Z; si_depth : Z; si_identity : Z; si_rest : gset Z }.

Section Build.
Context `{Platform} `{DocumentLayout}.

Record built (B : site) (s : store) (d : tlv_document_t) (F : dforest) : Prop := {
  bt_store : store_ok s;
  bt_document : s.(st_documents) !! B.(si_doc) = Some d;
  bt_tree : tree_in B.(si_doc) B.(si_root) s F;
  bt_owned : owned B.(si_doc) s F;
  bt_holder : forall h, B.(si_root) = Some h -> (h ∉ blocks F) /\ (h ∉ s.(st_live)) /\ s.(st_documents) !! h = None;
  bt_limits : limits d;
  bt_count : d.(d_count) = B.(si_base) + zlen (addrs F) /\ 0 <= B.(si_base) /\ d.(d_count) <= d.(d_options).(do_max_elements);
  bt_height : 0 <= B.(si_depth) /\ (F = DNil \/ B.(si_depth) + dheight F <= d.(d_options).(do_max_depth) + 1);
  bt_shape : shape F;
  bt_identities : NoDup (identities F) /\ B.(si_identity) <= d.(d_next_identity) /\
                  Forall (fun i => B.(si_identity) < i <= d.(d_next_identity)) (identities F);
  bt_rest : s.(st_live) ∖ list_to_set (blocks F) = B.(si_rest) }.

(** Only the nodes [A] and what is new have changed. *)
Record extends (B : site) (A : list Z) (s s' : store) : Prop := {
  ex_next : s.(st_next) <= s'.(st_next);
  ex_mem : forall b o, b < s.(st_next) -> s'.(st_mem) b o = s.(st_mem) b o;
  ex_nodes : forall b, b < s.(st_next) -> b ∉ A -> s'.(st_nodes) !! b = s.(st_nodes) !! b;
  ex_documents : forall b, b <> B.(si_doc) -> s'.(st_documents) !! b = s.(st_documents) !! b;
  ex_document : forall d, s.(st_documents) !! B.(si_doc) = Some d -> exists d', s'.(st_documents) !! B.(si_doc) = Some d' /\
    d'.(d_options) = d.(d_options) /\ d'.(d_allocator) = d.(d_allocator) /\ d'.(d_revision) = d.(d_revision) /\
    d'.(d_retire_epoch) = d.(d_retire_epoch) /\ d'.(d_query_callbacks) = d.(d_query_callbacks) /\
    d'.(d_query_pending) = d.(d_query_pending) /\ d.(d_next_identity) <= d'.(d_next_identity) /\
    (B.(si_root) <> None -> d'.(d_first) = d.(d_first) /\ d'.(d_last) = d.(d_last)) }.

Lemma extends_refl B A s : extends B A s s.
Proof using.
  split; try done. intros d Hd. exists d. repeat (split; [done|]). done.
Qed.

Lemma extends_trans B A A' s1 s2 s3 : extends B A s1 s2 -> extends B A' s2 s3 ->
  (forall b, b ∈ A' -> b ∈ A \/ s1.(st_next) <= b) -> extends B A s1 s3.
Proof using.
  intros [N1 M1 D1 O1 E1] [N2 M2 D2 O2 E2] HA. split.
  - lia.
  - intros b o Hb. rewrite M2, M1 by lia. done.
  - intros b Hb Hn. rewrite D2, D1; [done|done|done|lia|]. intros Hx. destruct (HA b Hx); [done|lia].
  - intros b Hb. rewrite O2, O1 by done. done.
  - intros d Hd. destruct (E1 d Hd) as (d1 & Hd1 & ? & ? & ? & ? & ? & ? & ? & Hr1).
    destruct (E2 d1 Hd1) as (d2 & Hd2 & ? & ? & ? & ? & ? & ? & ? & Hr2). exists d2.
    repeat (split; [congruence || lia|]). intros Hr. destruct (Hr1 Hr), (Hr2 Hr). split; congruence.
Qed.

Lemma extends_sub B A A' s s' : extends B A' s s' -> (forall b, b ∈ A' -> b ∈ A \/ s.(st_next) <= b) -> extends B A s s'.
Proof using. intros E HA. apply (extends_trans B A A' s s s'); [apply extends_refl|done|done]. Qed.

(** A change of links is such a change. *)
Lemma moves_extends B A s s' : moves B.(si_doc) B.(si_root) s s' A ->
  extends B (root_addrs B.(si_root) ++ A) s s'.
Proof using.
  intros Hm. pose proof (mv_next _ _ _ _ _ Hm) as En. pose proof (mv_mem _ _ _ _ _ Hm) as Em. split; [lia|intros; now rewrite Em| |apply Hm|].
  - intros b _ Hb. now apply Hm.
  - intros d E. destruct (documents_same _ _ _ _ _ _ _ Hm E) as (d' & Hd' & Ec). exists d'.
    pose proof (clear_ends_eq _ _ Ec) as (? & ? & ? & ? & ? & ? & ? & ?). repeat (split; [done || lia|]).
    intros Hr. rewrite (mv_rooted _ _ _ _ _ Hm Hr) in Hd'. assert (d' = d) as -> by congruence. done.
Qed.

(** Another tree of the document survives. *)
Lemma extends_tree B A s s' f : extends B A s s' -> B.(si_root) <> None -> tree_in B.(si_doc) None s f ->
  (forall b, b ∈ addrs f -> b < s.(st_next) /\ b ∉ A) -> is_Some (s.(st_documents) !! B.(si_doc)) ->
  tree_in B.(si_doc) None s' f.
Proof using.
  intros E Hr Ht Hf [d0 Hd0]. apply (tree_in_frame _ None s); [done| |].
  - cbn. intros b Hb. destruct (Hf b Hb). now apply E.
  - intros _ d Hd. destruct (ex_document _ _ _ _ E d Hd) as (d' & Hd' & _ & _ & _ & _ & _ & _ & _ & He). exists d'.
    split; [done|]. now apply He.
Qed.

(** ** Allocation *)

Definition allocated (n : Z) (s : store) : store :=
  mk_store s.(st_mem) s.(st_nodes) s.(st_documents) ({[s.(st_next)]} ∪ s.(st_live)) (s.(st_next) + 1) (n :: s.(st_requests)).
Definition refused (n : Z) (s : store) : store :=
  mk_store s.(st_mem) s.(st_nodes) s.(st_documents) s.(st_live) s.(st_next) (n :: s.(st_requests)).

Lemma allocate_run s doc d n : s.(st_documents) !! doc = Some d ->
  document_memory_allocate doc n s =
  if d.(d_allocator) s.(st_requests) n then Some (Some s.(st_next), allocated n s) else Some (None, refused n s).
Proof using. intros Hd. unfold document_memory_allocate. run (document_at_run s doc d Hd). reflexivity. Qed.

Lemma copy_bytes_run s doc d data n : s.(st_documents) !! doc = Some d -> n <> 0 ->
  copy_bytes doc data n s =
  if d.(d_allocator) s.(st_requests) n
  then Some (Ptr s.(st_next) 0, with_memory (memcpy s.(st_mem) (Ptr s.(st_next) 0) data n) (allocated n s))
  else Some (NULL, refused n s).
Proof using.
  intros Hd Hn. unfold copy_bytes. rewrite (proj2 (Z.eqb_neq n 0)) by done. unfold mbind at 1. unfold M_bind at 1.
  rewrite (allocate_run s doc d n Hd). destruct (d_allocator d _ n); reflexivity.
Qed.

(** The node as it is created. *)
Definition created_payload (doc : Z) (d : tlv_document_t) (tag : tlv_tag_t) (constructed : bool) (v : ptr) (size : Z) : payload :=
  mk_payload (d.(d_next_identity) + 1) doc v size tag.(t_size) constructed false no_source_location.

Definition node_size (d : tlv_document_t) : Z := sizeof_node + (if d.(d_options).(do_retain) then sizeof_location else 0).

(** The store with the new node in it, before it is linked. *)
Definition with_created (doc : Z) (d : tlv_document_t) (tag : tlv_tag_t) (constructed : bool) (s : store) : store :=
  let a := s.(st_next) in
  mk_store (if negb (tag.(t_size) =? 0) then memcpy s.(st_mem) (Ptr a (node_size d)) tag.(t_data) tag.(t_size) else s.(st_mem))
    (<[a := node_of (created_payload doc d tag constructed NULL 0) None None None None None]> s.(st_nodes))
    (alter (with_next_identity (d.(d_next_identity) + 1)) doc s.(st_documents)) ({[a]} ∪ s.(st_live)) (a + 1)
    (node_size d + tag.(t_size) :: s.(st_requests)).

(** ... and its value copied. *)
Definition with_copied (doc : Z) (d : tlv_document_t) (tag : tlv_tag_t) (value : ptr) (length : Z) (s : store) : store :=
  let a := s.(st_next) in
  let s1 := with_created doc d tag false s in
  mk_store (memcpy s1.(st_mem) (Ptr (a + 1) 0) value length)
    (<[a := node_of (created_payload doc d tag false (Ptr (a + 1) 0) length) None None None None None]> s.(st_nodes))
    s1.(st_documents) ({[a + 1]} ∪ s1.(st_live)) (a + 2) (length :: s1.(st_requests)).

(** An unlinked node with its payload in a store that has otherwise only grown. *)
Record fresh_node (B : site) (s s' : store) (a : Z) (p : payload) (d' : tlv_document_t) : Prop := {
  fn_extends : extends B [] s s';
  fn_store : store_ok s';
  fn_new : s.(st_next) <= a;
  fn_node : s'.(st_nodes) !! a = Some (node_of p None None None None None);
  fn_document : s'.(st_documents) !! B.(si_doc) = Some d';
  fn_live : s'.(st_live) = list_to_set (a :: value_block p) ∪ s.(st_live);
  fn_blocks : NoDup (a :: value_block p) /\ (forall b, b ∈ a :: value_block p -> s.(st_next) <= b < s'.(st_next)) /\
              (forall b, b ∈ value_block p -> s'.(st_nodes) !! b = None);
  fn_domain : forall b, s'.(st_documents) !! b = None <-> s.(st_documents) !! b = None;
  fn_payload : payload_ok B.(si_doc) p }.

Lemma owned_below doc s f b : store_ok s -> owned doc s f -> b ∈ blocks f -> b < s.(st_next).
Proof using.
  intros [_ _ Hl] [_ _ Ho _ _] Hb. destruct (Ho b Hb) as [Hlb _]. destruct (Z.lt_ge_cases b s.(st_next)) as [|Hge]; [done|].
  now apply Hl in Hge.
Qed.

Lemma root_below B s d F b : built B s d F -> b ∈ root_addrs B.(si_root) -> b < s.(st_next).
Proof using.
  intros Hb Hx. unfold root_addrs in Hx. destruct (si_root B) as [h|] eqn:Er; [|now apply elem_of_nil in Hx].
  apply list_elem_of_singleton in Hx as ->. pose proof (bt_tree _ _ _ _ Hb) as [Hc _]. rewrite Er in Hc. destruct Hc as (n & Hn & _).
  destruct (Z.lt_ge_cases h s.(st_next)) as [|Hge]; [done|]. rewrite (so_nodes _ (bt_store _ _ _ _ Hb) h Hge) in Hn. done.
Qed.

(** What is new elsewhere leaves a tree as it is built. *)
Lemma extends_built_tree B s s' d d' F : built B s d F -> extends B [] s s' ->
  s'.(st_documents) !! B.(si_doc) = Some d' -> d'.(d_first) = d.(d_first) -> d'.(d_last) = d.(d_last) ->
  tree_in B.(si_doc) B.(si_root) s' F.
Proof using.
  intros Hb He Hd' Hf Hl. apply (tree_in_frame _ _ s); [apply Hb| |].
  - intros b Hx. apply He; [|apply not_elem_of_nil]. apply elem_of_app in Hx as [Hx|Hx]; [now apply (root_below B s d F)|].
    apply (owned_below B.(si_doc) s F); [apply Hb..|]. now apply addrs_blocks.
  - intros _ d0 Hd0. rewrite (bt_document _ _ _ _ Hb) in Hd0. injection Hd0 as <-. eauto.
Qed.

Lemma extends_owned B s s' F : store_ok s -> owned B.(si_doc) s F -> extends B [] s s' ->
  (forall b, s'.(st_documents) !! b = None <-> s.(st_documents) !! b = None) ->
  (forall b, b ∈ s.(st_live) -> b ∈ s'.(st_live)) -> owned B.(si_doc) s' F.
Proof using.
  intros Hs Ho He Hdom Hl. apply (owned_frame _ s); [done| |auto|].
  - intros b. rewrite <- !not_eq_None_Some. now rewrite Hdom.
  - intros b Hb Hn. rewrite (ex_nodes _ _ _ _ He b); [done| |apply not_elem_of_nil].
    apply (owned_below B.(si_doc) s F b Hs Ho). now apply values_blocks.
Qed.

Lemma built_extend B s s' d d' F : built B s d F -> extends B [] s s' -> store_ok s' ->
  (forall b, s'.(st_documents) !! b = None <-> s.(st_documents) !! b = None) -> s'.(st_live) = s.(st_live) ->
  s'.(st_documents) !! B.(si_doc) = Some d' -> d'.(d_first) = d.(d_first) -> d'.(d_last) = d.(d_last) ->
  d'.(d_count) = d.(d_count) -> limits d' -> built B s' d' F.
Proof using.
  intros Hb He Hs' Hdom Hl Hd' Hf Hla Hc Hli. pose proof Hb as [Hs Hd Ht Ho Hh _ Hcount Hhe Hsh Hid Hr].
  destruct (ex_document _ _ _ _ He d Hd) as (d2 & Hd2 & Eo & _ & _ & _ & _ & _ & Hni & _).
  assert (d2 = d') as -> by congruence. split; try done.
  - now apply (extends_built_tree B s s' d d').
  - apply (extends_owned B s); try done. intros b. now rewrite Hl.
  - intros h Eh. destruct (Hh h Eh) as (H1 & H2 & H3). rewrite Hl. split; [done|]. split; [done|]. now apply Hdom.
  - rewrite Hc, Eo. done.
  - rewrite Eo. done.
  - destruct Hid as (H1 & H2 & H3). split; [done|]. split; [lia|]. eapply list.Forall_impl; [exact H3|]. cbn. lia.
  - now rewrite Hl.
Qed.

(** Linking a fresh node at the end of the list at a place, and counting it. *)
Lemma link_fresh_run B s s1 d d1 C g a p : built B s d (plug C g) -> Forall frame_ok C -> fresh_node B s s1 a p d1 ->
  d1.(d_first) = d.(d_first) -> d1.(d_last) = d.(d_last) -> d1.(d_count) = d.(d_count) -> d1.(d_options) = d.(d_options) ->
  limits d1 -> d.(d_count) < d.(d_options).(do_max_elements) -> B.(si_depth) + zlen C <= d.(d_options).(do_max_depth) ->
  p.(np_identity) = d.(d_next_identity) + 1 -> d1.(d_next_identity) = d.(d_next_identity) + 1 ->
  (p.(np_constructed) = true -> p.(np_value) = NULL /\ p.(np_value_size) = 0) ->
  exists s2 d2, (_ ← node_link B.(si_doc) (place_parent B.(si_root) C) None a;
                 update_document B.(si_doc) (fun d => with_d_count (usize (d.(d_count) + 1)) d)) s1 = Some (tt, s2) /\
    built B s2 d2 (plug C (dapp g (DNode a p DNil DNil))) /\
    extends B (root_addrs B.(si_root) ++ addrs (plug C g)) s s2 /\ s2.(st_mem) = s1.(st_mem) /\ d2.(d_next_identity) = d1.(d_next_identity).
Proof using.
  intros Hb HC Hfr Hf Hl Hc Eo Hli Hmax Hdep Hpi Hni Hpv. pose proof Hb as [Hs Hd Ht Ho Hh Hlim Hcount Hhe Hsh Hid Hr].
  destruct Hfr as [He Hs1 Hnew Hna Hd1 Hlive (Hbn & Hbr & Hbv) Hdom Hpo].
  pose proof (extends_built_tree B s s1 d d1 (plug C g) Hb He Hd1 Hf Hl) as Ht1.
  assert (owned B.(si_doc) s1 (plug C g)) as Ho1 by (apply (extends_owned B s); try done; intros b Hx; rewrite Hlive, elem_of_union; auto).
  set (F := plug C (dapp g (DNode a p DNil DNil))).
  destruct (removed_forest C g a p DNil DNil) as (Ea & Eb & Ep & _ & _). fold F in Ea, Eb, Ep. rewrite dapp_nil in Ea, Eb, Ep. cbn [addrs app blocks] in Ea, Eb.
  rewrite !app_nil_r, app_comm_cons in Eb. cbn [payloads app] in Ep.
  assert (forall b, b ∈ a :: value_block p -> b ∉ blocks (plug C g)) as Hsep.
  { intros b Hx Hy. pose proof (owned_below _ _ _ b Hs Ho Hy). destruct (Hbr b Hx). lia. }
  assert (owned B.(si_doc) s1 F) as HoF.
  { destruct Ho1 as [O1 O2 O3 O4 O5]. split; [done| | | |].
    - rewrite Eb. apply NoDup_app. split; [done|]. split; [|done]. intros b Hx. now apply Hsep.
    - intros b. rewrite Eb, elem_of_app. intros [Hx|Hx]; [|now apply O3]. rewrite Hlive. split; [apply elem_of_union; left; now apply elem_of_list_to_set|].
      apply Hdom. destruct (Hbr b Hx) as [Hge _]. now apply Hs.
    - intros b Hx. assert (b ∈ value_block p ++ values (plug C g)) as Hy.
      { assert (values F ≡ₚ value_block p ++ values (plug C g)) as <-; [|done].
        apply (Permutation_app_inv_l (addrs F)). rewrite <- blocks_split, Eb, Ea, !blocks_split. solve_Permutation. }
      apply elem_of_app in Hy as [Hy|Hy]; [now apply Hbv|now apply O4].
    - rewrite Ep. now constructor. }
  assert (NoDup (root_addrs B.(si_root) ++ addrs F)) as HnF.
  { apply NoDup_app. split; [unfold root_addrs; destruct (si_root B); [apply NoDup_singleton|constructor]|]. split; [|now apply owned_addrs in HoF].
    intros b Hx. pose proof (root_below B s d _ b Hb Hx) as Hlt. unfold root_addrs in Hx. destruct (si_root B) as [h|] eqn:Er; [|now apply elem_of_nil in Hx].
    apply list_elem_of_singleton in Hx as ->. rewrite Ea, elem_of_cons. intros [->|Hx]; [lia|]. apply addrs_blocks in Hx.
    now destruct (Hh h eq_refl) as (H1 & _). }
  destruct (node_link_run B.(si_doc) B.(si_root) s1 C g a p DNil DNil) as (s2 & E2 & Ht2 & M2); [apply Hpo|exact HnF|now rewrite dapp_nil| |].
  { split; [exists None, None, None; exact Hna|done]. }
  fold F in Ht2, M2. cbn [head_or] in E2.
  destruct (documents_same _ _ _ _ _ _ _ M2 Hd1) as (d2 & Hd2 & Ec2). pose proof (clear_ends_eq _ _ Ec2) as (Eo2 & _ & Ecc2 & _ & _ & _ & _ & Ei2).
  set (s3 := with_documents (alter (fun d => with_d_count (usize (d.(d_count) + 1)) d) B.(si_doc) s2.(st_documents)) s2).
  assert (0 <= d.(d_count)) as Hc0 by lia. pose proof (li_elements _ Hlim) as Hme.
  exists s3, (with_d_count (d.(d_count) + 1) d2).
  assert (s3.(st_documents) !! B.(si_doc) = Some (with_d_count (d.(d_count) + 1) d2)) as Hd3.
  { cbn. rewrite lookup_alter_eq, Hd2. cbn. rewrite Ecc2, Hc, usize_small by lia. done. }
  split; [run E2; rewrite (update_document_run s2 B.(si_doc) _) by eauto; done|]. split; [|split; [|split; [apply M2|exact Ei2]]].
  - split.
    + destruct (moves_store_ok _ _ _ _ _ M2 Hs1) as [N2 D2 L2]. split; cbn; auto. intros b Hx. apply lookup_alter_None. auto.
    + exact Hd3.
    + apply (tree_in_frame _ _ s2); [done|done|]. intros _ x Hx. cbn. rewrite lookup_alter_eq, Hx. cbn. eauto.
    + apply (owned_frame _ s2); [now apply (moves_owned _ _ s1 s2 _ _ M2)| |done|done]. intros b. cbn. now rewrite lookup_alter_is_Some.
    + intros h Eh. destruct (Hh h Eh) as (H1 & H2 & H3). assert (h < s.(st_next)) as Hlt.
      { apply (root_below B s d _ h Hb). unfold root_addrs. rewrite Eh. apply list_elem_of_singleton. done. }
      split; [|split].
      * rewrite Eb, elem_of_app. intros [Hx|Hx]; [|done]. destruct (Hbr h Hx). lia.
      * cbn. rewrite (mv_live _ _ _ _ _ M2), Hlive, elem_of_union, elem_of_list_to_set. intros [Hx|Hx]; [|done]. destruct (Hbr h Hx). lia.
      * cbn. apply lookup_alter_None. destruct (documents_live _ _ _ _ _ M2 h) as [_ Hy]. apply eq_None_not_Some. intros Hz.
        apply Hy in Hz as [z Hz]. pose proof (proj2 (Hdom h) H3). congruence.
    + destruct Hli as [L1 L2 L3]. split; cbn; rewrite ?Eo2, ?Ei2; done.
    + cbn. rewrite Eo2, Eo, (Permutation_length Ea). cbn [length]. lia.
    + cbn. rewrite Eo2, Eo. split; [apply Hhe|]. right. pose proof (dheight_plug C g (dapp g (DNode a p DNil DNil))) as Hp.
      fold F in Hp. rewrite dheight_dapp in Hp. cbn [dheight] in Hp. pose proof (dheight_place C g). pose proof (dheight_nonneg g).
      destruct Hhe as [Hb0 [Hn|Hx]]; [|lia]. rewrite Hn in *. cbn [dheight] in *. lia.
    + unfold F. apply shape_plug; [done|]. rewrite shape_dapp. split.
      * destruct g as [|b q k r]; [done|]. now apply shape_unplug in Hsh as [_ Hsh].
      * cbn. auto.
    + unfold identities in *. rewrite (Permutation_map np_identity Ep). cbn [map]. cbn. rewrite Ei2, Hni, Hpi. destruct Hid as (H1 & H2 & H3).
      split; [|split; [lia|]].
      * constructor; [|done]. intros Hx. rewrite list.Forall_forall in H3. apply H3 in Hx. lia.
      * constructor; [lia|]. eapply list.Forall_impl; [exact H3|]. cbn. lia.
    + cbn. rewrite (mv_live _ _ _ _ _ M2), Hlive, <- Hr. apply leibniz_equiv. intros x.
      rewrite !elem_of_difference, elem_of_union, !elem_of_list_to_set, Eb, elem_of_app. split; [tauto|]. intros [H1 H2].
      split; [auto|]. intros [H3|H3]; [|done]. destruct (Hbr x H3) as [Hge _]. now apply (so_live _ Hs x Hge).
  - apply (extends_trans B _ (root_addrs B.(si_root) ++ addrs F) s s1 s3).
    + apply (extends_sub B _ [] s s1 He). intros b Hx. now apply elem_of_nil in Hx.
    + pose proof (moves_extends B _ _ _ M2) as [X1 X2 X3 X4 X5]. split; try done.
      * intros b Hx. cbn. rewrite lookup_alter_ne by done. now apply X4.
      * intros x Hx. destruct (X5 x Hx) as (y & Hy & Hxy). exists (with_d_count (usize (d_count y + 1)) y).
        cbn. rewrite lookup_alter_eq, Hy. split; [done|]. exact Hxy.
    + intros b. rewrite Ea, !elem_of_app, elem_of_cons. intros [Hx|[->|Hx]]; auto.
Qed.

(** ** Creation *)

Lemma extends_requests B s n next : s.(st_next) <= next ->
  extends B [] s (mk_store s.(st_mem) s.(st_nodes) s.(st_documents) s.(st_live) next (n :: s.(st_requests))).
Proof using.
  intros Hn. split; try done. intros d Hd. exists d. repeat (split; [done|]). done.
Qed.

Lemma with_created_fresh B s d tag constructed : store_ok s -> s.(st_documents) !! B.(si_doc) = Some d ->
  limits d -> d.(d_next_identity) <> UINT64_MAX -> 0 <= tag.(t_size) <= SIZE_MAX ->
  fresh_node B s (with_created B.(si_doc) d tag constructed s) s.(st_next) (created_payload B.(si_doc) d tag constructed NULL 0)
    (with_next_identity (d.(d_next_identity) + 1) d).
Proof using.
  intros [N D L] Hd Hl Hi Ht. split.
  - split; cbn [with_created st_next st_mem st_nodes st_documents st_live].
    + lia.
    + intros b o Hb. destruct (negb _); [|done]. unfold memcpy, memmove, set_range. cbn.
      unfold inside. rewrite (proj2 (Z.eqb_neq (st_next s) b)) by lia. done.
    + intros b Hb _. rewrite lookup_insert_ne by lia. done.
    + intros b Hb. now rewrite lookup_alter_ne.
    + intros d0 Hd0. rewrite lookup_alter_eq, Hd0. cbn. assert (d0 = d) as -> by congruence. eexists. split; [reflexivity|].
      cbn. repeat (split; [done|]). split; [lia|done].
  - split; cbn [with_created st_next st_nodes st_documents st_live]; intros b Hb.
    + rewrite lookup_insert_ne by lia. apply N. lia.
    + apply lookup_alter_None, D. lia.
    + rewrite elem_of_union, elem_of_singleton. intros [->|Hx]; [lia|]. apply (L b); [lia|done].
  - cbn. lia.
  - cbn. now rewrite lookup_insert_eq.
  - cbn. now rewrite lookup_alter_eq, Hd.
  - cbn [with_created st_live value_block created_payload np_value list_to_set]. apply leibniz_equiv. set_solver.
  - cbn. split; [apply NoDup_singleton|]. split; [|intros b Hb; now apply elem_of_nil in Hb].
    intros b Hb. apply list_elem_of_singleton in Hb as ->. lia.
  - intros b. cbn. apply lookup_alter_None.
  - split; [done|]. cbn. pose proof SIZE_MAX_bounds. lia.
Qed.

Lemma with_copied_fresh B s d tag value length : store_ok s -> s.(st_documents) !! B.(si_doc) = Some d ->
  limits d -> d.(d_next_identity) <> UINT64_MAX -> 0 <= tag.(t_size) <= SIZE_MAX -> 0 <= length <= SIZE_MAX ->
  fresh_node B s (with_copied B.(si_doc) d tag value length s) s.(st_next)
    (created_payload B.(si_doc) d tag false (Ptr (s.(st_next) + 1) 0) length) (with_next_identity (d.(d_next_identity) + 1) d).
Proof using.
  intros Hs Hd Hl Hi Ht Hlen. destruct (with_created_fresh B s d tag false Hs Hd Hl Hi Ht) as [[X1 X2 X3 X4 X5] _ _ _ Y1 _ _ Y2 _].
  destruct Hs as [N D L]. split.
  - split; cbn [with_copied st_next st_nodes st_documents st_live]; [lia| |intros b Hb _; now rewrite lookup_insert_ne by lia|exact X4|exact X5].
    intros b o Hb. cbn [with_copied st_mem]. unfold memcpy, memmove, set_range. unfold inside.
    rewrite (proj2 (Z.eqb_neq (st_next s + 1) b)) by lia. cbn [andb]. now apply X2.
  - split; cbn [with_copied st_next st_nodes st_documents st_live with_created]; intros b Hb.
    + rewrite lookup_insert_ne by lia. apply N. lia.
    + apply lookup_alter_None, D. lia.
    + rewrite !elem_of_union, !elem_of_singleton. intros [->|[->|Hx]]; [lia|lia|]. apply (L b); [lia|done].
  - cbn. lia.
  - cbn. now rewrite lookup_insert_eq.
  - exact Y1.
  - cbn [with_copied with_created st_live value_block created_payload np_value list_to_set]. apply leibniz_equiv. set_solver.
  - cbn. split; [|split].
    + constructor; [intros Hx; apply list_elem_of_singleton in Hx; lia|apply NoDup_singleton].
    + intros b Hb. apply elem_of_cons in Hb as [->|Hb]; [lia|]. apply list_elem_of_singleton in Hb as ->. lia.
    + intros b Hb. apply list_elem_of_singleton in Hb as ->. rewrite lookup_insert_ne by lia. apply N. lia.
  - exact Y2.
  - done.
Qed.

(** The value could not be copied: the node is released again. *)
Definition uncreated (doc : Z) (d : tlv_document_t) (tag : tlv_tag_t) (length : Z) (s : store) : store :=
  let s1 := with_created doc d tag false s in
  mk_store s1.(st_mem) (delete s.(st_next) s1.(st_nodes)) (delete s.(st_next) s1.(st_documents)) (s1.(st_live) ∖ {[s.(st_next)]})
    s1.(st_next) (length :: s1.(st_requests)).

(** The run of the creation up to the link. *)
Lemma create_node_run_unlinked doc (root : option Z) place s d tag value length constructed depth eo dg :
  store_ok s -> s.(st_documents) !! doc = Some d -> limits d ->
  document_create_node doc place tag value length constructed depth eo dg s =
  if (d.(d_options).(do_max_depth) <? depth) || (d.(d_options).(do_max_elements) <=? d.(d_count)) then
    Some ((TLV_ERR_LIMIT, document_set_offset dg eo, None), s)
  else if SIZE_MAX - node_size d <? tag.(t_size) then Some ((TLV_ERR_OUT_OF_MEMORY, dg, None), s)
  else if d.(d_next_identity) =? UINT64_MAX then Some ((TLV_ERR_OVERFLOW, dg, None), s)
  else if negb (d.(d_allocator) s.(st_requests) (node_size d + tag.(t_size))) then
    Some ((TLV_ERR_OUT_OF_MEMORY, dg, None), refused (node_size d + tag.(t_size)) s)
  else
    let finish (a : Z) : M (tlv_result_t * option tlv_reader_diagnostic_t * option Z) :=
      _ ← node_link doc place None a;
      _ ← update_document doc (fun d => with_d_count (usize (d.(d_count) + 1)) d);
      mret (TLV_OK, dg, Some a) in
    if negb constructed && negb (length =? 0) then
      if d.(d_allocator) ((node_size d + tag.(t_size)) :: s.(st_requests)) length
      then finish s.(st_next) (with_copied doc d tag value length s)
      else Some ((TLV_ERR_OUT_OF_MEMORY, dg, None), uncreated doc d tag length s)
    else finish s.(st_next) (with_created doc d tag constructed s).
Proof using.
  intros [N D L] Hd [_ _ Hid]. unfold document_create_node. run (document_at_run s doc d Hd).
  destruct (_ || _); [done|]. cbv zeta. change (sizeof_node + (if do_retain (d_options d) then sizeof_location else 0)) with (node_size d).
  destruct (_ <? t_size tag); [done|]. destruct (Z.eqb_spec (d_next_identity d) UINT64_MAX) as [|Hne]; [done|].
  unfold mbind at 1. unfold M_bind at 1. rewrite (allocate_run s doc d _ Hd).
  destruct (d_allocator d (st_requests s) (node_size d + t_size tag)); cbn [negb]; [|done].
  set (a := st_next s). rewrite u64_small by lia.
  assert (s.(st_documents) !! a = None) as Hda by (apply D; lia). assert (a <> doc) as Had by congruence.
  unfold allocated. fold a. erewrite bind_run by (apply update_document_run; cbn; eauto). cbn [st_documents st_mem st_nodes st_live st_next st_requests with_documents].
  erewrite bind_run by reflexivity. erewrite bind_run by reflexivity. cbn [with_memory st_documents st_mem st_nodes st_live st_next st_requests].
  erewrite bind_run by reflexivity. cbn [with_nodes st_documents st_mem st_nodes st_live st_next st_requests].
  match goal with |- _ ?x = _ => change x with (with_created doc d tag constructed s) end.
  destruct (negb constructed && negb (length =? 0)) eqn:Ec; [|erewrite bind_run by reflexivity; done].
  assert (constructed = false /\ (length =? 0) = false) as [-> El] by (destruct constructed, (length =? 0); done).
  set (s1 := with_created doc d tag false s).
  set (d1 := with_next_identity (d_next_identity d + 1) d).
  assert (s1.(st_documents) !! doc = Some d1) as Hd1 by (cbn; now rewrite lookup_alter_eq, Hd).
  unfold mbind at 1. unfold M_bind at 1. unfold mbind at 1. unfold M_bind at 1. rewrite (copy_bytes_run s1 doc d1 value length Hd1) by (apply Z.eqb_neq, El).
  cbn [d1 with_next_identity d_allocator s1 with_created st_requests]. fold s1.
  destruct (d_allocator d (node_size d + t_size tag :: st_requests s) length).
  - cbn [is_null]. erewrite bind_run by (apply update_node_run; cbn; rewrite lookup_insert_eq; eauto).
    cbn [mret M_ret negb]. fold a.
    match goal with |- _ ?x = _ ?y => replace x with y; [done|] end.
    unfold with_copied, with_nodes, with_memory, allocated. cbn [st_mem st_nodes st_documents st_live st_next st_requests s1 with_created].
    fold a. replace (a + 1 + 1) with (a + 2) by lia. f_equal. apply map_eq. intros b. destruct (Z.eq_dec a b) as [<-|Hb].
    + rewrite lookup_alter_eq, !lookup_insert_eq. done.
    + rewrite lookup_alter_ne, !lookup_insert_ne by done. done.
  - cbn [is_null]. assert ((refused length s1).(st_documents) !! doc = Some d1) as Hdr by exact Hd1.
    unfold document_memory_release. cbn [Z.eqb]. unfold mbind at 1. unfold M_bind at 1. run (document_at_run (refused length s1) doc d1 Hdr).
    unfold release. rewrite bool_decide_eq_true_2 by (cbn; apply elem_of_union; left; now apply elem_of_singleton). done.
Qed.
End Build.
