(* ===== verification/DocumentConsume.v ===== *)
(** * Documents: creating nodes and consuming a tree Reader

    What a created node holds, and the builder's loop, which keeps a place in the forest it builds.  Creating a node
    appends the element it is given to the contents of the list at its place, or fails and changes nothing. *)

From S2P Require Import Prelude Mem Core Format Diagnostic Reader TreeReader TreeLaws TreeNodes Document DocumentReader DocumentTree DocumentFree DocumentInv DocumentErase DocumentBuild.

Fixpoint fapp (fo go : forest) : forest :=
  match fo with
  | FNil => go
  | FElement tag value rest => FElement tag value (fapp rest go)
  | FNode tag children rest => FNode tag children (fapp rest go)
  end.

(** The elements of a forest of nodes, whose tags are [size] octets behind their addresses. *)
Fixpoint contents (size : Z) (m : mem) (f : dforest) : forest :=
  match f with
  | DNil => FNil
  | DNode a p kids rest =>
      let tag := bytes_of m (Ptr a size) p.(np_tag_size) in
      if p.(np_constructed) then FNode tag (contents size m kids) (contents size m rest)
      else FElement tag (bytes_of m p.(np_value) p.(np_value_size)) (contents size m rest)
  end.

Lemma fapp_nil fo : fapp fo FNil = fo.
Proof. induction fo; cbn; congruence. Qed.
Lemma fapp_assoc fo go ho : fapp (fapp fo go) ho = fapp fo (fapp go ho).
Proof. induction fo; cbn; congruence. Qed.
Lemma contents_dapp size m f g : contents size m (dapp f g) = fapp (contents size m f) (contents size m g).
Proof. induction f as [|a p kids IHk rest IHr]; cbn; [done|]. rewrite IHr. now destruct (np_constructed p). Qed.

Lemma block_bytes m m' b o n : (forall i, m' b i = m b i) -> bytes_of m' (Ptr b o) n = bytes_of m (Ptr b o) n.
Proof. intros Hm. apply same_bytes_of. intros i _. unfold ld. now rewrite Hm. Qed.

(** The contents are in the blocks of the forest. *)
Lemma contents_frame size m m' f : (forall b o, b ∈ blocks f -> m' b o = m b o) -> contents size m' f = contents size m f.
Proof.
  induction f as [|a p kids IHk rest IHr]; intros Hm; cbn; [done|]. cbn [blocks] in Hm.
  rewrite IHk, IHr by (intros b o Hb; apply Hm; rewrite elem_of_cons, !elem_of_app; auto).
  rewrite (block_bytes m m' a) by (intros i; apply Hm, elem_of_cons; auto).
  assert (bytes_of m' (np_value p) (np_value_size p) = bytes_of m (np_value p) (np_value_size p)) as ->; [|done].
  unfold value_block in Hm. destruct (np_value p) as [|b o]; [done|]. apply block_bytes. intros i. apply Hm.
  rewrite elem_of_cons, !elem_of_app, list_elem_of_singleton. auto.
Qed.

(** An object that exists. *)
Definition below (s : store) (p : ptr) : Prop := match p with NULL => True | Ptr b _ => b < s.(st_next) end.

Lemma below_bytes (s s' : store) p n : (forall b o, b < s.(st_next) -> s'.(st_mem) b o = s.(st_mem) b o) -> below s p ->
  bytes_of s'.(st_mem) p n = bytes_of s.(st_mem) p n.
Proof. intros Hm Hp. destruct p as [|b o]; [done|]. apply block_bytes. intros i. now apply Hm. Qed.

Section Create.
Context `{Platform} `{DocumentLayout}.

(** The node holds what was given: the tag, and the value unless it is constructed. *)
Definition holds (d : tlv_document_t) (m : mem) (a : Z) (p : payload) (constructed : bool) (tag value : list Z) : Prop :=
  p.(np_constructed) = constructed /\
  contents (node_size d) m (DNode a p DNil DNil) = if constructed then FNode tag FNil FNil else FElement tag value FNil.

(** Nothing stands in the way of a creation but the limits. *)
Definition willing (d : tlv_document_t) : Prop := forall requests n, d.(d_allocator) requests n = true.

Lemma memcpy_block m b o src n c i : c <> b -> memcpy m (Ptr b o) src n c i = m c i.
Proof using. intros Hc. unfold memcpy, memmove, set_range, inside. rewrite (proj2 (Z.eqb_neq b c)) by congruence. done. Qed.

Lemma copied_bytes m b o src n : 0 <= n -> bytes_of (memcpy m (Ptr b o) src n) (Ptr b o) n = bytes_of m src n.
Proof using.
  intros Hn. apply bytes_of_ext. intros i Hi. unfold memcpy, memmove. rewrite ld_set_range_in by done.
  apply u8_small. pose proof (ld_range m src i). lia.
Qed.

Lemma created_tag doc d tag constructed s : 0 <= tag.(t_size) ->
  bytes_of (with_created doc d tag constructed s).(st_mem) (Ptr s.(st_next) (node_size d)) tag.(t_size) = tag_bytes s.(st_mem) tag.
Proof using.
  intros Ht. unfold with_created, tag_bytes. cbn [st_mem]. destruct (Z.eqb_spec (t_size tag) 0) as [->|Hne]; [done|]. cbn [negb].
  now apply copied_bytes.
Qed.

Lemma with_created_mem doc d tag constructed s b o : b < s.(st_next) -> (with_created doc d tag constructed s).(st_mem) b o = s.(st_mem) b o.
Proof using. intros Hb. cbn. destruct (negb _); [|done]. apply memcpy_block. lia. Qed.

Lemma with_created_holds doc d tag constructed value s : 0 <= tag.(t_size) ->
  holds d (with_created doc d tag constructed s).(st_mem) s.(st_next) (created_payload doc d tag constructed NULL 0)
    constructed (tag_bytes s.(st_mem) tag) (if constructed then value else []).
Proof using.
  intros Ht. split; [done|]. cbn [contents created_payload np_tag_size np_constructed np_value np_value_size].
  rewrite created_tag by done. now destruct constructed.
Qed.

Lemma with_copied_holds doc d tag value length s : 0 <= tag.(t_size) -> 0 <= length -> below s value ->
  holds d (with_copied doc d tag value length s).(st_mem) s.(st_next) (created_payload doc d tag false (Ptr (s.(st_next) + 1) 0) length)
    false (tag_bytes s.(st_mem) tag) (bytes_of s.(st_mem) value length).
Proof using.
  intros Ht Hl Hv. split; [done|]. cbn [contents created_payload np_tag_size np_constructed np_value np_value_size].
  set (s1 := with_created doc d tag false s).
  assert ((with_copied doc d tag value length s).(st_mem) = memcpy s1.(st_mem) (Ptr (s.(st_next) + 1) 0) value length) as -> by done.
  rewrite copied_bytes by done. f_equal.
  - rewrite (block_bytes s1.(st_mem)) by (intros i; apply memcpy_block; lia). now apply created_tag.
  - apply (below_bytes s s1); [|done]. intros b o. apply with_created_mem.
Qed.

(** The last steps, on a store with the node in it. *)
Lemma finish_run B s d C g s1 p (dg : option tlv_reader_diagnostic_t) :
  built B s d (plug C g) -> Forall frame_ok C -> limits d -> d.(d_next_identity) <> UINT64_MAX ->
  fresh_node B s s1 s.(st_next) p (with_next_identity (d.(d_next_identity) + 1) d) ->
  d.(d_count) < d.(d_options).(do_max_elements) -> B.(si_depth) + zlen C <= d.(d_options).(do_max_depth) ->
  p.(np_identity) = d.(d_next_identity) + 1 -> (p.(np_constructed) = true -> p.(np_value) = NULL /\ p.(np_value_size) = 0) ->
  exists s2 d2, (_ ← node_link B.(si_doc) (place_parent B.(si_root) C) None s.(st_next);
                 _ ← update_document B.(si_doc) (fun d => with_d_count (usize (d.(d_count) + 1)) d);
                 mret (TLV_OK, dg, Some s.(st_next))) s1 = Some ((TLV_OK, dg, Some s.(st_next)), s2) /\
    built B s2 d2 (plug C (dapp g (DNode s.(st_next) p DNil DNil))) /\
    extends B (root_addrs B.(si_root) ++ addrs (plug C g)) s s2 /\ s2.(st_mem) = s1.(st_mem) /\
    d2.(d_next_identity) = d.(d_next_identity) + 1.
Proof using.
  intros Hb Hf [L1 L2 L3] Hi Hn Hc Hd Hp Hv.
  destruct (link_fresh_run B s s1 d _ C g _ p Hb Hf Hn eq_refl eq_refl eq_refl eq_refl) as (s2 & d2 & E & Hb2 & He2 & Em & Ei);
    try done; [split; cbn; [done|done|lia]|].
  exists s2, d2. split; [|done]. unfold mbind, M_bind in *. destruct (node_link _ _ _ _ s1) as [[[] s1']|]; [|done]. now rewrite E.
Qed.

(** The outcome of a creation at a place. *)
Lemma create_node_run B s d C g tag value length constructed eo dg :
  built B s d (plug C g) -> Forall frame_ok C -> 0 <= tag.(t_size) -> 0 <= length <= SIZE_MAX ->
  exists rc dg' created s',
    document_create_node B.(si_doc) (place_parent B.(si_root) C) tag value length constructed (B.(si_depth) + zlen C) eo dg s =
      Some ((rc, dg', created), s') /\
    extends B (root_addrs B.(si_root) ++ addrs (plug C g)) s s' /\
    ((rc <> TLV_OK /\ rc <> TLV_NEED_MORE_DATA /\ created = None /\ exists d', built B s' d' (plug C g)) \/
     (rc = TLV_OK /\ dg' = dg /\ exists p d', created = Some s.(st_next) /\
        built B s' d' (plug C (dapp g (DNode s.(st_next) p DNil DNil))) /\
        p.(np_constructed) = constructed /\ d'.(d_next_identity) = d.(d_next_identity) + 1 /\
        (0 <= tag.(t_size) -> 0 <= length -> below s value ->
         holds d s'.(st_mem) s.(st_next) p constructed (tag_bytes s.(st_mem) tag)
           (if constructed then [] else bytes_of s.(st_mem) value length)))) /\
    (willing d -> B.(si_depth) + zlen C <= d.(d_options).(do_max_depth) -> d.(d_count) < d.(d_options).(do_max_elements) ->
     tag.(t_size) <= SIZE_MAX - node_size d -> d.(d_next_identity) <> UINT64_MAX -> rc = TLV_OK).
Proof using.
  intros Hb Hf Htag Hlen. pose proof Hb as [Hs Hd _ _ _ Hlim _ _ _ _ _].
  rewrite (create_node_run_unlinked B.(si_doc) B.(si_root) (place_parent B.(si_root) C) s d) by done.
  assert (forall s', extends B [] s s' -> extends B (root_addrs B.(si_root) ++ addrs (plug C g)) s s') as Hsub.
  { intros s' He. apply (extends_sub B _ [] s s' He). intros b Hx. now apply elem_of_nil in Hx. }
  destruct (_ || _) eqn:E1.
  { eexists _, _, _, s. split; [reflexivity|]. split; [apply extends_refl|]. split; [left; eauto 6|]. lia. }
  destruct (_ <? t_size tag) eqn:E2.
  { eexists _, _, _, s. split; [reflexivity|]. split; [apply extends_refl|]. split; [left; eauto 6|]. lia. }
  assert (0 <= t_size tag <= SIZE_MAX) as Ht.
  { apply Z.ltb_ge in E2. pose proof sizeof_range. assert (0 < node_size d) by (unfold node_size; destruct (do_retain _); lia). lia. }
  destruct (Z.eqb_spec (d_next_identity d) UINT64_MAX) as [E3|E3].
  { eexists _, _, _, s. split; [reflexivity|]. split; [apply extends_refl|]. split; [left; eauto 6|]. done. }
  destruct (d_allocator d (st_requests s) (node_size d + t_size tag)) eqn:E4; cbn [negb].
  2: { eexists _, _, _, _. split; [reflexivity|]. pose proof (extends_requests B s (node_size d + t_size tag) s.(st_next) ltac:(lia)) as He.
       split; [now apply Hsub|]. split; [|intros Hw; rewrite Hw in E4; done]. left. split; [done|]. split; [done|]. split; [done|]. exists d.
       apply (built_extend B s _ d d); try done. split; apply Hs. }
  cbv zeta. destruct (negb constructed && negb (length =? 0)) eqn:E5.
  - assert (constructed = false /\ length <> 0) as [-> El] by (destruct constructed, (Z.eqb_spec length 0); done).
    destruct (d_allocator d (_ :: st_requests s) length) eqn:E6.
    + destruct (finish_run B s d C g (with_copied B.(si_doc) d tag value length s)
        (created_payload B.(si_doc) d tag false (Ptr (s.(st_next) + 1) 0) length) dg) as (s2 & d2 & E & Hb2 & He2 & Em & Ei); try done; try lia.
      { now apply with_copied_fresh. }
      eexists _, _, _, s2. split; [exact E|]. split; [done|]. split; [|done]. right. split; [done|]. split; [done|].
      eexists _, d2. split; [done|]. split; [exact Hb2|]. split; [done|]. split; [done|]. intros Ht0 Hl Hv. rewrite Em. now apply with_copied_holds.
    + eexists _, _, _, _. split; [reflexivity|].
      destruct (with_created_fresh B s d tag false Hs Hd Hlim E3 Ht) as [[X1 X2 X3 X4 X5] [N D L] _ _ Y1 Y4 _ Y2 _].
      assert (B.(si_doc) <> s.(st_next)) as Hne by (intros Ex; pose proof (so_documents _ Hs (st_next s) ltac:(lia)); congruence).
      assert (extends B [] s (uncreated B.(si_doc) d tag length s)) as He.
      { split; cbn [uncreated st_next st_nodes st_documents st_mem]; [lia|exact X2| | |].
        - intros b Hx _. rewrite lookup_delete_ne by lia. apply X3; [done|apply not_elem_of_nil].
        - intros b Hx. destruct (Z.eq_dec b s.(st_next)) as [->|Hb']; [rewrite lookup_delete_eq; now rewrite (so_documents _ Hs) by lia|].
          rewrite lookup_delete_ne by done. now apply X4.
        - intros d0 Hd0. rewrite lookup_delete_ne by done. now apply X5. }
      split; [now apply Hsub|]. split; [|intros Hw; rewrite Hw in E6; done]. left. split; [done|]. split; [done|]. split; [done|].
      exists (with_next_identity (d.(d_next_identity) + 1) d). apply (built_extend B s _ d); try done.
      * split; cbn [uncreated st_next st_nodes st_documents st_live]; intros b Hx.
        -- apply lookup_delete_None. right. now apply N.
        -- apply lookup_delete_None. right. now apply D.
        -- rewrite elem_of_difference. intros [Hy _]. now apply (L b).
      * intros b. cbn [uncreated st_documents]. rewrite lookup_delete_None. rewrite Y2. split; [intros [<-|?]; [|done]; apply Hs; lia|auto].
      * cbn [uncreated st_live]. rewrite Y4. apply leibniz_equiv. intros x. pose proof (so_live _ Hs s.(st_next) ltac:(lia)) as Hx.
        cbn [created_payload value_block np_value list_to_set]. set_solver.
      * cbn [uncreated st_documents]. rewrite lookup_delete_ne by done. exact Y1.
      * destruct Hlim. split; cbn; [done|done|lia].
  - destruct (finish_run B s d C g (with_created B.(si_doc) d tag constructed s)
      (created_payload B.(si_doc) d tag constructed NULL 0) dg) as (s2 & d2 & E & Hb2 & He2 & Em & Ei); try done; try lia.
    { now apply with_created_fresh. }
    eexists _, _, _, s2. split; [exact E|]. split; [done|]. split; [|done]. right. split; [done|]. split; [done|].
    eexists _, d2. split; [done|]. split; [exact Hb2|]. split; [done|]. split; [done|]. intros Ht0 Hl Hv. rewrite Em.
    pose proof (with_created_holds B.(si_doc) d tag constructed [] s Ht0) as Hh. destruct constructed; [exact Hh|].
    assert (length = 0) as -> by (destruct (Z.eqb_spec length 0); done). exact Hh.
Qed.
End Create.

(** * Documents: consuming a tree Reader

    The builder's loop keeps a place in the forest it builds: the scopes the cursor has open are the
    frames of the place.  Whatever the events, each step keeps the store well-formed; a failure leaves a
    forest that the caller can discard. *)

(** A node that remembers where it came from. *)
Definition located (l : tlv_document_source_location_t) (p : payload) : payload :=
  mk_payload p.(np_identity) p.(np_document) p.(np_value) p.(np_value_size) p.(np_tag_size) p.(np_constructed) p.(np_pending) l.

Section Consume.
Context `{Platform} `{DocumentLayout}.

Lemma built_nodup B s d F : built B s d F -> NoDup (root_addrs B.(si_root) ++ addrs F).
Proof using.
  intros [_ _ _ Ho Hh _ _ _ _ _ _]. apply NoDup_app.
  split; [unfold root_addrs; destruct (si_root B); [apply NoDup_singleton|constructor]|]. split; [|now apply owned_addrs in Ho].
  intros b Hx Hy. unfold root_addrs in Hx. destruct (si_root B) as [h|]; [|now apply elem_of_nil in Hx].
  apply list_elem_of_singleton in Hx as ->. destruct (Hh h eq_refl) as (H1 & _). apply H1. now apply addrs_blocks.
Qed.

(** Setting the location of a node. *)
Lemma locate_run B s d C g a p k r l : built B s d (plug C (dapp g (DNode a p k r))) ->
  exists s', update_node a (with_source_location l) s = Some (tt, s') /\
    built B s' d (plug C (dapp g (DNode a (located l p) k r))) /\ extends B [a] s s' /\ s'.(st_mem) = s.(st_mem) /\
    s'.(st_next) = s.(st_next).
Proof using.
  intros Hb. pose proof (built_nodup _ _ _ _ Hb) as Hn. pose proof Hb as [[N D L] Hd Ht Ho Hh Hli Hc Hhe Hsh Hid Hr].
  apply filled_gap in Ht as (Hg & Ha & Hk). apply filled_nodup in Hn as (_ & Hag & Hak & _ & _).
  exists (with_nodes (alter (with_source_location l) a s.(st_nodes)) s).
  assert (forall q, addrs (plug C (dapp g (DNode a q k r))) ≡ₚ gap_addrs C g r ++ a :: addrs k) as Ea by (intros q; apply addrs_filled).
  assert (blocks (plug C (dapp g (DNode a (located l p) k r))) ≡ₚ blocks (plug C (dapp g (DNode a p k r)))) as Eb
    by (rewrite !blocks_plug, !blocks_dapp; done).
  assert (values (plug C (dapp g (DNode a (located l p) k r))) ≡ₚ values (plug C (dapp g (DNode a p k r)))) as Ev.
  { apply (Permutation_app_inv_l (gap_addrs C g r ++ a :: addrs k)). rewrite <- (Ea (located l p)) at 1. rewrite <- (Ea p).
    now rewrite <- !blocks_split. }
  assert (identities (plug C (dapp g (DNode a (located l p) k r))) ≡ₚ identities (plug C (dapp g (DNode a p k r)))) as Ei.
  { unfold identities. rewrite (Permutation_map np_identity (payloads_plug C _)), (Permutation_map np_identity (payloads_plug C (dapp g (DNode a p k r)))).
    rewrite !payloads_dapp, !map_app. done. }
  split; [apply update_node_run; eauto|]. split; [|split; [|done]].
  - split; try done.
    + split; cbn; auto. intros b Hx. apply lookup_alter_None. auto.
    + apply filled_gap. split; [|split].
      * apply (gap_frame B.(si_doc) B.(si_root) s); [done| |done]. intros b Hx. cbn. apply lookup_alter_ne. congruence.
      * cbn. now rewrite lookup_alter_eq, Ha.
      * apply (linked_frame s.(st_nodes)); [|done]. intros b Hx. apply lookup_alter_ne. congruence.
    + destruct Ho as [O1 O2 O3 O4 O5]. split; [done|now rewrite Eb| | |].
      * intros b. rewrite Eb. apply O3.
      * intros b. rewrite Ev. intros Hx. cbn. apply lookup_alter_None. auto.
      * rewrite payloads_plug, payloads_dapp in O5 |- *. cbn [payloads] in *. rewrite !Forall_app, !Forall_cons in *. tauto.
    + intros h Eh. destruct (Hh h Eh) as (H1 & H2 & H3). split; [now rewrite Eb|done].
    + now rewrite (Permutation_length (Ea _)), <- (Permutation_length (Ea p)).
    + destruct Hhe as [H1 H2]. split; [done|]. right. destruct H2 as [H2|H2].
      * exfalso. pose proof (Ea p) as E. rewrite H2 in E. apply Permutation_nil in E. destruct (gap_addrs C g r); done.
      * pose proof (dheight_plug C (dapp g (DNode a p k r)) (dapp g (DNode a (located l p) k r))) as E.
        pose proof (dheight_place C (dapp g (DNode a p k r))). rewrite !dheight_dapp in *. cbn [dheight] in *. lia.
    + apply shape_unplug in Hsh as [H1 H2]; [|now destruct g]. apply shape_plug; [done|].
      rewrite shape_dapp in *. exact H2.
    + now rewrite Ei.
    + rewrite <- Hr. apply leibniz_equiv. intros x. rewrite !elem_of_difference, !elem_of_list_to_set, Eb. done.
  - split; try done; cbn.
    + intros b _ Hx. apply lookup_alter_ne. intros ->. apply Hx, elem_of_cons. auto.
    + intros x Hx. exists x. repeat (split; [done|]). done.
Qed.

(** A builder at a place: the scopes its cursor has open are the frames [D] of the place, above the frames
    [C0] of where it began. *)
Record building (B : site) (s : store) (d : tlv_document_t) (b : tlv_document_builder_t) (t : tlv_tree_reader_t)
  (C0 D : list dframe) (g : dforest) : Prop := {
  bu_built : built B s d (plug (D ++ C0) g);
  bu_frames : Forall frame_ok (D ++ C0);
  bu_container : b.(b_container) = place_parent B.(si_root) (D ++ C0);
  bu_target : b.(b_target_depth) = B.(si_depth) + zlen C0;
  bu_open : open t = b.(b_source_depth) + zlen D /\ 0 <= b.(b_source_depth);
  bu_detached : (B.(si_root) <> None \/ C0 <> []) -> b.(b_source_depth) = 0;
  bu_retain : b.(b_retain) = true -> d.(d_options).(do_retain) = true;
  bu_tree : tree_ok t }.

(** One element more. *)
Definition appended (B : site) (s s' : store) (d : tlv_document_t) (C : list dframe) (g : dforest) (item : tlv_tree_item_t) : Prop :=
  exists p d', built B s' d' (plug C (dapp g (DNode s.(st_next) p DNil DNil))) /\ p.(np_constructed) = item.(it_constructed) /\
    d'.(d_next_identity) = d.(d_next_identity) + 1 /\
    let e := item.(it_element) in
    (0 <= e.(e_tag).(t_size) -> 0 <= e.(e_value).(v_size) -> below s e.(e_value).(v_data) ->
     holds d s'.(st_mem) s.(st_next) p item.(it_constructed) (tag_bytes s.(st_mem) e.(e_tag))
       (if item.(it_constructed) then [] else value_bytes s.(st_mem) e.(e_value))).

Lemma located_holds d m a l p c tag value : holds d m a p c tag value -> holds d m a (located l p) c tag value.
Proof using. done. Qed.

Lemma append_item_run B s d C g b item dg :
  built B s d (plug C g) -> Forall frame_ok C -> b.(b_container) = place_parent B.(si_root) C ->
  b.(b_source_depth) <= item.(it_depth) -> 0 <= b.(b_target_depth) ->
  b.(b_target_depth) + (item.(it_depth) - b.(b_source_depth)) = B.(si_depth) + zlen C ->
  (b.(b_retain) = true -> d.(d_options).(do_retain) = true) -> 0 <= item.(it_element).(e_tag).(t_size) ->
  exists rc b' dg' s', append_item B.(si_doc) b item dg s = Some ((rc, b', dg'), s') /\
    extends B (root_addrs B.(si_root) ++ addrs (plug C g)) s s' /\
    ((rc <> TLV_OK /\ rc <> TLV_NEED_MORE_DATA /\ b' = b /\ exists d', built B s' d' (plug C g)) \/
     (rc = TLV_OK /\ dg' = dg /\ b' = (if item.(it_constructed) then with_container (Some s.(st_next)) b else b) /\ appended B s s' d C g item)) /\
    (willing d -> B.(si_depth) + zlen C <= d.(d_options).(do_max_depth) -> d.(d_count) < d.(d_options).(do_max_elements) ->
     item.(it_element).(e_tag).(t_size) <= SIZE_MAX - node_size d -> d.(d_next_identity) <> UINT64_MAX ->
     0 <= item.(it_element).(e_value).(v_size) <= SIZE_MAX -> rc = TLV_OK).
Proof using.
  intros Hb Hf Hbc Hlow Hbt Hdep Hret Htag. unfold append_item. rewrite (proj2 (Z.ltb_ge _ _)) by lia. rewrite Hdep.
  pose proof Hb as [_ Hd _ _ _ [L1 L2 L3] _ [Hsd _] _ _ _].
  destruct (Z.ltb_spec (SIZE_MAX - b_target_depth b) (it_depth item - b_source_depth b)) as [Ho|Ho].
  { eexists _, _, _, s. split; [reflexivity|]. split; [apply extends_refl|]. split; [left; eauto 6|]. lia. }
  unfold tlv_size_to_native. destruct (Z.ltb_spec SIZE_MAX (v_size (e_value (it_element item)))) as [Hv|Hv].
  { eexists _, _, _, s. split; [reflexivity|]. split; [apply extends_refl|]. split; [left; eauto 6|]. lia. }
  cbn [is_ok rc_eqb cell]. rewrite is_ok_OK, Hbc.
  destruct (create_node_run B s d C g (e_tag (it_element item)) (v_data (e_value (it_element item)))
    (usize (v_size (e_value (it_element item)))) (it_constructed item) (usize (b_base b + it_offset item)) dg Hb Hf Htag (usize_range _))
    as (rc & dg' & created & s1 & E & He & Hout & Hw).
  run E. destruct Hout as [(Hrc & Hnm & -> & d' & Hb')|(-> & -> & p & d' & -> & Hb' & Hpc & Hni & Hh)].
  - eexists _, _, _, s1. split; [reflexivity|]. split; [done|]. split; [left; eauto 6|]. intros H1 H2 H3 H4 H5 _. auto.
  - rewrite is_ok_OK.
    assert (forall l q, (q = p \/ q = located l p) -> forall s', s'.(st_mem) = s1.(st_mem) ->
      built B s' d' (plug C (dapp g (DNode (st_next s) q DNil DNil))) -> appended B s s' d C g item) as Happ.
    { intros l q Hq s' Em Hbq. exists q, d'. split; [done|]. split; [destruct Hq as [->| ->]; done|]. split; [done|]. cbv zeta. intros H1 H2 H3. rewrite Em.
      unfold value_bytes. rewrite usize_small in Hh by lia. specialize (Hh H1 H2 H3). destruct Hq as [->| ->]; [done|]. now apply located_holds. }
    destruct (b_retain b && negb _) eqn:Er.
    + apply andb_true_iff in Er as [Er _]. specialize (Hret Er). pose proof Hb' as [_ Hd' Ht' Ho' _ _ _ _ _ _ _].
      pose proof Ht' as Hn. apply filled_gap in Hn as (_ & Hn & _).
      assert (np_document p = B.(si_doc)) as Hpd.
      { destruct Ho' as [_ _ _ _ O5]. rewrite payloads_plug, payloads_dapp in O5. cbn [payloads] in O5.
        rewrite !Forall_app, Forall_cons in O5. now destruct O5 as ((_ & (O5 & _) & _) & _). }
      destruct (ex_document _ _ _ _ He d Hd) as (d2 & Hd2 & Eo & _). assert (d2 = d') as -> by congruence.
      destruct (locate_run B s1 d' C g (st_next s) p DNil DNil (item_location item) Hb') as (s2 & E2 & Hb2 & He2 & Em & _).
      eexists _, _, _, s2. split.
      { assert (document_node_location (Some (st_next s)) s1 = Some (Some (st_next s), s1)) as El.
        { unfold document_node_location. run (node_at_run s1 _ _ Hn). cbn [node_of n_document]. rewrite Hpd.
          run (document_at_run s1 _ _ Hd2). now rewrite Eo, Hret. }
        erewrite bind_run by (run El; exact E2). reflexivity. }
      split; [|split; [right; split; [done|]; split; [done|]; split; [done|]; eauto|done]].
      apply (extends_trans B _ [st_next s] s s1 s2); [done|done|]. intros x Hx. apply list_elem_of_singleton in Hx as ->. right. lia.
    + eexists _, _, _, s1. split; [reflexivity|]. split; [done|]. split; [right; split; [done|]; split; [done|]; split; [done|]|done].
      apply (Happ no_source_location p (or_introl eq_refl) s1 eq_refl Hb').
Qed.

(** What a run of the builder never changes. *)
Definition same_builder (b b' : tlv_document_builder_t) : Prop :=
  b'.(b_document) = b.(b_document) /\ b'.(b_source_depth) = b.(b_source_depth) /\ b'.(b_target_depth) = b.(b_target_depth) /\
  b'.(b_base) = b.(b_base) /\ b'.(b_subtree) = b.(b_subtree) /\ b'.(b_retain) = b.(b_retain).

Lemma same_builder_trans b1 b2 b3 : same_builder b1 b2 -> same_builder b2 b3 -> same_builder b1 b3.
Proof using. unfold same_builder. intuition congruence. Qed.

Lemma extends_options B A s s' d d' : extends B A s s' -> s.(st_documents) !! B.(si_doc) = Some d ->
  s'.(st_documents) !! B.(si_doc) = Some d' -> d'.(d_options) = d.(d_options) /\ d'.(d_allocator) = d.(d_allocator).
Proof using. intros He Hd Hd'. destruct (ex_document _ _ _ _ He d Hd) as (d2 & Hd2 & ? & ? & _). assert (d2 = d') as -> by congruence. done. Qed.

(** BEGIN makes the new node the innermost frame. *)
Definition frame_of (g : dforest) (a : Z) (p : payload) (C : list dframe) : list dframe := mk_dframe g a p DNil :: C.

Lemma addrs_appended (s : store) C g p x : x ∈ addrs (plug C (dapp g (DNode s.(st_next) p DNil DNil))) -> x ∈ addrs (plug C g) \/ s.(st_next) <= x.
Proof using.
  rewrite addrs_filled. unfold gap_addrs. cbn [addrs app]. rewrite addrs_plug, !elem_of_app, elem_of_cons.
  intros [Hx|[->|Hx]]; [tauto|right; lia|now apply elem_of_nil in Hx].
Qed.

Lemma begun_frame B s d C g a p : built B s d (plug C (dapp g (DNode a p DNil DNil))) -> Forall frame_ok C ->
  p.(np_constructed) = true -> Forall frame_ok (frame_of g a p C).
Proof using.
  intros Hb Hf Hc. constructor; [|done]. pose proof (bt_shape _ _ _ _ Hb) as Hs. apply shape_unplug in Hs as [_ Hs]; [|now destruct g].
  rewrite shape_dapp in Hs. cbn [shape] in Hs. destruct Hs as (H1 & _ & H2 & _). now split; [|split; [|split; [|split]]]; try apply (H2 Hc).
Qed.

(** The place behind an element: in it, when it is constructed. *)
Lemma building_appended B s s' d b t t' C0 D g item : building B s d b t C0 D g ->
  extends B (root_addrs B.(si_root) ++ addrs (plug (D ++ C0) g)) s s' -> appended B s s' d (D ++ C0) g item -> tree_ok t' -> open t' = open t + (if item.(it_constructed) then 1 else 0) ->
  exists d' D' g', building B s' d' (if item.(it_constructed) then with_container (Some s.(st_next)) b else b) t' C0 D' g' /\
    (forall x, x ∈ addrs (plug (D' ++ C0) g') -> x ∈ addrs (plug (D ++ C0) g) \/ s.(st_next) <= x).
Proof using.
  intros [Hb Hf Hbc Hbt [Ho Ho'] Hdt Hret _] He (p & d' & Hb' & Hpc & _) Ht' Hopen.
  pose proof (addrs_appended s (D ++ C0) g p) as Hx.
  destruct (extends_options B _ s s' d d' He (bt_document _ _ _ _ Hb) (bt_document _ _ _ _ Hb')) as [Eo _].
  destruct (it_constructed item).
  - exists d', (frame_of g s.(st_next) p D), DNil. split; [|exact Hx].
    split; try done; cbn [with_container b_container b_target_depth b_source_depth b_retain frame_of length].
    + now apply (begun_frame B s' d').
    + lia.
    + now rewrite Eo.
  - exists d', D, (dapp g (DNode s.(st_next) p DNil DNil)). split; [|exact Hx]. split; try done; [lia|now rewrite Eo].
Qed.

(** END goes back to the parent. *)
Lemma building_closed B s d b t t' C0 D g closed : building B s d b t C0 D g -> open t' = open t - 1 -> 0 < zlen D -> tree_ok t' ->
  exists a n D' g', b.(b_container) = Some a /\ s.(st_nodes) !! a = Some n /\ plug (D' ++ C0) g' = plug (D ++ C0) g /\
    building B s d (let b := with_container n.(n_parent) b in if closed : bool then with_subtree_done b else b) t' C0 D' g'.
Proof using.
  intros [Hb Hf Hbc Hbt [Ho Ho'] Hdt Hret _] Hopen HC Ht'. destruct D as [|[l a p r] D]; [cbn in HC; lia|].
  cbn [app place_parent df_addr plug df_left df_payload df_right length] in *. pose proof (bt_tree _ _ _ _ Hb) as Ht. apply filled_gap in Ht as (_ & Hn & _).
  apply Forall_cons_1 in Hf as [_ Hf].
  eexists a, _, D, (dapp l (DNode a p g r)). split; [done|]. split; [exact Hn|]. split; [done|].
  destruct closed; split; try done; cbn [with_container with_subtree_done b_source_depth]; lia.
Qed.

(** Whether a diagnostic is wanted does not change. *)
Lemma format_typed_kept f dg dg' : format_typed f dg -> (dg = None -> dg' = None) -> format_typed f dg'.
Proof using. intros Hty Hn decode Hd. destruct (Hty decode Hd) as [H1 H2]. split; [done|]. intros Hs. apply H2. intros ->. now apply Hs, Hn. Qed.

Definition at_goal (b : tlv_document_builder_t) (t : tlv_tree_reader_t) : bool :=
  if b.(b_subtree) then b.(b_subtree_done) else tlv_tree_reader_at_end (Some t).

(** A run that reports success or an incomplete input is at a place; any other leaves a forest. *)
Lemma consume_loop_run f fuel C0 : forall B s d b t D g dg, building B s d b t C0 D g ->
  t.(tr_input).(rd_format) = Some f -> format_typed f dg -> remaining_events t < Z.of_nat fuel ->
  exists rc b' t' dg' s' d' D' g', consume_loop fuel B.(si_doc) b t dg s = Some ((rc, b', t', dg'), s') /\
    built B s' d' (plug (D' ++ C0) g') /\ extends B (root_addrs B.(si_root) ++ addrs (plug (D ++ C0) g)) s s' /\ same_builder b b' /\
    t'.(tr_input).(rd_format) = Some f /\
    (rc = TLV_OK \/ rc = TLV_NEED_MORE_DATA -> building B s' d' b' t' C0 D' g') /\ (rc = TLV_OK -> at_goal b' t' = true).
Proof using.
  induction fuel as [|fuel IH]; intros B s d b t D g dg Hb Hf Hty Hfuel.
  { pose proof (open_nonneg t (bu_tree _ _ _ _ _ _ _ _ Hb)). destruct Hb as [_ _ _ _ _ _ _ [_ _ _ [? ?] _ _ _ _]]. unfold remaining_events in *. lia. }
  pose proof Hb as [Hbt Hfr Hbc Htg [Ho Ho'] Hdt Hret Ht]. cbn [consume_loop]. fold (at_goal b t).
  destruct (at_goal b t) eqn:Eg.
  { eexists _, b, t, _, s, d, D, g. split; [reflexivity|]. split; [done|]. split; [apply extends_refl|]. done. }
  erewrite bind_run by reflexivity. pose proof (next_event_step s.(st_mem) t f no_event dg Ht Hf Hty) as Hs.
  pose proof (next_event_no_diag s.(st_mem) (Some t) (Some no_event)) as Hnone.
  destruct (tlv_tree_reader_next_event_diag s.(st_mem) (Some t) (Some no_event) dg) as [[[rc reader] item] dg1] eqn:Enext.
  assert (format_typed f dg1) as Hty1 by (apply (format_typed_kept f dg); [done|]; intros ->; now rewrite Enext in Hnone).
  destruct Hs as (t1 & -> & Ht1 & Hf1 & _ & [(-> & _ & e & -> & Hn & Hrem & Hk)|(Hrc & -> & -> & _ & _)]); cbn [cell].
  2: { rewrite (proj2 (is_ok_false rc) Hrc). eexists rc, b, t, _, s, d, D, g. split; [reflexivity|]. split; [done|]. split; [apply extends_refl|]. done. }
  rewrite is_ok_OK. cbn [negb]. rewrite Hf in Hf1. unfold nest in Hn.
  destruct (bool_decide (ev_kind e = TLV_TREE_END)) eqn:Ee.
  - apply bool_decide_eq_true in Ee. rewrite Ee in Hn. destruct (Z.leb_spec 1 (open t)) as [Hle|]; [|done]. cbn [andb] in Hn.
    destruct (Z.eqb_spec (ev_depth e) (open t - 1)) as [Ed|]; [|done]. injection Hn as Hn.
    destruct (b_container b) as [container|] eqn:Ec.
    2: { eexists _, b, t1, _, s, d, D, g. split; [reflexivity|]. split; [done|]. split; [apply extends_refl|]. split; [done|]. split; [done|]. split; [intros [?|?]; done|done]. }
    destruct (ev_skipped e).
    { eexists _, b, t1, _, s, d, D, g. split; [reflexivity|]. split; [done|]. split; [apply extends_refl|]. split; [done|]. split; [done|]. split; [intros [?|?]; done|done]. }
    assert (0 < zlen D) as HC.
    { destruct D; [|cbn; lia]. cbn [app length] in *. destruct C0; cbn [place_parent] in Hbc; rewrite Hdt in Ho by (auto || (left; congruence)); cbn in Ho; lia. }
    destruct (building_closed B s d b t t1 C0 D g (b_subtree b && (ev_depth e =? b_source_depth b)) Hb (eq_sym Hn) HC Ht1)
      as (a & n & D1 & g1 & Ea & Hna & Hp & Hb1). assert (a = container) as -> by congruence.
    run (node_at_run s container n Hna). cbv zeta.
    destruct (IH _ _ _ _ _ _ _ dg1 Hb1 Hf1 Hty1 ltac:(lia)) as (rc & b' & t' & dg' & s' & d' & D' & g' & E & H1 & H2 & H3 & H4).
    exists rc, b', t', dg', s', d', D', g'. split; [exact E|]. split; [done|]. split; [now rewrite <- Hp|]. split; [|done].
    eapply same_builder_trans; [|exact H3]. now destruct (b_subtree b && _).
  - apply bool_decide_eq_false in Ee. set (item := mk_item _ _ _ _ _).
    assert (ev_depth e = open t /\ open t1 = open t + (if it_constructed item then 1 else 0)) as [Hed Hopen].
    { cbn [item it_constructed]. revert Hn Ee.
      destruct (ev_kind e); intros Hn Ee; try done; (destruct (Z.eqb_spec (ev_depth e) (open t)) as [Ed|]; [|done]); injection Hn as <-;
        (split; [done|]); [rewrite bool_decide_eq_true_2 by done|rewrite bool_decide_eq_false_2 by done]; lia. }
    assert (0 <= item.(it_element).(e_tag).(t_size)) as Htag.
    { destruct Hk as [[Hk _]|[(dd & Hdd & ->) _]]; [congruence|]. exact (ok_tag_size _ _ _ Hdd). }
    destruct (append_item_run B s d (D ++ C0) g b item dg1 Hbt Hfr Hbc ltac:(cbn; lia) ltac:(pose proof (bt_height _ _ _ _ Hbt); lia)
      ltac:(cbn; rewrite length_app; lia) Hret Htag) as (rc & b1 & dg2 & s1 & E1 & He1 & Hout & _).
    run E1. destruct Hout as [(Hrc & Hnm & -> & d1 & Hb1)|(-> & -> & -> & Happ)].
    { rewrite (proj2 (is_ok_false rc) Hrc). cbn [negb]. eexists rc, b, t1, _, s1, d1, D, g. split; [reflexivity|]. split; [done|]. split; [done|].
      split; [done|]. split; [done|]. split; [intros [?|?]; done|done]. }
    rewrite is_ok_OK. cbn [negb]. destruct (building_appended B s s1 d b t t1 C0 D g item Hb He1 Happ Ht1 Hopen) as (d1 & D1 & g1 & Hb1 & Hx).
    destruct (IH _ _ _ _ _ _ _ dg1 Hb1 Hf1 Hty1 ltac:(lia)) as (rc & b' & t' & dg' & s' & d' & D' & g' & E & H1 & H2 & H3 & H4).
    exists rc, b', t', dg', s', d', D', g'. split; [exact E|]. split; [done|]. split; [|split; [|done]].
    + apply (extends_trans B _ _ s s1 s' He1 H2). intros x. rewrite !elem_of_app. intros [?|Hy]; [auto|]. destruct (Hx x Hy); auto.
    + eapply same_builder_trans; [|exact H3]. now destruct (it_constructed item).
Qed.
End Consume.
