(* ===== verification/DocumentParse.v ===== *)
(** * Documents: parsing and destruction

    Parsing below a container builds a forest or fails; what a failure leaves is discarded by the
    caller.  A document that could not be parsed is freed with everything it had allocated. *)

From S2P Require Import Prelude Mem Core Format Diagnostic Reader TreeReader TreeLaws Document DocumentReader.
From S2P Require Import DocumentTree DocumentFree DocumentInv DocumentErase DocumentBuild DocumentConsume.

Section Parse.
Context `{Platform} `{DocumentLayout}.

(** ** Scratch memory *)

(** The site with one more allocation that is not the tree's, and without it. *)
Definition and_block (fb : Z) (B : site) : site :=
  mk_site B.(si_doc) B.(si_root) B.(si_base) B.(si_depth) B.(si_identity) ({[fb]} ∪ B.(si_rest)).
Definition minus_block (fb : Z) (B : site) : site :=
  mk_site B.(si_doc) B.(si_root) B.(si_base) B.(si_depth) B.(si_identity) (B.(si_rest) ∖ {[fb]}).

Lemma and_minus_block fb B s d F : built B s d F -> s.(st_next) <= fb -> minus_block fb (and_block fb B) = B.
Proof using.
  intros Hb Hn. destruct B as [doc root base depth identity rest]. unfold minus_block, and_block. cbn. f_equal.
  pose proof (bt_rest _ _ _ _ Hb) as Hr. pose proof (so_live _ (bt_store _ _ _ _ Hb) fb Hn) as Hl. cbn in Hr. apply leibniz_equiv. set_solver.
Qed.

Lemma allocated_built B s d F n : built B s d F -> built (and_block s.(st_next) B) (allocated n s) d F.
Proof using.
  intros [[N D L] Hd Ht Ho Hh Hli Hc Hhe Hsh Hid Hr].
  assert (forall b, b ∈ blocks F -> b <> s.(st_next)) as Hlt.
  { intros b Hb ->. destruct Ho as [_ _ O3 _ _]. destruct (O3 _ Hb) as [Hx _]. now apply L in Hx. }
  split; try done.
  - split; cbn; intros b Hb; [apply N; lia|apply D; lia|]. rewrite elem_of_union, elem_of_singleton. intros [->|Hx]; [lia|]. apply (L b); [lia|done].
  - apply (owned_frame B.(si_doc) s); [done|done| |done]. intros b _ Hb. cbn. rewrite elem_of_union. auto.
  - intros h Eh. destruct (Hh h Eh) as (H1 & H2 & H3). split; [done|]. split; [|done]. cbn. rewrite elem_of_union, elem_of_singleton.
    intros [->|Hx]; [|done]. destruct Ht as [Hx _]. cbn in Eh. rewrite Eh in Hx. destruct Hx as (x & Hx & _). now rewrite N in Hx by lia.
  - cbn. rewrite <- Hr. apply leibniz_equiv. intros x. rewrite !elem_of_difference, !elem_of_union, !elem_of_difference, elem_of_singleton, elem_of_list_to_set.
    split; [tauto|]. intros [->|?]; [|tauto]. split; [auto|]. intros Hx. now apply (Hlt _ Hx).
Qed.

Lemma allocated_extends B s n : extends B [] s (allocated n s).
Proof using.
  split; try done; cbn; [lia|]. intros d Hd. exists d. repeat (split; [done|]). done.
Qed.

Lemma release_built B s d F fb : built B s d F -> fb ∈ B.(si_rest) -> s.(st_documents) !! fb = None ->
  exists s', document_memory_release B.(si_doc) (Ptr fb 0) s = Some (tt, s') /\ built (minus_block fb B) s' d F /\
    extends B [fb] s s' /\ s'.(st_mem) = s.(st_mem).
Proof using.
  intros [[N D L] Hd Ht Ho Hh Hli Hc Hhe Hsh Hid Hr] Hfb Hdoc. pose proof Hfb as Hx. rewrite <- Hr, elem_of_difference, elem_of_list_to_set in Hx.
  destruct Hx as [Hlive Hnb]. rewrite (release_run s B.(si_doc) fb) by eauto. eexists. split; [reflexivity|].
  assert (forall h, B.(si_root) = Some h -> h <> fb) as Hroot by (intros h Eh ->; destruct (Hh _ Eh) as (_ & H2 & _); done).
  split; [split; try done|split; [|done]].
  - split; cbn; intros b Hb; [apply lookup_delete_None; auto|auto|]. rewrite elem_of_difference. intros [Hy _]. now apply (L b).
  - apply (tree_in_frame _ _ s); [done| |intros _ x Hx; eauto]. cbn. intros b Hb. apply lookup_delete_ne. intros <-.
    apply elem_of_app in Hb as [Hb|Hb]; [|now apply Hnb, addrs_blocks]. unfold root_addrs in Hb. cbn in Hb. destruct (si_root B) as [h|]; [|now apply elem_of_nil in Hb].
    apply list_elem_of_singleton in Hb as ->. now apply (Hroot h).
  - apply (owned_frame B.(si_doc) s); [done|done| |].
    + intros b Hb Hlb. cbn. apply elem_of_difference. split; [done|]. rewrite elem_of_singleton. congruence.
    + intros b _ Hb. cbn. apply lookup_delete_None. auto.
  - intros h Eh. destruct (Hh h Eh) as (H1 & H2 & H3). split; [done|]. split; [|done]. cbn. set_solver.
  - cbn. rewrite <- Hr. apply leibniz_equiv. intros x. rewrite !elem_of_difference. tauto.
  - split; try done; cbn.
    + intros b _ Hb. apply lookup_delete_ne. intros <-. apply Hb, elem_of_cons. auto.
    + intros x Hx. exists x. repeat (split; [done|]). done.
Qed.

Lemma and_block_extends fb B A s s' : extends (and_block fb B) A s s' <-> extends B A s s'.
Proof using. split; intros [E1 E2 E3 E4 E5]; split; done. Qed.
Lemma minus_block_extends fb B A s s' : extends (minus_block fb B) A s s' <-> extends B A s s'.
Proof using. split; intros [E1 E2 E3 E4 E5]; split; done. Qed.

(** ** Parsing a list *)

Lemma init_failed t0 data size format frames capacity max_depth max_elements rc reader :
  tlv_tree_reader_init (Some t0) data size format frames capacity max_depth max_elements = (rc, reader) ->
  rc <> TLV_OK \/ (exists f, format = Some f /\ tlv_format_can_read (Some f) = true).
Proof using.
  unfold tlv_tree_reader_init, tlv_reader_init. destruct (tlv_format_can_read format) eqn:E.
  - intros _. right. destruct format as [f|]; [eauto|done].
  - intros E'. left. destruct (negb (is_some frames) && _); [injection E' as <- _; done|].
    destruct (is_null data && _); cbn in E'; injection E' as <- _; done.
Qed.

(** The builder's run over a list below the place [C0]. *)
Lemma consume_tree_run B s d C0 g f b data size frames capacity max_elements dg :
  built B s d (plug C0 g) -> Forall frame_ok C0 -> d.(d_options).(do_format) = Some f -> format_typed f dg ->
  b.(b_container) = place_parent B.(si_root) C0 -> b.(b_target_depth) = B.(si_depth) + zlen C0 -> b.(b_source_depth) = 0 ->
  b.(b_subtree) = false -> (b.(b_retain) = true -> d.(d_options).(do_retain) = true) -> (data = NULL -> size = 0) -> 0 <= size <= SIZE_MAX ->
  zlen (default [] frames) = capacity -> (frames = None -> capacity = 0) -> capacity <= SIZE_MAX -> 0 <= max_elements <= SIZE_MAX ->
  exists rc dg' s' d' D' g', (let '(rc, reader) := tlv_tree_reader_init (Some no_tree_reader) data size (d.(d_options).(do_format)) frames capacity capacity max_elements in
      if is_ok rc then
        '(rc, _, _, diagnostic) ← consume_tree B.(si_doc) b (cell no_tree_reader reader) dg; mret (rc, diagnostic)
      else mret (rc, dg)) s = Some ((rc, dg'), s') /\
    built B s' d' (plug (D' ++ C0) g') /\ extends B (root_addrs B.(si_root) ++ addrs (plug C0 g)) s s' /\ (rc = TLV_OK -> D' = []).
Proof using.
  intros Hb Hf Hfmt Hty Hbc Hbt Hsd Hsub Hret Hdata Hsize Hfr Hfn Hcap Hme. rewrite Hfmt.
  destruct (tlv_tree_reader_init (Some no_tree_reader) data size (Some f) frames capacity capacity max_elements) as [rc reader] eqn:Ei.
  destruct (is_ok rc) eqn:Erc.
  2: { apply is_ok_false in Erc. exists rc, dg, s, d, [], g. split; [done|]. split; [done|]. split; [apply extends_refl|done]. }
  apply is_ok_true in Erc as ->. destruct (init_failed _ _ _ _ _ _ _ _ _ _ Ei) as [?|(f' & [= <-] & Hcan)]; [done|].
  destruct (tree_init_ok no_tree_reader data size f frames capacity capacity max_elements Hdata Hsize Hcan Hfr ltac:(lia) Hme Hfn)
    as (t & Ei' & Ht & Ho & _ & _ & Et).
  rewrite Ei' in Ei. injection Ei as <-. cbn [cell].
  assert (building B s d b t C0 [] g) as Hbu.
  { split; try done; rewrite ?Hsd; cbn; lia. }
  unfold consume_tree.
  destruct (consume_loop_run f (Z.to_nat (2 * (tr_max_elements t - tr_count t) + tr_depth t) + 3) C0 B s d b t [] g dg Hbu)
    as (rc & b' & t' & dg' & s' & d' & D' & g' & E & H1 & H2 & H3 & H4 & H5 & H6); [rewrite Et; done|done|rewrite Et; unfold remaining_events, open; cbn; lia|].
  run E. exists rc, dg', s', d', D', g'. split; [done|]. split; [done|]. split; [done|]. intros ->.
  specialize (H5 (or_introl eq_refl)). specialize (H6 eq_refl). destruct H3 as (_ & Es & _ & _ & Esub & _). unfold at_goal in H6.
  rewrite Esub, Hsub in H6. apply at_end_open in H6. destruct H5 as [_ _ _ _ [H5 _] _ _ _]. rewrite Es, Hsd, H6 in H5. destruct D'; [done|cbn in H5; lia].
Qed.

(** The frames a list can need. *)
Definition list_capacity (d : tlv_document_t) (size depth : Z) : Z :=
  let c := if d.(d_options).(do_max_depth) <? depth then 0 else d.(d_options).(do_max_depth) - depth in
  let c := if size <? c then size else c in
  if d.(d_options).(do_max_elements) - d.(d_count) <? c then d.(d_options).(do_max_elements) - d.(d_count) else c.

(** A run over a list in the two stores that differ in the scratch memory for its frames. *)
Definition list_run (B : site) (d : tlv_document_t) (C0 : list dframe) (g : dforest) (data : ptr) (size base : Z)
  (dg : option tlv_reader_diagnostic_t) (frames : option (list tlv_tree_frame_t))
  : M (tlv_result_t * option tlv_reader_diagnostic_t) :=
  let capacity := list_capacity d size (B.(si_depth) + zlen C0) in
  let '(rc, reader) := tlv_tree_reader_init (Some no_tree_reader) data size (d.(d_options).(do_format)) frames capacity capacity
                         (d.(d_options).(do_max_elements) - d.(d_count)) in
  if is_ok rc then
    '(rc, _, _, diagnostic) ← consume_tree B.(si_doc)
       (mk_builder (Some B.(si_doc)) (place_parent B.(si_root) C0) false 0 (B.(si_depth) + zlen C0) base false
          (bool_decide (place_parent B.(si_root) C0 = None) && d.(d_options).(do_retain)))
       (cell no_tree_reader reader) dg;
    mret (rc, diagnostic)
  else mret (rc, dg).

(** Whatever [Q] the run establishes of the forest and the memory, the whole function establishes: it
    can only fail before the run, or acquire and release the scratch memory around it. *)
Lemma parse_list_scratch B s d C0 g data size base dg (Q : tlv_result_t -> tlv_document_t -> dforest -> mem -> Prop) :
  built B s d (plug C0 g) -> 0 <= size <= SIZE_MAX ->
  (forall rc, rc <> TLV_OK ->
     (size <> 0 /\ d.(d_options).(do_max_depth) < B.(si_depth) + zlen C0) \/
     SIZE_MAX / sizeof_tree_frame < list_capacity d size (B.(si_depth) + zlen C0) \/ (~ willing d) -> Q rc d (plug C0 g) s.(st_mem)) ->
  (forall B1 s1 frames, built B1 s1 d (plug C0 g) -> B1.(si_doc) = B.(si_doc) -> B1.(si_root) = B.(si_root) -> B1.(si_depth) = B.(si_depth) ->
     s1.(st_mem) = s.(st_mem) -> s.(st_next) <= s1.(st_next) ->
     0 <= list_capacity d size (B.(si_depth) + zlen C0) <= SIZE_MAX ->
     zlen (default [] frames) = list_capacity d size (B.(si_depth) + zlen C0) ->
     (frames = None -> list_capacity d size (B.(si_depth) + zlen C0) = 0) ->
     exists rc dg' s' d' F, list_run B1 d C0 g data size base dg frames s1 = Some ((rc, dg'), s') /\ built B1 s' d' F /\
       extends B1 (root_addrs B1.(si_root) ++ addrs (plug C0 g)) s1 s' /\ Q rc d' F s'.(st_mem)) ->
  exists rc dg' s' d' F, document_parse_list B.(si_doc) (place_parent B.(si_root) C0) data size (B.(si_depth) + zlen C0) base dg s = Some ((rc, dg'), s') /\
    built B s' d' F /\ extends B (root_addrs B.(si_root) ++ addrs (plug C0 g)) s s' /\ Q rc d' F s'.(st_mem).
Proof using.
  intros Hb Hsize Hearly Hrun. pose proof Hb as [Hs Hd _ _ _ [L1 L2 L3] [Hc [Hc1 Hc2]] [Hsd _] _ _ _].
  assert (forall rc (dg' : option tlv_reader_diagnostic_t), rc <> TLV_OK -> Q rc d (plug C0 g) s.(st_mem) -> exists rc0 dg0 s' d' F, Some ((rc, dg'), s) = Some ((rc0, dg0), s') /\
    built B s' d' F /\ extends B (root_addrs B.(si_root) ++ addrs (plug C0 g)) s s' /\ Q rc0 d' F s'.(st_mem)) as Hfail.
  { intros rc dg' Hrc HQ. exists rc, dg', s, d, (plug C0 g). split; [done|]. split; [done|]. split; [apply extends_refl|done]. }
  unfold document_parse_list. run (document_at_run s _ d Hd). cbv zeta.
  destruct (negb (size =? 0) && _) eqn:E0; [apply Hfail; [done|]; apply Hearly; [done|]; left; lia|].
  rewrite (usize_small (do_max_elements (d_options d) - d_count d)) by lia. fold (list_capacity d size (si_depth B + zlen C0)).
  assert (0 <= list_capacity d size (si_depth B + zlen C0) <= SIZE_MAX) as Hcap by (unfold list_capacity; repeat case_match; lia).
  destruct (Z.ltb_spec (SIZE_MAX / sizeof_tree_frame) (list_capacity d size (si_depth B + zlen C0))) as [Hlt|_]; [apply Hfail; [done|]; apply Hearly; auto|].
  destruct (Z.eqb_spec (list_capacity d size (si_depth B + zlen C0)) 0) as [Ez|Ez]; cbn [negb].
  - erewrite bind_run by reflexivity. cbn [andb]. destruct (Hrun B s None Hb) as (rc & dg' & s' & d' & F & E & H1); try done.
    exists rc, dg', s', d', F. split; [|done]. unfold list_run in E. destruct (tlv_tree_reader_init _ _ _ _ _ _ _ _) as [rc0 reader]. now run E.
  - set (capacity := list_capacity d size (si_depth B + zlen C0)) in *. unfold mbind at 1. unfold M_bind at 1. rewrite (allocate_run s _ d _ Hd).
    set (n := capacity * sizeof_tree_frame). destruct (d_allocator d _ n) eqn:Eal.
    2: { rewrite bool_decide_eq_true_2 by done. cbn [andb]. exists TLV_ERR_OUT_OF_MEMORY, dg, (refused n s), d, (plug C0 g).
         split; [done|]. split; [|split].
         - apply (built_extend B s _ d d); try done; [now apply extends_requests|split; apply Hs].
         - apply (extends_sub B _ [] _ _ (extends_requests B s n s.(st_next) (Z.le_refl _))). intros x Hx. now apply elem_of_nil in Hx.
         - apply Hearly; [done|]. right. right. intros Hw. rewrite Hw in Eal. done. }
    rewrite bool_decide_eq_false_2 by done. cbn [andb]. set (fb := st_next s). set (B1 := and_block fb B).
    pose proof (allocated_built B s d _ n Hb) as Hb1. fold fb B1 in Hb1.
    destruct (Hrun B1 (allocated n s) (Some (replicate (Z.to_nat capacity) no_frame)) Hb1) as (rc & dg' & s1 & d' & F & E & H1 & H2 & H3);
      try done; [cbn; lia|cbn; rewrite length_replicate; lia|].
    assert (extends B (root_addrs B.(si_root) ++ addrs (plug C0 g)) s s1) as He.
    { eapply (extends_trans B _ _ s (allocated n s) s1); [|apply (and_block_extends fb), H2|auto].
      apply (extends_sub B _ [] _ _ (allocated_extends B s n)). intros x Hx. now apply elem_of_nil in Hx. }
    assert (s.(st_documents) !! fb = None) as Hfd by (apply Hs; unfold fb; lia).
    destruct (release_built B1 s1 d' _ fb H1) as (s2 & E2 & Hb2 & He2 & Em).
    { cbn. apply elem_of_union. left. now apply elem_of_singleton. }
    { rewrite (ex_documents _ _ _ _ He); [done|]. intros Ex. rewrite Ex in Hfd. congruence. }
    exists rc, dg', s2, d', F. split; [|split; [|split; [|now rewrite Em]]].
    + unfold list_run in E. change (si_doc B1) with (si_doc B) in *. change (si_root B1) with (si_root B) in *. change (si_depth B1) with (si_depth B) in *. fold capacity in E.
      destruct (tlv_tree_reader_init _ _ _ _ _ _ _ _) as [rc0 reader]. run E. now run E2.
    + unfold B1 in Hb2. rewrite (and_minus_block fb B s d _ Hb) in Hb2 by (unfold fb; lia). exact Hb2.
    + apply (extends_trans B _ [fb] s s1 s2 He); [apply (and_block_extends fb), He2|]. intros x Hx. apply list_elem_of_singleton in Hx as ->. right. unfold fb. lia.
Qed.

(** Parsing a list below a place succeeds at the place or fails; either way the scratch memory is released. *)
Lemma document_parse_list_run B s d C0 g f data size base dg :
  built B s d (plug C0 g) -> Forall frame_ok C0 -> d.(d_options).(do_format) = Some f -> format_typed f dg ->
  (data = NULL -> size = 0) -> 0 <= size <= SIZE_MAX ->
  exists rc dg' s' d' F, document_parse_list B.(si_doc) (place_parent B.(si_root) C0) data size (B.(si_depth) + zlen C0) base dg s = Some ((rc, dg'), s') /\
    built B s' d' F /\ extends B (root_addrs B.(si_root) ++ addrs (plug C0 g)) s s' /\
    exists D' g', F = plug (D' ++ C0) g' /\ (rc = TLV_OK -> D' = []).
Proof using.
  intros Hb Hf Hfmt Hty Hdata Hsize.
  apply (parse_list_scratch B s d C0 g data size base dg (fun rc _ F _ => exists D' g', F = plug (D' ++ C0) g' /\ (rc = TLV_OK -> D' = []))); try done.
  { intros rc Hrc _. exists [], g. done. }
  intros B1 s1 frames Hb1 Edoc Eroot Edep _ _ Hcap Hlen Hnone. pose proof Hb1 as [_ _ _ _ _ [L1 L2 L3] [Hc [Hc1 Hc2]] _ _ _ _].
  unfold list_run. rewrite Edep.
  destruct (consume_tree_run B1 s1 d C0 g f (mk_builder (Some B1.(si_doc)) (place_parent B1.(si_root) C0) false 0 (B.(si_depth) + zlen C0) base false
       (bool_decide (place_parent B1.(si_root) C0 = None) && d.(d_options).(do_retain))) data size frames (list_capacity d size (si_depth B + zlen C0)) (do_max_elements (d_options d) - d_count d) dg Hb1 Hf Hfmt Hty)
    as (rc & dg' & s' & d' & D' & g' & E & H1 & H2 & H3); try done; try (cbn; lia).
  { cbn. now destruct (bool_decide _). }
  exists rc, dg', s', d', (plug (D' ++ C0) g'). split; [exact E|]. split; [done|]. split; [done|]. eauto.
Qed.

(** ** Discarding *)

Lemma walk_enough doc root s F : tree_in doc root s F -> NoDup (addrs F) -> (length (addrs F) < S (S (2 * size s.(st_nodes))))%nat.
Proof using.
  intros [_ Hl] Hn. assert (length (addrs F) <= size s.(st_nodes))%nat; [|lia]. apply live_size; [done|]. eauto using linked_lookup.
Qed.

(** Everything but the list of the root stays, and nothing of the tree is left. *)
Lemma discard_built B s d F : built B s d F ->
  exists s' d', discard_children B.(si_doc) B.(si_root) s = Some (tt, s') /\ built B s' d' DNil /\
    extends B (root_addrs B.(si_root) ++ addrs F) s s' /\ s'.(st_live) = B.(si_rest) /\ s'.(st_mem) = s.(st_mem).
Proof using.
  intros Hb. pose proof (built_nodup _ _ _ _ Hb) as Hn. pose proof Hb as [[N D L] Hd Ht Ho Hh [L1 L2 L3] [Hc [Hc1 Hc2]] [Hsd _] _ [_ [Hi _]] Hr].
  pose proof (owned_addrs _ _ _ Ho) as Hna. pose proof (walk_enough _ _ _ _ Ht Hna) as Hfuel. pose proof Ht as [Hcell Hlink].
  assert (list_first B.(si_doc) B.(si_root) s = Some (head_or None F, s)) as Ef.
  { unfold cells in Hcell. destruct (si_root B) as [h|]; cbn [list_first].
    - destruct Hcell as (n & Hnn & <- & _). now run (node_at_run s h n Hnn).
    - destruct Hcell as (d0 & Hd0 & <- & _). now run (document_at_run s _ d0 Hd0). }
  unfold discard_children. run Ef. unfold walk_fuel. erewrite bind_run by reflexivity.
  assert (zlen (addrs F) <= d.(d_count) <= SIZE_MAX) as Hcount by lia.
  run (discard_loop_run B.(si_doc) F (si_root B) None s d _ Hlink Ho Hd Hcount Hfuel).
  set (d1 := less_count (zlen (addrs F)) d). set (s1 := with_documents (<[B.(si_doc) := d1]> s.(st_documents)) (free_forest F s)).
  assert (store_ok s1) as [N1 D1 L1'].
  { split; cbn; intros b Hx.
    - rewrite lookup_without, N by done. now destruct (bool_decide _).
    - rewrite lookup_insert_ne; [auto|]. intros <-. now rewrite D in Hd.
    - rewrite elem_of_difference. intros [Hy _]. now apply (L b). }
  assert (s1.(st_live) = B.(si_rest)) as Elive by (cbn; exact Hr).
  assert (forall s2 d2, s2.(st_documents) !! B.(si_doc) = Some d2 -> clear_ends d2 = clear_ends d1 ->
    tree_in B.(si_doc) B.(si_root) s2 DNil -> store_ok s2 -> s2.(st_live) = s1.(st_live) ->
    (forall b, B.(si_doc) <> b -> s2.(st_documents) !! b = s.(st_documents) !! b) -> built B s2 d2 DNil) as Hbuilt.
  { intros s2 d2 Hd2 Ec Ht2 Hs2 El2 Hother. apply clear_ends_eq in Ec as (Eo & _ & Ecn & _ & _ & _ & _ & Ei).
    unfold d1, less_count, with_d_count in *. cbn [d_options d_count d_next_identity] in *. split; try done.
    - split; [eauto|constructor|intros b Hx; now apply elem_of_nil in Hx|intros b Hx; now apply elem_of_nil in Hx|constructor].
    - intros h Eh. destruct (Hh h Eh) as (H1 & H2 & H3). split; [apply not_elem_of_nil|]. rewrite El2, Elive, <- Hr. split; [set_solver|].
      rewrite Hother; [done|]. intros <-. congruence.
    - split; [rewrite Eo|rewrite Eo|rewrite Ei]; done.
    - cbn. rewrite Eo. lia.
    - split; [done|]. now left.
    - cbn. split; [constructor|]. split; [lia|constructor].
    - rewrite El2, Elive. cbn. apply leibniz_equiv. set_solver. }
  assert (forall b, b < s.(st_next) -> b ∉ addrs F -> s1.(st_nodes) !! b = s.(st_nodes) !! b) as Hs1.
  { intros b _ Hx. cbn. now rewrite lookup_without, bool_decide_eq_false_2. }
  destruct (si_root B) as [h|] eqn:Er; cbn [set_list_first set_list_last].
  - destruct Hcell as (n & Hnn & _ & _). cbn [root_addrs app] in Hn. apply NoDup_cons in Hn as [Hhn _].
    assert (s1.(st_nodes) !! h = Some n) as Hh1 by (cbn; now rewrite lookup_without, bool_decide_eq_false_2).
    run (update_node_run s1 h (with_last None) ltac:(eauto)). set (s2 := with_nodes _ s1).
    assert (s2.(st_nodes) !! h = Some (with_last None n)) as Hh2 by (cbn; rewrite lookup_alter_eq; cbn in Hh1; now rewrite Hh1).
    rewrite (update_node_run s2 h (with_first None)) by eauto. eexists _, d1. split; [reflexivity|]. split; [|split; [|split; [exact Elive|done]]].
    + apply Hbuilt; try done.
      * cbn. now rewrite lookup_insert_eq.
      * split; [|done]. exists (with_first None (with_last None n)). split; [|done]. cbn. rewrite !lookup_alter_eq. cbn in Hh1. now rewrite Hh1.
      * split; cbn; auto. intros b Hx. apply lookup_alter_None, lookup_alter_None. now apply N1.
      * intros b Hx. cbn. now rewrite lookup_insert_ne.
    + split; try done.
      * intros b Hlt Hx. cbn [root_addrs app] in Hx. rewrite not_elem_of_cons in Hx. destruct Hx as [Hx1 Hx2]. cbn. rewrite !lookup_alter_ne by done.
        now apply Hs1.
      * intros b Hx. cbn. now rewrite lookup_insert_ne.
      * intros d0 Hd0. exists d1. cbn. rewrite lookup_insert_eq. assert (d0 = d) as -> by congruence. repeat (split; [done|]). done.
  - assert (is_Some (s1.(st_documents) !! B.(si_doc))) as Hd1 by (cbn; rewrite lookup_insert_eq; eauto).
    run (update_document_run s1 B.(si_doc) (with_d_last None) Hd1). set (s2 := with_documents _ s1).
    assert (s2.(st_documents) !! B.(si_doc) = Some (with_d_last None d1)) as Hd2 by (cbn; now rewrite lookup_alter_eq, lookup_insert_eq).
    rewrite (update_document_run s2 B.(si_doc) (with_d_first None)) by eauto. eexists _, (with_d_first None (with_d_last None d1)).
    split; [reflexivity|]. split; [|split; [|split; [exact Elive|done]]].
    + apply Hbuilt; try done.
      * cbn. now rewrite !lookup_alter_eq, lookup_insert_eq.
      * split; [|done]. exists (with_d_first None (with_d_last None d1)). split; [|done]. cbn. now rewrite !lookup_alter_eq, lookup_insert_eq.
      * split; cbn; auto. intros b Hx. apply lookup_alter_None, lookup_alter_None. now apply D1.
      * intros b Hx. cbn. now rewrite !lookup_alter_ne, lookup_insert_ne.
    + split; try done.
      * intros b Hx. cbn. now rewrite !lookup_alter_ne, lookup_insert_ne.
      * intros d0 Hd0. eexists. cbn. rewrite !lookup_alter_eq, lookup_insert_eq. split; [done|]. assert (d0 = d) as -> by congruence.
        repeat (split; [done|]). done.
Qed.

(** ** Whole documents *)

(** The site of a document's own forest. *)
Definition own_site (doc : Z) (rest : gset Z) : site := mk_site doc None 0 0 0 rest.

Lemma doc_ok_built s doc d F : doc_ok s doc d F -> built (own_site doc (s.(st_live) ∖ list_to_set (blocks F))) s d F.
Proof using.
  intros [Hs Hd Hl Ht Ho [L1 L2 L3] [Hc Hm] Hh Hsh [Hn Hi]]. pose proof (dheight_nonneg F). split; try done; cbn; [lia| |].
  - split; [done|]. right. lia.
  - split; [done|]. split; [lia|done].
Qed.

Lemma built_doc_ok s doc rest d F : built (own_site doc rest) s d F -> doc ∈ rest -> doc_ok s doc d F.
Proof using.
  intros [Hs Hd Ht Ho Hh [L1 L2 L3] [Hc [Hc1 Hc2]] [_ Hhe] Hsh [Hn [Hn1 Hi]] Hr] Hin. cbn in *. split; try done; try lia.
  - rewrite <- Hr in Hin. set_solver.
  - destruct Hhe as [->|Hhe]; [cbn; lia|done].
Qed.

Lemma free_run s doc d F : doc_ok s doc d F -> d.(d_query_callbacks) = 0 ->
  exists s', tlv_document_free (Some doc) s = Some (tt, s') /\ store_ok s' /\
    s'.(st_live) = s.(st_live) ∖ list_to_set (blocks F) ∖ {[doc]} /\ s'.(st_documents) !! doc = None /\ s'.(st_mem) = s.(st_mem) /\
    (forall b, b <> doc -> s'.(st_documents) !! b = s.(st_documents) !! b) /\
    (forall b, b < s.(st_next) -> b <> doc -> b ∉ addrs F -> s'.(st_nodes) !! b = s.(st_nodes) !! b) /\ s.(st_next) <= s'.(st_next).
Proof using.
  intros Hok Hq. pose proof (dk_document _ _ _ _ Hok) as Hd. pose proof (dk_self _ _ _ _ Hok) as Hself. pose proof (dk_owned _ _ _ _ Hok) as Ho.
  destruct (discard_built _ _ _ _ (doc_ok_built _ _ _ _ Hok)) as (s1 & d1 & E & Hb1 & He & El & Em). cbn [own_site si_doc si_root si_rest] in *.
  unfold tlv_document_free. run (document_at_run s doc d Hd). rewrite Hq. cbn [Z.eqb negb]. run E.
  pose proof Hb1 as [[N D L] Hd1 _ _ _ _ _ _ _ _ _]. cbn [own_site si_doc] in Hd1.
  unfold document_memory_release. run (document_at_run s1 doc d1 Hd1). cbn [Z.eqb]. unfold release.
  assert (doc ∈ s1.(st_live)) as Hin.
  { rewrite El, elem_of_difference, elem_of_list_to_set. split; [done|]. intros Hx. destruct Ho as [_ _ O3 _ _]. destruct (O3 _ Hx). congruence. }
  rewrite bool_decide_eq_true_2 by done. eexists. split; [reflexivity|]. cbn [st_live st_documents st_mem st_nodes st_next].
  split; [split; cbn; intros b Hx; [apply lookup_delete_None; auto|apply lookup_delete_None; auto|]|].
  - rewrite elem_of_difference. intros [Hy _]. now apply (L b).
  - split; [now rewrite El|]. split; [apply lookup_delete_eq|]. split; [done|]. destruct He as [E1 _ E3 E4 _]. split; [|split; [|done]].
    + intros b Hb. rewrite lookup_delete_ne by congruence. now apply E4.
    + intros b Hlt Hb Hx. rewrite lookup_delete_ne by congruence. now apply E3.
Qed.

(** ** Creating and parsing *)

Definition options_ok (o : tlv_document_options_t) : Prop :=
  0 <= o.(do_max_elements) <= SIZE_MAX /\ 0 <= o.(do_max_depth) <= SIZE_MAX.

(** The allocator of the options, or the C library's. *)
Definition chosen (o : tlv_document_options_t) : option (list Z -> Z -> bool) :=
  match o.(do_allocator) with
  | Some a => if a.(al_release) then a.(al_allocate) else None
  | None => Some malloc
  end.

(** A document without elements. *)
Definition empty_document (o : tlv_document_options_t) (grants : list Z -> Z -> bool) : tlv_document_t :=
  mk_document (mk_document_options o.(do_format) o.(do_max_depth) o.(do_max_elements) None o.(do_retain)) grants
    None None 0 0 0 0 0 0.
Definition with_empty (o : tlv_document_options_t) (grants : list Z -> Z -> bool) (s : store) : store :=
  with_documents (<[s.(st_next) := empty_document o grants]> s.(st_documents)) (allocated sizeof_document s).

Lemma create_run o s : tlv_document_create (Some o) s =
  match o.(do_format), chosen o with
  | Some _, Some grants =>
      if grants s.(st_requests) sizeof_document then Some ((TLV_OK, Some s.(st_next)), with_empty o grants s)
      else Some ((TLV_ERR_OUT_OF_MEMORY, None), refused sizeof_document s)
  | _, _ => Some ((TLV_ERR_NULL_ARG, None), s)
  end.
Proof using.
  unfold tlv_document_create, format_usable, chosen. destruct (do_format o) as [f|] eqn:Ef; [|done]. cbn [is_some negb].
  destruct (do_allocator o) as [a|]; [destruct (al_release a); [destruct (al_allocate a)|]|]; try done;
    unfold mbind at 1; unfold M_bind at 1; unfold allocate; (match goal with |- context [if ?c then _ else _] => destruct c end; [|done]);
    unfold with_empty, empty_document; now rewrite Ef.
Qed.

Lemma with_empty_built o grants s : store_ok s -> options_ok o ->
  built (own_site s.(st_next) ({[s.(st_next)]} ∪ s.(st_live))) (with_empty o grants s) (empty_document o grants) DNil.
Proof using.
  intros [N D L] [L1 L2]. split; cbn; try done; try lia.
  - split; cbn; intros b Hb; [apply N; lia|rewrite lookup_insert_ne by lia; apply D; lia|].
    rewrite elem_of_union, elem_of_singleton. intros [->|Hx]; [lia|]. apply (L b); [lia|done].
  - now rewrite lookup_insert_eq.
  - split; [|done]. eexists. cbn. rewrite lookup_insert_eq. done.
  - split; [cbn; rewrite lookup_insert_eq; eauto|constructor|intros b Hx; now apply elem_of_nil in Hx|intros b Hx; now apply elem_of_nil in Hx|constructor].
  - split; [constructor|split; [lia|constructor]].
  - apply leibniz_equiv. set_solver.
Qed.

(** Parsing a whole input: a well-formed document that owns what was allocated, or nothing. *)
Lemma parse_run s data size o f dg : store_ok s -> options_ok o -> o.(do_format) = Some f -> format_typed f dg ->
  (data = NULL -> size = 0) -> 0 <= size <= SIZE_MAX ->
  exists rc document dg' s', tlv_document_parse data size (Some o) dg s = Some ((rc, document, dg'), s') /\ store_ok s' /\
    (forall b i, b < s.(st_next) -> s'.(st_mem) b i = s.(st_mem) b i) /\
    (forall b, b ∈ s.(st_live) -> s'.(st_nodes) !! b = s.(st_nodes) !! b /\ s'.(st_documents) !! b = s.(st_documents) !! b) /\
    ((rc = TLV_OK /\ exists d F, document = Some s.(st_next) /\ doc_ok s' s.(st_next) d F /\
        s'.(st_live) = s.(st_live) ∪ {[s.(st_next)]} ∪ list_to_set (blocks F)) \/
     (rc <> TLV_OK /\ document = None /\ s'.(st_live) = s.(st_live))).
Proof using.
  intros Hs Ho Hf Hty Hdata Hsize. unfold tlv_document_parse.
  replace (is_null data && negb (size =? 0)) with false by (destruct data; [rewrite Hdata by done|]; done).
  unfold mbind at 1. unfold M_bind at 1. rewrite create_run, Hf.
  destruct (chosen o) as [grants|].
  2: { eexists _, _, _, s. split; [reflexivity|]. split; [done|]. split; [done|]. split; [done|]. right. done. }
  destruct (grants _ _).
  2: { eexists _, _, _, _. split; [reflexivity|]. split; [split; apply Hs|]. split; [done|]. split; [done|]. right. done. }
  set (b := st_next s). pose proof (with_empty_built o grants s Hs Ho) as Hb. fold b in Hb. set (B := own_site b _) in *.
  destruct (document_parse_list_run B _ _ [] DNil f data size 0 (tlv_reader_diagnostic_init dg) Hb) as (rc & dg' & s1 & d' & F & E & Hb1 & He & D' & g' & -> & HD); try done;
    [apply (format_typed_kept f dg); [done|now intros ->]|].
  cbn [place_parent B own_site si_root si_doc si_depth length] in E. run E. cbn [B own_site si_root root_addrs plug addrs app] in He. rewrite app_nil_r in Hb1.
  assert (forall x, x < b -> s1.(st_nodes) !! x = s.(st_nodes) !! x /\ s1.(st_documents) !! x = s.(st_documents) !! x) as Hold.
  { intros x Hx. destruct He as [_ _ E3 E4 _]. rewrite E3, E4; cbn; [|unfold b in *; lia..|apply not_elem_of_nil].
    rewrite lookup_insert_ne by (unfold b in *; lia). done. }
  assert (forall x, x ∈ s.(st_live) -> x < b) as Hlow.
  { intros x Hx. destruct (Z.lt_ge_cases x b) as [|Hge]; [done|]. now apply (so_live _ Hs) in Hge. }
  assert (forall x i, x < b -> s1.(st_mem) x i = s.(st_mem) x i) as Hmem.
  { intros x i Hx. rewrite (ex_mem _ _ _ _ He); [done|]. cbn. unfold b in *; lia. }
  assert (doc_ok s1 b d' (plug D' g')) as Hok by (apply (built_doc_ok _ _ _ _ _ Hb1); set_solver).
  destruct (is_ok rc) eqn:Erc; cbn [negb].
  - apply is_ok_true in Erc as ->. specialize (HD eq_refl) as ->. cbn [plug] in *.
    eexists _, _, _, s1. split; [reflexivity|]. split; [apply Hok|]. split; [done|]. split; [auto|]. left. split; [done|].
    exists d', g'. split; [done|]. split; [done|]. pose proof (bt_rest _ _ _ _ Hb1) as Hr. pose proof (ow_live _ _ _ (dk_owned _ _ _ _ Hok)) as Hl.
    cbn in Hr. rewrite (union_comm_L s.(st_live)), <- Hr. apply leibniz_equiv. intros x. rewrite elem_of_union, elem_of_difference, elem_of_list_to_set.
    split; [|intros [?|Hx]; [tauto|now apply Hl]]. destruct (decide (x ∈ blocks g')); tauto.
  - apply is_ok_false in Erc. destruct (ex_document _ _ _ _ He (empty_document o grants)) as (d2 & Hd2 & _ & _ & _ & _ & Eq & _);
      [cbn; now rewrite lookup_insert_eq|]. assert (d2 = d') as -> by (pose proof (dk_document _ _ _ _ Hok); cbn in Hd2; congruence).
    destruct (free_run s1 b d' _ Hok Eq) as (s2 & E2 & Hs2 & El & _ & Em & Edocs & Enodes & _). run E2.
    eexists _, _, _, s2. split; [reflexivity|]. split; [done|]. split; [intros x i Hx; rewrite Em; auto|]. split.
    + intros x Hx. specialize (Hlow x Hx). destruct (Hold x Hlow) as [H1 H2]. pose proof (ex_next _ _ _ _ He) as En. cbn in En.
      rewrite Edocs, Enodes; [done|unfold b in *; lia|lia| |lia].
      intros Hy. apply addrs_blocks in Hy. pose proof (bt_rest _ _ _ _ Hb1) as Hr. cbn in Hr. set_solver.
    + right. split; [done|]. split; [done|]. rewrite El. pose proof (bt_rest _ _ _ _ Hb1) as Hr. cbn in Hr. rewrite Hr.
      apply leibniz_equiv. pose proof (so_live _ Hs b (Z.le_refl _)). set_solver.
Qed.
End Parse.
