(* ===== verification/DocumentForest.v ===== *)
(** * Documents: parsing the encoding of a forest

    The builder fed with the encoding of a forest appends nodes that hold the forest: the composition of
    the cursor, which reads the preorder of the forest, with the creation of a node for each element. *)

From S2P Require Import Prelude Mem Core Format Diagnostic WireFormat Reader TreeReader TreeLaws TreeNodes Document DocumentReader.
From S2P Require Import DocumentTree DocumentFree DocumentInv DocumentErase DocumentBuild DocumentConsume DocumentParse.

(** ** Steps of the builder *)

Record state := mk_state {
  cs_reader : tlv_tree_reader_t; cs_store : store; cs_builder : tlv_document_builder_t; cs_document : tlv_document_t;
  cs_path : list dframe; cs_list : dforest }.

Section Steps.
Context `{Platform} `{DocumentLayout} (B : site) (C0 : list dframe) (dg : option tlv_reader_diagnostic_t).

Definition at_state (x : state) : Prop :=
  building B x.(cs_store) x.(cs_document) x.(cs_builder) x.(cs_reader) C0 x.(cs_path) x.(cs_list).
Definition state_addrs (x : state) : list Z := addrs (plug (x.(cs_path) ++ C0) x.(cs_list)).

(** [k] rounds of the loop, which append [n] elements. *)
Record consumes (x y : state) (k : nat) (n : Z) : Prop := {
  cn_run : forall fuel, consume_loop (k + fuel) B.(si_doc) x.(cs_builder) x.(cs_reader) dg x.(cs_store) =
                        consume_loop fuel B.(si_doc) y.(cs_builder) y.(cs_reader) dg y.(cs_store);
  cn_state : at_state y;
  cn_extends : extends B (root_addrs B.(si_root) ++ state_addrs x) x.(cs_store) y.(cs_store);
  cn_addrs : forall b, b ∈ state_addrs y -> b ∈ state_addrs x \/ x.(cs_store).(st_next) <= b;
  cn_count : y.(cs_document).(d_count) = x.(cs_document).(d_count) + n;
  cn_identity : y.(cs_document).(d_next_identity) = x.(cs_document).(d_next_identity) + n }.

Lemma consumes_trans x y z k1 k2 n1 n2 : consumes x y k1 n1 -> consumes y z k2 n2 -> consumes x z (k1 + k2)%nat (n1 + n2).
Proof using.
  intros [R1 _ E1 A1 C1 I1] [R2 S2 E2 A2 C2 I2]. split; [|done| | |lia|lia].
  - intros fuel. rewrite <- Nat.add_assoc, R1, R2. done.
  - apply (extends_trans B _ _ _ _ _ E1 E2). intros b. rewrite !elem_of_app. intros [Hb|Hb]; [auto|]. destruct (A1 b Hb); auto.
  - intros b Hb. destruct (A2 b Hb) as [Hb'|Hb']; [auto|]. right. pose proof (ex_next _ _ _ _ E1). lia.
Qed.

Lemma consumes_refl x : at_state x -> consumes x x 0 0.
Proof using. intros Hx. split; [done|done|apply extends_refl|auto|lia|lia]. Qed.

(** The options of the document do not change. *)
Lemma consumes_options x y k n : at_state x -> consumes x y k n ->
  y.(cs_document).(d_options) = x.(cs_document).(d_options) /\ y.(cs_document).(d_allocator) = x.(cs_document).(d_allocator).
Proof using.
  intros Hx Hc. apply (extends_options B _ _ _ _ _ (cn_extends _ _ _ _ Hc)); [apply Hx|]. apply (bt_document _ _ _ _ (bu_built _ _ _ _ _ _ _ _ (cn_state _ _ _ _ Hc))).
Qed.

(** Old blocks keep their bytes. *)
Lemma consumes_bytes x y k n p m : consumes x y k n -> below x.(cs_store) p ->
  bytes_of y.(cs_store).(st_mem) p m = bytes_of x.(cs_store).(st_mem) p m /\ below y.(cs_store) p.
Proof using.
  intros Hc Hp. pose proof (cn_extends _ _ _ _ Hc) as He. split; [apply (below_bytes x.(cs_store)); [|done]; intros b o Hb; now apply He|].
  pose proof (ex_next _ _ _ _ He). destruct p; [done|]. cbn in *. lia.
Qed.

(** What is needed for one element at the place. *)
Record roomy (x : state) : Prop := {
  ro_willing : willing x.(cs_document);
  ro_depth : B.(si_depth) + zlen (x.(cs_path) ++ C0) <= x.(cs_document).(d_options).(do_max_depth);
  ro_count : x.(cs_document).(d_count) < x.(cs_document).(d_options).(do_max_elements);
  ro_identity : x.(cs_document).(d_next_identity) < UINT64_MAX }.

Definition next_state (x : state) (t1 : tlv_tree_reader_t) (s1 : store) (d1 : tlv_document_t) (p : payload) (c : bool) : state :=
  let a := x.(cs_store).(st_next) in
  if c then mk_state t1 s1 (with_container (Some a) x.(cs_builder)) d1 (frame_of x.(cs_list) a p x.(cs_path)) DNil
  else mk_state t1 s1 x.(cs_builder) d1 x.(cs_path) (dapp x.(cs_list) (DNode a p DNil DNil)).

(** An element is appended, or begun. *)
Lemma eat_item x t1 e (c : bool) : at_state x -> roomy x -> x.(cs_builder).(b_subtree) = false ->
  tlv_tree_reader_at_end (Some x.(cs_reader)) = false -> pull x.(cs_store).(st_mem) x.(cs_reader) e t1 ->
  e.(ev_kind) = (if c then TLV_TREE_BEGIN else TLV_TREE_ELEMENT) -> e.(ev_depth) = open x.(cs_reader) ->
  tree_ok t1 -> open t1 = open x.(cs_reader) + (if c then 1 else 0) ->
  0 <= e.(ev_element).(e_tag).(t_size) <= SIZE_MAX - node_size x.(cs_document) ->
  0 <= e.(ev_element).(e_value).(v_size) <= SIZE_MAX -> below x.(cs_store) e.(ev_element).(e_value).(v_data) ->
  exists s1 d1 p, consumes x (next_state x t1 s1 d1 p c) 1 1 /\
    holds x.(cs_document) s1.(st_mem) x.(cs_store).(st_next) p c (tag_bytes x.(cs_store).(st_mem) e.(ev_element).(e_tag))
      (if c then [] else value_bytes x.(cs_store).(st_mem) e.(ev_element).(e_value)).
Proof using.
  destruct x as [t s b d D g]. unfold at_state, state_addrs. cbn [cs_reader cs_store cs_builder cs_document cs_path cs_list].
  intros Hx [R1 R2 R3 R4] Hsub Hend Hpull Hk Hdep Ht1 Ho1 Htag Hval Hbelow. pose proof Hx as [Hb Hf Hbc Hbt [Ho Ho'] Hdt Hret Ht].
  cbn [cs_reader cs_store cs_builder cs_document cs_path cs_list] in *.
  set (item := mk_item (ev_element e) (ev_source e) (ev_depth e) (ev_offset e) c).
  destruct (append_item_run B s d (D ++ C0) g b item dg Hb Hf Hbc) as (rc & b1 & dg1 & s1 & E & He & Hout & Hw);
    [cbn; lia|pose proof (bt_height _ _ _ _ Hb); lia|cbn; rewrite length_app; lia|done|cbn; lia|].
  rewrite (Hw R1 R2 R3 ltac:(cbn; lia) ltac:(lia) ltac:(cbn; lia)) in *. destruct Hout as [(Hrc & _)|(_ & -> & -> & p & d1 & Hb1 & Hpc & Hni & Hh)]; [done|].
  cbn [item it_constructed it_element] in *. specialize (Hh ltac:(lia) ltac:(lia) Hbelow).
  pose proof (extends_options _ _ _ _ _ _ He (bt_document _ _ _ _ Hb) (bt_document _ _ _ _ Hb1)) as [Eo Ea].
  assert (forall fuel, consume_loop (S fuel) B.(si_doc) b t dg s =
    consume_loop fuel B.(si_doc) (if c then with_container (Some (st_next s)) b else b) t1 dg s1) as Hrun.
  { intros fuel. cbn [consume_loop]. rewrite Hsub, Hend. erewrite bind_run by reflexivity. rewrite (pull_diag _ _ _ _ dg Hpull). cbn [cell].
    rewrite is_ok_OK, Hk. cbn [negb]. rewrite (bool_decide_eq_false_2 _) by now destruct c.
    assert (bool_decide ((if c then TLV_TREE_BEGIN else TLV_TREE_ELEMENT) = TLV_TREE_BEGIN) = c) as ->
      by (destruct c; [now apply bool_decide_eq_true_2|now apply bool_decide_eq_false_2]).
    fold item. run E. done. }
  pose proof (addrs_appended s (D ++ C0) g p) as Hx'.
  assert (d1.(d_count) = d.(d_count) + 1) as Hcount.
  { destruct (bt_count _ _ _ _ Hb) as [-> _]. destruct (bt_count _ _ _ _ Hb1) as [-> _]. rewrite !(Permutation_length (addrs_plug _ _)), addrs_dapp.
    cbn [addrs]. rewrite !length_app. cbn [length app]. lia. }
  exists s1, d1, p. split; [|exact Hh]. destruct c; split; try done; unfold at_state; cbn [next_state cs_reader cs_store cs_builder cs_document cs_path cs_list].
  - split; try done; cbn [with_container b_container b_target_depth b_source_depth b_retain frame_of length]; [|lia|now rewrite Eo].
    now apply (begun_frame B s1 d1).
  - split; try done; [lia|now rewrite Eo].
Qed.

(** A scope is left. *)
Lemma eat_end x l a p r D t1 e : at_state x -> x.(cs_path) = mk_dframe l a p r :: D -> x.(cs_builder).(b_subtree) = false ->
  tlv_tree_reader_at_end (Some x.(cs_reader)) = false -> pull x.(cs_store).(st_mem) x.(cs_reader) e t1 ->
  e.(ev_kind) = TLV_TREE_END -> e.(ev_skipped) = false -> tree_ok t1 -> open t1 = open x.(cs_reader) - 1 ->
  consumes x (mk_state t1 x.(cs_store) (with_container (place_parent B.(si_root) (D ++ C0)) x.(cs_builder)) x.(cs_document) D
                (dapp l (DNode a p x.(cs_list) r))) 1 0.
Proof using.
  destruct x as [t s b d D1 g]. unfold at_state. cbn [cs_reader cs_store cs_builder cs_document cs_path cs_list].
  intros Hx -> Hsub Hend Hpull Hk Hsk Ht1 Ho1. pose proof Hx as [Hb Hf Hbc Hbt [Ho Ho'] Hdt Hret Ht].
  cbn [cs_reader cs_store cs_builder cs_document cs_path cs_list app plug df_left df_addr df_payload df_right place_parent length] in *.
  pose proof (bt_tree _ _ _ _ Hb) as Htree. apply filled_gap in Htree as (_ & Hn & _). apply Forall_cons_1 in Hf as [_ Hf].
  split; unfold at_state, state_addrs; cbn [cs_reader cs_store cs_builder cs_document cs_path cs_list]; try (done || lia).
  - intros fuel. change (1 + fuel)%nat with (S fuel). cbn [consume_loop]. rewrite Hsub, Hend. erewrite bind_run by reflexivity.
    rewrite (pull_diag _ _ _ _ dg Hpull). cbn [cell]. rewrite is_ok_OK, Hk. cbn [negb]. rewrite bool_decide_eq_true_2 by done.
    rewrite Hbc, Hsk. run (node_at_run s a _ Hn). cbn [node_of n_parent with_container b_subtree andb]. rewrite Hsub. done.
  - split; try done; cbn [with_container b_source_depth]; lia.
  - apply extends_refl.
  - auto.
Qed.

(** The first round in a pending scope is that of the entered cursor. *)
Lemma loop_entered t s b e t' fuel : tree_ok t -> t.(tr_descend) = true -> t.(tr_depth) < t.(tr_max_depth) -> t.(tr_depth) < t.(tr_capacity) ->
  pull s.(st_mem) (entered t) e t' -> b.(b_subtree) = false ->
  consume_loop (S fuel) B.(si_doc) b t dg s = consume_loop (S fuel) B.(si_doc) b (entered t) dg s.
Proof using.
  intros Ht Hde Hmd Hcap Hpull Hsub. cbn [consume_loop]. rewrite Hsub.
  assert (tlv_tree_reader_at_end (Some t) = false) as -> by (cbn; now rewrite Hde).
  assert (tlv_tree_reader_at_end (Some (entered t)) = false) as ->.
  { cbn. destruct Ht as [_ _ [? _] _ _ _ _ _]. rewrite (proj2 (Z.eqb_neq _ 0)) by lia. done. }
  erewrite !bind_run by reflexivity. rewrite (pull_diag _ _ _ _ dg Hpull), (pull_diag _ _ _ _ dg (pull_entered _ _ _ _ Ht Hde Hmd Hcap Hpull)).
  done.
Qed.
End Steps.

(** ** Forests *)

(** Every tag fits behind a node. *)
Fixpoint tags_fit (n : Z) (fo : forest) : Prop :=
  match fo with
  | FNil => True
  | FElement tag _ rest => zlen tag <= n /\ tags_fit n rest
  | FNode tag children rest => zlen tag <= n /\ tags_fit n children /\ tags_fit n rest
  end.

Section Forests.
Context `{Platform} `{DocumentLayout} (f : tlv_format_t) (decode : tlv_decode_fn) (Hdec : f.(f_decode) = Some decode)
  `{!DecodeLaws decode} `{!CodecLaws f} (p : list Z -> bool)
  (Hclass : forall m tag, tag_ok tag -> is_constructed (Some f) m tag = p (tag_bytes m tag))
  (B : site) (C0 : list dframe) (dg : option tlv_reader_diagnostic_t).

Record ready (x : state) (w : list Z) (fo : forest) : Prop := {
  rd_state : at_state B C0 x;
  rd_whole : x.(cs_builder).(b_subtree) = false;
  rd_readable : readable f x.(cs_store).(st_mem) x.(cs_reader) w (forest_height fo) (forest_size fo);
  rd_below : below x.(cs_store) x.(cs_reader).(tr_input).(rd_data);
  rd_willing : willing x.(cs_document);
  rd_levels : B.(si_depth) + zlen (x.(cs_path) ++ C0) + forest_height fo <= x.(cs_document).(d_options).(do_max_depth);
  rd_elements : x.(cs_document).(d_count) + forest_size fo <= x.(cs_document).(d_options).(do_max_elements);
  rd_identities : x.(cs_document).(d_next_identity) + forest_size fo <= UINT64_MAX;
  rd_tags : tags_fit (SIZE_MAX - node_size x.(cs_document)) fo }.

(** What the builder does with the encoding of a forest. *)
Definition builds (fo : forest) : Prop :=
  forall x w, forest_wire f fo = Some w -> classified p fo = true -> ready x w fo ->
    exists y k h, consumes B C0 dg x y k (forest_size fo) /\ moved x.(cs_reader) y.(cs_reader) (zlen w) (forest_size fo) /\
      y.(cs_path) = x.(cs_path) /\ y.(cs_builder) = x.(cs_builder) /\ y.(cs_list) = dapp x.(cs_list) h /\
      contents (node_size x.(cs_document)) y.(cs_store).(st_mem) h = fo.

Lemma below_padd s q n : below s q -> below s (q +p n).
Proof using. now destruct q. Qed.

Lemma not_at_end t : pending t = false -> here t < limit t -> tlv_tree_reader_at_end (Some t) = false.
Proof using.
  unfold pending. intros Hp Hl. apply orb_false_iff in Hp as [Hde He]. cbn. rewrite Hde, He. cbn [negb andb].
  destruct (Z.eqb_spec (tr_depth t) 0) as [Ez|]; [|done]. cbn [andb].
  assert (limit t = window_end t) as El by (unfold limit; now rewrite Hde, active_zero by lia).
  rewrite El in Hl. unfold here, window_end in Hl. rewrite (proj2 (Z.eqb_neq (rd_pos (tr_input t)) (rd_size (tr_input t)))) by lia. apply andb_false_r.
Qed.

(** The contents of a list stay as the forest around it grows. *)
Lemma contents_keep s s' d A C g h size : built B s d (plug C (dapp g h)) -> extends B A s s' ->
  contents size s'.(st_mem) h = contents size s.(st_mem) h.
Proof using.
  intros Hb He. apply contents_frame. intros b o Hx. apply He. apply (owned_below B.(si_doc) s (plug C (dapp g h))); [apply Hb..|].
  rewrite blocks_plug, blocks_dapp, !elem_of_app. auto.
Qed.

Lemma node_contents d m m' a q tag v kids : holds d m a q true tag v ->
  contents (node_size d) m' (DNode a q DNil DNil) = contents (node_size d) m (DNode a q DNil DNil) ->
  contents (node_size d) m' (DNode a q kids DNil) = FNode tag (contents (node_size d) m' kids) FNil.
Proof using. intros [Hc Hh] E. rewrite <- E in Hh. cbn in *. rewrite Hc in *. injection Hh as ->. done. Qed.

(** The cursor behind an element, or at the beginning of one. *)
Lemma published_open t d (c : bool) : tree_ok t -> pending t = false -> here t <= limit t -> t.(tr_count) < t.(tr_max_elements) ->
  decoded_ok (t.(tr_input).(rd_data) +p t.(tr_input).(rd_pos)) (limit t - here t) d ->
  tree_ok (published t d.(d_source) c) /\ open (published t d.(d_source) c) = open t + (if c then 1 else 0).
Proof using.
  intros Ht Hp Hl Hc Hok. unfold open at 2. rewrite Hp. destruct c.
  - destruct (published_node t d Ht Hp Hl Hc Hok) as (Hok1 & _ & Hd & _ & _ & Hde & He). split; [exact Hok1|]. unfold open, pending.
    rewrite Hd, Hde, He. destruct (r_size _ =? 0); cbn; lia.
  - destruct (published_leaf t d _ Ht Hp Hl Hc Hok eq_refl) as [Hok1 Hp1 _ _ Hd _ _]. split; [exact Hok1|]. unfold open. rewrite Hp1, Hd. lia.
Qed.

(** The first element of a list. *)
Lemma builds_item x tag value w1 w2 h k : at_state B C0 x -> x.(cs_builder).(b_subtree) = false ->
  readable f x.(cs_store).(st_mem) x.(cs_reader) (w1 ++ w2) h k -> 1 <= k ->
  below x.(cs_store) x.(cs_reader).(tr_input).(rd_data) -> roomy B C0 x -> cl_wire tag value = Some w1 ->
  zlen tag <= SIZE_MAX - node_size x.(cs_document) ->
  exists d s1 d1 q, let c := p tag in let t1 := published x.(cs_reader) (d_source d) c in
    decoded_ok (x.(cs_reader).(tr_input).(rd_data) +p x.(cs_reader).(tr_input).(rd_pos)) (limit x.(cs_reader) - here x.(cs_reader)) d /\
    (d_source d).(s_size) = zlen w1 /\ (d_source d).(s_value).(r_size) = zlen value /\
    value_bytes x.(cs_store).(st_mem) d.(d_element).(e_value) = value /\
    consumes B C0 dg x (next_state x t1 s1 d1 q c) 1 1 /\
    holds x.(cs_document) s1.(st_mem) x.(cs_store).(st_next) q c tag (if c then [] else value).
Proof using Hdec DecodeLaws0 Hclass.
  intros Hx Hsub [Ht Hp Hf Hb Hl [Hd1 Hd2] Hc] Hk Hbelow Hroom Hw Htag. set (t := cs_reader x) in *. set (m := st_mem (cs_store x)) in *.
  pose proof (cl_wire_length _ _ _ Hw) as Hlen. rewrite length_app in *. rewrite Nat2Z.inj_add, bytes_of_app in Hb by lia.
  apply app_inj_1 in Hb as [Hb _]; [|rewrite length_bytes_of; lia].
  destruct (pull_element f decode Hdec p m (Hclass m) t tag value w1 Ht Hp Hf ltac:(lia) Hw ltac:(lia) Hb)
    as (d & Hok & Hs & Ht1 & Hv & _ & _ & He & _ & [Htok _] & Hpull).
  pose proof Hok as [Hsize _ _ [_ Hhd] [_ Hvs] [_ Htr] Hsum Hview _].
  pose proof (limit_window t Ht He) as Hlw. destruct (tree_here_bound t Ht) as [Hh0 Hmax].
  assert (v_size (e_value (d_element d)) = r_size (s_value (d_source d))) as Ev by now rewrite Hview.
  assert (t_size (e_tag (d_element d)) = zlen tag) as Et by (rewrite <- Ht1; unfold tag_bytes; rewrite length_bytes_of; lia).
  assert (r_size (s_value (d_source d)) = zlen value) as Evl by (rewrite <- Hv; unfold value_bytes; rewrite length_bytes_of; lia).
  destruct (published_open t d (p tag) Ht Hp ltac:(lia) ltac:(lia) Hok) as [Hok1 Ho1].
  assert (open t = tr_depth t) as Eo by (unfold open; rewrite Hp; lia).
  assert (tlv_tree_reader_at_end (Some t) = false) as Hend by (apply not_at_end; [done|lia]).
  assert (below (cs_store x) (v_data (e_value (d_element d)))) as Hbv by (rewrite Hview; now apply below_padd, below_padd).
  destruct (eat_item B C0 dg x (published t (d_source d) (p tag)) _ (p tag) Hx Hroom Hsub Hend Hpull) as (s1 & d1 & q & Hcons & Hholds);
    cbn [ev_kind ev_depth ev_element]; try done; try lia.
  exists d, s1, d1, q. cbn [ev_element] in Hholds. fold m in Hholds. rewrite Ht1, Hv in Hholds. done.
Qed.

Lemma readable_memory m m' t w h k : readable f m t w h k ->
  bytes_of m' (t.(tr_input).(rd_data) +p t.(tr_input).(rd_pos)) (zlen w) = bytes_of m (t.(tr_input).(rd_data) +p t.(tr_input).(rd_pos)) (zlen w) ->
  readable f m' t w h k.
Proof using. intros [? ? ? Hb ? ? ?] E. split; try done. now rewrite E. Qed.

Lemma ready_roomy x w fo : ready x w fo -> 1 <= forest_size fo -> roomy B C0 x.
Proof using. intros [_ _ _ _ Hw Hl He Hi _] Hs. pose proof (forest_height_nonneg fo). split; [done|lia..]. Qed.

(** What is left when a prefix has been built. *)
Lemma ready_rest x y w1 w2 whole fo k n : ready x (w1 ++ w2) whole -> consumes B C0 dg x y k n -> moved x.(cs_reader) y.(cs_reader) (zlen w1) n ->
  y.(cs_path) = x.(cs_path) -> y.(cs_builder) = x.(cs_builder) -> forest_height fo <= forest_height whole -> n + forest_size fo <= forest_size whole ->
  tags_fit (SIZE_MAX - node_size x.(cs_document)) fo -> ready y w2 fo.
Proof using.
  intros [Hx Hsub Hr Hb Hw Hl He Hi _] Hc Hm Hp Hbu Hh Hn Htags.
  destruct (consumes_options B C0 dg x y k n Hx Hc) as [Eo Ea]. pose proof Hm as [_ _ Hinp _ _ _ _].
  pose proof (readable_moved f (st_mem (cs_store x)) _ _ w1 w2 n _ _ _ _ Hr Hm Hh Hn) as Hr'.
  assert (rd_data (tr_input (cs_reader y)) = rd_data (tr_input (cs_reader x))) as Ed by now rewrite Hinp.
  pose proof Hc as [_ Hs _ _ Hcount Hid]. split; try done.
  - now rewrite Hbu.
  - apply (readable_memory _ _ _ _ _ _ Hr'). rewrite Ed. now apply (consumes_bytes B C0 dg x y k n _ _ Hc), below_padd.
  - rewrite Ed. apply (consumes_bytes B C0 dg x y k n _ 0 Hc Hb).
  - unfold willing in *. now rewrite Ea.
  - rewrite Hp, Eo. lia.
  - rewrite Hcount, Eo. lia.
  - lia.
  - unfold node_size in *. now rewrite Eo.
Qed.

Lemma first_pull m t w fo h k : readable f m t w h k -> 1 <= k -> forest_wire f fo = Some w -> fo <> FNil -> exists e t', pull m t e t'.
Proof using Hdec DecodeLaws0 Hclass.
  intros [Ht Hp Hf Hb Hl _ Hc] Hk Hw Hne.
  assert (exists tag value w1 w2, cl_wire tag value = Some w1 /\ w = w1 ++ w2) as (tag & value & w1 & w2 & E & ->).
  { destruct fo as [|tag value rest|tag children rest]; [done| |]; cbn in Hw.
    - destruct (cl_wire tag value) as [w1|] eqn:E; [|done]. destruct (forest_wire f rest) as [w2|]; [|done]. injection Hw as <-. eauto 10.
    - destruct (forest_wire f children) as [value|]; [|done]. destruct (cl_wire tag value) as [w1|] eqn:E; [|done].
      destruct (forest_wire f rest) as [w2|]; [|done]. injection Hw as <-. eauto 10. }
  pose proof (cl_wire_length _ _ _ E) as Hlen. rewrite length_app in *. rewrite Nat2Z.inj_add, bytes_of_app in Hb by lia.
  apply app_inj_1 in Hb as [Hb _]; [|rewrite length_bytes_of; lia].
  destruct (pull_element f decode Hdec p m (Hclass m) t tag value w1 Ht Hp Hf ltac:(lia) E ltac:(lia) Hb)
    as (d & _ & _ & _ & _ & _ & _ & _ & _ & _ & Hpull). eauto.
Qed.

Lemma builds_leaf x tag value w1 w2 rest : ready x (w1 ++ w2) (FElement tag value rest) -> cl_wire tag value = Some w1 -> p tag = false ->
  exists y q, consumes B C0 dg x y 1 1 /\ moved x.(cs_reader) y.(cs_reader) (zlen w1) 1 /\ y.(cs_path) = x.(cs_path) /\
    y.(cs_builder) = x.(cs_builder) /\ y.(cs_list) = dapp x.(cs_list) (DNode x.(cs_store).(st_next) q DNil DNil) /\
    contents (node_size x.(cs_document)) y.(cs_store).(st_mem) (DNode x.(cs_store).(st_next) q DNil DNil) = FElement tag value FNil.
Proof using Hdec DecodeLaws0 Hclass.
  intros Hr Hw Hpt. pose proof (forest_size_nonneg rest) as Hsz. pose proof (ready_roomy _ _ _ Hr ltac:(cbn; lia)) as Hroom.
  pose proof (cl_wire_length _ _ _ Hw) as Hlen. destruct Hr as [Hx Hsub Hrd Hb _ _ _ _ [Htag _]].
  destruct (builds_item x tag value w1 w2 _ _ Hx Hsub Hrd ltac:(cbn; lia) Hb Hroom Hw Htag) as (d & s1 & d1 & q & Hok & Hs & _ & _ & Hc & Hh).
  rewrite Hpt in *. destruct Hrd as [Ht Hp _ _ Hl _ Hcnt]. rewrite length_app in Hl. cbn [forest_size] in Hcnt.
  exists (next_state x (published (cs_reader x) (d_source d) false) s1 d1 q false), q. split; [done|]. split; [|do 3 (split; [done|]); apply Hh].
  apply published_leaf; try done; lia.
Qed.

(** A node at the place, with its children built. *)
Definition node_built (x y : state) (k : nat) (tag : list Z) (children : forest) (w : list Z) : Prop :=
  exists q kids, consumes B C0 dg x y k (1 + forest_size children) /\ moved x.(cs_reader) y.(cs_reader) (zlen w) (1 + forest_size children) /\
    y.(cs_path) = x.(cs_path) /\ y.(cs_builder) = x.(cs_builder) /\ y.(cs_list) = dapp x.(cs_list) (DNode x.(cs_store).(st_next) q kids DNil) /\
    contents (node_size x.(cs_document)) y.(cs_store).(st_mem) (DNode x.(cs_store).(st_next) q kids DNil) = FNode tag children FNil.

Lemma with_container_back a b : with_container b.(b_container) (with_container a b) = b.
Proof using. now destruct b. Qed.

Lemma flat_at_open t at_ depth : open (with_projection false (flat_at t at_ depth)) = depth.
Proof using. unfold open, pending, flat_at, with_projection. cbn. lia. Qed.

Lemma builds_empty_node x tag w1 w2 rest : ready x (w1 ++ w2) (FNode tag FNil rest) -> cl_wire tag [] = Some w1 -> p tag = true ->
  exists y, node_built x y 2 tag FNil w1.
Proof using Hdec DecodeLaws0 Hclass.
  intros Hr Hw Hpt. pose proof (forest_size_nonneg rest) as Hsz. pose proof (ready_roomy _ _ _ Hr ltac:(cbn; lia)) as Hroom.
  pose proof (cl_wire_length _ _ _ Hw) as Hlen. destruct Hr as [Hx Hsub Hrd Hb _ _ _ _ [Htag _]].
  destruct (builds_item x tag [] w1 w2 _ _ Hx Hsub Hrd ltac:(cbn; lia) Hb Hroom Hw Htag) as (d & s1 & d1 & q & Hok & Hs & Hvl & _ & Hc & Hh).
  rewrite Hpt in *. destruct Hrd as [Ht Hp _ _ Hl _ Hcnt]. rewrite length_app in Hl. cbn [forest_size length] in Hcnt, Hvl. set (t := cs_reader x) in *.
  destruct (published_node t d Ht Hp ltac:(lia) ltac:(lia) Hok) as (Hok1 & Ha1 & Hdep1 & Hh1 & Hpe1 & Hde1 & He1).
  set (t1 := published t (d_source d) true) in *. rewrite Hvl in He1. change (tr_end t1 = true) in He1. set (x1 := next_state x t1 s1 d1 q true) in *.
  destruct (pull_pending_end s1.(st_mem) t1 Hok1 He1) as (e & Hpull & Hve & Hske & Hoke & _). rewrite Hpe1, Hdep1 in Hpull. cbn [fr_resume] in Hpull.
  set (t2 := with_projection false (flat_at t1 (here t + s_size (d_source d)) (tr_depth t))) in *.
  assert (open t1 = open t + 1) as Ho1 by (now destruct (published_open t d true Ht Hp ltac:(lia) ltac:(lia) Hok)).
  assert (open t = tr_depth t) as Eo by (unfold open; rewrite Hp; lia).
  assert (tree_ok t2) as Hok2 by (apply with_projection_ok; rewrite <- Hdep1; rewrite Hpe1 in Hoke; exact Hoke).
  pose proof (eat_end B C0 dg x1 (cs_list x) (st_next (cs_store x)) q DNil (cs_path x) t2 e (cn_state _ _ _ _ _ _ _ Hc) eq_refl Hsub) as He.
  cbn [x1 next_state cs_reader cs_store cs_builder cs_document cs_path cs_list] in He.
  assert (tlv_tree_reader_at_end (Some t1) = false) as Hend1 by (unfold tlv_tree_reader_at_end; rewrite He1; cbn [negb]; now rewrite andb_false_r).
  specialize (He Hend1 Hpull ltac:(unfold view in Hve; congruence) ltac:(rewrite Hske; done) Hok2
    ltac:(unfold t2; rewrite flat_at_open; lia)).
  eexists _, q, DNil. split; [exact (consumes_trans B C0 dg x x1 _ 1 1 1 0 Hc He)|].
  cbn [cs_reader cs_store cs_builder cs_document cs_path cs_list forest_size]. split; [|split; [done|split; [|split; [done|apply Hh]]]].
  - assert (tr_end t = false) as Het by (unfold pending in Hp; apply orb_false_iff in Hp; tauto). pose proof (limit_window t Ht Het). apply moved_back; try done; try lia.
    rewrite <- Ha1. unfold active. cbn [tr_depth tr_frames flat_at]. now rewrite Hdep1.
  - destruct Hx as [_ _ Hbc _ _ _ _ _]. cbn in Hbc. rewrite <- Hbc. apply with_container_back.
Qed.

(** The state with its pending scope entered. *)
Definition enter (x : state) : state :=
  mk_state (entered x.(cs_reader)) x.(cs_store) x.(cs_builder) x.(cs_document) x.(cs_path) x.(cs_list).

Lemma consumes_entered x y e t' k n : at_state B C0 x -> x.(cs_reader).(tr_descend) = true ->
  x.(cs_reader).(tr_depth) < x.(cs_reader).(tr_max_depth) -> x.(cs_reader).(tr_depth) < x.(cs_reader).(tr_capacity) ->
  pull x.(cs_store).(st_mem) (entered x.(cs_reader)) e t' -> x.(cs_builder).(b_subtree) = false ->
  consumes B C0 dg (enter x) y k n -> consumes B C0 dg x y k n.
Proof using.
  intros Hx Hde Hmd Hcap Hpull Hsub [R S E A Cn I]. split; try done. intros fuel. rewrite <- R. cbn [enter cs_reader cs_store cs_builder].
  destruct (k + fuel)%nat as [|r]; [done|]. apply (loop_entered B dg _ _ _ e t'); try done. apply Hx.
Qed.

(** The children of a begun node whose value is not empty. *)
Lemma builds_children x children value : builds children -> at_state B C0 x -> x.(cs_builder).(b_subtree) = false ->
  x.(cs_reader).(tr_descend) = true -> x.(cs_reader).(tr_depth) < x.(cs_reader).(tr_max_depth) ->
  x.(cs_reader).(tr_depth) < x.(cs_reader).(tr_capacity) -> forest_wire f children = Some value -> children <> FNil ->
  classified p children = true -> ready (enter x) value children -> 1 <= forest_size children ->
  exists y k h, consumes B C0 dg x y k (forest_size children) /\ moved (entered x.(cs_reader)) y.(cs_reader) (zlen value) (forest_size children) /\
    y.(cs_path) = x.(cs_path) /\ y.(cs_builder) = x.(cs_builder) /\ y.(cs_list) = dapp x.(cs_list) h /\
    contents (node_size x.(cs_document)) y.(cs_store).(st_mem) h = children.
Proof using Hdec DecodeLaws0 Hclass.
  intros IH Hx Hsub Hde Hmd Hcap Hw Hne Hcl Hr Hs. destruct (IH (enter x) value Hw Hcl Hr) as (y & k & h & Hc & Hm & Hp & Hb & Hl & Hcon).
  destruct (first_pull (st_mem (cs_store x)) (entered (cs_reader x)) value children _ _ (rd_readable _ _ _ Hr) Hs Hw Hne) as (e & t' & Hpull).
  exists y, k, h. split; [|done]. now apply (consumes_entered x y e t').
Qed.

(** The cursor behind a node whose children it has read: their scope ends with the node. *)
Lemma scope_closed t d t' m n : tree_ok t -> pending t = false -> here t + (d_source d).(s_size) <= limit t -> t.(tr_count) < t.(tr_max_elements) ->
  decoded_ok (t.(tr_input).(rd_data) +p t.(tr_input).(rd_pos)) (limit t - here t) d -> (d_source d).(s_value).(r_size) <> 0 ->
  t.(tr_depth) < t.(tr_max_depth) -> t.(tr_depth) < t.(tr_capacity) ->
  moved (entered (published t (d_source d) true)) t' (d_source d).(s_value).(r_size) n ->
  exists e t2, pull m t' e t2 /\ e.(ev_kind) = TLV_TREE_END /\ e.(ev_skipped) = false /\ tree_ok t2 /\ open t2 = t.(tr_depth) /\
    open t' = t.(tr_depth) + 1 /\ tlv_tree_reader_at_end (Some t') = false /\ moved t t2 (d_source d).(s_size) (1 + n).
Proof using.
  intros Ht Hp Hl Hc Hok Hnz Hmd Hcap Hm. pose proof Hok as [_ _ _ _ _ _ _ _ _].
  destruct (published_node t d Ht Hp ltac:(destruct Hok; lia) Hc Hok) as (Hok1 & Ha1 & Hdep1 & Hh1 & Hpe1 & Hde1 & He1).
  set (t1 := published t (d_source d) true) in *. rewrite (proj2 (Z.eqb_neq _ _)) in Hde1 by done. cbn [negb] in Hde1.
  destruct (entered_ok t1 Hok1 Hde1 ltac:(rewrite Hdep1; exact Hmd) ltac:(rewrite Hdep1; exact Hcap)) as (Hte & Hae & Hle & Hhe & _).
  destruct (moved_place (entered t1) t' _ _ eq_refl Hm) as [Eh' _]. pose proof Hm as [Hok' Hp' Hi' Ha' Hd' [? [? ?]] Hk']. rewrite Hae in Ha'.
  assert (tr_depth t' = tr_depth t + 1) as Ed by (rewrite Hd'; cbn [entered tr_depth]; lia).
  pose proof Ht as [_ _ [Hd1 _] _ _ _ _ _].
  assert (fr_end (tr_pending t1) = here t + r_size (s_header (d_source d)) + r_size (s_value (d_source d))) as Ee by now rewrite Hpe1.
  destruct (pull_scope_end m t' (tr_pending t1) (active t1) Hok' Hp' ltac:(lia) Ha' ltac:(lia)) as (e & Hpull & Hview & Hok2 & Ha2 & Hsk).
  replace (tr_depth t' - 1) with (tr_depth t) in * by lia.
  assert (here t + s_size (d_source d) = fr_resume (tr_pending t1)) as Er by now rewrite Hpe1.
  exists e, (with_projection false (flat_at t' (fr_resume (tr_pending t1)) (tr_depth t))). split; [exact Hpull|].
  split; [unfold view in Hview; congruence|]. split; [exact Hsk|]. split; [now apply with_projection_ok|]. split; [apply flat_at_open|].
  split; [unfold open; rewrite Hp'; lia|]. split.
  - unfold tlv_tree_reader_at_end. rewrite (proj2 (Z.eqb_neq (tr_depth t') 0)) by lia. now rewrite andb_false_r.
  - assert (tr_end t = false) as Het by (unfold pending in Hp; apply orb_false_iff in Hp; tauto). pose proof (limit_window t Ht Het).
    apply moved_back; try done; try lia; try congruence.
    + rewrite Hi'. done.
    + rewrite Hk'. cbn. lia.
    + destruct Hok. lia.
Qed.

Lemma forest_height_children tag children rest : children <> FNil -> 1 + forest_height children <= forest_height (FNode tag children rest).
Proof using.
  intros Hne. destruct children as [|tag0 value0 r|tag0 c r]; [done| |]; cbn -[Z.max]; lia.
Qed.

Lemma forest_size_pos fo : fo <> FNil -> 1 <= forest_size fo.
Proof using.
  destruct fo as [|tag value rest|tag children rest]; [done| |]; intros _; cbn; pose proof (forest_size_nonneg rest); [lia|].
  pose proof (forest_size_nonneg children). lia.
Qed.

(** The state in which the children of a begun node are built. *)
Lemma ready_children x tag children value w1 w2 rest d s1 d1 q : ready x (w1 ++ w2) (FNode tag children rest) ->
  decoded_ok (x.(cs_reader).(tr_input).(rd_data) +p x.(cs_reader).(tr_input).(rd_pos)) (limit x.(cs_reader) - here x.(cs_reader)) d ->
  (d_source d).(s_size) = zlen w1 -> (d_source d).(s_value).(r_size) = zlen value -> value <> [] -> children <> FNil ->
  value_bytes x.(cs_store).(st_mem) d.(d_element).(e_value) = value -> 1 <= zlen w1 ->
  let x1 := next_state x (published x.(cs_reader) (d_source d) true) s1 d1 q true in
  consumes B C0 dg x x1 1 1 -> ready (enter x1) value children.
Proof using.
  intros Hr Hok Hs Hvl Hne Hcn Hval Hlen x1 Hc. pose proof (forest_height_children tag children rest Hcn) as Hhc.
  pose proof (forest_height_nonneg children) as Hh0. pose proof (forest_size_nonneg children) as Hs0. pose proof (forest_size_nonneg rest) as Hs1.
  destruct Hr as [Hx Hsub [Ht Hp Hf Hb Hl [Hd1 Hd2] Hcnt] Hbel Hw Hlv Hel Hid [Htag [Htags _]]]. set (t := cs_reader x) in *.
  destruct (consumes_options B C0 dg x x1 1 1 Hx Hc) as [Eo Ea]. cbn [x1 next_state cs_document] in Eo, Ea.
  rewrite length_app in Hl. cbn [forest_size] in *. assert (zlen value <> 0) as Hnz by (destruct value; [done|cbn; lia]).
  destruct (published_node t d Ht Hp ltac:(lia) ltac:(lia) Hok) as (Hok1 & Ha1 & Hdep1 & Hh1 & Hpe1 & Hde1 & _).
  set (t1 := published t (d_source d) true) in *. rewrite Hvl, (proj2 (Z.eqb_neq _ _)) in Hde1 by done. cbn [negb] in Hde1.
  assert (tr_max_depth t1 = tr_max_depth t /\ tr_capacity t1 = tr_capacity t /\ tr_max_elements t1 = tr_max_elements t /\ tr_count t1 = tr_count t + 1)
    as (E1 & E2 & E3 & E4) by done.
  destruct (entered_ok t1 Hok1 Hde1 ltac:(lia) ltac:(lia)) as (Hte & Hae & Hle & Hhe & _).
  assert (limit t1 = fr_end (tr_pending t1)) as El by (unfold limit; now rewrite Hde1).
  pose proof Hok as [_ _ _ [_ Hhd] _ _ _ Hview _]. pose proof (cn_extends _ _ _ _ _ _ _ Hc) as He. pose proof (cn_state _ _ _ _ _ _ _ Hc) as Hx1.
  split; cbn [enter x1 next_state cs_reader cs_store cs_builder cs_document cs_path cs_list]; try done.
  - destruct Hx1 as [Q1 Q2 Q3 Q4 [Q5 Q6] Q7 Q8 _]. split; try done. unfold open in Q5 |- *. cbn [cs_reader x1 next_state] in Q5. unfold pending in Q5 at 1.
    rewrite Hde1 in Q5. cbn [orb] in Q5. cbn. split; [|done]. cbn in Q5. lia.
  - split; try done; cbn [entered tr_depth tr_max_depth tr_capacity tr_max_elements tr_count]; try lia.
    + cbn [entered tr_input published with_pos rd_data rd_pos t1]. fold t. rewrite <- padd_padd.
      destruct (consumes_bytes B C0 dg x x1 1 1 (rd_data (tr_input t) +p rd_pos (tr_input t) +p r_size (s_header (d_source d))) (zlen value) Hc) as [Eb _];
        [now apply below_padd, below_padd|]. cbn [x1 next_state cs_store] in Eb. rewrite Eb.
      unfold value_bytes in Hval. rewrite Hview, Hvl in Hval. exact Hval.
    + rewrite Hle, Hhe, El, Hpe1. cbn [fr_end]. lia.
  - apply (consumes_bytes B C0 dg x x1 1 1 _ 0 Hc). exact Hbel.
  - unfold willing in *. now rewrite Ea.
  - rewrite Eo. cbn [frame_of app length]. lia.
  - rewrite Eo. pose proof (cn_count _ _ _ _ _ _ _ Hc) as Ec. cbn [x1 next_state cs_document] in Ec. lia.
  - pose proof (cn_identity _ _ _ _ _ _ _ Hc) as Ec. cbn [x1 next_state cs_document] in Ec. lia.
  - unfold node_size in *. now rewrite Eo.
Qed.

Lemma builds_node x tag children value w1 w2 rest : builds children -> forest_wire f children = Some value -> cl_wire tag value = Some w1 ->
  p tag = true -> classified p children = true -> ready x (w1 ++ w2) (FNode tag children rest) ->
  exists y k, node_built x y k tag children w1.
Proof using Hdec DecodeLaws0 Hclass.
  intros IH Hwc Hw Hpt Hcl Hr. destruct (decide (value = [])) as [->|Hne].
  { rewrite (forest_wire_nil f children Hwc) in *. destruct (builds_empty_node x tag w1 w2 rest Hr Hw Hpt) as [y Hy]. eauto. }
  assert (children <> FNil) as Hcn by (intros ->; cbn in Hwc; congruence).
  pose proof (forest_height_children tag children rest Hcn) as Hhc. pose proof (forest_height_nonneg children) as Hh0.
  pose proof (forest_size_nonneg rest) as Hsz. pose proof (forest_size_nonneg children) as Hsc. pose proof (ready_roomy _ _ _ Hr ltac:(cbn; lia)) as Hroom.
  pose proof (cl_wire_length _ _ _ Hw) as Hlen. pose proof Hr as [Hx Hsub Hrd Hb _ _ _ _ [Htag _]].
  destruct (builds_item x tag value w1 w2 _ _ Hx Hsub Hrd ltac:(cbn; lia) Hb Hroom Hw Htag) as (d & s1 & d1 & q & Hok & Hs & Hvl & Hval & Hc & Hh).
  rewrite Hpt in *. pose proof (ready_children x tag children value w1 w2 rest d s1 d1 q Hr Hok Hs Hvl Hne Hcn Hval Hlen Hc) as Hr1.
  destruct Hrd as [Ht Hp _ _ Hl [Hd1 Hd2] Hcnt]. rewrite length_app in Hl. cbn [forest_size] in Hcnt. set (t := cs_reader x) in *.
  assert (zlen value <> 0) as Hnz by (destruct value; [done|cbn; lia]).
  destruct (published_node t d Ht Hp ltac:(lia) ltac:(lia) Hok) as (_ & _ & Hdep1 & _ & _ & Hde1 & _).
  set (t1 := published t (d_source d) true) in *. rewrite Hvl, (proj2 (Z.eqb_neq _ _)) in Hde1 by done. cbn [negb] in Hde1.
  set (x1 := next_state x t1 s1 d1 q true) in *. pose proof (cn_state _ _ _ _ _ _ _ Hc) as Hx1.
  assert (tr_max_depth t1 = tr_max_depth t /\ tr_capacity t1 = tr_capacity t) as [Em1 Em2] by done.
  pose proof (forest_size_pos children Hcn) as Hsc1.
  destruct (builds_children x1 children value IH Hx1 Hsub Hde1 ltac:(cbn [x1 next_state cs_reader]; lia) ltac:(cbn [x1 next_state cs_reader]; lia) Hwc Hcn Hcl Hr1 Hsc1)
    as (y1 & k & h & Hc1 & Hm1 & Hp1 & Hb1 & Hl1 & Hcon1).
  cbn [x1 next_state cs_reader cs_path cs_builder cs_list cs_document dapp] in Hm1, Hp1, Hb1, Hl1. rewrite <- Hvl in Hm1.
  destruct (scope_closed t d (cs_reader y1) (st_mem (cs_store y1)) _ Ht Hp ltac:(lia) ltac:(lia) Hok ltac:(lia) ltac:(lia) ltac:(lia) Hm1)
    as (e & t2 & Hpull & Hk & Hsk & Hok2 & Ho2 & Ho' & Hend & Hm2).
  assert (b_subtree (cs_builder y1) = false) as Hsub1 by now rewrite Hb1.
  pose proof (eat_end B C0 dg y1 (cs_list x) (st_next (cs_store x)) q DNil (cs_path x) t2 e (cn_state _ _ _ _ _ _ _ Hc1) Hp1 Hsub1 Hend Hpull Hk Hsk Hok2 ltac:(lia)) as He.
  eexists _, _, q, h. split; [|split; [|split; [|split; [|split]]]].
  - replace (1 + forest_size children) with (1 + (forest_size children + 0)) by lia.
    exact (consumes_trans B C0 dg _ _ _ _ _ _ _ Hc (consumes_trans B C0 dg _ _ _ _ _ _ _ Hc1 He)).
  - cbn [cs_reader]. rewrite <- Hs. exact Hm2.
  - done.
  - cbn [cs_builder]. rewrite Hb1. destruct Hx as [_ _ Hbc _ _ _ _ _]. cbn in Hbc. rewrite <- Hbc. cbn [with_container]. apply with_container_back.
  - cbn [cs_list]. now rewrite Hl1.
  - cbn [cs_store]. rewrite (node_contents (cs_document x) s1.(st_mem) _ _ q tag [] h Hh).
    + f_equal. rewrite <- Hcon1. destruct (consumes_options B C0 dg x x1 1 1 Hx Hc) as [Eo _]. unfold node_size. now rewrite Eo.
    + eapply (contents_keep s1 (cs_store y1) d1 _ (cs_path x ++ C0) (cs_list x)); [apply Hx1|]. apply (cn_extends _ _ _ _ _ _ _ Hc1).
Qed.

Lemma contents_rest size m a q kids h fo go : contents size m (DNode a q kids DNil) = fo -> contents size m h = go ->
  contents size m (DNode a q kids h) = fapp fo go.
Proof using. intros <- <-. change (DNode a q kids h) with (dapp (DNode a q kids DNil) h). apply contents_dapp. Qed.

(** An element, then the rest. *)
Lemma builds_cons x y k n whole head rest w1 w2 q kids : builds rest -> forest_wire f rest = Some w2 -> classified p rest = true ->
  ready x (w1 ++ w2) whole -> consumes B C0 dg x y k n -> moved x.(cs_reader) y.(cs_reader) (zlen w1) n ->
  y.(cs_path) = x.(cs_path) -> y.(cs_builder) = x.(cs_builder) -> y.(cs_list) = dapp x.(cs_list) (DNode x.(cs_store).(st_next) q kids DNil) ->
  contents (node_size x.(cs_document)) y.(cs_store).(st_mem) (DNode x.(cs_store).(st_next) q kids DNil) = head ->
  forest_height rest <= forest_height whole -> n + forest_size rest = forest_size whole -> fapp head rest = whole ->
  tags_fit (SIZE_MAX - node_size x.(cs_document)) rest ->
  exists z k' h, consumes B C0 dg x z k' (forest_size whole) /\ moved x.(cs_reader) z.(cs_reader) (zlen (w1 ++ w2)) (forest_size whole) /\
    z.(cs_path) = x.(cs_path) /\ z.(cs_builder) = x.(cs_builder) /\ z.(cs_list) = dapp x.(cs_list) h /\
    contents (node_size x.(cs_document)) z.(cs_store).(st_mem) h = whole.
Proof using.
  intros IH Hw Hcl Hr Hc Hm Hp Hb Hl Hcon Hh Hn Hwhole Htags.
  pose proof (ready_rest x y w1 w2 whole rest k n Hr Hc Hm Hp Hb Hh ltac:(lia) Htags) as Hr'.
  destruct (IH y w2 Hw Hcl Hr') as (z & k' & h & Hc2 & Hm2 & Hp2 & Hb2 & Hl2 & Hcon2).
  destruct (consumes_options B C0 dg x y k n (rd_state _ _ _ Hr) Hc) as [Eo _].
  exists z, (k + k')%nat, (DNode (st_next (cs_store x)) q kids h). rewrite <- Hn.
  split; [exact (consumes_trans B C0 dg _ _ _ _ _ _ _ Hc Hc2)|]. split; [rewrite length_app, Nat2Z.inj_add; eapply moved_trans; eassumption|].
  split; [congruence|]. split; [congruence|]. split; [rewrite Hl2, Hl; apply dapp_assoc|]. rewrite <- Hwhole. apply contents_rest.
  - rewrite <- Hcon. pose proof (bu_built _ _ _ _ _ _ _ _ (cn_state _ _ _ _ _ _ _ Hc)) as Hby. rewrite Hl in Hby.
    eapply (contents_keep _ _ _ _ _ _ _ _ Hby). apply (cn_extends _ _ _ _ _ _ _ Hc2).
  - rewrite <- Hcon2. unfold node_size. now rewrite Eo.
Qed.

Lemma builds_forest fo : builds fo.
Proof using Hdec DecodeLaws0 Hclass.
  induction fo as [|tag value rest IH|tag children IHc rest IH]; intros x w Hw Hcl Hr; cbn in Hw, Hcl.
  - injection Hw as <-. exists x, O, DNil. split; [apply consumes_refl, Hr|]. rewrite dapp_nil.
    split; [|done]. destruct Hr as [_ _ [Ht Hp _ _ _ _ _] _ _ _ _ _ _]. split; try done; cbn; [|lia]. rewrite Z.add_0_r. now destruct (tr_input _).
  - destruct (cl_wire tag value) as [w1|] eqn:E1; [|done]. destruct (forest_wire f rest) as [w2|] eqn:E2; [|done].
    injection Hw as <-. apply andb_true_iff in Hcl as [Hpt Hcl]. apply negb_true_iff in Hpt.
    destruct (builds_leaf x tag value w1 w2 rest Hr E1 Hpt) as (y & q & Hc & Hm & Hp & Hb & Hl & Hcon).
    destruct (rd_tags _ _ _ Hr) as [_ Htags].
    apply (builds_cons x y 1 1 _ (FElement tag value FNil) rest w1 w2 q DNil IH E2 Hcl Hr Hc Hm Hp Hb Hl Hcon); cbn; done || lia.
  - destruct (forest_wire f children) as [value|] eqn:E0; [|done].
    destruct (cl_wire tag value) as [w1|] eqn:E1; [|done]. destruct (forest_wire f rest) as [w2|] eqn:E2; [|done].
    injection Hw as <-. rewrite !andb_true_iff in Hcl. destruct Hcl as [[Hpt Hcl1] Hcl2].
    destruct (builds_node x tag children value w1 w2 rest IHc E0 E1 Hpt Hcl1 Hr) as (y & k & q & kids & Hc & Hm & Hp & Hb & Hl & Hcon).
    destruct (rd_tags _ _ _ Hr) as (_ & _ & Htags). destruct (forest_height_node tag children rest) as [_ Hh].
    apply (builds_cons x y k (1 + forest_size children) _ (FNode tag children FNil) rest w1 w2 q kids IH E2 Hcl2 Hr Hc Hm Hp Hb Hl Hcon); try done; cbn; lia.
Qed.
End Forests.
