(* ===== verification/DocumentLaws.v ===== *)
(** * Documents: what parsing and destruction achieve *)

From S2P Require Import Prelude Mem Core Format Diagnostic WireFormat Reader TreeReader TreeLaws TreeNodes Document DocumentReader DocumentEdit.
From S2P Require Import DocumentTree DocumentFree DocumentInv DocumentErase DocumentBuild DocumentConsume.
From S2P Require Import DocumentParse DocumentForest.

Section Fuel.
Context `{Platform} `{DocumentLayout}.

(** More fuel does not change a result. *)
Lemma consume_loop_more fuel doc : forall more b t dg s r, consume_loop fuel doc b t dg s = Some r -> consume_loop (fuel + more) doc b t dg s = Some r.
Proof using.
  induction fuel as [|fuel IH]; intros more b t dg s r; [done|]. cbn [consume_loop Nat.add]. destruct (if b_subtree b then _ else _); [done|].
  unfold mbind, M_bind, memory. destruct (tlv_tree_reader_next_event_diag _ _ _ _) as [[[rc next] event] dg1].
  destruct (negb (is_ok rc)); [done|]. destruct (bool_decide _).
  - destruct (b_container b) as [c|]; [|done]. destruct (ev_skipped _); [done|]. destruct (node_at c s) as [[n s1]|]; [|done]. apply IH.
  - destruct (append_item _ _ _ _ s) as [[[[rc1 b1] dg2] s1]|]; [|done]. destruct (negb (is_ok rc1)); [done|]. apply IH.
Qed.

Lemma consume_loop_agree fuel1 fuel2 doc b t dg s r1 r2 : consume_loop fuel1 doc b t dg s = Some r1 -> consume_loop fuel2 doc b t dg s = Some r2 -> r1 = r2.
Proof using.
  intros E1 E2. apply (consume_loop_more fuel1 doc fuel2) in E1. apply (consume_loop_more fuel2 doc fuel1) in E2.
  rewrite Nat.add_comm in E2. congruence.
Qed.
End Fuel.

Lemma forest_height_size fo : forest_height fo <= forest_size fo.
Proof.
  induction fo as [|tag value rest IH|tag children IHc rest IH]; cbn; [lia|lia|].
  pose proof (forest_size_nonneg rest). pose proof (forest_size_nonneg children). destruct children; cbn in *; lia.
Qed.

Section Forests.
Context `{Platform} `{DocumentLayout} (f : tlv_format_t) (decode : tlv_decode_fn) (Hdec : f.(f_decode) = Some decode)
  `{!DecodeLaws decode} `{!CodecLaws f} (p : list Z -> bool)
  (Hclass : forall m tag, tag_ok tag -> is_constructed (Some f) m tag = p (tag_bytes m tag)).

(** A forest that a document has room for below a place. *)
Record room_for (B : site) (d : tlv_document_t) (C0 : list dframe) (fo : forest) (w : list Z) : Prop := {
  rf_wire : forest_wire f fo = Some w;
  rf_class : classified p fo = true;
  rf_framed : forest_height fo <= zlen w;
  rf_memory : zlen w * sizeof_tree_frame <= SIZE_MAX;
  rf_willing : willing d;
  rf_depth : B.(si_depth) + zlen C0 + forest_height fo <= d.(d_options).(do_max_depth);
  rf_count : d.(d_count) + forest_size fo <= d.(d_options).(do_max_elements);
  rf_identity : d.(d_next_identity) + forest_size fo <= UINT64_MAX;
  rf_tags : tags_fit (SIZE_MAX - node_size d) fo }.

Lemma consume_tree_forest B s d C0 g b fo w data frames capacity max_elements dg :
  built B s d (plug C0 g) -> Forall frame_ok C0 -> d.(d_options).(do_format) = Some f ->
  b.(b_container) = place_parent B.(si_root) C0 -> b.(b_target_depth) = B.(si_depth) + zlen C0 -> b.(b_source_depth) = 0 ->
  b.(b_subtree) = false -> (b.(b_retain) = true -> d.(d_options).(do_retain) = true) ->
  zlen (default [] frames) = capacity -> (frames = None -> capacity = 0) -> forest_height fo <= capacity <= SIZE_MAX ->
  forest_size fo <= max_elements <= SIZE_MAX -> room_for B d C0 fo w -> (data = NULL -> w = []) -> zlen w <= SIZE_MAX -> below s data ->
  bytes_of s.(st_mem) data (zlen w) = w -> format_typed f dg ->
  exists dg' s' d' h, (let '(rc, reader) := tlv_tree_reader_init (Some no_tree_reader) data (zlen w) (d.(d_options).(do_format)) frames capacity capacity max_elements in
      if is_ok rc then
        '(rc, _, _, diagnostic) ← consume_tree B.(si_doc) b (cell no_tree_reader reader) dg; mret (rc, diagnostic)
      else mret (rc, dg)) s = Some ((TLV_OK, dg'), s') /\
    built B s' d' (plug C0 (dapp g h)) /\ contents (node_size d) s'.(st_mem) h = fo /\
    extends B (root_addrs B.(si_root) ++ addrs (plug C0 g)) s s' /\ d'.(d_count) = d.(d_count) + forest_size fo.
Proof using Hdec DecodeLaws0 Hclass.
  intros Hb Hf Hfmt Hbc Hbt Hsd Hsub Hret Hfr Hfn Hcap Hme [Hw Hcl Hfrm _ Hwill Hdep Hcnt Hid Htags] Hdata Hsize Hbelow Hbytes Hty. rewrite Hfmt.
  pose proof (forest_height_nonneg fo) as Hh0.
  assert (tlv_format_can_read (Some f) = true) as Hcan by (cbn; now rewrite Hdec).
  destruct (tree_init_ok no_tree_reader data (zlen w) f frames capacity capacity max_elements ltac:(intros E; now rewrite (Hdata E)) ltac:(lia) Hcan Hfr
    ltac:(lia) ltac:(pose proof (forest_size_nonneg fo); lia) Hfn) as (t & -> & Ht & Ho & _ & Hwin & Et).
  rewrite is_ok_OK. cbn [cell].
  set (x := mk_state t s b d [] g).
  assert (building B s d b t C0 [] g) as Hbu by (split; try done; rewrite ?Hsd; cbn; lia).
  assert (ready f B C0 x w fo) as Hr.
  { split; try done; cbn [x cs_path cs_reader cs_store app]; [|now rewrite Et]. rewrite Et. split; try done; cbn; try lia.
    - now rewrite <- Et.
    - now rewrite padd_0. }
  destruct (builds_forest f decode Hdec p Hclass B C0 dg fo x w Hw Hcl Hr) as (y & k & h & Hc & Hm & Hp & Hbb & Hl & Hcon).
  cbn [x cs_reader cs_path cs_builder cs_list cs_document cs_store] in *.
  assert (tlv_tree_reader_at_end (Some (cs_reader y)) = true) as Hend.
  { destruct Hm as [Hok Hpe Hi _ Hdp _ _]. unfold pending in Hpe. apply orb_false_iff in Hpe as [Hde He].
    cbn. rewrite Hde, He, Hdp, Hi, Et. cbn. rewrite Z.eqb_refl. done. }
  assert (consume_loop (k + 1) B.(si_doc) b t dg s = Some ((TLV_OK, cs_builder y, cs_reader y, dg), cs_store y)) as E1.
  { pose proof (cn_run _ _ _ _ _ _ _ Hc 1%nat) as R. cbn [x cs_reader cs_builder cs_store] in R. rewrite R. cbn [consume_loop].
    rewrite Hbb, Hsub, Hend. done. }
  unfold consume_tree. set (fuel := (Z.to_nat _ + 3)%nat).
  destruct (consume_loop_run f fuel C0 B s d b t [] g dg Hbu) as (rc & b' & t' & dg' & s' & d' & D' & g' & E2 & _);
    [rewrite Et; done|done|rewrite Et; unfold fuel; rewrite Et; unfold remaining_events, open; cbn; lia|].
  pose proof (consume_loop_agree _ _ _ _ _ _ _ _ _ E1 E2) as Eq. injection Eq as <- <- <- <- <-. run E2.
  pose proof (bu_built _ _ _ _ _ _ _ _ (cn_state _ _ _ _ _ _ _ Hc)) as Hby. rewrite Hp, Hl in Hby.
  exists dg, (cs_store y), (cs_document y), h. split; [done|]. split; [exact Hby|]. split; [exact Hcon|]. split; [apply Hc|].
  apply (cn_count _ _ _ _ _ _ _ Hc).
Qed.

Lemma parse_list_forest B s d C0 g fo w data base dg :
  built B s d (plug C0 g) -> Forall frame_ok C0 -> d.(d_options).(do_format) = Some f -> room_for B d C0 fo w ->
  (data = NULL -> w = []) -> zlen w <= SIZE_MAX -> below s data -> bytes_of s.(st_mem) data (zlen w) = w -> format_typed f dg ->
  exists dg' s' d' h, document_parse_list B.(si_doc) (place_parent B.(si_root) C0) data (zlen w) (B.(si_depth) + zlen C0) base dg s = Some ((TLV_OK, dg'), s') /\
    built B s' d' (plug C0 (dapp g h)) /\ extends B (root_addrs B.(si_root) ++ addrs (plug C0 g)) s s' /\
    contents (node_size d) s'.(st_mem) h = fo /\ d'.(d_count) = d.(d_count) + forest_size fo.
Proof using Hdec DecodeLaws0 Hclass.
  intros Hb Hf Hfmt Hroom Hdata Hsize Hbelow Hbytes Hty. pose proof Hroom as [Hw Hcl Hfrm Hmem Hwill Hdep Hcnt Hid Htags].
  pose proof (forest_height_nonneg fo) as Hh0. pose proof (forest_height_size fo) as Hhs. pose proof (proj1 (proj2 sizeof_range)) as _.
  assert (0 < sizeof_tree_frame) as Hsf by apply sizeof_range.
  destruct (parse_list_scratch B s d C0 g data (zlen w) base dg
    (fun rc d' F m => rc = TLV_OK /\ exists h, F = plug C0 (dapp g h) /\ contents (node_size d) m h = fo /\ d'.(d_count) = d.(d_count) + forest_size fo) Hb)
    as (rc & dg' & s' & d' & F & E & Hb' & He & -> & h & -> & Hcon & Hn); [lia| | |eauto 10].
  - intros rc _ [[_ ?]|[Hlt|Hnw]]; [lia| |done].
    assert (list_capacity d (zlen w) (si_depth B + zlen C0) <= zlen w) by (unfold list_capacity; repeat case_match; lia).
    assert (zlen w <= SIZE_MAX / sizeof_tree_frame) by (apply Z.div_le_lower_bound; lia). lia.
  - intros B1 s1 frames Hb1 Edoc Eroot Edep Em Enext Hcap Hlen Hnone. pose proof Hb1 as [_ _ _ _ _ [L1 L2 L3] [Hc [Hc1 Hc2]] _ _ _ _].
    assert (forest_height fo <= list_capacity d (zlen w) (si_depth B + zlen C0)) as Hle by (unfold list_capacity; repeat case_match; lia).
    unfold list_run. rewrite Edep.
    destruct (consume_tree_forest B1 s1 d C0 g (mk_builder (Some B1.(si_doc)) (place_parent B1.(si_root) C0) false 0 (B.(si_depth) + zlen C0) base false
       (bool_decide (place_parent B1.(si_root) C0 = None) && d.(d_options).(do_retain))) fo w data frames (list_capacity d (zlen w) (si_depth B + zlen C0))
       (do_max_elements (d_options d) - d_count d) dg Hb1 Hf Hfmt) as (dg' & s' & d' & h & E & H1 & H2 & H3 & H4); try done; try (cbn; lia).
    + cbn. now destruct (bool_decide _).
    + split; try done. now rewrite Edep.
    + destruct data; [done|]. cbn in *. lia.
    + now rewrite Em.
    + exists TLV_OK, dg', s', d', (plug C0 (dapp g h)). split; [exact E|]. eauto 10.
Qed.
End Forests.

Lemma tags_fit_more n n' fo : n <= n' -> tags_fit n fo -> tags_fit n' fo.
Proof. intros Hn. induction fo; cbn; intuition lia. Qed.

Section Parsing.
Context `{Platform} `{DocumentLayout} (f : tlv_format_t) (decode : tlv_decode_fn) (Hdec : f.(f_decode) = Some decode)
  `{!DecodeLaws decode} `{!CodecLaws f} (p : list Z -> bool)
  (Hclass : forall m tag, tag_ok tag -> is_constructed (Some f) m tag = p (tag_bytes m tag)).

(** Options that admit a forest and its encoding. *)
Record admits (o : tlv_document_options_t) (fo : forest) (w : list Z) : Prop := {
  ad_options : options_ok o;
  ad_format : o.(do_format) = Some f;
  ad_allocator : exists grants, chosen o = Some grants /\ forall requests n, grants requests n = true;
  ad_wire : forest_wire f fo = Some w;
  ad_class : classified p fo = true;
  ad_framed : forest_height fo <= zlen w;
  ad_memory : zlen w * sizeof_tree_frame <= SIZE_MAX /\ zlen w <= SIZE_MAX;
  ad_depth : forest_height fo <= o.(do_max_depth);
  ad_count : forest_size fo <= o.(do_max_elements);
  ad_tags : tags_fit (SIZE_MAX - (sizeof_node + sizeof_location)) fo }.

Lemma parse_forest_run s data o fo w dg : store_ok s -> admits o fo w -> (data = NULL -> w = []) -> below s data ->
  bytes_of s.(st_mem) data (zlen w) = w -> format_typed f dg ->
  exists d F dg' s', tlv_document_parse data (zlen w) (Some o) dg s = Some ((TLV_OK, Some s.(st_next), dg'), s') /\
    doc_ok s' s.(st_next) d F /\ contents (node_size d) s'.(st_mem) F = fo /\ d.(d_count) = forest_size fo /\ d.(d_query_callbacks) = 0 /\
    d.(d_options).(do_retain) = o.(do_retain).
Proof using Hdec DecodeLaws0 Hclass.
  intros Hs [Ho Hf (grants & Hch & Hgr) Hw Hcl Hfrm [Hmem Hsize] Hdep Hcnt Htags] Hdata Hbelow Hbytes Hty. unfold tlv_document_parse.
  replace (is_null data && negb (zlen w =? 0)) with false by (destruct data; [rewrite Hdata by done|]; done).
  unfold mbind at 1. unfold M_bind at 1. rewrite create_run, Hf, Hch, Hgr.
  set (b := st_next s). pose proof (with_empty_built o grants s Hs Ho) as Hb. fold b in Hb. set (B := own_site b _) in *.
  assert (room_for f p B (empty_document o grants) [] fo w) as Hroom.
  { pose proof SIZE_MAX_bounds. pose proof (proj1 Ho). split; cbn; try done; try lia. apply (tags_fit_more _ _ _) with (2 := Htags). unfold node_size. cbn.
    pose proof sizeof_range. destruct (do_retain o); lia. }
  destruct (parse_list_forest f decode Hdec p Hclass B _ _ [] DNil fo w data 0 (tlv_reader_diagnostic_init dg) Hb) as (dg' & s1 & d' & h & E & Hb1 & He & Hcon & Hn); try done.
  { destruct data; [done|]. cbn in *. lia. }
  { apply (format_typed_kept f dg); [done|now intros ->]. }
  cbn [place_parent B own_site si_root si_doc si_depth length] in E. run E. rewrite is_ok_OK. cbn [negb plug dapp] in *.
  assert (doc_ok s1 b d' h) as Hok by (apply (built_doc_ok _ _ _ _ _ Hb1); set_solver).
  destruct (ex_document _ _ _ _ He (empty_document o grants)) as (d2 & Hd2 & Eo & _ & _ & _ & Eq & _); [cbn; now rewrite lookup_insert_eq|].
  assert (d2 = d') as -> by (pose proof (dk_document _ _ _ _ Hok); cbn in Hd2; congruence).
  exists d', h, dg', s1. split; [done|]. split; [done|]. split; [rewrite <- Hcon; unfold node_size; now rewrite Eo|].
    split; [done|]. split; [done|]. now rewrite Eo.
Qed.

(** ** Theorems *)

(** C4. Parsing the encoding of a forest, with any format that has the laws of a codec and an allocator that
    grants what is asked, returns a well-formed document that holds the forest: the same tags, values
    and nesting, in new storage, with the element count of the forest.  A level per nested non-empty node
    and an octet of the encoding for it, and an element of the limit per node, are enough. *)
Theorem document_parse_forest (s : store) (data : ptr) (o : tlv_document_options_t) (fo : forest) (w : list Z)
  (dg : option tlv_reader_diagnostic_t) (Hs : store_ok s) (Ho : admits o fo w) (Hdata : data = NULL -> w = [])
  (Hbelow : below s data) (Hbytes : bytes_of s.(st_mem) data (zlen w) = w) (Hty : format_typed f dg) :
  exists d F dg' s', tlv_document_parse data (zlen w) (Some o) dg s = Some ((TLV_OK, Some s.(st_next), dg'), s') /\
    doc_ok s' s.(st_next) d F /\ contents (node_size d) s'.(st_mem) F = fo /\ d.(d_count) = forest_size fo.
Proof.
  destruct (parse_forest_run s data o fo w dg Hs Ho Hdata Hbelow Hbytes Hty) as (d & F & dg' & s' & E & H1 & H2 & H3 & _). eauto 10.
Qed.
End Parsing.

Section Outcomes.
Context `{Platform} `{DocumentLayout}.

(** C5. Parsing any input with any format and any allocator terminates without touching dead memory, and
    either returns a well-formed document that owns exactly the memory that was allocated, or fails and
    has released everything it had allocated.  What lived before is not touched. *)
Theorem document_parse_owns (s : store) (data : ptr) (size : Z) (o : tlv_document_options_t) (f : tlv_format_t)
  (dg : option tlv_reader_diagnostic_t) (Hs : store_ok s) (Ho : options_ok o) (Hf : o.(do_format) = Some f)
  (Hty : format_typed f dg) (Hdata : data = NULL -> size = 0) (Hsize : 0 <= size <= SIZE_MAX) :
  exists rc document dg' s', tlv_document_parse data size (Some o) dg s = Some ((rc, document, dg'), s') /\ store_ok s' /\
    (forall b i, b < s.(st_next) -> s'.(st_mem) b i = s.(st_mem) b i) /\
    (forall b, b ∈ s.(st_live) -> s'.(st_nodes) !! b = s.(st_nodes) !! b /\ s'.(st_documents) !! b = s.(st_documents) !! b) /\
    ((rc = TLV_OK /\ exists d F, document = Some s.(st_next) /\ doc_ok s' s.(st_next) d F /\
        s'.(st_live) = s.(st_live) ∪ {[s.(st_next)]} ∪ list_to_set (blocks F)) \/
     (rc <> TLV_OK /\ document = None /\ s'.(st_live) = s.(st_live))).
Proof. exact (parse_run s data size o f dg Hs Ho Hf Hty Hdata Hsize). Qed.

(** C35. Freeing a well-formed document that no callback is looking at releases the document and every
    allocation of its forest, each once, and nothing else. *)
Theorem document_free_releases (s : store) (doc : Z) (d : tlv_document_t) (F : dforest) (Hok : doc_ok s doc d F)
  (Hq : d.(d_query_callbacks) = 0) :
  exists s', tlv_document_free (Some doc) s = Some (tt, s') /\ store_ok s' /\
    s'.(st_live) = s.(st_live) ∖ list_to_set (blocks F) ∖ {[doc]} /\ s'.(st_documents) !! doc = None /\ s'.(st_mem) = s.(st_mem) /\
    (forall b, b <> doc -> s'.(st_documents) !! b = s.(st_documents) !! b) /\
    (forall b, b < s.(st_next) -> b <> doc -> b ∉ addrs F -> s'.(st_nodes) !! b = s.(st_nodes) !! b).
Proof.
  destruct (free_run s doc d F Hok Hq) as (s' & H1 & H2 & H3 & H4 & H5 & H6 & H7 & _). exists s'. done.
Qed.
End Outcomes.

(** ** A concrete document *)

Definition example_layout : DocumentLayout := {|
  malloc := fun _ _ => true; sizeof_node := 80; sizeof_location := 32; sizeof_document := 112; sizeof_tree_frame := 16; sizeof_builder := 104;
  sizeof_range := ltac:(lia) |}.
Definition example_options : tlv_document_options_t := mk_document_options (Some tree_example_format) 64 100 None false.
Definition example_octets : list Z := [33; 5; 1; 1; 7; 34; 0; 2; 0].
Definition example_store : store := mk_store (mem_of 1 example_octets) ∅ ∅ ∅ 2 [].

Lemma example_store_ok : store_ok example_store.
Proof. split; cbn; intros b _; [done|done|apply not_elem_of_empty]. Qed.

Lemma example_typed : @format_typed LP64 tree_example_format None.
Proof. intros decode [= <-]. split; [|done]. apply (@dl_typed LP64 _ tree_example_laws). Qed.

Lemma example_admits : @admits LP64 example_layout tree_example_format tree_example_codec tree_example_class example_options tree_example_forest example_octets.
Proof.
  split; try done; try (vm_compute; intuition congruence).
  exists (fun _ _ => true). done.
Qed.

Lemma example_parsed :
  exists d F dg' s', @tlv_document_parse LP64 example_layout (Ptr 1 0) 9 (Some example_options) None example_store = Some ((TLV_OK, Some 2, dg'), s') /\
    @doc_ok LP64 s' 2 d F /\ contents 80 s'.(st_mem) F = tree_example_forest /\ d.(d_count) = 4 /\ d.(d_query_callbacks) = 0.
Proof.
  destruct (@parse_forest_run LP64 example_layout tree_example_format _ eq_refl tree_example_laws tree_example_codec tree_example_class
    tree_example_classes example_store (Ptr 1 0) example_options tree_example_forest example_octets None example_store_ok example_admits
    ltac:(discriminate) ltac:(vm_compute; done) ltac:(vm_compute; reflexivity) example_typed) as (d & F & dg' & s' & E & Hok & Hc & Hn & Hq & Hr).
  exists d, F, dg', s'. split; [exact E|]. split; [exact Hok|]. split; [|split; [exact Hn|exact Hq]].
  unfold node_size in Hc. rewrite Hr in Hc. exact Hc.
Qed.

Lemma document_parse_forest_witness :
  exists d F dg' s', @tlv_document_parse LP64 example_layout (Ptr 1 0) 9 (Some example_options) None example_store = Some ((TLV_OK, Some 2, dg'), s') /\
    contents (@node_size example_layout d) s'.(st_mem) F = FNode [33] (FElement [1] [7] (FNode [34] FNil FNil)) (FElement [2] [] FNil) /\ d.(d_count) = 4.
Proof.
  destruct (@document_parse_forest LP64 example_layout tree_example_format _ eq_refl tree_example_laws tree_example_codec tree_example_class
    tree_example_classes example_store (Ptr 1 0) example_options tree_example_forest example_octets None example_store_ok example_admits
    ltac:(discriminate) ltac:(vm_compute; done) ltac:(vm_compute; reflexivity) example_typed) as (d & F & dg' & s' & E & _ & Hc & Hn).
  exists d, F, dg', s'. exact (conj E (conj Hc Hn)).
Defined.

(** The last element is cut off. *)
Lemma document_parse_owns_witness :
  exists dg' s', @tlv_document_parse LP64 example_layout (Ptr 1 0) 8 (Some example_options) None example_store = Some ((TLV_ERR_TRUNCATED, None, dg'), s') /\
    s'.(st_live) = ∅.
Proof.
  destruct (@document_parse_owns LP64 example_layout example_store (Ptr 1 0) 8 example_options tree_example_format None example_store_ok
    ltac:(vm_compute; intuition congruence) eq_refl example_typed ltac:(discriminate) ltac:(split; vm_compute; congruence))
    as (rc & document & dg' & s' & E & _ & _ & _ & Hout).
  assert (option_map (fun r => fst (fst (fst r))) (@tlv_document_parse LP64 example_layout (Ptr 1 0) 8 (Some example_options) None example_store) =
          Some TLV_ERR_TRUNCATED) as Hrc by (vm_compute; reflexivity).
  rewrite E in Hrc. cbn [option_map fst] in Hrc. apply (inj Some) in Hrc. rewrite Hrc in E, Hout. destruct Hout as [Hout|(_ & Hd & Hl)]; [discriminate (proj1 Hout)|].
  rewrite Hd in E. exists dg', s'. exact (conj E Hl).
Defined.

Lemma document_free_releases_witness :
  exists s s', @tlv_document_free LP64 (Some 2) s = Some (tt, s') /\ 2 ∈ s.(st_live) /\ (2 ∉ s'.(st_live)) /\ s'.(st_documents) !! 2 = None.
Proof.
  destruct example_parsed as (d & F & dg' & s & _ & Hok & _ & _ & Hq).
  destruct (@document_free_releases LP64 s 2 d F Hok Hq) as (s' & E & _ & Hl & Hd & _).
  exists s, s'. split; [exact E|]. split; [exact (dk_self _ _ _ _ Hok)|]. split; [rewrite Hl; set_solver|exact Hd].
Defined.

(** The last of the two top-level elements is erased. *)
Lemma node_erase_removes_witness :
  exists s s' b d' F', @tlv_node_erase LP64 (Some b) s = Some (tt, s') /\ @doc_ok LP64 s' 2 d' F' /\ d'.(d_count) = 3 /\
    contents 80 s'.(st_mem) F' = FNode [33] (FElement [1] [7] (FNode [34] FNil FNil)) FNil.
Proof.
  destruct example_parsed as (d & F & dg' & s & _ & Hok & Hc & Hn & Hq).
  destruct F as [|a q kids [|b p k r]]; cbn in Hc; [discriminate|destruct (np_constructed q); discriminate|].
  destruct (np_constructed q) eqn:Eq; [|discriminate]. destruct (np_constructed p) eqn:Ep; [discriminate|].
  pose proof (dk_shape _ _ _ _ Hok) as Hs. cbn in Hs. rewrite Ep in Hs. destruct Hs as (_ & _ & _ & [Hk|Hk] & _); [|discriminate]. subst k.
  assert (r = DNil) as Hr by (destruct r as [|c p' k' r]; [done|]; cbn in Hc; destruct (np_constructed p'); discriminate). subst r.
  destruct (@node_erase_removes LP64 s 2 d [] (DNode a q kids DNil) b p DNil DNil Hok Hq) as (s' & d' & E & Hok' & Hcount & _ & Hm & _).
  exists s, s', b, d', (DNode a q kids DNil). split; [exact E|]. cbn in Hok'. split; [destruct (do_retain (d_options d)); exact Hok'|].
  split; [rewrite Hcount, Hn; reflexivity|]. rewrite Hm. cbn. rewrite Eq. injection Hc as -> -> _. reflexivity.
Defined.
