(* ===== verification/DocumentWriter.v ===== *)
(** * Documents: encoding (src/document/writer.c)

    A document is written by replaying its nodes as events into the tree Writer: first to size the frame
    stack, then into a workspace that grows until the whole encoding fits, and last from the workspace
    to the caller.  The producer of the events reads the nodes of the store; the context it is given is
    [None] once it has dereferenced a node that is not live, which makes the operation undefined. *)

From S2P Require Import Prelude Mem Core Format Diagnostic Reader TreeReader Writer TreeWriter TreeMeasure Document.

Class WriterLayout := {
  sizeof_writer_frame : Z;
  sizeof_writer_frame_range : 0 < sizeof_writer_frame <= 1024 }.

Record document_source_t := mk_document_source {
  ds_next : option Z; ds_depth : Z; ds_single : bool; ds_closing : bool }.

(** The whole store. *)
Definition here : M store := fun s => Some (s, s).

(** A loop of at most [2 ^ k] rounds: a round goes on with [inl] and ends the loop with [inr]. *)
Fixpoint rounds {A R : Type} (k : nat) (step : A -> M (A + R)) (a : A) : M (A + R) :=
  match k with
  | O => step a
  | S k =>
      r ← rounds k step a;
      match r with inl a => rounds k step a | inr r => mret (inr r) end
  end.

Section Operations.
Context `{Platform} `{DocumentLayout} `{WriterLayout}.

(** Behind a node that is complete. *)
Definition source_after (n : tlv_node_t) (source : document_source_t) : document_source_t :=
  let depth := source.(ds_depth) in
  let single := source.(ds_single) in
  if (depth =? 0) && single then mk_document_source None depth single false
  else
    match n.(n_next) with
    | Some next => mk_document_source (Some next) depth single false
    | None =>
        if negb (depth =? 0) then mk_document_source n.(n_parent) (depth - 1) single true
        else mk_document_source None depth single false
    end.

Definition document_next (source : document_source_t) (event : tlv_tree_event_t)
  : M (tlv_result_t * document_source_t * tlv_tree_event_t) :=
  match source.(ds_next) with
  | None => mret (TLV_END, source, event)
  | Some node =>
      n ← node_at node;
      let depth := source.(ds_depth) in
      if source.(ds_closing) then
        mret (TLV_OK, source_after n source, mk_event TLV_TREE_END empty_element no_source depth 0 false)
      else
        tag ← document_node_tag node;
        let element := mk_element tag (mk_value n.(n_value) n.(n_value_size)) in
        if n.(n_constructed) then
          mret (TLV_OK,
                match n.(n_first) with
                | Some first => mk_document_source (Some first) (usize (depth + 1)) source.(ds_single) false
                | None => mk_document_source (Some node) depth source.(ds_single) true
                end, mk_event TLV_TREE_BEGIN element no_source depth 0 false)
        else mret (TLV_OK, source_after n source, mk_event TLV_TREE_ELEMENT element no_source depth 0 false)
  end.

(** The same as a callback of the tree Writer, over the nodes of [s]. *)
Definition document_producer (s : store) : tlv_tree_event_next_fn (option document_source_t) := fun context event =>
  match context with
  | None => (TLV_END, None, event)
  | Some source =>
      match document_next source event s with
      | Some (rc, source, event, _) => (rc, Some source, event)
      | None => (TLV_END, None, event)
      end
  end.

(** Out-parameters: the data and its capacity. *)
Definition grow_workspace (document : Z) (data : ptr) (capacity required : Z) : M (tlv_result_t * ptr * Z) :=
  if required <=? capacity then mret (TLV_OK, data, capacity)
  else
    let grown := if capacity <=? SIZE_MAX / 2 then capacity * 2 else required in
    let grown := if grown <? 256 then 256 else grown in
    let grown := if grown <? required then required else grown in
    replacement ← document_memory_allocate document grown;
    match replacement with
    | None => mret (TLV_ERR_OUT_OF_MEMORY, data, capacity)
    | Some b => _ ← document_memory_release document data; mret (TLV_OK, Ptr b 0, grown)
    end.

(** A workspace and the address of its frames. *)
Definition workspace : Type := option Z * tlv_tree_writer_workspace_t.

Definition no_workspace : workspace := (None, mk_workspace None 0 NULL 0 NULL 0 0 0).

Definition release_workspace (document : Z) (workspace : workspace) : M unit :=
  let '(frames, ws) := workspace in
  _ ← document_memory_release document (match frames with Some b => Ptr b 0 | None => NULL end);
  _ ← document_memory_release document ws.(ws_data);
  document_memory_release document ws.(ws_scratch).

Definition with_data (data : ptr) (capacity : Z) (ws : tlv_tree_writer_workspace_t) : tlv_tree_writer_workspace_t :=
  mk_workspace ws.(ws_frames) ws.(ws_frame_capacity) data capacity ws.(ws_scratch) ws.(ws_scratch_capacity)
    ws.(ws_required_data) ws.(ws_required_scratch).
Definition with_scratch (data : ptr) (capacity : Z) (ws : tlv_tree_writer_workspace_t) : tlv_tree_writer_workspace_t :=
  mk_workspace ws.(ws_frames) ws.(ws_frame_capacity) ws.(ws_data) ws.(ws_data_capacity) data capacity
    ws.(ws_required_data) ws.(ws_required_scratch).

(** The frames that the events need; [None] is the return of [TLV_ERR_OUT_OF_MEMORY]. *)
Fixpoint frame_loop (fuel : nat) (source : document_source_t) (capacity : Z) : M (option Z) :=
  match fuel with
  | O => undefined
  | S fuel =>
      '(rc, source, event) ← document_next source no_event;
      if negb (is_ok rc) then mret (Some capacity)
      else if bool_decide (event.(ev_kind) = TLV_TREE_BEGIN) then
        if SIZE_MAX / sizeof_writer_frame <=? event.(ev_depth) then mret None
        else frame_loop fuel source (if capacity <? event.(ev_depth) + 1 then event.(ev_depth) + 1 else capacity)
      else frame_loop fuel source capacity
  end.

(** One round of [for (;;)]: measure, and grow what was too small. *)
Definition prepare_round (document : Z) (first : option Z) (single : bool) (format : option tlv_format_t)
  (ws : tlv_tree_writer_workspace_t)
  : M (tlv_tree_writer_workspace_t + tlv_result_t * tlv_tree_writer_workspace_t * Z) :=
  fuel ← walk_fuel;
  s ← here;
  match tlv_tree_writer_measure_events fuel s.(st_mem) format (Some (document_producer s))
          (Some (mk_document_source first 0 single false)) (Some ws) SIZE_MAX SIZE_MAX (Some 0) None with
  | Some (rc, m, Some _, _, Some ws, size, _) =>
      _ ← put_memory m;
      if negb (rc_eqb rc TLV_ERR_BUFFER_TOO_SHORT) || ((ws.(ws_required_data) =? 0) && (ws.(ws_required_scratch) =? 0))
      then mret (inr (rc, ws, cell 0 size))
      else
        '(rc, data, capacity) ← grow_workspace document ws.(ws_data) ws.(ws_data_capacity) ws.(ws_required_data);
        let ws := with_data data capacity ws in
        if negb (is_ok rc) then mret (inr (rc, ws, 0))
        else
          '(rc, data, capacity) ← grow_workspace document ws.(ws_scratch) ws.(ws_scratch_capacity) ws.(ws_required_scratch);
          let ws := with_scratch data capacity ws in
          if negb (is_ok rc) then mret (inr (rc, ws, 0)) else mret (inl ws)
  | _ => undefined
  end.

(** Out-parameters: the workspace and the size.  Every round that goes on makes a capacity grow. *)
Definition prepare_encoding (document : Z) (first : option Z) (single : bool) (format : option tlv_format_t)
  : M (tlv_result_t * workspace * Z) :=
  if negb (tlv_format_can_write format) then mret (TLV_ERR_NULL_ARG, no_workspace, 0)
  else
    fuel ← walk_fuel;
    needed ← frame_loop fuel (mk_document_source first 0 single false) 0;
    match needed with
    | None => mret (TLV_ERR_OUT_OF_MEMORY, no_workspace, 0)
    | Some capacity =>
        frames ← (if negb (capacity =? 0) then document_memory_allocate document (capacity * sizeof_writer_frame)
                  else mret None);
        if negb (capacity =? 0) && bool_decide (frames = None) then mret (TLV_ERR_OUT_OF_MEMORY, no_workspace, 0)
        else
          let list := match frames with Some _ => Some (replicate (Z.to_nat capacity) no_wframe) | None => None end in
          result ← rounds (Z.to_nat size_bits + 1) (prepare_round document first single format)
                     (mk_workspace list capacity NULL 0 NULL 0 0 0);
          match result with
          | inl _ => undefined
          | inr (rc, ws, size) => mret (rc, (frames, ws), size)
          end
    end.

Definition encoded_size_as (document : Z) (first : option Z) (single : bool) (format : option tlv_format_t) (size : Z)
  : M (tlv_result_t * Z) :=
  '(rc, workspace, total) ← prepare_encoding document first single format;
  _ ← release_workspace document workspace;
  mret (rc, if is_ok rc then total else size).

Definition encode_as (document : Z) (first : option Z) (single : bool) (format : option tlv_format_t) (data : ptr)
  (capacity written : Z) : M (tlv_result_t * Z) :=
  '(rc, workspace, total) ← prepare_encoding document first single format;
  '(rc, written) ←
    (if negb (is_ok rc) then mret (rc, written)
     else if capacity <? total then mret (TLV_ERR_BUFFER_TOO_SHORT, total)
     else
       m ← memory;
       let '(rc, writer) := tlv_writer_init (Some (mk_writer None NULL 0 0)) data capacity format in
       let '(rc, m, writer) :=
         if is_ok rc then tlv_writer_copy_encoded m writer (snd workspace).(ws_data) total else (rc, m, writer) in
       _ ← put_memory m;
       mret (rc, if is_ok rc then tlv_writer_size writer else written));
  _ ← release_workspace document workspace;
  mret (rc, written).

(** Out-parameters: the size, or the octets written. *)
Definition tlv_document_encoded_size_as (document : option Z) (format : option tlv_format_t) (size : option Z)
  : M (tlv_result_t * option Z) :=
  match document, size with
  | Some b, Some size =>
      d ← document_at b;
      '(rc, size) ← encoded_size_as b d.(d_first) false format size;
      mret (rc, Some size)
  | _, _ => mret (TLV_ERR_NULL_ARG, size)
  end.

Definition own_format (document : option Z) : M (option tlv_format_t) :=
  match document with Some b => d ← document_at b; mret d.(d_options).(do_format) | None => mret None end.

Definition tlv_document_encoded_size (document : option Z) (size : option Z) : M (tlv_result_t * option Z) :=
  format ← own_format document; tlv_document_encoded_size_as document format size.

Definition tlv_document_encode_as (document : option Z) (format : option tlv_format_t) (data : ptr) (capacity : Z)
  (written : option Z) : M (tlv_result_t * option Z) :=
  match document, written with
  | Some b, Some written =>
      if is_null data && negb (capacity =? 0) then mret (TLV_ERR_NULL_ARG, Some written)
      else
        d ← document_at b;
        '(rc, written) ← encode_as b d.(d_first) false format data capacity written;
        mret (rc, Some written)
  | _, _ => mret (TLV_ERR_NULL_ARG, written)
  end.

Definition tlv_document_encode (document : option Z) (data : ptr) (capacity : Z) (written : option Z)
  : M (tlv_result_t * option Z) :=
  format ← own_format document; tlv_document_encode_as document format data capacity written.

Definition tlv_node_encoded_size_as (node : option Z) (format : option tlv_format_t) (size : option Z)
  : M (tlv_result_t * option Z) :=
  match node, size with
  | Some p, Some size =>
      n ← node_at p;
      '(rc, size) ← encoded_size_as n.(n_document) (Some p) true format size;
      mret (rc, Some size)
  | _, _ => mret (TLV_ERR_NULL_ARG, size)
  end.

Definition node_format (node : option Z) : M (option tlv_format_t) :=
  match node with Some p => n ← node_at p; own_format (Some n.(n_document)) | None => mret None end.

Definition tlv_node_encoded_size (node : option Z) (size : option Z) : M (tlv_result_t * option Z) :=
  format ← node_format node; tlv_node_encoded_size_as node format size.

Definition tlv_node_encode_as (node : option Z) (format : option tlv_format_t) (data : ptr) (capacity : Z)
  (written : option Z) : M (tlv_result_t * option Z) :=
  match node, written with
  | Some p, Some written =>
      if is_null data && negb (capacity =? 0) then mret (TLV_ERR_NULL_ARG, Some written)
      else
        n ← node_at p;
        '(rc, written) ← encode_as n.(n_document) (Some p) true format data capacity written;
        mret (rc, Some written)
  | _, _ => mret (TLV_ERR_NULL_ARG, written)
  end.

Definition tlv_node_encode (node : option Z) (data : ptr) (capacity : Z) (written : option Z)
  : M (tlv_result_t * option Z) :=
  format ← node_format node; tlv_node_encode_as node format data capacity written.
End Operations.
