(* ===== verification/DocumentEncode.v ===== *)
(** * Documents: what encoding achieves

    Replaying the nodes of a document gives the preorder events of its contents; encoding them gives the
    encoding of the contents, or an error that leaves the document and the caller's memory alone. *)

From S2P Require Import Prelude Mem Core Format Diagnostic WireFormat Reader TreeReader TreeLaws Writer TreeWriter TreeMeasure TreeWriterLaws TreeMeasureLaws.
From S2P Require Import Document DocumentTree DocumentFree DocumentInv DocumentErase DocumentBuild DocumentConsume DocumentWriter.

Section Replay.
Context `{Platform} `{DocumentLayout}.

(** ** The events of a list of nodes *)

Definition payload_element (size a : Z) (p : payload) : tlv_element_t :=
  mk_element (if negb (p.(np_tag_size) =? 0) then mk_tag (Ptr a size) p.(np_tag_size) else mk_tag NULL 0)
    (mk_value p.(np_value) p.(np_value_size)).

Fixpoint replay (size depth : Z) (g : dforest) : list tlv_tree_event_t :=
  match g with
  | DNil => []
  | DNode a p kids rest =>
      let element := payload_element size a p in
      if p.(np_constructed) then
        mk_event TLV_TREE_BEGIN element no_source depth 0 false :: replay size (depth + 1) kids ++
        mk_event TLV_TREE_END empty_element no_source depth 0 false :: replay size depth rest
      else mk_event TLV_TREE_ELEMENT element no_source depth 0 false :: replay size depth rest
  end.

(** Behind a node whose next sibling is [next]. *)
Definition behind (parent next : option Z) (depth : Z) (single : bool) : document_source_t :=
  if (depth =? 0) && single then mk_document_source None depth single false
  else
    match next with
    | Some next => mk_document_source (Some next) depth single false
    | None => if negb (depth =? 0) then mk_document_source parent (depth - 1) single true
              else mk_document_source None depth single false
    end.

Context (s : store) (doc : Z) (d : tlv_document_t) (Hd : s.(st_documents) !! doc = Some d).

Lemma node_tag_run a n : s.(st_nodes) !! a = Some n -> n.(n_document) = doc ->
  document_node_tag a s = Some (if negb (n.(n_tag_size) =? 0) then mk_tag (Ptr a (node_size d)) n.(n_tag_size) else mk_tag NULL 0, s).
Proof using Hd.
  intros Hn Hdoc. unfold document_node_tag, node_tag_data, node_at, document_at, mbind, M_bind, mret, M_ret. rewrite Hn.
  destruct (negb _); [|done]. cbv beta iota. rewrite Hn. cbv beta iota. rewrite Hdoc, Hd. done.
Qed.

Lemma next_open a p parent prev next kids depth single ev :
  s.(st_nodes) !! a = Some (node_of p parent prev next (head_or None kids) (last_or None kids)) -> p.(np_document) = doc ->
  document_producer s (Some (mk_document_source (Some a) depth single false)) ev =
    if p.(np_constructed) then
      (TLV_OK, Some (match head_or None kids with
                     | Some first => mk_document_source (Some first) (usize (depth + 1)) single false
                     | None => mk_document_source (Some a) depth single true
                     end), mk_event TLV_TREE_BEGIN (payload_element (node_size d) a p) no_source depth 0 false)
    else (TLV_OK, Some (behind parent next depth single),
          mk_event TLV_TREE_ELEMENT (payload_element (node_size d) a p) no_source depth 0 false).
Proof using Hd.
  intros Hn Hdoc. unfold document_producer, document_next. cbn [ds_next ds_depth ds_single ds_closing].
  unfold mbind, M_bind, node_at, mret, M_ret. rewrite Hn. cbn [node_of n_document].
  pose proof (node_tag_run a _ Hn Hdoc) as Et. rewrite Et. cbn [node_of n_tag_size n_value n_value_size n_constructed n_first].
  destruct (np_constructed p); done.
Qed.

Lemma next_close a p parent prev next kids depth single ev :
  s.(st_nodes) !! a = Some (node_of p parent prev next (head_or None kids) (last_or None kids)) ->
  document_producer s (Some (mk_document_source (Some a) depth single true)) ev =
    (TLV_OK, Some (behind parent next depth single), mk_event TLV_TREE_END empty_element no_source depth 0 false).
Proof using.
  intros Hn. unfold document_producer, document_next. cbn [ds_next ds_depth ds_single ds_closing].
  unfold mbind, M_bind, node_at, mret, M_ret. now rewrite Hn.
Qed.

(** A list whose end is not the end of the walk's single node. *)
Definition list_yields (g : dforest) : Prop :=
  forall parent prev next depth single a, linked s.(st_nodes) parent prev next g -> Forall (payload_ok doc) (payloads g) -> shape g ->
    head_or None g = Some a -> (depth =? 0) && single = false -> 0 <= depth -> depth + dheight g <= SIZE_MAX + 1 ->
    yields (document_producer s) (Some (mk_document_source (Some a) depth single false)) (replay (node_size d) depth g)
      (Some (behind parent next depth single)).

(** One node with its subtree. *)
Lemma node_yields a p parent prev next kids depth single :
  s.(st_nodes) !! a = Some (node_of p parent prev next (head_or None kids) (last_or None kids)) -> p.(np_document) = doc ->
  linked s.(st_nodes) (Some a) None None kids -> Forall (payload_ok doc) (payloads kids) -> shape kids ->
  (kids = DNil \/ p.(np_constructed) = true) -> 0 <= depth -> depth + 1 + dheight kids <= SIZE_MAX + 1 -> list_yields kids ->
  yields (document_producer s) (Some (mk_document_source (Some a) depth single false)) (replay (node_size d) depth (DNode a p kids DNil))
    (Some (behind parent next depth single)).
Proof using Hd.
  intros Hn Hdoc Hk Hp Hs Hc Hge Hmax IH. pose proof (next_open a p parent prev next kids depth single no_event Hn Hdoc) as Ho.
  cbn [replay]. destruct (np_constructed p) eqn:Ec; cbn [yields].
  - eexists. split; [exact Ho|]. apply yields_app. exists (Some (mk_document_source (Some a) depth single true)). split.
    + destruct kids as [|b q kk kr]; [done|]. cbn [head_or].
      assert (0 <= dheight kr) by apply dheight_nonneg. assert (0 <= dheight kk) by apply dheight_nonneg. cbn [dheight] in Hmax.
      rewrite usize_small by lia.
      pose proof (IH (Some a) None None (depth + 1) single b Hk Hp Hs eq_refl) as Hy. unfold behind in Hy.
      rewrite (proj2 (Z.eqb_neq (depth + 1) 0)) in Hy by lia. cbn [andb negb] in Hy. replace (depth + 1 - 1) with depth in Hy by lia.
      apply Hy; [done|lia|cbn [dheight]; lia].
    + cbn [yields]. eexists. split; [exact (next_close a p parent prev next kids depth single no_event Hn)|done].
  - eexists. split; [exact Ho|done].
Qed.

Lemma replay_cons size depth a p kids rest :
  replay size depth (DNode a p kids rest) = replay size depth (DNode a p kids DNil) ++ replay size depth rest.
Proof using. cbn. destruct (np_constructed p); cbn; [|done]. now rewrite <- app_assoc. Qed.

Lemma linked_yields g : list_yields g.
Proof using Hd.
  induction g as [|a p kids IHk rest IHr]; intros parent prev next depth single a' Hl Hp Hs Ha Hds Hge Hmax; [done|].
  cbn in Ha. injection Ha as <-. cbn [linked payloads shape dheight] in *. destruct Hl as (Hn & Hk & Hr), Hs as (Hc & _ & Hsk & Hsr).
  apply Forall_cons_1 in Hp as [[Hdoc _] Hp]. apply Forall_app in Hp as [Hpk Hpr].
  pose proof (dheight_nonneg kids). pose proof (dheight_nonneg rest).
  rewrite replay_cons. apply yields_app. exists (Some (behind parent (head_or next rest) depth single)). split.
  - apply (node_yields a p parent prev (head_or next rest) kids); try done. lia.
  - destruct rest as [|b q kr rr]; [done|]. cbn [head_or]. unfold behind at 1. rewrite Hds.
    apply (IHr parent (Some a) next depth single b); try done. lia.
Qed.
End Replay.

(** ** What the events show *)

Section Shown.
Context `{Platform} `{DocumentLayout} (f : tlv_format_t) `{!CodecLaws f}.

Lemma replay_view m size g : forall depth, shape g ->
  outlines m (replay size depth g) = map outline (forest_events f depth (contents size m g)).
Proof using.
  induction g as [|a p kids IHk rest IHr]; intros depth Hs; [done|]. cbn [shape] in Hs. destruct Hs as (Hc & _ & Hsk & Hsr).
  assert (tag_bytes m (e_tag (payload_element size a p)) = bytes_of m (Ptr a size) (np_tag_size p)) as Et.
  { cbn. destruct (Z.eqb_spec (np_tag_size p) 0) as [->|]; done. }
  cbn [replay contents]. destruct (np_constructed p) eqn:Ec.
  - cbn [forest_events map]. rewrite map_app. cbn [map]. rewrite <- IHk, <- IHr by done.
    unfold outlines. cbn [map]. rewrite map_app. cbn [map]. f_equal.
    unfold outline, view. cbn [ev_kind ev_depth ev_element]. now rewrite Et.
  - cbn [forest_events map]. rewrite <- IHr by done. unfold outlines. cbn [map]. f_equal.
    unfold outline, view. cbn [ev_kind ev_depth ev_element]. now rewrite Et.
Qed.

(** Away from the blocks of the forest. *)
Definition foreign (g : dforest) (p : ptr) : Prop := match p with NULL => True | Ptr b _ => b ∉ blocks g end.

Lemma foreign_sub g g' q : foreign g q -> (forall b, b ∈ blocks g' -> b ∈ blocks g) -> foreign g' q.
Proof using. destruct q as [|b o]; [done|]. intros Hq Hin Hb. apply Hq, Hin, Hb. Qed.

Lemma foreign_apart a p kids rest buf n size : foreign (DNode a p kids rest) buf -> element_apart (payload_element size a p) buf n.
Proof using.
  unfold foreign, element_apart, payload_element. cbn. destruct buf as [|b o]; intros Hb.
  { split; [now destruct (negb _)|now destruct (np_value p)]. }
  rewrite elem_of_cons, !elem_of_app in Hb. unfold value_block in Hb. split.
  - destruct (negb (np_tag_size p =? 0)); cbn; [left; intros ->; auto|done].
  - destruct (np_value p) as [|c o']; cbn; [done|]. left. intros ->. apply Hb. right. left. now apply list_elem_of_singleton.
Qed.

Lemma payload_element_ok doc size a p : payload_ok doc p -> element_ok (payload_element size a p).
Proof using.
  intros (_ & Hn & Ht & Hv). pose proof SIZE_MAX_bounds. unfold payload_element. split; cbn; [|split; cbn].
  - destruct (Z.eqb_spec (np_tag_size p) 0); cbn [negb]; (split; cbn; [lia|done]).
  - lia.
  - intros E. now rewrite E in Hn.
Qed.

Lemma replay_ok doc size buf n scratch k g : forall depth, Forall (payload_ok doc) (payloads g) ->
  foreign g buf -> foreign g scratch -> Forall (event_ok buf n scratch k) (replay size depth g).
Proof using.
  induction g as [|a p kids IHk rest IHr]; intros depth Hp Hb Hs; [constructor|]. cbn [payloads] in Hp.
  apply Forall_cons_1 in Hp as [Hp Hps]. apply Forall_app in Hps as [Hpk Hpr].
  assert (forall kind, event_ok buf n scratch k (mk_event kind (payload_element size a p) no_source depth 0 false)) as He
    by (intros kind; split; [done|split; [exact (payload_element_ok doc size a p Hp)|split; eapply foreign_apart; eassumption]]).
  assert (event_ok buf n scratch k (mk_event TLV_TREE_END empty_element no_source depth 0 false)) as Hend.
  { pose proof SIZE_MAX_bounds. split; [done|]. split; [split; (split; cbn; [lia|done])|]. split; split; cbn; destruct buf, scratch; done. }
  assert (forall d0, Forall (event_ok buf n scratch k) (replay size d0 kids)) as Hkids
    by (intros d0; apply IHk; [done| |]; eapply foreign_sub; try eassumption; intros b Hx; cbn; rewrite elem_of_cons, !elem_of_app; auto).
  assert (Forall (event_ok buf n scratch k) (replay size depth rest)) as Hrest
    by (apply IHr; [done| |]; eapply foreign_sub; try eassumption; intros b Hx; cbn; rewrite elem_of_cons, !elem_of_app; auto).
  cbn [replay]. destruct (np_constructed p); constructor; try apply He; [|exact Hrest].
  apply Forall_app. split; [apply Hkids|]. now constructor.
Qed.

Lemma replay_length size g : forall depth, (length (replay size depth g) <= 2 * length (addrs g))%nat.
Proof using.
  induction g as [|a p kids IHk rest IHr]; intros depth; [done|]. cbn [replay addrs]. specialize (IHk (depth + 1)). specialize (IHr depth).
  destruct (np_constructed p); cbn [length]; rewrite ?length_app; cbn [length]; lia.
Qed.
End Shown.

(** ** The producer *)

Section Producer.
Context `{Platform} `{DocumentLayout}.

Lemma document_next_keeps source ev s r s' : document_next source ev s = Some (r, s') -> s' = s.
Proof using.
  unfold document_next. destruct (ds_next source) as [a|]; [|now intros [= _ <-]].
  unfold mbind, M_bind, node_at. destruct (s.(st_nodes) !! a) as [n|]; [|done].
  destruct (ds_closing source); [now intros [= _ <-]|].
  unfold document_node_tag, node_tag_data, document_at, node_at, mbind, M_bind, mret, M_ret.
  destruct (s.(st_nodes) !! a) as [n1|] eqn:E; [|done]. cbv beta iota.
  destruct (negb _); [rewrite E; destruct (s.(st_documents) !! _) as [d|]; [|done]|]; cbv beta iota; destruct (n_constructed n); now intros [= _ <-].
Qed.

(** The callback and the operation agree. *)
Lemma producer_next s source ev source' e : document_producer s (Some source) ev = (TLV_OK, source', e) ->
  exists x, source' = Some x /\ document_next source ev s = Some ((TLV_OK, x, e), s).
Proof using.
  unfold document_producer. destruct (document_next source ev s) as [[[[rc src] e1] s1]|] eqn:E; [|done].
  intros [= -> <- <-]. apply document_next_keeps in E as Es. subst s1. eauto.
Qed.

Lemma reached_some s source es c : reached (document_producer s) (Some source) es c -> exists x, c = Some x.
Proof using.
  intros (es1 & es2 & _ & Hy). clear es es2. revert source Hy. induction es1 as [|e es1 IH]; intros source Hy; cbn [yields] in Hy; [eauto|].
  destruct Hy as (s1 & Hn & Hy). apply producer_next in Hn as (x & -> & _). eauto.
Qed.

(** ** The nodes that are encoded: a whole list, or one node with its subtree *)

Record section (s : store) (doc : Z) (d : tlv_document_t) (g : dforest) (single : bool) : Prop := {
  sn_document : s.(st_documents) !! doc = Some d;
  sn_linked : exists parent prev next, linked s.(st_nodes) parent prev next g /\ (single = false -> next = None);
  sn_single : single = true -> exists a p kids, g = DNode a p kids DNil;
  sn_payloads : Forall (payload_ok doc) (payloads g);
  sn_shape : shape g;
  sn_height : dheight g <= SIZE_MAX + 1;
  sn_size : (length (addrs g) <= size s.(st_nodes))%nat }.

Definition section_start (g : dforest) (single : bool) : document_source_t := mk_document_source (head_or None g) 0 single false.
Definition section_end (single : bool) : document_source_t := mk_document_source None 0 single false.

Lemma section_yields s doc d g single : section s doc d g single ->
  yields (document_producer s) (Some (section_start g single)) (replay (node_size d) 0 g) (Some (section_end single)).
Proof using.
  intros [Hd (parent & prev & next & Hl & Hn) Hs Hp Hsh Hh _]. unfold section_start, section_end.
  destruct g as [|a p kids rest]; [done|]. cbn [head_or]. destruct single.
  - destruct (Hs eq_refl) as (a' & p' & kids' & [= -> -> -> ->]). cbn [linked payloads shape dheight head_or] in *.
    destruct Hl as (Hna & Hk & _), Hsh as (Hc & _ & Hsk & _). apply Forall_cons_1 in Hp as [[Hdoc _] Hp]. rewrite app_nil_r in Hp.
    pose proof (node_yields s doc d Hd a' p' parent prev next kids' 0 true Hna Hdoc Hk Hp Hsk Hc ltac:(lia)) as Hy.
    apply Hy; [pose proof (dheight_nonneg kids'); lia|]. apply (linked_yields s doc d Hd).
  - rewrite (Hn eq_refl) in Hl. exact (linked_yields s doc d Hd _ parent prev None 0 false a Hl Hp Hsh eq_refl eq_refl ltac:(lia) ltac:(lia)).
Qed.

Lemma section_ends s single : document_producer s (Some (section_end single)) no_event = (TLV_END, Some (section_end single), no_event).
Proof using. done. Qed.

Lemma section_fuel s doc d g single : section s doc d g single ->
  (length (replay (node_size d) 0 g) < S (S (2 * size s.(st_nodes))))%nat.
Proof using. intros Hs. pose proof (replay_length (node_size d) g 0). pose proof (sn_size _ _ _ _ _ Hs). lia. Qed.

(** The same nodes in a store that differs elsewhere. *)
Lemma section_frame s s' doc d g single : section s doc d g single -> s'.(st_nodes) = s.(st_nodes) -> s'.(st_documents) = s.(st_documents) ->
  section s' doc d g single.
Proof using. intros [? ? ? ? ? ? ?] En Ed. split; rewrite ?En, ?Ed; done. Qed.

(** ** The frames *)
Context `{WriterLayout}.

Definition frame_step (capacity : Z) (e : tlv_tree_event_t) : Z :=
  match e.(ev_kind) with TLV_TREE_BEGIN => Z.max capacity (e.(ev_depth) + 1) | _ => capacity end.

(** A scope deeper than any array of frames. *)
Definition too_deep (e : tlv_tree_event_t) : bool :=
  bool_decide (e.(ev_kind) = TLV_TREE_BEGIN) && (SIZE_MAX / sizeof_writer_frame <=? e.(ev_depth)).

Lemma frame_loop_run s source' es : forall fuel source capacity, yields (document_producer s) (Some source) es (Some source') ->
  document_producer s (Some source') no_event = (TLV_END, Some source', no_event) -> (length es < fuel)%nat ->
  frame_loop fuel source capacity s = Some (if existsb too_deep es then None else Some (foldl frame_step capacity es), s).
Proof using.
  induction es as [|e es IH]; intros fuel source capacity Hy Hend Hf; (destruct fuel as [|fuel]; [cbn in Hf; lia|]); cbn [yields] in Hy.
  - injection Hy as <-. cbn [frame_loop]. unfold document_producer in Hend.
    destruct (document_next source' no_event s) as [[[[rc src] e1] s1]|] eqn:E; [|discriminate].
    injection Hend as -> -> ->. apply document_next_keeps in E as Es. subst s1. unfold mbind, M_bind. now rewrite E.
  - destruct Hy as (s1 & Hn & Hy). apply producer_next in Hn as (x & -> & En). cbn [frame_loop]. unfold mbind, M_bind. rewrite En.
    rewrite is_ok_OK. cbn [negb existsb foldl]. unfold too_deep at 1. unfold frame_step at 2.
    destruct (bool_decide_reflect (e.(ev_kind) = TLV_TREE_BEGIN)) as [Ek|Ek]; cbn [andb].
    + rewrite Ek. destruct (SIZE_MAX / sizeof_writer_frame <=? ev_depth e); cbn [orb]; [done|].
      replace (if capacity <? ev_depth e + 1 then ev_depth e + 1 else capacity) with (Z.max capacity (ev_depth e + 1))
        by (destruct (Z.ltb_spec capacity (ev_depth e + 1)); lia).
      apply (IH fuel x); [done|done|cbn in Hf; lia].
    + cbn [orb]. replace (match ev_kind e with TLV_TREE_BEGIN => Z.max capacity (ev_depth e + 1) | _ => capacity end) with capacity by (now destruct (ev_kind e)).
      apply (IH fuel x); [done|done|cbn in Hf; lia].
Qed.

Lemma replay_frames size m g : forall depth capacity, 0 <= depth ->
  foldl frame_step capacity (replay size depth g) =
    (if forest_frames (contents size m g) =? 0 then capacity else Z.max capacity (depth + forest_frames (contents size m g))).
Proof using.
  induction g as [|a p kids IHk rest IHr]; intros depth capacity Hge; [done|]. cbn [replay contents].
  destruct (np_constructed p); cbn [forest_frames]; [|exact (IHr depth capacity Hge)].
  pose proof (forest_frames_nonneg (contents size m kids)). pose proof (forest_frames_nonneg (contents size m rest)).
  rewrite (proj2 (Z.eqb_neq (Z.max _ _) 0)) by lia. cbn [foldl]. rewrite foldl_app. cbn [foldl frame_step ev_kind ev_depth].
  rewrite IHk, IHr by lia. destruct (Z.eqb_spec (forest_frames (contents size m kids)) 0), (Z.eqb_spec (forest_frames (contents size m rest)) 0); lia.
Qed.

Lemma replay_deep size m g : forall depth, 0 <= depth -> depth + forest_frames (contents size m g) <= SIZE_MAX / sizeof_writer_frame ->
  existsb too_deep (replay size depth g) = false.
Proof using.
  induction g as [|a p kids IHk rest IHr]; intros depth Hge Hd; [done|]. cbn [replay contents] in *.
  pose proof (forest_frames_nonneg (contents size m kids)). pose proof (forest_frames_nonneg (contents size m rest)).
  destruct (np_constructed p); cbn [forest_frames] in Hd.
  - cbn [existsb]. rewrite existsb_app. cbn [existsb]. rewrite IHk, IHr by lia.
    unfold too_deep. cbn [ev_kind ev_depth]. rewrite (proj2 (Z.leb_gt _ _)) by lia. now rewrite !andb_false_r.
  - cbn [existsb]. now rewrite IHr.
Qed.
End Producer.

(** ** Blocks that are ours for a while *)

Section Extra.
Context `{Platform} `{DocumentLayout}.

(** The store is [s0] but for memory and the blocks [L], which have been allocated since. *)
Record extra (s0 s : store) (L : list Z) : Prop := {
  xt_nodes : s.(st_nodes) = s0.(st_nodes);
  xt_documents : s.(st_documents) = s0.(st_documents);
  xt_next : s0.(st_next) <= s.(st_next);
  xt_live : s.(st_live) = s0.(st_live) ∪ list_to_set L;
  xt_distinct : NoDup L;
  xt_fresh : forall b, b ∈ L -> s0.(st_next) <= b < s.(st_next) }.

Lemma extra_none s : extra s s [].
Proof using. split; try done; [apply leibniz_equiv; set_solver|constructor|]. intros b Hb. now apply elem_of_nil in Hb. Qed.

Lemma extra_perm s0 s L L' : L ≡ₚ L' -> extra s0 s L -> extra s0 s L'.
Proof using.
  intros HL [H1 H2 H3 H4 H5 H6]. split; try done; [|now rewrite <- HL|].
  - rewrite H4. apply leibniz_equiv. intros x. rewrite !elem_of_union, !elem_of_list_to_set. now rewrite HL.
  - intros b Hb. apply H6. now rewrite HL.
Qed.

Lemma extra_memory s0 s L m : extra s0 s L -> extra s0 (with_memory m s) L.
Proof using. now intros [? ? ? ? ? ?]. Qed.

(** What an allocation leaves. *)
Lemma extra_allocate s0 s L doc d n : store_ok s0 -> extra s0 s L -> s0.(st_documents) !! doc = Some d ->
  exists b s', document_memory_allocate doc n s = Some (b, s') /\ s'.(st_mem) = s.(st_mem) /\
    (match b with Some b => b = s.(st_next) /\ extra s0 s' (b :: L) | None => extra s0 s' L /\ ~ willing d end).
Proof using.
  intros Hs0 [H1 H2 H3 H4 H5 H6] Hd. rewrite <- H2 in Hd. rewrite (allocate_run s doc d n Hd).
  destruct (d_allocator d (st_requests s) n) eqn:E.
  - exists (Some s.(st_next)), (allocated n s). split; [done|]. split; [done|]. split; [done|].
    split; cbn [allocated st_nodes st_documents st_next st_live]; try done.
    + lia.
    + rewrite H4. cbn [list_to_set]. apply leibniz_equiv. set_solver.
    + constructor; [|done]. intros Hb. specialize (H6 _ Hb). lia.
    + intros b Hb. apply elem_of_cons in Hb as [->|Hb]; [lia|]. specialize (H6 _ Hb). lia.
  - exists None, (refused n s). split; [done|]. split; [done|]. split; [now split|]. intros Hw. specialize (Hw (st_requests s) n). congruence.
Qed.

(** Releasing one of the blocks. *)
Lemma extra_release s0 s L doc b : store_ok s0 -> extra s0 s (b :: L) -> is_Some (s0.(st_documents) !! doc) ->
  exists s', document_memory_release doc (Ptr b 0) s = Some (tt, s') /\ s'.(st_mem) = s.(st_mem) /\ s'.(st_next) = s.(st_next) /\ extra s0 s' L.
Proof using.
  intros [N D Lv] [H1 H2 H3 H4 H5 H6] Hd. destruct (H6 b) as [Hb1 Hb2]; [apply elem_of_cons; now left|].
  rewrite release_run; [|now rewrite H2|rewrite H4; set_solver|rewrite H2; apply D; lia].
  eexists. split; [reflexivity|]. split; [done|]. split; [done|]. apply NoDup_cons in H5 as [Hn H5]. split; cbn [st_nodes st_documents st_next st_live]; try done.
  - rewrite H1. apply delete_id, N. lia.
  - rewrite H4. apply leibniz_equiv. intros x. rewrite elem_of_difference, !elem_of_union, elem_of_singleton. cbn [list_to_set].
    rewrite elem_of_union, elem_of_singleton, !elem_of_list_to_set. pose proof (Lv b ltac:(lia)) as Hl.
    split; [tauto|]. intros [Hx|Hx]; (split; [auto|]); intros ->; done.
  - intros c Hc. apply H6, elem_of_cons. now right.
Qed.

(** A buffer: nothing, or a block of ours from its start. *)
Definition buffer_blocks (p : ptr) : list Z := match p with NULL => [] | Ptr b _ => [b] end.
Definition buffer_ok (p : ptr) (capacity : Z) : Prop :=
  0 <= capacity <= SIZE_MAX /\ match p with NULL => capacity = 0 | Ptr _ o => o = 0 end.

Lemma buffer_release s0 s L doc p capacity : store_ok s0 -> extra s0 s (buffer_blocks p ++ L) -> buffer_ok p capacity ->
  is_Some (s0.(st_documents) !! doc) ->
  exists s', document_memory_release doc p s = Some (tt, s') /\ s'.(st_mem) = s.(st_mem) /\ s'.(st_next) = s.(st_next) /\ extra s0 s' L.
Proof using.
  intros Hs0 Hx [_ Hp] Hd. destruct p as [|b o]; [|subst o; now apply (extra_release s0 s L doc b)].
  exists s. split; [done|]. split; [done|]. split; [done|exact Hx].
Qed.

(** The new capacity. *)
Lemma grow_run s0 s L doc d p capacity required : store_ok s0 -> s0.(st_documents) !! doc = Some d ->
  extra s0 s (buffer_blocks p ++ L) -> buffer_ok p capacity -> required <= SIZE_MAX ->
  exists rc p' capacity' s', grow_workspace doc p capacity required s = Some ((rc, p', capacity'), s') /\
    extra s0 s' (buffer_blocks p' ++ L) /\ buffer_ok p' capacity' /\ s'.(st_mem) = s.(st_mem) /\ capacity <= capacity' /\
    ((rc = TLV_OK /\ required <= capacity') \/ (rc = TLV_ERR_OUT_OF_MEMORY /\ ~ willing d)).
Proof using.
  intros Hs0 Hd Hx Hb Hr. pose proof SIZE_MAX_bounds. pose proof (proj1 Hb) as Hb0. unfold grow_workspace. destruct (Z.leb_spec required capacity) as [Hle|Hgt].
  { exists TLV_OK, p, capacity, s. split; [done|]. split; [done|]. split; [done|]. split; [done|]. split; [lia|]. now left. }
  set (g1 := if capacity <=? SIZE_MAX / 2 then capacity * 2 else required). set (g2 := if g1 <? 256 then 256 else g1).
  set (grown := if g2 <? required then required else g2).
  assert (capacity <= grown <= SIZE_MAX /\ required <= grown) as [Hg Hg'].
  { destruct Hb as [Hb _]. assert (g1 <= SIZE_MAX /\ capacity <= g1) as [Hg1 Hg1'].
    { unfold g1. destruct (Z.leb_spec capacity (SIZE_MAX / 2)) as [Hc|Hc]; [|lia].
      pose proof (Z.mul_div_le SIZE_MAX 2 ltac:(lia)). lia. }
    unfold grown, g2. destruct (Z.ltb_spec g1 256); repeat (match goal with |- context [?a <? ?b] => destruct (Z.ltb_spec a b) end); lia. }
  destruct (extra_allocate s0 s _ doc d grown Hs0 Hx Hd) as (b & s1 & E & Em & Hcase). run E.
  destruct b as [b|]; destruct Hcase as [Hb1 Hx1].
  - destruct (buffer_release s0 s1 (b :: L) doc p capacity Hs0) as (s2 & E2 & Em2 & _ & Hx2); [|done|eauto|].
    { eapply extra_perm; [|exact Hx1]. now rewrite Permutation_middle. }
    unfold mbind, M_bind. rewrite E2. exists TLV_OK, (Ptr b 0), grown, s2. split; [done|]. split; [exact Hx2|].
    split; [split; [lia|done]|]. split; [congruence|]. split; [lia|]. left. split; [done|lia].
  - exists TLV_ERR_OUT_OF_MEMORY, p, capacity, s1. split; [done|]. split; [done|]. split; [done|]. split; [done|]. split; [lia|]. now right.
Qed.

Definition workspace_blocks (w : workspace) : list Z :=
  (match fst w with Some b => [b] | None => [] end) ++ buffer_blocks (snd w).(ws_data) ++ buffer_blocks (snd w).(ws_scratch).

Definition workspace_buffers (w : workspace) : Prop :=
  buffer_ok (snd w).(ws_data) (snd w).(ws_data_capacity) /\ buffer_ok (snd w).(ws_scratch) (snd w).(ws_scratch_capacity).

Lemma release_workspace_run s0 s doc w : store_ok s0 -> extra s0 s (workspace_blocks w) -> workspace_buffers w ->
  is_Some (s0.(st_documents) !! doc) ->
  exists s', release_workspace doc w s = Some (tt, s') /\ s'.(st_mem) = s.(st_mem) /\ extra s0 s' [].
Proof using.
  intros Hs0 Hx [Hb1 Hb2] Hd. destruct w as [fr ws]. unfold workspace_blocks, release_workspace in *. cbn [fst snd] in *.
  destruct (buffer_release s0 s (buffer_blocks ws.(ws_data) ++ buffer_blocks ws.(ws_scratch)) doc
    (match fr with Some b => Ptr b 0 | None => NULL end) 0 Hs0) as (s1 & E1 & Em1 & _ & Hx1); [now destruct fr|pose proof SIZE_MAX_bounds; split; [lia|now destruct fr]|done|].
  destruct (buffer_release s0 s1 _ doc _ _ Hs0 Hx1 Hb1 Hd) as (s2 & E2 & Em2 & _ & Hx2).
  rewrite <- (app_nil_r (buffer_blocks ws.(ws_scratch))) in Hx2.
  destruct (buffer_release s0 s2 _ doc _ _ Hs0 Hx2 Hb2 Hd) as (s3 & E3 & Em3 & _ & Hx3).
  unfold mbind, M_bind. rewrite E1, E2, E3. exists s3. split; [done|]. split; [congruence|done].
Qed.
End Extra.

(** ** Bounded loops *)

(** A loop whose measure grows by one a round and stays below [2 ^ k] more ends. *)
Lemma rounds_end {A R : Type} (I : A -> store -> Prop) (mu : A -> Z) (Q : R -> store -> Prop) (step : A -> M (A + R)) :
  (forall a s, I a s -> exists r s', step a s = Some (r, s') /\ match r with inl a' => I a' s' /\ mu a + 1 <= mu a' | inr x => Q x s' end) ->
  forall k a s, I a s -> exists r s', rounds k step a s = Some (r, s') /\
    match r with inl a' => I a' s' /\ mu a + 2 ^ Z.of_nat k <= mu a' | inr x => Q x s' end.
Proof.
  intros Hstep. induction k as [|k IH]; intros a s Ha; [exact (Hstep a s Ha)|]. cbn [rounds].
  destruct (IH a s Ha) as ([a1|x] & s1 & E1 & H1).
  - destruct H1 as [H1 Hm1]. destruct (IH a1 s1 H1) as (r & s2 & E2 & H2). unfold mbind, M_bind. rewrite E1, E2.
    exists r, s2. split; [done|]. destruct r as [a2|x]; [|done]. destruct H2 as [H2 Hm2]. split; [done|].
    rewrite Nat2Z.inj_succ, Z.pow_succ_r by lia. lia.
  - unfold mbind, M_bind. rewrite E1. exists (inr x), s1. done.
Qed.

(** The same blocks in another order. *)
Ltac reorder H := eapply extra_perm; [|exact H]; unfold workspace_blocks; cbn [fst snd with_data with_scratch with_required ws_data ws_scratch]; solve_Permutation.

(** ** Preparing an encoding *)

Section Prepare.
Context `{Platform} `{DocumentLayout} `{WriterLayout} (s0 : store) (doc : Z) (d : tlv_document_t) (g : dforest) (single : bool)
  (format : option tlv_format_t) (Hs0 : store_ok s0) (Hsec : section s0 doc d g single).

Definition frames_needed : Z := foldl frame_step 0 (replay (node_size d) 0 g).

(** A workspace in a store, and what the memory is known to be. *)
Record working (Keep : mem -> Prop) (fr : option Z) (ws : tlv_tree_writer_workspace_t) (s : store) : Prop := {
  wk_extra : extra s0 s (workspace_blocks (fr, ws));
  wk_buffers : workspace_buffers (fr, ws);
  wk_frames : ws.(ws_frames) = match fr with Some _ => Some (replicate (Z.to_nat frames_needed) no_wframe) | None => None end;
  wk_frame_capacity : ws.(ws_frame_capacity) = frames_needed /\ (fr = None -> frames_needed = 0) /\ 0 <= frames_needed;
  wk_keep : Keep s.(st_mem) }.

(** The measurement of a round. *)
Definition measurement (s : store) (ws : tlv_tree_writer_workspace_t) :=
  tlv_tree_writer_measure_events (S (S (2 * size s.(st_nodes)))) s.(st_mem) format (Some (document_producer s))
    (Some (section_start g single)) (Some ws) SIZE_MAX SIZE_MAX (Some 0) None.

Context (Keep : mem -> Prop) (Final : tlv_result_t -> mem -> tlv_tree_writer_workspace_t -> Z -> Prop)
  (Hmeasure : forall fr ws s, working Keep fr ws s -> exists rc m' c rd rs size dg,
     measurement s ws = Some (rc, m', Some c, tt, Some (with_required rd rs ws), Some size, dg) /\ Keep m' /\
     asks ws (with_required rd rs ws) rd rs /\
     ((rc = TLV_ERR_BUFFER_TOO_SHORT /\ (rd <> 0 \/ rs <> 0)) \/
      ((rd = 0 /\ rs = 0 \/ rc <> TLV_ERR_BUFFER_TOO_SHORT) /\ Final rc m' (with_required rd rs ws) size))).

Definition total_capacity (ws : tlv_tree_writer_workspace_t) : Z := ws.(ws_data_capacity) + ws.(ws_scratch_capacity).

(** How a preparation ends. *)
Definition ended (fr : option Z) (r : tlv_result_t * tlv_tree_writer_workspace_t * Z) (s : store) : Prop :=
  let '(rc, ws, n) := r in
  extra s0 s (workspace_blocks (fr, ws)) /\ workspace_buffers (fr, ws) /\ Keep s.(st_mem) /\
  (Final rc s.(st_mem) ws n \/ (rc = TLV_ERR_OUT_OF_MEMORY /\ ~ willing d)).

Lemma round_run fr ws s : working Keep fr ws s ->
  exists r s', prepare_round doc (head_or None g) single format ws s = Some (r, s') /\
    match r with
    | inl ws' => working Keep fr ws' s' /\ total_capacity ws + 1 <= total_capacity ws'
    | inr x => ended fr x s'
    end.
Proof using Hmeasure Hs0 Hsec.
  intros Hw. destruct (Hmeasure fr ws s Hw) as (rc & m' & c & rd & rs & n & dg & E & Hk & (_ & Hrd & Hrs) & Hout).
  pose proof Hw as [Hx [Hb1 Hb2] Hf Hfc _]. cbn [snd] in Hb1, Hb2. pose proof (sn_document _ _ _ _ _ Hsec) as Hd.
  unfold prepare_round. erewrite bind_run by reflexivity. erewrite bind_run by reflexivity.
  change (mk_document_source (head_or None g) 0 single false) with (section_start g single). unfold measurement in E. rewrite E.
  erewrite bind_run by reflexivity. cbn [with_required ws_required_data ws_required_scratch ws_data ws_data_capacity ws_scratch ws_scratch_capacity cell].
  destruct Hout as [(-> & Hr)|[Hr Hfin]].
  - rewrite (proj2 (andb_false_iff (rd =? 0) (rs =? 0))) by (rewrite !Z.eqb_neq; lia).
    change (rc_eqb TLV_ERR_BUFFER_TOO_SHORT TLV_ERR_BUFFER_TOO_SHORT) with true. cbn [negb orb].
    assert (rd <= SIZE_MAX /\ rs <= SIZE_MAX) as [Hrd' Hrs'] by (pose proof SIZE_MAX_bounds; lia).
    set (F := match fr with Some b => [b] | None => [] end).
    destruct (grow_run s0 (with_memory m' s) (F ++ buffer_blocks ws.(ws_scratch)) doc d ws.(ws_data) ws.(ws_data_capacity) rd Hs0 Hd)
      as (rc1 & p1 & c1 & s1 & E1 & Hx1 & Hbk1 & Em1 & Hc1 & Hout1); [|done|done|].
    { reorder (extra_memory s0 s _ m' Hx). }
    run E1. destruct Hout1 as [(-> & Hge1)|(-> & Hnw)].
    2: { change (is_ok TLV_ERR_OUT_OF_MEMORY) with false. cbn [negb]. eexists _, s1. split; [reflexivity|]. cbn [ended]. unfold workspace_blocks. cbn [fst snd with_data ws_data ws_scratch].
         split; [reorder Hx1|]. split; [split; done|].
         split; [now rewrite Em1|]. now right. }
    rewrite is_ok_OK. cbn [negb with_data with_required ws_scratch ws_scratch_capacity ws_required_scratch].
    destruct (grow_run s0 s1 (F ++ buffer_blocks p1) doc d ws.(ws_scratch) ws.(ws_scratch_capacity) rs Hs0 Hd)
      as (rc2 & p2 & c2 & s2 & E2 & Hx2 & Hbk2 & Em2 & Hc2 & Hout2); [|done|done|].
    { reorder Hx1. }
    run E2. assert (Keep s2.(st_mem)) as Hk2 by (rewrite Em2, Em1; exact Hk).
    assert (extra s0 s2 (F ++ buffer_blocks p1 ++ buffer_blocks p2)) as Hx2' by reorder Hx2.
    destruct Hout2 as [(-> & Hge2)|(-> & Hnw)].
    + rewrite is_ok_OK. cbn [negb]. eexists _, s2. split; [reflexivity|]. cbv beta iota. split.
      * split; [exact Hx2'|split; done|exact Hf|exact Hfc|exact Hk2].
      * unfold total_capacity. cbn [with_scratch with_data with_required ws_data_capacity ws_scratch_capacity].
        destruct Hb1 as [Hb1 _], Hb2 as [Hb2 _]. lia.
    + change (is_ok TLV_ERR_OUT_OF_MEMORY) with false. cbn [negb]. eexists _, s2. split; [reflexivity|]. cbn [ended].
      split; [exact Hx2'|]. split; [split; done|]. split; [done|]. now right.
  - replace (negb (rc_eqb rc TLV_ERR_BUFFER_TOO_SHORT) || ((rd =? 0) && (rs =? 0))) with true.
    2: { destruct Hr as [[-> ->]|Hr]; [now rewrite orb_true_r|]. destruct rc; done || (destruct (Hr eq_refl)). }
    eexists _, _. split; [reflexivity|]. cbn [ended]. split; [now apply extra_memory|]. split; [split; done|]. split; [done|]. now left.
Qed.

Lemma frames_needed_nonneg : 0 <= frames_needed.
Proof using.
  unfold frames_needed. rewrite (replay_frames (node_size d) (mem_of 0 []) g 0 0) by lia.
  pose proof (forest_frames_nonneg (contents (node_size d) (mem_of 0 []) g)). destruct (Z.eqb_spec (forest_frames (contents (node_size d) (mem_of 0 []) g)) 0); lia.
Qed.

Lemma prepare_run : tlv_format_can_write format = true -> Keep s0.(st_mem) ->
  exists rc w n s', prepare_encoding doc (head_or None g) single format s0 = Some ((rc, w, n), s') /\
    extra s0 s' (workspace_blocks w) /\ workspace_buffers w /\ Keep s'.(st_mem) /\
    (Final rc s'.(st_mem) (snd w) n \/
     (rc = TLV_ERR_OUT_OF_MEMORY /\ ~ (willing d /\ existsb too_deep (replay (node_size d) 0 g) = false))).
Proof using Hmeasure Hs0 Hsec.
  intros Hcan Hkeep. pose proof (sn_document _ _ _ _ _ Hsec) as Hd. pose proof SIZE_MAX_bounds. unfold prepare_encoding. rewrite Hcan. cbn [negb].
  assert (workspace_buffers no_workspace) as Hnb by (split; split; cbn; done || lia).
  erewrite bind_run by reflexivity. change (mk_document_source (head_or None g) 0 single false) with (section_start g single).
  erewrite bind_run by (apply (frame_loop_run s0 (section_end single) (replay (node_size d) 0 g)); [exact (section_yields _ _ _ _ _ Hsec)|apply section_ends|exact (section_fuel _ _ _ _ _ Hsec)]).
  destruct (existsb too_deep (replay (node_size d) 0 g)) eqn:Edeep.
  { eexists _, no_workspace, _, s0. split; [reflexivity|]. split; [apply extra_none|]. split; [done|]. split; [done|]. right. split; [done|]. now intros [_ ?]. }
  fold frames_needed. pose proof frames_needed_nonneg as Hfn.
  assert (exists fr s1, (if negb (frames_needed =? 0) then document_memory_allocate doc (frames_needed * sizeof_writer_frame) else mret None) s0 = Some (fr, s1) /\
    s1.(st_mem) = s0.(st_mem) /\ extra s0 s1 (match fr with Some b => [b] | None => [] end) /\ (fr = None -> frames_needed = 0 \/ ~ willing d))
    as (fr & s1 & E1 & Em1 & Hx1 & Hfr).
  { destruct (Z.eqb_spec frames_needed 0) as [Hz|Hz]; cbn [negb].
    - exists None, s0. split; [done|]. split; [done|]. split; [apply extra_none|auto].
    - destruct (extra_allocate s0 s0 [] doc d (frames_needed * sizeof_writer_frame) Hs0 (extra_none s0) Hd) as (b & s1 & E & Em & Hc).
      exists b, s1. split; [exact E|]. split; [done|]. destruct b as [b|]; destruct Hc as [Hc1 Hc2]; auto. split; [done|]. discriminate. }
  run E1. destruct (negb (frames_needed =? 0) && bool_decide (fr = None)) eqn:Eno.
  { apply andb_true_iff in Eno as [En Ef]. apply bool_decide_eq_true in Ef. subst fr. apply negb_true_iff, Z.eqb_neq in En.
    eexists _, no_workspace, _, s1. split; [reflexivity|]. split; [exact Hx1|]. split; [done|]. split; [now rewrite Em1|].
    right. split; [done|]. intros [Hw _]. destruct (Hfr eq_refl); done. }
  assert (fr = None -> frames_needed = 0) as Hz.
  { intros ->. cbn in Eno. destruct (Z.eqb_spec frames_needed 0); [done|]. discriminate. }
  set (ws := mk_workspace _ frames_needed NULL 0 NULL 0 0 0).
  assert (working Keep fr ws s1) as Hw.
  { split; [|split; split; cbn; done || lia|done|cbn; auto|now rewrite Em1]. unfold workspace_blocks. cbn. now rewrite app_nil_r. }
  destruct (rounds_end (working Keep fr) total_capacity (ended fr) (prepare_round doc (head_or None g) single format) (round_run fr)
    (Z.to_nat size_bits + 1) ws s1 Hw) as (r & s2 & E2 & Hr).
  run E2. destruct r as [ws'|[[rc ws'] n]].
  - exfalso. destruct Hr as [[_ [[Hc1 _] [Hc2 _]] _ _ _] Hm]. cbn [snd] in Hc1, Hc2. unfold total_capacity in Hm. cbn [ws ws_data_capacity ws_scratch_capacity] in Hm.
    pose proof size_bits_range. rewrite Nat2Z.inj_add, Z2Nat.id, Z.pow_add_r in Hm by lia. unfold SIZE_MAX in *. lia.
  - cbn [ended] in Hr. destruct Hr as (Hx2 & Hb2 & Hk2 & Hf). eexists rc, (fr, ws'), n, s2. split; [reflexivity|]. split; [done|]. split; [done|].
    split; [done|]. destruct Hf as [Hf|[Hrc Hf]]; [now left|]. right. split; [done|]. intros [? _]. done.
Qed.
End Prepare.

(** ** Encoding *)

Section Encode.
Context `{Platform} `{DocumentLayout} `{WriterLayout}.

(** After the preparation: the copy to the caller and the release, whatever the format wrote. *)
Lemma encode_finish s0 doc d w rc total s format data capacity written :
  store_ok s0 -> s0.(st_documents) !! doc = Some d -> extra s0 s (workspace_blocks w) -> workspace_buffers w ->
  exists rc' n s', (
    '(rc, written) ←
      (if negb (is_ok rc) then mret (rc, written)
       else if capacity <? total then mret (TLV_ERR_BUFFER_TOO_SHORT, total)
       else
         m ← memory;
         let '(rc, writer) := tlv_writer_init (Some (mk_writer None NULL 0 0)) data capacity format in
         let '(rc, m, writer) :=
           if is_ok rc then tlv_writer_copy_encoded m writer (snd w).(ws_data) total else (rc, m, writer) in
         _ ← put_memory m;
         mret (rc, if is_ok rc then tlv_writer_size writer else written));
    _ ← release_workspace doc w;
    mret (rc, written)) s = Some ((rc', n), s') /\ extra s0 s' [] /\
    (if negb (is_ok rc) then rc' = rc /\ n = written /\ s'.(st_mem) = s.(st_mem)
     else if capacity <? total then rc' = TLV_ERR_BUFFER_TOO_SHORT /\ n = total /\ s'.(st_mem) = s.(st_mem)
     else let '(rc1, writer) := tlv_writer_init (Some (mk_writer None NULL 0 0)) data capacity format in
          let '(rc1, m, writer) :=
            if is_ok rc1 then tlv_writer_copy_encoded s.(st_mem) writer (snd w).(ws_data) total else (rc1, s.(st_mem), writer) in
          rc' = rc1 /\ n = (if is_ok rc1 then tlv_writer_size writer else written) /\ s'.(st_mem) = m).
Proof using.
  intros Hs0 Hd Hx Hb. destruct (negb (is_ok rc)); [|destruct (capacity <? total)].
  1, 2: destruct (release_workspace_run s0 s doc w Hs0 Hx Hb ltac:(eauto)) as (s' & E & Em & Hx');
    erewrite bind_run by reflexivity; cbv beta iota; run E; eexists _, _, s'; split; [reflexivity|]; done.
  destruct (tlv_writer_init _ _ _ _) as [rc1 writer].
  destruct (if is_ok rc1 then tlv_writer_copy_encoded s.(st_mem) writer (snd w).(ws_data) total else (rc1, s.(st_mem), writer)) as [[rc2 m] writer'] eqn:Ec.
  destruct (release_workspace_run s0 (with_memory m s) doc w Hs0 (extra_memory s0 s _ m Hx) Hb ltac:(eauto)) as (s' & E & Em & Hx').
  erewrite bind_run.
  2: { erewrite bind_run by reflexivity. rewrite Ec. erewrite bind_run by reflexivity. reflexivity. }
  cbv beta iota. run E. eexists _, _, s'. split; [reflexivity|]. split; [done|]. done.
Qed.

Lemma section_keeps s0 s doc d g single L : section s0 doc d g single -> extra s0 s L -> section s doc d g single.
Proof using. intros Hs [? ? _ _ _ _]. now apply (section_frame s0). Qed.

(** With any format, the operation returns and leaves nodes, documents and the allocator's blocks as they were. *)
Lemma encode_any_run s doc d g single format data capacity written : store_ok s -> section s doc d g single ->
  exists rc n s', encode_as doc (head_or None g) single format data capacity written s = Some ((rc, n), s') /\ extra s s' [].
Proof using.
  intros Hs Hsec. pose proof (sn_document _ _ _ _ _ Hsec) as Hd. unfold encode_as.
  destruct (tlv_format_can_write format) eqn:Ecan.
  - destruct (prepare_run s doc d g single format Hs Hsec (fun _ => True) (fun _ _ _ _ => True)) as (rc & w & n & s1 & E & Hx & Hb & _ & _); try done.
    + intros fr ws s1 [Hx _ _ _ _]. pose proof (section_keeps _ _ _ _ _ _ _ Hsec Hx) as Hsec1.
      destruct (measured_any format (document_producer s1) SIZE_MAX SIZE_MAX _ _ _ ws s1.(st_mem) _ 0 (section_ends s1 single)
        (section_yields _ _ _ _ _ Hsec1) (section_fuel _ _ _ _ _ Hsec1) Ecan) as (rc & m' & c & ws' & n & dg & rd & rs & E & Hr & Ha & Hrc).
      apply reached_some in Hr as [x ->]. pose proof Ha as (-> & _ & _). exists rc, m', x, rd, rs, n, dg. split; [exact E|]. split; [done|]. split; [exact Ha|].
      destruct (Z.eq_dec rd 0) as [->|]; [destruct (Z.eq_dec rs 0) as [->|]|]; auto.
    + run E. destruct (encode_finish s doc d w rc n s1 format data capacity written Hs Hd Hx Hb) as (rc' & n' & s' & E' & Hx' & _).
      exists rc', n', s'. split; [exact E'|done].
  - unfold prepare_encoding. rewrite Ecan. cbn [negb]. erewrite bind_run by reflexivity. cbv beta iota.
    destruct (encode_finish s doc d no_workspace TLV_ERR_NULL_ARG 0 s format data capacity written Hs Hd (extra_none s)) as (rc' & n' & s' & E' & Hx' & _).
    { pose proof SIZE_MAX_bounds. split; split; cbn; done || lia. }
    exists rc', n', s'. split; [exact E'|done].
Qed.

(** A lawful format, and nodes that are marked as it classifies their tags. *)
Context (f : tlv_format_t) `{!CodecLaws f} (p : list Z -> bool)
  (Hclass : forall m tag, tag_ok tag -> is_constructed (Some f) m tag = p (tag_bytes m tag))
  (Hwrite : tlv_format_can_write (Some f) = true).

Record encodable (s : store) (d : tlv_document_t) (g : dforest) (w : list Z) : Prop := {
  en_wire : forest_wire f (contents (node_size d) s.(st_mem) g) = Some w;
  en_class : classified p (contents (node_size d) s.(st_mem) g) = true;
  en_room : forest_room f (contents (node_size d) s.(st_mem) g) <= SIZE_MAX;
  en_old : forall b, b ∈ blocks g -> b < s.(st_next);
  en_count : zlen (addrs g) <= SIZE_MAX }.

Lemma contents_levels size m g : shape g -> forest_size (contents size m g) = zlen (addrs g) /\ forest_levels (contents size m g) = dheight g.
Proof using.
  induction g as [|a q kids IHk rest IHr]; intros Hs; [done|]. cbn [shape contents addrs dheight] in *. destruct Hs as (Hc & _ & Hk & Hr).
  destruct (IHr Hr) as [R1 R2]. destruct (IHk Hk) as [R3 R4]. pose proof (dheight_nonneg rest). destruct (np_constructed q).
  - cbn [forest_size forest_levels length]. rewrite R1, R2, R3, R4, length_app. split; [lia|done].
  - destruct Hc as [->|]; [|done]. cbn [forest_size forest_levels length dheight addrs app]. rewrite R1, R2. split; lia.
Qed.

(** The copy to the caller. *)
Lemma copy_out m data capacity src n : 0 <= n <= capacity -> capacity <= SIZE_MAX -> (data = NULL -> capacity = 0) -> (src = NULL -> n = 0) ->
  exists m', tlv_writer_copy_encoded m (Some (mk_writer (Some f) data capacity 0)) src n = (TLV_OK, m', Some (mk_writer (Some f) data capacity n)) /\
    only_changes m m' data n /\ bytes_of m' data n = bytes_of m src n.
Proof using Hwrite.
  intros Hn Hc Hd Hs. unfold tlv_writer_copy_encoded, tlv_writer_copy_encoded_diag.
  rewrite writer_destination_ok by (split; cbn; done || lia). rewrite is_ok_OK. cbn [negb w_capacity w_pos]. unfold writer_at. cbn [w_buf w_pos]. rewrite padd_0, Z.sub_0_r.
  replace (is_null src && negb (n =? 0)) with false by (destruct src; [rewrite Hs by done|]; done).
  rewrite (proj2 (Z.ltb_ge _ _)) by lia. unfold tlv_copy_encoded.
  replace (is_null data && negb (capacity =? 0)) with false by (destruct data; [rewrite Hd by done|]; done).
  replace (is_null src && negb (n =? 0)) with false by (destruct src; [rewrite Hs by done|]; done). cbn [orb].
  rewrite (proj2 (Z.ltb_ge _ _)) by lia.
  assert (exists m', (if is_null data then (TLV_OK, m, Some n) else (TLV_OK, if negb (n =? 0) then memmove m data src n else m, Some n)) = (TLV_OK, m', Some n) /\
    only_changes m m' data n /\ bytes_of m' data n = bytes_of m src n) as (m' & -> & Ho & Hb).
  { destruct data as [|b o]; cbn [is_null].
    - specialize (Hd eq_refl). assert (n = 0) as -> by lia. exists m. split; [done|]. split; [apply only_refl|done].
    - destruct (Z.eqb_spec n 0) as [->|Hz]; cbn [negb]; [exists m; split; [done|]; split; [apply only_refl|done]|].
      eexists. split; [reflexivity|]. split; [apply memmove_only|]. now rewrite bytes_of_memmove. }
  exists m'. rewrite is_ok_OK. cbn [negb cell]. unfold writer_finish. rewrite is_ok_OK. cbn [w_format w_buf w_capacity w_pos].
  rewrite Z.add_0_l, usize_small by lia. done.
Qed.

Lemma foreign_buffer s0 s L g q : extra s0 s L -> (forall b, b ∈ blocks g -> b < s0.(st_next)) ->
  (forall b, b ∈ buffer_blocks q -> b ∈ L) -> foreign g q.
Proof using.
  intros Hx Hold Hq. destruct q as [|b o]; [done|]. intros Hbg. specialize (Hold b Hbg).
  assert (b ∈ L) as Hb by (apply Hq; cbn; now apply list_elem_of_singleton). pose proof (xt_fresh _ _ _ Hx b Hb). lia.
Qed.

Lemma working_ok s0 d g Keep fr ws s : working s0 d g Keep fr ws s -> workspace_ok ws.
Proof using.
  intros [Hx [[Hb1 Hb1'] [Hb2 Hb2']] Hf [Hfc1 [Hfc2 Hfc3]] _]. cbn [snd] in *. split.
  - rewrite Hf, Hfc1. destruct fr; cbn; [rewrite length_replicate; lia|symmetry; auto].
  - split; [done|]. intros E. now rewrite E in Hb1'.
  - split; [done|]. intros E. now rewrite E in Hb2'.
  - destruct (ws_data ws) as [|b o] eqn:E1, (ws_scratch ws) as [|c o'] eqn:E2; cbn; try done. left. intros ->.
    pose proof (xt_distinct _ _ _ Hx) as Hn. unfold workspace_blocks in Hn. cbn [fst snd] in Hn. rewrite E1, E2 in Hn. cbn in Hn.
    apply NoDup_app in Hn as (_ & _ & Hn). apply NoDup_cons in Hn as [Hn _]. apply Hn. now apply list_elem_of_singleton.
Qed.

(** Memory of before is not in our buffers. *)
Lemma buffer_outside s0 s L q n b o : extra s0 s L -> (forall c, c ∈ buffer_blocks q -> c ∈ L) -> b < s0.(st_next) -> inside q n b o = false.
Proof using.
  intros Hx Hq Hb. destruct q as [|c o']; [done|]. assert (c ∈ L) as Hc by (apply Hq; cbn; now apply list_elem_of_singleton).
  pose proof (xt_fresh _ _ _ Hx c Hc). cbn. rewrite (proj2 (Z.eqb_neq c b)) by lia. done.
Qed.

(** The memory that was there before is what it was. *)
Definition same_below (s : store) (m : mem) : Prop := forall b o, b < s.(st_next) -> m b o = s.(st_mem) b o.

(** The workspace holds the encoding. *)
Definition holds_encoding (w : list Z) (rc : tlv_result_t) (m : mem) (ws : tlv_tree_writer_workspace_t) (n : Z) : Prop :=
  rc = TLV_OK /\ n = zlen w /\ bytes_of m ws.(ws_data) (zlen w) = w /\ zlen w <= ws.(ws_data_capacity).

Lemma measure_round_forest s doc d g single w fr ws s1 : section s doc d g single -> encodable s d g w ->
  working s d g (same_below s) fr ws s1 -> exists rc m' c rd rs n dg,
     measurement g single (Some f) s1 ws = Some (rc, m', Some c, tt, Some (with_required rd rs ws), Some n, dg) /\ same_below s m' /\
     asks ws (with_required rd rs ws) rd rs /\
     ((rc = TLV_ERR_BUFFER_TOO_SHORT /\ (rd <> 0 \/ rs <> 0)) \/
      ((rd = 0 /\ rs = 0 \/ rc <> TLV_ERR_BUFFER_TOO_SHORT) /\ holds_encoding w rc m' (with_required rd rs ws) n)).
Proof using Hclass Hwrite.
  intros Hsec [Hw Hcl Hroom Hold Hcnt] Hwk. pose proof Hwk as [Hx _ _ [Hfc _] Hk]. pose proof SIZE_MAX_bounds.
  set (fo := contents (node_size d) s.(st_mem) g) in *.
  destruct (contents_levels (node_size d) s.(st_mem) g (sn_shape _ _ _ _ _ Hsec)) as [Hsz Hlv]. fold fo in Hsz, Hlv.
  pose proof (sn_height _ _ _ _ _ Hsec) as Hht. pose proof (section_keeps _ _ _ _ _ _ _ Hsec Hx) as Hsec1.
  assert (contents (node_size d) s1.(st_mem) g = fo) as Efo by (apply contents_frame; intros b o Hbg; apply Hk, Hold, Hbg).
  assert (forall q, q = ws.(ws_data) \/ q = ws.(ws_scratch) -> forall b, b ∈ buffer_blocks q -> b ∈ workspace_blocks (fr, ws)) as Hq
    by (intros q [-> | ->] b Hb; unfold workspace_blocks; cbn [fst snd]; rewrite !elem_of_app; auto).
  pose proof (forest_frames_nonneg fo) as Hffn.
  assert (produces f p s1.(st_mem) ws (document_producer s1) (Some (section_start g single)) (replay (node_size d) 0 g) (Some (section_end single)) fo SIZE_MAX SIZE_MAX) as Hpr.
  { split; [exact (section_yields _ _ _ _ _ Hsec1)|apply section_ends| | |exact Hcl|exact Hroom| |lia].
    - apply (replay_ok doc); [apply Hsec1|eapply foreign_buffer; eauto..].
    - rewrite <- Efo. apply replay_view, Hsec.
    - split; [lia|]. rewrite Hfc. unfold frames_needed. rewrite (replay_frames (node_size d) s.(st_mem) g 0 0) by lia. fold fo.
      destruct (Z.eqb_spec (forest_frames fo) 0); lia. }
  destruct (measured_forest f p Hclass Hwrite _ ws _ _ _ _ fo w SIZE_MAX SIZE_MAX _ 0 (working_ok _ _ _ _ _ _ _ Hwk) Hw Hpr (section_fuel _ _ _ _ _ Hsec1))
    as (m' & Ho & Hout).
  assert (same_below s m') as Hk'.
  { intros b o Hb. rewrite <- (Hk b o Hb). apply Ho; eapply buffer_outside; eauto. }
  destruct Hout as [(E & Hbytes & Hcap)|(c & ws' & E & Hsh & Hr)].
  - exists TLV_OK, m', (section_end single), 0, 0, (zlen w), None. split; [exact E|]. split; [done|]. split; [split; auto|]. right. split; [auto|]. done.
  - apply reached_some in Hr as [x ->]. pose proof (forest_scratch_room f fo) as Hscr0.
    assert (forest_scratch f fo <= SIZE_MAX) as Hscr by lia.
    destruct (short_asks _ _ _ _ Hroom Hscr Hsh) as (rd & rs & Ha & Hne). pose proof Ha as (-> & _ & _).
    exists TLV_ERR_BUFFER_TOO_SHORT, m', x, rd, rs, 0, None. split; [exact E|]. split; [done|]. split; [done|]. left. done.
Qed.

Lemma encode_forest_run s doc d g single w data capacity written : store_ok s -> section s doc d g single -> encodable s d g w ->
  (data = NULL -> capacity = 0) -> capacity <= SIZE_MAX -> below s data ->
  exists rc n s', encode_as doc (head_or None g) single (Some f) data capacity written s = Some ((rc, n), s') /\ extra s s' [] /\
    (forall b o, b < s.(st_next) -> inside data (zlen w) b o = false -> s'.(st_mem) b o = s.(st_mem) b o) /\
    ((rc = TLV_OK /\ n = zlen w /\ zlen w <= capacity /\ bytes_of s'.(st_mem) data (zlen w) = w) \/
     (rc = TLV_ERR_BUFFER_TOO_SHORT /\ n = zlen w /\ capacity < zlen w /\ forall b o, b < s.(st_next) -> s'.(st_mem) b o = s.(st_mem) b o) \/
     (rc = TLV_ERR_OUT_OF_MEMORY /\ n = written /\ (forall b o, b < s.(st_next) -> s'.(st_mem) b o = s.(st_mem) b o) /\
      ~ (willing d /\ forest_frames (contents (node_size d) s.(st_mem) g) <= SIZE_MAX / sizeof_writer_frame))).
Proof using Hclass Hwrite.
  intros Hs Hsec He Hdn Hcap Hbelow. pose proof He as [Hw _ _ _ _]. pose proof (sn_document _ _ _ _ _ Hsec) as Hd.
  set (fo := contents (node_size d) s.(st_mem) g) in *.
  destruct (prepare_run s doc d g single (Some f) Hs Hsec (same_below s) (holds_encoding w)
    (fun fr ws s1 => measure_round_forest s doc d g single w fr ws s1 Hsec He) Hwrite ltac:(done)) as (rc & ww & n & s1 & E & Hx & Hb & Hk & Hout).
  unfold encode_as. run E.
  destruct (encode_finish s doc d ww rc n s1 (Some f) data capacity written Hs Hd Hx Hb) as (rc' & n' & s' & E' & Hx' & Hres).
  exists rc', n', s'. split; [exact E'|]. split; [done|]. destruct Hout as [(-> & -> & Hbytes & Hfit)|[-> Hnw]].
  - rewrite is_ok_OK in Hres. cbn [negb] in Hres. destruct (Z.ltb_spec capacity (zlen w)) as [Hlt|Hge].
    { destruct Hres as (-> & -> & Em). rewrite Em. split; [intros b o Hb' _; now apply Hk|]. right. left. auto. }
    unfold tlv_writer_init in Hres. rewrite Hwrite in Hres.
    replace (is_null data && negb (capacity =? 0)) with false in Hres by (destruct data; [rewrite Hdn by done|]; done). cbn [orb negb] in Hres.
    rewrite is_ok_OK in Hres. destruct Hb as [[_ Hb] _].
    destruct (copy_out s1.(st_mem) data capacity (snd ww).(ws_data) (zlen w)) as (m' & Ec & Ho & Hbo); [lia|done|done| |].
    { intros En. rewrite En in Hb. lia. }
    rewrite Ec, is_ok_OK in Hres. destruct Hres as (-> & -> & Em). rewrite Em. cbn [tlv_writer_size w_pos]. split.
    + intros b o Hb' Hi. rewrite (Ho b o Hi). now apply Hk.
    + left. split; [done|]. split; [done|]. split; [lia|]. now rewrite Hbo.
  - change (is_ok TLV_ERR_OUT_OF_MEMORY) with false in Hres. cbn [negb] in Hres. destruct Hres as (-> & -> & Em). rewrite Em.
    split; [intros b o Hb' _; now apply Hk|]. right. right. split; [done|]. split; [done|]. split; [intros b o; apply Hk|].
    intros [Hwill Hfr]. apply Hnw. split; [done|]. apply (replay_deep (node_size d) s.(st_mem)); [lia|]. fold fo. lia.
Qed.
End Encode.
