(* ===== verification/DocumentWriterLaws.v ===== *)
(** * Documents: the laws of encoding

    A well-formed document is encoded as its contents, whatever the buffer; what is parsed is encoded as it
    was; and no format can make the operation leak or lose its way. *)

From S2P Require Import Prelude Mem Core Format Diagnostic WireFormat Reader TreeReader TreeLaws Writer TreeWriter TreeMeasure TreeWriterLaws TreeMeasureLaws.
From S2P Require Import Document DocumentReader DocumentTree DocumentFree DocumentInv DocumentErase DocumentBuild DocumentConsume.
From S2P Require Import DocumentParse DocumentLaws DocumentWriter DocumentEncode.

Section Sections.
Context `{Platform} `{DocumentLayout}.

Lemma linked_size N parent prev next g : linked N parent prev next g -> NoDup (addrs g) -> (length (addrs g) <= size N)%nat.
Proof using.
  intros Hl Hn. rewrite <- (size_dom N), <- (size_list_to_set (C := gset Z)) by done. apply subseteq_size.
  intros a Ha. apply elem_of_list_to_set in Ha. apply elem_of_dom. exact (linked_lookup _ _ _ _ _ _ Hl Ha).
Qed.

(** The whole document. *)
Lemma document_section s doc d F : doc_ok s doc d F -> section s doc d F false /\ d.(d_first) = head_or None F.
Proof using.
  intros Hok. pose proof Hok as [Hs Hd _ [Hc Hl] Ho [_ Li _] _ Hh Hsh _]. split.
  - split; [done|eauto|done|apply Ho|done|lia|exact (linked_size _ _ _ _ _ Hl (owned_addrs _ _ _ Ho))].
  - destruct Hc as (d' & Hd' & Hf & _). congruence.
Qed.

(** A node with its subtree. *)
Lemma node_section s doc d C l a p kids r : doc_ok s doc d (plug C (dapp l (DNode a p kids r))) ->
  section s doc d (DNode a p kids DNil) true /\ (forall b, b ∈ blocks (DNode a p kids DNil) -> b ∈ s.(st_live)).
Proof using.
  intros Hok. pose proof Hok as [Hs Hd _ Ht Ho [_ Li _] _ Hh Hsh _].
  apply filled_gap in Ht as (_ & Hn & Hk). pose proof (ow_payloads _ _ _ Ho) as Hp.
  rewrite payloads_plug, payloads_dapp in Hp. cbn [payloads] in Hp. rewrite !Forall_app, Forall_cons, Forall_app in Hp.
  destruct Hp as [[_ [Hp [Hpk _]]] _].
  destruct (shape_unplug C (dapp l (DNode a p kids r))) as [_ Hsg]; [now destruct l|done|]. rewrite shape_dapp in Hsg. cbn [shape] in Hsg.
  destruct Hsg as [_ (Hc & Hv & Hsk & _)].
  pose proof (dheight_place C (dapp l (DNode a p kids r))) as Hdh. rewrite dheight_dapp in Hdh. cbn [dheight] in Hdh.
  assert (linked s.(st_nodes) (place_parent None C) (last_or None l) (head_or None r) (DNode a p kids DNil)) as Hl by (cbn; done).
  assert (forall b, b ∈ blocks (DNode a p kids DNil) -> b ∈ blocks (plug C (dapp l (DNode a p kids r)))) as Hsub.
  { intros b. rewrite blocks_plug, blocks_dapp. cbn [blocks]. rewrite app_nil_r, !elem_of_app, !elem_of_cons, !elem_of_app. tauto. }
  split; [split|].
  - done.
  - eexists _, _, _. split; [exact Hl|done].
  - eauto.
  - cbn [payloads]. rewrite app_nil_r. constructor; done.
  - cbn [shape]. done.
  - cbn [dheight]. pose proof (dheight_nonneg kids). lia.
  - apply (linked_size _ _ _ _ _ Hl). pose proof (ow_distinct _ _ _ Ho) as Hnd. rewrite blocks_plug, blocks_dapp, blocks_split in Hnd.
    rewrite (blocks_split (DNode a p kids r)) in Hnd. cbn [addrs] in *. rewrite app_nil_r. apply NoDup_app in Hnd as (Hnd & _ & _).
    apply NoDup_app in Hnd as (_ & _ & Hnd). apply NoDup_app in Hnd as (Hnd & _ & _).
    change (a :: addrs kids ++ addrs r) with ((a :: addrs kids) ++ addrs r) in Hnd. now apply NoDup_app in Hnd as (Hnd & _ & _).
  - intros b Hb. apply (ow_live _ _ _ Ho), Hsub, Hb.
Qed.

(** What lives has been handed out. *)
Lemma live_old s b : store_ok s -> b ∈ s.(st_live) -> b < s.(st_next).
Proof using. intros Hs Hb. destruct (Z.lt_ge_cases b s.(st_next)) as [|Hge]; [done|]. destruct (so_live _ Hs b Hge Hb). Qed.

Lemma extra_store_ok s s' : store_ok s -> extra s s' [] -> store_ok s'.
Proof using.
  intros [N D L] [H1 H2 H3 H4 _ _]. split; intros b Hb; rewrite ?H1, ?H2, ?H4; [apply N|apply D|]; try lia.
  intros Hx. apply elem_of_union in Hx as [Hx|Hx]; [apply (L b); [lia|done]|]. now apply elem_of_list_to_set, elem_of_nil in Hx.
Qed.

Lemma extra_live s s' : extra s s' [] -> s'.(st_live) = s.(st_live).
Proof using. intros Hx. rewrite (xt_live _ _ _ Hx). apply leibniz_equiv. set_solver. Qed.

(** A document that nothing was written to. *)
Lemma extra_doc_ok s s' doc d F : doc_ok s doc d F -> extra s s' [] -> doc_ok s' doc d F.
Proof using.
  intros [K1 K2 K3 K4 K5 K6 K7 K8 K9 K10] Hx. pose proof (extra_live _ _ Hx) as El. pose proof Hx as [En Ed _ _ _ _].
  split; try done.
  - exact (extra_store_ok _ _ K1 Hx).
  - now rewrite Ed.
  - now rewrite El.
  - unfold tree_in, cells in *. now rewrite En, Ed.
  - destruct K5 as [O1 O2 O3 O4 O5]. split; rewrite ?Ed, ?El, ?En; done.
Qed.
End Sections.

Section Laws.
Context `{Platform} `{DocumentLayout} `{WriterLayout} (f : tlv_format_t) `{!CodecLaws f} (p : list Z -> bool)
  (Hclass : forall m tag, tag_ok tag -> is_constructed (Some f) m tag = p (tag_bytes m tag))
  (Hwrite : tlv_format_can_write (Some f) = true).

Lemma document_encodable s doc d F w : doc_ok s doc d F -> forest_wire f (contents (node_size d) s.(st_mem) F) = Some w ->
  classified p (contents (node_size d) s.(st_mem) F) = true -> forest_room f (contents (node_size d) s.(st_mem) F) <= SIZE_MAX ->
  encodable f p s d F w.
Proof using.
  intros Hok Hw Hcl Hroom. pose proof Hok as [Hs _ _ _ Ho [Li _ _] [_ Hn] _ _ _]. split; try done.
  - intros b Hb. apply (live_old s b Hs), (ow_live _ _ _ Ho), Hb.
  - lia.
Qed.

Lemma encode_as_run s doc d F w data capacity written : doc_ok s doc d F ->
  forest_wire f (contents (node_size d) s.(st_mem) F) = Some w ->
  classified p (contents (node_size d) s.(st_mem) F) = true -> forest_room f (contents (node_size d) s.(st_mem) F) <= SIZE_MAX ->
  (data = NULL -> capacity = 0) -> capacity <= SIZE_MAX -> below s data ->
  exists rc n s', tlv_document_encode_as (Some doc) (Some f) data capacity (Some written) s = Some ((rc, Some n), s') /\
    doc_ok s' doc d F /\ extra s s' [] /\
    (forall b o, b < s.(st_next) -> inside data (zlen w) b o = false -> s'.(st_mem) b o = s.(st_mem) b o) /\
    ((rc = TLV_OK /\ n = zlen w /\ zlen w <= capacity /\ bytes_of s'.(st_mem) data (zlen w) = w) \/
     (rc = TLV_ERR_BUFFER_TOO_SHORT /\ n = zlen w /\ capacity < zlen w /\ same_below s s'.(st_mem)) \/
     (rc = TLV_ERR_OUT_OF_MEMORY /\ n = written /\ same_below s s'.(st_mem) /\
      ~ (willing d /\ forest_frames (contents (node_size d) s.(st_mem) F) <= SIZE_MAX / sizeof_writer_frame))).
Proof using Hclass Hwrite.
  intros Hok Hw Hcl Hroom Hdn Hcap Hb. destruct (document_section s doc d F Hok) as [Hsec Hfirst].
  pose proof (document_encodable s doc d F w Hok Hw Hcl Hroom) as He.
  destruct (encode_forest_run f p Hclass Hwrite s doc d F false w data capacity written (dk_store _ _ _ _ Hok) Hsec He Hdn Hcap Hb)
    as (rc & n & s' & E & Hx & Hm & Hout).
  unfold tlv_document_encode_as. replace (is_null data && negb (capacity =? 0)) with false by (destruct data; [rewrite Hdn by done|]; done).
  run (document_at_run s doc d (dk_document _ _ _ _ Hok)). rewrite Hfirst. run E.
  exists rc, n, s'. split; [done|]. split; [exact (extra_doc_ok _ _ _ _ _ Hok Hx)|]. done.
Qed.

(** C7. Encoding a well-formed document with any format that has the laws of a codec, into any buffer, writes
    the encoding of the forest that the document holds, reports that the buffer is too small and how much
    is needed, or runs out of memory; the last only when the allocator refuses or the nodes are nested
    deeper than an array of frames can be.  Whatever the outcome the document is as it was, everything
    that was allocated on the way is released, and nothing outside the buffer's first octets changes. *)
Theorem document_encode_forest (s : store) (doc : Z) (d : tlv_document_t) (F : dforest) (w : list Z) (data : ptr) (capacity written : Z)
  (Hok : doc_ok s doc d F) (Hw : forest_wire f (contents (node_size d) s.(st_mem) F) = Some w)
  (Hcl : classified p (contents (node_size d) s.(st_mem) F) = true)
  (Hroom : forest_room f (contents (node_size d) s.(st_mem) F) <= SIZE_MAX)
  (Hdata : data = NULL -> capacity = 0) (Hcap : 0 <= capacity <= SIZE_MAX) (Hbelow : below s data) :
  exists rc n s', tlv_document_encode_as (Some doc) (Some f) data capacity (Some written) s = Some ((rc, Some n), s') /\
    doc_ok s' doc d F /\ s'.(st_live) = s.(st_live) /\
    (forall b o, b < s.(st_next) -> inside data (zlen w) b o = false -> s'.(st_mem) b o = s.(st_mem) b o) /\
    ((rc = TLV_OK /\ n = zlen w /\ bytes_of s'.(st_mem) data (zlen w) = w) \/
     (rc = TLV_ERR_BUFFER_TOO_SHORT /\ n = zlen w /\ capacity < zlen w) \/ (rc = TLV_ERR_OUT_OF_MEMORY /\ n = written)) /\
    (willing d -> forest_frames (contents (node_size d) s.(st_mem) F) <= SIZE_MAX / sizeof_writer_frame ->
     rc = if zlen w <=? capacity then TLV_OK else TLV_ERR_BUFFER_TOO_SHORT).
Proof.
  destruct (encode_as_run s doc d F w data capacity written Hok Hw Hcl Hroom Hdata ltac:(lia) Hbelow) as (rc & n & s' & E & Hok' & Hx & Hm & Hout).
  exists rc, n, s'. split; [exact E|]. split; [exact Hok'|]. split; [exact (extra_live _ _ Hx)|]. split; [exact Hm|].
  destruct Hout as [(-> & -> & Hle & Hb)|[(-> & -> & Hlt & _)|(-> & -> & _ & Hno)]].
  - split; [auto|]. intros _ _. now rewrite (proj2 (Z.leb_le _ _)) by lia.
  - split; [auto|]. intros _ _. now rewrite (proj2 (Z.leb_gt _ _)) by lia.
  - split; [auto|]. intros Hwill Hfr. destruct Hno. done.
Qed.


(** C8. What a document is encoded as parses back, under options that admit it, to a document with the same
    contents; the document that was encoded is untouched. *)
Theorem document_roundtrip (decode : tlv_decode_fn) (Hdec : f.(f_decode) = Some decode) (Hlaws : DecodeLaws decode)
  (s : store) (doc : Z) (d : tlv_document_t) (F : dforest) (w : list Z) (data : ptr) (capacity : Z) (o : tlv_document_options_t)
  (dg : option tlv_reader_diagnostic_t)
  (Hok : doc_ok s doc d F) (Hwill : willing d) (Ho : admits f p o (contents (node_size d) s.(st_mem) F) w)
  (Hroom : forest_room f (contents (node_size d) s.(st_mem) F) <= SIZE_MAX)
  (Hframes : forest_frames (contents (node_size d) s.(st_mem) F) <= SIZE_MAX / sizeof_writer_frame)
  (Hdata : data <> NULL) (Hfit : zlen w <= capacity <= SIZE_MAX) (Hbelow : below s data)
  (Haway : match data with Ptr b _ => b ∉ blocks F | NULL => True end) (Hty : format_typed f dg) :
  exists s1 d2 F2 dg2 s2,
    tlv_document_encode_as (Some doc) (Some f) data capacity (Some 0) s = Some ((TLV_OK, Some (zlen w)), s1) /\
    tlv_document_parse data (zlen w) (Some o) dg s1 = Some ((TLV_OK, Some s1.(st_next), dg2), s2) /\
    doc_ok s1 doc d F /\ contents (node_size d) s1.(st_mem) F = contents (node_size d) s.(st_mem) F /\
    doc_ok s2 s1.(st_next) d2 F2 /\ contents (node_size d2) s2.(st_mem) F2 = contents (node_size d) s.(st_mem) F.
Proof.
  destruct (encode_as_run s doc d F w data capacity 0 Hok (ad_wire _ _ _ _ _ Ho) (ad_class _ _ _ _ _ Ho) Hroom) as (rc & n & s1 & E & Hok1 & Hx & Hm & Hout);
    [done|lia|done|].
  destruct Hout as [(-> & -> & _ & Hb)|[(_ & _ & Hlt & _)|(_ & _ & _ & Hno)]]; [|lia|destruct Hno; done].
  destruct (parse_forest_run f decode Hdec p Hclass s1 data o (contents (node_size d) s.(st_mem) F) w dg) as (d2 & F2 & dg2 & s2 & Ep & Hok2 & Hc2 & _);
    [apply Hok1|done|done| |done|done|].
  { destruct data as [|b i]; [done|]. cbn in *. pose proof (xt_next _ _ _ Hx). lia. }
  exists s1, d2, F2, dg2, s2. split; [exact E|]. split; [exact Ep|]. split; [exact Hok1|]. split; [|done].
  apply contents_frame. intros b i Hbb. apply Hm.
  - apply (live_old s b); [apply Hok|]. apply (ow_live _ _ _ (dk_owned _ _ _ _ Hok)), Hbb.
  - destruct data as [|c j]; [done|]. cbn. destruct (Z.eqb_spec c b) as [->|]; done.
Qed.
End Laws.

Section AnyFormat.
Context `{Platform} `{DocumentLayout} `{WriterLayout}.

(** C9. Encoding a well-formed document, or one of its nodes, with any format and any allocator terminates
    without touching dead memory; nodes, documents and the allocator's live blocks are afterwards what
    they were, so that nothing leaks on any path. *)
Theorem document_encode_any (s : store) (doc : Z) (d : tlv_document_t) (C : list dframe) (l : dforest) (a : Z) (q : payload) (kids r : dforest)
  (format : option tlv_format_t) (data : ptr) (capacity written : Z)
  (Hok : doc_ok s doc d (plug C (dapp l (DNode a q kids r)))) (Hdata : data = NULL -> capacity = 0) :
  (exists rc n s', tlv_document_encode_as (Some doc) format data capacity (Some written) s = Some ((rc, Some n), s') /\
     s'.(st_nodes) = s.(st_nodes) /\ s'.(st_documents) = s.(st_documents) /\ s'.(st_live) = s.(st_live)) /\
  (exists rc n s', tlv_node_encode_as (Some a) format data capacity (Some written) s = Some ((rc, Some n), s') /\
     s'.(st_nodes) = s.(st_nodes) /\ s'.(st_documents) = s.(st_documents) /\ s'.(st_live) = s.(st_live)).
Proof.
  pose proof (dk_store _ _ _ _ Hok) as Hs.
  assert (is_null data && negb (capacity =? 0) = false) as Hnn by (destruct data; [rewrite Hdata by done|]; done). split.
  - destruct (document_section s doc d _ Hok) as [Hsec Hfirst].
    destruct (encode_any_run s doc d _ false format data capacity written Hs Hsec) as (rc & n & s' & E & Hx).
    unfold tlv_document_encode_as. rewrite Hnn. run (document_at_run s doc d (dk_document _ _ _ _ Hok)). rewrite Hfirst. run E.
    exists rc, n, s'. split; [done|]. pose proof (extra_live _ _ Hx). now destruct Hx.
  - destruct (node_section s doc d C l a q kids r Hok) as [Hsec _].
    destruct (encode_any_run s doc d _ true format data capacity written Hs Hsec) as (rc & n & s' & E & Hx). cbn [head_or] in E.
    unfold tlv_node_encode_as. rewrite Hnn. pose proof (sn_linked _ _ _ _ _ Hsec) as (pa & pv & nx & (Hn & _) & _).
    run (node_at_run s a _ Hn). cbn [node_of n_document]. pose proof (sn_payloads _ _ _ _ _ Hsec) as Hp. cbn [payloads] in Hp.
    apply Forall_cons_1 in Hp as [[Hdoc _] _]. rewrite Hdoc. run E. exists rc, n, s'. split; [done|]. pose proof (extra_live _ _ Hx). now destruct Hx.
Qed.
End AnyFormat.

(** ** A concrete document *)

Definition example_writer_layout : WriterLayout := {| sizeof_writer_frame := 24; sizeof_writer_frame_range := ltac:(lia) |}.

(** What is parsed from block 1, which stays the caller's. *)
Lemma example_document : exists s d F, @doc_ok LP64 s 2 d F /\ contents (@node_size example_layout d) s.(st_mem) F = tree_example_forest /\
  willing d /\ below s (Ptr 1 0) /\ (1 ∉ blocks F).
Proof using.
  destruct example_parsed as (d & F & dg & s & E & Hok & Hc & _). exists s, d, F.
  assert (option_map (fun r => ((fun d => (d.(d_allocator), @node_size example_layout d)) <$> (snd r).(st_documents) !! 2,
             1 <? (snd r).(st_next), bool_decide (1 ∈ (snd r).(st_live))))
            (@tlv_document_parse LP64 example_layout (Ptr 1 0) 9 (Some example_options) None example_store) =
          Some (Some (fun _ _ => true, 80), true, false)) as Hseen by (vm_compute; reflexivity).
  rewrite E in Hseen. cbn [option_map snd] in Hseen. rewrite (dk_document _ _ _ _ Hok) in Hseen. cbn [fmap option_fmap option_map] in Hseen.
  apply (inj Some) in Hseen. apply pair_equal_spec in Hseen as [Hseen Hlive]. apply pair_equal_spec in Hseen as [Hseen Hnext].
  apply (inj Some) in Hseen. apply pair_equal_spec in Hseen as [Hgrants Hsize].
  split; [exact Hok|]. split; [rewrite Hsize; exact Hc|]. split; [intros requests n; now rewrite Hgrants|]. split; [cbn; lia|].
  intros Hb. apply bool_decide_eq_false in Hlive. apply Hlive, (ow_live _ _ _ (dk_owned _ _ _ _ Hok)), Hb.
Qed.

(** The document is encoded over the octets that it was parsed from. *)
Lemma document_encode_forest_witness :
  exists s s', @tlv_document_encode_as LP64 example_layout example_writer_layout (Some 2) (Some tree_example_format) (Ptr 1 0) 16 (Some 0) s =
      Some ((TLV_OK, Some 9), s') /\ bytes_of s'.(st_mem) (Ptr 1 0) 9 = example_octets /\ s'.(st_live) = s.(st_live).
Proof.
  destruct example_document as (s & d & F & Hok & Hc & Hwill & Hbelow & Haway).
  destruct (@document_encode_forest LP64 example_layout example_writer_layout tree_example_format tree_example_codec tree_example_class
    tree_example_classes eq_refl s 2 d F example_octets (Ptr 1 0) 16 0 Hok
    ltac:(rewrite Hc; vm_compute; reflexivity) ltac:(rewrite Hc; vm_compute; reflexivity) ltac:(rewrite Hc; vm_compute; congruence)
    ltac:(discriminate) ltac:(split; vm_compute; congruence) Hbelow) as (rc & n & s' & E & _ & Hl & _ & Hout & Hfits).
  specialize (Hfits Hwill ltac:(rewrite Hc; vm_compute; congruence)). change (zlen example_octets <=? 16) with true in Hfits. cbv iota in Hfits.
  exists s, s'. destruct Hout as [(_ & Hn & Hb)|[(Hx & _)|(Hx & _)]]; [|rewrite Hfits in Hx; discriminate..].
  rewrite Hfits, Hn in E. exact (conj E (conj Hb Hl)).
Defined.

(** It parses back from there. *)
Lemma document_roundtrip_witness :
  exists s s1 s2 d F d2 F2 dg, @doc_ok LP64 s 2 d F /\ contents (@node_size example_layout d) s.(st_mem) F = tree_example_forest /\
    @tlv_document_encode_as LP64 example_layout example_writer_layout (Some 2) (Some tree_example_format) (Ptr 1 0) 16 (Some 0) s =
      Some ((TLV_OK, Some 9), s1) /\
    @tlv_document_parse LP64 example_layout (Ptr 1 0) 9 (Some example_options) None s1 = Some ((TLV_OK, Some s1.(st_next), dg), s2) /\
    @doc_ok LP64 s2 s1.(st_next) d2 F2 /\ contents (@node_size example_layout d2) s2.(st_mem) F2 = tree_example_forest.
Proof.
  destruct example_document as (s & d & F & Hok & Hc & Hwill & Hbelow & Haway).
  destruct (@document_roundtrip LP64 example_layout example_writer_layout tree_example_format tree_example_codec tree_example_class
    tree_example_classes eq_refl _ eq_refl tree_example_laws s 2 d F example_octets (Ptr 1 0) 16 example_options None Hok Hwill
    ltac:(rewrite Hc; exact example_admits) ltac:(rewrite Hc; vm_compute; congruence) ltac:(rewrite Hc; vm_compute; congruence)
    ltac:(discriminate) ltac:(split; vm_compute; congruence) Hbelow Haway example_typed)
    as (s1 & d2 & F2 & dg & s2 & E1 & E2 & _ & _ & Hok2 & Hc2).
  exists s, s1, s2, d, F, d2, F2, dg. rewrite Hc in Hc2.
  exact (conj Hok (conj Hc (conj E1 (conj E2 (conj Hok2 Hc2))))).
Defined.

(** The first node of the document is measured. *)
Lemma document_encode_any_witness :
  exists s a rc n s', @tlv_node_encode_as LP64 example_layout example_writer_layout (Some a) (Some tree_example_format) NULL 0 (Some 0) s =
      Some ((rc, Some n), s') /\ s'.(st_live) = s.(st_live) /\ s'.(st_nodes) = s.(st_nodes).
Proof.
  destruct example_document as (s & d & F & Hok & Hc & _). destruct F as [|a q kids r]; [cbn in Hc; discriminate|].
  destruct (@document_encode_any LP64 example_layout example_writer_layout s 2 d [] DNil a q kids r (Some tree_example_format) NULL 0 0 Hok
    ltac:(reflexivity)) as [_ (rc & n & s' & E & Hn & _ & Hl)].
  exists s, a, rc, n, s'. exact (conj E (conj Hl Hn)).
Defined.
